(* ===== verification/_CoqProject ===== *)
-Q . S2P
Prelude.v
Real.v
Dhkey.v
Rng.v
BloomBase.v
BloomClassic.v
BloomStandard.v
BloomScalable.v
BloomCounting.v
BloomDecaying.v
BloomNeuropil.v
BloomNeuropilSpec.v
BloomNeuropilThms.v
Heap.v
HeapSpec.v
Jobqueue.v
JobqueueSpec.v
Sll.v
SllSpec.v
Scache.v
Cupidtrie.v
CupidtrieThms.v
Statemachine.v
StatemachineSpec.v
Pheromones.v
PheromonesSpec.v
PheromonesThms.v
Key.v
KeySort.v
Route.v
RouteTable.v
RouteLeafset.v
RouteLookup.v
Token.v
Keycache.v
KeycacheSpec.v
KeycacheThms.v
KeyStates.v
KeyLife.v
KeyLifeThms.v
Chunk.v
ChunkThms.v
Reassembly.v
Dll.v
DllSpec.v
Qcbor.v
Treeval.v
Tree.v
TreeSpec.v
Serial.v
SerialThms.v
BloomSerial.v
Datablock.v
DatablockSpec.v
DatablockThms.v
Crypto.v
Aaatoken.v
AaatokenSpec.v
Attributes.v
TokenFactory.v
TokenFactoryThms.v
UserToken.v
Intent.v
IntentThms.v
LedgerThms.v
Msgproperty.v
MsgpropertyThms.v
MsgpropertyLife.v
MsgpropertyLifeThms.v
Payload.v
PayloadThms.v
Node.v
NodeThms.v
Reach.v
Axon.v
Dendrit.v
DendritThms.v
Wire.v
Peer.v
PeerThms.v
