(* ===== verification/Prelude.v ===== *)
(** * A verification development for neuropil

    Neuropil is a C library for a peer-to-peer messaging overlay: every node,
    identity, message channel and user space message type has a 256-bit
    distributed hash key; messages are routed by longest common prefix over a
    routing table and two leafsets, or along pheromone trails left by the
    announcements of channels; every hash key a node knows owns a state
    machine that a job queue drives.

    This library models that core as executable definitions, and proves what
    makes it correct.  A definition carries the name of the C function,
    structure, enumeration or macro it models.

    ** Conventions

    - Integers are [Z]; each arithmetic step that the C type wraps is wrapped
      by [u8], [u16], [u32], [u64] (Prelude).  Times and probabilities, C
      doubles, are rationals (Real); see "Not modelled".
    - Code that can abort, fail an ASSERT, leave an array, follow NULL, divide
      by zero or loop for ever lives in the monad [result] of Prelude: the
      constructors of [fault] name the ways to fail, and a theorem that says
      [Ok] says that none of them happens.
    - Objects that the code shares through pointers (list elements, keys of
      the key cache, tokens in use by several tables) are named by numbers and
      live in a store ([gmap]) that the operations thread; objects with a
      single owner are plain values.  Reference counting (np_ref_obj and
      np_unref_obj) is modelled where a table owns references: as a count of
      the references it holds.
    - Loops are structural recursion or a [for_range]; where a loop follows
      pointers it has fuel, and running out of it is the fault [Diverges].  The
      fuel is the number of nodes in the store plus one for lists (Sll, Dll), and the
      number of levels of the heap (Heap); theorems such as
      [sll_sequence_refines], [pll_priority_list] and [binheap_priority_queue]
      end in [Ok], so they include that the fuel is enough.

    ** The parts of the program and where they are modelled

    Basic data.
    - Hash keys: src/np_dhkey.c.  File Dhkey: [np_dhkey_t] is a record of
      eight words; comparison, ring arithmetic, distance, common prefix, hex
      text forms.
    - Random numbers: src/util/np_pcg_rng.c.  File Rng.
    - Bloom filters: src/util/np_bloom.c.  BloomBase (cells, hashing of a key
      to positions), BloomClassic, BloomStandard (the standard and stable
      filters), BloomScalable, BloomCounting, BloomDecaying, BloomNeuropil
      (the filter of the pheromones, with a count and an age per cell), with
      BloomNeuropilSpec and BloomNeuropilThms for its proofs; BloomSerial, its
      form on the wire.
    - Containers: util/np_heap.h (Heap, HeapSpec), the macros of
      util/np_list.h (Sll and SllSpec for singly linked lists; Dll and DllSpec
      for doubly linked and priority lists), util/np_scache.c (Scache),
      util/np_cupidtrie.c (Cupidtrie, CupidtrieThms: tries over nibbles).
    - Values and trees: util/np_treeval.c (Treeval), util/np_tree.c (Tree, and
      TreeSpec, its refinement of a finite map).
    - Serialisation, in the QCBOR build: s11n_impl/np_serialize_qcbor.c.  Qcbor
      states what is used of QCBOR, with an instance after RFC 8949; Serial has
      the readers and writers and their safety, SerialThms the round trip.
    - Data blocks: src/neuropil_data.c.  Datablock, DatablockSpec (a block is a
      list of named values), DatablockThms (the operations refine those on lists).

    Identity and trust.
    - Keys and sessions: src/np_crypto.c.  Crypto, over the class [Sodium] of
      the laws of libsodium that are used, with a toy instance for examples.
    - Tokens: src/np_aaatoken.c.  Token has the validity rules; Aaatoken the
      token as it is: fingerprint, hashes, signatures, encoding; AaatokenSpec
      its properties; UserToken the form applications see.
    - Attributes and policies: src/neuropil_attributes.c.  Attributes.
    - Making tokens: src/np_token_factory.c.  TokenFactory, TokenFactoryThms.
    - Intents: core/np_comp_intent.c.  Intent (the ledger of the tokens of
      senders and receivers of a subject, sessions between them), IntentThms,
      LedgerThms.

    Keys and nodes.
    - State machines: util/np_statemachine.c.  Statemachine has the engine,
      StatemachineSpec its contract.
    - The key cache: src/np_keycache.c.  Keycache, KeycacheSpec, KeycacheThms.
    - Key life cycle: src/np_key.c and the conditions of core/np_comp_*.c.
      KeyStates has the state table of a key, its conditions, and the class
      [TokenOps] that stands for what the conditions ask of tokens; KeyLife
      the handling of one event with the engine of Statemachine; KeyLifeThms its
      properties.
    - Nodes: src/np_node.c.  Node, NodeThms: data of a node, its text and tree
      forms, success and latency.  Reach: addresses and who can reach whom
      (src/np_glia.c, src/np_network.c).
    - Peers: the actions of core/np_comp_node.c.  Peer, PeerThms: requests for
      handshake and join, tokens, table and leafset, farewell.
    - The job queue: src/np_jobqueue.c.  Jobqueue has the operations,
      JobqueueSpec what one of them does and a run of any number of them, the
      interleaving of submitters and workers included.

    Messages.
    - Routing: src/np_route.c.  Key (a key as routing sees it), KeySort (the
      sort functions), Route (table, leafsets, lookups), RouteTable,
      RouteLeafset, RouteLookup.
    - Pheromones: src/np_pheromones.c.  Pheromones, PheromonesSpec,
      PheromonesThms.
    - Payload and chunks: src/np_message.c and src/np_messagepart.c.  Payload and
      PayloadThms: a message with header and body, sealed and opened; Chunk and
      ChunkThms: cutting it into packets of 1024 bytes, forwarding them, putting
      them together again.
    - Incomplete messages: core/np_comp_alias.c.  Reassembly: the part cache and
      the filter that suppresses repeated messages.
    - Subjects: core/np_comp_msgproperty.c.  Msgproperty and MsgpropertyThms:
      settings, caches of messages, responses; MsgpropertyLife and
      MsgpropertyLifeThms: what their keys do with messages and tokens.
    - Sending: src/np_axon.c.  Axon.  Receiving: src/np_dendrit.c.
      Dendrit, DendritThms.
    - Links: core/np_comp_node.c and core/np_comp_alias.c.  Wire: packets,
      transport encryption, what an alias does with parts.

    How they interact: a packet that arrives for an alias key is opened (Wire)
    and is an event of that key's state machine (KeyLife); its action puts the part
    in the part cache (Reassembly), which uses the parts of Chunk and the decaying
    filter of BloomDecaying; a message that is complete is an event of the key of
    its subject, whose handlers are those of Dendrit and MsgpropertyLife; they check
    tokens (Aaatoken) and policies (Attributes) and raise events for the keys of
    peers (Peer).  A message for another node, and one's own, is sent by Axon to the
    keys that np_route.c (Route) or the pheromone table (Pheromones) selects, and
    goes out through Wire; all work that is not done at once is a job of Jobqueue,
    whose queue is the heap of Heap.  The pheromone table stores filters of
    BloomNeuropil.  Keys live in the table of Keycache.  Bodies of messages and
    tokens are trees (Tree) that Serial writes and reads.

    ** What the theorems show

    - Delivery.  [prefix_forwarding_delivers]: a message forwarded hop by hop
      over tables with a usable entry for the target comes to the target, each
      hop gaining at least one digit; [forwarded_along_trail], [searches_find]: the
      other ways a message takes.  [message_handed_on_once]: a message of at
      most 72 chunks is handed on exactly once, in whatever order its parts come
      and however often a part comes again afterwards, if the numbers of its chunks
      do not wrap around; if they do, some order of them makes the receiver leave
      its array.  [chunks_reassembled] and [forwarded_packet_keeps_chunk]: the round
      trip through its chunks, over any number of hops, under the same condition; [message_body_delivered]: what the receiver opens and reads is
      what was sent; [link_carries_parts]: the same for the packets of one link.
    - Trust.  [intent_token_accepted], [signed_token_accepted]: tokens made here are
      accepted there; [join_request_accepted], [join_needs_linked_tokens]: who may
      join; [policy_compliance_spec]; [sessions_agree], [peers_sessions_fit],
      [session_key_reaches_receivers]: both sides hold the same keys.
    - Routing state.  [route_table_invariant], [route_update_spec],
      [leafset_update_spec], [route_clear_spec], [route_lookup_spec]: what the
      table and the leafsets contain after each operation, and the
      bookkeeping of references and counts; [routing_flags_follow]: the flags of
      the nodes agree with them in every run of the peers' actions, as long as no
      peer is given up while the tables have it.
    - Pheromones and filters.  [pheromone_inhale_spec],
      [neuropil_counters_bounded], [neuropil_membership_expiry],
      [news_ages_out] and the refinements of the other filters to sets, multisets
      and life times.
    - Containers against abstract specifications: lists as sequences, the heap
      as a priority queue, trees, tries, caches and data blocks as finite maps or
      lists; [key_can_be_lost]: where a trie is not one.
    - Bytes: [tree_roundtrip], [deserialisation_is_safe], [filter_roundtrip]:
      trees of the values that survive (the statement lists them) and filters are
      read back as they were written, and reading what anybody sent is safe.
    - Job queue: [select_job_spec] (the due job of the highest priority is taken),
      [jobs_conserved] (no job is lost, made up or given to two workers).
    - Life cycle: the engine stays in its table, a peer used for routing was
      authenticated before, keys move only along the documented states, and only a
      condition or an action that faults ends a run; [conditions_defined] says
      when conditions do.  [keycache_references_sound]: the counts of references
      agree with who holds them, whatever the users of the cache ask for.
      [requests_spaced]: connecting goes on, at a bounded rate.
    - Errors: [missing_element_handled] and the lemmas the findings name.

    ** Not modelled

    - Double rounding: C doubles are exact rationals here, so comparisons of
      times hold for exact sums; the decimal constants of the code are taken as
      decimals, and a double on the wire is eight bytes by the class [Doubles].
      The exception is the loop that ages the scent of a pheromone ([age_loop]), whose end
      depends on rounding: its sums are rounded to 53 bits ([fadd] of Real).
    - Memory allocation failure and the free lists of np_memory.c; a
      well-formed reference is enough everywhere else.
    - libsodium, QCBOR, libev, the SQLite and HTTP code are third-party: where
      code we model calls them, the model takes the function as a parameter with
      its documented laws.  The red-black trees of tree.h are finite maps, or a
      class of laws with its instances ([RbTree]).
    - Locks: every modelled operation that the code runs under a lock is one
      step; the interleavings considered are those of whole operations.
    - Network sockets, DNS, event loops, threads, statistics, logging, the checks of
      the public interface (neuropil.c), the CMP serialisation, the applications of
      framework/ and what only they use (skip lists, minhash, the intersection of
      tries), bindings and examples: effects outside the program, display, or
      not part of the library.  Log messages are left out of all operations. *)
From Stdlib Require Import ZArith Lia.
From stdpp Require Import prelude.

#[global] Set Default Goal Selector "!".
Local Open Scope Z_scope.

(** ** Faulting computations

    A C function that may abort ([ABORT], [assert], [ASSERT]), touch memory
    outside an object, divide by zero or fail to leave a loop is modelled by a
    computation in [result]; everything else is a plain function. *)

Inductive fault :=
| Assert_failed   (* assert / ASSERT with a false condition *)
| Aborted         (* ABORT *)
| Bad_access      (* read or write outside an object, or through NULL *)
| Div_by_zero
| Undefined       (* a shift by more than the width: undefined behaviour *)
| Diverges.       (* a loop whose exit condition can never hold *)

Inductive result (A : Type) :=
| Ok (a : A)
| Err (e : fault).

Arguments Ok {A} _.
Arguments Err {A} _.

#[export] Instance fault_eq_dec : EqDecision fault.
Proof. solve_decision. Defined.

#[export] Instance result_ret : MRet result := fun A a => Ok a.

#[export] Instance result_bind : MBind result := fun A B f m =>
  match m with Ok a => f a | Err e => Err e end.

#[export] Instance result_fmap : FMap result := fun A B f m =>
  match m with Ok a => Ok (f a) | Err e => Err e end.

(** [ASSERT (c, msg)] / [assert (c)]. *)
Definition c_assert (c : bool) : result unit :=
  if c then Ok tt else Err Assert_failed.

Lemma bind_ok {A B} (a : A) (f : A -> result B) : mbind f (Ok a) = f a.
Proof. reflexivity. Qed.

Lemma bind_Ok_inv {A B} (m : result A) (f : A -> result B) b :
  mbind f m = Ok b -> exists a, m = Ok a /\ f a = Ok b.
Proof. destruct m as [a|e]; simpl; [eauto | discriminate]. Qed.

Lemma c_assert_Ok_inv c u : c_assert c = Ok u -> c = true.
Proof. by destruct c. Qed.

(** Inverts a successful run of a sequence of binds. *)
Ltac inv_ok :=
  repeat match goal with
  | H : mbind _ _ = Ok _ |- _ =>
      let a := fresh "r" in let H1 := fresh "Hrun" in
      apply bind_Ok_inv in H as (a & H1 & H)
  | H : c_assert _ = Ok _ |- _ => apply c_assert_Ok_inv in H
  | H : Ok _ = Ok _ |- _ => injection H as H; subst
  | H : Err _ = Ok _ |- _ => discriminate H
  end.

(** Proves a closed decidable proposition by evaluating its decision. *)
Ltac by_decide :=
  match goal with |- ?P => apply (bool_decide_unpack P); vm_compute; exact I end.

(** ** Unsigned machine integers *)

Definition u8 (x : Z) : Z := x mod 2 ^ 8.
Definition u16 (x : Z) : Z := x mod 2 ^ 16.
Definition u32 (x : Z) : Z := x mod 2 ^ 32.
Definition u64 (x : Z) : Z := x mod 2 ^ 64.

(** [FLAG_CMP (data, flag)] *)
Definition FLAG_CMP (data flag : Z) : bool := Z.land data flag =? flag.

Definition in_u (w x : Z) : Prop := 0 <= x < 2 ^ w.
#[export] Instance in_u_dec w x : Decision (in_u w x).
Proof. unfold in_u. apply _. Defined.

Definition UINT8_MAX : Z := 255.
Definition UINT16_MAX : Z := 65535.
Definition UINT32_MAX : Z := 4294967295.

Lemma u8_range x : in_u 8 (u8 x).
Proof. apply Z.mod_pos_bound. reflexivity. Qed.
Lemma u16_range x : in_u 16 (u16 x).
Proof. apply Z.mod_pos_bound. reflexivity. Qed.
Lemma u32_range x : in_u 32 (u32 x).
Proof. apply Z.mod_pos_bound. reflexivity. Qed.
Lemma u64_range x : in_u 64 (u64 x).
Proof. apply Z.mod_pos_bound. reflexivity. Qed.

Lemma u8_id x : in_u 8 x -> u8 x = x.
Proof. apply Z.mod_small. Qed.
Lemma u16_id x : in_u 16 x -> u16 x = x.
Proof. apply Z.mod_small. Qed.
Lemma u32_id x : in_u 32 x -> u32 x = x.
Proof. apply Z.mod_small. Qed.
Lemma u64_id x : in_u 64 x -> u64 x = x.
Proof. apply Z.mod_small. Qed.

(** A non-negative number is within [w] bits iff shifting by [w] leaves 0. *)
Lemma in_u_iff_shiftr w x : 0 <= w -> in_u w x <-> 0 <= x /\ x ≫ w = 0.
Proof.
  intros Hw. unfold in_u. rewrite Z.shiftr_div_pow2 by done.
  assert (0 < 2 ^ w) by (by apply Z.pow_pos_nonneg).
  split; intros [? ?]; split; try lia.
  - by apply Z.div_small.
  - apply Z.div_small_iff in H1; lia.
Qed.

Lemma in_u_lor w a b : 0 <= w -> in_u w a -> in_u w b -> in_u w (Z.lor a b).
Proof.
  intros Hw. rewrite !in_u_iff_shiftr by done. intros [? Ha] [? Hb].
  rewrite Z.shiftr_lor, Ha, Hb. split; [by apply Z.lor_nonneg | done].
Qed.

Lemma in_u_land w a b : 0 <= w -> in_u w a -> in_u w b -> in_u w (Z.land a b).
Proof.
  intros Hw. rewrite !in_u_iff_shiftr by done. intros [? Ha] [? Hb].
  rewrite Z.shiftr_land, Ha, Hb. split; [apply Z.land_nonneg; lia | done].
Qed.

Lemma in_u_lxor w a b : 0 <= w -> in_u w a -> in_u w b -> in_u w (Z.lxor a b).
Proof.
  intros Hw. rewrite !in_u_iff_shiftr by done. intros [? Ha] [? Hb].
  rewrite Z.shiftr_lxor, Ha, Hb. split; [apply Z.lxor_nonneg; lia | done].
Qed.

Lemma in_u_shiftr w a n : 0 <= n -> in_u w a -> in_u w (a ≫ n).
Proof.
  unfold in_u. intros Hn [? ?]. rewrite Z.shiftr_div_pow2 by done.
  assert (0 < 2 ^ n) by (by apply Z.pow_pos_nonneg).
  split; [by apply Z.div_pos|]. apply Z.div_lt_upper_bound; nia.
Qed.

(** [lia] with division and remainder by constants. *)
Ltac divlia := Z.to_euclidean_division_equations; lia.

(** Or-ing numbers whose bits do not overlap adds them. *)
Lemma lor_add_disjoint w a b :
  0 <= w -> in_u w a -> b mod 2 ^ w = 0 -> Z.lor a b = a + b.
Proof.
  intros Hw [Ha0 Ha] Hb. assert (Z.land a b = 0) as Hd.
  { apply Z.bits_inj'. intros i Hi. rewrite Z.land_spec, Z.testbit_0_l.
    destruct (decide (i < w)).
    - rewrite <- (Z.mod_pow2_bits_low b w i), Hb, Z.testbit_0_l by lia. apply andb_false_r.
    - rewrite <- (Z.mod_small a (2 ^ w)) by done.
      by rewrite Z.mod_pow2_bits_high by lia. }
  by rewrite Z.add_nocarry_lxor, Z.lxor_lor by done.
Qed.

Create HintDb machine.
#[export] Hint Resolve u8_range u16_range u32_range u64_range : machine.
#[export] Hint Resolve in_u_lor in_u_land in_u_lxor in_u_shiftr : machine.
#[export] Hint Extern 2 (0 <= _) => lia : machine.
#[export] Hint Extern 3 (in_u _ _) => unfold in_u; lia : machine.

(** [__builtin_popcount]: the number of one bits of a 32-bit word. *)
Fixpoint count_bits (n : nat) (x : Z) : Z :=
  match n with
  | O => 0
  | S n' => Z.b2z (Z.testbit x (Z.of_nat n')) + count_bits n' x
  end.
Definition popcount (x : Z) : Z := count_bits 32 x.

Lemma count_bits_range n x : 0 <= count_bits n x <= Z.of_nat n.
Proof.
  induction n as [|n IH]; simpl; [lia|].
  destruct (Z.testbit x (Z.of_nat n)); simpl; lia.
Qed.

Lemma count_bits_0 n : count_bits n 0 = 0.
Proof. induction n as [|n IH]; simpl; [done|]. by rewrite Z.testbit_0_l, IH. Qed.

Lemma count_bits_zero_inv n x :
  count_bits n x = 0 -> forall i, 0 <= i < Z.of_nat n -> Z.testbit x i = false.
Proof.
  induction n as [|n IH]; simpl; intros H i Hi; [lia|].
  pose proof (count_bits_range n x).
  destruct (Z.testbit x (Z.of_nat n)) eqn:E; simpl in H; [lia|].
  destruct (decide (i = Z.of_nat n)) as [->|]; [done|]. apply IH; lia.
Qed.

Lemma testbit_above w x i : in_u w x -> 0 <= w <= i -> Z.testbit x i = false.
Proof.
  intros [? ?] Hi. rewrite <- (Z.mod_small x (2 ^ w)) by done.
  by apply Z.mod_pow2_bits_high.
Qed.

Lemma popcount_zero_iff x : in_u 32 x -> popcount x = 0 <-> x = 0.
Proof.
  intros Hx. split; [|intros ->; apply count_bits_0].
  intros H. apply Z.bits_inj'. intros i Hi. rewrite Z.testbit_0_l.
  destruct (decide (i < 32)).
  - apply (count_bits_zero_inv 32 x); [done | lia].
  - apply (testbit_above 32); [done | lia].
Qed.

(** ** Arrays

    A C array is a list of the values of its elements; indices are integers
    of the source's type, so they are [Z] here. *)

Definition rd {A} (a : list A) (i : Z) : result A :=
  if decide (0 <= i) then
    match a !! Z.to_nat i with Some v => Ok v | None => Err Bad_access end
  else Err Bad_access.

Definition wr {A} (a : list A) (i : Z) (v : A) : result (list A) :=
  if decide (0 <= i < Z.of_nat (length a)) then Ok (<[Z.to_nat i := v]> a)
  else Err Bad_access.

(** [a[i] = f (a[i])]. *)
Definition upd {A} (a : list A) (i : Z) (f : A -> A) : result (list A) :=
  v ← rd a i; wr a i (f v).

Lemma rd_ok {A} (a : list A) i :
  0 <= i < Z.of_nat (length a) -> exists v, rd a i = Ok v /\ a !! Z.to_nat i = Some v.
Proof.
  intros Hi. destruct (lookup_lt_is_Some_2 a (Z.to_nat i)) as [v Hv]; [lia|].
  exists v. unfold rd. rewrite decide_True by lia. by rewrite Hv.
Qed.

Lemma rd_lookup {A} (a : list A) i v :
  rd a i = Ok v <-> 0 <= i /\ a !! Z.to_nat i = Some v.
Proof.
  unfold rd. case_decide as Hi.
  - destruct (a !! Z.to_nat i); split; [|by intros [_ [= <-]] | discriminate |].
    + by intros [= <-].
    + by intros [_ ?].
  - split; [discriminate|]. by intros [? _].
Qed.

Lemma wr_ok {A} (a : list A) i v :
  0 <= i < Z.of_nat (length a) -> wr a i v = Ok (<[Z.to_nat i := v]> a).
Proof. intros. unfold wr. by rewrite decide_True. Qed.

Lemma upd_ok {A} (a : list A) i f :
  0 <= i < Z.of_nat (length a) -> upd a i f = Ok (alter f (Z.to_nat i) a).
Proof.
  intros Hi. unfold upd. destruct (rd_ok a i Hi) as (v & -> & Hv).
  rewrite bind_ok, wr_ok by done. f_equal. rewrite list_insert_alter.
  apply list_alter_ext; [|done]. intros x Hx. congruence.
Qed.

Lemma upd_out {A} (a : list A) i f :
  ~ (0 <= i < Z.of_nat (length a)) -> upd a i f = Err Bad_access.
Proof.
  intros Hi. unfold upd, rd. case_decide; [|done].
  rewrite lookup_ge_None_2 by lia. done.
Qed.

(** ** Loops *)

(** [for (i = from; i < from + n; i++) s = body (i, s)]. *)
Fixpoint for_range {S} (from n : nat) (body : nat -> S -> result S) (s : S) : result S :=
  match n with
  | O => Ok s
  | Datatypes.S n' => s' ← body from s; for_range (Datatypes.S from) n' body s'
  end.

(** [for (uintW_t i = 0; i < bound; i += 1)]: with a bound above the largest
    value of the counter's type the exit condition never holds. *)
Definition for_u {S} (w bound : Z) (body : nat -> S -> result S) (s : S) : result S :=
  if decide (bound <= 2 ^ w - 1) then for_range 0 (Z.to_nat bound) body s
  else Err Diverges.

(** Total-correctness rule: an invariant indexed by the counter. *)
Lemma for_range_inv {S} (P : nat -> S -> Prop) from n body s :
  P from s ->
  (forall k s, (from <= k < from + n)%nat -> P k s ->
     exists s', body k s = Ok s' /\ P (Datatypes.S k) s') ->
  exists s', for_range from n body s = Ok s' /\ P (from + n)%nat s'.
Proof.
  revert from s. induction n as [|n IH]; intros from s H0 Hstep; simpl.
  - exists s. by rewrite Nat.add_0_r.
  - destruct (Hstep from s) as (s1 & Hs1 & HP1); [lia | done |].
    rewrite Hs1, bind_ok.
    destruct (IH (Datatypes.S from) s1 HP1) as (s' & Hrun & HP).
    + intros k s2 Hk HPk. apply Hstep; [lia | done].
    + exists s'. split; [done|]. by replace (from + Datatypes.S n)%nat
        with (Datatypes.S from + n)%nat by lia.
Qed.

(** Partial-correctness rule: what holds of every successful run. *)
Lemma for_range_Ok_ind {S} (P : nat -> S -> Prop) from n body s s' :
  for_range from n body s = Ok s' ->
  P from s ->
  (forall k s s', (from <= k < from + n)%nat -> P k s -> body k s = Ok s' ->
     P (Datatypes.S k) s') ->
  P (from + n)%nat s'.
Proof.
  revert from s. induction n as [|n IH]; intros from s Hrun H0 Hstep; simpl in Hrun.
  - inv_ok. by rewrite Nat.add_0_r.
  - inv_ok. replace (from + Datatypes.S n)%nat with (Datatypes.S from + n)%nat by lia.
    eapply IH; [done | by eapply Hstep; [lia | |] |].
    intros k s2 s3 Hk. apply Hstep. lia.
Qed.

Lemma for_u_unfold {S} w bound (body : nat -> S -> result S) s :
  bound <= 2 ^ w - 1 -> for_u w bound body s = for_range 0 (Z.to_nat bound) body s.
Proof. intros. unfold for_u. by rewrite decide_True. Qed.

Lemma for_range_ext {S} from n (f g : nat -> S -> result S) s :
  (forall k s, (from <= k < from + n)%nat -> f k s = g k s) -> for_range from n f s = for_range from n g s.
Proof.
  revert from s. induction n as [|n IH]; intros from s H; simpl; [done|].
  rewrite H by lia. destruct (g from s); simpl; [|done]. apply IH. intros. apply H. lia.
Qed.

Lemma for_range_app {S} from n m (f : nat -> S -> result S) s :
  for_range from (n + m) f s = s' ← for_range from n f s; for_range (from + n) m f s'.
Proof.
  revert from s. induction n as [|n IH]; intros from s; simpl; [by rewrite Nat.add_0_r|].
  destruct (f from s) as [s1|]; simpl; [|done]. rewrite IH. by rewrite Nat.add_succ_r.
Qed.

Lemma for_range_shift {S} c from n (f : nat -> S -> result S) s :
  for_range from n (fun j => f (c + j)%nat) s = for_range (c + from) n f s.
Proof.
  revert from s. induction n as [|n IH]; intros from s; simpl; [done|].
  destruct (f (c + from)%nat s); simpl; [|done]. rewrite IH. by rewrite Nat.add_succ_r.
Qed.

(** Two nested loops over the rows and columns of a matrix are one loop. *)
Lemma for_range_nested {S} a b (f : nat -> S -> result S) s :
  for_range 0 a (fun i => for_range 0 b (fun j => f (i * b + j)%nat)) s = for_range 0 (a * b) f s.
Proof.
  assert (forall from s, for_range from a (fun i => for_range 0 b (fun j => f (i * b + j)%nat)) s =
            for_range (from * b) (a * b) f s) as H; [|apply (H 0%nat)].
  clear s. induction a as [|a IH]; intros from s; simpl; [done|].
  rewrite for_range_app, (for_range_shift (from * b) 0 b f), Nat.add_0_r.
  destruct (for_range (from * b) b f s) as [s1|]; simpl; [|done].
  rewrite IH. f_equal. lia.
Qed.

(** ** Lists *)

Lemma alter_lookup_total {A} (a : list A) i j f v :
  a !! j = Some v -> alter f i a !! j = Some (if decide (i = j) then f v else v).
Proof.
  intros Hv. case_decide; subst.
  - by rewrite list_lookup_alter_eq, Hv.
  - by rewrite list_lookup_alter_ne.
Qed.

(** Reading a concatenation of blocks of equal length. *)
Lemma lookup_concat_uniform {A B} (f : A -> list B) c l i r :
  (forall x, length (f x) = c) -> (r < c)%nat ->
  concat (map f l) !! (c * i + r)%nat = (l !! i) ≫= fun x => f x !! r.
Proof.
  intros Hc Hr. revert i. induction l as [|x l IH]; intros i; simpl; [done|].
  destruct i as [|i]; simpl.
  - rewrite Nat.mul_0_r, Nat.add_0_l, lookup_app_l; [done|]. by rewrite Hc.
  - rewrite lookup_app_r by (rewrite Hc; lia). rewrite <- IH, Hc. f_equal. lia.
Qed.

(** ** Sums *)

Definition zsum (l : list Z) : Z := foldr Z.add 0 l.

Lemma foldl_u8_sum {A} (g : A -> Z) l acc :
  in_u 8 acc -> foldl (fun d i => u8 (d + g i)) acc l = u8 (acc + zsum (map g l)).
Proof.
  revert acc. induction l as [|x l IH]; intros acc Hacc; simpl.
  - by rewrite Z.add_0_r, u8_id.
  - rewrite IH by auto with machine. unfold u8. rewrite Zplus_mod_idemp_l. f_equal. lia.
Qed.

Lemma zsum_bounds c l :
  Forall (fun x => 0 <= x <= c) l -> 0 <= zsum l <= c * Z.of_nat (length l).
Proof. induction 1; simpl; [lia|]. unfold zsum in *. simpl. lia. Qed.

Lemma zsum_zero_inv l : Forall (fun x => 0 <= x) l -> zsum l = 0 -> Forall (fun x => x = 0) l.
Proof.
  induction 1 as [|x l Hx Hl IH]; simpl; intros E; constructor.
  - assert (0 <= zsum l); [|unfold zsum in *; lia].
    clear -Hl. induction Hl; unfold zsum in *; simpl; lia.
  - apply IH. assert (0 <= zsum l); [|unfold zsum in *; lia].
    clear -Hl. induction Hl; unfold zsum in *; simpl; lia.
Qed.

Lemma zsum_max_inv c l :
  Forall (fun x => 0 <= x <= c) l -> zsum l = c * Z.of_nat (length l) ->
  Forall (fun x => x = c) l.
Proof.
  induction 1 as [|x l Hx Hl IH]; simpl; intros E; constructor;
    pose proof (zsum_bounds c l Hl); unfold zsum in *; [lia|]. apply IH. lia.
Qed.

Lemma count_bits_full_inv n x :
  count_bits n x = Z.of_nat n -> forall i, 0 <= i < Z.of_nat n -> Z.testbit x i = true.
Proof.
  induction n as [|n IH]; simpl; intros H i Hi; [lia|].
  pose proof (count_bits_range n x).
  destruct (Z.testbit x (Z.of_nat n)) eqn:E; simpl in H; [|lia].
  destruct (decide (i = Z.of_nat n)) as [->|]; [done|]. apply IH; lia.
Qed.

Lemma popcount_full_iff x : in_u 32 x -> popcount x = 32 <-> x = UINT32_MAX.
Proof.
  intros Hx. split; [|by intros ->].
  intros H. apply Z.bits_inj'. intros i Hi. change UINT32_MAX with (Z.ones 32).
  destruct (decide (i < 32)).
  - rewrite (count_bits_full_inv 32 x) by (done || lia). symmetry. apply Z.ones_spec_low. lia.
  - rewrite (testbit_above 32 x) by (done || lia). symmetry. apply Z.ones_spec_high. lia.
Qed.

(** ** Loops as folds *)

(** A fold whose steps may fault. *)
Fixpoint foldM {A S} (f : A -> S -> result S) (l : list A) (s : S) : result S :=
  match l with
  | [] => Ok s
  | x :: l' => s' ← f x s; foldM f l' s'
  end.

Lemma for_range_foldM {S} from n (body : nat -> S -> result S) s :
  for_range from n body s = foldM body (seq from n) s.
Proof.
  revert from s. induction n as [|n IH]; intros from s; simpl; [done|].
  destruct (body from s); simpl; [apply IH | done].
Qed.

(** A fold none of whose steps faults is a pure fold. *)
Lemma foldM_pure {A S} (P : S -> Prop) (f : A -> S -> result S) (g : S -> A -> S) l s :
  P s ->
  (forall x s, x ∈ l -> P s -> f x s = Ok (g s x) /\ P (g s x)) ->
  foldM f l s = Ok (foldl g s l) /\ P (foldl g s l).
Proof.
  revert s. induction l as [|x l IH]; intros s Hs Hf; simpl; [done|].
  destruct (Hf x s) as [-> HP]; [left | done |]. simpl.
  apply IH; [done|]. intros y s' Hy. apply Hf. by right.
Qed.

Lemma foldM_map {A B S} (h : A -> B) (f : B -> S -> result S) l s :
  foldM f (map h l) s = foldM (fun x => f (h x)) l s.
Proof.
  revert s. induction l as [|x l IH]; intros s; simpl; [done|].
  destruct (f (h x) s); simpl; [apply IH | done].
Qed.

(** [memset (a + off, 0, n)]. *)
Definition memset0 (a : list Z) (off n : Z) : result (list Z) :=
  if decide (0 <= off /\ 0 <= n /\ off + n <= Z.of_nat (length a)) then
    Ok (take (Z.to_nat off) a ++ replicate (Z.to_nat n) 0 ++ drop (Z.to_nat (off + n)) a)
  else Err Bad_access.

(** [x << n], [x >> n] with a variable count on a [w]-bit operand. *)
Definition shift_ok (w n : Z) : result unit :=
  if decide (0 <= n < w) then Ok tt else Err Undefined.

(** A loop that computes a conjunction, with or without leaving early. *)
Lemma foldM_all {A} (g : A -> bool) (f : A -> bool -> result bool) l ret :
  (forall x, x ∈ l -> f x true = Ok (g x)) ->
  (forall x, x ∈ l -> f x false = Ok false) ->
  foldM f l ret = Ok (ret && forallb g l).
Proof.
  intros Ht Hf. revert ret. induction l as [|x l IH]; intros ret; simpl.
  - by rewrite andb_true_r.
  - destruct ret; rewrite ?Ht, ?Hf by left; simpl;
      (rewrite IH; [done | intros; apply Ht; by right | intros; apply Hf; by right]).
Qed.

Lemma forallb_elem_of {A} (f : A -> bool) l :
  forallb f l = true <-> forall x, x ∈ l -> f x = true.
Proof.
  rewrite forallb_forall. split; intros H x Hx; apply H; by apply list_elem_of_In.
Qed.

(** ** Element-wise loops over two arrays *)

Lemma rd_middle {A} (pre : list A) x post i :
  i = Z.of_nat (length pre) -> rd (pre ++ x :: post) i = Ok x.
Proof.
  intros ->. apply rd_lookup. split; [lia|]. rewrite Nat2Z.id.
  rewrite lookup_app_r by lia. by rewrite Nat.sub_diag.
Qed.

Lemma wr_middle {A} (pre : list A) x y post i :
  i = Z.of_nat (length pre) -> wr (pre ++ x :: post) i y = Ok (pre ++ y :: post).
Proof.
  intros ->. rewrite wr_ok by (rewrite length_app; simpl; lia). f_equal.
  rewrite Nat2Z.id, insert_app_r_alt by lia. by rewrite Nat.sub_diag.
Qed.

Lemma upd_middle {A} (pre : list A) x post i f :
  i = Z.of_nat (length pre) -> upd (pre ++ x :: post) i f = Ok (pre ++ f x :: post).
Proof. intros. unfold upd. rewrite rd_middle by done. simpl. by apply wr_middle. Qed.

(** Splits the last element of a prefix off, for an induction over positions. *)
Lemma app_cons_snoc {A} (pre : list A) x post : pre ++ x :: post = (pre ++ [x]) ++ post.
Proof. by rewrite <- app_assoc. Qed.

(** [for (k = 0; k < n; k++) a[k] = g (a[k], b[k])] with an accumulator that
    sees the new value. *)
Lemma zip_loop_acc {S} (g : Z -> Z -> Z) (h : S -> Z -> S) rs ts pre tpre s :
  length pre = length tpre -> length rs = length ts ->
  for_range (length pre) (length rs) (fun k '(bs, s) =>
      f ← rd (tpre ++ ts) (Z.of_nat k);
      bs ← upd bs (Z.of_nat k) (fun v => g v f);
      v ← rd bs (Z.of_nat k);
      Ok (bs, h s v)) (pre ++ rs, s) =
  Ok (pre ++ zip_with g rs ts, foldl h s (zip_with g rs ts)).
Proof.
  revert ts pre tpre s. induction rs as [|r rs IH]; intros [|t ts] pre tpre s Hp Hl;
    try discriminate; [done|].
  simpl. rewrite rd_middle by lia. simpl. rewrite upd_middle by lia. simpl.
  rewrite rd_middle by lia. simpl.
  rewrite (app_cons_snoc pre (g r t) rs), (app_cons_snoc tpre t ts).
  replace (Datatypes.S (length pre)) with (length (pre ++ [g r t]))
    by (rewrite length_app; simpl; lia).
  rewrite IH by (rewrite ?length_app; simpl in *; lia). by rewrite <- app_cons_snoc.
Qed.

Lemma zip_loop (g : Z -> Z -> Z) rs ts pre tpre :
  length pre = length tpre -> length rs = length ts ->
  for_range (length pre) (length rs) (fun k bs =>
      f ← rd (tpre ++ ts) (Z.of_nat k);
      upd bs (Z.of_nat k) (fun v => g v f)) (pre ++ rs) = Ok (pre ++ zip_with g rs ts).
Proof.
  revert ts pre tpre. induction rs as [|r rs IH]; intros [|t ts] pre tpre Hp Hl;
    try discriminate; [done|].
  simpl. rewrite rd_middle by lia. simpl. rewrite upd_middle by lia. simpl.
  rewrite (app_cons_snoc pre (g r t) rs), (app_cons_snoc tpre t ts).
  replace (Datatypes.S (length pre)) with (length (pre ++ [g r t]))
    by (rewrite length_app; simpl; lia).
  rewrite IH by (rewrite ?length_app; simpl in *; lia). by rewrite <- app_cons_snoc.
Qed.

Lemma zip_loop_acc0 {S} (g : Z -> Z -> Z) (h : S -> Z -> S) rs ts s :
  length rs = length ts ->
  for_range 0 (length rs) (fun k '(bs, s) =>
      f ← rd ts (Z.of_nat k);
      bs ← upd bs (Z.of_nat k) (fun v => g v f);
      v ← rd bs (Z.of_nat k);
      Ok (bs, h s v)) (rs, s) =
  Ok (zip_with g rs ts, foldl h s (zip_with g rs ts)).
Proof. intros. by apply (zip_loop_acc g h rs ts [] []). Qed.

Lemma zip_loop0 (g : Z -> Z -> Z) rs ts :
  length rs = length ts ->
  for_range 0 (length rs) (fun k bs =>
      f ← rd ts (Z.of_nat k);
      upd bs (Z.of_nat k) (fun v => g v f)) rs = Ok (zip_with g rs ts).
Proof. intros. by apply (zip_loop g rs ts [] []). Qed.

(** Counting in a 16-bit counter that cannot overflow. *)
Lemma count16_pos (P : Z -> bool) l acc :
  0 <= acc -> acc + Z.of_nat (length l) < 2 ^ 16 ->
  (0 <? foldl (fun i v => if P v then u16 (i + 1) else i) acc l) = (0 <? acc) || existsb P l.
Proof.
  revert acc. induction l as [|v l IH]; intros acc Ha Hl; simpl in *; [by rewrite orb_false_r|].
  destruct (P v).
  - rewrite u16_id by (unfold in_u; lia). rewrite IH by lia. simpl.
    rewrite (proj2 (Z.ltb_lt 0 (acc + 1))) by lia. by rewrite orb_true_r.
  - by rewrite IH by lia.
Qed.

Lemma forallb_map {A B} (f : B -> bool) (g : A -> B) l :
  forallb f (map g l) = forallb (fun x => f (g x)) l.
Proof. induction l as [|x l IH]; simpl; [done|]. by rewrite IH. Qed.

Lemma foldl_ext {A B} (f g : A -> B -> A) l a :
  (forall a x, f a x = g a x) -> foldl f a l = foldl g a l.
Proof. intros H. revert a. induction l as [|x l IH]; intros a; simpl; [done|]. by rewrite H, IH. Qed.
