(* ===== verification/Real.v ===== *)
(** * Finite doubles as rationals

    Timestamps, latencies and averages are finite doubles, taken as rationals;
    comparisons and [fmin]/[fmax] are exact on them.  [fadd] is the sum of doubles
    with its rounding. *)
From Stdlib Require Import ZArith Lia QArith Qround Qabs Qpower Lqa.
From stdpp Require Import prelude.
From S2P Require Import Prelude.

Local Open Scope Z_scope.

Definition NP_PI : Q := 31415926535 # 10000000000.

Definition Qltb (a b : Q) : bool := negb (Qle_bool b a).
Definition fmin (a b : Q) : Q := if Qltb b a then b else a.
Definition fmax (a b : Q) : Q := if Qltb a b then b else a.

Lemma Qltb_lt a b : Qltb a b = true <-> (a < b)%Q.
Proof.
  unfold Qltb. rewrite negb_true_iff. destruct (Qle_bool b a) eqn:E.
  - split; [done|]. intros H. apply Qle_bool_iff in E. lra.
  - split; [|done]. intros _. apply Qnot_le_lt. intros H. apply Qle_bool_iff in H. congruence.
Qed.

Lemma Qltb_ge a b : Qltb a b = false <-> (b <= a)%Q.
Proof.
  unfold Qltb. by rewrite negb_false_iff, Qle_bool_iff.
Qed.

Lemma Qle_bool_false a b : Qle_bool a b = false <-> (b < a)%Q.
Proof. rewrite <- Qltb_lt. unfold Qltb. by rewrite negb_true_iff. Qed.

Lemma fmin_spec a b : (fmin a b <= a)%Q /\ (fmin a b <= b)%Q /\ (fmin a b = a \/ fmin a b = b).
Proof.
  unfold fmin. destruct (Qltb b a) eqn:E; [apply Qltb_lt in E | apply Qltb_ge in E].
  - split; [lra|]. split; [lra | by right].
  - split; [lra|]. split; [lra | by left].
Qed.

(** ** Sums of doubles

    Where a sum of doubles is added to again and again its rounding matters: the
    result is the nearest number with 53 significant bits, of two the even one.  Sums
    that are too small or too large for an exponent of 11 bits do not occur. *)
Definition binade (x : Q) : Z :=
  let e := Z.log2 (Z.abs (Qnum x)) - Z.log2 (Zpos (Qden x)) in
  if Qle_bool (Qpower 2 e) (Qabs x) then e else e - 1.

Definition round_even (y : Q) : Z :=
  let f := Qfloor y in
  let r := (y - inject_Z f)%Q in
  if Qltb r (1 # 2) then f else if Qltb (1 # 2) r then f + 1 else if Z.even f then f else f + 1.

Definition to_double (x : Q) : Q :=
  if Qeq_bool x 0 then 0%Q
  else let u := Qpower 2 (binade x - 52) in Qred (inject_Z (round_even (x / u)) * u).

Definition fadd (a b : Q) : Q := to_double (a + b).

Lemma two_pos e : (0 < Qpower 2 e)%Q.
Proof. apply Qpower_0_lt. lra. Qed.

Lemma two_step e : (Qpower 2 e == 2 * Qpower 2 (e - 1))%Q.
Proof. replace e with (1 + (e - 1)) at 1 by lia. rewrite Qpower_plus by lra. reflexivity. Qed.

Lemma two_shift e k : (Qpower 2 (e + k) == Qpower 2 e * Qpower 2 k)%Q.
Proof. apply Qpower_plus. lra. Qed.

Lemma two_Z e : 0 <= e -> (Qpower 2 e == inject_Z (2 ^ e))%Q.
Proof. intros He. change 2%Q with (inject_Z 2). by rewrite Zpower_Qpower. Qed.

(** The binade of a number: 2^e <= |x| < 2^(e + 1). *)
Lemma binade_spec x : ~ (x == 0)%Q -> (Qpower 2 (binade x) <= Qabs x)%Q /\ (Qabs x < Qpower 2 (binade x + 1))%Q.
Proof.
  intros Hx. destruct x as [n d]. set (ln := Z.log2 (Z.abs n)). set (ld := Z.log2 (Zpos d)).
  assert (0 < Z.abs n) as Hn by (destruct n; [exfalso; apply Hx; reflexivity|lia|lia]).
  pose proof (Z.log2_spec (Z.abs n) Hn) as [N1 N2]. pose proof (Z.log2_spec (Zpos d) ltac:(lia)) as [D1 D2].
  pose proof (Z.log2_nonneg (Z.abs n)). pose proof (Z.log2_nonneg (Zpos d)). fold ln in N1, N2, H. fold ld in D1, D2, H0.
  assert (Qabs (n # d) * inject_Z (Zpos d) == inject_Z (Z.abs n))%Q as Habs.
  { unfold Qabs, Qeq, Qmult, inject_Z. cbn [Qnum Qden]. lia. }
  assert (inject_Z (2 ^ ln) <= inject_Z (Z.abs n))%Q as N1' by (by rewrite <-Zle_Qle).
  assert (inject_Z (Z.abs n) < inject_Z (2 ^ (Z.succ ln)))%Q as N2' by (by rewrite <-Zlt_Qlt).
  assert (inject_Z (2 ^ ld) <= inject_Z (Zpos d))%Q as D1' by (by rewrite <-Zle_Qle).
  assert (inject_Z (Zpos d) < inject_Z (2 ^ (Z.succ ld)))%Q as D2' by (by rewrite <-Zlt_Qlt).
  rewrite <-two_Z in N1', N2', D1', D2' by lia.
  pose proof (two_pos (ln - ld)) as Pe. pose proof (two_pos ld) as Pd.
  assert (Qpower 2 ln == Qpower 2 (ln - ld) * Qpower 2 ld)%Q as En by (rewrite <-two_shift; by replace (ln - ld + ld) with ln by lia).
  assert (Qpower 2 (Z.succ ln) == 2 * Qpower 2 ln)%Q as En1 by (rewrite two_step; by replace (Z.succ ln - 1) with ln by lia).
  assert (Qpower 2 (Z.succ ld) == 2 * Qpower 2 ld)%Q as Ed1 by (rewrite two_step; by replace (Z.succ ld - 1) with ld by lia).
  assert (Qpower 2 (ln - ld + 1) == 2 * Qpower 2 (ln - ld))%Q as Ee by (rewrite two_step; by replace (ln - ld + 1 - 1) with (ln - ld) by lia).
  assert (Qpower 2 (ln - ld) == 2 * Qpower 2 (ln - ld - 1))%Q as Ee1 by apply two_step.
  unfold binade. cbn [Qnum Qden]. fold ln ld. set (q := Qabs (n # d)) in *. clearbody q. set (P := Qpower 2 (ln - ld)) in *.
  set (D := inject_Z (Z.pos d)) in *. clearbody D.
  destruct (Qle_bool P q) eqn:E.
  - apply Qle_bool_iff in E. split; [done|]. rewrite Ee. apply Qnot_le_lt. intros Hc.
    assert (2 * P * Qpower 2 ld <= q * D)%Q as Hc' by (apply Qmult_le_compat_nonneg; split; nra). nra.
  - apply Qle_bool_false in E. replace (ln - ld - 1 + 1) with (ln - ld) by lia. split; [|done].
    apply Qnot_lt_le. intros Hc. nra.
Qed.

Lemma round_even_near y : (Qabs (inject_Z (round_even y) - y) <= 1 # 2)%Q.
Proof.
  unfold round_even. pose proof (Qfloor_le y) as H1. pose proof (Qlt_floor y) as H2. rewrite inject_Z_plus in H2. change (inject_Z 1) with 1%Q in H2.
  set (f := Qfloor y) in *. apply Qabs_Qle_condition.
  assert (forall z, z = f -> (y - inject_Z f <= 1 # 2)%Q -> (- (1 # 2) <= inject_Z z - y <= 1 # 2)%Q) as Ha by (intros z -> ?; lra).
  assert (forall z, z = f + 1 -> (1 # 2 <= y - inject_Z f)%Q -> (- (1 # 2) <= inject_Z z - y <= 1 # 2)%Q) as Hb
    by (intros z -> ?; rewrite inject_Z_plus; change (inject_Z 1) with 1%Q; lra).
  destruct (Qltb (y - inject_Z f) (1 # 2)) eqn:E1; [apply Qltb_lt in E1; apply Ha; [done|lra]|apply Qltb_ge in E1].
  destruct (Qltb (1 # 2) (y - inject_Z f)) eqn:E2; [apply Qltb_lt in E2; apply Hb; [done|lra]|apply Qltb_ge in E2].
  destruct (Z.even f); [apply Ha|apply Hb]; (done || lra).
Qed.

(** The relative error is at most 2^-53. *)
Lemma to_double_near x : (Qabs (to_double x - x) <= Qabs x * (1 # 9007199254740992))%Q.
Proof.
  unfold to_double. destruct (Qeq_bool x 0) eqn:E0.
  { apply Qeq_bool_iff in E0. rewrite E0. by vm_compute. }
  assert (~ (x == 0)%Q) as Hx by (intros Hx; apply Qeq_bool_iff in Hx; congruence).
  destruct (binade_spec x Hx) as [Hb _]. set (e := binade x) in *. set (u := Qpower 2 (e - 52)). pose proof (two_pos (e - 52)) as Hu. fold u in Hu.
  rewrite Qred_correct. pose proof (round_even_near (x / u)) as Hr. set (z := inject_Z (round_even (x / u))) in *.
  assert (z * u - x == (z - x / u) * u)%Q as -> by (field; lra).
  rewrite Qabs_Qmult, (Qabs_pos u) by lra.
  assert (Qpower 2 e == 4503599627370496 * u)%Q as He.
  { unfold u. replace e with (52 + (e - 52)) at 1 by lia. rewrite two_shift. reflexivity. }
  rewrite He in Hb. nra.
Qed.
