(* ===== verification/Dhkey.v ===== *)
(** * Hash keys: [src/np_dhkey.c], [include/np_dhkey.h]

    The 256-bit identifiers of nodes, identities and subjects: comparison,
    word-wise arithmetic, the ring test [_np_dhkey_between], the prefix index
    and digit access the routing table is addressed with, Hamming distances,
    and the hexadecimal conversions.  A key is its eight 32-bit words; where the
    source reads a key byte by byte the words are laid out little-endian. *)
From Stdlib Require Import ZArith Lia.
From stdpp Require Import prelude.
From S2P Require Import Prelude.

Local Open Scope Z_scope.

(** ** Representation *)

(** [struct np_dhkey_s { uint32_t t[8]; }]. *)
Record np_dhkey_t := Dhkey { dh_t : list Z }.

#[export] Instance np_dhkey_eq_dec : EqDecision np_dhkey_t.
Proof. solve_decision. Defined.

(** Eight words of 32 bits: the type invariant of the struct. *)
Definition dhkey_wf (k : np_dhkey_t) : Prop :=
  length (dh_t k) = 8%nat /\ Forall (in_u 32) (dh_t k).

#[export] Instance dhkey_wf_dec k : Decision (dhkey_wf k).
Proof. unfold dhkey_wf. apply _. Defined.

(** [k->t[i]]. *)
Definition word (k : np_dhkey_t) (i : nat) : Z := nth i (dh_t k) 0.

(** Eight assignments [result->t[i] = f (i)]. *)
Definition eight_words (f : nat -> Z) : np_dhkey_t := Dhkey (map f (seq 0 8)).

Definition dhkey_zero : np_dhkey_t := Dhkey (replicate 8 0).

(** The key as a 256-bit number, [t[0]] being the most significant word. *)
Fixpoint words_val (l : list Z) : Z :=
  match l with
  | [] => 0
  | a :: l' => a * 2 ^ (32 * Z.of_nat (length l')) + words_val l'
  end.
Definition dhkey_val (k : np_dhkey_t) : Z := words_val (dh_t k).

(** The little-endian layout of a [uint32_t], and of a whole key. *)
Definition word_bytes (w : Z) : list Z :=
  [Z.land w 255; Z.land (w ≫ 8) 255; Z.land (w ≫ 16) 255; Z.land (w ≫ 24) 255].
Definition bytes_word (b0 b1 b2 b3 : Z) : Z :=
  Z.lor b0 (Z.lor (b1 ≪ 8) (Z.lor (b2 ≪ 16) (b3 ≪ 24))).
Definition dhkey_bytes (k : np_dhkey_t) : list Z := concat (map word_bytes (dh_t k)).

(** ** Operations *)

Definition _np_dhkey_assign (k2 : np_dhkey_t) : np_dhkey_t := eight_words (word k2).

Fixpoint equal_words (l1 l2 : list Z) : bool :=
  match l1, l2 with
  | a :: l1', b :: l2' => if negb (a =? b) then false else equal_words l1' l2'
  | _, _ => true
  end.
Definition _np_dhkey_equal (k1 k2 : np_dhkey_t) : bool := equal_words (dh_t k1) (dh_t k2).

(** The word loop of [_np_dhkey_cmp], from [t[0]] on. *)
Fixpoint cmp_words (l1 l2 : list Z) : Z :=
  match l1, l2 with
  | a :: l1', b :: l2' =>
      if b <? a then 1 else if a <? b then -1 else cmp_words l1' l2'
  | _, _ => 0
  end.
(** Both arguments are pointers; [None] is [NULL]. *)
Definition _np_dhkey_cmp (k1 k2 : option np_dhkey_t) : Z :=
  match k1, k2 with
  | None, _ => -1
  | Some _, None => 1
  | Some k1, Some k2 => cmp_words (dh_t k1) (dh_t k2)
  end.

Definition _np_dhkey_add (op1 op2 : np_dhkey_t) : np_dhkey_t :=
  eight_words (fun i => u32 (word op1 i + word op2 i)).
Definition _np_dhkey_sub (op1 op2 : np_dhkey_t) : np_dhkey_t :=
  eight_words (fun i => u32 (word op1 i - word op2 i)).
Definition _np_dhkey_and (op1 op2 : np_dhkey_t) : np_dhkey_t :=
  eight_words (fun i => Z.land (word op1 i) (word op2 i)).
Definition _np_dhkey_or (op1 op2 : np_dhkey_t) : np_dhkey_t :=
  eight_words (fun i => Z.lor (word op1 i) (word op2 i)).
Definition _np_dhkey_xor (op1 op2 : np_dhkey_t) : np_dhkey_t :=
  eight_words (fun i => Z.lxor (word op1 i) (word op2 i)).

(** The static variables [__dhkey_min], [__dhkey_half] and [__dhkey_max]. *)
Record dhkey_statics := DhkeyStatics {
  __dhkey_min : np_dhkey_t;
  __dhkey_half : np_dhkey_t;
  __dhkey_max : np_dhkey_t;
}.

Definition _np_dhkey_init (_ : dhkey_statics) : dhkey_statics * bool :=
  let half := u32 ((UINT32_MAX ≫ 1) + 1) in
  (DhkeyStatics (eight_words (fun _ => 0)) (eight_words (fun _ => half))
                (eight_words (fun _ => UINT32_MAX)), true).

(** The values every other module sees, after [_np_dhkey_init]. *)
Definition dhkey_globals : dhkey_statics :=
  fst (_np_dhkey_init (DhkeyStatics dhkey_zero dhkey_zero dhkey_zero)).
Definition np_dhkey_min : np_dhkey_t := __dhkey_min dhkey_globals.
Definition np_dhkey_half : np_dhkey_t := __dhkey_half dhkey_globals.
Definition np_dhkey_max : np_dhkey_t := __dhkey_max dhkey_globals.

Definition _np_dhkey_distance (k1 k2 : np_dhkey_t) : np_dhkey_t :=
  let diff :=
    if 0 <? _np_dhkey_cmp (Some k1) (Some k2) then _np_dhkey_sub k1 k2
    else _np_dhkey_sub k2 k1 in
  if _np_dhkey_cmp (Some (__dhkey_half dhkey_globals)) (Some diff) <? 0
  then _np_dhkey_sub (__dhkey_max dhkey_globals) diff
  else diff.

(** [*diff += __builtin_popcount (val)] on a [uint8_t], word by word. *)
Definition _np_dhkey_hamming_distance (x y : np_dhkey_t) : Z :=
  foldl (fun diff i => u8 (diff + popcount (Z.lxor (word x i) (word y i)))) 0 (seq 0 8).

Definition _np_dhkey_hamming_distance_each (x y : np_dhkey_t) : np_dhkey_t :=
  eight_words (fun i => popcount (Z.lxor (word x i) (word y i))).

Definition _np_dhkey_between (test left right : np_dhkey_t) (includeBounds : bool) : bool :=
  let comp_lt := _np_dhkey_cmp (Some left) (Some test) in
  let comp_tr := _np_dhkey_cmp (Some test) (Some right) in
  let comp_lr := _np_dhkey_cmp (Some left) (Some right) in
  if (comp_lt =? 0) || (comp_tr =? 0) then includeBounds
  else if comp_lr <? 0 then (comp_lt <? 0) && (comp_tr <? 0)
  else (comp_lt <? 0) || (comp_tr <? 0).

Definition _np_dhkey_midpoint (key : np_dhkey_t) : np_dhkey_t :=
  if _np_dhkey_cmp (Some key) (Some (__dhkey_half dhkey_globals)) <? 0
  then _np_dhkey_add key (__dhkey_half dhkey_globals)
  else _np_dhkey_sub key (__dhkey_half dhkey_globals).

(** The loop of [_np_dhkey_index] over the bytes of both keys. *)
Fixpoint index_loop (pos_a pos_b : list Z) (ret : Z) : Z :=
  match pos_a, pos_b with
  | a :: pos_a', b :: pos_b' =>
      if negb (Z.land a 0xf0 =? Z.land b 0xf0) then ret
      else let ret := u8 (ret + 1) in
      if negb (Z.land a 0x0f =? Z.land b 0x0f) then ret
      else index_loop pos_a' pos_b' (u8 (ret + 1))
  | _, _ => ret
  end.
Definition _np_dhkey_index (a b : np_dhkey_t) : Z :=
  index_loop (dhkey_bytes a) (dhkey_bytes b) 0.

Definition _np_dhkey_hexalpha_at (key : np_dhkey_t) (index_of_key : Z) : result Z :=
  let elements_in_tuple := 8 in
  let tuple := u8 (Z.quot index_of_key elements_in_tuple) in
  let tuple_rest := u8 (Z.rem index_of_key elements_in_tuple) in
  w ← rd (dh_t key) tuple;
  answer ← rd (word_bytes w) (tuple_rest `div` 2);
  let answer := if tuple_rest `mod` 2 =? 0 then answer ≫ 4 else answer in
  Ok (Z.land answer 0x0f).

(** ** Type invariant *)

Lemma eight_words_wf f :
  (forall i, (i < 8)%nat -> in_u 32 (f i)) -> dhkey_wf (eight_words f).
Proof.
  intros Hf. split; [done|]. apply Forall_map, Forall_forall.
  intros i Hi. apply Hf. apply elem_of_seq in Hi. lia.
Qed.

Lemma word_range k i : dhkey_wf k -> in_u 32 (word k i).
Proof.
  intros [_ Hk]. unfold word. rewrite nth_lookup.
  destruct (dh_t k !! i) as [v|] eqn:E; simpl; [|done].
  by eapply Forall_lookup_1 in E.
Qed.

#[export] Hint Resolve word_range : machine.

Ltac dhkey_wf_tac :=
  match goal with
  | |- dhkey_wf (eight_words _) => apply eight_words_wf; intros; auto with machine
  end.

Lemma _np_dhkey_add_wf a b : dhkey_wf (_np_dhkey_add a b).
Proof. unfold _np_dhkey_add. dhkey_wf_tac. Qed.
Lemma _np_dhkey_sub_wf a b : dhkey_wf (_np_dhkey_sub a b).
Proof. unfold _np_dhkey_sub. dhkey_wf_tac. Qed.
Lemma _np_dhkey_or_wf a b : dhkey_wf a -> dhkey_wf b -> dhkey_wf (_np_dhkey_or a b).
Proof. unfold _np_dhkey_or. intros. dhkey_wf_tac. Qed.
Lemma _np_dhkey_and_wf a b : dhkey_wf a -> dhkey_wf b -> dhkey_wf (_np_dhkey_and a b).
Proof. unfold _np_dhkey_and. intros. dhkey_wf_tac. Qed.
Lemma _np_dhkey_xor_wf a b : dhkey_wf a -> dhkey_wf b -> dhkey_wf (_np_dhkey_xor a b).
Proof. unfold _np_dhkey_xor. intros. dhkey_wf_tac. Qed.
Lemma np_dhkey_half_wf : dhkey_wf np_dhkey_half.
Proof. by_decide. Qed.
Lemma np_dhkey_max_wf : dhkey_wf np_dhkey_max.
Proof. by_decide. Qed.
Lemma _np_dhkey_distance_wf a b : dhkey_wf (_np_dhkey_distance a b).
Proof.
  unfold _np_dhkey_distance.
  repeat (case_match; auto using _np_dhkey_sub_wf).
Qed.

#[export] Hint Resolve _np_dhkey_add_wf _np_dhkey_sub_wf _np_dhkey_or_wf
  _np_dhkey_and_wf _np_dhkey_xor_wf np_dhkey_half_wf np_dhkey_max_wf
  _np_dhkey_distance_wf : machine.

(** A well-formed key is its eight words. *)
Lemma dhkey_wf_inv k :
  dhkey_wf k ->
  exists a b c d e f g h, k = Dhkey [a; b; c; d; e; f; g; h] /\
    in_u 32 a /\ in_u 32 b /\ in_u 32 c /\ in_u 32 d /\
    in_u 32 e /\ in_u 32 f /\ in_u 32 g /\ in_u 32 h.
Proof.
  destruct k as [l]. intros [Hlen Hall]. simpl in *.
  do 8 (destruct l as [|? l]; [discriminate Hlen|]). destruct l; [|discriminate Hlen].
  rewrite !Forall_cons in Hall. do 8 eexists. split; [done|]. tauto.
Qed.

(** ** Comparison *)

Lemma words_val_range l :
  Forall (in_u 32) l -> 0 <= words_val l < 2 ^ (32 * Z.of_nat (length l)).
Proof.
  induction 1 as [|a l [Ha0 Ha] _ IH]; simpl; [done|].
  replace (32 * Z.of_nat (S (length l))) with (32 + 32 * Z.of_nat (length l)) by lia.
  rewrite Z.pow_add_r by lia. nia.
Qed.

Lemma leading_digit_lt P a b x y :
  0 <= x < P -> 0 <= y < P -> a < b -> a * P + x < b * P + y.
Proof. intros. assert (a * P + P <= b * P) by nia. lia. Qed.

Lemma cmp_words_spec l1 l2 :
  length l1 = length l2 -> Forall (in_u 32) l1 -> Forall (in_u 32) l2 ->
  cmp_words l1 l2 =
    match words_val l1 ?= words_val l2 with Lt => -1 | Eq => 0 | Gt => 1 end.
Proof.
  intros Hlen H1. revert l2 Hlen.
  induction H1 as [|a l1 _ H1 IH]; intros [|b l2] Hlen H2; try discriminate; [done|].
  apply Forall_cons in H2 as [_ H2]. injection Hlen as Hlen. simpl.
  pose proof (words_val_range _ H1). pose proof (words_val_range _ H2).
  specialize (IH l2 Hlen H2). rewrite Hlen in *.
  destruct (Z.ltb_spec b a) as [Hab|Hab].
  { by rewrite (proj2 (Z.compare_gt_iff _ _)) by by apply leading_digit_lt. }
  destruct (Z.ltb_spec a b) as [Hba|Hba].
  { by rewrite (proj2 (Z.compare_lt_iff _ _)) by by apply leading_digit_lt. }
  replace b with a by lia. rewrite IH. by rewrite Zcompare_plus_compat.
Qed.

Lemma cmp_words_zero l1 l2 :
  length l1 = length l2 -> cmp_words l1 l2 = 0 -> l1 = l2.
Proof.
  revert l2. induction l1 as [|a l1 IH]; intros [|b l2] Hlen H; try discriminate; [done|].
  simpl in *. destruct (Z.ltb_spec b a); [done|]. destruct (Z.ltb_spec a b); [done|].
  f_equal; [lia|]. auto.
Qed.

Lemma cmp_words_refl l : cmp_words l l = 0.
Proof. induction l; simpl; [done|]. by rewrite !Z.ltb_irrefl. Qed.

Lemma dhkey_cmp_spec k1 k2 :
  dhkey_wf k1 -> dhkey_wf k2 ->
  _np_dhkey_cmp (Some k1) (Some k2) =
    match dhkey_val k1 ?= dhkey_val k2 with Lt => -1 | Eq => 0 | Gt => 1 end.
Proof.
  intros [L1 H1] [L2 H2]. unfold _np_dhkey_cmp, dhkey_val.
  apply cmp_words_spec; [congruence | done | done].
Qed.

Lemma dhkey_val_inj k1 k2 :
  dhkey_wf k1 -> dhkey_wf k2 -> dhkey_val k1 = dhkey_val k2 -> k1 = k2.
Proof.
  intros W1 W2 E. pose proof (dhkey_cmp_spec _ _ W1 W2) as H.
  rewrite E, Z.compare_refl in H. destruct k1, k2, W1, W2; simpl in *. f_equal.
  apply cmp_words_zero; [congruence | done].
Qed.

Lemma dhkey_val_range k : dhkey_wf k -> 0 <= dhkey_val k < 2 ^ 256.
Proof. intros [L H]. apply words_val_range in H. by rewrite L in H. Qed.

(** The three-way result, in the form the case analyses below need. *)
Lemma dhkey_cmp_cases k1 k2 :
  dhkey_wf k1 -> dhkey_wf k2 ->
  (dhkey_val k1 < dhkey_val k2 /\ _np_dhkey_cmp (Some k1) (Some k2) = -1) \/
  (k1 = k2 /\ dhkey_val k1 = dhkey_val k2 /\ _np_dhkey_cmp (Some k1) (Some k2) = 0) \/
  (dhkey_val k2 < dhkey_val k1 /\ _np_dhkey_cmp (Some k1) (Some k2) = 1).
Proof.
  intros W1 W2. rewrite dhkey_cmp_spec by done.
  destruct (Z.compare_spec (dhkey_val k1) (dhkey_val k2)); [|by left|by right; right].
  right; left. auto using dhkey_val_inj.
Qed.

Lemma _np_dhkey_equal_spec k1 k2 :
  dhkey_wf k1 -> dhkey_wf k2 -> _np_dhkey_equal k1 k2 = true <-> k1 = k2.
Proof.
  intros [L1 _] [L2 _]. destruct k1 as [l1], k2 as [l2]. unfold _np_dhkey_equal; simpl in *.
  assert (length l1 = length l2) as Hlen by congruence. clear L1 L2.
  revert l2 Hlen. induction l1 as [|a l1 IH]; intros [|b l2] Hlen; try discriminate; [done|].
  simpl. injection Hlen as Hlen. specialize (IH l2 Hlen).
  destruct (Z.eqb_spec a b); simpl; [|split; congruence]. subst b. rewrite IH.
  split; congruence.
Qed.

(** [_np_dhkey_cmp] orders keys as 256-bit big-endian numbers: on
    well-formed keys the result is negative, zero or positive exactly as the
    first number is below, equal to or above the second, zero means the keys are
    identical (and agrees with [_np_dhkey_equal]), and [NULL] sorts first. *)
Theorem dhkey_cmp_total_order k1 k2 :
  dhkey_wf k1 -> dhkey_wf k2 ->
  _np_dhkey_cmp (Some k1) (Some k2) =
    match dhkey_val k1 ?= dhkey_val k2 with Lt => -1 | Eq => 0 | Gt => 1 end /\
  (_np_dhkey_cmp (Some k1) (Some k2) = 0 <-> k1 = k2) /\
  (_np_dhkey_equal k1 k2 = true <-> _np_dhkey_cmp (Some k1) (Some k2) = 0) /\
  _np_dhkey_cmp (Some k2) (Some k1) = - _np_dhkey_cmp (Some k1) (Some k2) /\
  _np_dhkey_cmp None (Some k1) = -1 /\ _np_dhkey_cmp (Some k1) None = 1.
Proof.
  intros W1 W2. rewrite _np_dhkey_equal_spec by done.
  split; [by apply dhkey_cmp_spec|].
  destruct (dhkey_cmp_cases _ _ W1 W2) as [[H1 E1]|[(H1 & V1 & E1)|[H1 E1]]];
    destruct (dhkey_cmp_cases _ _ W2 W1) as [[H2 E2]|[(H2 & V2 & E2)|[H2 E2]]];
    rewrite ?E1, ?E2; try lia; repeat split; try done; try lia; intros ->; lia.
Qed.

(** Concrete keys the witnesses share. *)
Definition key_of (w0 : Z) : np_dhkey_t := Dhkey (w0 :: replicate 7 0).

Lemma dhkey_cmp_total_order_witness :
  dhkey_wf (key_of 7) /\ dhkey_wf (key_of 9) /\
  (_np_dhkey_cmp (Some (key_of 7)) (Some (key_of 9)) = 0 <-> key_of 7 = key_of 9).
Proof.
  split; [by_decide|]. split; [by_decide|].
  apply dhkey_cmp_total_order; by_decide.
Defined.

(** ** Prefix index and digits *)

(** The 64 half bytes of a key, in memory order, high half first. *)
Definition nibbles_of (bytes : list Z) : list Z :=
  concat (map (fun b => [b ≫ 4; Z.land b 0x0f]) bytes).
Definition dhkey_nibbles (k : np_dhkey_t) : list Z := nibbles_of (dhkey_bytes k).

Fixpoint common_prefix (l1 l2 : list Z) : Z :=
  match l1, l2 with
  | a :: l1', b :: l2' => if a =? b then 1 + common_prefix l1' l2' else 0
  | _, _ => 0
  end.

(** A property of all bytes, by enumeration. *)
Lemma byte_enum (P : Z -> Prop) `{forall b, Decision (P b)} :
  forallb (fun n => bool_decide (P (Z.of_nat n))) (seq 0 256) = true ->
  forall b, in_u 8 b -> P b.
Proof.
  intros Hall b [? Hb]. rewrite forallb_forall in Hall.
  specialize (Hall (Z.to_nat b)). rewrite bool_decide_eq_true, Z2Nat.id in Hall by done.
  apply Hall. apply in_seq. change (2 ^ 8) with 256 in Hb. lia.
Qed.

Lemma high_nibble_mask b : in_u 8 b -> Z.land b 0xf0 = (b ≫ 4) * 16.
Proof. revert b. apply (byte_enum (fun b => Z.land b 0xf0 = (b ≫ 4) * 16)). by vm_compute. Qed.

Lemma byte_of_nibbles b : in_u 8 b -> b = (b ≫ 4) * 16 + Z.land b 0x0f.
Proof. revert b. apply (byte_enum (fun b => b = (b ≫ 4) * 16 + Z.land b 0x0f)). by vm_compute. Qed.

Lemma word_bytes_range w : Forall (in_u 8) (word_bytes w).
Proof.
  unfold word_bytes. change 255 with (Z.ones 8).
  rewrite !Forall_cons. rewrite !Z.land_ones by done.
  repeat split; try done; apply Z.mod_pos_bound; done.
Qed.

Lemma dhkey_bytes_range k : Forall (in_u 8) (dhkey_bytes k).
Proof.
  unfold dhkey_bytes. apply Forall_concat, Forall_map, Forall_true.
  apply word_bytes_range.
Qed.

Lemma dhkey_bytes_length k : dhkey_wf k -> length (dhkey_bytes k) = 32%nat.
Proof. intros (?&?&?&?&?&?&?&?&->&_)%dhkey_wf_inv. done. Qed.

Lemma word_bytes_inj w : in_u 32 w ->
  w = match word_bytes w with
      | [b0; b1; b2; b3] => bytes_word b0 b1 b2 b3
      | _ => 0
      end.
Proof.
  intros Hw. unfold word_bytes, bytes_word. apply Z.bits_inj'. intros i Hi.
  change 255 with (Z.ones 8).
  rewrite !Z.lor_spec, !Z.shiftl_spec, !Z.land_spec by lia.
  destruct (decide (i < 32)) as [Hi32|]; last first.
  { rewrite (testbit_above 32 w i) by (done || lia).
    rewrite !(Z.ones_spec_high 8) by lia. by rewrite !andb_false_r. }
  destruct (decide (i < 8)); [|destruct (decide (i < 16)); [|destruct (decide (i < 24))]];
  repeat match goal with
  | |- context [Z.testbit (Z.ones 8) ?j] =>
      first [ rewrite (Z.ones_spec_low 8 j) by lia
            | rewrite (Z.ones_spec_high 8 j) by lia
            | rewrite (Z.testbit_neg_r (Z.ones 8) j) by lia ]
  end; rewrite ?andb_false_r, ?andb_true_r, ?orb_false_r; simpl;
  rewrite ?Z.shiftr_spec by lia; try (f_equal; lia).
Qed.

Lemma bytes_word_sum b0 b1 b2 b3 :
  in_u 8 b0 -> in_u 8 b1 -> in_u 8 b2 -> in_u 8 b3 ->
  bytes_word b0 b1 b2 b3 = b0 + 256 * b1 + 65536 * b2 + 16777216 * b3.
Proof.
  intros H0 H1 H2 H3. unfold bytes_word. rewrite !Z.shiftl_mul_pow2 by lia.
  unfold in_u in *. change (2 ^ 8) with 256 in *. change (2 ^ 16) with 65536.
  change (2 ^ 24) with 16777216.
  rewrite (lor_add_disjoint 24 (b2 * 65536)), (lor_add_disjoint 16 (b1 * 256)),
    (lor_add_disjoint 8 b0); unfold in_u;
    change (2 ^ 8) with 256; change (2 ^ 16) with 65536; change (2 ^ 24) with 16777216; divlia.
Qed.

Lemma word_bytes_of_bytes b0 b1 b2 b3 :
  in_u 8 b0 -> in_u 8 b1 -> in_u 8 b2 -> in_u 8 b3 ->
  word_bytes (bytes_word b0 b1 b2 b3) = [b0; b1; b2; b3].
Proof.
  intros H0 H1 H2 H3. rewrite bytes_word_sum by done. unfold word_bytes, in_u in *.
  change 255 with (Z.ones 8). rewrite !Z.land_ones, !Z.shiftr_div_pow2 by lia.
  change (2 ^ 8) with 256 in *. change (2 ^ 16) with 65536. change (2 ^ 24) with 16777216.
  do 4 (apply (f_equal2 cons); [divlia|]). done.
Qed.

Lemma dhkey_bytes_inj a b :
  dhkey_wf a -> dhkey_wf b -> dhkey_bytes a = dhkey_bytes b -> a = b.
Proof.
  intros (a0&a1&a2&a3&a4&a5&a6&a7&->&Ha0&Ha1&Ha2&Ha3&Ha4&Ha5&Ha6&Ha7)%dhkey_wf_inv.
  intros (b0&b1&b2&b3&b4&b5&b6&b7&->&Hb0&Hb1&Hb2&Hb3&Hb4&Hb5&Hb6&Hb7)%dhkey_wf_inv.
  unfold dhkey_bytes, dh_t, map, concat. intros E.
  assert (forall w v l l', in_u 32 w -> in_u 32 v ->
    word_bytes w ++ l = word_bytes v ++ l' -> w = v /\ l = l') as Hsplit.
  { intros w v l l' Hw Hv Hwv. apply app_inj_1 in Hwv as [Hwv ->]; [|done].
    split; [|done]. rewrite (word_bytes_inj w Hw), (word_bytes_inj v Hv).
    by rewrite Hwv. }
  apply Hsplit in E as [-> E]; [|done..]. apply Hsplit in E as [-> E]; [|done..].
  apply Hsplit in E as [-> E]; [|done..]. apply Hsplit in E as [-> E]; [|done..].
  apply Hsplit in E as [-> E]; [|done..]. apply Hsplit in E as [-> E]; [|done..].
  apply Hsplit in E as [-> E]; [|done..]. apply Hsplit in E as [-> E]; [|done..].
  done.
Qed.

Lemma nibbles_of_inj l1 l2 :
  Forall (in_u 8) l1 -> Forall (in_u 8) l2 -> length l1 = length l2 ->
  nibbles_of l1 = nibbles_of l2 -> l1 = l2.
Proof.
  intros H1. revert l2.
  induction H1 as [|a l1 Ha H1 IH]; intros [|b l2] H2 Hlen E; try discriminate; [done|].
  apply Forall_cons in H2 as [Hb H2]. unfold nibbles_of in E; simpl in E.
  injection E as E1 E2 E3. f_equal; [|by apply IH; [| injection Hlen |]].
  rewrite (byte_of_nibbles a Ha), (byte_of_nibbles b Hb). congruence.
Qed.

Lemma common_prefix_range l1 l2 :
  0 <= common_prefix l1 l2 <= Z.of_nat (length l1).
Proof.
  revert l2. induction l1 as [|a l1 IH]; intros [|b l2]; simpl; try lia.
  specialize (IH l2). case_match; lia.
Qed.

Lemma common_prefix_full l1 l2 :
  length l1 = length l2 -> common_prefix l1 l2 = Z.of_nat (length l1) <-> l1 = l2.
Proof.
  revert l2. induction l1 as [|a l1 IH]; intros [|b l2] Hlen; try discriminate; [done|].
  injection Hlen as Hlen. specialize (IH l2 Hlen). pose proof (common_prefix_range l1 l2).
  simpl. destruct (Z.eqb_spec a b); split; intros E; try (simplify_eq; lia).
  - subst. f_equal. apply IH. lia.
  - injection E as -> ->. rewrite (proj2 IH) by done. lia.
Qed.

Lemma common_prefix_lookup l1 l2 j :
  length l1 = length l2 -> 0 <= j < common_prefix l1 l2 ->
  l1 !! Z.to_nat j = l2 !! Z.to_nat j.
Proof.
  revert l2 j. induction l1 as [|a l1 IH]; intros [|b l2] j Hlen Hj; try discriminate; [done|].
  simpl in Hj. destruct (Z.eqb_spec a b); [subst|lia].
  destruct (decide (j = 0)) as [->|]; [done|].
  replace (Z.to_nat j) with (S (Z.to_nat (j - 1))) by lia. simpl.
  injection Hlen as Hlen. apply IH; [done | lia].
Qed.

Lemma common_prefix_differs l1 l2 :
  length l1 = length l2 -> common_prefix l1 l2 < Z.of_nat (length l1) ->
  l1 !! Z.to_nat (common_prefix l1 l2) <> l2 !! Z.to_nat (common_prefix l1 l2).
Proof.
  revert l2. induction l1 as [|a l1 IH]; intros [|b l2] Hlen Hlt; try discriminate.
  simpl in *. destruct (Z.eqb_spec a b); [|simpl; congruence].
  pose proof (common_prefix_range l1 l2).
  replace (Z.to_nat (1 + common_prefix l1 l2)) with (S (Z.to_nat (common_prefix l1 l2))) by lia.
  simpl. apply IH; lia.
Qed.

Lemma nibbles_of_length l : length (nibbles_of l) = (2 * length l)%nat.
Proof. unfold nibbles_of. induction l; simpl; [done|]. lia. Qed.

Lemma dhkey_nibbles_length k : dhkey_wf k -> length (dhkey_nibbles k) = 64%nat.
Proof. intros W. unfold dhkey_nibbles. by rewrite nibbles_of_length, dhkey_bytes_length. Qed.

(** The loop counts the half bytes both arguments share at the front. *)
Lemma index_loop_spec la lb ret :
  Forall (in_u 8) la -> Forall (in_u 8) lb -> length la = length lb ->
  0 <= ret -> ret + 2 * Z.of_nat (length la) < 256 ->
  index_loop la lb ret = ret + common_prefix (nibbles_of la) (nibbles_of lb).
Proof.
  intros Ha. revert lb ret.
  induction Ha as [|a la Ha0 Ha IH]; intros [|b lb] ret Hb Hlen Hr Hmax; try discriminate.
  { simpl. lia. }
  apply Forall_cons in Hb as [Hb0 Hb]. injection Hlen as Hlen. simpl in Hmax.
  unfold nibbles_of; simpl. fold (nibbles_of la) (nibbles_of lb).
  rewrite !high_nibble_mask by done.
  assert (u8 (ret + 1) = ret + 1) as -> by (apply u8_id; unfold in_u; lia).
  assert (u8 (ret + 1 + 1) = ret + 2) as -> by (rewrite u8_id; unfold in_u; lia).
  destruct (Z.eqb_spec (a ≫ 4 * 16) (b ≫ 4 * 16)) as [Eh|Eh];
    destruct (Z.eqb_spec (a ≫ 4) (b ≫ 4)) as [Eh'|Eh']; simpl; try lia.
  destruct (Z.eqb_spec (Z.land a 15) (Z.land b 15)) as [El|El]; simpl; [|lia].
  rewrite IH by (done || lia). lia.
Qed.

Lemma dhkey_index_common_prefix a b :
  dhkey_wf a -> dhkey_wf b ->
  _np_dhkey_index a b = common_prefix (dhkey_nibbles a) (dhkey_nibbles b).
Proof.
  intros Wa Wb. unfold _np_dhkey_index.
  rewrite index_loop_spec; auto using dhkey_bytes_range with lia;
    rewrite ?dhkey_bytes_length by done; done.
Qed.

Lemma nibble_bounds b : in_u 8 b ->
  0 <= b ≫ 4 < 16 /\ 0 <= Z.land b 15 < 16 /\ Z.land (b ≫ 4) 15 = b ≫ 4.
Proof.
  revert b. apply (byte_enum (fun b =>
    0 <= b ≫ 4 < 16 /\ 0 <= Z.land b 15 < 16 /\ Z.land (b ≫ 4) 15 = b ≫ 4)).
  by vm_compute.
Qed.

(** The half byte at position [8 p + 2 q + s]: word [p], byte [q], half [s]. *)
Lemma dhkey_nibbles_lookup k p q s :
  (q < 4)%nat -> (s < 2)%nat ->
  dhkey_nibbles k !! (8 * p + 2 * q + s)%nat =
    (dh_t k !! p) ≫= fun w => (word_bytes w !! q) ≫= fun b => [b ≫ 4; Z.land b 15] !! s.
Proof.
  intros Hq Hs. unfold dhkey_nibbles, nibbles_of, dhkey_bytes.
  replace (8 * p + 2 * q + s)%nat with (2 * (4 * p + q) + s)%nat by lia.
  rewrite lookup_concat_uniform by done.
  rewrite lookup_concat_uniform by done. by destruct (dh_t k !! p).
Qed.

(** [_np_dhkey_hexalpha_at] reads the digits in the order the index counts them. *)
Lemma hexalpha_at_nibble k j :
  dhkey_wf k -> 0 <= j < 64 ->
  exists d, _np_dhkey_hexalpha_at k j = Ok d /\ dhkey_nibbles k !! Z.to_nat j = Some d /\
            0 <= d < 16.
Proof.
  intros [Hlen _] Hj. unfold _np_dhkey_hexalpha_at.
  rewrite Z.quot_div_nonneg, Z.rem_mod_nonneg by lia.
  set (p := j `div` 8). set (r := j `mod` 8).
  assert (0 <= r < 8) by (apply Z.mod_pos_bound; lia).
  assert (j = 8 * p + r) as Ej by (apply Z.div_mod; lia).
  assert (r = 2 * (r `div` 2) + r `mod` 2) as Er by (apply Z.div_mod; lia).
  assert (0 <= r `mod` 2 < 2) by (apply Z.mod_pos_bound; lia).
  rewrite !u8_id by (unfold in_u; lia).
  destruct (rd_ok (dh_t k) p) as (w & -> & Hw); [lia|]. rewrite bind_ok.
  destruct (rd_ok (word_bytes w) (r `div` 2)) as (b & -> & Hb); [simpl; lia|]. rewrite bind_ok.
  pose proof (Forall_lookup_1 _ _ _ _ (word_bytes_range w) Hb) as Hb8.
  apply nibble_bounds in Hb8 as (Hh & Hl & Hm).
  replace (Z.to_nat j) with
    (8 * Z.to_nat p + 2 * Z.to_nat (r `div` 2) + Z.to_nat (r `mod` 2))%nat by lia.
  rewrite dhkey_nibbles_lookup, Hw by lia. simpl. rewrite Hb. simpl.
  assert (r `mod` 2 = 0 \/ r `mod` 2 = 1) as [->| ->] by lia; simpl;
    eexists; split; eauto. by rewrite Hm.
Qed.

(** C9: for well-formed keys [_np_dhkey_index] is the length of the longest
    common prefix in hexadecimal digits, as [_np_dhkey_hexalpha_at] reads them:
    it lies between 0 and 64, is 64 exactly for equal keys, all digits before it
    agree, and when it is below 64 the digits at it differ (both reads being in
    bounds and yielding a digit below 16). *)
Theorem dhkey_index_longest_prefix a b :
  dhkey_wf a -> dhkey_wf b ->
  0 <= _np_dhkey_index a b <= 64 /\
  (_np_dhkey_index a b = 64 <-> a = b) /\
  (forall j, 0 <= j < _np_dhkey_index a b ->
     _np_dhkey_hexalpha_at a j = _np_dhkey_hexalpha_at b j) /\
  (_np_dhkey_index a b < 64 ->
     exists da db,
       _np_dhkey_hexalpha_at a (_np_dhkey_index a b) = Ok da /\
       _np_dhkey_hexalpha_at b (_np_dhkey_index a b) = Ok db /\
       da <> db /\ 0 <= da < 16 /\ 0 <= db < 16).
Proof.
  intros Wa Wb. rewrite dhkey_index_common_prefix by done.
  pose proof (dhkey_nibbles_length a Wa) as La. pose proof (dhkey_nibbles_length b Wb) as Lb.
  pose proof (common_prefix_range (dhkey_nibbles a) (dhkey_nibbles b)) as Hr.
  pose proof (common_prefix_full (dhkey_nibbles a) (dhkey_nibbles b)) as Hfull.
  rewrite La in *. split; [lia|]. split; [|split].
  - rewrite Hfull by done. split; [|by intros ->]. intros E.
    apply dhkey_bytes_inj; [done..|].
    apply nibbles_of_inj; auto using dhkey_bytes_range. by rewrite !dhkey_bytes_length.
  - intros j Hj.
    destruct (hexalpha_at_nibble a j Wa) as (da & -> & Ha & _); [lia|].
    destruct (hexalpha_at_nibble b j Wb) as (db & -> & Hb & _); [lia|].
    assert (Some da = Some db) as [= ->]; [|done].
    rewrite <- Ha, <- Hb. apply common_prefix_lookup; [congruence | done].
  - intros Hlt. set (i := common_prefix _ _) in *.
    destruct (hexalpha_at_nibble a i Wa) as (da & ? & Ha & ?); [lia|].
    destruct (hexalpha_at_nibble b i Wb) as (db & ? & Hb & ?); [lia|].
    exists da, db. repeat split; try lia; try done.
    intros ->. apply (common_prefix_differs (dhkey_nibbles a) (dhkey_nibbles b));
      [congruence | lia |]. fold i. congruence.
Qed.

Lemma dhkey_index_longest_prefix_witness :
  dhkey_wf (key_of 7) /\ dhkey_wf (key_of 9) /\ 0 <= _np_dhkey_index (key_of 7) (key_of 9) <= 64.
Proof.
  split; [by_decide|]. split; [by_decide|].
  apply (dhkey_index_longest_prefix (key_of 7) (key_of 9)); by_decide.
Defined.

(** ** The ring test *)

(** [_np_dhkey_between] is membership in a ring interval.  On the edges it
    returns [includeBounds]; anywhere else it holds iff, going clockwise from
    [left] on the ring of 2^256 keys, [test] is met strictly before [right];
    with [left = right] that is the whole ring. *)
Theorem dhkey_between_ring test left right inc :
  dhkey_wf test -> dhkey_wf left -> dhkey_wf right ->
  ((test = left \/ test = right) -> _np_dhkey_between test left right inc = inc) /\
  (test <> left -> test <> right ->
     _np_dhkey_between test left right inc = true <->
       left = right \/
       (dhkey_val test - dhkey_val left) mod 2 ^ 256 <
       (dhkey_val right - dhkey_val left) mod 2 ^ 256).
Proof.
  intros Wt Wl Wr. unfold _np_dhkey_between.
  pose proof (dhkey_val_range _ Wt). pose proof (dhkey_val_range _ Wl).
  pose proof (dhkey_val_range _ Wr). set (N := 2 ^ 256) in *.
  assert (forall x y, 0 <= x < N -> 0 <= y < N ->
    (x - y) mod N = if y <=? x then x - y else x - y + N) as Hmod.
  { intros x y Hx Hy. destruct (Z.leb_spec y x); [apply Z.mod_small; lia|].
    rewrite <- (Z_mod_plus_full _ 1 N), Z.mul_1_l. apply Z.mod_small. lia. }
  rewrite !Hmod by done. clear Hmod. split.
  { intros [-> | ->]; unfold _np_dhkey_cmp; rewrite cmp_words_refl, ?orb_true_r; done. }
  intros Htl Htr.
  destruct (dhkey_cmp_cases _ _ Wl Wt) as [[Hlt ->]|[(E & _)|[Hlt ->]]]; [|congruence|];
    (destruct (dhkey_cmp_cases _ _ Wt Wr) as [[Htr' ->]|[(E & _)|[Htr' ->]]]; [|congruence|]);
    destruct (dhkey_cmp_cases _ _ Wl Wr) as [[Hlr ->]|[(Elr & Vlr & ->)|[Hlr ->]]]; simpl;
    repeat case_match; split; intros Hres; try lia; auto; try discriminate;
    try (destruct Hres as [Hres|Hres]; [subst|]; lia); right; lia.
Qed.

Lemma dhkey_between_ring_witness :
  dhkey_wf (key_of 1) /\ dhkey_wf (key_of 9) /\ dhkey_wf (key_of 2) /\
  (_np_dhkey_between (key_of 1) (key_of 9) (key_of 2) false = true <->
     key_of 9 = key_of 2 \/
     (dhkey_val (key_of 1) - dhkey_val (key_of 9)) mod 2 ^ 256 <
     (dhkey_val (key_of 2) - dhkey_val (key_of 9)) mod 2 ^ 256).
Proof.
  repeat (split; [by_decide|]).
  apply dhkey_between_ring; by_decide.
Defined.

(** ** Word-wise arithmetic, distance and midpoint *)

Lemma word_eight_words f i : (i < 8)%nat -> word (eight_words f) i = f i.
Proof. intros Hi. unfold word, eight_words. simpl.
  do 8 (destruct i as [|i]; [done|]). lia. Qed.

Lemma dhkey_ext a b :
  dhkey_wf a -> dhkey_wf b -> (forall i, (i < 8)%nat -> word a i = word b i) -> a = b.
Proof.
  intros [La _] [Lb _] H. destruct a as [la], b as [lb]. f_equal. simpl in *.
  apply list_eq_same_length with 8%nat; [done..|].
  intros i x y Hi Hx Hy. specialize (H i). unfold word in H. simpl in H.
  rewrite !nth_lookup, Hx, Hy in H. simpl in H. apply H. lia.
Qed.

Lemma _np_dhkey_sub_diag k : _np_dhkey_sub k k = dhkey_zero.
Proof.
  apply dhkey_ext; [auto with machine | by_decide |].
  intros i Hi. unfold _np_dhkey_sub. rewrite word_eight_words by done.
  rewrite Z.sub_diag. do 8 (destruct i as [|i]; [done|]). lia.
Qed.

(** Subtraction undoes addition, word by word and in both orders. *)
Lemma _np_dhkey_add_sub a b : dhkey_wf a -> _np_dhkey_sub (_np_dhkey_add a b) b = a.
Proof.
  intros Wa. apply dhkey_ext; [auto with machine | done |].
  intros i Hi. unfold _np_dhkey_sub, _np_dhkey_add. rewrite !word_eight_words by done.
  unfold u32. rewrite Zminus_mod_idemp_l, Z.add_simpl_r.
  apply (u32_id (word a i)). auto with machine.
Qed.

Lemma _np_dhkey_sub_add a b : dhkey_wf a -> _np_dhkey_add (_np_dhkey_sub a b) b = a.
Proof.
  intros Wa. apply dhkey_ext; [auto with machine | done |].
  intros i Hi. unfold _np_dhkey_sub, _np_dhkey_add. rewrite !word_eight_words by done.
  unfold u32. rewrite Zplus_mod_idemp_l, Z.sub_add.
  apply (u32_id (word a i)). auto with machine.
Qed.

Lemma _np_dhkey_sub_zero_inv a b :
  dhkey_wf a -> dhkey_wf b -> _np_dhkey_sub a b = dhkey_zero -> a = b.
Proof.
  intros Wa Wb E. rewrite <- (_np_dhkey_sub_add a b Wa), E.
  apply dhkey_ext; [auto with machine | done |].
  intros i Hi. unfold _np_dhkey_add. rewrite word_eight_words by done.
  replace (word dhkey_zero i) with 0 by (do 8 (destruct i as [|i]; [done|]); lia).
  apply u32_id. auto with machine.
Qed.

Lemma half_lt_max_diff d :
  dhkey_wf d -> _np_dhkey_sub np_dhkey_max d = dhkey_zero -> d = np_dhkey_max.
Proof. intros. symmetry. by apply _np_dhkey_sub_zero_inv; auto with machine. Qed.

(** The second half of [_np_dhkey_distance]. *)
Definition fold_diff (diff : np_dhkey_t) : np_dhkey_t :=
  if _np_dhkey_cmp (Some np_dhkey_half) (Some diff) <? 0
  then _np_dhkey_sub np_dhkey_max diff else diff.

Lemma distance_of_ge k1 k2 :
  dhkey_wf k1 -> dhkey_wf k2 -> dhkey_val k2 <= dhkey_val k1 ->
  _np_dhkey_distance k1 k2 = fold_diff (_np_dhkey_sub k1 k2) /\
  _np_dhkey_distance k2 k1 = fold_diff (_np_dhkey_sub k1 k2).
Proof.
  intros W1 W2 Hge. unfold _np_dhkey_distance.
  destruct (dhkey_cmp_cases _ _ W1 W2) as [[H1 E1]|[(-> & _ & ->)|[H1 ->]]]; [lia|done|].
  by destruct (dhkey_cmp_cases _ _ W2 W1) as [[H2 ->]|[(H2 & ? & E2)|[H2 E2]]]; [|lia|lia].
Qed.

Lemma fold_diff_zero a b :
  dhkey_wf a -> dhkey_wf b ->
  dhkey_val b <= dhkey_val a ->
  fold_diff (_np_dhkey_sub a b) = dhkey_zero <->
    a = b \/ (dhkey_val b < dhkey_val a /\ _np_dhkey_sub a b = np_dhkey_max).
Proof.
  intros Wa Wb Hge. trans (a = b \/ _np_dhkey_sub a b = np_dhkey_max); last first.
  { split; [|tauto]. intros [->|H]; [by left|]. destruct (decide (a = b)) as [|Hne]; [by left|].
    right. split; [|done]. apply Z.le_neq. split; [done|]. intros ?.
    apply Hne. by apply dhkey_val_inj. }
  unfold fold_diff. case_match eqn:E; split.
  - intros Hz. right. apply half_lt_max_diff; auto with machine.
  - intros [-> | ->]; [|apply _np_dhkey_sub_diag].
    rewrite _np_dhkey_sub_diag in E. by vm_compute in E.
  - intros Hz. left. by apply _np_dhkey_sub_zero_inv.
  - intros [-> | Hd]; [apply _np_dhkey_sub_diag|]. rewrite Hd in E. by vm_compute in E.
Qed.

(** [_np_dhkey_distance] is symmetric and yields a well-formed key.  It is
    zero for equal keys, and for distinct keys only if their word-wise difference
    is the maximal key: the wrap-around branch subtracts from [2^32 - 1] per
    word instead of from [2^32], so two such keys count as coinciding. *)
Theorem dhkey_distance_spec k1 k2 :
  dhkey_wf k1 -> dhkey_wf k2 ->
  _np_dhkey_distance k1 k2 = _np_dhkey_distance k2 k1 /\
  dhkey_wf (_np_dhkey_distance k1 k2) /\
  (_np_dhkey_distance k1 k2 = dhkey_zero <->
     k1 = k2 \/
     (dhkey_val k2 < dhkey_val k1 /\ _np_dhkey_sub k1 k2 = np_dhkey_max) \/
     (dhkey_val k1 < dhkey_val k2 /\ _np_dhkey_sub k2 k1 = np_dhkey_max)).
Proof.
  intros W1 W2. destruct (Z.le_ge_cases (dhkey_val k2) (dhkey_val k1)) as [H|H].
  - destruct (distance_of_ge k1 k2 W1 W2 H) as [E1 E2]. rewrite E1, E2.
    split; [done|]. split; [rewrite <- E1; auto with machine|].
    rewrite fold_diff_zero by done. intuition (subst; lia || auto).
  - destruct (distance_of_ge k2 k1 W2 W1 H) as [E1 E2]. rewrite E1, E2.
    split; [done|]. split; [rewrite <- E1; auto with machine|].
    rewrite fold_diff_zero by done. intuition (subst; lia || auto).
Qed.

Lemma dhkey_distance_spec_witness :
  dhkey_wf dhkey_zero /\ dhkey_wf np_dhkey_max /\ dhkey_zero <> np_dhkey_max /\
  _np_dhkey_distance dhkey_zero np_dhkey_max = dhkey_zero.
Proof.
  split; [by_decide|]. split; [by_decide|]. split; [by_decide|].
  apply dhkey_distance_spec; [by_decide | by_decide |].
  right; right. split; [by_decide | reflexivity].
Defined.

(** ** Hamming distance *)

Lemma hamming_each_bounds x y :
  Forall (fun d => 0 <= d <= 32) (dh_t (_np_dhkey_hamming_distance_each x y)).
Proof.
  apply Forall_map, Forall_true. intros i. apply count_bits_range.
Qed.

Lemma forall_eight (P : Z -> Prop) f :
  Forall P (dh_t (eight_words f)) <-> forall i, (i < 8)%nat -> P (f i).
Proof.
  unfold eight_words, dh_t. rewrite Forall_map, Forall_forall. split.
  - intros H i Hi. apply H. apply elem_of_seq. lia.
  - intros H i Hi. apply H. apply elem_of_seq in Hi. lia.
Qed.

Lemma eight_words_ext f g :
  (forall i, (i < 8)%nat -> f i = g i) -> eight_words f = eight_words g.
Proof.
  intros H. unfold eight_words. f_equal. apply map_ext_in.
  intros i Hi%in_seq. apply H. lia.
Qed.

Lemma word_max i : (i < 8)%nat -> word np_dhkey_max i = UINT32_MAX.
Proof. apply word_eight_words. Qed.

Lemma lxor_max_iff a b : in_u 32 a -> in_u 32 b ->
  Z.lxor a b = UINT32_MAX <-> b = Z.lxor a UINT32_MAX.
Proof.
  intros Ha Hb. split.
  - intros <-. by rewrite <- Z.lxor_assoc, Z.lxor_nilpotent, Z.lxor_0_l.
  - intros ->. by rewrite <- Z.lxor_assoc, Z.lxor_nilpotent, Z.lxor_0_l.
Qed.

(** The [uint8_t] result of [_np_dhkey_hamming_distance] is the number of
    differing bits (the sum of the counts of [_np_dhkey_hamming_distance_each])
    modulo 256.  It is the exact number unless every bit differs, so it is zero
    for equal keys and, through the overflow, for a key and its complement. *)
Theorem dhkey_hamming_spec x y :
  dhkey_wf x -> dhkey_wf y ->
  let bits := zsum (dh_t (_np_dhkey_hamming_distance_each x y)) in
  _np_dhkey_hamming_distance x y = bits mod 256 /\
  0 <= bits <= 256 /\
  (bits = 256 <-> y = _np_dhkey_xor x np_dhkey_max) /\
  (_np_dhkey_hamming_distance x y = 0 <-> x = y \/ y = _np_dhkey_xor x np_dhkey_max).
Proof.
  intros Wx Wy bits.
  assert (_np_dhkey_hamming_distance x y = bits mod 256) as ->.
  { unfold _np_dhkey_hamming_distance. by rewrite foldl_u8_sum. }
  pose proof (hamming_each_bounds x y) as Hall.
  pose proof (zsum_bounds 32 _ Hall) as Hb. fold bits in Hb. simpl in Hb.
  assert (bits = 0 <-> x = y) as Hz.
  { split.
    - intros E. apply zsum_zero_inv in E;
        [|by eapply Forall_impl; [apply Hall|]; simpl; lia].
      pose proof (proj1 (forall_eight _ _) E) as E'. clear E. rename E' into E.
      apply dhkey_ext; [done..|]. intros i Hi. apply Z.lxor_eq.
      apply popcount_zero_iff; [auto with machine|]. by apply E.
    - intros ->. unfold bits, _np_dhkey_hamming_distance_each.
      simpl. by rewrite !Z.lxor_nilpotent. }
  assert (bits = 256 <-> y = _np_dhkey_xor x np_dhkey_max) as Hm.
  { split.
    - intros E. apply (zsum_max_inv 32) in E; [|done].
      pose proof (proj1 (forall_eight _ _) E) as E'. clear E. rename E' into E.
      apply dhkey_ext; [done | auto with machine|]. intros i Hi.
      unfold _np_dhkey_xor. rewrite word_eight_words, word_max by done.
      apply lxor_max_iff; [auto with machine..|].
      apply popcount_full_iff; [auto with machine|]. by apply E.
    - intros ->. unfold bits, _np_dhkey_hamming_distance_each.
      rewrite (eight_words_ext _ (fun _ => 32)); [done|]. intros i Hi.
      unfold _np_dhkey_xor. rewrite word_eight_words, word_max by done.
      by rewrite <- Z.lxor_assoc, Z.lxor_nilpotent. }
  split; [done|]. split; [lia|]. split; [done|].
  rewrite <- Hz, <- Hm. split.
  - intros E. apply Z.mod_divide in E as [q E]; [|lia]. lia.
  - by intros [-> | ->].
Qed.

Lemma dhkey_hamming_spec_witness :
  dhkey_wf dhkey_zero /\ dhkey_wf np_dhkey_max /\
  _np_dhkey_hamming_distance dhkey_zero np_dhkey_max = 0.
Proof.
  split; [by_decide|]. split; [by_decide|].
  apply dhkey_hamming_spec; [by_decide | by_decide | right; reflexivity].
Defined.

(** ** Hashing and the hexadecimal form

    C strings are the lists of their character codes without the terminating
    NUL.  libsodium is not part of the repository: [blake2b] stands for
    [crypto_generichash_blake2b] with a 32-byte digest, [bin2hex] for
    [sodium_bin2hex], and [hex2bin] for [sodium_hex2bin] on 64 characters into
    32 bytes ([None] is a non-zero return code). *)

Definition isxdigit (c : Z) : bool :=
  ((48 <=? c) && (c <=? 57)) || ((65 <=? c) && (c <=? 70)) || ((97 <=? c) && (c <=? 102)).

Definition strnlen (s : list Z) (maxlen : nat) : nat := Nat.min (length s) maxlen.

(** The eight [memcpy] calls from a 32-byte buffer. *)
Definition bytes_dhkey (b : list Z) : np_dhkey_t :=
  eight_words (fun i => bytes_word (nth (4 * i) b 0) (nth (4 * i + 1) b 0)
                                   (nth (4 * i + 2) b 0) (nth (4 * i + 3) b 0)).

(** The documented encoding: two lower-case digits per byte, high half first. *)
Definition hex_digit (d : Z) : Z := if d <? 10 then 48 + d else 87 + d.
Definition hex_of_byte (b : Z) : list Z := [hex_digit (b ≫ 4); hex_digit (Z.land b 15)].
Definition digit_value (c : Z) : Z :=
  if c <=? 57 then c - 48 else if c <=? 70 then c - 55 else c - 87.
Fixpoint decode_pairs (s : list Z) : list Z :=
  match s with
  | c1 :: c2 :: s' => (16 * digit_value c1 + digit_value c2) :: decode_pairs s'
  | _ => []
  end.

Section Sodium.
  Variable blake2b : list Z -> list Z.
  Variable bin2hex : list Z -> list Z.
  Variable hex2bin : list Z -> option (list Z).

Definition _np_dhkey_generate_hash (data : list Z) : np_dhkey_t :=
  bytes_dhkey (blake2b data).

Definition np_hkey_generate_hash (data : list Z) : list Z := blake2b data.

(** [snprintf (name, 255, "%s:%s", ...)] keeps at most 254 characters. *)
Definition np_dhkey_create_from_hostport (strOrig port : list Z) : np_dhkey_t :=
  let name := take 254 (strOrig ++ [58] ++ port) in
  _np_dhkey_generate_hash (take (strnlen name 255) name).

Definition np_id_str (id : list Z) : list Z := take 64 (bin2hex id).

Definition np_str_id (str : list Z) : result (list Z) :=
  match hex2bin (take 64 str) with
  | Some id => Ok id
  | None => Err Assert_failed
  end.

Definition np_dhkey_create_from_hash (strOrig : list Z) : result np_dhkey_t :=
  let kResult := dhkey_zero in
  let _invalid_format := false in
  let _invalid_format :=
    if negb _invalid_format then negb (64 =? strnlen strOrig 64)%nat else _invalid_format in
  let _invalid_format :=
    if negb _invalid_format
    then existsb (fun i => negb (isxdigit (nth i strOrig 0)))
                 (seq 0 (Nat.min 64 (strnlen strOrig 64)))
    else _invalid_format in
  if negb _invalid_format then
    new_id ← np_str_id strOrig;
    Ok (bytes_dhkey new_id)
  else Ok kResult.

Definition _np_dhkey_str (k : np_dhkey_t) : list Z := np_id_str (dhkey_bytes k).

Definition _np_str_dhkey (key_string : list Z) : result np_dhkey_t :=
  id ← np_str_id key_string; Ok (bytes_dhkey id).

  Hypothesis blake2b_doc :
    forall d, length (blake2b d) = 32%nat /\ Forall (in_u 8) (blake2b d).
  Hypothesis bin2hex_doc :
    forall b, Forall (in_u 8) b -> bin2hex b = concat (map hex_of_byte b).
  Hypothesis hex2bin_doc :
    forall s, length s = 64%nat -> forallb isxdigit s = true -> hex2bin s = Some (decode_pairs s).

Lemma bytes_word_range b0 b1 b2 b3 :
  in_u 8 b0 -> in_u 8 b1 -> in_u 8 b2 -> in_u 8 b3 -> in_u 32 (bytes_word b0 b1 b2 b3).
Proof. intros. rewrite bytes_word_sum by done. unfold in_u in *. lia. Qed.

Lemma bytes_dhkey_wf b : Forall (in_u 8) b -> dhkey_wf (bytes_dhkey b).
Proof.
  intros Hb. apply eight_words_wf. intros i _.
  assert (forall j, in_u 8 (nth j b 0)) as Hn.
  { intros j. rewrite nth_lookup. destruct (b !! j) eqn:E; [|done].
    by eapply Forall_lookup_1 in E. }
  by apply bytes_word_range.
Qed.

Lemma bytes_dhkey_of_key k : dhkey_wf k -> bytes_dhkey (dhkey_bytes k) = k.
Proof.
  intros (w0&w1&w2&w3&w4&w5&w6&w7&->&?&?&?&?&?&?&?&?)%dhkey_wf_inv.
  unfold bytes_dhkey, eight_words. f_equal. simpl.
  do 8 (apply (f_equal2 cons); [symmetry; by apply word_bytes_inj|]). done.
Qed.

Lemma hex_digit_facts b : in_u 8 b ->
  forallb isxdigit (hex_of_byte b) = true /\ decode_pairs (hex_of_byte b) = [b].
Proof.
  revert b. apply (byte_enum (fun b =>
    forallb isxdigit (hex_of_byte b) = true /\ decode_pairs (hex_of_byte b) = [b])).
  by vm_compute.
Qed.

Lemma hex_string_facts b : Forall (in_u 8) b ->
  let s := concat (map hex_of_byte b) in
  length s = (2 * length b)%nat /\ forallb isxdigit s = true /\ decode_pairs s = b.
Proof.
  induction 1 as [|x b Hx Hb (L & X & D)]; [done|].
  apply hex_digit_facts in Hx as [Hd Hp].
  unfold hex_of_byte in *. simpl in *. injection Hp as Hp.
  rewrite X, D, Hp. repeat split; [lia|].
  apply andb_true_iff in Hd as [-> Hd]. apply andb_true_iff in Hd as [-> _]. done.
Qed.

(** The format check: fewer than 64 characters, or a non-digit among the first 64. *)
Definition valid_format (s : list Z) : bool :=
  (64 <=? length s)%nat && forallb isxdigit (take 64 s).

Lemma existsb_nth_forallb s n :
  (n <= length s)%nat ->
  existsb (fun i => negb (isxdigit (nth i s 0))) (seq 0 n) = negb (forallb isxdigit (take n s)).
Proof.
  revert s. induction n as [|n IH]; intros s Hn; [done|].
  destruct (nth_lookup_or_length s n 0) as [E|E]; [|lia].
  rewrite seq_S, existsb_app, IH by lia. simpl. rewrite (take_S_r _ _ _ E), forallb_app.
  simpl. by rewrite orb_false_r, andb_true_r, negb_andb.
Qed.

Lemma create_from_hash_unfold s :
  np_dhkey_create_from_hash s =
    if valid_format s then (id ← np_str_id s; Ok (bytes_dhkey id)) else Ok dhkey_zero.
Proof.
  unfold np_dhkey_create_from_hash, valid_format, strnlen. cbv zeta.
  destruct (Nat.leb_spec 64 (length s)) as [H|H].
  - replace (Nat.min (length s) 64) with 64%nat by lia.
    change (Nat.min 64 64) with 64%nat. rewrite Nat.eqb_refl.
    change (negb true) with false. change (negb false) with true. cbv iota.
    change (negb false) with true. cbv iota. rewrite existsb_nth_forallb by done.
    by destruct (forallb isxdigit (take 64 s)).
  - by destruct (Nat.eqb_spec 64 (Nat.min (length s) 64)); [lia|].
Qed.

Lemma np_str_id_valid s :
  valid_format s = true -> np_str_id s = Ok (decode_pairs (take 64 s)).
Proof.
  intros [Hlen Hx]%andb_true_iff. apply Nat.leb_le in Hlen. unfold np_str_id.
  rewrite hex2bin_doc; [done| |done]. rewrite length_take. lia.
Qed.

Lemma digit_value_range c : isxdigit c = true -> 0 <= digit_value c < 16.
Proof.
  unfold isxdigit, digit_value. intros H.
  repeat (apply orb_true_iff in H as [H|H]); apply andb_true_iff in H as [H1%Z.leb_le H2%Z.leb_le];
    repeat case_match; lia.
Qed.

Lemma decode_pairs_range n s :
  (length s <= n)%nat -> forallb isxdigit s = true -> Forall (in_u 8) (decode_pairs s).
Proof.
  revert s. induction n as [|n IH]; intros [|c1 [|c2 s]] Hn H; simpl in *; try lia; try constructor.
  - apply andb_true_iff in H as [H1 H]. apply andb_true_iff in H as [H2 H].
    pose proof (digit_value_range c1 H1). pose proof (digit_value_range c2 H2).
    unfold in_u. lia.
  - apply andb_true_iff in H as [_ H]. apply andb_true_iff in H as [_ H].
    apply IH; [lia | done].
Qed.

(** A key survives its hexadecimal form.  [_np_dhkey_str] produces 64
    characters from which both [np_dhkey_create_from_hash] and [_np_str_dhkey]
    rebuild the key. *)
Theorem dhkey_hex_roundtrip k :
  dhkey_wf k ->
  length (_np_dhkey_str k) = 64%nat /\
  np_dhkey_create_from_hash (_np_dhkey_str k) = Ok k /\
  _np_str_dhkey (_np_dhkey_str k) = Ok k.
Proof.
  intros W. unfold _np_dhkey_str, np_id_str.
  pose proof (dhkey_bytes_range k) as Hb. rewrite bin2hex_doc by done.
  destruct (hex_string_facts _ Hb) as (L & X & D). rewrite dhkey_bytes_length in L by done.
  set (s := concat _) in *. rewrite take_ge by lia.
  assert (valid_format s = true) as Hv.
  { unfold valid_format. rewrite take_ge, X, L by lia. done. }
  rewrite create_from_hash_unfold, Hv. unfold _np_str_dhkey.
  rewrite np_str_id_valid by done. rewrite take_ge, D by lia. simpl.
  rewrite bytes_dhkey_of_key by done. done.
Qed.

(** [np_dhkey_create_from_hash] never fails and always yields a well-formed
    key: a string with fewer than 64 characters or with a non-hexadecimal one
    among the first 64 gives the zero key, any other string is decoded from its
    first 64 characters. *)
Theorem create_from_hash_total s :
  exists k, np_dhkey_create_from_hash s = Ok k /\ dhkey_wf k /\
    (valid_format s = false -> k = dhkey_zero) /\
    (valid_format s = true -> k = bytes_dhkey (decode_pairs (take 64 s))).
Proof.
  rewrite create_from_hash_unfold. destruct (valid_format s) eqn:V.
  - rewrite np_str_id_valid by done. simpl. eexists. split; [done|]. split; [|done].
    apply bytes_dhkey_wf. apply andb_true_iff in V as [_ V].
    by eapply decode_pairs_range.
  - exists dhkey_zero. split; [done|]. split; [by_decide | done].
Qed.

(** A generated hash is the digest, byte for byte. *)
Lemma generate_hash_bytes d :
  dhkey_wf (_np_dhkey_generate_hash d) /\
  dhkey_bytes (_np_dhkey_generate_hash d) = np_hkey_generate_hash d.
Proof.
  destruct (blake2b_doc d) as [L R]. split; [by apply bytes_dhkey_wf|].
  unfold _np_dhkey_generate_hash, np_hkey_generate_hash. set (b := blake2b d) in *.
  do 32 (destruct b as [|? b]; [discriminate L|]). destruct b; [|discriminate L].
  rewrite !Forall_cons in R. destruct_and! R.
  unfold bytes_dhkey, dhkey_bytes, eight_words, dh_t. rewrite map_map.
  cbn [map seq nth Nat.mul Nat.add]. rewrite !word_bytes_of_bytes by done. done.
Qed.
End Sodium.

(** A concrete model of the two documented conversions, for the witnesses. *)
Definition bin2hex_ref (b : list Z) : list Z := concat (map hex_of_byte b).
Definition hex2bin_ref (s : list Z) : option (list Z) :=
  if (length s =? 64)%nat && forallb isxdigit s then Some (decode_pairs s) else None.

Lemma hex2bin_ref_doc s :
  length s = 64%nat -> forallb isxdigit s = true -> hex2bin_ref s = Some (decode_pairs s).
Proof. intros L X. unfold hex2bin_ref. by rewrite L, X. Qed.

Lemma dhkey_hex_roundtrip_witness :
  dhkey_wf (key_of 0xdeadbeef) /\
  np_dhkey_create_from_hash hex2bin_ref (_np_dhkey_str bin2hex_ref (key_of 0xdeadbeef)) =
    Ok (key_of 0xdeadbeef).
Proof.
  split; [by_decide|].
  apply (dhkey_hex_roundtrip bin2hex_ref hex2bin_ref);
    [done | exact hex2bin_ref_doc | by_decide].
Defined.

Lemma create_from_hash_total_witness :
  exists k, np_dhkey_create_from_hash hex2bin_ref [48; 120] = Ok k /\ k = dhkey_zero.
Proof.
  destruct (create_from_hash_total hex2bin_ref hex2bin_ref_doc [48; 120])
    as (k & Hk & _ & Hz & _).
  exists k. split; [exact Hk | apply Hz; reflexivity].
Defined.
