(* ===== verification/Rng.v ===== *)
(** * The PCG random number generator: [src/util/np_pcg_rng.c]

    The 64-bit linear congruential state with the XSH-RR output permutation,
    and the rejection loop of [np_rng_next_bounded].  The seed bytes of
    [np_rng_init] come from libsodium ([randombytes_buf]) and are arguments. *)
From Stdlib Require Import ZArith Lia.
From stdpp Require Import prelude.
From S2P Require Import Prelude.

Local Open Scope Z_scope.

(** [struct np_local_pcg_state_32]. *)
Record np_local_pcg_state_32 := Pcg { state : Z; inc : Z }.

#[export] Instance pcg_eq_dec : EqDecision np_local_pcg_state_32.
Proof. solve_decision. Defined.

Definition pcg_wf (r : np_local_pcg_state_32) : Prop := in_u 64 (state r) /\ in_u 64 (inc r).

Definition PCG_DEFAULT_MULTIPLIER_32 : Z := 6364136223846793005.
Definition PCG32_INITIALIZER : np_local_pcg_state_32 :=
  Pcg 0x853c49e6748fea9b 0xda3e39cb94b95bdb.

(** [rot] is an [unsigned int]; [(-rot) & 31] is taken on 32 bits. *)
Definition pcg_rotr_32 (value rot : Z) : Z :=
  Z.lor (value ≫ rot) (u32 (value ≪ Z.land (u32 (- rot)) 31)).

(** Returns the output and the advanced state. *)
Definition pcg_output_xsh_rr_32_32 (rng : np_local_pcg_state_32) : Z * np_local_pcg_state_32 :=
  let oldstate := state rng in
  let rng' := Pcg (u64 (state rng * PCG_DEFAULT_MULTIPLIER_32 + inc rng)) (inc rng) in
  (pcg_rotr_32 (u32 ((Z.lxor (oldstate ≫ 18) oldstate) ≫ 27)) (oldstate ≫ 59), rng').

Definition pcg_setseq_32_srandom_r (initstate initseq : Z) : np_local_pcg_state_32 :=
  let rng := Pcg 0 (Z.lor (u64 (initseq ≪ 1)) 1) in
  let rng := snd (pcg_output_xsh_rr_32_32 rng) in
  let rng := Pcg (u64 (state rng + initstate)) (inc rng) in
  snd (pcg_output_xsh_rr_32_32 rng).

(** [seeds] is what [randombytes_buf] wrote. *)
Definition np_rng_init (seeds : Z * Z) : np_local_pcg_state_32 :=
  pcg_setseq_32_srandom_r (fst seeds) (snd seeds).

Definition np_rng_next (rng : np_local_pcg_state_32) : Z * np_local_pcg_state_32 :=
  pcg_output_xsh_rr_32_32 rng.

(** The [for (;;)] loop, [fuel] iterations of it at most. *)
Fixpoint next_bounded_loop (fuel : nat) (threshold bound : Z) (rng : np_local_pcg_state_32)
    : result (Z * np_local_pcg_state_32) :=
  match fuel with
  | O => Err Diverges
  | S fuel' =>
      let '(r, rng') := np_rng_next rng in
      if threshold <=? r then Ok (r mod bound, rng')
      else next_bounded_loop fuel' threshold bound rng'
  end.

Definition np_rng_next_bounded (fuel : nat) (rng : np_local_pcg_state_32) (bound : Z)
    : result (Z * np_local_pcg_state_32) :=
  if bound =? 0 then Err Div_by_zero
  else next_bounded_loop fuel (u32 (- bound) mod bound) bound rng.

(** The global generator: each call runs inside [TSP_SCOPE], so it is a state
    transformer on the one shared state. *)
Definition np_global_rng_init (seeds : Z * Z) (_ : np_local_pcg_state_32) :=
  np_rng_init seeds.
Definition np_global_rng_next (g : np_local_pcg_state_32) := np_rng_next g.
Definition np_global_rng_next_bounded (fuel : nat) (g : np_local_pcg_state_32) (bound : Z) :=
  np_rng_next_bounded fuel g bound.

(** ** Range and seeding *)

Lemma pcg_rotr_32_range v r : in_u 32 v -> 0 <= r -> in_u 32 (pcg_rotr_32 v r).
Proof. intros. unfold pcg_rotr_32. auto with machine. Qed.

Lemma np_rng_next_wf rng :
  pcg_wf rng -> in_u 32 (fst (np_rng_next rng)) /\ pcg_wf (snd (np_rng_next rng)).
Proof.
  intros [[Hs _] Hi]. split.
  - apply pcg_rotr_32_range; [auto with machine|]. by apply Z.shiftr_nonneg.
  - split; simpl; auto with machine.
Qed.

(** The output permutation only moves bits: bit [i] of a rotation by [r] is bit
    [i + r] (mod 32) of the argument. *)
Lemma pcg_rotr_32_bits v r i :
  in_u 32 v -> 0 <= r < 32 -> 0 <= i < 32 ->
  Z.testbit (pcg_rotr_32 v r) i = Z.testbit v ((i + r) mod 32).
Proof.
  intros Hv Hr Hi. unfold pcg_rotr_32.
  change 31 with (Z.ones 5). rewrite Z.land_ones by lia.
  rewrite Z.lor_spec, Z.shiftr_spec by lia. unfold u32 at 1.
  rewrite Z.mod_pow2_bits_low by lia. rewrite Z.shiftl_spec by lia.
  assert (u32 (- r) mod 2 ^ 5 = (- r) mod 32) as ->.
  { unfold u32. change (2 ^ 5) with 32. divlia. }
  destruct (decide (i + r < 32)).
  - rewrite (Z.mod_small (i + r)) by lia.
    destruct (decide (r = 0)) as [->|].
    + change (- 0 mod 32) with 0. rewrite Z.sub_0_r, Z.add_0_r. apply orb_diag.
    + replace ((- r) mod 32) with (32 - r) by divlia.
      rewrite (Z.testbit_neg_r v (i - (32 - r))) by lia. apply orb_false_r.
  - replace ((- r) mod 32) with (32 - r) by divlia.
    rewrite (testbit_above 32 v (i + r)) by (done || lia). simpl. f_equal. divlia.
Qed.

(** Rejection arithmetic: the accepted 32-bit outputs with residue [c] are the
    numbers [T + B q + ((c - T) mod B)] for [0 <= q < 2^32 / B]. *)
Lemma bounded_threshold B : 0 < B < 2 ^ 32 -> u32 (- B) mod B = 2 ^ 32 mod B.
Proof.
  intros HB. unfold u32. rewrite Z_mod_nz_opp_full by (rewrite Z.mod_small; lia).
  rewrite (Z.mod_small B) by lia. rewrite Zminus_mod, Z_mod_same_full, Z.sub_0_r by lia.
  by rewrite Zmod_mod.
Qed.

Lemma accepted_residue B c r :
  0 < B < 2 ^ 32 -> in_u 32 r ->
  let T := 2 ^ 32 mod B in
  T <= r /\ r mod B = c <->
     0 <= c < B /\ exists q, 0 <= q < 2 ^ 32 / B /\ r = T + B * q + (c - T) mod B.
Proof.
  intros HB Hr. unfold in_u in Hr. set (N := 2 ^ 32) in *. intros T.
  pose proof (Z.div_mod N B ltac:(lia)) as HN. fold T in HN.
  pose proof (Z.mod_pos_bound N B ltac:(lia)) as HTb. fold T in HTb. clearbody T.
  pose proof (Z.mod_pos_bound (c - T) B ltac:(lia)) as Hm.
  split.
  - intros [Hge Hrc]. split; [subst c; apply Z.mod_pos_bound; lia|]. exists ((r - T) / B).
    pose proof (Z.div_mod (r - T) B ltac:(lia)) as Hd.
    assert ((r - T) mod B = (c - T) mod B) as Er by (rewrite <- Hrc; by rewrite Zminus_mod_idemp_l).
    rewrite Er in Hd. split; [|lia]. split; [apply Z.div_pos; lia|].
    apply Z.div_lt_upper_bound; lia.
  - intros (Hc & q & Hq & ->). split; [nia|].
    replace (T + B * q + (c - T) mod B) with ((c - T) mod B + T + q * B) by lia.
    rewrite Z_mod_plus_full, Zplus_mod_idemp_l, Z.sub_add. apply Z.mod_small. lia.
Qed.

(** The [n]-th next state. *)
Fixpoint rng_skip (n : nat) (rng : np_local_pcg_state_32) : np_local_pcg_state_32 :=
  match n with O => rng | S n' => rng_skip n' (snd (np_rng_next rng)) end.

(** What the loop returns is the first output at or above the threshold. *)
Lemma next_bounded_loop_spec fuel T B rng n :
  (n < fuel)%nat ->
  (forall m, (m < n)%nat -> fst (np_rng_next (rng_skip m rng)) < T) ->
  T <= fst (np_rng_next (rng_skip n rng)) ->
  next_bounded_loop fuel T B rng =
    Ok (fst (np_rng_next (rng_skip n rng)) mod B, rng_skip (S n) rng).
Proof.
  revert fuel rng. induction n as [|n IH]; intros [|fuel] rng Hn Hlt Hge; try lia;
    cbn [next_bounded_loop]; destruct (np_rng_next rng) as [r rng'] eqn:E.
  - cbn [rng_skip] in *. rewrite E in *. cbn [fst snd] in *. by rewrite (proj2 (Z.leb_le _ _)).
  - assert (r < T) as Hr.
    { specialize (Hlt O ltac:(lia)). cbn [rng_skip] in Hlt. by rewrite E in Hlt. }
    assert (forall m, rng_skip (S m) rng = rng_skip m rng') as Es
      by (intros; cbn [rng_skip]; by rewrite E).
    rewrite (proj2 (Z.leb_gt _ _)) by done.
    rewrite !Es in *. apply IH; [lia| |done].
    intros m Hm. specialize (Hlt (S m) ltac:(lia)). by rewrite Es in Hlt.
Qed.

Lemma next_bounded_loop_inv fuel T B rng c rng' :
  next_bounded_loop fuel T B rng = Ok (c, rng') ->
  exists n, (n < fuel)%nat /\
    (forall m, (m < n)%nat -> fst (np_rng_next (rng_skip m rng)) < T) /\
    T <= fst (np_rng_next (rng_skip n rng)) /\
    fst (np_rng_next (rng_skip n rng)) mod B = c /\ rng' = rng_skip (S n) rng.
Proof.
  revert rng. induction fuel as [|fuel IH]; intros rng; cbn [next_bounded_loop]; [done|].
  destruct (np_rng_next rng) as [r rng1] eqn:E. destruct (Z.leb_spec T r) as [Hle|Hgt].
  - intros [= <- <-]. exists O. cbn [rng_skip]. rewrite E. repeat split; (done || lia).
  - intros H. apply IH in H as (n & Hn & Hlt & Hge & Hmod & ->).
    assert (forall m, rng_skip (S m) rng = rng_skip m rng1) as Es
      by (intros; cbn [rng_skip]; by rewrite E).
    exists (S n). rewrite !Es. repeat split; try (done || lia).
    intros [|m] Hm; [cbn [rng_skip]; by rewrite E|]. rewrite Es. apply Hlt. lia.
Qed.

Lemma rng_skip_wf n rng : pcg_wf rng -> pcg_wf (rng_skip n rng).
Proof. revert rng. induction n; intros rng H; simpl; [done|]. apply IHn. by apply np_rng_next_wf. Qed.

(** [np_rng_next_bounded] is exactly unbiased rejection sampling.  With a
    bound [B] it returns [c] iff, within the iterations allowed, the first
    output of the generator that is at least [2^32 mod B] is one of the
    [2^32 / B] numbers [T + B q + ((c - T) mod B)], [0 <= q < 2^32 / B], with
    [T = 2^32 mod B]: every result below [B] has the same number of preimages,
    nothing else is returned, and the state is the one after that output. *)
Theorem rng_bounded_unbiased fuel rng B c rng' :
  0 < B < 2 ^ 32 -> pcg_wf rng ->
  let T := 2 ^ 32 mod B in
  np_rng_next_bounded fuel rng B = Ok (c, rng') <->
  exists n q, (n < fuel)%nat /\ 0 <= c < B /\ 0 <= q < 2 ^ 32 / B /\
    (forall m, (m < n)%nat -> fst (np_rng_next (rng_skip m rng)) < T) /\
    fst (np_rng_next (rng_skip n rng)) = T + B * q + (c - T) mod B /\
    rng' = rng_skip (S n) rng.
Proof.
  intros HB Hwf T. unfold np_rng_next_bounded. destruct (Z.eqb_spec B 0); [lia|].
  rewrite bounded_threshold by done. fold T. split.
  - intros (n' & Hn & Hlt & Hge & Hmod & ->)%next_bounded_loop_inv.
    destruct (proj1 (accepted_residue B c (fst (np_rng_next (rng_skip n' rng))) HB
                (proj1 (np_rng_next_wf _ (rng_skip_wf n' rng Hwf)))) (conj Hge Hmod))
      as (Hc & q & Hq & Eq).
    exists n', q. done.
  - intros (n' & q & Hn & Hc & Hq & Hlt & Eq & ->).
    destruct (proj2 (accepted_residue B c (fst (np_rng_next (rng_skip n' rng))) HB
                (proj1 (np_rng_next_wf _ (rng_skip_wf n' rng Hwf))))
                (conj Hc (ex_intro _ q (conj Hq Eq)))) as [Hge Hmod].
    rewrite (next_bounded_loop_spec fuel T B rng n') by done. by rewrite Hmod.
Qed.

Lemma rng_bounded_unbiased_witness :
  exists n q, (n < 1)%nat /\ 0 <= 254 < 257 /\ 0 <= q < 2 ^ 32 / 257 /\
    (forall m, (m < n)%nat -> fst (np_rng_next (rng_skip m PCG32_INITIALIZER)) < 2 ^ 32 mod 257) /\
    fst (np_rng_next (rng_skip n PCG32_INITIALIZER)) = 2 ^ 32 mod 257 + 257 * q + (254 - 2 ^ 32 mod 257) mod 257 /\
    snd (np_rng_next PCG32_INITIALIZER) = rng_skip (S n) PCG32_INITIALIZER.
Proof.
  apply (rng_bounded_unbiased 1 PCG32_INITIALIZER 257 254 (snd (np_rng_next PCG32_INITIALIZER)));
    [split; reflexivity | split; by_decide |].
  vm_compute. reflexivity.
Defined.
