(* ===== verification/BloomBase.v ===== *)
(** * Bloom filters: the common structure ([include/util/np_bloom.h])

    The record behind every filter variant, and the reading of its bitset as a
    set of bit positions, which the specifications of the classic filters use. *)
From Stdlib Require Import ZArith Lia.
From stdpp Require Import prelude.
From S2P Require Import Prelude Dhkey Rng.

Local Open Scope Z_scope.

Inductive bloom_filter_type :=
| standard_bf | stable_bf | scalable_bf | decaying_bf | counting_bf | neuropil_bf.

#[export] Instance bloom_filter_type_eq_dec : EqDecision bloom_filter_type.
Proof. solve_decision. Defined.

(** [struct np_bloom_s]: [_size] is a [size_t], [_d], [_p] and [_num_blocks]
    are [uint8_t], [_free_items] is a [uint16_t]; [_bitset] is the allocated
    byte array. *)
Record np_bloom_t := Bloom {
  _type : bloom_filter_type;
  _size : Z;
  _d : Z;
  _p : Z;
  _rng : np_local_pcg_state_32;
  _bitset : list Z;
  _num_blocks : Z;
  _free_items : Z;
}.

#[export] Instance np_bloom_eq_dec : EqDecision np_bloom_t.
Proof. solve_decision. Defined.

Definition set_bitset (b : np_bloom_t) (bs : list Z) : np_bloom_t :=
  Bloom (_type b) (_size b) (_d b) (_p b) (_rng b) bs (_num_blocks b) (_free_items b).
Definition set_free (b : np_bloom_t) (n : Z) : np_bloom_t :=
  Bloom (_type b) (_size b) (_d b) (_p b) (_rng b) (_bitset b) (_num_blocks b) n.

(** A fresh structure is zeroed by [calloc]. *)
Definition rng0 : np_local_pcg_state_32 := Pcg 0 0.
Definition calloc (n size : Z) : list Z := replicate (Z.to_nat (u64 (n * size))) 0.

(** The eight words of an identifier, the "hash functions" of every filter. *)
Definition id_words (id : np_dhkey_t) : list Z := map (word id) (seq 0 8).

(** [x % _size]: a zero size faults. *)
Definition mod_size (x size : Z) : result Z :=
  if size =? 0 then Err Div_by_zero else Ok (u32 (x mod size)).

(** ** Bytes as a set of bits

    Bit [p] of a filter is bit [0x80 >> (p % 8)] of byte [p / 8]. *)
Definition bit_mask (p : Z) : Z := 0x80 ≫ (p mod 8).
Definition get_bit (bs : list Z) (p : Z) : bool :=
  negb (Z.land (nth (Z.to_nat (p / 8)) bs 0) (bit_mask p) =? 0).

Lemma bit_mask_pow p : bit_mask p = 2 ^ (7 - p mod 8).
Proof.
  unfold bit_mask. pose proof (Z.mod_pos_bound p 8 ltac:(lia)).
  change 128 with (2 ^ 7). rewrite Z.shiftr_div_pow2 by lia.
  by rewrite <- Z.pow_sub_r by lia.
Qed.

Lemma land_pow2_testbit x n : 0 <= n -> negb (Z.land x (2 ^ n) =? 0) = Z.testbit x n.
Proof.
  intros Hn. destruct (Z.testbit x n) eqn:E.
  - apply negb_true_iff, Z.eqb_neq. intros H.
    assert (Z.testbit (Z.land x (2 ^ n)) n = false) as H' by (by rewrite H, Z.testbit_0_l).
    by rewrite Z.land_spec, E, Z.pow2_bits_true in H' by lia.
  - apply negb_false_iff, Z.eqb_eq. apply Z.bits_inj'. intros i Hi.
    rewrite Z.land_spec, Z.testbit_0_l. destruct (decide (i = n)) as [->|Hne].
    + by rewrite E.
    + rewrite Z.pow2_bits_false by lia. apply andb_false_r.
Qed.

Lemma get_bit_testbit bs p :
  get_bit bs p = Z.testbit (nth (Z.to_nat (p / 8)) bs 0) (7 - p mod 8).
Proof.
  unfold get_bit. rewrite bit_mask_pow. apply land_pow2_testbit.
  pose proof (Z.mod_pos_bound p 8 ltac:(lia)). lia.
Qed.

Lemma bit_mask_range p : in_u 8 (bit_mask p).
Proof.
  rewrite bit_mask_pow. pose proof (Z.mod_pos_bound p 8 ltac:(lia)).
  split; [by apply Z.pow_nonneg|]. apply Z.pow_lt_mono_r; lia.
Qed.
#[export] Hint Resolve bit_mask_range : machine.

(** Or-ing the mask of [p] into its byte sets bit [p] and no other. *)
Lemma get_bit_set bs p q :
  0 <= p < 8 * Z.of_nat (length bs) -> 0 <= q ->
  get_bit (alter (fun v => Z.lor v (bit_mask p)) (Z.to_nat (p / 8)) bs) q =
    bool_decide (q = p) || get_bit bs q.
Proof.
  intros Hp Hq. rewrite !get_bit_testbit, !nth_lookup.
  pose proof (Z.mod_pos_bound p 8 ltac:(lia)) as Hp8.
  pose proof (Z.mod_pos_bound q 8 ltac:(lia)) as Hq8.
  destruct (decide (p / 8 = q / 8)) as [E|Hne].
  - assert (Z.to_nat (p / 8) < length bs)%nat as Hlt by (divlia).
    destruct (lookup_lt_is_Some_2 _ _ Hlt) as [v Hv].
    rewrite <- E, list_lookup_alter_eq, Hv. simpl.
    rewrite Z.lor_spec, bit_mask_pow, orb_comm. f_equal.
    destruct (decide (q = p)) as [->|Hqp].
    + rewrite bool_decide_true by done. apply Z.pow2_bits_true. lia.
    + rewrite bool_decide_false by done. apply Z.pow2_bits_false.
      intros Heq. apply Hqp. divlia.
  - rewrite list_lookup_alter_ne.
    + rewrite bool_decide_false; [done|]. intros ->. done.
    + intros Heq. apply Hne. apply Z2Nat.inj in Heq; [done | divlia | divlia].
Qed.

Lemma get_bit_zeroes n p : get_bit (replicate n 0) p = false.
Proof.
  rewrite get_bit_testbit, nth_lookup.
  destruct (replicate n 0 !! Z.to_nat (p / 8)) as [v|] eqn:E; simpl.
  - apply lookup_replicate_1 in E as [-> _]. apply Z.testbit_0_l.
  - apply Z.testbit_0_l.
Qed.

(** ** Folding updates over positions *)

(** A list of in-range updates of the same byte array never faults. *)
Lemma foldM_upd {P} (pos : P -> Z) (f : P -> Z -> Z) (l : list P) (bs : list Z) :
  Forall (fun p => 0 <= pos p < Z.of_nat (length bs)) l ->
  foldM (fun p bs => upd bs (pos p) (f p)) l bs =
    Ok (foldl (fun bs p => alter (f p) (Z.to_nat (pos p)) bs) bs l).
Proof.
  intros Hl.
  destruct (foldM_pure (fun bs' => length bs' = length bs)
              (fun p bs => upd bs (pos p) (f p))
              (fun bs p => alter (f p) (Z.to_nat (pos p)) bs) l bs) as [-> _]; [done| |done].
  intros p bs' Hp Hlen. rewrite Forall_forall in Hl. specialize (Hl p Hp).
  rewrite <- Hlen in Hl. split; [by apply upd_ok|]. by rewrite length_alter.
Qed.

Lemma foldl_alter_length {P} (pos : P -> nat) (f : P -> Z -> Z) l bs :
  length (foldl (fun bs p => alter (f p) (pos p) bs) bs l) = length bs.
Proof.
  revert bs. induction l as [|p l IH]; intros bs; simpl; [done|]. by rewrite IH, length_alter.
Qed.

(** The byte at [j] after such a fold: the updates that hit [j], in order. *)
Lemma foldl_alter_lookup {P} (pos : P -> nat) (f : P -> Z -> Z) l (bs : list Z) j v :
  bs !! j = Some v ->
  foldl (fun bs p => alter (f p) (pos p) bs) bs l !! j =
    Some (foldl (fun v p => if decide (pos p = j) then f p v else v) v l).
Proof.
  revert bs v. induction l as [|p l IH]; intros bs v Hv; simpl; [done|].
  apply IH. by apply alter_lookup_total.
Qed.

(** ** The operation table and its contract *)

(** [struct np_bloom_optable_s], the two operations a membership test needs. *)
Record np_bloom_optable_s := Optable {
  add_cb : np_bloom_t -> np_dhkey_t -> result np_bloom_t;
  check_cb : np_bloom_t -> np_dhkey_t -> result bool;
}.

(** What a client may rely on: while there is room an addition succeeds, uses up
    one place, is seen by the check, and hides no earlier element. *)
Class MembershipFilter (op : np_bloom_optable_s) := {
  filter_wf : np_bloom_t -> Prop;
  filter_room : np_bloom_t -> Z;
  filter_add : forall b id, filter_wf b -> dhkey_wf id -> 0 < filter_room b ->
    exists b', add_cb op b id = Ok b' /\ filter_wf b' /\ filter_room b' = filter_room b - 1 /\
      check_cb op b' id = Ok true /\
      forall x, dhkey_wf x -> check_cb op b x = Ok true -> check_cb op b' x = Ok true;
}.

(** A client that adds a list of identifiers. *)
Definition filter_add_all (op : np_bloom_optable_s) (ids : list np_dhkey_t) (b : np_bloom_t)
    : result np_bloom_t := foldM (fun id b => add_cb op b id) ids b.

Section Client.
Context {op : np_bloom_optable_s} {FM : MembershipFilter op}.

(** Within the room of a filter every addition succeeds and nothing that was
    added, or was there before, is ever reported absent. *)
Lemma filter_add_all_spec ids b :
  filter_wf b -> Forall dhkey_wf ids -> Z.of_nat (length ids) <= filter_room b ->
  exists b', filter_add_all op ids b = Ok b' /\ filter_wf b' /\
    filter_room b' = filter_room b - Z.of_nat (length ids) /\
    (forall x, x ∈ ids -> check_cb op b' x = Ok true) /\
    (forall x, dhkey_wf x -> check_cb op b x = Ok true -> check_cb op b' x = Ok true).
Proof.
  unfold filter_add_all. revert b.
  induction ids as [|id ids IH]; intros b Hb Hids Hlen; simpl in *.
  - exists b. split; [done|]. split; [done|]. split; [lia|]. split; [|done].
    intros x Hx. by apply not_elem_of_nil in Hx.
  - apply Forall_cons in Hids as [Hid Hids].
    destruct (filter_add b id Hb Hid ltac:(lia)) as (b1 & -> & Hb1 & Hr1 & Hc & Hmono).
    simpl. destruct (IH b1 Hb1 Hids ltac:(lia)) as (b' & -> & Hb' & Hr' & Hall & Hm).
    exists b'. split; [done|]. split; [done|]. split; [lia|]. split; [|by auto].
    intros x Hx. apply elem_of_cons in Hx as [->|Hx]; [by apply Hm | by apply Hall].
Qed.
End Client.
