(* ===== verification/BloomClassic.v ===== *)
(** * The classic Bloom filters of [src/util/np_bloom.c]

    Standard, stable, scalable, decaying and counting filters: each operation of
    the source is one definition.  Sizes are [size_t] values, so the products of
    the source wrap at 64 bits, and every index is checked against the allocated
    bitset.  A [float] result is the exact rational passed through [rnd], the
    rounding of the division. *)
From Stdlib Require Import ZArith Lia QArith.
From stdpp Require Import prelude.
From S2P Require Import Prelude Dhkey Rng BloomBase.

Local Open Scope Z_scope.

(** ** Standard filter *)

Definition _np_standard_bloom_create (bit_size : Z) : np_bloom_t :=
  Bloom standard_bf bit_size 1 0 rng0 (calloc 1 (u64 (bit_size / 8 * 1))) 1
        (u16 (u64 (bit_size * 1) / 16)).

Definition _np_standard_bloom_add (bloom : np_bloom_t) (id : np_dhkey_t) : result np_bloom_t :=
  if _free_items bloom =? 0 then Err Aborted else
  bs ← for_range 0 8 (fun k bs =>
    _bit_array_pos ← mod_size (word id k) (_size bloom);
    let _local_pos := _bit_array_pos / 8 in
    let _bitmask := 0x80 ≫ (_bit_array_pos mod 8) in
    upd bs _local_pos (fun v => Z.lor v _bitmask)) (_bitset bloom);
  Ok (set_free (set_bitset bloom bs) (u16 (_free_items bloom - 1))).

(** The loop returns at the first zero bit: [ret] is false from there on. *)
Definition _np_standard_bloom_check (bloom : np_bloom_t) (id : np_dhkey_t) : result bool :=
  for_range 0 8 (fun k (ret : bool) =>
    if negb ret then Ok false else
    _bit_array_pos ← mod_size (word id k) (_size bloom);
    let _local_pos := _bit_array_pos / 8 in
    let _bitmask := 0x80 ≫ (_bit_array_pos mod 8) in
    v ← rd (_bitset bloom) _local_pos;
    Ok (negb (Z.land v _bitmask =? 0))) true.

(** The [ASSERT]s shared by union and intersection. *)
Definition standard_compatible (result first : np_bloom_t) : Prelude.result unit :=
  _ ← c_assert (bool_decide (_type first = standard_bf));
  _ ← c_assert (bool_decide (_type first = _type result));
  _ ← c_assert (_size first =? _size result);
  _ ← c_assert (_d first =? _d result);
  c_assert (_num_blocks first =? _num_blocks result).

Definition _np_standard_bloom_intersect (result first : np_bloom_t)
    : Prelude.result (bool * np_bloom_t) :=
  _ ← standard_compatible result first;
  '(bs, i) ← for_u 16 (u64 (_size result / 8 * _d result)) (fun k '(bs, i) =>
    f ← rd (_bitset first) (Z.of_nat k);
    bs ← upd bs (Z.of_nat k) (fun v => Z.land v f);
    v ← rd bs (Z.of_nat k);
    Ok (bs, if 0 <? v then u16 (i + 1) else i)) (_bitset result, 0);
  Ok (0 <? i, set_free (set_bitset result bs) 0).

Definition _np_standard_bloom_union (result first : np_bloom_t) : Prelude.result np_bloom_t :=
  _ ← standard_compatible result first;
  _ ← c_assert (_size result / 16 <=? _free_items first + _free_items result);
  let free := u16 (_free_items result + u64 (_free_items first - _size result / 16)) in
  bs ← for_u 16 (u64 (_size result / 8 * _d result)) (fun k bs =>
    f ← rd (_bitset first) (Z.of_nat k);
    upd bs (Z.of_nat k) (fun v => Z.lor v f)) (_bitset result);
  Ok (set_free (set_bitset result bs) free).

Definition _np_standard_bloom_clear (res : np_bloom_t) : Prelude.result np_bloom_t :=
  let bs := calloc 1 (u64 (_size res / 8 * _d res)) in
  bs ← memset0 bs 0 (u64 (u64 (_num_blocks res * _size res) * _d res) / 8);
  Ok (set_free (set_bitset res bs) (u16 (u64 (_size res * _d res) / 16))).

(** ** Stable filter *)

Definition _np_stable_bloom_create (seeds : Z * Z) (size d p : Z) : result np_bloom_t :=
  _ ← c_assert (size mod 2 =? 0);
  Ok (Bloom stable_bf size d p (np_rng_init seeds) (calloc 1 (u64 (size * d) ≫ 3)) 1
            (u16 (u64 (size * d) ≫ 4))).

(** [while (_killed_bits > 0) { _free_items++; _killed_bits >>= 3; }]: a 32-bit
    value is exhausted after 11 rounds. *)
Fixpoint killed_loop (fuel : nat) (_killed_bits free : Z) : Z :=
  match fuel with
  | O => free
  | S fuel' => if 0 <? _killed_bits then killed_loop fuel' (_killed_bits ≫ 3) (u16 (free + 1))
               else free
  end.

(** [_local_pos] of the stable filter. *)
Definition stable_pos (bloom : np_bloom_t) (x : Z) : Z :=
  let _bit_array_pos := u32 (Z.land x (u64 (_size bloom - 1))) in
  u32 (_bit_array_pos * _d bloom) ≫ 3.

(** One round of pruning: a random cell loses a bit. *)
Definition stable_prune (bloom : np_bloom_t) (_ : nat)
    (st : list Z * np_local_pcg_state_32 * Z) : result (list Z * np_local_pcg_state_32 * Z) :=
  let '(bs, rng, killed) := st in
  let '(_as_number, rng) := np_rng_next rng in
  let _local_pos := stable_pos bloom _as_number in
  v ← rd bs _local_pos;
  if 0 <? v then bs ← wr bs _local_pos (v ≫ 1); Ok (bs, rng, u32 (killed + 1))
  else Ok (bs, rng, killed).

Definition _np_stable_bloom_add (bloom : np_bloom_t) (id : np_dhkey_t) : result np_bloom_t :=
  '(bs, rng, _killed_bits) ← for_u 8 (_p bloom * _d bloom) (stable_prune bloom)
                               (_bitset bloom, _rng bloom, 0);
  let free := killed_loop 11 (_killed_bits ≫ 3) (_free_items bloom) in
  _ ← shift_ok 31 (_d bloom);
  bs ← for_range 0 8 (fun k bs =>
    upd bs (stable_pos bloom (word id k)) (fun v => u8 (Z.lor v ((1 ≪ _d bloom) - 1)))) bs;
  Ok (Bloom (_type bloom) (_size bloom) (_d bloom) (_p bloom) rng bs (_num_blocks bloom)
            (u16 (free - 1))).

(** The check re-adds the element. *)
Definition _np_stable_bloom_check (bloom : np_bloom_t) (id : np_dhkey_t)
    : result (bool * np_bloom_t) :=
  ret ← for_range 0 8 (fun k ret =>
    v ← rd (_bitset bloom) (stable_pos bloom (word id k));
    Ok (if v =? 0 then false else ret)) true;
  bloom ← _np_stable_bloom_add bloom id;
  Ok (ret, bloom).

(** ** Scalable filter *)

Definition _np_scalable_bloom_create (size : Z) : np_bloom_t :=
  Bloom scalable_bf size 1 0 rng0 (calloc 1 (u64 (size / 8 * 1))) 1 (u16 (size / 16)).

(** [realloc]: bytes past the old end have an indeterminate value, [junk]. *)
Definition realloc (junk : nat -> Z) (bs : list Z) (n : Z) : list Z :=
  take (Z.to_nat n) bs ++ map junk (seq (length bs) (Z.to_nat n - length bs)).

(** The growth step of [_np_scalable_bloom_add]. *)
Definition scalable_grow (junk : nat -> Z) (bloom : np_bloom_t) : result np_bloom_t :=
  let block := u64 (_size bloom / 8 * _d bloom) in
  let x := u16 (u64 (block * _num_blocks bloom)) in
  let num_blocks := u8 (_num_blocks bloom + 1) in
  let bs := realloc junk (_bitset bloom) (u64 (block * num_blocks)) in
  let free := u16 (_free_items bloom + _size bloom / 16) in
  bs ← memset0 bs x block;
  Ok (Bloom (_type bloom) (_size bloom) (_d bloom) (_p bloom) (_rng bloom) bs num_blocks free).

(** [bitset_offset] of block [j]; [j] is an [int] converted to [size_t]. *)
Definition scalable_offset (bloom : np_bloom_t) (j : Z) : Z :=
  u16 (u64 (u64 (j * _size bloom) / 8 * _d bloom)).

Definition _np_scalable_bloom_add (junk : nat -> Z) (bloom : np_bloom_t) (id : np_dhkey_t)
    : result np_bloom_t :=
  bloom ← (if _free_items bloom =? 0 then scalable_grow junk bloom else Ok bloom);
  let bitset_offset := scalable_offset bloom (_num_blocks bloom - 1) in
  bs ← for_range 0 8 (fun k bs =>
    _bit_array_pos ← mod_size (word id k) (_size bloom);
    let _local_pos := _bit_array_pos / 8 in
    let _bitmask := 0x80 ≫ (_bit_array_pos mod 8) in
    upd bs (bitset_offset + _local_pos) (fun v => Z.lor v _bitmask)) (_bitset bloom);
  Ok (set_free (set_bitset bloom bs) (u16 (_free_items bloom - 1))).

(** One round of the outer loop: are all eight bits set in block [j]? *)
Definition scalable_check_block (bloom : np_bloom_t) (id : np_dhkey_t) (j : nat) : result bool :=
  let bitset_offset := scalable_offset bloom (Z.of_nat j) in
  for_range 0 8 (fun k ret_val =>
    _bit_array_pos ← mod_size (word id k) (_size bloom);
    let _local_pos := _bit_array_pos / 8 in
    let _bitmask := 0x80 ≫ (_bit_array_pos mod 8) in
    v ← rd (_bitset bloom) (bitset_offset + _local_pos);
    Ok (if Z.land v _bitmask =? 0 then false else ret_val)) true.

(** The state is [Some true] once the function has returned, otherwise the last
    value of [ret_val] (initially [true]). *)
Definition _np_scalable_bloom_check (bloom : np_bloom_t) (id : np_dhkey_t) : result bool :=
  '(_, ret_val) ← for_u 8 (_num_blocks bloom) (fun j '(returned, ret_val) =>
    if (returned : bool) then Ok (returned, ret_val) else
    ret_val ← scalable_check_block bloom id j;
    Ok (ret_val, ret_val)) (false, true);
  Ok ret_val.

(** ** Decaying filter *)

Definition _np_decaying_bloom_create (size d p : Z) : np_bloom_t :=
  Bloom decaying_bf size d p rng0 (calloc size (d / 8)) 1 (u16 (u64 (size * d) / 16)).

(** A little-endian [uint16_t] read and written through a [uint8_t] pointer. *)
Definition rd16 (bs : list Z) (i : Z) : result Z :=
  lo ← rd bs i; hi ← rd bs (i + 1); Ok (lo + 256 * hi).
Definition wr16 (bs : list Z) (i v : Z) : result (list Z) :=
  bs ← wr bs i (v mod 256); wr bs (i + 1) (v / 256).

(** The cell of width [_d] at byte [i]: 8 and 16 bits are handled, any other
    width is skipped by the [if]s of the source. *)
Definition decaying_rd (bloom : np_bloom_t) (bs : list Z) (i : Z) : result (option Z) :=
  if _d bloom =? 8 then Some <$> rd bs i
  else if _d bloom =? 16 then Some <$> rd16 bs i
  else Ok None.
Definition decaying_wr (bloom : np_bloom_t) (bs : list Z) (i v : Z) : result (list Z) :=
  if _d bloom =? 8 then wr bs i v else wr16 bs i v.

Definition _np_decaying_bloom_decay (bloom : np_bloom_t) : result np_bloom_t :=
  '(bs, _zero_bits) ← for_u 16 (_size bloom) (fun k '(bs, zero) =>
    let i := Z.of_nat k * _d bloom / 8 in
    cell ← decaying_rd bloom bs i;
    match cell with
    | None => Ok (bs, zero)
    | Some v =>
        _ ← (if 0 <? v then shift_ok 32 (_p bloom) else Ok tt);
        let v' := if 0 <? v then v ≫ _p bloom else v in
        bs ← decaying_wr bloom bs i v';
        Ok (bs, if v' =? 0 then u32 (zero + 1) else zero)
    end) (_bitset bloom, 0);
  Ok (set_free (set_bitset bloom bs) (u16 (u32 (_zero_bits * _d bloom) / 16))).

(** The bodies of the three loops over the positions of an identifier. *)
Definition decaying_add_at (bloom : np_bloom_t) (_bit_array_pos : Z) (bs : list Z)
    : result (list Z) :=
  let _local_pos := u32 (_bit_array_pos * _d bloom) / 8 in
  cell ← decaying_rd bloom bs _local_pos;
  match cell with
  | None => Ok bs
  | Some v => decaying_wr bloom bs _local_pos (Z.lor v (1 ≪ (_d bloom - 1)))
  end.

Definition decaying_check_at (bloom : np_bloom_t) (_bit_array_pos : Z) (ret : bool)
    : result bool :=
  let _local_pos := u32 (_bit_array_pos * _d bloom) / 8 in
  cell ← decaying_rd bloom (_bitset bloom) _local_pos;
  match cell with
  | None => Ok ret
  | Some v => Ok (if v =? 0 then false else ret)
  end.

Definition _np_decaying_bloom_add (bloom : np_bloom_t) (id : np_dhkey_t) : result np_bloom_t :=
  if _free_items bloom =? 0 then Err Aborted else
  bs ← for_range 0 8 (fun k bs =>
    _bit_array_pos ← mod_size (word id k) (_size bloom);
    decaying_add_at bloom _bit_array_pos bs) (_bitset bloom);
  Ok (set_free (set_bitset bloom bs) (u16 (_free_items bloom - 1))).

Definition _np_decaying_bloom_check (bloom : np_bloom_t) (id : np_dhkey_t) : result bool :=
  for_range 0 8 (fun k (ret : bool) =>
    if negb ret then Ok false else
    _bit_array_pos ← mod_size (word id k) (_size bloom);
    decaying_check_at bloom _bit_array_pos ret) true.

(** [n = 1; while ((v >> n) > 0) n++;] *)
Fixpoint bit_length (fuel : nat) (v n : Z) : Z :=
  match fuel with
  | O => n
  | S fuel' => if 0 <? v ≫ n then bit_length fuel' v (n + 1) else n
  end.

(** The maximum of [n / _d] over the eight cells, 0 if one of them is empty;
    [broke] is set by the [break]. *)
Definition decaying_heuristic_at (bloom : np_bloom_t) (_bit_array_pos : Z) (ret : Q)
    : result (bool * Q) :=
  let _local_pos := u32 (_bit_array_pos * _d bloom) / 8 in
  cell ← decaying_rd bloom (_bitset bloom) _local_pos;
  match cell with
  | None => Ok (false, ret)
  | Some v =>
      if v =? 0 then Ok (true, 0%Q) else
      let h := (inject_Z (bit_length 16 v 1) / inject_Z (_d bloom))%Q in
      Ok (false, if Qle_bool ret h then h else ret)
  end.

Definition _np_decaying_bloom_get_heuristic (bloom : np_bloom_t) (id : np_dhkey_t) : result Q :=
  '(_, ret) ← for_range 0 8 (fun k '(broke, ret) =>
    if (broke : bool) then Ok (broke, ret) else
    _bit_array_pos ← mod_size (word id k) (_size bloom);
    decaying_heuristic_at bloom _bit_array_pos ret) (false, 0%Q);
  Ok ret.

(** ** Counting filter *)

Definition _np_counting_bloom_create (size d p : Z) : np_bloom_t :=
  Bloom counting_bf size d p rng0 (calloc size (d ≫ 3)) 1 (u16 (u64 (size * d) ≫ 4)).

Definition counting_bytes (b : np_bloom_t) : Z :=
  u64 (u64 (_num_blocks b * _size b) * _d b) ≫ 3.

Definition _np_counting_bloom_clear (res : np_bloom_t) : result np_bloom_t :=
  bs ← memset0 (_bitset res) 0 (counting_bytes res);
  Ok (set_free (set_bitset res bs) (u16 (u64 (_size res * _d res) ≫ 4))).

Definition _np_counting_bloom_clear_r (res : np_bloom_t) (item_count : Z)
    : result (np_bloom_t * Z) :=
  '(bs, zeroed_blocks, item_count) ←
    for_range 0 (Z.to_nat (counting_bytes res)) (fun k '(bs, zeroed, item_count) =>
      v ← rd bs (Z.of_nat k);
      let zeroed := if v =? 1 then u32 (zeroed + 1) else zeroed in
      _ ← shift_ok 32 (_p res);
      let v := v ≫ _p res in
      bs ← wr bs (Z.of_nat k) v;
      Ok (bs, zeroed, if item_count <? v then v else item_count))
    (_bitset res, 1, item_count);
  _ ← shift_ok 32 (_p res);
  let free := u16 (_free_items res + u32 (u32 (item_count * zeroed_blocks) ≪ _p res)) in
  let max := u64 (_size res * _d res) ≫ 4 in
  Ok (set_free (set_bitset res bs) (if max <? free then u16 max else free), item_count).

(** [_local_pos] of the counting filter. *)
Definition counting_pos (bloom : np_bloom_t) (_bit_array_pos : Z) : Z :=
  u32 (_bit_array_pos * _d bloom) ≫ 3.

Definition _np_counting_bloom_add (bloom : np_bloom_t) (id : np_dhkey_t) : result np_bloom_t :=
  if _free_items bloom =? 0 then Err Aborted else
  bs ← for_range 0 8 (fun k bs =>
    _bit_array_pos ← mod_size (word id k) (_size bloom);
    upd bs (counting_pos bloom _bit_array_pos) (fun v => u8 (v + 1))) (_bitset bloom);
  Ok (set_free (set_bitset bloom bs) (u16 (_free_items bloom - 1))).

Definition _np_counting_bloom_remove (bloom : np_bloom_t) (id : np_dhkey_t) : result np_bloom_t :=
  if _free_items bloom =? 0 then Err Aborted else
  bs ← for_range 0 8 (fun k bs =>
    _bit_array_pos ← mod_size (word id k) (_size bloom);
    upd bs (counting_pos bloom _bit_array_pos) (fun v => u8 (v - 1))) (_bitset bloom);
  Ok (set_free (set_bitset bloom bs) (u16 (_free_items bloom + 1))).

Definition _np_counting_bloom_check (bloom : np_bloom_t) (id : np_dhkey_t) : result bool :=
  for_range 0 8 (fun k ret =>
    _bit_array_pos ← mod_size (word id k) (_size bloom);
    v ← rd (_bitset bloom) (counting_pos bloom _bit_array_pos);
    Ok (if (v =? 0) || (v =? UINT8_MAX) then false else ret)) true.

(** Returns at the first empty or saturated cell. *)
Definition _np_counting_bloom_check_r (bloom : np_bloom_t) (id : np_dhkey_t) (count : Z)
    : result Z :=
  '(_, count) ← for_range 0 8 (fun k '(returned, count) =>
    if (returned : bool) then Ok (returned, count) else
    let _bit_array_pos := u32 (Z.land (word id k) (u64 (_size bloom - 1))) in
    v ← rd (_bitset bloom) (counting_pos bloom _bit_array_pos);
    if (v =? 0) || (v =? UINT8_MAX) then Ok (true, count)
    else Ok (false, if count <? v then v else count)) (false, count);
  Ok count.

Definition _np_counting_bloom_containment (rnd : Q -> Q) (first second : np_bloom_t) : result Q :=
  '(union_count, intersection_count) ←
    for_range 0 (Z.to_nat (u64 (u64 (_num_blocks first * _size first) * _d first) / 8))
      (fun k '(un, inter) =>
        f ← rd (_bitset first) (Z.of_nat k);
        if 0 <? f then
          s ← rd (_bitset second) (Z.of_nat k);
          Ok (u16 (un + 1), u16 (inter + if (0 <? s) && (f =? s) then 1 else 0))
        else Ok (un, inter)) (0, 0);
  Ok (if 0 <? union_count then rnd (inject_Z intersection_count / inject_Z union_count)%Q
      else 0%Q).
