(* ===== verification/BloomStandard.v ===== *)
(** * The standard Bloom filter: proofs

    The standard filter refines a set of bit positions: additions, the check,
    union and intersection are the set operations, within the item counter. *)
From Stdlib Require Import ZArith Lia QArith.
From stdpp Require Import prelude.
From S2P Require Import Prelude Dhkey Rng BloomBase BloomClassic.

Local Open Scope Z_scope.

(** ** Standard filter: refinement of a set of bit positions *)

Definition positions (size : Z) (id : np_dhkey_t) : list Z :=
  map (fun w => w mod size) (id_words id).

Lemma mod_size_ok x size : in_u 32 x -> 0 < size -> mod_size x size = Ok (x mod size).
Proof.
  intros [Hx0 Hx] Hs. unfold mod_size. rewrite (proj2 (Z.eqb_neq size 0)) by lia.
  f_equal. apply u32_id. pose proof (Z.mod_pos_bound x size Hs).
  pose proof (Z.mod_le x size Hx0 Hs). split; lia.
Qed.

(** The loop over the eight words is a fold over the positions. *)
Lemma loop_positions {S} size id (body : Z -> S -> result S) s :
  dhkey_wf id -> 0 < size ->
  for_range 0 8 (fun k s => p ← mod_size (word id k) size; body p s) s =
    foldM body (positions size id) s.
Proof.
  intros Hid Hs. rewrite for_range_foldM. unfold positions, id_words.
  rewrite !foldM_map. generalize (seq 0 8) as l. intros l. revert s.
  induction l as [|k l IH]; intros s; cbn [foldM]; [done|].
  rewrite mod_size_ok by (auto with machine). simpl.
  destruct (body _ s); simpl; [apply IH | done].
Qed.

(** The same for loops that stop once their flag is [false]. *)
Lemma loop_positions_flag size id (body : Z -> bool -> result bool) ret :
  dhkey_wf id -> 0 < size ->
  for_range 0 8 (fun k (ret : bool) => if negb ret then Ok false else
      p ← mod_size (word id k) size; body p ret) ret =
    foldM (fun p (ret : bool) => if negb ret then Ok false else body p ret) (positions size id) ret.
Proof.
  intros Hid Hs. rewrite for_range_foldM. unfold positions, id_words.
  rewrite !foldM_map. generalize (seq 0 8) as l. intros l. revert ret.
  induction l as [|k l IH]; intros [|]; cbn [foldM negb]; [done | done | | apply IH].
  rewrite mod_size_ok by (auto with machine). simpl.
  destruct (body _ true); simpl; [apply IH | done].
Qed.

Lemma positions_range size id :
  0 < size -> Forall (fun p => 0 <= p < size) (positions size id).
Proof.
  intros Hs. apply Forall_map, Forall_forall. intros w _. by apply Z.mod_pos_bound.
Qed.

Lemma positions_length size id : length (positions size id) = 8%nat.
Proof. done. Qed.

(** The set bits of a filter, and the abstract operations on them. *)
Definition set_bits (bs : list Z) (ps : list Z) : list Z :=
  foldl (fun bs p => alter (fun v => Z.lor v (bit_mask p)) (Z.to_nat (p / 8)) bs) bs ps.

Arguments set_bits : simpl never.
Arguments positions : simpl never.

Lemma set_bits_length bs ps : length (set_bits bs ps) = length bs.
Proof. apply (foldl_alter_length (fun p => Z.to_nat (p / 8))). Qed.

Lemma get_bit_set_bits bs ps q :
  Forall (fun p => 0 <= p < 8 * Z.of_nat (length bs)) ps -> 0 <= q ->
  get_bit (set_bits bs ps) q = bool_decide (q ∈ ps) || get_bit bs q.
Proof.
  intros Hps Hq. revert bs Hps. unfold set_bits.
  induction ps as [|p ps IH]; intros bs Hps; simpl.
  - done.
  - apply Forall_cons in Hps as [Hp Hps]. rewrite IH by (by rewrite length_alter).
    rewrite get_bit_set by done. rewrite orb_assoc. f_equal.
    rewrite (bool_decide_ext (q ∈ p :: ps) (q ∈ ps \/ q = p)) by (rewrite elem_of_cons; tauto).
    by rewrite bool_decide_or.
Qed.

Lemma set_bits_bytes bs ps : Forall (in_u 8) bs -> Forall (in_u 8) (set_bits bs ps).
Proof.
  revert bs. induction ps as [|p ps IH]; intros bs Hbs; [done|].
  apply (IH (alter _ _ bs)). apply Forall_alter; [done|]. intros; auto with machine.
Qed.

(** The bytes an addition writes are in range. *)
Lemma byte_of_bit p n : 0 <= p < 8 * n -> 0 <= p / 8 < n.
Proof. intros. divlia. Qed.

Lemma upd_set_bits bs ps :
  Forall (fun p => 0 <= p < 8 * Z.of_nat (length bs)) ps ->
  foldM (fun p bs => upd bs (p / 8) (fun v => Z.lor v (bit_mask p))) ps bs = Ok (set_bits bs ps).
Proof.
  intros Hps. apply (foldM_upd (fun p => p / 8)).
  eapply Forall_impl; [exact Hps|]. intros p Hp. by apply byte_of_bit.
Qed.

(** [standard_wf]: what [_np_standard_bloom_create] establishes for a size that
    is a positive multiple of eight. *)
Definition standard_wf (b : np_bloom_t) : Prop :=
  _type b = standard_bf /\ _d b = 1 /\ _num_blocks b = 1 /\
  0 < _size b < 2 ^ 32 /\ _size b mod 8 = 0 /\ Z.of_nat (length (_bitset b)) = _size b / 8 /\
  Forall (in_u 8) (_bitset b) /\ in_u 16 (_free_items b).

#[export] Instance standard_wf_dec b : Decision (standard_wf b).
Proof. unfold standard_wf. apply _. Defined.

Lemma calloc_length n size :
  0 <= n * size < 2 ^ 64 -> Z.of_nat (length (calloc n size)) = n * size.
Proof. intros. unfold calloc. rewrite length_replicate, u64_id by done. lia. Qed.

Lemma calloc_bytes n size : Forall (in_u 8) (calloc n size).
Proof. apply Forall_replicate. by_decide. Qed.

Lemma standard_create_wf n :
  0 < n < 2 ^ 32 -> n mod 8 = 0 -> standard_wf (_np_standard_bloom_create n).
Proof.
  intros Hn H8. repeat split; simpl; try done; try lia; auto using calloc_bytes;
    try apply u16_range.
  assert (0 <= n / 8 < 2 ^ 32) by (split; divlia).
  rewrite calloc_length; rewrite ?(u64_id (n / 8 * 1)); unfold in_u; lia.
Qed.

Section StandardOps.
Context (b : np_bloom_t) (Hb : standard_wf b).

Lemma standard_positions id :
  Forall (fun p => 0 <= p < 8 * Z.of_nat (length (_bitset b))) (positions (_size b) id).
Proof.
  destruct Hb as (_ & _ & _ & Hs & H8 & Hl & _). rewrite Hl.
  eapply Forall_impl; [apply positions_range; lia|]. simpl. intros p Hp. divlia.
Qed.

Lemma standard_add_ok id :
  dhkey_wf id -> 0 < _free_items b ->
  _np_standard_bloom_add b id =
    Ok (set_free (set_bitset b (set_bits (_bitset b) (positions (_size b) id)))
                 (_free_items b - 1)).
Proof.
  intros Hid Hf. unfold _np_standard_bloom_add.
  rewrite (proj2 (Z.eqb_neq _ 0)) by lia.
  rewrite (loop_positions _ _ (fun p bs => upd bs (p / 8) (fun v => Z.lor v (0x80 ≫ (p mod 8)))))
    by (done || apply Hb).
  rewrite upd_set_bits by apply standard_positions. simpl. f_equal. f_equal.
  apply u16_id. destruct Hb as (_ & _ & _ & _ & _ & _ & _ & Hu). unfold in_u in *. lia.
Qed.

Lemma standard_check_ok id :
  dhkey_wf id ->
  _np_standard_bloom_check b id = Ok (forallb (get_bit (_bitset b)) (positions (_size b) id)).
Proof.
  intros Hid. unfold _np_standard_bloom_check. pose proof (standard_positions id) as Hp.
  rewrite (loop_positions_flag _ _ (fun p _ => v ← rd (_bitset b) (p / 8);
    Ok (negb (Z.land v (bit_mask p) =? 0)))) by (done || apply Hb).
  rewrite (foldM_all (get_bit (_bitset b))); [done | | done].
  intros p Hin. rewrite Forall_forall in Hp. specialize (Hp p Hin). simpl.
  destruct (rd_ok (_bitset b) (p / 8)) as (v & -> & Hv); [by apply byte_of_bit|].
  simpl. unfold get_bit. by rewrite nth_lookup, Hv.
Qed.

Lemma standard_add_wf id n :
  in_u 16 n ->
  standard_wf (set_free (set_bitset b (set_bits (_bitset b) (positions (_size b) id))) n).
Proof.
  intros Hn. destruct Hb as (? & ? & ? & ? & ? & Hl & Hby & _).
  repeat split; simpl; try done; try lia; try apply Hn; [|by apply set_bits_bytes].
  by rewrite set_bits_length.
Qed.
End StandardOps.

#[export] Hint Resolve standard_add_wf standard_create_wf : machine.

Definition standard_ops : np_bloom_optable_s :=
  Optable _np_standard_bloom_add _np_standard_bloom_check.

Lemma standard_check_true_iff b id :
  standard_wf b -> dhkey_wf id ->
  _np_standard_bloom_check b id = Ok true <->
  forall p, p ∈ positions (_size b) id -> get_bit (_bitset b) p = true.
Proof.
  intros Hb Hid. rewrite standard_check_ok by done.
  rewrite <- forallb_elem_of. split; congruence.
Qed.

Lemma positions_nonneg size id p : 0 < size -> p ∈ positions size id -> 0 <= p.
Proof. intros Hs Hp. pose proof (positions_range size id Hs) as H. rewrite Forall_forall in H. by apply H. Qed.

(** The bits after an addition. *)
Lemma standard_add_bits b id q :
  standard_wf b -> 0 <= q ->
  get_bit (set_bits (_bitset b) (positions (_size b) id)) q =
    bool_decide (q ∈ positions (_size b) id) || get_bit (_bitset b) q.
Proof. intros. apply get_bit_set_bits; [by apply standard_positions | done]. Qed.

#[export] Instance standard_filter : MembershipFilter standard_ops.
Proof.
  refine {| filter_wf := standard_wf; filter_room := _free_items |}.
  intros b id Hb Hid Hf. simpl. rewrite standard_add_ok by done.
  assert (standard_wf (set_free (set_bitset b (set_bits (_bitset b) (positions (_size b) id)))
            (_free_items b - 1))) as Hwf.
  { apply standard_add_wf; [done|]. destruct Hb as (_ & _ & _ & _ & _ & _ & _ & Hu).
    unfold in_u in *. lia. }
  assert (0 < _size b) as Hs by apply Hb.
  eexists. split; [done|]. split; [done|]. split; [done|].
  rewrite (standard_check_true_iff _ id) by done. simpl. split.
  - intros p Hp. rewrite standard_add_bits by (done || by eapply positions_nonneg).
    by rewrite bool_decide_true.
  - intros x Hx. rewrite !standard_check_true_iff by done. simpl. intros Hall p Hp.
    rewrite standard_add_bits by (done || by eapply positions_nonneg).
    rewrite (Hall p Hp). apply orb_true_r.
Defined.

(** The filter [b] holds exactly the bits of the identifiers [ids]. *)
Definition standard_holds (b : np_bloom_t) (ids : list np_dhkey_t) : Prop :=
  standard_wf b /\
  forall q, 0 <= q ->
    get_bit (_bitset b) q = true <-> exists id, id ∈ ids /\ q ∈ positions (_size b) id.

Lemma standard_holds_add b ids id :
  standard_holds b ids -> dhkey_wf id -> 0 < _free_items b ->
  exists b', _np_standard_bloom_add b id = Ok b' /\ standard_holds b' (id :: ids) /\
    _size b' = _size b /\ _free_items b' = _free_items b - 1.
Proof.
  intros [Hb Hbits] Hid Hf. rewrite standard_add_ok by done. eexists. split; [done|].
  split; [split|done].
  - apply standard_add_wf; [done|]. destruct Hb as (_ & _ & _ & _ & _ & _ & _ & Hu).
    unfold in_u in *. lia.
  - intros q Hq. simpl. rewrite standard_add_bits, orb_true_iff, bool_decide_eq_true by done.
    rewrite Hbits by done. split.
    + intros [H|(id' & ? & ?)]; [exists id; split; [left|done] | exists id'; split; [by right|done]].
    + intros (id' & Hin & Hq'). apply elem_of_cons in Hin as [->|Hin]; [by left|].
      right. by exists id'.
Qed.

Lemma standard_holds_add_all b ids0 ids :
  standard_holds b ids0 -> Forall dhkey_wf ids -> Z.of_nat (length ids) <= _free_items b ->
  exists b', filter_add_all standard_ops ids b = Ok b' /\ standard_holds b' (rev ids ++ ids0) /\
    _size b' = _size b /\ _free_items b' = _free_items b - Z.of_nat (length ids).
Proof.
  unfold filter_add_all. revert b ids0.
  induction ids as [|id ids IH]; intros b ids0 Hh Hids Hlen; simpl in *.
  - exists b. repeat split; try (by apply Hh). lia.
  - apply Forall_cons in Hids as [Hid Hids].
    destruct (standard_holds_add b ids0 id Hh Hid ltac:(lia)) as (b1 & -> & Hh1 & Hs1 & Hf1).
    simpl. destruct (IH b1 (id :: ids0) Hh1 Hids ltac:(lia)) as (b' & -> & Hh' & Hs' & Hf').
    exists b'. rewrite <- app_assoc. simpl. repeat split; try (done || apply Hh'); lia.
Qed.

Lemma standard_full_aborts b id :
  _free_items b = 0 -> _np_standard_bloom_add b id = Err Aborted.
Proof. intros Hf. unfold _np_standard_bloom_add. by rewrite Hf. Qed.

Lemma standard_create_holds n :
  0 < n < 2 ^ 32 -> n mod 8 = 0 -> standard_holds (_np_standard_bloom_create n) [].
Proof.
  intros Hn H8. split; [by apply standard_create_wf|]. intros q Hq. simpl. unfold calloc.
  rewrite get_bit_zeroes. split; [done|]. intros (id & Hin & _). by apply not_elem_of_nil in Hin.
Qed.

(** The standard filter refines a set of bit positions.  A filter of [n]
    bits ([n] a multiple of 8) accepts its [n / 16] additions (16-bit counter)
    and aborts on the next one; after adding [ids] the check never faults and
    answers [true] for exactly the identifiers all of whose eight positions
    were set by some added identifier: no false negatives, and the false
    positives are exactly the covered identifiers. *)
Theorem standard_bloom_refines n ids :
  0 < n < 2 ^ 32 -> n mod 8 = 0 -> Forall dhkey_wf ids ->
  let b0 := _np_standard_bloom_create n in
  _free_items b0 = (n / 16) mod 2 ^ 16 /\
  (Z.of_nat (length ids) <= _free_items b0 ->
   exists b, filter_add_all standard_ops ids b0 = Ok b /\
     _free_items b = _free_items b0 - Z.of_nat (length ids) /\
     (_free_items b = 0 -> forall x, _np_standard_bloom_add b x = Err Aborted) /\
     forall x, dhkey_wf x -> exists r, _np_standard_bloom_check b x = Ok r /\
       (r = true <->
        forall p, p ∈ positions n x -> exists id, id ∈ ids /\ p ∈ positions n id)).
Proof.
  intros Hn H8 Hids b0. split.
  { unfold b0, _np_standard_bloom_create. simpl. rewrite u64_id by (unfold in_u; lia).
    by rewrite Z.mul_1_r. }
  intros Hlen.
  destruct (standard_holds_add_all b0 [] ids (standard_create_holds n Hn H8) Hids Hlen)
    as (b & Hrun & [Hwf Hbits] & Hs & Hf).
  change (_size b0) with n in Hs.
  exists b. split; [done|]. split; [done|]. split; [intros; by apply standard_full_aborts|].
  intros x Hx. eexists. split; [by apply standard_check_ok|].
  rewrite Hs in *. rewrite forallb_elem_of. rewrite app_nil_r in Hbits.
  split; intros H p Hp.
  - apply H in Hp as Hp'. apply Hbits in Hp' as (id & Hin & Hid); [|eapply positions_nonneg; [|done]; lia].
    exists id. split; [|done]. by apply list_elem_of_In, in_rev, list_elem_of_In.
  - apply Hbits; [eapply positions_nonneg; [|done]; lia|].
    destruct (H p Hp) as (id & Hin & Hid). exists id. split; [|done].
    apply list_elem_of_In. rewrite <- in_rev. by apply list_elem_of_In.
Qed.

Lemma standard_bloom_refines_witness :
  exists b, filter_add_all standard_ops [key_of 7; key_of 9] (_np_standard_bloom_create 64) = Ok b /\
    _free_items b = 2 /\
    _np_standard_bloom_check b (key_of 7) = Ok true /\ _np_standard_bloom_check b (key_of 8) = Ok false.
Proof.
  destruct (standard_bloom_refines 64 [key_of 7; key_of 9] ltac:(split; reflexivity)
              ltac:(reflexivity) ltac:(by_decide)) as [_ (b & Hrun & Hf & _ & _)];
    [by_decide|].
  exists b. split; [done|]. vm_compute in Hrun. injection Hrun as <-. done.
Defined.

(** ** Standard filter: union and intersection *)

Lemma standard_compatible_ok r f :
  standard_wf r -> standard_wf f -> _size f = _size r -> standard_compatible r f = Ok tt.
Proof.
  intros (Tr & Dr & Nr & _) (Tf & Df & Nf & _) Hs. unfold standard_compatible.
  by rewrite Tr, Tf, Dr, Df, Nr, Nf, Hs, !Z.eqb_refl.
Qed.

Lemma standard_byte_bound b :
  standard_wf b -> u64 (_size b / 8 * _d b) = Z.of_nat (length (_bitset b)).
Proof.
  intros (_ & -> & _ & Hs & _ & -> & _). rewrite Z.mul_1_r. apply u64_id.
  unfold in_u. split; divlia.
Qed.

Lemma get_bit_zip_with g (op : bool -> bool -> bool) rs ts q :
  (forall a b i, Z.testbit (g a b) i = op (Z.testbit a i) (Z.testbit b i)) ->
  op false false = false -> length rs = length ts ->
  get_bit (zip_with g rs ts) q = op (get_bit rs q) (get_bit ts q).
Proof.
  intros Hg H0 Hl. rewrite !get_bit_testbit, !nth_lookup, lookup_zip_with.
  destruct (rs !! _) as [r|] eqn:Er.
  - destruct (lookup_lt_is_Some_2 ts (Z.to_nat (q / 8))) as [t Et];
      [rewrite <- Hl; by eapply lookup_lt_Some|]. rewrite Et. simpl. apply Hg.
  - rewrite (lookup_ge_None_2 ts) by (rewrite <- Hl; by apply lookup_ge_None). simpl.
    by rewrite Z.testbit_0_l.
Qed.

Lemma zip_with_bytes g rs ts :
  (forall a b, in_u 8 a -> in_u 8 b -> in_u 8 (g a b)) ->
  Forall (in_u 8) rs -> Forall (in_u 8) ts -> Forall (in_u 8) (zip_with g rs ts).
Proof.
  intros Hg Hr. revert ts. induction Hr as [|r rs Hr _ IH]; intros [|t ts] Ht; simpl;
    try constructor; apply Forall_cons in Ht as [Ht Hts]; auto.
Qed.

(** A byte array has a non-zero byte iff it has a set bit. *)
Lemma nonzero_byte_bit bs :
  Forall (in_u 8) bs ->
  existsb (fun v => 0 <? v) bs = true <-> exists q, 0 <= q /\ get_bit bs q = true.
Proof.
  intros Hbs. rewrite existsb_exists. split.
  - intros (v & Hin & Hv). apply Z.ltb_lt in Hv.
    apply list_elem_of_In, list_elem_of_lookup in Hin as (j & Hj).
    pose proof (Forall_lookup_1 _ _ _ _ Hbs Hj) as Hr.
    pose proof (Z.log2_nonneg v) as Hl0.
    assert (Z.log2 v < 8) as Hl8 by (apply Z.log2_lt_pow2; unfold in_u in Hr; lia).
    set (q := 8 * Z.of_nat j + (7 - Z.log2 v)).
    assert (q / 8 = Z.of_nat j) as Hd by (unfold q; divlia).
    assert (q mod 8 = 7 - Z.log2 v) as Hm by (unfold q; divlia).
    exists q. split; [unfold q; lia|].
    rewrite get_bit_testbit, Hd, Hm, Nat2Z.id, nth_lookup, Hj. simpl.
    replace (7 - (7 - Z.log2 v)) with (Z.log2 v) by lia. by apply Z.bit_log2.
  - intros (q & Hq & Hbit). rewrite get_bit_testbit, nth_lookup in Hbit.
    destruct (bs !! Z.to_nat (q / 8)) as [v|] eqn:E; simpl in Hbit;
      [|by rewrite Z.testbit_0_l in Hbit].
    exists v. split; [apply list_elem_of_In; by eapply list_elem_of_lookup_2|].
    pose proof (Forall_lookup_1 _ _ _ _ Hbs E) as [H0 _]. apply Z.ltb_lt.
    destruct (decide (v = 0)) as [->|]; [by rewrite Z.testbit_0_l in Hbit | lia].
Qed.

Section StandardPair.
Context (r f : np_bloom_t) (Hr : standard_wf r) (Hf : standard_wf f)
        (Hs : _size f = _size r) (H16 : _size r / 8 <= 65535).

Lemma standard_same_length : length (_bitset r) = length (_bitset f).
Proof.
  destruct Hr as (_ & _ & _ & _ & _ & Hlr & _), Hf as (_ & _ & _ & _ & _ & Hlf & _).
  rewrite Hs in Hlf. lia.
Qed.

Lemma standard_zip_wf g n :
  (forall a b, in_u 8 a -> in_u 8 b -> in_u 8 (g a b)) -> in_u 16 n ->
  standard_wf (set_free (set_bitset r (zip_with g (_bitset r) (_bitset f))) n).
Proof.
  intros Hg Hn. pose proof standard_same_length. destruct Hr as (? & ? & ? & ? & ? & ? & ? & _).
  destruct Hf as (_ & _ & _ & _ & _ & _ & ? & _). destruct Hn.
  repeat split; simpl; try done; try lia; [rewrite length_zip_with; lia|].
  by apply zip_with_bytes.
Qed.

(** The byte loops run over the whole bitset. *)
Lemma standard_loop {S} (body : nat -> S -> result S) s :
  for_u 16 (u64 (_size r / 8 * _d r)) body s = for_range 0 (length (_bitset r)) body s.
Proof.
  rewrite standard_byte_bound, for_u_unfold, Nat2Z.id; [done| |done].
  destruct Hr as (_ & _ & _ & _ & _ & Hlr & _). lia.
Qed.

Lemma standard_intersect_ok :
  let bs := zip_with Z.land (_bitset r) (_bitset f) in
  _np_standard_bloom_intersect r f =
    Ok (existsb (fun v => 0 <? v) bs, set_free (set_bitset r bs) 0).
Proof.
  unfold _np_standard_bloom_intersect. rewrite standard_compatible_ok by done. simpl.
  rewrite standard_loop.
  rewrite (zip_loop_acc0 Z.land (fun i v => if 0 <? v then u16 (i + 1) else i))
    by apply standard_same_length.
  simpl. rewrite (count16_pos (fun v => 0 <? v)); [done | done |].
  rewrite length_zip_with. destruct Hr as (_ & _ & _ & _ & _ & Hlr & _). lia.
Qed.

Lemma standard_union_ok :
  _size r / 16 <= _free_items f + _free_items r < _size r / 16 + 2 ^ 16 ->
  _np_standard_bloom_union r f =
    Ok (set_free (set_bitset r (zip_with Z.lor (_bitset r) (_bitset f)))
                 (_free_items r + _free_items f - _size r / 16)).
Proof.
  intros Hfree. unfold _np_standard_bloom_union. rewrite standard_compatible_ok by done. simpl.
  rewrite (proj2 (Z.leb_le _ _)) by lia. simpl.
  rewrite standard_loop, (zip_loop0 Z.lor) by apply standard_same_length. simpl.
  f_equal. f_equal. destruct Hr as (_ & _ & _ & ? & _ & _ & _ & ?).
  destruct Hf as (_ & _ & _ & _ & _ & _ & _ & ?). unfold u16, u64, in_u in *. divlia.
Qed.
End StandardPair.

(** Union and intersection of two standard filters of the same size (at
    most 65535 bytes, the range of the loop counters) succeed and compute the
    union and the intersection of the bit sets; the intersection reports
    whether a common bit exists and is sealed against additions; the union
    requires the two item counts to fit one filter and adds them up. *)
Theorem standard_union_intersect_spec r f :
  standard_wf r -> standard_wf f -> _size f = _size r -> _size r / 8 <= 65535 ->
  (exists common r', _np_standard_bloom_intersect r f = Ok (common, r') /\
      standard_wf r' /\ _free_items r' = 0 /\
      (common = true <->
         exists q, 0 <= q /\ get_bit (_bitset r) q = true /\ get_bit (_bitset f) q = true) /\
      forall q, get_bit (_bitset r') q = get_bit (_bitset r) q && get_bit (_bitset f) q) /\
  (_size r / 16 <= _free_items f + _free_items r < _size r / 16 + 2 ^ 16 ->
   exists r', _np_standard_bloom_union r f = Ok r' /\ standard_wf r' /\
      _free_items r' = _free_items r + _free_items f - _size r / 16 /\
      forall q, get_bit (_bitset r') q = get_bit (_bitset r) q || get_bit (_bitset f) q) /\
  (_free_items f + _free_items r < _size r / 16 ->
   _np_standard_bloom_union r f = Err Assert_failed).
Proof.
  intros Hr Hf Hs H16. pose proof (standard_same_length r f Hr Hf Hs) as Hlen.
  split; [|split].
  - rewrite standard_intersect_ok by done. do 2 eexists. split; [done|].
    assert (standard_wf (set_free (set_bitset r (zip_with Z.land (_bitset r) (_bitset f))) 0))
      as Hwf by (apply standard_zip_wf; auto with machine).
    assert (forall q, get_bit (zip_with Z.land (_bitset r) (_bitset f)) q =
                      get_bit (_bitset r) q && get_bit (_bitset f) q) as Hbits
      by (intros q; apply get_bit_zip_with; [by intros; apply Z.land_spec | done | done]).
    split; [done|]. split; [done|]. split; [|done].
    rewrite nonzero_byte_bit by apply Hwf.
    by setoid_rewrite Hbits; setoid_rewrite andb_true_iff.
  - intros Hfree. rewrite standard_union_ok by done. eexists. split; [done|].
    split; [|split; [done|]].
    + apply standard_zip_wf; auto with machine.
    + intros q. apply get_bit_zip_with; [by intros; apply Z.lor_spec | done | done].
  - intros Hfree. unfold _np_standard_bloom_union. rewrite standard_compatible_ok by done. simpl.
    by rewrite (proj2 (Z.leb_gt _ _)) by lia.
Qed.

(** A 64-bit filter holding one identifier, for the concrete instances. *)
Definition standard_example (w : Z) : np_bloom_t :=
  match _np_standard_bloom_add (_np_standard_bloom_create 64) (key_of w) with
  | Ok b => b | Err _ => _np_standard_bloom_create 64 end.

Lemma standard_union_intersect_spec_witness :
  exists r', _np_standard_bloom_union (standard_example 7) (standard_example 9) = Ok r' /\
    _free_items r' = 2 /\ get_bit (_bitset r') 9 = true /\ get_bit (_bitset r') 8 = false.
Proof.
  destruct (standard_union_intersect_spec (standard_example 7) (standard_example 9)
              ltac:(by_decide) ltac:(by_decide) ltac:(reflexivity)
              ltac:(vm_compute; discriminate)) as (_ & Hu & _).
  destruct (Hu ltac:(by_decide)) as (r' & Hrun & _ & Hf & Hbits).
  exists r'. split; [exact Hrun|]. rewrite Hf, !Hbits. vm_compute. done.
Defined.

