(* ===== verification/BloomScalable.v ===== *)
(** * The scalable Bloom filter: proofs

    Growing by blocks loses nothing, up to the number of blocks that the 8-bit
    block counter and the 16-bit offsets can address. *)
From Stdlib Require Import ZArith Lia QArith.
From stdpp Require Import prelude.
From S2P Require Import Prelude Dhkey Rng BloomBase BloomClassic BloomStandard.

Local Open Scope Z_scope.

(** ** Scalable filter: growth loses nothing *)

(** The bits of block [j] occupy the positions from [j * size] on. *)
Definition block_positions (size j : Z) (id : np_dhkey_t) : list Z :=
  map (fun p => j * size + p) (positions size id).

(** As many blocks as the 8-bit block counter and the 16-bit byte offsets can
    address. *)
Definition scalable_max_blocks (size : Z) : Z := Z.min 255 (65535 / (size / 8) + 1).

Definition scalable_wf (b : np_bloom_t) : Prop :=
  _type b = scalable_bf /\ _d b = 1 /\ 16 <= _size b < 2 ^ 20 /\ _size b mod 8 = 0 /\
  1 <= _num_blocks b <= scalable_max_blocks (_size b) /\
  Z.of_nat (length (_bitset b)) = _num_blocks b * (_size b / 8) /\
  Forall (in_u 8) (_bitset b) /\ 0 <= _free_items b <= _size b / 16.

#[export] Instance scalable_wf_dec b : Decision (scalable_wf b).
Proof. unfold scalable_wf. apply _. Defined.

Definition scalable_room (b : np_bloom_t) : Z :=
  _free_items b + (scalable_max_blocks (_size b) - _num_blocks b) * (_size b / 16).

Definition scalable_ops (junk : nat -> Z) : np_bloom_optable_s :=
  Optable (_np_scalable_bloom_add junk) _np_scalable_bloom_check.

Lemma scalable_max_blocks_offset size j :
  16 <= size -> 0 <= j < scalable_max_blocks size -> 0 <= j * (size / 8) <= 65535.
Proof.
  intros Hs Hj. unfold scalable_max_blocks in Hj.
  assert (2 <= size / 8) by divlia.
  assert (j <= 65535 / (size / 8)) by lia.
  pose proof (Z.mul_div_le 65535 (size / 8) ltac:(lia)). split; [nia|]. nia.
Qed.

Lemma mul_size_bytes j size : size mod 8 = 0 -> j * size / 8 = j * (size / 8).
Proof. intros H8. rewrite Z.divide_div_mul_exact; [done | lia |]. by apply Z.mod_divide. Qed.

Lemma scalable_offset_ok b j :
  _d b = 1 -> 16 <= _size b < 2 ^ 20 -> _size b mod 8 = 0 ->
  0 <= j < scalable_max_blocks (_size b) -> scalable_offset b j = j * (_size b / 8).
Proof.
  intros Hd Hs H8 Hj. pose proof (scalable_max_blocks_offset _ _ (proj1 Hs) Hj).
  assert (j < 255) by (unfold scalable_max_blocks in Hj; lia).
  unfold scalable_offset. rewrite Hd, (u64_id (j * _size b)) by (unfold in_u; nia).
  rewrite mul_size_bytes, Z.mul_1_r by done.
  rewrite u64_id by (unfold in_u; lia). apply u16_id. unfold in_u. lia.
Qed.

Lemma div8_block size j p :
  size mod 8 = 0 -> (j * size + p) / 8 = j * (size / 8) + p / 8.
Proof.
  intros H8. apply Z.div_exact in H8; [|lia]. rewrite H8 at 1.
  replace (j * (8 * (size / 8)) + p) with (p + j * (size / 8) * 8) by lia.
  rewrite Z.div_add by lia. lia.
Qed.

Lemma mod8_block size j p : size mod 8 = 0 -> (j * size + p) mod 8 = p mod 8.
Proof.
  intros H8. rewrite <- Zplus_mod_idemp_l, <- Zmult_mod_idemp_r, H8, Z.mul_0_r. done.
Qed.

Lemma bit_mask_block size j p : size mod 8 = 0 -> bit_mask (j * size + p) = bit_mask p.
Proof. intros. unfold bit_mask. by rewrite mod8_block. Qed.

Lemma block_positions_range size j nb id :
  0 < size -> 0 <= j < nb -> Forall (fun p => 0 <= p < nb * size) (block_positions size j id).
Proof.
  intros Hs Hj. apply Forall_map. eapply Forall_impl; [by apply positions_range|].
  simpl. intros p Hp. nia.
Qed.

(** Growing appends a block of zeroes. *)
Lemma scalable_grow_ok junk b :
  scalable_wf b -> _num_blocks b < scalable_max_blocks (_size b) -> _free_items b = 0 ->
  let b' := Bloom (_type b) (_size b) (_d b) (_p b) (_rng b)
              (_bitset b ++ replicate (Z.to_nat (_size b / 8)) 0) (_num_blocks b + 1)
              (_size b / 16) in
  scalable_grow junk b = Ok b' /\ scalable_wf b'.
Proof.
  intros (HT & Hd & Hs & H8 & Hn & Hl & Hby & Hf) Hmax Hf0.
  assert (_num_blocks b <= 254) by (unfold scalable_max_blocks in Hmax; lia).
  pose proof (scalable_max_blocks_offset (_size b) (_num_blocks b) (proj1 Hs) ltac:(lia)) as Hoff.
  assert (0 <= _size b / 8 < 2 ^ 17) as Hb8 by (split; divlia).
  assert (0 <= _size b / 16 < 2 ^ 16) as Hb16 by (split; divlia).
  split.
  - unfold scalable_grow. rewrite Hd, Hf0, Z.mul_1_r, Z.add_0_l.
    rewrite (u64_id (_size b / 8)) by (unfold in_u; lia).
    rewrite (u8_id (_num_blocks b + 1)) by (unfold in_u; lia).
    rewrite (Z.mul_comm (_size b / 8) (_num_blocks b)), !u64_id by (unfold in_u; nia).
    rewrite !u16_id by (unfold in_u; lia).
    unfold realloc. rewrite take_ge by nia.
    unfold memset0. rewrite decide_True by (rewrite length_app, length_map, length_seq; nia).
    simpl. f_equal. f_equal.
    rewrite take_app_length' by lia. rewrite drop_ge; [by rewrite app_nil_r|].
    rewrite length_app, length_map, length_seq. nia.
  - repeat split; simpl; try done; try lia.
    + rewrite length_app, length_replicate. nia.
    + apply Forall_app. split; [done|]. apply Forall_replicate. by_decide.
Qed.

(** One block's check is the conjunction over its eight bits. *)
Lemma scalable_check_block_ok b id j :
  scalable_wf b -> dhkey_wf id -> (Z.of_nat j < _num_blocks b) ->
  scalable_check_block b id j =
    Ok (forallb (get_bit (_bitset b)) (block_positions (_size b) (Z.of_nat j) id)).
Proof.
  intros (HT & Hd & Hs & H8 & Hn & Hl & Hby & Hf) Hid Hj. unfold scalable_check_block.
  rewrite scalable_offset_ok by (done || lia).
  rewrite (loop_positions _ _ (fun p ret => v ← rd (_bitset b) (Z.of_nat j * (_size b / 8) + p / 8);
            Ok (if Z.land v (bit_mask p) =? 0 then false else ret))) by (done || lia).
  rewrite (foldM_all (fun p => get_bit (_bitset b) (Z.of_nat j * _size b + p))).
  - unfold block_positions. by rewrite forallb_map.
  - intros p Hp. pose proof (positions_range (_size b) id ltac:(lia)) as Hr.
    rewrite Forall_forall in Hr. specialize (Hr p Hp).
    destruct (rd_ok (_bitset b) (Z.of_nat j * (_size b / 8) + p / 8)) as (v & -> & Hv).
    { rewrite Hl. assert (0 <= p / 8 < _size b / 8) by divlia. nia. }
    simpl. unfold get_bit. rewrite div8_block, bit_mask_block, nth_lookup, Hv by done. simpl.
    by case_match.
  - intros p Hp. pose proof (positions_range (_size b) id ltac:(lia)) as Hr.
    rewrite Forall_forall in Hr. specialize (Hr p Hp).
    destruct (rd_ok (_bitset b) (Z.of_nat j * (_size b / 8) + p / 8)) as (v & -> & Hv).
    { rewrite Hl. assert (0 <= p / 8 < _size b / 8) by divlia. nia. }
    simpl. by case_match.
Qed.

(** A loop that returns at the first success. *)
Lemma foldM_any {A} (g : A -> bool) (f : A -> result bool) l ret0 :
  (forall x, x ∈ l -> f x = Ok (g x)) -> l <> [] ->
  exists r, foldM (fun x '(returned, ret) =>
      if (returned : bool) then Ok (returned, ret) else ret ← f x; Ok (ret, ret)) l (false, ret0) =
    Ok (r, existsb g l).
Proof.
  intros Hf Hne.
  assert (forall l ret, foldM (fun x '(returned, ret) => if (returned : bool)
     then Ok (returned, ret) else ret ← f x; Ok (ret, ret)) l (true, ret) = Ok (true, ret : bool))
    as Hdone by (intros l' ret; induction l'; simpl; done).
  revert ret0. induction l as [|x l IH]; intros ret0; [done|].
  simpl. rewrite Hf by left. simpl. destruct (g x) eqn:Eg; simpl.
  - rewrite Hdone. by eexists.
  - destruct l as [|y l]; [by eexists|]. apply IH; [|done]. intros z Hz. apply Hf. by right.
Qed.

Definition block_covers (b : np_bloom_t) (id : np_dhkey_t) (j : nat) : bool :=
  forallb (get_bit (_bitset b)) (block_positions (_size b) (Z.of_nat j) id).

Lemma scalable_check_ok b id :
  scalable_wf b -> dhkey_wf id ->
  _np_scalable_bloom_check b id =
    Ok (existsb (block_covers b id) (seq 0 (Z.to_nat (_num_blocks b)))).
Proof.
  intros Hb Hid. unfold _np_scalable_bloom_check.
  assert (1 <= _num_blocks b <= 255) as Hn.
  { destruct Hb as (_ & _ & _ & _ & Hn & _). unfold scalable_max_blocks in Hn. lia. }
  rewrite for_u_unfold, for_range_foldM by lia.
  destruct (foldM_any (block_covers b id) (scalable_check_block b id)
              (seq 0 (Z.to_nat (_num_blocks b))) true) as (r & ->); [| |done].
  - intros j Hj. apply elem_of_seq in Hj. apply scalable_check_block_ok; [done | done | lia].
  - destruct (Z.to_nat (_num_blocks b)) eqn:E; [lia | done].
Qed.

Lemma scalable_check_true_iff b id :
  scalable_wf b -> dhkey_wf id ->
  _np_scalable_bloom_check b id = Ok true <->
  exists j, 0 <= j < _num_blocks b /\
    forall p, p ∈ block_positions (_size b) j id -> get_bit (_bitset b) p = true.
Proof.
  intros Hb Hid. rewrite scalable_check_ok by done.
  transitivity (existsb (block_covers b id) (seq 0 (Z.to_nat (_num_blocks b))) = true);
    [split; congruence|].
  rewrite existsb_exists. unfold block_covers. setoid_rewrite forallb_elem_of. split.
  - intros (j & Hj & Hall). apply in_seq in Hj. exists (Z.of_nat j). split; [lia | done].
  - intros (j & Hj & Hall). exists (Z.to_nat j). rewrite in_seq, Z2Nat.id by lia.
    split; [lia | done].
Qed.

(** Setting the bits of the last block, without growth. *)
Lemma scalable_set_ok b id :
  scalable_wf b -> dhkey_wf id ->
  for_range 0 8 (fun k bs =>
    _bit_array_pos ← mod_size (word id k) (_size b);
    upd bs (scalable_offset b (_num_blocks b - 1) + _bit_array_pos / 8)
      (fun v => Z.lor v (0x80 ≫ (_bit_array_pos mod 8)))) (_bitset b) =
  Ok (set_bits (_bitset b) (block_positions (_size b) (_num_blocks b - 1) id)).
Proof.
  intros (HT & Hd & Hs & H8 & Hn & Hl & Hby & Hf) Hid.
  rewrite scalable_offset_ok by (done || lia).
  rewrite (loop_positions _ _ (fun p bs => upd bs ((_num_blocks b - 1) * (_size b / 8) + p / 8)
             (fun v => Z.lor v (bit_mask p)))) by (done || lia).
  rewrite <- upd_set_bits.
  - unfold block_positions. rewrite foldM_map. generalize (_bitset b).
    induction (positions (_size b) id) as [|p l IH]; intros bs; cbn [foldM]; [done|].
    rewrite div8_block, bit_mask_block by done. destruct (upd _ _ _); simpl; [apply IH | done].
  - rewrite Hl. eapply Forall_impl;
      [apply (block_positions_range (_size b) _ (_num_blocks b)); lia|].
    simpl. intros p Hp. assert (_size b = 8 * (_size b / 8)) by (by apply Z.div_exact; [lia|]). nia.
Qed.

Lemma scalable_set_wf b id n :
  scalable_wf b -> 0 <= n <= _size b / 16 ->
  scalable_wf (set_free (set_bitset b (set_bits (_bitset b)
                (block_positions (_size b) (_num_blocks b - 1) id))) n).
Proof.
  intros (? & ? & ? & ? & ? & ? & ? & ?) Hn. repeat split; simpl; try (done || lia).
  - by rewrite set_bits_length.
  - by apply set_bits_bytes.
Qed.

(** The bits after an addition into the last block. *)
Lemma scalable_set_bits b id q :
  scalable_wf b -> 0 <= q ->
  get_bit (set_bits (_bitset b) (block_positions (_size b) (_num_blocks b - 1) id)) q =
    bool_decide (q ∈ block_positions (_size b) (_num_blocks b - 1) id) || get_bit (_bitset b) q.
Proof.
  intros (HT & Hd & Hs & H8 & Hn & Hl & Hby & Hf) Hq. apply get_bit_set_bits; [|done].
  rewrite Hl. eapply Forall_impl;
    [apply (block_positions_range (_size b) _ (_num_blocks b)); lia|].
  simpl. intros p Hp. assert (_size b = 8 * (_size b / 8)) by (by apply Z.div_exact; [lia|]). nia.
Qed.

Lemma block_positions_nonneg size j id p :
  0 < size -> 0 <= j -> p ∈ block_positions size j id -> 0 <= p.
Proof.
  intros Hs Hj Hp. pose proof (block_positions_range size j (j + 1) id Hs ltac:(lia)) as H.
  rewrite Forall_forall in H. apply (H p Hp).
Qed.

(** What one addition does once there is a free place. *)
Lemma scalable_add_room b id :
  scalable_wf b -> dhkey_wf id -> 0 < _free_items b ->
  let b' := set_free (set_bitset b (set_bits (_bitset b)
              (block_positions (_size b) (_num_blocks b - 1) id))) (_free_items b - 1) in
  scalable_wf b' /\ _np_scalable_bloom_check b' id = Ok true /\
  forall x, dhkey_wf x -> _np_scalable_bloom_check b x = Ok true ->
    _np_scalable_bloom_check b' x = Ok true.
Proof.
  intros Hb Hid Hf b'.
  assert (scalable_wf b') as Hb' by (apply scalable_set_wf; [done|]; destruct Hb as (_ & _ & _ & _ & _ & _ & _ & ?); lia).
  assert (0 < _size b) as Hs by (destruct Hb as (_ & _ & ? & _); lia).
  assert (1 <= _num_blocks b) as Hn by (destruct Hb as (_ & _ & _ & _ & ? & _); lia).
  split; [done|]. split.
  - apply scalable_check_true_iff; [done | done|]. exists (_num_blocks b - 1). simpl.
    split; [lia|]. intros p Hp.
    rewrite scalable_set_bits; [|done|eapply block_positions_nonneg; [| |done]; lia].
    by rewrite bool_decide_true.
  - intros x Hx. rewrite !scalable_check_true_iff by done. simpl.
    intros (j & Hj & Hall). exists j. split; [done|]. intros p Hp.
    rewrite scalable_set_bits; [|done|eapply block_positions_nonneg; [| |done]; lia].
    rewrite (Hall p Hp). apply orb_true_r.
Qed.

(** Growth keeps every answer. *)
Lemma scalable_grow_check b z n :
  let b' := Bloom (_type b) (_size b) (_d b) (_p b) (_rng b) (_bitset b ++ z) (_num_blocks b + 1) n in
  scalable_wf b -> scalable_wf b' -> forall x, dhkey_wf x ->
  _np_scalable_bloom_check b x = Ok true -> _np_scalable_bloom_check b' x = Ok true.
Proof.
  intros b' Hb Hb' x Hx. rewrite !scalable_check_true_iff by done. simpl.
  intros (j & Hj & Hall). exists j. split; [lia|]. intros p Hp. specialize (Hall p Hp).
  rewrite get_bit_testbit, nth_lookup in *.
  destruct (_bitset b !! Z.to_nat (p / 8)) as [v|] eqn:E; simpl in Hall.
  - by rewrite (lookup_app_l_Some _ _ _ _ E).
  - by rewrite Z.testbit_0_l in Hall.
Qed.

#[export] Instance scalable_filter junk : MembershipFilter (scalable_ops junk).
Proof.
  refine {| filter_wf := scalable_wf; filter_room := scalable_room |}.
  intros b id Hb Hid Hroom. simpl. unfold _np_scalable_bloom_add.
  destruct (Z.eqb_spec (_free_items b) 0) as [Hf0|Hf0].
  - unfold scalable_room in *.
    assert (1 <= _size b / 16 < 2 ^ 16) as H16
      by (destruct Hb as (_ & _ & ? & _); split; divlia).
    assert (_num_blocks b < scalable_max_blocks (_size b)) as Hmax by nia.
    destruct (scalable_grow_ok junk b Hb Hmax Hf0) as [-> Hg]. cbn [mbind result_bind].
    rewrite scalable_set_ok by done. cbn [mbind result_bind].
    set (b1 := Bloom _ _ _ _ _ _ _ _) in *.
    destruct (scalable_add_room b1 id Hg Hid) as (Hwf & Hself & Hmono); [simpl; lia|].
    rewrite u16_id by (simpl; unfold in_u; lia).
    eexists. split; [done|]. split; [done|]. split; [simpl; nia|]. split; [done|].
    intros x Hx Hc. apply Hmono; [done|]. by apply scalable_grow_check.
  - cbn [mbind result_bind]. rewrite scalable_set_ok by done. cbn [mbind result_bind].
    assert (0 < _free_items b < 2 ^ 16) as Hf.
    { destruct Hb as (_ & _ & Hs & _ & _ & _ & _ & Hf). split; [lia|].
      assert (_size b / 16 < 2 ^ 16) by divlia. lia. }
    destruct (scalable_add_room b id Hb Hid) as (Hwf & Hself & Hmono); [lia|].
    rewrite u16_id by (unfold in_u; lia).
    eexists. split; [done|]. split; [done|]. split; [unfold scalable_room; simpl; lia|]. done.
Defined.

Lemma scalable_create_wf n :
  16 <= n < 2 ^ 20 -> n mod 8 = 0 -> scalable_wf (_np_scalable_bloom_create n).
Proof.
  intros Hn H8. assert (2 <= n / 8 < 2 ^ 17) by (split; divlia).
  assert (0 <= n / 16 < 2 ^ 16) by (split; divlia).
  assert (0 <= 65535 / (n / 8)) by (apply Z.div_pos; lia).
  repeat split; simpl; try (done || lia); auto using calloc_bytes.
  - unfold scalable_max_blocks. lia.
  - rewrite calloc_length; rewrite ?(u64_id (n / 8 * 1)); unfold in_u; lia.
  - rewrite u16_id by (unfold in_u; lia). lia.
  - rewrite u16_id by (unfold in_u; lia). lia.
Qed.

(** Neither growth nor addition changes the block size. *)
Lemma scalable_add_size junk b id b' : _np_scalable_bloom_add junk b id = Ok b' -> _size b' = _size b.
Proof.
  unfold _np_scalable_bloom_add, scalable_grow. intros H. inv_ok. simpl.
  destruct (_free_items b =? 0); inv_ok; done.
Qed.

Lemma scalable_add_all_size junk ids b b' :
  filter_add_all (scalable_ops junk) ids b = Ok b' -> _size b' = _size b.
Proof.
  unfold filter_add_all. revert b. induction ids as [|id ids IH]; intros b H; simpl in H; inv_ok; [done|].
  apply IH in H. apply scalable_add_size in Hrun. congruence.
Qed.

(** A scalable filter grows without losing elements.  Whatever bytes
    [realloc] leaves behind, a filter of [n] bits per block takes [n / 16]
    identifiers per block for every block that the 8-bit block counter and the
    16-bit byte offset can address ([scalable_max_blocks]); all those additions
    succeed and every identifier added is reported by the check. *)
Theorem scalable_bloom_no_loss junk n ids :
  16 <= n < 2 ^ 20 -> n mod 8 = 0 -> Forall dhkey_wf ids ->
  Z.of_nat (length ids) <= scalable_max_blocks n * (n / 16) ->
  exists b, filter_add_all (scalable_ops junk) ids (_np_scalable_bloom_create n) = Ok b /\
    Z.of_nat (length (_bitset b)) = _num_blocks b * (n / 8) /\
    forall x, x ∈ ids -> _np_scalable_bloom_check b x = Ok true.
Proof.
  intros Hn H8 Hids Hlen.
  assert (scalable_room (_np_scalable_bloom_create n) = scalable_max_blocks n * (n / 16)) as Hroom.
  { unfold scalable_room. simpl. rewrite u16_id; [lia|]. unfold in_u. divlia. }
  destruct (filter_add_all_spec (FM := scalable_filter junk) ids (_np_scalable_bloom_create n))
    as (b & Hrun & Hwf & _ & Hall & _); [by apply scalable_create_wf | done | simpl; lia |].
  pose proof (scalable_add_all_size _ _ _ _ Hrun) as Hsz.
  exists b. split; [done|]. split; [|done].
  destruct Hwf as (_ & _ & _ & _ & _ & Hl & _). by rewrite Hsz in Hl.
Qed.

Lemma scalable_bloom_no_loss_witness :
  exists b, filter_add_all (scalable_ops (fun _ => 171)) [key_of 7; key_of 9; key_of 5]
              (_np_scalable_bloom_create 16) = Ok b /\
    _np_scalable_bloom_check b (key_of 5) = Ok true /\ _np_scalable_bloom_check b (key_of 7) = Ok true.
Proof.
  destruct (scalable_bloom_no_loss (fun _ => 171) 16 [key_of 7; key_of 9; key_of 5]) as (b & Hrun & _ & Hall);
    [split; [lia | reflexivity] | reflexivity | by_decide | vm_compute; discriminate |].
  exists b. split; [exact Hrun|]. split; apply Hall; by_decide.
Defined.
