(* ===== verification/BloomCounting.v ===== *)
(** * Counting, decaying and stable Bloom filters: proofs

    The counting filter is a multiset of positions (modulo the 8-bit cells), the
    decaying filter forgets an element after exactly the number of decays its
    cell width allows, the stable filter always sees what it has just added. *)
From Stdlib Require Import ZArith Lia QArith.
From stdpp Require Import prelude.
From S2P Require Import Prelude Dhkey Rng BloomBase BloomClassic BloomStandard.

Local Open Scope Z_scope.

(** ** Counting filter *)

Definition counting_wf (b : np_bloom_t) : Prop :=
  _num_blocks b = 1 /\ 0 < _d b < 256 /\ _d b mod 8 = 0 /\ 0 < _size b /\
  _size b * _d b < 2 ^ 32 /\ Z.of_nat (length (_bitset b)) = _size b * (_d b / 8) /\
  Forall (in_u 8) (_bitset b) /\ in_u 16 (_free_items b).

#[export] Instance counting_wf_dec b : Decision (counting_wf b).
Proof. unfold counting_wf. apply _. Defined.

Lemma counting_create_wf size d p :
  0 < size -> 0 < d < 256 -> d mod 8 = 0 -> size * d < 2 ^ 32 ->
  counting_wf (_np_counting_bloom_create size d p).
Proof.
  intros Hs Hd H8 Hm. repeat split; simpl; try (done || lia); auto using calloc_bytes;
    try apply u16_range.
  rewrite Z.shiftr_div_pow2 by lia. change (2 ^ 3) with 8.
  assert (d / 8 <= d) by divlia. assert (0 <= d / 8) by divlia.
  rewrite calloc_length; [done|]. nia.
Qed.

(** The operations a client performs, and one step of them. *)
Inductive counting_op := CAdd (id : np_dhkey_t) | CRemove (id : np_dhkey_t).

Definition op_id (o : counting_op) : np_dhkey_t := match o with CAdd id | CRemove id => id end.
Definition op_sign (o : counting_op) : Z := match o with CAdd _ => 1 | CRemove _ => -1 end.

Definition counting_step (o : counting_op) (b : np_bloom_t) : result np_bloom_t :=
  match o with
  | CAdd id => _np_counting_bloom_add b id
  | CRemove id => _np_counting_bloom_remove b id
  end.

(** The byte index of a cell, and how often an identifier hits the byte [j]. *)
Definition cell_byte (b : np_bloom_t) (p : Z) : nat := Z.to_nat (p * (_d b / 8)).
Definition hits (b : np_bloom_t) (id : np_dhkey_t) (j : nat) : Z :=
  zsum (map (fun p => if decide (cell_byte b p = j) then 1 else 0) (positions (_size b) id)).

Section Counting.
Context (b : np_bloom_t) (Hb : counting_wf b).

Lemma counting_pos_ok p :
  0 <= p < _size b -> counting_pos b p = p * (_d b / 8) /\
  0 <= p * (_d b / 8) < Z.of_nat (length (_bitset b)).
Proof.
  destruct Hb as (_ & Hd & H8 & Hs & Hm & Hl & _). intros Hp. unfold counting_pos.
  rewrite u32_id by (unfold in_u; nia). rewrite Z.shiftr_div_pow2 by lia.
  change (2 ^ 3) with 8. rewrite Z.divide_div_mul_exact by (lia || by apply Z.mod_divide).
  assert (1 <= _d b / 8) by divlia. split; [done|]. rewrite Hl. nia.
Qed.

(** The eight updates of an addition or a removal. *)
Lemma counting_loop_ok id f :
  dhkey_wf id ->
  for_range 0 8 (fun k bs =>
    _bit_array_pos ← mod_size (word id k) (_size b);
    upd bs (counting_pos b _bit_array_pos) f) (_bitset b) =
  Ok (foldl (fun bs p => alter f (cell_byte b p) bs) (_bitset b) (positions (_size b) id)).
Proof.
  intros Hid. assert (0 < _size b) as Hs by apply Hb.
  rewrite (loop_positions _ _ (fun p bs => upd bs (counting_pos b p) f)) by done.
  pose proof (positions_range (_size b) id Hs) as Hr.
  rewrite (foldM_upd (counting_pos b) (fun _ => f)).
  - f_equal. clear -Hr Hb. generalize (_bitset b) as bs.
    induction Hr as [|p l Hp _ IH]; intros bs; simpl; [done|].
    rewrite IH. by rewrite (proj1 (counting_pos_ok p Hp)).
  - eapply Forall_impl; [exact Hr|]. simpl. intros p Hp.
    destruct (counting_pos_ok p Hp) as [-> ?]. done.
Qed.
End Counting.

(** [n] unit steps on a byte that wraps are one step of [n]. *)
Lemma unit_steps (c : Z) (P : Z -> bool) l v :
  in_u 8 v ->
  foldl (fun v p => if P p then u8 (v + c) else v) v l =
    u8 (v + c * zsum (map (fun p => if P p then 1 else 0) l)).
Proof.
  revert v. induction l as [|p l IH]; intros v Hv; simpl.
  - by rewrite Z.mul_0_r, Z.add_0_r, u8_id.
  - unfold zsum in *. simpl. destruct (P p).
    + rewrite IH by auto with machine. unfold u8. rewrite Zplus_mod_idemp_l. f_equal. lia.
    + rewrite IH by done. f_equal.
Qed.

Lemma counting_update_wf b c l n :
  counting_wf b -> in_u 16 n ->
  counting_wf (set_free (set_bitset b
    (foldl (fun bs p => alter (fun v => u8 (v + c)) (cell_byte b p) bs) (_bitset b) l)) n).
Proof.
  intros (? & ? & ? & ? & ? & ? & Hby & _) [? ?]. repeat split; simpl; try (done || lia).
  - by rewrite (foldl_alter_length (cell_byte b) (fun _ v => u8 (v + c))).
  - clear -Hby. revert Hby. generalize (_bitset b) as bs.
    induction l as [|p l IH]; intros bs Hbs; simpl; [done|].
    apply IH. apply Forall_alter; [done|]. intros; auto with machine.
Qed.

Lemma counting_step_ok o b :
  counting_wf b -> dhkey_wf (op_id o) -> _free_items b <> 0 ->
  exists b', counting_step o b = Ok b' /\ counting_wf b' /\
    _size b' = _size b /\ _d b' = _d b /\
    _free_items b' = u16 (_free_items b - op_sign o) /\
    forall j v, _bitset b !! j = Some v ->
      _bitset b' !! j = Some (u8 (v + op_sign o * hits b (op_id o) j)).
Proof.
  intros Hb Hid Hf.
  assert (counting_step o b =
    Ok (set_free (set_bitset b (foldl (fun bs p => alter (fun v => u8 (v + op_sign o)) (cell_byte b p) bs)
          (_bitset b) (positions (_size b) (op_id o)))) (u16 (_free_items b - op_sign o)))) as ->.
  { destruct o as [id|id]; simpl in *.
    - unfold _np_counting_bloom_add. rewrite (proj2 (Z.eqb_neq _ 0)) by done.
      by rewrite counting_loop_ok.
    - unfold _np_counting_bloom_remove. rewrite (proj2 (Z.eqb_neq _ 0)) by done.
      by rewrite counting_loop_ok. }
  eexists. split; [done|]. split; [|split; [done|split; [done|split; [done|]]]].
  - apply counting_update_wf; auto with machine.
  - intros j v Hv. cbn [_bitset set_free set_bitset]. rewrite (foldl_alter_lookup (cell_byte b) (fun _ v => u8 (v + op_sign o)) _ _ _ v) by done. f_equal.
    assert (in_u 8 v) as Hv8 by (destruct Hb as (_ & _ & _ & _ & _ & _ & Hby & _); by eapply Forall_lookup_1).
    transitivity (foldl (fun v p => if bool_decide (cell_byte b p = j) then u8 (v + op_sign o) else v)
                    v (positions (_size b) (op_id o))).
    { apply foldl_ext. intros w p. by case_decide; case_bool_decide. }
    rewrite (unit_steps (op_sign o) (fun p => bool_decide (cell_byte b p = j))) by done.
    unfold hits. do 4 f_equal. apply map_ext. intros p. by case_decide; case_bool_decide.
Qed.

(** The net number of hits of a byte over a sequence of operations. *)
Definition net_hits (b : np_bloom_t) (ops : list counting_op) (j : nat) : Z :=
  zsum (map (fun o => op_sign o * hits b (op_id o) j) ops).

Lemma hits_same b b' id j : _size b' = _size b -> _d b' = _d b -> hits b' id j = hits b id j.
Proof. intros Hs Hd. unfold hits, cell_byte. by rewrite Hs, Hd. Qed.

Lemma counting_full_aborts o b : _free_items b = 0 -> counting_step o b = Err Aborted.
Proof. intros Hf. destruct o; simpl; unfold _np_counting_bloom_add, _np_counting_bloom_remove; by rewrite Hf. Qed.

Lemma counting_check_ok b id :
  counting_wf b -> dhkey_wf id ->
  _np_counting_bloom_check b id =
    Ok (forallb (fun p => let v := nth (cell_byte b p) (_bitset b) 0 in
                          negb ((v =? 0) || (v =? UINT8_MAX))) (positions (_size b) id)).
Proof.
  intros Hb Hid. unfold _np_counting_bloom_check. assert (0 < _size b) as Hs by apply Hb.
  rewrite (loop_positions _ _ (fun p ret => v ← rd (_bitset b) (counting_pos b p);
     Ok (if (v =? 0) || (v =? UINT8_MAX) then false else ret))) by done.
  pose proof (positions_range (_size b) id Hs) as Hr. rewrite Forall_forall in Hr.
  rewrite (foldM_all (fun p => let v := nth (cell_byte b p) (_bitset b) 0 in
                          negb ((v =? 0) || (v =? UINT8_MAX)))); [done| |]; intros p Hp; destruct (counting_pos_ok b Hb p (Hr p Hp)) as [-> Hin];
    destruct (rd_ok (_bitset b) _ Hin) as (v & -> & Hv); simpl.
  - unfold cell_byte. rewrite nth_lookup, Hv. simpl. by case_match.
  - by case_match.
Qed.

Lemma counting_run_ok ops b :
  counting_wf b -> Forall (fun o => dhkey_wf (op_id o)) ops ->
  foldM counting_step ops b = Err Aborted \/
  exists b', foldM counting_step ops b = Ok b' /\ counting_wf b' /\
    _size b' = _size b /\ _d b' = _d b /\
    _free_items b' = u16 (_free_items b - zsum (map op_sign ops)) /\
    (forall j v, _bitset b !! j = Some v ->
       _bitset b' !! j = Some (u8 (v + net_hits b ops j))).
Proof.
  intros Hb Hops. revert b Hb.
  induction Hops as [|o ops Ho _ IH]; intros b Hb; cbn [foldM].
  - right. exists b. do 4 (split; [done|]).
    destruct Hb as (_ & _ & _ & _ & _ & _ & Hby & Hf). split.
    + simpl. by rewrite Z.sub_0_r, u16_id.
    + intros j v Hv. unfold net_hits. simpl. rewrite Z.add_0_r, u8_id; [done|].
      by eapply Forall_lookup_1 in Hv.
  - destruct (decide (_free_items b = 0)) as [H0|H0];
      [left; by rewrite counting_full_aborts|].
    destruct (counting_step_ok o b Hb Ho H0) as (b1 & -> & Hb1 & Hs1 & Hd1 & Hf1 & Hc1).
    simpl. destruct (IH b1 Hb1) as [?|(b' & Hrun & Hwf & Hs & Hd & Hf & Hcells)]; [by left|].
    right. exists b'. do 2 (split; [done|]). do 2 (split; [congruence|]). split.
    + rewrite Hf, Hf1. unfold zsum, u16. simpl. rewrite Zminus_mod_idemp_l. f_equal. lia.
    + intros j v Hv. rewrite (Hcells _ _ (Hc1 _ _ Hv)). f_equal.
      assert (net_hits b1 ops j = net_hits b ops j) as ->.
      { unfold net_hits. f_equal. apply map_ext. intros o'. by rewrite (hits_same b1 b). }
      unfold net_hits, zsum, u8. simpl. rewrite Zplus_mod_idemp_l. f_equal. lia.
Qed.

(** The bytes of an identifier's cells exist. *)
Lemma cell_exists b id p :
  counting_wf b -> p ∈ positions (_size b) id ->
  exists v, _bitset b !! cell_byte b p = Some v.
Proof.
  intros Hb Hin. pose proof (positions_range (_size b) id ltac:(apply Hb)) as Hr.
  rewrite Forall_forall in Hr. destruct (counting_pos_ok b Hb p (Hr p Hin)) as [_ Hlt].
  apply lookup_lt_is_Some_2. unfold cell_byte. lia.
Qed.

(** The counting filter is a multiset of cells.  Any sequence of additions
    and removals either stops with the abort of a full filter or succeeds, never
    touching memory outside the bitset; on success every byte has moved by the
    net number of times its cell was hit (modulo 256), whatever the order of
    the operations, the item counter by the net number of operations, and the
    check is [true] iff no cell of the identifier is 0 or 255. *)
Theorem counting_bloom_multiset ops b :
  counting_wf b -> Forall (fun o => dhkey_wf (op_id o)) ops ->
  foldM counting_step ops b = Err Aborted \/
  exists b', foldM counting_step ops b = Ok b' /\ counting_wf b' /\
    _free_items b' = u16 (_free_items b - zsum (map op_sign ops)) /\
    (forall j v, _bitset b !! j = Some v ->
       _bitset b' !! j = Some (u8 (v + net_hits b ops j))) /\
    forall id, dhkey_wf id -> exists r, _np_counting_bloom_check b' id = Ok r /\
      (r = true <-> forall p, p ∈ positions (_size b) id ->
         exists v, _bitset b !! cell_byte b p = Some v /\
           u8 (v + net_hits b ops (cell_byte b p)) <> 0 /\
           u8 (v + net_hits b ops (cell_byte b p)) <> UINT8_MAX).
Proof.
  intros Hb Hops.
  destruct (counting_run_ok ops b Hb Hops) as
    [?|(b' & Hrun & Hwf & Hs & Hd & Hf & Hcells)]; [by left|].
  right. exists b'. do 4 (split; [done|]).
  intros id Hid. eexists. split; [by apply counting_check_ok|].
  rewrite forallb_elem_of, Hs. apply forall_proper. intros p.
  assert (cell_byte b' p = cell_byte b p) as -> by (unfold cell_byte; by rewrite Hd).
  cbv zeta. split; intros Hp Hin; specialize (Hp Hin).
  - destruct (cell_exists b id p Hb Hin) as [v Hv]. exists v. split; [done|].
    rewrite nth_lookup, (Hcells _ _ Hv) in Hp. cbn [from_option] in Hp.
    apply negb_true_iff, orb_false_iff in Hp as [H1 H2]. split; by apply Z.eqb_neq.
  - destruct Hp as (v & Hv & H1 & H2). rewrite nth_lookup, (Hcells _ _ Hv).
    apply Z.eqb_neq in H1, H2. simpl. by rewrite H1, H2.
Qed.

Lemma counting_bloom_multiset_witness :
  exists b', foldM counting_step [CAdd (key_of 7); CAdd (key_of 9); CRemove (key_of 7)]
      (_np_counting_bloom_create 64 8 1) = Ok b' /\ _free_items b' = 31 /\
    _bitset b' !! 7%nat = Some 0 /\ _bitset b' !! 9%nat = Some 1.
Proof.
  destruct (counting_bloom_multiset [CAdd (key_of 7); CAdd (key_of 9); CRemove (key_of 7)]
              (_np_counting_bloom_create 64 8 1)) as [H|(b' & Hrun & _ & Hf & Hc & _)];
    [apply counting_create_wf; (lia || reflexivity) | by_decide | discriminate H |].
  exists b'. split; [exact Hrun|]. split; [rewrite Hf; reflexivity|].
  split; [rewrite (Hc 7%nat 0); reflexivity | rewrite (Hc 9%nat 0); reflexivity].
Defined.

(** Removal undoes addition.  With at least two free places, removing what
    was just added restores the filter byte for byte; with exactly one, the
    addition fills the filter and the removal aborts. *)
Theorem counting_remove_add b id :
  counting_wf b -> dhkey_wf id -> 0 < _free_items b ->
  exists b1, _np_counting_bloom_add b id = Ok b1 /\
    (2 <= _free_items b -> _np_counting_bloom_remove b1 id = Ok b) /\
    (_free_items b = 1 -> _np_counting_bloom_remove b1 id = Err Aborted).
Proof.
  intros Hb Hid Hf.
  destruct (counting_step_ok (CAdd id) b Hb Hid ltac:(lia)) as (b1 & Hrun & Hb1 & Hs1 & Hd1 & Hf1 & Hc1).
  exists b1. split; [done|].
  assert (_free_items b1 = _free_items b - 1) as Hf1'.
  { rewrite Hf1. apply u16_id. destruct Hb as (_ & _ & _ & _ & _ & _ & _ & ?). unfold in_u in *.
    simpl. lia. }
  split; intros H2.
  - destruct (counting_step_ok (CRemove id) b1 Hb1 Hid ltac:(lia)) as (b2 & Hrun2 & Hb2 & Hs2 & Hd2 & Hf2 & Hc2).
    simpl in Hrun, Hrun2. rewrite Hrun2. f_equal.
    assert (_bitset b2 = _bitset b) as Hbits.
    { apply list_eq. intros j. destruct (_bitset b !! j) as [v|] eqn:Hv.
      - rewrite (Hc2 _ _ (Hc1 _ _ Hv)), (hits_same b1 b) by done. cbn [op_sign op_id]. f_equal.
        assert (in_u 8 v) as Hv8 by (destruct Hb as (_ & _ & _ & _ & _ & _ & Hby & _); by eapply Forall_lookup_1).
        rewrite <- (u8_id v) at 2 by done. unfold u8. rewrite Zplus_mod_idemp_l. f_equal. lia.
      - apply lookup_ge_None. apply lookup_ge_None in Hv. destruct Hb as (_ & _ & _ & _ & _ & Hl & _).
        destruct Hb2 as (_ & _ & _ & _ & _ & Hl2 & _). rewrite Hs2, Hs1, Hd2, Hd1 in Hl2. lia. }
    assert (_free_items b2 = _free_items b) as Hfree.
    { rewrite Hf2, Hf1'. simpl. destruct Hb as (_ & _ & _ & _ & _ & _ & _ & ?).
      rewrite u16_id by (unfold in_u in *; lia). lia. }
    clear -Hrun Hrun2 Hbits Hfree.
    unfold _np_counting_bloom_add, _np_counting_bloom_remove in *.
    destruct (_free_items b =? 0), (_free_items b1 =? 0); inv_ok.
    destruct b. unfold set_free, set_bitset in *. simpl in *. congruence.
  - rewrite H2 in Hf1'. by apply (counting_full_aborts (CRemove id)).
Qed.

Lemma counting_remove_add_witness :
  exists b1, _np_counting_bloom_add (_np_counting_bloom_create 64 8 1) (key_of 7) = Ok b1 /\
    _np_counting_bloom_remove b1 (key_of 7) = Ok (_np_counting_bloom_create 64 8 1).
Proof.
  destruct (counting_remove_add (_np_counting_bloom_create 64 8 1) (key_of 7)) as (b1 & Hrun & Hr & _);
    [apply counting_create_wf; (lia || reflexivity) | by_decide | reflexivity |].
  exists b1. split; [exact Hrun|]. apply Hr. vm_compute. discriminate.
Defined.
