(* ===== verification/BloomDecaying.v ===== *)
(** * Decaying and stable Bloom filters: proofs

    The decaying filter forgets an element after exactly the number of decays
    its cell width allows; the stable filter always sees what it last added. *)
From Stdlib Require Import ZArith Lia QArith.
From stdpp Require Import prelude.
From S2P Require Import Prelude Dhkey Rng BloomBase BloomClassic BloomStandard.

Local Open Scope Z_scope.

(** ** Decaying filter *)

Definition decaying_wf (b : np_bloom_t) : Prop :=
  (_d b = 8 \/ _d b = 16) /\ 0 < _size b <= 65535 /\ 0 <= _p b < 32 /\
  Z.of_nat (length (_bitset b)) = _size b * (_d b / 8) /\ Forall (in_u 8) (_bitset b) /\
  in_u 16 (_free_items b).

#[export] Instance decaying_wf_dec b : Decision (decaying_wf b).
Proof. unfold decaying_wf. apply _. Defined.

(** The value of cell [j]: one byte, or two in little-endian order. *)
Definition dcell (d : Z) (bs : list Z) (j : Z) : Z :=
  if d =? 8 then nth (Z.to_nat j) bs 0
  else nth (Z.to_nat (2 * j)) bs 0 + 256 * nth (Z.to_nat (2 * j + 1)) bs 0.

(** A bitset of the right shape for [b]. *)
Definition dshape (b : np_bloom_t) (bs : list Z) : Prop :=
  Z.of_nat (length bs) = _size b * (_d b / 8) /\ Forall (in_u 8) bs.

Lemma nth_byte bs i : Forall (in_u 8) bs -> in_u 8 (nth i bs 0).
Proof.
  intros H. rewrite nth_lookup. destruct (bs !! i) eqn:E; simpl; [|by_decide].
  by eapply Forall_lookup_1.
Qed.

Lemma rd_nth bs i : 0 <= i < Z.of_nat (length bs) -> rd bs i = Ok (nth (Z.to_nat i) bs 0).
Proof. intros Hi. destruct (rd_ok bs i Hi) as (v & -> & Hv). by rewrite nth_lookup, Hv. Qed.

Lemma nth_insert (bs : list Z) i j v :
  (i < length bs)%nat -> nth j (<[i:=v]> bs) 0 = if decide (i = j) then v else nth j bs 0.
Proof.
  intros Hi. rewrite !nth_lookup. case_decide as E.
  - subst j. by rewrite list_lookup_insert_eq.
  - by rewrite list_lookup_insert_ne.
Qed.

Lemma Forall_insert_byte bs i v : Forall (in_u 8) bs -> in_u 8 v -> Forall (in_u 8) (<[i:=v]> bs).
Proof. intros. by apply Forall_insert. Qed.

Section Decaying.
Context (b : np_bloom_t) (Hb : decaying_wf b).

Lemma decaying_rd_ok bs j :
  dshape b bs -> 0 <= j < _size b ->
  decaying_rd b bs (j * _d b / 8) = Ok (Some (dcell (_d b) bs j)) /\
  0 <= dcell (_d b) bs j < 2 ^ _d b.
Proof.
  intros [Hl Hby] Hj. destruct Hb as ([Hd|Hd] & Hs & _); unfold decaying_rd, dcell;
    rewrite Hd in *; simpl in *.
  - rewrite Z.div_mul by lia. change (8 / 8) with 1 in Hl. rewrite rd_nth by lia. split; [done|].
    apply (nth_byte bs _ Hby).
  - unfold rd16. replace (j * 16 / 8) with (2 * j) by divlia.
    change (16 / 8) with 2 in Hl. rewrite !rd_nth by lia. split; [done|].
    pose proof (nth_byte bs (Z.to_nat (2 * j)) Hby). pose proof (nth_byte bs (Z.to_nat (2 * j + 1)) Hby).
    unfold in_u in *. lia.
Qed.

Lemma decaying_wr_ok bs j v :
  dshape b bs -> 0 <= j < _size b -> 0 <= v < 2 ^ _d b ->
  exists bs', decaying_wr b bs (j * _d b / 8) v = Ok bs' /\ dshape b bs' /\
    forall i, 0 <= i < _size b ->
      dcell (_d b) bs' i = if decide (i = j) then v else dcell (_d b) bs i.
Proof.
  intros [Hl Hby] Hj Hv. unfold dshape.
  destruct Hb as ([Hd|Hd] & Hs & _); unfold decaying_wr, dcell; rewrite Hd in *; simpl in *.
  - rewrite Z.div_mul by lia. change (8 / 8) with 1 in *. rewrite wr_ok by lia.
    eexists. split; [done|]. split.
    + split; [by rewrite length_insert|]. by apply Forall_insert_byte.
    + intros i Hi. rewrite nth_insert by lia. repeat case_decide; (done || lia).
  - unfold wr16. replace (j * 16 / 8) with (2 * j) by divlia.
    change (16 / 8) with 2 in *. rewrite wr_ok by lia. simpl.
    rewrite wr_ok by (rewrite length_insert; lia).
    eexists. split; [done|]. split.
    + split; [by rewrite !length_insert|].
      repeat apply Forall_insert_byte; [done | |]; unfold in_u; divlia.
    + intros i Hi. rewrite !nth_insert by (rewrite ?length_insert; lia).
      repeat case_decide; try lia. divlia.
Qed.

Lemma decaying_decay_ok :
  exists bs n, _np_decaying_bloom_decay b = Ok (set_free (set_bitset b bs) n) /\
    decaying_wf (set_free (set_bitset b bs) n) /\
    forall j, 0 <= j < _size b -> dcell (_d b) bs j = dcell (_d b) (_bitset b) j ≫ _p b.
Proof.
  pose proof Hb as (Hd & Hs & Hp & Hl & Hby & Hf). unfold _np_decaying_bloom_decay.
  rewrite for_u_unfold by lia.
  match goal with |- context [for_range 0 ?n ?body ?s] =>
    destruct (for_range_inv (fun k '((bs, z) : list Z * Z) =>
      dshape b bs /\ forall j, 0 <= j < _size b -> dcell (_d b) bs j =
        if decide (j < Z.of_nat k) then dcell (_d b) (_bitset b) j ≫ _p b
        else dcell (_d b) (_bitset b) j) 0 n body s) as ([bs z] & -> & [Hsh Hcells]) end.
  - split; [done|]. intros j Hj. rewrite decide_False by lia. done.
  - intros k [bs z] Hk [Hsh Hc]. assert (0 <= Z.of_nat k < _size b) as Hk' by lia.
    destruct (decaying_rd_ok bs (Z.of_nat k) Hsh Hk') as [Hrd Hr].
    cbv zeta. rewrite Hrd. cbn [mbind result_bind].
    assert ((if 0 <? dcell (_d b) bs (Z.of_nat k) then shift_ok 32 (_p b) else Ok tt) = Ok tt) as ->.
    { case_match; [|done]. unfold shift_ok. by rewrite decide_True by lia. }
    cbn [mbind result_bind].
    assert ((if 0 <? dcell (_d b) bs (Z.of_nat k) then dcell (_d b) bs (Z.of_nat k) ≫ _p b
             else dcell (_d b) bs (Z.of_nat k)) = dcell (_d b) bs (Z.of_nat k) ≫ _p b) as ->.
    { destruct (Z.ltb_spec 0 (dcell (_d b) bs (Z.of_nat k))); [done|].
      replace (dcell (_d b) bs (Z.of_nat k)) with 0 by lia. by rewrite Z.shiftr_0_l. }
    destruct (decaying_wr_ok bs (Z.of_nat k) (dcell (_d b) bs (Z.of_nat k) ≫ _p b) Hsh Hk')
      as (bs' & -> & Hsh' & Hc').
    { apply (in_u_shiftr (_d b)); [lia | done]. }
    eexists. split; [done|]. cbn. split; [done|]. intros j Hj. rewrite Hc' by done.
    rewrite !Hc by done. repeat case_decide; try lia; try done. by subst j.
  - cbn. eexists _, _. split; [done|]. split.
    + destruct Hsh. repeat split; simpl; try (done || lia || apply u16_range).
    + intros j Hj. rewrite Hcells, decide_True by lia. done.
Qed.
End Decaying.

(** [d * p / 8] of an in-range position, as a 32-bit product. *)
Lemma decaying_pos_ok b p :
  decaying_wf b -> 0 <= p < _size b -> u32 (p * _d b) / 8 = p * _d b / 8.
Proof. intros (Hd & Hs & _) Hp. rewrite u32_id; [done|]. unfold in_u. destruct Hd as [->| ->]; lia. Qed.

(** Marking one cell, and the cells of a list of positions. *)
Lemma decaying_add_at_ok b p bs :
  decaying_wf b -> dshape b bs -> 0 <= p < _size b ->
  exists bs', decaying_add_at b p bs = Ok bs' /\ dshape b bs' /\
    forall j, 0 <= j < _size b -> dcell (_d b) bs' j =
      if decide (j = p) then Z.lor (dcell (_d b) bs j) (2 ^ (_d b - 1)) else dcell (_d b) bs j.
Proof.
  intros Hb Hsh Hp. unfold decaying_add_at. cbv zeta. rewrite decaying_pos_ok by done.
  destruct (decaying_rd_ok b Hb bs p Hsh Hp) as [-> Hr]. simpl.
  assert (1 <= _d b) as Hd by (destruct Hb as ([->| ->] & _); lia).
  rewrite Z.shiftl_1_l.
  destruct (decaying_wr_ok b Hb bs p (Z.lor (dcell (_d b) bs p) (2 ^ (_d b - 1))) Hsh Hp)
    as (bs1 & -> & Hsh1 & Hc1).
  { apply in_u_lor; [lia | done|]. split; [by apply Z.pow_nonneg|]. apply Z.pow_lt_mono_r; lia. }
  exists bs1. do 2 (split; [done|]). intros j Hj. rewrite Hc1 by done.
  case_decide; [by subst|done].
Qed.

Lemma decaying_mark_ok b ps bs :
  decaying_wf b -> dshape b bs -> Forall (fun p => 0 <= p < _size b) ps ->
  exists bs', foldM (decaying_add_at b) ps bs = Ok bs' /\ dshape b bs' /\
    forall j, 0 <= j < _size b -> dcell (_d b) bs' j =
      if decide (j ∈ ps) then Z.lor (dcell (_d b) bs j) (2 ^ (_d b - 1)) else dcell (_d b) bs j.
Proof.
  intros Hb Hsh Hps. revert bs Hsh. induction Hps as [|p ps Hp _ IH]; intros bs Hsh; cbn [foldM].
  - exists bs. do 2 (split; [done|]). intros j Hj. rewrite decide_False; [done|].
    apply not_elem_of_nil.
  - destruct (decaying_add_at_ok b p bs Hb Hsh Hp) as (bs1 & -> & Hsh1 & Hc1).
    cbn [mbind result_bind]. destruct (IH bs1 Hsh1) as (bs' & Hrun & Hsh' & Hc').
    exists bs'. do 2 (split; [done|]). intros j Hj. rewrite Hc', Hc1 by done.
    destruct (decide (j = p)) as [->|Hne].
    + rewrite (decide_True (P := p ∈ p :: ps)) by left. case_decide; [|done].
      by rewrite <- Z.lor_assoc, Z.lor_diag.
    + destruct (decide (j ∈ ps)) as [Hin|Hin].
      * by rewrite decide_True by (by right).
      * rewrite decide_False; [done|]. by rewrite not_elem_of_cons.
Qed.

Lemma decaying_add_ok b id :
  decaying_wf b -> dhkey_wf id -> 0 < _free_items b ->
  exists bs, _np_decaying_bloom_add b id = Ok (set_free (set_bitset b bs) (_free_items b - 1)) /\
    decaying_wf (set_free (set_bitset b bs) (_free_items b - 1)) /\
    forall j, 0 <= j < _size b -> dcell (_d b) bs j =
      if decide (j ∈ positions (_size b) id)
      then Z.lor (dcell (_d b) (_bitset b) j) (2 ^ (_d b - 1)) else dcell (_d b) (_bitset b) j.
Proof.
  intros Hb Hid Hf. unfold _np_decaying_bloom_add. rewrite (proj2 (Z.eqb_neq _ 0)) by lia.
  pose proof Hb as (Hd & Hs & Hp & Hl & Hby & Hfr).
  rewrite (loop_positions (_size b) id (decaying_add_at b)) by (done || lia).
  destruct (decaying_mark_ok b (positions (_size b) id) (_bitset b) Hb) as (bs & Hrun & Hsh & Hc);
    [done | apply positions_range; lia |].
  rewrite Hrun. cbn [mbind result_bind]. unfold in_u in Hfr.
  rewrite u16_id by (unfold in_u; lia). exists bs. split; [done|]. split; [|done].
  destruct Hsh. repeat split; simpl; try (done || lia).
Qed.

Lemma decaying_check_ok b id :
  decaying_wf b -> dhkey_wf id ->
  _np_decaying_bloom_check b id =
    Ok (forallb (fun p => negb (dcell (_d b) (_bitset b) p =? 0)) (positions (_size b) id)).
Proof.
  intros Hb Hid. pose proof Hb as (Hd & Hs & Hp & Hl & Hby & Hf).
  unfold _np_decaying_bloom_check.
  rewrite (loop_positions_flag _ _ (decaying_check_at b)) by (done || lia).
  rewrite (foldM_all (fun p => negb (dcell (_d b) (_bitset b) p =? 0))); [done | | done].
  intros p Hin. pose proof (positions_range (_size b) id ltac:(lia)) as Hr.
  rewrite Forall_forall in Hr. specialize (Hr p Hin).
  unfold decaying_check_at. cbv zeta. rewrite decaying_pos_ok by done.
  destruct (decaying_rd_ok b Hb (_bitset b) p (conj Hl Hby) Hr) as [-> _]. simpl. by case_match.
Qed.

(** The bit length of a cell whose leading bit is known. *)
Lemma bit_length_spec v m fuel n :
  0 <= m -> 2 ^ m <= v < 2 ^ (m + 1) -> 1 <= n <= m + 1 -> m + 1 <= n + Z.of_nat fuel ->
  bit_length fuel v n = m + 1.
Proof.
  intros Hm Hv. revert n. induction fuel as [|fuel IH]; intros n Hn Hf; simpl; [lia|].
  rewrite Z.shiftr_div_pow2 by lia.
  assert (0 < 2 ^ n) by (apply Z.pow_pos_nonneg; lia).
  destruct (decide (n = m + 1)) as [->|Hne].
  - rewrite Z.div_small by lia. done.
  - assert (2 ^ n <= 2 ^ m) by (apply Z.pow_le_mono_r; lia).
    assert (1 <= v / 2 ^ n) by (apply Z.div_le_lower_bound; lia).
    rewrite (proj2 (Z.ltb_lt _ _)) by lia. apply IH; lia.
Qed.

(** One round of the heuristic on a cell of bit length [m + 1]. *)
Lemma decaying_heuristic_at_ok b p m ret :
  decaying_wf b -> 0 <= p < _size b -> 0 <= m < _d b ->
  2 ^ m <= dcell (_d b) (_bitset b) p < 2 ^ (m + 1) ->
  let h := (inject_Z (m + 1) / inject_Z (_d b))%Q in
  decaying_heuristic_at b p ret = Ok (false, if Qle_bool ret h then h else ret).
Proof.
  intros Hb Hp Hm Hc h. pose proof Hb as (Hd & Hs & _ & Hl & Hby & _).
  unfold decaying_heuristic_at. cbv zeta. rewrite decaying_pos_ok by done.
  destruct (decaying_rd_ok b Hb (_bitset b) p (conj Hl Hby) Hp) as [-> _]. cbn [mbind result_bind].
  assert (0 < 2 ^ m) by (apply Z.pow_pos_nonneg; lia).
  rewrite (proj2 (Z.eqb_neq _ _)) by lia.
  by rewrite (bit_length_spec _ m) by (destruct Hd as [E|E]; rewrite E in *; lia).
Qed.

(** With all eight cells of the same bit length the heuristic is that length. *)
Lemma decaying_heuristic_ok b id m :
  decaying_wf b -> dhkey_wf id -> 0 <= m < _d b ->
  (forall p, p ∈ positions (_size b) id -> 2 ^ m <= dcell (_d b) (_bitset b) p < 2 ^ (m + 1)) ->
  _np_decaying_bloom_get_heuristic b id = Ok (inject_Z (m + 1) / inject_Z (_d b))%Q.
Proof.
  intros Hb Hid Hm Hcells. pose proof Hb as (Hd & Hs & _).
  set (h := (inject_Z (m + 1) / inject_Z (_d b))%Q).
  assert (Qle_bool 0 h = true) as H0.
  { apply Qle_bool_iff. unfold h. apply Qle_shift_div_l.
    - change 0%Q with (inject_Z 0). rewrite <- Zlt_Qlt. destruct Hd as [->| ->]; lia.
    - rewrite Qmult_0_l. change 0%Q with (inject_Z 0). rewrite <- Zle_Qle. lia. }
  unfold _np_decaying_bloom_get_heuristic.
  match goal with |- context [for_range 0 8 ?body ?s] =>
    destruct (for_range_inv (fun k st => st = (false, if decide (k = 0%nat) then 0%Q else h))
                0 8 body s) as (st & -> & ->); [done | | done] end.
  intros k st Hk ->. rewrite mod_size_ok by (auto with machine; lia). simpl.
  assert (word id k mod _size b ∈ positions (_size b) id) as Hin.
  { unfold positions, id_words. rewrite map_map. apply list_elem_of_fmap. exists k.
    split; [done|]. apply elem_of_seq. lia. }
  rewrite (decaying_heuristic_at_ok b _ m) by (auto; apply Z.mod_pos_bound; lia). fold h.
  eexists. split; [done|]. case_decide; [by rewrite H0|]. by case_match.
Qed.

(** [n] rounds of decay. *)
Fixpoint decay_n (n : nat) (b : np_bloom_t) : result np_bloom_t :=
  match n with O => Ok b | S n' => b' ← _np_decaying_bloom_decay b; decay_n n' b' end.

Lemma decay_n_ok n b :
  decaying_wf b ->
  exists b', decay_n n b = Ok b' /\ decaying_wf b' /\ _size b' = _size b /\ _d b' = _d b /\
    forall j, 0 <= j < _size b ->
      dcell (_d b) (_bitset b') j = dcell (_d b) (_bitset b) j ≫ (Z.of_nat n * _p b).
Proof.
  revert b. induction n as [|n IH]; intros b Hb; cbn [decay_n].
  - exists b. do 4 (split; [done|]). intros j Hj. by rewrite Z.mul_0_l, Z.shiftr_0_r.
  - destruct (decaying_decay_ok b Hb) as (bs & f & -> & Hb1 & Hc1). cbn [mbind result_bind].
    destruct (IH _ Hb1) as (b' & -> & Hb' & Hs' & Hd' & Hc'). simpl in *.
    exists b'. do 4 (split; [done|]). intros j Hj. rewrite Hc', Hc1 by done.
    assert (0 <= _p b) by (destruct Hb as (_ & _ & ? & _); lia).
    rewrite Z.shiftr_shiftr by nia. f_equal. lia.
Qed.

(** Shifting a cell whose top bit is set. *)
Lemma marked_cell_shift d v m :
  1 <= d -> 0 <= v < 2 ^ d -> 0 <= m ->
  let c := Z.lor v (2 ^ (d - 1)) ≫ m in
  (m < d -> 2 ^ (d - 1 - m) <= c < 2 ^ (d - m)) /\ (d <= m -> c = 0).
Proof.
  intros Hd Hv Hm. set (w := Z.lor v (2 ^ (d - 1))).
  assert (in_u d w) as [Hw0 Hw].
  { apply in_u_lor; [lia | done|]. split; [by apply Z.pow_nonneg|]. apply Z.pow_lt_mono_r; lia. }
  assert (2 ^ (d - 1) <= w) as Hw1.
  { destruct (Z_lt_le_dec w (2 ^ (d - 1))) as [Hlt|]; [|done].
    assert (Z.testbit w (d - 1) = true) as Ht
      by (unfold w; rewrite Z.lor_spec, Z.pow2_bits_true by lia; apply orb_true_r).
    rewrite (testbit_above (d - 1) w) in Ht; [done | split; lia | lia]. }
  cbv zeta. rewrite Z.shiftr_div_pow2 by done.
  assert (0 < 2 ^ m) by (by apply Z.pow_pos_nonneg). split; intros Hmd.
  - split.
    + apply Z.div_le_lower_bound; [done|]. rewrite <- Z.pow_add_r by lia.
      by replace (m + (d - 1 - m)) with (d - 1) by lia.
    + apply Z.div_lt_upper_bound; [done|]. rewrite <- Z.pow_add_r by lia.
      by replace (m + (d - m)) with d by lia.
  - apply Z.div_small. split; [done|]. eapply Z.lt_le_trans; [exact Hw|].
    apply Z.pow_le_mono_r; lia.
Qed.

(** How long a decaying filter remembers.  After adding an identifier, [n]
    decays by [p] bits leave it visible iff [n * p] is less than the cell width
    [d] (8 or 16); as long as it is visible the heuristic is exactly
    [(d - n * p) / d], so it falls linearly from 1.  No step faults. *)
Theorem decaying_bloom_lifetime b id n :
  decaying_wf b -> dhkey_wf id -> 0 < _free_items b ->
  exists b1 b2, _np_decaying_bloom_add b id = Ok b1 /\ decay_n n b1 = Ok b2 /\
    _np_decaying_bloom_check b2 id = Ok (bool_decide (Z.of_nat n * _p b < _d b)) /\
    (Z.of_nat n * _p b < _d b ->
     _np_decaying_bloom_get_heuristic b2 id =
       Ok (inject_Z (_d b - Z.of_nat n * _p b) / inject_Z (_d b))%Q).
Proof.
  intros Hb Hid Hf. pose proof Hb as (Hd & Hs & Hp & Hl & Hby & _).
  destruct (decaying_add_ok b id Hb Hid Hf) as (bs & Hadd & Hb1 & Hc1).
  destruct (decay_n_ok n _ Hb1) as (b2 & Hdec & Hb2 & Hs2 & Hd2 & Hc2). simpl in *.
  do 2 eexists. split; [exact Hadd|]. split; [exact Hdec|].
  set (m := Z.of_nat n * _p b) in *. assert (0 <= m) as Hm by (unfold m; nia).
  assert (1 <= _d b) as Hd1 by (destruct Hd as [->| ->]; lia).
  assert (forall p, p ∈ positions (_size b) id ->
    (m < _d b -> 2 ^ (_d b - 1 - m) <= dcell (_d b) (_bitset b2) p < 2 ^ (_d b - m)) /\
    (_d b <= m -> dcell (_d b) (_bitset b2) p = 0)) as Hcell.
  { intros p Hin. pose proof (positions_range (_size b) id ltac:(lia)) as Hr.
    rewrite Forall_forall in Hr. specialize (Hr p Hin). rewrite Hc2, Hc1, decide_True by done.
    apply marked_cell_shift; [done | | done]. by apply (decaying_rd_ok b Hb _ p (conj Hl Hby)). }
  split.
  - rewrite decaying_check_ok by done. f_equal. rewrite Hd2, Hs2. case_bool_decide as Hv.
    + apply forallb_elem_of. intros p Hin. destruct (Hcell p Hin) as [H _]. specialize (H Hv).
      assert (0 < 2 ^ (_d b - 1 - m)) by (apply Z.pow_pos_nonneg; lia).
      by rewrite (proj2 (Z.eqb_neq _ _)) by lia.
    + unfold positions, id_words in *. simpl in *.
      by rewrite (proj2 (Hcell _ (list_elem_of_here _ _))) by lia.
  - intros Hv. rewrite (decaying_heuristic_ok b2 id (_d b - 1 - m)); rewrite ?Hd2, ?Hs2; try done; [|lia|].
    + do 3 f_equal. lia.
    + intros p Hin. replace (_d b - 1 - m + 1) with (_d b - m) by lia. by apply Hcell.
Qed.

Lemma decaying_create_wf size d p :
  0 < size <= 65535 -> d = 8 \/ d = 16 -> 0 <= p < 32 ->
  decaying_wf (_np_decaying_bloom_create size d p).
Proof.
  intros Hs Hd Hp. repeat split; simpl; try (done || lia); auto using calloc_bytes; try apply u16_range.
  destruct Hd as [->| ->]; [change (8 / 8) with 1 | change (16 / 8) with 2];
    rewrite calloc_length; lia.
Qed.

Lemma decaying_bloom_lifetime_witness :
  exists b1 b2, _np_decaying_bloom_add (_np_decaying_bloom_create 64 8 2) (key_of 7) = Ok b1 /\
    decay_n 4 b1 = Ok b2 /\ _np_decaying_bloom_check b2 (key_of 7) = Ok false.
Proof.
  destruct (decaying_bloom_lifetime (_np_decaying_bloom_create 64 8 2) (key_of 7) 4)
    as (b1 & b2 & Ha & Hd & Hc & _);
    [apply decaying_create_wf; lia | by_decide | reflexivity |].
  exists b1, b2. split; [exact Ha|]. split; [exact Hd | exact Hc].
Defined.

(** ** Stable filter *)

(** A power-of-two size, so that the masks of the source address the cells. *)
Definition stable_params (b : np_bloom_t) : Prop :=
  (exists k, 3 <= k < 24 /\ _size b = 2 ^ k) /\ 1 <= _d b < 31 /\ 0 <= _p b /\
  _p b * _d b <= 255.
Definition stable_bytes (b : np_bloom_t) (bs : list Z) : Prop :=
  Z.of_nat (length bs) = (_size b * _d b) ≫ 3 /\ Forall (in_u 8) bs.
Definition stable_wf (b : np_bloom_t) : Prop :=
  stable_params b /\ stable_bytes b (_bitset b) /\ pcg_wf (_rng b).

Lemma stable_pos_ok b bs x :
  stable_params b -> stable_bytes b bs -> 0 <= stable_pos b x < Z.of_nat (length bs).
Proof.
  intros ((k & Hk & Hs) & Hd & _) [Hl _]. unfold stable_pos. rewrite Hl.
  assert (8 <= _size b < 2 ^ 24) as Hs8.
  { rewrite Hs. split; [change 8 with (2 ^ 3); apply Z.pow_le_mono_r; lia|].
    apply Z.pow_lt_mono_r; lia. }
  rewrite (u64_id (_size b - 1)) by (unfold in_u; lia).
  assert (0 <= Z.land x (_size b - 1) <= _size b - 1) as Hx.
  { rewrite Hs. replace (2 ^ k - 1) with (Z.ones k) by (rewrite Z.ones_equiv; lia).
    rewrite Z.land_ones by lia. pose proof (Z.mod_pos_bound x (2 ^ k) ltac:(lia)).
    rewrite Z.ones_equiv. lia. }
  set (y := Z.land x (_size b - 1)) in *. assert (0 <= y * _d b < 2 ^ 32) by nia.
  rewrite (u32_id y), u32_id by (unfold in_u; lia).
  rewrite !Z.shiftr_div_pow2 by lia. change (2 ^ 3) with 8.
  assert (_size b mod 8 = 0) as H8.
  { rewrite Hs. replace k with (3 + (k - 3)) by lia. rewrite Z.pow_add_r by lia.
    rewrite Z.mul_comm. by apply Z.mod_mul. }
  apply Z.div_exact in H8; [|lia]. split; [apply Z.div_pos; nia|].
  apply Z.div_lt_upper_bound; [lia|]. rewrite H8.
  replace (8 * (_size b / 8) * _d b) with (_size b / 8 * _d b * 8) by lia.
  rewrite Z.div_mul by lia. nia.
Qed.

Lemma low_bit_mask d : 1 <= d -> Z.testbit (1 ≪ d - 1) 0 = true.
Proof.
  intros Hd. rewrite Z.shiftl_1_l. replace (2 ^ d - 1) with (Z.ones d) by (rewrite Z.ones_equiv; lia).
  apply Z.ones_spec_low. lia.
Qed.

(** The random pruning loop stays inside the bitset. *)
Lemma stable_prune_ok b :
  stable_wf b ->
  exists bs rng killed,
    for_u 8 (_p b * _d b) (stable_prune b) (_bitset b, _rng b, 0) = Ok (bs, rng, killed) /\
    stable_bytes b bs /\ pcg_wf rng.
Proof.
  intros (Hp & Hb & Hr). pose proof Hp as (_ & Hd & Hp0 & H255). rewrite for_u_unfold by lia.
  match goal with |- context [for_range 0 ?n ?body ?s] =>
    destruct (for_range_inv (fun _ '((bs, rng, _) : list Z * np_local_pcg_state_32 * Z) =>
      stable_bytes b bs /\ pcg_wf rng) 0 n body s) as ([[bs rng] kl] & Hrun & Hbs & Hrng);
    [done | | by exists bs, rng, kl] end.
  intros k [[bs rng] kl] _ [Hbs Hrng]. pose proof (np_rng_next_wf rng Hrng) as [_ Hnext].
  unfold stable_prune. destruct (np_rng_next rng) as [num rng'] eqn:E. cbv zeta.
  pose proof (stable_pos_ok b bs num Hp Hbs) as Hin.
  destruct (rd_ok bs _ Hin) as (v & -> & Hv). cbn [mbind result_bind].
  case_match; [|by eexists]. rewrite wr_ok by done. cbn [mbind result_bind]. eexists.
  split; [done|]. split; [|done]. destruct Hbs as [Hl Hby].
  split; [by rewrite length_insert|]. apply Forall_insert_byte; [done|].
  apply in_u_shiftr; [lia|]. by eapply Forall_lookup_1.
Qed.

(** The marking loop: every cell of the identifier ends with its low bit set. *)
Lemma stable_mark_ok b bs id :
  stable_params b -> stable_bytes b bs ->
  exists bs', for_range 0 8 (fun k bs => upd bs (stable_pos b (word id k))
      (fun v => u8 (Z.lor v (1 ≪ _d b - 1)))) bs = Ok bs' /\ stable_bytes b bs' /\
    forall k, (k < 8)%nat ->
      Z.testbit (nth (Z.to_nat (stable_pos b (word id k))) bs' 0) 0 = true.
Proof.
  intros Hp Hbs. pose proof Hp as (_ & Hd & _).
  match goal with |- context [for_range 0 ?n ?body ?s] =>
    destruct (for_range_inv (fun i bs => stable_bytes b bs /\ forall k, (k < i)%nat ->
      Z.testbit (nth (Z.to_nat (stable_pos b (word id k))) bs 0) 0 = true) 0 n body s)
      as (bs' & Hrun & Hbs' & Hbit); [split; [done | lia] | | by exists bs'] end.
  intros i bs1 _ [Hbs1 Hbit]. pose proof (stable_pos_ok b bs1 (word id i) Hp Hbs1) as Hin.
  rewrite upd_ok by done. eexists. split; [done|]. destruct Hbs1 as [Hl Hby]. split.
  - split; [by rewrite length_alter|]. apply Forall_alter; [done|]. intros; auto with machine.
  - intros k Hk. rewrite nth_lookup.
    destruct (lookup_lt_is_Some_2 bs1 (Z.to_nat (stable_pos b (word id k)))) as [v Hv].
    { pose proof (stable_pos_ok b bs1 (word id k) Hp (conj Hl Hby)). lia. }
    rewrite (alter_lookup_total _ _ _ _ v) by done. cbn [from_option Datatypes.id]. case_decide as E.
    + unfold u8. rewrite Z.mod_pow2_bits_low, Z.lor_spec, low_bit_mask by lia. apply orb_true_r.
    + destruct (decide (k = i)) as [->|]; [done|]. specialize (Hbit k ltac:(lia)).
      by rewrite nth_lookup, Hv in Hbit.
Qed.

(** A stable filter sees what it has just added.  For a power-of-two size
    and a pruning rate within the 8-bit loop counter, an addition to any
    reachable filter prunes and marks inside the bitset, keeps the filter well
    formed, and the next check of the identifier answers [true] (and re-adds
    it, so it stays [true] however often it is asked). *)
Theorem stable_bloom_sees_last b id :
  stable_wf b -> dhkey_wf id ->
  exists b', _np_stable_bloom_add b id = Ok b' /\ stable_wf b' /\
    exists b'', _np_stable_bloom_check b' id = Ok (true, b'') /\
      _np_stable_bloom_add b' id = Ok b'' /\ stable_wf b''.
Proof.
  intros Hb Hid.
  assert (forall b, stable_wf b -> exists b', _np_stable_bloom_add b id = Ok b' /\ stable_wf b' /\
    forall k, (k < 8)%nat ->
      Z.testbit (nth (Z.to_nat (stable_pos b' (word id k))) (_bitset b') 0) 0 = true) as Hadd.
  { clear b Hb. intros b Hb. unfold _np_stable_bloom_add.
    destruct (stable_prune_ok b Hb) as (bs & rng & killed & -> & Hbs & Hrng). cbn [mbind result_bind].
    pose proof Hb as (Hp & _). unfold shift_ok.
    rewrite decide_True by (destruct Hp as (_ & ? & _); lia). cbn [mbind result_bind].
    destruct (stable_mark_ok b bs id Hp Hbs) as (bs' & -> & Hbs' & Hbit). cbn [mbind result_bind].
    eexists. split; [done|]. split; [by split|]. exact Hbit. }
  destruct (Hadd b Hb) as (b' & Hrun & Hb' & Hbit).
  destruct (Hadd b' Hb') as (b'' & Hrun' & Hb'' & _).
  exists b'. split; [done|]. split; [done|]. exists b''. split; [|done].
  unfold _np_stable_bloom_check. rewrite for_range_foldM.
  rewrite (foldM_all (fun k => true)).
  - cbn [mbind result_bind]. rewrite Hrun'. done.
  - intros k Hk. apply elem_of_seq in Hk. destruct Hb' as (Hp & Hby & _).
    rewrite rd_nth by (by apply stable_pos_ok). simpl.
    specialize (Hbit k ltac:(lia)). case_match; [|done].
    apply Z.eqb_eq in H. rewrite H in Hbit. by rewrite Z.testbit_0_l in Hbit.
  - intros k _. destruct Hb' as (Hp & Hby & _). rewrite rd_nth by (by apply stable_pos_ok).
    simpl. by case_match.
Qed.

Lemma stable_bloom_sees_last_witness :
  exists b b' b'', _np_stable_bloom_create (1, 2) 64 8 3 = Ok b /\
    _np_stable_bloom_add b (key_of 7) = Ok b' /\ _np_stable_bloom_check b' (key_of 7) = Ok (true, b'').
Proof.
  eexists. destruct (stable_bloom_sees_last
    (Bloom stable_bf 64 8 3 (np_rng_init (1, 2)) (calloc 1 64) 1 32) (key_of 7)) as
    (b' & Hrun & _ & b'' & Hc & _).
  - split; [split; [by exists 6|]; simpl; lia|]. split; [by split; by_decide | by split; by_decide].
  - by_decide.
  - exists b', b''. split; [reflexivity|]. split; [exact Hrun | exact Hc].
Defined.
