(* ===== verification/BloomNeuropil.v ===== *)
(** * The neuropil Bloom filter of [src/util/np_bloom.c]

    Four blocks of 255 cells; a cell is two bytes, an age and a count.  Every
    identifier hits two cells per block.  This is the filter that pheromones
    carry: subjects are added, age, are refreshed by union and expire. *)
From Stdlib Require Import ZArith Lia QArith.
From stdpp Require Import prelude.
From S2P Require Import Prelude Dhkey Rng BloomBase.

Local Open Scope Z_scope.

Definition SCALE3D_X : Z := 3.
Definition SCALE3D_Y : Z := 5.
Definition SCALE3D_Z : Z := 17.
Definition SCALE3D_FREE_ITEMS : Z := 64.
Definition SCALE3D : Z := SCALE3D_X * SCALE3D_Y * SCALE3D_Z.

(** [num_blocks * size * d / 8], a [size_t]. *)
Definition filter_bytes (b : np_bloom_t) : Z :=
  u64 (u64 (_num_blocks b * _size b) * _d b) / 8.
(** [block_size], a [uint16_t]. *)
Definition block_size (b : np_bloom_t) : Z := u16 (u64 (_size b * _d b) / 8).

Definition _np_neuropil_bloom_create : np_bloom_t :=
  Bloom neuropil_bf SCALE3D 16 0 rng0 (calloc 4 (u64 (SCALE3D * 16) / 8)) 4 SCALE3D_FREE_ITEMS.

Definition _np_neuropil_bloom_clear (res : np_bloom_t) : result np_bloom_t :=
  let res := Bloom neuropil_bf SCALE3D 16 0 (_rng res) (_bitset res) 4 (_free_items res) in
  bs ← memset0 (_bitset res) 0 (filter_bytes res);
  Ok (set_free (set_bitset res bs) SCALE3D_FREE_ITEMS).

(** ** Loops over the cells of an identifier *)

Definition _bit_array_pos (t : Z) : Z :=
  u32 ((t mod SCALE3D_X + 1) * (t mod SCALE3D_Y + 1) * (t mod SCALE3D_Z + 1)).

(** [for (k = 0; k < 8; ++k)], with [block_index] (initially 1) moving to the
    next block after every second word; the body gets [_local_pos]. *)
Definition for_cells_step {S} (bloom : np_bloom_t) (id : np_dhkey_t) (body : Z -> S -> result S)
    (k : nat) (st : S * Z) : result (S * Z) :=
  let '(s, block_index) := st in
  let _local_pos := u32 ((block_index - 1) * block_size bloom
                         + (_bit_array_pos (word id k) - 1) * 2) in
  s ← body _local_pos s;
  Ok (s, if (Z.of_nat k + 1) mod 2 =? 0 then u8 (block_index + 1) else block_index).

Definition for_cells {S} (bloom : np_bloom_t) (id : np_dhkey_t) (body : Z -> S -> result S) (s : S)
    : result S :=
  fst <$> for_range 0 8 (for_cells_step bloom id body) (s, 1).

(** The age byte and the count byte of the cell at byte [pos]. *)
Definition rd_cell (bs : list Z) (pos : Z) : result (Z * Z) :=
  age ← rd bs pos; count ← rd bs (pos + 1); Ok (age, count).
Definition upd_cell (bs : list Z) (pos : Z) (f g : Z -> Z) : result (list Z) :=
  bs ← upd bs pos f; upd bs (pos + 1) g.

Definition _np_neuropil_bloom_add (bloom : np_bloom_t) (id : np_dhkey_t) : result np_bloom_t :=
  if _free_items bloom =? 0 then Err Aborted else
  let sh := (_d bloom ≫ 1) - 1 in
  _ ← shift_ok 31 sh;
  bs ← for_cells bloom id (fun pos bs =>
    upd_cell bs pos (fun age => u8 (Z.lor age (1 ≪ sh))) (fun count => u8 (count + 1))) (_bitset bloom);
  Ok (set_free (set_bitset bloom bs) (u16 (_free_items bloom - 1))).

Definition _np_neuropil_bloom_remove (bloom : np_bloom_t) (id : np_dhkey_t) : result np_bloom_t :=
  if _free_items bloom =? 0 then Err Aborted else
  bs ← for_cells bloom id (fun pos bs =>
    upd_cell bs pos (fun age => age ≫ 1) (fun count => u8 (count - 1))) (_bitset bloom);
  Ok (set_free (set_bitset bloom bs) (u16 (_free_items bloom + 1))).

Definition _np_neuropil_bloom_check (bloom : np_bloom_t) (id : np_dhkey_t) : result bool :=
  for_cells bloom id (fun pos ret =>
    '(age, count) ← rd_cell (_bitset bloom) pos;
    Ok (if (age =? 0) || (count =? 0) then false else ret)) true.

(** A [float] of the form [age / 256] is exact. *)
Definition age_ratio (age : Z) : Q := Qmake age 256.

(** [broke] is set by the [break]. *)
Definition _np_neuropil_bloom_get_heuristic (bloom : np_bloom_t) (id : np_dhkey_t) : result Q :=
  '(_, ret) ← for_cells bloom id (fun pos '(broke, ret) =>
    if (broke : bool) then Ok (broke, ret) else
    '(age, count) ← rd_cell (_bitset bloom) pos;
    if count =? 0 then Ok (true, 0%Q)
    else Ok (false, if Qle_bool (age_ratio age) ret then age_ratio age else ret)) (false, 1%Q);
  Ok ret.

(** ** Loops over all cells *)

(** [for (uint16_t k = 0; k < bound; k += 2)]: the counter wraps before it
    reaches a bound above 65534. *)
Definition for_step2 {S} (bound : Z) (body : Z -> S -> result S) (s : S) : result S :=
  if decide (bound <= 65534) then
    for_range 0 (Z.to_nat ((bound + 1) / 2)) (fun j => body (2 * Z.of_nat j)) s
  else Err Diverges.

(** One pass over the cells of [rs] and [ts]: [g] is the new cell of [rs], [h]
    the update of the local variables. *)
Definition cells_loop {S} (bound : Z) (g : Z * Z -> Z * Z -> Z * Z) (h : S -> Z * Z -> Z * Z -> S)
    (rs ts : list Z) (s : S) : result (list Z * S) :=
  for_step2 bound (fun k '(bs, s) =>
    r ← rd_cell bs k;
    t ← rd_cell ts k;
    bs ← upd_cell bs k (fun _ => fst (g r t)) (fun _ => snd (g r t));
    Ok (bs, h s r t)) (rs, s).

(** A pass over one filter, and a pass that only reads. *)
Definition map_cells (bound : Z) (g : Z * Z -> Z * Z) (rs : list Z) : result (list Z) :=
  fst <$> cells_loop bound (fun r _ => g r) (fun _ _ _ => tt) rs rs tt.
Definition fold_cells {S} (bound : Z) (h : S -> Z * Z -> Z * Z -> S) (rs ts : list Z) (s : S)
    : result S :=
  snd <$> cells_loop bound (fun r _ => r) h rs ts s.

Definition _np_neuropil_bloom_age_decrement (bloom : np_bloom_t) : result np_bloom_t :=
  let half := _d bloom ≫ 1 in
  bs ← map_cells (block_size bloom * _num_blocks bloom)
    (fun '(age, count) => (if half <? age then age - half else 0, count)) (_bitset bloom);
  Ok (set_bitset bloom bs).

Definition _np_neuropil_bloom_age_increment (bloom : np_bloom_t) : result np_bloom_t :=
  let half := _d bloom ≫ 1 in
  bs ← map_cells (block_size bloom * _num_blocks bloom)
    (fun '(age, count) => (if age <? UINT8_MAX - half then u8 (age + half) else UINT8_MAX, count))
    (_bitset bloom);
  Ok (set_bitset bloom bs).

Definition _np_neuropil_bloom_count_decrement (bloom : np_bloom_t) : result np_bloom_t :=
  if _free_items bloom <? SCALE3D_FREE_ITEMS then
    bs ← map_cells (block_size bloom * _num_blocks bloom)
      (fun '(age, count) => (age, if 0 <? count then count - 1 else count)) (_bitset bloom);
    Ok (set_free (set_bitset bloom bs) (u16 (_free_items bloom + 1)))
  else Ok bloom.

(** ** Two filters *)

(** The [ASSERT]s on the shapes. *)
Definition neuropil_compatible (result to : np_bloom_t) : Prelude.result unit :=
  _ ← c_assert (bool_decide (_type result = neuropil_bf));
  _ ← c_assert (bool_decide (_type result = _type to));
  _ ← c_assert (_size result =? SCALE3D);
  _ ← c_assert (_size result =? _size to);
  _ ← c_assert (_d result =? _d to);
  c_assert (_num_blocks result =? _num_blocks to).

Definition _np_neuropil_bloom_intersect (result to_intersect : np_bloom_t)
    : Prelude.result (bool * np_bloom_t) :=
  _ ← neuropil_compatible result to_intersect;
  _ ← c_assert (SCALE3D_FREE_ITEMS <=? _free_items to_intersect + _free_items result);
  '(bs, i) ← cells_loop (filter_bytes result)
    (fun '(ra, rc) '(ta, tc) =>
       let a := if ta <? ra then ta else ra in
       (a, if 0 <? a then u8 (rc + tc) else rc))
    (fun i '(ra, _) '(ta, _) =>
       let a := if ta <? ra then ta else ra in if 0 <? a then u16 (i + 1) else i)
    (_bitset result) (_bitset to_intersect) 0;
  Ok (0 <? i, set_free (set_bitset result bs) 0).

(** [None] once the loop has returned [false]. *)
Definition _np_neuropil_bloom_intersect_test (result to_intersect : np_bloom_t)
    : Prelude.result bool :=
  _ ← neuropil_compatible result to_intersect;
  st ← fold_cells (filter_bytes result)
    (fun st '(ra, rc) '(ta, tc) =>
       match st with
       | None => None
       | Some (i, j) =>
           let both := (0 <? ra) && (0 <? ta) in
           let i := if both then u16 (i + tc) else i in
           let j := if both && (tc <=? rc) then u16 (j + tc) else j in
           if ((0 <? ra) && (ta =? 0)) || ((ra =? 0) && (0 <? ta)) then None else Some (i, j)
       end) (_bitset result) (_bitset to_intersect) (Some (0, 0));
  Ok (match st with None => false | Some (i, j) => i =? j end).

Definition _np_neuropil_bloom_intersect_age (result to_intersect : np_bloom_t)
    : Prelude.result Q :=
  _ ← neuropil_compatible result to_intersect;
  '(ret, i) ← fold_cells (filter_bytes result)
    (fun '(ret, i) '(ra, _) '(ta, tc) =>
       if 0 <? ta then
         (if 0 <? ra then (if Qle_bool (age_ratio ra) ret then age_ratio ra else ret) else 0%Q,
          u8 (i + tc))
       else (ret, i)) (_bitset result) (_bitset to_intersect) (1%Q, 0);
  Ok (if i =? 0 then 0%Q else ret).

Definition _np_neuropil_bloom_intersect_ignore_age (result to_intersect : np_bloom_t)
    : Prelude.result (bool * np_bloom_t) :=
  _ ← neuropil_compatible result to_intersect;
  _ ← c_assert (SCALE3D_FREE_ITEMS <=? _free_items to_intersect + _free_items result);
  '(bs, i) ← cells_loop (filter_bytes result)
    (fun '(ra, rc) '(_, tc) => (ra, if (0 <? rc) && (0 <? tc) then u8 (rc + tc) else 0))
    (fun i _ _ => u16 (i + 1)) (_bitset result) (_bitset to_intersect) 0;
  Ok (0 <? i, set_free (set_bitset result bs) 0).

(** [temp] is a [uint16_t]: the sum of two bytes fits. *)
Definition union_cell (r t : Z * Z) : Z * Z :=
  let temp := u16 (fst r + fst t) in
  (if UINT8_MAX <=? temp then UINT8_MAX else u8 temp, u8 (snd r + snd t)).

Definition _np_neuropil_bloom_union (result to_add : np_bloom_t) : Prelude.result np_bloom_t :=
  _ ← neuropil_compatible result to_add;
  _ ← c_assert ((SCALE3D_FREE_ITEMS - _free_items result) + (SCALE3D_FREE_ITEMS - _free_items to_add)
                <=? SCALE3D_FREE_ITEMS);
  '(bs, _) ← cells_loop (filter_bytes result) union_cell (fun _ _ _ => tt)
    (_bitset result) (_bitset to_add) tt;
  Ok (set_free (set_bitset result bs)
        (u16 (_free_items result + _free_items to_add - SCALE3D_FREE_ITEMS))).

(** The [ASSERT]s on the item counters of similarity and containment. *)
Definition free_items_ok (first second : np_bloom_t) : result unit :=
  _ ← c_assert (_free_items first <=? SCALE3D_FREE_ITEMS);
  c_assert (_free_items second <=? SCALE3D_FREE_ITEMS).

(** [rnd] is the rounding of the [float] division. *)
Definition _np_neuropil_bloom_similarity (rnd : Q -> Q) (first second : np_bloom_t) : result Q :=
  _ ← neuropil_compatible first second;
  _ ← free_items_ok first second;
  '(union_count, intersection_count) ← fold_cells (filter_bytes first)
    (fun '(un, inter) '(_, fc) '(_, sc) =>
       if (0 <? fc) || (0 <? sc) then
         let un := u16 (un + (if sc <=? fc then fc else 0)) in
         let un := u16 (un + (if fc <? sc then sc else 0)) in
         if (0 <? fc) && (0 <? sc) then
           let inter := u16 (inter + (if sc <=? fc then sc else 0)) in
           (un, u16 (inter + (if fc <? sc then fc else 0)))
         else (un, inter)
       else (un, inter)) (_bitset first) (_bitset second) (0, 0);
  Ok (if 0 <? union_count then rnd (inject_Z intersection_count / inject_Z union_count)%Q else 0%Q).

Definition _np_neuropil_bloom_containment (first second : np_bloom_t) : result bool :=
  _ ← neuropil_compatible first second;
  _ ← free_items_ok first second;
  '(second_count, first_count) ← fold_cells (filter_bytes first)
    (fun '(sn, fn) '(_, fc) '(_, sc) =>
       if 0 <? sc then (u16 (sn + 1), u16 (fn + (if sc <=? fc then 1 else 0))) else (sn, fn))
    (_bitset first) (_bitset second) (0, 0);
  Ok (first_count =? second_count).

(** The [break] leaves [ret = -1], which no later round changes. *)
Definition _np_neuropil_bloom_cmp (a b : np_bloom_t) : result Z :=
  _ ← neuropil_compatible a b;
  fold_cells (filter_bytes a)
    (fun ret '(_, ac) '(_, bc) =>
       if ((ac =? 0) && (0 <? bc)) || ((bc =? 0) && (0 <? ac)) then -1 else ret)
    (_bitset a) (_bitset b) 0.

(** The output buffer as a growing byte list; [j] is written in the host's
    (little-endian) order.  Buffers shorter than 32 bytes are padded. *)
Definition _np_neuropil_bloom_compress (filter : np_bloom_t) : result (list Z) :=
  '(out, _) ← fold_cells (filter_bytes filter)
    (fun '(out, j) '(age, count) _ =>
       (if (0 <? age) && (0 <? count) then out ++ [j mod 256; j / 256; age; count] else out,
        u16 (j + 1))) (_bitset filter) (_bitset filter) ([], 0);
  Ok (if (length out <? 32)%nat then out ++ replicate (32 - length out) 0 else out).
