(* ===== verification/BloomNeuropilSpec.v ===== *)
(** * The neuropil Bloom filter: proofs

    The byte array is read as a list of cells (age, count); every operation of
    [BloomNeuropil] is a pointwise operation on that list.  On top of it:
    membership, expiry by ageing, union, removal, containment and comparison,
    the age of an intersection, and the compressed form. *)
From Stdlib Require Import ZArith Lia QArith.
From stdpp Require Import prelude.
From S2P Require Import Prelude Dhkey Rng BloomBase BloomNeuropil.

Local Open Scope Z_scope.

(** ** The bitset as cells *)

Abbreviation cell := (Z * Z)%type (only parsing).

Fixpoint uncells (cs : list cell) : list Z :=
  match cs with [] => [] | (a, c) :: cs' => a :: c :: uncells cs' end.

Lemma uncells_app cs1 cs2 : uncells (cs1 ++ cs2) = uncells cs1 ++ uncells cs2.
Proof. induction cs1 as [|[a c] cs1 IH]; simpl; [done|]. by rewrite IH. Qed.

Lemma uncells_length cs : Z.of_nat (length (uncells cs)) = 2 * Z.of_nat (length cs).
Proof. induction cs as [|[a c] cs IH]; simpl; lia. Qed.

Lemma rd_cell_middle pre x post pos :
  pos = 2 * Z.of_nat (length pre) -> rd_cell (uncells (pre ++ x :: post)) pos = Ok x.
Proof.
  intros ->. destruct x as [a c]. unfold rd_cell. rewrite uncells_app. cbn [uncells].
  rewrite (rd_middle _ _ _ (2 * _)) by (by rewrite uncells_length). cbn [mbind result_bind].
  rewrite app_cons_snoc, rd_middle; [done|]. rewrite length_app, Nat2Z.inj_add, uncells_length.
  simpl. lia.
Qed.

Lemma upd_cell_middle pre x post pos f g :
  pos = 2 * Z.of_nat (length pre) ->
  upd_cell (uncells (pre ++ x :: post)) pos f g =
    Ok (uncells (pre ++ (f (fst x), g (snd x)) :: post)).
Proof.
  intros ->. destruct x as [a c]. unfold upd_cell. rewrite !uncells_app. cbn [uncells fst snd].
  rewrite (upd_middle _ _ _ (2 * _)) by (by rewrite uncells_length). cbn [mbind result_bind].
  rewrite app_cons_snoc, upd_middle; [by rewrite <- app_assoc|].
  rewrite length_app, Nat2Z.inj_add, uncells_length. simpl. lia.
Qed.

Lemma rd_cell_uncells cs i x :
  cs !! i = Some x -> rd_cell (uncells cs) (2 * Z.of_nat i) = Ok x.
Proof.
  intros Hi. rewrite <- (take_drop_middle cs i x Hi). apply rd_cell_middle.
  rewrite length_take_le; [done|]. apply lookup_lt_Some in Hi. lia.
Qed.

Lemma upd_cell_uncells cs i f g :
  (i < length cs)%nat ->
  upd_cell (uncells cs) (2 * Z.of_nat i) f g =
    Ok (uncells (alter (fun x => (f (fst x), g (snd x))) i cs)).
Proof.
  intros Hi. destruct (lookup_lt_is_Some_2 cs i Hi) as [x Hx].
  rewrite <- (take_drop_middle cs i x Hx) at 1.
  rewrite upd_cell_middle by (rewrite length_take_le; [done | lia]). do 2 f_equal.
  rewrite <- (take_drop_middle cs i x Hx) at 3.
  rewrite alter_app_r_alt by (rewrite length_take_le; lia).
  rewrite length_take_le by lia. by rewrite Nat.sub_diag.
Qed.

(** A pass over two bitsets is pointwise on the cells. *)
Lemma cells_loop_uncells {S} (g : cell -> cell -> cell) (h : S -> cell -> cell -> S) rs ts s bound :
  length rs = length ts -> bound = 2 * Z.of_nat (length rs) -> bound <= 65534 ->
  cells_loop bound g h (uncells rs) (uncells ts) s =
    Ok (uncells (zip_with g rs ts), foldl (fun s '(r, t) => h s r t) s (zip rs ts)).
Proof.
  intros Hl -> Hb. unfold cells_loop, for_step2. rewrite decide_True by done.
  replace (Z.to_nat ((2 * Z.of_nat (length rs) + 1) / 2)) with (length rs) by divlia.
  enough (forall pre tpre, length pre = length tpre ->
    for_range (length pre) (length rs) (fun j '(bs, s) =>
      r ← rd_cell bs (2 * Z.of_nat j);
      t ← rd_cell (uncells (tpre ++ ts)) (2 * Z.of_nat j);
      bs ← upd_cell bs (2 * Z.of_nat j) (fun _ => fst (g r t)) (fun _ => snd (g r t));
      Ok (bs, h s r t)) (uncells (pre ++ rs), s) =
    Ok (uncells (pre ++ zip_with g rs ts), foldl (fun s '(r, t) => h s r t) s (zip rs ts)))
    as H by apply (H [] [] eq_refl).
  clear Hb. revert ts s Hl. induction rs as [|r rs IH]; intros [|t ts] s Hl pre tpre Hp;
    try discriminate; [done|].
  simpl. rewrite (rd_cell_middle pre) by done. simpl.
  rewrite (rd_cell_middle tpre) by (by rewrite Hp). simpl.
  rewrite upd_cell_middle by done. simpl. rewrite <- surjective_pairing.
  rewrite (app_cons_snoc pre (g r t) rs), (app_cons_snoc tpre t ts).
  replace (Datatypes.S (length pre)) with (length (pre ++ [g r t]))
    by (rewrite length_app; simpl; lia).
  rewrite IH by (rewrite ?length_app; simpl in *; lia). by rewrite <- app_cons_snoc.
Qed.

(** ** Well-formed filters *)

Definition is_cell (x : cell) : Prop := in_u 8 (fst x) /\ in_u 8 (snd x).
#[export] Instance is_cell_dec x : Decision (is_cell x).
Proof. unfold is_cell. apply _. Defined.

(** The filter with cells [cs]. *)
Definition mk (rng : np_local_pcg_state_32) (cs : list cell) (free : Z) : np_bloom_t :=
  Bloom neuropil_bf SCALE3D 16 0 rng (uncells cs) 4 free.

Definition NCELLS : nat := 1020.

Definition cells_wf (cs : list cell) : Prop := length cs = NCELLS /\ Forall is_cell cs.

Definition neuropil_wf (b : np_bloom_t) : Prop :=
  exists rng cs free, b = mk rng cs free /\ cells_wf cs /\ 0 <= free <= 64.

(** The cell of each word: two per block. *)
Definition cell_index (id : np_dhkey_t) (k : nat) : nat :=
  ((k / 2) * 255 + (Z.to_nat (_bit_array_pos (word id k)) - 1))%nat.
Definition np_cells (id : np_dhkey_t) : list nat := map (cell_index id) (seq 0 8).

Lemma bit_array_pos_range t : 1 <= _bit_array_pos t <= 255.
Proof.
  unfold _bit_array_pos, SCALE3D_X, SCALE3D_Y, SCALE3D_Z.
  pose proof (Z.mod_pos_bound t 3 ltac:(lia)). pose proof (Z.mod_pos_bound t 5 ltac:(lia)).
  pose proof (Z.mod_pos_bound t 17 ltac:(lia)).
  assert (1 <= (t mod 3 + 1) * (t mod 5 + 1) <= 15) by nia.
  rewrite u32_id; [nia|]. unfold in_u. nia.
Qed.

Lemma cell_index_lt id k : (k < 8)%nat -> (cell_index id k < NCELLS)%nat.
Proof.
  intros Hk. unfold cell_index, NCELLS. pose proof (bit_array_pos_range (word id k)).
  assert (k / 2 < 4)%nat by (apply Nat.Div0.div_lt_upper_bound; lia). lia.
Qed.

Lemma np_cells_lt id : Forall (fun i => (i < NCELLS)%nat) (np_cells id).
Proof.
  apply Forall_map, Forall_forall. intros k Hk. apply elem_of_seq in Hk.
  apply cell_index_lt. lia.
Qed.

(** One word: its cell, and the next block after every second word. *)
Lemma for_cells_step_mk {S} rng cs free id (body : Z -> S -> result S) k s :
  (k < 8)%nat ->
  for_cells_step (mk rng cs free) id body k (s, 1 + Z.of_nat (k / 2)) =
    (s ← body (2 * Z.of_nat (cell_index id k)) s; Ok (s, 1 + Z.of_nat (Datatypes.S k / 2))).
Proof.
  intros Hk. assert (k / 2 < 4)%nat by (apply Nat.Div0.div_lt_upper_bound; lia).
  pose proof (bit_array_pos_range (word id k)).
  unfold for_cells_step. change (block_size (mk rng cs free)) with 510.
  assert (u32 ((1 + Z.of_nat (k / 2) - 1) * 510 + (_bit_array_pos (word id k) - 1) * 2) =
          2 * Z.of_nat (cell_index id k)) as ->.
  { rewrite u32_id by (unfold in_u; lia). unfold cell_index. lia. }
  destruct (body _ s); cbn [mbind result_bind]; [|done]. do 2 f_equal.
  rewrite u8_id by (unfold in_u; lia). rewrite !Nat2Z.inj_div, Nat2Z.inj_succ.
  destruct (Z.eqb_spec ((Z.of_nat k + 1) mod 2) 0); divlia.
Qed.

(** The loop over the words visits the cells of the identifier. *)
Lemma for_cells_mk {S} rng cs free id (body : Z -> S -> result S) s :
  for_cells (mk rng cs free) id body s =
    foldM (fun i => body (2 * Z.of_nat i)) (np_cells id) s.
Proof.
  unfold for_cells.
  enough (forall n from s, (from + n <= 8)%nat ->
    for_range from n (for_cells_step (mk rng cs free) id body) (s, 1 + Z.of_nat (from / 2)) =
    (fun s => (s, 1 + Z.of_nat ((from + n) / 2))) <$>
      foldM (fun i => body (2 * Z.of_nat i)) (map (cell_index id) (seq from n)) s) as H.
  { change 1 with (1 + Z.of_nat (0 / 2)). rewrite H by lia. unfold np_cells.
    by destruct (foldM _ _ s). }
  intros n. induction n as [|n IH]; intros from s' Hn; cbn [for_range seq map foldM].
  - by rewrite Nat.add_0_r.
  - rewrite for_cells_step_mk by lia.
    destruct (body _ s'); cbn [mbind result_bind fmap result_fmap]; [|done].
    rewrite IH by lia. by rewrite Nat.add_succ_r.
Qed.

(** ** The single-filter operations on cells *)

Definition add_cell (x : cell) : cell := (u8 (Z.lor (fst x) 128), u8 (snd x + 1)).
Definition remove_cell (x : cell) : cell := (fst x ≫ 1, u8 (snd x - 1)).
Definition visible (x : cell) : bool := negb ((fst x =? 0) || (snd x =? 0)).

Definition alter_cells (f : cell -> cell) (cs : list cell) (ixs : list nat) : list cell :=
  foldl (fun cs i => alter f i cs) cs ixs.

Lemma alter_cells_length f cs ixs : length (alter_cells f cs ixs) = length cs.
Proof.
  unfold alter_cells. revert cs. induction ixs as [|i ixs IH]; intros cs; simpl; [done|].
  by rewrite IH, length_alter.
Qed.

Lemma foldM_upd_cell f g cs ixs :
  Forall (fun i => (i < length cs)%nat) ixs ->
  foldM (fun i bs => upd_cell bs (2 * Z.of_nat i) f g) ixs (uncells cs) =
    Ok (uncells (alter_cells (fun x => (f (fst x), g (snd x))) cs ixs)).
Proof.
  unfold alter_cells. intros H. revert cs H.
  induction ixs as [|i ixs IH]; intros cs H; cbn [foldM foldl]; [done|].
  apply Forall_cons in H as [Hi H]. rewrite upd_cell_uncells by done. cbn [mbind result_bind].
  apply IH. by rewrite length_alter.
Qed.

Lemma neuropil_add_mk rng cs free id :
  length cs = NCELLS -> 0 < free <= 64 ->
  _np_neuropil_bloom_add (mk rng cs free) id =
    Ok (mk rng (alter_cells add_cell cs (np_cells id)) (free - 1)).
Proof.
  intros Hl Hf. unfold _np_neuropil_bloom_add.
  change (_free_items (mk rng cs free)) with free. rewrite (proj2 (Z.eqb_neq _ 0)) by lia.
  change (shift_ok 31 _) with (Ok tt). cbn [mbind result_bind].
  rewrite for_cells_mk. change (_bitset (mk rng cs free)) with (uncells cs).
  rewrite foldM_upd_cell by (rewrite Hl; apply np_cells_lt). simpl.
  rewrite u16_id by (unfold in_u; lia). done.
Qed.

Lemma neuropil_remove_mk rng cs free id :
  length cs = NCELLS -> 0 < free <= 64 ->
  _np_neuropil_bloom_remove (mk rng cs free) id =
    Ok (mk rng (alter_cells remove_cell cs (np_cells id)) (free + 1)).
Proof.
  intros Hl Hf. unfold _np_neuropil_bloom_remove.
  change (_free_items (mk rng cs free)) with free. rewrite (proj2 (Z.eqb_neq _ 0)) by lia.
  rewrite for_cells_mk. change (_bitset (mk rng cs free)) with (uncells cs).
  rewrite foldM_upd_cell by (rewrite Hl; apply np_cells_lt). simpl.
  rewrite u16_id by (unfold in_u; lia). done.
Qed.

(** The cell at index [i] (cells beyond the end read as empty). *)
Definition cell_at (cs : list cell) (i : nat) : cell := default (0, 0) (cs !! i).

Lemma rd_cell_at cs i :
  (i < length cs)%nat -> rd_cell (uncells cs) (2 * Z.of_nat i) = Ok (cell_at cs i).
Proof.
  intros Hi. destruct (lookup_lt_is_Some_2 cs i Hi) as [x Hx].
  rewrite (rd_cell_uncells _ _ x) by done. unfold cell_at. by rewrite Hx.
Qed.

Lemma neuropil_check_mk rng cs free id :
  length cs = NCELLS ->
  _np_neuropil_bloom_check (mk rng cs free) id =
    Ok (forallb (fun i => visible (cell_at cs i)) (np_cells id)).
Proof.
  intros Hl. unfold _np_neuropil_bloom_check. rewrite for_cells_mk.
  change (_bitset (mk rng cs free)) with (uncells cs).
  pose proof (np_cells_lt id) as Hlt. rewrite Forall_forall in Hlt.
  apply (foldM_all (fun i => visible (cell_at cs i)) _ _ true);
    intros i Hi; rewrite rd_cell_at by (rewrite Hl; auto); cbn [mbind result_bind];
    destruct (cell_at cs i) as [a c]; unfold visible; simpl; by case_match.
Qed.

(** ** Hits *)

(** How often the words of an identifier hit cell [j]. *)
Definition nhits (id : np_dhkey_t) (j : nat) : nat := count_occ Nat.eq_dec (np_cells id) j.

Lemma count_occ_map_le (f : nat -> nat) (l : list nat) j :
  (count_occ Nat.eq_dec l j <= count_occ Nat.eq_dec (map f l) (f j))%nat.
Proof.
  induction l as [|x l IH]; simpl; [lia|].
  destruct (Nat.eq_dec x j) as [->|]; destruct (Nat.eq_dec _ _); (done || lia).
Qed.

Lemma cell_index_block id k : (k < 8)%nat -> (cell_index id k / 255 = k / 2)%nat.
Proof.
  intros Hk. unfold cell_index. pose proof (bit_array_pos_range (word id k)).
  rewrite Nat.div_add_l by lia. rewrite (Nat.div_small (_ - 1)) by lia. by rewrite Nat.add_0_r.
Qed.

(** Two words per block: no cell is hit more than twice. *)
Lemma nhits_le id j : (nhits id j <= 2)%nat.
Proof.
  unfold nhits. pose proof (count_occ_map_le (fun i => i / 255)%nat (np_cells id) j) as H.
  assert (map (fun i => i / 255)%nat (np_cells id) = [0; 0; 1; 1; 2; 2; 3; 3]%nat) as E.
  { unfold np_cells. rewrite map_map.
    transitivity (map (fun k => k / 2)%nat (seq 0 8)); [|reflexivity].
    apply map_ext_in. intros k Hk. apply in_seq in Hk. apply cell_index_block. lia. }
  rewrite E in H. etransitivity; [exact H|]. generalize (j / 255)%nat as q. intros q.
  destruct q as [|[|[|[|q]]]]; cbn; lia.
Qed.

Lemma nhits_pos id j : (0 < nhits id j)%nat <-> j ∈ np_cells id.
Proof. unfold nhits. rewrite list_elem_of_In. symmetry. apply (count_occ_In Nat.eq_dec). Qed.

#[global] Opaque np_cells.

Lemma alter_cells_lookup f cs ixs j :
  alter_cells f cs ixs !! j = Nat.iter (count_occ Nat.eq_dec ixs j) f <$> cs !! j.
Proof.
  unfold alter_cells. revert cs. induction ixs as [|i ixs IH]; intros cs; simpl.
  - by destruct (cs !! j).
  - rewrite IH. destruct (Nat.eq_dec i j) as [->|Hne].
    + rewrite list_lookup_alter_eq. destruct (cs !! j); simpl; [|done].
      f_equal. by rewrite <- Nat.iter_succ_r.
    + by rewrite list_lookup_alter_ne.
Qed.

Lemma add_cell_iter n a c :
  in_u 8 a -> in_u 8 c ->
  Nat.iter n add_cell (a, c) =
    (if decide (n = 0%nat) then a else Z.lor a 128, u8 (c + Z.of_nat n)).
Proof.
  intros Ha Hc. induction n as [|n IH]; [by rewrite Z.add_0_r, u8_id|].
  rewrite Nat.iter_succ, IH. unfold add_cell. cbn [fst snd].
  rewrite (decide_False (P := S n = 0%nat)) by lia. f_equal.
  - rewrite u8_id by (case_decide; auto with machine; by_decide).
    case_decide; [done|]. by rewrite <- Z.lor_assoc.
  - unfold u8. rewrite Zplus_mod_idemp_l. f_equal. lia.
Qed.

(** ** The invariant: counters never overflow

    With [64 - free] items a cell counts at most two per item. *)
Definition counts_ok (cs : list cell) (free : Z) : Prop :=
  Forall (fun x => snd x <= 2 * (64 - free)) cs.

Definition neuropil_inv (b : np_bloom_t) : Prop :=
  exists rng cs free, b = mk rng cs free /\ cells_wf cs /\ 0 <= free <= 64 /\ counts_ok cs free.

Lemma add_cells_lookup cs free id j x :
  0 < free <= 64 -> counts_ok cs free -> Forall is_cell cs -> cs !! j = Some x ->
  alter_cells add_cell cs (np_cells id) !! j =
    Some (if decide (j ∈ np_cells id) then Z.lor (fst x) 128 else fst x,
          snd x + Z.of_nat (nhits id j)).
Proof.
  intros Hf Hc Hcell Hx. rewrite alter_cells_lookup, Hx. fold (nhits id j).
  cbn [fmap option_fmap option_map]. apply f_equal.
  pose proof (Forall_lookup_1 _ _ _ _ Hc Hx) as Hle. pose proof (Forall_lookup_1 _ _ _ _ Hcell Hx) as [Ha Hb].
  destruct x as [a c]. cbn [fst snd] in *. pose proof (nhits_le id j).
  rewrite add_cell_iter by done. rewrite u8_id by (unfold in_u in *; lia). f_equal.
  destruct (decide (j ∈ np_cells id)) as [Hin|Hin]; rewrite <- nhits_pos in Hin;
    case_decide; (done || lia).
Qed.

Lemma add_cells_inv cs free id :
  0 < free <= 64 -> cells_wf cs -> counts_ok cs free ->
  cells_wf (alter_cells add_cell cs (np_cells id)) /\
  counts_ok (alter_cells add_cell cs (np_cells id)) (free - 1).
Proof.
  intros Hf [Hl Hcell] Hc.
  assert (forall y, y ∈ alter_cells add_cell cs (np_cells id) ->
    is_cell y /\ snd y <= 2 * (64 - (free - 1))) as Hall.
  { intros y Hy. apply list_elem_of_lookup in Hy as [j Hj].
    destruct (cs !! j) as [x|] eqn:Ex.
    - rewrite (add_cells_lookup _ free _ _ x) in Hj by done. injection Hj as <-.
      pose proof (Forall_lookup_1 _ _ _ _ Hc Ex). pose proof (Forall_lookup_1 _ _ _ _ Hcell Ex) as [Ha [? ?]].
      pose proof (nhits_le id j). cbn [fst snd] in *. split; [|lia]. split; cbn [fst snd].
      + case_decide; [|done]. apply in_u_lor; [lia | done | by_decide].
      + unfold in_u. lia.
    - rewrite alter_cells_lookup, Ex in Hj. discriminate Hj. }
  split; [split; [by rewrite alter_cells_length|]|]; apply Forall_forall; intros y Hy; by apply Hall.
Qed.

Definition neuropil_ops : np_bloom_optable_s :=
  Optable _np_neuropil_bloom_add _np_neuropil_bloom_check.

Lemma visible_mono cs free id j :
  0 < free <= 64 -> cells_wf cs -> counts_ok cs free ->
  visible (cell_at cs j) = true \/ (j ∈ np_cells id) ->
  visible (cell_at (alter_cells add_cell cs (np_cells id)) j) = true.
Proof.
  intros Hf [Hl Hcell] Hc Hv. unfold cell_at in *.
  destruct (cs !! j) as [x|] eqn:Ex.
  - rewrite (add_cells_lookup _ free _ _ x) by done. cbn [from_option]. unfold visible in *.
    pose proof (Forall_lookup_1 _ _ _ _ Hcell Ex) as [[Ha ?] [? ?]].
    pose proof (nhits_pos id j). cbn [fst snd from_option Datatypes.id] in *.
    assert (0 < Z.lor (fst x) 128) as H128.
    { assert (0 <= Z.lor (fst x) 128) by (apply Z.lor_nonneg; lia).
      destruct (decide (Z.lor (fst x) 128 = 0)) as [E|]; [|lia].
      apply Z.lor_eq_0_iff in E as [_ E]. discriminate E. }
    destruct Hv as [Hv|Hv].
    + apply negb_true_iff, orb_false_iff in Hv as [Hv1 Hv2]. apply Z.eqb_neq in Hv1, Hv2.
      apply negb_true_iff, orb_false_iff. split; apply Z.eqb_neq; [case_decide; lia | lia].
    + rewrite decide_True by done. apply negb_true_iff, orb_false_iff.
      assert (0 < nhits id j)%nat by (by apply nhits_pos). split; apply Z.eqb_neq; lia.
  - destruct Hv as [Hv|Hv]; [discriminate Hv|]. apply lookup_ge_None in Ex.
    pose proof (np_cells_lt id) as Hlt. rewrite Forall_forall in Hlt. specialize (Hlt j Hv). lia.
Qed.

#[export] Instance neuropil_filter : MembershipFilter neuropil_ops.
Proof.
  refine {| filter_wf := neuropil_inv; filter_room := _free_items |}.
  intros b id (rng & cs & free & -> & [Hl Hcell] & Hf & Hc) Hid Hroom. simpl in Hroom.
  assert (0 < free <= 64) as Hf' by lia. simpl add_cb. simpl check_cb.
  rewrite neuropil_add_mk by done.
  destruct (add_cells_inv cs free id Hf' (conj Hl Hcell) Hc) as [Hwf' Hc'].
  eexists. split; [done|]. split; [|split; [done|split]].
  - eexists _, _, _. split; [done|]. split; [done|]. split; [lia | done].
  - rewrite neuropil_check_mk by apply Hwf'. f_equal. apply forallb_elem_of. intros j Hj.
    eapply visible_mono; [done | by split | done | by right].
  - intros x Hx. rewrite !neuropil_check_mk by (done || apply Hwf'). intros [= Hall]. f_equal.
    rewrite forallb_elem_of in Hall |- *. intros j Hj.
    eapply visible_mono; [done | by split | done | left; by apply Hall].
Defined.

(** ** Passes over all cells *)

Lemma cells_loop_mk {S} (g : cell -> cell -> cell) (h : S -> cell -> cell -> S) rs ts s :
  length rs = NCELLS -> length ts = NCELLS ->
  cells_loop 2040 g h (uncells rs) (uncells ts) s =
    Ok (uncells (zip_with g rs ts), foldl (fun s '(r, t) => h s r t) s (zip rs ts)).
Proof. intros Hr Ht. apply cells_loop_uncells; [congruence | by rewrite Hr | done]. Qed.

Lemma zip_with_diag {A B} (f : A -> B) l : zip_with (fun r _ => f r) l l = map f l.
Proof. induction l as [|x l IH]; simpl; [done|]. by rewrite IH. Qed.

Lemma map_cells_mk g cs :
  length cs = NCELLS -> map_cells 2040 g (uncells cs) = Ok (uncells (map g cs)).
Proof.
  intros Hl. unfold map_cells. rewrite cells_loop_mk by done. simpl. by rewrite zip_with_diag.
Qed.

Lemma fold_cells_mk {S} (h : S -> cell -> cell -> S) rs ts s :
  length rs = NCELLS -> length ts = NCELLS ->
  fold_cells 2040 h (uncells rs) (uncells ts) s =
    Ok (foldl (fun s '(r, t) => h s r t) s (zip rs ts)).
Proof. intros. unfold fold_cells. by rewrite cells_loop_mk. Qed.

Lemma neuropil_compatible_mk r1 r2 cs1 cs2 f1 f2 :
  neuropil_compatible (mk r1 cs1 f1) (mk r2 cs2 f2) = Ok tt.
Proof. reflexivity. Qed.

Definition age_dec (x : cell) : cell := (if 8 <? fst x then fst x - 8 else 0, snd x).
Definition age_inc (x : cell) : cell := (if fst x <? 247 then fst x + 8 else 255, snd x).

Lemma neuropil_age_decrement_mk rng cs free :
  length cs = NCELLS ->
  _np_neuropil_bloom_age_decrement (mk rng cs free) = Ok (mk rng (map age_dec cs) free).
Proof.
  intros Hl. unfold _np_neuropil_bloom_age_decrement.
  change (block_size _ * _) with 2040. change (_bitset (mk rng cs free)) with (uncells cs).
  rewrite map_cells_mk by done. cbn [mbind result_bind]. unfold set_bitset, mk. simpl. do 3 f_equal.
  apply map_ext. by intros [a c].
Qed.

Lemma neuropil_age_increment_mk rng cs free :
  cells_wf cs ->
  _np_neuropil_bloom_age_increment (mk rng cs free) = Ok (mk rng (map age_inc cs) free).
Proof.
  intros [Hl Hc]. unfold _np_neuropil_bloom_age_increment.
  change (block_size _ * _) with 2040. change (_bitset (mk rng cs free)) with (uncells cs).
  change (_d (mk rng cs free) ≫ 1) with 8. change (UINT8_MAX - 8) with 247.
  rewrite map_cells_mk by done. cbn [mbind result_bind].
  rewrite (map_ext_in _ age_inc); [done|].
  intros [a c] Hin. apply list_elem_of_In in Hin. rewrite Forall_forall in Hc.
  destruct (Hc _ Hin) as [[? ?] _]. unfold age_inc. cbn [fst snd] in *.
  destruct (Z.ltb_spec a 247); [|done]. by rewrite u8_id by (unfold in_u; lia).
Qed.

Lemma neuropil_clear_mk rng cs free :
  length cs = NCELLS ->
  _np_neuropil_bloom_clear (mk rng cs free) = Ok (mk rng (replicate NCELLS (0, 0)) 64).
Proof.
  intros Hl. unfold _np_neuropil_bloom_clear. change (filter_bytes _) with 2040.
  cbn [_bitset mk]. unfold memset0. pose proof (uncells_length cs) as Hu. rewrite Hl in Hu.
  change (2 * Z.of_nat NCELLS) with 2040 in Hu.
  rewrite decide_True by lia. rewrite (drop_ge (uncells cs)) by lia. reflexivity.
Qed.

Lemma neuropil_union_mk r1 r2 cs1 cs2 f1 f2 :
  length cs1 = NCELLS -> length cs2 = NCELLS -> 0 <= f1 <= 64 -> 0 <= f2 <= 64 ->
  _np_neuropil_bloom_union (mk r1 cs1 f1) (mk r2 cs2 f2) =
    if 64 <=? f1 + f2 then Ok (mk r1 (zip_with union_cell cs1 cs2) (f1 + f2 - 64))
    else Err Assert_failed.
Proof.
  intros H1 H2 Hf1 Hf2. unfold _np_neuropil_bloom_union.
  rewrite neuropil_compatible_mk. cbn [mbind result_bind].
  change (_free_items (mk r1 cs1 f1)) with f1. change (_free_items (mk r2 cs2 f2)) with f2.
  unfold SCALE3D_FREE_ITEMS. destruct (Z.leb_spec 64 (f1 + f2)).
  - rewrite (proj2 (Z.leb_le _ _)) by lia. cbn [mbind result_bind c_assert].
    change (filter_bytes _) with 2040. change (_bitset (mk r1 cs1 f1)) with (uncells cs1).
    change (_bitset (mk r2 cs2 f2)) with (uncells cs2).
    rewrite cells_loop_mk by done. cbn [mbind result_bind].
    rewrite u16_id by (unfold in_u; lia). done.
  - by rewrite (proj2 (Z.leb_gt _ _)) by lia.
Qed.

(** ** Reachable filters *)

(** The filters that creation, addition, clearing, ageing, union and the two
    intersections produce. *)
Inductive neuropil_reach : np_bloom_t -> Prop :=
| reach_create : neuropil_reach _np_neuropil_bloom_create
| reach_add b id b' :
    neuropil_reach b -> _np_neuropil_bloom_add b id = Ok b' -> neuropil_reach b'
| reach_clear b b' :
    neuropil_reach b -> _np_neuropil_bloom_clear b = Ok b' -> neuropil_reach b'
| reach_age_decrement b b' :
    neuropil_reach b -> _np_neuropil_bloom_age_decrement b = Ok b' -> neuropil_reach b'
| reach_age_increment b b' :
    neuropil_reach b -> _np_neuropil_bloom_age_increment b = Ok b' -> neuropil_reach b'
| reach_union b c b' :
    neuropil_reach b -> neuropil_reach c -> _np_neuropil_bloom_union b c = Ok b' ->
    neuropil_reach b'
| reach_intersect b c r b' :
    neuropil_reach b -> neuropil_reach c -> _np_neuropil_bloom_intersect b c = Ok (r, b') ->
    neuropil_reach b'
| reach_intersect_ignore_age b c r b' :
    neuropil_reach b -> neuropil_reach c -> _np_neuropil_bloom_intersect_ignore_age b c = Ok (r, b') ->
    neuropil_reach b'.

(** The filters that also lose an item with [_np_neuropil_bloom_count_decrement], as
    pheromones are refreshed, for identifiers that hit eight different cells. *)
Definition single_hits (id : np_dhkey_t) : Prop := NoDup (np_cells id).

Inductive refreshed_reach : np_bloom_t -> Prop :=
| refreshed_create : refreshed_reach _np_neuropil_bloom_create
| refreshed_add b id b' :
    refreshed_reach b -> single_hits id -> _np_neuropil_bloom_add b id = Ok b' -> refreshed_reach b'
| refreshed_clear b b' : refreshed_reach b -> _np_neuropil_bloom_clear b = Ok b' -> refreshed_reach b'
| refreshed_age_decrement b b' : refreshed_reach b -> _np_neuropil_bloom_age_decrement b = Ok b' -> refreshed_reach b'
| refreshed_age_increment b b' : refreshed_reach b -> _np_neuropil_bloom_age_increment b = Ok b' -> refreshed_reach b'
| refreshed_count_decrement b b' : refreshed_reach b -> _np_neuropil_bloom_count_decrement b = Ok b' -> refreshed_reach b'
| refreshed_union b c b' :
    refreshed_reach b -> refreshed_reach c -> _np_neuropil_bloom_union b c = Ok b' -> refreshed_reach b'
| refreshed_intersect b c r b' :
    refreshed_reach b -> refreshed_reach c -> _np_neuropil_bloom_intersect b c = Ok (r, b') -> refreshed_reach b'
| refreshed_intersect_ignore_age b c r b' :
    refreshed_reach b -> refreshed_reach c -> _np_neuropil_bloom_intersect_ignore_age b c = Ok (r, b') -> refreshed_reach b'.

Lemma create_mk : _np_neuropil_bloom_create = mk rng0 (replicate NCELLS (0, 0)) 64.
Proof. vm_compute. reflexivity. Qed.

(** Every cell counts at most [m] times the number of items. *)
Definition counts_le (m : Z) (cs : list cell) (free : Z) : Prop := Forall (fun x => snd x <= m * (64 - free)) cs.
Definition filter_inv (m : Z) (b : np_bloom_t) : Prop :=
  exists rng cs free, b = mk rng cs free /\ cells_wf cs /\ 0 <= free <= 64 /\ counts_le m cs free.

Lemma counts_le_ok m cs free : m <= 2 -> free <= 64 -> counts_le m cs free -> counts_ok cs free.
Proof. intros Hm Hf Hk. eapply Forall_impl; [exact Hk|]. intros x Hx. cbn beta in Hx. nia. Qed.

Lemma empty_inv m rng : filter_inv m (mk rng (replicate NCELLS (0, 0)) 64).
Proof.
  eexists _, _, _. split; [done|]. split; [|split; [lia|]].
  - split; [done|]. apply Forall_replicate. by_decide.
  - apply Forall_replicate. simpl. lia.
Qed.

Lemma map_inv m rng (f : cell -> cell) cs free free' :
  (forall x, is_cell x -> snd x <= m * (64 - free) -> is_cell (f x) /\ snd (f x) <= m * (64 - free')) ->
  cells_wf cs -> 0 <= free' <= 64 -> counts_le m cs free -> filter_inv m (mk rng (map f cs) free').
Proof.
  intros Hf [Hl Hc] Hfree Hk. eexists _, _, _. split; [done|]. split; [split; [by rewrite length_map|]|split; [done|]].
  - apply Forall_map, Forall_forall. intros x Hx. unfold counts_le in Hk. rewrite Forall_forall in Hc, Hk. apply Hf; auto.
  - apply Forall_map, Forall_forall. intros x Hx. unfold counts_le in Hk. rewrite Forall_forall in Hc, Hk. apply Hf; auto.
Qed.

Lemma age_dec_cell x : is_cell x -> is_cell (age_dec x) /\ snd (age_dec x) = snd x.
Proof.
  intros [[? ?] ?]. split; [|done]. split; [|done]. simpl. unfold in_u.
  destruct (Z.ltb_spec 8 (fst x)); lia.
Qed.

Lemma age_inc_cell x : is_cell x -> is_cell (age_inc x) /\ snd (age_inc x) = snd x.
Proof.
  intros [[? ?] ?]. split; [|done]. split; [|done]. simpl. unfold in_u.
  destruct (Z.ltb_spec (fst x) 247); lia.
Qed.

(** The union of cells whose counts fit. *)
Lemma union_cell_spec x y :
  is_cell x -> is_cell y -> snd x + snd y <= 255 ->
  union_cell x y = (Z.min 255 (fst x + fst y), snd x + snd y).
Proof.
  intros [[? ?] [? ?]] [[? ?] [? ?]] Hs. unfold union_cell.
  rewrite (u16_id (_ + _)) by (unfold in_u; lia). rewrite (u8_id (snd x + _)) by (unfold in_u; lia).
  f_equal. unfold UINT8_MAX. destruct (Z.leb_spec 255 (fst x + fst y)); [lia|].
  rewrite u8_id by (unfold in_u; lia). lia.
Qed.

(** A pass over two filters with at most 64 items together that adds the counts, or less. *)
Lemma zip_inv m r g cs1 cs2 f1 f2 free' :
  (forall x y, is_cell x -> is_cell y -> snd x + snd y <= 255 -> is_cell (g x y) /\ snd (g x y) <= snd x + snd y) ->
  0 <= m <= 2 -> cells_wf cs1 -> cells_wf cs2 -> counts_le m cs1 f1 -> counts_le m cs2 f2 ->
  0 <= f1 <= 64 -> 0 <= f2 <= 64 -> 64 <= f1 + f2 -> 0 <= free' <= f1 + f2 - 64 ->
  filter_inv m (mk r (zip_with g cs1 cs2) free').
Proof.
  intros Hg Hm [Hl1 Hc1] [Hl2 Hc2] Hk1 Hk2 Hf1 Hf2 Hs Hf'. eexists _, _, _. split; [done|].
  assert (forall z, z ∈ zip_with g cs1 cs2 -> is_cell z /\ snd z <= m * (64 - free')) as Hall.
  { intros z Hz. apply list_elem_of_lookup in Hz as [j Hj]. apply lookup_zip_with_Some in Hj as (x & y & -> & Hx & Hy).
    pose proof (Forall_lookup_1 _ _ _ _ Hc1 Hx) as Ix. pose proof (Forall_lookup_1 _ _ _ _ Hc2 Hy) as Iy.
    pose proof (Forall_lookup_1 _ _ _ _ Hk1 Hx). pose proof (Forall_lookup_1 _ _ _ _ Hk2 Hy). cbv beta in *.
    assert (m * (64 - f1) + m * (64 - f2) = m * (128 - f1 - f2)) as Em by lia.
    assert (m * (128 - f1 - f2) <= m * (64 - free')) as Em' by nia. assert (m * (128 - f1 - f2) <= 2 * 64) by nia.
    destruct (Hg x y Ix Iy ltac:(lia)) as [Hc Hle]. split; [done|lia]. }
  split; [split|split; [lia|]].
  - rewrite length_zip_with. lia.
  - apply Forall_forall. intros z Hz. by apply Hall.
  - apply Forall_forall. intros z Hz. by apply Hall.
Qed.

Lemma union_cell_le x y : is_cell x -> is_cell y -> snd x + snd y <= 255 -> is_cell (union_cell x y) /\ snd (union_cell x y) <= snd x + snd y.
Proof.
  intros Ix Iy Hs. rewrite union_cell_spec by done. destruct Ix as [[? ?] [? ?]], Iy as [[? ?] [? ?]].
  split; [|cbn; lia]. split; cbn [fst snd]; unfold in_u; lia.
Qed.

(** Cells of the two intersections. *)
Definition meet_cell (x y : cell) : cell :=
  let a := if fst y <? fst x then fst y else fst x in (a, if 0 <? a then u8 (snd x + snd y) else snd x).
Definition both_cell (x y : cell) : cell := (fst x, if (0 <? snd x) && (0 <? snd y) then u8 (snd x + snd y) else 0).

Lemma meet_cell_le x y : is_cell x -> is_cell y -> snd x + snd y <= 255 -> is_cell (meet_cell x y) /\ snd (meet_cell x y) <= snd x + snd y.
Proof.
  intros [[? ?] [? ?]] [[? ?] [? ?]] Hs. unfold meet_cell. cbv zeta. rewrite (u8_id (snd x + _)) by (unfold in_u; lia).
  split; [split|]; cbn [fst snd]; unfold in_u; repeat case_match; lia.
Qed.
Lemma both_cell_le x y : is_cell x -> is_cell y -> snd x + snd y <= 255 -> is_cell (both_cell x y) /\ snd (both_cell x y) <= snd x + snd y.
Proof.
  intros [[? ?] [? ?]] [[? ?] [? ?]] Hs. unfold both_cell. rewrite (u8_id (snd x + _)) by (unfold in_u; lia).
  split; [split|]; cbn [fst snd]; unfold in_u; repeat case_match; lia.
Qed.

Lemma zip_with_ext_cells (f g : cell -> cell -> cell) l k : (forall x y, f x y = g x y) -> zip_with f l k = zip_with g l k.
Proof. intros Hfg. revert k. induction l as [|x l IH]; intros [|y k]; [done..|]. cbn. by rewrite Hfg, IH. Qed.

Lemma intersect_cells_mk r1 r2 cs1 cs2 f1 f2 r b' :
  length cs1 = NCELLS -> length cs2 = NCELLS ->
  (_np_neuropil_bloom_intersect (mk r1 cs1 f1) (mk r2 cs2 f2) = Ok (r, b') ->
     64 <= f1 + f2 /\ b' = mk r1 (zip_with meet_cell cs1 cs2) 0) /\
  (_np_neuropil_bloom_intersect_ignore_age (mk r1 cs1 f1) (mk r2 cs2 f2) = Ok (r, b') ->
     64 <= f1 + f2 /\ b' = mk r1 (zip_with both_cell cs1 cs2) 0).
Proof.
  intros H1 H2. unfold _np_neuropil_bloom_intersect, _np_neuropil_bloom_intersect_ignore_age.
  rewrite neuropil_compatible_mk, !bind_ok. cbn [_free_items mk _bitset]. unfold SCALE3D_FREE_ITEMS.
  change (filter_bytes _) with 2040. rewrite !cells_loop_mk by done. unfold c_assert.
  destruct (Z.leb_spec 64 (f2 + f1)); [|done]. rewrite !bind_ok.
  split; intros [= _ <-]; (split; [lia|]); unfold set_free, set_bitset, mk; cbn [_type _size _d _p _rng _bitset _num_blocks];
    do 2 f_equal; apply zip_with_ext_cells; by intros [? ?] [? ?].
Qed.

Lemma neuropil_add_inv b id b' : neuropil_inv b -> _np_neuropil_bloom_add b id = Ok b' -> neuropil_inv b'.
Proof.
  intros (rng & cs & free & -> & Hwf & Hf & Hk) Hadd.
  destruct (decide (free = 0)) as [->|]; [discriminate Hadd|].
  rewrite neuropil_add_mk in Hadd by (apply Hwf || lia). injection Hadd as <-.
  destruct (add_cells_inv cs free id) as [? ?]; [lia | done | done|].
  eexists _, _, _. split; [done|]. split; [done|]. split; [lia|done].
Qed.

Lemma age_dec_le m free x : is_cell x -> snd x <= m * (64 - free) -> is_cell (age_dec x) /\ snd (age_dec x) <= m * (64 - free).
Proof. intros Hx Hle. destruct (age_dec_cell x Hx) as [? ->]. done. Qed.
Lemma age_inc_le m free x : is_cell x -> snd x <= m * (64 - free) -> is_cell (age_inc x) /\ snd (age_inc x) <= m * (64 - free).
Proof. intros Hx Hle. destruct (age_inc_cell x Hx) as [? ->]. done. Qed.

(** Clearing, ageing, union and intersection keep the bound, whatever the factor. *)
Lemma clear_inv m b b' : filter_inv m b -> _np_neuropil_bloom_clear b = Ok b' -> filter_inv m b'.
Proof.
  intros (rng & cs & free & -> & Hwf & Hf & Hk) Hrun. rewrite neuropil_clear_mk in Hrun by apply Hwf.
  injection Hrun as <-. apply empty_inv.
Qed.
Lemma age_decrement_inv m b b' : filter_inv m b -> _np_neuropil_bloom_age_decrement b = Ok b' -> filter_inv m b'.
Proof.
  intros (rng & cs & free & -> & Hwf & Hf & Hk) Hrun. rewrite neuropil_age_decrement_mk in Hrun by apply Hwf.
  injection Hrun as <-. by apply (map_inv m _ _ _ free); [apply age_dec_le|..].
Qed.
Lemma age_increment_inv m b b' : filter_inv m b -> _np_neuropil_bloom_age_increment b = Ok b' -> filter_inv m b'.
Proof.
  intros (rng & cs & free & -> & Hwf & Hf & Hk) Hrun. rewrite neuropil_age_increment_mk in Hrun by apply Hwf.
  injection Hrun as <-. by apply (map_inv m _ _ _ free); [apply age_inc_le|..].
Qed.
Lemma union_inv m b c b' : 0 <= m <= 2 -> filter_inv m b -> filter_inv m c -> _np_neuropil_bloom_union b c = Ok b' -> filter_inv m b'.
Proof.
  intros Hm (r1 & cs1 & f1 & -> & Hwf1 & Hf1 & Hk1) (r2 & cs2 & f2 & -> & Hwf2 & Hf2 & Hk2) Hrun.
  rewrite neuropil_union_mk in Hrun by (apply Hwf1 || apply Hwf2 || done).
  destruct (Z.leb_spec 64 (f1 + f2)); [|discriminate Hrun]. injection Hrun as <-.
  apply (zip_inv m _ _ _ _ f1 f2); try done; [apply union_cell_le|lia].
Qed.
Lemma union_cells_inv r cs1 cs2 f1 f2 :
  cells_wf cs1 -> cells_wf cs2 -> counts_ok cs1 f1 -> counts_ok cs2 f2 ->
  0 <= f1 <= 64 -> 0 <= f2 <= 64 -> 64 <= f1 + f2 ->
  neuropil_inv (mk r (zip_with union_cell cs1 cs2) (f1 + f2 - 64)).
Proof. intros. apply (zip_inv 2 _ _ _ _ f1 f2); try done; [apply union_cell_le|lia]. Qed.
Lemma intersect_inv m b c r b' : 0 <= m <= 2 -> filter_inv m b -> filter_inv m c ->
  (_np_neuropil_bloom_intersect b c = Ok (r, b') -> filter_inv m b') /\
  (_np_neuropil_bloom_intersect_ignore_age b c = Ok (r, b') -> filter_inv m b').
Proof.
  intros Hm (r1 & cs1 & f1 & -> & Hwf1 & Hf1 & Hk1) (r2 & cs2 & f2 & -> & Hwf2 & Hf2 & Hk2).
  destruct (intersect_cells_mk r1 r2 cs1 cs2 f1 f2 r b') as [H1 H2]; [apply Hwf1|apply Hwf2|].
  split; [intros (Hs & ->)%H1|intros (Hs & ->)%H2]; apply (zip_inv m _ _ _ _ f1 f2); try done; try lia; [apply meet_cell_le|apply both_cell_le].
Qed.

Lemma neuropil_reach_inv b : neuropil_reach b -> neuropil_inv b.
Proof.
  change (neuropil_inv b) with (filter_inv 2 b).
  induction 1 as [|b id b' _ IH Hadd| | | |b c b' _ IHb _ IHc Hrun|b c r b' _ IHb _ IHc Hrun|b c r b' _ IHb _ IHc Hrun].
  - rewrite create_mk. apply empty_inv.
  - by eapply neuropil_add_inv.
  - by eapply clear_inv.
  - by eapply age_decrement_inv.
  - by eapply age_increment_inv.
  - by apply (union_inv 2 b c).
  - by apply (proj1 (intersect_inv 2 b c r b' ltac:(lia) IHb IHc)).
  - by apply (proj2 (intersect_inv 2 b c r b' ltac:(lia) IHb IHc)).
Qed.

(** ** Refreshed filters *)

Definition count_dec (x : cell) : cell := (fst x, if 0 <? snd x then snd x - 1 else snd x).

Lemma neuropil_count_decrement_mk rng cs free : length cs = NCELLS -> 0 <= free <= 64 ->
  _np_neuropil_bloom_count_decrement (mk rng cs free) =
    Ok (if 64 <=? free then mk rng cs free else mk rng (map count_dec cs) (free + 1)).
Proof.
  intros Hl Hf. unfold _np_neuropil_bloom_count_decrement. cbn [_free_items mk]. unfold SCALE3D_FREE_ITEMS.
  destruct (Z.ltb_spec free 64), (Z.leb_spec 64 free); try lia; [|done].
  change (block_size _ * _) with 2040. change (_bitset (mk rng cs free)) with (uncells cs). rewrite map_cells_mk, bind_ok by done.
  unfold set_free, set_bitset, mk. cbn [_type _size _d _p _rng _bitset _num_blocks]. rewrite u16_id by (unfold in_u; lia).
  do 3 f_equal. apply map_ext. by intros [? ?].
Qed.

Lemma single_hits_le id j : single_hits id -> (nhits id j <= 1)%nat.
Proof. intros Hs. unfold nhits. apply NoDup_ListNoDup in Hs. by apply (NoDup_count_occ Nat.eq_dec). Qed.

Lemma add_single_inv b id b' : single_hits id -> filter_inv 1 b -> _np_neuropil_bloom_add b id = Ok b' -> filter_inv 1 b'.
Proof.
  intros Hs (rng & cs & free & -> & Hwf & Hf & Hk) Hadd. pose proof (counts_le_ok 1 cs free ltac:(lia) ltac:(lia) Hk) as Hk2.
  destruct (decide (free = 0)) as [->|]; [discriminate Hadd|].
  rewrite neuropil_add_mk in Hadd by (apply Hwf || lia). injection Hadd as <-.
  destruct (add_cells_inv cs free id) as [Hwf' _]; [lia | done | done|].
  eexists _, _, _. split; [done|]. split; [done|]. split; [lia|]. apply Forall_forall. intros y Hy.
  apply list_elem_of_lookup in Hy as [j Hj]. destruct (cs !! j) as [x|] eqn:Ex; [|rewrite alter_cells_lookup, Ex in Hj; discriminate Hj].
  rewrite (add_cells_lookup _ free _ _ x) in Hj by (done || lia || apply Hwf). injection Hj as <-.
  pose proof (Forall_lookup_1 _ _ _ _ Hk Ex). pose proof (single_hits_le id j Hs). cbn [snd] in *. lia.
Qed.

Lemma count_decrement_inv b b' : filter_inv 1 b -> _np_neuropil_bloom_count_decrement b = Ok b' -> filter_inv 1 b'.
Proof.
  intros (rng & cs & free & -> & Hwf & Hf & Hk) Hrun. rewrite neuropil_count_decrement_mk in Hrun by (apply Hwf || done).
  injection Hrun as <-. destruct (Z.leb_spec 64 free); [by exists rng, cs, free|].
  apply (map_inv 1 _ _ _ free); [|done|lia|done]. intros x [Ha [Hc1 Hc2]] Hle. unfold count_dec, is_cell, in_u in *. cbn [fst snd].
  destruct (Z.ltb_spec 0 (snd x)); lia.
Qed.

Lemma refreshed_reach_inv b : refreshed_reach b -> filter_inv 1 b.
Proof.
  induction 1 as [|b id b' _ IH Hs Hadd| | | | |b c b' _ IHb _ IHc Hrun|b c r b' _ IHb _ IHc Hrun|b c r b' _ IHb _ IHc Hrun].
  - rewrite create_mk. apply empty_inv.
  - by eapply add_single_inv.
  - by eapply clear_inv.
  - by eapply age_decrement_inv.
  - by eapply age_increment_inv.
  - by eapply count_decrement_inv.
  - by apply (union_inv 1 b c).
  - by apply (proj1 (intersect_inv 1 b c r b' ltac:(lia) IHb IHc)).
  - by apply (proj2 (intersect_inv 1 b c r b' ltac:(lia) IHb IHc)).
Qed.
