(* ===== verification/BloomNeuropilThms.v ===== *)
(** * The neuropil Bloom filter: theorems

    What a pheromone table may rely on: counters stay below bounds (and where they
    do not), additions are seen, ageing expires them after sixteen steps, union keeps both sides,
    removal restores the counts, containment is the pointwise order, and the
    compressed form determines the visible cells. *)
From Stdlib Require Import ZArith Lia QArith.
From stdpp Require Import prelude.
From S2P Require Import Prelude Dhkey Rng BloomBase BloomNeuropil BloomNeuropilSpec.

Local Open Scope Z_scope.

Lemma neuropil_full_aborts b id : _free_items b = 0 -> _np_neuropil_bloom_add b id = Err Aborted.
Proof. intros H. unfold _np_neuropil_bloom_add. by rewrite H. Qed.

(** ** Refreshing *)

(** What [_np_pheromone_inhale] does to the filter of a trail for a peer it knows: one
    count less everywhere, and the filter heard is united with it. *)
Definition refresh_filter (b scent : np_bloom_t) : result np_bloom_t :=
  b ← _np_neuropil_bloom_count_decrement b; _np_neuropil_bloom_union b scent.
Fixpoint refresh_times (n : nat) (b scent : np_bloom_t) : result np_bloom_t :=
  match n with O => Ok b | S n => b ← refresh_times n b scent; refresh_filter b scent end.

Lemma refresh_times_S n b scent : refresh_times (S n) b scent = (b ← refresh_times n b scent; refresh_filter b scent).
Proof. done. Qed.

(** The filter of one identifier. *)
Definition cells_of (id : np_dhkey_t) : list cell := alter_cells add_cell (replicate NCELLS (0, 0)) (np_cells id).

Lemma cells_of_wf id : cells_wf (cells_of id) /\ _np_neuropil_bloom_add _np_neuropil_bloom_create id = Ok (mk rng0 (cells_of id) 63).
Proof.
  assert (cells_wf (replicate NCELLS (0, 0))) as Hwf by (split; [done|]; apply Forall_replicate; by_decide).
  split; [apply (add_cells_inv _ 64); [lia|done|apply Forall_replicate; simpl; lia]|].
  rewrite create_mk. apply neuropil_add_mk; [done|lia].
Qed.

Lemma cells_of_count id j : (j < NCELLS)%nat -> snd (cell_at (cells_of id) j) = Z.of_nat (nhits id j).
Proof.
  intros Hj. unfold cell_at, cells_of. rewrite (add_cells_lookup _ 64 _ _ (0, 0)); [done|lia| | |].
  - apply Forall_replicate. simpl. lia.
  - apply Forall_replicate. by_decide.
  - by apply lookup_replicate_2.
Qed.

Lemma refresh_cells rng cs id : cells_wf cs ->
  exists cs', refresh_filter (mk rng cs 63) (mk rng0 (cells_of id) 63) = Ok (mk rng cs' 63) /\ cells_wf cs' /\
    forall j, (j < NCELLS)%nat -> snd (cell_at cs' j) = u8 (snd (count_dec (cell_at cs j)) + Z.of_nat (nhits id j)).
Proof.
  intros [Hl Hc]. destruct (cells_of_wf id) as [[Li Ci] _]. unfold refresh_filter.
  rewrite neuropil_count_decrement_mk, bind_ok by (done || lia). change (64 <=? 63) with false. cbv iota.
  rewrite neuropil_union_mk by (rewrite ?length_map; done || lia). change (64 <=? 63 + 1 + 63) with true. cbv iota.
  eexists. split; [reflexivity|]. split.
  - split; [rewrite length_zip_with, length_map; lia|]. apply Forall_forall. intros z Hz.
    apply list_elem_of_lookup in Hz as [j Hj]. apply lookup_zip_with_Some in Hj as (x & y & -> & Hx & Hy).
    unfold union_cell, is_cell. cbn [fst snd]. split; [|apply u8_range].
    destruct (UINT8_MAX <=? _); [by_decide|apply u8_range].
  - intros j Hj. destruct (lookup_lt_is_Some_2 cs j) as [x Hx]; [lia|]. destruct (lookup_lt_is_Some_2 (cells_of id) j) as [y Hy]; [lia|].
    rewrite <-(cells_of_count id j Hj). unfold cell_at. rewrite lookup_zip_with, Hy.
    rewrite (list_lookup_fmap count_dec cs j : map count_dec cs !! j = count_dec <$> cs !! j), Hx. done.
Qed.

Lemma hit_in_range id j : (0 < nhits id j)%nat -> (j < NCELLS)%nat.
Proof. intros Hj%nhits_pos. pose proof (np_cells_lt id) as Hl. rewrite Forall_forall in Hl. by apply Hl. Qed.

Lemma refresh_counts id j n : nhits id j = 2%nat -> (n <= 253)%nat ->
  exists cs, refresh_times n (mk rng0 (cells_of id) 63) (mk rng0 (cells_of id) 63) = Ok (mk rng0 cs 63) /\ cells_wf cs /\
    snd (cell_at cs j) = 2 + Z.of_nat n.
Proof.
  intros Hj. pose proof (hit_in_range id j ltac:(lia)) as Hr. induction n as [|n IH]; intros Hn; cbn [refresh_times].
  - exists (cells_of id). split; [done|]. split; [apply cells_of_wf|]. rewrite cells_of_count by done. lia.
  - destruct IH as (cs & -> & Hwf & Hc); [lia|]. rewrite bind_ok. destruct (refresh_cells rng0 cs id Hwf) as (cs' & -> & Hwf' & Hc').
    exists cs'. split; [done|]. split; [done|]. rewrite (Hc' j Hr), Hj. unfold count_dec. cbn [snd]. rewrite Hc.
    destruct (Z.ltb_spec 0 (2 + Z.of_nat n)); [|lia]. rewrite u8_id by (unfold in_u; lia). lia.
Qed.

Lemma refresh_wraps id j : nhits id j = 2%nat ->
  exists cs, refresh_times 254 (mk rng0 (cells_of id) 63) (mk rng0 (cells_of id) 63) = Ok (mk rng0 cs 63) /\
    _np_neuropil_bloom_check (mk rng0 cs 63) id = Ok false.
Proof.
  intros Hj. pose proof (hit_in_range id j ltac:(lia)) as Hr. destruct (refresh_counts id j 253 Hj ltac:(lia)) as (cs & E & Hwf & Hc).
  rewrite (refresh_times_S 253), E, bind_ok. destruct (refresh_cells rng0 cs id Hwf) as (cs' & -> & Hwf' & Hc').
  exists cs'. split; [done|]. rewrite neuropil_check_mk by apply Hwf'. f_equal.
  destruct (forallb _ (np_cells id)) eqn:Ef; [|done]. rewrite forallb_elem_of in Ef.
  specialize (Ef j (proj1 (nhits_pos id j) ltac:(lia))). specialize (Hc' j Hr). rewrite Hj in Hc'. unfold count_dec in Hc'. rewrite Hc in Hc'.
  change (snd (cell_at cs' j) = 0) in Hc'. unfold visible in Ef. destruct (cell_at cs' j) as [a c]. cbn [snd] in Hc'. subst c.
  by rewrite orb_true_r in Ef.
Qed.

(** A filter whose cells count at most [m] times its items: checks never fault, and an
    addition succeeds exactly when the item counter is not zero. *)
Definition bounded_by (m : Z) (b : np_bloom_t) : Prop :=
  (exists rng cs, b = mk rng cs (_free_items b) /\ length cs = NCELLS /\ 0 <= _free_items b <= 64 /\
     Forall (fun x => in_u 8 (fst x) /\ 0 <= snd x <= m * (64 - _free_items b)) cs) /\
  forall id, (exists r, _np_neuropil_bloom_check b id = Ok r) /\
    (_free_items b = 0 -> _np_neuropil_bloom_add b id = Err Aborted) /\
    (_free_items b <> 0 -> exists b', _np_neuropil_bloom_add b id = Ok b').

Lemma filter_bounded m b : filter_inv m b -> bounded_by m b.
Proof.
  intros (rng & cs & free & -> & [Hl Hc] & Hf & Hk). split.
  - exists rng, cs. do 3 (split; [done|]). apply Forall_forall. intros x Hx.
    unfold counts_le in Hk. rewrite Forall_forall in Hc, Hk. destruct (Hc x Hx) as [? [? ?]].
    split; [done|]. split; [done|]. by apply Hk.
  - intros id. cbn [_free_items mk]. split; [|split].
    + rewrite neuropil_check_mk by done. by eexists.
    + intros ->. by apply neuropil_full_aborts.
    + intros Hne. rewrite neuropil_add_mk by (done || lia). by eexists.
Qed.

(** C23: Bounds of the counters of a neuropil filter, a byte each.  In every filter that
    creation, addition, clearing, ageing, union and intersection produce a cell counts at
    most twice the number of items, so at most 128; in every filter that these and
    _np_neuropil_bloom_count_decrement, with which trails are refreshed, produce from
    identifiers that hit eight different cells, it counts at most the number of items, so
    at most 64.  Then checks never fault, and an addition succeeds exactly when the item
    counter is not zero.  For an identifier that hits a cell twice the second bound fails:
    every refreshing adds one to the count of that cell, and after 254 it is zero, so that
    the filter denies the identifier it holds.  Removal of identifiers that are not in the
    filter and filters read from bytes are not covered. *)
Theorem neuropil_counters_bounded b :
  (neuropil_reach b -> bounded_by 2 b) /\
  (refreshed_reach b -> bounded_by 1 b) /\
  (forall id j, _np_neuropil_bloom_add _np_neuropil_bloom_create id = Ok b -> nhits id j = 2%nat ->
     (forall n, (n <= 253)%nat -> exists cs, refresh_times n b b = Ok (mk rng0 cs 63) /\ snd (cell_at cs j) = 2 + Z.of_nat n) /\
     exists b', refresh_times 254 b b = Ok b' /\ _np_neuropil_bloom_check b' id = Ok false).
Proof.
  split; [intros Hr; by apply filter_bounded, neuropil_reach_inv|].
  split; [intros Hr; by apply filter_bounded, refreshed_reach_inv|].
  intros id j Hadd Hj. rewrite (proj2 (cells_of_wf id)) in Hadd. injection Hadd as <-. split.
  - intros n Hn. destruct (refresh_counts id j n Hj Hn) as (cs & E & _ & Hc). by exists cs.
  - destruct (refresh_wraps id j Hj) as (cs & E & Hc). by eexists.
Qed.

(** An identifier that hits eight different cells, and one that hits a cell twice. *)
Definition spread_key : np_dhkey_t := Dhkey [1; 2; 1; 2; 1; 2; 1; 2].

Lemma neuropil_counters_bounded_witness :
  (exists b, _np_neuropil_bloom_add _np_neuropil_bloom_create spread_key = Ok b /\ bounded_by 1 b) /\
  (exists b b', _np_neuropil_bloom_add _np_neuropil_bloom_create dhkey_zero = Ok b /\ refresh_times 254 b b = Ok b' /\
     _np_neuropil_bloom_check b' dhkey_zero = Ok false).
Proof.
  split.
  - eexists. split; [apply cells_of_wf|].
    apply (proj1 (proj2 (neuropil_counters_bounded (mk rng0 (cells_of spread_key) 63)))).
    apply (refreshed_add _np_neuropil_bloom_create spread_key); [apply refreshed_create| |apply cells_of_wf].
    apply (bool_decide_unpack _). vm_compute. exact I.
  - exists (mk rng0 (cells_of dhkey_zero) 63).
    destruct (proj2 (proj2 (neuropil_counters_bounded (mk rng0 (cells_of dhkey_zero) 63))) dhkey_zero 0%nat) as [_ (b' & E & Hc)].
    + apply cells_of_wf.
    + vm_compute. reflexivity.
    + exists b'. split; [apply cells_of_wf|]. split; [exact E|exact Hc].
Defined.

(** ** The exact contents after a list of additions *)

Definition total_hits (ids : list np_dhkey_t) (j : nat) : Z :=
  zsum (map (fun id => Z.of_nat (nhits id j)) ids).
Definition hit_by (ids : list np_dhkey_t) (j : nat) : bool :=
  existsb (fun id => bool_decide (j ∈ np_cells id)) ids.

(** After adding [ids] and ageing so that marked cells have age [a]. *)
Definition holds (cs : list cell) (ids : list np_dhkey_t) (a : Z) : Prop :=
  length cs = NCELLS /\
  forall j, (j < NCELLS)%nat ->
    cs !! j = Some (if hit_by ids j then a else 0, total_hits ids j).

Lemma total_hits_nonneg ids j : 0 <= total_hits ids j.
Proof. unfold total_hits, zsum. induction ids as [|id ids IH]; simpl; lia. Qed.

Lemma hit_by_total ids j : hit_by ids j = true <-> 0 < total_hits ids j.
Proof.
  unfold hit_by. induction ids as [|id ids IH]; [simpl; by vm_compute|].
  pose proof (total_hits_nonneg ids j). pose proof (nhits_pos id j).
  unfold total_hits, zsum in *. cbn [existsb map foldr].
  rewrite orb_true_iff, bool_decide_eq_true, IH. rewrite <- H0. lia.
Qed.

Lemma holds_add cs ids free id :
  holds cs ids 128 -> 0 < free <= 64 -> cells_wf cs -> counts_ok cs free ->
  holds (alter_cells add_cell cs (np_cells id)) (id :: ids) 128.
Proof.
  intros [Hl Hh] Hf [_ Hc] Hk. split; [by rewrite alter_cells_length|]. intros j Hj.
  rewrite (add_cells_lookup cs free id j _ Hf Hk Hc (Hh j Hj)). cbn [fst snd]. f_equal.
  unfold hit_by, total_hits, zsum. cbn [existsb map foldr]. f_equal; [|lia].
  case_decide as E; [rewrite (bool_decide_true _ E)|rewrite (bool_decide_false _ E)]; simpl; [|done].
  by case_match.
Qed.

Lemma neuropil_add_all_ok ids rng cs free ids0 :
  holds cs ids0 128 -> cells_wf cs -> 0 <= free <= 64 -> counts_ok cs free ->
  Z.of_nat (length ids) <= free ->
  exists cs', filter_add_all neuropil_ops ids (mk rng cs free) =
      Ok (mk rng cs' (free - Z.of_nat (length ids))) /\
    holds cs' (rev ids ++ ids0) 128 /\ cells_wf cs' /\
    counts_ok cs' (free - Z.of_nat (length ids)).
Proof.
  unfold filter_add_all. revert cs free ids0.
  induction ids as [|id ids IH]; intros cs free ids0 Hh Hwf Hf Hk Hlen; cbn [foldM length] in *.
  - exists cs. rewrite Z.sub_0_r. done.
  - assert (0 < free <= 64) as Hf' by lia. simpl add_cb.
    rewrite neuropil_add_mk by (done || apply Hwf). cbn [mbind result_bind].
    destruct (add_cells_inv cs free id Hf' Hwf Hk) as [Hwf' Hk'].
    destruct (IH _ (free - 1) (id :: ids0) (holds_add cs ids0 free id Hh Hf' Hwf Hk) Hwf')
      as (cs' & Hrun & Hh' & Hwf'' & Hk''); [lia | done | lia |].
    exists cs'. replace (free - Z.of_nat (S (length ids))) with (free - 1 - Z.of_nat (length ids)) by lia.
    split; [done|]. split; [|done]. cbn [rev]; by rewrite <- app_assoc.
Qed.

Lemma holds_empty : holds (replicate NCELLS (0, 0)) [] 128.
Proof. split; [done|]. intros j Hj. by rewrite lookup_replicate_2. Qed.

(** The filter built from [ids]. *)
Lemma neuropil_build_ok ids :
  (length ids <= 64)%nat ->
  exists cs, filter_add_all neuropil_ops ids _np_neuropil_bloom_create =
      Ok (mk rng0 cs (64 - Z.of_nat (length ids))) /\
    holds cs (rev ids) 128 /\ cells_wf cs /\ counts_ok cs (64 - Z.of_nat (length ids)).
Proof.
  intros Hlen. rewrite create_mk.
  destruct (neuropil_add_all_ok ids rng0 (replicate NCELLS (0, 0)) 64 [] holds_empty)
    as (cs' & Hrun & Hh & Hwf' & Hk'); [| lia | | lia |].
  - split; [done|]. apply Forall_replicate. by_decide.
  - apply Forall_replicate. simpl. lia.
  - rewrite app_nil_r in Hh. by exists cs'.
Qed.

(** [x] is covered by [ids]: each of its cells is a cell of some added id. *)
Definition covered (ids : list np_dhkey_t) (x : np_dhkey_t) : bool :=
  forallb (hit_by ids) (np_cells x).

Lemma hit_by_rev ids j : hit_by (rev ids) j = hit_by ids j.
Proof.
  apply eq_bool_prop_intro. unfold hit_by. rewrite !Is_true_true, !existsb_exists.
  split; intros (id & Hin & H); exists id; (split; [|done]); [by apply in_rev | by apply in_rev in Hin].
Qed.

(** One ageing step on the exact contents. *)
Lemma holds_age_dec cs ids a :
  0 <= a -> holds cs ids a -> holds (map age_dec cs) ids (Z.max 0 (a - 8)).
Proof.
  intros Ha [Hl Hh]. split; [by rewrite length_map|]. intros j Hj.
  rewrite list_lookup_fmap, (Hh j Hj). simpl. unfold age_dec. cbn [fst snd].
  destruct (hit_by ids j); [|done].
  destruct (Z.ltb_spec 8 a); do 2 f_equal; lia.
Qed.

Fixpoint age_n (n : nat) (b : np_bloom_t) : result np_bloom_t :=
  match n with O => Ok b | S n' => b' ← _np_neuropil_bloom_age_decrement b; age_n n' b' end.

Lemma age_n_mk n rng cs free ids a :
  0 <= a -> holds cs ids a ->
  exists cs', age_n n (mk rng cs free) = Ok (mk rng cs' free) /\
    holds cs' ids (Z.max 0 (a - 8 * Z.of_nat n)).
Proof.
  revert cs a. induction n as [|n IH]; intros cs a Ha Hh; cbn [age_n].
  - exists cs. replace (Z.max 0 (a - 8 * Z.of_nat 0)) with a by lia. done.
  - rewrite neuropil_age_decrement_mk by apply Hh. cbn [mbind result_bind].
    destruct (IH _ (Z.max 0 (a - 8)) ltac:(lia) (holds_age_dec cs ids a Ha Hh)) as (cs' & Hrun & Hh').
    exists cs'. split; [done|].
    by replace (Z.max 0 (a - 8 * Z.of_nat (S n)))
      with (Z.max 0 (Z.max 0 (a - 8) - 8 * Z.of_nat n)) by lia.
Qed.

Lemma holds_check rng cs free ids a x :
  holds cs ids a -> 0 <= a ->
  _np_neuropil_bloom_check (mk rng cs free) x = Ok (bool_decide (0 < a) && covered ids x).
Proof.
  intros [Hl Hh] Ha. rewrite neuropil_check_mk by done. f_equal.
  assert (Forall (fun j => visible (cell_at cs j) = bool_decide (0 < a) && hit_by ids j) (np_cells x)) as Hv.
  { eapply Forall_impl; [apply np_cells_lt|]. simpl. intros j Hj. unfold cell_at.
    rewrite (Hh j Hj). cbn [from_option Datatypes.id]. unfold visible. cbn [fst snd].
    pose proof (hit_by_total ids j). pose proof (total_hits_nonneg ids j).
    destruct (hit_by ids j) eqn:E.
    - rewrite (proj2 (Z.eqb_neq (total_hits ids j) 0)) by (destruct H as [H _]; specialize (H eq_refl); lia).
      rewrite orb_false_r, andb_true_r. case_bool_decide;
        [by rewrite (proj2 (Z.eqb_neq _ _)) by lia | by rewrite (proj2 (Z.eqb_eq _ _)) by lia].
    - rewrite andb_false_r. done. }
  unfold covered. assert (np_cells x <> []) as Hne by done. revert Hne.
  generalize (np_cells x) Hv. clear. intros l Hv. induction Hv as [|j l Hj Hv IH]; [done|].
  intros _. cbn [forallb]. rewrite Hj. destruct l as [|k l]; [simpl; by rewrite !andb_true_r|].
  rewrite IH by done. destruct (bool_decide _), (hit_by ids j); done.
Qed.

Lemma covered_rev ids x : covered (rev ids) x = covered ids x.
Proof.
  unfold covered. generalize (np_cells x). intros l. induction l as [|j l IH]; simpl; [done|].
  by rewrite hit_by_rev, IH.
Qed.

(** The heuristic of an identifier whose cells all have the age [a]. *)
Lemma holds_heuristic rng cs free ids a x :
  holds cs ids a -> 0 <= a <= 256 -> covered ids x = true ->
  _np_neuropil_bloom_get_heuristic (mk rng cs free) x = Ok (age_ratio a).
Proof.
  intros [Hl Hh] Ha Hcov. unfold _np_neuropil_bloom_get_heuristic. rewrite for_cells_mk.
  change (_bitset (mk rng cs free)) with (uncells cs).
  assert (Qle_bool (age_ratio a) 1 = true) as H1.
  { apply Qle_bool_iff. unfold age_ratio, Qle. simpl. lia. }
  assert (Qle_bool (age_ratio a) (age_ratio a) = true) as H2 by apply Qle_bool_iff, Qle_refl.
  unfold covered in Hcov. rewrite forallb_elem_of in Hcov.
  pose proof (np_cells_lt x) as Hlt. assert (np_cells x <> []) as Hne by done.
  match goal with |- context [foldM ?f _ _] =>
    enough (forall l ret, Forall (fun j => (j < NCELLS)%nat) l -> (forall j, j ∈ l -> hit_by ids j = true) ->
      ret = 1%Q \/ ret = age_ratio a ->
      foldM f l (false, ret) = Ok (false, if decide (l = []) then ret else age_ratio a)) as Hloop end.
  { rewrite Hloop by auto. by rewrite decide_False. }
  clear Hlt Hcov Hne. induction l as [|j l IH]; intros ret Hlt Hhit Hret; [done|].
  apply Forall_cons in Hlt as [Hj Hlt]. cbn [foldM]. rewrite rd_cell_at by lia.
  unfold cell_at. rewrite (Hh j Hj). cbn [from_option Datatypes.id mbind result_bind].
  rewrite (Hhit j) by left. assert (0 < total_hits ids j) by (apply hit_by_total, Hhit; left).
  rewrite (proj2 (Z.eqb_neq _ _)) by lia. cbn [mbind result_bind].
  assert ((if Qle_bool (age_ratio a) ret then age_ratio a else ret) = age_ratio a) as ->
    by (destruct Hret as [->| ->]; by rewrite ?H1, ?H2).
  rewrite IH; [| done | intros k Hk; apply Hhit; by right | by right].
  rewrite (decide_False (P := j :: l = [])) by done. by case_decide.
Qed.

Lemma reach_add_all ids b b' :
  neuropil_reach b -> filter_add_all neuropil_ops ids b = Ok b' -> neuropil_reach b'.
Proof.
  unfold filter_add_all. revert b. induction ids as [|id ids IH]; intros b Hr Hrun; cbn [foldM] in Hrun; inv_ok.
  - done.
  - eapply IH; [|exact Hrun]. by eapply reach_add.
Qed.

(** C24: membership and expiry of a neuropil filter.  Adding up to 64
    identifiers to a new filter succeeds and leaves [64 - n] free places (the
    next addition to a full filter aborts); cell [j] then counts exactly the
    hits of the added identifiers.  After [m] ageing steps the check is [true]
    for exactly the identifiers whose eight cells were all hit, as long as
    [m < 16], and for none afterwards; until then the heuristic of such an
    identifier is [(128 - 8 m) / 256]. *)
Theorem neuropil_membership_expiry ids m :
  (length ids <= 64)%nat ->
  exists b b', filter_add_all neuropil_ops ids _np_neuropil_bloom_create = Ok b /\
    neuropil_reach b /\ _free_items b = 64 - Z.of_nat (length ids) /\
    (length ids = 64%nat -> forall x, _np_neuropil_bloom_add b x = Err Aborted) /\
    age_n m b = Ok b' /\
    (forall j, (j < NCELLS)%nat -> exists age, rd_cell (_bitset b') (2 * Z.of_nat j) = Ok (age, total_hits (rev ids) j)) /\
    forall x, _np_neuropil_bloom_check b' x = Ok (bool_decide (m < 16)%nat && covered ids x) /\
      ((m < 16)%nat -> covered ids x = true ->
       _np_neuropil_bloom_get_heuristic b' x = Ok (age_ratio (128 - 8 * Z.of_nat m))).
Proof.
  intros Hlen. destruct (neuropil_build_ok ids Hlen) as (cs & Hrun & Hh & Hwf & Hk).
  destruct (age_n_mk m rng0 cs (64 - Z.of_nat (length ids)) (rev ids) 128 ltac:(lia) Hh)
    as (cs' & Hage & Hh').
  eexists _, _. split; [exact Hrun|]. split; [|split; [done|split; [|split; [exact Hage|split]]]].
  - eapply reach_add_all; [|exact Hrun]. apply reach_create.
  - intros E x. apply neuropil_full_aborts. simpl. lia.
  - intros j Hj. cbn [_bitset mk]. destruct Hh' as [Hl' Hc'].
    eexists. by apply (rd_cell_uncells cs' j _), Hc'.
  - intros x. split.
    + rewrite (holds_check _ _ _ (rev ids) _ _ Hh') by lia. rewrite covered_rev. do 2 f_equal.
      apply bool_decide_ext. lia.
    + intros Hm Hcov. rewrite (holds_heuristic _ _ _ (rev ids) _ _ Hh'); [|lia|by rewrite covered_rev].
      do 2 f_equal. lia.
Qed.

Lemma neuropil_membership_expiry_witness :
  exists b b', filter_add_all neuropil_ops [key_of 7; key_of 12345] _np_neuropil_bloom_create = Ok b /\
    age_n 3 b = Ok b' /\ _np_neuropil_bloom_check b' (key_of 7) = Ok true /\
    _np_neuropil_bloom_get_heuristic b' (key_of 7) = Ok (age_ratio 104).
Proof.
  destruct (neuropil_membership_expiry [key_of 7; key_of 12345] 3 ltac:(simpl; lia))
    as (b & b' & Hrun & _ & _ & _ & Hage & _ & Hx).
  destruct (Hx (key_of 7)) as [Hc Hh]. exists b, b'. split; [exact Hrun|]. split; [exact Hage|].
  split; [rewrite Hc; vm_compute; reflexivity|]. apply Hh; [lia | vm_compute; reflexivity].
Defined.

(** ** Union *)

Lemma visible_iff x : is_cell x -> visible x = true <-> 0 < fst x /\ 0 < snd x.
Proof.
  intros [[? ?] [? ?]]. unfold visible. rewrite negb_true_iff, orb_false_iff, !Z.eqb_neq. lia.
Qed.

Lemma cell_at_cell cs j : Forall is_cell cs -> is_cell (cell_at cs j).
Proof.
  intros H. unfold cell_at. destruct (cs !! j) as [x|] eqn:E; [by eapply Forall_lookup_1|].
  split; by_decide.
Qed.

Lemma cell_at_zip g cs1 cs2 j :
  length cs1 = NCELLS -> length cs2 = NCELLS -> (j < NCELLS)%nat ->
  cell_at (zip_with g cs1 cs2) j = g (cell_at cs1 j) (cell_at cs2 j).
Proof.
  intros H1 H2 Hj. unfold cell_at. rewrite lookup_zip_with.
  destruct (lookup_lt_is_Some_2 cs1 j ltac:(lia)) as [x ->].
  by destruct (lookup_lt_is_Some_2 cs2 j ltac:(lia)) as [y ->].
Qed.

Lemma cell_at_count cs free j : counts_ok cs free -> free <= 64 -> snd (cell_at cs j) <= 2 * (64 - free).
Proof.
  intros Hk Hf. unfold cell_at. destruct (cs !! j) as [x|] eqn:E; [|simpl; lia].
  by apply (Forall_lookup_1 _ _ _ _ Hk E).
Qed.

Section UnionCells.
Context (cs1 cs2 : list cell) (f1 f2 : Z) (W1 : cells_wf cs1) (W2 : cells_wf cs2)
        (K1 : counts_ok cs1 f1) (K2 : counts_ok cs2 f2)
        (F1 : 0 <= f1 <= 64) (F2 : 0 <= f2 <= 64) (FS : 64 <= f1 + f2).

Lemma union_cell_at j :
  (j < NCELLS)%nat ->
  cell_at (zip_with union_cell cs1 cs2) j =
    (Z.min 255 (fst (cell_at cs1 j) + fst (cell_at cs2 j)),
     snd (cell_at cs1 j) + snd (cell_at cs2 j)).
Proof.
  intros Hj. rewrite cell_at_zip by (done || apply W1 || apply W2).
  pose proof (cell_at_count cs1 f1 j K1 ltac:(lia)).
  pose proof (cell_at_count cs2 f2 j K2 ltac:(lia)).
  apply union_cell_spec; [apply cell_at_cell, W1 | apply cell_at_cell, W2 | lia].
Qed.

Lemma union_visible j :
  (j < NCELLS)%nat ->
  visible (cell_at cs1 j) = true \/ visible (cell_at cs2 j) = true ->
  visible (cell_at (zip_with union_cell cs1 cs2) j) = true.
Proof.
  intros Hj. pose proof (cell_at_cell cs1 j (proj2 W1)) as C1.
  pose proof (cell_at_cell cs2 j (proj2 W2)) as C2.
  pose proof (cell_at_count cs1 f1 j K1 ltac:(lia)).
  pose proof (cell_at_count cs2 f2 j K2 ltac:(lia)).
  rewrite union_cell_at, !visible_iff by done. destruct C1 as [[? ?] [? ?]], C2 as [[? ?] [? ?]].
  rewrite visible_iff by (split; simpl; unfold in_u; lia). simpl. lia.
Qed.
End UnionCells.

(** The union of two reachable filters.  It fails (an assertion) exactly
    when the two item counts do not fit the 64 places of one filter; otherwise
    the items add up, every cell gets the saturated sum of the ages and the
    exact sum of the counts, and whatever either filter reports is reported by
    the union. *)
Theorem neuropil_union_spec b1 b2 :
  neuropil_reach b1 -> neuropil_reach b2 ->
  (_free_items b1 + _free_items b2 < 64 ->
   _np_neuropil_bloom_union b1 b2 = Err Assert_failed) /\
  (64 <= _free_items b1 + _free_items b2 ->
   exists b, _np_neuropil_bloom_union b1 b2 = Ok b /\ neuropil_reach b /\
     64 - _free_items b = (64 - _free_items b1) + (64 - _free_items b2) /\
     (forall j, (j < NCELLS)%nat -> exists a1 c1 a2 c2,
        rd_cell (_bitset b1) (2 * Z.of_nat j) = Ok (a1, c1) /\
        rd_cell (_bitset b2) (2 * Z.of_nat j) = Ok (a2, c2) /\
        rd_cell (_bitset b) (2 * Z.of_nat j) = Ok (Z.min 255 (a1 + a2), c1 + c2)) /\
     forall x, _np_neuropil_bloom_check b1 x = Ok true \/ _np_neuropil_bloom_check b2 x = Ok true ->
       _np_neuropil_bloom_check b x = Ok true).
Proof.
  intros R1 R2.
  pose proof (neuropil_reach_inv _ R1) as (r1 & cs1 & f1 & -> & W1 & F1 & K1).
  pose proof (neuropil_reach_inv _ R2) as (r2 & cs2 & f2 & -> & W2 & F2 & K2).
  pose proof (neuropil_union_mk r1 r2 cs1 cs2 f1 f2 (proj1 W1) (proj1 W2) F1 F2) as Hu.
  cbn [_free_items mk]. split; intros FS.
  - by rewrite (proj2 (Z.leb_gt _ _)) in Hu by lia.
  - rewrite (proj2 (Z.leb_le _ _)) in Hu by lia. eexists. split; [exact Hu|].
    assert (length (zip_with union_cell cs1 cs2) = NCELLS) as Hl
      by (rewrite length_zip_with, (proj1 W1), (proj1 W2); done).
    split; [exact (reach_union _ _ _ R1 R2 Hu)|]. split; [simpl; lia|]. split.
    + intros j Hj. cbn [_bitset mk]. rewrite !rd_cell_at by (rewrite ?Hl, ?(proj1 W1), ?(proj1 W2); done).
      rewrite (union_cell_at cs1 cs2 f1 f2) by done.
      exists (fst (cell_at cs1 j)), (snd (cell_at cs1 j)), (fst (cell_at cs2 j)), (snd (cell_at cs2 j)).
      by rewrite <- !surjective_pairing.
    + intros x. rewrite !neuropil_check_mk by (apply W1 || apply W2 || done).
      pose proof (np_cells_lt x) as Hlt. rewrite Forall_forall in Hlt.
      intros [[= H]|[= H]]; f_equal; rewrite forallb_elem_of in H |- *; intros j Hj;
        apply (union_visible cs1 cs2 f1 f2); auto.
Qed.

(** A filter with one identifier, for the concrete instances. *)
Definition neuropil_example (w : Z) : np_bloom_t :=
  match _np_neuropil_bloom_add _np_neuropil_bloom_create (key_of w) with
  | Ok b => b | Err _ => _np_neuropil_bloom_create end.

Lemma neuropil_example_reach w : neuropil_reach (neuropil_example w).
Proof.
  unfold neuropil_example. destruct (_np_neuropil_bloom_add _ _) as [b|e] eqn:E; [|apply reach_create].
  eapply reach_add; [apply reach_create | exact E].
Qed.

Lemma neuropil_union_spec_witness :
  exists b, _np_neuropil_bloom_union _np_neuropil_bloom_create (neuropil_example 7) = Ok b /\
    64 - _free_items b = 1.
Proof.
  destruct (neuropil_union_spec _np_neuropil_bloom_create (neuropil_example 7) reach_create
              (neuropil_example_reach 7)) as [_ H].
  destruct (H ltac:(by_decide)) as (b & Hu & _ & Hf & _).
  exists b. split; [exact Hu|]. rewrite Hf. vm_compute. reflexivity.
Defined.

(** ** Removal *)

Lemma remove_cell_iter n a c :
  0 <= a -> in_u 8 c -> Nat.iter n remove_cell (a, c) = (a ≫ Z.of_nat n, u8 (c - Z.of_nat n)).
Proof.
  intros Ha Hc. induction n as [|n IH]; [by rewrite Z.shiftr_0_r, Z.sub_0_r, u8_id|].
  rewrite Nat.iter_succ, IH. unfold remove_cell. cbn [fst snd]. f_equal.
  - rewrite Z.shiftr_shiftr by lia. f_equal. lia.
  - unfold u8. rewrite Zminus_mod_idemp_l. f_equal. lia.
Qed.

(** Removing what was just added.  With at least two free places the counts
    of all cells and the item counter are back to what they were; the age of a
    cell hit [n] times (once or twice) is the marked age shifted right by [n],
    other cells are untouched.  With exactly one free place the addition fills
    the filter and the removal aborts. *)
Theorem neuropil_remove_add b id :
  neuropil_reach b -> 0 < _free_items b ->
  exists b1, _np_neuropil_bloom_add b id = Ok b1 /\
    (_free_items b = 1 -> _np_neuropil_bloom_remove b1 id = Err Aborted) /\
    (2 <= _free_items b -> exists b2, _np_neuropil_bloom_remove b1 id = Ok b2 /\
      _free_items b2 = _free_items b /\
      forall j, (j < NCELLS)%nat -> exists a c,
        rd_cell (_bitset b) (2 * Z.of_nat j) = Ok (a, c) /\
        rd_cell (_bitset b2) (2 * Z.of_nat j) =
          Ok (if decide (j ∈ np_cells id) then Z.lor a 128 ≫ Z.of_nat (nhits id j) else a, c)).
Proof.
  intros Hr Hf. pose proof (neuropil_reach_inv _ Hr) as (rng & cs & free & -> & [Hl Hc] & F & K).
  simpl in Hf. rewrite neuropil_add_mk by (done || lia). eexists. split; [done|].
  cbn [_free_items mk]. split.
  - intros ->. done.
  - intros H2. rewrite neuropil_remove_mk by (rewrite ?alter_cells_length; (done || lia)).
    eexists. split; [done|]. split; [simpl; lia|]. intros j Hj. cbn [_bitset mk].
    destruct (lookup_lt_is_Some_2 cs j ltac:(lia)) as [[a c] Hx].
    exists a, c. split; [by apply rd_cell_uncells|]. apply rd_cell_uncells.
    rewrite alter_cells_lookup, (add_cells_lookup cs free id j (a, c)) by (done || lia).
    fold (nhits id j). cbn [fmap option_fmap option_map fst snd]. apply f_equal.
    pose proof (Forall_lookup_1 _ _ _ _ Hc Hx) as [[? ?] [? ?]].
    pose proof (Forall_lookup_1 _ _ _ _ K Hx). pose proof (nhits_le id j). cbn [fst snd] in *.
    rewrite remove_cell_iter.
    + f_equal; [|rewrite u8_id by (unfold in_u; lia); lia].
      destruct (decide (j ∈ np_cells id)) as [|Hn]; [done|].
      rewrite <- nhits_pos in Hn. replace (nhits id j) with 0%nat by lia. by rewrite Z.shiftr_0_r.
    + case_decide; [apply Z.lor_nonneg; lia | lia].
    + unfold in_u. lia.
Qed.

Lemma neuropil_remove_add_witness :
  exists b1 b2, _np_neuropil_bloom_add (neuropil_example 7) (key_of 9) = Ok b1 /\
    _np_neuropil_bloom_remove b1 (key_of 9) = Ok b2 /\ _free_items b2 = 63.
Proof.
  destruct (neuropil_remove_add (neuropil_example 7) (key_of 9) (neuropil_example_reach 7))
    as (b1 & Ha & _ & Hr); [by_decide|].
  destruct (Hr ltac:(by_decide)) as (b2 & Hrun & Hf & _).
  exists b1, b2. split; [exact Ha|]. split; [exact Hrun|]. rewrite Hf. vm_compute. reflexivity.
Defined.

(** ** Containment and comparison *)

Lemma uncells_inj cs1 cs2 : uncells cs1 = uncells cs2 -> cs1 = cs2.
Proof.
  revert cs2. induction cs1 as [|[a c] cs1 IH]; intros [|[a' c'] cs2] E; try done.
  injection E as -> -> E. f_equal. by apply IH.
Qed.

Lemma neuropil_inv_cells rng cs free : neuropil_inv (mk rng cs free) -> cells_wf cs.
Proof.
  intros (rng' & cs' & free' & E & W & _). injection E as _ E _. by apply uncells_inj in E as ->.
Qed.

(** The count byte of cell [j]. *)
Definition count_at (b : np_bloom_t) (j : nat) : Z := nth (2 * j + 1) (_bitset b) 0.

Lemma nth_uncells cs j : nth (2 * j + 1) (uncells cs) 0 = snd (cell_at cs j).
Proof.
  revert j. induction cs as [|[a c] cs IH]; intros j.
  - unfold cell_at. rewrite lookup_nil. simpl. by destruct (j + (j + 0) + 1)%nat.
  - destruct j as [|j]; [done|]. replace (2 * S j + 1)%nat with (S (S (2 * j + 1))) by lia.
    cbn [uncells nth]. rewrite IH. done.
Qed.

Lemma count_at_mk rng cs free j : count_at (mk rng cs free) j = snd (cell_at cs j).
Proof. apply nth_uncells. Qed.

(** Two 16-bit counters, the second counting a subset of what the first does. *)
Lemma count_pair_eq {A} (P Q : A -> bool) l s f :
  (forall x, Q x = true -> P x = true) -> 0 <= f <= s -> s + Z.of_nat (length l) < 2 ^ 16 ->
  let r := foldl (fun '(s, f) x => if P x then (u16 (s + 1), u16 (f + if Q x then 1 else 0)) else (s, f))
             (s, f) l in
  (snd r =? fst r) = (f =? s) && forallb (fun x => implb (P x) (Q x)) l.
Proof.
  intros HPQ. revert s f. induction l as [|x l IH]; intros s f Hsf Hl; cbn [foldl length forallb] in *.
  - by rewrite andb_true_r.
  - destruct (P x) eqn:EP; cbn [implb].
    + destruct (Q x) eqn:EQ; rewrite !u16_id by (unfold in_u; lia); rewrite IH by lia.
      * rewrite andb_true_l. f_equal. destruct (Z.eqb_spec (f + 1) (s + 1)), (Z.eqb_spec f s); (done || lia).
      * rewrite andb_false_l, andb_false_r. by rewrite (proj2 (Z.eqb_neq _ _)) by lia.
    + rewrite IH by lia. done.
Qed.

Lemma forallb_zip (F : cell * cell -> bool) cs1 cs2 :
  length cs1 = NCELLS -> length cs2 = NCELLS ->
  forallb F (zip cs1 cs2) = true <->
  forall j, (j < NCELLS)%nat -> F (cell_at cs1 j, cell_at cs2 j) = true.
Proof.
  intros H1 H2. rewrite forallb_elem_of. split.
  - intros H j Hj. apply H. apply list_elem_of_lookup. exists j.
    rewrite lookup_zip_with. unfold cell_at.
    destruct (lookup_lt_is_Some_2 cs1 j ltac:(lia)) as [x ->].
    by destruct (lookup_lt_is_Some_2 cs2 j ltac:(lia)) as [y ->].
  - intros H p Hp. apply list_elem_of_lookup in Hp as [j Hj].
    apply lookup_zip_with_Some in Hj as (x & y & -> & Hx & Hy).
    apply lookup_lt_Some in Hx as Hlt. specialize (H j ltac:(lia)).
    unfold cell_at in H. by rewrite Hx, Hy in H.
Qed.

Lemma containment_mk r1 r2 cs1 cs2 f1 f2 :
  cells_wf cs1 -> cells_wf cs2 -> 0 <= f1 <= 64 -> 0 <= f2 <= 64 ->
  exists r, _np_neuropil_bloom_containment (mk r1 cs1 f1) (mk r2 cs2 f2) = Ok r /\
    (r = true <-> forall j, (j < NCELLS)%nat -> snd (cell_at cs2 j) <= snd (cell_at cs1 j)).
Proof.
  intros [L1 C1] [L2 C2] F1 F2. unfold _np_neuropil_bloom_containment.
  rewrite neuropil_compatible_mk. cbn [mbind result_bind]. unfold free_items_ok.
  cbn [_free_items mk _bitset]. unfold SCALE3D_FREE_ITEMS.
  rewrite !(proj2 (Z.leb_le _ _)) by lia. cbn [mbind result_bind c_assert].
  change (filter_bytes _) with 2040. rewrite fold_cells_mk by done. cbn [mbind result_bind].
  pose proof (count_pair_eq (fun p : cell * cell => 0 <? snd (snd p))
    (fun p => (0 <? snd (snd p)) && (snd (snd p) <=? snd (fst p))) (zip cs1 cs2) 0 0) as Hc.
  cbv zeta in Hc. specialize (Hc ltac:(intros; by apply andb_true_iff in H as [? _]) ltac:(lia)).
  rewrite length_zip_with, L1, L2 in Hc. specialize (Hc ltac:(done)).
  match type of Hc with (snd ?R =? fst ?R) = _ => set (R0 := R) in Hc end.
  match goal with |- context [foldl ?f ?s ?l] => assert (foldl f s l = R0) as -> end.
  { unfold R0. apply foldl_ext. intros [s f] [[fa fc] [sa sc]]. cbn [fst snd].
    by destruct (0 <? sc). }
  destruct R0 as [s f]. cbn [fst snd] in Hc. eexists. split; [done|]. rewrite Hc.
  rewrite Z.eqb_refl, andb_true_l, forallb_zip by done. apply forall_proper. intros j.
  cbn [fst snd]. pose proof (cell_at_cell cs1 j C1) as [_ [? ?]]. pose proof (cell_at_cell cs2 j C2) as [_ [? ?]].
  split; intros Hx Hj; specialize (Hx Hj).
  - destruct (Z.ltb_spec 0 (snd (cell_at cs2 j))); [|lia]. simpl in Hx. by apply Z.leb_le.
  - destruct (0 <? snd (cell_at cs2 j)); [|done]. simpl. by apply Z.leb_le.
Qed.

Lemma foldl_flag {A} (P : A -> bool) l ret :
  ret = 0 \/ ret = -1 ->
  let r := foldl (fun ret x => if P x then -1 else ret) ret l in
  (r = 0 \/ r = -1) /\ (r = 0 <-> ret = 0 /\ forallb (fun x => negb (P x)) l = true).
Proof.
  revert ret. induction l as [|x l IH]; intros ret Hret; cbn [foldl forallb].
  - split; [done|]. tauto.
  - destruct (P x).
    + destruct (IH (-1) ltac:(by right)) as [H1 H2]. split; [done|]. rewrite H2. simpl.
      split; intros []; discriminate.
    + apply (IH ret Hret).
Qed.

Lemma cmp_mk r1 r2 cs1 cs2 f1 f2 :
  cells_wf cs1 -> cells_wf cs2 ->
  exists r, _np_neuropil_bloom_cmp (mk r1 cs1 f1) (mk r2 cs2 f2) = Ok r /\ (r = 0 \/ r = -1) /\
    (r = 0 <-> forall j, (j < NCELLS)%nat -> snd (cell_at cs1 j) = 0 <-> snd (cell_at cs2 j) = 0).
Proof.
  intros [L1 C1] [L2 C2]. unfold _np_neuropil_bloom_cmp.
  rewrite neuropil_compatible_mk. cbn [mbind result_bind _bitset mk].
  change (filter_bytes _) with 2040. rewrite fold_cells_mk by done.
  eexists. split; [done|].
  pose proof (foldl_flag (fun p : cell * cell => ((snd (fst p) =? 0) && (0 <? snd (snd p))) ||
     ((snd (snd p) =? 0) && (0 <? snd (fst p)))) (zip cs1 cs2) 0 ltac:(by left)) as [H1 H2].
  match goal with |- (?r = _ \/ _) /\ _ => match type of H1 with ?R = _ \/ _ => assert (r = R) as -> end end.
  { apply foldl_ext. by intros ret [[? ?] [? ?]]. }
  split; [done|]. rewrite H2. rewrite forallb_zip by done.
  transitivity (forall j, (j < NCELLS)%nat -> negb (((snd (cell_at cs1 j) =? 0) && (0 <? snd (cell_at cs2 j)))
    || ((snd (cell_at cs2 j) =? 0) && (0 <? snd (cell_at cs1 j)))) = true); [tauto|].
  apply forall_proper. intros j.
  pose proof (cell_at_cell cs1 j C1) as [_ [? ?]]. pose proof (cell_at_cell cs2 j C2) as [_ [? ?]].
  split; intros Hx Hj; specialize (Hx Hj).
  - destruct (Z.eqb_spec (snd (cell_at cs1 j)) 0), (Z.eqb_spec (snd (cell_at cs2 j)) 0),
      (Z.ltb_spec 0 (snd (cell_at cs1 j))), (Z.ltb_spec 0 (snd (cell_at cs2 j))); try discriminate Hx; lia.
  - destruct (Z.eqb_spec (snd (cell_at cs1 j)) 0), (Z.eqb_spec (snd (cell_at cs2 j)) 0),
      (Z.ltb_spec 0 (snd (cell_at cs1 j))), (Z.ltb_spec 0 (snd (cell_at cs2 j))); try done; lia.
Qed.

(** Containment and comparison of reachable filters.  [containment (a, b)]
    is [true] iff every count of [b] is at most the count of [a] in the same
    cell; [cmp (a, b)] is 0 iff the two filters have the same cells in use and
    -1 otherwise; a union contains both of its arguments. *)
Theorem neuropil_containment_spec a b :
  neuropil_reach a -> neuropil_reach b ->
  (exists r, _np_neuropil_bloom_containment a b = Ok r /\
     (r = true <-> forall j, (j < NCELLS)%nat -> count_at b j <= count_at a j)) /\
  (exists r, _np_neuropil_bloom_cmp a b = Ok r /\ (r = 0 \/ r = -1) /\
     (r = 0 <-> forall j, (j < NCELLS)%nat -> count_at a j = 0 <-> count_at b j = 0)) /\
  (forall c, _np_neuropil_bloom_union a b = Ok c ->
     _np_neuropil_bloom_containment c a = Ok true /\ _np_neuropil_bloom_containment c b = Ok true).
Proof.
  intros Ra Rb.
  pose proof (neuropil_reach_inv _ Ra) as (r1 & cs1 & f1 & -> & W1 & F1 & K1).
  pose proof (neuropil_reach_inv _ Rb) as (r2 & cs2 & f2 & -> & W2 & F2 & K2).
  setoid_rewrite count_at_mk. split; [by apply containment_mk|]. split; [by apply cmp_mk|].
  intros c Hu. rewrite neuropil_union_mk in Hu by (apply W1 || apply W2 || done).
  destruct (Z.leb_spec 64 (f1 + f2)) as [FS|]; [|discriminate Hu]. injection Hu as <-.
  pose proof (neuropil_inv_cells _ _ _ (union_cells_inv r1 cs1 cs2 f1 f2 W1 W2 K1 K2 F1 F2 FS)) as W.
  split.
  - destruct (containment_mk r1 r1 (zip_with union_cell cs1 cs2) cs1 (f1 + f2 - 64) f1 W W1) as (r & -> & Hr);
      [lia | done|]. f_equal. apply Hr. intros j Hj. rewrite (union_cell_at cs1 cs2 f1 f2) by done.
    pose proof (cell_at_cell cs2 j (proj2 W2)) as [_ [? ?]]. simpl. lia.
  - destruct (containment_mk r1 r2 (zip_with union_cell cs1 cs2) cs2 (f1 + f2 - 64) f2 W W2) as (r & -> & Hr);
      [lia | done|]. f_equal. apply Hr. intros j Hj. rewrite (union_cell_at cs1 cs2 f1 f2) by done.
    pose proof (cell_at_cell cs1 j (proj2 W1)) as [_ [? ?]]. simpl. lia.
Qed.

Lemma neuropil_containment_spec_witness :
  exists r, _np_neuropil_bloom_containment (neuropil_example 7) (neuropil_example 9) = Ok r /\
    (r = true <-> forall j, (j < NCELLS)%nat ->
       count_at (neuropil_example 9) j <= count_at (neuropil_example 7) j).
Proof.
  apply (neuropil_containment_spec (neuropil_example 7) (neuropil_example 9)
           (neuropil_example_reach 7) (neuropil_example_reach 9)).
Defined.

(** ** The age of an intersection *)

(** The smallest age of [rs] over the cells in which [ts] has an age (256 if
    there is none), and the number of counts of [ts] in those cells. *)
Definition min_age (l : list (cell * cell)) (m : Z) : Z :=
  foldl (fun m '(r, t) => if 0 <? fst t then Z.min m (fst r) else m) m l.
Definition aged_count (l : list (cell * cell)) : Z :=
  zsum (map (fun '(_, t) => if 0 <? fst t then snd t else 0) l).

Lemma min_age_spec l m :
  (forall r t, (r, t) ∈ l -> 0 < fst t -> min_age l m <= fst r) /\ min_age l m <= m /\
  (min_age l m = m \/ exists r t, (r, t) ∈ l /\ 0 < fst t /\ min_age l m = fst r).
Proof.
  revert m. induction l as [|[r t] l IH]; intros m.
  - split; [intros r t H; by apply not_elem_of_nil in H|]. split; [done | by left].
  - unfold min_age in *. cbn [foldl]. set (m' := if 0 <? fst t then Z.min m (fst r) else m).
    destruct (IH m') as (H1 & H2 & H3). assert (m' <= m) by (unfold m'; case_match; lia).
    split; [|split; [lia|]].
    + intros r' t' Hin Ht. apply elem_of_cons in Hin as [[= -> ->]|Hin]; [|by eapply H1].
      unfold m' in H2 at 2. rewrite (proj2 (Z.ltb_lt _ _)) in H2 by done. lia.
    + destruct H3 as [H3|(r' & t' & Hin & Ht & H3)].
      * rewrite H3. unfold m'. destruct (Z.ltb_spec 0 (fst t)); [|by left].
        destruct (Z.min_spec m (fst r)) as [[_ ->]|[_ ->]]; [by left|].
        right. exists r, t. split; [left | done].
      * right. exists r', t'. split; [by right | done].
Qed.

(** One cell of [_np_neuropil_bloom_intersect_age]. *)
Definition age_step (st : Q * Z) (p : cell * cell) : Q * Z :=
  let '(ret, i) := st in let '((ra, _), (ta, tc)) := p in
  if 0 <? ta then
    (if 0 <? ra then (if Qle_bool (age_ratio ra) ret then age_ratio ra else ret) else 0%Q, u8 (i + tc))
  else (ret, i).

Lemma age_step_fold l ret i m :
  Forall (fun p => is_cell (fst p) /\ is_cell (snd p)) l ->
  (ret == age_ratio m)%Q -> 0 <= m -> in_u 8 i ->
  exists ret', foldl age_step (ret, i) l = (ret', u8 (i + aged_count l)) /\
    (ret' == age_ratio (min_age l m))%Q /\ 0 <= min_age l m.
Proof.
  intros Hl. revert ret i m. induction Hl as [|[[ra rc] [ta tc]] l [Hr Ht] _ IH]; intros ret i m Hret Hm Hi.
  - exists ret. unfold aged_count, zsum, min_age. simpl. by rewrite Z.add_0_r, u8_id.
  - destruct Hr as [[? ?] _]. unfold min_age in *. cbn [foldl fst snd] in *.
    assert (age_step (ret, i) ((ra, rc), (ta, tc)) =
      (if 0 <? ta then if 0 <? ra then (if Qle_bool (age_ratio ra) ret then age_ratio ra else ret) else 0%Q
       else ret, if 0 <? ta then u8 (i + tc) else i)) as -> by (unfold age_step; by case_match).
    destruct (IH (if 0 <? ta then if 0 <? ra then (if Qle_bool (age_ratio ra) ret then age_ratio ra else ret)
        else 0%Q else ret) (if 0 <? ta then u8 (i + tc) else i) (if 0 <? ta then Z.min m ra else m))
      as (ret' & -> & Hq & Hm').
    + destruct (0 <? ta); [|done]. destruct (Z.ltb_spec 0 ra).
      * destruct (Qle_bool (age_ratio ra) ret) eqn:E.
        -- apply Qle_bool_iff in E. rewrite Hret in E. unfold age_ratio, Qle in E. simpl in E.
           replace (Z.min m ra) with ra by lia. done.
        -- rewrite Hret. assert (m <= ra); [|by replace (Z.min m ra) with m by lia].
           destruct (Z_le_gt_dec m ra); [done|]. exfalso.
           assert (Qle_bool (age_ratio ra) ret = true); [|congruence].
           apply Qle_bool_iff. rewrite Hret. unfold age_ratio, Qle. simpl. lia.
      * replace (Z.min m ra) with 0 by lia. reflexivity.
    + case_match; lia.
    + case_match; auto with machine.
    + exists ret'. split; [|done]. f_equal. unfold aged_count, zsum. cbn [map foldr fst snd].
      destruct (0 <? ta); [|done]. unfold u8. rewrite Zplus_mod_idemp_l. f_equal. lia.
Qed.

Lemma intersect_age_mk r1 r2 cs1 cs2 f1 f2 :
  cells_wf cs1 -> cells_wf cs2 ->
  exists q, _np_neuropil_bloom_intersect_age (mk r1 cs1 f1) (mk r2 cs2 f2) = Ok q /\
    (q == if decide (aged_count (zip cs1 cs2) mod 256 = 0)%Z then 0
          else age_ratio (min_age (zip cs1 cs2) 256))%Q.
Proof.
  intros [L1 C1] [L2 C2]. unfold _np_neuropil_bloom_intersect_age.
  rewrite neuropil_compatible_mk. cbn [mbind result_bind _bitset mk].
  change (filter_bytes _) with 2040. rewrite fold_cells_mk by done. cbn [mbind result_bind].
  destruct (age_step_fold (zip cs1 cs2) 1 0 256) as (ret & Hf & Hq & _).
  - apply Forall_forall. intros [x y] Hp. apply list_elem_of_lookup in Hp as [j Hj].
    apply lookup_zip_with_Some in Hj as (x' & y' & [= -> ->] & Hx & Hy).
    split; [by apply (Forall_lookup_1 _ _ _ _ C1 Hx) | by apply (Forall_lookup_1 _ _ _ _ C2 Hy)].
  - reflexivity.
  - lia.
  - by_decide.
  - match goal with |- context [foldl ?f ?s ?l] =>
      assert (foldl f s l = foldl age_step s l) as -> end.
    { apply foldl_ext. intros [q i] [[ra rc] [ta tc]]. done. }
    rewrite Hf. cbn [mbind result_bind]. eexists. split; [done|]. rewrite Z.add_0_l.
    change (u8 (aged_count (zip cs1 cs2))) with (aged_count (zip cs1 cs2) mod 256).
    case_decide as E; [by rewrite E|]. by rewrite (proj2 (Z.eqb_neq _ _)).
Qed.

(** ** How many counts a filter holds *)

Lemma zsum_map_add {A} (f g : A -> Z) l :
  zsum (map (fun x => f x + g x) l) = zsum (map f l) + zsum (map g l).
Proof. unfold zsum. induction l as [|x l IH]; simpl; lia. Qed.

Lemma zsum_indicator (x : nat) l :
  NoDup l -> zsum (map (fun j => if Nat.eq_dec x j then 1 else 0) l) = if decide (x ∈ l) then 1 else 0.
Proof.
  unfold zsum. induction 1 as [|y l Hy _ IH]; cbn [map foldr].
  - by rewrite decide_False by apply not_elem_of_nil.
  - rewrite IH. destruct (Nat.eq_dec x y) as [->|Hne].
    + rewrite (decide_True (P := y ∈ y :: l)) by left. by rewrite decide_False.
    + destruct (decide (x ∈ l)); [by rewrite decide_True by (by right)|].
      rewrite decide_False; [done|]. by rewrite not_elem_of_cons.
Qed.

Lemma zsum_count_occ l n :
  Forall (fun i => (i < n)%nat) l ->
  zsum (map (fun j => Z.of_nat (count_occ Nat.eq_dec l j)) (seq 0 n)) = Z.of_nat (length l).
Proof.
  induction 1 as [|x l Hx _ IH].
  - unfold zsum. simpl. induction (seq 0 n); simpl; lia.
  - transitivity (zsum (map (fun j => (if Nat.eq_dec x j then 1 else 0) +
      Z.of_nat (count_occ Nat.eq_dec l j)) (seq 0 n))).
    { f_equal. apply map_ext. intros j. cbn [count_occ]. destruct (Nat.eq_dec x j); lia. }
    rewrite zsum_map_add, IH, zsum_indicator by apply NoDup_seq.
    rewrite decide_True by (apply elem_of_seq; lia). cbn [length]. lia.
Qed.

(** Every identifier contributes eight counts. *)
Lemma total_hits_sum ids :
  zsum (map (total_hits ids) (seq 0 NCELLS)) = 8 * Z.of_nat (length ids).
Proof.
  induction ids as [|id ids IH].
  - generalize (seq 0 NCELLS). intros l. induction l as [|j l IH]; [done | exact IH].
  - transitivity (zsum (map (fun j => Z.of_nat (nhits id j) + total_hits ids j) (seq 0 NCELLS)));
      [done|].
    rewrite zsum_map_add, IH. unfold nhits. rewrite zsum_count_occ by apply np_cells_lt.
    change (length (np_cells id)) with 8%nat. cbn [length]. lia.
Qed.

Lemma holds_list cs ids a :
  holds cs ids a -> cs = map (fun j => (if hit_by ids j then a else 0, total_hits ids j)) (seq 0 NCELLS).
Proof.
  intros [Hl Hh]. apply list_eq. intros j. rewrite list_lookup_fmap.
  destruct (decide (j < NCELLS)%nat) as [Hj|Hj].
  - rewrite (Hh j Hj), lookup_seq_lt by done. done.
  - rewrite !lookup_ge_None_2; [done | rewrite length_seq; lia | lia].
Qed.

Lemma holds_aged_count cs ids a :
  holds cs ids a -> 0 < a -> aged_count (zip cs cs) = 8 * Z.of_nat (length ids).
Proof.
  intros Hh Ha. rewrite <- total_hits_sum. rewrite (holds_list _ _ _ Hh). unfold aged_count.
  generalize (seq 0 NCELLS). intros l. unfold zsum. induction l as [|j l IH]; [done|].
  cbn [map zip_with foldr fst snd]. rewrite IH. f_equal.
  pose proof (hit_by_total ids j). pose proof (total_hits_nonneg ids j).
  destruct (hit_by ids j); [by rewrite (proj2 (Z.ltb_lt _ _))|]. simpl. 
  destruct (decide (0 < total_hits ids j)); [|lia]. by apply H in l0.
Qed.

(** The age of an intersection.  For reachable filters the result is the
    smallest age of the first filter over the cells that are aged in the
    second (divided by 256), except that it is 0 when the counts in those cells
    sum to a multiple of 256, because they are added in a [uint8_t]: a filter
    of exactly 32 or 64 identifiers, all reported by its own check, has age 0
    even against itself. *)
Theorem neuropil_intersect_age_spec :
  (forall r1 r2 cs1 cs2 f1 f2, neuropil_reach (mk r1 cs1 f1) -> neuropil_reach (mk r2 cs2 f2) ->
    exists q, _np_neuropil_bloom_intersect_age (mk r1 cs1 f1) (mk r2 cs2 f2) = Ok q /\
      (q == if decide (aged_count (zip cs1 cs2) mod 256 = 0)%Z then 0
            else age_ratio (min_age (zip cs1 cs2) 256))%Q) /\
  (forall ids, length ids = 32%nat \/ length ids = 64%nat ->
    exists b q, filter_add_all neuropil_ops ids _np_neuropil_bloom_create = Ok b /\
      (forall id, id ∈ ids -> dhkey_wf id -> _np_neuropil_bloom_check b id = Ok true) /\
      _np_neuropil_bloom_intersect_age b b = Ok q /\ (q == 0)%Q).
Proof.
  split.
  - intros r1 r2 cs1 cs2 f1 f2 R1 R2.
    apply intersect_age_mk; eapply neuropil_inv_cells; by apply neuropil_reach_inv.
  - intros ids Hlen. destruct (neuropil_build_ok ids ltac:(lia)) as (cs & Hrun & Hh & Hwf & Hk).
    destruct (intersect_age_mk rng0 rng0 cs cs (64 - Z.of_nat (length ids)) (64 - Z.of_nat (length ids)) Hwf Hwf)
      as (q & Hq & Hv).
    eexists _, q. split; [exact Hrun|]. split; [|split; [exact Hq|]].
    + intros id Hin Hid. rewrite (holds_check _ _ _ (rev ids) 128) by (done || lia).
      rewrite covered_rev. f_equal. cbn [bool_decide andb]. apply forallb_elem_of.
      intros j Hj. unfold hit_by. apply existsb_exists. exists id.
      split; [by apply list_elem_of_In|]. by apply bool_decide_true.
    + rewrite (holds_aged_count _ _ _ Hh), length_rev in Hv by lia.
      rewrite decide_True in Hv; [done|]. destruct Hlen as [->| ->]; reflexivity.
Qed.

Lemma neuropil_intersect_age_spec_witness :
  exists b q, filter_add_all neuropil_ops (map (fun k => key_of (Z.of_nat k)) (seq 1 32))
      _np_neuropil_bloom_create = Ok b /\
    _np_neuropil_bloom_intersect_age b b = Ok q /\ (q == 0)%Q.
Proof.
  destruct neuropil_intersect_age_spec as [_ H].
  destruct (H (map (fun k => key_of (Z.of_nat k)) (seq 1 32)) ltac:(by left)) as (b & q & Hr & _ & Hq & H0).
  exists b, q. split; [exact Hr|]. split; [exact Hq | exact H0].
Defined.

(** ** The compressed form *)

(** The visible cells with their indices, and a reader of the compressed form:
    entries of four bytes, padding entries have age 0. *)
Fixpoint visible_from (j : Z) (cs : list cell) : list (Z * cell) :=
  match cs with
  | [] => []
  | x :: cs' => if visible x then (j, x) :: visible_from (j + 1) cs' else visible_from (j + 1) cs'
  end.

Fixpoint decode_entries (l : list Z) : list (Z * cell) :=
  match l with
  | jl :: jh :: a :: c :: l' =>
      if a =? 0 then decode_entries l' else (jl + 256 * jh, (a, c)) :: decode_entries l'
  | _ => []
  end.

Definition entry_bytes (e : Z * cell) : list Z :=
  [fst e mod 256; fst e / 256; fst (snd e); snd (snd e)].

Lemma decode_zeroes n : decode_entries (replicate n 0) = [].
Proof.
  induction n as [n IH] using lt_wf_ind. destruct n as [|[|[|[|n]]]]; [done..|].
  cbn [replicate decode_entries]. simpl. apply IH. lia.
Qed.

Lemma decode_encode es z :
  Forall (fun e => 0 < fst (snd e)) es ->
  decode_entries (concat (map entry_bytes es) ++ replicate z 0) = es.
Proof.
  induction 1 as [|[j [a c]] es He _ IH]; [apply decode_zeroes|].
  cbn [map concat entry_bytes fst snd app decode_entries] in *.
  rewrite (proj2 (Z.eqb_neq _ _)) by lia. rewrite IH. do 2 f_equal.
  rewrite Z.add_comm. symmetry. apply Z.div_mod. lia.
Qed.

Lemma visible_from_aged j cs :
  Forall is_cell cs -> Forall (fun e => 0 < fst (snd e)) (visible_from j cs).
Proof.
  intros H. revert j. induction H as [|x cs Hx _ IH]; intros j; [constructor|].
  cbn [visible_from]. destruct (visible x) eqn:E; [|apply IH]. constructor; [|apply IH].
  by apply visible_iff in E as [? _].
Qed.

(** The loop of [_np_neuropil_bloom_compress]. *)
Lemma compress_fold cs out j :
  Forall is_cell cs -> 0 <= j -> j + Z.of_nat (length cs) < 2 ^ 16 ->
  foldl (fun '(out, j) '((age, count), _) =>
     (if (0 <? age) && (0 <? count) then out ++ [j mod 256; j / 256; age; count] else out, u16 (j + 1)))
     (out, j) (zip cs cs) =
  (out ++ concat (map entry_bytes (visible_from j cs)), j + Z.of_nat (length cs)).
Proof.
  intros Hc. revert out j. induction Hc as [|[a c] cs Hx _ IH]; intros out j Hj Hl.
  - cbn. rewrite app_nil_r. f_equal. lia.
  - cbn [zip_with foldl length visible_from] in *. rewrite u16_id by (unfold in_u; lia).
    rewrite IH by lia. pose proof (visible_iff (a, c) Hx) as Hv. cbn [fst snd] in Hv.
    destruct Hx as [[? ?] [? ?]]. cbn [fst snd] in *. f_equal; [|lia].
    destruct (visible (a, c)) eqn:E.
    + destruct (proj1 Hv eq_refl). rewrite !(proj2 (Z.ltb_lt _ _)) by done.
      cbn [andb map concat]. by rewrite <- app_assoc.
    + assert ((0 <? a) && (0 <? c) = false) as ->; [|done].
      destruct (Z.ltb_spec 0 a), (Z.ltb_spec 0 c); try done.
      destruct Hv as [_ Hv]. by specialize (Hv (conj H3 H4)).
Qed.

Lemma concat_entries_length es : length (concat (map entry_bytes es)) = (4 * length es)%nat.
Proof. induction es as [|e es IH]; [done|]. cbn [map concat entry_bytes app length]. rewrite IH. lia. Qed.

Lemma compress_mk rng cs free :
  cells_wf cs ->
  exists out, _np_neuropil_bloom_compress (mk rng cs free) = Ok out /\
    decode_entries out = visible_from 0 cs /\
    length out = Nat.max 32 (4 * length (visible_from 0 cs)).
Proof.
  intros [Hl Hc]. unfold _np_neuropil_bloom_compress. change (filter_bytes _) with 2040.
  cbn [_bitset mk]. rewrite fold_cells_mk by done.
  match goal with |- context [foldl ?f ?s ?l] => assert (foldl f s l =
    ([] ++ concat (map entry_bytes (visible_from 0 cs)), 0 + Z.of_nat (length cs))) as -> end.
  { rewrite <- (compress_fold cs [] 0) by (done || (rewrite Hl; done)).
    apply foldl_ext. by intros [? ?] [[? ?] ?]. }
  cbn [mbind result_bind app]. eexists. split; [done|].
  pose proof (visible_from_aged 0 cs Hc) as Ha.
  pose proof (concat_entries_length (visible_from 0 cs)) as Hlen.
  destruct (Nat.ltb_spec (length (concat (map entry_bytes (visible_from 0 cs)))) 32).
  - split; [by apply decode_encode|]. rewrite length_app, length_replicate. lia.
  - split; [|lia]. rewrite <- (decode_encode _ 0 Ha) at 2. by rewrite app_nil_r.
Qed.

(** The visible cells determine every check. *)
Lemma visible_from_elem cs j0 j x :
  (j, x) ∈ visible_from j0 cs <-> exists i, j = j0 + Z.of_nat i /\ cs !! i = Some x /\ visible x = true.
Proof.
  revert j0. induction cs as [|y cs IH]; intros j0; cbn [visible_from].
  - split; [intros H; by apply not_elem_of_nil in H|]. intros (i & _ & H & _). by rewrite lookup_nil in H.
  - assert ((j, x) ∈ visible_from (j0 + 1) cs <->
      exists i, j = j0 + Z.of_nat (S i) /\ (y :: cs) !! S i = Some x /\ visible x = true) as IH'.
    { rewrite IH. cbn [lookup list_lookup]. split; intros (i & -> & H); exists i; (split; [lia | done]). }
    destruct (visible y) eqn:E; rewrite ?elem_of_cons, IH'; split.
    + intros [[= -> ->]|(i & H)]; [exists O; split; [lia | done] | by exists (S i)].
    + intros ([|i] & -> & Hx & Hv); [left; injection Hx as ->; f_equal; lia | right; by exists i].
    + intros (i & H). by exists (S i).
    + intros ([|i] & -> & Hx & Hv); [injection Hx as ->; congruence | by exists i].
Qed.

Lemma visible_cells_check cs1 cs2 j :
  visible_from 0 cs1 = visible_from 0 cs2 ->
  visible (cell_at cs1 j) = true -> visible (cell_at cs2 j) = true.
Proof.
  intros E Hv. unfold cell_at in *. destruct (cs1 !! j) as [x|] eqn:Hx; [|discriminate Hv].
  assert ((Z.of_nat j, x) ∈ visible_from 0 cs2) as Hin.
  { rewrite <- E. apply visible_from_elem. by exists j. }
  apply visible_from_elem in Hin as (i & Hi & Hx2 & _). replace i with j in Hx2 by lia.
  by rewrite Hx2.
Qed.

(** The compressed form of a filter is faithful.  Compression of a
    reachable filter succeeds; reading it back gives exactly the visible cells
    with their index, age and count, in order; its length is four bytes per
    visible cell, at least 32; and two filters with the same compressed form
    answer every check alike. *)
Theorem neuropil_compress_faithful b1 b2 :
  neuropil_reach b1 -> neuropil_reach b2 ->
  (exists rng cs out, b1 = mk rng cs (_free_items b1) /\ _np_neuropil_bloom_compress b1 = Ok out /\
     decode_entries out = visible_from 0 cs /\
     length out = Nat.max 32 (4 * length (visible_from 0 cs))) /\
  (_np_neuropil_bloom_compress b1 = _np_neuropil_bloom_compress b2 ->
   forall x, _np_neuropil_bloom_check b1 x = _np_neuropil_bloom_check b2 x).
Proof.
  intros R1 R2.
  pose proof (neuropil_reach_inv _ R1) as (r1 & cs1 & f1 & -> & W1 & F1 & K1).
  pose proof (neuropil_reach_inv _ R2) as (r2 & cs2 & f2 & -> & W2 & F2 & K2).
  destruct (compress_mk r1 cs1 f1 W1) as (out1 & C1 & D1 & L1).
  destruct (compress_mk r2 cs2 f2 W2) as (out2 & C2 & D2 & L2). split.
  - exists r1, cs1, out1. done.
  - intros E x. rewrite C1, C2 in E. injection E as ->. rewrite D1 in D2.
    rewrite !neuropil_check_mk by (apply W1 || apply W2). f_equal.
    apply eq_bool_prop_intro. rewrite !Is_true_true, !forallb_elem_of.
    split; intros H j Hj; specialize (H j Hj);
      [by apply (visible_cells_check cs1 cs2) | by apply (visible_cells_check cs2 cs1)].
Qed.

Lemma neuropil_compress_faithful_witness :
  exists rng cs out, neuropil_example 7 = mk rng cs (_free_items (neuropil_example 7)) /\
    _np_neuropil_bloom_compress (neuropil_example 7) = Ok out /\ decode_entries out = visible_from 0 cs.
Proof.
  destruct (neuropil_compress_faithful (neuropil_example 7) (neuropil_example 9)
    (neuropil_example_reach 7) (neuropil_example_reach 9)) as [(rng & cs & out & E & C & D & _) _].
  exists rng, cs, out. split; [exact E|]. split; [exact C | exact D].
Defined.
