(* ===== verification/Heap.v ===== *)
(** * The binary heap of [include/util/np_heap.h]

    The macros generate the heap for a type with a comparison; here it is a
    section over the type.  Element 0 of the array is the sentinel, elements
    [1 .. count] are the heap.  Indices are [uint16_t]: the children of a node
    are computed modulo [2^16], so the theorems cover heaps of at most 32767
    elements. *)
From Stdlib Require Import ZArith Lia.
From stdpp Require Import prelude.
From S2P Require Import Prelude.

Local Open Scope Z_scope.

(** [struct TYPE_binheap_node_s] and [struct TYPE_binheap_s]. *)
Record binheap_node_t (T : Type) := Node {
  nd_id : Z;
  nd_priority : Z;
  nd_sentinel : bool;
  nd_data : T;
}.
Arguments Node {T}.
Arguments nd_id {T}.
Arguments nd_priority {T}.
Arguments nd_sentinel {T}.
Arguments nd_data {T}.

Record binheap_t (T : Type) := Heap {
  h_count : Z;
  h_size : Z;
  h_elements : list (binheap_node_t T);
}.
Arguments Heap {T}.
Arguments h_count {T}.
Arguments h_size {T}.
Arguments h_elements {T}.

Definition HEAP_LEFT (x : Z) : Z := u16 (2 * x).
Definition HEAP_RIGHT (x : Z) : Z := u16 (2 * x + 1).
Definition HEAP_PARENT (x : Z) : Z := if 1 =? x then 1 else x / 2.

Section Binheap.
(** [compare] is [TYPE_compare], [get_priority] is [TYPE_binheap_get_priority],
    [zero] is the all-zero value of the type. *)
Context {T : Type} (compare : T -> T -> bool) (get_priority : T -> Z) (zero : T).

Definition HEAP_SWAP (a : list (binheap_node_t T)) (x y : Z) : result (list (binheap_node_t T)) :=
  t ← rd a x;
  vy ← rd a y;
  a ← wr a x vy;
  wr a y t.

(** The recursion of [binheapify]; [fuel] bounds its depth. *)
Fixpoint binheapify (fuel : nat) (count : Z) (a : list (binheap_node_t T)) (i : Z)
    : result (list (binheap_node_t T)) :=
  match fuel with
  | O => Err Diverges
  | S fuel' =>
      let l := HEAP_LEFT i in
      let r := HEAP_RIGHT i in
      largest ← (if l <=? count then
                   el ← rd a l; ei ← rd a i;
                   Ok (if compare (nd_data el) (nd_data ei) then l else i)
                 else Ok i);
      largest ← (if r <=? count then
                   er ← rd a r; eg ← rd a largest;
                   Ok (if compare (nd_data er) (nd_data eg) then r else largest)
                 else Ok largest);
      if largest =? i then Ok a
      else a ← HEAP_SWAP a i largest; binheapify fuel' count a largest
  end.

(** Enough for every heap whose child indices do not wrap. *)
Definition heapify (h : binheap_t T) (i : Z) : result (binheap_t T) :=
  a ← binheapify (S (Z.to_nat (h_count h))) (h_count h) (h_elements h) i;
  Ok (Heap (h_count h) (h_size h) a).

Definition binheap_first (heap : binheap_t T) : result T :=
  _ ← c_assert (0 <? h_count heap);
  e ← rd (h_elements heap) 1;
  _ ← c_assert (negb (nd_sentinel e));
  Ok (nd_data e).

Definition binheap_is_empty (heap : binheap_t T) : bool := h_count heap =? 0.

Definition binheap_head (heap : binheap_t T) : result (T * binheap_t T) :=
  _ ← c_assert (0 <? h_count heap);
  e ← rd (h_elements heap) 1;
  _ ← c_assert (negb (nd_sentinel e));
  let ret := nd_data e in
  last ← rd (h_elements heap) (h_count heap);
  a ← wr (h_elements heap) 1 last;
  e0 ← rd a 0;
  a ← wr a (h_count heap) e0;
  heap ← heapify (Heap (u16 (h_count heap - 1)) (h_size heap) a) 1;
  Ok (ret, heap).

(** The [while] loop of [binheap_insert]; the index halves in every round. *)
Fixpoint sift_up (fuel : nat) (a : list (binheap_node_t T)) (i : Z)
    : result (list (binheap_node_t T)) :=
  match fuel with
  | O => Err Diverges
  | S fuel' =>
      if 1 <? i then
        ei ← rd a i; ep ← rd a (HEAP_PARENT i);
        if compare (nd_data ei) (nd_data ep) then
          a ← HEAP_SWAP a i (HEAP_PARENT i); sift_up fuel' a (HEAP_PARENT i)
        else Ok a
      else Ok a
  end.

Definition binheap_insert (heap : binheap_t T) (element : T) : result (binheap_t T) :=
  _ ← c_assert (h_count heap <? h_size heap);
  let i := u16 (h_count heap + 1) in
  _ ← c_assert (negb (i =? 0));
  a ← upd (h_elements heap) i (fun e => Node (nd_id e) (get_priority element) false element);
  a ← sift_up (S (Z.to_nat i)) a i;
  Ok (Heap i (h_size heap) a).

Definition binheap_remove (heap : binheap_t T) (i : Z) : result (T * binheap_t T) :=
  if (i <=? h_count heap) && (1 <=? i) then
    e ← rd (h_elements heap) i;
    a ← HEAP_SWAP (h_elements heap) i (h_count heap);
    heap ← heapify (Heap (u16 (h_count heap - 1)) (h_size heap) a) i;
    Ok (nd_data e, heap)
  else Ok (zero, heap).

Definition binheap_increase_idx_priority (heap : binheap_t T) (i : Z) : result (binheap_t T) :=
  _ ← c_assert ((i <=? h_count heap) && (1 <=? i));
  a ← upd (h_elements heap) i
        (fun e => Node (nd_id e) (get_priority (nd_data e)) (nd_sentinel e) (nd_data e));
  a ← HEAP_SWAP a i (h_count heap);
  heapify (Heap (h_count heap) (h_size heap) a) i.

(** [calloc]ed nodes, the first one marked. *)
Definition binheap_init (max_nodes : Z) : binheap_t T :=
  Heap 0 max_nodes (Node 0 0 true zero :: replicate (Z.to_nat max_nodes) (Node 0 0 false zero)).

Definition binheap_compare_priority (i j : binheap_node_t T) : bool :=
  nd_priority i <? nd_priority j.

(** [for (i = 1; i <= count; i++) if (id == elements[i].id) return i;]: with a
    count of 65535 the [uint16_t] counter never exceeds the bound. *)
Definition binheap_find (heap : binheap_t T) (id : Z) : result Z :=
  found ← for_range 1 (Z.to_nat (h_count heap)) (fun i found =>
    if negb (found =? 0) then Ok found else
    e ← rd (h_elements heap) (Z.of_nat i);
    Ok (if id =? nd_id e then Z.of_nat i else 0)) 0;
  if (found =? 0) && (h_count heap =? UINT16_MAX) then Err Diverges else Ok found.

(** [memset (elements, 0, size)] clears [size] bytes, not [size] nodes: what
    it leaves of the nodes is [scribble]. *)
Definition binheap_clear (scribble : list (binheap_node_t T) -> list (binheap_node_t T))
    (heap : binheap_t T) : result (binheap_t T) :=
  a ← upd (scribble (h_elements heap)) 0 (fun e => Node (nd_id e) (nd_priority e) true (nd_data e));
  Ok (Heap 0 (h_size heap) a).
End Binheap.

(** ** What the comparison promises

    A strict weak order: the contract between the heap and the type it stores. *)
Class StrictWeakOrder {T : Type} (lt : T -> T -> bool) := {
  swo_irrefl : forall x, lt x x = false;
  swo_trans : forall x y z, lt x y = true -> lt y z = true -> lt x z = true;
  swo_negtrans : forall x y z, lt x y = false -> lt y z = false -> lt x z = false;
}.

Lemma swo_asym {T} (lt : T -> T -> bool) `{!StrictWeakOrder lt} x y :
  lt x y = true -> lt y x = false.
Proof.
  intros H. destruct (lt y x) eqn:E; [|done].
  pose proof (swo_trans x y x H E) as Hx. by rewrite swo_irrefl in Hx.
Qed.

(** ** Heap order on index functions *)

Section Order.
Context {T : Type} (lt : T -> T -> bool) `{!StrictWeakOrder lt}.

(** No element is before its parent. *)
Definition ordered (f : nat -> T) (n : nat) : Prop :=
  forall k, (2 <= k <= n)%nat -> lt (f k) (f (k / 2)%nat) = false.

(** Order up to the edge above [i]; the children of [i] are not before its parent. *)
Definition ordered_but_up (f : nat -> T) (n i : nat) : Prop :=
  (forall k, (2 <= k <= n)%nat -> k <> i -> lt (f k) (f (k / 2)%nat) = false) /\
  (forall k, (2 <= k <= n)%nat -> (k / 2 = i)%nat -> (2 <= i)%nat ->
     lt (f k) (f (i / 2)%nat) = false).

(** Order up to the edges below [i]; the children of [i] are not before its parent. *)
Definition ordered_but_down (f : nat -> T) (n i : nat) : Prop :=
  (forall k, (2 <= k <= n)%nat -> (k / 2)%nat <> i -> lt (f k) (f (k / 2)%nat) = false) /\
  (forall k, (2 <= k <= n)%nat -> (k / 2 = i)%nat -> (2 <= i)%nat ->
     lt (f k) (f (i / 2)%nat) = false).

Definition fswap (f : nat -> T) (i j k : nat) : T :=
  if decide (k = j) then f i else if decide (k = i) then f j else f k.

Lemma half_lt k : (2 <= k)%nat -> (1 <= k / 2 < k)%nat.
Proof. intros. split; [apply Nat.div_le_lower_bound; lia | apply Nat.div_lt; lia]. Qed.

(** The root is a minimum. *)
Lemma ordered_root f n k : ordered f n -> (1 <= k <= n)%nat -> lt (f k) (f 1%nat) = false.
Proof.
  intros Ho. induction k as [k IH] using lt_wf_ind. intros Hk.
  destruct (decide (k = 1%nat)) as [->|Hne]; [apply swo_irrefl|].
  pose proof (half_lt k ltac:(lia)). eapply swo_negtrans; [by apply Ho; lia|].
  apply IH; lia.
Qed.

Lemma sift_up_step f n i :
  ordered_but_up f n i -> (2 <= i <= n)%nat -> lt (f i) (f (i / 2)%nat) = true ->
  ordered_but_up (fswap f i (i / 2)) n (i / 2).
Proof.
  intros [H1 H2] Hi Hlt. pose proof (half_lt i ltac:(lia)). set (p := (i / 2)%nat) in *.
  pose proof (swo_asym lt _ _ Hlt) as Hge. split; intros k Hk.
  - intros Hkp. pose proof (half_lt k ltac:(lia)). unfold fswap.
    destruct (decide (k = p)) as [|_]; [done|]. destruct (decide (k = i)) as [->|Hki].
    + fold p. rewrite decide_True by done. done.
    + destruct (decide (k / 2 = p)%nat) as [Ekp|].
      * rewrite Ekp in *.
        eapply swo_negtrans; [|exact Hge]. specialize (H1 k Hk Hki). by rewrite Ekp in H1.
      * destruct (decide (k / 2 = i)%nat) as [Eki|]; [|by apply H1].
        apply H2; (done || lia).
  - intros Ekp Hp. pose proof (half_lt k ltac:(lia)). pose proof (half_lt p ltac:(lia)). unfold fswap.
    rewrite (decide_False (P := k = p)) by lia.
    rewrite (decide_False (P := (p / 2)%nat = p)), (decide_False (P := (p / 2)%nat = i)) by lia.
    destruct (decide (k = i)) as [->|Hki].
    + apply H1; lia.
    + eapply swo_negtrans; [|apply (H1 p); lia]. specialize (H1 k Hk Hki). by rewrite Ekp in H1.
Qed.

Lemma sift_up_done f n i :
  ordered_but_up f n i -> (i <= 1)%nat \/ lt (f i) (f (i / 2)%nat) = false -> ordered f n.
Proof.
  intros [H1 _] Hi k Hk. destruct (decide (k = i)) as [->|]; [|by apply H1].
  destruct Hi; [lia | done].
Qed.

(** [m] is the child of [i] that is before [i] and before its sibling. *)
Lemma sift_down_step f n i m :
  ordered_but_down f n i -> (1 <= i)%nat -> (2 <= m <= n)%nat -> (m / 2 = i)%nat ->
  lt (f m) (f i) = true ->
  (forall k, (2 <= k <= n)%nat -> (k / 2 = i)%nat -> lt (f k) (f m) = false) ->
  ordered_but_down (fswap f i m) n m.
Proof.
  intros [H1 H2] Hi Hm Emi Hlt Hmin. pose proof (half_lt m ltac:(lia)).
  pose proof (swo_asym lt _ _ Hlt) as Hge. split; intros k Hk.
  - intros Hkm. pose proof (half_lt k ltac:(lia)). unfold fswap.
    rewrite (decide_False (P := (k / 2)%nat = m)) by done.
    destruct (decide (k = m)) as [->|Hne].
    + rewrite Emi, decide_True by done. done.
    + destruct (decide (k / 2 = i)%nat) as [Eki|].
      * rewrite (decide_False (P := k = i)) by lia. by apply Hmin.
      * destruct (decide (k = i)) as [->|]; [|by apply H1]. apply H2; [lia | done | lia].
  - intros Ekm Hm2. pose proof (half_lt k ltac:(lia)). unfold fswap. rewrite Emi.
    rewrite (decide_False (P := k = m)), (decide_False (P := k = i)),
      (decide_False (P := i = m)), (decide_True (P := i = i)) by lia.
    specialize (H1 k Hk). rewrite Ekm in H1. apply H1. lia.
Qed.

Lemma sift_down_done f n i :
  ordered_but_down f n i ->
  (forall k, (2 <= k <= n)%nat -> (k / 2 = i)%nat -> lt (f k) (f i) = false) -> ordered f n.
Proof.
  intros [H1 _] Hi k Hk. destruct (decide (k / 2 = i)%nat) as [E|]; [|by apply H1].
  rewrite E. by apply Hi.
Qed.

Lemma ordered_ext f g n :
  (forall k, (1 <= k <= n)%nat -> f k = g k) -> ordered f n -> ordered g n.
Proof.
  intros E H k Hk. pose proof (half_lt k ltac:(lia)). rewrite <- !E by lia. by apply H.
Qed.
End Order.

(** ** Arrays as functions *)

Section HeapProofs.
Context {T : Type} (compare : T -> T -> bool) (get_priority : T -> Z) (zero : T).
Abbreviation node := (binheap_node_t T).

(** The data at index [i]. *)
Definition dat (a : list node) (i : nat) : T := nd_data (nth i a (Node 0 0 true zero)).

(** The heap proper: the nodes [1 .. n], and their data. *)
Definition nodes (a : list node) (n : nat) : list node := take n (drop 1 a).
Definition live (a : list node) (n : nat) : list T := map nd_data (nodes a n).

Lemma rd_nat (a : list node) i :
  (i < length a)%nat -> rd a (Z.of_nat i) = Ok (nth i a (Node 0 0 true zero)).
Proof.
  intros Hi. destruct (rd_ok a (Z.of_nat i)) as (v & -> & Hv); [lia|].
  rewrite Nat2Z.id in Hv. by rewrite nth_lookup, Hv.
Qed.

Definition swapped (a : list node) (i j : nat) : list node :=
  <[j := nth i a (Node 0 0 true zero)]> (<[i := nth j a (Node 0 0 true zero)]> a).

Lemma heap_swap_ok a i j :
  (i < length a)%nat -> (j < length a)%nat ->
  HEAP_SWAP a (Z.of_nat i) (Z.of_nat j) = Ok (swapped a i j).
Proof.
  intros Hi Hj. unfold HEAP_SWAP. rewrite !rd_nat by done. cbn [mbind result_bind].
  rewrite !wr_ok by lia. cbn [mbind result_bind].
  rewrite wr_ok by (rewrite length_insert; lia). by rewrite !Nat2Z.id.
Qed.

Lemma swapped_length a i j : length (swapped a i j) = length a.
Proof. unfold swapped. by rewrite !length_insert. Qed.

Lemma dat_swapped a i j k :
  (i < length a)%nat -> (j < length a)%nat ->
  dat (swapped a i j) k = if decide (k = j) then dat a i else if decide (k = i) then dat a j else dat a k.
Proof.
  intros Hi Hj. unfold dat, swapped. rewrite !nth_lookup. case_decide as Ej.
  - subst k. by rewrite list_lookup_insert_eq by (by rewrite length_insert).
  - rewrite list_lookup_insert_ne by done. case_decide as Ei.
    + subst k. by rewrite list_lookup_insert_eq.
    + by rewrite list_lookup_insert_ne.
Qed.

Lemma nodes_insert a n i x :
  (1 <= i <= n)%nat -> nodes (<[i := x]> a) n = <[pred i := x]> (nodes a n).
Proof.
  intros Hi. unfold nodes. destruct i as [|i]; [lia|]. cbn [pred].
  rewrite drop_insert_ge by lia. rewrite Nat.sub_succ, Nat.sub_0_r.
  by rewrite take_insert_lt by lia.
Qed.

Lemma nodes_lookup a n i :
  (1 <= i <= n)%nat -> (n < length a)%nat ->
  nodes a n !! pred i = Some (nth i a (Node 0 0 true zero)).
Proof.
  intros Hi Hn. unfold nodes. rewrite lookup_take_lt, lookup_drop by lia.
  replace (1 + pred i)%nat with i by lia.
  destruct (lookup_lt_is_Some_2 a i) as [x Hx]; [lia|]. by rewrite nth_lookup, Hx.
Qed.

Lemma nodes_length a n : (n < length a)%nat -> length (nodes a n) = n.
Proof. intros Hn. unfold nodes. rewrite length_take, length_drop. lia. Qed.

Lemma nodes_swapped a n i j :
  (1 <= i <= n)%nat -> (1 <= j <= n)%nat -> (n < length a)%nat ->
  nodes (swapped a i j) n ≡ₚ nodes a n.
Proof.
  intros Hi Hj Hn. unfold swapped. rewrite !nodes_insert by lia.
  apply Permutation_insert_swap; by apply nodes_lookup.
Qed.

Lemma swapped_0 a i j : (1 <= i)%nat -> (1 <= j)%nat -> swapped a i j !! 0%nat = a !! 0%nat.
Proof. intros. unfold swapped. by rewrite !list_lookup_insert_ne by lia. Qed.

(** What both sift loops deliver: an ordered rearrangement of the heap. *)
Definition rearranged (a a' : list node) (n : nat) : Prop :=
  ordered compare (dat a') n /\ nodes a' n ≡ₚ nodes a n /\ length a' = length a /\
  a' !! 0%nat = a !! 0%nat.

Context `{!StrictWeakOrder compare}.

Lemma parent_nat i : (2 <= i)%nat -> HEAP_PARENT (Z.of_nat i) = Z.of_nat (i / 2).
Proof.
  intros Hi. unfold HEAP_PARENT. rewrite (proj2 (Z.eqb_neq _ _)) by lia.
  by rewrite Nat2Z.inj_div.
Qed.

Lemma sift_up_ok fuel a n i :
  (n < length a)%nat -> (1 <= i <= n)%nat -> (i < fuel)%nat ->
  ordered_but_up compare (dat a) n i ->
  exists a', sift_up compare fuel a (Z.of_nat i) = Ok a' /\ rearranged a a' n.
Proof.
  revert a i. induction fuel as [|fuel IH]; intros a i Hn Hi Hfuel Ho; [lia|].
  cbn [sift_up]. destruct (Z.ltb_spec 1 (Z.of_nat i)).
  - pose proof (half_lt i ltac:(lia)). rewrite parent_nat, !rd_nat by lia. cbn [mbind result_bind].
    fold (dat a i) (dat a (i / 2)%nat).
    destruct (compare (dat a i) (dat a (i / 2)%nat)) eqn:E.
    + rewrite heap_swap_ok by lia. cbn [mbind result_bind].
      destruct (IH (swapped a i (i / 2)) (i / 2)%nat) as (a' & Hrun & H1 & H2 & H3 & H4);
        [rewrite swapped_length; lia | lia | lia | |].
      * destruct (sift_up_step compare (dat a) n i Ho ltac:(lia) E) as [S1 S2].
        split; intros k Hk; pose proof (half_lt k ltac:(lia));
          rewrite !dat_swapped by lia; [apply S1 | apply S2]; done.
      * exists a'. split; [done|]. split; [done|]. split; [|split].
        -- by rewrite H2, nodes_swapped by lia.
        -- by rewrite H3, swapped_length.
        -- rewrite H4. apply swapped_0; lia.
    + exists a. split; [done|]. split; [|done].
      eapply sift_up_done; [done|]. by right.
  - exists a. split; [done|]. split; [|done]. eapply sift_up_done; [done|]. left. lia.
Qed.

(** The index [binheapify] exchanges with: the smallest of a node and its children. *)
Definition smallest (a : list node) (n i : nat) : nat :=
  let m := if decide (2 * i <= n)%nat then if compare (dat a (2 * i)) (dat a i) then (2 * i)%nat else i
           else i in
  if decide (2 * i + 1 <= n)%nat then if compare (dat a (2 * i + 1)) (dat a m) then (2 * i + 1)%nat else m
  else m.

Lemma double_cases k i : (k / 2 = i)%nat -> k = (2 * i)%nat \/ k = (2 * i + 1)%nat.
Proof. intros <-. pose proof (Nat.div_mod_eq k 2). pose proof (Nat.mod_upper_bound k 2). lia. Qed.

Lemma smallest_spec a n i :
  (1 <= i <= n)%nat ->
  let m := smallest a n i in
  (m = i /\ (forall k, (2 <= k <= n)%nat -> (k / 2 = i)%nat -> compare (dat a k) (dat a i) = false)) \/
  ((2 <= m <= n)%nat /\ (m / 2 = i)%nat /\ compare (dat a m) (dat a i) = true /\
   (forall k, (2 <= k <= n)%nat -> (k / 2 = i)%nat -> compare (dat a k) (dat a m) = false)).
Proof.
  intros Hi m. unfold m, smallest. pose proof (swo_asym compare) as Hasym.
  assert ((2 * i) / 2 = i)%nat as El by (rewrite Nat.mul_comm; by apply Nat.div_mul).
  assert ((2 * i + 1) / 2 = i)%nat as Er.
  { rewrite Nat.mul_comm, Nat.div_add_l by lia. rewrite Nat.add_0_r. done. }
  destruct (decide (2 * i <= n)%nat) as [Hl|Hl]; destruct (decide (2 * i + 1 <= n)%nat) as [Hr|Hr]; try lia.
  - destruct (compare (dat a (2 * i)) (dat a i)) eqn:Cl;
      [destruct (compare (dat a (2 * i + 1)) (dat a (2 * i))) eqn:Cr
      |destruct (compare (dat a (2 * i + 1)) (dat a i)) eqn:Cr].
    + right. split; [lia|]. split; [done|]. split; [by eapply swo_trans|].
      intros k Hk [->| ->]%double_cases; [by apply Hasym | apply swo_irrefl].
    + right. split; [lia|]. do 2 (split; [done|]).
      intros k Hk [->| ->]%double_cases; [apply swo_irrefl | done].
    + right. split; [lia|]. do 2 (split; [done|]).
      intros k Hk [->| ->]%double_cases; [|apply swo_irrefl].
      eapply swo_negtrans; [exact Cl | by apply Hasym].
    + left. split; [done|]. by intros k Hk [->| ->]%double_cases.
  - destruct (compare (dat a (2 * i)) (dat a i)) eqn:Cl.
    + right. split; [lia|]. do 2 (split; [done|]).
      intros k Hk [->| ->]%double_cases; [apply swo_irrefl | lia].
    + left. split; [done|]. intros k Hk [->| ->]%double_cases; (done || lia).
  - left. split; [done|]. intros k Hk [->| ->]%double_cases; lia.
Qed.

(** The two comparisons of [binheapify] compute [smallest]. *)
Lemma binheapify_unfold fuel a n i :
  (n < length a)%nat -> Z.of_nat n <= 32767 -> (1 <= i <= n)%nat ->
  binheapify compare (S fuel) (Z.of_nat n) a (Z.of_nat i) =
    if decide (smallest a n i = i) then Ok a
    else binheapify compare fuel (Z.of_nat n) (swapped a i (smallest a n i))
           (Z.of_nat (smallest a n i)).
Proof.
  intros Hn Hmax Hi. cbn [binheapify]. unfold HEAP_LEFT, HEAP_RIGHT.
  rewrite !u16_id by (unfold in_u; lia).
  replace (2 * Z.of_nat i + 1) with (Z.of_nat (2 * i + 1)) by lia.
  replace (2 * Z.of_nat i) with (Z.of_nat (2 * i)) by lia.
  unfold smallest. fold (dat a i).
  destruct (Z.leb_spec (Z.of_nat (2 * i)) (Z.of_nat n));
    destruct (decide (2 * i <= n)%nat); try lia;
    destruct (Z.leb_spec (Z.of_nat (2 * i + 1)) (Z.of_nat n));
    destruct (decide (2 * i + 1 <= n)%nat); try lia;
    rewrite ?rd_nat by lia; cbn [mbind result_bind]; repeat fold (dat a i) (dat a (2 * i)%nat);
    try (destruct (compare (dat a (2 * i)) (dat a i)));
    rewrite ?rd_nat by lia; cbn [mbind result_bind];
    repeat match goal with |- context [nd_data (nth ?k a _)] => fold (dat a k) end;
    try match goal with |- context [compare ?x ?y] => destruct (compare x y) end;
    repeat match goal with |- context [Z.of_nat ?x =? Z.of_nat ?y] =>
      destruct (Z.eqb_spec (Z.of_nat x) (Z.of_nat y)); try lia end;
    repeat case_decide; try lia; rewrite ?heap_swap_ok by lia; done.
Qed.

Lemma binheapify_ok fuel a n i :
  (n < length a)%nat -> Z.of_nat n <= 32767 -> (1 <= i <= n)%nat -> (n < i + fuel)%nat ->
  ordered_but_down compare (dat a) n i ->
  exists a', binheapify compare fuel (Z.of_nat n) a (Z.of_nat i) = Ok a' /\ rearranged a a' n.
Proof.
  revert a i. induction fuel as [|fuel IH]; intros a i Hn Hmax Hi Hfuel Ho; [lia|].
  rewrite binheapify_unfold by done.
  destruct (smallest_spec a n i Hi) as [[-> Hmin]|(Hm & Emi & Hlt & Hmin)].
  - rewrite decide_True by done. exists a. split; [done|]. split; [|done].
    by eapply sift_down_done.
  - set (m := smallest a n i) in *. pose proof (half_lt m ltac:(lia)).
    rewrite decide_False by lia.
    destruct (IH (swapped a i m) m) as (a' & Hrun & H1 & H2 & H3 & H4);
      [rewrite swapped_length; lia | done | lia | lia | |].
    + destruct (sift_down_step compare (dat a) n i m Ho ltac:(lia) Hm Emi Hlt Hmin) as [S1 S2].
      split; intros k Hk; pose proof (half_lt k ltac:(lia));
        rewrite !dat_swapped by lia; [apply S1 | apply S2]; done.
    + exists a'. split; [done|]. split; [done|]. split; [|split].
      * by rewrite H2, nodes_swapped by lia.
      * by rewrite H3, swapped_length.
      * rewrite H4. apply swapped_0; lia.
Qed.
End HeapProofs.
