(* ===== verification/HeapSpec.v ===== *)
(** * The binary heap is a priority queue: theorems

    The contents of a heap are a multiset; insertion adds to it, [head] takes a
    minimal element out of it, both keep the heap order, and draining a heap
    sorts.  [remove] deletes the right element but keeps the order only when
    the last element may stand under the parent of the hole. *)
From Stdlib Require Import ZArith Lia Sorted.
From stdpp Require Import prelude.
From S2P Require Import Prelude Heap.

Local Open Scope Z_scope.

Section PriorityQueue.
Context {T : Type} (compare : T -> T -> bool) (get_priority : T -> Z) (zero : T).
Context `{!StrictWeakOrder compare}.
Abbreviation node := (binheap_node_t T).

Definition contents (h : binheap_t T) : list T := live (h_elements h) (Z.to_nat (h_count h)).

Definition sentinel_at_0 (a : list node) : Prop :=
  exists e, a !! 0%nat = Some e /\ nd_sentinel e = true.
Definition real (e : node) : Prop := nd_sentinel e = false.

(** The shape of a heap; [heap_wf] adds the heap order. *)
Definition heap_shape (h : binheap_t T) : Prop :=
  0 <= h_count h <= h_size h /\ h_size h <= 32767 /\
  length (h_elements h) = S (Z.to_nat (h_size h)) /\ sentinel_at_0 (h_elements h) /\
  Forall real (nodes (h_elements h) (Z.to_nat (h_count h))).
Definition heap_wf (h : binheap_t T) : Prop :=
  heap_shape h /\ ordered compare (dat zero (h_elements h)) (Z.to_nat (h_count h)).

Lemma live_perm (a a' : list node) n n' : nodes a n ≡ₚ nodes a' n' -> live a n ≡ₚ live a' n'.
Proof. intros H. unfold live. by apply (fmap_Permutation nd_data) in H. Qed.

Lemma binheap_init_wf n : 0 <= n <= 32767 -> heap_wf (binheap_init zero n) /\ contents (binheap_init zero n) = [].
Proof.
  intros Hn. split; [split|done].
  - repeat split; simpl; try lia; [by rewrite length_replicate | by eexists | constructor].
  - intros k Hk. simpl in Hk. lia.
Qed.

(** ** Insertion *)

Lemma nodes_snoc (a : list node) n e :
  (S n < length a)%nat -> nodes (<[S n := e]> a) (S n) = nodes a n ++ [e].
Proof.
  intros Hn. unfold nodes. rewrite drop_insert_ge by lia.
  replace (S n - 1)%nat with n by lia.
  destruct (lookup_lt_is_Some_2 (drop 1 a) n) as [x Hx]; [rewrite length_drop; lia|].
  rewrite (take_S_r _ _ e).
  - by rewrite take_insert_ge.
  - apply list_lookup_insert_eq. rewrite length_drop. lia.
Qed.

Lemma dat_insert (a : list node) i e k :
  (i < length a)%nat -> dat zero (<[i := e]> a) k = if decide (k = i) then nd_data e else dat zero a k.
Proof.
  intros Hi. unfold dat. rewrite !nth_lookup. case_decide as E.
  - subst k. by rewrite list_lookup_insert_eq.
  - by rewrite list_lookup_insert_ne.
Qed.

Lemma insert_ok h x :
  heap_wf h -> h_count h < h_size h ->
  exists h', binheap_insert compare get_priority h x = Ok h' /\ heap_wf h' /\
    h_size h' = h_size h /\ h_count h' = h_count h + 1 /\ contents h' ≡ₚ x :: contents h.
Proof.
  intros [(Hc & Hs & Hl & [e0 [He0 Hs0]] & Hr) Ho] Hlt. unfold binheap_insert.
  rewrite (proj2 (Z.ltb_lt _ _)) by done. cbn [c_assert mbind result_bind].
  rewrite u16_id by (unfold in_u; lia). rewrite (proj2 (Z.eqb_neq _ 0)) by lia.
  cbn [c_assert negb mbind result_bind]. set (n := Z.to_nat (h_count h)) in *.
  replace (h_count h + 1) with (Z.of_nat (S n)) by lia.
  rewrite upd_ok by lia. cbn [mbind result_bind]. rewrite Nat2Z.id.
  destruct (lookup_lt_is_Some_2 (h_elements h) (S n)) as [e He]; [lia|].
  set (e' := Node (nd_id e) (get_priority x) false x).
  assert (alter (fun e => Node (nd_id e) (get_priority x) false x) (S n) (h_elements h) =
          <[S n := e']> (h_elements h)) as ->.
  { rewrite list_insert_alter. apply list_alter_ext; [|done]. intros y Hy. rewrite He in Hy. by injection Hy as <-. }
  destruct (sift_up_ok compare zero (S (S n)) (<[S n := e']> (h_elements h)) (S n) (S n))
    as (a' & -> & Hord & Hperm & Hlen & H0); [rewrite length_insert; lia | lia | lia | |].
  - split; intros k Hk; pose proof (half_lt k ltac:(lia)).
    + intros Hne. rewrite !dat_insert, !decide_False by lia. apply Ho. lia.
    + intros Ek. lia.
  - cbn [mbind result_bind]. rewrite nodes_snoc in Hperm by lia.
    eexists. split; [done|]. unfold contents. cbn [h_count h_elements h_size].
    rewrite Nat2Z.id. split; [split; [split; [|split; [|split; [|split]]]|]|split; [done|split; [lia|]]];
      cbn [h_count h_elements h_size]; rewrite ?Nat2Z.id; try (lia || done).
    + rewrite Hlen, length_insert. done.
    + exists e0. rewrite H0, list_lookup_insert_ne by lia. done.
    + rewrite Hperm. apply Forall_app. split; [done|]. by repeat constructor.
    + unfold live. rewrite Hperm, map_app. simpl. by rewrite Permutation_app_comm.
Qed.

Lemma insert_full h x :
  h_count h = h_size h -> binheap_insert compare get_priority h x = Err Assert_failed.
Proof. intros H. unfold binheap_insert. by rewrite H, Z.ltb_irrefl. Qed.

(** ** Taking the head *)

Lemma first_ok h :
  heap_wf h -> 0 < h_count h ->
  exists x, binheap_first h = Ok x /\ x = dat zero (h_elements h) 1 /\ x ∈ contents h /\
    forall y, y ∈ contents h -> compare y x = false.
Proof.
  intros [(Hc & Hs & Hl & _ & Hr) Ho] Hpos. set (n := Z.to_nat (h_count h)) in *.
  pose proof (nodes_lookup zero (h_elements h) n 1 ltac:(lia) ltac:(lia)) as H1.
  pose proof (Forall_lookup_1 _ _ _ _ Hr H1) as Hreal.
  unfold binheap_first. rewrite (proj2 (Z.ltb_lt _ _)) by done. cbn [c_assert mbind result_bind].
  change 1 with (Z.of_nat 1). rewrite (rd_nat zero) by lia. cbn [mbind result_bind].
  rewrite Hreal. cbn [negb c_assert mbind result_bind].
  eexists. split; [done|]. split; [done|]. split.
  - unfold contents, live. apply list_elem_of_fmap. eexists. split; [done|].
    by eapply list_elem_of_lookup_2.
  - intros y Hy. unfold contents, live in Hy. fold n in Hy.
    apply list_elem_of_fmap in Hy as (e & -> & He). apply list_elem_of_lookup in He as [k Hk].
    assert (k < n)%nat as Hkn.
    { apply lookup_lt_Some in Hk. rewrite nodes_length in Hk; lia. }
    pose proof (nodes_lookup zero (h_elements h) n (S k) ltac:(lia) ltac:(lia)) as Hk'.
    cbn [pred] in Hk'. rewrite Hk' in Hk. injection Hk as <-.
    apply (ordered_root compare (dat zero (h_elements h)) n (S k)); [done | lia].
Qed.

(** Removing the root: what is left below it. *)
Lemma nodes_pop (a : list node) n last :
  (1 <= n)%nat -> (S n < length a)%nat -> nodes a (S n) !! n = Some last ->
  nth 1 a (Node 0 0 true zero) :: nodes (<[1%nat := last]> a) n ≡ₚ nodes a (S n).
Proof.
  intros Hn Hl Hlast. rewrite nodes_insert by lia. cbn [pred].
  pose proof (nodes_lookup zero a (S n) 1 ltac:(lia) ltac:(lia)) as H1. cbn [pred] in H1.
  assert (nodes a (S n) = nodes a n ++ [last]) as E.
  { unfold nodes in *. apply take_S_r. by rewrite lookup_take_lt in Hlast by lia. }
  rewrite E in *. pose proof (nodes_length a n ltac:(lia)) as Hlen.
  destruct (nodes a n) as [|x l]; [simpl in Hlen; lia|].
  simpl in H1. injection H1 as <-. simpl. rewrite (Permutation_app_comm l). done.
Qed.

Lemma head_ok h :
  heap_wf h -> 0 < h_count h ->
  exists x h', binheap_head compare h = Ok (x, h') /\ binheap_first h = Ok x /\ heap_wf h' /\
    h_size h' = h_size h /\ h_count h' = h_count h - 1 /\ contents h ≡ₚ x :: contents h' /\
    forall y, y ∈ contents h -> compare y x = false.
Proof.
  intros Hwf Hpos. destruct (first_ok h Hwf Hpos) as (x & Hfirst & Hx & _ & Hmin).
  destruct Hwf as [(Hc & Hs & Hl & [e0 [He0 Hs0]] & Hr) Ho].
  set (n := Z.to_nat (h_count h)) in *. destruct n as [|m] eqn:En; [lia|].
  assert (h_count h = Z.of_nat (S m)) as Hcn by lia.
  pose proof Hfirst as Hf0. unfold binheap_first in Hfirst. unfold binheap_head.
  destruct (c_assert (0 <? h_count h)) eqn:Ea; cbn [mbind result_bind] in *; [|done].
  destruct (rd (h_elements h) 1) as [e1|] eqn:E1; cbn [mbind result_bind] in *; [|done].
  destruct (c_assert (negb (nd_sentinel e1))) eqn:Es; cbn [mbind result_bind] in *; [|done].
  injection Hfirst as <-. rewrite Hcn, (rd_nat zero) by lia. cbn [mbind result_bind].
  set (last := nth (S m) (h_elements h) (Node 0 0 true zero)).
  rewrite (wr_ok _ 1) by lia. cbn [mbind result_bind]. change (Z.to_nat 1) with 1%nat.
  set (a1 := <[1%nat := last]> (h_elements h)).
  assert (length a1 = S (Z.to_nat (h_size h))) as Hl1 by (unfold a1; by rewrite length_insert).
  assert (rd a1 0 = Ok e0) as ->.
  { apply rd_lookup. split; [done|]. unfold a1. by rewrite list_lookup_insert_ne. }
  cbn [mbind result_bind]. rewrite wr_ok by lia. cbn [mbind result_bind]. rewrite Nat2Z.id.
  set (a2 := <[S m := e0]> a1). replace (Z.of_nat (S m) - 1) with (Z.of_nat m) by lia.
  rewrite u16_id by (unfold in_u; lia). unfold heapify. cbn [h_count h_size h_elements].
  assert (length a2 = S (Z.to_nat (h_size h))) as Hl2 by (unfold a2; by rewrite length_insert).
  assert (a2 !! 0%nat = Some e0) as H20.
  { unfold a2, a1. by rewrite !list_lookup_insert_ne. }
  assert (nodes a2 m = nodes a1 m) as Hn2.
  { unfold nodes, a2. rewrite drop_insert_ge by lia. replace (S m - 1)%nat with m by lia.
    by rewrite take_insert_ge. }
  assert (exists a', binheapify compare (S (Z.to_nat (Z.of_nat m))) (Z.of_nat m) a2 (Z.of_nat 1) = Ok a' /\
    rearranged compare zero a2 a' m) as (a' & Hrun & Hord & Hperm & Hlen & H0).
  { destruct m as [|m'].
    - exists a2. split; [done|]. split; [|done]. intros k Hk. lia.
    - apply binheapify_ok; try lia; [apply _|]. split; intros k Hk; pose proof (half_lt k ltac:(lia)); [|lia].
      intros Hk2. unfold a2, a1. rewrite !dat_insert by (rewrite ?length_insert; lia).
      
      rewrite !decide_False by lia. apply Ho. lia. }
  change (Z.of_nat 1) with 1 in Hrun. rewrite Hrun. cbn [mbind result_bind].
  assert (contents h ≡ₚ nd_data e1 :: live a' m) as Hcont.
  { unfold contents. replace (Z.to_nat (h_count h)) with (S m) by lia. unfold live. rewrite Hperm, Hn2.
    assert (nth 1 (h_elements h) (Node 0 0 true zero) = e1) as E1'.
    { change 1 with (Z.of_nat 1) in E1. rewrite (rd_nat zero) in E1 by lia. by injection E1. }
    destruct m as [|m'].
    - pose proof (nodes_lookup zero (h_elements h) 1 1 ltac:(lia) ltac:(lia)) as H1.
      pose proof (nodes_length (h_elements h) 1 ltac:(lia)) as Hl1'.
      destruct (nodes (h_elements h) 1) as [|y [|? ?]]; try discriminate.
      simpl in H1. injection H1 as ->. by rewrite E1'.
    - rewrite <- E1'. change (nd_data ?e :: map nd_data ?l) with (map nd_data (e :: l)).
      symmetry. apply (fmap_Permutation nd_data). apply nodes_pop; [lia | lia |].
      apply (nodes_lookup zero _ _ (S (S m'))); lia. }
  eexists _, _. split; [done|]. split; [exact Hf0|].
  cbn [h_count h_size h_elements]. split; [split; [split; [|split; [|split; [|split]]]|]|];
    cbn [h_count h_size h_elements]; rewrite ?Nat2Z.id; try (lia || done).
  - exists e0. by rewrite H0.
  - rewrite Hperm, Hn2. apply Forall_forall. intros y Hy. rewrite Forall_forall in Hr. apply Hr.
    destruct m as [|m']; [by apply not_elem_of_nil in Hy|].
    rewrite <- (nodes_pop (h_elements h) (S m') last); [by right | lia | lia |].
    apply (nodes_lookup zero _ _ (S (S m'))); lia.
  - split; [done|]. split; [lia|]. split; [|done]. unfold contents. cbn [h_count h_elements].
    by rewrite Nat2Z.id.
Qed.

Lemma head_empty h : h_count h = 0 -> binheap_head compare h = Err Assert_failed.
Proof. intros H. unfold binheap_head. by rewrite H. Qed.

(** ** Removal by index *)

Lemma binheapify_leaf fuel (a : list node) n i :
  (1 <= i)%nat -> Z.of_nat i <= 32767 -> (n < 2 * i)%nat ->
  binheapify compare (S fuel) (Z.of_nat n) a (Z.of_nat i) = Ok a.
Proof.
  intros Hi Hmax Hn. cbn [binheapify]. unfold HEAP_LEFT, HEAP_RIGHT.
  rewrite !u16_id by (unfold in_u; lia).
  rewrite !(proj2 (Z.leb_gt _ _)) by lia. cbn [mbind result_bind]. by rewrite Z.eqb_refl.
Qed.

(** Whatever the order, sifting down only rearranges. *)
Lemma binheapify_perm fuel (a : list node) n i :
  (n < length a)%nat -> Z.of_nat n <= 32767 -> (1 <= i <= n)%nat -> (n < i + fuel)%nat ->
  exists a', binheapify compare fuel (Z.of_nat n) a (Z.of_nat i) = Ok a' /\
    nodes a' n ≡ₚ nodes a n /\ length a' = length a /\ a' !! 0%nat = a !! 0%nat.
Proof.
  revert a i. induction fuel as [|fuel IH]; intros a i Hn Hmax Hi Hfuel; [lia|].
  rewrite (binheapify_unfold compare zero) by done.
  destruct (smallest_spec compare zero a n i Hi) as [[-> _]|(Hm & Emi & _)].
  - rewrite decide_True by done. by exists a.
  - set (m := smallest compare zero a n i) in *. pose proof (half_lt m ltac:(lia)).
    rewrite decide_False by lia.
    destruct (IH (swapped zero a i m) m) as (a' & Hrun & H2 & H3 & H4);
      [rewrite swapped_length; lia | done | lia | lia |].
    exists a'. split; [done|]. split; [|split].
    + by rewrite H2, nodes_swapped by lia.
    + by rewrite H3, swapped_length.
    + rewrite H4. apply swapped_0; lia.
Qed.

(** The heap below a hole filled with the last element. *)
Lemma ordered_but_down_hole (a : list node) m i :
  (S m < length a)%nat -> (1 <= i <= m)%nat -> ordered compare (dat zero a) (S m) ->
  i = 1%nat \/ compare (dat zero a (S m)) (dat zero a (i / 2)) = false ->
  ordered_but_down compare (dat zero (swapped zero a i (S m))) m i.
Proof.
  intros Hl Hi Ho Hlast. split; intros k Hk; pose proof (half_lt k ltac:(lia)).
  - intros Hne. rewrite !dat_swapped by lia.
    rewrite (decide_False (P := k = S m)), (decide_False (P := (k / 2)%nat = S m)),
      (decide_False (P := (k / 2)%nat = i)) by lia.
    destruct (decide (k = i)) as [->|]; [|apply Ho; lia]. destruct Hlast; [lia | done].
  - intros Ek Hi2. pose proof (half_lt i Hi2). rewrite !dat_swapped by lia.
    rewrite (decide_False (P := k = S m)), (decide_False (P := k = i)),
      (decide_False (P := (i / 2)%nat = S m)), (decide_False (P := (i / 2)%nat = i)) by lia.
    eapply swo_negtrans; [apply (Ho k); lia|]. rewrite Ek. apply Ho. lia.
Qed.

Lemma nodes_swap_last (a : list node) m i :
  (S m < length a)%nat -> (1 <= i <= S m)%nat ->
  nodes a (S m) ≡ₚ nth i a (Node 0 0 true zero) :: nodes (swapped zero a i (S m)) m.
Proof.
  intros Hl Hi. rewrite <- (nodes_swapped zero a (S m) i (S m)) by lia.
  assert (nodes (swapped zero a i (S m)) (S m) =
          nodes (swapped zero a i (S m)) m ++ [nth i a (Node 0 0 true zero)]) as ->.
  { unfold nodes. apply take_S_r. rewrite lookup_drop. unfold swapped.
    apply list_lookup_insert_eq. rewrite length_insert. simpl. lia. }
  by rewrite Permutation_app_comm.
Qed.

Lemma remove_ok h i :
  heap_wf h -> (1 <= i <= Z.to_nat (h_count h))%nat ->
  exists h', binheap_remove compare zero h (Z.of_nat i) = Ok (dat zero (h_elements h) i, h') /\
    heap_shape h' /\ h_size h' = h_size h /\ h_count h' = h_count h - 1 /\
    contents h ≡ₚ dat zero (h_elements h) i :: contents h' /\
    (i = 1%nat \/ i = Z.to_nat (h_count h) \/
     compare (dat zero (h_elements h) (Z.to_nat (h_count h))) (dat zero (h_elements h) (i / 2)) = false ->
     heap_wf h').
Proof.
  intros [(Hc & Hs & Hl & [e0 [He0 Hs0]] & Hr) Ho] Hi.
  destruct (Z.to_nat (h_count h)) as [|m] eqn:En; [lia|].
  assert (h_count h = Z.of_nat (S m)) as Hcn by lia.
  unfold binheap_remove. rewrite Hcn, !(proj2 (Z.leb_le _ _)) by lia. cbn [andb].
  rewrite (rd_nat zero) by lia. cbn [mbind result_bind].
  rewrite (heap_swap_ok zero) by lia. cbn [mbind result_bind].
  replace (Z.of_nat (S m) - 1) with (Z.of_nat m) by lia. rewrite u16_id by (unfold in_u; lia).
  unfold heapify. cbn [h_count h_size h_elements]. set (a1 := swapped zero (h_elements h) i (S m)).
  assert (length a1 = S (Z.to_nat (h_size h))) as Hl1 by (unfold a1; by rewrite swapped_length).
  assert (a1 !! 0%nat = Some e0) as H10 by (unfold a1; by rewrite swapped_0 by lia).
  pose proof (nodes_swap_last (h_elements h) m i ltac:(lia) Hi) as Hperm1. fold a1 in Hperm1.
  assert (exists a', binheapify compare (S (Z.to_nat (Z.of_nat m))) (Z.of_nat m) a1 (Z.of_nat i) = Ok a' /\
    nodes a' m ≡ₚ nodes a1 m /\ length a' = length a1 /\ a' !! 0%nat = a1 !! 0%nat /\
    (i = 1%nat \/ i = S m \/ compare (dat zero (h_elements h) (S m)) (dat zero (h_elements h) (i / 2)) = false ->
     ordered compare (dat zero a') m)) as (a' & -> & Hperm & Hlen & H0 & Hord).
  { destruct (decide (i = S m)) as [->|Hne].
    - rewrite binheapify_leaf by lia. exists a1. do 4 (split; [done|]). intros _ k Hk.
      pose proof (half_lt k ltac:(lia)). unfold a1.
      rewrite !dat_swapped, !decide_False by lia. apply Ho. lia.
    - destruct (binheapify_perm (S (Z.to_nat (Z.of_nat m))) a1 m i) as (a' & Hrun & Hp & Hle & H0); try lia.
      exists a'. do 4 (split; [done|]). intros Hcond.
      destruct (binheapify_ok compare zero (S (Z.to_nat (Z.of_nat m))) a1 m i) as (a'' & Hrun' & Hord & _); try lia.
      + apply ordered_but_down_hole; [lia | lia | done |].
        destruct Hcond as [?|[?|?]]; [by left | done | by right].
      + rewrite Hrun in Hrun'. by injection Hrun' as ->. }
  cbn [mbind result_bind]. eexists. split; [done|].
  assert (heap_shape (Heap (Z.of_nat m) (h_size h) a')) as Hshape.
  { split; [|split; [|split; [|split]]]; cbn [h_count h_size h_elements]; rewrite ?Nat2Z.id; try (lia || done).
    - exists e0. by rewrite H0.
    - rewrite Hperm. apply (Forall_cons_1 _ (nth i (h_elements h) (Node 0 0 true zero))). by rewrite <- Hperm1. }
  split; [done|]. split; [done|]. split; [simpl; lia|]. split.
  - unfold contents. cbn [h_count h_elements]. rewrite Nat2Z.id, En. unfold live. rewrite Hperm.
    apply (fmap_Permutation nd_data) in Hperm1. exact Hperm1.
  - intros Hcond. split; [done|]. cbn [h_count h_elements]. rewrite Nat2Z.id. by apply Hord.
Qed.

(** ** Draining *)

Fixpoint insert_all (xs : list T) (h : binheap_t T) : result (binheap_t T) :=
  match xs with
  | [] => Ok h
  | x :: xs' => h ← binheap_insert compare get_priority h x; insert_all xs' h
  end.

Fixpoint pop_all (n : nat) (h : binheap_t T) : result (list T * binheap_t T) :=
  match n with
  | O => Ok ([], h)
  | S n' => '(x, h) ← binheap_head compare h; '(out, h) ← pop_all n' h; Ok (x :: out, h)
  end.

Lemma insert_all_ok xs h :
  heap_wf h -> h_count h + Z.of_nat (length xs) <= h_size h ->
  exists h', insert_all xs h = Ok h' /\ heap_wf h' /\
    h_count h' = h_count h + Z.of_nat (length xs) /\ contents h' ≡ₚ xs ++ contents h.
Proof.
  revert h. induction xs as [|x xs IH]; intros h Hwf Hlen; cbn [insert_all length] in *.
  - exists h. do 2 (split; [done|]). split; [lia | done].
  - destruct (insert_ok h x Hwf ltac:(lia)) as (h1 & -> & Hwf1 & Hs1 & Hc1 & Hp1).
    cbn [mbind result_bind]. destruct (IH h1 Hwf1 ltac:(lia)) as (h' & -> & Hwf' & Hc' & Hp').
    exists h'. do 2 (split; [done|]). split; [lia|]. rewrite Hp', Hp1. simpl.
    by rewrite Permutation_middle.
Qed.

(** Every element is not before any earlier one. *)
Definition sorted : list T -> Prop := StronglySorted (fun x y => compare y x = false).

Lemma pop_all_ok n h :
  heap_wf h -> h_count h = Z.of_nat n ->
  exists out h', pop_all n h = Ok (out, h') /\ heap_wf h' /\ h_count h' = 0 /\
    out ≡ₚ contents h /\ sorted out.
Proof.
  revert h. induction n as [|n IH]; intros h Hwf Hn; cbn [pop_all].
  - exists [], h. do 2 (split; [done|]). split; [done|]. split; [|constructor].
    unfold contents, live, nodes. by rewrite Hn.
  - destruct (head_ok h Hwf ltac:(lia)) as (x & h1 & -> & _ & Hwf1 & _ & Hc1 & Hp1 & Hmin).
    cbn [mbind result_bind]. destruct (IH h1 Hwf1 ltac:(lia)) as (out & h' & -> & Hwf' & Hc' & Hp' & Hsort).
    cbn [mbind result_bind]. exists (x :: out), h'. do 3 (split; [done|]). split.
    + by rewrite Hp1, Hp'.
    + constructor; [done|]. apply Forall_forall. intros y Hy. apply Hmin.
      rewrite Hp1. right. by rewrite <- Hp'.
Qed.

(** C28: the heap implements a priority queue.  On a well-formed heap (at most
    32767 places) insertion into a full heap and taking the head of an empty
    one fail their assertion; otherwise both succeed and keep the heap well
    formed, insertion adds the element to the multiset of contents, and
    [head] returns what [first] shows: an element no other element is
    before, and removes exactly it. *)
Theorem binheap_priority_queue h x :
  heap_wf h ->
  (h_count h = h_size h -> binheap_insert compare get_priority h x = Err Assert_failed) /\
  (h_count h < h_size h -> exists h', binheap_insert compare get_priority h x = Ok h' /\
     heap_wf h' /\ h_size h' = h_size h /\ contents h' ≡ₚ x :: contents h) /\
  (binheap_is_empty h = true -> binheap_head compare h = Err Assert_failed) /\
  (binheap_is_empty h = false -> exists y h', binheap_head compare h = Ok (y, h') /\
     binheap_first h = Ok y /\ heap_wf h' /\ h_size h' = h_size h /\
     contents h ≡ₚ y :: contents h' /\ forall z, z ∈ contents h -> compare z y = false).
Proof.
  intros Hwf. unfold binheap_is_empty. split; [by apply insert_full|]. split; [|split].
  - intros Hlt. destruct (insert_ok h x Hwf Hlt) as (h' & ? & ? & ? & _ & ?). by exists h'.
  - intros H%Z.eqb_eq. by apply head_empty.
  - intros H%Z.eqb_neq. destruct (head_ok h Hwf) as (y & h' & ? & ? & ? & ? & _ & ? & ?).
    + destruct Hwf as [(Hc & _) _]. lia.
    + by exists y, h'.
Qed.

(** Draining sorts.  Inserting up to [size] elements into a new heap and
    taking the head as often gives the same elements, in an order where none
    is before an earlier one, and an empty heap. *)
Theorem binheap_sorts xs size :
  Z.of_nat (length xs) <= size <= 32767 ->
  exists h out h', insert_all xs (binheap_init zero size) = Ok h /\
    pop_all (length xs) h = Ok (out, h') /\ out ≡ₚ xs /\ sorted out /\
    binheap_is_empty h' = true.
Proof.
  intros Hlen. destruct (binheap_init_wf size ltac:(lia)) as [Hwf0 Hc0].
  destruct (insert_all_ok xs (binheap_init zero size) Hwf0) as (h & Hi & Hwf & Hc & Hp); [simpl; lia|].
  destruct (pop_all_ok (length xs) h Hwf ltac:(simpl in Hc; lia)) as (out & h' & Hpop & _ & He & Hp' & Hs).
  exists h, out, h'. do 2 (split; [done|]). split; [|split; [done|]].
  - by rewrite Hp', Hp, Hc0, app_nil_r.
  - unfold binheap_is_empty. by rewrite He.
Qed.

(** Removal by index.  An index outside [1 .. count] returns the zero
    element and leaves the heap alone; a valid index always returns and
    deletes exactly that element and keeps the shape; the heap order is kept
    when the index is the root or the last one, or the last element is not
    before the parent of the hole ([binheapify] only moves it downwards). *)
Theorem binheap_remove_spec h i :
  heap_wf h -> 0 <= i ->
  (i = 0 \/ h_count h < i -> binheap_remove compare zero h i = Ok (zero, h)) /\
  (1 <= i <= h_count h ->
   let at_i := dat zero (h_elements h) (Z.to_nat i) in
   let last := dat zero (h_elements h) (Z.to_nat (h_count h)) in
   exists h', binheap_remove compare zero h i = Ok (at_i, h') /\ heap_shape h' /\
     h_count h' = h_count h - 1 /\ contents h ≡ₚ at_i :: contents h' /\
     (i = 1 \/ i = h_count h \/
      compare last (dat zero (h_elements h) (Z.to_nat i / 2)) = false -> heap_wf h')).
Proof.
  intros Hwf Hi. split.
  - intros Hout. unfold binheap_remove.
    assert ((i <=? h_count h) && (1 <=? i) = false) as ->; [|done].
    destruct (Z.leb_spec i (h_count h)), (Z.leb_spec 1 i); (done || lia).
  - intros Hin. destruct (remove_ok h (Z.to_nat i) Hwf ltac:(lia)) as (h' & Hrun & Hsh & _ & Hc & Hp & Hord).
    rewrite Z2Nat.id in Hrun by lia. exists h'. do 4 (split; [done|]).
    intros Hcond. apply Hord. destruct Hcond as [->|[->|?]]; [by left | right; by left | right; by right].
Qed.
End PriorityQueue.

(** ** Instances *)

#[export] Instance Zlt_swo : StrictWeakOrder Z.ltb.
Proof.
  split.
  - apply Z.ltb_irrefl.
  - intros x y z. rewrite !Z.ltb_lt. lia.
  - intros x y z. rewrite !Z.ltb_ge. lia.
Qed.

Lemma binheap_priority_queue_witness :
  exists h', binheap_insert Z.ltb (fun x => x) (binheap_init 0 4) 7 = Ok h' /\ contents h' ≡ₚ [7].
Proof.
  destruct (binheap_priority_queue Z.ltb (fun x => x) 0 (binheap_init 0 4) 7) as (_ & H & _).
  - apply binheap_init_wf. lia.
  - destruct (H ltac:(reflexivity)) as (h' & Hr & _ & _ & Hp). exists h'. split; [exact Hr | exact Hp].
Defined.

Lemma binheap_sorts_witness :
  exists h out h', insert_all Z.ltb (fun x => x) [5; 2; 9; 2; 7] (binheap_init 0 5) = Ok h /\
    pop_all Z.ltb 5 h = Ok (out, h') /\ sorted Z.ltb out.
Proof.
  destruct (binheap_sorts Z.ltb (fun x => x) 0 [5; 2; 9; 2; 7] 5 ltac:(simpl; lia))
    as (h & out & h' & Hi & Hp & _ & Hs & _).
  exists h, out, h'. split; [exact Hi|]. split; [exact Hp | exact Hs].
Defined.

Definition heap_example : binheap_t Z :=
  Heap 2 3 [Node 0 0 true 0; Node 0 4 false 4; Node 0 7 false 7; Node 0 0 false 0].

Lemma binheap_remove_spec_witness :
  exists h', binheap_remove Z.ltb 0 heap_example 1 = Ok (4, h') /\ h_count h' = 1.
Proof.
  destruct (binheap_remove_spec Z.ltb 0 heap_example 1) as (_ & H).
  - split; [repeat split; simpl; try lia; [by eexists | by repeat constructor]|].
    intros k Hk. change (Z.to_nat (h_count heap_example)) with 2%nat in Hk.
    assert (k = 2%nat) as -> by lia. reflexivity.
  - lia.
  - destruct (H ltac:(simpl; lia)) as (h' & Hr & _ & Hc & _). exists h'. split; [exact Hr | exact Hc].
Defined.

(** Removal can break the heap order: with 3 moved below 10 the heap is not
    ordered any more, although it was before. *)
Lemma binheap_remove_breaks_order :
  exists h h' x, insert_all Z.ltb (fun x => x) [1; 10; 2; 11; 12; 3] (binheap_init 0 6) = Ok h /\
    ordered Z.ltb (dat 0 (h_elements h)) 6 /\
    binheap_remove Z.ltb 0 h 4 = Ok (x, h') /\ ~ ordered Z.ltb (dat 0 (h_elements h')) 5.
Proof.
  do 3 eexists. split; [vm_compute; reflexivity|]. split; [|split; [vm_compute; reflexivity|]].
  - intros k Hk. assert (k = 2 \/ k = 3 \/ k = 4 \/ k = 5 \/ k = 6)%nat as Hcases by lia.
    destruct Hcases as [->|[->|[->|[->| ->]]]]; reflexivity.
  - intros H. specialize (H 4%nat ltac:(lia)). discriminate H.
Qed.
