(* ===== verification/Jobqueue.v ===== *)
(** * The job queue: [src/np_jobqueue.c]

    One binary heap of jobs per priority; worker threads take the earliest due
    job of the most important queue they may serve.  Timestamps are finite
    doubles, taken as rationals; [rnd] is the rounding of a sum or difference
    ([fmin] and [fmax] are exact).  Locks make every operation one step on the
    state; a failed try-lock is an argument of the selection. *)
From Stdlib Require Import ZArith Lia QArith.
From stdpp Require Import prelude.
From S2P Require Import Prelude Real Dhkey Heap.

Local Open Scope Z_scope.

Definition NP_PRIORITY_MAX_QUEUES : Z := 4.
Definition NP_PRIORITY_HIGHEST : Z := 0.
Definition NP_PRIORITY_HIGH : Z := 1.
Definition NP_PRIORITY_LOW : Z := 3.
Definition NP_PRIORITY_LOWEST : Z := 4.
Definition NP_SLEEP_MIN : Q := NP_PI / 1000.
Definition NP_JOBQUEUE_MAX_SLEEPTIME_SEC : Q := NP_PI / 100.

Section Jobqueue.
(** [Event] is [np_util_event_t], [Callback] the processor functions. *)
Context {Event Callback : Type} (event0 : Event) (rnd : Q -> Q).

(** [struct np_job_s] (without the unused search fields and the debug name). *)
Record np_job_t := Job {
  jb_type : Z;
  exec_not_before_tstamp : Q;
  interval : Q;
  is_periodic : bool;
  evt : Event;
  next : np_dhkey_t;
  priority : Z;
  __del_processorFuncs : bool;
  processorFuncs : option (list (option Callback));
}.

(** [np_job_t job = {0}]. *)
Definition job0 : np_job_t := Job 0 0%Q 0%Q false event0 dhkey_zero 0 false None.

Definition _np_job_compare_job_scheduling (job1 new_job : np_job_t) : Z :=
  if Qltb (exec_not_before_tstamp new_job) (exec_not_before_tstamp job1) then -1
  else if Qltb (exec_not_before_tstamp job1) (exec_not_before_tstamp new_job) then 1
  else if priority new_job <? priority job1 then -1
  else if priority job1 <? priority new_job then 1
  else 0.

Definition np_job_t_compare (i j : np_job_t) : bool :=
  _np_job_compare_job_scheduling j i =? -1.

Definition np_job_t_binheap_get_priority (job : np_job_t) : Z := priority job.

(** The module state: [job_queues[NP_PRIORITY_MAX_QUEUES + 1]] and
    [periodic_jobs]; the worker list only parks threads. *)
Record np_jobqueue := Jobqueue {
  job_queues : list (binheap_t np_job_t);
  periodic_jobs : Z;
}.

Definition set_queue (q : np_jobqueue) (i : Z) (h : binheap_t np_job_t) : result np_jobqueue :=
  qs ← wr (job_queues q) i h; Ok (Jobqueue qs (periodic_jobs q)).

(** The loop body of the selection: the state so far, the sleep time and the
    selected job ([stop] is "a job is selected"). *)
Definition select_step (lock : nat -> bool) (now : Q) (queue_idx : nat)
    (st : np_jobqueue * Q * option np_job_t) : result (np_jobqueue * Q * option np_job_t) :=
  let '(q, ret, buffer) := st in
  match buffer with
  | Some _ => Ok st
  | None =>
      if lock queue_idx then
        h ← rd (job_queues q) (Z.of_nat queue_idx);
        if binheap_is_empty h then Ok st else
        next_job ← binheap_first h;
        if Qle_bool now (exec_not_before_tstamp next_job) then
          Ok (q, fmin ret (rnd (exec_not_before_tstamp next_job - now)), None)
        else
          '(job, h) ← binheap_head np_job_t_compare h;
          q ← set_queue q (Z.of_nat queue_idx) h;
          Ok (q, 0%Q, Some job)
      else Ok st
  end.

(** The result is the sleep time and the job written to [*buffer], if any.
    [lock i] tells whether the try-lock of queue [i] succeeds. *)
Definition __np_jobqueue_select_job_to_run (lock : nat -> bool) (max_prio : Z) (now : Q)
    (q : np_jobqueue) : result (np_jobqueue * Q * option np_job_t) :=
  _ ← c_assert (max_prio <=? NP_PRIORITY_MAX_QUEUES);
  for_range 0 (Z.to_nat (max_prio + 1)) (select_step lock now)
    (q, (NP_PI / 100)%Q, None).

(** With no threads but the user's loop every job goes to one queue. *)
Definition user_loop_priority (n_threads : Z) (new_job : np_job_t) : np_job_t :=
  if n_threads =? 0 then
    Job (jb_type new_job) (exec_not_before_tstamp new_job) (interval new_job)
        (is_periodic new_job) (evt new_job) (next new_job) NP_PRIORITY_HIGHEST
        (__del_processorFuncs new_job) (processorFuncs new_job)
  else new_job.

(** The result says whether the job was accepted and whether waiting threads
    were signalled ([_np_jobqueue_check]). [None] is an uninitialised module. *)
Definition _np_jobqueue_insert (n_threads : Z) (module : option np_jobqueue) (new_job : np_job_t)
    (exec_asap : bool) : result (np_jobqueue * bool * bool) :=
  match module with
  | None => Err Assert_failed
  | Some q =>
      _ ← c_assert (priority new_job <=? NP_PRIORITY_MAX_QUEUES);
      let new_job := user_loop_priority n_threads new_job in
      h ← rd (job_queues q) (priority new_job);
      '(q, ret) ←
        (if is_periodic new_job then
           h ← binheap_insert np_job_t_compare np_job_t_binheap_get_priority h new_job;
           q ← set_queue q (priority new_job) h;
           Ok (q, true)
         else if h_size h - periodic_jobs q <=? h_count h + 1 then Ok (q, false)
         else
           h ← binheap_insert np_job_t_compare np_job_t_binheap_get_priority h new_job;
           q ← set_queue q (priority new_job) h;
           Ok (q, true));
      Ok (q, ret, ret && exec_asap)
  end.

Definition np_jobqueue_submit_event_callbacks (n_threads : Z) (module : option np_jobqueue)
    (time_now delay : Q) (next : np_dhkey_t) (event : Event) (callbacks : list (option Callback))
    : result (np_jobqueue * bool * bool) :=
  let new_job := Job 2 time_now delay false event next NP_PRIORITY_LOW false (Some callbacks) in
  _np_jobqueue_insert n_threads module new_job (Qeq_bool delay 0).

Definition periodic_job (time_now : Q) (prio : Z) (first_delay interv : Q)
    (callback : option Callback) : np_job_t :=
  let start := if Qeq_bool first_delay 0 then 0%Q else fmax NP_SLEEP_MIN first_delay in
  Job 2 (rnd (time_now + start)) (fmax NP_SLEEP_MIN interv) true event0 dhkey_zero
      prio true (Some [callback]).

(** [periodic_jobs = periodic_jobs++] has no defined value in C: [stored] is
    what the compiler's code stores. *)
Definition np_jobqueue_submit_event_periodic (stored : Z -> Z) (n_threads : Z)
    (module : option np_jobqueue) (time_now : Q) (prio : Z) (first_delay interv : Q)
    (callback : option Callback) : result (np_jobqueue * bool * bool) :=
  let new_job := periodic_job time_now prio first_delay interv callback in
  let module := (fun q => Jobqueue (job_queues q) (u16 (stored (periodic_jobs q)))) <$> module in
  _np_jobqueue_insert n_threads module new_job (Qeq_bool first_delay 0).

Definition np_jobqueue_submit_event_with_prio (n_threads : Z) (module : option np_jobqueue)
    (time_now delay : Q) (next : np_dhkey_t) (event : Event) (prio : Z)
    : result (np_jobqueue * bool * bool) :=
  let new_job := Job 1 (rnd (time_now + delay)) 0%Q false event next prio false None in
  _np_jobqueue_insert n_threads module new_job (Qeq_bool delay 0).

Definition np_jobqueue_submit_event (n_threads : Z) (module : option np_jobqueue)
    (time_now delay : Q) (next : np_dhkey_t) (event : Event) : result (np_jobqueue * bool * bool) :=
  np_jobqueue_submit_event_with_prio n_threads module time_now delay next event NP_PRIORITY_LOW.

(** The four periodic jobs of [_np_jobqueue_init]: priority, first delay,
    interval, callback.  [cleanup] is [MISC_KEYCACHE_CLEANUP_INTERVAL_SEC]. *)
Definition init_jobs (cleanup : Q) (memory_log route_log memory_management keycache_state : option Callback)
    : list (Z * Q * Q * option Callback) :=
  [(NP_PRIORITY_LOWEST, 180%Q, 180%Q, memory_log);
   (NP_PRIORITY_LOWEST, 0%Q, 60%Q, route_log);
   (NP_PRIORITY_HIGHEST, 1 # 10, 1 # 10, memory_management);
   (NP_PRIORITY_HIGH, cleanup, cleanup, keycache_state)].

Definition _np_jobqueue_init (stored : Z -> Z) (n_threads jobqueue_size : Z) (time_now : Q)
    (jobs : list (Z * Q * Q * option Callback)) (module : option np_jobqueue)
    : result (option np_jobqueue) :=
  match module with
  | Some q => Ok (Some q)
  | None =>
      q ← foldM (fun '(prio, first_delay, interv, cb) q =>
             '(q, _, _) ← np_jobqueue_submit_event_periodic stored n_threads (Some q) time_now
                            prio first_delay interv cb;
             Ok q) jobs
            (Jobqueue (replicate 5 (binheap_init job0 jobqueue_size)) 0);
      Ok (Some q)
  end.

Definition np_jobqueue_count (q : np_jobqueue) : result Z :=
  for_range 0 5 (fun i ret => h ← rd (job_queues q) (Z.of_nat i); Ok (u32 (ret + h_count h))) 0.

(** A periodic job for its next run. *)
Definition rescheduled (t_started t_after : Q) (job : np_job_t) : np_job_t :=
  Job (jb_type job) (fmax (rnd (t_started + interval job)) t_after) (interval job)
      (is_periodic job) (evt job) (next job) (priority job)
      (__del_processorFuncs job) (processorFuncs job).

(** The code a job runs is outside the queue: [run_callback] and [run_event]
    are what a processor function and the event runtime do to the queue (they
    may submit jobs); [t_started], [t_after] are the two clock readings. *)
Definition __np_jobqueue_run_once (run_callback : Callback -> Event -> np_jobqueue -> result np_jobqueue)
    (run_event : np_dhkey_t -> Event -> np_jobqueue -> result np_jobqueue)
    (n_threads : Z) (t_started t_after : Q) (job : np_job_t) (q : np_jobqueue) : result np_jobqueue :=
  q ← match processorFuncs job with
      | Some fs => foldM (fun f q => match f with Some f => run_callback f (evt job) q | None => Ok q end) fs q
      | None => run_event (next job) (evt job) q
      end;
  if is_periodic job then
    let job := rescheduled t_started t_after job in
    '(q, ok, _) ← _np_jobqueue_insert n_threads (Some q) job false;
    if (ok : bool) then Ok q else Err Aborted
  else Ok q.

(** [run] is [__np_jobqueue_run_once] with its environment; a selection that
    returns 0 without a job leaves the zeroed [next_job] in place. *)
Definition __np_jobqueue_run_jobs_once (run : np_job_t -> np_jobqueue -> result np_jobqueue)
    (lock : nat -> bool) (max_job_priority : Z) (now : Q) (q : np_jobqueue)
    : result (np_jobqueue * Q) :=
  '(q, ret, buffer) ← __np_jobqueue_select_job_to_run lock max_job_priority now q;
  if Qeq_bool ret 0 then
    q ← run (default job0 buffer) q;
    Ok (q, ret)
  else Ok (q, ret).
End Jobqueue.
