(* ===== verification/JobqueueSpec.v ===== *)
(** * The job queue: theorems

    Jobs are strictly weakly ordered, so every queue is a priority queue of
    [HeapSpec]; selection takes the earliest due job of the most important
    queue that has one, insertion accepts or drops by the room left for
    periodic jobs. *)
From Stdlib Require Import ZArith Lia QArith Lqa.
From stdpp Require Import prelude.
From S2P Require Import Prelude Real Dhkey Heap HeapSpec Jobqueue.

Local Open Scope Z_scope.

Section Theorems.
Context {Event Callback : Type} (event0 : Event) (rnd : Q -> Q).
Abbreviation job_t := (@np_job_t Event Callback).
Abbreviation queue_t := (@np_jobqueue Event Callback).
Abbreviation zero_job := (job0 event0 : job_t).

(** ** The scheduling order *)

Definition before (i j : job_t) : Prop :=
  (exec_not_before_tstamp i < exec_not_before_tstamp j)%Q \/
  ((exec_not_before_tstamp i == exec_not_before_tstamp j)%Q /\ priority i < priority j).

Lemma np_job_t_compare_spec (i j : job_t) : np_job_t_compare i j = true <-> before i j.
Proof.
  unfold np_job_t_compare, _np_job_compare_job_scheduling, before. rewrite Z.eqb_eq.
  destruct (Qltb _ (exec_not_before_tstamp j)) eqn:E1; [apply Qltb_lt in E1 | apply Qltb_ge in E1].
  - split; [by left | done].
  - destruct (Qltb _ (exec_not_before_tstamp i)) eqn:E2; [apply Qltb_lt in E2 | apply Qltb_ge in E2].
    + split; [done|]. intros [?|[? _]]; lra.
    + destruct (Z.ltb_spec (priority i) (priority j)).
      * split; [|done]. intros _. right. split; [lra | done].
      * destruct (Z.ltb_spec (priority j) (priority i)); (split; [done|]);
          intros [?|[_ ?]]; (lra || lia).
Qed.

#[export] Instance np_job_t_swo : StrictWeakOrder (@np_job_t_compare Event Callback).
Proof.
  assert (forall x y : job_t, np_job_t_compare x y = false <-> ~ before x y) as Hf.
  { intros x y. by rewrite <- np_job_t_compare_spec, not_true_iff_false. }
  assert (forall x y : job_t, ~ before x y <->
    (exec_not_before_tstamp y < exec_not_before_tstamp x)%Q \/
    (exec_not_before_tstamp y == exec_not_before_tstamp x)%Q /\ priority y <= priority x) as Hn.
  { intros x y. unfold before.
    destruct (Q_dec (exec_not_before_tstamp x) (exec_not_before_tstamp y)) as [[H|H]|H].
    - split; [intros []; by left | intros [?|[? _]]; lra].
    - split; [by left | intros _ [?|[? _]]; lra].
    - split; [|intros [?|[_ ?]] [?|[_ ?]]; (lra || lia)].
      intros Hb. right. split; [lra|]. destruct (Z.le_gt_cases (priority y) (priority x)); [done|].
      exfalso. apply Hb. right. split; [done | lia]. }
  split.
  - intros x. apply Hf. intros [?|[_ ?]]; (lra || lia).
  - intros x y z. rewrite !np_job_t_compare_spec. unfold before.
    intros [?|[? ?]] [?|[? ?]]; ((left; lra) || (right; split; [lra | lia])).
  - intros x y z. rewrite !Hf, !Hn.
    intros [?|[? ?]] [?|[? ?]]; ((left; lra) || (right; split; [lra | lia])).
Qed.

(** ** The invariant of the module *)

Definition queue_wf : binheap_t job_t -> Prop := heap_wf np_job_t_compare zero_job.

Definition jobqueue_wf (q : queue_t) : Prop :=
  length (job_queues q) = 5%nat /\ Forall queue_wf (job_queues q) /\ in_u 16 (periodic_jobs q).

Lemma queue_lookup (q : queue_t) i :
  jobqueue_wf q -> 0 <= i <= 4 ->
  exists h, rd (job_queues q) i = Ok h /\ job_queues q !! Z.to_nat i = Some h /\ queue_wf h.
Proof.
  intros (Hl & Hwf & _) Hi. destruct (rd_ok (job_queues q) i ltac:(lia)) as (h & Hrd & Hlk).
  exists h. split; [done|]. split; [done|]. by eapply Forall_lookup_1.
Qed.

Lemma set_queue_ok (q : queue_t) i h :
  jobqueue_wf q -> 0 <= i <= 4 -> queue_wf h ->
  exists q', set_queue q i h = Ok q' /\ jobqueue_wf q' /\
    job_queues q' = <[Z.to_nat i := h]> (job_queues q) /\ periodic_jobs q' = periodic_jobs q.
Proof.
  intros (Hl & Hwf & Hp) Hi Hh. unfold set_queue. rewrite wr_ok by lia. cbn [mbind result_bind].
  eexists. split; [done|]. split; [|done]. split; [|split].
  - cbn [job_queues]. by rewrite length_insert.
  - cbn [job_queues]. by apply Forall_insert.
  - done.
Qed.

(** ** Selection *)

Definition due (now : Q) (j : job_t) : Prop := (exec_not_before_tstamp j < now)%Q.

(** No job of the queue is due. *)
Definition idle (now : Q) (h : binheap_t job_t) : Prop := forall y, y ∈ contents h -> ~ due now y.

Definition locked_queue (lock : nat -> bool) (q : queue_t) (i : nat) (h : binheap_t job_t) : Prop :=
  lock i = true /\ job_queues q !! i = Some h.

(** The state after the queues below [k]. *)
Definition selected (lock : nat -> bool) (now : Q) (q : queue_t) (k : nat)
    (q' : queue_t) (ret : Q) (buffer : option job_t) : Prop :=
  match buffer with
  | Some job =>
      ret = 0%Q /\ jobqueue_wf q' /\ periodic_jobs q' = periodic_jobs q /\
      exists i h h', (i < k)%nat /\ locked_queue lock q i h /\
        job_queues q' = <[i := h']> (job_queues q) /\ h_size h' = h_size h /\
        contents h ≡ₚ job :: contents h' /\ due now job /\ (forall y, y ∈ contents h -> ~ before y job) /\
        (forall j hj, (j < i)%nat -> locked_queue lock q j hj -> idle now hj)
  | None =>
      q' = q /\ (ret <= NP_PI / 100)%Q /\
      (forall j hj, (j < k)%nat -> locked_queue lock q j hj ->
         idle now hj /\
         forall y, y ∈ contents hj -> (ret <= rnd (exec_not_before_tstamp y - now))%Q) /\
      (ret = (NP_PI / 100)%Q \/
       exists j hj y, (j < k)%nat /\ locked_queue lock q j hj /\ y ∈ contents hj /\
         ret = rnd (exec_not_before_tstamp y - now))
  end.

Context (rnd_mono : forall x y, (x <= y)%Q -> (rnd x <= rnd y)%Q).

Lemma not_before_le (x y : job_t) :
  np_job_t_compare y x = false -> (exec_not_before_tstamp x <= exec_not_before_tstamp y)%Q.
Proof.
  intros H. apply Qnot_lt_le. intros Hlt. apply not_true_iff_false in H. apply H.
  apply np_job_t_compare_spec. by left.
Qed.

Lemma empty_contents (h : binheap_t job_t) : h_count h = 0 -> contents h = [].
Proof. intros H. unfold contents. by rewrite H. Qed.

Lemma select_step_ok lock now q k q1 ret buffer :
  jobqueue_wf q -> (k <= 4)%nat -> selected lock now q k q1 ret buffer ->
  exists q2 ret2 buffer2,
    select_step rnd lock now k (q1, ret, buffer) = Ok (q2, ret2, buffer2) /\
    selected lock now q (S k) q2 ret2 buffer2.
Proof.
  intros Hwf Hk. unfold select_step. destruct buffer as [job|].
  { intros (Hr & H1 & H2 & i & h & h' & Hi & H3). exists q1, ret, (Some job). split; [done|].
    split; [done|]. split; [done|]. split; [done|]. exists i, h, h'. split; [lia | done]. }
  intros (-> & Hret & Hall & Hex).
  assert (forall j hj, lock k = false -> (j < S k)%nat -> locked_queue lock q j hj -> (j < k)%nat) as Hun.
  { intros j hj Hlk Hj [Hl _]. destruct (decide (j = k)) as [->|]; [congruence | lia]. }
  destruct (lock k) eqn:Elk; cycle 1.
  { do 3 eexists. split; [done|]. split; [done|]. split; [done|]. split.
    - intros j hj Hj Hlq. apply (Hall j hj); [by apply (Hun j hj) | done].
    - destruct Hex as [|(j & hj & y & Hj & ?)]; [by left|]. right. exists j, hj, y. split; [lia | done]. }
  clear Hun. destruct (queue_lookup q (Z.of_nat k) Hwf ltac:(lia)) as (h & -> & Hlk & Hh).
  rewrite Nat2Z.id in Hlk. cbn [mbind result_bind]. unfold binheap_is_empty.
  destruct (Z.eqb_spec (h_count h) 0) as [Hc0|Hc0].
  { do 3 eexists. split; [done|]. split; [done|]. split; [done|]. split.
    - intros j hj Hj Hlq. destruct (decide (j = k)) as [->|]; [|apply (Hall j hj); [lia | done]].
      destruct Hlq as [_ Hlq]. rewrite Hlk in Hlq. injection Hlq as <-.
      unfold idle. rewrite empty_contents by done. split; intros y []%not_elem_of_nil.
    - destruct Hex as [|(j & hj & y & Hj & ?)]; [by left|]. right. exists j, hj, y. split; [lia | done]. }
  assert (0 < h_count h) as Hpos by (destruct Hh as [(? & _) _]; lia).
  destruct (first_ok np_job_t_compare zero_job h Hh Hpos) as (x & -> & _ & Hin & Hmin).
  cbn [mbind result_bind]. destruct (Qle_bool now (exec_not_before_tstamp x)) eqn:Enow.
  - apply Qle_bool_iff in Enow. do 3 eexists. split; [done|].
    destruct (fmin_spec ret (rnd (exec_not_before_tstamp x - now))) as (F1 & F2 & F3).
    split; [done|]. split; [lra|]. split.
    + intros j hj Hj Hlq. destruct (decide (j = k)) as [->|].
      * destruct Hlq as [_ Hlq]. rewrite Hlk in Hlq. injection Hlq as <-. split.
        -- intros y Hy. unfold due. pose proof (not_before_le _ _ (Hmin y Hy)). lra.
        -- intros y Hy. pose proof (not_before_le _ _ (Hmin y Hy)).
           assert (rnd (exec_not_before_tstamp x - now) <= rnd (exec_not_before_tstamp y - now))%Q
             by (apply rnd_mono; lra). lra.
      * destruct (Hall j hj ltac:(lia) Hlq) as [Hidle Hle]. split; [done|].
        intros y Hy. specialize (Hle y Hy). lra.
    + destruct F3 as [->| ->].
      * destruct Hex as [|(j & hj & y & Hj & ?)]; [by left|]. right. exists j, hj, y. split; [lia | done].
      * right. exists k, h, x. split; [lia|]. done.
  - apply Qle_bool_false in Enow.
    destruct (head_ok np_job_t_compare zero_job h Hh Hpos)
      as (x' & h' & -> & Hf & Hwf' & Hsz & _ & Hperm & Hmin').
    destruct (first_ok np_job_t_compare zero_job h Hh Hpos) as (x2 & Hf2 & _ & Hin2 & Hmin2).
    cbn [mbind result_bind].
    destruct (set_queue_ok q (Z.of_nat k) h' Hwf ltac:(lia) Hwf') as (q' & -> & Hq' & Hqs & Hpj).
    cbn [mbind result_bind]. rewrite Nat2Z.id in Hqs.
    do 3 eexists. split; [done|]. split; [done|]. split; [done|]. split; [done|].
    exists k, h, h'. split; [lia|]. do 4 (split; [done|]).
    assert (x' ∈ contents h) as Hx' by (rewrite Hperm; by left).
    split; [|split].
    + unfold due. pose proof (not_before_le _ _ (Hmin' x Hin)). lra.
    + intros y Hy Hb. apply np_job_t_compare_spec in Hb. rewrite Hmin' in Hb by done. done.
    + intros j hj Hj Hlq. by apply (Hall j hj).
Qed.

Lemma select_job_ok lock max_prio now q :
  jobqueue_wf q -> 0 <= max_prio <= 4 ->
  exists q' ret buffer,
    __np_jobqueue_select_job_to_run rnd lock max_prio now q = Ok (q', ret, buffer) /\
    selected lock now q (Z.to_nat (max_prio + 1)) q' ret buffer.
Proof.
  intros Hwf Hm. unfold __np_jobqueue_select_job_to_run, NP_PRIORITY_MAX_QUEUES.
  rewrite (proj2 (Z.leb_le _ _)) by lia. cbn [c_assert mbind result_bind].
  destruct (for_range_inv (fun k '(q', ret, b) => selected lock now q k q' ret b)
              0 (Z.to_nat (max_prio + 1)) (select_step rnd lock now) (q, (NP_PI / 100)%Q, None))
    as ([[q' ret] b] & Hrun & Hsel).
  - split; [done|]. split; [lra|]. split; [intros; lia | by left].
  - intros k [[q1 r1] b1] Hk Hs.
    destruct (select_step_ok lock now q k q1 r1 b1 Hwf ltac:(lia) Hs) as (q2 & r2 & b2 & H1 & H2).
    exists (q2, r2, b2). done.
  - exists q', ret, b. by rewrite Hrun.
Qed.

(** C26: job selection.  For every state, every outcome of the try-locks and
    every priority bound up to 4 the selection returns.  Either it takes out
    exactly one job, with result 0: a due job of the first lockable queue
    that has one, which no job of that queue precedes in scheduling order;
    or nothing changes, no reachable job is due, and the sleep time is at
    most [NP_PI / 100] and at most the time to every reachable job, one of
    these being its value.  A bound above 4 is an assertion failure. *)
Theorem select_job_spec lock max_prio now q :
  jobqueue_wf q -> 0 <= max_prio ->
  (max_prio <= 4 ->
   exists q' ret buffer,
     __np_jobqueue_select_job_to_run rnd lock max_prio now q = Ok (q', ret, buffer) /\
     selected lock now q (Z.to_nat (max_prio + 1)) q' ret buffer) /\
  (4 < max_prio -> __np_jobqueue_select_job_to_run rnd lock max_prio now q = Err Assert_failed).
Proof.
  intros Hwf H0. split; intros Hm; [by apply select_job_ok|].
  unfold __np_jobqueue_select_job_to_run, NP_PRIORITY_MAX_QUEUES.
  by rewrite (proj2 (Z.leb_gt _ _)) by done.
Qed.

(** ** Insertion *)

(** Room for a job in its queue. *)
Definition has_room (q : queue_t) (h : binheap_t job_t) (job : job_t) : bool :=
  if is_periodic job then h_count h <? h_size h
  else h_count h + 1 <? h_size h - periodic_jobs q.

Lemma user_loop_priority_range n_threads (job : job_t) :
  0 <= priority job <= 4 -> 0 <= priority (user_loop_priority n_threads job) <= 4.
Proof. unfold user_loop_priority. case_match; simpl; unfold NP_PRIORITY_HIGHEST; lia. Qed.

Lemma user_loop_priority_periodic n_threads (job : job_t) :
  is_periodic (user_loop_priority n_threads job) = is_periodic job.
Proof. unfold user_loop_priority. by case_match. Qed.

(** The state after the insertion of [job] into the queue [h]. *)
Definition inserted (q q' : queue_t) (h : binheap_t job_t) (job : job_t) : Prop :=
  jobqueue_wf q' /\ periodic_jobs q' = periodic_jobs q /\
  exists h', job_queues q' = <[Z.to_nat (priority job) := h']> (job_queues q) /\
    h_size h' = h_size h /\ contents h' ≡ₚ job :: contents h.

Lemma insert_and_set (q : queue_t) (h : binheap_t job_t) (job : job_t) :
  jobqueue_wf q -> 0 <= priority job <= 4 -> queue_wf h -> h_count h < h_size h ->
  exists q', (h' ← binheap_insert np_job_t_compare np_job_t_binheap_get_priority h job;
              q' ← set_queue q (priority job) h'; Ok (q', true)) = Ok (q', true) /\
    inserted q q' h job.
Proof.
  intros Hwf Hp Hh Hlt.
  destruct (insert_ok np_job_t_compare np_job_t_binheap_get_priority zero_job h job Hh Hlt)
    as (h' & -> & Hh' & Hs & _ & Hc). cbn [mbind result_bind].
  destruct (set_queue_ok q (priority job) h' Hwf Hp Hh') as (q' & -> & Hq' & Hqs & Hpj).
  exists q'. split; [done|]. split; [done|]. split; [done|]. by exists h'.
Qed.

Lemma job_insert_ok n_threads q job asap :
  jobqueue_wf q -> 0 <= priority job <= 4 ->
  let job' := user_loop_priority n_threads job in
  exists h, job_queues q !! Z.to_nat (priority job') = Some h /\
    if has_room q h job
    then exists q', _np_jobqueue_insert n_threads (Some q) job asap = Ok (q', true, asap) /\
           inserted q q' h job'
    else _np_jobqueue_insert n_threads (Some q) job asap =
           if is_periodic job then Err Assert_failed else Ok (q, false, false).
Proof.
  intros Hwf Hp job'. cbn [_np_jobqueue_insert]. unfold NP_PRIORITY_MAX_QUEUES. fold job'.
  rewrite (proj2 (Z.leb_le _ _)) by lia. cbn [c_assert mbind result_bind].
  pose proof (user_loop_priority_range n_threads job Hp) as Hp'. fold job' in Hp'.
  destruct (queue_lookup q (priority job') Hwf Hp') as (h & -> & Hlk & Hh).
  cbn [mbind result_bind]. exists h. split; [done|].
  unfold has_room. rewrite <- (user_loop_priority_periodic n_threads job). fold job'.
  assert (h_count h < h_size h -> exists q', inserted q q' h job' /\
    (h' ← binheap_insert np_job_t_compare np_job_t_binheap_get_priority h job';
     q' ← set_queue q (priority job') h'; Ok (q', true)) = Ok (q', true)) as Hins.
  { intros Hlt. destruct (insert_and_set q h job' Hwf Hp' Hh Hlt) as (q' & ? & ?). by exists q'. }
  destruct Hwf as (_ & _ & Hpj). destruct Hh as [(Hc & _) _]. unfold in_u in Hpj.
  destruct (is_periodic job') eqn:E.
  - destruct (Z.ltb_spec (h_count h) (h_size h)) as [Hlt|Hge].
    + destruct (Hins Hlt) as (q' & Hi & ->). exists q'. done.
    + by rewrite insert_full by lia.
  - destruct (Z.ltb_spec (h_count h + 1) (h_size h - periodic_jobs q)).
    + rewrite (proj2 (Z.leb_gt _ _)) by done.
      destruct (Hins ltac:(lia)) as (q' & Hi & ->). exists q'. done.
    + by rewrite (proj2 (Z.leb_le _ _)) by done.
Qed.

(** Insertion on every branch.  An uninitialised module and a priority
    above 4 are assertion failures.  Otherwise the job goes to the queue of
    its priority (queue 0 when there is only the user's loop): with room it
    is accepted, exactly it is added to exactly that queue, and waiting
    threads are signalled iff it is to run at once; without room (one-shot
    jobs leave room for the periodic ones) a one-shot job is dropped and
    nothing changes, and a periodic one is an assertion failure. *)
Theorem jobqueue_insert_spec n_threads q job asap :
  jobqueue_wf q -> 0 <= priority job ->
  let job' := user_loop_priority n_threads job in
  _np_jobqueue_insert n_threads None job asap = Err Assert_failed /\
  (4 < priority job -> _np_jobqueue_insert n_threads (Some q) job asap = Err Assert_failed) /\
  (priority job <= 4 ->
   exists h, job_queues q !! Z.to_nat (priority job') = Some h /\
     if has_room q h job
     then exists q', _np_jobqueue_insert n_threads (Some q) job asap = Ok (q', true, asap) /\
            inserted q q' h job'
     else _np_jobqueue_insert n_threads (Some q) job asap =
            if is_periodic job then Err Assert_failed else Ok (q, false, false)).
Proof.
  intros Hwf H0 job'. split; [done|]. split; intros Hp; [|by apply job_insert_ok].
  cbn [_np_jobqueue_insert]. unfold NP_PRIORITY_MAX_QUEUES.
  by rewrite (proj2 (Z.leb_gt _ _)) by done.
Qed.
End Theorems.

(** ** Examples *)

Definition example_job (t : Q) (periodic : bool) (prio : Z) : @np_job_t unit unit :=
  Job 1 t 1%Q periodic tt dhkey_zero prio false None.
Definition example_queue (size : Z) : @np_jobqueue unit unit :=
  Jobqueue (replicate 5 (binheap_init (job0 tt) size)) 0.

Lemma fresh_queues_wf {Event Callback : Type} (event0 : Event) size :
  0 <= size <= 32767 ->
  jobqueue_wf event0 (Jobqueue (replicate 5 (binheap_init (@job0 Event Callback event0) size)) 0).
Proof.
  intros Hs. split; [done|]. split; [|done]. apply Forall_replicate.
  by apply (binheap_init_wf np_job_t_compare).
Qed.

Lemma example_queue_wf : jobqueue_wf tt (example_queue 3).
Proof. unfold example_queue. apply fresh_queues_wf. lia. Qed.

Lemma select_job_spec_witness :
  exists q' ret buffer,
    __np_jobqueue_select_job_to_run (fun x => x) (fun _ => true) 4 1%Q (example_queue 3)
      = Ok (q', ret, buffer) /\
    selected tt (fun x => x) (fun _ => true) 1%Q (example_queue 3) 5 q' ret buffer.
Proof.
  destruct (select_job_spec tt (fun x => x) (fun x y H => H) (fun _ => true) 4 1%Q (example_queue 3)
              example_queue_wf ltac:(lia)) as [H _].
  exact (H ltac:(lia)).
Defined.

Lemma jobqueue_insert_spec_witness :
  _np_jobqueue_insert 2 (Some (example_queue 3)) (example_job 0%Q false 9) true = Err Assert_failed.
Proof.
  destruct (jobqueue_insert_spec tt 2 (example_queue 3) (example_job 0%Q false 9) true
              example_queue_wf ltac:(by_decide)) as (_ & H & _).
  apply H. reflexivity.
Defined.

(** A head scheduled exactly at [now] makes the sleep time 0 without a job, and
    the zeroed job is run. *)
Lemma run_jobs_once_runs_zeroed_job :
  ('(q, _, _) ← _np_jobqueue_insert 2 (Some (example_queue 3)) (example_job 1%Q false 3) false;
   __np_jobqueue_run_jobs_once tt (fun x => x)
     (fun job q => if priority job =? 0 then Err Aborted else Ok q) (fun _ => true) 4 1%Q q) = Err Aborted.
Proof. vm_compute. reflexivity. Qed.

(** ** The job queue at work: theorems

    The life of jobs as a step relation: jobs are submitted, taken by workers,
    run, and periodic ones put back, which fails when the queue is full. *)

(** All the jobs of some queues, and what an update of one of them does to these. *)
Definition all_contents {J} (qs : list (binheap_t J)) : list J := flat_map contents qs.

Lemma all_contents_insert {J} (qs : list (binheap_t J)) i h h' :
  qs !! i = Some h -> all_contents (<[i := h']> qs) ++ contents h ≡ₚ all_contents qs ++ contents h'.
Proof.
  revert i. induction qs as [|x qs IH]; intros [|i] Hl; simpl in *; [done..| |].
  - injection Hl as ->. unfold all_contents. simpl. rewrite <-!app_assoc.
    rewrite (Permutation_app_comm (contents h')), (Permutation_app_comm (contents h)), <-!app_assoc.
    by rewrite (Permutation_app_comm (contents h) (contents h')).
  - unfold all_contents in *. simpl. rewrite <-!app_assoc. by rewrite (IH i Hl).
Qed.

Section Life.
Context {Event Callback : Type} (event0 : Event) (rnd : Q -> Q) (n_threads : Z).
Abbreviation job_t := (@np_job_t Event Callback).
Abbreviation queue_t := (@np_jobqueue Event Callback).
Abbreviation wf := (jobqueue_wf event0).

(** The jobs in the queues and the jobs being run, and what happens to them. *)
Definition jq_state : Type := queue_t * list job_t.
Definition queued (q : queue_t) : list job_t := all_contents (job_queues q).

Inductive jq_event :=
| Put (j : job_t)
| Dropped (j : job_t)
| Taken (j : job_t)
| Finished (j : job_t)
| Again (j j' : job_t).

Definition put (e : jq_event) : list job_t := match e with Put j | Again _ j => [j] | _ => [] end.
Definition dropped (e : jq_event) : list job_t := match e with Dropped j => [j] | _ => [] end.
Definition taken (e : jq_event) : list job_t := match e with Taken j => [j] | _ => [] end.
Definition left_run (e : jq_event) : list job_t := match e with Finished j | Again j _ => [j] | _ => [] end.

Definition prio_ok (j : job_t) : Prop := 0 <= priority j <= 4.

(** Submission of a one-shot job, which is accepted or dropped; submission of a periodic
    job, with whatever [periodic_jobs = periodic_jobs++] stores; a worker taking a job; a
    one-shot job that ends; a periodic job that is put back for its next run. *)
Inductive jq_step : jq_state -> jq_event -> jq_state -> Prop :=
| step_submit q run job asap q' ok sig :
    is_periodic job = false -> prio_ok job ->
    _np_jobqueue_insert n_threads (Some q) job asap = Ok (q', ok, sig) ->
    jq_step (q, run) (if (ok : bool) then Put (user_loop_priority n_threads job) else Dropped job) (q', run)
| step_periodic q run stored time_now prio first_delay interv callback q' ok sig :
    0 <= prio <= 4 ->
    np_jobqueue_submit_event_periodic event0 rnd stored n_threads (Some q) time_now prio first_delay interv callback = Ok (q', ok, sig) ->
    jq_step (q, run) (Put (user_loop_priority n_threads (periodic_job event0 rnd time_now prio first_delay interv callback))) (q', run)
| step_take q run lock max_prio now q' ret job :
    0 <= max_prio <= 4 ->
    __np_jobqueue_select_job_to_run rnd lock max_prio now q = Ok (q', ret, Some job) ->
    jq_step (q, run) (Taken job) (q', job :: run)
| step_end q pre job post :
    is_periodic job = false -> jq_step (q, pre ++ job :: post) (Finished job) (q, pre ++ post)
| step_again q pre job post t_started t_after q' ok sig :
    is_periodic job = true ->
    _np_jobqueue_insert n_threads (Some q) (rescheduled rnd t_started t_after job) false = Ok (q', ok, sig) ->
    jq_step (q, pre ++ job :: post) (Again job (user_loop_priority n_threads (rescheduled rnd t_started t_after job))) (q', pre ++ post).

Inductive jq_run : jq_state -> list jq_event -> jq_state -> Prop :=
| run_none s : jq_run s [] s
| run_step s e s1 es s2 : jq_step s e s1 -> jq_run s1 es s2 -> jq_run s (e :: es) s2.

(** The priorities of all jobs name queues. *)
Definition life_ok (s : jq_state) : Prop := wf s.1 /\ Forall prio_ok (queued s.1) /\ Forall prio_ok s.2.

(** What an event does to the jobs queued and to the jobs run. *)
Definition accounted (s : jq_state) (e : jq_event) (s' : jq_state) : Prop :=
  queued s'.1 ++ taken e ≡ₚ queued s.1 ++ put e /\ s'.2 ++ left_run e ≡ₚ s.2 ++ taken e /\
  Forall (fun j => is_periodic j = false) (dropped e).

Lemma inserted_queued q q' h job i : i = Z.to_nat (priority job) -> job_queues q !! i = Some h ->
  inserted event0 q q' h job -> queued q' ≡ₚ queued q ++ [job].
Proof.
  intros -> Hlk (_ & _ & h' & Hqs & _ & Hc). unfold queued. rewrite Hqs.
  pose proof (all_contents_insert (job_queues q) _ h h' Hlk) as Hp. rewrite Hc in Hp.
  apply (Permutation_app_inv_r (contents h)). rewrite Hp, <-app_assoc. apply Permutation_app_head. cbn. done.
Qed.

(** An insertion that returns. *)
Lemma insert_returns q job asap q' ok sig : wf q -> prio_ok job ->
  _np_jobqueue_insert n_threads (Some q) job asap = Ok (q', ok, sig) ->
  wf q' /\ (if ok then queued q' ≡ₚ queued q ++ [user_loop_priority n_threads job] else q' = q /\ is_periodic job = false).
Proof.
  intros Hwf Hp Hi. destruct (job_insert_ok event0 n_threads q job asap Hwf Hp) as (h & Hlk & H).
  destruct (has_room q h job).
  - destruct H as (q1 & E & Hins). rewrite E in Hi. injection Hi as <- <- _. split; [apply Hins|]. by eapply inserted_queued.
  - rewrite H in Hi. destruct (is_periodic job); [done|]. by injection Hi as <- <- _.
Qed.

Context (rnd_mono : forall x y, (x <= y)%Q -> (rnd x <= rnd y)%Q).

Lemma take_queued lock max_prio now q q' ret job : wf q -> 0 <= max_prio <= 4 ->
  __np_jobqueue_select_job_to_run rnd lock max_prio now q = Ok (q', ret, Some job) ->
  wf q' /\ queued q' ++ [job] ≡ₚ queued q.
Proof using rnd_mono.
  intros Hwf Hmax Hsel. destruct (select_job_ok event0 rnd rnd_mono lock max_prio now q Hwf Hmax) as (q1 & r1 & b1 & Hs & Hspec).
  rewrite Hsel in Hs. injection Hs as <- <- <-.
  destruct Hspec as (_ & Hwf' & _ & i & h & h' & _ & [_ Hlk] & Hqs & _ & Hc & _). split; [done|].
  unfold queued. rewrite Hqs. pose proof (all_contents_insert (job_queues q) _ h h' Hlk) as Hp. rewrite Hc in Hp.
  apply (Permutation_app_inv_r (contents h')). rewrite <-Hp, <-app_assoc. apply Permutation_app_head. done.
Qed.

Lemma again_prio t1 t2 (job : job_t) : prio_ok job -> prio_ok (rescheduled rnd t1 t2 job).
Proof. done. Qed.

Lemma step_accounted s e s' : life_ok s -> jq_step s e s' -> life_ok s' /\ accounted s e s'.
Proof using rnd_mono.
  intros (Hwf & Hq & Hr) Hstep. destruct Hstep as [q run job asap q' ok sig Hper Hp Hi|q run stored tn prio fd iv cb q' ok sig Hp Hi|
    q run lock max_prio now q' ret job Hmax Hsel|q pre job post Hper|q pre job post t1 t2 q' ok sig Hper Hi]; cbn [fst snd] in *.
  - destruct (insert_returns q job asap q' ok sig Hwf Hp Hi) as [Hwf' Hok]. destruct ok; unfold life_ok, accounted; cbn [fst snd].
    + split; [|split; [cbn [taken put]; by rewrite Hok, app_nil_r|split; [done|constructor]]]. split; [done|]. split; [|done].
      rewrite Hok. apply Forall_app. split; [done|]. constructor; [by apply user_loop_priority_range|constructor].
    + destruct Hok as [-> _]. split; [done|]. split; [done|]. split; [done|]. by constructor.
  - unfold np_jobqueue_submit_event_periodic in Hi. cbn [fmap option_fmap option_map] in Hi.
    set (q1 := Jobqueue (job_queues q) (u16 (stored (periodic_jobs q)))) in Hi.
    assert (wf q1) as Hwf1 by (destruct Hwf as (H1 & H2 & _); split; [done|split; [done|apply u16_range]]).
    set (job := periodic_job event0 rnd tn prio fd iv cb) in *.
    destruct (insert_returns q1 job _ q' ok sig Hwf1 Hp Hi) as [Hwf' Hok].
    destruct ok; [|by destruct Hok as [_ ?]]. change (queued q1) with (queued q) in Hok.
    unfold life_ok, accounted; cbn [fst snd].
    split; [|split; [cbn [taken put]; by rewrite Hok, app_nil_r|split; [done|constructor]]]. split; [done|]. split; [|done].
    rewrite Hok. apply Forall_app. split; [done|]. constructor; [by apply user_loop_priority_range|constructor].
  - destruct (take_queued lock max_prio now q q' ret job Hwf Hmax Hsel) as [Hwf' Hp]. unfold life_ok, accounted; cbn [fst snd].
    rewrite <-Hp in Hq. apply Forall_app in Hq as [Hq Hj]. apply Forall_cons in Hj as [Hj _]. split.
    + split; [done|]. split; [done|]. by constructor.
    + cbn [taken put left_run]. rewrite !app_nil_r. split; [done|]. split; [|constructor]. by rewrite (Permutation_app_comm run).
  - apply Forall_app in Hr as [Hr1 Hr2]. apply Forall_cons in Hr2 as [_ Hr2]. unfold life_ok, accounted; cbn [fst snd]. split.
    + split; [done|]. split; [done|]. by apply Forall_app.
    + split; [done|]. split; [|constructor]. cbn [left_run taken]. rewrite app_nil_r, <-app_assoc. apply Permutation_app_head. by rewrite Permutation_app_comm.
  - apply Forall_app in Hr as [Hr1 Hr2]. apply Forall_cons in Hr2 as [Hj Hr2].
    destruct (insert_returns q _ false q' ok sig Hwf (again_prio t1 t2 job Hj) Hi) as [Hwf' Hok].
    destruct ok; [|destruct Hok as [_ Hf]; cbn in Hf; congruence]. unfold life_ok, accounted; cbn [fst snd]. split.
    + split; [done|]. split; [|by apply Forall_app]. rewrite Hok. apply Forall_app. split; [done|].
      constructor; [by apply user_loop_priority_range|constructor].
    + split; [by rewrite Hok, app_nil_r|]. split; [|constructor]. cbn [left_run taken].
      rewrite app_nil_r, <-app_assoc. apply Permutation_app_head. by rewrite Permutation_app_comm.
Qed.

Lemma run_accounted s es s' : life_ok s -> jq_run s es s' -> life_ok s' /\
  queued s'.1 ++ flat_map taken es ≡ₚ queued s.1 ++ flat_map put es /\
  s'.2 ++ flat_map left_run es ≡ₚ s.2 ++ flat_map taken es /\ Forall (fun j => is_periodic j = false) (flat_map dropped es).
Proof using rnd_mono.
  intros Hs Hrun. revert Hs. induction Hrun as [s|s e s1 es s2 Hstep _ IH]; intros Hs; [by rewrite !app_nil_r|].
  destruct (step_accounted s e s1 Hs Hstep) as (Hs1 & Hq & Hr & Hd). destruct (IH Hs1) as (Hs2 & Hq2 & Hr2 & Hd2).
  split; [done|]. cbn [flat_map]. split; [|split; [|by apply Forall_app]].
  - rewrite (Permutation_app_comm (taken e)), app_assoc, Hq2, <-app_assoc, (Permutation_app_comm (flat_map put es)), app_assoc, Hq.
    by rewrite <-app_assoc.
  - rewrite (Permutation_app_comm (left_run e)), app_assoc, Hr2, <-app_assoc, (Permutation_app_comm (flat_map taken es)), app_assoc, Hr.
    by rewrite <-app_assoc.
Qed.

(** C27: No job is lost or done twice.  Whatever is submitted (one-shot and periodic
    jobs, the counter of the latter being whatever the code stores), taken, finished and put
    back, in whatever order: the jobs in the queues are those that were there and those put
    in, less those taken; the jobs being run are those taken that have neither ended nor been
    put back; only one-shot jobs are dropped.  In every such state selection returns; a one-shot
    job is taken or dropped without a fault and, when taken, leaves a place of its queue
    free; a periodic job, new or put back, is taken when its queue has a place, and else it is an
    assertion that fails, which periodic_job_assertion shows to happen. *)
Theorem jobs_conserved s es s' :
  life_ok s -> jq_run s es s' ->
  (queued s'.1 ++ flat_map taken es ≡ₚ queued s.1 ++ flat_map put es /\
   s'.2 ++ flat_map left_run es ≡ₚ s.2 ++ flat_map taken es /\
   Forall (fun j => is_periodic j = false) (flat_map dropped es)) /\
  (forall lock max_prio now, 0 <= max_prio <= 4 -> exists r, __np_jobqueue_select_job_to_run rnd lock max_prio now s'.1 = Ok r) /\
  (forall job asap, prio_ok job -> exists h, job_queues s'.1 !! Z.to_nat (priority (user_loop_priority n_threads job)) = Some h /\
     if is_periodic job then
       if h_count h <? h_size h then exists q'', _np_jobqueue_insert n_threads (Some s'.1) job asap = Ok (q'', true, asap)
       else _np_jobqueue_insert n_threads (Some s'.1) job asap = Err Assert_failed
     else exists q'' ok, _np_jobqueue_insert n_threads (Some s'.1) job asap = Ok (q'', ok, ok && asap) /\
       (ok = true -> h_count h + 1 < h_size h)).
Proof using rnd_mono.
  intros Hs Hrun. destruct (run_accounted s es s' Hs Hrun) as ((Hwf & _ & _) & Hacc). split; [done|]. split.
  - intros lock max_prio now Hmax. destruct (select_job_ok event0 rnd rnd_mono lock max_prio now s'.1 Hwf Hmax) as (q1 & r1 & b1 & E & _).
    rewrite E. by eexists.
  - intros job asap Hp. destruct (job_insert_ok event0 n_threads s'.1 job asap Hwf Hp) as (h & Hlk & H). exists h. split; [done|].
    destruct Hwf as (_ & _ & Hc). unfold in_u in Hc. unfold has_room in H. destruct (is_periodic job).
    + destruct (h_count h <? h_size h); [|done]. destruct H as (q'' & E & _). by exists q''.
    + destruct (Z.ltb_spec (h_count h + 1) (h_size h - periodic_jobs s'.1)).
      * destruct H as (q'' & E & _). exists q'', true. split; [done|]. lia.
      * rewrite H. by exists s'.1, false.
Qed.
End Life.

(** A periodic job is submitted, taken and put back. *)
Definition first_periodic : @np_job_t unit unit := periodic_job tt (fun x => x) 0%Q 2 0%Q 1%Q (Some tt).
Definition periodic_queue : @np_jobqueue unit unit :=
  match np_jobqueue_submit_event_periodic tt (fun x => x) (fun x => x) 2 (Some (example_queue 3)) 0%Q 2 0%Q 1%Q (Some tt) with
  | Ok (q, _, _) => q
  | Err _ => example_queue 3
  end.

Lemma jobs_conserved_witness :
  exists q' es, jq_run tt (fun x => x) 2 (example_queue 3, []) es (q', [first_periodic]) /\
    queued q' ++ flat_map taken es ≡ₚ [first_periodic] /\
    exists q'', _np_jobqueue_insert 2 (Some q') (rescheduled (fun x => x) 1%Q 1%Q first_periodic) false = Ok (q'', true, false).
Proof.
  assert (exists q', __np_jobqueue_select_job_to_run (fun x => x) (fun _ => true) 4 1%Q periodic_queue = Ok (q', 0%Q, Some first_periodic)) as [q' Ht].
  { eexists. vm_compute. reflexivity. }
  assert (jq_run tt (fun x => x) 2 (example_queue 3, []) [Put (user_loop_priority 2 first_periodic); Taken first_periodic] (q', [first_periodic])) as Hrun.
  { eapply run_step.
    - apply (step_periodic tt (fun x => x) 2 (example_queue 3) [] (fun x => x) 0%Q 2 0%Q 1%Q (Some tt) periodic_queue true true); [lia|vm_compute; reflexivity].
    - eapply run_step; [|apply run_none]. apply (step_take tt (fun x => x) 2 periodic_queue [] (fun _ => true) 4 1%Q q' 0%Q); [lia|exact Ht]. }
  destruct (jobs_conserved tt (fun x => x) 2 (fun x y H => H) (example_queue 3, [])
    [Put (user_loop_priority 2 first_periodic); Taken first_periodic] (q', [first_periodic])) as ((Hq & _) & _ & Hi); [|exact Hrun|].
  { split; [exact example_queue_wf|]. split; [|constructor]. vm_compute. constructor. }
  eexists q', _. split; [exact Hrun|]. split; [exact Hq|].
  destruct (Hi (rescheduled (fun x => x) 1%Q 1%Q first_periodic) false) as (h & Hh & Hins); [vm_compute; split; discriminate|].
  change (is_periodic _) with true in Hins. cbv iota in Hins.
  assert (exists q1, __np_jobqueue_select_job_to_run (fun x => x) (fun _ => true) 4 1%Q periodic_queue = Ok (q1, 0%Q, Some first_periodic) /\
    (h_count <$> job_queues q1 !! 2%nat) = Some 0 /\ (h_size <$> job_queues q1 !! 2%nat) = Some 3) as (q1 & E1 & Hc & Hz).
  { eexists. split; [vm_compute; reflexivity|]. split; reflexivity. }
  rewrite Ht in E1. injection E1 as <-. change (Z.to_nat _) with 2%nat in Hh. cbn [fst] in Hh. rewrite Hh in Hc, Hz.
  injection Hc as Hc. injection Hz as Hz. rewrite Hc, Hz in Hins. exact Hins.
Defined.

(** With the counter left at 0 ([periodic_jobs = periodic_jobs++] storing the
    old value) one-shot jobs take the room of two running periodic jobs, and
    the second one put back is an assertion failure. *)
Definition two_periodic_and_more (again : nat) : result (@np_jobqueue unit unit) :=
  q ← foldM (fun t q => '(q, _, _) ← np_jobqueue_submit_event_periodic tt (fun x => x) (fun x => x) 2
                           (Some q) 0%Q 2 0%Q 1%Q (Some t); Ok q) [tt; tt] (example_queue 3);
  q ← foldM (fun _ q => '(q, _, _) ← __np_jobqueue_select_job_to_run (fun x => x) (fun _ => true) 4 1%Q q; Ok q)
        [tt; tt] q;
  q ← foldM (fun _ q => '(q, _, _) ← _np_jobqueue_insert 2 (Some q) (example_job 0%Q false 2) false; Ok q)
        [tt; tt; tt] q;
  foldM (fun _ q => '(q, _, _) ← _np_jobqueue_insert 2 (Some q) (example_job 5%Q true 2) false; Ok q)
        (replicate again tt) q.

Lemma periodic_job_assertion :
  (exists q, two_periodic_and_more 1 = Ok q) /\ two_periodic_and_more 2 = Err Assert_failed.
Proof.
  split; [|vm_compute; reflexivity].
  destruct (two_periodic_and_more 1) eqn:E; [by eexists|]. exfalso. revert E. vm_compute. discriminate.
Qed.
