(* ===== verification/Sll.v ===== *)
(** * The singly linked list of [include/util/np_list.h] (SLL)

    The macros generate the list for a type; here it is a section over the
    type.  Nodes live in a store that maps addresses to nodes; a pointer is an
    optional address, following [NULL] or a freed address is a fault.  [alloc]
    is [calloc]: any address that is not in use. *)
From Stdlib Require Import ZArith Lia.
From stdpp Require Import prelude fin_maps gmap.
From S2P Require Import Prelude.

Local Open Scope Z_scope.

Abbreviation loc := positive.

Record sll_node_t (T : Type) := SNode {
  flink : option loc;
  val : T;
}.
Arguments SNode {T}.
Arguments flink {T}.
Arguments val {T}.

Record sll_t := SList {
  sll_size : Z;
  sll_first : option loc;
  sll_last : option loc;
}.

Section Sll.
Context {T : Type} (zero : T) (alloc : gmap loc (sll_node_t T) -> loc).
Abbreviation mem := (gmap loc (sll_node_t T)).

(** [*p] *)
Definition deref (m : mem) (p : option loc) : result (sll_node_t T) :=
  match p with
  | None => Err Bad_access
  | Some l => match m !! l with Some n => Ok n | None => Err Bad_access end
  end.

(** [p->flink = q] *)
Definition set_flink (m : mem) (p q : option loc) : result mem :=
  match p with
  | None => Err Bad_access
  | Some l => match m !! l with
              | Some n => Ok (<[l := SNode q (val n)]> m)
              | None => Err Bad_access
              end
  end.

(** [free (p)] *)
Definition sfree (m : mem) (p : option loc) : result mem :=
  match p with
  | None => Ok m
  | Some l => match m !! l with Some _ => Ok (delete l m) | None => Err Bad_access end
  end.

Definition sll_next_select (m : mem) (p : option loc) : result (option loc) :=
  match p with
  | None => Ok None
  | Some _ => n ← deref m p; Ok (if decide (flink n = p) then None else flink n)
  end.

Definition sll_init : sll_t := SList 0 None None.

Definition sll_insert (m : mem) (s : sll_t) (value : T) (after : option loc)
    : result (mem * sll_t * loc) :=
  let node := alloc m in
  na ← deref m after;
  let m := <[node := SNode (flink na) value]> m in
  m ← set_flink m after (Some node);
  let s := SList (u32 (sll_size s + 1)) (sll_first s) (sll_last s) in
  let s := if decide (after = sll_last s) then SList (sll_size s) (sll_first s) (Some node) else s in
  Ok (m, s, node).

Definition sll_append (m : mem) (s : sll_t) (value : T) : result (mem * sll_t * loc) :=
  let node := alloc m in
  let m := <[node := SNode None value]> m in
  '(m, first) ← match sll_first s with
                | None => Ok (m, Some node)
                | Some f => m ← set_flink m (sll_last s) (Some node); Ok (m, Some f)
                end;
  Ok (m, SList (u32 (sll_size s + 1)) first (Some node), node).

Definition sll_prepend (m : mem) (s : sll_t) (value : T) : mem * sll_t * loc :=
  let node := alloc m in
  let m := <[node := SNode (sll_first s) value]> m in
  let last := match sll_last s with None => Some node | Some l => Some l end in
  (m, SList (u32 (sll_size s + 1)) (Some node) last, node).

(** The loop of [sll_delete] over the inner nodes; [fuel] bounds its rounds. *)
Fixpoint delete_loop (fuel : nat) (m : mem) (s : sll_t) (tbr tmp prev : option loc)
    : result (mem * sll_t) :=
  match fuel with
  | O => Err Diverges
  | S fuel' =>
      match tmp with
      | None => Ok (m, s)
      | Some _ =>
          n ← deref m tmp;
          let tmp := flink n in
          if decide (tmp = tbr) then
            '(m, s) ← (if decide (sll_last s = tbr) then
                         m ← set_flink m prev None;
                         Ok (m, SList (sll_size s) (sll_first s) prev)
                       else
                         nt ← deref m tmp;
                         m ← set_flink m prev (flink nt);
                         Ok (m, s));
            m ← sfree m tmp;
            Ok (m, SList (u32 (sll_size s - 1)) (sll_first s) (sll_last s))
          else
            nm ← deref m prev;
            delete_loop fuel' m s tbr tmp (flink nm)
      end
  end.

Definition sll_delete (m : mem) (s : sll_t) (tbr : option loc) : result (mem * sll_t) :=
  if decide (sll_first s = tbr) then
    s ← (if decide (sll_last s = tbr) then Ok (SList 0 None None)
         else n ← deref m tbr;
              Ok (SList (u32 (sll_size s - 1)) (flink n) (sll_last s)));
    m ← sfree m tbr;
    Ok (m, s)
  else delete_loop (S (size m)) m s tbr (sll_first s) (sll_first s).

Definition sll_head (m : mem) (s : sll_t) : result (mem * sll_t * T) :=
  match sll_first s with
  | None => Ok (m, s, zero)
  | Some _ => n ← deref m (sll_first s);
              '(m, s) ← sll_delete m s (sll_first s);
              Ok (m, s, val n)
  end.

Definition sll_tail (m : mem) (s : sll_t) : result (mem * sll_t * T) :=
  match sll_last s with
  | None => Ok (m, s, zero)
  | Some _ => n ← deref m (sll_last s);
              '(m, s) ← sll_delete m s (sll_last s);
              Ok (m, s, val n)
  end.

Fixpoint clear_loop (fuel : nat) (m : mem) (first : option loc) : result mem :=
  match fuel with
  | O => Err Diverges
  | S fuel' =>
      match first with
      | None => Ok m
      | Some _ => n ← deref m first; m ← sfree m first; clear_loop fuel' m (flink n)
      end
  end.

(** [last] is left as it was. *)
Definition sll_clear (m : mem) (s : sll_t) : result (mem * sll_t) :=
  m ← clear_loop (S (size m)) m (sll_first s);
  Ok (m, SList 0 None (sll_last s)).

(** [while (iter != NULL) { if (fn_cmp (iter->val, value) == 0) break; sll_next (iter); }]:
    the iterator at the exit. *)
Fixpoint find_loop (fuel : nat) (m : mem) (fn_cmp : T -> T -> Z) (value : T) (iter : option loc)
    : result (option loc) :=
  match fuel with
  | O => Err Diverges
  | S fuel' =>
      match iter with
      | None => Ok None
      | Some _ =>
          n ← deref m iter;
          if fn_cmp (val n) value =? 0 then Ok iter
          else iter ← sll_next_select m iter; find_loop fuel' m fn_cmp value iter
      end
  end.

Definition sll_find (m : mem) (s : sll_t) (value : T) (fn_cmp : T -> T -> Z) (default_return : T)
    : result T :=
  iter ← find_loop (S (size m)) m fn_cmp value (sll_first s);
  match iter with
  | None => Ok default_return
  | Some _ => n ← deref m iter; Ok (val n)
  end.

Definition sll_contains (m : mem) (s : sll_t) (value : T) (fn_cmp : T -> T -> Z) : result bool :=
  iter ← find_loop (S (size m)) m fn_cmp value (sll_first s);
  Ok (match iter with Some _ => true | None => false end).

Definition sll_remove (m : mem) (s : sll_t) (value : T) (fn_cmp : T -> T -> Z) : result (mem * sll_t) :=
  iter ← find_loop (S (size m)) m fn_cmp value (sll_first s);
  match iter with
  | None => Ok (m, s)
  | Some _ => sll_delete m s iter
  end.

(** The loops of [sll_merge] and [sll_clone]: append the values the filter
    lets through, from [iter] on. *)
Fixpoint copy_loop (fuel : nat) (skip : mem -> sll_t -> T -> result bool) (m : mem) (target : sll_t)
    (iter : option loc) : result (mem * sll_t) :=
  match fuel with
  | O => Err Diverges
  | S fuel' =>
      match iter with
      | None => Ok (m, target)
      | Some _ =>
          n ← deref m iter;
          skipped ← skip m target (val n);
          '(m, target) ← (if (skipped : bool) then Ok (m, target)
                          else '(m, target, _) ← sll_append m target (val n); Ok (m, target));
          iter ← sll_next_select m iter;
          copy_loop fuel' skip m target iter
      end
  end.

Definition sll_clone (m : mem) (source target : sll_t) : result (mem * sll_t) :=
  copy_loop (S (size m)) (fun _ _ _ => Ok false) m target (sll_first source).

Definition sll_merge (m : mem) (a b : sll_t) (fn_cmp : T -> T -> Z) : result (mem * sll_t) :=
  let skip := fun m ret v => sll_contains m ret v fn_cmp in
  '(m, ret) ← copy_loop (S (size m)) skip m sll_init (sll_first b);
  copy_loop (S (size m)) skip m ret (sll_first a).
End Sll.
