(* ===== verification/SllSpec.v ===== *)
(** * The linked list represents a sequence: theorems

    A header and a chain of nodes in the store represent a list of values; every
    operation changes it as the corresponding operation on lists, touches no
    node of another list, and its loops end.  Clearing a list does not restore
    the representation: the last pointer keeps a freed address. *)
From Stdlib Require Import ZArith Lia.
From stdpp Require Import prelude fin_maps gmap.
From S2P Require Import Prelude Sll.

Local Open Scope Z_scope.

Section Chains.
Context {T : Type} (zero : T).
Abbreviation mem := (gmap loc (sll_node_t T)).

(** The address of the first node of a chain that ends in [e]. *)
Definition hd_or (e : option loc) (ps : list loc) : option loc :=
  match ps with [] => e | p :: _ => Some p end.

(** The nodes [ps] hold the values [vs] and are linked up to [e]. *)
Fixpoint seg (m : mem) (ps : list loc) (vs : list T) (e : option loc) : Prop :=
  match ps, vs with
  | [], [] => True
  | p :: ps, v :: vs => m !! p = Some (SNode (hd_or e ps) v) /\ seg m ps vs e
  | _, _ => False
  end.

Lemma seg_length m ps vs e : seg m ps vs e -> length ps = length vs.
Proof.
  revert vs. induction ps as [|p ps IH]; intros [|v vs] H; simpl in *; try done.
  destruct H as [_ H]. by rewrite (IH vs).
Qed.

Lemma hd_or_app e ps qs : hd_or e (ps ++ qs) = hd_or (hd_or e qs) ps.
Proof. by destruct ps. Qed.

Lemma seg_app m ps qs vs ws e :
  length ps = length vs ->
  seg m (ps ++ qs) (vs ++ ws) e <-> seg m ps vs (hd_or e qs) /\ seg m qs ws e.
Proof.
  revert vs. induction ps as [|p ps IH]; intros [|v vs] Hl; simpl in *; try done.
  - split; [by intros | by intros [_ ?]].
  - injection Hl as Hl. rewrite hd_or_app, IH by done. tauto.
Qed.

Lemma seg_frame m m' ps vs e :
  (forall p, p ∈ ps -> m' !! p = m !! p) -> seg m ps vs e -> seg m' ps vs e.
Proof.
  revert vs. induction ps as [|p ps IH]; intros [|v vs] Hf H; simpl in *; try done.
  destruct H as [H1 H2]. split.
  - rewrite Hf by (by left). done.
  - apply IH; [|done]. intros q Hq. apply Hf. by right.
Qed.

Lemma seg_insert m ps vs e l n : l ∉ ps -> seg m ps vs e -> seg (<[l := n]> m) ps vs e.
Proof. intros Hl. apply seg_frame. intros p Hp. apply lookup_insert_ne. by intros ->. Qed.

Lemma seg_delete m ps vs e l : l ∉ ps -> seg m ps vs e -> seg (delete l m) ps vs e.
Proof. intros Hl. apply seg_frame. intros p Hp. apply lookup_delete_ne. by intros ->. Qed.

Lemma seg_in m ps vs e p : seg m ps vs e -> p ∈ ps -> is_Some (m !! p).
Proof.
  revert vs. induction ps as [|q ps IH]; intros [|v vs] H Hp; simpl in *; try done.
  - by apply not_elem_of_nil in Hp.
  - destruct H as [H1 H2]. apply elem_of_cons in Hp as [->|Hp]; [by eexists | by eapply IH].
Qed.

(** A chain is no longer than the store: the loops have enough fuel. *)
Lemma seg_size m ps vs e : seg m ps vs e -> NoDup ps -> (length ps <= size m)%nat.
Proof.
  intros H Hnd. rewrite <- size_dom, <- (size_list_to_set (C := gset loc) ps) by done.
  apply subseteq_size. intros p Hp. apply elem_of_list_to_set in Hp.
  apply elem_of_dom. by eapply seg_in.
Qed.

(** The header [s] and the nodes [ps] represent the values [vs]. *)
Definition is_list (m : mem) (s : sll_t) (ps : list loc) (vs : list T) : Prop :=
  seg m ps vs None /\ NoDup ps /\ sll_first s = head ps /\ sll_last s = last ps /\
  sll_size s = u32 (Z.of_nat (length vs)).

(** Nothing but the nodes [ps] and new addresses changed. *)
Definition frame (m m' : mem) (ps : list loc) : Prop :=
  forall q, is_Some (m !! q) -> q ∉ ps -> m' !! q = m !! q.

Lemma is_list_frame m m' s ps vs qs :
  is_list m s ps vs -> frame m m' qs -> (forall p, p ∈ ps -> p ∉ qs) -> is_list m' s ps vs.
Proof.
  intros (H1 & H2) Hf Hd. split; [|done]. eapply seg_frame; [|done].
  intros p Hp. apply Hf; [by eapply seg_in | by apply Hd].
Qed.

Lemma frame_refl m ps : frame m m ps.
Proof. by intros q _ _. Qed.

Lemma frame_insert_in m ps l n : l ∈ ps -> frame m (<[l := n]> m) ps.
Proof. intros Hl q _ Hq. apply lookup_insert_ne. by intros ->. Qed.

Lemma frame_insert_new m ps l n : m !! l = None -> frame m (<[l := n]> m) ps.
Proof. intros Hl q [x Hx] _. apply lookup_insert_ne. intros ->. congruence. Qed.

Lemma u32_succ x : u32 (u32 x + 1) = u32 (x + 1).
Proof. unfold u32. by rewrite Zplus_mod_idemp_l. Qed.

Lemma u32_pred x : u32 (u32 x - 1) = u32 (x - 1).
Proof. unfold u32. by rewrite Zminus_mod_idemp_l. Qed.

Lemma is_list_first m s ps vs : is_list m s ps vs -> sll_first s = hd_or None ps.
Proof. intros (_ & _ & -> & _). by destruct ps. Qed.

Lemma last_middle {A} (pre : list A) t post : last (pre ++ t :: post) = Some (default t (last post)).
Proof. rewrite last_app, last_cons. by destruct (last post). Qed.

(** ** Splitting a represented list at a node *)

Lemma seg_split m pre p post vs e :
  seg m (pre ++ p :: post) vs e ->
  exists vpre v vpost, vs = vpre ++ v :: vpost /\ length pre = length vpre /\
    seg m pre vpre (Some p) /\ m !! p = Some (SNode (hd_or e post) v) /\ seg m post vpost e.
Proof.
  intros H. pose proof (seg_length _ _ _ _ H) as Hl. rewrite length_app in Hl. simpl in Hl.
  assert (length (take (length pre) vs) = length pre) as Ht by (rewrite length_take; lia).
  rewrite <- (take_drop (length pre) vs) in H. rewrite seg_app in H by done.
  destruct H as [H1 H2]. destruct (drop (length pre) vs) as [|v vpost] eqn:E; [done|].
  exists (take (length pre) vs), v, vpost. simpl in H2. destruct H2 as [H2 H3].
  split; [by rewrite <- E, take_drop|]. done.
Qed.
End Chains.

Section Operations.
Context {T : Type} (zero : T) (alloc : gmap loc (sll_node_t T) -> loc).
Context (alloc_fresh : forall m, m !! alloc m = None).
Abbreviation mem := (gmap loc (sll_node_t T)).

Lemma alloc_not_in m ps (vs : list T) e : seg m ps vs e -> alloc m ∉ ps.
Proof. intros H Hin. destruct (seg_in _ _ _ _ _ H Hin) as [x Hx]. by rewrite alloc_fresh in Hx. Qed.

Lemma sll_append_ok m s ps vs v :
  is_list m s ps vs ->
  exists m' s', sll_append alloc m s v = Ok (m', s', alloc m) /\
    is_list m' s' (ps ++ [alloc m]) (vs ++ [v]) /\ frame m m' ps.
Proof.
  intros (Hseg & Hnd & Hf & Hl & Hs). unfold sll_append. rewrite Hf, Hl, Hs, u32_succ.
  pose proof (alloc_not_in _ _ _ _ Hseg) as Hnew. set (l := alloc m) in *.
  assert (NoDup (ps ++ [l])) as Hnd'.
  { apply NoDup_app. split; [done|]. split; [|apply NoDup_singleton].
    intros p Hp Hin. apply list_elem_of_singleton in Hin. by subst. }
  assert (u32 (Z.of_nat (length vs) + 1) = u32 (Z.of_nat (length (vs ++ [v])))) as Hsz.
  { rewrite length_app. simpl. f_equal. lia. }
  destruct ps as [|p ps] using rev_ind.
  - destruct vs as [|]; [|done]. simpl. eexists _, _. split; [done|]. split.
    + split; [|split; [done|done]]. simpl. by rewrite lookup_insert_eq.
    + by apply frame_insert_new, alloc_fresh.
  - clear IHps. destruct (seg_split _ _ _ _ _ _ Hseg) as (vpre & w & vpost & -> & Hlen & H1 & H2 & H3).
    apply not_elem_of_app in Hnew as [Hn1 Hn2]. apply not_elem_of_cons in Hn2 as [Hn2 _].
    assert (is_Some (head (ps ++ [p]))) as [f Hhd] by (destruct ps; by eexists).
    rewrite Hhd, last_snoc. cbn [set_flink mbind result_bind].
    rewrite lookup_insert_ne, H2 by done. cbn [mbind result_bind val].
    eexists _, _. split; [done|].
    destruct vpost; [|done]. split.
    + split; [|split; [done|split; [|split; [|by rewrite Hsz]]]].
      * apply NoDup_app in Hnd as (_ & Hnd & _).
        rewrite <- !app_assoc. simpl. rewrite seg_app by done. simpl. split.
        { apply seg_insert; [|by apply seg_insert].
          intros Hin. eapply (Hnd p); [done|]. by left. }
        split; [by rewrite lookup_insert_eq|].
        split; [|done]. rewrite lookup_insert_ne by done. by rewrite lookup_insert_eq.
      * simpl. destruct ps; simpl in *; congruence.
      * simpl. by rewrite last_snoc.
    + intros q Hq Hnq. rewrite lookup_insert_ne.
      * by apply (frame_insert_new m [] l); [apply alloc_fresh | | apply not_elem_of_nil].
      * intros ->. apply Hnq. apply elem_of_app. right. by left.
Qed.

Lemma sll_prepend_ok m s ps vs v :
  is_list m s ps vs ->
  exists m' s', sll_prepend alloc m s v = (m', s', alloc m) /\
    is_list m' s' (alloc m :: ps) (v :: vs) /\ frame m m' [].
Proof.
  intros Hli. pose proof Hli as (Hseg & Hnd & Hf & Hl & Hs). unfold sll_prepend.
  rewrite (is_list_first _ _ _ _ Hli), Hl, Hs, u32_succ.
  pose proof (alloc_not_in _ _ _ _ Hseg) as Hnew. set (l := alloc m) in *.
  eexists _, _. split; [done|]. split; [|by apply frame_insert_new, alloc_fresh].
  split; [|split; [|split; [done|split]]].
  - simpl. rewrite lookup_insert_eq. split; [done|]. by apply seg_insert.
  - by constructor.
  - simpl. destruct ps as [|p ps]; [done|]. simpl.
    destruct (last (p :: ps)) eqn:E; [done|]. by apply last_None in E.
  - simpl. f_equal. lia.
Qed.

Lemma sll_insert_ok m s pre p post vs v :
  is_list m s (pre ++ p :: post) vs ->
  exists m' s', sll_insert alloc m s v (Some p) = Ok (m', s', alloc m) /\
    is_list m' s' (pre ++ p :: alloc m :: post)
      (take (S (length pre)) vs ++ v :: drop (S (length pre)) vs) /\
    frame m m' (pre ++ p :: post).
Proof.
  intros (Hseg & Hnd & Hf & Hl & Hs). pose proof (alloc_not_in _ _ _ _ Hseg) as Hnew.
  destruct (seg_split _ _ _ _ _ _ Hseg) as (vpre & w & vpost & -> & Hlen & H1 & H2 & H3).
  unfold sll_insert. cbn [deref]. rewrite H2. cbn [mbind result_bind flink set_flink].
  set (l := alloc m) in *.
  apply not_elem_of_app in Hnew as [Hn1 Hn2]. apply not_elem_of_cons in Hn2 as [Hn2 Hn3].
  rewrite lookup_insert_ne, H2 by done. cbn [mbind result_bind val sll_last sll_size sll_first].
  assert (take (S (length pre)) (vpre ++ w :: vpost) = vpre ++ [w]) as ->.
  { rewrite Hlen. replace (S (length vpre)) with (length (vpre ++ [w])) by (rewrite length_app; simpl; lia).
    by rewrite (app_cons_snoc vpre w vpost), take_app_length. }
  assert (drop (S (length pre)) (vpre ++ w :: vpost) = vpost) as ->.
  { rewrite Hlen. replace (S (length vpre)) with (length (vpre ++ [w])) by (rewrite length_app; simpl; lia).
    by rewrite (app_cons_snoc vpre w vpost), drop_app_length. }
  apply NoDup_app in Hnd as (Hnd1 & Hnd2 & Hnd3). apply NoDup_cons in Hnd3 as [Hnd3 Hnd4].
  eexists _, _. split; [done|]. split.
  - assert (seg (<[p := SNode (Some l) w]> (<[l := SNode (hd_or None post) v]> m))
              (pre ++ p :: l :: post) ((vpre ++ [w]) ++ v :: vpost) None) as Hseg'.
    { rewrite <- app_assoc. simpl. rewrite seg_app by done. split; [|split; [|split]].
      - simpl. apply seg_insert; [|by apply seg_insert]. intros Hin. eapply Hnd2; [done|]. by left.
      - by rewrite lookup_insert_eq.
      - rewrite lookup_insert_ne, lookup_insert_eq by done. done.
      - apply seg_insert; [done|]. by apply seg_insert. }
    assert (u32 (sll_size s + 1) = u32 (Z.of_nat (length ((vpre ++ [w]) ++ v :: vpost)))) as Hsz.
    { rewrite Hs, u32_succ. f_equal. rewrite !length_app. simpl. lia. }
    split; [done|]. split; [|split; [|split]].
    + apply NoDup_app. split; [done|]. split.
      * intros q Hq [->|[->|Hin]%elem_of_cons]%elem_of_cons; [|done|].
        -- eapply Hnd2; [done|]. by left.
        -- eapply Hnd2; [done|]. by right.
      * constructor; [|by constructor]. apply not_elem_of_cons. split; [congruence | done].
    + destruct (decide _); simpl; destruct pre; simpl in *; congruence.
    + rewrite Hl. destruct post as [|q post].
      * rewrite last_snoc, decide_True by done. simpl. by rewrite last_app.
      * destruct (last (q :: post)) as [z|] eqn:E; [|by apply last_None in E].
        assert (last (pre ++ p :: q :: post) = Some z) as Ez by (rewrite last_app; simpl; by rewrite E).
        rewrite Ez, decide_False.
        -- simpl. rewrite last_app. simpl. by rewrite E.
        -- intros [= ->]. apply Hnd3. by apply last_Some_elem_of in E.
    + destruct (decide _); exact Hsz.
  - intros q Hq Hnq. rewrite lookup_insert_ne.
    + by apply (frame_insert_new m [] l); [apply alloc_fresh | | apply not_elem_of_nil].
    + intros ->. apply Hnq. apply elem_of_app. right. by left.
Qed.

(** ** Deletion *)

Lemma delete_walk fuel (m : mem) s ws vs x t :
  seg m ws vs (Some x) -> t ∉ ws -> t <> x ->
  delete_loop (length ws + fuel) m s (Some t) (hd_or (Some x) ws) (hd_or (Some x) ws) =
  delete_loop fuel m s (Some t) (Some x) (Some x).
Proof.
  revert vs. induction ws as [|y ws IH]; intros [|v vs] Hseg Ht Hx; simpl in *; try done.
  destruct Hseg as [Hy Hseg]. apply not_elem_of_cons in Ht as [Hty Ht]. rewrite Hy.
  cbn [mbind result_bind flink]. rewrite decide_False.
  - by eapply IH.
  - destruct ws as [|z ws]; simpl; [congruence|]. apply not_elem_of_cons in Ht as [? _]. congruence.
Qed.

Lemma delete_found fuel (m : mem) s x v t w post :
  m !! x = Some (SNode (Some t) v) -> m !! t = Some (SNode (hd_or None post) w) -> t <> x ->
  (sll_last s = Some t <-> post = []) ->
  delete_loop (S fuel) m s (Some t) (Some x) (Some x) =
  Ok (delete t (<[x := SNode (hd_or None post) v]> m),
      SList (u32 (sll_size s - 1)) (sll_first s) (if decide (post = []) then Some x else sll_last s)).
Proof.
  intros Hx Ht Hne Hlast. simpl. rewrite Hx. cbn [mbind result_bind flink].
  rewrite (decide_True (P := Some t = Some t)) by done. destruct post as [|q post].
  - rewrite decide_True by (by apply Hlast). rewrite decide_True by done. simpl.
    rewrite lookup_insert_ne, Ht by done. done.
  - rewrite decide_False by (rewrite Hlast; discriminate). rewrite decide_False by done. simpl. rewrite Ht.
    cbn [mbind result_bind flink]. rewrite lookup_insert_ne, Ht by done. done.
Qed.

(** Taking the node [t] out of the middle of a list. *)
Lemma sll_delete_ok (m : mem) s pre t post (vs : list T) :
  is_list m s (pre ++ t :: post) vs ->
  exists m' s', sll_delete m s (Some t) = Ok (m', s') /\
    is_list m' s' (pre ++ post) (take (length pre) vs ++ drop (S (length pre)) vs) /\
    frame m m' (pre ++ t :: post) /\ m' !! t = None.
Proof.
  intros Hli. pose proof Hli as (Hseg & Hnd & Hf & Hl & Hs).
  pose proof (seg_size _ _ _ _ Hseg Hnd) as Hsize. rewrite length_app in Hsize. simpl in Hsize.
  destruct (seg_split _ _ _ _ _ _ Hseg) as (vpre & v & vpost & -> & Hlen & H1 & H2 & H3).
  rewrite Hlen, take_app_length.
  assert (drop (S (length vpre)) (vpre ++ v :: vpost) = vpost) as ->.
  { replace (S (length vpre)) with (length (vpre ++ [v])) by (rewrite length_app; simpl; lia).
    by rewrite (app_cons_snoc vpre v vpost), drop_app_length. }
  pose proof Hnd as Hnd0. apply NoDup_app in Hnd as (Hnd1 & Hnd2 & Hnd3).
  apply NoDup_cons in Hnd3 as [Hnd3 Hnd4].
  assert (sll_last s = Some t <-> post = []) as Hlast.
  { rewrite Hl, last_middle. split; [|by intros ->]. destruct (last post) as [z|] eqn:E; simpl.
    - intros [= ->]. by apply last_Some_elem_of in E.
    - intros _. by apply last_None in E. }
  unfold sll_delete. destruct pre as [|x pre] using rev_ind.
  - destruct vpre; [|done]. simpl in Hf. rewrite Hf, decide_True by done. simpl app in *.
    assert (u32 (sll_size s - 1) = u32 (Z.of_nat (length vpost))) as Hsz.
    { rewrite Hs, u32_pred. simpl. f_equal. lia. }
    destruct post as [|q post].
    + rewrite decide_True by (by apply Hlast). simpl. rewrite H2. cbn [mbind result_bind].
      destruct vpost; [|done]. eexists _, _. split; [done|]. split; [|split].
      * split; [done|]. by split.
      * intros q _ Hq. apply lookup_delete_ne. intros ->. apply Hq. by left.
      * apply lookup_delete_eq.
    + rewrite decide_False by (rewrite Hlast; discriminate). simpl. rewrite H2. cbn [mbind result_bind flink].
      eexists _, _. split; [done|]. split; [|split].
      * split; [by apply seg_delete|]. split; [done|]. split; [done|]. split; [|done].
        rewrite Hl. apply (last_cons_cons t q post).
      * intros r _ Hr. apply lookup_delete_ne. intros ->. apply Hr. by left.
      * apply lookup_delete_eq.
  - clear IHpre. destruct (seg_split _ _ _ _ _ _ H1) as (vp & w & vq & -> & Hlen' & G1 & G2 & G3).
    destruct vq; [|done]. simpl in G2.
    assert (t <> x) as Htx.
    { intros ->. apply (Hnd2 x); [|by left]. apply elem_of_app. right. by left. }
    assert (t ∉ pre) as Htp.
    { intros Hin. apply (Hnd2 t); [|by left]. apply elem_of_app. by left. }
    assert (sll_first s = hd_or (Some x) pre) as Hfirst.
    { rewrite Hf. by destruct pre. }
    rewrite decide_False.
    2: { rewrite Hfirst. destruct pre as [|y pre]; simpl; [congruence|].
         apply not_elem_of_cons in Htp as [? _]. congruence. }
    rewrite length_app in Hsize. simpl in Hsize.
    replace (S (size m)) with (length pre + S (size m - length pre))%nat by lia.
    rewrite Hfirst, (delete_walk _ m s pre vp x t G1 Htp Htx).
    rewrite (delete_found _ m s x w t v post G2 H2 Htx Hlast), Hfirst.
    eexists _, _. split; [done|].
    apply NoDup_app in Hnd1 as (Hndp & Hndx & _).
    assert (x ∉ pre) as Hxp by (intros Hin; apply (Hndx x Hin); by left).
    assert (x ∉ post) as Hxpost.
    { intros Hin. apply (Hnd2 x); [|by right]. apply elem_of_app. right. by left. }
    split; [|split].
    + split; [|split; [|split; [|split]]].
      * rewrite <- !app_assoc. simpl. rewrite seg_app by done. simpl. split; [|split].
        -- apply seg_delete; [done|]. by apply seg_insert.
        -- by rewrite lookup_delete_ne, lookup_insert_eq by done.
        -- apply seg_delete; [done|]. by apply seg_insert.
      * apply NoDup_app. apply NoDup_app in Hnd0 as (Ha & Hb & _). split; [done|]. split; [|done].
        intros q Hq Hin. apply (Hb q Hq). by right.
      * simpl. by destruct pre.
      * simpl. destruct post as [|q post].
        -- by rewrite app_nil_r, last_snoc.
        -- by rewrite decide_False, Hl, !(last_app _ (_ :: _)), last_cons_cons, last_cons by done.
      * simpl. rewrite Hs, u32_pred. f_equal. rewrite !length_app. simpl. lia.
    + intros q _ Hq. rewrite lookup_delete_ne, lookup_insert_ne; [done| |].
      * intros ->. apply Hq. apply elem_of_app. left. apply elem_of_app. right. by left.
      * intros ->. apply Hq. apply elem_of_app. right. by left.
    + apply lookup_delete_eq.
Qed.

(** ** Walking a list *)

Lemma sll_next_ok (m : mem) p ps v vs e :
  seg m (p :: ps) (v :: vs) e -> NoDup (p :: ps) -> e <> Some p ->
  sll_next_select m (Some p) = Ok (hd_or e ps).
Proof.
  intros [Hp _] Hnd He. simpl. rewrite Hp. cbn [mbind result_bind flink].
  rewrite decide_False; [done|]. apply NoDup_cons in Hnd as [Hnd _].
  destruct ps as [|q ps]; simpl; [done|]. apply not_elem_of_cons in Hnd as [? _]. congruence.
Qed.

(** The search stops at the first match. *)
Lemma find_loop_ok fuel (m : mem) cmp x ps vs :
  seg m ps vs None -> NoDup ps -> (length ps < fuel)%nat ->
  find_loop fuel m cmp x (hd_or None ps) =
  Ok (match list_find (fun w => cmp w x = 0) vs with Some (i, _) => ps !! i | None => None end).
Proof.
  revert ps vs. induction fuel as [|fuel IH]; intros ps vs Hseg Hnd Hlen; [lia|].
  destruct ps as [|p ps], vs as [|v vs]; try done.
  pose proof Hseg as [Hp Hseg']. cbn [hd_or find_loop deref]. rewrite Hp. cbn [mbind result_bind val].
  cbn [list_find]. destruct (Z.eqb_spec (cmp v x) 0) as [E|E].
  - by rewrite decide_True.
  - rewrite decide_False by done. rewrite (sll_next_ok m p ps v vs None) by done. cbn [mbind result_bind].
    apply NoDup_cons in Hnd as [_ Hnd]. rewrite (IH ps vs) by (done || simpl in Hlen; lia).
    destruct (list_find _ vs) as [[i w]|]; done.
Qed.

Lemma find_start (m : mem) s ps (vs : list T) cmp x :
  is_list m s ps vs ->
  find_loop (S (size m)) m cmp x (sll_first s) =
  Ok (match list_find (fun w => cmp w x = 0) vs with Some (i, _) => ps !! i | None => None end).
Proof.
  intros Hli. pose proof Hli as (Hseg & Hnd & _). rewrite (is_list_first _ _ _ _ Hli).
  pose proof (seg_size _ _ _ _ Hseg Hnd). apply find_loop_ok; (done || lia).
Qed.

Lemma seg_lookup (m : mem) ps (vs : list T) e i v :
  seg m ps vs e -> vs !! i = Some v -> exists p n, ps !! i = Some p /\ m !! p = Some n /\ val n = v.
Proof.
  revert vs i. induction ps as [|p ps IH]; intros [|w vs] [|i] Hseg Hi; simpl in *; try done.
  - injection Hi as ->. destruct Hseg as [Hp _]. by eexists _, _.
  - destruct Hseg as [_ Hseg]. by eapply IH.
Qed.

Lemma sll_find_contains_ok (m : mem) s ps vs cmp x dflt :
  is_list m s ps vs ->
  sll_find m s x cmp dflt =
    Ok (match list_find (fun w => cmp w x = 0) vs with Some (_, w) => w | None => dflt end) /\
  sll_contains m s x cmp = Ok (existsb (fun w => cmp w x =? 0) vs).
Proof.
  intros Hli. unfold sll_find, sll_contains. rewrite (find_start _ _ _ _ _ _ Hli). cbn [mbind result_bind].
  destruct (list_find (fun w => cmp w x = 0) vs) as [[i w]|] eqn:E.
  - apply list_find_Some in E as (Hi & Hw & _).
    destruct Hli as (Hseg & _). destruct (seg_lookup _ _ _ _ _ _ Hseg Hi) as (p & n & Hp & Hn & Hv).
    rewrite Hp. cbn [deref]. rewrite Hn. cbn [mbind result_bind]. rewrite Hv. split; [done|]. f_equal.
    symmetry. apply existsb_exists. exists w. split; [|by apply Z.eqb_eq].
    apply list_elem_of_In. by eapply list_elem_of_lookup_2.
  - apply list_find_None in E. split; [done|]. f_equal. symmetry. apply not_true_iff_false.
    intros Hex. apply existsb_exists in Hex as (w & Hin & Hw). apply list_elem_of_In in Hin.
    rewrite Forall_forall in E. apply (E w Hin). by apply Z.eqb_eq.
Qed.

(** ** Taking from the ends *)

Lemma sll_head_ok (m : mem) s ps vs :
  is_list m s ps vs ->
  match vs with
  | [] => sll_head zero m s = Ok (m, s, zero)
  | v :: vs' => exists m' s', sll_head zero m s = Ok (m', s', v) /\ is_list m' s' (tail ps) vs' /\ frame m m' ps
  end.
Proof.
  intros Hli. pose proof Hli as (Hseg & Hnd & Hf & Hl & Hs). unfold sll_head. rewrite Hf.
  destruct ps as [|p ps], vs as [|v vs]; try done.
  pose proof Hseg as [Hp _]. cbn [head deref]. rewrite Hp. cbn [mbind result_bind val].
  destruct (sll_delete_ok m s [] p ps (v :: vs) Hli) as (m' & s' & Hd & Hli' & Hfr & _).
  rewrite Hd. cbn [mbind result_bind]. by exists m', s'.
Qed.

Lemma sll_tail_ok (m : mem) s ps vs :
  is_list m s ps vs ->
  match last vs with
  | None => sll_tail zero m s = Ok (m, s, zero)
  | Some v => exists m' s', sll_tail zero m s = Ok (m', s', v) /\
                is_list m' s' (removelast ps) (removelast vs) /\ frame m m' ps
  end.
Proof.
  intros Hli. pose proof Hli as (Hseg & Hnd & Hf & Hl & Hs). unfold sll_tail. rewrite Hl.
  destruct ps as [|p ps] using rev_ind; [by destruct vs|]. clear IHps.
  destruct (seg_split _ _ _ _ _ _ Hseg) as (vpre & v & vpost & -> & Hlen & H1 & H2 & H3).
  destruct vpost; [|done]. rewrite !last_snoc. cbn [deref]. rewrite H2. cbn [mbind result_bind val].
  destruct (sll_delete_ok m s ps p [] _ Hli) as (m' & s' & Hd & Hli' & Hfr & _).
  rewrite Hd. cbn [mbind result_bind]. exists m', s'. split; [done|]. split; [|done].
  rewrite !removelast_last. rewrite Hlen, take_app_length, app_nil_r in Hli'.
  rewrite drop_ge in Hli' by (rewrite length_app; simpl; lia). by rewrite app_nil_r in Hli'.
Qed.

Lemma sll_remove_ok (m : mem) s ps vs cmp x :
  is_list m s ps vs ->
  match list_find (fun w => cmp w x = 0) vs with
  | None => sll_remove m s x cmp = Ok (m, s)
  | Some (i, _) => exists m' s', sll_remove m s x cmp = Ok (m', s') /\
      is_list m' s' (take i ps ++ drop (S i) ps) (take i vs ++ drop (S i) vs) /\ frame m m' ps
  end.
Proof.
  intros Hli. unfold sll_remove. rewrite (find_start _ _ _ _ _ _ Hli). cbn [mbind result_bind].
  destruct (list_find (fun w => cmp w x = 0) vs) as [[i w]|] eqn:E; [|done].
  apply list_find_Some in E as (Hi & _). pose proof Hli as (Hseg & _).
  destruct (seg_lookup _ _ _ _ _ _ Hseg Hi) as (p & n & Hp & _ & _). rewrite Hp.
  rewrite <- (take_drop_middle ps i p Hp) in Hli.
  destruct (sll_delete_ok m s _ p _ vs Hli) as (m' & s' & Hd & Hli' & Hfr & _).
  exists m', s'. split; [done|]. rewrite take_drop_middle in Hfr by done.
  apply lookup_lt_Some in Hp. rewrite length_take, Nat.min_l in Hli' by lia. done.
Qed.

(** ** Clearing *)

Lemma clear_loop_ok fuel (m : mem) ps vs :
  seg m ps vs None -> NoDup ps -> (length ps < fuel)%nat ->
  exists m', clear_loop fuel m (hd_or None ps) = Ok m' /\
    (forall p, p ∈ ps -> m' !! p = None) /\ (forall q, q ∉ ps -> m' !! q = m !! q).
Proof.
  revert m ps vs. induction fuel as [|fuel IH]; intros m ps vs Hseg Hnd Hlen; [lia|].
  destruct ps as [|p ps], vs as [|v vs]; try done.
  { exists m. split; [done|]. split; [intros p []%not_elem_of_nil | done]. }
  destruct Hseg as [Hp Hseg]. cbn [hd_or clear_loop deref sfree]. rewrite Hp. cbn [mbind result_bind flink].
  apply NoDup_cons in Hnd as [Hnp Hnd].
  destruct (IH (delete p m) ps vs) as (m' & -> & H1 & H2).
  - by apply seg_delete.
  - done.
  - simpl in Hlen. lia.
  - exists m'. split; [done|]. split.
    + intros q [->|Hq]%elem_of_cons; [|by apply H1]. rewrite H2 by done. apply lookup_delete_eq.
    + intros q [Hqp Hq]%not_elem_of_cons. rewrite H2, lookup_delete_ne by done. done.
Qed.

Lemma sll_clear_ok (m : mem) s ps (vs : list T) :
  is_list m s ps vs ->
  exists m', sll_clear m s = Ok (m', SList 0 None (last ps)) /\
    (forall p, p ∈ ps -> m' !! p = None) /\ frame m m' ps.
Proof.
  intros Hli. pose proof Hli as (Hseg & Hnd & _ & Hl & _). unfold sll_clear.
  rewrite (is_list_first _ _ _ _ Hli). pose proof (seg_size _ _ _ _ Hseg Hnd).
  destruct (clear_loop_ok (S (size m)) m ps vs Hseg Hnd ltac:(lia)) as (m' & -> & H1 & H2).
  cbn [mbind result_bind]. rewrite Hl. exists m'. split; [done|]. split; [done|]. intros q _. apply H2.
Qed.

(** ** Copying *)

(** What the copying loops deliver: the values the filter lets through. *)
Definition copy_vals (pred : list T -> T -> bool) (vs acc : list T) : list T :=
  foldl (fun acc v => if pred acc v then acc else acc ++ [v]) acc vs.

Definition copied (m m' : mem) (pt pt' : list loc) : Prop :=
  frame m m' pt /\ forall p, p ∈ pt' -> p ∈ pt \/ m !! p = None.

Lemma copied_trans m m1 m2 pt pt1 pt2 :
  copied m m1 pt pt1 -> copied m1 m2 pt1 pt2 ->
  (forall p, p ∈ pt -> p ∈ pt1) -> copied m m2 pt pt2.
Proof.
  intros [F1 N1] [F2 N2] Hsub. split.
  - intros q Hq Hn. assert (m1 !! q = m !! q) as E by (by apply F1). rewrite F2; [done | by rewrite E |].
    intros Hin. destruct (N1 q Hin) as [|E']; [done|]. rewrite E' in Hq. by destruct Hq.
  - intros p Hp. destruct (N2 p Hp) as [Hp1|Hp1]; [by apply N1|].
    destruct (decide (p ∈ pt)) as [|Hn]; [by left|]. right.
    destruct (m !! p) eqn:E; [|done]. rewrite <- (F1 p) in E; [congruence | by rewrite E | done].
Qed.

Lemma copy_loop_ok fuel skip pred (m : mem) target pt acc ps vs :
  (forall m s ps vs v, is_list m s ps vs -> skip m s v = Ok (pred vs v)) ->
  is_list m target pt acc -> seg m ps vs None -> NoDup ps -> (forall p, p ∈ ps -> p ∉ pt) ->
  (length ps < fuel)%nat ->
  exists m' target' pt', copy_loop alloc fuel skip m target (hd_or None ps) = Ok (m', target') /\
    is_list m' target' pt' (copy_vals pred vs acc) /\ copied m m' pt pt' /\ (forall p, p ∈ pt -> p ∈ pt').
Proof.
  intros Hskip. revert m target pt acc ps vs. induction fuel as [|fuel IH];
    intros m target pt acc ps vs Hli Hseg Hnd Hdis Hlen; [lia|].
  destruct ps as [|p ps], vs as [|v vs]; try done.
  { exists m, target, pt. split; [done|]. split; [done|]. split; [|done]. split; [apply frame_refl | by left]. }
  pose proof Hseg as [Hp Hseg']. cbn [hd_or copy_loop deref]. rewrite Hp. cbn [mbind result_bind val].
  rewrite (Hskip _ _ _ _ _ Hli). cbn [mbind result_bind].
  assert (exists m1 target1 pt1,
    (if pred acc v then Ok (m, target)
     else '(m, target, _) ← sll_append alloc m target v; Ok (m, target)) = Ok (m1, target1) /\
    is_list m1 target1 pt1 (if pred acc v then acc else acc ++ [v]) /\ copied m m1 pt pt1 /\
    (forall p, p ∈ pt -> p ∈ pt1) /\ seg m1 (p :: ps) (v :: vs) None /\
    (forall q, q ∈ p :: ps -> q ∉ pt1)) as (m1 & target1 & pt1 & -> & Hli1 & Hc1 & Hsub1 & Hseg1 & Hdis1).
  { destruct (pred acc v).
    - exists m, target, pt. split; [done|]. split; [done|]. split; [|done]. split; [apply frame_refl | by left].
    - destruct (sll_append_ok m target pt acc v Hli) as (m1 & t1 & -> & Hli1 & Hf1).
      exists m1, t1, (pt ++ [alloc m]). split; [done|]. split; [done|]. split; [|split; [|split]].
      + split; [done|]. intros q [?|Hq]%elem_of_app; [by left|]. right.
        apply list_elem_of_singleton in Hq as ->. apply alloc_fresh.
      + intros q Hq. apply elem_of_app. by left.
      + eapply seg_frame; [|exact Hseg]. intros q Hq. apply Hf1; [exact (seg_in _ _ _ _ _ Hseg Hq) | by apply Hdis].
      + intros q Hq [Hin|Hin]%elem_of_app; [by eapply Hdis|]. apply list_elem_of_singleton in Hin as ->.
        exact (alloc_not_in _ _ _ _ Hseg Hq). }
  cbn [mbind result_bind]. rewrite (sll_next_ok m1 p ps v vs None) by done. cbn [mbind result_bind].
  destruct Hseg1 as [_ Hseg1]. apply NoDup_cons in Hnd as [_ Hnd].
  destruct (IH m1 target1 pt1 _ ps vs Hli1 Hseg1 Hnd) as (m2 & t2 & pt2 & -> & Hli2 & Hc2 & Hsub2).
  - intros q Hq. apply Hdis1. by right.
  - simpl in Hlen. lia.
  - exists m2, t2, pt2. split; [done|]. split; [done|]. split; [by eapply copied_trans|]. auto.
Qed.

Lemma copy_list_ok skip pred (m : mem) s ps vs target pt acc :
  (forall m s ps vs v, is_list m s ps vs -> skip m s v = Ok (pred vs v)) ->
  is_list m target pt acc -> is_list m s ps vs -> (forall p, p ∈ ps -> p ∉ pt) ->
  exists m' target' pt', copy_loop alloc (S (size m)) skip m target (sll_first s) = Ok (m', target') /\
    is_list m' target' pt' (copy_vals pred vs acc) /\ copied m m' pt pt' /\ (forall p, p ∈ pt -> p ∈ pt').
Proof.
  intros Hskip Ht Hli Hdis. pose proof Hli as (Hseg & Hnd & _). rewrite (is_list_first _ _ _ _ Hli).
  pose proof (seg_size _ _ _ _ Hseg Hnd).
  eapply copy_loop_ok; [exact Hskip | exact Ht | exact Hseg | exact Hnd | exact Hdis | lia].
Qed.

Lemma copy_vals_all vs acc : copy_vals (fun _ _ => false) vs acc = acc ++ vs.
Proof.
  revert acc. induction vs as [|v vs IH]; intros acc; simpl; [by rewrite app_nil_r|].
  unfold copy_vals in *. simpl. by rewrite IH, <- app_assoc.
Qed.

Lemma sll_clone_ok (m : mem) s ps vs target pt acc :
  is_list m s ps vs -> is_list m target pt acc -> (forall p, p ∈ ps -> p ∉ pt) ->
  exists m' target' pt', sll_clone alloc m s target = Ok (m', target') /\
    is_list m' target' pt' (acc ++ vs) /\ is_list m' s ps vs.
Proof.
  intros Hli Ht Hdis. unfold sll_clone.
  destruct (copy_list_ok (fun _ _ _ => Ok false) (fun _ _ => false) m s ps vs target pt acc)
    as (m' & t' & pt' & -> & Hli' & [Hf _] & _); try done.
  exists m', t', pt'. split; [done|]. rewrite copy_vals_all in Hli'. split; [done|].
  by eapply is_list_frame.
Qed.

(** The values of [b], then those of [a], each unless an equal one is there. *)
Definition merge_vals (cmp : T -> T -> Z) (a b : list T) : list T :=
  let has acc v := existsb (fun w => cmp w v =? 0) acc in
  copy_vals has a (copy_vals has b []).

Lemma sll_merge_ok (m : mem) sa pa va sb pb vb cmp :
  is_list m sa pa va -> is_list m sb pb vb ->
  exists m' s' ps', sll_merge alloc m sa sb cmp = Ok (m', s') /\
    is_list m' s' ps' (merge_vals cmp va vb) /\ is_list m' sa pa va /\ is_list m' sb pb vb.
Proof.
  intros Ha Hb. unfold sll_merge.
  set (has := fun acc v => existsb (fun w => cmp w v =? 0) acc).
  assert (forall m s ps vs v, is_list m s ps vs -> sll_contains m s v cmp = Ok (has vs v)) as Hskip.
  { intros m0 s0 ps0 vs0 v Hli. by apply (sll_find_contains_ok m0 s0 ps0 vs0 cmp v zero). }
  assert (is_list m sll_init [] []) as H0 by (split; [done|]; split; [constructor | done]).
  destruct (copy_list_ok (fun m ret v => sll_contains m ret v cmp) has m sb pb vb sll_init [] [])
    as (m1 & s1 & p1 & -> & Hl1 & [Hf1 Hn1] & _); [done | done | done | intros p _; apply not_elem_of_nil |].
  cbn [mbind result_bind].
  assert (is_list m1 sa pa va) as Ha1 by (eapply is_list_frame; [done..|]; intros; apply not_elem_of_nil).
  assert (is_list m1 sb pb vb) as Hb1 by (eapply is_list_frame; [done..|]; intros; apply not_elem_of_nil).
  assert (forall s ps vs, is_list m s ps vs -> forall p, p ∈ ps -> p ∉ p1) as Hdis.
  { intros s ps vs (Hseg & _) p Hp Hin. destruct (Hn1 p Hin) as [[]%not_elem_of_nil|E].
    destruct (seg_in _ _ _ _ _ Hseg Hp) as [x Hx]. congruence. }
  destruct (copy_list_ok (fun m ret v => sll_contains m ret v cmp) has m1 sa pa va s1 p1 (copy_vals has vb []))
    as (m2 & s2 & p2 & -> & Hl2 & [Hf2 _] & _); [done | done | done | by eapply Hdis |].
  exists m2, s2, p2. split; [done|]. split; [done|].
  split; (eapply is_list_frame; [done | done | by eapply Hdis]).
Qed.

(** Folds keep what is there and add only what no equal value precedes. *)
Lemma copy_vals_spec cmp vs acc :
  let has acc v := existsb (fun w => cmp w v =? 0) acc in
  (forall x, x ∈ copy_vals has vs acc -> x ∈ acc \/ x ∈ vs) /\
  (forall x, x ∈ acc -> x ∈ copy_vals has vs acc) /\
  (forall x, x ∈ vs -> cmp x x = 0 -> has (copy_vals has vs acc) x = true).
Proof.
  intros has. unfold copy_vals. revert acc. induction vs as [|v vs IH]; intros acc; simpl.
  - split; [by left|]. split; [done|]. intros x []%not_elem_of_nil.
  - set (acc' := if has acc v then acc else acc ++ [v]). destruct (IH acc') as (I1 & I2 & I3).
    assert (forall x, x ∈ acc -> x ∈ acc') as Hsub.
    { intros x Hx. unfold acc'. destruct (has acc v); [done|]. apply elem_of_app. by left. }
    split; [|split].
    + intros x Hx. destruct (I1 x Hx) as [Ha|Ha]; [|right; by right]. unfold acc' in Ha.
      destruct (has acc v); [by left|]. apply elem_of_app in Ha as [?|Ha]; [by left|].
      apply list_elem_of_singleton in Ha as ->. right. by left.
    + intros x Hx. by apply I2, Hsub.
    + intros x [->|Hx]%elem_of_cons Hrefl; [|by apply I3].
      assert (exists w, w ∈ acc' /\ (cmp w v =? 0) = true) as (w & Hw & Ew).
      { unfold acc'. destruct (has acc v) eqn:E.
        - apply existsb_exists in E as (w & Hw & Ew). exists w. split; [by apply list_elem_of_In | done].
        - exists v. split; [apply elem_of_app; right; by left | by apply Z.eqb_eq]. }
      apply existsb_exists. exists w. split; [|done]. apply list_elem_of_In. by apply I2.
Qed.

(** ** The theorems *)

(** The linked list implements sequences.  Whatever the allocator, on a
    header that represents [vs], appending, prepending, inserting after a node,
    deleting a node and taking the head or the tail always return, represent
    the changed sequence, and leave every node of every other list alone. *)
Theorem sll_sequence_refines (m : mem) s ps vs v :
  is_list m s ps vs ->
  (exists m' s' ps', sll_append alloc m s v = Ok (m', s', alloc m) /\
     is_list m' s' ps' (vs ++ [v]) /\ frame m m' ps) /\
  (exists m' s' ps', sll_prepend alloc m s v = (m', s', alloc m) /\
     is_list m' s' ps' (v :: vs) /\ frame m m' ps) /\
  (forall i p, ps !! i = Some p ->
     (exists m' s' ps', sll_insert alloc m s v (Some p) = Ok (m', s', alloc m) /\
        is_list m' s' ps' (take (S i) vs ++ v :: drop (S i) vs) /\ frame m m' ps) /\
     (exists m' s', sll_delete m s (Some p) = Ok (m', s') /\
        is_list m' s' (delete i ps) (delete i vs) /\ frame m m' ps /\ m' !! p = None)) /\
  match vs with
  | [] => sll_head zero m s = Ok (m, s, zero) /\ sll_tail zero m s = Ok (m, s, zero)
  | first :: rest =>
      (exists m' s', sll_head zero m s = Ok (m', s', first) /\ is_list m' s' (tail ps) rest /\ frame m m' ps) /\
      (exists m' s', sll_tail zero m s = Ok (m', s', List.last vs zero) /\
         is_list m' s' (removelast ps) (removelast vs) /\ frame m m' ps)
  end.
Proof.
  intros Hli. split; [|split; [|split]].
  - destruct (sll_append_ok m s ps vs v Hli) as (m' & s' & ? & ? & ?). by exists m', s', (ps ++ [alloc m]).
  - destruct (sll_prepend_ok m s ps vs v Hli) as (m' & s' & ? & ? & Hf). exists m', s', (alloc m :: ps).
    split; [done|]. split; [done|]. intros q Hq _. apply Hf; [done | apply not_elem_of_nil].
  - intros i p Hp. pose proof Hli as Hli0. rewrite <- (take_drop_middle ps i p Hp) in Hli.
    assert (length (take i ps) = i) as Hi by (apply lookup_lt_Some in Hp; rewrite length_take; lia).
    split.
    + destruct (sll_insert_ok m s _ p _ vs v Hli) as (m' & s' & H1 & H2 & H3). rewrite Hi in H2.
      rewrite take_drop_middle in H3 by done. by eexists _, _, _.
    + destruct (sll_delete_ok m s _ p _ vs Hli) as (m' & s' & H1 & H2 & H3 & H4). rewrite Hi in H2.
      rewrite take_drop_middle in H3 by done. exists m', s'. by rewrite !delete_take_drop.
  - pose proof (sll_head_ok m s ps vs Hli) as Hh. pose proof (sll_tail_ok m s ps vs Hli) as Ht.
    destruct vs as [|w vs]; [done|]. split; [done|].
    rewrite last_cons in Ht. replace (List.last (w :: vs) zero) with (default w (last vs)).
    { destruct (last vs); exact Ht. }
    clear. revert w. induction vs as [|x vs IH]; intros w; [done|]. rewrite last_cons.
    change (List.last (w :: x :: vs) zero) with (List.last (x :: vs) zero). rewrite <- IH.
    by destruct (last vs).
Qed.

(** Searching, removing by value and merging.  Find returns the first
    match or the default, contains says whether there is one, remove deletes
    the first match only; merging builds a new list whose values are exactly
    those of both lists, each value having an equal one in it, and keeps both
    arguments. *)
Theorem sll_search_merge_spec (m : mem) s ps vs sb pb vb x cmp dflt :
  is_list m s ps vs -> is_list m sb pb vb -> (forall v, cmp v v = 0) ->
  sll_contains m s x cmp = Ok (existsb (fun w => cmp w x =? 0) vs) /\
  match list_find (fun w => cmp w x = 0) vs with
  | None => sll_find m s x cmp dflt = Ok dflt /\ sll_remove m s x cmp = Ok (m, s)
  | Some (i, w) => sll_find m s x cmp dflt = Ok w /\
      exists m' s', sll_remove m s x cmp = Ok (m', s') /\
        is_list m' s' (delete i ps) (delete i vs) /\ frame m m' ps
  end /\
  exists m' s' ps' merged, sll_merge alloc m s sb cmp = Ok (m', s') /\ is_list m' s' ps' merged /\
    is_list m' s ps vs /\ is_list m' sb pb vb /\
    (forall v, v ∈ merged -> v ∈ vs \/ v ∈ vb) /\
    (forall v, v ∈ vs \/ v ∈ vb -> existsb (fun w => cmp w v =? 0) merged = true).
Proof.
  intros Hli Hlb Hrefl. destruct (sll_find_contains_ok m s ps vs cmp x dflt Hli) as [Hf Hc].
  split; [done|]. split.
  - pose proof (sll_remove_ok m s ps vs cmp x Hli) as Hr.
    destruct (list_find (fun w => cmp w x = 0) vs) as [[i w]|]; [|done].
    split; [done|]. destruct Hr as (m' & s' & ? & ? & ?). exists m', s'. by rewrite !delete_take_drop.
  - destruct (sll_merge_ok m s ps vs sb pb vb cmp Hli Hlb) as (m' & s' & ps' & H1 & H2 & H3 & H4).
    exists m', s', ps', (merge_vals cmp vs vb). do 4 (split; [done|]). unfold merge_vals.
    destruct (copy_vals_spec cmp vb []) as (B1 & _ & B3). set (first := copy_vals _ vb []) in *.
    destruct (copy_vals_spec cmp vs first) as (A1 & A2 & A3). split.
    + intros v Hv. destruct (A1 v Hv) as [Hv'|]; [|by left].
      destruct (B1 v Hv') as [[]%not_elem_of_nil|]. by right.
    + intros v [Hv|Hv]; [by apply A3|].
      specialize (B3 v Hv (Hrefl v)). apply existsb_exists in B3 as (w & Hw & Ew).
      apply existsb_exists. exists w. split; [|done]. apply list_elem_of_In, A2. by apply list_elem_of_In.
Qed.

(** Clearing.  It always returns, frees exactly the nodes of the list and
    touches no other; the cleared header may be appended to as an empty list.
    But its last pointer keeps the freed address: after prepending to a cleared
    (non-empty) list, appending writes through it, a memory fault whenever the
    allocator has not handed that address out again. *)
Theorem sll_clear_spec (m : mem) s ps vs v w :
  is_list m s ps vs ->
  exists m' s', sll_clear m s = Ok (m', s') /\ sll_size s' = 0 /\ sll_first s' = None /\
    (forall p, p ∈ ps -> m' !! p = None) /\ frame m m' ps /\
    (exists m'' s'', sll_append alloc m' s' v = Ok (m'', s'', alloc m') /\ is_list m'' s'' [alloc m'] [v]) /\
    (let '(m1, s1, n1) := sll_prepend alloc m' s' v in
     vs <> [] -> last ps <> Some n1 -> last ps <> Some (alloc m1) ->
     sll_append alloc m1 s1 w = Err Bad_access).
Proof.
  intros Hli. destruct (sll_clear_ok m s ps vs Hli) as (m' & Hc & Hfree & Hf).
  exists m', (SList 0 None (last ps)). do 5 (split; [done|]). split.
  - unfold sll_append. simpl. eexists _, _. split; [done|].
    split; [simpl; by rewrite lookup_insert_eq|]. split; [apply NoDup_singleton | done].
  - unfold sll_prepend. cbn [sll_first sll_last sll_size]. intros Hne Hn1 Hn2.
    destruct (last ps) as [l|] eqn:El; cycle 1.
    { apply last_None in El as ->. destruct Hli as (Hseg & _). by destruct vs. }
    unfold sll_append. cbn [sll_first sll_last sll_size set_flink].
    set (m1 := <[alloc m' := _]> m') in *. rewrite lookup_insert_ne by congruence.
    assert (m1 !! l = None) as ->; [|done].
    unfold m1. rewrite lookup_insert_ne by congruence. apply Hfree. by apply last_Some_elem_of in El.
Qed.
End Operations.

(** ** Examples *)

(** An allocator: an address outside the store. *)
Definition alloc_any {T} (m : gmap loc (sll_node_t T)) : loc := fresh (dom m).

Lemma alloc_any_fresh {T} (m : gmap loc (sll_node_t T)) : m !! alloc_any m = None.
Proof. apply not_elem_of_dom. apply is_fresh. Qed.

Definition example_store : gmap loc (sll_node_t Z) := {[ 1%positive := SNode None 7 ]}.
Definition example_list : sll_t := SList 1 (Some 1%positive) (Some 1%positive).

Lemma example_is_list : is_list example_store example_list [1%positive] [7].
Proof. split; [done|]. split; [apply NoDup_singleton | done]. Qed.

Lemma sll_sequence_refines_witness :
  exists m' s' ps', sll_append alloc_any example_store example_list 8 = Ok (m', s', alloc_any example_store) /\
    is_list m' s' ps' [7; 8] /\ frame example_store m' [1%positive].
Proof.
  exact (proj1 (sll_sequence_refines 0 alloc_any alloc_any_fresh example_store example_list [1%positive] [7] 8
                  example_is_list)).
Defined.

Lemma sll_search_merge_spec_witness :
  sll_contains example_store example_list 7 (fun a b => a - b) = Ok true.
Proof.
  exact (proj1 (sll_search_merge_spec 0 alloc_any alloc_any_fresh example_store example_list [1%positive] [7]
                  example_list [1%positive] [7] 7 (fun a b => a - b) 0
                  example_is_list example_is_list Z.sub_diag)).
Defined.

Lemma sll_clear_spec_witness :
  exists m' s', sll_clear example_store example_list = Ok (m', s') /\ sll_size s' = 0.
Proof.
  destruct (sll_clear_spec alloc_any example_store example_list [1%positive] [7] 1 2 example_is_list)
    as (m' & s' & H1 & H2 & _).
  exists m', s'. split; [exact H1 | exact H2].
Defined.
