(* ===== verification/Scache.v ===== *)
(** * The simple cache: [src/util/np_scache.c]

    A chained hash table with a lock per bucket.  Its buckets are linked lists
    of [Sll], here the sequences they represent ([SllSpec]).  [siphash24] is the
    short hash of libsodium, a parameter.  The table answers every sequence of
    operations as a finite map that keeps the first value of a key. *)
From Stdlib Require Import ZArith Lia QArith.
From stdpp Require Import prelude fin_maps gmap.
From S2P Require Import Prelude.

Local Open Scope Z_scope.

Definition NP_FINGERPRINT_BYTES : nat := 32.
Definition crypto_shorthash_BYTES : nat := 8.

Section Scache.
Context {V : Type} (siphash24 : list Z -> list Z -> list Z).

(** [struct np_cache_item_s]; the key is the copy of 32 bytes. *)
Record np_cache_item_t := Item {
  it_key : list Z;
  it_value : V;
  it_insert_time : Q;
}.

(** [struct np_simple_cache_table_s], without the bucket locks. *)
Record np_simple_cache_table_t := Table {
  _bucket_size : Z;
  _seed : list Z;
  _bucket : list (list np_cache_item_t);
}.

Definition np_cache_init (size : Z) (seed : list Z) : np_simple_cache_table_t :=
  Table size seed (replicate (Z.to_nat size) []).

(** The 32 bytes at [key]; reading beyond the object is a fault. *)
Definition fingerprint (key : list Z) : result (list Z) :=
  if decide (NP_FINGERPRINT_BYTES <= length key)%nat then Ok (take NP_FINGERPRINT_BYTES key)
  else Err Bad_access.

(** [memcpy] of the hash into a [uint64_t] (little endian). *)
Fixpoint le_value (bytes : list Z) : Z :=
  match bytes with [] => 0 | b :: bs => b + 256 * le_value bs end.

Definition bucket_of (table : np_simple_cache_table_t) (fp : list Z) : result Z :=
  let bucket_bigint := le_value (take crypto_shorthash_BYTES (siphash24 fp (_seed table))) in
  if _bucket_size table =? 0 then Err Div_by_zero
  else Ok (Z.land (u16 bucket_bigint) 65535 mod _bucket_size table).

(** The search loop of both operations. *)
Fixpoint scan (fp : list Z) (items : list np_cache_item_t) : option np_cache_item_t :=
  match items with
  | [] => None
  | it :: items => if decide (it_key it = fp) then Some it else scan fp items
  end.

(** [None] is a [NULL] key.  The result is the value written to [*value], if any. *)
Definition np_simple_cache_get (table : np_simple_cache_table_t) (key : option (list Z))
    : result (option V) :=
  match key with
  | None => Err Assert_failed
  | Some key =>
      fp ← fingerprint key;
      bucket ← bucket_of table fp;
      items ← rd (_bucket table) bucket;
      Ok (match scan fp items with Some it => Some (it_value it) | None => None end)
  end.

Definition np_simple_cache_add (table : np_simple_cache_table_t) (now : Q) (key : option (list Z)) (value : V)
    : result (np_simple_cache_table_t * bool) :=
  match key with
  | None => Err Assert_failed
  | Some key =>
      internal_key ← fingerprint key;
      bucket ← bucket_of table internal_key;
      items ← rd (_bucket table) bucket;
      match scan internal_key items with
      | Some _ => Ok (table, false)
      | None =>
          buckets ← wr (_bucket table) bucket (items ++ [Item internal_key value now]);
          Ok (Table (_bucket_size table) (_seed table) buckets, true)
      end
  end.

(** ** The abstract map *)

Definition table_ok (t : np_simple_cache_table_t) : Prop :=
  0 < _bucket_size t /\ length (_bucket t) = Z.to_nat (_bucket_size t).

(** The bucket of a key. *)
Definition bucket_idx (t : np_simple_cache_table_t) (fp : list Z) : Z :=
  Z.land (u16 (le_value (take crypto_shorthash_BYTES (siphash24 fp (_seed t))))) 65535 mod _bucket_size t.

(** The table holds the map [f]. *)
Definition holds (t : np_simple_cache_table_t) (f : gmap (list Z) V) : Prop :=
  table_ok t /\
  forall fp, exists items, rd (_bucket t) (bucket_idx t fp) = Ok items /\ it_value <$> scan fp items = f !! fp.

Lemma bucket_idx_range t fp : table_ok t -> 0 <= bucket_idx t fp < Z.of_nat (length (_bucket t)).
Proof.
  intros [Hpos Hl]. unfold bucket_idx.
  pose proof (Z.mod_pos_bound (Z.land (u16 (le_value (take crypto_shorthash_BYTES
    (siphash24 fp (_seed t))))) 65535) (_bucket_size t) Hpos). lia.
Qed.

Lemma scache_bucket_of_ok t fp : table_ok t -> bucket_of t fp = Ok (bucket_idx t fp).
Proof. intros [Hpos _]. unfold bucket_of. destruct (Z.eqb_spec (_bucket_size t) 0); [lia | done]. Qed.

Lemma scan_app fp items it :
  scan fp (items ++ [it]) =
  match scan fp items with Some x => Some x | None => if decide (it_key it = fp) then Some it else None end.
Proof. induction items as [|x items IH]; simpl; [done|]. destruct (decide (it_key x = fp)); [done | exact IH]. Qed.

Lemma init_holds size seed : 0 < size -> holds (np_cache_init size seed) ∅.
Proof.
  intros Hs. assert (table_ok (np_cache_init size seed)) as Hok.
  { split; [done|]. simpl. by rewrite length_replicate. }
  split; [done|]. intros fp. destruct (rd_ok _ _ (bucket_idx_range _ fp Hok)) as (items & Hrd & Hlk).
  exists items. split; [done|]. apply lookup_replicate in Hlk as [-> _]. done.
Qed.

Lemma get_holds t f key :
  holds t f -> (NP_FINGERPRINT_BYTES <= length key)%nat ->
  np_simple_cache_get t (Some key) = Ok (f !! take NP_FINGERPRINT_BYTES key).
Proof.
  intros [Hok Hf] Hk. unfold np_simple_cache_get, fingerprint. rewrite decide_True by done.
  cbn [mbind result_bind]. rewrite scache_bucket_of_ok by done. cbn [mbind result_bind].
  destruct (Hf (take NP_FINGERPRINT_BYTES key)) as (items & -> & Hs). cbn [mbind result_bind].
  rewrite <- Hs. by destruct (scan _ items).
Qed.

Lemma add_holds t f now key v :
  holds t f -> (NP_FINGERPRINT_BYTES <= length key)%nat ->
  let fp := take NP_FINGERPRINT_BYTES key in
  exists t', np_simple_cache_add t now (Some key) v = Ok (t', bool_decide (f !! fp = None)) /\
    holds t' (if decide (f !! fp = None) then <[fp := v]> f else f).
Proof.
  intros [Hok Hf] Hk fp. unfold np_simple_cache_add, fingerprint. rewrite decide_True by done.
  cbn [mbind result_bind]. fold fp. rewrite scache_bucket_of_ok by done. cbn [mbind result_bind].
  destruct (Hf fp) as (items & Hrd & Hs). rewrite Hrd. cbn [mbind result_bind].
  destruct (scan fp items) as [it|] eqn:Es.
  - simpl in Hs. exists t. rewrite bool_decide_false, decide_False by (rewrite <- Hs; done). done.
  - simpl in Hs. rewrite wr_ok by (by apply bucket_idx_range). cbn [mbind result_bind].
    rewrite bool_decide_true, decide_True by done. eexists. split; [done|].
    assert (forall fp', bucket_idx (Table (_bucket_size t) (_seed t)
      (<[Z.to_nat (bucket_idx t fp) := items ++ [Item fp v now]]> (_bucket t))) fp' = bucket_idx t fp') as Hidx by done.
    split; [destruct Hok; split; [done|]; simpl; by rewrite length_insert|].
    intros fp'. rewrite Hidx. destruct (Hf fp') as (items' & Hrd' & Hs').
    pose proof (bucket_idx_range t fp Hok). pose proof (bucket_idx_range t fp' Hok).
    cbn [_bucket]. apply rd_lookup in Hrd as [_ Hrd]. pose proof Hrd' as [_ Hlk']%rd_lookup.
    destruct (decide (bucket_idx t fp = bucket_idx t fp')) as [E|E].
    + exists (items ++ [Item fp v now]). split.
      { apply rd_lookup. split; [lia|]. rewrite E. apply list_lookup_insert_eq. lia. }
      rewrite scan_app. simpl. rewrite E in Hrd. rewrite Hrd in Hlk'. injection Hlk' as <-.
      destruct (decide (fp = fp')) as [<-|Hne].
      * by rewrite Es, lookup_insert_eq.
      * rewrite lookup_insert_ne by done. by destruct (scan fp' items).
    + exists items'. split.
      { apply rd_lookup. split; [lia|]. rewrite list_lookup_insert_ne by lia. done. }
      rewrite lookup_insert_ne; [done|]. by intros ->.
Qed.

(** ** Sequences of operations *)

Inductive cache_op := Get (key : list Z) | Add (now : Q) (key : list Z) (v : V).
Inductive cache_out := Got (v : option V) | Added (b : bool).

Definition op_ok (o : cache_op) : Prop :=
  match o with Get key | Add _ key _ => (NP_FINGERPRINT_BYTES <= length key)%nat end.

Fixpoint run_cache (ops : list cache_op) (t : np_simple_cache_table_t) : result (list cache_out) :=
  match ops with
  | [] => Ok []
  | Get key :: ops => v ← np_simple_cache_get t (Some key); outs ← run_cache ops t; Ok (Got v :: outs)
  | Add now key v :: ops =>
      '(t, b) ← np_simple_cache_add t now (Some key) v; outs ← run_cache ops t; Ok (Added b :: outs)
  end.

(** The same on a finite map: an addition does not replace a value. *)
Fixpoint run_map (ops : list cache_op) (f : gmap (list Z) V) : list cache_out :=
  match ops with
  | [] => []
  | Get key :: ops => Got (f !! take NP_FINGERPRINT_BYTES key) :: run_map ops f
  | Add _ key v :: ops =>
      let fp := take NP_FINGERPRINT_BYTES key in
      if decide (f !! fp = None) then Added true :: run_map ops (<[fp := v]> f)
      else Added false :: run_map ops f
  end.

Lemma run_cache_ok ops t f : holds t f -> Forall op_ok ops -> run_cache ops t = Ok (run_map ops f).
Proof.
  intros Ht Hops. revert t f Ht. induction Hops as [|o ops Ho Hops IH]; intros t f Ht; [done|].
  destruct o as [key|now key v]; cbn [run_cache run_map].
  - rewrite (get_holds t f key Ht Ho). cbn [mbind result_bind]. by rewrite (IH t f Ht).
  - destruct (add_holds t f now key v Ht Ho) as (t' & -> & Ht'). cbn [mbind result_bind].
    rewrite (IH _ _ Ht'). case_decide; [by rewrite bool_decide_true | by rewrite bool_decide_false].
Qed.

(** The cache is a map.  Whatever the hash function, the seed and the
    number of buckets, a table with at least one bucket answers every sequence
    of lookups and additions as a finite map from 32-byte fingerprints that
    keeps the first value added for a key; no operation faults.  A [NULL] key
    is an assertion failure, a key of fewer than 32 bytes is read beyond its
    end, and a table with no bucket divides by zero. *)
Theorem scache_refines_map size seed ops :
  0 < size -> Forall op_ok ops ->
  run_cache ops (np_cache_init size seed) = Ok (run_map ops ∅) /\
  (forall t, np_simple_cache_get t None = Err Assert_failed) /\
  (forall t key, (length key < 32)%nat -> np_simple_cache_get t (Some key) = Err Bad_access) /\
  (forall key, (32 <= length key)%nat -> np_simple_cache_get (np_cache_init 0 seed) (Some key) = Err Div_by_zero).
Proof.
  intros Hs Hops. split; [|split; [done|split]].
  - apply run_cache_ok; [by apply init_holds | done].
  - intros t key Hk. unfold np_simple_cache_get, fingerprint.
    rewrite decide_False by (unfold NP_FINGERPRINT_BYTES; lia). done.
  - intros key Hk. unfold np_simple_cache_get, fingerprint. by rewrite decide_True.
Qed.
End Scache.

Lemma scache_refines_map_witness :
  let k := replicate 32 1 in
  run_cache (fun fp _ => take 8 fp) [Add 0%Q k 5; Add 0%Q k 6; Get k; Get (replicate 32 2)]
    (np_cache_init 127 (replicate 16 0)) = Ok [Added true; Added false; Got (Some 5); Got None].
Proof.
  intros k.
  refine (eq_trans (proj1 (scache_refines_map (V := Z) (fun fp _ => take 8 fp) 127 (replicate 16 0)
    [Add 0%Q k 5; Add 0%Q k 6; Get k; Get (replicate 32 2)] ltac:(lia) _)) _).
  - repeat constructor.
  - vm_compute. reflexivity.
Defined.
