(* ===== verification/Cupidtrie.v ===== *)
(** * Tries of keys of equal length: [src/util/np_cupidtrie.c]

    A branch looks at one nibble of the key, by its position ([shift]), and has an array of
    sixteen cells, of which [mask] says which are in use; a leaf has the whole key and a
    word of data.  Branches and leaves share their memory, so a cell that was never used is
    a leaf without a key.  Pointers into a trie are paths: the nibbles chosen on the way.
    Keys in the trie are those of the caller or copies of them. *)
From Stdlib Require Import ZArith Lia.
From stdpp Require Import prelude gmap.
From S2P Require Import Prelude.

Local Open Scope Z_scope.

Inductive qp_union :=
| Leaf (key_aux : option (list Z)) (data : Z)
| Branch (shift mask : Z) (allocated : bool) (data : Z -> qp_union).

(** [calloc] *)
Definition zero_cell : qp_union := Leaf None 0.

Definition __mask_table (nibble : Z) : Z := Z.shiftl 1 nibble.

(** [__builtin_ctz] of a 32 bit value that is not zero. *)
Fixpoint ctz_loop (fuel : nat) (x i : Z) : Z :=
  match fuel with
  | O => i
  | S fuel => if Z.testbit x i then i else ctz_loop fuel x (i + 1)
  end.
Definition __builtin_ctz (x : Z) : result Z := if x =? 0 then Err Undefined else Ok (ctz_loop 32 x 0).

(** [((( *(key + (shift >> 1)) << ((shift & 0x01) << 2)) & 0xF0) >> 4)] *)
Definition __extract_nibble (key : list Z) (shift : Z) : result Z :=
  b ← rd key (Z.shiftr shift 1);
  Ok (Z.shiftr (Z.land (Z.shiftl b (Z.shiftl (Z.land shift 1) 2)) 0xF0) 4).

Definition __idx_has_next (mask bitmask : Z) : bool := Z.land mask bitmask =? bitmask.

(** The cells of a branch: reading, and replacing one. *)
Definition cell (allocated : bool) (data : Z -> qp_union) (nibble : Z) : result qp_union :=
  if allocated then Ok (data nibble) else Err Bad_access.
Definition put_cell (data : Z -> qp_union) (nibble : Z) (t : qp_union) : Z -> qp_union :=
  fun i => if i =? nibble then t else data i.

(** [memcmp (a, b, len) == 0] for the key of a leaf. *)
Definition key_equal (a : option (list Z)) (key : list Z) (len : nat) : result bool :=
  match a with
  | Some k => if (len <=? length k)%nat && (len <=? length key)%nat then Ok (bool_decide (take len k = take len key)) else Err Bad_access
  | None => Err Bad_access
  end.

(** ** Finding *)

(** The path to the leaf whose data [*out] is to point to; [None]: [np_operation_failed]. *)
Fixpoint __find_qpe (qpe : qp_union) (key : list Z) (len : nat) : result (option (list Z)) :=
  match qpe with
  | Branch shift mask allocated data =>
      n ← __extract_nibble key shift;
      if __idx_has_next mask (__mask_table n) then
        _ ← cell allocated data n;
        p ← __find_qpe (data n) key len;
        Ok (match p with Some p => Some (n :: p) | None => None end)
      else Ok None
  | Leaf key_aux _ =>
      e ← key_equal key_aux key len;
      Ok (if (e : bool) then Some [] else None)
  end.

(** What is at the end of a path. *)
Fixpoint data_at (qpe : qp_union) (path : list Z) : option Z :=
  match qpe, path with
  | Leaf _ d, [] => Some d
  | Branch _ _ _ data, n :: path => data_at (data n) path
  | _, _ => None
  end.
(** [*out = v], or what else is done to a place. *)
Fixpoint at_path {A} (f : qp_union -> result (qp_union * A)) (qpe : qp_union) (path : list Z) : result (qp_union * A) :=
  match path with
  | [] => f qpe
  | n :: path =>
      match qpe with
      | Branch shift mask allocated data =>
          t ← cell allocated data n;
          '(t, a) ← at_path f t path;
          Ok (Branch shift mask allocated (put_cell data n t), a)
      | Leaf _ _ => Err Bad_access
      end
  end.
Definition store (v : Z) (qpe : qp_union) (path : list Z) : result qp_union :=
  '(t, _) ← at_path (fun t => match t with Leaf k _ => Ok (Leaf k v, tt) | Branch _ _ _ _ => Err Bad_access end) qpe path;
  Ok t.

(** ** Inserting *)

(** The most similar leaf, and the last branch up to which the key has a cell in every
    branch: the leaf's key, its path, the path of that branch. *)
Fixpoint descend (tmp : qp_union) (new_key : list Z) (update_shift : bool) (path ins : list Z) : result (option (list Z) * list Z * list Z) :=
  match tmp with
  | Leaf key_aux _ => Ok (key_aux, path, ins)
  | Branch shift mask allocated data =>
      __x0 ← __extract_nibble new_key shift;
      s ← __builtin_ctz mask;
      _ ← cell allocated data s;
      if update_shift && __idx_has_next mask (__mask_table __x0)
      then descend (data __x0) new_key true (path ++ [__x0]) path
      else descend (data s) new_key false (path ++ [s]) ins
  end.

(** [__builtin_clz] of a value that is not zero. *)
Definition __builtin_clz (x : Z) : Z := 31 - Z.log2 x.

(** The first difference: [xor], and [shf_bits]. *)
Fixpoint differ_at (fuel : nat) (new_key tmp_key : list Z) (pos length_ shf_bits : Z) : result (Z * Z) :=
  a ← rd new_key pos;
  b ← rd tmp_key pos;
  let xor := Z.lxor a b in
  let shf_bits := if 0 <? xor then u16 (shf_bits + (__builtin_clz xor - 24)) else u16 (shf_bits + 8) in
  let pos := pos + 1 in
  if (xor =? 0) && (pos <? length_) then
    match fuel with
    | O => Err Diverges
    | S fuel => differ_at fuel new_key tmp_key pos length_ shf_bits
    end
  else Ok (xor, shf_bits).

Definition new_leaf (new_key : list Z) : qp_union := Leaf (Some new_key) 0.

Definition np_new_branch (shf : Z) (new_key tmp_key : list Z) (tmp : qp_union) : result (qp_union * list Z) :=
  __x1 ← __extract_nibble new_key shf;
  __x2 ← __extract_nibble tmp_key shf;
  let new_bb_branch := put_cell (fun _ => zero_cell) __x2 tmp in
  Ok (Branch shf (Z.lor (__mask_table __x1) (__mask_table __x2)) true (put_cell new_bb_branch __x1 (new_leaf new_key)), [__x1]).

(** From the branch found on: a branch that looks at the same nibble grows, one that looks
    at a later one, or a leaf, gets a new branch above it. *)
Fixpoint place (shf : Z) (new_key tmp_key : list Z) (tmp : qp_union) : result (qp_union * list Z) :=
  match tmp with
  | Leaf _ _ => np_new_branch shf new_key tmp_key tmp
  | Branch i_shift mask allocated data =>
      if shf =? i_shift then
        __x1 ← __extract_nibble new_key shf;
        c_assert (negb (__idx_has_next mask (__mask_table __x1)));;
        _ ← cell allocated data __x1;
        Ok (Branch i_shift (Z.lor mask (__mask_table __x1)) allocated (put_cell data __x1 (new_leaf new_key)), [__x1])
      else if shf <? i_shift then np_new_branch shf new_key tmp_key tmp
      else
        n ← __extract_nibble new_key i_shift;
        _ ← cell allocated data n;
        '(t, p) ← place shf new_key tmp_key (data n);
        Ok (Branch i_shift mask allocated (put_cell data n t), n :: p)
  end.

(** The trie, and the path to the data of the key, new or old. *)
Definition __insert_qpe (qpe : option qp_union) (new_key : list Z) (length_ : nat) : result (qp_union * list Z) :=
  match qpe with
  | None => Ok (new_leaf new_key, [])
  | Some qpe =>
      '(tmp_key, path, ins_bb_branch) ← descend qpe new_key true [] [];
      match tmp_key with
      | None => Err Bad_access
      | Some tmp_key =>
          '(xor, shf_bits) ← differ_at length_ new_key tmp_key 0 (Z.of_nat length_) 0;
          if xor =? 0 then Ok (qpe, path)
          else
            '(t, p) ← at_path (place (Z.shiftr shf_bits 2) new_key tmp_key) qpe ins_bb_branch;
            Ok (t, ins_bb_branch ++ p)
      end
  end.

(** ** Deleting *)

(** In a branch: [None] when the key is not there; the mask loses the bit of the leaf, a
    branch without cells loses its array, and its bit in the branch above. *)
Fixpoint delete_below (qpe : qp_union) (key : list Z) (len : nat) : result (option (qp_union * list Z)) :=
  match qpe with
  | Leaf _ _ => Err Bad_access
  | Branch shift mask allocated data =>
      n ← __extract_nibble key shift;
      let del_bm := __mask_table n in
      if __idx_has_next mask del_bm then
        t ← cell allocated data n;
        match t with
        | Leaf key_aux _ =>
            e ← key_equal key_aux key len;
            if (e : bool) then
              let mask := Z.lxor mask del_bm in
              Ok (Some (Branch shift mask (negb (mask =? 0)) data, [n]))
            else Ok None
        | Branch _ _ _ _ =>
            r ← delete_below (data n) key len;
            match r with
            | None => Ok None
            | Some (t, p) =>
                let emptied := match t with Branch _ m _ _ => m =? 0 | Leaf _ _ => false end in
                let mask := if emptied then Z.lxor mask del_bm else mask in
                Ok (Some (Branch shift mask (negb (mask =? 0)) (put_cell data n t), n :: p))
            end
        end
      else Ok None
  end.

(** [del_qp_branch[del_count - 1]] for a trie that is a single leaf is in front of the array,
    which is not even there. *)
Definition __delete_qpe (qpe : qp_union) (key : list Z) (len : nat) : result (option (qp_union * list Z)) :=
  match qpe with
  | Leaf key_aux _ =>
      e ← key_equal key_aux key len;
      if (e : bool) then Err Bad_access else Ok None
  | Branch _ _ _ _ => delete_below qpe key len
  end.

(** ** The interface *)

Record np_cupidtrie := Cupidtrie { key_length : nat; tree : option qp_union; alloc_key_memory : bool }.
Definition set_tree (trie : np_cupidtrie) (t : qp_union) : np_cupidtrie := Cupidtrie (key_length trie) (Some t) (alloc_key_memory trie).

(** The copy of a key has the bytes of the key up to its length. *)
Definition np_cupidtrie_insert (trie : np_cupidtrie) (key : list Z) : result (np_cupidtrie * list Z) :=
  new_key ← (if alloc_key_memory trie
             then if (key_length trie <=? length key)%nat then Ok (take (key_length trie) key) else Err Bad_access
             else Ok key);
  '(t, p) ← __insert_qpe (tree trie) new_key (key_length trie);
  Ok (set_tree trie t, p).

Definition np_cupidtrie_find (trie : np_cupidtrie) (key : list Z) : result (option (list Z)) :=
  match tree trie with Some t => __find_qpe t key (key_length trie) | None => Ok None end.

(** The trie is changed also where the result is used for nothing. *)
Definition np_cupidtrie_delete (trie : np_cupidtrie) (key : list Z) : result (np_cupidtrie * option (list Z)) :=
  match tree trie with
  | Some t =>
      r ← __delete_qpe t key (key_length trie);
      Ok (match r with Some (t, p) => (set_tree trie t, Some p) | None => (trie, None) end)
  | None => Ok (trie, None)
  end.

(** ** Union *)

(** For every leaf of [join], in the order of the nibbles: insert, and combine the data.  A
    cell in use has a key. *)
Section Union.
Context (combine_func : Z -> Z -> option Z).

(** [combine_func (out, &data)]: [None] when it does not answer [np_ok]. *)
Definition combine_at (result_ : qp_union) (out : list Z) (v : Z) : result (qp_union * bool) :=
  match data_at result_ out with
  | None => Err Bad_access
  | Some d => match combine_func d v with Some d' => t ← store d' result_ out; Ok (t, true) | None => Ok (result_, false) end
  end.

Fixpoint __union_qpe (result_ : option qp_union) (join : qp_union) (len : nat) : result (option qp_union * bool) :=
  match join with
  | Branch shift mask allocated data =>
      foldM (fun pos '(result_, ok) =>
        if (ok : bool) && Z.testbit mask pos then
          _ ← cell allocated data pos; __union_qpe result_ (data pos) len
        else Ok (result_, ok)) (map Z.of_nat (List.seq 0 16)) (result_, true)
  | Leaf None _ => Err Bad_access
  | Leaf (Some k) v =>
      '(t, out) ← __insert_qpe result_ k len;
      '(t, ok) ← combine_at t out v;
      Ok (Some t, ok)
  end.
End Union.
