(* ===== verification/CupidtrieThms.v ===== *)
(** * Tries of keys of equal length: theorems

    As long as every branch looks at a later nibble than the one above it, a trie is a map
    from keys to data; an insertion keeps that when it splits below the branches it passes,
    and does what it should for all keys in any case.  It does not always split there: then
    a later insertion can lose a key. *)
From Stdlib Require Import ZArith Lia.
From stdpp Require Import prelude gmap.
From S2P Require Import Prelude Cupidtrie.

Local Open Scope Z_scope.

(** ** Nibbles *)

Definition hi (b : Z) : Z := b / 16.
Definition lo (b : Z) : Z := b mod 16.

Definition byte_facts (a b : Z) : bool :=
  let x := Z.lxor a b in
  let c := __builtin_clz x - 24 in
  (Z.shiftr (Z.land (Z.shiftl a 0) 0xF0) 4 =? hi a) && (Z.shiftr (Z.land (Z.shiftl a 4) 0xF0) 4 =? lo a) &&
  (if a =? b then x =? 0
   else (0 <? x) && (0 <=? c) && (c <? 8) &&
        (if c <? 4 then negb (hi a =? hi b) else (hi a =? hi b) && negb (lo a =? lo b))).

Lemma byte_facts_ok a b : in_u 8 a -> in_u 8 b -> byte_facts a b = true.
Proof.
  intros Ha Hb.
  assert (forallb (fun a => forallb (fun b => byte_facts (Z.of_nat a) (Z.of_nat b)) (List.seq 0 256)) (List.seq 0 256) = true) as Hall by (by vm_compute).
  rewrite forallb_forall in Hall. specialize (Hall (Z.to_nat a)). rewrite forallb_forall in Hall. unfold in_u in *. change (2 ^ 8) with 256 in *.
  rewrite <- (Z2Nat.id a), <- (Z2Nat.id b) by lia. apply Hall; apply in_seq; lia.
Qed.

(** ** Masks *)

Definition nibble (n : Z) : Prop := 0 <= n < 16.

Lemma has_next_bit m n : nibble n -> __idx_has_next m (__mask_table n) = Z.testbit m n.
Proof.
  intros Hn. unfold nibble in Hn. unfold __idx_has_next, __mask_table. rewrite Z.shiftl_1_l. destruct (Z.testbit m n) eqn:E.
  - apply Z.eqb_eq. apply Z.bits_inj'. intros i Hi. rewrite Z.land_spec, Z.pow2_bits_eqb by lia. destruct (Z.eqb_spec n i) as [->|]; [by rewrite E|apply andb_false_r].
  - apply Z.eqb_neq. intros Heq. assert (Z.testbit (Z.land m (2 ^ n)) n = Z.testbit (2 ^ n) n) as Hb by (by rewrite Heq).
    rewrite Z.land_spec, E, Z.pow2_bits_true in Hb by lia. done.
Qed.
Lemma lor_bit m n i : 0 <= i -> nibble n -> Z.testbit (Z.lor m (__mask_table n)) i = (i =? n) || Z.testbit m i.
Proof.
  intros Hi Hn. unfold nibble in Hn. unfold __mask_table. rewrite Z.shiftl_1_l, Z.lor_spec, Z.pow2_bits_eqb by lia.
  rewrite (Z.eqb_sym n). apply orb_comm.
Qed.
Lemma lxor_bit m n i : 0 <= i -> nibble n -> Z.testbit m n = true -> Z.testbit (Z.lxor m (__mask_table n)) i = negb (i =? n) && Z.testbit m i.
Proof.
  intros Hi Hn Hm. unfold nibble in Hn. unfold __mask_table. rewrite Z.shiftl_1_l, Z.lxor_spec, Z.pow2_bits_eqb by lia.
  destruct (Z.eqb_spec n i) as [<-|]; [rewrite Hm, Z.eqb_refl; done|]. rewrite (proj2 (Z.eqb_neq i n)) by done. by rewrite xorb_false_r.
Qed.

(** A mask: only the bits of nibbles. *)
Definition mask_ok (m : Z) : Prop := 0 <= m < 2 ^ 16.
Lemma mask_bits m i : mask_ok m -> Z.testbit m i = true -> nibble i.
Proof.
  intros Hm Hb. unfold nibble. destruct (Z.ltb_spec i 0); [by rewrite Z.testbit_neg_r in Hb|]. split; [done|].
  destruct (Z.ltb_spec i 16); [done|]. exfalso. unfold mask_ok in Hm. destruct (decide (m = 0)) as [->|]; [by rewrite Z.bits_0 in Hb|].
  rewrite Z.bits_above_log2 in Hb; [done|lia|]. apply Z.log2_lt_pow2; [lia|]. apply (Z.lt_le_trans _ (2 ^ 16)); [lia|]. apply Z.pow_le_mono_r; lia.
Qed.
Lemma mask_or m n : mask_ok m -> nibble n -> mask_ok (Z.lor m (__mask_table n)).
Proof.
  intros Hm Hn. unfold mask_ok, nibble in *. unfold __mask_table. rewrite Z.shiftl_1_l. split; [apply Z.lor_nonneg; lia|].
  destruct (decide (Z.lor m (2 ^ n) = 0)) as [->|Hne]; [done|]. apply Z.log2_lt_pow2; [pose proof (Z.lor_nonneg m (2 ^ n)); lia|].
  rewrite Z.log2_lor by lia. apply Z.max_lub_lt; [destruct (decide (m = 0)) as [->|]; [done|apply Z.log2_lt_pow2; lia]|rewrite Z.log2_pow2; lia].
Qed.
Lemma mask_xor m n : mask_ok m -> nibble n -> mask_ok (Z.lxor m (__mask_table n)).
Proof.
  intros Hm Hn. unfold mask_ok, nibble in *. unfold __mask_table. rewrite Z.shiftl_1_l. split; [apply Z.lxor_nonneg; lia|].
  destruct (decide (Z.lxor m (2 ^ n) = 0)) as [->|Hne]; [done|]. apply Z.log2_lt_pow2; [pose proof (Z.lxor_nonneg m (2 ^ n)); lia|].
  apply (Z.le_lt_trans _ (Z.max (Z.log2 m) (Z.log2 (2 ^ n)))); [apply Z.log2_lxor; lia|].
  apply Z.max_lub_lt; [destruct (decide (m = 0)) as [->|]; [done|apply Z.log2_lt_pow2; lia]|rewrite Z.log2_pow2; lia].
Qed.
Lemma mask_zero m : mask_ok m -> (m =? 0) = false <-> exists n, Z.testbit m n = true.
Proof.
  intros Hm. rewrite Z.eqb_neq. split.
  - intros Hne. exists (Z.log2 m). apply Z.bit_log2. unfold mask_ok in Hm. lia.
  - intros [n Hn] ->. by rewrite Z.bits_0 in Hn.
Qed.

(** The first cell in use. *)
Lemma ctz_loop_ok fuel x i : 0 <= i -> (exists n, i <= n < i + Z.of_nat fuel /\ Z.testbit x n = true) -> Z.testbit x (ctz_loop fuel x i) = true.
Proof.
  revert i. induction fuel as [|fuel IH]; intros i Hi (n & Hn & Hb); [lia|]. cbn [ctz_loop]. destruct (Z.testbit x i) eqn:E; [done|].
  apply IH; [lia|]. exists n. split; [|done]. destruct (decide (n = i)) as [->|]; [congruence|lia].
Qed.
Lemma ctz_ok m : mask_ok m -> m <> 0 -> exists n, __builtin_ctz m = Ok n /\ Z.testbit m n = true.
Proof.
  intros Hm Hne. unfold __builtin_ctz. rewrite (proj2 (Z.eqb_neq m 0)) by done. exists (ctz_loop 32 m 0). split; [done|].
  destruct (proj1 (mask_zero m Hm)) as [n Hn]; [by apply Z.eqb_neq|]. apply ctz_loop_ok; [lia|]. exists n. split; [|done].
  pose proof (mask_bits m n Hm Hn) as Hb. unfold nibble in Hb. lia.
Qed.

Section Keys.
Context (len : nat).

(** A key as the interface asks for. *)
Definition key_ok (k : list Z) : Prop := length k = len /\ Forall (in_u 8) k.
Definition position (s : Z) : Prop := 0 <= s < 2 * Z.of_nat len.

Definition nib (k : list Z) (s : Z) : Z :=
  let b := default 0 (k !! Z.to_nat (s / 2)) in if Z.even s then hi b else lo b.

Lemma key_byte k i : key_ok k -> 0 <= i < Z.of_nat len -> exists b, rd k i = Ok b /\ k !! Z.to_nat i = Some b /\ in_u 8 b.
Proof.
  intros [Hl Hb] Hi. destruct (lookup_lt_is_Some_2 k (Z.to_nat i)) as [b E]; [lia|]. exists b. unfold rd. rewrite decide_True by lia. rewrite E.
  split; [done|]. split; [done|]. rewrite Forall_lookup in Hb. by eapply Hb.
Qed.

Lemma nibble_ok k s : key_ok k -> position s -> __extract_nibble k s = Ok (nib k s) /\ 0 <= nib k s < 16.
Proof.
  intros Hk Hs. unfold position in Hs. unfold __extract_nibble, nib. rewrite Z.shiftr_div_pow2 by lia. change (2 ^ 1) with 2.
  assert (0 <= s / 2 < Z.of_nat len) as Hi by (split; [apply Z.div_pos; lia|apply Z.div_lt_upper_bound; lia]).
  destruct (key_byte k (s / 2) Hk Hi) as (b & -> & -> & Hb). rewrite bind_ok. change (default 0 (Some b)) with b.
  pose proof (byte_facts_ok b b Hb Hb) as Hf. unfold byte_facts in Hf. rewrite !andb_true_iff in Hf. destruct Hf as [[H1 H2] _].
  apply Z.eqb_eq in H1, H2. change (Z.land s 1) with (Z.land s (Z.ones 1)). rewrite Z.land_ones by lia. change (2 ^ 1) with 2.
  rewrite Zmod_even. assert (0 <= b < 256) as Hb' by exact Hb. clear - Hb' H1 H2. destruct (Z.even s).
  - change (Z.shiftl 0 2) with 0. rewrite H1. split; [done|]. clear H1 H2. unfold hi. split; [apply Z.div_pos; lia|apply Z.div_lt_upper_bound; lia].
  - change (Z.shiftl 1 2) with 4. rewrite H2. split; [done|]. unfold lo. apply Z.mod_pos_bound. lia.
Qed.

(** Keys are their nibbles. *)
Definition agree (k k' : list Z) (n : Z) : Prop := forall s, 0 <= s < n -> nib k s = nib k' s.

Lemma byte_nibbles k i : 0 <= i -> nib k (2 * i) = hi (default 0 (k !! Z.to_nat i)) /\ nib k (2 * i + 1) = lo (default 0 (k !! Z.to_nat i)).
Proof.
  intros Hi. unfold nib. rewrite Z.even_mul. cbn [Z.even orb]. replace (2 * i / 2) with i by (rewrite Z.mul_comm, Z.div_mul; lia).
  replace ((2 * i + 1) / 2) with i by (rewrite Z.mul_comm, Z.div_add_l by lia; change (1 / 2) with 0; lia).
  rewrite Z.even_add, Z.even_mul. done.
Qed.
Lemma hi_lo a b : hi a = hi b -> lo a = lo b -> a = b.
Proof. unfold hi, lo. intros H1 H2. rewrite (Z.div_mod a 16), (Z.div_mod b 16) by lia. by rewrite H1, H2. Qed.

Lemma agree_equal k k' : key_ok k -> key_ok k' -> agree k k' (2 * Z.of_nat len) -> k = k'.
Proof.
  intros [L _] [L' _] Ha. apply list_eq. intros i. destruct (decide (i < len)%nat) as [Hi|]; [|rewrite !lookup_ge_None_2 by lia; done].
  destruct (lookup_lt_is_Some_2 k i) as [b E]; [lia|]. destruct (lookup_lt_is_Some_2 k' i) as [b' E']; [lia|]. rewrite E, E'. f_equal.
  destruct (byte_nibbles k (Z.of_nat i)) as [H1 H2]; [lia|]. destruct (byte_nibbles k' (Z.of_nat i)) as [H1' H2']; [lia|].
  rewrite Nat2Z.id, E in H1, H2. rewrite Nat2Z.id, E' in H1', H2'. change (default 0 (Some b)) with b in *. change (default 0 (Some b')) with b' in *.
  apply hi_lo; [rewrite <- H1, <- H1'|rewrite <- H2, <- H2']; apply Ha; lia.
Qed.

(** Where two bytes differ. *)
Lemma bytes_differ k k' pos a b : 0 <= pos < Z.of_nat len -> Z.of_nat len < 4096 -> agree k k' (2 * pos) ->
  k !! Z.to_nat pos = Some a -> k' !! Z.to_nat pos = Some b -> in_u 8 a -> in_u 8 b -> a <> b ->
  let bits := u16 (8 * pos + (__builtin_clz (Z.lxor a b) - 24)) in
  0 < Z.lxor a b /\ position (Z.shiftr bits 2) /\ nib k (Z.shiftr bits 2) <> nib k' (Z.shiftr bits 2) /\ agree k k' (Z.shiftr bits 2).
Proof.
  intros Hpos Hlen Ha Ea Eb Hba Hbb Hne bits. subst bits.
  pose proof (byte_facts_ok a b Hba Hbb) as Hf. unfold byte_facts in Hf. rewrite (proj2 (Z.eqb_neq a b) Hne), !andb_true_iff in Hf.
  destruct Hf as (_ & [[H0 H1] H2] & H3). apply Z.ltb_lt in H0, H2. apply Z.leb_le in H1.
  destruct (byte_nibbles k pos) as [N1 N2]; [lia|]. destruct (byte_nibbles k' pos) as [N1' N2']; [lia|].
  rewrite Ea in N1, N2. rewrite Eb in N1', N2'. change (default 0 (Some a)) with a in *. change (default 0 (Some b)) with b in *.
  set (c := __builtin_clz (Z.lxor a b) - 24) in *. split; [done|].
  rewrite u16_id by (unfold in_u; lia). rewrite Z.shiftr_div_pow2 by lia. change (2 ^ 2) with 4. destruct (Z.ltb_spec c 4).
  - replace ((8 * pos + c) / 4) with (2 * pos) by (apply (Z.div_unique _ _ _ c); lia).
    rewrite negb_true_iff in H3. apply Z.eqb_neq in H3. split; [unfold position; lia|]. split; [congruence|done].
  - replace ((8 * pos + c) / 4) with (2 * pos + 1) by (apply (Z.div_unique _ _ _ (c - 4)); lia).
    rewrite andb_true_iff, negb_true_iff in H3. destruct H3 as [H3 H4]. apply Z.eqb_eq in H3. apply Z.eqb_neq in H4. split; [unfold position; lia|].
    split; [congruence|]. intros s Hs. destruct (decide (s = 2 * pos)) as [->|]; [congruence|]. apply Ha. lia.
Qed.
Lemma agree_further k k' pos a : 0 <= pos -> agree k k' (2 * pos) -> k !! Z.to_nat pos = Some a -> k' !! Z.to_nat pos = Some a -> agree k k' (2 * (pos + 1)).
Proof.
  intros Hpos Ha Ea Eb s Hs. destruct (byte_nibbles k pos) as [N1 N2]; [lia|]. destruct (byte_nibbles k' pos) as [N1' N2']; [lia|].
  rewrite Ea in N1, N2. rewrite Eb in N1', N2'.
  destruct (decide (s = 2 * pos)) as [->|]; [congruence|]. destruct (decide (s = 2 * pos + 1)) as [->|]; [congruence|]. apply Ha. lia.
Qed.

(** The first difference. *)
Lemma differ_at_ok k k' fuel pos : key_ok k -> key_ok k' -> 0 <= pos < Z.of_nat len -> (Z.to_nat (Z.of_nat len - pos) <= S fuel)%nat -> Z.of_nat len < 4096 ->
  agree k k' (2 * pos) ->
  exists x b, differ_at fuel k k' pos (Z.of_nat len) (8 * pos) = Ok (x, b) /\
    ((x = 0 /\ k = k') \/ (x <> 0 /\ position (Z.shiftr b 2) /\ nib k (Z.shiftr b 2) <> nib k' (Z.shiftr b 2) /\ agree k k' (Z.shiftr b 2))).
Proof.
  intros Hk Hk' Hpos Hfuel Hlen Ha. revert pos Hpos Hfuel Ha. induction fuel as [|fuel IH]; intros pos Hpos Hfuel Ha; cbn [differ_at];
    destruct (key_byte k pos Hk Hpos) as (a & -> & Ea & Hba); destruct (key_byte k' pos Hk' Hpos) as (b & -> & Eb & Hbb); rewrite !bind_ok;
    destruct (decide (a = b)) as [->|Hne].
  - rewrite Z.lxor_nilpotent. cbn [Z.ltb Z.eqb Z.compare andb]. destruct (Z.ltb_spec (pos + 1) (Z.of_nat len)); [lia|]. eexists _, _. split; [reflexivity|].
    left. split; [done|]. apply agree_equal; [done|done|]. pose proof (agree_further k k' pos b ltac:(lia) Ha Ea Eb) as Hf. intros s Hs. apply Hf. lia.
  - destruct (bytes_differ k k' pos a b Hpos Hlen Ha Ea Eb Hba Hbb Hne) as (H0 & H1). rewrite (proj2 (Z.ltb_lt 0 _) H0), (proj2 (Z.eqb_neq (Z.lxor a b) 0)) by lia.
    eexists _, _. split; [reflexivity|]. right. split; [lia|exact H1].
  - rewrite Z.lxor_nilpotent. cbn [Z.ltb Z.eqb Z.compare andb]. pose proof (agree_further k k' pos b ltac:(lia) Ha Ea Eb) as Hf.
    destruct (Z.ltb_spec (pos + 1) (Z.of_nat len)).
    + rewrite u16_id by (unfold in_u; lia). replace (8 * pos + 8) with (8 * (pos + 1)) by lia. apply IH; [lia|lia|done].
    + eexists _, _. split; [reflexivity|]. left. split; [done|]. apply agree_equal; [done|done|]. intros s Hs. apply Hf. lia.
  - destruct (bytes_differ k k' pos a b Hpos Hlen Ha Ea Eb Hba Hbb Hne) as (H0 & H1). rewrite (proj2 (Z.ltb_lt 0 _) H0), (proj2 (Z.eqb_neq (Z.lxor a b) 0)) by lia.
    eexists _, _. split; [reflexivity|]. right. split; [lia|exact H1].
Qed.

(** ** What a trie stores *)

Inductive stored : qp_union -> list Z -> list Z -> Z -> Prop :=
| stored_leaf k d : stored (Leaf (Some k) d) k [] d
| stored_branch s m data n k p d : Z.testbit m n = true -> stored (data n) k p d -> stored (Branch s m true data) k (n :: p) d.

(** Every key is where its nibbles lead. *)
Inductive searchable : qp_union -> Prop :=
| searchable_leaf k d : key_ok k -> searchable (Leaf (Some k) d)
| searchable_branch s m data : position s -> mask_ok m -> m <> 0 ->
    (forall n, Z.testbit m n = true -> searchable (data n)) ->
    (forall n k p d, Z.testbit m n = true -> stored (data n) k p d -> nib k s = n) -> searchable (Branch s m true data).

Lemma stored_key t k p d : searchable t -> stored t k p d -> key_ok k.
Proof. intros Ht Hs. induction Hs; inversion Ht; subst; eauto. Qed.

Lemma stored_data t k p d : stored t k p d -> data_at t p = Some d.
Proof. by induction 1. Qed.

Lemma key_equal_ok a k : key_ok a -> key_ok k -> key_equal (Some a) k len = Ok (bool_decide (a = k)).
Proof.
  intros [La _] [Lk _]. unfold key_equal. rewrite La, Lk, Nat.leb_refl. cbn [andb]. by rewrite !take_ge by lia.
Qed.

Lemma nibble_of k s : key_ok k -> position s -> nibble (nib k s).
Proof. intros Hk Hs. by apply nibble_ok. Qed.

(** Finding: the one place where the key is, if it is there. *)
Lemma trie_find_ok t key : searchable t -> key_ok key ->
  exists o, __find_qpe t key len = Ok o /\ match o with Some p => exists d, stored t key p d | None => forall p d, ~ stored t key p d end.
Proof.
  intros Ht Hk. induction Ht as [k d Hkk|s m data Hs Hm Hne Hsub IH Hnib]; cbn [__find_qpe].
  - rewrite key_equal_ok by done. rewrite bind_ok. case_bool_decide as E; eexists; (split; [done|]).
    + subst k. exists d. constructor.
    + intros p d' H. inversion H; congruence.
  - destruct (nibble_ok key s Hk Hs) as [-> Hn]. rewrite bind_ok, has_next_bit by done. destruct (Z.testbit m (nib key s)) eqn:E.
    + cbn [cell]. rewrite bind_ok. destruct (IH _ E) as (o & -> & Ho). rewrite bind_ok. destruct o as [p|]; eexists; (split; [done|]).
      * destruct Ho as [d Hd]. exists d. by constructor.
      * intros p d Hst. inversion Hst as [|s' m' data' n k p' d' Hbit Hst']; subst.
        assert (nib key s = n) as En by (by eapply Hnib). rewrite En in Ho. by eapply Ho.
    + eexists. split; [done|]. intros p d Hst. inversion Hst as [|s' m' data' n k p' d' Hbit Hst']; subst.
      assert (nib key s = n) as En by (by eapply Hnib). congruence.
Qed.

(** There is only one place for a key. *)
Lemma stored_unique t k p d p' d' : searchable t -> stored t k p d -> stored t k p' d' -> p = p' /\ d = d'.
Proof.
  intros Ht H1. revert p' d'. induction H1 as [k d|s m data n k p d Hbit H1 IH]; intros p' d' H2.
  - by inversion H2.
  - inversion Ht as [|? ? ? Hs Hm Hne Hsub Hnib]; subst. inversion H2 as [|? ? ? n' ? q ? Hbit' H2']; subst.
    assert (n = n') as <- by (rewrite <- (Hnib n k p d Hbit H1); by eapply Hnib).
    destruct (IH (Hsub n Hbit) q d' H2') as [-> ->]. done.
Qed.

(** ** Tries in order *)

Definition binds (t : qp_union) (k : list Z) (v : Z) : Prop := exists p, stored t k p v.

(** Branches look at later and later nibbles, and their keys agree on those before. *)
Inductive ordered : Z -> qp_union -> Prop :=
| ordered_leaf low k d : ordered low (Leaf k d)
| ordered_branch low s m data : low <= s -> (forall n, Z.testbit m n = true -> ordered (s + 1) (data n)) ->
    (forall k k' v v', binds (Branch s m true data) k v -> binds (Branch s m true data) k' v' -> agree k k' s) -> ordered low (Branch s m true data).

Lemma binds_branch s m data k v : binds (Branch s m true data) k v <-> exists n, Z.testbit m n = true /\ binds (data n) k v.
Proof.
  split.
  - intros (p & H). inversion H; subst. eexists. split; [done|]. by eexists.
  - intros (n & Hn & p & H). exists (n :: p). by constructor.
Qed.
Lemma binds_leaf k d k' v : binds (Leaf (Some k) d) k' v <-> k' = k /\ v = d.
Proof. split; [intros (p & H); by inversion H|]. intros [-> ->]. exists []. constructor. Qed.
Lemma binds_key t k v : searchable t -> binds t k v -> key_ok k.
Proof. intros Ht [p Hp]. by eapply stored_key. Qed.

(** A node of which [key] has no cell. *)
Definition blocked (t : qp_union) (key : list Z) : Prop :=
  match t with Leaf _ _ => True | Branch s m _ _ => Z.testbit m (nib key s) = false end.

(** The way down to [q], as long as [key] has a cell, and the last branch that has one. *)
Inductive passes (key : list Z) : qp_union -> list Z -> list Z -> Prop :=
| passes_last s m data q : Z.testbit m (nib key s) = true -> blocked (data (nib key s)) key ->
    passes key (Branch s m true data) [] (nib key s :: q)
| passes_on s m data q1 q : Z.testbit m (nib key s) = true -> passes key (data (nib key s)) q1 q ->
    passes key (Branch s m true data) (nib key s :: q1) (nib key s :: q).

(** Without a cell for the key: any leaf. *)
Lemma descend_false t key path ins : searchable t -> key_ok key ->
  exists k q d, descend t key false path ins = Ok (Some k, path ++ q, ins) /\ stored t k q d.
Proof.
  intros Ht Hk. revert path. induction Ht as [k d Hkk|s m data Hs Hm Hne Hsub IH Hnib]; intros path; cbn [descend].
  - exists k, [], d. rewrite app_nil_r. split; [done|constructor].
  - destruct (nibble_ok key s Hk Hs) as [-> _]. rewrite bind_ok. destruct (ctz_ok m Hm Hne) as (n & -> & Hn). rewrite bind_ok. cbn [cell andb]. rewrite bind_ok.
    destruct (IH n Hn (path ++ [n])) as (k & q & d & -> & Hst). exists k, (n :: q), d. rewrite <- app_assoc. split; [done|by constructor].
Qed.

Lemma descend_true t key path ins : searchable t -> key_ok key ->
  exists k q d ins', descend t key true path ins = Ok (Some k, path ++ q, ins') /\ stored t k q d /\
    ((ins' = ins /\ blocked t key) \/ exists q1, ins' = path ++ q1 /\ passes key t q1 q).
Proof.
  intros Ht Hk. revert path ins. induction Ht as [k d Hkk|s m data Hs Hm Hne Hsub IH Hnib]; intros path ins; cbn [descend].
  - exists k, [], d, ins. rewrite app_nil_r. split; [done|]. split; [constructor|]. by left.
  - destruct (nibble_ok key s Hk Hs) as [-> Hn]. rewrite bind_ok. destruct (ctz_ok m Hm Hne) as (c & -> & Hc). rewrite bind_ok. cbn [cell andb]. rewrite bind_ok.
    rewrite has_next_bit by done. destruct (Z.testbit m (nib key s)) eqn:E.
    + destruct (IH _ E (path ++ [nib key s]) path) as (k & q & d & ins' & -> & Hst & Hins). exists k, (nib key s :: q), d, ins'. rewrite <- app_assoc.
      split; [done|]. split; [by constructor|]. right. destruct Hins as [[-> Hb]|(q1 & -> & Hp)].
      * exists []. rewrite app_nil_r. split; [done|]. by constructor.
      * exists (nib key s :: q1). rewrite <- app_assoc. split; [done|]. by constructor.
    + destruct (descend_false (data c) key (path ++ [c]) ins (Hsub c Hc) Hk) as (k & q & d & -> & Hst). exists k, (c :: q), d, ins. rewrite <- app_assoc.
      split; [done|]. split; [by constructor|]. by left.
Qed.

(** A key that is there is the leaf found. *)
Lemma descend_stored t key p d path ins : searchable t -> stored t key p d ->
  exists ins', descend t key true path ins = Ok (Some key, path ++ p, ins').
Proof.
  intros Ht Hst. revert path ins. induction Hst as [k d|s m data n k p d Hbit Hst IH]; intros path ins; cbn [descend].
  - exists ins. by rewrite app_nil_r.
  - inversion Ht as [|? ? ? Hs Hm Hne Hsub Hnib]; subst. pose proof (stored_key _ _ _ _ (Hsub n Hbit) Hst) as Hk.
    assert (nib k s = n) as En by (by eapply Hnib). destruct (nibble_ok k s Hk Hs) as [-> Hn]. rewrite bind_ok.
    destruct (ctz_ok m Hm Hne) as (c & -> & _). rewrite bind_ok. cbn [cell andb]. rewrite bind_ok, has_next_bit by done. rewrite En, Hbit.
    destruct (IH (Hsub n Hbit) (path ++ [n]) path) as [ins' ->]. exists ins'. by rewrite <- app_assoc.
Qed.

(** ** Where a new key goes *)

Section New.
Context (key k : list Z) (shf : Z).
Hypothesis Hkey : key_ok key.
Hypothesis Hk : key_ok k.
Hypothesis Hshf : position shf.
Hypothesis Hdiff : nib key shf <> nib k shf.
Hypothesis Hagree : agree key k shf.

(** No branch on the way that looks at the nibble where they differ has a cell for the key. *)
Fixpoint free_slot (t : qp_union) (q : list Z) : Prop :=
  match t, q with
  | Branch s m _ data, n :: q => (s = shf -> Z.testbit m (nib key s) = false) /\ (s < shf -> free_slot (data n) q)
  | _, _ => True
  end.

Lemma same_before s n data q d m : searchable (Branch s m true data) -> Z.testbit m n = true -> stored (data n) k q d -> s < shf -> nib key s = n.
Proof using Hagree.
  intros Ht Hbit Hst Hlt. inversion Ht as [|? ? ? Hs Hm Hne Hsub Hnib]; subst. rewrite <- (Hnib n k q d Hbit Hst). apply Hagree. unfold position in Hs. lia.
Qed.
Lemma blocked_free t q d : searchable t -> stored t k q d -> blocked t key -> free_slot t q.
Proof using Hagree.
  intros Ht Hst Hb. inversion Hst as [? d'|s m data n ? p d' Hbit Hst']; subst; cbn [free_slot]; [done|]. cbn [blocked] in Hb. split; [done|].
  intros Hlt. pose proof (same_before _ _ _ _ _ _ Ht Hbit Hst' Hlt) as En. congruence.
Qed.
Lemma last_free s m data q d : searchable (Branch s m true data) -> Z.testbit m (nib key s) = true -> stored (data (nib key s)) k q d ->
  blocked (data (nib key s)) key -> free_slot (Branch s m true data) (nib key s :: q).
Proof using Hagree Hdiff.
  intros Ht Hbit Hst Hb. cbn [free_slot]. inversion Ht as [|? ? ? Hs Hm Hne Hsub Hnib]; subst. split.
  - intros ->. destruct Hdiff. by rewrite (Hnib _ k q d Hbit Hst).
  - intros _. eapply blocked_free; [by apply Hsub|done|done].
Qed.

(** What an insertion makes of a node. *)
Record grown (t t' : qp_union) (out : list Z) : Prop := {
  grown_searchable : searchable t';
  grown_key : stored t' key out 0;
  grown_binds : forall k' v, binds t' k' v <-> (k' = key /\ v = 0) \/ binds t k' v;
}.

Lemma nibbles_ok : __extract_nibble key shf = Ok (nib key shf) /\ nibble (nib key shf) /\ __extract_nibble k shf = Ok (nib k shf) /\ nibble (nib k shf).
Proof using Hk Hkey Hshf. destruct (nibble_ok key shf Hkey Hshf), (nibble_ok k shf Hk Hshf). done. Qed.
Lemma agree_trans a b c n n' : n' <= n -> agree a b n -> agree b c n' -> agree a c n'.
Proof. intros Hn Hab Hbc s Hs. rewrite Hab by lia. by apply Hbc. Qed.
Lemma agree_sym a b n : agree a b n -> agree b a n.
Proof. intros Hab s Hs. by rewrite Hab. Qed.

(** A new branch above a node whose keys are those of [k] up to the nibble where the new one
    differs. *)
Lemma new_branch_grown t : searchable t -> (forall k' v, binds t k' v -> nib k' shf = nib k shf /\ agree k' k shf) ->
  exists t' out, np_new_branch shf key k t = Ok (t', out) /\ grown t t' out /\ (ordered (shf + 1) t -> forall low, low <= shf -> ordered low t').
Proof using All.
  intros Ht Hsame. destruct nibbles_ok as (E1 & N1 & E2 & N2). unfold np_new_branch. rewrite E1, bind_ok, E2, bind_ok.
  set (x1 := nib key shf) in *. set (x2 := nib k shf) in *. eexists _, _. split; [reflexivity|].
  set (data := put_cell (put_cell (fun _ => zero_cell) x2 t) x1 (new_leaf key)). set (m := Z.lor (__mask_table x1) (__mask_table x2)).
  assert (data x1 = new_leaf key) as D1 by (unfold data, put_cell; by rewrite Z.eqb_refl).
  assert (data x2 = t) as D2 by (unfold data, put_cell; rewrite (proj2 (Z.eqb_neq x2 x1)) by done; by rewrite Z.eqb_refl).
  assert (forall n, 0 <= n -> Z.testbit m n = true <-> n = x1 \/ n = x2) as Hbits.
  { intros n Hn. unfold m. rewrite lor_bit by done. unfold __mask_table. rewrite Z.shiftl_1_l, Z.pow2_bits_eqb by (unfold nibble in N1; lia).
    rewrite orb_true_iff, !Z.eqb_eq. naive_solver. }
  assert (mask_ok m) as Hm by (apply mask_or; [|done]; unfold __mask_table, mask_ok; rewrite Z.shiftl_1_l; unfold nibble in N1; split; [lia|apply Z.pow_lt_mono_r; lia]).
  assert (forall n, Z.testbit m n = true -> n = x1 \/ n = x2) as Hbits' by (intros n Hn; apply Hbits; [by apply mask_bits in Hn as [? _]|done]).
  assert (Z.testbit m x1 = true) as B1 by (apply Hbits; [unfold nibble in N1; lia|by left]).
  assert (Z.testbit m x2 = true) as B2 by (apply Hbits; [unfold nibble in N2; lia|by right]).
  assert (forall k' v, binds (Branch shf m true data) k' v <-> (k' = key /\ v = 0) \/ binds t k' v) as Hbinds.
  { intros k' v. rewrite binds_branch. split.
    - intros (n & Hn & Hb). destruct (Hbits' n Hn) as [->| ->]; [rewrite D1 in Hb; left; by apply binds_leaf in Hb|rewrite D2 in Hb; by right].
    - intros [[-> ->]|Hb]; [exists x1|exists x2]; (split; [done|]); [rewrite D1; by apply binds_leaf|by rewrite D2]. }
  split; [split|].
  - constructor; [done|done| | |].
    + intros E. by rewrite E, Z.bits_0 in B1.
    + intros n Hn. destruct (Hbits' n Hn) as [->| ->]; [rewrite D1; by constructor|by rewrite D2].
    + intros n k' p v Hn Hst. destruct (Hbits' n Hn) as [->| ->].
      { rewrite D1 in Hst. assert (binds (new_leaf key) k' v) as [-> _]%binds_leaf by (by exists p). done. }
      rewrite D2 in Hst.
      exact (proj1 (Hsame k' v (ex_intro _ p Hst))).
  - constructor; [done|]. rewrite D1. constructor.
  - exact Hbinds.
  - intros Ho low Hlow. constructor; [done| |].
    + intros n Hn. destruct (Hbits' n Hn) as [->| ->]; [rewrite D1; constructor|by rewrite D2].
    + intros a b va vb Ha Hb. rewrite Hbinds in Ha, Hb.
      assert (forall c vc, (c = key /\ vc = 0) \/ binds t c vc -> agree c k shf) as Hck by (intros c vc [[-> _]|Hc]; [done|by apply (Hsame c vc)]).
      eapply agree_trans; [reflexivity|by eapply Hck|]. apply agree_sym. by eapply Hck.
Qed.

(** [n]'s cell replaced. *)
Lemma grown_below s m data n t' out : searchable (Branch s m true data) -> Z.testbit m n = true -> nib key s = n ->
  grown (data n) t' out -> grown (Branch s m true data) (Branch s m true (put_cell data n t')) (n :: out).
Proof using Type.
  intros Ht Hbit En [G1 G2 G3]. inversion Ht as [|? ? ? Hs Hm Hne Hsub Hnib]; subst s0 m0 data0.
  assert (put_cell data n t' n = t') as D by (unfold put_cell; by rewrite Z.eqb_refl).
  assert (forall i, i <> n -> put_cell data n t' i = data i) as D' by (intros i Hi; unfold put_cell; by rewrite (proj2 (Z.eqb_neq i n))).
  split.
  - constructor; [done|done|done| |].
    + intros i Hi. destruct (decide (i = n)) as [->|]; [by rewrite D|rewrite D' by done; by apply Hsub].
    + intros i k' p v Hi Hst. destruct (decide (i = n)) as [->|Hne']; [|rewrite D' in Hst by done; by eapply Hnib].
      rewrite D in Hst. assert (binds t' k' v) as Hb by (by exists p). apply G3 in Hb as [[-> _]|[p' Hst']]; [done|by eapply Hnib].
  - constructor; [done|]. by rewrite D.
  - intros k' v. rewrite !binds_branch. split.
    + intros (i & Hi & Hb). destruct (decide (i = n)) as [->|]; [rewrite D in Hb; apply G3 in Hb as [?|Hb]; [by left|right; by exists n]|].
      rewrite D' in Hb by done. right. by exists i.
    + intros [Hkv|(i & Hi & Hb)]; [exists n; split; [done|]; rewrite D; apply G3; by left|]. exists i. split; [done|].
      destruct (decide (i = n)) as [->|]; [rewrite D; apply G3; by right|by rewrite D'].
Qed.

Lemma ordered_below low s m data n t' out q d : ordered low (Branch s m true data) -> searchable (Branch s m true data) -> Z.testbit m n = true -> nib key s = n ->
  stored (data n) k q d -> s < shf ->
  grown (data n) t' out -> ordered (s + 1) t' -> ordered low (Branch s m true (put_cell data n t')).
Proof using Hagree.
  intros Ho Ht Hbit En Hst Hlt G Ho'. pose proof (grown_below s m data n t' out Ht Hbit En G) as [_ _ GB].
  inversion Ho as [|? ? ? ? Hlow Hsub Hag]; subst. constructor; [done| |].
  - intros i Hi. unfold put_cell. destruct (Z.eqb_spec i (nib key s)) as [->|]; [done|by apply Hsub].
  - assert (binds (Branch s m true data) k d) as Hkb by (apply binds_branch; exists (nib key s); split; [done|by exists q]).
    assert (forall c vc, (c = key /\ vc = 0) \/ binds (Branch s m true data) c vc -> agree c k s) as Hck.
    { intros c vc [[-> _]|Hc]; [intros i Hi; apply Hagree; lia|by eapply Hag]. }
    intros a b va vb Ha Hb. rewrite GB in Ha, Hb. eapply agree_trans; [reflexivity|by eapply Hck|]. apply agree_sym. by eapply Hck.
Qed.

(** A cell more in a branch that looks at that nibble. *)
Lemma cell_grown s m data d : searchable (Branch s m true data) -> binds (Branch s m true data) k d -> s = shf -> Z.testbit m (nib key s) = false ->
  grown (Branch s m true data) (Branch s (Z.lor m (__mask_table (nib key s))) true (put_cell data (nib key s) (new_leaf key))) [nib key s] /\
  (forall low, ordered low (Branch s m true data) ->
     ordered low (Branch s (Z.lor m (__mask_table (nib key s))) true (put_cell data (nib key s) (new_leaf key)))).
Proof using All.
  intros Ht Hkb -> Hfree. destruct nibbles_ok as (_ & N1 & _ & _). set (x1 := nib key shf) in *.
  inversion Ht as [|? ? ? Hs Hm Hne Hsub Hnib]; subst s m0 data0. set (m' := Z.lor m (__mask_table x1)). set (data' := put_cell data x1 (new_leaf key)).
  assert (data' x1 = new_leaf key) as D1 by (unfold data', put_cell; by rewrite Z.eqb_refl).
  assert (forall i, i <> x1 -> data' i = data i) as D2 by (intros i Hi; unfold data', put_cell; by rewrite (proj2 (Z.eqb_neq i x1))).
  assert (forall i, Z.testbit m' i = true <-> i = x1 \/ Z.testbit m i = true) as Hbits.
  { intros i. destruct (Z.ltb_spec i 0).
    - rewrite !Z.testbit_neg_r by lia. unfold nibble in N1. split; [done|]. intros [->|?]; [lia|done].
    - unfold m'. rewrite lor_bit by done. by rewrite orb_true_iff, Z.eqb_eq. }
  assert (forall i, Z.testbit m i = true -> i <> x1) as Hold by (intros i Hi ->; congruence).
  assert (forall k' v, binds (Branch shf m' true data') k' v <-> (k' = key /\ v = 0) \/ binds (Branch shf m true data) k' v) as Hbinds.
  { intros k' v. rewrite !binds_branch. split.
    - intros (i & Hi & Hb). apply Hbits in Hi as [->|Hi]; [rewrite D1 in Hb; left; by apply binds_leaf in Hb|]. rewrite D2 in Hb by (by apply Hold). right. by exists i.
    - intros [[-> ->]|(i & Hi & Hb)]; [exists x1; rewrite D1; split; [apply Hbits; by left|by apply binds_leaf]|].
      exists i. rewrite D2 by (by apply Hold). split; [apply Hbits; by right|done]. }
  split; [split|].
  - constructor; [done|by apply mask_or| | |].
    + intros E. assert (Z.testbit m' x1 = true) as Hb by (apply Hbits; by left). by rewrite E, Z.bits_0 in Hb.
    + intros i Hi. apply Hbits in Hi as [->|Hi]; [rewrite D1; by constructor|]. rewrite D2 by (by apply Hold). by apply Hsub.
    + intros i k' p v Hi Hst. apply Hbits in Hi as [->|Hi].
      * rewrite D1 in Hst. assert (binds (new_leaf key) k' v) as [-> _]%binds_leaf by (by exists p). done.
      * rewrite D2 in Hst by (by apply Hold). by eapply Hnib.
  - constructor; [apply Hbits; by left|]. rewrite D1. constructor.
  - exact Hbinds.
  - intros low Ho. inversion Ho as [|? ? ? ? Hlow Hsubo Hag]; subst. constructor; [done| |].
    + intros i Hi. apply Hbits in Hi as [->|Hi]; [rewrite D1; constructor|]. rewrite D2 by (by apply Hold). by apply Hsubo.
    + assert (forall c vc, (c = key /\ vc = 0) \/ binds (Branch shf m true data) c vc -> agree c k shf) as Hck by (intros c vc [[-> _]|Hc]; [done|by eapply Hag]).
      intros a b va vb Ha Hb. rewrite Hbinds in Ha, Hb. eapply agree_trans; [reflexivity|by eapply Hck|]. apply agree_sym. by eapply Hck.
Qed.

(** Placing the key at or below a node in order. *)
Lemma place_grown t : forall low q d, searchable t -> ordered low t -> stored t k q d -> free_slot t q ->
  exists t' out, place shf key k t = Ok (t', out) /\ grown t t' out /\ (low <= shf -> ordered low t').
Proof using All.
  induction t as [ko d0|s m al data IH]; intros low q d Ht Ho Hst Hfree; cbn [place].
  - inversion Hst; subst. destruct (new_branch_grown (Leaf (Some k) d) Ht) as (t' & out & -> & G & O).
    { intros k' v [-> _]%binds_leaf. done. }
    exists t', out. split; [done|]. split; [done|]. apply O. constructor.
  - inversion Hst as [|? ? ? n ? q' ? Hbit Hst']; subst s0 m0 al data0 k0 q d0. inversion Ht as [|? ? ? Hs Hm Hne Hsub Hnib]; subst s0 m0 data0.
    inversion Ho as [|? ? ? ? Hlow Hsubo Hag]; subst low0 s0 m0 data0. cbn [free_slot] in Hfree. destruct Hfree as [Hf1 Hf2].
    destruct nibbles_ok as (E1 & N1 & _ & _).
    assert (binds (Branch s m true data) k d) as Hkb by (by exists (n :: q')).
    destruct (Z.eqb_spec shf s) as [Es|Hse].
    + rewrite E1, bind_ok. rewrite has_next_bit by done. subst s. rewrite Hf1 by done. cbn [negb]. change (c_assert true) with (Ok tt). rewrite bind_ok. cbn [cell]. rewrite bind_ok.
      eexists _, _. split; [reflexivity|].
      destruct (cell_grown shf m data d Ht Hkb) as [G O]; [done|by apply Hf1|]. split; [exact G|]. intros _. by apply O.
    + destruct (Z.ltb_spec shf s) as [Hlt|Hge].
      * destruct (new_branch_grown (Branch s m true data) Ht) as (t' & out & -> & G & O).
        { intros k' v Hb. pose proof (Hag _ _ _ _ Hb Hkb) as Ha. destruct Hshf as [H0 _]. split; [apply Ha; lia|]. intros i Hi. apply Ha. lia. }
        exists t', out. split; [done|]. split; [done|]. intros Hlo. apply O; [|done]. by constructor; [lia|..].
      * assert (s < shf) as Hlt by lia. pose proof (same_before _ _ _ _ _ _ Ht Hbit Hst' Hlt) as En.
        destruct (nibble_ok key s Hkey Hs) as [-> _]. rewrite bind_ok. cbn [cell]. rewrite bind_ok, En.
        destruct (IH n (s + 1) q' d (Hsub n Hbit) (Hsubo n Hbit) Hst' (Hf2 Hlt)) as (t' & out & -> & G & O). rewrite bind_ok.
        eexists _, _. split; [reflexivity|]. split; [by apply grown_below|]. intros _. eapply ordered_below; [done|done|done|done|done|done|done|]. apply O. lia.
Qed.

(** All branches above the place look at nibbles before. *)
Fixpoint above (t : qp_union) (path : list Z) : bool :=
  match path with
  | [] => true
  | n :: path => match t with Branch s _ _ data => (s <? shf) && above (data n) path | Leaf _ _ => false end
  end.

Lemma passed_grown t q1 q : passes key t q1 q -> forall low d, searchable t -> ordered low t -> stored t k q d ->
  exists t' out, at_path (place shf key k) t q1 = Ok (t', out) /\ grown t t' (q1 ++ out) /\ (low <= shf -> above t q1 = true -> ordered low t').
Proof using All.
  induction 1 as [s m data q Hbit Hb|s m data q1 q Hbit Hp IH]; intros low d Ht Ho Hst.
  - assert (stored (data (nib key s)) k q d) as Hst' by (by inversion Hst).
    destruct (place_grown _ low _ d Ht Ho Hst) as (t' & out & E & G & O); [by eapply last_free|]. exists t', out. cbn [at_path app]. split; [done|]. split; [done|].
    intros Hlow _. by apply O.
  - assert (stored (data (nib key s)) k q d) as Hst' by (by inversion Hst). inversion Ht as [|? ? ? Hs Hm Hne Hsub Hnib]; subst s0 m0 data0.
    inversion Ho as [|? ? ? ? Hlow Hsubo Hag]; subst low0 s0 m0 data0.
    destruct (IH (s + 1) d (Hsub _ Hbit) (Hsubo _ Hbit) Hst') as (t' & out & E & G & O). cbn [at_path cell app]. rewrite bind_ok, E, bind_ok.
    eexists _, _. split; [reflexivity|]. split; [by apply grown_below|]. intros _ Ha. cbn [above] in Ha. apply andb_true_iff in Ha as [Hlt Ha]. apply Z.ltb_lt in Hlt.
    eapply ordered_below; [done|done|done|done|done|done|done|]. apply O; [lia|done].
Qed.
End New.

(** The insertion splits the trie below the branches it passes. *)
Definition in_order (t : qp_union) (key : list Z) : bool :=
  match descend t key true [] [] with
  | Ok (Some k, _, ins) =>
      match differ_at len key k 0 (Z.of_nat len) 0 with Ok (_, bits) => above (Z.shiftr bits 2) t ins | Err _ => false end
  | _ => false
  end.

(** ** Deleting *)

Lemma binds_mask s m m' data n k v : mask_ok m -> nibble n -> Z.testbit m n = true -> m' = Z.lxor m (__mask_table n) ->
  binds (Branch s m' true data) k v <-> exists i, i <> n /\ Z.testbit m i = true /\ binds (data i) k v.
Proof.
  intros Hm Hn Hbit ->. rewrite binds_branch. assert (forall i, Z.testbit (Z.lxor m (__mask_table n)) i = true <-> i <> n /\ Z.testbit m i = true) as Hb.
  { intros i. destruct (Z.ltb_spec i 0); [rewrite !Z.testbit_neg_r by lia; naive_solver|]. rewrite lxor_bit by done.
    rewrite andb_true_iff, negb_true_iff, Z.eqb_neq. done. }
  split; [intros (i & Hi & Hk); apply Hb in Hi; naive_solver|]. intros (i & Hi & Hbi & Hk). exists i. split; [by apply Hb|done].
Qed.

(** A branch with fewer keys, in cells that are all as they should be. *)
Lemma fewer_keys low s m m' data data' : searchable (Branch s m true data) -> ordered low (Branch s m true data) -> mask_ok m' -> m' <> 0 ->
  (forall i, Z.testbit m' i = true -> Z.testbit m i = true /\ searchable (data' i) /\ ordered (s + 1) (data' i) /\ forall k v, binds (data' i) k v -> binds (data i) k v) ->
  searchable (Branch s m' true data') /\ ordered low (Branch s m' true data').
Proof using Type.
  intros Ht Ho Hm' Hne' Hc. inversion Ht as [|? ? ? Hs Hm Hne Hsub Hnib]; subst s0 m0 data0. inversion Ho as [|? ? ? ? Hlow Hsubo Hag]; subst low0 s0 m0 data0. split.
  - constructor; [done|done|done|intros i Hi; by apply Hc|]. intros i k p d Hi Hst. destruct (Hc i Hi) as (Hb & _ & _ & Hk).
    destruct (Hk k d) as [p' Hst']; [by exists p|]. by eapply Hnib.
  - constructor; [done|intros i Hi; by apply Hc|]. assert (forall k v, binds (Branch s m' true data') k v -> binds (Branch s m true data) k v) as Hsubset.
    { intros k v (i & Hi & Hb)%binds_branch. destruct (Hc i Hi) as (Hbi & _ & _ & Hk). apply binds_branch. exists i. split; [done|by apply Hk]. }
    intros k k' v v' Hb Hb'. by eapply Hag; apply Hsubset.
Qed.

Lemma trie_delete_ok t : forall low key, searchable t -> ordered low t -> key_ok key -> (exists s m data, t = Branch s m true data) ->
  exists r, delete_below t key len = Ok r /\
    match r with
    | None => forall v, ~ binds t key v
    | Some (t', p) => (exists v, stored t key p v) /\ exists s m' data', t' = Branch s m' (negb (m' =? 0)) data' /\
        (m' = 0 -> forall k v, binds t k v -> k = key) /\
        (m' <> 0 -> searchable t' /\ ordered low t' /\ forall k v, binds t' k v <-> k <> key /\ binds t k v)
    end.
Proof using Type.
  induction t as [|s m al data IH]; intros low key Ht Ho Hkey (s0 & m0 & data0 & E); [done|]. injection E as <- <- -> <-.
  inversion Ht as [|? ? ? Hs Hm Hne Hsub Hnib]; subst s0 m0 data0. inversion Ho as [|? ? ? ? Hlow Hsubo Hag]; subst low0 s0 m0 data0. cbn [delete_below].
  destruct (nibble_ok key s Hkey Hs) as [-> Hn]. rewrite bind_ok, has_next_bit by done. set (n := nib key s) in *.
  assert (forall v, binds (Branch s m true data) key v -> Z.testbit m n = true /\ binds (data n) key v) as Hthere.
  { intros v (i & Hi & p & Hp)%binds_branch. assert (n = i) as -> by (by eapply Hnib). split; [done|by exists p]. }
  destruct (Z.testbit m n) eqn:Hbit; cycle 1.
  { eexists. split; [done|]. intros v Hb. by destruct (Hthere v Hb). }
  cbn [cell]. rewrite bind_ok. pose proof (Hsub n Hbit) as Htn.
  assert (forall m' data', mask_ok m' -> (forall i, i <> n -> Z.testbit m' i = Z.testbit m i) -> (forall i, i <> n -> data' i = data i) ->
    (forall k v, (Z.testbit m' n = true /\ binds (data' n) k v) <-> k <> key /\ binds (data n) k v) ->
    (Z.testbit m' n = true -> searchable (data' n) /\ ordered (s + 1) (data' n)) ->
    (m' = 0 -> forall k v, binds (Branch s m true data) k v -> k = key) /\
    (m' <> 0 -> searchable (Branch s m' true data') /\ ordered low (Branch s m' true data') /\
       forall k v, binds (Branch s m' true data') k v <-> k <> key /\ binds (Branch s m true data) k v)) as Hresult.
  { intros m' data' Hm' Hsame Hdata Hsame_n Hgood.
    assert (forall k v, binds (Branch s m' true data') k v <-> k <> key /\ binds (Branch s m true data) k v) as Hb.
    { intros k v. rewrite !binds_branch. split.
      - intros (i & Hi & Hb). destruct (decide (i = n)) as [->|Hin]; [destruct (proj1 (Hsame_n k v)); [done|]; split; [done|]; by exists n|].
        rewrite Hsame in Hi by done. rewrite Hdata in Hb by done. split; [|by exists i]. intros ->.
        destruct (Hthere v) as [_ [p Hp]]; [apply binds_branch; by exists i|]. destruct Hb as [p' Hp']. assert (n = i) by (by eapply Hnib). done.
      - intros (Hk & i & Hi & Hb). destruct (decide (i = n)) as [->|Hin]; [exists n; by apply Hsame_n|]. exists i. rewrite Hsame, Hdata by done. done. }
    split.
    - intros -> k v Hkv. destruct (decide (k = key)) as [|Hkk]; [done|]. destruct (proj2 (Hb k v)) as [p Hp]; [done|]. inversion Hp; subst. by rewrite Z.bits_0 in *.
    - intros Hne'. destruct (fewer_keys low s m m' data data' Ht Ho Hm' Hne') as [S O]; [|by split_and!].
      intros i Hi. destruct (decide (i = n)) as [->|Hin].
      + destruct (Hgood Hi) as [G1 G2]. split_and!; [done|done|done|]. intros k v Hkv. by apply (Hsame_n k v).
      + rewrite Hsame in Hi by done. rewrite Hdata by done. split_and!; [done|by apply Hsub|by apply Hsubo|done]. }
  assert (forall i, i <> n -> Z.testbit (Z.lxor m (__mask_table n)) i = Z.testbit m i) as Hx.
  { intros i Hi. destruct (Z.ltb_spec i 0); [by rewrite !Z.testbit_neg_r by lia|]. rewrite lxor_bit by done. by rewrite (proj2 (Z.eqb_neq i n)). }
  assert (Z.testbit (Z.lxor m (__mask_table n)) n = false) as Hxn by (unfold nibble in Hn; rewrite lxor_bit by (done || lia); by rewrite Z.eqb_refl).
  destruct (data n) as [ko d|s1 m1 al1 data1] eqn:Edn.
  - inversion Htn as [k0 d0 Hk0|]; subst. rewrite key_equal_ok by done. rewrite bind_ok. case_bool_decide as Ek; eexists; (split; [done|]).
    + subst k0. split; [exists d; constructor; [done|]; rewrite Edn; constructor|]. eexists s, _, data. split; [done|].
      destruct (Hresult (Z.lxor m (__mask_table n)) data) as [R0 R1]; [by apply mask_xor|done|done| |rewrite Hxn; done|].
      { intros k v. rewrite Hxn. split; [by intros [? _]|]. intros [Hk [Ekk _]%binds_leaf]. done. }
      split; [done|]. intros Hne'. rewrite (proj2 (Z.eqb_neq _ 0) Hne'). by apply R1.
    + intros v Hb. destruct (Hthere v Hb) as [_ Hb']. apply binds_leaf in Hb' as [Ekk _]. by apply Ek.
  - assert (al1 = true) as -> by (inversion Htn; done).
    destruct (IH n (s + 1) key) as (r & Er & Hr); [rewrite Edn; done|rewrite Edn; rewrite <- Edn; by apply Hsubo|done|rewrite Edn; by eexists _, _, _|].
    rewrite Edn in Er, Hr. rewrite Er, bind_ok. destruct r as [[t1 p]|]; eexists; (split; [done|]); cycle 1.
    { intros v Hb. destruct (Hthere v Hb) as [_ Hb']. by eapply Hr. }
    destruct Hr as ([v Hv] & s2 & m2 & data2 & -> & H0 & H1). split; [exists v; constructor; [done|by rewrite Edn]|]. eexists s, _, _. split; [reflexivity|].
    set (m' := if m2 =? 0 then Z.lxor m (__mask_table n) else m). set (data' := put_cell data n _).
    assert (data' n = Branch s2 m2 (negb (m2 =? 0)) data2) as D1 by (unfold data', put_cell; by rewrite Z.eqb_refl).
    assert (forall i, i <> n -> data' i = data i) as D2 by (intros i Hi; unfold data', put_cell; by rewrite (proj2 (Z.eqb_neq i n))).
    destruct (Hresult m' data') as [R0 R1].
    + unfold m'. destruct (m2 =? 0); [by apply mask_xor|done].
    + intros i Hi. unfold m'. destruct (m2 =? 0); [by apply Hx|done].
    + done.
    + intros k v'. rewrite D1. unfold m'. destruct (Z.eqb_spec m2 0) as [E2|E2].
      * rewrite Hxn. split; [by intros [? _]|]. intros [Hk Hb]. exfalso. apply Hk. by eapply H0.
      * destruct (H1 E2) as (_ & _ & H2). rewrite <- H2. cbn [negb]. naive_solver.
    + rewrite D1. unfold m'. destruct (Z.eqb_spec m2 0) as [E2|E2]; [by rewrite Hxn|]. intros _. destruct (H1 E2) as (S1 & O1 & _). cbn [negb] in *. done.
    + split; [done|]. intros Hne'. rewrite (proj2 (Z.eqb_neq _ 0) Hne'). by apply R1.
Qed.
(** ** Changing the data of a key *)

Lemma trie_store_ok t k p d v : searchable t -> stored t k p d ->
  exists t', store v t p = Ok t' /\ searchable t' /\ stored t' k p v /\
    (forall k' w, binds t' k' w <-> (k' = k /\ w = v) \/ (k' <> k /\ binds t k' w)) /\ forall low, ordered low t -> ordered low t'.
Proof using Type.
  intros Ht Hst. unfold store. induction Hst as [k d|s m data n k p d Hbit Hst IH]; cbn [at_path].
  - rewrite bind_ok. exists (Leaf (Some k) v). split; [done|]. inversion Ht; subst. split; [by constructor|]. split; [constructor|]. split; [|constructor].
    intros k' w. rewrite !binds_leaf. destruct (decide (k' = k)); naive_solver.
  - inversion Ht as [|? ? ? Hs Hm Hne Hsub Hnib]; subst s0 m0 data0. destruct (IH (Hsub n Hbit)) as (t' & E & St & Stk & B & O). clear IH. cbn [cell]. rewrite bind_ok.
    apply bind_Ok_inv in E as ([t1 []] & -> & E). injection E as ->. rewrite !bind_ok.
    assert (put_cell data n t' n = t') as D by (unfold put_cell; by rewrite Z.eqb_refl).
    assert (forall i, i <> n -> put_cell data n t' i = data i) as D' by (intros i Hi; unfold put_cell; by rewrite (proj2 (Z.eqb_neq i n))).
    assert (forall k' w, binds (Branch s m true (put_cell data n t')) k' w <-> (k' = k /\ w = v) \/ (k' <> k /\ binds (Branch s m true data) k' w)) as Hb.
    { intros k' w. rewrite !binds_branch. split.
      - intros (i & Hi & Hb). destruct (decide (i = n)) as [->|Hin]; [rewrite D in Hb; apply B in Hb as [?|[? ?]]; [by left|right; split; [done|by exists n]]|].
        rewrite D' in Hb by done. right. split; [|by exists i]. intros ->. destruct Hb as [p' Hp']. apply Hin.
        rewrite <- (Hnib i k p' w Hi Hp'). by eapply Hnib.
      - intros [[-> ->]|[Hk (i & Hi & Hb)]]; [exists n; split; [done|]; rewrite D; apply B; by left|]. exists i. split; [done|].
        destruct (decide (i = n)) as [->|]; [rewrite D; apply B; by right|by rewrite D']. }
    exists (Branch s m true (put_cell data n t')). split; [done|]. split_and!.
    + constructor; [done|done|done| |].
      * intros i Hi. destruct (decide (i = n)) as [->|]; [by rewrite D|rewrite D' by done; by apply Hsub].
      * intros i k' p' w Hi Hst'. destruct (decide (i = n)) as [->|]; [|rewrite D' in Hst' by done; by eapply Hnib].
        rewrite D in Hst'. assert (binds t' k' w) as Hkw by (by exists p'). apply B in Hkw as [[-> _]|[_ [p1 Hp1]]]; by eapply Hnib.
    + constructor; [done|]. by rewrite D.
    + done.
    + intros low Ho. inversion Ho as [|? ? ? ? Hlow Hsubo Hag]; subst low0 s0 m0 data0. constructor; [done| |].
      * intros i Hi. destruct (decide (i = n)) as [->|]; [rewrite D; apply O; by apply Hsubo|rewrite D' by done; by apply Hsubo].
      * assert (forall c w, binds (Branch s m true (put_cell data n t')) c w -> exists w', binds (Branch s m true data) c w') as Hold.
        { intros c w Hc. apply Hb in Hc as [[-> _]|[_ Hc]]; [|by exists w]. exists d, (n :: p). by constructor. }
        intros a b va vb Ha Hb'. destruct (Hold _ _ Ha) as [wa Ha']. destruct (Hold _ _ Hb') as [wb Hb'']. by eapply Hag.
Qed.
(** ** Inserting *)

Hypothesis Hlen : (0 < len)%nat /\ Z.of_nat len < 4096.

Lemma trie_insert_ok t key : searchable t -> ordered 0 t -> key_ok key ->
  (exists p d, stored t key p d /\ __insert_qpe (Some t) key len = Ok (t, p)) \/
  ((forall v, ~ binds t key v) /\ exists t' out, __insert_qpe (Some t) key len = Ok (t', out) /\ grown key t t' out /\ (in_order t key = true -> ordered 0 t')).
Proof using Hlen.
  intros Ht Ho Hkey. destruct (descend_true t key [] [] Ht Hkey) as (k & q & d & ins & Ed & Hst & Hins). cbn [app] in Ed.
  pose proof (stored_key t k q d Ht Hst) as Hk. unfold __insert_qpe, in_order. rewrite Ed, bind_ok.
  destruct (differ_at_ok key k len 0 Hkey Hk) as (x & b & E & Hdiff); [lia|lia|lia|intros s Hs; lia|]. change (8 * 0) with 0 in E. rewrite E, bind_ok.
  destruct Hdiff as [[-> <-]|(Hx & Hp & Hd & Ha)].
  - left. exists q, d. done.
  - right. rewrite (proj2 (Z.eqb_neq x 0)) by done. set (shf := Z.shiftr b 2) in *. split.
    { intros v [p Hp']. destruct (descend_stored t key p v [] [] Ht Hp') as [ins' E']. rewrite Ed in E'. injection E' as -> _ _. done. }
    destruct Hins as [[-> Hb]|(q1 & -> & Hpass)].
    + destruct (place_grown key k shf Hkey Hk Hp Hd Ha t 0 q d Ht Ho Hst) as (t' & out & Ep & G & O); [by eapply blocked_free|].
      cbn [at_path]. rewrite Ep, bind_ok. exists t', out. split; [done|]. split; [done|]. intros _. apply O. apply Hp.
    + destruct (passed_grown key k shf Hkey Hk Hp Hd Ha t q1 q Hpass 0 d Ht Ho Hst) as (t' & out & Ep & G & O). cbn [app].
      rewrite Ep, bind_ok. exists t', (q1 ++ out). split; [done|]. split; [done|]. intros Hin. apply O; [apply Hp|done].
Qed.

End Keys.

(** ** A trie as a map *)

(** The trie has the keys and the data of [m]. *)
Definition represents (trie : np_cupidtrie) (m : gmap (list Z) Z) : Prop :=
  match tree trie with
  | None => m = empty
  | Some t => searchable (key_length trie) t /\ forall k v, binds t k v <-> m !! k = Some v
  end.
Definition sorted (trie : np_cupidtrie) : Prop := match tree trie with None => True | Some t => ordered 0 t end.
Definition splits_in_order (trie : np_cupidtrie) (key : list Z) : bool :=
  match tree trie with None => true | Some t => in_order (key_length trie) t key end.
Definition data_of (trie : np_cupidtrie) (p : list Z) : option Z := t ← tree trie; data_at t p.

Section Map.
Context (trie : np_cupidtrie) (m : gmap (list Z) Z) (key : list Z).
Hypothesis Hm : represents trie m.
Hypothesis Hlen : (0 < key_length trie)%nat /\ Z.of_nat (key_length trie) < 4096.
Hypothesis Hkey : key_ok (key_length trie) key.

Lemma find_map : exists o, np_cupidtrie_find trie key = Ok o /\ match o with Some p => m !! key = data_of trie p /\ is_Some (m !! key) | None => m !! key = None end.
Proof using Hm Hkey.
  unfold np_cupidtrie_find, represents, data_of in *. destruct (tree trie) as [t|]; [|exists None; subst; by rewrite lookup_empty]. destruct Hm as [Ht Hb].
  destruct (trie_find_ok (key_length trie) t key Ht Hkey) as (o & -> & Ho). exists o. split; [done|]. destruct o as [p|].
  - destruct Ho as [d Hd]. assert (m !! key = Some d) as -> by (apply Hb; by exists p). cbn. by rewrite (stored_data _ _ _ _ Hd).
  - destruct (m !! key) as [v|] eqn:E; [|done]. apply Hb in E as [p Hp]. by destruct (Ho p v).
Qed.

Lemma insert_map : sorted trie -> exists trie' p, np_cupidtrie_insert trie key = Ok (trie', p) /\ key_length trie' = key_length trie /\
  represents trie' (<[key := default 0 (m !! key)]> m) /\ (exists t', tree trie' = Some t' /\ stored t' key p (default 0 (m !! key))) /\ (splits_in_order trie key = true -> sorted trie').
Proof using Hm Hkey Hlen.
  intros Ho. unfold np_cupidtrie_insert, represents, sorted, splits_in_order in *. destruct Hkey as [Hl _].
  assert ((if alloc_key_memory trie then if (key_length trie <=? length key)%nat then Ok (take (key_length trie) key) else Err Bad_access else Ok key) = Ok key) as ->.
  { destruct (alloc_key_memory trie); [|done]. by rewrite Hl, Nat.leb_refl, take_ge by lia. }
  rewrite bind_ok. destruct (tree trie) as [t|] eqn:Et.
  - destruct Hm as [Ht Hb]. destruct (trie_insert_ok _ Hlen t key Ht Ho Hkey) as [(p & d & Hst & ->)|(Hnew & t' & out & -> & [G1 G2 G3] & Hin)]; rewrite bind_ok; cbn [tree set_tree key_length].
    + assert (m !! key = Some d) as E by (apply Hb; by exists p). rewrite E. change (default 0 (Some d)) with d. eexists _, _. split; [reflexivity|]. cbn [tree set_tree key_length]. split; [done|].
      rewrite insert_id by done. split; [done|]. split; [by exists t|done].
    + assert (m !! key = None) as E. { destruct (m !! key) as [v|] eqn:E; [|done]. apply Hb in E. by destruct (Hnew v). }
      rewrite E. change (default 0 None) with 0. eexists _, _. split; [reflexivity|]. cbn [tree set_tree key_length]. split; [done|]. split; [split; [done|]|].
      * intros k v. rewrite G3, Hb, lookup_insert_Some. destruct (decide (k = key)) as [->|]; [rewrite E; naive_solver|naive_solver].
      * split; [by exists t'|done].
  - subst m. cbn [__insert_qpe]. rewrite bind_ok, lookup_empty. change (default 0 None) with 0. eexists _, _. split; [reflexivity|]. cbn [tree set_tree key_length]. split; [done|]. split; [split; [by constructor|]|].
    + intros k v. unfold new_leaf. rewrite binds_leaf, lookup_insert_Some, lookup_empty. naive_solver.
    + split; [eexists; split; [done|constructor]|]. intros _. constructor.
Qed.

Lemma delete_map : sorted trie -> delete key m <> empty -> exists trie' o, np_cupidtrie_delete trie key = Ok (trie', o) /\ key_length trie' = key_length trie /\
  represents trie' (delete key m) /\ sorted trie' /\ (is_Some o <-> is_Some (m !! key)).
Proof using Hm Hkey Hlen.
  intros Ho Hrest. unfold np_cupidtrie_delete, represents, sorted in *. destruct (tree trie) as [t|] eqn:Et; cycle 1.
  { subst m. by rewrite delete_empty in Hrest. }
  destruct Hm as [Ht Hb]. destruct (map_choose _ Hrest) as (k1 & v1 & [Hk1 E1]%lookup_delete_Some).
  assert (exists r, __delete_qpe t key (key_length trie) = Ok r /\ match r with None => forall v, ~ binds t key v | Some (t', p) => (exists v, stored t key p v) /\
    searchable (key_length trie) t' /\ ordered 0 t' /\ forall k v, binds t' k v <-> k <> key /\ binds t k v end) as (r & -> & Hr).
  { destruct t as [ko d|s ms al data].
    - inversion Ht as [k d0 Hk|]; subst. cbn [__delete_qpe]. rewrite (key_equal_ok _ k key) by done. rewrite bind_ok. case_bool_decide as Ek.
      + exfalso. apply Hb in E1. apply binds_leaf in E1 as [-> _]. congruence.
      + eexists. split; [done|]. intros v [-> _]%binds_leaf. done.
    - assert (al = true) as -> by (inversion Ht; done). cbn [__delete_qpe].
      destruct (trie_delete_ok _ (Branch s ms true data) 0 key Ht Ho Hkey) as (r & -> & Hr); [by eexists _, _, _|]. exists r. split; [done|].
      destruct r as [[t' p]|]; [|done]. destruct Hr as (Hv & s1 & m1 & data1 & -> & H0 & H1). split; [done|]. apply H1. intros ->.
      destruct Hk1. symmetry. by apply (H0 eq_refl k1 v1), Hb. }
  rewrite bind_ok. destruct r as [[t' p]|]; eexists _, _; (split; [reflexivity|]); cbn [tree set_tree key_length]; (split; [done|]).
  - destruct Hr as ([v Hv] & S & O & B). split; [split; [done|]|].
    + intros k w. rewrite B, Hb, lookup_delete_Some. naive_solver.
    + split; [done|]. split; [intros _; exists v; apply Hb; by exists p|done].
  - assert (m !! key = None) as E. { destruct (m !! key) as [v|] eqn:E; [|done]. apply Hb in E. by destruct (Hr v). }
    rewrite delete_id by done. rewrite Et. split; [done|]. split; [done|]. rewrite E. split; by intros [].
Qed.
End Map.

(** [*data = v] after an insertion or a search. *)
Lemma store_map trie m t key p d v : represents trie m -> tree trie = Some t -> stored t key p d ->
  exists t', store v t p = Ok t' /\ represents (set_tree trie t') (<[key := v]> m) /\ (sorted trie -> sorted (set_tree trie t')).
Proof.
  unfold represents, sorted. intros Hm Et Hst. rewrite Et in *. destruct Hm as [Ht Hb].
  destruct (trie_store_ok (key_length trie) t key p d v Ht Hst) as (t' & -> & St & _ & B & O). exists t'. cbn [tree set_tree key_length]. split; [done|]. split; [split; [done|]|apply O].
  intros k w. rewrite B, Hb, lookup_insert_Some. naive_solver.
Qed.

(** C34: A trie of keys of one length (at least 1, below 4096 bytes) whose branches look at
    later and later nibbles is a map from keys to data: [np_cupidtrie_find] finds the data of
    a key that is there and fails for the others; [np_cupidtrie_insert] leaves the data of
    a key that is there and adds a new key with data 0 and disturbs no other key, and
    writing through the pointer it returns sets the data of that key alone; the result is in
    order again when the new branch comes below those passed; and [np_cupidtrie_delete]
    takes out the key it is given, and answers whether it was there, when others remain. *)
Theorem cupidtrie_is_map trie m key v : represents trie m -> sorted trie ->
  (0 < key_length trie)%nat /\ Z.of_nat (key_length trie) < 4096 -> key_ok (key_length trie) key ->
  (exists o, np_cupidtrie_find trie key = Ok o /\
     match o with Some p => m !! key = data_of trie p /\ is_Some (m !! key) | None => m !! key = None end) /\
  (exists trie' p t, np_cupidtrie_insert trie key = Ok (trie', p) /\ represents trie' (<[key := default 0 (m !! key)]> m) /\ tree trie' = Some t /\
     exists t', store v t p = Ok t' /\ represents (set_tree trie' t') (<[key := v]> m) /\
       (splits_in_order trie key = true -> sorted (set_tree trie' t'))) /\
  (delete key m <> empty -> exists trie' o, np_cupidtrie_delete trie key = Ok (trie', o) /\
     represents trie' (delete key m) /\ sorted trie' /\ (is_Some o <-> is_Some (m !! key))).
Proof.
  intros Hm Ho Hlen Hkey. split; [by apply find_map|]. split.
  - destruct (insert_map trie m key Hm Hlen Hkey Ho) as (trie' & p & E & _ & Hm' & (t & Et & Hst) & Hin). exists trie', p, t. split_and!; [done..|].
    destruct (store_map trie' _ t key p _ v Hm' Et Hst) as (t' & Es & Hr & Hs). exists t'. rewrite insert_insert_eq in Hr. naive_solver.
  - intros Hrest. destruct (delete_map trie m key Hm Hlen Hkey Ho Hrest) as (trie' & o & E & _ & R). by exists trie', o.
Qed.

Lemma cupidtrie_is_map_witness :
  let trie := Cupidtrie 2 (Some (Leaf (Some [1; 2]) 7)) true in
  exists trie' m, splits_in_order trie [1; 3] = true /\ m = <[[1; 3] := 9]> {[ [1; 2] := 7 ]} /\ represents trie' m /\ sorted trie' /\
    (exists o, np_cupidtrie_find trie' [1; 2] = Ok o /\ match o with Some p => Some 7 = data_of trie' p | None => False end) /\
    exists trie'' o, np_cupidtrie_delete trie' [1; 2] = Ok (trie'', o) /\ represents trie'' {[ [1; 3] := 9 ]} /\ is_Some o.
Proof.
  intros trie. assert (forall b, in_u 8 b -> key_ok 2 [1; b]) as Hk by (intros b Hb; split; [done|repeat constructor; unfold in_u in *; lia]).
  assert (represents trie {[ [1; 2] := 7 ]}) as Hm.
  { split; [constructor; by apply Hk|]. intros k v. rewrite binds_leaf, lookup_singleton_Some. naive_solver. }
  destruct (cupidtrie_is_map trie _ [1; 3] 9 Hm) as (_ & (t1 & p & t & E & _ & Et & t' & Es & Hm' & Ho') & _); [constructor|cbn; lia|by apply Hk|].
  assert (key_length t1 = 2%nat) as Hl. { apply bind_Ok_inv in E as (k & _ & E). apply bind_Ok_inv in E as ([t0 p0] & _ & E). by injection E as <- _. }
  exists (set_tree t1 t'), (<[[1; 3] := 9]> {[ [1; 2] := 7 ]}). split; [by vm_compute|]. split; [done|]. split; [done|]. split; [apply Ho'; by vm_compute|].
  destruct (cupidtrie_is_map (set_tree t1 t') _ [1; 2] 0 Hm') as (F & _ & D); [apply Ho'; by vm_compute|cbn [key_length set_tree]; rewrite Hl; lia|cbn [key_length set_tree]; rewrite Hl; by apply Hk|].
  assert ((<[[1; 3] := 9]> ({[ [1; 2] := 7 ]} : gmap (list Z) Z)) !! [1; 2] = Some 7) as E2 by (by vm_compute). rewrite E2 in *. split.
  - destruct F as (o & -> & Ho). exists o. split; [done|]. destruct o; [apply Ho|done].
  - assert (delete [1; 2] (<[[1; 3] := 9]> ({[ [1; 2] := 7 ]} : gmap (list Z) Z)) = {[ [1; 3] := 9 ]}) as Ed by (by vm_compute). rewrite Ed in D.
    destruct D as (t2 & o & -> & R & _ & Hi); [by vm_compute|]. exists t2, o. split_and!; [done|done|]. apply Hi. by eexists.
Defined.

(** ** What goes wrong *)

Fixpoint insert_all (trie : np_cupidtrie) (keys : list (list Z)) : result np_cupidtrie :=
  match keys with
  | [] => Ok trie
  | key :: keys => '(trie, _) ← np_cupidtrie_insert trie key; insert_all trie keys
  end.
Definition has_key (trie : np_cupidtrie) (key : list Z) : result bool :=
  o ← np_cupidtrie_find trie key; Ok (match o with Some _ => true | None => false end).

(** The branch found first can look at a later nibble than the one where the new key
    differs: the new branch then comes below, and an insertion loses a key. *)
Lemma key_can_be_lost :
  let four := [[16; 16; 16]; [16; 16; 32]; [16; 32; 0]; [21; 16; 16]] in
  (exists t, insert_all (Cupidtrie 3 None true) four = Ok t /\ has_key t [21; 16; 16] = Ok true) /\
  (exists t, insert_all (Cupidtrie 3 None true) (four ++ [[21; 48; 0]]) = Ok t /\ has_key t [21; 16; 16] = Ok false).
Proof. split; (eexists; split; [reflexivity|vm_compute; reflexivity]). Qed.

(** The only key cannot be deleted. *)
Lemma only_key_delete key v : key_ok (length key) key -> np_cupidtrie_delete (Cupidtrie (length key) (Some (Leaf (Some key) v)) true) key = Err Bad_access.
Proof.
  intros Hk. unfold np_cupidtrie_delete. cbn [tree key_length __delete_qpe]. rewrite (key_equal_ok (length key) key key) by done. by rewrite bool_decide_true by done.
Qed.

(** A branch all of whose keys were deleted stays the root, with no array. *)
Lemma emptied_trie_insert :
  exists t, insert_all (Cupidtrie 1 None true) [[1]; [2]] = Ok t /\
    (t ← (fst <$> np_cupidtrie_delete t [1]); t ← (fst <$> np_cupidtrie_delete t [2]); np_cupidtrie_insert t [3]) = Err Undefined.
Proof. eexists. split; [reflexivity|]. vm_compute. reflexivity. Qed.
