(* ===== verification/Statemachine.v ===== *)
(** * The state machine engine: [src/util/np_statemachine.c]

    A table of states, each with its list of transitions.  Actions and the enter
    and exit functions are callbacks that may change the machine (also start
    follow-up transitions); conditions are callbacks that only look at it; all of
    them may fault.  The table itself is built before and not changed by them.  [U] is the user data.  Names of states are left out. *)
From Stdlib Require Import ZArith Lia.
From stdpp Require Import prelude.
From S2P Require Import Prelude.

Local Open Scope Z_scope.

(** [enum] of the error codes, and [struct np_util_statemachine_result_s]. *)
Inductive error_code_t := NO_ERROR | CONDITION_NOT_MET | NO_RULE.

Record np_util_statemachine_result_s := SmResult {
  success : bool;
  error_code : error_code_t;
}.
Definition ok_result : np_util_statemachine_result_s := SmResult true NO_ERROR.
Definition condition_not_met_result : np_util_statemachine_result_s := SmResult false CONDITION_NOT_MET.
Definition no_rule_result : np_util_statemachine_result_s := SmResult false NO_RULE.

Section Statemachine.
Context {U Event : Type} (noop_event : Event).

(** The mutable part of [struct np_util_statemachine_s]. *)
Record np_util_statemachine_t := Machine {
  _start_state : Z;
  _current_state : Z;
  _user_data : U;
}.
Abbreviation machine_t := np_util_statemachine_t.

Definition set_current (m : machine_t) (s : Z) : machine_t := Machine (_start_state m) s (_user_data m).

Definition np_util_statemachine_cond : Type := machine_t -> Event -> result bool.
Definition np_util_statemachine_func : Type := machine_t -> Event -> result machine_t.

Record np_util_statemachine_transition_s := Transition {
  _active : bool;
  _source_state : Z;
  _target_state : Z;
  f_action : option np_util_statemachine_func;
  f_condition : option np_util_statemachine_cond;
}.
Abbreviation transition_t := np_util_statemachine_transition_s.

Record np_util_statemachine_state_s := State {
  _state_id : Z;
  f_error : option np_util_statemachine_func;
  f_enter : option np_util_statemachine_func;
  f_exit : option np_util_statemachine_func;
  _transitions : Z;
  _transition_table : list transition_t;
}.
Abbreviation state_t := np_util_statemachine_state_s.

(** [_state_table]: an array of pointers to states. *)
Abbreviation table_t := (list (option state_t)).

Definition state_at (table : table_t) (s : Z) : result state_t :=
  st ← rd table s;
  match st with Some st => Ok st | None => Err Bad_access end.

(** A call through a function pointer. *)
Definition call (f : option np_util_statemachine_func) (m : machine_t) (ev : Event) : result machine_t :=
  match f with Some f => f m ev | None => Err Bad_access end.
Definition call_if (f : option np_util_statemachine_func) (m : machine_t) (ev : Event) : result machine_t :=
  match f with Some f => f m ev | None => Ok m end.

Definition condition_met (t : transition_t) (m : machine_t) (ev : Event) : result bool :=
  match f_condition t with None => Ok true | Some c => c m ev end.

(** The body of the loop of [invoke_auto_transition] for an enabled transition. *)
Definition fire_auto (table : table_t) (old_state : Z) (current : state_t) (t : transition_t)
    (m : machine_t) (ev : Event) : result machine_t :=
  m ← call_if (f_action t) m ev;
  let process_enter_exit_states := negb (_target_state t =? _state_id current) in
  m ← (if process_enter_exit_states then call (f_exit current) m ev else Ok m);
  '(m, current) ← (if _current_state m =? old_state then
                     let m := set_current m (_target_state t) in
                     c ← state_at table (_current_state m); Ok (m, c)
                   else Ok (m, current));
  if process_enter_exit_states then call (f_enter current) m ev else Ok m.

(** [while (i < _transitions)]; [n] rounds are left. *)
Fixpoint auto_loop (n : nat) (table : table_t) (old_state : Z) (current : state_t) (i : Z)
    (m : machine_t) (ev : Event) : result (machine_t * bool) :=
  match n with
  | O => Ok (m, false)
  | S n' =>
      t ← rd (_transition_table current) i;
      met ← (if _active t then condition_met t m ev else Ok false);
      if (met : bool) then
        m ← fire_auto table old_state current t m ev; Ok (m, true)
      else auto_loop n' table old_state current (i + 1) m ev
  end.

Definition np_util_statemachine_invoke_auto_transition (table : table_t) (m : machine_t) (ev : Event)
    : result (machine_t * bool) :=
  current ← state_at table (_current_state m);
  auto_loop (Z.to_nat (_transitions current)) table (_current_state m) current 0 m ev.

Definition np_util_statemachine_invoke_auto_transitions (table : table_t) (m : machine_t)
    : result (machine_t * bool) :=
  np_util_statemachine_invoke_auto_transition table m noop_event.

(** The same for an explicit transition, which always sets the state. *)
Definition fire (table : table_t) (current : state_t) (t : transition_t) (m : machine_t) : result machine_t :=
  m ← call_if (f_action t) m noop_event;
  let process_enter_exit_states := negb (_target_state t =? _state_id current) in
  m ← (if process_enter_exit_states then call (f_exit current) m noop_event else Ok m);
  let m := set_current m (_target_state t) in
  current ← state_at table (_current_state m);
  if process_enter_exit_states then call (f_enter current) m noop_event else Ok m.

Fixpoint transition_loop (n : nat) (table : table_t) (current : state_t) (i : Z) (target_state : Z)
    (ret : np_util_statemachine_result_s) (m : machine_t)
    : result (machine_t * np_util_statemachine_result_s) :=
  match n with
  | O => Ok (m, ret)
  | S n' =>
      t ← rd (_transition_table current) i;
      if negb (_active t) then transition_loop n' table current (i + 1) target_state ret m
      else
        met ← (if _target_state t =? target_state then condition_met t m noop_event else Ok false);
        if (met : bool) then
          m ← fire table current t m; Ok (m, ok_result)
        else if negb (_target_state t =? target_state) then
          transition_loop n' table current (i + 1) target_state no_rule_result m
        else Ok (m, condition_not_met_result)
  end.

Definition np_util_statemachine_transition (table : table_t) (m : machine_t) (target_state : Z)
    : result (machine_t * np_util_statemachine_result_s) :=
  current ← state_at table (_current_state m);
  transition_loop (Z.to_nat (_transitions current)) table current 0 target_state no_rule_result m.

Definition np_util_statemachine_get_state (m : machine_t) : Z := _current_state m.

Definition np_util_statemachine_add_state (states : table_t) (state : state_t) : result table_t :=
  wr states (_state_id state)
     (Some (State (_state_id state) (f_error state) (f_enter state) (f_exit state) 0 [])).

(** A new table one longer, the old entries copied, the new one at [count];
    [_transitions] is a [uint8_t]. *)
Definition np_util_statemachine_add_transition (states : table_t) (state : Z) (trans : transition_t)
    : result table_t :=
  st ← state_at states state;
  let count := _transitions st in
  old ← for_range 0 (Z.to_nat count) (fun i acc =>
          o ← rd (_transition_table st) (Z.of_nat i); Ok (acc ++ [o])) [];
  wr states state
     (Some (State (_state_id st) (f_error st) (f_enter st) (f_exit st) (u8 (count + 1)) (old ++ [trans]))).

(** [NP_UTIL_STATEMACHINE_INIT] *)
Definition machine_init (start : Z) (userdata : U) : machine_t := Machine start start userdata.
End Statemachine.
