(* ===== verification/StatemachineSpec.v ===== *)
(** * The state machine engine: theorems

    The first enabled transition of the current state fires, in the order
    action, exit, enter; an explicit transition reports why it did not fire; a
    table whose transitions stay inside it keeps the machine inside it. *)
From Stdlib Require Import ZArith Lia.
From stdpp Require Import prelude.
From S2P Require Import Prelude Statemachine.

Local Open Scope Z_scope.

Section Theorems.
Context {U Event : Type} (noop_event : Event).
Abbreviation machine_t := (@np_util_statemachine_t U).
Abbreviation state_t := (@np_util_statemachine_state_s U Event).
Abbreviation transition_t := (@np_util_statemachine_transition_s U Event).
Abbreviation table_t := (list (option state_t)).
Abbreviation func := (machine_t -> Event -> result machine_t).

(** The transitions the engine looks at. *)
Definition live_transitions (st : state_t) : list transition_t :=
  take (Z.to_nat (_transitions st)) (_transition_table st).

Definition state_wf (st : state_t) : Prop :=
  0 <= _transitions st <= Z.of_nat (length (_transition_table st)).

Definition enabled (m : machine_t) (ev : Event) (t : transition_t) : result bool :=
  if _active t then condition_met t m ev else Ok false.

(** The first transition that is active with its condition met; the conditions of those
    before it are called, and may fault. *)
Fixpoint first_enabled (m : machine_t) (ev : Event) (ts : list transition_t) : result (option transition_t) :=
  match ts with
  | [] => Ok None
  | t :: ts => met ← enabled m ev t; if (met : bool) then Ok (Some t) else first_enabled m ev ts
  end.

Lemma first_enabled_in m ev ts t : first_enabled m ev ts = Ok (Some t) -> t ∈ ts /\ enabled m ev t = Ok true.
Proof.
  induction ts as [|u ts IH]; cbn [first_enabled]; [done|]. intros E. apply bind_Ok_inv in E as (met & Em & E). destruct met.
  - injection E as ->. split; [left|done].
  - destruct (IH E) as [Ht He]. split; [by right|done].
Qed.

(** What the engine does with the first enabled transition. *)
Definition auto_result (table : table_t) (old : Z) (st : state_t) (m : machine_t) (ev : Event)
    (ts : list transition_t) : result (machine_t * bool) :=
  first ← first_enabled m ev ts;
  match first with
  | None => Ok (m, false)
  | Some t => m' ← fire_auto table old st t m ev; Ok (m', true)
  end.

Lemma auto_loop_ok n table old st i m ev :
  (i + n <= length (_transition_table st))%nat ->
  auto_loop n table old st (Z.of_nat i) m ev =
  auto_result table old st m ev (take n (drop i (_transition_table st))).
Proof.
  revert i. induction n as [|n IH]; intros i Hi; [done|]. cbn [auto_loop].
  destruct (lookup_lt_is_Some_2 (_transition_table st) i) as [t Ht]; [lia|].
  assert (rd (_transition_table st) (Z.of_nat i) = Ok t) as ->.
  { apply rd_lookup. split; [lia|]. by rewrite Nat2Z.id. }
  rewrite bind_ok, (drop_S _ t i Ht). cbn [take]. unfold auto_result. cbn [first_enabled]. fold (enabled m ev t).
  destruct (enabled m ev t) as [[|]|e]; [done| |done]. rewrite !bind_ok.
  replace (Z.of_nat i + 1) with (Z.of_nat (S i)) by lia. by rewrite IH by lia.
Qed.

Lemma invoke_auto_ok table m ev st :
  state_at table (_current_state m) = Ok st -> state_wf st ->
  np_util_statemachine_invoke_auto_transition table m ev =
  auto_result table (_current_state m) st m ev (live_transitions st).
Proof.
  intros Hst Hwf. unfold np_util_statemachine_invoke_auto_transition. rewrite Hst. cbn [mbind result_bind].
  change 0 with (Z.of_nat 0). rewrite auto_loop_ok; [by rewrite drop_0|]. unfold state_wf in Hwf. lia.
Qed.

(** Callbacks that leave the current state to the engine. *)
Definition keeps (f : func) : Prop :=
  forall m ev m', f m ev = Ok m' -> _current_state m' = _current_state m.
Definition keeps_opt (f : option func) : Prop := match f with Some f => keeps f | None => True end.

Lemma call_if_keeps f m ev m' :
  keeps_opt f -> call_if f m ev = Ok m' -> _current_state m' = _current_state m.
Proof. destruct f as [f|]; simpl; [intros H E; by apply (H m ev m') | by intros _ [= ->]]. Qed.

Lemma call_keeps f m ev m' :
  keeps_opt f -> call f m ev = Ok m' -> _current_state m' = _current_state m.
Proof. destruct f as [f|]; simpl; [intros H E; by apply (H m ev m') | done]. Qed.

(** The order of a firing: action, exit, the new state, enter. *)
Definition fired (table : table_t) (st : state_t) (t : transition_t) (m : machine_t) (ev : Event)
    : result machine_t :=
  m1 ← call_if (f_action t) m ev;
  if _target_state t =? _state_id st then Ok (set_current m1 (_target_state t))
  else
    m2 ← call (f_exit st) m1 ev;
    target ← state_at table (_target_state t);
    call (f_enter target) (set_current m2 (_target_state t)) ev.

Lemma fire_auto_ok table st t m ev :
  keeps_opt (f_action t) -> keeps_opt (f_exit st) -> (exists tst, state_at table (_target_state t) = Ok tst) ->
  fire_auto table (_current_state m) st t m ev = fired table st t m ev.
Proof.
  intros Ha He [tst Ht]. unfold fire_auto, fired.
  destruct (call_if (f_action t) m ev) as [m1|] eqn:E1; [|done]. cbn [mbind result_bind].
  pose proof (call_if_keeps _ _ _ _ Ha E1) as K1.
  destruct (_target_state t =? _state_id st); cbn [negb mbind result_bind].
  - rewrite K1, Z.eqb_refl. cbn [set_current _current_state]. by rewrite Ht.
  - destruct (call (f_exit st) m1 ev) as [m2|] eqn:E2; [|done]. cbn [mbind result_bind].
    pose proof (call_keeps _ _ _ _ He E2) as K2.
    rewrite K2, K1, Z.eqb_refl. cbn [set_current _current_state]. by rewrite Ht.
Qed.

(** Automatic transitions.  If no transition of the current state is active
    with its condition met the machine is unchanged and the result is false.
    Otherwise the first such one fires and the result is true: its action runs,
    then, when it leaves the state, the exit function, the change of state and
    the enter function of the new state; a transition to the same state runs
    its action only.  If a callback has itself changed the state, that state
    stays, and the enter function called is the one of the old state.  A
    condition that faults ends it. *)
Theorem auto_transition_spec table m ev st :
  state_at table (_current_state m) = Ok st -> state_wf st ->
  match first_enabled m ev (live_transitions st) with
  | Err e => np_util_statemachine_invoke_auto_transition table m ev = Err e
  | Ok None => np_util_statemachine_invoke_auto_transition table m ev = Ok (m, false)
  | Ok (Some t) =>
      (keeps_opt (f_action t) -> keeps_opt (f_exit st) ->
       (exists tst, state_at table (_target_state t) = Ok tst) ->
       np_util_statemachine_invoke_auto_transition table m ev =
         (m' ← fired table st t m ev; Ok (m', true))) /\
      (forall m1, call_if (f_action t) m ev = Ok m1 -> _current_state m1 <> _current_state m ->
         keeps_opt (f_exit st) -> _target_state t <> _state_id st ->
         np_util_statemachine_invoke_auto_transition table m ev =
           (m2 ← call (f_exit st) m1 ev; m3 ← call (f_enter st) m2 ev; Ok (m3, true)))
  end.
Proof.
  intros Hst Hwf. rewrite (invoke_auto_ok table m ev st Hst Hwf). unfold auto_result.
  destruct (first_enabled m ev (live_transitions st)) as [[t|]|]; [|done|done]. rewrite bind_ok. split.
  - intros Ha He Ht. by rewrite fire_auto_ok.
  - intros m1 E1 Hne He Hid. unfold fire_auto. rewrite E1. cbn [mbind result_bind].
    rewrite (proj2 (Z.eqb_neq _ _)) by done. cbn [negb].
    destruct (call (f_exit st) m1 ev) as [m2|] eqn:E2; [|done]. cbn [mbind result_bind].
    rewrite (call_keeps _ _ _ _ He E2). by rewrite (proj2 (Z.eqb_neq _ _)).
Qed.

(** ** Explicit transitions *)

Definition to_target (tgt : Z) (t : transition_t) : Prop := _active t = true /\ _target_state t = tgt.
#[export] Instance to_target_dec tgt t : Decision (to_target tgt t).
Proof. unfold to_target. apply _. Defined.

Definition transition_result (table : table_t) (st : state_t) (m : machine_t) (tgt : Z)
    (ret : np_util_statemachine_result_s) (ts : list transition_t)
    : result (machine_t * np_util_statemachine_result_s) :=
  match list_find (to_target tgt) ts with
  | None => Ok (m, ret)
  | Some (_, t) =>
      met ← condition_met t m noop_event;
      if (met : bool) then m' ← fire noop_event table st t m; Ok (m', ok_result)
      else Ok (m, condition_not_met_result)
  end.

Lemma transition_loop_ok n table st i tgt m :
  (i + n <= length (_transition_table st))%nat ->
  transition_loop noop_event n table st (Z.of_nat i) tgt no_rule_result m =
  transition_result table st m tgt no_rule_result (take n (drop i (_transition_table st))).
Proof.
  revert i. induction n as [|n IH]; intros i Hi; [done|]. cbn [transition_loop].
  destruct (lookup_lt_is_Some_2 (_transition_table st) i) as [t Ht]; [lia|].
  assert (rd (_transition_table st) (Z.of_nat i) = Ok t) as ->.
  { apply rd_lookup. split; [lia|]. by rewrite Nat2Z.id. }
  cbn [mbind result_bind]. rewrite (drop_S _ t i Ht). cbn [take]. unfold transition_result.
  cbn [list_find]. replace (Z.of_nat i + 1) with (Z.of_nat (S i)) by lia.
  assert (forall r, (match (prod_map S id <$> list_find (to_target tgt) (take n (drop (S i) (_transition_table st)))) with
      | Some (_, t) => met ← condition_met t m noop_event;
                       if (met : bool) then m' ← fire noop_event table st t m; Ok (m', ok_result)
                       else Ok (m, condition_not_met_result)
      | None => Ok (m, r) end) = transition_result table st m tgt r (take n (drop (S i) (_transition_table st)))) as Hskip.
  { intros r. unfold transition_result. by destruct (list_find _ _) as [[? ?]|]. }
  destruct (decide (to_target tgt t)) as [[Hact Htg]|Hn].
  - rewrite Hact, Htg, Z.eqb_refl. cbn [negb andb]. by destruct (condition_met t m noop_event) as [[|]|].
  - destruct (_active t) eqn:Hact; cbn [negb].
    + assert (_target_state t <> tgt) as Htg by (intros ?; by apply Hn).
      rewrite (proj2 (Z.eqb_neq _ _)) by done. rewrite bind_ok. cbn [andb negb]. rewrite IH by lia. symmetry. apply Hskip.
    + rewrite IH by lia. symmetry. apply Hskip.
Qed.

(** ** Building the table *)

Definition fresh_state (st : state_t) : state_t :=
  State (_state_id st) (f_error st) (f_enter st) (f_exit st) 0 [].

Definition add_all (ts : list transition_t) (s : Z) (table : table_t) : result table_t :=
  foldM (fun t tb => np_util_statemachine_add_transition tb s t) ts table.

Lemma copy_table_ok (l : list transition_t) n :
  (n <= length l)%nat ->
  for_range 0 n (fun i acc => o ← rd l (Z.of_nat i); Ok (acc ++ [o])) [] = Ok (take n l).
Proof.
  intros Hn. destruct (for_range_inv (fun k acc => acc = take k l) 0 n
    (fun i acc => o ← rd l (Z.of_nat i); Ok (acc ++ [o])) []) as (acc & Hrun & ->); [done| |done].
  intros k acc Hk ->. destruct (lookup_lt_is_Some_2 l k) as [t Ht]; [lia|].
  assert (rd l (Z.of_nat k) = Ok t) as ->.
  { apply rd_lookup. split; [lia|]. by rewrite Nat2Z.id. }
  exists (take (S k) l). split; [|done]. cbn [mbind result_bind]. by rewrite (take_S_r l k t Ht).
Qed.

Lemma add_transition_ok (table : table_t) s st t :
  0 <= s -> table !! Z.to_nat s = Some (Some st) -> state_wf st ->
  np_util_statemachine_add_transition table s t =
  Ok (<[Z.to_nat s := Some (State (_state_id st) (f_error st) (f_enter st) (f_exit st)
                              (u8 (_transitions st + 1)) (live_transitions st ++ [t]))]> table).
Proof.
  intros Hs Hlk Hwf. unfold np_util_statemachine_add_transition, state_at, state_wf in *.
  assert (rd table s = Ok (Some st)) as -> by (by apply rd_lookup). cbn [mbind result_bind].
  rewrite copy_table_ok by lia. cbn [mbind result_bind]. rewrite wr_ok; [done|].
  apply lookup_lt_Some in Hlk. lia.
Qed.

Lemma add_all_ok ts (table : table_t) s st :
  0 <= s -> table !! Z.to_nat s = Some (Some st) ->
  _transition_table st = live_transitions st -> state_wf st ->
  _transitions st + Z.of_nat (length ts) <= 255 ->
  exists st', add_all ts s table = Ok (<[Z.to_nat s := Some st']> table) /\
    _transition_table st' = _transition_table st ++ ts /\
    _transitions st' = _transitions st + Z.of_nat (length ts) /\ _state_id st' = _state_id st /\
    f_enter st' = f_enter st /\ f_exit st' = f_exit st.
Proof.
  revert table st. induction ts as [|t ts IH]; intros table st Hs Hlk Htab Hwf Hn; cbn [add_all foldM].
  - exists st. rewrite app_nil_r, list_insert_id by done. split; [done|].
    split; [done|]. split; [simpl; lia | done].
  - unfold add_all in *. cbn [foldM]. rewrite (add_transition_ok table s st t Hs Hlk Hwf). cbn [mbind result_bind].
    simpl length in Hn. rewrite u8_id by (unfold in_u, state_wf in *; lia).
    set (st1 := State _ _ _ _ _ _). pose proof (lookup_lt_Some _ _ _ Hlk) as Hlt.
    assert (live_transitions st1 = _transition_table st1) as Hl1.
    { unfold live_transitions. apply take_ge. unfold st1. cbn [_transition_table _transitions].
      rewrite length_app. simpl. rewrite <- Htab. unfold state_wf in Hwf.
      unfold live_transitions in Htab. apply (f_equal length) in Htab. rewrite length_take in Htab. lia. }
    destruct (IH (<[Z.to_nat s := Some st1]> table) st1) as (st' & Hrun & H1 & H2 & H3 & H4 & H5); [done| | done| | |].
    + by apply list_lookup_insert_eq.
    + unfold state_wf in *. unfold st1. cbn [_transition_table _transitions]. rewrite <- Htab, length_app. simpl. lia.
    + unfold st1. cbn [_transitions]. lia.
    + exists st'. rewrite Hrun, list_insert_insert_eq. split; [done|]. split; [|split; [|done]].
      * rewrite H1. unfold st1. cbn [_transition_table]. by rewrite <- Htab, <- app_assoc.
      * rewrite H2. unfold st1. cbn [_transitions]. simpl length. lia.
Qed.

(** Explicit transitions and table building.  A request for a target state
    is decided by the first active transition to it: fired when its condition
    holds, "condition not met" otherwise, "no rule" when there is none; in the
    last two cases the machine is unchanged.  Up to 255 transitions added to a
    state are all in force, in the order of addition; adding one more to 255
    wraps the counter and puts all of them out of force. *)
Theorem transition_and_table_spec table m tgt st ts :
  state_at table (_current_state m) = Ok st -> state_wf st -> 0 <= _current_state m ->
  np_util_statemachine_transition noop_event table m tgt =
    transition_result table st m tgt no_rule_result (live_transitions st) /\
  (_transitions st = 0 -> _transition_table st = [] -> (length ts <= 255)%nat ->
   exists st', add_all ts (_current_state m) table = Ok (<[Z.to_nat (_current_state m) := Some st']> table) /\
     live_transitions st' = ts /\ f_enter st' = f_enter st /\ f_exit st' = f_exit st) /\
  (_transitions st = 255 -> forall t,
   exists st', np_util_statemachine_add_transition table (_current_state m) t =
                 Ok (<[Z.to_nat (_current_state m) := Some st']> table) /\ live_transitions st' = []).
Proof.
  intros Hst Hwf Hcur. assert (table !! Z.to_nat (_current_state m) = Some (Some st)) as Hlk.
  { unfold state_at in Hst. inv_ok. apply rd_lookup in Hrun as [_ Hrun].
    destruct r; [|done]. by injection Hst as ->. }
  split; [|split].
  - unfold np_util_statemachine_transition. rewrite Hst. cbn [mbind result_bind].
    change 0 with (Z.of_nat 0). rewrite transition_loop_ok; [by rewrite drop_0|]. unfold state_wf in Hwf. lia.
  - intros H0 Htab Hn.
    destruct (add_all_ok ts table (_current_state m) st) as (st' & Hrun & H1 & H2 & _ & H4 & H5);
      [done | done | | done | lia |].
    + unfold live_transitions. by rewrite Htab, take_nil.
    + exists st'. split; [done|]. split; [|done]. unfold live_transitions.
      rewrite H1, H2, Htab, H0. apply take_ge. simpl. lia.
  - intros H255 t. rewrite (add_transition_ok table _ st t Hcur Hlk Hwf). eexists. split; [done|].
    unfold live_transitions at 1. cbn [_transitions]. by rewrite H255.
Qed.

(** ** Staying inside the table *)

Definition total_keeping (f : option func) : Prop :=
  match f with
  | Some f => forall m ev, exists m', f m ev = Ok m' /\ _current_state m' = _current_state m
  | None => False
  end.

Definition valid_state (table : table_t) (s : Z) : Prop := exists st, state_at table s = Ok st.

(** A condition that yields a verdict on every machine and event. *)
Definition total_condition (t : transition_t) : Prop := forall m ev, exists b, condition_met t m ev = Ok b.

(** Every state has its functions, and every transition a target. *)
Definition closed_table (table : table_t) : Prop :=
  forall s st, state_at table s = Ok st ->
    state_wf st /\ total_keeping (f_enter st) /\ total_keeping (f_exit st) /\
    Forall (fun t => (f_action t = None \/ total_keeping (f_action t)) /\ total_condition t /\
                     valid_state table (_target_state t)) (live_transitions st).

Lemma total_keeping_keeps f : total_keeping f -> keeps_opt f.
Proof.
  destruct f as [f|]; [|done]. intros H m ev m' E. destruct (H m ev) as (m1 & E1 & K). congruence.
Qed.

Lemma call_total f m ev :
  total_keeping f -> exists m', call f m ev = Ok m' /\ _current_state m' = _current_state m.
Proof. destruct f as [f|]; [intros H; apply (H m ev) | done]. Qed.

Lemma call_if_total f m ev :
  f = None \/ total_keeping f -> exists m', call_if f m ev = Ok m' /\ _current_state m' = _current_state m.
Proof. intros [->|H]; [by exists m|]. destruct f as [f|]; [apply (H m ev) | done]. Qed.

Lemma fired_total table st t m ev :
  closed_table table -> total_keeping (f_exit st) ->
  f_action t = None \/ total_keeping (f_action t) -> valid_state table (_target_state t) ->
  exists m', fired table st t m ev = Ok m' /\ _current_state m' = _target_state t.
Proof.
  intros Hcl He Ha [tst Ht]. unfold fired.
  destruct (call_if_total _ m ev Ha) as (m1 & -> & _). cbn [mbind result_bind].
  destruct (_target_state t =? _state_id st); [by eexists|].
  destruct (call_total _ m1 ev He) as (m2 & -> & _). cbn [mbind result_bind]. rewrite Ht. cbn [mbind result_bind].
  destruct (Hcl _ _ Ht) as (_ & Hen & _).
  destruct (call_total _ (set_current m2 (_target_state t)) ev Hen) as (m3 & -> & K). by exists m3.
Qed.

(** What a firing that returns has done to the state. *)
Lemma fired_state table st t m ev m' : (forall s tst, state_at table s = Ok tst -> keeps_opt (f_enter tst)) ->
  fired table st t m ev = Ok m' -> _current_state m' = _target_state t.
Proof.
  intros Hen E. unfold fired in E. apply bind_Ok_inv in E as (m1 & _ & E). destruct (_target_state t =? _state_id st).
  - by injection E as <-.
  - apply bind_Ok_inv in E as (m2 & _ & E). apply bind_Ok_inv in E as (tst & Ht & E).
    by rewrite (call_keeps _ _ _ _ (Hen _ _ Ht) E).
Qed.

Lemma fire_fired table st t m :
  fire noop_event table st t m = fired table st t m noop_event \/ ~ valid_state table (_target_state t).
Proof.
  destruct (state_at table (_target_state t)) as [tst|] eqn:Ht; [left | right; intros [? ?]; congruence].
  unfold fire, fired. destruct (call_if (f_action t) m noop_event) as [m1|]; [|done]. cbn [mbind result_bind].
  destruct (_target_state t =? _state_id st); cbn [negb mbind result_bind set_current _current_state].
  - by rewrite Ht.
  - destruct (call (f_exit st) m1 noop_event) as [m2|]; [|done]. cbn [mbind result_bind _current_state]. by rewrite Ht.
Qed.

Inductive sm_input := Auto (ev : Event) | To (target : Z).

Definition sm_step (table : table_t) (i : sm_input) (m : machine_t) : result machine_t :=
  match i with
  | Auto ev => '(m, _) ← np_util_statemachine_invoke_auto_transition table m ev; Ok m
  | To target => '(m, _) ← np_util_statemachine_transition noop_event table m target; Ok m
  end.

Lemma first_enabled_total m ev ts : Forall total_condition ts -> exists o, first_enabled m ev ts = Ok o.
Proof.
  induction 1 as [|t ts Ht _ IH]; cbn [first_enabled]; [by eexists|]. unfold enabled. destruct (_active t); [|apply IH].
  destruct (Ht m ev) as [b ->]. rewrite bind_ok. destruct b; [by eexists|apply IH].
Qed.

Lemma sm_step_ok table i m :
  closed_table table -> valid_state table (_current_state m) ->
  exists m', sm_step table i m = Ok m' /\ valid_state table (_current_state m').
Proof.
  intros Hcl [st Hst]. pose proof (Hcl _ _ Hst) as (Hwf & Hen & Hex & Hts). destruct i as [ev|tgt]; simpl.
  - rewrite (invoke_auto_ok table m ev st Hst Hwf). unfold auto_result.
    destruct (first_enabled_total m ev (live_transitions st)) as [o E].
    { eapply Forall_impl; [exact Hts|]. by intros t (_ & Ht & _). }
    rewrite E, bind_ok. destruct o as [t|]; [|exists m; split; [done | by exists st]].
    apply first_enabled_in in E as [Hi _]. rewrite Forall_forall in Hts. destruct (Hts t Hi) as (Ha & _ & Hv).
    rewrite fire_auto_ok; [| |by apply total_keeping_keeps | done].
    2: { destruct Ha as [->|Ha]; [done | by apply total_keeping_keeps]. }
    destruct (fired_total table st t m ev Hcl Hex Ha Hv) as (m' & -> & K). exists m'. by rewrite K.
  - unfold np_util_statemachine_transition. rewrite Hst. cbn [mbind result_bind].
    change 0 with (Z.of_nat 0). rewrite transition_loop_ok by (unfold state_wf in Hwf; lia).
    rewrite drop_0. unfold transition_result. fold (live_transitions st).
    destruct (list_find (to_target tgt) (live_transitions st)) as [[i t]|] eqn:E; [|exists m; split; [done | by exists st]].
    apply list_find_Some in E as (Hi & _ & _). pose proof (Forall_lookup_1 _ _ _ _ Hts Hi) as (Ha & Hc & Hv).
    destruct (Hc m noop_event) as [b ->]. rewrite bind_ok. destruct b; [|exists m; split; [done | by exists st]].
    destruct (fire_fired table st t m) as [->|]; [|done].
    destruct (fired_total table st t m noop_event Hcl Hex Ha Hv) as (m' & -> & K). exists m'. by rewrite K.
Qed.

(** C35: safety of the engine.  In a table whose states have enter and exit
    functions and whose transitions lead to states of the table, with conditions
    that yield a verdict and callbacks that return and leave the state to the engine, every sequence of events and
    explicit requests runs to its end without a fault and ends in a state of
    the table. *)
Theorem statemachine_stays_in_table table inputs m :
  closed_table table -> valid_state table (_current_state m) ->
  exists m', foldM (sm_step table) inputs m = Ok m' /\ valid_state table (np_util_statemachine_get_state m').
Proof.
  intros Hcl. revert m. induction inputs as [|i inputs IH]; intros m Hv; [by exists m|].
  destruct (sm_step_ok table i m Hcl Hv) as (m1 & E & Hv1). cbn [foldM]. rewrite E. by apply IH.
Qed.
End Theorems.

(** ** Examples *)

(** A callback that records its number in the user data. *)
Definition note (n : Z) (m : @np_util_statemachine_t (list Z)) (ev : unit)
    : result (@np_util_statemachine_t (list Z)) :=
  Ok (Machine (_start_state m) (_current_state m) (_user_data m ++ [n])).

Definition example_state0 : @np_util_statemachine_state_s (list Z) unit :=
  State 0 None (Some (note 10)) (Some (note 11)) 1 [Transition true 0 1 (Some (note 1)) None].
Definition example_state1 : @np_util_statemachine_state_s (list Z) unit :=
  State 1 None (Some (note 20)) (Some (note 21)) 1 [Transition true 1 0 None (Some (fun _ _ => Ok false))].
Definition example_table : list (option np_util_statemachine_state_s) :=
  [Some example_state0; Some example_state1].

Lemma note_keeps n : keeps (note n).
Proof. by intros m ev m' [= <-]. Qed.

Lemma auto_transition_spec_witness :
  np_util_statemachine_invoke_auto_transition example_table (machine_init 0 []) tt =
  Ok (Machine 0 1 [1; 11; 20], true).
Proof.
  pose proof (auto_transition_spec example_table (machine_init 0 []) tt example_state0 eq_refl
    ltac:(vm_compute; split; discriminate)) as [H _].
  exact (H (note_keeps 1) (note_keeps 11) (ex_intro _ example_state1 eq_refl)).
Defined.

Lemma transition_and_table_spec_witness :
  np_util_statemachine_transition tt example_table (machine_init 1 []) 0 =
  Ok (machine_init 1 [], condition_not_met_result).
Proof.
  exact (proj1 (transition_and_table_spec tt example_table (machine_init 1 []) 0 example_state1 [] eq_refl
    ltac:(vm_compute; split; discriminate) ltac:(by_decide))).
Defined.

Lemma example_closed : closed_table example_table.
Proof.
  assert (forall n, total_keeping (Some (note n))) as Hn by (intros n m ev; by eexists).
  intros s st Hst. unfold state_at in Hst. inv_ok. apply rd_lookup in Hrun as [Hs Hlk].
  destruct (Z.to_nat s) as [|[|k]]; simpl in Hlk; [| |by rewrite lookup_nil in Hlk];
    injection Hlk as <-; injection Hst as <-.
  - split; [by_decide|]. split; [apply Hn|]. split; [apply Hn|].
    apply Forall_cons. split; [|by apply Forall_nil].
    split; [right; apply Hn|]. split; [intros m ev; by exists true|by exists example_state1].
  - split; [by_decide|]. split; [apply Hn|]. split; [apply Hn|].
    apply Forall_cons. split; [|by apply Forall_nil].
    split; [by left|]. split; [intros m ev; by exists false|by exists example_state0].
Qed.

Lemma statemachine_stays_in_table_witness :
  exists m', foldM (sm_step tt example_table) [Auto tt; To 0; Auto tt] (machine_init 0 []) = Ok m' /\
    valid_state example_table (np_util_statemachine_get_state m').
Proof.
  exact (statemachine_stays_in_table tt example_table [Auto tt; To 0; Auto tt] (machine_init 0 [])
    example_closed (ex_intro _ example_state0 eq_refl)).
Defined.
