(* ===== verification/Pheromones.v ===== *)
(** * The pheromone table: [src/np_pheromones.c]

    257 partitions of up to 31 neuropil Bloom filters, each with the next hops
    that sent or look for its subjects; slot 0 of a partition is the union of
    its filters.  Next-hop lists are linked lists of [Sll], here the sequences
    they represent.  [lock_depth] counts acquisitions of the module lock that
    were not released when a function returned. *)
From Stdlib Require Import ZArith Lia QArith.
From stdpp Require Import prelude.
From S2P Require Import Prelude Dhkey Rng BloomBase BloomNeuropil.

Local Open Scope Z_scope.

Definition NP_PHEROMONES_MAX_NEXTHOP_KEYS : nat := 19.

(** Conversion to [int16_t]. *)
Definition s16 (x : Z) : Z := let y := u16 x in if y <? 2 ^ 15 then y else y - 2 ^ 16.

Record np_pheromone_details_s := Details {
  peer_id : np_dhkey_t;
  insert_ts : Q;
}.

(** [None] is a [NULL] pointer. *)
Record np_pheromone_t := Pheromone {
  _subject : option np_dhkey_t;
  _subj_bloom : option np_bloom_t;
  _pos : Z;
  _sender : np_dhkey_t;
  _receiver : np_dhkey_t;
  _send_list : option (list np_pheromone_details_s);
  _recv_list : option (list np_pheromone_details_s);
}.

Definition pheromone0 : np_pheromone_t := Pheromone None None 0 dhkey_zero dhkey_zero None None.

Definition set_bloom (p : np_pheromone_t) (b : np_bloom_t) : np_pheromone_t :=
  Pheromone (_subject p) (Some b) (_pos p) (_sender p) (_receiver p) (_send_list p) (_recv_list p).
Definition set_send (p : np_pheromone_t) (l : list np_pheromone_details_s) : np_pheromone_t :=
  Pheromone (_subject p) (_subj_bloom p) (_pos p) (_sender p) (_receiver p) (Some l) (_recv_list p).
Definition set_recv (p : np_pheromone_t) (l : list np_pheromone_details_s) : np_pheromone_t :=
  Pheromone (_subject p) (_subj_bloom p) (_pos p) (_sender p) (_receiver p) (_send_list p) (Some l).

(** Following a pointer. *)
Definition the {A} (o : option A) : result A :=
  match o with Some a => Ok a | None => Err Bad_access end.

Record np_pheromone_entry_t := Entry {
  _pheromone : list np_pheromone_t;
  _count : Z;
}.

Record pheromones := Pheromones {
  ph_table : list (option np_pheromone_entry_t);
  ph_rng : np_local_pcg_state_32;
  lock_depth : Z;
}.

Inductive np_pheromone_direction :=
| np_pheromone_direction_sender
| np_pheromone_direction_receiver.

(** It also submits the periodic log job to the job queue. *)
Definition __init_pheromones (seeds : Z * Z) : pheromones :=
  Pheromones (replicate 257 None) (np_rng_init seeds) 0.

Definition module_or_init (seeds : Z * Z) (module : option pheromones) : pheromones :=
  match module with Some p => p | None => __init_pheromones seeds end.

(** The negation is one of [uint32_t] values. *)
Definition _np_pheromone_calc_table_position (target : np_dhkey_t) (direction : np_pheromone_direction) : Z :=
  match direction with
  | np_pheromone_direction_receiver => s16 (u32 (u32 (- (word target 0 mod 257)) - 1))
  | np_pheromone_direction_sender => s16 (u32 (word target 0 mod 257 + 1))
  end.

(** ** Next-hop lists *)

(** The position of the last element that satisfies [f]. *)
Fixpoint last_index {A} (f : A -> bool) (i : nat) (found : option nat) (l : list A) : option nat :=
  match l with
  | [] => found
  | x :: l => last_index f (S i) (if f x then Some i else found) l
  end.

Definition __np_remove_dhkey (l : list np_pheromone_details_s) (value : np_dhkey_t)
    : list np_pheromone_details_s * bool :=
  match last_index (fun tmp => _np_dhkey_equal (peer_id tmp) value) 0 None l with
  | Some i => (delete i l, true)
  | None => (l, false)
  end.

(** [compare_result] stays the time stamp of the first element. *)
Definition __np_remove_oldest_dhkey (l : list np_pheromone_details_s)
    : list np_pheromone_details_s * bool :=
  match l with
  | [] => (l, false)
  | first :: _ =>
      match last_index (fun tmp => negb (Qle_bool (insert_ts first) (insert_ts tmp))) 0 (Some 0%nat) l with
      | Some i => (delete i l, true)
      | None => (l, false)
      end
  end.

(** The walk of [__np_insert_dhkey]: the number of elements passed and the last
    comparison. *)
Fixpoint insert_walk (my_dhkey new_distance : np_dhkey_t) (l : list np_pheromone_details_s)
    (passed : nat) (compare_result : Z) : nat * Z :=
  match l with
  | [] => (passed, compare_result)
  | tmp :: l =>
      let current_distance := _np_dhkey_distance my_dhkey (peer_id tmp) in
      let compare_result := _np_dhkey_cmp (Some new_distance) (Some current_distance) in
      if compare_result <? 0 then insert_walk my_dhkey new_distance l (S passed) compare_result
      else (passed, compare_result)
  end.

(** [sll_insert] puts the new element behind the last one passed. *)
Definition __np_insert_dhkey (my_dhkey : np_dhkey_t) (now : Q) (l : list np_pheromone_details_s)
    (new_value : np_dhkey_t) : list np_pheromone_details_s :=
  let new_distance := _np_dhkey_distance my_dhkey new_value in
  let '(passed, compare_result) := insert_walk my_dhkey new_distance l 0 1 in
  let new := Details (_np_dhkey_assign new_value) now in
  if compare_result <? 0 then take passed l ++ new :: drop passed l
  else if 0 <? compare_result then new :: l
  else l.

(** ** Inhaling *)

(** What is done with the send or receive list of a filter that matches. *)
Definition refresh (my_dhkey : np_dhkey_t) (now : Q) (l : list np_pheromone_details_s) (peer : np_dhkey_t)
    (b scent : np_bloom_t) : result (list np_pheromone_details_s * np_bloom_t) :=
  let '(l, removed) := __np_remove_dhkey l peer in
  b ← (if (removed : bool) then _np_neuropil_bloom_count_decrement b else Ok b);
  let l := __np_insert_dhkey my_dhkey now l peer in
  '(l, b) ← (if (NP_PHEROMONES_MAX_NEXTHOP_KEYS <? length l)%nat then
               b ← _np_neuropil_bloom_count_decrement b;
               Ok (fst (__np_remove_oldest_dhkey l), b)
             else Ok (l, b));
  b ← _np_neuropil_bloom_union b scent;
  Ok (l, b).

(** The effect of a matching filter on its slot: the new slot and whether it was updated. *)
Definition match_slot (my_dhkey : np_dhkey_t) (now : Q) (ph s : np_pheromone_t) (scent b : np_bloom_t)
    : result (np_pheromone_t * bool) :=
  _ ← _np_neuropil_bloom_intersect_age b scent;
  _ ← _np_neuropil_bloom_intersect_age scent b;
  if (_pos ph <? 0) && negb (_np_dhkey_equal (_sender ph) dhkey_zero) then
    l ← the (_send_list s);
    '(l, b) ← refresh my_dhkey now l (_sender ph) b scent;
    Ok (set_bloom (set_send s l) b, true)
  else if (0 <? _pos ph) && negb (_np_dhkey_equal (_receiver ph) dhkey_zero) then
    l ← the (_recv_list s);
    '(l, b) ← refresh my_dhkey now l (_receiver ph) b scent;
    Ok (set_bloom (set_recv s l) b, true)
  else Ok (s, false).

(** One round of the loop over the slots of an entry; [now i] is the clock
    reading of round [i]. *)
Definition inhale_slot (my_dhkey : np_dhkey_t) (now : nat -> Q) (ph : np_pheromone_t) (scent : np_bloom_t)
    (i : nat) (st : list np_pheromone_t * bool) : result (list np_pheromone_t * bool) :=
  let '(slots, update_filter) := st in
  s ← rd slots (Z.of_nat i);
  b ← the (_subj_bloom s);
  matches ← _np_neuropil_bloom_intersect_test b scent;
  '(s, updated) ← (if (matches : bool) then match_slot my_dhkey (now i) ph s scent b else Ok (s, false));
  slots ← wr slots (Z.of_nat i) s;
  s0 ← rd slots 0;
  b0 ← the (_subj_bloom s0);
  b ← the (_subj_bloom s);
  _ ← c_assert (64 <=? _free_items b0 + _free_items b);
  b0 ← _np_neuropil_bloom_union b0 b;
  slots ← wr slots 0 (set_bloom s0 (set_free b0 64));
  Ok (slots, update_filter || updated).

(** The new slot of a scent that no filter of the entry has. *)
Definition new_slot (my_dhkey : np_dhkey_t) (now : Q) (ph old : np_pheromone_t) (scent : np_bloom_t)
    (index : Z) : result np_pheromone_t :=
  '(send, recv) ←
    (if 0 <? _pos ph then Ok ([], __np_insert_dhkey my_dhkey now [] (_receiver ph))
     else if _pos ph <? 0 then Ok (__np_insert_dhkey my_dhkey now [] (_sender ph), [])
     else Err Assert_failed);
  _ ← c_assert (64 <=? _free_items _np_neuropil_bloom_create + _free_items scent);
  b ← _np_neuropil_bloom_union _np_neuropil_bloom_create scent;
  Ok (Pheromone (_subject ph) (Some b) (s16 index) (_sender old) (_receiver old) (Some send) (Some recv)).

(** The entry after the loop and the insertion, and the result. *)
Definition inhale_entry (my_dhkey : np_dhkey_t) (now : nat -> Q) (ph : np_pheromone_t) (scent : np_bloom_t)
    (index : Z) (e : np_pheromone_entry_t) : result (np_pheromone_entry_t * option bool) :=
  s0 ← rd (_pheromone e) 0;
  b0 ← the (_subj_bloom s0);
  b0 ← _np_neuropil_bloom_clear b0;
  slots ← wr (_pheromone e) 0 (set_bloom s0 b0);
  '(slots, update_filter) ← for_range 1 (Z.to_nat (_count e) - 1) (inhale_slot my_dhkey now ph scent) (slots, false);
  let i := Z.max 1 (_count e) in
  if negb ((0 <? i) && (i <? 32)) then Ok (Entry slots (_count e), None)
  else if (i =? _count e) && negb (update_filter : bool) then
    s0 ← rd slots 0;
    b0 ← the (_subj_bloom s0);
    _ ← c_assert (64 <=? _free_items b0 + _free_items scent);
    b0 ← _np_neuropil_bloom_union b0 scent;
    slots ← wr slots 0 (set_bloom s0 b0);
    old ← rd slots i;
    s ← new_slot my_dhkey (now (Z.to_nat i)) ph old scent index;
    slots ← wr slots i s;
    Ok (Entry slots (u16 (_count e + 1)), Some true)
  else Ok (Entry slots (_count e), Some update_filter).

(** [calloc] of an entry, its slot 0 with an empty filter. *)
Definition new_entry : np_pheromone_entry_t :=
  Entry (set_bloom pheromone0 _np_neuropil_bloom_create :: replicate 31 pheromone0) 1.

(** The filter of the pheromone when a complete subject is given. *)
Definition scent_of (ph : np_pheromone_t) : result np_bloom_t :=
  match _subject ph, _subj_bloom ph with
  | Some subject, Some b => b ← _np_neuropil_bloom_clear b; _np_neuropil_bloom_add b subject
  | Some subject, None => _np_neuropil_bloom_add _np_neuropil_bloom_create subject
  | None, Some b => Ok b
  | None, None => Err Bad_access
  end.

(** The release build: with 31 filters in the entry the function returns inside
    the locked region.  The result has the caller's filter, too. *)
Definition _np_pheromone_inhale (seeds : Z * Z) (my_dhkey : np_dhkey_t) (now : nat -> Q)
    (module : option pheromones) (ph : np_pheromone_t) : result (pheromones * bool * option np_bloom_t) :=
  let p := module_or_init seeds module in
  match _subject ph, _subj_bloom ph with
  | None, None => Ok (p, false, None)
  | _, _ =>
      scent ← scent_of ph;
      _ ← c_assert (negb (_pos ph =? 0));
      let index := if 0 <? _pos ph then u16 (_pos ph - 1) else u16 (- _pos ph - 1) in
      _ ← c_assert (index <? 257);
      entry ← rd (ph_table p) index;
      let e := match entry with Some e => e | None => new_entry end in
      '(e, ret) ← inhale_entry my_dhkey now ph scent index e;
      table ← wr (ph_table p) index (Some e);
      Ok (match ret with
          | Some r => (Pheromones table (ph_rng p) (lock_depth p), r, Some scent)
          | None => (Pheromones table (ph_rng p) (lock_depth p + 1), false, Some scent)
          end)
  end.

Definition _np_pheromone_inhale_target (seeds : Z * Z) (my_dhkey : np_dhkey_t) (now : nat -> Q)
    (module : option pheromones) (target pheromone_source : np_dhkey_t) (find_sender find_receiver : bool)
    : result (pheromones * bool) :=
  let p := module_or_init seeds module in
  scent ← _np_neuropil_bloom_add _np_neuropil_bloom_create target;
  let receiver := if find_sender then pheromone_source else dhkey_zero in
  let sender := if find_receiver then pheromone_source else dhkey_zero in
  let pos := if find_receiver then _np_pheromone_calc_table_position target np_pheromone_direction_receiver
             else if find_sender then _np_pheromone_calc_table_position target np_pheromone_direction_sender
             else 0 in
  '(p, r, _) ← _np_pheromone_inhale seeds my_dhkey now (Some p)
                 (Pheromone None (Some scent) pos sender receiver None None);
  Ok (p, (find_sender || find_receiver) && r).

(** ** Snuffling *)

(** The next hops a matching slot contributes. *)
Definition slot_hops (find_sender find_receiver : bool) (s : np_pheromone_t) : result (list np_dhkey_t) :=
  iter ← (if find_sender then l ← the (_send_list s); Ok l else Ok []);
  iter ← (if find_receiver then l ← the (_recv_list s); Ok l else Ok iter);
  Ok (map peer_id iter).

Definition snuffle_slot (to_check : np_dhkey_t) (find_sender find_receiver : bool)
    (slots : list np_pheromone_t) (i : nat) (result_list : list np_dhkey_t) : result (list np_dhkey_t) :=
  s ← rd slots (Z.of_nat i);
  b ← the (_subj_bloom s);
  found ← _np_neuropil_bloom_check b to_check;
  if (found : bool) then hops ← slot_hops find_sender find_receiver s; Ok (result_list ++ hops)
  else Ok result_list.

(** The result list and [*target_probability]; [p] is the module, initialised
    first ([module_or_init]) when it was not. *)
Definition _np_pheromone_snuffle (p : pheromones) (result_list : list np_dhkey_t) (to_check : np_dhkey_t)
    (target_probability : Q) (find_sender find_receiver : bool) : result (list np_dhkey_t * Q) :=
  let index := u16 (word to_check 0 mod 257) in
  _ ← c_assert (index <? 257);
  entry ← rd (ph_table p) index;
  match entry with
  | None => Ok (result_list, 0%Q)
  | Some e =>
      s0 ← rd (_pheromone e) 0;
      b0 ← the (_subj_bloom s0);
      found ← _np_neuropil_bloom_check b0 to_check;
      if (found : bool) then
        current_probability ← _np_neuropil_bloom_get_heuristic b0 to_check;
        if Qle_bool target_probability current_probability then
          l ← for_range 1 (Z.to_nat (_count e) - 1)
                (snuffle_slot to_check find_sender find_receiver (_pheromone e)) result_list;
          Ok (l, current_probability)
        else Ok (result_list, current_probability)
      else Ok (result_list, 0%Q)
  end.

Definition _np_pheromone_snuffle_receiver (p : pheromones) (result_list : list np_dhkey_t)
    (to_check : np_dhkey_t) (target_probability : Q) : result (list np_dhkey_t * Q) :=
  _np_pheromone_snuffle p result_list to_check target_probability false true.

Definition _np_pheromone_snuffle_sender (p : pheromones) (result_list : list np_dhkey_t)
    (to_check : np_dhkey_t) (target_probability : Q) : result (list np_dhkey_t * Q) :=
  _np_pheromone_snuffle p result_list to_check target_probability true false.

(** ** Exhaling *)

(** Closing the gap at [i]: [_pheromone[j + 1]] is read for [j] up to
    [_count - 1]; the slot behind the last is zeroed when there is one. *)
Definition remove_slot (i : Z) (e : np_pheromone_entry_t) : result np_pheromone_entry_t :=
  slots ← for_range (Z.to_nat i) (Z.to_nat (_count e) - Z.to_nat i)
            (fun j slots => v ← rd slots (Z.of_nat j + 1); wr slots (Z.of_nat j) v) (_pheromone e);
  slots ← (if _count e <? 32 then wr slots (_count e) pheromone0 else Ok slots);
  Ok (Entry slots (u16 (_count e - 1))).

(** One next hop less in a list of more than one. *)
Definition shrink (l : option (list np_pheromone_details_s)) (b : np_bloom_t)
    : result (list np_pheromone_details_s * np_bloom_t) :=
  l ← the l;
  if (1 <? length l)%nat then
    b ← _np_neuropil_bloom_count_decrement b; Ok (fst (__np_remove_oldest_dhkey l), b)
  else Ok (l, b).

(** [while (i < _count)]: every round either removes slot [i] or moves on. *)
Fixpoint exhale_loop (fuel : nat) (i : Z) (e : np_pheromone_entry_t) : result np_pheromone_entry_t :=
  match fuel with
  | O => if i <? _count e then Err Diverges else Ok e
  | S fuel' =>
      if i <? _count e then
        s ← rd (_pheromone e) i;
        b ← the (_subj_bloom s);
        b ← _np_neuropil_bloom_age_decrement b;
        s0 ← rd (_pheromone e) 0;
        b0 ← the (_subj_bloom s0);
        age ← _np_neuropil_bloom_intersect_age b0 b;
        if Qeq_bool age 0 then
          _ ← the (_recv_list s);
          _ ← the (_send_list s);
          e ← remove_slot i e;
          exhale_loop fuel' i e
        else
          '(recv, b) ← shrink (_recv_list s) b;
          '(send, b) ← shrink (_send_list s) b;
          slots ← wr (_pheromone e) i (set_bloom (set_send (set_recv s recv) send) b);
          exhale_loop fuel' (i + 1) (Entry slots (_count e))
      else Ok e
  end.

Definition _np_pheromone_exhale (fuel : nat) (seeds : Z * Z) (module : option pheromones) : result pheromones :=
  let p := module_or_init seeds module in
  '(_random_number, rng) ← np_rng_next_bounded fuel (ph_rng p) 257;
  entry ← rd (ph_table p) _random_number;
  match entry with
  | None => Ok (Pheromones (ph_table p) rng (lock_depth p))
  | Some e =>
      s0 ← rd (_pheromone e) 0;
      b0 ← the (_subj_bloom s0);
      b0 ← _np_neuropil_bloom_age_decrement b0;
      slots ← wr (_pheromone e) 0 (set_bloom s0 b0);
      e ← exhale_loop (Z.to_nat (_count e)) 1 (Entry slots (_count e));
      table ← wr (ph_table p) _random_number (Some e);
      Ok (Pheromones table rng (lock_depth p))
  end.
