(* ===== verification/PheromonesSpec.v ===== *)
(** * The pheromone table: its invariant

    Filters by their number of items, next-hop lists without duplicates, and
    slots whose filter counts exactly their next hops: what inhaling and
    exhaling keep. *)
From Stdlib Require Import ZArith Lia QArith Lqa.
From stdpp Require Import prelude.
From S2P Require Import Prelude Dhkey Rng BloomBase BloomNeuropil BloomNeuropilSpec BloomNeuropilThms.
From S2P Require Import Pheromones.

Local Open Scope Z_scope.

(** ** Filters by their number of items *)

Definition filt (b : np_bloom_t) (n : Z) : Prop :=
  exists rng cs, b = mk rng cs (64 - n) /\ cells_wf cs /\ 0 <= n <= 64.

Lemma filt_free b n : filt b n -> _free_items b = 64 - n.
Proof. by intros (rng & cs & -> & _). Qed.

Lemma empty_cells_wf : cells_wf (replicate NCELLS (0, 0)).
Proof. split; [done|]. apply Forall_replicate. by_decide. Qed.

Lemma filt_create : filt _np_neuropil_bloom_create 0.
Proof. rewrite create_mk. exists rng0, (replicate NCELLS (0, 0)). split; [done|]. split; [apply empty_cells_wf | lia]. Qed.

Lemma filt_reset b n : filt b n -> filt (set_free b 64) 0.
Proof. intros (rng & cs & -> & Hwf & _). exists rng, cs. split; [done|]. split; [done | lia]. Qed.

Lemma filt_clear b n : filt b n -> exists b', _np_neuropil_bloom_clear b = Ok b' /\ filt b' 0.
Proof.
  intros (rng & cs & -> & [Hl _] & _). rewrite neuropil_clear_mk by done. eexists. split; [done|].
  exists rng, (replicate NCELLS (0, 0)). split; [done|]. split; [apply empty_cells_wf | lia].
Qed.

Lemma zip_union_wf cs1 cs2 : cells_wf cs1 -> cells_wf cs2 -> cells_wf (zip_with union_cell cs1 cs2).
Proof.
  intros [L1 _] [L2 _]. split; [rewrite length_zip_with; lia|].
  apply Forall_forall. intros x Hx. apply elem_of_lookup_zip_with in Hx as (i & y & z & -> & _).
  unfold union_cell, is_cell. cbn [fst snd]. split; [|apply u8_range].
  case_match; [by_decide | apply u8_range].
Qed.

Lemma filt_union b n c k :
  filt b n -> filt c k -> n + k <= 64 ->
  exists b', _np_neuropil_bloom_union b c = Ok b' /\ filt b' (n + k).
Proof.
  intros (r1 & cs1 & -> & W1 & Hn) (r2 & cs2 & -> & W2 & Hk) Hle.
  rewrite neuropil_union_mk by (apply W1 || apply W2 || lia).
  rewrite (proj2 (Z.leb_le _ _)) by lia. eexists. split; [done|].
  exists r1, (zip_with union_cell cs1 cs2). split; [f_equal; lia|]. split; [by apply zip_union_wf | lia].
Qed.

Lemma map_cells_wf (f : cell -> cell) cs :
  (forall x, is_cell x -> is_cell (f x)) -> cells_wf cs -> cells_wf (map f cs).
Proof.
  intros Hf [Hl Hc]. split; [by rewrite length_map|]. apply Forall_map.
  eapply Forall_impl; [exact Hc|]. exact Hf.
Qed.

Lemma filt_age_decrement b n : filt b n -> exists b', _np_neuropil_bloom_age_decrement b = Ok b' /\ filt b' n.
Proof.
  intros (rng & cs & -> & Hwf & Hn). rewrite neuropil_age_decrement_mk by apply Hwf. eexists. split; [done|].
  exists rng, (map age_dec cs). split; [done|]. split; [|done]. apply map_cells_wf; [apply age_dec_cell | done].
Qed.

Lemma filt_count_decrement b n :
  filt b n -> exists b', _np_neuropil_bloom_count_decrement b = Ok b' /\ filt b' (Z.max 0 (n - 1)).
Proof.
  intros (rng & cs & -> & Hwf & Hn). unfold _np_neuropil_bloom_count_decrement.
  change (_free_items (mk rng cs (64 - n))) with (64 - n). unfold SCALE3D_FREE_ITEMS.
  destruct (Z.ltb_spec (64 - n) 64).
  - change (block_size _ * _) with 2040. change (_bitset (mk rng cs _)) with (uncells cs).
    rewrite map_cells_mk by apply Hwf. cbn [mbind result_bind]. eexists. split; [done|].
    eexists rng, _. split; [unfold set_free, set_bitset, mk; simpl; f_equal; rewrite u16_id; [lia | unfold in_u; lia]|].
    split; [|lia]. apply map_cells_wf; [|done]. intros [a c] [Ha Hc]. split; [done|]. cbn [fst snd] in *.
    unfold in_u in *. destruct (Z.ltb_spec 0 c); cbn [snd]; lia.
  - eexists. split; [done|]. exists rng, cs. split; [f_equal; lia|]. split; [done | lia].
Qed.

Lemma filt_intersect_test b n c k :
  filt b n -> filt c k -> exists r, _np_neuropil_bloom_intersect_test b c = Ok r.
Proof.
  intros (r1 & cs1 & -> & [L1 _] & Hn) (r2 & cs2 & -> & [L2 _] & Hk). unfold _np_neuropil_bloom_intersect_test.
  rewrite neuropil_compatible_mk. cbn [mbind result_bind _bitset mk]. change (filter_bytes _) with 2040.
  rewrite fold_cells_mk by done. cbn [mbind result_bind]. by eexists.
Qed.

Lemma filt_intersect_age b n c k :
  filt b n -> filt c k -> exists q, _np_neuropil_bloom_intersect_age b c = Ok q.
Proof.
  intros (r1 & cs1 & -> & W1 & _) (r2 & cs2 & -> & W2 & _).
  destruct (intersect_age_mk r1 r2 cs1 cs2 (64 - n) (64 - k) W1 W2) as (q & -> & _). by exists q.
Qed.

Lemma filt_check b n x : filt b n -> exists r, _np_neuropil_bloom_check b x = Ok r.
Proof. intros (rng & cs & -> & [L _] & _). rewrite neuropil_check_mk by done. by eexists. Qed.

(** The scent of a single target. *)
Lemma scent_ok target :
  exists scent cs, _np_neuropil_bloom_add _np_neuropil_bloom_create target = Ok scent /\
    scent = mk rng0 cs 63 /\ holds cs [target] 128 /\ filt scent 1.
Proof.
  destruct (neuropil_build_ok [target] ltac:(simpl; lia)) as (cs & Hrun & Hh & Hwf & _).
  cbn [filter_add_all foldM neuropil_ops add_cb] in Hrun.
  unfold filter_add_all in Hrun. cbn [foldM neuropil_ops add_cb] in Hrun.
  destruct (_np_neuropil_bloom_add _np_neuropil_bloom_create target) as [b|] eqn:E; [|done].
  cbn [mbind result_bind] in Hrun. injection Hrun as ->. eexists _, cs. split; [done|]. split; [done|].
  split; [done|]. exists rng0, cs. split; [done|]. split; [done | lia].
Qed.

(** ** Next-hop lists *)

Lemma last_index_spec {A} (f : A -> bool) l i found :
  (last_index f i found l = found /\ Forall (fun x => f x = false) l) \/
  (exists k x, last_index f i found l = Some (i + k)%nat /\ l !! k = Some x /\ f x = true).
Proof.
  revert i found. induction l as [|y l IH]; intros i found; simpl; [by left|].
  destruct (IH (S i) (if f y then Some i else found)) as [[-> Hall]|(k & x & -> & Hk & Hx)].
  - destruct (f y) eqn:E.
    + right. exists 0%nat, y. by rewrite Nat.add_0_r.
    + left. split; [done|]. by constructor.
  - right. exists (S k), x. split; [f_equal; lia | done].
Qed.

Lemma assign_id k : dhkey_wf k -> _np_dhkey_assign k = k.
Proof. intros Hk. apply dhkey_wf_inv in Hk as (a & b & c & d & e & f & g & h & -> & _). reflexivity. Qed.

Lemma take_cons_drop {A} k (x : A) l : take k l ++ x :: drop k l ≡ₚ x :: l.
Proof. rewrite <- Permutation_middle. by rewrite take_drop. Qed.

Section Hops.
Context (my : np_dhkey_t) (D : np_dhkey_t -> Prop).
(** The next hops in play are at different distances from this node. *)
Context (D_wf : forall p, D p -> dhkey_wf p).
Context (D_inj : forall p q, D p -> D q -> _np_dhkey_distance my p = _np_dhkey_distance my q -> p = q).

Definition hops_ok (T : Q) (l : list np_pheromone_details_s) : Prop :=
  NoDup (map peer_id l) /\ Forall (fun x => D (peer_id x) /\ (insert_ts x <= T)%Q) l /\
  (length l <= NP_PHEROMONES_MAX_NEXTHOP_KEYS)%nat.

Lemma remove_dhkey_ok T l p :
  hops_ok T l -> D p ->
  exists l' b, __np_remove_dhkey l p = (l', b) /\ hops_ok T l' /\ (p ∉ map peer_id l') /\
    (length l = length l' + (if b then 1 else 0))%nat.
Proof.
  intros (Hnd & Hall & Hlen) Hp. unfold __np_remove_dhkey.
  destruct (last_index_spec (fun tmp => _np_dhkey_equal (peer_id tmp) p) l 0 None) as [[-> Hf]|(k & x & -> & Hk & Hx)].
  - exists l, false. split; [done|]. split; [done|]. split; [|lia].
    intros Hin. apply list_elem_of_fmap in Hin as (x & -> & Hx). rewrite Forall_forall in Hf, Hall.
    specialize (Hf x Hx). rewrite (proj2 (_np_dhkey_equal_spec _ _ (D_wf _ Hp) (D_wf _ Hp)) eq_refl) in Hf. done.
  - exists (delete k l), true. pose proof (delete_Permutation l k x Hk) as Hperm.
    rewrite Hperm in Hall. apply Forall_cons in Hall as [[Hdx _] Hall].
    apply _np_dhkey_equal_spec in Hx; [|by apply D_wf..].
    rewrite (fmap_Permutation peer_id _ _ Hperm) in Hnd. simpl in Hnd. apply NoDup_cons in Hnd as [Hni Hnd].
    assert (length l = S (length (delete k l))) as Hl
      by (apply Permutation_length in Hperm; exact Hperm).
    split; [done|]. split; [|split; [by rewrite <- Hx | lia]]. split; [done|]. split; [done | lia].
Qed.

Lemma insert_walk_ok l p passed c :
  Forall (fun x => D (peer_id x)) l -> D p -> p ∉ map peer_id l -> c <> 0 ->
  snd (insert_walk my (_np_dhkey_distance my p) l passed c) <> 0.
Proof.
  intros Hall Hp. revert passed c. induction Hall as [|x l Hx Hall IH]; intros passed c Hni Hc; cbn [insert_walk]; [done|].
  cbn [map] in Hni. apply not_elem_of_cons in Hni as [Hne Hni].
  destruct (dhkey_cmp_cases (_np_dhkey_distance my p) (_np_dhkey_distance my (peer_id x)))
    as [[_ E]|[(Eq & _ & _)|[_ E]]]; [apply _np_dhkey_distance_wf..| | |].
  - rewrite E. by apply IH.
  - exfalso. apply Hne. by apply D_inj.
  - by rewrite E.
Qed.

Lemma insert_dhkey_ok now l p :
  Forall (fun x => D (peer_id x)) l -> D p -> p ∉ map peer_id l ->
  __np_insert_dhkey my now l p ≡ₚ Details p now :: l.
Proof.
  intros Hall Hp Hni. unfold __np_insert_dhkey. rewrite assign_id by (by apply D_wf).
  pose proof (insert_walk_ok l p 0 1 Hall Hp Hni ltac:(lia)) as Hne.
  destruct (insert_walk _ _ l 0 1) as [k c]. simpl in Hne.
  destruct (Z.ltb_spec c 0); [apply take_cons_drop|].
  by rewrite (proj2 (Z.ltb_lt 0 c)) by lia.
Qed.

(** Of a list with one newest element another one goes. *)
Lemma remove_oldest_ok l new l0 :
  l ≡ₚ new :: l0 -> Forall (fun x => (insert_ts x < insert_ts new)%Q) l0 -> l0 <> [] ->
  exists x l', fst (__np_remove_oldest_dhkey l) = l' /\ l ≡ₚ x :: l' /\ (insert_ts x < insert_ts new)%Q.
Proof.
  intros Hperm Hlt Hne. destruct l as [|first l1].
  { apply Permutation_nil_l in Hperm. discriminate. }
  set (l := first :: l1) in *. unfold __np_remove_oldest_dhkey. fold l.
  rewrite Forall_forall in Hlt.
  assert (forall x, x ∈ l -> x = new \/ (insert_ts x < insert_ts new)%Q) as Hcases.
  { intros x Hx. rewrite Hperm in Hx. apply elem_of_cons in Hx as [->|Hx]; [by left | right; by apply Hlt]. }
  assert (first ∈ l) as Hfirst by (by left).
  change (match l with [] => (l, false) | first0 :: _ => _ end) with
    (match last_index (fun tmp => negb (Qle_bool (insert_ts first) (insert_ts tmp))) 0 (Some 0%nat) l with
     | Some i => (delete i l, true) | None => (l, false) end).
  destruct (last_index_spec (fun tmp => negb (Qle_bool (insert_ts first) (insert_ts tmp))) l 0 (Some 0%nat))
    as [[-> Hall]|(k & x & -> & Hk & Hx)].
  - exists first, l1. split; [done|]. split; [done|]. destruct (Hcases first Hfirst) as [->|]; [|done].
    exfalso. destruct l0 as [|y l0]; [done|]. assert (y ∈ l) as Hy by (rewrite Hperm; right; by left).
    rewrite Forall_forall in Hall. specialize (Hall y Hy). apply negb_false_iff, Qle_bool_iff in Hall.
    specialize (Hlt y ltac:(by left)). lra.
  - exists x, (delete k l). split; [done|]. split; [by apply delete_Permutation|].
    apply negb_true_iff in Hx.
    assert (insert_ts x < insert_ts first)%Q as Hxf.
    { apply Qnot_le_lt. intros H. apply Qle_bool_iff in H. congruence. }
    destruct (Hcases first Hfirst) as [->|]; lra.
Qed.

Lemma remove_oldest_shorter T l :
  hops_ok T l -> l <> [] ->
  hops_ok T (fst (__np_remove_oldest_dhkey l)) /\
  length l = S (length (fst (__np_remove_oldest_dhkey l))).
Proof.
  intros (Hnd & Hall & Hlen) Hne.
  assert (exists x, l ≡ₚ x :: fst (__np_remove_oldest_dhkey l)) as [x Hperm].
  { destruct l as [|first l1]; [done|]. set (l := first :: l1) in *. unfold __np_remove_oldest_dhkey.
    destruct (last_index_spec (fun tmp => negb (Qle_bool (insert_ts first) (insert_ts tmp))) l 0 (Some 0%nat))
      as [[E _]|(k & x & E & Hk & _)]; unfold l at 2; cbn iota beta; fold l; rewrite E.
    - by exists first.
    - exists x. by apply delete_Permutation. }
  rewrite Hperm in Hall. apply Forall_cons in Hall as [_ Hall].
  rewrite (fmap_Permutation peer_id _ _ Hperm) in Hnd. simpl in Hnd. apply NoDup_cons in Hnd as [_ Hnd].
  assert (length l = S (length (fst (__np_remove_oldest_dhkey l)))) as Hl
    by (apply Permutation_length in Hperm; exact Hperm).
  split; [|done]. split; [done|]. split; [done | lia].
Qed.

Lemma hops_mono T T' l : (T <= T')%Q -> hops_ok T l -> hops_ok T' l.
Proof.
  intros HT (Hnd & Hall & Hlen). split; [done|]. split; [|done].
  eapply Forall_impl; [exact Hall|]. cbn beta. intros x [? ?]. split; [done | lra].
Qed.

(** A permuted list of next hops plus a new one. *)
Lemma hops_cons T T' now l l' p :
  (T < now)%Q -> (now <= T')%Q -> hops_ok T l -> D p -> p ∉ map peer_id l ->
  l' ≡ₚ Details p now :: l -> (length l' <= NP_PHEROMONES_MAX_NEXTHOP_KEYS)%nat -> hops_ok T' l'.
Proof.
  intros H1 H2 (Hnd & Hall & _) Hp Hni Hperm Hlen. split; [|split; [|done]].
  - rewrite (fmap_Permutation peer_id _ _ Hperm). simpl. by constructor.
  - rewrite Hperm. constructor; [done|]. eapply Forall_impl; [exact Hall|]. cbn beta.
    intros x [? ?]. split; [done | lra].
Qed.

(** Refreshing a next hop keeps a filter that counts its next hops in step with
    the list, and the next hop is in the list. *)
Lemma refresh_ok T T' now l p b scent n :
  hops_ok T l -> D p -> (T < now)%Q -> (now <= T')%Q ->
  filt b n -> filt scent 1 -> Z.of_nat (length l) <= n <= 63 ->
  exists l' b', refresh my now l p b scent = Ok (l', b') /\ hops_ok T' l' /\ p ∈ map peer_id l' /\
    filt b' (n + Z.of_nat (length l') - Z.of_nat (length l)) /\ (length l <= length l')%nat.
Proof.
  intros Hl Hp HT HT' Hb Hsc Hn. unfold refresh, NP_PHEROMONES_MAX_NEXTHOP_KEYS.
  destruct (remove_dhkey_ok T l p Hl Hp) as (l1 & rm & -> & Hl1 & Hni & Hlen).
  pose proof (insert_dhkey_ok now l1 p) as Hins. set (l2 := __np_insert_dhkey my now l1 p) in *.
  assert (l2 ≡ₚ Details p now :: l1) as Hp2.
  { apply Hins; [|done|done]. destruct Hl1 as (_ & Hall & _). eapply Forall_impl; [exact Hall|]. by intros x [? _]. }
  pose proof (Permutation_length Hp2) as Hlen2. simpl in Hlen2.
  assert (length l <= 19)%nat as Hl19 by (destruct Hl as (_ & _ & H); exact H).
  destruct rm.
  - destruct (filt_count_decrement b n Hb) as (b1 & -> & Hb1). cbn [mbind result_bind].
    rewrite (proj2 (Nat.ltb_ge 19 (length l2))) by lia. cbn [mbind result_bind].
    destruct (filt_union b1 _ scent 1 Hb1 Hsc ltac:(lia)) as (b2 & -> & Hb2). cbn [mbind result_bind].
    exists l2, b2. split; [done|]. split; [apply (hops_cons T T' now l1 l2 p); [done..|unfold NP_PHEROMONES_MAX_NEXTHOP_KEYS; lia]|].
    split; [rewrite (fmap_Permutation peer_id _ _ Hp2); by left|]. split; [|lia].
    replace (n + Z.of_nat (length l2) - Z.of_nat (length l)) with (Z.max 0 (n - 1) + 1) by lia. done.
  - cbn [mbind result_bind]. destruct (Nat.ltb_spec 19 (length l2)) as [Hbig|Hsmall].
    + destruct (filt_count_decrement b n Hb) as (b1 & -> & Hb1). cbn [mbind result_bind].
      destruct (filt_union b1 _ scent 1 Hb1 Hsc ltac:(lia)) as (b2 & -> & Hb2). cbn [mbind result_bind].
      destruct (remove_oldest_ok l2 (Details p now) l1 Hp2) as (x & l3 & -> & Hp3 & Hx).
      { destruct Hl1 as (_ & Hall & _). eapply Forall_impl; [exact Hall|]. cbn beta. intros x [_ ?]. simpl. lra. }
      { intros E. apply (f_equal length) in E. simpl in E. lia. }
      pose proof (Permutation_length Hp3) as Hlen3. simpl in Hlen3.
      assert (Details p now ∈ l3) as Hin.
      { assert (Details p now ∈ x :: l3) as Hin by (rewrite <- Hp3, Hp2; by left).
        apply elem_of_cons in Hin as [<-|]; [simpl in Hx; lra | done]. }
      exists l3, b2. split; [done|]. split; [|split; [|split; [|lia]]].
      * split; [|split; [|unfold NP_PHEROMONES_MAX_NEXTHOP_KEYS; lia]].
        -- assert (NoDup (map peer_id (x :: l3))) as Hnd.
           { rewrite <- (fmap_Permutation peer_id _ _ Hp3), (fmap_Permutation peer_id _ _ Hp2). simpl.
             constructor; [done | by destruct Hl1]. }
           simpl in Hnd. by apply NoDup_cons in Hnd as [_ ?].
        -- assert (Forall (fun y => D (peer_id y) /\ (insert_ts y <= T')%Q) (x :: l3)) as Hall.
           { rewrite <- Hp3, Hp2. constructor; [done|]. destruct Hl1 as (_ & Hall & _).
             eapply Forall_impl; [exact Hall|]. cbn beta. intros y [? ?]. split; [done | lra]. }
           by apply Forall_cons in Hall as [_ ?].
      * apply list_elem_of_fmap. by exists (Details p now).
      * replace (n + Z.of_nat (length l3) - Z.of_nat (length l)) with (Z.max 0 (n - 1) + 1) by lia. done.
    + cbn [mbind result_bind]. destruct (filt_union b n scent 1 Hb Hsc ltac:(lia)) as (b2 & -> & Hb2).
      cbn [mbind result_bind]. exists l2, b2. split; [done|].
      split; [apply (hops_cons T T' now l1 l2 p); [done..|unfold NP_PHEROMONES_MAX_NEXTHOP_KEYS; lia]|].
      split; [rewrite (fmap_Permutation peer_id _ _ Hp2); by left|]. split; [|lia].
      replace (n + Z.of_nat (length l2) - Z.of_nat (length l)) with (n + 1) by lia. done.
Qed.

(** ** Slots, entries, the table *)

Definition slot_ok (T : Q) (s : np_pheromone_t) : Prop :=
  exists b send recv, _subj_bloom s = Some b /\ _send_list s = Some send /\ _recv_list s = Some recv /\
    hops_ok T send /\ hops_ok T recv /\
    filt b (Z.of_nat (length send) + Z.of_nat (length recv)) /\ (1 <= length send + length recv)%nat.

Definition union_slot (n : Z) (s : np_pheromone_t) : Prop := exists b, _subj_bloom s = Some b /\ filt b n.

Definition slots_ok (T : Q) (count : nat) (slots : list np_pheromone_t) : Prop :=
  length slots = 32%nat /\
  forall i, (1 <= i < count)%nat -> exists s, slots !! i = Some s /\ slot_ok T s.

Definition entry_ok (T : Q) (e : np_pheromone_entry_t) : Prop :=
  1 <= _count e <= 32 /\ slots_ok T (Z.to_nat (_count e)) (_pheromone e) /\
  exists s0 n, _pheromone e !! 0%nat = Some s0 /\ union_slot n s0.

Definition table_ok (T : Q) (p : pheromones) : Prop :=
  length (ph_table p) = 257%nat /\ pcg_wf (ph_rng p) /\
  Forall (fun e => match e with Some e => entry_ok T e | None => True end) (ph_table p).

(** The next hops a slot has for the direction of a pheromone. *)
Definition hops_of (pos : Z) (s : np_pheromone_t) : list np_dhkey_t :=
  map peer_id (default [] (if 0 <? pos then _recv_list s else _send_list s)).

Lemma slot_mono T T' s : (T <= T')%Q -> slot_ok T s -> slot_ok T' s.
Proof.
  intros HT (b & send & recv & H1 & H2 & H3 & H4 & H5 & H6). exists b, send, recv.
  do 3 (split; [done|]). split; [by eapply hops_mono|]. split; [by eapply hops_mono | done].
Qed.

Lemma hops_length T l : hops_ok T l -> (length l <= 19)%nat.
Proof. by intros (_ & _ & H). Qed.
End Hops.
