(* ===== verification/PheromonesThms.v ===== *)
(** * The pheromone table: theorems

    Inhaling the scent of a target records its source and keeps the invariant of
    [PheromonesSpec]; what was inhaled can be snuffled; exhaling keeps the
    invariant except in a full partition. *)
From Stdlib Require Import ZArith Lia QArith Lqa.
From stdpp Require Import prelude.
From S2P Require Import Prelude Dhkey Rng BloomBase BloomNeuropil BloomNeuropilSpec BloomNeuropilThms.
From S2P Require Import Pheromones PheromonesSpec.

Local Open Scope Z_scope.

Lemma rd_insert_eq {A} (l : list A) i x :
  0 <= i < Z.of_nat (length l) -> rd (<[Z.to_nat i := x]> l) i = Ok x.
Proof. intros Hi. apply rd_lookup. split; [lia|]. apply list_lookup_insert_eq. lia. Qed.

Lemma rd_nat_lookup {A} (l : list A) i x : l !! i = Some x -> rd l (Z.of_nat i) = Ok x.
Proof. intros H. apply rd_lookup. split; [lia|]. by rewrite Nat2Z.id. Qed.

Section Inhale.
Context (my : np_dhkey_t) (D : np_dhkey_t -> Prop).
Context (D_wf : forall p, D p -> dhkey_wf p).
Context (D_inj : forall p q, D p -> D q -> _np_dhkey_distance my p = _np_dhkey_distance my q -> p = q).
Abbreviation slot_ok := (slot_ok D).
Abbreviation slots_ok := (slots_ok D).
Abbreviation entry_ok := (entry_ok D).
Abbreviation table_ok := (table_ok D).

(** The next hop of a pheromone. *)
Definition peer_of (ph : np_pheromone_t) : np_dhkey_t :=
  if 0 <? _pos ph then _receiver ph else _sender ph.

Definition is_peer (ph : np_pheromone_t) : bool := negb (_np_dhkey_equal (peer_of ph) dhkey_zero).

Lemma match_slot_ok T T' now ph s scent b :
  slot_ok T s -> _subj_bloom s = Some b -> _pos ph <> 0 -> D (peer_of ph) ->
  (T < now)%Q -> (now <= T')%Q -> filt scent 1 ->
  exists s', match_slot my now ph s scent b = Ok (s', is_peer ph) /\ slot_ok T' s' /\
    (is_peer ph = true -> peer_of ph ∈ hops_of (_pos ph) s').
Proof.
  intros (b1 & send & recv & Hb1 & Hsd & Hrv & Hs & Hr & Hf & Hn) Hb Hpos HD HT HT' Hsc.
  rewrite Hb in Hb1. injection Hb1 as <-. unfold match_slot, is_peer, peer_of in *.
  destruct (filt_intersect_age b _ scent 1 Hf Hsc) as [q1 ->]. cbn [mbind result_bind].
  destruct (filt_intersect_age scent 1 b _ Hsc Hf) as [q2 ->]. cbn [mbind result_bind].
  pose proof (hops_length D T send Hs). pose proof (hops_length D T recv Hr).
  assert ((T <= T')%Q) as HTT by lra.
  destruct (Z.ltb_spec 0 (_pos ph)) as [Hp|Hp].
  - rewrite (proj2 (Z.ltb_ge (_pos ph) 0)) by lia. cbn [andb].
    destruct (_np_dhkey_equal (_receiver ph) dhkey_zero); cbn [negb].
    { exists s. split; [done|]. split; [|done]. apply (slot_mono D T T'); [done|]. by exists b, send, recv. }
    rewrite Hrv. cbn [the mbind result_bind].
    destruct (refresh_ok my D D_wf D_inj T T' now recv (_receiver ph) b scent _ Hr HD HT HT' Hf Hsc ltac:(lia))
      as (l' & b' & -> & Hl' & Hin & Hb' & Hle). cbn [mbind result_bind].
    eexists. split; [done|]. split.
    + exists b', send, l'. cbn [set_bloom set_recv _subj_bloom _send_list _recv_list].
      do 3 (split; [done|]). split; [by apply (hops_mono D T T')|]. split; [done|]. split; [|lia].
      replace (Z.of_nat (length send) + Z.of_nat (length l')) with
        (Z.of_nat (length send) + Z.of_nat (length recv) + Z.of_nat (length l') - Z.of_nat (length recv)) by lia. done.
    + intros _. unfold hops_of. rewrite (proj2 (Z.ltb_lt _ _)) by done. done.
  - rewrite (proj2 (Z.ltb_lt (_pos ph) 0)) by lia. cbn [andb].
    destruct (_np_dhkey_equal (_sender ph) dhkey_zero); cbn [negb].
    { exists s. split; [done|]. split; [|done]. apply (slot_mono D T T'); [done|]. by exists b, send, recv. }
    rewrite Hsd. cbn [the mbind result_bind].
    destruct (refresh_ok my D D_wf D_inj T T' now send (_sender ph) b scent _ Hs HD HT HT' Hf Hsc ltac:(lia))
      as (l' & b' & -> & Hl' & Hin & Hb' & Hle). cbn [mbind result_bind].
    eexists. split; [done|]. split.
    + exists b', l', recv. cbn [set_bloom set_send _subj_bloom _send_list _recv_list].
      do 3 (split; [done|]). split; [done|]. split; [by apply (hops_mono D T T')|]. split; [|lia].
      replace (Z.of_nat (length l') + Z.of_nat (length recv)) with
        (Z.of_nat (length send) + Z.of_nat (length recv) + Z.of_nat (length l') - Z.of_nat (length send)) by lia. done.
    + intros _. unfold hops_of. rewrite (proj2 (Z.ltb_ge 0 (_pos ph))) by lia. done.
Qed.

(** The slots during the loop: those below [k] are done. *)
Definition inhaling (T T' : Q) (ph : np_pheromone_t) (count k : nat) (slots : list np_pheromone_t)
    (updated : bool) : Prop :=
  length slots = 32%nat /\ (exists s0, slots !! 0%nat = Some s0 /\ union_slot 0 s0) /\
  (forall j, (1 <= j < k)%nat -> exists s, slots !! j = Some s /\ slot_ok T' s) /\
  (forall j, (k <= j < count)%nat -> exists s, slots !! j = Some s /\ slot_ok T s) /\
  (updated = true -> exists j s, (1 <= j < k)%nat /\ slots !! j = Some s /\ peer_of ph ∈ hops_of (_pos ph) s).

Lemma inhale_slot_ok T T' now ph scent count k slots updated :
  (count <= 32)%nat -> (1 <= k < count)%nat -> _pos ph <> 0 -> D (peer_of ph) ->
  (T < now k)%Q -> (now k <= T')%Q -> filt scent 1 ->
  inhaling T T' ph count k slots updated ->
  exists slots' updated', inhale_slot my now ph scent k (slots, updated) = Ok (slots', updated') /\
    inhaling T T' ph count (S k) slots' updated'.
Proof.
  intros Hc Hk Hpos HD HT HT' Hsc (Hlen & (s0 & Hs0 & b0 & Hb0 & Hf0) & Hdone & Htodo & Hupd).
  unfold inhale_slot. destruct (Htodo k ltac:(lia)) as (s & Hs & Hok).
  rewrite (rd_nat_lookup _ _ _ Hs). cbn [mbind result_bind].
  pose proof Hok as (b & send & recv & Hb & _ & _ & Hh1 & Hh2 & Hf & _). rewrite Hb. cbn [the mbind result_bind].
  pose proof (hops_length D T send Hh1). pose proof (hops_length D T recv Hh2).
  destruct (filt_intersect_test b _ scent 1 Hf Hsc) as [m ->]. cbn [mbind result_bind].
  assert (exists s' u, (if m then match_slot my (now k) ph s scent b else Ok (s, false)) = Ok (s', u) /\
    slot_ok T' s' /\ (u = true -> peer_of ph ∈ hops_of (_pos ph) s')) as (s' & u & -> & Hok' & Hin).
  { destruct m.
    - destruct (match_slot_ok T T' (now k) ph s scent b) as (s' & -> & ? & ?); [done..|]. by exists s', (is_peer ph).
    - exists s, false. split; [done|]. split; [|done]. apply (slot_mono D T T'); [lra | done]. }
  cbn [mbind result_bind]. rewrite wr_ok by lia. cbn [mbind result_bind]. rewrite Nat2Z.id.
  assert (<[k := s']> slots !! 0%nat = Some s0) as E0 by (rewrite list_lookup_insert_ne by lia; done).
  pose proof (rd_nat_lookup _ _ _ E0) as Hrd0. change (Z.of_nat 0) with 0 in Hrd0. rewrite Hrd0.
  cbn [mbind result_bind]. rewrite Hb0. cbn [the mbind result_bind].
  destruct Hok' as (b' & send' & recv' & Hb' & Hsd' & Hrv' & Hh1' & Hh2' & Hf' & Hn'). rewrite Hb'.
  cbn [the mbind result_bind].
  pose proof (hops_length D T' send' Hh1'). pose proof (hops_length D T' recv' Hh2').
  rewrite (filt_free _ _ Hf0), (filt_free _ _ Hf'). rewrite (proj2 (Z.leb_le _ _)) by lia.
  cbn [c_assert mbind result_bind].
  destruct (filt_union b0 0 b' _ Hf0 Hf' ltac:(lia)) as (b0' & -> & Hf0'). cbn [mbind result_bind].
  rewrite (wr_ok _ 0) by (rewrite length_insert; lia). cbn [mbind result_bind].
  eexists _, _. split; [done|]. change (Z.to_nat 0) with 0%nat.
  split; [by rewrite !length_insert|]. split; [|split; [|split]].
  - eexists. split; [apply list_lookup_insert_eq; rewrite length_insert; lia|].
    eexists. split; [done|]. by eapply filt_reset.
  - intros j Hj. rewrite list_lookup_insert_ne by lia. destruct (decide (j = k)) as [->|Hne].
    + rewrite list_lookup_insert_eq by lia. exists s'. split; [done|]. by exists b', send', recv'.
    + rewrite list_lookup_insert_ne by lia. apply Hdone. lia.
  - intros j Hj. rewrite !list_lookup_insert_ne by lia. apply Htodo. lia.
  - intros Hu. apply orb_true_iff in Hu as [Hu|Hu].
    + destruct (Hupd Hu) as (j & sj & Hj & Hsj & Hinj). exists j, sj. split; [lia|]. split; [|done].
      by rewrite !list_lookup_insert_ne by lia.
    + exists k, s'. split; [lia|]. split; [|by apply Hin].
      by rewrite list_lookup_insert_ne, list_lookup_insert_eq by lia.
Qed.

Lemma new_slot_ok T' now ph old scent index :
  _pos ph <> 0 -> D (peer_of ph) -> (now <= T')%Q -> filt scent 1 ->
  exists s, new_slot my now ph old scent index = Ok s /\ slot_ok T' s /\ hops_of (_pos ph) s = [peer_of ph].
Proof.
  intros Hpos HD HT Hsc. unfold new_slot. rewrite (filt_free _ _ filt_create), (filt_free _ _ Hsc).
  destruct (filt_union _ 0 scent 1 filt_create Hsc ltac:(lia)) as (b & Hu & Hb).
  assert (hops_ok D T' [Details (peer_of ph) now]) as H1.
  { split; [apply NoDup_singleton|]. split; [by repeat constructor | unfold NP_PHEROMONES_MAX_NEXTHOP_KEYS; simpl; lia]. }
  assert (hops_ok D T' []) as H0.
  { split; [constructor|]. split; [constructor | unfold NP_PHEROMONES_MAX_NEXTHOP_KEYS; simpl; lia]. }
  unfold peer_of in *. destruct (Z.ltb_spec 0 (_pos ph)) as [Hp|Hp].
  - cbn [mbind result_bind]. change (64 <=? 64 - 0 + (64 - 1)) with true. cbn [c_assert mbind result_bind].
    rewrite Hu. cbn [mbind result_bind]. eexists. split; [done|].
    unfold __np_insert_dhkey. simpl. rewrite assign_id by (by apply D_wf). split.
    + exists b, [], [Details (_receiver ph) now]. do 3 (split; [done|]). split; [done|]. split; [done|]. split; [done | simpl; lia].
    + unfold hops_of. rewrite (proj2 (Z.ltb_lt _ _)) by done. done.
  - rewrite (proj2 (Z.ltb_lt (_pos ph) 0)) by lia.
    cbn [mbind result_bind]. change (64 <=? 64 - 0 + (64 - 1)) with true. cbn [c_assert mbind result_bind].
    rewrite Hu. cbn [mbind result_bind]. eexists. split; [done|].
    unfold __np_insert_dhkey. simpl. rewrite assign_id by (by apply D_wf). split.
    + exists b, [Details (_sender ph) now], []. do 3 (split; [done|]). split; [done|]. split; [done|]. split; [done | simpl; lia].
    + unfold hops_of. rewrite (proj2 (Z.ltb_ge _ _)) by done. done.
Qed.

(** The peer is a next hop of some filter of the entry. *)
Definition recorded (ph : np_pheromone_t) (e : np_pheromone_entry_t) : Prop :=
  exists j s, (1 <= j < Z.to_nat (_count e))%nat /\ _pheromone e !! j = Some s /\
    peer_of ph ∈ hops_of (_pos ph) s.

Lemma inhale_entry_ok T T' now ph scent index e :
  entry_ok T e -> _pos ph <> 0 -> D (peer_of ph) ->
  (forall i, (T < now i)%Q /\ (now i <= T')%Q) -> filt scent 1 ->
  exists e' ret, inhale_entry my now ph scent index e = Ok (e', ret) /\ entry_ok T' e' /\
    (_count e < 32 -> ret = Some true /\ recorded ph e') /\ (_count e = 32 -> ret = None /\ _count e' = 32).
Proof.
  intros (Hc & [Hlen Hslots] & s0 & n0 & Hs0 & b0 & Hb0 & Hf0) Hpos HD Hnow Hsc. unfold inhale_entry.
  pose proof (rd_nat_lookup _ _ _ Hs0) as Hrd0. change (Z.of_nat 0) with 0 in Hrd0. rewrite Hrd0.
  cbn [mbind result_bind]. rewrite Hb0. cbn [the mbind result_bind].
  destruct (filt_clear b0 n0 Hf0) as (b1 & -> & Hf1). cbn [mbind result_bind].
  rewrite wr_ok by lia. cbn [mbind result_bind]. change (Z.to_nat 0) with 0%nat.
  set (slots1 := <[0%nat := set_bloom s0 b1]> (_pheromone e)). set (count := Z.to_nat (_count e)) in *.
  destruct (for_range_inv (fun k '(slots, u) => inhaling T T' ph count k slots u) 1 (count - 1)
    (inhale_slot my now ph scent) (slots1, false)) as ([slots2 u] & Hrun & Hinv).
  { unfold slots1. split; [by rewrite length_insert|]. split; [|split; [|split; [|done]]].
    - eexists. split; [apply list_lookup_insert_eq; lia|]. by exists b1.
    - intros j Hj. lia.
    - intros j Hj. rewrite list_lookup_insert_ne by lia. apply Hslots. lia. }
  { intros k [slots u] Hk Hinv. destruct (Hnow k) as [HT HT'].
    destruct (inhale_slot_ok T T' now ph scent count k slots u) as (slots' & u' & E & Hinv');
      [lia | lia | done | done | done | done | done | done |]. exists (slots', u'). done. }
  rewrite Hrun. cbn [mbind result_bind]. replace (Z.max 1 (_count e)) with (_count e) by lia.
  replace (1 + (count - 1))%nat with count in Hinv by lia.
  destruct Hinv as (Hlen2 & (t0 & Ht0 & c0 & Hc0 & Hg0) & Hdone & _ & Hupd).
  rewrite (proj2 (Z.ltb_lt 0 (_count e))) by lia. cbn [andb].
  destruct (Z.ltb_spec (_count e) 32) as [Hlt|Hge]; cbn [negb]; cycle 1.
  { eexists _, _. split; [done|]. split; [|split; [lia | done]].
    split; [done|]. split; [split; [done|]; intros i Hi; apply Hdone; exact Hi|].
    exists t0, 0. split; [done|]. by exists c0. }
  rewrite Z.eqb_refl. cbn [andb]. destruct u; cbn [negb].
  { eexists _, _. split; [done|]. split; [|split; [|lia]].
    - split; [done|]. split; [split; [done|]; intros i Hi; apply Hdone; exact Hi|].
      exists t0, 0. split; [done|]. by exists c0.
    - intros _. split; [done|]. destruct (Hupd eq_refl) as (j & s & Hj & Hs & Hin). by exists j, s. }
  pose proof (rd_nat_lookup _ _ _ Ht0) as Hrdt. change (Z.of_nat 0) with 0 in Hrdt. rewrite Hrdt.
  cbn [mbind result_bind]. rewrite Hc0. cbn [the mbind result_bind].
  rewrite (filt_free _ _ Hg0), (filt_free _ _ Hsc). change (64 <=? 64 - 0 + (64 - 1)) with true.
  cbn [c_assert mbind result_bind].
  destruct (filt_union c0 0 scent 1 Hg0 Hsc ltac:(lia)) as (c1 & -> & Hg1). cbn [mbind result_bind].
  rewrite (wr_ok _ 0) by lia. cbn [mbind result_bind]. change (Z.to_nat 0) with 0%nat.
  set (slots3 := <[0%nat := set_bloom t0 c1]> slots2).
  assert (length slots3 = 32%nat) as Hlen3 by (unfold slots3; by rewrite length_insert).
  destruct (rd_ok slots3 (_count e) ltac:(lia)) as (old & -> & _). cbn [mbind result_bind].
  destruct (Hnow (Z.to_nat (_count e))) as [HT HT'].
  destruct (new_slot_ok T' (now (Z.to_nat (_count e))) ph old scent index Hpos HD HT' Hsc) as (s & -> & Hok & Hh).
  cbn [mbind result_bind]. rewrite wr_ok by lia. cbn [mbind result_bind].
  rewrite u16_id by (unfold in_u; lia). eexists _, _. split; [done|]. fold count.
  assert (<[count := s]> slots3 !! count = Some s) as Elast by (apply list_lookup_insert_eq; lia).
  split; [|split; [|lia]].
  - split; [cbn [_count]; lia|]. split.
    + split; [cbn [_pheromone]; by rewrite length_insert|]. cbn [_count _pheromone]. intros i Hi.
      destruct (decide (i = count)) as [->|Hne]; [by exists s|].
      rewrite list_lookup_insert_ne by lia. unfold slots3. rewrite list_lookup_insert_ne by lia.
      apply Hdone. lia.
    + exists (set_bloom t0 c1), 1. split; [|by exists c1]. cbn [_pheromone].
      rewrite list_lookup_insert_ne by lia. unfold slots3. apply list_lookup_insert_eq. lia.
  - intros _. split; [done|]. exists count, s. cbn [_count _pheromone].
    split; [lia|]. split; [done|]. rewrite Hh. by left.
Qed.

(** ** The table *)

Definition partition_of (target : np_dhkey_t) : Z := word target 0 mod 257.

Lemma calc_position target direction :
  _np_pheromone_calc_table_position target direction =
    match direction with
    | np_pheromone_direction_sender => partition_of target + 1
    | np_pheromone_direction_receiver => - partition_of target - 1
    end.
Proof.
  unfold _np_pheromone_calc_table_position, partition_of.
  pose proof (Z.mod_pos_bound (word target 0) 257 ltac:(lia)) as Hr.
  set (r := word target 0 mod 257) in *. unfold s16.
  assert (forall x, u16 (u32 x) = u16 x) as Hcut.
  { intros x. unfold u16, u32. apply Z.mod_mod_divide. exists (2 ^ 16). reflexivity. }
  destruct direction; rewrite Hcut.
  - rewrite u16_id by (unfold in_u; lia). by rewrite (proj2 (Z.ltb_lt _ _)) by lia.
  - assert (u16 (u32 (- r) - 1) = 65535 - r) as ->.
    { transitivity (u16 (- r - 1)).
      - unfold u16 at 1. rewrite Zminus_mod. fold (u16 (u32 (- r))). rewrite Hcut. unfold u16.
        by rewrite <- Zminus_mod.
      - unfold u16. symmetry. apply (Zmod_unique _ _ (-1)); lia. }
    by rewrite (proj2 (Z.ltb_ge _ _)) by lia; lia.
Qed.

(** The call for one target, down to its partition. *)
Definition entry_at (p : pheromones) (i : Z) : np_pheromone_entry_t :=
  match ph_table p !! Z.to_nat i with Some (Some e) => e | _ => new_entry end.

Definition stored (p : pheromones) (i : Z) (e : np_pheromone_entry_t) (locks : Z) : pheromones :=
  Pheromones (<[Z.to_nat i := Some e]> (ph_table p)) (ph_rng p) (lock_depth p + locks).

Lemma partition_range target : 0 <= partition_of target <= 256.
Proof. unfold partition_of. pose proof (Z.mod_pos_bound (word target 0) 257 ltac:(lia)). lia. Qed.

Lemma inhale_target_unfold seeds now p target src fs fr scent :
  _np_neuropil_bloom_add _np_neuropil_bloom_create target = Ok scent ->
  fs || fr = true -> length (ph_table p) = 257%nat ->
  let i := partition_of target in
  exists ph, _pos ph = (if fr then - i - 1 else i + 1) /\ peer_of ph = src /\ _subject ph = None /\
    _np_pheromone_inhale_target seeds my now (Some p) target src fs fr =
      ('(e, ret) ← inhale_entry my now ph scent i (entry_at p i);
       Ok (match ret with Some r => (stored p i e 0, r) | None => (stored p i e 1, false) end)).
Proof.
  intros Hsc Hfl Hlen i. pose proof (partition_range target) as Hi. fold i in Hi.
  unfold _np_pheromone_inhale_target. rewrite Hsc. cbn [mbind result_bind module_or_init].
  set (pos := if fr then _np_pheromone_calc_table_position _ _ else _).
  assert (pos = if fr then - i - 1 else i + 1) as Epos.
  { unfold pos. destruct fr; [by rewrite calc_position|]. destruct fs; [by rewrite calc_position | done]. }
  clearbody pos. set (ph := Pheromone _ _ _ _ _ _ _). exists ph. split; [done|]. split; [|split; [done|]].
  { unfold peer_of, ph. cbn [_pos _receiver _sender]. rewrite Epos. destruct fr.
    - by rewrite (proj2 (Z.ltb_ge _ _)) by lia.
    - rewrite (proj2 (Z.ltb_lt _ _)) by lia. by destruct fs. }
  unfold _np_pheromone_inhale, scent_of.
  change (_subject ph) with (@None np_dhkey_t). change (_subj_bloom ph) with (Some scent).
  change (_pos ph) with pos. cbn [mbind result_bind module_or_init].
  rewrite (proj2 (Z.eqb_neq pos 0)) by (rewrite Epos; destruct fr; lia). cbn [negb c_assert mbind result_bind].
  assert ((if 0 <? pos then u16 (pos - 1) else u16 (- pos - 1)) = i) as ->.
  { rewrite Epos. destruct fr.
    - rewrite (proj2 (Z.ltb_ge 0 _)) by lia. rewrite u16_id by (unfold in_u; lia). lia.
    - rewrite (proj2 (Z.ltb_lt 0 _)) by lia. rewrite u16_id by (unfold in_u; lia). lia. }
  rewrite (proj2 (Z.ltb_lt i 257)) by lia. cbn [c_assert mbind result_bind].
  destruct (rd_ok (ph_table p) i ltac:(lia)) as (entry & -> & Hlk). cbn [mbind result_bind].
  unfold entry_at. rewrite Hlk.
  destruct (inhale_entry my now ph scent i _) as [[e ret]|]; [|done]. cbn [mbind result_bind].
  rewrite wr_ok by lia. cbn [mbind result_bind]. unfold stored.
  destruct ret as [r|]; cbn [mbind result_bind]; rewrite Hfl; [|done]. by rewrite Z.add_0_r.
Qed.

Lemma new_entry_ok T : entry_ok T new_entry.
Proof.
  split; [simpl; lia|]. split.
  - split; [done|]. intros i Hi. simpl in Hi. lia.
  - eexists _, 0. split; [done|]. eexists. split; [done|]. apply filt_create.
Qed.

Lemma entry_mono T T' e : (T <= T')%Q -> entry_ok T e -> entry_ok T' e.
Proof.
  intros HT (Hc & [Hl Hs] & H0). split; [done|]. split; [|done]. split; [done|].
  intros i Hi. destruct (Hs i Hi) as (s & ? & ?). exists s. split; [done|]. by apply (slot_mono D T T').
Qed.

Definition full_partition (p : pheromones) (i : Z) : bool :=
  match ph_table p !! Z.to_nat i with Some (Some e) => _count e =? 32 | _ => false end.

Lemma table_insert T T' p (i : nat) e :
  (T <= T')%Q -> table_ok T p -> entry_ok T' e ->
  Forall (fun e => match e with Some e => entry_ok T' e | None => True end)
    (<[i := Some e]> (ph_table p)).
Proof.
  intros HT (_ & _ & Hall) He. apply Forall_insert; [|done].
  eapply Forall_impl; [exact Hall|]. intros [x|]; [|done]. by apply entry_mono.
Qed.

(** C10: inhaling.  In a table whose filters count their next hops, inhaling the
    scent of any target from a source always returns and keeps the table in
    that shape, provided the next hops are at different distances from this
    node and the clock has moved on.  Unless the partition of the target holds
    31 filters already, the result is true and the source is a next hop of one
    of its filters, in the list of the direction asked for; otherwise the result
    is false and the module lock is left locked.  Without a direction it is an
    assertion failure. *)
Theorem pheromone_inhale_spec seeds now p target src fs fr T T' :
  table_ok T p -> D src -> (forall i, (T < now i)%Q /\ (now i <= T')%Q) ->
  let i := partition_of target in
  _np_pheromone_inhale_target seeds my now (Some p) target src false false = Err Assert_failed /\
  (fs || fr = true ->
   exists p', _np_pheromone_inhale_target seeds my now (Some p) target src fs fr =
                Ok (p', negb (full_partition p i)) /\
     table_ok T' p' /\
     lock_depth p' = lock_depth p + (if full_partition p i then 1 else 0) /\
     (full_partition p i = false ->
      exists e j s, ph_table p' !! Z.to_nat i = Some (Some e) /\ (1 <= j < Z.to_nat (_count e))%nat /\
        _pheromone e !! j = Some s /\ src ∈ hops_of (if fr then -1 else 1) s)).
Proof.
  intros Htab Hsrc Hnow i. destruct (scent_ok target) as (scent & cs & Hsc & _ & _ & Hf). split.
  { unfold _np_pheromone_inhale_target. rewrite Hsc. done. }
  intros Hfl. pose proof Htab as (Hlen & Hrng & Hall). pose proof (partition_range target) as Hi.
  destruct (inhale_target_unfold seeds now p target src fs fr scent Hsc Hfl Hlen)
    as (ph & Hpos & Hpeer & _ & ->). fold i in Hi, Hpos |- *. set (e := entry_at p i).
  assert (entry_ok T e) as He.
  { unfold e, entry_at. destruct (ph_table p !! Z.to_nat i) as [[x|]|] eqn:E; try apply new_entry_ok.
    by apply (Forall_lookup_1 _ _ _ _ Hall E). }
  assert (full_partition p i = (_count e =? 32)) as ->.
  { unfold full_partition, e, entry_at. by destruct (ph_table p !! Z.to_nat i) as [[x|]|]. }
  destruct (inhale_entry_ok T T' now ph scent i e He) as (e' & ret & -> & He' & Hnot & Hful);
    [rewrite Hpos; destruct fr; lia | by rewrite Hpeer | done | done |]. cbn [mbind result_bind].
  assert ((T <= T')%Q) as HTT by (destruct (Hnow 0%nat); lra).
  pose proof (table_insert T T' p (Z.to_nat i) e' HTT Htab He') as Hins.
  destruct (Z.eqb_spec (_count e) 32) as [Hc|Hc].
  - destruct (Hful Hc) as [-> _]. eexists. split; [done|].
    split; [split; [cbn [ph_table stored]; by rewrite length_insert|done]|]. done.
  - destruct Hnot as [-> (j & s & Hj & Hs & Hin)]; [destruct He as (? & _); lia|].
    eexists. split; [done|]. split; [split; [cbn [ph_table stored]; by rewrite length_insert|done]|].
    split; [done|]. intros _. exists e', j, s. cbn [ph_table stored].
    rewrite list_lookup_insert_eq by lia. rewrite Hpeer in Hin. unfold hops_of in *. rewrite Hpos in Hin.
    destruct fr; [rewrite (proj2 (Z.ltb_ge 0 _)) in Hin by lia | rewrite (proj2 (Z.ltb_lt 0 _)) in Hin by lia]; done.
Qed.
End Inhale.

(** ** What is inhaled can be snuffled *)

Lemma union_empty_cells cs : cells_wf cs -> zip_with union_cell (replicate NCELLS (0, 0)) cs = cs.
Proof.
  intros [Hl Hc]. rewrite <- Hl. clear Hl. induction Hc as [|[a c] cs [Ha Hcc] Hc IH]; [done|].
  cbn [length replicate zip_with]. rewrite IH. f_equal. unfold union_cell. cbn [fst snd] in *.
  unfold in_u in *. rewrite !Z.add_0_l, (u8_id c), u16_id by (unfold in_u; lia). f_equal.
  unfold UINT8_MAX. destruct (Z.leb_spec 255 a); [lia|]. apply u8_id. unfold in_u. lia.
Qed.

Lemma covered_self t : covered [t] t = true.
Proof.
  unfold covered. apply forallb_elem_of. intros j Hj. unfold hit_by. simpl.
  by rewrite bool_decide_true.
Qed.

(** The entry that a first scent makes. *)
Definition first_entry (b : np_bloom_t) (s : np_pheromone_t) : np_pheromone_entry_t :=
  Entry (set_bloom pheromone0 b :: s :: replicate 30 pheromone0) 2.

Lemma inhale_first my now ph cs index s :
  cells_wf cs -> new_slot my (now 1%nat) ph pheromone0 (mk rng0 cs 63) index = Ok s ->
  inhale_entry my now ph (mk rng0 cs 63) index new_entry = Ok (first_entry (mk rng0 cs 63) s, Some true).
Proof.
  intros Hwf Hs. unfold inhale_entry, new_entry. cbn [_pheromone _count].
  change (rd (set_bloom pheromone0 _np_neuropil_bloom_create :: replicate 31 pheromone0) 0)
    with (Ok (set_bloom pheromone0 _np_neuropil_bloom_create)).
  cbn [mbind result_bind set_bloom _subj_bloom the]. rewrite create_mk, neuropil_clear_mk by done.
  cbn [mbind result_bind].
  set (slots := set_bloom pheromone0 (mk rng0 (replicate NCELLS (0, 0)) 64) :: replicate 31 pheromone0).
  match goal with |- context [wr ?l 0 ?v] => change (wr l 0 v) with (Ok slots) end.
  cbn [mbind result_bind]. change (for_range 1 (Z.to_nat 1 - 1) _ (slots, false)) with (Ok (slots, false)).
  cbn [mbind result_bind]. change (Z.max 1 1) with 1. cbn [negb andb Z.ltb Z.eqb Z.compare Pos.compare Pos.eqb].
  change (rd slots 0) with (Ok (set_bloom pheromone0 (mk rng0 (replicate NCELLS (0, 0)) 64))).
  cbn [mbind result_bind set_bloom _subj_bloom the]. change (64 <=? _ + _) with true.
  cbn [c_assert mbind result_bind].
  rewrite neuropil_union_mk by (done || apply Hwf || lia). change (64 <=? 64 + 63) with true.
  cbn [mbind result_bind]. rewrite union_empty_cells by done. change (64 + 63 - 64) with 63.
  set (slots2 := set_bloom pheromone0 (mk rng0 cs 63) :: replicate 31 pheromone0).
  match goal with |- context [wr slots 0 ?v] => change (wr slots 0 v) with (Ok slots2) end.
  cbn [mbind result_bind]. change (rd slots2 1) with (Ok pheromone0). cbn [mbind result_bind].
  change (Z.to_nat 1) with 1%nat. rewrite Hs. cbn [mbind result_bind]. reflexivity.
Qed.

(** The cells of a scent are determined. *)
Lemma scent_cells target cs :
  _np_neuropil_bloom_add _np_neuropil_bloom_create target = Ok (mk rng0 cs 63) -> cells_wf cs.
Proof.
  intros Hsc. destruct (neuropil_build_ok [target] ltac:(simpl; lia)) as (cs' & Hrun & _ & Hwf & _).
  unfold filter_add_all in Hrun. cbn [foldM neuropil_ops add_cb] in Hrun. rewrite Hsc in Hrun.
  cbn [mbind result_bind] in Hrun. injection Hrun as Hrun. by apply uncells_inj in Hrun as ->.
Qed.

Lemma first_slot my now ph cs i (fr : bool) src :
  cells_wf cs -> 0 <= i <= 256 -> _pos ph = (if fr then - i - 1 else i + 1) -> peer_of ph = src ->
  _subject ph = None -> dhkey_wf src ->
  let hops := [Details src now] in
  new_slot my now ph pheromone0 (mk rng0 cs 63) i =
    Ok (Pheromone None (Some (mk rng0 cs 63)) (s16 i) dhkey_zero dhkey_zero
          (Some (if fr then hops else [])) (Some (if fr then [] else hops))).
Proof.
  intros Hwf Hi Hpos Hpeer Hsub Hsrc hops. unfold new_slot, peer_of in *. rewrite Hpos in *.
  change (64 <=? _ + _) with true.
  rewrite create_mk, neuropil_union_mk by (done || apply Hwf || lia). change (64 <=? 64 + 63) with true.
  rewrite union_empty_cells, Hsub by done. change (64 + 63 - 64) with 63. destruct fr.
  - rewrite (proj2 (Z.ltb_ge 0 _)) in Hpeer |- * by lia. rewrite (proj2 (Z.ltb_lt _ 0)) by lia.
    cbn [c_assert mbind result_bind]. unfold __np_insert_dhkey. cbn. by rewrite Hpeer, assign_id.
  - rewrite (proj2 (Z.ltb_lt 0 _)) in Hpeer |- * by lia.
    cbn [c_assert mbind result_bind]. unfold __np_insert_dhkey. cbn. by rewrite Hpeer, assign_id.
Qed.

(** Snuffling in a partition with one filter. *)
Lemma snuffle_first p i target cs s l prob fr hops :
  i = partition_of target -> length (ph_table p) = 257%nat -> holds cs [target] 128 ->
  _subj_bloom s = Some (mk rng0 cs 63) -> slot_hops fr (negb fr) s = Ok hops ->
  _np_pheromone_snuffle (stored p i (first_entry (mk rng0 cs 63) s) 0) l target prob fr (negb fr) =
    Ok (if Qle_bool prob (1 # 2) then l ++ hops else l, age_ratio 128).
Proof.
  intros -> Hlen Hh Hb Hhops. pose proof (partition_range target) as Hi. set (i := partition_of target) in *.
  unfold _np_pheromone_snuffle. fold (partition_of target). fold i. rewrite u16_id by (unfold in_u; lia).
  rewrite (proj2 (Z.ltb_lt i 257)) by lia. cbn [c_assert mbind result_bind ph_table stored].
  rewrite rd_insert_eq by lia. cbn [mbind result_bind]. unfold first_entry. cbn [_pheromone _count].
  match goal with |- context [rd ?l 0] => change (rd l 0) with (Ok (set_bloom pheromone0 (mk rng0 cs 63))) end.
  cbn [mbind result_bind set_bloom _subj_bloom the].
  assert (_np_neuropil_bloom_check (mk rng0 cs 63) target = Ok true) as Hck.
  { rewrite (holds_check rng0 cs 63 [target] 128 target Hh) by lia. by rewrite covered_self. }
  rewrite Hck. cbn [mbind result_bind]. cbn iota.
  rewrite (holds_heuristic rng0 cs 63 [target] 128 target Hh) by (apply covered_self || lia).
  cbn [mbind result_bind].
  assert (Qle_bool prob (age_ratio 128) = Qle_bool prob (1 # 2)) as ->.
  { apply eq_bool_prop_intro. rewrite !Is_true_true, !Qle_bool_iff. unfold age_ratio, Qle. simpl. lia. }
  destruct (Qle_bool prob (1 # 2)); [|done].
  change (Z.to_nat 2 - 1)%nat with 1%nat. cbn [for_range]. unfold snuffle_slot.
  match goal with |- context [rd ?l (Z.of_nat 1)] => change (rd l (Z.of_nat 1)) with (Ok s) end.
  cbn [mbind result_bind]. rewrite Hb. cbn [the mbind result_bind]. rewrite Hck. cbn [mbind result_bind].
  cbn iota. rewrite Hhops. done.
Qed.

(** A scent can be followed.  After inhaling a target from a source into a
    partition that was empty, snuffling for the target in the same direction
    finds exactly that source with probability one half, for every required
    probability up to it; a higher requirement finds nothing and reports one
    half. *)
Theorem pheromone_roundtrip seeds my now p target src fr l prob :
  dhkey_wf src -> length (ph_table p) = 257%nat ->
  ph_table p !! Z.to_nat (partition_of target) = Some None ->
  exists p', _np_pheromone_inhale_target seeds my now (Some p) target src (negb fr) fr = Ok (p', true) /\
    _np_pheromone_snuffle p' l target prob fr (negb fr) =
      Ok (if Qle_bool prob (1 # 2) then l ++ [src] else l, age_ratio 128).
Proof.
  intros Hsrc Hlen Hempty. destruct (scent_ok target) as (scent & cs & Hsc & -> & Hh & _).
  pose proof (scent_cells target cs Hsc) as Hwf. pose proof (partition_range target) as Hi.
  destruct (inhale_target_unfold my seeds now p target src (negb fr) fr _ Hsc ltac:(by destruct fr) Hlen)
    as (ph & Hpos & Hpeer & Hsub & ->). set (i := partition_of target) in *.
  unfold entry_at. rewrite Hempty.
  pose proof (first_slot my (now 1%nat) ph cs i fr src Hwf Hi Hpos Hpeer Hsub Hsrc) as Hnew.
  rewrite (inhale_first my now ph cs i _ Hwf Hnew). cbn [mbind result_bind].
  eexists. split; [done|]. apply snuffle_first; [done..|]. by destruct fr.
Qed.

(** ** Exhaling *)

Section Exhale.
Context (D : np_dhkey_t -> Prop).
Abbreviation slot_ok := (slot_ok D).
Abbreviation entry_ok := (entry_ok D).
Abbreviation table_ok := (table_ok D).

(** Closing the gap. *)
Lemma close_gap_ok (slots : list np_pheromone_t) i n :
  (i + n < length slots)%nat ->
  exists slots', for_range i n (fun j slots => v ← rd slots (Z.of_nat j + 1); wr slots (Z.of_nat j) v) slots = Ok slots' /\
    length slots' = length slots /\
    (forall k, (k < i)%nat -> slots' !! k = slots !! k) /\
    (forall k, (i <= k < i + n)%nat -> slots' !! k = slots !! S k).
Proof.
  intros Hlen.
  destruct (for_range_inv (fun j sl => length sl = length slots /\ (forall k, (k < i)%nat -> sl !! k = slots !! k) /\
      (forall k, (i <= k < j)%nat -> sl !! k = slots !! S k) /\ (forall k, (j <= k)%nat -> sl !! k = slots !! k)) i n
    (fun j slots => v ← rd slots (Z.of_nat j + 1); wr slots (Z.of_nat j) v) slots) as (sl & Hrun & H1 & H2 & H3 & _).
  - split; [done|]. split; [done|]. split; [intros k Hk; lia | done].
  - intros j sl Hj (L & A & B & C). destruct (rd_ok sl (Z.of_nat j + 1) ltac:(lia)) as (v & -> & Hv).
    cbn [mbind result_bind]. rewrite wr_ok by lia. rewrite Nat2Z.id. eexists. split; [done|].
    split; [by rewrite length_insert|]. split; [|split].
    + intros k Hk. rewrite list_lookup_insert_ne by lia. by apply A.
    + intros k Hk. destruct (decide (k = j)) as [->|Hne].
      * rewrite list_lookup_insert_eq by lia. rewrite <- Hv, C by lia. f_equal. lia.
      * rewrite list_lookup_insert_ne by lia. apply B. lia.
    + intros k Hk. rewrite list_lookup_insert_ne by lia. apply C. lia.
  - exists sl. split; [done|]. split; [done|]. split; [done|]. intros k Hk. apply H3. lia.
Qed.

Lemma remove_slot_ok T i e :
  entry_ok T e -> (1 <= i < Z.to_nat (_count e))%nat -> _count e < 32 ->
  exists e', remove_slot (Z.of_nat i) e = Ok e' /\ entry_ok T e' /\ _count e' = _count e - 1 /\
    _pheromone e' !! 0%nat = _pheromone e !! 0%nat.
Proof.
  intros (Hc & [Hlen Hs] & s0 & n & H0 & Hu) Hi Hlt. unfold remove_slot. rewrite Nat2Z.id.
  destruct (close_gap_ok (_pheromone e) i (Z.to_nat (_count e) - i) ltac:(lia)) as (sl & -> & L & A & B).
  cbn [mbind result_bind]. rewrite (proj2 (Z.ltb_lt _ _)) by done. rewrite wr_ok by lia. cbn [mbind result_bind].
  rewrite u16_id by (unfold in_u; lia). eexists. split; [done|]. cbn [_count _pheromone].
  assert (<[Z.to_nat (_count e) := pheromone0]> sl !! 0%nat = _pheromone e !! 0%nat) as E0.
  { rewrite list_lookup_insert_ne by lia. apply A. lia. }
  split; [|done]. split; [cbn [_count]; lia|]. split.
  - split; [cbn [_pheromone]; rewrite length_insert; lia|]. cbn [_count _pheromone]. intros k Hk.
    rewrite list_lookup_insert_ne by lia. destruct (decide (k < i)%nat).
    + rewrite A by lia. apply Hs. lia.
    + rewrite B by lia. apply Hs. lia.
  - exists s0, n. cbn [_pheromone]. by rewrite E0.
Qed.

Lemma shrink_ok T l b n :
  hops_ok D T l -> filt b n -> Z.of_nat (length l) <= n ->
  exists l' b', shrink (Some l) b = Ok (l', b') /\ hops_ok D T l' /\
    filt b' (n - Z.of_nat (length l) + Z.of_nat (length l')) /\
    (length l' <= length l)%nat /\ (1 <= length l -> 1 <= length l')%nat.
Proof.
  intros Hl Hb Hn. unfold shrink. cbn [the mbind result_bind].
  destruct (Nat.ltb_spec 1 (length l)) as [Hlt|Hge].
  - destruct (filt_count_decrement b n Hb) as (b' & -> & Hb'). cbn [mbind result_bind].
    destruct (remove_oldest_shorter D T l Hl) as [Hl' Hlen]; [intros ->; simpl in Hlt; lia|].
    eexists _, b'. split; [done|]. split; [done|]. split; [|lia].
    replace (n - Z.of_nat (length l) + Z.of_nat (length (fst (__np_remove_oldest_dhkey l)))) with (Z.max 0 (n - 1)) by lia.
    done.
  - exists l, b. split; [done|]. split; [done|]. split; [|lia].
    by replace (n - Z.of_nat (length l) + Z.of_nat (length l)) with n by lia.
Qed.

(** A slot that is not removed. *)
Lemma thin_slot T s b recv send n :
  hops_ok D T send -> hops_ok D T recv -> (1 <= length send + length recv)%nat ->
  filt b n -> n = Z.of_nat (length send) + Z.of_nat (length recv) ->
  exists recv' send' b1 b2, shrink (Some recv) b = Ok (recv', b1) /\ shrink (Some send) b1 = Ok (send', b2) /\
    slot_ok T (set_bloom (set_send (set_recv s recv') send') b2).
Proof.
  intros Hs Hr Hn Hf ->.
  destruct (shrink_ok T recv b _ Hr Hf ltac:(lia)) as (recv' & b1 & E1 & Hr' & Hf1 & L1 & K1).
  destruct (shrink_ok T send b1 _ Hs Hf1 ltac:(lia)) as (send' & b2 & E2 & Hs' & Hf2 & L2 & K2).
  exists recv', send', b1, b2. split; [done|]. split; [done|]. exists b2, send', recv'.
  do 5 (split; [done|]). split; [|lia].
  match goal with H : filt b2 ?x |- filt b2 ?y => replace y with x by lia end. done.
Qed.

Lemma exhale_loop_ok T fuel i e :
  entry_ok T e -> _count e < 32 -> (1 <= i)%nat -> (Z.to_nat (_count e) <= i + fuel)%nat ->
  exists e', exhale_loop fuel (Z.of_nat i) e = Ok e' /\ entry_ok T e' /\ _count e' <= _count e.
Proof.
  revert i e. induction fuel as [|fuel IH]; intros i e He Hlt Hi Hfuel; cbn [exhale_loop].
  { rewrite (proj2 (Z.ltb_ge _ _)) by lia. exists e. split; [done|]. split; [done | lia]. }
  destruct (Z.ltb_spec (Z.of_nat i) (_count e)) as [Hin|Hout]; [|exists e; split; [done|]; split; [done | lia]].
  pose proof He as (Hc & [Hlen Hs] & s0 & n0 & H0 & b0 & Hb0 & Hf0).
  destruct (Hs i ltac:(lia)) as (s & Hsi & b & send & recv & Hb & Hsd & Hrv & Hh1 & Hh2 & Hf & Hn).
  rewrite (rd_nat_lookup _ _ _ Hsi). cbn [mbind result_bind]. rewrite Hb. cbn [the mbind result_bind].
  destruct (filt_age_decrement b _ Hf) as (b1 & -> & Hf1). cbn [mbind result_bind].
  pose proof (rd_nat_lookup _ _ _ H0) as Hrd0. change (Z.of_nat 0) with 0 in Hrd0. rewrite Hrd0.
  cbn [mbind result_bind]. rewrite Hb0. cbn [the mbind result_bind].
  destruct (filt_intersect_age b0 n0 b1 _ Hf0 Hf1) as (age & ->). cbn [mbind result_bind].
  rewrite Hsd, Hrv. destruct (Qeq_bool age 0); cbn [the mbind result_bind].
  - destruct (remove_slot_ok T i e He ltac:(lia) Hlt) as (e1 & -> & He1 & Hc1 & _). cbn [mbind result_bind].
    destruct (IH i e1 He1 ltac:(lia) Hi ltac:(lia)) as (e' & -> & He' & Hle). exists e'. split; [done|]. split; [done | lia].
  - destruct (thin_slot T s b1 recv send _ Hh1 Hh2 Hn Hf1 eq_refl) as (recv' & send' & b2 & b3 & -> & E2 & Hok).
    cbn [mbind result_bind]. rewrite E2. cbn [mbind result_bind]. rewrite wr_ok by lia. cbn [mbind result_bind].
    rewrite Nat2Z.id. replace (Z.of_nat i + 1) with (Z.of_nat (S i)) by lia.
    destruct (IH (S i) (Entry (<[i := set_bloom (set_send (set_recv s recv') send') b3]> (_pheromone e)) (_count e)))
      as (e' & -> & He' & Hle); [|done|lia|cbn [_count]; lia|by exists e'].
    split; [done|]. split.
    + split; [cbn [_pheromone]; by rewrite length_insert|]. cbn [_count _pheromone]. intros k Hk.
      destruct (decide (k = i)) as [->|Hne]; [rewrite list_lookup_insert_eq by lia; by eexists|].
      rewrite list_lookup_insert_ne by lia. by apply Hs.
    + exists s0, n0. cbn [_pheromone]. rewrite list_lookup_insert_ne by lia. split; [done|]. by exists b0.
Qed.

(** Closing a gap in a full array reads behind its end. *)
Lemma close_gap_full (slots : list np_pheromone_t) i n :
  length slots = 32%nat -> (i + n = 32)%nat -> (1 <= n)%nat ->
  for_range i n (fun j slots => v ← rd slots (Z.of_nat j + 1); wr slots (Z.of_nat j) v) slots = Err Bad_access.
Proof.
  revert slots i. induction n as [|n IH]; intros slots i Hl Hi Hn; [lia|]. cbn [for_range].
  destruct (decide (n = 0%nat)) as [->|Hne].
  - assert (rd slots (Z.of_nat i + 1) = Err Bad_access) as ->; [|done].
    unfold rd. rewrite decide_True by lia. by rewrite lookup_ge_None_2 by lia.
  - destruct (rd_ok slots (Z.of_nat i + 1) ltac:(lia)) as (v & -> & _). cbn [mbind result_bind].
    rewrite wr_ok by lia. cbn [mbind result_bind]. apply IH; [by rewrite length_insert | lia | lia].
Qed.

Lemma draw_ok fuel r i rng :
  pcg_wf r -> np_rng_next_bounded fuel r 257 = Ok (i, rng) -> pcg_wf rng /\ 0 <= i < 257.
Proof.
  intros Hr Hdraw. change (np_rng_next_bounded fuel r 257) with (next_bounded_loop fuel (u32 (- (257)) mod 257) 257 r) in Hdraw.
  apply next_bounded_loop_inv in Hdraw as (n & _ & _ & _ & <- & ->). split; [by apply rng_skip_wf|].
  apply Z.mod_pos_bound. lia.
Qed.

(** Exhaling.  A step that draws a partition with fewer than 31 filters (or
    an empty one) returns, leaves the other partitions alone and keeps the table
    in shape: every filter that stays still counts its next hops and keeps at
    least one.  In a full partition removing a filter reads behind the end of
    the array. *)
Theorem pheromone_exhale_spec fuel seeds p T i rng :
  table_ok T p -> np_rng_next_bounded fuel (ph_rng p) 257 = Ok (i, rng) ->
  ((forall e, ph_table p !! Z.to_nat i = Some (Some e) -> _count e < 32) ->
   exists p', _np_pheromone_exhale fuel seeds (Some p) = Ok p' /\ table_ok T p' /\ ph_rng p' = rng /\
     lock_depth p' = lock_depth p /\
     (forall k, k <> Z.to_nat i -> ph_table p' !! k = ph_table p !! k)) /\
  (forall e k, ph_table p !! Z.to_nat i = Some (Some e) -> _count e = 32 -> 1 <= k < 32 ->
   remove_slot k e = Err Bad_access).
Proof.
  intros (Hlen & Hrng & Hall) Hdraw. destruct (draw_ok fuel _ _ _ Hrng Hdraw) as [Hwf Hi]. split.
  - intros Hnf. unfold _np_pheromone_exhale. cbn [module_or_init]. rewrite Hdraw. cbn [mbind result_bind].
    destruct (rd_ok (ph_table p) i ltac:(lia)) as (entry & -> & Hlk). cbn [mbind result_bind].
    destruct entry as [e|]; [|eexists; split; [done|]; split; [by split|]; done].
    pose proof (Forall_lookup_1 _ _ _ _ Hall Hlk) as He. cbn beta iota in He.
    pose proof He as (Hc & [Hls Hs] & s0 & n0 & H0 & b0 & Hb0 & Hf0).
    pose proof (rd_nat_lookup _ _ _ H0) as Hrd0. change (Z.of_nat 0) with 0 in Hrd0. rewrite Hrd0.
    cbn [mbind result_bind]. rewrite Hb0. cbn [the mbind result_bind].
    destruct (filt_age_decrement b0 n0 Hf0) as (b1 & -> & Hf1). cbn [mbind result_bind].
    rewrite wr_ok by lia. cbn [mbind result_bind]. change (Z.to_nat 0) with 0%nat. change 1 with (Z.of_nat 1).
    destruct (exhale_loop_ok T (Z.to_nat (_count e)) 1 (Entry (<[0%nat := set_bloom s0 b1]> (_pheromone e)) (_count e)))
      as (e' & -> & He' & _); [|exact (Hnf e Hlk)|lia|cbn [_count]; lia|].
    { split; [done|]. split.
      - split; [cbn [_pheromone]; by rewrite length_insert|]. cbn [_count _pheromone]. intros k Hk.
        rewrite list_lookup_insert_ne by lia. by apply Hs.
      - eexists _, n0. cbn [_pheromone]. split; [apply list_lookup_insert_eq; lia|]. by exists b1. }
    cbn [mbind result_bind]. rewrite wr_ok by lia. cbn [mbind result_bind]. eexists. split; [done|].
    split; [split; [cbn [ph_table]; by rewrite length_insert|]; split; [done|]; by apply Forall_insert|].
    split; [done|]. split; [done|]. intros k Hk. cbn [ph_table]. by apply list_lookup_insert_ne.
  - intros e k Hlk Hc Hk. pose proof (Forall_lookup_1 _ _ _ _ Hall Hlk) as He. cbn beta iota in He.
    destruct He as (_ & [Hls _] & _). unfold remove_slot. rewrite Hc.
    rewrite close_gap_full by (done || lia). done.
Qed.
End Exhale.

(** ** Examples *)

Definition example_pheromones : pheromones := __init_pheromones (1, 2).

Lemma example_pheromones_ok D T : table_ok D T example_pheromones.
Proof. split; [done|]. split; [by_decide|]. by apply Forall_replicate. Qed.

Lemma pheromone_inhale_spec_witness :
  exists p', _np_pheromone_inhale_target (1, 2) (key_of 0) (fun _ => 1%Q) (Some example_pheromones)
               (key_of 300) (key_of 7) true false = Ok (p', true) /\
    table_ok (fun k => k = key_of 7) 1 p'.
Proof.
  destruct (pheromone_inhale_spec (key_of 0) (fun k => k = key_of 7)
    ltac:(intros k ->; by_decide) ltac:(by intros k k' -> ->)
    (1, 2) (fun _ => 1%Q) example_pheromones (key_of 300) (key_of 7) true false 0%Q 1%Q
    (example_pheromones_ok _ _) eq_refl ltac:(intros; split; reflexivity || discriminate)) as [_ H].
  destruct (H eq_refl) as (p' & Hrun & Hok & _). exists p'. split; [exact Hrun | exact Hok].
Defined.

Lemma pheromone_roundtrip_witness :
  exists p', _np_pheromone_inhale_target (1, 2) (key_of 0) (fun _ => 1%Q) (Some example_pheromones)
               (key_of 300) (key_of 7) true false = Ok (p', true) /\
    _np_pheromone_snuffle p' [] (key_of 300) (1 # 4) false true = Ok ([key_of 7], age_ratio 128).
Proof.
  exact (pheromone_roundtrip (1, 2) (key_of 0) (fun _ => 1%Q) example_pheromones (key_of 300) (key_of 7) false []
    (1 # 4) ltac:(by_decide) eq_refl eq_refl).
Defined.

Definition example_draw : Z * np_local_pcg_state_32 :=
  match np_rng_next_bounded 4 (ph_rng example_pheromones) 257 with Ok d => d | Err _ => (0, rng0) end.

Lemma pheromone_exhale_spec_witness :
  exists p', _np_pheromone_exhale 4 (1, 2) (Some example_pheromones) = Ok p' /\ table_ok (fun _ => True) 0 p'.
Proof.
  destruct (pheromone_exhale_spec (fun _ => True) 4 (1, 2) example_pheromones 0 (fst example_draw) (snd example_draw)
    (example_pheromones_ok _ _) ltac:(vm_compute; reflexivity)) as [H _].
  destruct H as (p' & Hrun & Hok & _).
  - intros e He. exfalso. revert He. vm_compute. discriminate.
  - exists p'. split; [exact Hrun | exact Hok].
Defined.

(** The element removed as the oldest need not be: of the time stamps 5, 1, 3
    the 3 goes, the last one older than the first. *)
Lemma remove_oldest_keeps_oldest :
  let l := [Details (key_of 1) 5; Details (key_of 2) 1; Details (key_of 3) 3] in
  fst (__np_remove_oldest_dhkey l) = [Details (key_of 1) 5; Details (key_of 2) 1].
Proof. vm_compute. reflexivity. Qed.

(** Next hops are kept in the order of falling distance, but one that belongs
    in the middle is put at the front. *)
Lemma insert_breaks_distance_order :
  let l := [Details (key_of 10) 0; Details (key_of 3) 0] in
  map peer_id (__np_insert_dhkey (key_of 0) 1 l (key_of 5)) = [key_of 5; key_of 10; key_of 3] /\
  map peer_id (__np_insert_dhkey (key_of 0) 1 l (key_of 2)) = [key_of 10; key_of 3; key_of 2] /\
  map peer_id (__np_insert_dhkey (key_of 0) 1 l (key_of 12)) = [key_of 12; key_of 10; key_of 3].
Proof. vm_compute. done. Qed.
