(* ===== verification/Key.v ===== *)
(** * Keys: [np_key.c], [include/np_key.h]

    The part of a key object the routing table and the key cache look at.  A
    key pointer is an address; [K] gives the object an address holds.  Lists of
    keys ([np_key_ptr_sll_t]) are sequences of addresses, which is what the
    linked list implements (file [SllSpec]). *)
From Stdlib Require Import ZArith Lia QArith Qminmax Lqa.
From stdpp Require Import prelude.
From S2P Require Import Prelude Dhkey.

Local Open Scope Z_scope.

Abbreviation key_ptr := positive.

(** The fields of a node the routing decisions and the cache searches read;
    a string is the list of its bytes, without the final zero. *)
Record np_node_t := Node {
  latency : Q;
  success_avg : Q;
  ip_string : option (list Z);
  port : option (list Z);
  _handshake_status : Z;
}.

(** [enum np_entity_index]: the slots of [entity_array]; slot [e_nodeinfo]
    holds the node, when the key has one. *)
Definition e_nodeinfo : Z := 2.
Definition e_entity_index_max : Z := 8.

(** [enum np_key_type]: flags. *)
Definition np_key_type_unknown : Z := 0x001.
Definition np_key_type_alias : Z := 0x002.
Definition np_key_type_node : Z := 0x004.
Definition np_key_type_wildcard : Z := 0x008.
Definition np_key_type_ident : Z := 0x010.
Definition np_key_type_interface : Z := 0x020.
Definition np_key_type_subject : Z := 0x040.
Definition np_key_type_realm : Z := 0x080.

Record np_key_t := Key {
  dhkey : np_dhkey_t;
  key_type : Z;
  parent_dhkey : np_dhkey_t;
  created_at : Q;
  last_update : Q;
  is_in_keycache : bool;
  nodeinfo : option np_node_t;   (* entity_array[e_nodeinfo] *)
}.

Definition set_last_update (k : np_key_t) (t : Q) : np_key_t :=
  Key (dhkey k) (key_type k) (parent_dhkey k) (created_at k) t (is_in_keycache k) (nodeinfo k).
Definition set_in_keycache (k : np_key_t) (b : bool) : np_key_t :=
  Key (dhkey k) (key_type k) (parent_dhkey k) (created_at k) (last_update k) b (nodeinfo k).

(** [_np_key_get_node (key)->f]: following a missing node is a fault. *)
Definition _np_key_get_node (k : np_key_t) : option np_node_t := nodeinfo k.
Definition node_field {A} (f : np_node_t -> A) (k : np_key_t) : result A :=
  match _np_key_get_node k with Some n => Ok (f n) | None => Err Bad_access end.

Section Compare.
Context (K : key_ptr -> np_key_t).

Definition _np_key_cmp (k1 k2 : option key_ptr) : Z :=
  match k1, k2 with
  | None, _ => -1
  | _, None => 1
  | Some k1, Some k2 => _np_dhkey_cmp (Some (dhkey (K k1))) (Some (dhkey (K k2)))
  end.

Definition _np_key_cmp_inv (k1 k2 : option key_ptr) : Z := -1 * _np_key_cmp k1 k2.

(** Every key of the store carries a hash of eight 32-bit words. *)
Definition keys_wf : Prop := forall p, dhkey_wf (dhkey (K p)).

Context (HK : keys_wf).

(** Comparing for zero is comparing hashes, in both directions. *)
Lemma key_cmp_zero p q : _np_key_cmp (Some p) (Some q) = 0 <-> dhkey (K p) = dhkey (K q).
Proof using HK.
  unfold _np_key_cmp. destruct (dhkey_cmp_cases _ _ (HK p) (HK q)) as [[? E]|[(-> & _ & E)|[? E]]];
    rewrite E; split; intros H0; try done; rewrite H0 in *; lia.
Qed.

Lemma key_cmp_inv_zero p q : _np_key_cmp_inv (Some p) (Some q) = 0 <-> dhkey (K p) = dhkey (K q).
Proof using HK. rewrite <- key_cmp_zero. unfold _np_key_cmp_inv. lia. Qed.
End Compare.
