(* ===== verification/KeySort.v ===== *)
(** * Sorting and searching lists of keys: the end of [np_keycache.c]

    Two exchange sorts, by distance to a key and by common prefix and distance,
    and the search for the closest key.  The iterators of the loops are the
    elements still ahead of them, so a swap of two values rebuilds the part of
    the list between them.  Theorems: both return, with a sorted permutation of
    the list (the number of inversions bounds the passes), and the search
    returns a closest element. *)
From Stdlib Require Import ZArith Lia QArith Lqa.
From stdpp Require Import prelude sorting.
From S2P Require Import Prelude Dhkey Key.

Local Open Scope Z_scope.

Section Loops.
Context (K : key_ptr -> np_key_t) (key : np_dhkey_t).

(** ** By distance: [_np_keycache_sort_keys_kd] *)

Definition kd_wrong_order (curr next : key_ptr) : bool :=
  let dif1 := _np_dhkey_distance (dhkey (K curr)) key in
  let dif2 := _np_dhkey_distance (dhkey (K next)) key in
  _np_dhkey_cmp (Some dif2) (Some dif1) <? 0.

(** [while (NULL != next)]: the first later value out of order is swapped with
    the current one. *)
Fixpoint kd_inner (curr : key_ptr) (next : list key_ptr) : key_ptr * list key_ptr * bool :=
  match next with
  | [] => (curr, [], false)
  | n :: rest =>
      if kd_wrong_order curr n then (n, curr :: rest, true)
      else let '(c, rest, swap) := kd_inner curr rest in (c, n :: rest, swap)
  end.

(** [while (NULL != curr)]: one pass; [n] is the number of values left. *)
Fixpoint kd_pass (n : nat) (l : list key_ptr) (swap : bool) : list key_ptr * bool :=
  match n, l with
  | S n', curr :: next =>
      let '(curr, next, s) := kd_inner curr next in
      let '(rest, swap) := kd_pass n' next (swap || s) in
      (curr :: rest, swap)
  | _, _ => (l, swap)
  end.

(** [do ... while (swap)] *)
Fixpoint kd_loop (fuel : nat) (l : list key_ptr) : result (list key_ptr) :=
  match fuel with
  | O => Err Diverges
  | S fuel' =>
      let '(l, swap) := kd_pass (length l) l false in
      if swap then kd_loop fuel' l else Ok l
  end.

Definition _np_keycache_sort_keys_kd (list_of_keys : list key_ptr) : result (list key_ptr) :=
  if Z.of_nat (length list_of_keys) <? 2 then Ok list_of_keys
  else kd_loop (S (length list_of_keys * length list_of_keys)) list_of_keys.

(** ** By common prefix and distance: [_np_keycache_sort_keys_cpm] *)

Definition cpm_wrong_order (iter1 iter2 : key_ptr) : bool :=
  let pmatch1 := _np_dhkey_index key (dhkey (K iter1)) in
  let pmatch2 := _np_dhkey_index key (dhkey (K iter2)) in
  if pmatch1 <? pmatch2 then true
  else if pmatch1 =? pmatch2 then
    let dif1 := _np_dhkey_distance (dhkey (K iter1)) key in
    let dif2 := _np_dhkey_distance (dhkey (K iter2)) key in
    _np_dhkey_cmp (Some dif2) (Some dif1) <? 0
  else false.

Fixpoint cpm_inner (iter1 : key_ptr) (iter2 : list key_ptr) : key_ptr * list key_ptr :=
  match iter2 with
  | [] => (iter1, [])
  | v2 :: rest =>
      let '(v1, v2) := if cpm_wrong_order iter1 v2 then (v2, iter1) else (iter1, v2) in
      let '(v1, rest) := cpm_inner v1 rest in
      (v1, v2 :: rest)
  end.

Fixpoint cpm_outer (n : nat) (l : list key_ptr) : list key_ptr :=
  match n, l with
  | S n', iter1 :: iter2 =>
      match iter2 with
      | [] => l
      | _ => let '(v1, rest) := cpm_inner iter1 iter2 in v1 :: cpm_outer n' rest
      end
  | _, _ => l
  end.

Definition _np_keycache_sort_keys_cpm (node_keys : list key_ptr) : list key_ptr :=
  if Z.of_nat (length node_keys) <? 2 then node_keys else cpm_outer (length node_keys) node_keys.

(** ** The closest key: [_np_keycache_find_closest_key_to] *)

Definition closest_step (st : option key_ptr * np_dhkey_t * bool) (v : key_ptr)
    : option key_ptr * np_dhkey_t * bool :=
  let '(min_key, minDif, first_run) := st in
  let dif := _np_dhkey_distance key (dhkey (K v)) in
  let cmp := _np_dhkey_cmp (Some dif) (Some minDif) in
  if first_run || (cmp <=? 0) then (Some v, dif, false) else (min_key, minDif, false).

Definition _np_keycache_find_closest_key_to (list_of_keys : list key_ptr) : option key_ptr :=
  if Z.of_nat (length list_of_keys) =? 0 then None
  else (foldl closest_step (None, dhkey_zero, true) list_of_keys).1.1.
End Loops.

(** ** Measures *)

Section Ranks.
Context (K : key_ptr -> np_key_t) (key : np_dhkey_t).

(** The distance to [key] as a number, and the order of the prefix sort: a
    longer common prefix first, then the distance. *)
Definition kd_rank (p : key_ptr) : Z := dhkey_val (_np_dhkey_distance (dhkey (K p)) key).
Definition cpm_rank (p : key_ptr) : Z :=
  (64 - _np_dhkey_index key (dhkey (K p))) * 2 ^ 256 + kd_rank p.

Lemma kd_rank_range p : 0 <= kd_rank p < 2 ^ 256.
Proof. apply dhkey_val_range, _np_dhkey_distance_wf. Qed.

Lemma distance_cmp_lt a b :
  (_np_dhkey_cmp (Some (_np_dhkey_distance (dhkey (K b)) key))
                 (Some (_np_dhkey_distance (dhkey (K a)) key)) <? 0) = (kd_rank b <? kd_rank a).
Proof.
  unfold kd_rank. set (db := _np_dhkey_distance (dhkey (K b)) key). set (da := _np_dhkey_distance (dhkey (K a)) key).
  destruct (dhkey_cmp_cases db da) as [[H E]|[(H & HV & E)|[H E]]];
    try apply _np_dhkey_distance_wf; rewrite E; symmetry.
  - by apply Z.ltb_lt.
  - rewrite H. apply Z.ltb_irrefl.
  - apply Z.ltb_ge. lia.
Qed.

Lemma kd_wrong_order_rank a b : kd_wrong_order K key a b = (kd_rank b <? kd_rank a).
Proof. apply distance_cmp_lt. Qed.

Lemma cpm_wrong_order_rank a b : cpm_wrong_order K key a b = (cpm_rank b <? cpm_rank a).
Proof.
  unfold cpm_wrong_order. rewrite distance_cmp_lt.
  pose proof (kd_rank_range a). pose proof (kd_rank_range b). unfold cpm_rank.
  set (ia := _np_dhkey_index key (dhkey (K a))). set (ib := _np_dhkey_index key (dhkey (K b))).
  assert (0 < 2 ^ 256) by done. set (N := 2 ^ 256) in *.
  destruct (Z.ltb_spec ia ib) as [Hi|Hi].
  - symmetry. apply Z.ltb_lt. nia.
  - destruct (Z.eqb_spec ia ib) as [->|Hne].
    + destruct (Z.ltb_spec (kd_rank b) (kd_rank a)); symmetry; [apply Z.ltb_lt | apply Z.ltb_ge]; lia.
    + symmetry. apply Z.ltb_ge. nia.
Qed.
End Ranks.

(** ** Inversions *)

Section Inversions.
Context {A : Type} (f : A -> Z).

Definition rank_le (x y : A) : Prop := f x <= f y.
#[export] Instance rank_le_trans : Transitive rank_le.
Proof. intros x y z. unfold rank_le. lia. Qed.

(** The elements of [l] that belong before [x]. *)
Definition before (x : A) (l : list A) : nat := length (filter (fun y => f y < f x) l).

Fixpoint inversions (l : list A) : nat :=
  match l with [] => 0%nat | x :: l' => (before x l' + inversions l')%nat end.

Lemma before_perm x l l' : l ≡ₚ l' -> before x l = before x l'.
Proof. intros H. unfold before. by rewrite H. Qed.

Lemma before_cons x y l : before x (y :: l) = ((if decide (f y < f x)%Z then 1 else 0) + before x l)%nat.
Proof. unfold before. rewrite filter_cons. by case_decide. Qed.

Lemma before_app x l l' : before x (l ++ l') = (before x l + before x l')%nat.
Proof. unfold before. by rewrite filter_app, length_app. Qed.

Lemma before_zero x l : Forall (fun z => f x <= f z) l -> before x l = 0%nat.
Proof.
  induction 1 as [|z l Hz Hl IH]; [done|]. rewrite before_cons, IH.
  case_decide; [lia | done].
Qed.

Lemma before_mono x y l : f y <= f x -> (before y l <= before x l)%nat.
Proof.
  intros H. induction l as [|z l IH]; [done|]. rewrite !before_cons. repeat case_decide; lia.
Qed.

Lemma before_length x l : (before x l <= length l)%nat.
Proof. apply length_filter. Qed.

Lemma inversions_bound l : (inversions l <= length l * length l)%nat.
Proof. induction l as [|x l IH]; simpl; [done|]. pose proof (before_length x l). nia. Qed.

(** Swapping an element with the first later one that belongs before it. *)
Lemma swap_inner x y pre post :
  f y < f x -> Forall (fun z => f x <= f z) pre ->
  (inversions (pre ++ x :: post) + before y post <= inversions (pre ++ y :: post) + before x post)%nat.
Proof.
  intros Hlt. induction 1 as [|z pre Hz Hpre IH]; simpl; [lia|].
  rewrite !before_app, !before_cons. repeat case_decide; lia.
Qed.

Lemma swap_inversions x y pre post :
  f y < f x -> Forall (fun z => f x <= f z) pre ->
  (inversions (y :: pre ++ x :: post) < inversions (x :: pre ++ y :: post))%nat.
Proof.
  intros Hlt Hpre. simpl. pose proof (swap_inner x y pre post Hlt Hpre).
  rewrite !before_app, !before_cons. rewrite (before_zero x pre) by done.
  rewrite (before_zero y pre) by (eapply Forall_impl; [done|]; simpl; lia).
  rewrite (decide_False (P := f x < f y)), (decide_True (P := f y < f x)) by lia. lia.
Qed.

(** Sequences of ranks of two sorted permutations coincide. *)
Lemma sorted_ranks_unique l l' :
  l ≡ₚ l' -> StronglySorted rank_le l -> StronglySorted rank_le l' -> map f l = map f l'.
Proof.
  intros Hp H1 H2.
  assert (forall k, StronglySorted rank_le k -> StronglySorted Z.le (map f k)) as Hmap.
  { clear. intros k. induction 1 as [|x k Hk IH Hx]; simpl; constructor; [done|].
    rewrite Forall_map. exact Hx. }
  apply (StronglySorted_unique Z.le); [by apply Hmap.. | by rewrite Hp].
Qed.
End Inversions.

(** ** The distance sort *)

Section KdSort.
Context (K : key_ptr -> np_key_t) (key : np_dhkey_t).
Abbreviation f := (kd_rank K key).

(** What one run of the inner loop does: nothing, when no later value belongs
    before the current one, and else one swap. *)
Lemma kd_inner_spec x l :
  let '(y, l', s) := kd_inner K key x l in
  (s = false /\ y = x /\ l' = l /\ Forall (fun z => f x <= f z) l) \/
  (s = true /\ exists pre post, l = pre ++ y :: post /\ l' = pre ++ x :: post /\
     f y < f x /\ Forall (fun z => f x <= f z) pre).
Proof.
  induction l as [|z l IH]; simpl; [by left|].
  rewrite kd_wrong_order_rank. destruct (Z.ltb_spec (f z) (f x)) as [Hlt|Hge].
  - right. split; [done|]. by exists [], l.
  - destruct (kd_inner K key x l) as [[y l'] s].
    destruct IH as [(-> & -> & -> & HF)|(-> & pre & post & -> & -> & Hlt & HF)].
    + left. repeat split; [done..|]. by constructor.
    + right. split; [done|]. exists (z :: pre), post. repeat split; [done|]. by constructor.
Qed.

Lemma kd_pass_spec n l s :
  (length l <= n)%nat ->
  let '(l', s') := kd_pass K key n l s in
  l' ≡ₚ l /\
  ((s' = s /\ l' = l /\ StronglySorted (rank_le f) l) \/
   (s' = true /\ (inversions f l' < inversions f l)%nat)).
Proof.
  revert l s. induction n as [|n IH]; intros [|x l] s Hlen; simpl in *; try lia.
  1,2: split; [done|]; left; repeat split; constructor.
  pose proof (kd_inner_spec x l) as Hin. destruct (kd_inner K key x l) as [[y l1] s1].
  assert (length l1 = length l) as Hl1.
  { destruct Hin as [(_ & _ & -> & _)|(_ & pre & post & -> & -> & _)]; [done|].
    by rewrite !length_app. }
  specialize (IH l1 (s || s1)). rewrite Hl1 in IH. specialize (IH ltac:(lia)).
  destruct (kd_pass K key n l1 (s || s1)) as [l2 s2]. destruct IH as [Hp IH].
  destruct Hin as [(-> & -> & -> & HF)|(-> & pre & post & -> & -> & Hlt & HF)].
  - rewrite orb_false_r in IH. split; [by rewrite Hp|].
    destruct IH as [(-> & -> & Hs)|(-> & Hinv)].
    + left. repeat split. constructor; [done | exact HF].
    + right. split; [done|]. simpl. rewrite (before_perm f x l2 l Hp). lia.
  - rewrite orb_true_r in IH. split.
    { rewrite Hp. rewrite <- !Permutation_middle. apply Permutation_swap. }
    right. pose proof (swap_inversions f x y pre post Hlt HF) as Hsw. simpl in Hsw.
    simpl. rewrite (before_perm f y l2 _ Hp).
    destruct IH as [(-> & -> & _)|(-> & Hinv)]; (split; [done|]; lia).
Qed.

Lemma kd_loop_spec fuel l :
  (inversions f l < fuel)%nat ->
  exists l', kd_loop K key fuel l = Ok l' /\ l' ≡ₚ l /\ StronglySorted (rank_le f) l'.
Proof.
  revert l. induction fuel as [|fuel IH]; intros l Hf; [lia|]. simpl.
  pose proof (kd_pass_spec (length l) l false) as Hp. specialize (Hp ltac:(lia)).
  destruct (kd_pass K key (length l) l false) as [l1 s1].
  destruct Hp as [Hp [(-> & -> & Hs)|(-> & Hinv)]]; [by exists l|].
  destruct (IH l1) as (l' & -> & Hp' & Hs); [lia|]. exists l'. split; [done|]. split; [by trans l1 | done].
Qed.

Lemma sort_keys_kd_ok l :
  exists l', _np_keycache_sort_keys_kd K key l = Ok l' /\ l' ≡ₚ l /\ StronglySorted (rank_le f) l'.
Proof.
  unfold _np_keycache_sort_keys_kd. destruct (Z.ltb_spec (Z.of_nat (length l)) 2) as [Hs|Hs].
  - exists l. split; [done|]. split; [done|]. destruct l as [|x [|y l]]; simpl in Hs; try lia; repeat constructor.
  - apply kd_loop_spec. pose proof (inversions_bound f l). lia.
Qed.
End KdSort.

(** ** Inserting into a sorted list *)

Section Insert.
Context (K : key_ptr -> np_key_t) (key : np_dhkey_t).
Abbreviation f := (kd_rank K key).

(** Before the first element that is not nearer. *)
Fixpoint insert_sorted (x : key_ptr) (l : list key_ptr) : list key_ptr :=
  match l with
  | [] => [x]
  | z :: l' => if f z <? f x then z :: insert_sorted x l' else x :: l
  end.

Lemma insert_sorted_split x l :
  exists pre post, l = pre ++ post /\ insert_sorted x l = pre ++ x :: post /\
    Forall (fun z => f z < f x) pre /\ (StronglySorted (rank_le f) l -> Forall (fun z => f x <= f z) post).
Proof.
  induction l as [|z l IH]; simpl; [by exists [], []|].
  destruct (Z.ltb_spec (f z) (f x)) as [Hlt|Hge].
  - destruct IH as (pre & post & -> & -> & H1 & H2). exists (z :: pre), post.
    do 2 (split; [done|]). split; [by constructor|]. intros Hs. apply H2. by apply StronglySorted_inv in Hs as [? _].
  - exists [], (z :: l). do 3 (split; [done|]). intros Hs. apply StronglySorted_inv in Hs as [_ Hz].
    constructor; [done|]. eapply Forall_impl; [exact Hz|]. unfold rank_le. intros. lia.
Qed.

Lemma insert_sorted_perm x l : insert_sorted x l ≡ₚ x :: l.
Proof.
  destruct (insert_sorted_split x l) as (pre & post & -> & -> & _). by rewrite Permutation_middle.
Qed.

Lemma insert_sorted_sorted x l :
  StronglySorted (rank_le f) l -> StronglySorted (rank_le f) (insert_sorted x l).
Proof.
  induction 1 as [|z l Hs IH Hz]; simpl; [repeat constructor|].
  destruct (Z.ltb_spec (f z) (f x)) as [Hlt|Hge].
  - constructor; [done|]. rewrite insert_sorted_perm. constructor; [unfold rank_le; lia | done].
  - constructor; [by constructor|]. constructor; [done|].
    eapply Forall_impl; [exact Hz|]. unfold rank_le. intros. lia.
Qed.

Lemma kd_inner_none x l : Forall (fun z => f x <= f z) l -> kd_inner K key x l = (x, l, false).
Proof.
  induction 1 as [|z l Hz _ IH]; simpl; [done|].
  rewrite kd_wrong_order_rank, (proj2 (Z.ltb_ge _ _)), IH by done. done.
Qed.

Lemma kd_pass_sorted n l s :
  (length l <= n)%nat -> StronglySorted (rank_le f) l -> kd_pass K key n l s = (l, s).
Proof.
  intros Hn Hs. revert n Hn. induction Hs as [|x l Hs IH Hx]; intros [|n] Hn; simpl in *; try done; try lia.
  rewrite kd_inner_none by done. by rewrite orb_false_r, IH by lia.
Qed.

Lemma kd_pass_insert n x l s :
  (length l < n)%nat -> StronglySorted (rank_le f) l ->
  exists s', kd_pass K key n (x :: l) s = (insert_sorted x l, s').
Proof.
  intros Hn Hs. revert n s Hn. induction Hs as [|z l Hs IH Hz]; intros [|n] s Hn; simpl in Hn; try lia.
  { exists (s || false). simpl. by destruct n. }
  cbn [kd_pass kd_inner insert_sorted]. rewrite kd_wrong_order_rank.
  destruct (Z.ltb_spec (f z) (f x)) as [Hlt|Hge].
  - destruct (IH n (s || true)) as (s' & Hp); [lia|]. rewrite Hp. by exists s'.
  - rewrite kd_inner_none by (eapply Forall_impl; [exact Hz|]; unfold rank_le; intros; lia).
    rewrite kd_pass_sorted by (simpl; lia || by constructor). by eexists.
Qed.

(** Sorting after prepending to a sorted list is an insertion. *)
Lemma sort_keys_kd_insert x l :
  StronglySorted (rank_le f) l -> _np_keycache_sort_keys_kd K key (x :: l) = Ok (insert_sorted x l).
Proof.
  intros Hs. unfold _np_keycache_sort_keys_kd. destruct (Z.ltb_spec (Z.of_nat (length (x :: l))) 2) as [H|H].
  { destruct l; [done | simpl in H; lia]. }
  remember (length (x :: l) * length (x :: l))%nat as fuel eqn:Ef. cbn [kd_loop].
  destruct (kd_pass_insert (length (x :: l)) x l false) as (s' & ->); [simpl; lia | done|].
  destruct s'; [|done]. destruct fuel as [|fuel]; [simpl in *; lia|]. cbn [kd_loop].
  rewrite kd_pass_sorted; [done | done | by apply insert_sorted_sorted].
Qed.
End Insert.

(** ** The prefix sort *)

Section CpmSort.
Context (K : key_ptr -> np_key_t) (key : np_dhkey_t).
Abbreviation f := (cpm_rank K key).

Lemma cpm_inner_spec x l :
  let '(y, l') := cpm_inner K key x l in
  y :: l' ≡ₚ x :: l /\ f y <= f x /\ Forall (fun z => f y <= f z) l' /\ length l' = length l.
Proof.
  revert x. induction l as [|z l IH]; intros x; simpl; [by repeat split|].
  rewrite cpm_wrong_order_rank. set (c := f z <? f x) in *.
  destruct c eqn:Ec; unfold c in Ec; [apply Z.ltb_lt in Ec | apply Z.ltb_ge in Ec].
  - specialize (IH z). destruct (cpm_inner K key z l) as [y l']. destruct IH as (Hp & Hle & HF & Hl).
    repeat split; [|lia| |simpl; lia].
    + etrans; [apply Permutation_swap|]. by rewrite Hp.
    + constructor; [lia | done].
  - specialize (IH x). destruct (cpm_inner K key x l) as [y l']. destruct IH as (Hp & Hle & HF & Hl).
    repeat split; [|lia| |simpl; lia].
    + etrans; [apply Permutation_swap|]. rewrite Hp. apply Permutation_swap.
    + constructor; [lia | done].
Qed.

Lemma cpm_outer_spec n l :
  (length l <= n)%nat ->
  cpm_outer K key n l ≡ₚ l /\ StronglySorted (rank_le f) (cpm_outer K key n l).
Proof.
  revert l. induction n as [|n IH]; intros [|x l] Hn; simpl in *; try lia.
  1,2: split; [done|]; constructor.
  destruct l as [|z l]; [by split; [done|]; repeat constructor|].
  pose proof (cpm_inner_spec x (z :: l)) as Hin.
  destruct (cpm_inner K key x (z :: l)) as [y l']. destruct Hin as (Hp & _ & HF & Hl).
  destruct (IH l') as [Hp' Hs]; [simpl in *; lia|]. split; [by rewrite Hp'|].
  constructor; [done|]. rewrite Hp'. exact HF.
Qed.

Lemma sort_keys_cpm_ok l :
  _np_keycache_sort_keys_cpm K key l ≡ₚ l /\
  StronglySorted (rank_le f) (_np_keycache_sort_keys_cpm K key l).
Proof.
  unfold _np_keycache_sort_keys_cpm. destruct (Z.ltb_spec (Z.of_nat (length l)) 2) as [Hs|Hs].
  - split; [done|]. destruct l as [|x [|y l]]; simpl in Hs; try lia; repeat constructor.
  - apply cpm_outer_spec. done.
Qed.
End CpmSort.

(** ** The closest key *)

Section Closest.
Context (K : key_ptr -> np_key_t) (key : np_dhkey_t) (HK : keys_wf K) (Hkey : dhkey_wf key).
Abbreviation f := (kd_rank K key).

Lemma distance_sym p : _np_dhkey_distance key (dhkey (K p)) = _np_dhkey_distance (dhkey (K p)) key.
Proof using HK Hkey.
  destruct (Z.le_ge_cases (dhkey_val key) (dhkey_val (dhkey (K p)))) as [H|H].
  - by destruct (distance_of_ge _ _ (HK p) Hkey H) as [-> ->].
  - by destruct (distance_of_ge _ _ Hkey (HK p) H) as [-> ->].
Qed.

(** The invariant of the loop after at least one round. *)
Definition closest_inv (seen : list key_ptr) (st : option key_ptr * np_dhkey_t * bool) : Prop :=
  exists pre m post, seen = pre ++ m :: post /\
    st = (Some m, _np_dhkey_distance (dhkey (K m)) key, false) /\
    Forall (fun z => f m <= f z) pre /\ Forall (fun z => f m < f z) post.

Lemma closest_step_inv seen v st :
  (seen = [] /\ st = (None, dhkey_zero, true)) \/ closest_inv seen st ->
  closest_inv (seen ++ [v]) (closest_step K key st v).
Proof using HK Hkey.
  intros [[-> ->]|(pre & m & post & -> & -> & Hpre & Hpost)]; unfold closest_step.
  - exists [], v, []. repeat split; [|done..]. simpl. by rewrite distance_sym.
  - rewrite distance_sym. cbn -[_np_dhkey_cmp _np_dhkey_distance].
    destruct (dhkey_cmp_cases (_np_dhkey_distance (dhkey (K v)) key) (_np_dhkey_distance (dhkey (K m)) key))
      as [[Hc E]|[(_ & Hc & E)|[Hc E]]]; try apply _np_dhkey_distance_wf;
      rewrite E; cbn -[_np_dhkey_distance]; fold (f v) (f m) in Hc.
    1,2: exists ((pre ++ m :: post)), v, []; split; [by rewrite <- app_assoc|]; split; [done|];
      split; [|done]; apply Forall_app; split;
      [eapply Forall_impl; [exact Hpre|]; simpl; intros; unfold kd_rank in *; lia|];
      constructor; [unfold kd_rank in *; lia|];
      eapply Forall_impl; [exact Hpost|]; simpl; intros; unfold kd_rank in *; lia.
    exists pre, m, (post ++ [v]). split; [by rewrite <- app_assoc|]. repeat split; [done|].
    apply Forall_app; split; [done|]. constructor; [done | constructor].
Qed.

Lemma closest_key_ok l :
  match _np_keycache_find_closest_key_to K key l with
  | None => l = []
  | Some m => exists pre post, l = pre ++ m :: post /\
      Forall (fun z => f m <= f z) pre /\ Forall (fun z => f m < f z) post
  end.
Proof using HK Hkey.
  unfold _np_keycache_find_closest_key_to. destruct (Z.eqb_spec (Z.of_nat (length l)) 0) as [E|E].
  { destruct l; [done | simpl in E; lia]. }
  assert (closest_inv l (foldl (closest_step K key) (None, dhkey_zero, true) l)) as Hinv.
  { destruct l as [|x l _] using rev_ind; [done|]. clear E. revert x.
    induction l as [|y l IH] using rev_ind; intros x; rewrite foldl_snoc; apply closest_step_inv;
      [by left | right; apply IH]. }
  destruct Hinv as (pre & m & post & -> & -> & H1 & H2). simpl. by exists pre, post.
Qed.
End Closest.

(** ** The theorems *)

(** A reference sort by rank. *)
Section Reference.
Context {A : Type} (f : A -> Z).
#[export] Instance rank_le_dec x y : Decision (rank_le f x y).
Proof. unfold rank_le. apply _. Defined.
#[export] Instance rank_le_total : Total (rank_le f).
Proof. intros x y. unfold rank_le. lia. Qed.
Definition sort_by (l : list A) : list A := merge_sort (rank_le f) l.

Lemma sort_by_ranks l l' :
  l' ≡ₚ l -> StronglySorted (rank_le f) l' -> map f l' = map f (sort_by l).
Proof.
  intros Hp Hs. apply sorted_ranks_unique; [|done|].
  - rewrite Hp. symmetry. apply merge_sort_Permutation.
  - apply StronglySorted_merge_sort; apply _.
Qed.
End Reference.

(** C39: Both exchange sorts of key lists agree with a reference sort.  The
    distance sort always returns (a pass that swaps reduces the inversions), and
    the prefix sort as well; what they return is a permutation of the list, with
    the sequence of distances to [key], respectively of (common prefix,
    distance), of a merge sort. *)
Theorem key_sorts_are_sorts K key l :
  (exists l', _np_keycache_sort_keys_kd K key l = Ok l' /\ l' ≡ₚ l /\
     map (kd_rank K key) l' = map (kd_rank K key) (sort_by (kd_rank K key) l)) /\
  _np_keycache_sort_keys_cpm K key l ≡ₚ l /\
  map (cpm_rank K key) (_np_keycache_sort_keys_cpm K key l) =
    map (cpm_rank K key) (sort_by (cpm_rank K key) l).
Proof.
  split.
  - destruct (sort_keys_kd_ok K key l) as (l' & Hr & Hp & Hs). exists l'. split; [done|].
    split; [done|]. by apply sort_by_ranks.
  - destruct (sort_keys_cpm_ok K key l) as [Hp Hs]. split; [done|]. by apply sort_by_ranks.
Qed.

(** The closest key.  It is [NULL] exactly for the empty list; otherwise it
    is an element of least distance to [key], and the last one of these. *)
Theorem find_closest_key_spec K key l :
  keys_wf K -> dhkey_wf key ->
  match _np_keycache_find_closest_key_to K key l with
  | None => l = []
  | Some m => m ∈ l /\ Forall (fun p => kd_rank K key m <= kd_rank K key p) l /\
      exists pre post, l = pre ++ m :: post /\ Forall (fun p => kd_rank K key m < kd_rank K key p) post
  end.
Proof.
  intros HK Hkey. pose proof (closest_key_ok K key HK Hkey l) as H.
  destruct (_np_keycache_find_closest_key_to K key l) as [m|]; [|done].
  destruct H as (pre & post & -> & H1 & H2). split; [|split; [|by exists pre, post]].
  - apply elem_of_app. right. by left.
  - apply Forall_app. split; [done|]. constructor; [done|].
    eapply Forall_impl; [exact H2|]. simpl. lia.
Qed.

(** ** Examples *)

(** Key number [p] has hash [p], a node of latency [p] and is stable. *)
Definition example_keys (p : key_ptr) : np_key_t :=
  Key (Dhkey (replicate 7 0 ++ [u32 (Zpos p)])) np_key_type_node dhkey_zero 0 0 true
      (Some (Node (Zpos p # 1) 1 None None 0)).

Lemma example_keys_wf : keys_wf example_keys.
Proof.
  intros p. split; [done|]. simpl.
  repeat (constructor; [unfold in_u; lia|]). constructor; [apply u32_range | constructor].
Qed.

Lemma find_closest_key_spec_witness :
  _np_keycache_find_closest_key_to example_keys (key_of 0) [5%positive; 3%positive; 7%positive] = Some 3%positive /\
  (3%positive ∈ [5%positive; 3%positive; 7%positive]).
Proof.
  pose proof (find_closest_key_spec example_keys (key_of 0) [5%positive; 3%positive; 7%positive]
    example_keys_wf ltac:(by_decide)) as H.
  split; [by vm_compute|].
  replace (_np_keycache_find_closest_key_to example_keys (key_of 0) [5%positive; 3%positive; 7%positive])
    with (Some 3%positive) in H by (by vm_compute). by destruct H.
Defined.
