(* ===== verification/Route.v ===== *)
(** * The routing table and the leafsets: [src/np_route.c]

    The table has a row per length of the prefix shared with the own key, a
    column per next digit and three entries in each; the two leafsets hold the
    nearest keys on each half of the ring.  [K] gives the key objects; lists of
    keys are sequences (see [Key]).  Every operation runs under the module lock,
    so it is one step.  The reference counts are those the module adds for its
    own entries ([ref_route_inroute], [ref_route_inleafset]); the references
    taken for returned lists belong to the callers and are left out, as is the
    module pointer (the operations are modelled from [_np_route_init] on). *)
From Stdlib Require Import ZArith Lia QArith Lqa.
From stdpp Require Import prelude gmap fin_maps.
From S2P Require Import Prelude Real Dhkey Key KeySort.

Local Open Scope Z_scope.

Definition __MAX_ROW : Z := 64.
Definition __MAX_COL : Z := 16.
Definition __MAX_ENTRY : Z := 3.
Definition NP_ROUTES_TABLE_SIZE : Z := __MAX_ROW * __MAX_COL * __MAX_ENTRY.
Definition NP_LEAFSET_MAX_ENTRIES : Z := __MAX_COL / 2 - 1.
Definition BAD_LINK : Q := 1 # 4.

(** A count of references per object, for one reason. *)
Definition np_ref_obj (refs : gmap key_ptr Z) (p : key_ptr) : gmap key_ptr Z :=
  <[p := default 0 (refs !! p) + 1]> refs.
Definition np_unref_obj (refs : gmap key_ptr Z) (p : key_ptr) : gmap key_ptr Z :=
  <[p := default 0 (refs !! p) - 1]> refs.

(** [np_module_struct (route)]. *)
Record route_t := Route {
  my_key : key_ptr;
  table : list (option key_ptr);
  route_count : Z;
  left_leafset : list key_ptr;
  right_leafset : list key_ptr;
  leafset_size : Z;
  Rrange : np_dhkey_t;
  Lrange : np_dhkey_t;
  leafset_left_count : Z;
  leafset_right_count : Z;
  inroute_refs : gmap key_ptr Z;
  inleafset_refs : gmap key_ptr Z;
}.

Definition set_table (r : route_t) (t : list (option key_ptr)) : route_t :=
  Route (my_key r) t (route_count r) (left_leafset r) (right_leafset r) (leafset_size r) (Rrange r)
    (Lrange r) (leafset_left_count r) (leafset_right_count r) (inroute_refs r) (inleafset_refs r).
Definition set_routes (r : route_t) (count : Z) (refs : gmap key_ptr Z) : route_t :=
  Route (my_key r) (table r) count (left_leafset r) (right_leafset r) (leafset_size r) (Rrange r)
    (Lrange r) (leafset_left_count r) (leafset_right_count r) refs (inleafset_refs r).
Definition set_leafsets (r : route_t) (left right : list key_ptr) : route_t :=
  Route (my_key r) (table r) (route_count r) left right (leafset_size r) (Rrange r)
    (Lrange r) (leafset_left_count r) (leafset_right_count r) (inroute_refs r) (inleafset_refs r).
Definition set_ranges (r : route_t) (rr lr : np_dhkey_t) : route_t :=
  Route (my_key r) (table r) (route_count r) (left_leafset r) (right_leafset r) (leafset_size r) rr
    lr (leafset_left_count r) (leafset_right_count r) (inroute_refs r) (inleafset_refs r).
Definition set_leaf_counts (r : route_t) (lc rc : Z) (refs : gmap key_ptr Z) : route_t :=
  Route (my_key r) (table r) (route_count r) (left_leafset r) (right_leafset r) (leafset_size r)
    (Rrange r) (Lrange r) lc rc (inroute_refs r) refs.

(** The out parameters [*deleted] and [*added]; [None] for a call that returns
    before writing them. *)
Record route_change := Change { deleted : option key_ptr; added : option key_ptr }.

Section Route.
(** [alive p] says whether other references to [p] are left when this module
    drops one: [np_unref_obj] sets its argument to [NULL] when none is. *)
Context (K : key_ptr -> np_key_t) (alive : key_ptr -> bool).
Abbreviation hash p := (dhkey (K p)).
Abbreviation me r := (hash (my_key r)).

Definition _np_route_init (settings_leafset_size : Z) (my : key_ptr) : route_t :=
  Route my (replicate (Z.to_nat NP_ROUTES_TABLE_SIZE) None) 0 [] [] settings_leafset_size
    (hash my) (hash my) 0 0 ∅ ∅.

(** ** The leafsets *)

Definition sll_find (l : list key_ptr) (v : key_ptr) (cmp : option key_ptr -> option key_ptr -> Z)
    : option key_ptr :=
  snd <$> list_find (fun w => cmp (Some w) (Some v) = 0) l.

Definition sll_remove (l : list key_ptr) (v : key_ptr) (cmp : option key_ptr -> option key_ptr -> Z)
    : list key_ptr :=
  match list_find (fun w => cmp (Some w) (Some v) = 0) l with
  | Some (i, _) => delete i l
  | None => l
  end.

Definition sll_tail (l : list key_ptr) : list key_ptr * option key_ptr := (removelast l, last l).

Definition sll_size {A} (l : list A) : Z := Z.of_nat (length l).

Definition range_of (leafset : list key_ptr) (my : np_dhkey_t) : np_dhkey_t :=
  match last leafset with Some item => hash item | None => my end.

Definition _np_route_leafset_range_update (r : route_t) : route_t :=
  set_ranges r (range_of (right_leafset r) (me r)) (range_of (left_leafset r) (me r)).

(** One side of the joining case: add and sort when there is room or the key is
    inside the range, then cut the list back to its size. *)
Definition leafset_join (r : route_t) (leafset : list key_ptr) (node_key : key_ptr) (in_range : bool)
    : result (list key_ptr * option key_ptr * option key_ptr) :=
  '(leafset, add_to) ←
    (if (sll_size leafset <? leafset_size r) || in_range then
       l ← _np_keycache_sort_keys_kd K (me r) (node_key :: leafset); Ok (l, Some node_key)
     else Ok (leafset, None));
  Ok (if leafset_size r <? sll_size leafset
      then let '(l, d) := sll_tail leafset in (l, add_to, d)
      else (leafset, add_to, None)).

(** The changed lists, [add_to] and [deleted_from] of [_np_route_leafset_update]. *)
Definition leafset_change (r : route_t) (node_key : key_ptr) (joined : bool)
    : result (list key_ptr * list key_ptr * option key_ptr * option key_ptr) :=
  let lleft := left_leafset r in
  let lright := right_leafset r in
  let find_right := sll_find lright node_key (_np_key_cmp K) in
  let find_left := sll_find lleft node_key (_np_key_cmp K) in
  if negb joined then
    Ok (match find_right, find_left with
        | Some _, _ => (lleft, sll_remove lright node_key (_np_key_cmp_inv K), None, Some node_key)
        | None, Some _ => (sll_remove lleft node_key (_np_key_cmp K), lright, None, Some node_key)
        | None, None => (lleft, lright, None, None)
        end)
  else
    match find_right, find_left with
    | None, None =>
        let my_inverse_dhkey := _np_dhkey_add (me r) np_dhkey_half in
        '(lleft, lright, add_to, deleted_from) ←
          (if _np_dhkey_between (hash node_key) (me r) my_inverse_dhkey true then
             '(l, a, d) ← leafset_join r lright node_key
                            (_np_dhkey_between (hash node_key) (me r) (Rrange r) false);
             Ok (lleft, l, a, d)
           else
             '(l, a, d) ← leafset_join r lleft node_key
                            (_np_dhkey_between (hash node_key) (Lrange r) (me r) false);
             Ok (l, lright, a, d));
        Ok (match deleted_from with
            | Some _ => if _np_key_cmp K deleted_from add_to =? 0
                        then (lleft, lright, None, None)
                        else (lleft, lright, add_to, deleted_from)
            | None => (lleft, lright, add_to, deleted_from)
            end)
    | _, _ => Ok (lleft, lright, None, None)
    end.

Definition _np_route_leafset_update (r : route_t) (node_key : key_ptr) (joined : bool)
    : result (route_t * option route_change) :=
  if _np_key_cmp K (Some node_key) (Some (my_key r)) =? 0 then Ok (r, None)
  else
    '(lleft, lright, add_to, deleted_from) ← leafset_change r node_key joined;
    let r := set_leafsets r lleft lright in
    let r := match deleted_from, add_to with
             | None, None => r
             | _, _ => _np_route_leafset_range_update r
             end in
    let refs := inleafset_refs r in
    let refs := match add_to with Some a => np_ref_obj refs a | None => refs end in
    let refs := match deleted_from with Some d => np_unref_obj refs d | None => refs end in
    let r := set_leaf_counts r (sll_size (left_leafset r)) (sll_size (right_leafset r)) refs in
    Ok (r, Some (Change deleted_from add_to)).

(** ** The table *)

Definition bucket_index (i j : Z) : Z := __MAX_ENTRY * (j + __MAX_COL * i).

(** Row and column of a key. *)
Definition row_of (r : route_t) (key : np_dhkey_t) : result Z :=
  let i := _np_dhkey_index (me r) key in
  _ ← c_assert (i <? __MAX_ROW); Ok i.

Definition slots : list Z := [0; 1; 2].   (* k = 0 .. __MAX_ENTRY - 1 *)

(** Where the loop of a joining key stops: at an empty entry, at the key itself,
    or at the end with the slowest node and its entry. *)
Inductive join_scan_t :=
| Found_empty (k : Z)
| Already_in
| All_full (slowest : option (Z * key_ptr)).

Fixpoint join_scan (t : list (option key_ptr)) (index : Z) (key : key_ptr) (ks : list Z)
    (slowest : option (Z * key_ptr)) : result join_scan_t :=
  match ks with
  | [] => Ok (All_full slowest)
  | k :: ks' =>
      e ← rd t (index + k);
      match e with
      | None => Ok (Found_empty k)
      | Some k_node =>
          if _np_dhkey_equal (hash k_node) (hash key) then Ok Already_in
          else
            match slowest with
            | None => join_scan t index key ks' (Some (k, k_node))
            | Some (_, slowest_node) =>
                lk ← node_field latency (K k_node);
                ls ← node_field latency (K slowest_node);
                join_scan t index key ks' (if Qltb ls lk then Some (k, k_node) else slowest)
            end
      end
  end.

Fixpoint leave_scan (t : list (option key_ptr)) (index : Z) (key : key_ptr) (ks : list Z)
    : result (option Z) :=
  match ks with
  | [] => Ok None
  | k :: ks' =>
      e ← rd t (index + k);
      match e with
      | Some p => if _np_dhkey_equal (hash p) (hash key) then Ok (Some k)
                  else leave_scan t index key ks'
      | None => leave_scan t index key ks'
      end
  end.

(** The changed table, [add_to] and [deleted_from]. *)
Definition table_change (r : route_t) (key : key_ptr) (index : Z) (joined : bool)
    : result (list (option key_ptr) * option key_ptr * option key_ptr) :=
  if joined then
    scan ← join_scan (table r) index key slots None;
    match scan with
    | Found_empty k => t ← wr (table r) (index + k) (Some key); Ok (t, Some key, None)
    | Already_in => Ok (table r, None, None)
    | All_full None => Err Bad_access
    | All_full (Some (pick, slowest_node)) =>
        ls ← node_field latency (K slowest_node);
        lk ← node_field latency (K key);
        if Qltb (NP_PI / 1000) (ls - lk) then
          t ← wr (table r) (index + pick) (Some key); Ok (t, Some key, Some slowest_node)
        else Ok (table r, None, None)
    end
  else
    found ← leave_scan (table r) index key slots;
    match found with
    | Some k => t ← wr (table r) (index + k) None; Ok (t, None, Some key)
    | None => Ok (table r, None, None)
    end.

Definition unref_result (d : option key_ptr) : option key_ptr :=
  match d with Some p => if alive p then Some p else None | None => None end.

(** [*deleted] is written after the reference is dropped. *)
Definition _np_route_update (r : route_t) (key : key_ptr) (joined : bool)
    : result (route_t * option route_change) :=
  if _np_dhkey_equal (me r) (hash key) then Ok (r, None)
  else
    i ← row_of r (hash key);
    j ← _np_dhkey_hexalpha_at (hash key) i;
    '(t, add_to, deleted_from) ← table_change r key (bucket_index i j) joined;
    let r := set_table r t in
    let r := match add_to with
             | Some a => set_routes r (u32 (route_count r + 1)) (np_ref_obj (inroute_refs r) a)
             | None => r end in
    let r := match deleted_from with
             | Some d => set_routes r (u32 (route_count r - 1)) (np_unref_obj (inroute_refs r) d)
             | None => r end in
    Ok (r, Some (Change (unref_result deleted_from) add_to)).

(** ** Clearing *)

Definition _np_route_append_leafset_to_sll (leafset result : list key_ptr) : list key_ptr :=
  result ++ leafset.

Definition _np_route_neighbors (r : route_t) : result (list key_ptr) :=
  let node_keys := _np_route_append_leafset_to_sll (left_leafset r) [] in
  let node_keys := _np_route_append_leafset_to_sll (right_leafset r) node_keys in
  _np_keycache_sort_keys_kd K (me r) node_keys.

(** [deleted] keeps its value when the update returns early. *)
Definition leafset_clear_step (val : key_ptr) (st : route_t * option key_ptr)
    : result (route_t * option key_ptr) :=
  let '(r, del) := st in
  '(r, change) ← _np_route_leafset_update r val false;
  let del := match change with Some c => deleted c | None => del end in
  _ ← c_assert (bool_decide (del = Some val));
  Ok (r, del).

Definition _np_route_leafset_clear (r : route_t) : result route_t :=
  neighbour_list ← _np_route_neighbors r;
  '(r, _) ← foldM leafset_clear_step neighbour_list (r, None);
  Ok r.

(** [for (i ..) for (j ..) { index = ..; for (k ..) body (index + k) }] *)
Definition for_table {S} (body : Z -> S -> result S) (s : S) : result S :=
  for_range 0 (Z.to_nat __MAX_ROW) (fun i s =>
    for_range 0 (Z.to_nat __MAX_COL) (fun j s =>
      let index := bucket_index (Z.of_nat i) (Z.of_nat j) in
      for_range 0 (Z.to_nat __MAX_ENTRY) (fun k s => body (index + Z.of_nat k) s) s) s) s.

Definition _np_route_clear (r : route_t) : result route_t :=
  r ← for_table (fun idx r =>
        e ← rd (table r) idx;
        match e with
        | Some item =>
            '(r, _) ← _np_route_update r item false;
            t ← wr (table r) idx None;
            Ok (set_table r t)
        | None => Ok r
        end) r;
  _np_route_leafset_clear r.

(** What [_np_route_destroy] leaves in the reference counts. *)
Definition _np_route_destroy (r : route_t) : gmap key_ptr Z * gmap key_ptr Z :=
  (foldl (fun refs e => match e with Some p => np_unref_obj refs p | None => refs end)
         (inroute_refs r) (table r),
   foldl np_unref_obj (inleafset_refs r) (left_leafset r ++ right_leafset r)).

(** ** Queries *)

Definition _np_route_get_key (r : route_t) : key_ptr := my_key r.

Definition _np_route_get_table (r : route_t) : result (list key_ptr) :=
  for_table (fun idx sll_of_keys =>
    e ← rd (table r) idx;
    Ok (match e with Some p => sll_of_keys ++ [p] | None => sll_of_keys end)) [].

Definition _np_route_row_lookup (r : route_t) (dh : np_dhkey_t) : result (list key_ptr) :=
  i ← row_of r dh;
  for_range 0 (Z.to_nat __MAX_COL) (fun j sll_of_keys =>
    _key ← rd (table r) (bucket_index i (Z.of_nat j));
    Ok (match _key with
        | Some p => if negb (_np_dhkey_equal (hash p) dh) then sll_of_keys ++ [p] else sll_of_keys
        | None => sll_of_keys
        end)) [].

(** The state of the loop of [_np_route_neighbour_lookup]. *)
Record look_t := Look {
  sll_of_keys : list key_ptr;
  left_end : bool;
  right_end : bool;
  current_table_iterator : Z;
  look_left : bool;
}.

Definition look_entry (r : route_t) (dh : np_dhkey_t) (base : Z) (entry_index : nat)
    (st : list key_ptr * bool * bool) : result (list key_ptr * bool * bool) :=
  let '(keys, lend, rend) := st in
  let current_table_index := u32 (base + Z.of_nat entry_index) in
  _key ← rd (table r) current_table_index;
  let keys := match _key with
              | Some p => if negb (_np_dhkey_equal (hash p) dh) then keys ++ [p] else keys
              | None => keys
              end in
  Ok (if current_table_index =? NP_ROUTES_TABLE_SIZE then (keys, lend, true)
      else if current_table_index =? 0 then (keys, true, rend)
      else (keys, lend, rend)).

Definition look_round (r : route_t) (dh : np_dhkey_t) (dhkey_start_index : Z) (s : look_t) : result look_t :=
  let look := negb (look_left s) in
  '(keys, lend, rend) ←
    (if (look && negb (left_end s)) || (negb look && negb (right_end s)) then
       let base := u32 (dhkey_start_index + u32 ((if look then -1 else 1) * current_table_iterator s)) in
       for_range 0 (Z.to_nat __MAX_ENTRY) (look_entry r dh base)
         (sll_of_keys s, left_end s, right_end s)
     else Ok (sll_of_keys s, left_end s, right_end s));
  Ok (Look keys lend rend
        (if look then u32 (current_table_iterator s + 1) else current_table_iterator s) look).

Fixpoint look_loop (fuel : nat) (r : route_t) (dh : np_dhkey_t) (start : Z) (s : look_t) : result look_t :=
  match fuel with
  | O => Err Diverges
  | S fuel' =>
      if (sll_size (sll_of_keys s) <? NP_LEAFSET_MAX_ENTRIES) && negb (left_end s) && negb (right_end s)
      then s ← look_round r dh start s; look_loop fuel' r dh start s
      else Ok s
  end.

(** [2 * (start + 1)] rounds reach the left end of the table. *)
Definition _np_route_neighbour_lookup (r : route_t) (dh : np_dhkey_t) : result (list key_ptr) :=
  col_index ← row_of r dh;
  row_index ← _np_dhkey_hexalpha_at dh col_index;
  let dhkey_start_index := col_index * row_index in
  s ← look_loop (S (Z.to_nat (2 * (dhkey_start_index + 1)))) r dh dhkey_start_index
        (Look [] false false 0 false);
  Ok (sll_of_keys s).

(** The first entry with a usable link. *)
Fixpoint match_scan (t : list (option key_ptr)) (index : Z) (ks : list Z) : result (option key_ptr) :=
  match ks with
  | [] => Ok None
  | k :: ks' =>
      e ← rd t (index + k);
      match e with
      | Some tmp_1 =>
          s ← node_field success_avg (K tmp_1);
          if Qltb BAD_LINK s then Ok (Some tmp_1) else match_scan t index ks'
      | None => match_scan t index ks'
      end
  end.

Definition metric (n : np_node_t) : Q := (1 - success_avg n + latency n)%Q.

(** The loop that looks for a more stable or faster entry. *)
Definition better_step (r : route_t) (index : Z) (k : Z) (tmp_1 : key_ptr) : result key_ptr :=
  e ← rd (table r) (index + k);
  match e with
  | Some tmp_2 =>
      if negb (_np_dhkey_equal (hash tmp_2) (hash tmp_1)) then
        metric_1 ← node_field metric (K tmp_1);
        metric_2 ← node_field metric (K tmp_2);
        Ok (if Qltb metric_2 metric_1 then tmp_2 else tmp_1)
      else Ok tmp_1
  | None => Ok tmp_1
  end.

(** The usable entries of row [i]. *)
Definition usable_row (r : route_t) (i : Z) (key_list : list key_ptr) : result (list key_ptr) :=
  for_range 0 (Z.to_nat __MAX_COL) (fun j key_list =>
    let index := bucket_index i (Z.of_nat j) in
    for_range 0 (Z.to_nat __MAX_ENTRY) (fun k key_list =>
      e ← rd (table r) (index + Z.of_nat k);
      match e with
      | Some tmp_1 =>
          s ← node_field success_avg (K tmp_1);
          Ok (if Qltb BAD_LINK s then key_list ++ [tmp_1] else key_list)
      | None => Ok key_list
      end) key_list) key_list.

(** [while (sll_size (key_list) == 0 && i >= 0 && i < __MAX_ROW)] with the
    unsigned [i] counting down: after row 0 it wraps to the largest value. *)
Fixpoint prefix_loop (fuel : nat) (r : route_t) (i : Z) (key_list : list key_ptr) : result (list key_ptr) :=
  match fuel with
  | O => Err Diverges
  | S fuel' =>
      if (sll_size key_list =? 0) && (0 <=? i) && (i <? __MAX_ROW) then
        key_list ← usable_row r i key_list;
        prefix_loop fuel' r (u32 (i - 1)) key_list
      else Ok key_list
  end.

(** No matching next hop: the best known key, or for [count == 0] this node. *)
Definition lookup_best (r : route_t) (key : np_dhkey_t) (i count : Z) : result (list key_ptr) :=
  let key_list := if count =? 0 then [my_key r] else [] in
  key_list ← prefix_loop (S (Z.to_nat __MAX_ROW)) r i key_list;
  if count =? 1 then
    Ok (match _np_keycache_find_closest_key_to K key key_list with Some min => [min] | None => [] end)
  else if 2 <=? sll_size key_list then Ok (take 1 (_np_keycache_sort_keys_cpm K key key_list))
  else Ok (take 1 key_list).

Definition _np_route_lookup (r : route_t) (key : np_dhkey_t) (count : Z) : result (list key_ptr) :=
  if (count =? 1) && _np_dhkey_between key (Lrange r) (Rrange r) true then
    let key_list := _np_route_append_leafset_to_sll (right_leafset r) [] in
    let key_list := _np_route_append_leafset_to_sll (left_leafset r) key_list in
    Ok (match _np_keycache_find_closest_key_to K key key_list with Some min => [min] | None => [] end)
  else
    i ← row_of r key;
    match_col ← _np_dhkey_hexalpha_at key i;
    let index := bucket_index i match_col in
    next_hop ← match_scan (table r) index slots;
    match next_hop with
    | Some tmp_1 =>
        if 1 <=? count then
          tmp_1 ← foldM (better_step r index) slots tmp_1; Ok [tmp_1]
        else lookup_best r key i count
    | None => lookup_best r key i count
    end.

Definition _np_route_my_key_count_routes (r : route_t) : Z := route_count r.
Definition _np_route_my_key_count_neighbors (r : route_t) : Z * Z * Z :=
  (leafset_left_count r, leafset_right_count r, u32 (leafset_left_count r + leafset_right_count r)).
Definition _np_route_my_key_has_connection (r : route_t) : bool :=
  0 <? u32 (_np_route_my_key_count_routes r + (_np_route_my_key_count_neighbors r).2).
End Route.
