(* ===== verification/RouteTable.v ===== *)
(** * The routing table: theorems

    Every entry sits in the row of the prefix it shares with the own key and the
    column of its next digit; the count and the references of the module are
    those of the entries; joining and leaving do to the three entries of a
    bucket what the comments say; filling a hole can enter a key twice. *)
From Stdlib Require Import ZArith Lia QArith Lqa.
From stdpp Require Import prelude gmap fin_maps.
From S2P Require Import Prelude Real Dhkey Key KeySort Route.

Local Open Scope Z_scope.

(** ** Occurrences and reference counts *)

Definition occurrences (p : key_ptr) (l : list key_ptr) : Z := Z.of_nat (length (filter (fun q => q = p) l)).

(** The references counted are those of the listed objects. *)
Definition refs_count (refs : gmap key_ptr Z) (l : list key_ptr) : Prop :=
  forall p, default 0 (refs !! p) = occurrences p l.

#[export] Instance occurrences_perm p : Proper ((≡ₚ) ==> (=)) (occurrences p).
Proof. intros l l' H. unfold occurrences. by rewrite H. Qed.

#[export] Instance refs_count_perm refs : Proper ((≡ₚ) ==> iff) (refs_count refs).
Proof. intros l l' H. unfold refs_count. by setoid_rewrite H. Qed.

Lemma occurrences_cons p q l : occurrences p (q :: l) = (if decide (q = p) then 1 else 0) + occurrences p l.
Proof. unfold occurrences. rewrite filter_cons. case_decide; simpl length; lia. Qed.

Lemma refs_count_ref refs p l : refs_count refs l -> refs_count (np_ref_obj refs p) (p :: l).
Proof.
  intros H q. rewrite occurrences_cons, <- H. unfold np_ref_obj. case_decide; subst.
  - rewrite lookup_insert_eq. simpl. lia.
  - by rewrite lookup_insert_ne.
Qed.

Lemma refs_count_unref refs p l : refs_count refs (p :: l) -> refs_count (np_unref_obj refs p) l.
Proof.
  intros H q. specialize (H q). rewrite occurrences_cons in H. unfold np_unref_obj. case_decide; subst.
  - rewrite lookup_insert_eq. simpl. lia.
  - rewrite lookup_insert_ne by done. lia.
Qed.

(** Replacing one element of a list. *)
Lemma insert_swap_perm {A} (l : list A) i x y : l !! i = Some x -> x :: <[i := y]> l ≡ₚ y :: l.
Proof.
  intros H. pose proof (lookup_lt_Some _ _ _ H) as Hlt.
  rewrite insert_take_drop by done. rewrite <- (take_drop_middle l i x H) at 3.
  rewrite <- !Permutation_middle. apply Permutation_swap.
Qed.

Definition entries (t : list (option key_ptr)) : list key_ptr := omap id t.

Lemma entries_insert t i x y :
  t !! i = Some x -> entries (x :: <[i := y]> t) ≡ₚ entries (y :: t).
Proof. intros H. unfold entries. by rewrite (insert_swap_perm t i x y H). Qed.

(** [Forall] of an explicit list, element by element. *)
Ltac list_forall := simpl; repeat (apply Forall_cons; split; [done|]); try apply Forall_nil_2.

Section Table.
Context (K : key_ptr -> np_key_t) (alive : key_ptr -> bool) (HK : keys_wf K).
Abbreviation hash p := (dhkey (K p)).
Abbreviation me r := (hash (my_key r)).

(** Keys in the table have a node. *)
Definition has_nodes : Prop := forall p, is_Some (nodeinfo (K p)).
(** ... at least those of the table, and the one that joins. *)
Definition nodes_known (r : route_t) (key : key_ptr) : Prop := forall p, Some p ∈ table r \/ p = key -> is_Some (nodeinfo (K p)).
Lemma known_nodes r key : has_nodes -> nodes_known r key.
Proof using K. intros HN p _. apply HN. Qed.
Definition lat (p : key_ptr) : Q := match nodeinfo (K p) with Some n => latency n | None => 0 end.

(** The hashes are those of different keys: the key cache has one object per hash. *)
Definition unique_on (live : gset key_ptr) : Prop :=
  forall p q, p ∈ live -> q ∈ live -> hash p = hash q -> p = q.

(** The bucket of a key. *)
Definition bucket_of (r : route_t) (h : np_dhkey_t) : result Z :=
  i ← row_of K r h; j ← _np_dhkey_hexalpha_at h i; Ok (bucket_index i j).

Record table_wf (r : route_t) : Prop := {
  table_len : length (table r) = Z.to_nat NP_ROUTES_TABLE_SIZE;
  table_place : forall idx p, table r !! idx = Some (Some p) ->
    hash p <> me r /\ exists b k, bucket_of r (hash p) = Ok b /\ 0 <= k < 3 /\ Z.of_nat idx = b + k;
  table_count : route_count r = Z.of_nat (length (entries (table r)));
  table_refs : refs_count (inroute_refs r) (entries (table r));
}.

Lemma bucket_of_ok r h :
  dhkey_wf h -> h <> me r ->
  exists i j, row_of K r h = Ok i /\ _np_dhkey_hexalpha_at h i = Ok j /\ 0 <= i < 64 /\ 0 <= j < 16 /\
    i = _np_dhkey_index (me r) h /\ bucket_of r h = Ok (bucket_index i j) /\
    0 <= bucket_index i j /\ bucket_index i j + 3 <= NP_ROUTES_TABLE_SIZE /\ (bucket_index i j) mod 3 = 0.
Proof using HK.
  intros Hh Hne. unfold bucket_of, row_of. set (i := _np_dhkey_index (me r) h).
  pose proof (dhkey_nibbles_length (me r) (HK _)) as Hlen.
  assert (0 <= i < 64) as Hi.
  { unfold i. rewrite dhkey_index_common_prefix by (done || apply HK).
    pose proof (common_prefix_range (dhkey_nibbles (me r)) (dhkey_nibbles h)) as Hr. rewrite Hlen in Hr.
    destruct (decide (common_prefix (dhkey_nibbles (me r)) (dhkey_nibbles h) = 64)) as [E|]; [|lia].
    exfalso. apply Hne. symmetry. apply dhkey_bytes_inj; [apply HK | done |].
    apply nibbles_of_inj; try apply dhkey_bytes_range.
    { rewrite !dhkey_bytes_length; (done || apply HK). }
    apply common_prefix_full; [|by fold (dhkey_nibbles (me r)); rewrite Hlen].
    fold (dhkey_nibbles (me r)) (dhkey_nibbles h). by rewrite Hlen, dhkey_nibbles_length. }
  rewrite (proj2 (Z.ltb_lt i __MAX_ROW)) by (unfold __MAX_ROW; lia).
  destruct (hexalpha_at_nibble h i Hh Hi) as (j & Hj & _ & Hj').
  exists i, j. cbn [c_assert mbind result_bind]. rewrite Hj. cbn [mbind result_bind].
  unfold bucket_index, NP_ROUTES_TABLE_SIZE, __MAX_ENTRY, __MAX_COL, __MAX_ROW.
  repeat split; try done; try lia. rewrite Z.mul_comm. apply Z_mod_mult.
Qed.

(** ** The scans of a bucket *)

Definition bucket (t : list (option key_ptr)) (b : Z) : list (option key_ptr) := take 3 (drop (Z.to_nat b) t).

Lemma bucket_slots (t : list (option key_ptr)) b :
  0 <= b -> b + 3 <= Z.of_nat (length t) ->
  exists e0 e1 e2, bucket t b = [e0; e1; e2] /\
    rd t (b + 0) = Ok e0 /\ rd t (b + 1) = Ok e1 /\ rd t (b + 2) = Ok e2.
Proof.
  intros H0 H3. unfold bucket.
  destruct (rd_ok t (b + 0)) as (e0 & R0 & L0); [lia|].
  destruct (rd_ok t (b + 1)) as (e1 & R1 & L1); [lia|].
  destruct (rd_ok t (b + 2)) as (e2 & R2 & L2); [lia|].
  exists e0, e1, e2. split; [|done].
  rewrite (drop_S t e0 (Z.to_nat b)) by (rewrite <- L0; f_equal; lia).
  rewrite (drop_S t e1 (S (Z.to_nat b))) by (rewrite <- L1; f_equal; lia).
  rewrite (drop_S t e2 (S (S (Z.to_nat b)))) by (rewrite <- L2; f_equal; lia). done.
Qed.

(** Slot [n] of the bucket is entry [b + n] of the table. *)
Lemma bucket_lookup (t : list (option key_ptr)) b n e :
  0 <= b -> bucket t b !! n = Some e -> t !! Z.to_nat (b + Z.of_nat n) = Some e /\ (n < 3)%nat.
Proof.
  intros Hb H. unfold bucket in H. apply lookup_take_Some in H as [H Hn].
  rewrite lookup_drop in H. split; [|done]. rewrite <- H. f_equal. lia.
Qed.

Lemma in_bucket (t : list (option key_ptr)) b e : e ∈ bucket t b -> e ∈ t.
Proof. unfold bucket. intros H. rewrite <- (take_drop (Z.to_nat b) t). apply elem_of_app. right. rewrite <- (take_drop 3 (drop _ _)). apply elem_of_app. by left. Qed.

Definition other (key : key_ptr) (e : option key_ptr) : Prop := exists q, e = Some q /\ hash q <> hash key.

Lemma equal_hash p q : _np_dhkey_equal (hash p) (hash q) = bool_decide (hash p = hash q).
Proof using HK.
  apply eq_bool_prop_intro. rewrite bool_decide_spec.
  split; intros H; [apply (_np_dhkey_equal_spec _ _ (HK p) (HK q)); by destruct (_np_dhkey_equal _ _)|].
  apply (_np_dhkey_equal_spec _ _ (HK p) (HK q)) in H. by rewrite H.
Qed.

Lemma node_latency p : is_Some (nodeinfo (K p)) -> node_field latency (K p) = Ok (lat p).
Proof.
  intros [n HN]. unfold node_field, lat, _np_key_get_node. by rewrite HN.
Qed.

Definition join_scan_ok (bk : list (option key_ptr)) (key : key_ptr) (s : join_scan_t) : Prop :=
  match s with
  | Found_empty k => exists n : nat, k = Z.of_nat n /\ bk !! n = Some None /\ Forall (other key) (take n bk)
  | Already_in => exists (n : nat) p, bk !! n = Some (Some p) /\ hash p = hash key /\ Forall (other key) (take n bk)
  | All_full None => False
  | All_full (Some (k, p)) => exists n : nat, k = Z.of_nat n /\ bk !! n = Some (Some p) /\
      Forall (other key) bk /\ Forall (fun e => exists q, e = Some q /\ (lat q <= lat p)%Q) bk
  end.

Lemma join_scan_spec t b key :
  (forall p, Some p ∈ bucket t b -> is_Some (nodeinfo (K p))) -> 0 <= b -> b + 3 <= Z.of_nat (length t) ->
  exists s, join_scan K t b key slots None = Ok s /\ join_scan_ok (bucket t b) key s.
Proof using HK.
  intros HN H0 H3. destruct (bucket_slots t b H0 H3) as (e0 & e1 & e2 & Eb & R0 & R1 & R2). rewrite Eb in *.
  assert (forall p, Some p = e0 \/ Some p = e1 \/ Some p = e2 -> is_Some (nodeinfo (K p))) as HN'
    by (intros p Hp; apply HN; rewrite !elem_of_cons; destruct Hp as [->|[->| ->]]; auto).
  unfold slots. cbn [join_scan]. rewrite R0. cbn [mbind result_bind].
  destruct e0 as [p0|]; [|eexists; split; [done|]; exists 0%nat; by repeat split].
  rewrite equal_hash. case_bool_decide as E0.
  { eexists; split; [done|]. by exists 0%nat, p0. }
  rewrite R1. cbn [mbind result_bind].
  assert (other key (Some p0)) as O0 by (by exists p0).
  destruct e1 as [p1|]; [|eexists; split; [done|]; exists 1%nat; by repeat constructor].
  rewrite equal_hash. case_bool_decide as E1.
  { eexists; split; [done|]. exists 1%nat, p1. by repeat constructor. }
  assert (other key (Some p1)) as O1 by (by exists p1).
  rewrite !node_latency by (apply HN'; auto). cbn [mbind result_bind]. rewrite R2. cbn [mbind result_bind].
  destruct e2 as [p2|]; cycle 1.
  { eexists; split; [done|]. exists 2%nat. by repeat constructor. }
  rewrite equal_hash. case_bool_decide as E2.
  { eexists; split; [done|]. exists 2%nat, p2. by repeat constructor. }
  assert (other key (Some p2)) as O2 by (by exists p2).
  destruct (Qltb (lat p0) (lat p1)) eqn:Q1; [apply Qltb_lt in Q1 | apply Qltb_ge in Q1];
    rewrite !node_latency by (apply HN'; auto); cbn [mbind result_bind].
  - destruct (Qltb (lat p1) (lat p2)) eqn:Q2; [apply Qltb_lt in Q2 | apply Qltb_ge in Q2];
      (eexists; split; [done|]); [exists 2%nat | exists 1%nat]; (split; [done|]); (split; [done|]);
      (split; [by repeat constructor|]); repeat constructor; eexists; (split; [done|]); lra.
  - destruct (Qltb (lat p0) (lat p2)) eqn:Q2; [apply Qltb_lt in Q2 | apply Qltb_ge in Q2];
      (eexists; split; [done|]); [exists 2%nat | exists 0%nat]; (split; [done|]); (split; [done|]);
      (split; [by repeat constructor|]); repeat constructor; eexists; (split; [done|]); lra.
Qed.

Definition absent (key : key_ptr) (e : option key_ptr) : Prop := e = None \/ other key e.

Lemma leave_scan_spec t b key :
  0 <= b -> b + 3 <= Z.of_nat (length t) ->
  exists s, leave_scan K t b key slots = Ok s /\
    match s with
    | Some k => exists (n : nat) p, k = Z.of_nat n /\ bucket t b !! n = Some (Some p) /\ hash p = hash key /\
        Forall (absent key) (take n (bucket t b))
    | None => Forall (absent key) (bucket t b)
    end.
Proof using HK.
  intros H0 H3. destruct (bucket_slots t b H0 H3) as (e0 & e1 & e2 & -> & R0 & R1 & R2).
  assert (forall e, (exists p, e = Some p /\ hash p = hash key) \/ absent key e) as Hcase.
  { intros [p|]; [|right; by left]. destruct (decide (hash p = hash key)); [left; by exists p|].
    right. right. by exists p. }
  assert (forall e k ks, rd t (b + k) = Ok e -> absent key e ->
            leave_scan K t b key (k :: ks) = leave_scan K t b key ks) as Hskip.
  { intros e k ks R [->|(q & -> & Hq)]; cbn [leave_scan]; rewrite R; cbn [mbind result_bind]; [done|].
    rewrite equal_hash. by rewrite bool_decide_false. }
  assert (forall p k ks, rd t (b + k) = Ok (Some p) -> hash p = hash key ->
            leave_scan K t b key (k :: ks) = Ok (Some k)) as Hfound.
  { intros p k ks R Hp; cbn [leave_scan]; rewrite R; cbn [mbind result_bind].
    rewrite equal_hash. by rewrite bool_decide_true. }
  unfold slots. destruct (Hcase e0) as [(p0 & -> & Hp)|A0].
  { exists (Some 0). rewrite (Hfound p0) by done. split; [done|]. by exists 0%nat, p0. }
  rewrite (Hskip e0) by done. destruct (Hcase e1) as [(p1 & -> & Hp)|A1].
  { exists (Some 1). rewrite (Hfound p1) by done. split; [done|]. exists 1%nat, p1. do 3 (split; [done|]). by list_forall. }
  rewrite (Hskip e1) by done. destruct (Hcase e2) as [(p2 & -> & Hp)|A2].
  { exists (Some 2). rewrite (Hfound p2) by done. split; [done|]. exists 2%nat, p2. do 3 (split; [done|]). by list_forall. }
  rewrite (Hskip e2) by done. exists None. split; [done|]. by list_forall.
Qed.

(** ** Writing one entry *)

Lemma entries_length t : (length (entries t) <= length t)%nat.
Proof.
  induction t as [|[p|] t IH]; [done| |]; unfold entries in *; cbn [omap list_omap id length] in *; lia.
Qed.

Lemma wf_write r i e0 e c refs :
  table_wf r -> table r !! i = Some e0 ->
  (forall p, e = Some p -> hash p <> me r /\
     exists b k, bucket_of r (hash p) = Ok b /\ 0 <= k < 3 /\ Z.of_nat i = b + k) ->
  c = Z.of_nat (length (entries (<[i := e]> (table r)))) ->
  refs_count refs (entries (<[i := e]> (table r))) ->
  table_wf (set_routes (set_table r (<[i := e]> (table r))) c refs).
Proof.
  intros [H1 H2 H3 H4] Hi He Hc Hr. constructor; simpl; [by rewrite length_insert | | done | done].
  intros idx p Hp. destruct (decide (i = idx)) as [->|Hne].
  - rewrite list_lookup_insert_eq in Hp by (by eapply lookup_lt_Some). injection Hp as ->.
    by apply He.
  - rewrite list_lookup_insert_ne in Hp by done. by apply H2.
Qed.

Lemma table_bound r : table_wf r -> Z.of_nat (length (entries (table r))) <= 3072.
Proof. intros H. pose proof (entries_length (table r)). rewrite (table_len r H) in *. vm_compute (Z.to_nat _) in H0. lia. Qed.

(** A key enters an empty slot of its bucket. *)
Lemma wf_add r b n key :
  table_wf r -> hash key <> me r -> bucket_of r (hash key) = Ok b -> 0 <= b ->
  bucket (table r) b !! n = Some None ->
  table_wf (set_routes (set_table r (<[Z.to_nat (b + Z.of_nat n) := Some key]> (table r)))
              (u32 (route_count r + 1)) (np_ref_obj (inroute_refs r) key)).
Proof.
  intros Hwf Hne Hb H0 Hn. destruct (bucket_lookup _ _ _ _ H0 Hn) as [Hl Hn3].
  pose proof (entries_insert _ _ _ (Some key) Hl) as Hp. simpl in Hp.
  pose proof (table_bound r Hwf) as Hbd. pose proof (table_count r Hwf) as Hc.
  pose proof (table_refs r Hwf) as Hr.
  apply (wf_write _ _ None); [done | done | | |].
  - intros p [= <-]. split; [done|]. exists b, (Z.of_nat n). split; [done|]. lia.
  - rewrite Hp, Hc, u32_id by (unfold in_u; lia). simpl. lia.
  - rewrite Hp. by apply refs_count_ref.
Qed.

(** A key replaces another one. *)
Lemma wf_replace r b n key d :
  table_wf r -> hash key <> me r -> bucket_of r (hash key) = Ok b -> 0 <= b ->
  bucket (table r) b !! n = Some (Some d) ->
  table_wf (set_routes (set_table r (<[Z.to_nat (b + Z.of_nat n) := Some key]> (table r)))
              (u32 (u32 (route_count r + 1) - 1)) (np_unref_obj (np_ref_obj (inroute_refs r) key) d)).
Proof.
  intros Hwf Hne Hb H0 Hn. destruct (bucket_lookup _ _ _ _ H0 Hn) as [Hl Hn3].
  pose proof (entries_insert _ _ _ (Some key) Hl) as Hp. simpl in Hp.
  pose proof (table_bound r Hwf) as Hbd. pose proof (table_count r Hwf) as Hc.
  pose proof (table_refs r Hwf) as Hr.
  apply (wf_write _ _ (Some d)); [done | done | | |].
  - intros p [= <-]. split; [done|]. exists b, (Z.of_nat n). split; [done|]. lia.
  - apply Permutation_length in Hp. simpl in Hp. injection Hp as Hp. rewrite Hp, Hc.
    rewrite (u32_id (_ + 1)) by (unfold in_u; lia). rewrite u32_id by (unfold in_u; lia). lia.
  - apply refs_count_unref. fold (entries (<[Z.to_nat (b + Z.of_nat n):=Some key]> (table r))) in Hp.
    rewrite Hp. by apply refs_count_ref.
Qed.

(** A key leaves. *)
Lemma wf_delete r b n key :
  table_wf r -> 0 <= b -> bucket (table r) b !! n = Some (Some key) ->
  table_wf (set_routes (set_table r (<[Z.to_nat (b + Z.of_nat n) := None]> (table r)))
              (u32 (route_count r - 1)) (np_unref_obj (inroute_refs r) key)).
Proof.
  intros Hwf H0 Hn. destruct (bucket_lookup _ _ _ _ H0 Hn) as [Hl Hn3].
  pose proof (entries_insert _ _ _ None Hl) as Hp. simpl in Hp.
  pose proof (table_bound r Hwf) as Hbd. pose proof (table_count r Hwf) as Hc.
  pose proof (table_refs r Hwf) as Hr.
  apply (wf_write _ _ (Some key)); [done | done | done | |].
  - apply Permutation_length in Hp. simpl in Hp. rewrite Hc, <- Hp.
    rewrite u32_id by (unfold in_u; rewrite Hp; lia). lia.
  - apply refs_count_unref. by rewrite Hp.
Qed.

(** ** Joining and leaving *)

Definition same_leafsets (r r' : route_t) : Prop :=
  my_key r' = my_key r /\ left_leafset r' = left_leafset r /\ right_leafset r' = right_leafset r /\
  leafset_size r' = leafset_size r /\ Rrange r' = Rrange r /\ Lrange r' = Lrange r /\
  leafset_left_count r' = leafset_left_count r /\ leafset_right_count r' = leafset_right_count r /\
  inleafset_refs r' = inleafset_refs r.

(** The contract of [_np_route_update] on the bucket at [b]. *)
Definition update_contract (r r' : route_t) (key : key_ptr) (b : Z) (joined : bool)
    (removed entered : option key_ptr) : Prop :=
  let bk := bucket (table r) b in
  let written n e := table r' = <[Z.to_nat (b + Z.of_nat n) := e]> (table r) in
  match joined, removed, entered with
  | true, None, Some a => a = key /\
      exists n, bk !! n = Some None /\ Forall (other key) (take n bk) /\ written n (Some key)
  | true, Some d, Some a => a = key /\
      exists n, bk !! n = Some (Some d) /\ Forall (other key) bk /\
        Forall (fun e => exists q, e = Some q /\ (lat q <= lat d)%Q) bk /\
        (NP_PI / 1000 < lat d - lat key)%Q /\ written n (Some key)
  | true, None, None => r' = r /\
      ((exists p, Some p ∈ bk /\ hash p = hash key) \/
       (Forall (other key) bk /\
        Forall (fun e => exists q, e = Some q /\ (lat q - lat key <= NP_PI / 1000)%Q) bk))
  | false, Some d, None => d = key /\
      exists n p, bk !! n = Some (Some p) /\ hash p = hash key /\ Forall (absent key) (take n bk) /\ written n None
  | false, None, None => r' = r /\ Forall (absent key) bk
  | _, _, _ => False
  end.

(** ** The update *)

Lemma set_table_same r : set_table r (table r) = r.
Proof. by destruct r. Qed.

Lemma bucket_in_table r b : table_wf r -> b + 3 <= NP_ROUTES_TABLE_SIZE -> b + 3 <= Z.of_nat (length (table r)).
Proof. intros H ?. rewrite (table_len r H). by rewrite Z2Nat.id. Qed.

Lemma slot_in_table r b n e :
  table_wf r -> 0 <= b -> bucket (table r) b !! n = Some e ->
  0 <= b + Z.of_nat n < Z.of_nat (length (table r)).
Proof.
  intros H H0 Hn. destruct (bucket_lookup _ _ _ _ H0 Hn) as [Hl _]. apply lookup_lt_Some in Hl. lia.
Qed.

Definition change_of (r : route_t) (t : list (option key_ptr)) (add_to deleted_from : option key_ptr) : route_t :=
  let r := set_table r t in
  let r := match add_to with
           | Some a => set_routes r (u32 (route_count r + 1)) (np_ref_obj (inroute_refs r) a)
           | None => r end in
  match deleted_from with
  | Some d => set_routes r (u32 (route_count r - 1)) (np_unref_obj (inroute_refs r) d)
  | None => r end.

Lemma change_of_leafsets r t a d : same_leafsets r (change_of r t a d).
Proof. by destruct a, d. Qed.

Lemma join_change r b key :
  nodes_known r key -> table_wf r -> hash key <> me r -> bucket_of r (hash key) = Ok b ->
  0 <= b -> b + 3 <= NP_ROUTES_TABLE_SIZE ->
  exists t a d, table_change K r key b true = Ok (t, a, d) /\
    update_contract r (change_of r t a d) key b true d a /\ table_wf (change_of r t a d).
Proof using HK.
  intros HN Hwf Hne Hb H0 H3. unfold table_change.
  destruct (join_scan_spec (table r) b key) as (s & -> & Hs); [intros p Hp; apply HN; left; by eapply in_bucket|done|by apply bucket_in_table|].
  cbn [mbind result_bind]. destruct s as [k| |[[k d]|]]; [| | |done].
  - destruct Hs as (n & -> & Hn & HF). rewrite wr_ok by (by eapply slot_in_table).
    eexists _, (Some key), None. split; [done|]. split; [|exact (wf_add r b n key Hwf Hne Hb H0 Hn)].
    split; [done|]. by exists n.
  - destruct Hs as (n & p & Hn & Hp & HF). exists (table r), None, None. split; [done|].
    unfold change_of. rewrite set_table_same. split; [|done]. split; [done|]. left.
    exists p. split; [by eapply list_elem_of_lookup_2 | done].
  - destruct Hs as (n & -> & Hn & HF & Hlat). rewrite !node_latency by (apply HN; first [by right|left; eapply in_bucket; by eapply list_elem_of_lookup_2]). cbn [mbind result_bind].
    destruct (Qltb _ _) eqn:EQ; [apply Qltb_lt in EQ | apply Qltb_ge in EQ].
    + rewrite wr_ok by (by eapply slot_in_table). eexists _, (Some key), (Some d). split; [done|].
      split; [|exact (wf_replace r b n key d Hwf Hne Hb H0 Hn)]. split; [done|]. by exists n.
    + exists (table r), None, None. split; [done|]. unfold change_of. rewrite set_table_same.
      split; [|done]. split; [done|]. right. split; [done|].
      eapply Forall_impl; [exact Hlat|]. intros e (q & -> & Hq). exists q. split; [done|]. lra.
Qed.

Lemma leave_change r b key :
  table_wf r -> (forall p, Some p ∈ table r -> hash p = hash key -> p = key) ->
  0 <= b -> b + 3 <= NP_ROUTES_TABLE_SIZE ->
  exists t a d, table_change K r key b false = Ok (t, a, d) /\
    update_contract r (change_of r t a d) key b false d a /\ table_wf (change_of r t a d).
Proof using HK.
  intros Hwf Huniq H0 H3. unfold table_change.
  destruct (leave_scan_spec (table r) b key H0) as (s & -> & Hs); [by apply bucket_in_table|].
  cbn [mbind result_bind]. destruct s as [k|].
  - destruct Hs as (n & p & -> & Hn & Hp & HF). rewrite wr_ok by (by eapply slot_in_table).
    destruct (bucket_lookup _ _ _ _ H0 Hn) as [Hl _].
    assert (p = key) as -> by (apply Huniq; [by eapply list_elem_of_lookup_2 | done]).
    eexists _, None, (Some key). split; [done|]. split; [|exact (wf_delete r b n key Hwf H0 Hn)].
    split; [done|]. by exists n, key.
  - exists (table r), None, None. split; [done|]. unfold change_of. rewrite set_table_same.
    split; [|done]. by split.
Qed.

Lemma route_update_ok r key joined :
  nodes_known r key -> table_wf r -> (forall p, Some p ∈ table r -> hash p = hash key -> p = key) ->
  hash key <> me r ->
  exists b r' removed entered, bucket_of r (hash key) = Ok b /\
    _np_route_update K alive r key joined = Ok (r', Some (Change (unref_result alive removed) entered)) /\
    update_contract r r' key b joined removed entered /\ table_wf r' /\ same_leafsets r r'.
Proof using HK.
  intros HN Hwf Huniq Hne. unfold _np_route_update. rewrite equal_hash, bool_decide_false by done.
  destruct (bucket_of_ok r (hash key) (HK key) Hne) as (i & j & -> & Hj & _ & _ & _ & Hb & H0 & H3 & _).
  cbn [mbind result_bind]. rewrite Hj. cbn [mbind result_bind]. exists (bucket_index i j).
  destruct joined.
  - destruct (join_change r _ key HN Hwf Hne Hb H0 H3) as (t & a & d & -> & Hc & Hwf').
    exists (change_of r t a d), d, a. do 4 (split; [done|]). apply change_of_leafsets.
  - destruct (leave_change r _ key Hwf Huniq H0 H3) as (t & a & d & -> & Hc & Hwf').
    exists (change_of r t a d), d, a. do 4 (split; [done|]). apply change_of_leafsets.
Qed.

Lemma route_update_self r key joined : hash key = me r -> _np_route_update K alive r key joined = Ok (r, None).
Proof using HK. intros E. unfold _np_route_update. by rewrite equal_hash, bool_decide_true. Qed.

Lemma init_table_wf size my : table_wf (_np_route_init K size my).
Proof.
  assert (entries (replicate (Z.to_nat NP_ROUTES_TABLE_SIZE) None) = []) as He by (by vm_compute).
  constructor; cbn [table route_count inroute_refs _np_route_init].
  - apply length_replicate.
  - intros idx p Hp. by apply lookup_replicate in Hp as [? _].
  - by rewrite He.
  - rewrite He. intros p. by rewrite lookup_empty.
Qed.
End Table.

(** C8: one update of the routing table.  The own key is ignored.  For any other
    key of a table in shape the call returns, stays inside the bucket of its
    prefix and digit and keeps the shape.  A joining key takes the first empty
    entry unless it is found before it; when the three entries are other keys it
    replaces the one of highest latency, if that is more than pi/1000 s above
    its own.  A leaving key empties the first entry that holds it.  The out
    parameters name the key added and the key removed, the latter only when
    others still hold it; the leafsets stay. *)
Theorem route_update_spec K alive r key joined :
  keys_wf K -> has_nodes K -> table_wf K r ->
  (forall p, Some p ∈ table r -> dhkey (K p) = dhkey (K key) -> p = key) ->
  (dhkey (K key) = dhkey (K (my_key r)) -> _np_route_update K alive r key joined = Ok (r, None)) /\
  (dhkey (K key) <> dhkey (K (my_key r)) ->
   exists b r' removed entered, bucket_of K r (dhkey (K key)) = Ok b /\
     _np_route_update K alive r key joined = Ok (r', Some (Change (unref_result alive removed) entered)) /\
     update_contract K r r' key b joined removed entered /\ table_wf K r' /\ same_leafsets r r').
Proof.
  intros HK HN Hwf Hu. split; [by apply route_update_self|]. apply route_update_ok; [done|by apply known_nodes|done..].
Qed.

(** Other holders keep every key alive. *)
Definition held (_ : key_ptr) : bool := true.

Lemma route_update_spec_witness :
  exists r d a, _np_route_update example_keys held (_np_route_init example_keys 7 1) 33 true = Ok (r, Some (Change d a)) /\
    update_contract example_keys (_np_route_init example_keys 7 1) r 33 2694 true d a.
Proof.
  destruct (route_update_spec example_keys held (_np_route_init example_keys 7 1) 33 true) as [_ H].
  - exact example_keys_wf.
  - intros p. by eexists.
  - apply init_table_wf.
  - intros p Hp. apply list_elem_of_lookup_1 in Hp as [i Hi]. by apply lookup_replicate in Hi as [? _].
  - destruct H as (b & r' & d & a & Hb & H1 & H2 & _); [by vm_compute|].
    exists r', d, a. split; [by destruct d|].
    replace 2694 with b; [exact H2|].
    assert (bucket_of example_keys (_np_route_init example_keys 7 1) (dhkey (example_keys 33)) = Ok 2694) as E
      by (by vm_compute).
    rewrite E in Hb. by injection Hb.
Defined.

(** ** Runs *)

Definition route_step (K : key_ptr -> np_key_t) (alive : key_ptr -> bool) (u : key_ptr * bool) (r : route_t)
    : result route_t :=
  '(r, _) ← _np_route_update K alive r u.1 u.2; Ok r.

Lemma written_members (t : list (option key_ptr)) (i : nat) e p : Some p ∈ <[i := e]> t -> Some p ∈ t \/ e = Some p.
Proof.
  intros H. apply list_elem_of_lookup_1 in H as [j Hj].
  destruct (decide (i = j)) as [->|Hne].
  - pose proof (lookup_lt_Some _ _ _ Hj) as Hlt. rewrite length_insert in Hlt.
    rewrite list_lookup_insert_eq in Hj by done. injection Hj as ->. by right.
  - rewrite list_lookup_insert_ne in Hj by done. left. by eapply list_elem_of_lookup_2.
Qed.

Lemma contract_members K r r' key b joined d a p :
  update_contract K r r' key b joined d a -> Some p ∈ table r' -> Some p ∈ table r \/ p = key.
Proof.
  intros H Hp. destruct joined, d as [d|], a as [a|]; cbn in H; try done.
  - destruct H as (_ & n & _ & _ & _ & _ & Hw). rewrite Hw in Hp.
    apply written_members in Hp as [?|[= <-]]; [by left | by right].
  - destruct H as (_ & n & _ & _ & Hw). rewrite Hw in Hp.
    apply written_members in Hp as [?|[= <-]]; [by left | by right].
  - destruct H as [-> _]. by left.
  - destruct H as (_ & n & q & _ & _ & _ & Hw). rewrite Hw in Hp.
    apply written_members in Hp as [?|?]; [by left | done].
  - destruct H as [-> _]. by left.
Qed.

Lemma route_steps_ok K alive live ups r :
  keys_wf K -> has_nodes K -> unique_on K live -> table_wf K r ->
  (forall p, Some p ∈ table r -> p ∈ live) -> Forall (fun u => u.1 ∈ live) ups ->
  exists r', foldM (route_step K alive) ups r = Ok r' /\ table_wf K r' /\ my_key r' = my_key r /\
    (forall p, Some p ∈ table r' -> p ∈ live).
Proof.
  intros HK HN Hu. revert r. induction ups as [|[key joined] ups IH]; intros r Hwf Hl Hups; [by exists r|].
  apply Forall_cons in Hups as [Hk Hups]. simpl in Hk. cbn [foldM].
  change (route_step K alive (key, joined) r) with ('(r, _) ← _np_route_update K alive r key joined; Ok r).
  destruct (decide (dhkey (K key) = dhkey (K (my_key r)))) as [E|E].
  - rewrite (route_update_self K alive HK r key joined E). cbn [mbind result_bind]. by apply IH.
  - destruct (route_update_ok K alive HK r key joined (known_nodes K r key HN) Hwf) as (b & r1 & d & a & _ & -> & Hc & Hwf1 & Hs); [|done|].
    { intros p Hp Hh. apply Hu; auto. }
    cbn [mbind result_bind]. destruct (IH r1 Hwf1) as (r' & Hr & Hwf' & Hm & Hl'); [|done|].
    { intros p Hp. by destruct (contract_members _ _ _ _ _ _ _ _ _ Hc Hp) as [?| ->]; [apply Hl|]. }
    exists r'. split; [done|]. split; [done|]. split; [|done]. rewrite Hm. apply Hs.
Qed.

(** C7: the invariant of the routing table.  From the empty table, any sequence
    of joins and leaves of keys with distinct hashes runs to its end without a
    fault or a failed assertion; then every entry is in the bucket of its shared
    prefix and next digit and is not the own key, the reported number of routes
    is the number of entries, and the module holds as many references to a key
    as the table has entries of it. *)
Theorem route_table_invariant K alive live size my ups :
  keys_wf K -> has_nodes K -> unique_on K live -> Forall (fun u => u.1 ∈ live) ups ->
  exists r, foldM (route_step K alive) ups (_np_route_init K size my) = Ok r /\
    (forall idx p, table r !! idx = Some (Some p) -> p ∈ live /\ dhkey (K p) <> dhkey (K my) /\
       exists i j k, _np_dhkey_index (dhkey (K my)) (dhkey (K p)) = i /\
         _np_dhkey_hexalpha_at (dhkey (K p)) i = Ok j /\ 0 <= k < 3 /\ Z.of_nat idx = bucket_index i j + k) /\
    _np_route_my_key_count_routes r = Z.of_nat (length (entries (table r))) /\
    refs_count (inroute_refs r) (entries (table r)).
Proof.
  intros HK HN Hu Hups.
  destruct (route_steps_ok K alive live ups (_np_route_init K size my)) as (r & Hr & Hwf & Hm & Hl); try done.
  { apply init_table_wf. }
  { intros p Hp. apply list_elem_of_lookup_1 in Hp as [i Hi]. by apply lookup_replicate in Hi as [? _]. }
  exists r. split; [done|]. destruct Hwf as [_ Hplace Hcount Hrefs]. split; [|by split].
  intros idx p Hp. split; [by eapply Hl, list_elem_of_lookup_2|].
  destruct (Hplace idx p Hp) as (Hne & b & k & Hb & Hk & Hidx). rewrite Hm in Hne. split; [done|].
  rewrite <- Hm in Hne.
  destruct (bucket_of_ok K HK r _ (HK p) Hne) as (i & j & _ & Hj & _ & _ & Hi & Hb' & _).
  rewrite Hb in Hb'. injection Hb' as ->. rewrite Hm in Hi. by exists i, j, k.
Qed.

Lemma route_table_invariant_witness :
  exists r, foldM (route_step example_keys held) [(33%positive, true); (34%positive, true); (33%positive, false)]
    (_np_route_init example_keys 7 1) = Ok r /\
    _np_route_my_key_count_routes r = Z.of_nat (length (entries (table r))).
Proof.
  destruct (route_table_invariant example_keys held {[33%positive; 34%positive]} 7 1
    [(33%positive, true); (34%positive, true); (33%positive, false)]) as (r & H1 & _ & H2 & _).
  - exact example_keys_wf.
  - intros p. by eexists.
  - intros p q Hp Hq. apply elem_of_union in Hp as [->%elem_of_singleton| ->%elem_of_singleton];
      apply elem_of_union in Hq as [->%elem_of_singleton| ->%elem_of_singleton]; done.
  - repeat (apply Forall_cons; split; [set_solver|]). apply Forall_nil_2.
  - exists r. split; [exact H1 | exact H2].
Defined.

(** After a leave has left a hole, a key that is still in the bucket is entered
    a second time: the scan stops at the hole before it sees the key. *)
Lemma route_refill_duplicates :
  (entries ∘ table <$> foldM (route_step example_keys held)
     [(33%positive, true); (34%positive, true); (33%positive, false); (34%positive, true)]
     (_np_route_init example_keys 7 1)) = Ok [34%positive; 34%positive].
Proof. by vm_compute. Qed.
