(* ===== verification/RouteLeafset.v ===== *)
(** * The leafsets: theorems

    Each leafset is sorted by distance to the own key, holds keys of its half of
    the ring only, no hash twice and never more than its size; a joining key is
    inserted in order and the furthest one falls out; clearing removes all and
    its assertion never fails. *)
From Stdlib Require Import ZArith Lia QArith Lqa.
From stdpp Require Import prelude gmap fin_maps sorting.
From S2P Require Import Prelude Real Dhkey Key KeySort Route RouteTable.

Local Open Scope Z_scope.

(** ** Sorted lists *)

Lemma Forall_delete {A} (P : A -> Prop) l i : Forall P l -> Forall P (delete i l).
Proof.
  rewrite delete_take_drop. intros H. apply Forall_app. split; [by apply Forall_take | by apply Forall_drop].
Qed.

Lemma StronglySorted_delete {A} (R : A -> A -> Prop) l i : StronglySorted R l -> StronglySorted R (delete i l).
Proof.
  intros Hs. revert i. induction Hs as [|x l Hs IH Hx]; intros [|i]; simpl; try done; try by constructor.
  constructor; [apply IH|]. by apply Forall_delete.
Qed.

Lemma StronglySorted_take_prefix {A} (R : A -> A -> Prop) l n : StronglySorted R l -> StronglySorted R (take n l).
Proof.
  intros Hs. revert n. induction Hs as [|x l Hs IH Hx]; intros [|n]; simpl; try by constructor.
  constructor; [apply IH | by apply Forall_take].
Qed.

Section Leafset.
Context (K : key_ptr -> np_key_t) (HK : keys_wf K).
Abbreviation hash p := (dhkey (K p)).
Abbreviation me r := (hash (my_key r)).

Definition right_half (r : route_t) (p : key_ptr) : bool :=
  _np_dhkey_between (hash p) (me r) (_np_dhkey_add (me r) np_dhkey_half) true.

Record leafset_wf (r : route_t) : Prop := {
  left_sorted : StronglySorted (rank_le (kd_rank K (me r))) (left_leafset r);
  right_sorted : StronglySorted (rank_le (kd_rank K (me r))) (right_leafset r);
  left_bound : Z.of_nat (length (left_leafset r)) <= leafset_size r;
  right_bound : Z.of_nat (length (right_leafset r)) <= leafset_size r;
  left_side : Forall (fun p => right_half r p = false) (left_leafset r);
  right_side : Forall (fun p => right_half r p = true) (right_leafset r);
  no_self : Forall (fun p => hash p <> me r) (left_leafset r ++ right_leafset r);
  leaf_nodup : NoDup (map (fun p => hash p) (left_leafset r ++ right_leafset r));
  range_right : Rrange r = range_of K (right_leafset r) (me r);
  range_left : Lrange r = range_of K (left_leafset r) (me r);
  count_left : leafset_left_count r = Z.of_nat (length (left_leafset r));
  count_right : leafset_right_count r = Z.of_nat (length (right_leafset r));
  leaf_refs : refs_count (inleafset_refs r) (left_leafset r ++ right_leafset r);
}.

(** ** Searching by hash *)

Lemma find_hash l v cmp :
  (forall w, cmp (Some w) (Some v) = 0 <-> hash w = hash v) ->
  list_find (fun w => cmp (Some w) (Some v) = 0) l = list_find (fun w => hash w = hash v) l.
Proof.
  intros Hc. apply list_find_ext. intros w. apply Hc.
Qed.

Lemma find_key_cmp l v : list_find (fun w => _np_key_cmp K (Some w) (Some v) = 0) l = list_find (fun w => hash w = hash v) l.
Proof using HK. apply find_hash. intros w. by apply key_cmp_zero. Qed.

Lemma find_key_cmp_inv l v :
  list_find (fun w => _np_key_cmp_inv K (Some w) (Some v) = 0) l = list_find (fun w => hash w = hash v) l.
Proof using HK. apply find_hash. intros w. by apply key_cmp_inv_zero. Qed.

Lemma sll_find_none l v :
  sll_find l v (_np_key_cmp K) = None <-> Forall (fun w => hash w <> hash v) l.
Proof using HK.
  unfold sll_find. rewrite find_key_cmp. destruct (list_find _ l) as [[i w]|] eqn:E.
  - split; [done|]. intros H. apply list_find_Some in E as (Hi & Hw & _).
    by apply (Forall_lookup_1 _ _ _ _ H Hi) in Hw.
  - split; [|done]. intros _. apply list_find_None in E. exact E.
Qed.

Lemma sll_find_some l v w :
  sll_find l v (_np_key_cmp K) = Some w ->
  exists i, l !! i = Some w /\ hash w = hash v /\
    sll_remove l v (_np_key_cmp K) = delete i l /\ sll_remove l v (_np_key_cmp_inv K) = delete i l.
Proof using HK.
  unfold sll_find, sll_remove. rewrite find_key_cmp, find_key_cmp_inv.
  destruct (list_find _ l) as [[i u]|] eqn:E; [|done]. intros [= <-].
  apply list_find_Some in E as (Hi & Hw & _). by exists i.
Qed.

(** ** Joining one side *)

(** The furthest key of a full leafset falls out. *)
Definition leafset_insert (my : np_dhkey_t) (max : Z) (l : list key_ptr) (p : key_ptr) : list key_ptr :=
  take (Z.to_nat max) (insert_sorted K my p l).

Lemma leafset_join_room r l p inr :
  StronglySorted (rank_le (kd_rank K (me r))) l -> 0 <= leafset_size r -> Z.of_nat (length l) <= leafset_size r ->
  ((sll_size l <? leafset_size r) || inr) = true ->
  leafset_join K r l p inr =
    Ok (leafset_insert (me r) (leafset_size r) l p, Some p,
        if sll_size l =? leafset_size r then last (insert_sorted K (me r) p l) else None).
Proof.
  intros Hs H0 Hlen Hc. unfold leafset_join. rewrite Hc, sort_keys_kd_insert by done. cbn [mbind result_bind].
  pose proof (Permutation_length (insert_sorted_perm K (me r) p l)) as Hl. simpl in Hl.
  unfold sll_tail, sll_size in *. rewrite Hl. unfold leafset_insert.
  destruct (Z.eqb_spec (Z.of_nat (length l)) (leafset_size r)) as [E|E].
  - rewrite (proj2 (Z.ltb_lt _ _)) by lia. do 2 f_equal. f_equal. rewrite <- E, Nat2Z.id.
    set (l' := insert_sorted K (me r) p l) in *. destruct l' as [|x l' _] using rev_ind; [done|].
    rewrite removelast_last. rewrite length_app in Hl. simpl in Hl.
    rewrite take_app_le by lia. rewrite take_ge by lia. done.
  - rewrite (proj2 (Z.ltb_ge _ _)) by lia. rewrite take_ge by lia. done.
Qed.

Lemma leafset_join_full r l p :
  Z.of_nat (length l) <= leafset_size r -> (sll_size l <? leafset_size r) = false ->
  leafset_join K r l p false = Ok (l, None, None).
Proof.
  intros Hlen Hc. unfold leafset_join. rewrite Hc. cbn [orb mbind result_bind].
  rewrite (proj2 (Z.ltb_ge _ _)); [done | unfold sll_size; lia].
Qed.

(** When the furthest is the key just added the list is as before. *)
Lemma insert_last_self my l p :
  Forall (fun w => hash w <> hash p) l ->
  forall d, last (insert_sorted K my p l) = Some d -> hash d = hash p ->
  d = p /\ take (length l) (insert_sorted K my p l) = l /\
  Forall (fun q => kd_rank K my q < kd_rank K my p) l.
Proof.
  intros Hf d Hd Hh. destruct (insert_sorted_split K my p l) as (pre & post & -> & E & Hpre & _). rewrite E in *.
  destruct post as [|x post _] using rev_ind.
  - rewrite last_snoc in Hd. injection Hd as <-. split; [done|].
    rewrite app_nil_r, take_app_le, take_ge by lia. done.
  - rewrite app_comm_cons, app_assoc, last_snoc in Hd. injection Hd as ->.
    apply Forall_app in Hf as [_ Hf]. apply Forall_app in Hf as [_ Hf]. by apply Forall_cons in Hf as [? _].
Qed.

(** ** Preservation *)

(** The state after lists and references have been replaced. *)
Definition with_leafsets (r : route_t) (L R : list key_ptr) (refs : gmap key_ptr Z) : route_t :=
  set_leaf_counts (_np_route_leafset_range_update K (set_leafsets r L R)) (sll_size L) (sll_size R) refs.

Definition side_ok (r : route_t) (side : bool) (l : list key_ptr) : Prop :=
  StronglySorted (rank_le (kd_rank K (me r))) l /\ Z.of_nat (length l) <= leafset_size r /\
  Forall (fun p => right_half r p = side) l.

Lemma with_leafsets_wf r L R refs :
  side_ok r false L -> side_ok r true R ->
  Forall (fun p => hash p <> me r) (L ++ R) -> NoDup (map (fun p => hash p) (L ++ R)) ->
  refs_count refs (L ++ R) -> leafset_wf (with_leafsets r L R refs).
Proof. intros (? & ? & ?) (? & ? & ?) ? ? ?. by constructor. Qed.

Lemma wf_left_side r : leafset_wf r -> side_ok r false (left_leafset r).
Proof. intros []. done. Qed.
Lemma wf_right_side r : leafset_wf r -> side_ok r true (right_leafset r).
Proof. intros []. done. Qed.

Lemma unchanged_same r :
  leafset_wf r ->
  set_leaf_counts (set_leafsets r (left_leafset r) (right_leafset r)) (sll_size (left_leafset r))
    (sll_size (right_leafset r)) (inleafset_refs r) = r.
Proof.
  intros [_ _ _ _ _ _ _ _ _ _ Hl Hr _]. destruct r; simpl in *. unfold set_leaf_counts, set_leafsets, sll_size; simpl.
  by rewrite Hl, Hr.
Qed.

Lemma side_ok_delete r side l i : side_ok r side l -> side_ok r side (delete i l).
Proof.
  intros (H1 & H2 & H3). split; [by apply StronglySorted_delete|]. split; [|by apply Forall_delete].
  destruct (decide (i < length l)%nat) as [Hi|Hi].
  - rewrite length_delete by (by apply lookup_lt_is_Some_2). lia.
  - rewrite delete_take_drop, length_app, length_take, length_drop. lia.
Qed.

Lemma side_ok_insert r side l p :
  side_ok r side l -> right_half r p = side -> Z.of_nat (length l) < leafset_size r ->
  side_ok r side (insert_sorted K (me r) p l).
Proof.
  intros (H1 & H2 & H3) Hp Hl. split; [by apply insert_sorted_sorted|]. rewrite insert_sorted_perm.
  split; [simpl; lia|]. by constructor.
Qed.

Lemma side_ok_replace r side l p new d :
  side_ok r side l -> right_half r p = side -> insert_sorted K (me r) p l = new ++ [d] ->
  side_ok r side new.
Proof.
  intros (H1 & H2 & H3) Hp E. pose proof (insert_sorted_perm K (me r) p l) as Hperm. rewrite E in Hperm.
  assert (StronglySorted (rank_le (kd_rank K (me r))) (new ++ [d])) as Hs
    by (rewrite <- E; by apply insert_sorted_sorted).
  split; [|split].
  - rewrite <- (take_app_length new [d]). by apply StronglySorted_take_prefix.
  - apply Permutation_length in Hperm. rewrite length_app in Hperm. simpl in Hperm. lia.
  - assert (Forall (fun q => right_half r q = side) (new ++ [d])) as HF by (rewrite Hperm; by constructor).
    by apply Forall_app in HF as [? _].
Qed.

(** ** The contract *)

Definition leaf_side (side : bool) (r : route_t) : list key_ptr :=
  if side then right_leafset r else left_leafset r.

Definition in_leaf_range (r : route_t) (p : key_ptr) : bool :=
  if right_half r p then _np_dhkey_between (hash p) (me r) (Rrange r) false
  else _np_dhkey_between (hash p) (Lrange r) (me r) false.

Definition join_contract (r r' : route_t) (p : key_ptr) (ch : route_change) : Prop :=
  let side := right_half r p in
  let old := leaf_side side r in
  let new := leaf_side side r' in
  let max := leafset_size r in
  leaf_side (negb side) r' = leaf_side (negb side) r /\
  match deleted ch, added ch with
  | None, None => r' = r /\ Z.of_nat (length old) = max /\
      (in_leaf_range r p = false \/ Forall (fun q => kd_rank K (me r) q < kd_rank K (me r) p) old)
  | None, Some a => a = p /\ Z.of_nat (length old) < max /\ new = insert_sorted K (me r) p old
  | Some d, Some a => a = p /\ Z.of_nat (length old) = max /\ in_leaf_range r p = true /\
      hash d <> hash p /\ insert_sorted K (me r) p old = new ++ [d]
  | Some _, None => False
  end.

Definition leave_contract (r r' : route_t) (p : key_ptr) (ch : route_change) : Prop :=
  (exists side i, leaf_side side r !! i = Some p /\ ch = Change (Some p) None /\
     leaf_side side r' = delete i (leaf_side side r) /\
     leaf_side (negb side) r' = leaf_side (negb side) r) \/
  (r' = r /\ ch = Change None None /\ Forall (fun q => hash q <> hash p) (left_leafset r ++ right_leafset r)).

Definition same_table (r r' : route_t) : Prop :=
  my_key r' = my_key r /\ table r' = table r /\ route_count r' = route_count r /\
  inroute_refs r' = inroute_refs r /\ leafset_size r' = leafset_size r.

(** ** Leaving *)

Lemma map_hash_perm l l' : l ≡ₚ l' -> map (fun p => hash p) l ≡ₚ map (fun p => hash p) l'.
Proof. intros H. by rewrite H. Qed.

(** One key less. *)
Lemma with_leafsets_less r L R p :
  leafset_wf r -> side_ok r false L -> side_ok r true R ->
  p :: L ++ R ≡ₚ left_leafset r ++ right_leafset r ->
  leafset_wf (with_leafsets r L R (np_unref_obj (inleafset_refs r) p)).
Proof.
  intros Hwf HL HR Hp. apply with_leafsets_wf; [done | done | | |].
  - pose proof (no_self r Hwf) as H. rewrite <- Hp in H. by apply Forall_cons in H as [_ ?].
  - pose proof (leaf_nodup r Hwf) as H. rewrite <- (map_hash_perm _ _ Hp) in H. by apply NoDup_cons in H as [_ ?].
  - apply refs_count_unref. rewrite Hp. by destruct Hwf.
Qed.

Lemma not_self r p : hash p <> me r -> (_np_key_cmp K (Some p) (Some (my_key r)) =? 0) = false.
Proof using HK. intros H. apply Z.eqb_neq. intros E. by apply (key_cmp_zero K HK) in E. Qed.

Lemma leafset_leave_ok r p :
  leafset_wf r -> hash p <> me r ->
  (forall q, q ∈ left_leafset r ++ right_leafset r -> hash q = hash p -> q = p) ->
  exists r' ch, _np_route_leafset_update K r p false = Ok (r', Some ch) /\
    leave_contract r r' p ch /\ leafset_wf r' /\ same_table r r'.
Proof using HK.
  intros Hwf Hne Hu. unfold _np_route_leafset_update. rewrite not_self by done.
  unfold leafset_change. cbn [negb].
  destruct (sll_find (right_leafset r) p (_np_key_cmp K)) as [w|] eqn:ER.
  - destruct (sll_find_some _ _ _ ER) as (i & Hi & Hw & _ & ->).
    assert (w = p) as -> by (apply Hu; [apply elem_of_app; right; by eapply list_elem_of_lookup_2 | done]).
    cbn [mbind result_bind]. eexists _, _. split; [done|]. split; [|split; [|done]].
    + left. by exists true, i.
    + apply (with_leafsets_less r (left_leafset r) (delete i (right_leafset r)) p);
        [done | by apply wf_left_side | by apply side_ok_delete, wf_right_side |].
      rewrite (delete_Permutation (right_leafset r) i p Hi) at 2. apply Permutation_middle.
  - destruct (sll_find (left_leafset r) p (_np_key_cmp K)) as [w|] eqn:EL.
    + destruct (sll_find_some _ _ _ EL) as (i & Hi & Hw & -> & _).
      assert (w = p) as -> by (apply Hu; [apply elem_of_app; left; by eapply list_elem_of_lookup_2 | done]).
      cbn [mbind result_bind]. eexists _, _. split; [done|]. split; [|split; [|done]].
      * left. by exists false, i.
      * apply (with_leafsets_less r (delete i (left_leafset r)) (right_leafset r) p);
          [done | by apply side_ok_delete, wf_left_side | by apply wf_right_side |].
        by rewrite (delete_Permutation (left_leafset r) i p Hi) at 2.
    + cbn [mbind result_bind]. eexists _, _. split; [done|].
      cbn [set_leafsets left_leafset right_leafset inleafset_refs]. 
      assert (forall q : route_t, q = r -> leave_contract r q p (Change None None) /\ leafset_wf q /\ same_table r q) as Hsame.
      { intros q ->. split; [|done]. right. do 2 (split; [done|]).
        apply sll_find_none in ER, EL. by apply Forall_app. }
      apply Hsame. exact (unchanged_same r Hwf).
Qed.

(** ** Joining *)

(** One key more. *)
Lemma with_leafsets_more r L R p refs :
  leafset_wf r -> side_ok r false L -> side_ok r true R -> hash p <> me r ->
  Forall (fun q => hash q <> hash p) (left_leafset r ++ right_leafset r) ->
  L ++ R ≡ₚ p :: left_leafset r ++ right_leafset r -> refs_count refs (L ++ R) ->
  leafset_wf (with_leafsets r L R refs).
Proof.
  intros Hwf HL HR Hne Hf Hp Hrefs. apply with_leafsets_wf; [done | done | | | done].
  - rewrite Hp. constructor; [done|]. by destruct Hwf.
  - rewrite (map_hash_perm _ _ Hp). simpl. apply NoDup_cons. split; [|by destruct Hwf].
    intros Hin. apply list_elem_of_fmap in Hin as (q & Hq & Hin). rewrite Forall_forall in Hf.
    by apply (Hf q Hin).
Qed.

(** One key in, one out. *)
Lemma with_leafsets_swap r L R p d refs :
  leafset_wf r -> side_ok r false L -> side_ok r true R -> hash p <> me r ->
  Forall (fun q => hash q <> hash p) (left_leafset r ++ right_leafset r) ->
  d :: L ++ R ≡ₚ p :: left_leafset r ++ right_leafset r -> refs_count refs (L ++ R) ->
  leafset_wf (with_leafsets r L R refs).
Proof.
  intros Hwf HL HR Hne Hf Hp Hrefs. apply with_leafsets_wf; [done | done | | | done].
  - assert (Forall (fun q => hash q <> me r) (d :: L ++ R)) as H.
    { rewrite Hp. constructor; [done|]. by destruct Hwf. }
    by apply Forall_cons in H as [_ ?].
  - assert (NoDup (map (fun p => hash p) (d :: L ++ R))) as H.
    { rewrite (map_hash_perm _ _ Hp). simpl. apply NoDup_cons. split; [|by destruct Hwf].
      intros Hin. apply list_elem_of_fmap in Hin as (q & Hq & Hin). rewrite Forall_forall in Hf.
      by apply (Hf q Hin). }
    by apply NoDup_cons in H as [_ ?].
Qed.

(** The outcome of one side, as the contract states it. *)
Definition join_outcome (r : route_t) (old : list key_ptr) (p : key_ptr) (inr : bool)
    (out : list key_ptr * option key_ptr * option key_ptr) : Prop :=
  let '(new, a, d) := out in
  match d, a with
  | None, None => new = old /\ Z.of_nat (length old) = leafset_size r /\ inr = false
  | None, Some a => a = p /\ Z.of_nat (length old) < leafset_size r /\ new = insert_sorted K (me r) p old
  | Some d, Some a => a = p /\ Z.of_nat (length old) = leafset_size r /\ inr = true /\
      insert_sorted K (me r) p old = new ++ [d]
  | Some _, None => False
  end.

Lemma leafset_join_outcome r side l p inr :
  side_ok r side l -> exists out, leafset_join K r l p inr = Ok out /\ join_outcome r l p inr out.
Proof.
  intros (Hs & Hlen & _). destruct ((sll_size l <? leafset_size r) || inr) eqn:Hc.
  - rewrite leafset_join_room by (done || lia). eexists. split; [done|]. unfold leafset_insert, sll_size in *. cbn.
    pose proof (Permutation_length (insert_sorted_perm K (me r) p l)) as Hl. simpl in Hl.
    destruct (Z.eqb_spec (Z.of_nat (length l)) (leafset_size r)) as [E|E].
    + rewrite <- E, Z.ltb_irrefl in Hc. simpl in Hc. rewrite <- E, Nat2Z.id.
      destruct (insert_sorted K (me r) p l) as [|x l' _] eqn:El using rev_ind; [done|].
      rewrite last_snoc. split; [done|]. split; [done|]. split; [done|]. f_equal.
      rewrite length_app in Hl. simpl in Hl. rewrite take_app_le, take_ge by lia. done.
    + split; [done|]. split; [lia|]. apply take_ge. lia.
  - apply orb_false_iff in Hc as [Hc ->]. eexists. rewrite leafset_join_full by (done || lia). split; [done|].
    apply Z.ltb_ge in Hc. unfold sll_size in Hc. split; [done|]. split; [lia | done].
Qed.

(** The end of the update: what the lists, the added and the removed key make of
    the state. *)
Definition finish_update (r : route_t) (L R : list key_ptr) (a d : option key_ptr) : route_t * option route_change :=
  let '(a, d) := match d with
                 | Some _ => if _np_key_cmp K d a =? 0 then (None, None) else (a, d)
                 | None => (a, d) end in
  let r := set_leafsets r L R in
  let r := match d, a with None, None => r | _, _ => _np_route_leafset_range_update K r end in
  let refs := inleafset_refs r in
  let refs := match a with Some a => np_ref_obj refs a | None => refs end in
  let refs := match d with Some d => np_unref_obj refs d | None => refs end in
  (set_leaf_counts r (sll_size (left_leafset r)) (sll_size (right_leafset r)) refs, Some (Change d a)).

Definition with_side (r : route_t) (side : bool) (l : list key_ptr) : list key_ptr * list key_ptr :=
  if side then (left_leafset r, l) else (l, right_leafset r).

Lemma with_side_perm r side l new p :
  l ≡ₚ p :: new -> leaf_side side r = new ->
  (with_side r side l).1 ++ (with_side r side l).2 ≡ₚ p :: left_leafset r ++ right_leafset r.
Proof.
  intros Hp <-. destruct side; simpl in *; rewrite Hp; [symmetry; apply Permutation_middle | done].
Qed.

Lemma with_side_ok r side l :
  leafset_wf r -> side_ok r side l ->
  side_ok r false (with_side r side l).1 /\ side_ok r true (with_side r side l).2.
Proof. intros Hwf. destruct side; simpl; intros; split; auto using wf_left_side, wf_right_side. Qed.

Lemma leaf_side_ok r side : leafset_wf r -> side_ok r side (leaf_side side r).
Proof. destruct side; [apply wf_right_side | apply wf_left_side]. Qed.

Lemma in_leaf_side side r q : q ∈ leaf_side side r -> q ∈ left_leafset r ++ right_leafset r.
Proof. intros Hq. apply elem_of_app. destruct side; auto. Qed.

Lemma finish_join_ok r p side new a d :
  leafset_wf r -> hash p <> me r -> right_half r p = side ->
  Forall (fun q => hash q <> hash p) (left_leafset r ++ right_leafset r) ->
  join_outcome r (leaf_side side r) p (in_leaf_range r p) (new, a, d) ->
  let LR := with_side r side new in
  exists r' ch, finish_update r LR.1 LR.2 a d = (r', Some ch) /\
    join_contract r r' p ch /\ leafset_wf r' /\ same_table r r'.
Proof using HK.
  intros Hwf Hne Hside Hf Hout LR. pose proof (leaf_side_ok r side Hwf) as Hok.
  assert (forall q, q ∈ leaf_side side r -> hash q <> hash p) as Hf'.
  { intros q Hq. rewrite Forall_forall in Hf. by apply Hf, (in_leaf_side side). }
  assert (forall r' ch, r' = r -> ch = Change None None -> Z.of_nat (length (leaf_side side r)) = leafset_size r ->
    (in_leaf_range r p = false \/ Forall (fun q => kd_rank K (me r) q < kd_rank K (me r) p) (leaf_side side r)) ->
    join_contract r r' p ch /\ leafset_wf r' /\ same_table r r') as Hsame.
  { intros r' ch -> -> Hl Hr. split; [|done]. unfold join_contract. rewrite Hside. cbn. done. }
  assert (with_side r side (leaf_side side r) = (left_leafset r, right_leafset r)) as Hold by (by destruct side).
  unfold finish_update. destruct d as [d|], a as [a|]; cbn in Hout; [|done| |].
  - destruct Hout as (-> & Hlen & Hr & Hins).
    assert (last (insert_sorted K (me r) p (leaf_side side r)) = Some d) as Hlast by (by rewrite Hins, last_snoc).
    destruct (Z.eqb_spec (_np_key_cmp K (Some d) (Some p)) 0) as [Ec|Ec].
    + apply (key_cmp_zero K HK) in Ec.
      destruct (insert_last_self (me r) _ p ltac:(by rewrite Forall_forall) d Hlast Ec) as (-> & Htake & Hfar).
      assert (new = leaf_side side r) as Hnew.
      { rewrite <- Htake, Hins, take_app_le; [symmetry; apply take_ge|];
          pose proof (Permutation_length (insert_sorted_perm K (me r) p (leaf_side side r))) as Hpl;
          rewrite Hins, length_app in Hpl; simpl in Hpl; lia. }
      unfold LR. rewrite Hnew, Hold. eexists _, _. split; [done|].
      apply Hsame; [exact (unchanged_same r Hwf) | done | done | by right].
    + eexists _, _. split; [done|].
      assert (hash d <> hash p) as Hdp by (intros E; apply Ec; by apply (key_cmp_zero K HK)).
      pose proof (side_ok_replace r side _ p new d Hok Hside Hins) as Hnew.
      destruct (with_side_ok r side new Hwf Hnew) as [HL HR]. fold LR in HL, HR.
      assert (d :: LR.1 ++ LR.2 ≡ₚ p :: left_leafset r ++ right_leafset r) as Hperm.
      { pose proof (insert_sorted_perm K (me r) p (leaf_side side r)) as Hpm. rewrite Hins in Hpm.
        rewrite <- Permutation_cons_append in Hpm. unfold LR. destruct side; simpl in *.
        - by rewrite Permutation_middle, Hpm, <- Permutation_middle.
        - by rewrite app_comm_cons, Hpm. }
      split; [|split; [|done]].
      * unfold join_contract. rewrite Hside. unfold LR. destruct side; done.
      * apply (with_leafsets_swap r LR.1 LR.2 p d); [done..|]. apply refs_count_unref. rewrite Hperm.
        apply refs_count_ref. by destruct Hwf.
  - destruct Hout as (-> & Hlen & ->). eexists _, _. split; [done|].
    pose proof (side_ok_insert r side _ p Hok Hside Hlen) as Hnew.
    destruct (with_side_ok r side _ Hwf Hnew) as [HL HR]. fold LR in HL, HR.
    pose proof (with_side_perm r side _ _ p (insert_sorted_perm K (me r) p (leaf_side side r)) eq_refl) as Hperm.
    fold LR in Hperm. split; [|split; [|done]].
    + unfold join_contract. rewrite Hside. unfold LR. destruct side; done.
    + apply (with_leafsets_more r LR.1 LR.2 p); [done..|]. rewrite Hperm. apply refs_count_ref. by destruct Hwf.
  - destruct Hout as (-> & Hlen & Hr). unfold LR. rewrite Hold. eexists _, _. split; [done|].
    apply Hsame; [exact (unchanged_same r Hwf) | done | done | by left].
Qed.

Lemma leafset_join_ok r p :
  leafset_wf r -> hash p <> me r ->
  exists r' ch, _np_route_leafset_update K r p true = Ok (r', Some ch) /\ leafset_wf r' /\ same_table r r' /\
    (if decide (Forall (fun q => hash q <> hash p) (left_leafset r ++ right_leafset r))
     then join_contract r r' p ch else r' = r /\ ch = Change None None).
Proof using HK.
  intros Hwf Hne. unfold _np_route_leafset_update. rewrite not_self by done. unfold leafset_change. cbn [negb].
  case_decide as Hf.
  - apply Forall_app in Hf as [HfL HfR].
    rewrite (proj2 (sll_find_none (right_leafset r) p)), (proj2 (sll_find_none (left_leafset r) p)) by done.
    fold (right_half r p). destruct (right_half r p) eqn:Es.
    + destruct (leafset_join_outcome r true (right_leafset r) p (in_leaf_range r p)) as ([[new a] d] & Hj & Hout).
      { by apply wf_right_side. }
      pose proof (finish_join_ok r p true new a d Hwf Hne Es ltac:(by apply Forall_app) Hout)
        as (r' & ch & Hfin & Hc & Hwf' & Hst).
      unfold in_leaf_range in Hj. rewrite Es in Hj. rewrite Hj. cbn [mbind result_bind].
      exists r', ch. split; [|split; [done|]; by split]. rewrite <- Hfin. unfold finish_update. simpl.
      destruct d; [|done]. by destruct (_np_key_cmp K _ a =? 0).
    + destruct (leafset_join_outcome r false (left_leafset r) p (in_leaf_range r p)) as ([[new a] d] & Hj & Hout).
      { by apply wf_left_side. }
      pose proof (finish_join_ok r p false new a d Hwf Hne Es ltac:(by apply Forall_app) Hout)
        as (r' & ch & Hfin & Hc & Hwf' & Hst).
      unfold in_leaf_range in Hj. rewrite Es in Hj. rewrite Hj. cbn [mbind result_bind].
      exists r', ch. split; [|split; [done|]; by split]. rewrite <- Hfin. unfold finish_update. simpl.
      destruct d; [|done]. by destruct (_np_key_cmp K _ a =? 0).
  - exists r, (Change None None). split; [|split; [done|]; by split].
    assert (sll_find (right_leafset r) p (_np_key_cmp K) <> None \/
            sll_find (left_leafset r) p (_np_key_cmp K) <> None) as Hs.
    { destruct (sll_find (right_leafset r) p (_np_key_cmp K)) eqn:ER; [by left|].
      destruct (sll_find (left_leafset r) p (_np_key_cmp K)) eqn:EL; [by right|].
      exfalso. apply Hf. apply sll_find_none in ER, EL. by apply Forall_app. }
    assert (forall b : route_t, b = r -> Ok (b, Some (Change None None)) = Ok (r, Some (Change None None))) as Hb
      by (by intros b ->).
    destruct (sll_find (right_leafset r) p (_np_key_cmp K)), (sll_find (left_leafset r) p (_np_key_cmp K));
      try (cbn [mbind result_bind]; apply Hb; exact (unchanged_same r Hwf)). by destruct Hs.
Qed.
End Leafset.

(** C6: one update of the leafsets.  The own key is ignored.  For any other key
    and leafsets in shape (sorted by distance, each key on its half of the ring,
    no hash twice, within the size, ranges at the furthest keys, counts and
    references exact) the call returns and keeps the shape and the table.  A
    leaving key is taken out of its list; a joining key that is new is inserted
    in order into the list of its half: when there is room, or, in a full list,
    when it is inside the range and another key is the furthest, which then falls
    out.  The out parameters name the keys added and removed. *)
Theorem leafset_update_spec K r p joined :
  keys_wf K -> leafset_wf K r ->
  (forall q, q ∈ left_leafset r ++ right_leafset r -> dhkey (K q) = dhkey (K p) -> q = p) ->
  (dhkey (K p) = dhkey (K (my_key r)) -> _np_route_leafset_update K r p joined = Ok (r, None)) /\
  (dhkey (K p) <> dhkey (K (my_key r)) ->
   exists r' ch, _np_route_leafset_update K r p joined = Ok (r', Some ch) /\
     leafset_wf K r' /\ same_table r r' /\
     (joined = false -> leave_contract K r r' p ch) /\
     (joined = true -> p ∉ left_leafset r ++ right_leafset r -> join_contract K r r' p ch) /\
     (joined = true -> p ∈ left_leafset r ++ right_leafset r -> r' = r /\ ch = Change None None)).
Proof.
  intros HK Hwf Hu. split.
  { intros E. unfold _np_route_leafset_update. apply (key_cmp_zero K HK) in E. by rewrite E. }
  intros Hne. destruct joined.
  - destruct (leafset_join_ok K HK r p Hwf Hne) as (r' & ch & Hr & Hwf' & Hst & Hc).
    exists r', ch. do 3 (split; [done|]). split; [done|].
    case_decide as Hf; (split; [intros _ Hp; try done | intros _ Hp; try done]).
    + rewrite Forall_forall in Hf. by destruct (Hf p Hp).
    + exfalso. apply Hf. apply Forall_forall. intros q Hq E. by rewrite (Hu q Hq E) in Hq.
  - destruct (leafset_leave_ok K HK r p Hwf Hne Hu) as (r' & ch & Hr & Hc & Hwf' & Hst).
    exists r', ch. do 3 (split; [done|]). done.
Qed.

Lemma leafset_update_spec_witness :
  let r0 := _np_route_init example_keys 2 1 in
  exists r' ch, _np_route_leafset_update example_keys r0 33 true = Ok (r', Some ch) /\
    join_contract example_keys r0 r' 33 ch.
Proof.
  intros r0. destruct (leafset_update_spec example_keys r0 33 true) as [_ H].
  - exact example_keys_wf.
  - constructor; try done; try constructor.
  - intros q []%not_elem_of_nil.
  - destruct H as (r' & ch & H1 & _ & _ & _ & H2 & _); [by vm_compute|].
    exists r', ch. split; [exact H1|]. apply H2; [done|]. apply not_elem_of_nil.
Defined.

(** ** Clearing *)

Section Clear.
Context (K : key_ptr -> np_key_t) (HK : keys_wf K).
Abbreviation hash p := (dhkey (K p)).
Abbreviation me r := (hash (my_key r)).

Lemma nodup_hash_unique l p q :
  NoDup (map (fun p => hash p) l) -> p ∈ l -> q ∈ l -> hash p = hash q -> p = q.
Proof.
  induction l as [|x l IH]; [by intros _ ?%not_elem_of_nil|]. simpl. intros [Hx Hnd]%NoDup_cons Hp Hq E.
  apply elem_of_cons in Hp as [->|Hp], Hq as [->|Hq]; [done| | |by apply IH]; destruct Hx; apply list_elem_of_fmap; eauto.
Qed.

Lemma leafset_clear_loop todo r del :
  leafset_wf K r -> todo ≡ₚ left_leafset r ++ right_leafset r ->
  exists r' del', foldM (leafset_clear_step K) todo (r, del) = Ok (r', del') /\
    left_leafset r' = [] /\ right_leafset r' = [] /\ leafset_wf K r' /\ same_table r r'.
Proof using HK.
  revert r del. induction todo as [|p todo IH]; intros r del Hwf Hp.
  - apply Permutation_nil_l in Hp. symmetry in Hp; apply app_eq_nil in Hp as [HL HR]. by exists r, del.
  - assert (p ∈ left_leafset r ++ right_leafset r) as Hin by (rewrite <- Hp; by left).
    pose proof (no_self K r Hwf) as Hns. rewrite Forall_forall in Hns.
    destruct (leafset_leave_ok K HK r p Hwf (Hns p Hin)) as (r1 & ch & Hr & Hc & Hwf1 & Hst).
    { intros q Hq E. eapply nodup_hash_unique; [by destruct Hwf | done..]. }
    destruct Hc as [(side & i & Hi & -> & Hdel & Hother)|(_ & _ & Hf)]; cycle 1.
    { rewrite Forall_forall in Hf. by destruct (Hf p Hin). }
    destruct (IH r1 (Some p)) as (r' & del' & Hrun & HL & HR & Hwf' & Hst'); [done| |].
    { apply (Permutation_cons_inv (a := p)). rewrite Hp. destruct side; simpl in *; rewrite Hother, Hdel.
      - rewrite (delete_Permutation (right_leafset r) i p Hi) at 1. symmetry. apply Permutation_middle.
      - by rewrite (delete_Permutation (left_leafset r) i p Hi) at 1. }
    exists r', del'. split; [|do 3 (split; [done|]); unfold same_table in *; intuition congruence].
    cbn [foldM].
    assert (leafset_clear_step K p (r, del) = Ok (r1, Some p)) as ->; [|exact Hrun].
    unfold leafset_clear_step. rewrite Hr. cbn [mbind result_bind deleted]. by rewrite bool_decide_true.
Qed.

Lemma leafset_clear_ok r :
  leafset_wf K r ->
  exists r', _np_route_leafset_clear K r = Ok r' /\
    left_leafset r' = [] /\ right_leafset r' = [] /\ leafset_wf K r' /\ same_table r r'.
Proof using HK.
  intros Hwf. unfold _np_route_leafset_clear, _np_route_neighbors, _np_route_append_leafset_to_sll.
  rewrite app_nil_l.
  destruct (sort_keys_kd_ok K (me r) (left_leafset r ++ right_leafset r)) as (l & -> & Hp & _).
  cbn [mbind result_bind].
  destruct (leafset_clear_loop l r None Hwf Hp) as (r' & del' & -> & H). cbn [mbind result_bind]. by exists r'.
Qed.

Context (alive : key_ptr -> bool).

(** One loop over the entries. *)
Lemma for_table_flat {S} (body : Z -> S -> result S) s :
  for_table body s = for_range 0 (Z.to_nat NP_ROUTES_TABLE_SIZE) (fun i => body (Z.of_nat i)) s.
Proof.
  unfold for_table. trans (for_range 0 64 (fun i => for_range 0 48 (fun j => body (Z.of_nat (i * 48 + j)))) s).
  - apply for_range_ext. intros i s' _.
    rewrite <- (for_range_nested 16 3 (fun k => body (Z.of_nat (i * 48 + k)))).
    apply for_range_ext. intros j s2 _. apply for_range_ext. intros k s3 _. f_equal.
    unfold bucket_index, __MAX_ENTRY, __MAX_COL. lia.
  - apply (for_range_nested 64 48 (fun i => body (Z.of_nat i))).
Qed.

Definition cleared_to (n : nat) (r r' : route_t) : Prop :=
  table_wf K r' /\ same_leafsets r r' /\ (forall idx, (idx < n)%nat -> table r' !! idx = Some None) /\
  (forall p, Some p ∈ table r' -> Some p ∈ table r).

Definition clear_step (idx : Z) (r : route_t) : result route_t :=
  e ← rd (table r) idx;
  match e with
  | Some item =>
      '(r, _) ← _np_route_update K alive r item false;
      t ← wr (table r) idx None;
      Ok (set_table r t)
  | None => Ok r
  end.

(** The first entry of a key in its bucket is the entry itself when those before
    it are empty. *)
Lemma first_entry r b n n' p q :
  0 <= b -> (forall idx, (idx < Z.to_nat (b + Z.of_nat n))%nat -> table r !! idx = Some None) ->
  table r !! Z.to_nat (b + Z.of_nat n) = Some (Some p) ->
  bucket (table r) b !! n' = Some (Some q) -> hash q = hash p -> Forall (absent K p) (take n' (bucket (table r) b)) ->
  (n < 3)%nat -> n' = n.
Proof.
  intros H0 Hbefore Hn Hn' Hq Habs H3. destruct (bucket_lookup _ _ _ _ H0 Hn') as [Hl Hn3].
  destruct (lt_eq_lt_dec n' n) as [[Hlt|]|Hgt]; [|done|].
  - rewrite Hbefore in Hl by lia. done.
  - assert (bucket (table r) b !! n = Some (Some p)) as Hb.
    { unfold bucket. rewrite lookup_take_lt, lookup_drop by lia. rewrite <- Hn. f_equal. lia. }
    assert (take n' (bucket (table r) b) !! n = Some (Some p)) as Ht by (by rewrite lookup_take_lt).
    apply (Forall_lookup_1 _ _ _ _ Habs) in Ht as [?|(x & [= <-] & Hx)]; done.
Qed.

Lemma clear_step_ok n r0 r :
  has_nodes K -> (forall p q, Some p ∈ table r0 -> Some q ∈ table r0 -> hash p = hash q -> p = q) ->
  cleared_to n r0 r -> (n < Z.to_nat NP_ROUTES_TABLE_SIZE)%nat ->
  exists r', clear_step (Z.of_nat n) r = Ok r' /\ cleared_to (S n) r0 r'.
Proof using HK.
  intros HN Hu (Hwf & Hls & Hbefore & Hsub) Hn. pose proof (table_len K r Hwf) as Hlen. unfold clear_step.
  destruct (rd_ok (table r) (Z.of_nat n)) as (e & -> & He); [lia|]. rewrite Nat2Z.id in He. cbn [mbind result_bind].
  destruct e as [p|]; cycle 1.
  { exists r. split; [done|]. do 2 (split; [done|]). split; [|done]. intros idx Hidx.
    destruct (decide (idx = n)) as [->|]; [done|]. apply Hbefore. lia. }
  destruct (table_place K r Hwf n p He) as (Hne & b & k & Hb & Hk & Hidx).
  assert (forall q, Some q ∈ table r -> hash q = hash p -> q = p) as Hu'.
  { intros q Hq. apply Hu; apply Hsub; [done | by eapply list_elem_of_lookup_2]. }
  destruct (route_update_ok K alive HK r p false (known_nodes K r p HN) Hwf Hu' Hne) as (b' & r1 & d & a & Hb' & -> & Hc & Hwf1 & Hls1).
  rewrite Hb in Hb'. injection Hb' as <-.
  destruct (bucket_of_ok K HK r _ (HK p) Hne) as (i & j & _ & _ & _ & _ & _ & Hb' & H0 & H3 & _).
  rewrite Hb in Hb'. injection Hb' as Hb'. rewrite <- Hb' in H0, H3.
  assert (Z.to_nat (b + Z.of_nat (Z.to_nat k)) = n) as Hat by lia.
  assert (table r1 = <[n := None]> (table r)) as Ht1.
  { destruct d as [d|], a as [a|]; cbn in Hc; try done.
    - destruct Hc as (_ & n' & q & Hq & Hqh & Habs & ->).
      rewrite <- Hat in He, Hbefore.
      rewrite (first_entry r b (Z.to_nat k) n' p q H0 Hbefore He Hq Hqh Habs) by lia. by rewrite Hat.
    - destruct Hc as [_ Habs]. exfalso.
      assert (bucket (table r) b !! Z.to_nat k = Some (Some p)) as Hbk.
      { unfold bucket. rewrite lookup_take_lt, lookup_drop by lia. rewrite <- He. f_equal. lia. }
      apply (Forall_lookup_1 _ _ _ _ Habs) in Hbk as [?|(x & [= <-] & Hx)]; done. }
  cbn [mbind result_bind]. rewrite wr_ok by (rewrite Ht1, length_insert; lia). cbn [mbind result_bind].
  exists r1. split.
  { rewrite Nat2Z.id, Ht1, list_insert_insert_eq, <- Ht1. by rewrite set_table_same. }
  split; [done|]. split; [unfold same_leafsets in *; intuition congruence|]. rewrite Ht1. split.
  - intros idx Hi. destruct (decide (idx = n)) as [->|]; [by rewrite list_lookup_insert_eq by lia|].
    rewrite list_lookup_insert_ne by done. apply Hbefore. lia.
  - intros q Hq. apply Hsub. by destruct (written_members _ _ _ _ Hq).
Qed.

Lemma route_clear_ok r :
  has_nodes K -> table_wf K r -> leafset_wf K r ->
  (forall p q, Some p ∈ table r -> Some q ∈ table r -> hash p = hash q -> p = q) ->
  exists r', _np_route_clear K alive r = Ok r' /\ entries (table r') = [] /\ table_wf K r' /\
    left_leafset r' = [] /\ right_leafset r' = [] /\ leafset_wf K r'.
Proof using HK.
  intros HN Hwf Hlwf Hu. unfold _np_route_clear.
  change (for_table _ r) with (for_table clear_step r). rewrite for_table_flat.
  destruct (for_range_inv (fun n r' => cleared_to n r r') 0 (Z.to_nat NP_ROUTES_TABLE_SIZE)
    (fun i => clear_step (Z.of_nat i)) r) as (r1 & -> & Hwf1 & Hls & Hall & _).
  { split; [done|]. split; [done|]. split; [intros; lia | done]. }
  { intros n r1 Hn Hc. apply clear_step_ok; [done | done | done | lia]. }
  cbn [mbind result_bind]. destruct Hls as (E1 & E2 & E3 & E4 & E5 & E6 & E7 & E8 & E9).
  assert (leafset_wf K r1) as Hlwf1.
  { destruct Hlwf. constructor; unfold right_half; rewrite ?E1, ?E2, ?E3, ?E4, ?E5, ?E6, ?E7, ?E8, ?E9; done. }
  destruct (leafset_clear_ok r1 Hlwf1) as (r' & Hr & HL & HR & Hlwf' & T1 & T2 & T3 & T4 & T5).
  exists r'. split; [done|].
  assert (table_wf K r') as Hwf'.
  { destruct Hwf1 as [W1 W2 W3 W4]. constructor; unfold bucket_of, row_of in *;
      rewrite ?T1, ?T2, ?T3, ?T4; done. }
  split; [|done]. rewrite T2. apply elem_of_nil_inv. intros p Hp.
  apply list_elem_of_omap in Hp as (e & He & Hid). cbn in Hid. subst e.
  apply list_elem_of_lookup_1 in He as [i Hi]. rewrite Hall in Hi; [done|].
  rewrite <- (table_len K r1 Hwf1). simpl. by eapply lookup_lt_Some.
Qed.
End Clear.

(** Clearing the routing module.  From a table and leafsets in shape, with one
    object per hash, the assertion that every leafset key is reported as deleted
    never fails; afterwards the table and both leafsets are empty, all three
    counts are 0, the module holds no reference to any key, both ranges are the
    own key and the node has no connection. *)
Theorem route_clear_spec K alive r :
  keys_wf K -> has_nodes K -> table_wf K r -> leafset_wf K r ->
  (forall p q, Some p ∈ table r -> Some q ∈ table r -> dhkey (K p) = dhkey (K q) -> p = q) ->
  exists r', _np_route_clear K alive r = Ok r' /\
    entries (table r') = [] /\ left_leafset r' = [] /\ right_leafset r' = [] /\
    _np_route_my_key_count_routes r' = 0 /\ _np_route_my_key_count_neighbors r' = (0, 0, 0) /\
    (forall p, default 0 (inroute_refs r' !! p) = 0 /\ default 0 (inleafset_refs r' !! p) = 0) /\
    Rrange r' = dhkey (K (my_key r')) /\ Lrange r' = dhkey (K (my_key r')) /\
    _np_route_my_key_has_connection r' = false.
Proof.
  intros HK HN Hwf Hlwf Hu. destruct (route_clear_ok K HK alive r HN Hwf Hlwf Hu) as (r' & Hr & He & Hwf' & HL & HR & Hlwf').
  exists r'. do 4 (split; [done|]).
  destruct Hwf' as [_ _ Hc Hrefs]. destruct Hlwf' as [_ _ _ _ _ _ _ _ Hrr Hlr Hcl Hcr Hlrefs].
  rewrite He in Hc, Hrefs. rewrite HL in *. rewrite HR in *. simpl in Hcl, Hcr, Hc.
  unfold _np_route_my_key_has_connection, _np_route_my_key_count_routes, _np_route_my_key_count_neighbors.
  rewrite Hc, Hcl, Hcr. by repeat split.
Qed.

Lemma route_clear_spec_witness :
  exists r r', _np_route_update example_keys held (_np_route_init example_keys 2 1) 33 true = Ok (r, Some (Change None (Some 33%positive))) /\
    _np_route_clear example_keys held (_np_route_init example_keys 2 1) = Ok r' /\ entries (table r') = [].
Proof.
  destruct (route_clear_spec example_keys held (_np_route_init example_keys 2 1)) as (r' & H1 & H2 & _).
  - exact example_keys_wf.
  - intros p. by eexists.
  - apply init_table_wf.
  - constructor; try done; try constructor.
  - intros p q Hp. apply list_elem_of_lookup_1 in Hp as [i Hi]. by apply lookup_replicate in Hi as [? _].
  - eexists _, r'. split; [by vm_compute|]. by split.
Defined.
