(* ===== verification/RouteLookup.v ===== *)
(** * Looking up routes: theorems

    A matching entry of the table brings a message strictly closer: the next
    hop shares a longer prefix with the target, so prefix routing reaches it in
    at most 64 hops; the other branches of the lookup and the walk of the
    neighbour lookup terminate and stay inside the table. *)
From Stdlib Require Import ZArith Lia QArith Lqa.
From stdpp Require Import prelude gmap fin_maps sorting.
From S2P Require Import Prelude Real Dhkey Key KeySort Route RouteTable RouteLeafset.

Local Open Scope Z_scope.

Section Lookup.
Context (K : key_ptr -> np_key_t) (HK : keys_wf K) (HN : has_nodes K).
Abbreviation hash p := (dhkey (K p)).
Abbreviation me r := (hash (my_key r)).

Definition succ (p : key_ptr) : Q := match nodeinfo (K p) with Some n => success_avg n | None => 0 end.
Definition met (p : key_ptr) : Q := match nodeinfo (K p) with Some n => metric n | None => 0 end.
Definition usable (p : key_ptr) : Prop := (BAD_LINK < succ p)%Q.
Definition usable_entry (e : option key_ptr) : Prop := exists p, e = Some p /\ usable p.

Lemma node_success p : node_field success_avg (K p) = Ok (succ p).
Proof using HN. unfold node_field, succ, _np_key_get_node. by destruct (HN p) as [n ->]. Qed.

Lemma node_metric p : node_field metric (K p) = Ok (met p).
Proof using HN. unfold node_field, met, _np_key_get_node. by destruct (HN p) as [n ->]. Qed.

Lemma usable_dec p : Qltb BAD_LINK (succ p) = true <-> usable p.
Proof. apply Qltb_lt. Qed.

(** ** The bucket of the target *)

Lemma match_scan_spec t b :
  0 <= b -> b + 3 <= Z.of_nat (length t) ->
  exists res, match_scan K t b slots = Ok res /\
    match res with
    | Some p => Some p ∈ bucket t b /\ usable p
    | None => Forall (fun e => ~ usable_entry e) (bucket t b)
    end.
Proof using HN.
  intros H0 H3. destruct (bucket_slots t b H0 H3) as (e0 & e1 & e2 & -> & R0 & R1 & R2).
  assert (forall e, (exists p, e = Some p /\ usable p) \/ ~ usable_entry e) as Hcase.
  { intros [p|]; [|right; by intros (? & ? & _)]. destruct (Qltb BAD_LINK (succ p)) eqn:E.
    - left. exists p. split; [done|]. by apply usable_dec.
    - right. intros (q & [= <-] & Hq). apply usable_dec in Hq. congruence. }
  assert (forall e k ks, rd t (b + k) = Ok e -> ~ usable_entry e ->
            match_scan K t b (k :: ks) = match_scan K t b ks) as Hskip.
  { intros [p|] k ks R Hu; cbn [match_scan]; rewrite R; cbn [mbind result_bind]; [|done].
    rewrite node_success. cbn [mbind result_bind]. destruct (Qltb BAD_LINK (succ p)) eqn:E; [|done].
    destruct Hu. exists p. split; [done|]. by apply usable_dec. }
  assert (forall p k ks, rd t (b + k) = Ok (Some p) -> usable p ->
            match_scan K t b (k :: ks) = Ok (Some p)) as Hfound.
  { intros p k ks R Hp. cbn [match_scan]. rewrite R. cbn [mbind result_bind].
    rewrite node_success. cbn [mbind result_bind]. apply usable_dec in Hp. by rewrite Hp. }
  unfold slots. destruct (Hcase e0) as [(p & -> & Hp)|N0].
  { exists (Some p). rewrite (Hfound p) by done. split; [done|]. split; [by left | done]. }
  rewrite (Hskip e0) by done. destruct (Hcase e1) as [(p & -> & Hp)|N1].
  { exists (Some p). rewrite (Hfound p) by done. split; [done|]. split; [right; by left | done]. }
  rewrite (Hskip e1) by done. destruct (Hcase e2) as [(p & -> & Hp)|N2].
  { exists (Some p). rewrite (Hfound p) by done. split; [done|]. split; [right; right; by left | done]. }
  rewrite (Hskip e2) by done. exists None. split; [done|]. by list_forall.
Qed.

(** One step of the search for a better entry keeps the better of two. *)
Lemma better_step_spec r b k e p :
  rd (table r) (b + k) = Ok e ->
  (forall q, e = Some q -> hash q = hash p -> q = p) ->
  exists m, better_step K r b k p = Ok m /\ (m = p \/ e = Some m) /\ (met m <= met p)%Q /\
    (forall q, e = Some q -> (met m <= met q)%Q).
Proof using HK HN.
  intros R Hu. unfold better_step. rewrite R. cbn [mbind result_bind]. destruct e as [q|].
  - rewrite equal_hash by done. destruct (decide (hash q = hash p)) as [E|E].
    + rewrite bool_decide_true by done. cbn [negb]. rewrite (Hu q eq_refl E). exists p. split; [done|].
      split; [by left|]. split; [lra|]. intros ? [= <-]. lra.
    + rewrite bool_decide_false by done. cbn [negb]. rewrite !node_metric. cbn [mbind result_bind].
      destruct (Qltb (met q) (met p)) eqn:EQ; [apply Qltb_lt in EQ | apply Qltb_ge in EQ].
      * exists q. split; [done|]. split; [by right|]. split; [lra|]. intros ? [= <-]. lra.
      * exists p. split; [done|]. split; [by left|]. split; [lra|]. intros ? [= <-]. lra.
  - exists p. split; [done|]. split; [by left|]. split; [lra|]. done.
Qed.

Lemma better_loop_spec r b p :
  0 <= b -> b + 3 <= Z.of_nat (length (table r)) ->
  (forall q q', Some q ∈ table r -> Some q' ∈ table r -> hash q = hash q' -> q = q') ->
  Some p ∈ bucket (table r) b ->
  exists m, foldM (better_step K r b) slots p = Ok m /\ Some m ∈ bucket (table r) b /\
    (forall q, Some q ∈ bucket (table r) b -> (met m <= met q)%Q).
Proof using HK HN.
  intros H0 H3 Hu Hp. destruct (bucket_slots (table r) b H0 H3) as (e0 & e1 & e2 & Eb & R0 & R1 & R2).
  assert (forall q, Some q ∈ bucket (table r) b -> Some q ∈ table r) as Hin.
  { intros q Hq. apply list_elem_of_lookup_1 in Hq as [n Hn]. apply bucket_lookup in Hn as [Hn _]; [|done].
    by eapply list_elem_of_lookup_2. }
  rewrite Eb in *. unfold slots. cbn [foldM].
  assert (forall e q q', e ∈ [e0; e1; e2] -> Some q' ∈ [e0; e1; e2] -> e = Some q -> hash q = hash q' -> q = q') as Hu'.
  { intros e q q' He Hq' -> E. apply Hu; auto. }
  destruct (better_step_spec r b 0 e0 p R0) as (m0 & -> & M0 & L0 & B0).
  { intros q E. eapply Hu'; [by left | done | done]. }
  cbn [mbind result_bind].
  assert (Some m0 ∈ [e0; e1; e2]) as I0 by (destruct M0 as [->|<-]; [done | by left]).
  destruct (better_step_spec r b 1 e1 m0 R1) as (m1 & -> & M1 & L1 & B1).
  { intros q E. eapply Hu'; [right; by left | done | done]. }
  cbn [mbind result_bind].
  assert (Some m1 ∈ [e0; e1; e2]) as I1 by (destruct M1 as [->|<-]; [done | right; by left]).
  destruct (better_step_spec r b 2 e2 m1 R2) as (m2 & -> & M2 & L2 & B2).
  { intros q E. eapply Hu'; [right; right; by left | done | done]. }
  assert (Some m2 ∈ [e0; e1; e2]) as I2 by (destruct M2 as [->|<-]; [done | right; right; by left]).
  exists m2. split; [done|]. split; [done|]. intros q Hq.
  apply elem_of_cons in Hq as [<-|Hq]; [specialize (B0 q eq_refl); lra|].
  apply elem_of_cons in Hq as [<-|Hq]; [specialize (B1 q eq_refl); lra|].
  apply list_elem_of_singleton in Hq as <-. by apply B2.
Qed.

(** An entry in the bucket of [key] shares a longer prefix with it than this node. *)
Lemma bucket_progress r key b q :
  table_wf K r -> dhkey_wf key -> key <> me r -> bucket_of K r key = Ok b -> Some q ∈ bucket (table r) b ->
  _np_dhkey_index (me r) key < _np_dhkey_index (hash q) key.
Proof using HK.
  intros Hwf Hk Hne Hb Hq. apply list_elem_of_lookup_1 in Hq as [n Hn].
  destruct (bucket_of_ok K HK r key Hk Hne) as (i & j & _ & Hj & Hi & _ & Ei & Hb' & H0 & _ & Hmod).
  rewrite Hb in Hb'. injection Hb' as ->.
  destruct (bucket_lookup _ _ _ _ H0 Hn) as [Hl Hn3].
  destruct (table_place K r Hwf _ _ Hl) as (Hqne & b' & k & Hbq & Hk3 & Hidx).
  destruct (bucket_of_ok K HK r (hash q) (HK q) Hqne) as (i' & j' & _ & Hj' & Hi' & Hjr' & Ei' & Hb' & H0' & _ & Hmod').
  rewrite Hbq in Hb'. injection Hb' as ->.
  destruct (bucket_of_ok K HK r key Hk Hne) as (i2 & j2 & _ & Hj2 & _ & Hjr2 & Ei2 & _).
  assert (i2 = i) as -> by congruence. assert (j2 = j) as -> by congruence.
  assert (i = i' /\ j = j') as [<- <-].
  { unfold bucket_index, __MAX_ENTRY, __MAX_COL in *. lia. }
  rewrite dhkey_index_common_prefix in Ei by (done || apply HK).
  rewrite dhkey_index_common_prefix in Ei' by (done || apply HK).
  (* the digits before agree with the own key, hence with each other, and so does the digit at i *)
  rewrite !dhkey_index_common_prefix by (done || apply HK).
  pose proof (dhkey_nibbles_length key Hk) as Lk. pose proof (dhkey_nibbles_length (hash q) (HK q)) as Lq.
  pose proof (dhkey_nibbles_length (me r) (HK _)) as Lm.
  set (c := common_prefix (dhkey_nibbles (me r)) (dhkey_nibbles key)) in *. subst i.
  destruct (decide (common_prefix (dhkey_nibbles (hash q)) (dhkey_nibbles key) <= c)) as [Hle|]; [|lia].
  exfalso. set (d := common_prefix (dhkey_nibbles (hash q)) (dhkey_nibbles key)) in *.
  pose proof (common_prefix_range (dhkey_nibbles (hash q)) (dhkey_nibbles key)) as Hd. fold d in Hd.
  assert (d < 64) as Hd64 by lia.
  apply (common_prefix_differs (dhkey_nibbles (hash q)) (dhkey_nibbles key)); [congruence | rewrite Lq; fold d; lia |].
  fold d. destruct (decide (d = c)) as [->|Hdc].
  - destruct (hexalpha_at_nibble key c Hk Hi) as (x & Hx & Hx' & _).
    destruct (hexalpha_at_nibble (hash q) c (HK q) Hi) as (y & Hy & Hy' & _). congruence.
  - rewrite <- (common_prefix_lookup (dhkey_nibbles (me r)) (dhkey_nibbles key)) by (fold c; lia || congruence).
    symmetry. apply common_prefix_lookup; [congruence | lia].
Qed.

Lemma dhkey_index_self k : dhkey_wf k -> _np_dhkey_index k k = 64.
Proof.
  intros Hk. rewrite dhkey_index_common_prefix by done. pose proof (dhkey_nibbles_length k Hk) as Hl.
  change 64 with (Z.of_nat 64). rewrite <- Hl. by apply common_prefix_full.
Qed.

(** ** The best known key *)

Definition usable_keys (l : list (option key_ptr)) : list key_ptr :=
  filter (fun p => Qltb BAD_LINK (succ p) = true) (omap id l).

Definition row_usable (t : list (option key_ptr)) (i : Z) : list key_ptr :=
  usable_keys (take 48 (drop (Z.to_nat (48 * i)) t)).

Definition usable_step (t : list (option key_ptr)) (n : nat) (key_list : list key_ptr) : result (list key_ptr) :=
  e ← rd t (Z.of_nat n);
  match e with
  | Some p => s ← node_field success_avg (K p); Ok (if Qltb BAD_LINK s then key_list ++ [p] else key_list)
  | None => Ok key_list
  end.

Lemma usable_scan t from n acc :
  (from + n <= length t)%nat ->
  for_range from n (usable_step t) acc = Ok (acc ++ usable_keys (take n (drop from t))).
Proof using HN.
  revert from acc. induction n as [|n IH]; intros from acc Hlen; [by rewrite take_0, app_nil_r|].
  destruct (lookup_lt_is_Some_2 t from) as [e He]; [lia|].
  rewrite (drop_S t e from He). cbn [for_range take].
  assert (usable_step t from acc = Ok (acc ++ usable_keys [e])) as ->.
  { unfold usable_step. rewrite (proj2 (rd_lookup t (Z.of_nat from) e)) by (rewrite Nat2Z.id; split; [lia | done]).
    cbn [mbind result_bind]. unfold usable_keys. destruct e as [p|]; cbn [omap list_omap id].
    - rewrite node_success. cbn [mbind result_bind]. rewrite filter_cons.
      destruct (Qltb BAD_LINK (succ p)); [by rewrite decide_True | by rewrite decide_False, app_nil_r].
    - by rewrite app_nil_r. }
  cbn [mbind result_bind]. rewrite IH by lia. rewrite <- app_assoc. do 2 f_equal.
  unfold usable_keys. rewrite <- filter_app, <- omap_app. done.
Qed.

Lemma usable_row_ok r i acc :
  table_wf K r -> 0 <= i < 64 -> usable_row K r i acc = Ok (acc ++ row_usable (table r) i).
Proof using HN.
  intros Hwf Hi. pose proof (table_len K r Hwf) as Hlen.
  assert (length (table r) = 3072%nat) as Hl by (rewrite Hlen; reflexivity).
  unfold row_usable. rewrite <- usable_scan by lia.
  trans (for_range 0 48 (fun n => usable_step (table r) (Z.to_nat (48 * i) + n)) acc).
  - rewrite <- (for_range_nested 16 3 (fun n => usable_step (table r) (Z.to_nat (48 * i) + n))).
    apply for_range_ext. intros j l1 _. apply for_range_ext. intros k l2 _. unfold usable_step.
    replace (Z.of_nat (Z.to_nat (48 * i) + (j * 3 + k))) with (bucket_index i (Z.of_nat j) + Z.of_nat k); [done|].
    unfold bucket_index, __MAX_ENTRY, __MAX_COL. lia.
  - rewrite (for_range_shift (Z.to_nat (48 * i)) 0 48 (usable_step (table r))). by rewrite Nat.add_0_r.
Qed.

(** The usable entries of the deepest row, from [i] on downwards, that has any. *)
Definition deepest (t : list (option key_ptr)) (i : Z) (l : list key_ptr) : Prop :=
  (l = [] /\ forall i', 0 <= i' <= i -> row_usable t i' = []) \/
  (exists i', 0 <= i' <= i /\ l = row_usable t i' /\ l <> [] /\
     forall i2, i' < i2 <= i -> row_usable t i2 = []).

Lemma prefix_loop_ok r fuel i :
  table_wf K r -> 0 <= i < 64 -> (Z.to_nat i + 2 <= fuel)%nat ->
  exists l, prefix_loop K fuel r i [] = Ok l /\ deepest (table r) i l.
Proof using HN.
  intros Hwf. revert i. induction fuel as [|fuel IH]; intros i Hi Hf; [lia|]. cbn [prefix_loop].
  rewrite (proj2 (Z.leb_le 0 i)), (proj2 (Z.ltb_lt i __MAX_ROW)) by (unfold __MAX_ROW; lia).
  cbn [andb sll_size length Z.of_nat Z.eqb]. rewrite usable_row_ok by done. cbn [mbind result_bind app].
  destruct (row_usable (table r) i) as [|p l] eqn:El.
  - destruct (decide (i = 0)) as [->|Hne].
    + exists []. split; [|left; split; [done|]; intros i' ?; by replace i' with 0 by lia].
      destruct fuel as [|fuel]; [simpl in Hf; lia|]. done.
    + rewrite u32_id by (unfold in_u; lia). destruct (IH (i - 1)) as (l & Hl & Hd); [lia | lia |].
      exists l. split; [done|]. destruct Hd as [[-> Hall]|(i' & Hi' & -> & Hne' & Hall)].
      * left. split; [done|]. intros i' ?. destruct (decide (i' = i)) as [->|]; [done|]. apply Hall. lia.
      * right. exists i'. split; [lia|]. split; [done|]. split; [done|]. intros i2 ?.
        destruct (decide (i2 = i)) as [->|]; [done|]. apply Hall. lia.
  - exists (p :: l). split.
    + destruct fuel as [|fuel]; [lia|]. cbn [prefix_loop].
      destruct (Z.eqb_spec (sll_size (p :: l)) 0) as [E|]; [|done]. unfold sll_size in E. simpl in E. lia.
    + right. exists i. split; [lia|]. split; [done|]. split; [done|]. intros. lia.
Qed.

(** The answer from a list of candidates: nearest for one hop wanted, best
    prefix for more. *)
Definition best_of (key : np_dhkey_t) (count : Z) (l res : list key_ptr) : Prop :=
  (l = [] /\ res = []) \/
  (exists m, res = [m] /\ m ∈ l /\
     forall q, q ∈ l -> if count =? 1 then kd_rank K key m <= kd_rank K key q
                        else cpm_rank K key m <= cpm_rank K key q).

Lemma closest_best key l :
  dhkey_wf key ->
  best_of key 1 l (match _np_keycache_find_closest_key_to K key l with Some min => [min] | None => [] end).
Proof using HK.
  intros Hk. pose proof (closest_key_ok K key HK Hk l) as Hc.
  destruct (_np_keycache_find_closest_key_to K key l) as [m|]; [|by left].
  destruct Hc as (pre & post & -> & H1 & H2). right. exists m. split; [done|].
  split; [apply elem_of_app; right; by left|]. intros q Hq. rewrite Z.eqb_refl.
  rewrite Forall_forall in H1, H2. apply elem_of_app in Hq as [Hq|[->|Hq]%elem_of_cons]; [by apply H1 | lia |].
  specialize (H2 q Hq). lia.
Qed.

Lemma lookup_best_ok r key i count :
  table_wf K r -> dhkey_wf key -> 0 <= i < 64 -> 1 <= count ->
  exists l res, lookup_best K r key i count = Ok res /\ deepest (table r) i l /\ best_of key count l res.
Proof using HK HN.
  intros Hwf Hk Hi Hc. unfold lookup_best. rewrite (proj2 (Z.eqb_neq count 0)) by lia.
  destruct (prefix_loop_ok r (S (Z.to_nat __MAX_ROW)) i Hwf Hi) as (l & -> & Hd).
  { unfold __MAX_ROW. lia. }
  cbn [mbind result_bind]. exists l. destruct (Z.eqb_spec count 1) as [->|Hc1].
  { eexists. split; [done|]. split; [done|]. by apply closest_best. }
  unfold best_of. rewrite (proj2 (Z.eqb_neq count 1)) by done.
  destruct (Z.leb_spec 2 (sll_size l)) as [H2|H2]; (eexists; split; [done|]; split; [done|]).
  - destruct (sort_keys_cpm_ok K key l) as [Hp Hs]. right.
    destruct (_np_keycache_sort_keys_cpm K key l) as [|m l'].
    { apply Permutation_nil_l in Hp as <-. done. }
    exists m. split; [done|]. split; [rewrite <- Hp; by left|]. intros q Hq. rewrite <- Hp in Hq.
    apply StronglySorted_inv in Hs as [_ Hm]. rewrite Forall_forall in Hm.
    apply elem_of_cons in Hq as [->|Hq]; [lia|]. by apply Hm.
  - destruct l as [|m [|q l]]; [by left| |unfold sll_size in H2; simpl in H2; lia].
    right. exists m. split; [done|]. split; [by left|]. intros q ->%list_elem_of_singleton. lia.
Qed.
End Lookup.

(** Two hops wanted: the table answers when the bucket has a usable entry. *)
Lemma match_hop K r key b :
  keys_wf K -> has_nodes K -> table_wf K r -> dhkey_wf key -> key <> dhkey (K (my_key r)) ->
  bucket_of K r key = Ok b -> Exists (usable_entry K) (bucket (table r) b) ->
  (forall p q, Some p ∈ table r -> Some q ∈ table r -> dhkey (K p) = dhkey (K q) -> p = q) ->
  exists m, _np_route_lookup K r key 2 = Ok [m] /\
    _np_dhkey_index (dhkey (K (my_key r))) key < _np_dhkey_index (dhkey (K m)) key.
Proof.
  intros HK HN Hwf Hk Hne Eb Hex Hu. unfold _np_route_lookup. change (2 =? 1) with false. cbn [andb].
  destruct (bucket_of_ok K HK r key Hk Hne) as (i & j & -> & Hj & _ & _ & _ & Hb & H0 & H3 & _).
  cbn [mbind result_bind]. rewrite Hj. cbn [mbind result_bind]. rewrite Eb in Hb. injection Hb as ->.
  pose proof (bucket_in_table K r _ Hwf H3) as Hlen.
  destruct (match_scan_spec K HN (table r) (bucket_index i j) H0 Hlen) as (hop & -> & Hhop). cbn [mbind result_bind].
  destruct hop as [p|].
  - destruct Hhop as [Hin _]. destruct (better_loop_spec K HK HN r _ p H0 Hlen Hu Hin) as (m & Hm & Hmb & _).
    rewrite Hm. exists m. split; [done|]. by apply (bucket_progress K HK r key (bucket_index i j) m).
  - exfalso. apply Exists_exists in Hex as (e & He & Hue). rewrite Forall_forall in Hhop. by destruct (Hhop e He).
Qed.

(** What the route lookup answers.  For one hop wanted and a key inside the
    leafset range it is the leafset key nearest to it.  Otherwise, for a key other
    than the own: when the bucket of the key has a usable entry it is an entry of
    that bucket of least metric, which shares a strictly longer prefix with the
    key than this node; else the nearest, or for several hops wanted the best
    matching, usable entry of the deepest row that has one, and nothing when no
    row has.  Never more than one key is returned, whatever the count.  Looking
    up the own key outside the first case fails an assertion. *)
Theorem route_lookup_spec K r key count :
  keys_wf K -> has_nodes K -> table_wf K r -> dhkey_wf key -> 1 <= count ->
  (forall p q, Some p ∈ table r -> Some q ∈ table r -> dhkey (K p) = dhkey (K q) -> p = q) ->
  (count = 1 -> _np_dhkey_between key (Lrange r) (Rrange r) true = true ->
   exists res, _np_route_lookup K r key count = Ok res /\
     best_of K key 1 (right_leafset r ++ left_leafset r) res) /\
  ((count = 1 -> _np_dhkey_between key (Lrange r) (Rrange r) true = false) ->
   (key = dhkey (K (my_key r)) -> _np_route_lookup K r key count = Err Assert_failed) /\
   (key <> dhkey (K (my_key r)) -> exists b, bucket_of K r key = Ok b /\
      (Exists (usable_entry K) (bucket (table r) b) ->
       exists m, _np_route_lookup K r key count = Ok [m] /\ Some m ∈ bucket (table r) b /\
         (forall q, Some q ∈ bucket (table r) b -> (met K m <= met K q)%Q) /\
         _np_dhkey_index (dhkey (K (my_key r))) key < _np_dhkey_index (dhkey (K m)) key) /\
      (~ Exists (usable_entry K) (bucket (table r) b) ->
       exists l res, _np_route_lookup K r key count = Ok res /\
         deepest K (table r) (_np_dhkey_index (dhkey (K (my_key r))) key) l /\ best_of K key count l res))).
Proof.
  intros HK HN Hwf Hk Hc Hu. unfold _np_route_lookup. split.
  { intros -> Hb. rewrite Hb, Z.eqb_refl. cbn [andb].
    unfold _np_route_append_leafset_to_sll. rewrite app_nil_l. eexists. split; [done|]. by apply closest_best. }
  intros Hleaf.
  assert ((count =? 1) && _np_dhkey_between key (Lrange r) (Rrange r) true = false) as ->.
  { destruct (Z.eqb_spec count 1) as [E|]; [by rewrite (Hleaf E)|done]. }
  split.
  { intros ->. unfold row_of. by rewrite (dhkey_index_self _ (HK _)). }
  intros Hne.
  destruct (bucket_of_ok K HK r key Hk Hne) as (i & j & Hrow & Hj & Hi & _ & Ei & Hb & H0 & H3 & _).
  exists (bucket_index i j). split; [done|]. rewrite Hrow, <- Ei. cbn [mbind result_bind]. rewrite Hj.
  cbn [mbind result_bind].
  pose proof (bucket_in_table K r _ Hwf H3) as Hlen.
  destruct (match_scan_spec K HN (table r) (bucket_index i j) H0 Hlen) as (hop & -> & Hhop). cbn [mbind result_bind].
  destruct hop as [p|].
  - destruct Hhop as [Hin Hus]. split.
    + intros _. rewrite (proj2 (Z.leb_le 1 count)) by done.
      destruct (better_loop_spec K HK HN r _ p H0 Hlen Hu Hin) as (m & -> & Hm & Hmin). cbn [mbind result_bind].
      exists m. do 3 (split; [done|]). rewrite Ei. by apply (bucket_progress K HK r key (bucket_index i j) m).
    + intros []. apply Exists_exists. exists (Some p). split; [done|]. by exists p.
  - split.
    + intros He. apply Exists_exists in He as (e & He & Hue). rewrite Forall_forall in Hhop. by destruct (Hhop e He).
    + intros _. destruct (lookup_best_ok K HK HN r key i count Hwf Hk Hi Hc) as (l & res & H). by exists l, res.
Qed.

(** A node 1 that knows key 33, and a lookup for key 34 in the same bucket. *)
Definition example_route : route_t :=
  set_table (set_routes (_np_route_init example_keys 2 1) 1 {[ 33%positive := 1 ]})
    (<[2694%nat := Some 33%positive]> (table (_np_route_init example_keys 2 1))).

Lemma example_route_update :
  _np_route_update example_keys held (_np_route_init example_keys 2 1) 33 true =
    Ok (example_route, Some (Change None (Some 33%positive))).
Proof. by vm_compute. Qed.

Lemma example_keys_nodes : has_nodes example_keys.
Proof. intros p. by eexists. Qed.

Lemma example_entry p : Some p ∈ table example_route -> p = 33%positive.
Proof.
  intros Hp. apply written_members in Hp as [Hp|[= <-]]; [|done].
  apply list_elem_of_lookup_1 in Hp as [i Hi]. by apply lookup_replicate in Hi as [? _].
Qed.

Lemma example_route_wf : table_wf example_keys example_route.
Proof.
  destruct (route_update_ok example_keys held example_keys_wf (_np_route_init example_keys 2 1) 33 true)
    as (b & r' & d & a & _ & Hr & _ & Hwf & _).
  - apply known_nodes, example_keys_nodes.
  - apply init_table_wf.
  - intros p Hp. apply list_elem_of_lookup_1 in Hp as [i Hi]. by apply lookup_replicate in Hi as [? _].
  - by vm_compute.
  - rewrite example_route_update in Hr. by injection Hr as <- _ _.
Qed.

Lemma route_lookup_spec_witness :
  exists m, _np_route_lookup example_keys example_route (dhkey (example_keys 34)) 2 = Ok [m] /\
    _np_dhkey_index (dhkey (example_keys 1)) (dhkey (example_keys 34)) <
    _np_dhkey_index (dhkey (example_keys m)) (dhkey (example_keys 34)).
Proof.
  destruct (route_lookup_spec example_keys example_route (dhkey (example_keys 34)) 2) as [_ H].
  - exact example_keys_wf.
  - exact example_keys_nodes.
  - exact example_route_wf.
  - apply example_keys_wf.
  - done.
  - intros p q Hp Hq _. by rewrite (example_entry p Hp), (example_entry q Hq).
  - destruct H as [_ H]; [done|]. destruct H as (b & Hb & H & _); [by vm_compute|].
    assert (bucket_of example_keys example_route (dhkey (example_keys 34)) = Ok 2694) as Hb' by (by vm_compute).
    rewrite Hb in Hb'. injection Hb' as ->.
    destruct H as (m & Hm & _ & _ & Hlt); [|exists m; split; [exact Hm | exact Hlt]].
    replace (bucket (table example_route) 2694) with [Some 33%positive; None; None] by (by vm_compute).
    left. exists 33%positive. split; [done|]. by vm_compute.
Defined.

(** ** Forwarding *)

Section Forwarding.
Context (K : key_ptr -> np_key_t) (net : key_ptr -> route_t) (target : np_dhkey_t).

(** A hop as [_np_axon] asks for it, with several hops wanted: node [p] passes
    the message to the only key its lookup returns. *)
Definition hop (p q : key_ptr) : Prop := _np_route_lookup K (net p) target 2 = Ok [q].

Inductive forwarded : nat -> key_ptr -> key_ptr -> Prop :=
| forwarded_here p : forwarded 0 p p
| forwarded_hop n p q q' : hop p q -> forwarded n q q' -> forwarded (S n) p q'.

(** Every node runs a table in shape, and knows a usable key for the target
    unless it is the target. *)
Definition routable : Prop :=
  forall p, my_key (net p) = p /\ table_wf K (net p) /\
    (forall q q', Some q ∈ table (net p) -> Some q' ∈ table (net p) -> dhkey (K q) = dhkey (K q') -> q = q') /\
    (dhkey (K p) <> target -> exists b, bucket_of K (net p) target = Ok b /\
       Exists (usable_entry K) (bucket (table (net p)) b)).
End Forwarding.

(** C1: prefix routing delivers.  In a network where every node but the target
    has a usable entry in its bucket for the target, a message from any node
    reaches a node with the target hash; each hop shares a strictly longer prefix
    with the target than the one before, so it takes at most as many hops as
    there are digits left, and every path the lookups allow is that short. *)
Theorem prefix_forwarding_delivers K net target p :
  keys_wf K -> has_nodes K -> dhkey_wf target -> routable K net target ->
  (exists n q, forwarded K net target n p q /\ dhkey (K q) = target /\
     Z.of_nat n <= 64 - _np_dhkey_index (dhkey (K p)) target) /\
  (forall n q, forwarded K net target n p q ->
     Z.of_nat n <= _np_dhkey_index (dhkey (K q)) target - _np_dhkey_index (dhkey (K p)) target <= 64).
Proof.
  intros HK HN Ht Hnet.
  assert (forall p, 0 <= _np_dhkey_index (dhkey (K p)) target <= 64) as Hrange.
  { intros x. rewrite dhkey_index_common_prefix by (done || apply HK).
    pose proof (common_prefix_range (dhkey_nibbles (dhkey (K x))) (dhkey_nibbles target)) as H.
    by rewrite (dhkey_nibbles_length _ (HK x)) in H. }
  assert (forall p, dhkey (K p) <> target -> exists q, hop K net target p q /\
            _np_dhkey_index (dhkey (K p)) target < _np_dhkey_index (dhkey (K q)) target) as Hstep.
  { intros x Hx. destruct (Hnet x) as (Hmy & Hwf & Hu & Hb). destruct (Hb Hx) as (b & Eb & Hex).
    destruct (match_hop K (net x) target b HK HN Hwf Ht ltac:(by rewrite Hmy) Eb Hex Hu) as (q & Hq & Hlt).
    rewrite Hmy in Hlt. by exists q. }
  split.
  - remember (Z.to_nat (64 - _np_dhkey_index (dhkey (K p)) target)) as fuel eqn:Ef.
    revert p Ef. induction fuel as [fuel IH] using lt_wf_ind. intros p Ef. pose proof (Hrange p).
    destruct (decide (dhkey (K p) = target)) as [E|E].
    + exists 0%nat, p. split; [constructor|]. split; [done | lia].
    + destruct (Hstep p E) as (q & Hq & Hlt). pose proof (Hrange q).
      destruct (IH (Z.to_nat (64 - _np_dhkey_index (dhkey (K q)) target)) ltac:(lia) q eq_refl) as (n & q' & Hf & Hq' & Hn).
      exists (S n), q'. split; [by eapply forwarded_hop|]. split; [done | lia].
  - intros n q Hf. pose proof (Hrange p). pose proof (Hrange q). split; [|lia].
    induction Hf as [x|n x y z Hxy Hf IH]; [lia|].
    specialize (IH (Hrange y) (Hrange z)).
    destruct (decide (dhkey (K x) = target)) as [E|E].
    + exfalso. destruct (Hnet x) as (Hmy & _). unfold hop, _np_route_lookup in Hxy. cbn [andb Z.eqb] in Hxy.
      change (2 =? 1) with false in Hxy. cbn [andb] in Hxy. unfold row_of in Hxy.
      rewrite Hmy, E, dhkey_index_self in Hxy by done. done.
    + destruct (Hstep x E) as (y' & Hy' & Hlt). unfold hop in Hxy, Hy'. rewrite Hxy in Hy'. injection Hy' as <-. lia.
Qed.

(** A star: every node knows the target, key 34, and nothing else. *)
Definition star_route (p : key_ptr) : route_t :=
  match _np_route_update example_keys held (_np_route_init example_keys 2 p) 34 true with
  | Ok (r, _) => r
  | Err _ => _np_route_init example_keys 2 p
  end.

Lemma init_no_entry size my p : ~ Some p ∈ table (_np_route_init example_keys size my).
Proof. intros Hp. apply list_elem_of_lookup_1 in Hp as [i Hi]. by apply lookup_replicate in Hi as [? _]. Qed.

Lemma bucket_insert (t : list (option key_ptr)) b n e :
  0 <= b -> b + 3 <= Z.of_nat (length t) -> (n < 3)%nat ->
  e ∈ bucket (<[Z.to_nat (b + Z.of_nat n) := e]> t) b.
Proof.
  intros H0 H3 Hn. apply (list_elem_of_lookup_2 _ n). unfold bucket. rewrite lookup_take_lt, lookup_drop by done.
  replace (Z.to_nat b + n)%nat with (Z.to_nat (b + Z.of_nat n)) by lia. apply list_lookup_insert_eq. lia.
Qed.

Lemma star_routable : routable example_keys star_route (dhkey (example_keys 34)).
Proof.
  intros p. unfold star_route. set (r0 := _np_route_init example_keys 2 p).
  destruct (decide (dhkey (example_keys 34) = dhkey (example_keys p))) as [E|E].
  - rewrite (route_update_self example_keys held example_keys_wf r0 34 true) by done.
    split; [done|]. split; [apply init_table_wf|]. split; [|done].
    intros q q' Hq. by apply init_no_entry in Hq.
  - destruct (route_update_ok example_keys held example_keys_wf r0 34 true)
      as (b & r & d & a & Hb & -> & Hc & Hwf & Hls); [apply known_nodes, example_keys_nodes | apply init_table_wf | | done |].
    { intros q Hq. by apply init_no_entry in Hq. }
    destruct Hls as [Hmy _].
    assert (forall q, Some q ∈ table r -> q = 34%positive) as Hall.
    { intros q Hq. destruct (contract_members _ _ _ _ _ _ _ _ _ Hc Hq) as [Hq'|]; [|done].
      by apply init_no_entry in Hq'. }
    split; [done|]. split; [done|]. split; [intros q q' Hq Hq' _; by rewrite (Hall q Hq), (Hall q' Hq')|].
    intros _. exists b. unfold bucket_of, row_of in *. rewrite Hmy. split; [done|].
    destruct (bucket_of_ok example_keys example_keys_wf r0 (dhkey (example_keys 34)) (example_keys_wf 34%positive) E)
      as (i & j & _ & _ & _ & _ & _ & Hb' & H0 & H3 & _).
    unfold bucket_of, row_of in Hb'. rewrite Hb in Hb'. injection Hb' as ->.
    pose proof (bucket_in_table example_keys r0 _ (init_table_wf example_keys 2 p) H3) as Hlen.
    assert (forall e, e ∈ bucket (table r0) (bucket_index i j) -> e = None) as Hempty.
    { intros e He. apply list_elem_of_lookup_1 in He as [n Hn]. apply bucket_lookup in Hn as [Hn _]; [|done].
      by apply lookup_replicate in Hn as [? _]. }
    destruct d as [d|], a as [a|]; unfold update_contract in Hc; try done.
    + destruct Hc as (_ & n & Hn & _). by apply list_elem_of_lookup_2, Hempty in Hn.
    + destruct Hc as (_ & n & Hn & _ & ->). apply Exists_exists. exists (Some 34%positive).
      apply bucket_lookup in Hn as [_ Hn]; [|done].
      split; [by apply bucket_insert|]. exists 34%positive. split; [done|]. by vm_compute.
    + destruct Hc as (_ & [(q & Hq & _)|[Hf _]]); [by apply Hempty in Hq|].
      destruct (bucket_slots (table r0) (bucket_index i j) H0 Hlen) as (e0 & e1 & e2 & Eb & _).
      rewrite Eb in Hf, Hempty. apply Forall_cons in Hf as [(q & -> & _) _]. by specialize (Hempty (Some q) ltac:(by left)).
Qed.

Lemma prefix_forwarding_delivers_witness :
  exists n q, forwarded example_keys star_route (dhkey (example_keys 34)) n 1 q /\
    dhkey (example_keys q) = dhkey (example_keys 34).
Proof.
  destruct (prefix_forwarding_delivers example_keys star_route (dhkey (example_keys 34)) 1
    example_keys_wf example_keys_nodes (example_keys_wf 34%positive) star_routable) as [(n & q & H1 & H2 & _) _].
  by exists n, q.
Defined.

(** ** Listing the routing table: theorems

    The walk of the neighbour lookup ends before it leaves the table, on every
    key and in every table; listing returns the entries. *)

Section Walk.
Context (K : key_ptr -> np_key_t) (r : route_t) (dh : np_dhkey_t).
Hypothesis Hlen : length (table r) = Z.to_nat NP_ROUTES_TABLE_SIZE.

(** What the walk may collect: entries of the table that are not the key looked
    up, from the index range given. *)
Definition found_in (lo hi : Z) (l : list key_ptr) : Prop :=
  Forall (fun p => (exists idx, lo <= Z.of_nat idx < hi /\ table r !! idx = Some (Some p)) /\
                   _np_dhkey_equal (dhkey (K p)) dh = false) l.

Lemma found_in_mono lo hi lo' hi' l : lo' <= lo -> hi <= hi' -> found_in lo hi l -> found_in lo' hi' l.
Proof. intros ? ? H. eapply Forall_impl; [exact H|]. intros p ((i & ? & ?) & ?). split; [exists i; split; [lia | done] | done]. Qed.

(** Three entries from [base] on, which do not reach the end of the table. *)
Lemma look_entries base keys lend rend :
  0 <= base -> base + 3 <= NP_ROUTES_TABLE_SIZE ->
  exists keys', for_range 0 3 (look_entry K r dh base) (keys, lend, rend) =
      Ok (keys ++ keys', lend || (base =? 0), rend) /\
    (length keys' <= 3)%nat /\ found_in base (base + 3) keys'.
Proof.
  intros H0 H3.
  destruct (for_range_inv (fun n '(ks, le, re) => exists keys', ks = keys ++ keys' /\ re = rend /\
      le = (lend || ((base =? 0) && (0 <? Z.of_nat n))) /\ (length keys' <= n)%nat /\ found_in base (base + 3) keys')
    0 3 (look_entry K r dh base) (keys, lend, rend)) as ([[ks le] re] & Hrun & keys' & -> & -> & -> & Hl & Hf).
  - exists []. rewrite app_nil_r. split; [done|]. split; [done|].
    rewrite andb_false_r, orb_false_r. split; [done|]. split; [done | constructor].
  - intros n [[ks le] re] Hn (keys' & -> & -> & -> & Hl & Hf). unfold look_entry.
    rewrite u32_id by (unfold in_u, NP_ROUTES_TABLE_SIZE, __MAX_ROW, __MAX_COL, __MAX_ENTRY in *; lia).
    destruct (rd_ok (table r) (base + Z.of_nat n)) as (e & -> & He); [rewrite Hlen; lia|]. cbn [mbind result_bind].
    rewrite (proj2 (Z.eqb_neq _ NP_ROUTES_TABLE_SIZE)) by lia.
    set (keys2 := match e with
                  | Some p => if negb (_np_dhkey_equal (dhkey (K p)) dh) then keys' ++ [p] else keys'
                  | None => keys' end).
    exists (keys ++ keys2,
            (lend || ((base =? 0) && (0 <? Z.of_nat n))) || (base + Z.of_nat n =? 0), rend). split.
    { unfold keys2. destruct e as [p|]; [destruct (negb _)|]; rewrite ?app_assoc;
        destruct (Z.eqb_spec (base + Z.of_nat n) 0); rewrite ?orb_true_r, ?orb_false_r; done. }
    exists keys2. split; [done|]. split; [done|]. split; [|split].
    + destruct (Z.eqb_spec base 0) as [->|Hb].
      * destruct (Z.eqb_spec (0 + Z.of_nat n) 0) as [E|E].
        -- rewrite orb_true_r. rewrite (proj2 (Z.ltb_lt 0 (Z.of_nat (S n)))) by lia. by rewrite orb_true_r.
        -- rewrite orb_false_r. by rewrite !(proj2 (Z.ltb_lt 0 _)) by lia.
      * rewrite (proj2 (Z.eqb_neq (base + Z.of_nat n) 0)) by lia. by rewrite orb_false_r.
    + unfold keys2. destruct e as [p|]; [destruct (negb _)|]; rewrite ?length_app; simpl; lia.
    + unfold keys2. destruct e as [p|]; [|done]. destruct (_np_dhkey_equal (dhkey (K p)) dh) eqn:E; cbn [negb]; [done|].
      apply Forall_app. split; [done|]. constructor; [|constructor]. split; [|done].
      exists (Z.to_nat (base + Z.of_nat n)). split; [lia | done].
  - exists keys'. split; [|by split]. rewrite Hrun. do 3 f_equal. by rewrite andb_true_r.
Qed.

(** After [t] rounds to the left, about to look left again: the state of the walk. *)
Definition walk_inv (start t : Z) (s : look_t) : Prop :=
  current_table_iterator s = t /\ left_end s = false /\ right_end s = false /\
  found_in (start - t) (start + t + 3) (sll_of_keys s).

Lemma look_left_round start t s :
  0 <= t <= start -> start <= 945 -> walk_inv start t s -> look_left s = false ->
  exists s', look_round K r dh start s = Ok s' /\ look_left s' = true /\
    current_table_iterator s' = t + 1 /\ left_end s' = (t =? start) /\ right_end s' = false /\
    (length (sll_of_keys s') <= length (sll_of_keys s) + 3)%nat /\
    found_in (start - t) (start + t + 3) (sll_of_keys s').
Proof using Hlen.
  intros Ht Hs (Hi & Hle & Hre & Hf) Hl. unfold look_round. rewrite Hl, Hle, Hre, Hi. cbn [negb andb orb].
  assert (u32 (start + u32 (-1 * t)) = start - t) as ->.
  { unfold u32. rewrite Zplus_mod_idemp_r, Z.mod_small by lia. lia. }
  change (Z.to_nat __MAX_ENTRY) with 3%nat.
  destruct (look_entries (start - t) (sll_of_keys s) false false) as (keys' & -> & Hl3 & Hf'); [lia | |].
  { unfold NP_ROUTES_TABLE_SIZE, __MAX_ROW, __MAX_COL, __MAX_ENTRY. lia. }
  cbn [mbind result_bind]. eexists. split; [done|]. cbn. rewrite u32_id by (unfold in_u; lia).
  split; [done|]. split; [done|]. split; [by destruct (Z.eqb_spec (start - t) 0), (Z.eqb_spec t start); lia || done|].
  split; [done|]. rewrite length_app. split; [lia|]. apply Forall_app. split; [done|].
  eapply found_in_mono; [| |exact Hf']; lia.
Qed.

Lemma look_right_round start t s :
  0 < t <= start -> start <= 945 -> look_left s = true -> current_table_iterator s = t ->
  left_end s = false -> right_end s = false -> found_in (start - t) (start + t + 3) (sll_of_keys s) ->
  exists s', look_round K r dh start s = Ok s' /\ look_left s' = false /\ walk_inv start t s' /\
    (length (sll_of_keys s') <= length (sll_of_keys s) + 3)%nat.
Proof using Hlen.
  intros Ht Hs Hl Hi Hle Hre Hf. unfold look_round. rewrite Hl, Hle, Hre, Hi. cbn [negb andb orb].
  rewrite Z.mul_1_l, (u32_id t) by (unfold in_u; lia). rewrite u32_id by (unfold in_u; lia).
  change (Z.to_nat __MAX_ENTRY) with 3%nat.
  destruct (look_entries (start + t) (sll_of_keys s) false false) as (keys' & -> & Hl3 & Hf'); [lia | |].
  { unfold NP_ROUTES_TABLE_SIZE, __MAX_ROW, __MAX_COL, __MAX_ENTRY. lia. }
  cbn [mbind result_bind]. eexists. split; [done|]. cbn. rewrite (proj2 (Z.eqb_neq (start + t) 0)) by lia.
  split; [done|]. rewrite length_app. split; [|lia]. split; [done|]. split; [done|]. split; [done|].
  apply Forall_app. split; [done|]. eapply found_in_mono; [| |exact Hf']; lia.
Qed.

(** The walk from the left turn [t] on. *)
Lemma look_loop_ok fuel start t s :
  0 <= t <= start -> start <= 945 -> walk_inv start t s -> look_left s = false ->
  (length (sll_of_keys s) <= 9)%nat -> 2 * (start - t) + 3 <= Z.of_nat fuel ->
  exists s', look_loop K fuel r dh start s = Ok s' /\ (length (sll_of_keys s') <= 9)%nat /\
    found_in 0 (2 * start + 3) (sll_of_keys s').
Proof using Hlen.
  revert t s. induction fuel as [fuel IH] using lt_wf_ind. intros t s Ht Hs Hw Hl Hlen9 Hfuel.
  destruct fuel as [|fuel]; [lia|]. cbn [look_loop].
  pose proof Hw as (Hi & Hle & Hre & Hf). rewrite Hle, Hre. cbn [negb]. rewrite !andb_true_r.
  destruct (Z.ltb_spec (sll_size (sll_of_keys s)) NP_LEAFSET_MAX_ENTRIES) as [Hsz|Hsz]; cycle 1.
  { exists s. split; [done|]. split; [done|]. eapply found_in_mono; [| |exact Hf]; lia. }
  destruct (look_left_round start t s Ht Hs Hw Hl) as (s1 & -> & Hl1 & Hi1 & Hle1 & Hre1 & Hc1 & Hf1).
  cbn [mbind result_bind]. unfold sll_size, NP_LEAFSET_MAX_ENTRIES, __MAX_COL in Hsz. change (16 / 2 - 1) with 7 in Hsz.
  destruct fuel as [|fuel]; [lia|]. cbn [look_loop]. rewrite Hle1, Hre1. cbn [negb]. rewrite andb_true_r.
  destruct (Z.eqb_spec t start) as [->|Hne].
  { rewrite andb_false_r. exists s1. split; [done|]. split; [lia|]. eapply found_in_mono; [| |exact Hf1]; lia. }
  rewrite andb_true_r.
  destruct (Z.ltb_spec (sll_size (sll_of_keys s1)) NP_LEAFSET_MAX_ENTRIES) as [Hsz1|Hsz1]; cycle 1.
  { exists s1. split; [done|]. split; [lia|]. eapply found_in_mono; [| |exact Hf1]; lia. }
  unfold sll_size, NP_LEAFSET_MAX_ENTRIES, __MAX_COL in Hsz1. change (16 / 2 - 1) with 7 in Hsz1.
  destruct (look_right_round start (t + 1) s1) as (s2 & -> & Hl2 & Hw2 & Hc2); [lia | done | done | done | done | done | |].
  { eapply found_in_mono; [| |exact Hf1]; lia. }
  cbn [mbind result_bind]. apply (IH fuel) with (t := t + 1); [lia | lia | done | done | done | lia | lia].
Qed.
End Walk.

(** The neighbour lookup terminates and stays inside the table.  In any table
    of the right length and for any key that is not the own one it returns after
    at most 2 * row * digit + 2 rounds, without reading outside the table and
    without the walk to the right ever reaching its end; it returns at most nine
    keys, each an entry other than the key looked up, from the first
    2 * row * digit + 3 entries: the start of the walk is the product of row and
    digit and not the bucket of the key, so for row or digit 0 only the first
    three entries are seen. *)
Theorem neighbour_lookup_terminates K r dh :
  keys_wf K -> dhkey_wf dh -> dh <> dhkey (K (my_key r)) ->
  length (table r) = Z.to_nat NP_ROUTES_TABLE_SIZE ->
  exists row digit res, _np_dhkey_index (dhkey (K (my_key r))) dh = row /\
    _np_dhkey_hexalpha_at dh row = Ok digit /\
    _np_route_neighbour_lookup K r dh = Ok res /\ (length res <= 9)%nat /\
    Forall (fun p => dhkey (K p) <> dh /\
      exists idx, Z.of_nat idx < 2 * (row * digit) + 3 /\ table r !! idx = Some (Some p)) res.
Proof.
  intros HK Hdh Hne Hlen.
  destruct (bucket_of_ok K HK r dh Hdh Hne) as (i & j & Hrow & Hj & Hi & Hjr & Ei & _).
  unfold _np_route_neighbour_lookup. rewrite Hrow. cbn [mbind result_bind]. rewrite Hj. cbn [mbind result_bind].
  exists i, j.
  destruct (look_loop_ok K r dh Hlen (S (Z.to_nat (2 * (i * j + 1)))) (i * j) 0 (Look [] false false 0 false))
    as (s & -> & Hl & Hf); [nia | nia | by repeat split; try constructor | done | simpl; lia | lia |].
  cbn [mbind result_bind]. exists (sll_of_keys s). do 2 (split; [done|]). split; [done|]. split; [done|].
  eapply Forall_impl; [exact Hf|]. intros p ((idx & Hidx & Hp) & Heq). split.
  - intros E. apply (_np_dhkey_equal_spec _ _ (HK p) Hdh) in E. congruence.
  - exists idx. split; [lia | done].
Qed.

Lemma neighbour_lookup_terminates_witness :
  exists res, _np_route_neighbour_lookup example_keys example_route (dhkey (example_keys 34)) = Ok res /\
    (length res <= 9)%nat.
Proof.
  destruct (neighbour_lookup_terminates example_keys example_route (dhkey (example_keys 34))
    example_keys_wf (example_keys_wf 34%positive)) as (row & digit & res & _ & _ & H1 & H2 & _).
  - by vm_compute.
  - exact (table_len example_keys example_route example_route_wf).
  - exists res. split; [exact H1 | exact H2].
Defined.

(** Listing the table gives its entries in order. *)
Lemma get_table_entries r :
  length (table r) = Z.to_nat NP_ROUTES_TABLE_SIZE -> _np_route_get_table r = Ok (entries (table r)).
Proof.
  intros Hlen. unfold _np_route_get_table. rewrite for_table_flat.
  destruct (for_range_inv (fun n l => l = entries (take n (table r))) 0 (Z.to_nat NP_ROUTES_TABLE_SIZE)
    (fun i l => e ← rd (table r) (Z.of_nat i); Ok (match e with Some p => l ++ [p] | None => l end)) [])
    as (l & -> & ->); [done | |].
  - intros n l Hn ->. destruct (rd_ok (table r) (Z.of_nat n)) as (e & -> & He); [lia|].
    rewrite Nat2Z.id in He. cbn [mbind result_bind]. eexists. split; [done|].
    rewrite (take_S_r _ _ e He). unfold entries. rewrite omap_app. destruct e; [done | by rewrite app_nil_r].
  - by rewrite take_ge by lia.
Qed.
