(* ===== verification/Token.v ===== *)
(** * Token validity: [_np_aaatoken_is_valid] of [src/np_aaatoken.c]

    The check of a token: type, expiry, the two signatures (of the token and of
    its attributes) and, for message intents, the message counters in the
    attributes.  Its result is also recorded in the token, with two flags that
    say a signature need not be verified again.  The signature check of libsodium
    and the hashes it is given are arguments, as is the reading of attributes. *)
From Stdlib Require Import ZArith Lia QArith Lqa String Ascii.
From stdpp Require Import prelude.
From S2P Require Import Prelude Real Dhkey.

Local Open Scope Z_scope.

(** The bytes of a C string constant. *)
Definition c_string (s : string) : list Z := map (fun c => Z.of_N (N_of_ascii c)) (list_ascii_of_string s).

(** [enum np_aaastate_e], [enum np_aaatoken_type], [enum np_aaatoken_scope] *)
Definition AAA_VALID : Z := 0x01.
Definition AAA_INVALID : Z := Z.lnot AAA_VALID.
Definition IS_VALID (x : Z) : bool := AAA_VALID =? Z.land AAA_VALID x.

Definition np_aaatoken_type_undefined : Z := 0x00.
Definition np_aaatoken_type_identity : Z := 0x01.
Definition np_aaatoken_type_node : Z := 0x02.
Definition np_aaatoken_type_handshake : Z := 0x04.
Definition np_aaatoken_type_message_intent : Z := 0x10.
Definition np_aaatoken_type_accounting : Z := 0x20.

Definition np_aaatoken_scope_private : Z := 1.
Definition np_aaatoken_scope_private_available : Z := 2.
Definition np_aaatoken_scope_public : Z := 3.
Definition np_aaatoken_scope_undefined : Z := 4.

(** The fields of [struct np_aaatoken_s] the checks and the life cycle of keys
    read; strings are lists of bytes. *)
Record np_aaatoken_t {A : Type} := Token {
  issuer : list Z;
  subject : list Z;
  issued_at : Q;
  not_before : Q;
  expires_at : Q;
  attributes : A;
  attributes_signature : list Z;
  ed25519_public_key : list Z;      (* crypto.ed25519_public_key *)
  signature : list Z;
  state : Z;
  token_type : Z;
  scope : Z;
  private_key_is_set : bool;
  is_signature_verified : bool;
  is_signature_attributes_verified : bool;
}.
Arguments np_aaatoken_t : clear implicits.

Section Validity.
Context {A : Type}.
Abbreviation token := (np_aaatoken_t A).

(** Sets the state and the two flags. *)
Definition set_checks (t : token) (st : Z) (sig attr : bool) : token :=
  Token A (issuer t) (subject t) (issued_at t) (not_before t) (expires_at t) (attributes t) (attributes_signature t)
    (ed25519_public_key t) (signature t) st (token_type t) (scope t) (private_key_is_set t) sig attr.

(** [crypto_sign_verify_detached (sig, hash, .., pk)]; [_np_aaatoken_get_hash]
    and [__np_aaatoken_get_attributes_hash]; [np_get_data_size] and [np_get_data]
    on the attributes, the latter [None] unless it returns [np_ok]. *)
Context (crypto_sign_verify_detached : list Z -> list Z -> list Z -> Z)
        (_np_aaatoken_get_hash __np_aaatoken_get_attributes_hash : token -> list Z)
        (np_get_data_size_ok : A -> bool) (np_get_data_uint : A -> string -> option Z).

(** The token is recorded as invalid and the check ends. *)
Definition fail (t : token) : bool * token :=
  (false, set_checks t (Z.land (state t) AAA_INVALID) (is_signature_verified t) (is_signature_attributes_verified t)).

(** [if (token->is_signature_verified == false)]: the token afterwards, or [None]
    when the verification fails. *)
Definition check_signature (t : token) : option token :=
  if is_signature_verified t then Some t
  else if crypto_sign_verify_detached (signature t) (_np_aaatoken_get_hash t) (ed25519_public_key t) <? 0 then None
  else Some (set_checks t (state t) true (is_signature_attributes_verified t)).

Definition check_attributes (t : token) : option token :=
  if is_signature_attributes_verified t then Some t
  else
    let ret := np_get_data_size_ok (attributes t) in
    let ret := if negb ret then ret
               else crypto_sign_verify_detached (attributes_signature t) (__np_aaatoken_get_attributes_hash t)
                      (ed25519_public_key t) =? 0 in
    if negb ret then None else Some (set_checks t (state t) (is_signature_verified t) true).

(** The two checks of a token of public scope. *)
Definition check_both (t : token) : token * bool :=
  match check_signature t with
  | None => (t, false)
  | Some t => match check_attributes t with None => (t, false) | Some t => (t, true) end
  end.

(** The message counters of an intent. *)
Definition intent_usable (t : token) : bool :=
  match np_get_data_uint (attributes t) "max_threshold", np_get_data_uint (attributes t) "msg_threshold" with
  | Some max_threshold, Some msg_threshold => (0 <=? u32 msg_threshold) && (u32 msg_threshold <=? u32 max_threshold)
  | _, _ => false
  end.

Definition _np_aaatoken_is_valid (now : Q) (token : option token) (expected_type : Z) : bool * option (np_aaatoken_t A) :=
  match token with
  | None => (false, None)
  | Some t =>
      let '(ret, t) :=
        if negb (FLAG_CMP (token_type t) expected_type) then fail t
        else if Qltb (expires_at t) now then fail t
        else
          match (if np_aaatoken_scope_private_available <? scope t then check_both t else (t, true)) with
          | (t, false) => fail t
          | (t, true) =>
              if FLAG_CMP (token_type t) np_aaatoken_type_message_intent && negb (intent_usable t) then fail t
              else (true, set_checks t (Z.lor (state t) AAA_VALID) (is_signature_verified t)
                            (is_signature_attributes_verified t))
          end in
      (ret, Some t)
  end.

(** ** What makes a token valid *)

(** Both signatures hold, now or by an earlier check. *)
Definition signature_holds (t : token) : Prop :=
  0 <= crypto_sign_verify_detached (signature t) (_np_aaatoken_get_hash t) (ed25519_public_key t).
Definition attributes_hold (t : token) : Prop :=
  np_get_data_size_ok (attributes t) = true /\
  crypto_sign_verify_detached (attributes_signature t) (__np_aaatoken_get_attributes_hash t) (ed25519_public_key t) = 0.
Definition signatures_hold (t : token) : Prop :=
  (is_signature_verified t = true \/ signature_holds t) /\
  (is_signature_attributes_verified t = true \/ attributes_hold t).

Definition token_valid (now : Q) (t : token) (expected_type : Z) : Prop :=
  FLAG_CMP (token_type t) expected_type = true /\ (now <= expires_at t)%Q /\
  (np_aaatoken_scope_private_available < scope t -> signatures_hold t) /\
  (FLAG_CMP (token_type t) np_aaatoken_type_message_intent = true -> intent_usable t = true).

(** The hashes do not cover the state and the flags of the local check. *)
Hypothesis hash_ignores_checks : forall t st sig attr, _np_aaatoken_get_hash (set_checks t st sig attr) = _np_aaatoken_get_hash t.
Hypothesis attributes_hash_ignores_checks : forall t st sig attr,
  __np_aaatoken_get_attributes_hash (set_checks t st sig attr) = __np_aaatoken_get_attributes_hash t.

Lemma is_valid_invalid st : 0 <= st -> IS_VALID (Z.land st AAA_INVALID) = false.
Proof.
  intros Hst. unfold IS_VALID, AAA_INVALID. apply Z.eqb_neq. intros E.
  assert (Z.testbit (Z.land AAA_VALID (Z.land st (Z.lnot AAA_VALID))) 0 = Z.testbit AAA_VALID 0) as B by (by rewrite <- E).
  rewrite !Z.land_spec, Z.lnot_spec in B by lia. simpl in B. by rewrite andb_false_r in B.
Qed.

Lemma is_valid_valid st : IS_VALID (Z.lor st AAA_VALID) = true.
Proof.
  unfold IS_VALID. apply Z.eqb_eq, Z.bits_inj'. intros n Hn. rewrite Z.land_spec, Z.lor_spec.
  destruct (Z.testbit AAA_VALID n); simpl; [by rewrite orb_true_r|done].
Qed.

(** A token as another one up to the record of a check, whose flags do not lie. *)
Definition same_verdict (t t' : token) : Prop := exists st sig attr,
  t' = set_checks t st sig attr /\
  (sig = true \/ signature_holds t <-> is_signature_verified t = true \/ signature_holds t) /\
  (attr = true \/ attributes_hold t <-> is_signature_attributes_verified t = true \/ attributes_hold t).

Lemma same_verdict_state t st :
  same_verdict t (set_checks t st (is_signature_verified t) (is_signature_attributes_verified t)).
Proof. by do 3 eexists. Qed.

Lemma check_signature_spec t :
  match check_signature t with
  | Some t' => t' = set_checks t (state t) true (is_signature_attributes_verified t) /\
      (is_signature_verified t = true \/ signature_holds t)
  | None => is_signature_verified t = false /\ ~ signature_holds t
  end.
Proof.
  unfold check_signature, signature_holds.
  destruct (is_signature_verified t) eqn:V; [split; [by destruct t; simpl in *; subst|by left]|].
  destruct (Z.ltb_spec (crypto_sign_verify_detached (signature t) (_np_aaatoken_get_hash t) (ed25519_public_key t)) 0);
    [split; [done|lia]|]. split; [done|by right].
Qed.

Lemma check_attributes_spec t :
  match check_attributes t with
  | Some t' => t' = set_checks t (state t) (is_signature_verified t) true /\
      (is_signature_attributes_verified t = true \/ attributes_hold t)
  | None => is_signature_attributes_verified t = false /\ ~ attributes_hold t
  end.
Proof.
  unfold check_attributes, attributes_hold. destruct (is_signature_attributes_verified t) eqn:V.
  { split; [by destruct t; simpl in *; subst|by left]. }
  destruct (np_get_data_size_ok (attributes t)) eqn:D; simpl; [|split; [done|]; by intros [? _]].
  destruct (Z.eqb_spec (crypto_sign_verify_detached (attributes_signature t) (__np_aaatoken_get_attributes_hash t)
    (ed25519_public_key t)) 0); simpl; [by split; [|right]|split; [done|]; by intros [_ ?]].
Qed.

Lemma check_both_spec t : exists t' b,
  check_both t = (t', b) /\ (b = true <-> signatures_hold t) /\ same_verdict t t' /\ state t' = state t.
Proof using hash_ignores_checks attributes_hash_ignores_checks.
  unfold check_both, signatures_hold. pose proof (check_signature_spec t) as S. destruct (check_signature t) as [t1|].
  2: { exists t, false. split; [done|]. split; [|split; [|done]].
       - split; [done|]. destruct S as [E S]. rewrite E. by intros [[?|?] _].
       - destruct t as [a1 a2 a3 a4 a5 a6 a7 a8 a9 a10 a11 a12 a13 a14 a15]. exists a10, a14, a15. done. }
  destruct S as [-> S]. set (t1 := set_checks t (state t) true (is_signature_attributes_verified t)).
  pose proof (check_attributes_spec t1) as C.
  assert (attributes_hold t1 <-> attributes_hold t) as Ea.
  { unfold attributes_hold, t1. by rewrite attributes_hash_ignores_checks. }
  destruct (check_attributes t1) as [t2|].
  - destruct C as [-> C]. rewrite Ea in C. exists (set_checks t1 (state t1) true true), true. split; [done|].
    split; [by split|]. split; [|done]. exists (state t), true, true. split; [done|]. unfold t1 in C. simpl in C. tauto.
  - destruct C as [C1 C2]. rewrite Ea in C2. exists t1, false. split; [done|]. split.
    + split; [done|]. unfold t1 in C1. simpl in C1. rewrite C1. by intros [_ [?|?]].
    + split; [|done]. exists (state t), true, (is_signature_attributes_verified t). split; [done|]. tauto.
Qed.

Lemma same_verdict_valid now t t' expected : same_verdict t t' -> token_valid now t' expected <-> token_valid now t expected.
Proof using hash_ignores_checks attributes_hash_ignores_checks.
  intros (st & sig & attr & -> & Hs & Ha). unfold token_valid, signatures_hold.
  assert (signature_holds (set_checks t st sig attr) <-> signature_holds t) as E1.
  { unfold signature_holds. by rewrite hash_ignores_checks. }
  assert (attributes_hold (set_checks t st sig attr) <-> attributes_hold t) as E2.
  { unfold attributes_hold. by rewrite attributes_hash_ignores_checks. }
  simpl. rewrite E1, E2, Hs, Ha. done.
Qed.

Lemma same_verdict_record t t' st : same_verdict t t' ->
  same_verdict t (set_checks t' st (is_signature_verified t') (is_signature_attributes_verified t')).
Proof. intros (st0 & sig & attr & -> & Hs & Ha). exists st, sig, attr. done. Qed.

(** Validity decided: the answer, and the record left in the token. *)
Lemma is_valid_cases now t expected : exists t' b,
  _np_aaatoken_is_valid now (Some t) expected = (b, Some t') /\ same_verdict t t' /\
  (b = true <-> token_valid now t expected) /\
  state t' = (if b : bool then Z.lor (state t) AAA_VALID else Z.land (state t) AAA_INVALID).
Proof using hash_ignores_checks attributes_hash_ignores_checks.
  unfold _np_aaatoken_is_valid, token_valid, fail.
  destruct (FLAG_CMP (token_type t) expected) eqn:F; simpl.
  2: { do 2 eexists. split; [done|]. split; [apply same_verdict_state|]. split; [|done]. split; [done|]. by intros (? & _). }
  destruct (Qltb (expires_at t) now) eqn:X.
  { do 2 eexists. split; [done|]. split; [apply same_verdict_state|]. split; [|done]. split; [done|].
    apply Qltb_lt in X. intros (_ & ? & _). lra. }
  apply Qltb_ge in X.
  assert (exists t1 b, (if np_aaatoken_scope_private_available <? scope t then check_both t else (t, true)) = (t1, b) /\
    (b = true <-> (np_aaatoken_scope_private_available < scope t -> signatures_hold t)) /\
    same_verdict t t1 /\ state t1 = state t) as (t1 & b & -> & Hb & Hv & Hst).
  { destruct (Z.ltb_spec np_aaatoken_scope_private_available (scope t)) as [Hs|Hs].
    - destruct (check_both_spec t) as (t1 & b & -> & Hb & Hv & Hst). exists t1, b. tauto.
    - exists t, true. split; [done|]. split; [split; [lia|done]|]. split; [|done].
      destruct t as [a1 a2 a3 a4 a5 a6 a7 a8 a9 a10 a11 a12 a13 a14 a15]. exists a10, a14, a15. done. }
  pose proof Hv as (st & sig & attr & E1 & _). destruct b.
  2: { do 2 eexists. split; [done|]. split; [by apply same_verdict_record|]. simpl. rewrite Hst. split; [|done].
       split; [done|]. intros (_ & _ & H & _). by apply Hb in H. }
  assert (token_type t1 = token_type t /\ intent_usable t1 = intent_usable t) as [-> ->] by (by rewrite E1).
  destruct (FLAG_CMP (token_type t) np_aaatoken_type_message_intent) eqn:M1, (intent_usable t) eqn:M2; simpl;
    (do 2 eexists; split; [done|]; split; [by apply same_verdict_record|]; simpl; rewrite Hst; split; [|done]);
    try (split; [intros _; split; [done|]; split; [done|]; split; [by apply Hb|done]|done]).
  split; [done|]. intros (_ & _ & _ & H). discriminate (H eq_refl).
Qed.

(** A token is accepted exactly when it is of the expected type and not expired,
    its two signatures hold unless its scope is private, and, being an intent,
    it has messages left; the answer is the AAA_VALID bit it leaves in the state,
    and the next check at the same time gives the same answer: remembering
    verified signatures is transparent. *)
Theorem aaatoken_validity_spec now t expected : 0 <= state t ->
  exists t' b, _np_aaatoken_is_valid now (Some t) expected = (b, Some t') /\
    (b = true <-> token_valid now t expected) /\ IS_VALID (state t') = b /\
    fst (_np_aaatoken_is_valid now (Some t') expected) = b.
Proof using hash_ignores_checks attributes_hash_ignores_checks.
  intros Hst. destruct (is_valid_cases now t expected) as (t' & b & E & Hv & Hb & Hs).
  exists t', b. split; [done|]. split; [done|]. split.
  - rewrite Hs. destruct b; [apply is_valid_valid|by apply is_valid_invalid].
  - destruct (is_valid_cases now t' expected) as (t2 & b2 & -> & _ & Hb2 & _). simpl.
    rewrite (same_verdict_valid now t t' expected Hv), <- Hb in Hb2. destruct b, b2; try done; [discriminate (proj2 Hb2 eq_refl)|discriminate (proj1 Hb2 eq_refl)].
Qed.
End Validity.

(** ** Concrete tokens *)

(** A signature scheme in which a text is its own signature. *)
Definition example_verify (sig hash pk : list Z) : Z := if decide (sig = hash) then 0 else -1.
Definition example_hash (t : np_aaatoken_t unit) : list Z := issuer t ++ subject t.
Definition example_token (sig : list Z) : np_aaatoken_t unit :=
  Token unit [] [7] 10 20 30 tt [9] [] sig 0 np_aaatoken_type_node np_aaatoken_scope_public false false false.

Lemma aaatoken_validity_spec_witness : 0 <= state (example_token [7]) /\
  exists t' b, _np_aaatoken_is_valid example_verify example_hash (fun _ => [9]) (fun _ => true) (fun _ _ => None) 5
      (Some (example_token [7])) np_aaatoken_type_node = (b, Some t') /\
    (b = true <-> token_valid example_verify example_hash (fun _ => [9]) (fun _ => true) (fun _ _ => None) 5
       (example_token [7]) np_aaatoken_type_node) /\ IS_VALID (state t') = b /\
    fst (_np_aaatoken_is_valid example_verify example_hash (fun _ => [9]) (fun _ => true) (fun _ _ => None) 5
      (Some t') np_aaatoken_type_node) = b.
Proof. split; [done|]. by apply aaatoken_validity_spec. Defined.

(** [not_before] is not looked at: at time 5 the token that starts at 20 is valid. *)
Lemma not_before_ignored :
  not_before (example_token [7]) = 20%Q /\
  fst (_np_aaatoken_is_valid example_verify example_hash (fun _ => [9]) (fun _ => true) (fun _ _ => None) 5
    (Some (example_token [7])) np_aaatoken_type_node) = true /\
  fst (_np_aaatoken_is_valid example_verify example_hash (fun _ => [9]) (fun _ => true) (fun _ _ => None) 5
    (Some (example_token [8])) np_aaatoken_type_node) = false.
Proof. done. Qed.
