(* ===== verification/Keycache.v ===== *)
(** * The key cache: [src/np_keycache.c]

    All keys by hash, in a red-black tree generated by the macros of [tree.h];
    the tree is an interface, of which the cache uses find, insert, remove and
    the walk in order.  Objects live in a store with their reference counts
    ([np_new_obj] counts the creator).  Every function runs under the module lock,
    so it is one step.  A sorted list discharges the interface. *)
From Stdlib Require Import ZArith Lia QArith Lqa.
From stdpp Require Import prelude gmap fin_maps sorting.
From S2P Require Import Prelude Real Dhkey Key.

Local Open Scope Z_scope.

(** ** The tree: [RB_INIT], [RB_FIND], [RB_INSERT], [RB_REMOVE], [RB_FOREACH] *)

Class RbTree (tree : Type) := {
  rb_init : tree;
  rb_find : tree -> np_dhkey_t -> option key_ptr;
  rb_insert : tree -> np_dhkey_t -> key_ptr -> tree;
  rb_remove : tree -> np_dhkey_t -> tree;
  rb_foreach : tree -> list (np_dhkey_t * key_ptr);
}.

Definition hash_lt (a b : np_dhkey_t * key_ptr) : Prop := dhkey_val a.1 < dhkey_val b.1.

(** What a tree ordered by [_np_key_cmp] promises; [rb_ok] holds of the trees
    built by its operations. *)
Class RbTreeLaws (tree : Type) `{RbTree tree} := {
  rb_ok : tree -> Prop;
  rb_init_ok : rb_ok rb_init;
  rb_init_foreach : rb_foreach rb_init = [];
  rb_sorted t : rb_ok t -> StronglySorted hash_lt (rb_foreach t);
  rb_keys_wf t : rb_ok t -> Forall (fun e => dhkey_wf e.1) (rb_foreach t);
  rb_find_spec t k p : rb_ok t -> dhkey_wf k -> rb_find t k = Some p <-> (k, p) ∈ rb_foreach t;
  rb_insert_new t k p : rb_ok t -> dhkey_wf k -> rb_find t k = None ->
    rb_ok (rb_insert t k p) /\ rb_foreach (rb_insert t k p) ≡ₚ (k, p) :: rb_foreach t;
  rb_insert_old t k p : rb_ok t -> dhkey_wf k -> is_Some (rb_find t k) -> rb_insert t k p = t;
  rb_remove_spec t k : rb_ok t -> dhkey_wf k ->
    rb_ok (rb_remove t k) /\ rb_foreach (rb_remove t k) = filter (fun e => e.1 <> k) (rb_foreach t);
}.

#[export] Instance dhkey_eq_dec : EqDecision np_dhkey_t.
Proof. solve_decision. Defined.

Definition _NP_KEYCACHE_ITERATION_STEPS : Z := 11.
Definition NP_KEYCACHE_DEPRECATION_INTERVAL : Q := 31415 # 1000.

(** [strncmp (s, t, strlen (t)) == 0]: [t] is a prefix of [s]. *)
Fixpoint strncmp_prefix (s t : list Z) : bool :=
  match s, t with
  | _, [] => true
  | [], _ => false
  | a :: s', b :: t' => (a =? b) && strncmp_prefix s' t'
  end.

(** [strstr (s, t) != NULL] *)
Fixpoint strstr (s t : list Z) : bool :=
  strncmp_prefix s t || match s with [] => false | _ :: s' => strstr s' t end.

(** [struct np_key_ro_s] *)
Record np_key_ro_t := KeyRo { ro_dhkey : np_dhkey_t; ro_type : Z; ro_parent_dhkey : np_dhkey_t }.

Section Keycache.
Context `{RbTree tree}.

(** The store: objects with their reference counts. *)
Abbreviation store := (gmap key_ptr (np_key_t * Z)).

(** [np_module_struct (keycache)] and the store it works on. *)
Record keycache_t := Cache {
  __key_cache : tree;
  __last_udpate : Q;
  _check_state_iterator : np_dhkey_t;
  objects : store;
}.

Definition set_cache (c : keycache_t) (t : tree) : keycache_t :=
  Cache t (__last_udpate c) (_check_state_iterator c) (objects c).
Definition set_udpate (c : keycache_t) (t : Q) : keycache_t :=
  Cache (__key_cache c) t (_check_state_iterator c) (objects c).
Definition set_iterator (c : keycache_t) (k : np_dhkey_t) : keycache_t :=
  Cache (__key_cache c) (__last_udpate c) k (objects c).
Definition set_objects (c : keycache_t) (s : store) : keycache_t :=
  Cache (__key_cache c) (__last_udpate c) (_check_state_iterator c) s.

(** [p->...] *)
Definition key_at (c : keycache_t) (p : key_ptr) : result np_key_t :=
  match objects c !! p with Some (k, _) => Ok k | None => Err Bad_access end.
Definition upd_key (c : keycache_t) (p : key_ptr) (f : np_key_t -> np_key_t) : result keycache_t :=
  match objects c !! p with
  | Some (k, n) => Ok (set_objects c (<[p := (f k, n)]> (objects c)))
  | None => Err Bad_access
  end.

(** [np_ref_obj]; [np_unref_obj], which frees the object with its last reference
    and then yields [NULL]. *)
Definition ref_obj (c : keycache_t) (p : key_ptr) : result keycache_t :=
  match objects c !! p with
  | Some (k, n) => Ok (set_objects c (<[p := (k, n + 1)]> (objects c)))
  | None => Err Bad_access
  end.
Definition unref_obj (c : keycache_t) (p : key_ptr) : result (keycache_t * option key_ptr) :=
  match objects c !! p with
  | Some (k, n) =>
      if n - 1 =? 0 then Ok (set_objects c (delete p (objects c)), None)
      else Ok (set_objects c (<[p := (k, n - 1)]> (objects c)), Some p)
  | None => Err Bad_access
  end.

Definition _np_keycache_init (s : store) : keycache_t := Cache rb_init 0 dhkey_zero s.

(** [_np_key_t_new] on the zeroed memory of a new object, which its creator holds. *)
Definition new_key (now : Q) : np_key_t := Key dhkey_zero 0 dhkey_zero now now false None.

Definition _np_keycache_add (c : keycache_t) (subject_key : key_ptr) : result (keycache_t * key_ptr) :=
  k ← key_at c subject_key;
  let c := set_cache c (rb_insert (__key_cache c) (dhkey k) subject_key) in
  c ← upd_key c subject_key (fun k => set_in_keycache k true);
  c ← ref_obj c subject_key;
  Ok (set_udpate c (last_update k), subject_key).

Definition _np_keycache_create (alloc : store -> key_ptr) (now : Q) (c : keycache_t) (search_dhkey : np_dhkey_t)
    : result (keycache_t * key_ptr) :=
  let key := alloc (objects c) in
  let c := set_objects c (<[key := (new_key now, 1)]> (objects c)) in
  c ← upd_key c key (fun k => Key search_dhkey (key_type k) (parent_dhkey k) now now (is_in_keycache k) (nodeinfo k));
  '(c, _) ← _np_keycache_add c key;
  Ok (c, key).

Definition _np_keycache_find (c : keycache_t) (search_dhkey : np_dhkey_t) : result (keycache_t * option key_ptr) :=
  match rb_find (__key_cache c) search_dhkey with
  | Some return_key => c ← ref_obj c return_key; Ok (c, Some return_key)
  | None => Ok (c, None)
  end.

Definition _np_keycache_find_or_create (alloc : store -> key_ptr) (now : Q) (c : keycache_t)
    (search_dhkey : np_dhkey_t) : result (keycache_t * key_ptr) :=
  match rb_find (__key_cache c) search_dhkey with
  | None => _np_keycache_create alloc now c search_dhkey
  | Some key => c ← ref_obj c key; Ok (c, key)
  end.

Definition _np_key_readonly_copy (k : np_key_t) : np_key_ro_t :=
  KeyRo (dhkey k) (key_type k) (parent_dhkey k).

(** [want] says whether a buffer is given; the copy when it is filled. *)
Definition _np_keycache_exists (c : keycache_t) (search_dhkey : np_dhkey_t) (want : bool)
    : result (keycache_t * bool * option np_key_ro_t) :=
  match rb_find (__key_cache c) search_dhkey with
  | None => Ok (c, false, None)
  | Some return_key =>
      if want then
        c ← ref_obj c return_key;
        k ← key_at c return_key;
        let buffer := _np_key_readonly_copy k in
        '(c, _) ← unref_obj c return_key;
        Ok (c, true, Some buffer)
      else Ok (c, true, None)
  end.

(** [NULL] is returned when the cache held the last reference. *)
Definition _np_keycache_remove (now : Q) (c : keycache_t) (search_dhkey : np_dhkey_t)
    : result (keycache_t * option key_ptr) :=
  match rb_find (__key_cache c) search_dhkey with
  | None => Ok (c, None)
  | Some rem_key =>
      let c := set_cache c (rb_remove (__key_cache c) search_dhkey) in
      c ← upd_key c rem_key (fun k => set_in_keycache k false);
      '(c, rem_key) ← unref_obj c rem_key;
      Ok (set_udpate c now, rem_key)
  end.

(** ** Searches through all keys *)

(** [RB_FOREACH] with a [break] at the first key [match_key] accepts: that key is
    referenced and returned. *)
Fixpoint foreach_find (match_key : np_key_t -> result bool) (c : keycache_t) (iter : list (np_dhkey_t * key_ptr))
    : result (keycache_t * option key_ptr) :=
  match iter with
  | [] => Ok (c, None)
  | (_, p) :: rest =>
      k ← key_at c p;
      found ← match_key k;
      if (found : bool) then c ← ref_obj c p; Ok (c, Some p)
      else foreach_find match_key c rest
  end.

Definition interface_matches (ip : list Z) (prt : option (list Z)) (k : np_key_t) : bool :=
  FLAG_CMP (key_type k) np_key_type_interface &&
  match _np_key_get_node k with
  | Some node =>
      match ip_string node with
      | Some s => strncmp_prefix s ip &&
          match prt with
          | None => true
          | Some pt => match port node with Some s => strncmp_prefix s pt | None => false end
          end
      | None => false
      end
  | None => false
  end.

Definition _np_keycache_find_interface (c : keycache_t) (ip : list Z) (prt : option (list Z))
    : result (keycache_t * option key_ptr) :=
  foreach_find (fun k => Ok (interface_matches ip prt k)) c (rb_foreach (__key_cache c)).

(** [details] is the text searched, [str] prints a hash; [mine] tells the own
    node and identity.  Such keys are passed over when [search_myself] is set. *)
Definition details_match (str : np_dhkey_t -> list Z) (mine : np_dhkey_t -> bool) (details : list Z)
    (search_myself : bool) (status : Z) (require_status require_dns require_port require_hash : bool)
    (k : np_key_t) : bool :=
  if search_myself && mine (dhkey k) then false else
  let node := if (key_type k =? np_key_type_node) || (key_type k =? np_key_type_interface)
              then _np_key_get_node k else None in
  (negb require_status || match node with Some n => _handshake_status n =? status | None => false end) &&
  (negb require_hash || strstr details (str (dhkey k))) &&
  (negb require_dns || match node with
                       | Some n => match ip_string n with Some s => strstr details s | None => false end
                       | None => false end) &&
  (negb require_port || match node with
                        | Some n => match port n with Some s => strstr details s | None => false end
                        | None => false end).

Definition _np_keycache_find_by_details (str : np_dhkey_t -> list Z) (my_node_key my_identity : np_dhkey_t)
    (c : keycache_t) (details : list Z) (search_myself : bool) (status : Z)
    (require_status require_dns require_port require_hash : bool) : result (keycache_t * option key_ptr) :=
  foreach_find
    (fun k => Ok (details_match str (fun h => _np_dhkey_equal h my_node_key || _np_dhkey_equal h my_identity)
                    details search_myself status require_status require_dns require_port require_hash k))
    c (rb_foreach (__key_cache c)).

Definition _np_keycache_find_deprecated (now : Q) (my_node_key my_identity : np_dhkey_t) (c : keycache_t)
    : result (keycache_t * option key_ptr) :=
  foreach_find
    (fun k => Ok (if _np_dhkey_equal (dhkey k) my_node_key || _np_dhkey_equal (dhkey k) my_identity then false
                  else Qltb (last_update k) (now - NP_KEYCACHE_DEPRECATION_INTERVAL)))
    c (rb_foreach (__key_cache c)).

Definition _np_keycache_get_all (c : keycache_t) : result (keycache_t * list key_ptr) :=
  foldM (fun e '(c, ret) => c ← ref_obj c e.2; Ok (c, ret ++ [e.2])) (rb_foreach (__key_cache c)) (c, []).

(** ** The periodic walk: [_np_keycache_exists_state] *)

(** The loop over the hashes: the start of the walk, the counter, whether it has
    been reached and the hashes collected. *)
Fixpoint state_walk (iter : list np_dhkey_t) (start : np_dhkey_t) (i : Z) (process_state_check : bool)
    (tmp_to_transition : list np_dhkey_t) : np_dhkey_t * Z * list np_dhkey_t :=
  match iter with
  | [] => (start, i, tmp_to_transition)
  | k :: rest =>
      let start := if _np_dhkey_equal dhkey_zero start then k else start in
      let '(i, process_state_check, tmp_to_transition) :=
        if (_np_dhkey_equal k start || process_state_check) && (i <? _NP_KEYCACHE_ITERATION_STEPS)
        then (u16 (i + 1), true, tmp_to_transition ++ [k])
        else (i, process_state_check, tmp_to_transition) in
      if _NP_KEYCACHE_ITERATION_STEPS <=? i then (k, i, tmp_to_transition)
      else state_walk rest start i process_state_check tmp_to_transition
  end.

(** The cache and the hashes that get a [noop] event, in order. *)
Definition _np_keycache_exists_state (c : keycache_t) : keycache_t * list np_dhkey_t :=
  let '(start, i, tmp_to_transition) :=
    state_walk (map fst (rb_foreach (__key_cache c))) (_check_state_iterator c) 0 false [] in
  let start := if i <? _NP_KEYCACHE_ITERATION_STEPS then dhkey_zero else start in
  (set_iterator c start, tmp_to_transition).

(** ** Events and the end *)

(** [handle] is [_np_key_handle_event] on the key found, an argument: the actions
    of the life cycle work on the cache again and on the rest of the program, whose
    state is [s].  [None]: no key has the hash. *)
Definition _np_keycache_execute_event {Event S : Type}
    (handle : key_ptr -> Event -> keycache_t * S -> result (keycache_t * S))
    (c : keycache_t) (dh : np_dhkey_t) (event : Event) (s : S) : result (keycache_t * S * option key_ptr) :=
  '(c, key) ← _np_keycache_find c dh;
  match key with
  | Some p =>
      '(c, s) ← handle p event (c, s);
      '(c, _) ← unref_obj c p;
      Ok (c, s, Some p)
  | None => Ok (c, s, None)
  end.

(** [while ((iter = RB_ROOT (..)) != NULL) _np_key_destroy (iter);] with any
    choice of the root; destroying a key removes it from the cache. *)
Fixpoint destroy_loop (fuel : nat) (root : tree -> option np_dhkey_t) (now : Q) (c : keycache_t) : result keycache_t :=
  match fuel with
  | O => Err Diverges
  | S fuel' =>
      match root (__key_cache c) with
      | None => Ok c
      | Some iter =>
          '(c, _) ← _np_keycache_remove now c iter;
          destroy_loop fuel' root now c
      end
  end.

Definition _np_keycache_destroy (root : tree -> option np_dhkey_t) (now : Q) (c : keycache_t) : result keycache_t :=
  destroy_loop (S (length (rb_foreach (__key_cache c)))) root now c.
End Keycache.
