(* ===== verification/KeycacheSpec.v ===== *)
(** * The key cache against its contract

    The cache is a map from hashes to keys ([view]).  A ghost count says how many
    references the callers hold; the invariant makes the counter of every object
    the references of its callers plus the one of the cache, so that no request
    touches a freed key and every key is freed with its last reference.  A sorted
    list discharges the interface of the tree. *)
From Stdlib Require Import ZArith Lia QArith Lqa.
From stdpp Require Import prelude gmap fin_maps sorting.
From S2P Require Import Prelude Real Dhkey Key Keycache.

Local Open Scope Z_scope.

(** ** A sorted list is a tree *)

Abbreviation entry := (np_dhkey_t * key_ptr)%type.

Fixpoint list_find_key (t : list entry) (k : np_dhkey_t) : option key_ptr :=
  match t with
  | [] => None
  | (h, p) :: t' =>
      let r := _np_dhkey_cmp (Some k) (Some h) in
      if r =? 0 then Some p else if r <? 0 then None else list_find_key t' k
  end.

Fixpoint list_insert_key (t : list entry) (k : np_dhkey_t) (p : key_ptr) : list entry :=
  match t with
  | [] => [(k, p)]
  | (h, q) :: t' =>
      let r := _np_dhkey_cmp (Some k) (Some h) in
      if r =? 0 then t else if r <? 0 then (k, p) :: t else (h, q) :: list_insert_key t' k p
  end.

#[export] Instance list_tree : RbTree (list entry) := {
  rb_init := [];
  rb_find := list_find_key;
  rb_insert := list_insert_key;
  rb_remove t k := filter (fun e => e.1 <> k) t;
  rb_foreach t := t;
}.

#[local] Arguments _np_dhkey_cmp : simpl never.

Definition list_ok (t : list entry) : Prop := StronglySorted hash_lt t /\ Forall (fun e => dhkey_wf e.1) t.

(** The entries behind a smaller key do not have it. *)
Lemma sorted_head_not_in k h p t :
  StronglySorted hash_lt ((h, p) :: t) -> dhkey_val k <= dhkey_val h -> forall q, (k, q) ∉ t.
Proof.
  intros S Hk q Hin. apply StronglySorted_inv in S as [_ S]. rewrite Forall_forall in S.
  specialize (S _ Hin). unfold hash_lt in S. simpl in S. lia.
Qed.

Lemma list_find_spec t k p : list_ok t -> dhkey_wf k -> list_find_key t k = Some p <-> (k, p) ∈ t.
Proof.
  intros [S W] Wk. induction t as [|[h q] t IH]; simpl; [set_solver|].
  pose proof S as S0. apply StronglySorted_inv in S as [S1 _]. apply Forall_cons in W as [Wh W].
  pose proof (fun Hk => sorted_head_not_in k h q t S0 Hk p) as Hout. rewrite elem_of_cons.
  destruct (dhkey_cmp_cases k h Wk Wh) as [[Hlt ->]|[(<- & V & ->)|[Hlt ->]]]; simpl.
  - split; [done|]. intros [[= -> ->]|Hin]; [lia|]. destruct Hout; [lia|done].
  - split; [intros [= ->]; by left|]. intros [[= ->]|Hin]; [done|]. destruct Hout; [lia|done].
  - rewrite IH by done. split; [by right|]. intros [[= -> ->]|Hin]; [lia|done].
Qed.

Lemma list_insert_ok t k p :
  list_ok t -> dhkey_wf k -> list_find_key t k = None ->
  list_ok (list_insert_key t k p) /\ list_insert_key t k p ≡ₚ (k, p) :: t.
Proof.
  intros [S W] Wk. unfold list_ok. induction t as [|[h q] t IH]; simpl; intros F.
  { split; [|done]. split; constructor; auto using SSorted_nil. }
  pose proof S as S0. pose proof W as W0.
  apply StronglySorted_inv in S as [S1 S2]. apply Forall_cons in W as [Wh W].
  destruct (dhkey_cmp_cases k h Wk Wh) as [[Hlt E]|[(<- & V & E)|[Hlt E]]]; rewrite E in *; simpl in *; [|done|].
  - split; [|done]. split; constructor; try done. constructor; [done|].
    eapply Forall_impl; [exact S2|]. unfold hash_lt. simpl. intros. lia.
  - destruct IH as [[S' W'] P]; [done..|]. split.
    + split; constructor; try done. rewrite P. by constructor.
    + rewrite P. apply Permutation_swap.
Qed.

Lemma list_insert_same t k p :
  list_ok t -> dhkey_wf k -> is_Some (list_find_key t k) -> list_insert_key t k p = t.
Proof.
  intros [S W] Wk. induction t as [|[h q] t IH]; simpl; [by intros [? ?]|].
  apply StronglySorted_inv in S as [S1 _]. apply Forall_cons in W as [Wh W].
  destruct (dhkey_cmp_cases k h Wk Wh) as [[Hlt ->]|[(<- & V & ->)|[Hlt ->]]]; simpl;
    [by intros [? ?]|done|]. intros F. by rewrite IH.
Qed.

Lemma Forall_filtered {A} (P : A -> Prop) Q `{forall x, Decision (Q x)} (l : list A) :
  Forall P l -> Forall P (filter Q l).
Proof. rewrite !Forall_forall. intros HP x Hx. apply list_elem_of_filter in Hx as [_ Hx]. auto. Qed.

Lemma list_remove_ok t k : list_ok t -> list_ok (filter (fun e => e.1 <> k) t).
Proof.
  intros [S W]. split.
  - induction S as [|e t S IH HF]; [constructor|]. apply Forall_cons in W as [_ W].
    rewrite filter_cons. case_decide; [|by apply IH]. constructor; [by apply IH|]. by apply Forall_filtered.
  - by apply Forall_filtered.
Qed.

#[export, refine] Instance list_tree_laws : RbTreeLaws (list entry) := {
  rb_ok := list_ok;
  rb_init_ok := conj (SSorted_nil _) (Forall_nil_2 _);
  rb_init_foreach := eq_refl;
  rb_sorted t O := proj1 O;
  rb_keys_wf t O := proj2 O;
  rb_find_spec := list_find_spec;
  rb_insert_new := list_insert_ok;
  rb_insert_old := list_insert_same;
}.
Proof. intros t k O _. split; [by apply list_remove_ok|done]. Defined.

(** ** Requests *)

(** What the other modules ask of the cache, and do with the keys they got from it:
    [Take_ref] takes one more reference ([np_ref_obj]) on a key in hand, [Change_key] writes to
    its other fields, [Release] gives back a reference the caller holds. *)
Inductive request :=
| Find_or_create (k : np_dhkey_t)
| Find (k : np_dhkey_t)
| Exists_key (k : np_dhkey_t) (want : bool)
| Search_key (match_key : np_key_t -> bool)
| Get_all
| Remove (k : np_dhkey_t)
| Take_ref (p : key_ptr)
| Change_key (p : key_ptr) (f : np_key_t -> np_key_t)
| Release (p : key_ptr).

(** A program of the other modules: it goes on with the keys a request gave it; an event
    for a key runs another such program, that of the actions of the key found, within it. *)
Inductive client :=
| Stop
| Ask (q : request) (next : list key_ptr -> client)
| Execute (k : np_dhkey_t) (actions : key_ptr -> client) (next : client).

(** ** The invariant of the cache and of the counts *)

Section Cache.
Context `{RbTreeLaws tree}.

Abbreviation cache := (@keycache_t tree).

(** The cache as a map from hashes to keys. *)
Definition view (c : cache) : np_dhkey_t -> option key_ptr := rb_find (__key_cache c).
Definition content (c : cache) : list entry := rb_foreach (__key_cache c).

Definition count (c : cache) (p : key_ptr) : Z :=
  match objects c !! p with Some (_, n) => n | None => 0 end.
Definition in_cache (l : list entry) (p : key_ptr) : Z := Z.of_nat (length (filter (fun e => e.2 = p) l)).

(** A caller gains or loses a reference. *)
Definition give (held : key_ptr -> Z) (d : Z) (p q : key_ptr) : Z := held q + if decide (q = p) then d else 0.

Record cache_inv (c : cache) (held : key_ptr -> Z) : Prop := CacheInv {
  inv_tree : rb_ok (__key_cache c);
  inv_count p : count c p = held p + in_cache (content c) p;
  inv_held p : 0 <= held p;
  inv_entry k p : (k, p) ∈ content c ->
    exists key n, objects c !! p = Some (key, n) /\ dhkey key = k /\ is_in_keycache key = true;
  inv_pos p key n : objects c !! p = Some (key, n) -> 1 <= n;
}.

Lemma in_cache_nonneg l p : 0 <= in_cache l p.
Proof. unfold in_cache. lia. Qed.

Lemma in_cache_cons e l p : in_cache (e :: l) p = in_cache l p + if decide (p = e.2) then 1 else 0.
Proof. unfold in_cache. rewrite filter_cons. repeat case_decide; simpl; try congruence; lia. Qed.

Lemma in_cache_perm l l' p : l ≡ₚ l' -> in_cache l p = in_cache l' p.
Proof. intros P. unfold in_cache. by rewrite P. Qed.

Lemma in_cache_pos l k p : (k, p) ∈ l -> 1 <= in_cache l p.
Proof.
  intros Hin. unfold in_cache. assert ((k, p) ∈ filter (fun e => e.2 = p) l) as F by (by apply list_elem_of_filter).
  destruct (filter _ l); [by apply elem_of_nil in F|]. simpl. lia.
Qed.

Lemma in_cache_zero l p : in_cache l p = 0 -> forall k, (k, p) ∉ l.
Proof. intros E k Hin. pose proof (in_cache_pos _ _ _ Hin). lia. Qed.

Lemma in_cache_out l p : (forall k, (k, p) ∉ l) -> in_cache l p = 0.
Proof.
  intros Hout. induction l as [|[k q] l IH]; [done|]. rewrite in_cache_cons, IH.
  - case_decide as Hp; [|done]. destruct (Hout k). rewrite Hp. by left.
  - intros k' Hin. apply (Hout k'). by right.
Qed.

(** Taking out the entry a search finds takes out exactly that entry. *)
Lemma remove_perm t k p : rb_ok t -> dhkey_wf k -> rb_find t k = Some p ->
  rb_foreach t ≡ₚ (k, p) :: rb_foreach (rb_remove t k).
Proof.
  intros O Wk F. apply rb_find_spec in F; [|done..].
  destruct (rb_remove_spec t k O Wk) as [_ ->]. pose proof (rb_sorted t O) as S.
  induction S as [|[h q] l S IH HF]; [by apply elem_of_nil in F|].
  rewrite filter_cons. rewrite Forall_forall in HF. apply elem_of_cons in F as [[= <- <-]|F].
  - case_decide as Hd; simpl in Hd; [done|]. f_equiv. clear IH S. induction l as [|[h' q'] l IH]; [done|].
    rewrite filter_cons, decide_True.
    + f_equiv. apply IH. intros x Hx. apply HF. by right.
    + simpl. intros ->. specialize (HF (k, q') ltac:(left)). unfold hash_lt in HF. simpl in HF. lia.
  - rewrite decide_True.
    + etrans; [apply perm_skip, (IH F)|apply Permutation_swap].
    + simpl. intros ->. specialize (HF _ F). unfold hash_lt in HF. simpl in HF. lia.
Qed.

Lemma view_spec (c : cache) held k p : cache_inv c held -> dhkey_wf k -> view c k = Some p <-> (k, p) ∈ content c.
Proof. intros I Wk. apply rb_find_spec; [apply I|done]. Qed.

(** An entry of the cache: the object exists and is held by the cache. *)
Lemma view_object (c : cache) held k p : cache_inv c held -> dhkey_wf k -> view c k = Some p ->
  exists key n, objects c !! p = Some (key, n) /\ dhkey key = k /\ is_in_keycache key = true.
Proof. intros I Wk V. eapply inv_entry; [done|]. by eapply view_spec. Qed.

Lemma content_key_wf (c : cache) held k p : cache_inv c held -> (k, p) ∈ content c -> dhkey_wf k.
Proof.
  intros I Hin. pose proof (rb_keys_wf _ (inv_tree _ _ I)) as W. rewrite Forall_forall in W. by apply (W (k, p)).
Qed.

#[export] Instance cache_inv_proper (c : cache) : Proper (pointwise_relation _ eq ==> iff) (cache_inv c).
Proof.
  assert (forall held held', pointwise_relation _ eq held held' -> cache_inv c held -> cache_inv c held') as Hone.
  { intros held held' E I. split; [apply I| | |apply I|apply I].
    - intros p. rewrite <- E. apply I.
    - intros p. rewrite <- E. apply I. }
  intros held held' E. split; apply Hone; [done|by symmetry].
Qed.

(** One object and its entry change, with the count following. *)
Lemma inv_update (c c' : cache) held held' p key' n' :
  cache_inv c held -> rb_ok (__key_cache c') -> objects c' = <[p := (key', n')]> (objects c) ->
  1 <= n' -> 0 <= held' p -> n' = held' p + in_cache (content c') p ->
  (forall q, q <> p -> held' q = held q /\ in_cache (content c') q = in_cache (content c) q) ->
  (forall k, (k, p) ∈ content c' -> dhkey key' = k /\ is_in_keycache key' = true) ->
  (forall k q, q <> p -> (k, q) ∈ content c' -> (k, q) ∈ content c) ->
  cache_inv c' held'.
Proof.
  intros I O E Hn Hp Hc Ho He Hs. split; [done| | | |].
  - intros q. unfold count. rewrite E. destruct (decide (q = p)) as [->|Hne]; [by rewrite lookup_insert_eq|].
    rewrite lookup_insert_ne by done. destruct (Ho q Hne) as [-> ->]. apply I.
  - intros q. destruct (decide (q = p)) as [->|Hne]; [done|]. destruct (Ho q Hne) as [-> _]. apply I.
  - intros k q Hin. rewrite E. destruct (decide (q = p)) as [->|Hne].
    + rewrite lookup_insert_eq. exists key', n'. by destruct (He k Hin).
    + rewrite lookup_insert_ne by done. by apply (inv_entry _ _ I), Hs.
  - intros q key0 n0. rewrite E. destruct (decide (q = p)) as [->|Hne]; [rewrite lookup_insert_eq; congruence|].
    rewrite lookup_insert_ne by done. apply I.
Qed.

(** Changing one object outside the tree: its hash stays. *)
Lemma inv_object (c : cache) held held' p key n key' n' :
  cache_inv c held -> objects c !! p = Some (key, n) ->
  dhkey key' = dhkey key -> is_in_keycache key' = is_in_keycache key -> 1 <= n' ->
  0 <= held' p -> held' p = held p + (n' - n) -> (forall q, q <> p -> held' q = held q) ->
  cache_inv (set_objects c (<[p := (key', n')]> (objects c))) held'.
Proof.
  intros I E Ek Ei Hn Hp Hd Ho. pose proof (inv_count _ _ I p) as Hq. unfold count in Hq. rewrite E in Hq.
  eapply (inv_update c); try done; try apply I.
  - change (content (set_objects c (<[p:=(key', n')]> (objects c)))) with (content c). lia.
  - intros q Hne. by rewrite (Ho q Hne).
  - intros k Hin. destruct (inv_entry _ _ I k p Hin) as (key0 & n0 & E0 & Hk & Hi).
    rewrite E in E0. injection E0 as -> ->. by rewrite Ek, Ei.
Qed.

Lemma ref_ok (c : cache) held p : cache_inv c held -> is_Some (objects c !! p) ->
  exists c', ref_obj c p = Ok c' /\ cache_inv c' (give held 1 p) /\ __key_cache c' = __key_cache c /\
    (forall q, fst <$> objects c' !! q = fst <$> objects c !! q).
Proof.
  intros I [[key n] E]. unfold ref_obj. rewrite E. eexists. split; [done|]. split; [|split; [done|]].
  - pose proof (inv_pos _ _ I _ _ _ E). pose proof (inv_held _ _ I p). eapply (inv_object c held); try done.
    + lia.
    + unfold give. rewrite decide_True by done. lia.
    + unfold give. rewrite decide_True by done. lia.
    + intros q Hq. unfold give. rewrite decide_False by done. lia.
  - intros q. simpl. destruct (decide (q = p)) as [->|]; [by rewrite lookup_insert_eq, E|by rewrite lookup_insert_ne].
Qed.

(** Giving a reference back: the object goes with the last one. *)
Lemma unref_ok (c : cache) held p : cache_inv c held -> 1 <= held p ->
  exists c' r, unref_obj c p = Ok (c', r) /\ cache_inv c' (give held (-1) p) /\ __key_cache c' = __key_cache c /\
    r = match objects c' !! p with Some _ => Some p | None => None end /\
    (forall q, q <> p -> objects c' !! q = objects c !! q).
Proof.
  intros I Hp. pose proof (inv_count _ _ I p) as Hc. pose proof (in_cache_nonneg (content c) p).
  unfold count in Hc. unfold unref_obj. destruct (objects c !! p) as [[key n]|] eqn:E; [|lia].
  destruct (Z.eqb_spec (n - 1) 0) as [E1|E1].
  - eexists _, _. split; [done|]. assert (in_cache (content c) p = 0) as Z0 by lia.
    split; [|split; [done|]; split; [by simpl; rewrite lookup_delete_eq|]; intros q Hq; simpl; by rewrite lookup_delete_ne].
    split; simpl.
    + apply I.
    + intros q. pose proof (inv_count _ _ I q) as Hq. unfold count, content, give in *. simpl.
      destruct (decide (q = p)) as [->|Hne].
      * rewrite lookup_delete_eq. lia.
      * rewrite lookup_delete_ne by done. lia.
    + intros q. unfold give. pose proof (inv_held _ _ I q). case_decide; [subst; lia|lia].
    + intros k q Hin. destruct (decide (q = p)) as [->|Hne]; [by destruct (in_cache_zero _ _ Z0 k)|].
      rewrite lookup_delete_ne by done. by apply (inv_entry _ _ I).
    + intros q key0 n0. destruct (decide (q = p)) as [->|Hne]; [by rewrite lookup_delete_eq|].
      rewrite lookup_delete_ne by done. apply I.
  - eexists _, _. split; [done|]. pose proof (inv_pos _ _ I _ _ _ E).
    split; [|split; [done|]; split; [by simpl; rewrite lookup_insert_eq|]; intros q Hq; simpl; by rewrite lookup_insert_ne].
    eapply (inv_object c held); try done; unfold give; rewrite ?decide_True by done; try lia.
    intros q Hq. rewrite decide_False by done. lia.
Qed.

(** ** The operations *)

Lemma give_back held p : pointwise_relation _ eq (give (give held 1 p) (-1) p) held.
Proof. intros q. unfold give. case_decide; lia. Qed.

(** A tree with another content is another map. *)
Lemma find_ext t t' k k' : rb_ok t -> rb_ok t' -> dhkey_wf k' ->
  (forall p, (k', p) ∈ rb_foreach t' <-> (k', p) ∈ rb_foreach t) -> k' <> k -> rb_find t' k' = rb_find t k'.
Proof.
  intros O O' W E Hne. apply option_eq. intros p. by rewrite !rb_find_spec, E.
Qed.

Lemma find_insert t k p : rb_ok t -> dhkey_wf k -> rb_find t k = None ->
  rb_find (rb_insert t k p) k = Some p /\
  (forall k', dhkey_wf k' -> k' <> k -> rb_find (rb_insert t k p) k' = rb_find t k').
Proof.
  intros O Wk F. destruct (rb_insert_new t k p O Wk F) as [O' P]. split.
  - rewrite rb_find_spec, P by done. by left.
  - intros k' W' Hne. apply (find_ext _ _ k); try done. intros q. rewrite P, elem_of_cons.
    split; [|by right]. by intros [[= <- <-]|].
Qed.

Lemma find_remove t k : rb_ok t -> dhkey_wf k ->
  rb_find (rb_remove t k) k = None /\
  (forall k', dhkey_wf k' -> k' <> k -> rb_find (rb_remove t k) k' = rb_find t k').
Proof.
  intros O Wk. destruct (rb_remove_spec t k O Wk) as [O' E]. split.
  - destruct (rb_find (rb_remove t k) k) as [p|] eqn:F; [|done].
    apply rb_find_spec in F; [|done..]. rewrite E in F. by apply list_elem_of_filter in F as [Hne _].
  - intros k' W' Hne. apply (find_ext _ _ k); try done. intros q. rewrite E, list_elem_of_filter. simpl. tauto.
Qed.

(** Entering an object whose hash is not cached: the cache takes a reference. *)
Lemma add_ok (c : cache) held p key n :
  cache_inv c held -> objects c !! p = Some (key, n) -> dhkey_wf (dhkey key) -> view c (dhkey key) = None ->
  exists c', _np_keycache_add c p = Ok (c', p) /\ cache_inv c' held /\
    __key_cache c' = rb_insert (__key_cache c) (dhkey key) p /\ __last_udpate c' = last_update key /\
    objects c' = <[p := (set_in_keycache key true, n + 1)]> (objects c).
Proof.
  intros I E Wk V. destruct (rb_insert_new _ _ p (inv_tree _ _ I) Wk V) as [O P].
  unfold _np_keycache_add, key_at, upd_key, ref_obj. rewrite E. simpl. rewrite E. simpl. rewrite lookup_insert_eq. simpl.
  rewrite insert_insert_eq. eexists. split; [done|]. split; [|done].
  pose proof (inv_count _ _ I p) as Hc. unfold count in Hc. rewrite E in Hc.
  pose proof (in_cache_perm _ _ p P) as Hp. rewrite in_cache_cons, decide_True in Hp by done.
  assert (forall k, (k, p) ∉ content c) as Hout.
  { intros k Hin. destruct (inv_entry _ _ I k p Hin) as (k0 & n0 & E0 & Hk & _). rewrite E in E0. injection E0 as -> ->.
    subst k. apply (view_spec c held) in Hin; [congruence|done..]. }
  pose proof (inv_pos _ _ I _ _ _ E). pose proof (inv_held _ _ I p). eapply (inv_update c _ held); try done.
  - simpl. lia.
  - simpl. unfold content in *. simpl in *. lia.
  - intros q Hne. split; [done|]. unfold content. simpl. rewrite (in_cache_perm _ _ q P), in_cache_cons, decide_False by done. lia.
  - intros k Hin. unfold content in Hin. simpl in Hin. rewrite P in Hin.
    apply elem_of_cons in Hin as [[= ->]|Hin]; [done|by destruct (Hout k)].
  - intros k q Hne Hin. unfold content in Hin. simpl in Hin. rewrite P in Hin.
    apply elem_of_cons in Hin as [[= -> ->]|Hin]; done.
Qed.

Lemma find_ok (c : cache) held k : cache_inv c held -> dhkey_wf k ->
  exists c', _np_keycache_find c k = Ok (c', view c k) /\ __key_cache c' = __key_cache c /\
    cache_inv c' (match view c k with Some p => give held 1 p | None => held end).
Proof.
  intros I Wk. unfold _np_keycache_find, view. destruct (rb_find (__key_cache c) k) as [p|] eqn:F; [|by eexists].
  destruct (view_object c held k p I Wk F) as (key & n & E & _).
  destruct (ref_ok c held p I) as (c' & -> & I' & Ht & _); [by eexists|]. simpl. by eexists.
Qed.

Lemma create_ok alloc now (c : cache) held k : cache_inv c held -> dhkey_wf k -> view c k = None ->
  (forall s : gmap key_ptr (np_key_t * Z), s !! alloc s = None) ->
  let p := alloc (objects c) in
  exists c', _np_keycache_create alloc now c k = Ok (c', p) /\ cache_inv c' (give held 1 p) /\
    __key_cache c' = rb_insert (__key_cache c) k p /\
    objects c' = <[p := (Key k 0 dhkey_zero now now true None, 2)]> (objects c).
Proof.
  intros I Wk V Hfresh p. pose proof (Hfresh (objects c)) as Hp. fold p in Hp.
  pose proof (inv_count _ _ I p) as Hc. unfold count in Hc. rewrite Hp in Hc.
  pose proof (inv_held _ _ I p). pose proof (in_cache_nonneg (content c) p).
  set (key := Key k 0 dhkey_zero now now false None).
  set (c1 := set_objects c (<[p := (key, 1)]> (objects c))).
  assert (cache_inv c1 (give held 1 p)) as I1.
  { eapply (inv_update c); try done; try apply I; unfold give.
    - rewrite decide_True by done. lia.
    - rewrite decide_True by done. change (content c1) with (content c). lia.
    - intros q Hne. rewrite decide_False by done. split; [lia|done].
    - intros k' Hin. destruct (in_cache_zero (content c) p ltac:(lia) k' Hin). }
  destruct (add_ok c1 _ p key 1 I1) as (c' & Hadd & I' & Ht & _ & Ho); [by apply lookup_insert_eq|done..|].
  assert (_np_keycache_create alloc now c k = '(c2, _) ← _np_keycache_add c1 p; Ok (c2, p)) as ->.
  { unfold _np_keycache_create, upd_key. fold p. simpl. rewrite lookup_insert_eq. simpl. by rewrite insert_insert_eq. }
  rewrite Hadd. simpl. eexists. split; [done|].
  split; [done|]. split; [by rewrite Ht|]. rewrite Ho. simpl. by rewrite insert_insert_eq.
Qed.

Lemma find_or_create_ok alloc now (c : cache) held k : cache_inv c held -> dhkey_wf k ->
  (forall s : gmap key_ptr (np_key_t * Z), s !! alloc s = None) ->
  exists c' p, _np_keycache_find_or_create alloc now c k = Ok (c', p) /\ cache_inv c' (give held 1 p) /\
    (view c k = Some p /\ __key_cache c' = __key_cache c \/
     view c k = None /\ objects c !! p = None /\ __key_cache c' = rb_insert (__key_cache c) k p).
Proof.
  intros I Wk Hfresh. unfold _np_keycache_find_or_create.
  destruct (rb_find (__key_cache c) k) as [p|] eqn:F.
  - destruct (view_object c held k p I Wk F) as (key & n & E & _).
    destruct (ref_ok c held p I) as (c' & -> & I' & Ht & _); [by eexists|]. simpl. eexists _, p. auto.
  - destruct (create_ok alloc now c held k I Wk F Hfresh) as (c' & -> & I' & Ht & _). eexists _, _.
    split; [done|]. split; [done|]. right. auto.
Qed.

Lemma exists_ok (c : cache) held k want : cache_inv c held -> dhkey_wf k ->
  exists c' buffer, _np_keycache_exists c k want = Ok (c', bool_decide (is_Some (view c k)), buffer) /\
    __key_cache c' = __key_cache c /\ cache_inv c' held.
Proof.
  intros I Wk. unfold _np_keycache_exists, view. destruct (rb_find (__key_cache c) k) as [p|] eqn:F; [|by eexists _, _].
  destruct want; [|by eexists _, _]. destruct (view_object c held k p I Wk F) as (key & n & E & _).
  destruct (ref_ok c held p I) as (c1 & -> & I1 & Ht1 & Ho); [by eexists|]. simpl. unfold key_at.
  specialize (Ho p). rewrite E in Ho. simpl in Ho. destruct (objects c1 !! p) as [[k1 n1]|]; [|done]. simpl.
  pose proof (inv_held _ _ I p).
  destruct (unref_ok c1 _ p I1) as (c2 & r & -> & I2 & Ht2 & _).
  { unfold give. rewrite decide_True by done. lia. }
  simpl. eexists _, _. split; [done|]. split; [congruence|]. by rewrite give_back in I2.
Qed.

Lemma keycache_remove_ok now (c : cache) held k : cache_inv c held -> dhkey_wf k ->
  exists c' r, _np_keycache_remove now c k = Ok (c', r) /\ cache_inv c' held /\
    match view c k with
    | Some p => __key_cache c' = rb_remove (__key_cache c) k /\
        (if decide (held p = 0) then r = None /\ objects c' !! p = None else r = Some p /\ is_Some (objects c' !! p)) /\
        (forall q, q <> p -> objects c' !! q = objects c !! q)
    | None => c' = c /\ r = None
    end.
Proof.
  intros I Wk. unfold _np_keycache_remove. destruct (view c k) as [p|] eqn:V; unfold view in V; rewrite V; [|by eexists _, _].
  destruct (view_object c held k p I Wk V) as (key & n & E & Hk & Hi). unfold upd_key. simpl. rewrite E. simpl.
  pose proof (remove_perm _ k p (inv_tree _ _ I) Wk V) as P.
  destruct (rb_remove_spec _ k (inv_tree _ _ I) Wk) as [O Ef].
  set (c1 := set_objects (set_cache c (rb_remove (__key_cache c) k)) (<[p := (set_in_keycache key false, n)]> (objects c))).
  pose proof (inv_pos _ _ I _ _ _ E). pose proof (inv_held _ _ I p).
  pose proof (inv_count _ _ I p) as Hc. unfold count in Hc. rewrite E in Hc.
  pose proof (in_cache_perm _ _ p P) as Hp. rewrite in_cache_cons, decide_True in Hp by done.
  assert (forall k' q, (k', q) ∈ content c1 -> (k', q) ∈ content c /\ k' <> k) as Hin.
  { intros k' q Hq. unfold content in Hq. simpl in Hq. rewrite Ef in Hq. by apply list_elem_of_filter in Hq as [? ?]. }
  assert (forall k', (k', p) ∉ content c1) as Hout.
  { intros k' Hq. destruct (Hin _ _ Hq) as [Hq' Hne]. destruct (inv_entry _ _ I _ _ Hq') as (k0 & n0 & E0 & Hk0 & _).
    rewrite E in E0. injection E0 as -> ->. congruence. }
  assert (cache_inv c1 (give held 1 p)) as I1.
  { eapply (inv_update c); try done; unfold give; rewrite ?decide_True by done; try lia.
    - change (content c1) with (rb_foreach (rb_remove (__key_cache c) k)). unfold content in Hc. lia.
    - intros q Hne. rewrite decide_False by done. split; [lia|]. unfold content. simpl.
      rewrite (in_cache_perm _ _ q P), in_cache_cons, decide_False by done. lia.
    - intros k' Hq. by destruct (Hout k').
    - intros k' q _ Hq. apply (Hin _ _ Hq). }
  destruct (unref_ok c1 _ p I1) as (c2 & r & Hun & I2 & Ht & Hr & Ho).
  { unfold give. rewrite decide_True by done. lia. }
  rewrite Hun. simpl. rewrite give_back in I2. eexists _, _. split; [done|].
  split; [by destruct I2; split|]. split; [exact Ht|].
  assert (in_cache (content c2) p = 0) as Z0.
  { unfold content. rewrite Ht. by apply in_cache_out. }
  split; [|intros q Hne; simpl; rewrite Ho by done; simpl; by rewrite lookup_insert_ne].
  pose proof (inv_count _ _ I2 p) as Hc2. unfold count in Hc2. subst r. simpl.
  destruct (objects c2 !! p) as [[k2 n2]|] eqn:E2; case_decide; try done; try lia.
  pose proof (inv_pos _ _ I2 _ _ _ E2). lia.
Qed.

Lemma foreach_find_ok match_key (c : cache) held l : cache_inv c held -> (forall e, e ∈ l -> e ∈ content c) ->
  exists c' r, foreach_find (fun k => Ok (match_key k)) c l = Ok (c', r) /\ __key_cache c' = __key_cache c /\
    cache_inv c' (match r with Some p => give held 1 p | None => held end) /\
    match r with
    | Some p => exists key n, objects c !! p = Some (key, n) /\ match_key key = true
    | None => forall k p key n, (k, p) ∈ l -> objects c !! p = Some (key, n) -> match_key key = false
    end.
Proof.
  intros I. induction l as [|[k p] l IH]; intros Hl; simpl.
  { eexists _, _. split; [done|]. split; [done|]. split; [done|]. intros k p key n Hin. by apply elem_of_nil in Hin. }
  destruct (inv_entry _ _ I k p) as (key & n & E & Hk & Hi); [apply Hl; left|].
  unfold key_at. rewrite E. simpl. destruct (match_key key) eqn:M.
  - destruct (ref_ok c held p I) as (c' & -> & I' & Ht & _); [by eexists|]. simpl. eexists _, _. eauto 10.
  - destruct IH as (c' & r & -> & Ht & I' & Hr); [intros e He; apply Hl; by right|].
    eexists _, _. split; [done|]. split; [done|]. split; [done|]. destruct r; [done|].
    intros k' p' key' n' Hin E'. apply elem_of_cons in Hin as [[= -> ->]|Hin]; [|by eapply Hr].
    rewrite E in E'. by injection E' as -> ->.
Qed.

(** Every key of the list once more. *)
Definition give_all (held : key_ptr -> Z) (l : list key_ptr) (q : key_ptr) : Z :=
  held q + Z.of_nat (length (filter (fun p => p = q) l)).

Lemma give_all_cons held p l : pointwise_relation _ eq (give_all (give held 1 p) l) (give_all held (p :: l)).
Proof. intros q. unfold give_all, give. rewrite filter_cons. repeat case_decide; simpl; try congruence; lia. Qed.

Lemma give_all_nil held : pointwise_relation _ eq (give_all held []) held.
Proof. intros q. unfold give_all. rewrite filter_nil. simpl. lia. Qed.

Lemma get_all_ok (c : cache) held : cache_inv c held ->
  exists c', _np_keycache_get_all c = Ok (c', map snd (content c)) /\ __key_cache c' = __key_cache c /\
    cache_inv c' (give_all held (map snd (content c))).
Proof.
  intros I. unfold _np_keycache_get_all. fold (content c).
  assert (forall l c' held', __key_cache c' = __key_cache c -> cache_inv c' held' -> (forall e, e ∈ l -> e ∈ content c) ->
    forall acc, exists c2, foldM (fun e '(c, ret) => c ← ref_obj c e.2; Ok (c, ret ++ [e.2])) l (c', acc)
        = Ok (c2, acc ++ map snd l) /\ __key_cache c2 = __key_cache c /\
      cache_inv c2 (give_all held' (map snd l))) as Hgen.
  { clear I held. induction l as [|[k p] l IH]; intros c' held' Ht I Hl acc; simpl.
    - eexists. rewrite app_nil_r, give_all_nil. done.
    - destruct (inv_entry _ _ I k p) as (key & n & E & _).
      { unfold content. rewrite Ht. apply Hl. left. }
      destruct (ref_ok c' held' p I) as (c1 & -> & I1 & Ht1 & _); [by eexists|]. simpl.
      destruct (IH c1 _ ltac:(congruence) I1 ltac:(intros e He; apply Hl; by right) (acc ++ [p])) as (c2 & -> & Ht2 & I2).
      eexists. rewrite <- app_assoc. split; [done|]. split; [done|]. by rewrite give_all_cons in I2. }
  destruct (Hgen (content c) c held eq_refl I (fun e He => He) []) as (c2 & Hrun & Ht & I2).
  exists c2. auto.
Qed.

(** ** Requests of the other modules *)

Section Requests.
Context (alloc : gmap key_ptr (np_key_t * Z) -> key_ptr) (now : Q).

Definition give_opt (held : key_ptr -> Z) (r : option key_ptr) : key_ptr -> Z :=
  match r with Some p => give held 1 p | None => held end.

(** The references of the other modules are [held]; [pins] are those that
    [_np_keycache_execute_event] has on the keys whose events are being handled: these
    keys are in hand too, but it is not for the modules to give them back. *)
Definition serve (pins : key_ptr -> Z) (q : request) (s : cache * (key_ptr -> Z))
    : result (cache * (key_ptr -> Z) * list key_ptr) :=
  let '(c, held) := s in
  match q with
  | Find_or_create k => '(c, p) ← _np_keycache_find_or_create alloc now c k; Ok (c, give held 1 p, [p])
  | Find k => '(c, r) ← _np_keycache_find c k; Ok (c, give_opt held r, option_list r)
  | Exists_key k want => '(c, _, _) ← _np_keycache_exists c k want; Ok (c, held, [])
  | Search_key f => '(c, r) ← foreach_find (fun k => Ok (f k)) c (content c); Ok (c, give_opt held r, option_list r)
  | Get_all => '(c, l) ← _np_keycache_get_all c; Ok (c, give_all held l, l)
  | Remove k => '(c, r) ← _np_keycache_remove now c k; Ok (c, held, option_list r)
  | Take_ref p => if decide (1 <= held p + pins p) then c ← ref_obj c p; Ok (c, give held 1 p, [p]) else Ok (c, held, [])
  | Change_key p f => if decide (1 <= held p + pins p) then c ← upd_key c p f; Ok (c, held, []) else Ok (c, held, [])
  | Release p => if decide (1 <= held p) then '(c, _) ← unref_obj c p; Ok (c, give held (-1) p, []) else Ok (c, held, [])
  end.

Fixpoint run_client (pins : key_ptr -> Z) (prog : client) (s : cache * (key_ptr -> Z)) : result (cache * (key_ptr -> Z)) :=
  match prog with
  | Stop => Ok s
  | Ask q next => '(c, held, ks) ← serve pins q s; run_client pins (next ks) (c, held)
  | Execute k actions next =>
      '(c, held, _) ← _np_keycache_execute_event (fun p (_ : unit) s => run_client (give pins 1 p) (actions p) s) s.1 k tt s.2;
      run_client pins next (c, held)
  end.

(** Hashes are well formed; fields other than the hash and the flag of the cache are written. *)
Definition request_wf (q : request) : Prop :=
  match q with
  | Find_or_create k | Find k | Exists_key k _ | Remove k => dhkey_wf k
  | Change_key _ f => forall k, dhkey (f k) = dhkey k /\ is_in_keycache (f k) = is_in_keycache k
  | _ => True
  end.
Fixpoint client_wf (prog : client) : Prop :=
  match prog with
  | Stop => True
  | Ask q next => request_wf q /\ forall ks, client_wf (next ks)
  | Execute k actions next => dhkey_wf k /\ (forall p, client_wf (actions p)) /\ client_wf next
  end.

(** All references. *)
Definition all_refs (held pins : key_ptr -> Z) (p : key_ptr) : Z := held p + pins p.

Lemma total_held held pins d p : pointwise_relation _ eq (give (all_refs held pins) d p) (all_refs (give held d p) pins).
Proof. intros q. unfold all_refs, give. lia. Qed.
Lemma total_pins held pins d p : pointwise_relation _ eq (give (all_refs held pins) d p) (all_refs held (give pins d p)).
Proof. intros q. unfold all_refs, give. lia. Qed.
Lemma total_all held pins l : pointwise_relation _ eq (give_all (all_refs held pins) l) (all_refs (give_all held l) pins).
Proof. intros q. unfold all_refs, give_all. lia. Qed.

Definition sound_state (pins : key_ptr -> Z) (s : cache * (key_ptr -> Z)) : Prop :=
  cache_inv s.1 (all_refs s.2 pins) /\ forall p, 0 <= s.2 p.

Lemma give_pos held p : (forall q, 0 <= held q) -> forall q, 0 <= give held 1 p q.
Proof. intros Hh q. unfold give. specialize (Hh q). case_decide; lia. Qed.

(** The allocator returns unused memory. *)
Hypothesis alloc_fresh : forall s, s !! alloc s = None.

Lemma in_hand (c : cache) all p : cache_inv c all -> 1 <= all p -> exists key n, objects c !! p = Some (key, n).
Proof.
  intros I Hp. pose proof (inv_count _ _ I p) as Hc. pose proof (in_cache_nonneg (content c) p). unfold count in Hc.
  destruct (objects c !! p) as [[key n]|]; [eauto|lia].
Qed.

Lemma serve_ok pins q s : sound_state pins s -> (forall p, 0 <= pins p) -> request_wf q ->
  exists c' held' ks, serve pins q s = Ok (c', held', ks) /\ sound_state pins (c', held').
Proof using alloc_fresh.
  intros [I Hh] Hp Wq. destruct s as [c held]. cbn [fst snd] in *.
  assert (forall p, 0 <= held p + pins p) as Hall by (intros p; specialize (Hh p); specialize (Hp p); lia).
  destruct q as [k|k|k want|f| |k|p|p f|p]; cbn [serve request_wf] in *.
  - destruct (find_or_create_ok alloc now c _ k I Wq alloc_fresh) as (c' & p & -> & I' & _). rewrite total_held in I'.
    do 3 eexists. split; [done|]. split; [done|]. by apply give_pos.
  - destruct (find_ok c _ k I Wq) as (c' & -> & _ & I'). do 3 eexists. split; [done|]. unfold sound_state. cbn [fst snd].
    destruct (view c k); cbn [give_opt]; [rewrite total_held in I'|]; split; try done. by apply give_pos.
  - destruct (exists_ok c _ k want I Wq) as (c' & b & -> & _ & I'). by do 3 eexists.
  - destruct (foreach_find_ok f c _ (content c) I (fun _ H => H)) as (c' & r & -> & _ & I' & _).
    do 3 eexists. split; [done|]. unfold sound_state. cbn [fst snd].
    destruct r; cbn [give_opt]; [rewrite total_held in I'|]; split; try done. by apply give_pos.
  - destruct (get_all_ok c _ I) as (c' & -> & _ & I'). rewrite total_all in I'. do 3 eexists. split; [done|]. split; [done|].
    intros p. unfold give_all. cbn. specialize (Hh p). lia.
  - destruct (keycache_remove_ok now c _ k I Wq) as (c' & r & -> & I' & _). by do 3 eexists.
  - case_decide as Hd; [|by do 3 eexists]. destruct (in_hand c _ p I Hd) as (key & n & E).
    destruct (ref_ok c _ p I) as (c' & -> & I' & _); [by eexists|]. rewrite total_held in I'.
    do 3 eexists. split; [done|]. split; [done|]. by apply give_pos.
  - case_decide as Hd; [|by do 3 eexists]. destruct (in_hand c _ p I Hd) as (key & n & E). unfold upd_key. rewrite E.
    do 3 eexists. split; [done|]. split; [|done]. cbn [fst snd]. destruct (Wq key) as [W1 W2].
    apply (inv_object c (all_refs held pins) _ p key n); try done; [by eapply inv_pos|apply Hall|lia].
  - case_decide as Hd; [|by do 3 eexists]. destruct (unref_ok c _ p I) as (c' & r & -> & I' & _); [unfold all_refs; specialize (Hp p); lia|].
    rewrite total_held in I'. do 3 eexists. split; [done|]. split; [done|]. intros q. cbn. unfold give. specialize (Hh q).
    case_decide; [subst; lia|lia].
Qed.

Lemma run_ok prog : forall pins s, sound_state pins s -> (forall p, 0 <= pins p) -> client_wf prog ->
  exists s', run_client pins prog s = Ok s' /\ sound_state pins s'.
Proof using alloc_fresh.
  induction prog as [|q next IH|k actions IHa next IHn]; intros pins s Hs Hp W; cbn [run_client client_wf] in *; [by exists s| |].
  - destruct W as [Wq Wn]. destruct (serve_ok pins q s Hs Hp Wq) as (c & held & ks & -> & Hs'). rewrite bind_ok. by apply IH.
  - destruct W as (Wk & Wa & Wn). destruct s as [c held]. cbn [fst snd]. destruct Hs as [I Hh]. cbn [fst snd] in *.
    unfold _np_keycache_execute_event. destruct (find_ok c _ k I Wk) as (c1 & -> & _ & I1). rewrite bind_ok.
    destruct (view c k) as [p|]; [|rewrite bind_ok; by apply IHn].
    rewrite total_pins in I1. destruct (IHa p (give pins 1 p) (c1, held)) as ([c2 held2] & -> & I2 & Hh2); [by split|by apply give_pos|apply Wa|].
    rewrite bind_ok. cbn [fst snd] in *.
    destruct (unref_ok c2 _ p I2) as (c3 & r & -> & I3 & _).
    { unfold all_refs, give. rewrite decide_True by done. specialize (Hh2 p). specialize (Hp p). lia. }
    rewrite !bind_ok. apply IHn; [|done|done]. split; [|done]. cbn [fst snd].
    assert (pointwise_relation _ eq (give (all_refs held2 (give pins 1 p)) (-1) p) (all_refs held2 pins)) as E
      by (intros q; unfold all_refs, give; case_decide; lia).
    by rewrite E in I3.
Qed.
End Requests.

Lemma init_ok : cache_inv (_np_keycache_init ∅) (fun _ => 0).
Proof.
  split; simpl.
  - apply rb_init_ok.
  - intros p. unfold content. simpl. by rewrite rb_init_foreach.
  - done.
  - intros k p. unfold content. simpl. rewrite rb_init_foreach. by intros ?%elem_of_nil.
  - intros p key n. by rewrite lookup_empty.
Qed.
End Cache.
