(* ===== verification/KeycacheThms.v ===== *)
(** * What the key cache guarantees *)
From Stdlib Require Import ZArith Lia QArith Lqa.
From stdpp Require Import prelude gmap fin_maps sorting.
From S2P Require Import Prelude Real Dhkey Key Keycache KeycacheSpec.

Local Open Scope Z_scope.

(** ** The periodic walk *)

(** One call of [_np_keycache_exists_state] on the hashes [l] with the iterator at [st]. *)
Definition walk_step (l : list np_dhkey_t) (st : np_dhkey_t) : np_dhkey_t * list np_dhkey_t :=
  let '(start, i, events) := state_walk l st 0 false [] in
  (if i <? _NP_KEYCACHE_ITERATION_STEPS then dhkey_zero else start, events).

(** The events of [n] calls. *)
Fixpoint walks (n : nat) (l : list np_dhkey_t) (st : np_dhkey_t) : list np_dhkey_t :=
  match n with
  | O => []
  | S n' => let '(st', events) := walk_step l st in events ++ walks n' l st'
  end.

Lemma dhkey_zero_wf : dhkey_wf dhkey_zero.
Proof. split; [done|]. by_decide. Qed.

Section Walk.
Context (l : list np_dhkey_t) (l_wf : Forall dhkey_wf l) (l_nodup : NoDup l)
  (l_zero : forall j, l !! S j <> Some dhkey_zero).

Lemma equal_true k st : k ∈ l -> dhkey_wf st -> _np_dhkey_equal k st = bool_decide (k = st).
Proof using l_wf.
  intros Hk W. rewrite Forall_forall in l_wf. pose proof (_np_dhkey_equal_spec k st (l_wf k Hk) W) as E.
  case_bool_decide as D; [by apply E|]. destruct (_np_dhkey_equal k st); [|done]. by destruct D; apply E.
Qed.

(** Once the start has been reached every key is collected until eleven are. *)
Lemma walk_collect r st i acc : 0 <= i < 11 ->
  if decide (11 - i <= Z.of_nat (length r)) then
    exists k, r !! Z.to_nat (10 - i) = Some k /\
      state_walk r st i true acc = (k, 11, acc ++ take (Z.to_nat (11 - i)) r)
  else exists st', state_walk r st i true acc = (st', i + Z.of_nat (length r), acc ++ r).
Proof.
  revert st i acc. induction r as [|k r IH]; intros st i acc Hi; simpl.
  { rewrite decide_False by lia. exists st. by rewrite Z.add_0_r, app_nil_r. }
  unfold _NP_KEYCACHE_ITERATION_STEPS in *. rewrite orb_true_r, (proj2 (Z.ltb_lt i 11)) by lia. simpl.
  rewrite u16_id by (unfold in_u; lia). destruct (Z.leb_spec 11 (i + 1)).
  - assert (i = 10) as -> by lia. rewrite decide_True by lia. by exists k.
  - specialize (IH (if _np_dhkey_equal dhkey_zero st then k else st) (i + 1) (acc ++ [k]) ltac:(lia)).
    replace (11 - (i + 1)) with (10 - i) in IH by lia.
    destruct (decide (10 - i <= Z.of_nat (length r))).
    + rewrite decide_True by lia. destruct IH as (k' & Hk' & ->). exists k'.
      replace (Z.to_nat (11 - i)) with (S (Z.to_nat (10 - i))) by lia. split; [|by rewrite <- app_assoc].
      by replace (Z.to_nat (10 - i)) with (S (Z.to_nat (10 - (i + 1)))) by lia.
    + rewrite decide_False by lia. destruct IH as (st' & ->). exists st'. rewrite <- app_assoc.
      by replace (i + Z.of_nat (S (length r))) with (i + 1 + Z.of_nat (length r)) by lia.
Qed.

(** A start that is not there yet is waited for. *)
Lemma walk_skip pre r st : pre ++ r ⊆ l -> dhkey_wf st -> st <> dhkey_zero -> st ∉ pre ->
  state_walk (pre ++ r) st 0 false [] = state_walk r st 0 false [].
Proof using l_wf.
  intros Hsub W Hz. induction pre as [|k pre IH]; intros Hin; simpl; [done|].
  apply not_elem_of_cons in Hin as [Hk Hin].
  assert (_np_dhkey_equal dhkey_zero st = false) as ->.
  { apply not_true_is_false. intros E. apply _np_dhkey_equal_spec in E; auto using dhkey_zero_wf. }
  rewrite equal_true by (done || (apply Hsub; left)). rewrite bool_decide_false by done. simpl.
  apply IH; [|done]. intros x Hx. apply Hsub. by right.
Qed.

(** The iterator stands at position [j]. *)
Definition at_pos (st : np_dhkey_t) (j : nat) : Prop := st <> dhkey_zero /\ l !! j = Some st \/ st = dhkey_zero /\ j = O.

Lemma walk_start st j k : at_pos st j -> l !! j = Some k ->
  exists st1, state_walk l st 0 false [] = state_walk (drop (S j) l) st1 1 true [k].
Proof using l_wf l_nodup.
  intros Hpos Hk. pose proof (list_elem_of_lookup_2 _ _ _ Hk) as Hin.
  pose proof l_wf as W. rewrite Forall_forall in W. pose proof (W k Hin) as Wk.
  assert (state_walk l st 0 false [] = state_walk (k :: drop (S j) l) st 0 false []) as ->.
  { destruct Hpos as [[Hz Hst]|[-> ->]]; [|by rewrite <- (drop_S l k 0 Hk), drop_0].
    rewrite Hk in Hst. injection Hst as <-. rewrite <- (take_drop_middle l j k Hk) at 1.
    apply walk_skip; try done; [by rewrite (take_drop_middle l j k Hk)|].
    intros Ht. rewrite <- (take_drop_middle l j k Hk) in l_nodup.
    apply NoDup_app in l_nodup as (_ & Hd & _). destruct (Hd k Ht). by left. }
  exists (if _np_dhkey_equal dhkey_zero st then k else st). simpl.
  assert (_np_dhkey_equal k (if _np_dhkey_equal dhkey_zero st then k else st) = true) as ->; [|done].
  destruct (_np_dhkey_equal dhkey_zero st) eqn:E; [by apply _np_dhkey_equal_spec|].
  destruct Hpos as [[Hz Hst]|[-> ->]].
  - rewrite Hk in Hst. injection Hst as <-. by apply _np_dhkey_equal_spec.
  - by rewrite (proj2 (_np_dhkey_equal_spec dhkey_zero dhkey_zero dhkey_zero_wf dhkey_zero_wf)) in E.
Qed.

(** One call collects eleven keys from its position and leaves the iterator on
    the last of them, or starts over. *)
Lemma walk_step_pos st j : at_pos st j -> (j < length l)%nat ->
  exists st', walk_step l st = (st', take 11 (drop j l)) /\
    (if decide (j + 11 <= length l)%nat then at_pos st' (j + 10) else st' = dhkey_zero).
Proof using l_wf l_nodup l_zero.
  intros Hpos Hj. unfold walk_step. destruct (lookup_lt_is_Some_2 l j Hj) as [k Hk].
  destruct (walk_start st j k Hpos Hk) as (st1 & ->). rewrite (drop_S l k j Hk).
  pose proof (walk_collect (drop (S j) l) st1 1 [k] ltac:(lia)) as C. rewrite length_drop in C.
  destruct (decide (j + 11 <= length l)%nat).
  - rewrite decide_True in C by lia. destruct C as (k' & Hk' & ->). exists k'. split; [done|].
    rewrite lookup_drop in Hk'. replace (S j + Z.to_nat (10 - 1))%nat with (S (j + 9)) in Hk' by lia.
    left. split; [intros ->; by apply (l_zero _ Hk')|]. by replace (j + 10)%nat with (S (j + 9)) by lia.
  - rewrite decide_False in C by lia. destruct C as (st' & ->). exists dhkey_zero.
    rewrite (proj2 (Z.ltb_lt _ _)) by (unfold _NP_KEYCACHE_ITERATION_STEPS; lia). split; [|done].
    f_equal. simpl. f_equal. symmetry. apply take_ge. rewrite length_drop. lia.
Qed.

(** An iterator on no key: nothing is collected and the walk starts over. *)
Lemma walk_step_out st : dhkey_wf st -> st <> dhkey_zero -> st ∉ l -> walk_step l st = (dhkey_zero, []).
Proof using l_wf.
  intros W Hz Hin. unfold walk_step. rewrite <- (app_nil_r l) at 1. by rewrite walk_skip by (by rewrite ?app_nil_r).
Qed.

Lemma walks_app n m st : exists st', walks (n + m) l st = walks n l st ++ walks m l st'.
Proof.
  revert st. induction n as [|n IH]; intros st; simpl; [by exists st|].
  destruct (walk_step l st) as [st1 ev]. destruct (IH st1) as [st' ->]. exists st'. by rewrite app_assoc.
Qed.

Lemma walks_mono n m st k : (n <= m)%nat -> k ∈ walks n l st -> k ∈ walks m l st.
Proof.
  intros Hnm Hk. replace m with (n + (m - n))%nat by lia. destruct (walks_app n (m - n) st) as [st' ->].
  apply elem_of_app. by left.
Qed.

(** From a position before a key the walk gets to it. *)
Lemma walks_ahead n st j t k : at_pos st j -> (j <= t)%nat -> (t <= j + 10 * n)%nat -> (0 < n)%nat ->
  l !! t = Some k -> k ∈ walks n l st.
Proof using l_wf l_nodup l_zero.
  intros Hpos Hjt Ht Hn Hk. revert st j Hpos Hjt Ht. induction n as [|n IH]; intros st j Hpos Hjt Ht; [lia|].
  pose proof (lookup_lt_Some _ _ _ Hk) as Hlen.
  destruct (walk_step_pos st j Hpos ltac:(lia)) as (st' & E & Hnext). simpl. rewrite E. apply elem_of_app.
  destruct (decide (t <= j + 10)%nat) as [Hnear|Hfar].
  - left. apply (list_elem_of_lookup_2 _ (t - j)). rewrite lookup_take_lt by lia. rewrite lookup_drop.
    by replace (j + (t - j))%nat with t by lia.
  - right. rewrite decide_True in Hnext by lia. destruct n as [|n]; [lia|]. apply (IH ltac:(lia) st' (j + 10)%nat); try done; lia.
Qed.

(** From any position the walk starts over. *)
Lemma walks_restart n st j m k : at_pos st j -> (j < length l)%nat -> (length l <= j + 10 * n)%nat ->
  k ∈ walks m l dhkey_zero -> k ∈ walks (n + m) l st.
Proof using l_wf l_nodup l_zero.
  intros Hpos Hj Hn Hk. revert st j Hpos Hj Hn. induction n as [|n IH]; intros st j Hpos Hj Hn; [lia|].
  destruct (walk_step_pos st j Hpos Hj) as (st' & E & Hnext). simpl. rewrite E. apply elem_of_app. right.
  destruct (decide (j + 11 <= length l)%nat).
  - apply (IH st' (j + 10)%nat); [done|lia..].
  - subst st'. apply (walks_mono m); [lia|done].
Qed.

Lemma walks_all st k : dhkey_wf st -> k ∈ l -> k ∈ walks (2 * (length l / 10) + 3) l st.
Proof using l_wf l_nodup l_zero.
  intros W Hk. apply list_elem_of_lookup in Hk as [t Ht]. pose proof (lookup_lt_Some _ _ _ Ht) as Hlen.
  set (n := (length l / 10)%nat). assert (length l < 10 * (n + 1))%nat as Hn.
  { unfold n. pose proof (Nat.div_mod_eq (length l) 10). pose proof (Nat.mod_upper_bound (length l) 10). lia. }
  assert (k ∈ walks (n + 1) l dhkey_zero) as H0.
  { apply (walks_ahead _ _ 0 t); try done; [by right|lia..]. }
  replace (2 * n + 3)%nat with (S ((n + 1) + (n + 1))) by lia.
  destruct (decide (st = dhkey_zero)) as [->|Hz]; [by apply (walks_mono (n + 1)); [lia|]|].
  destruct (decide (st ∈ l)) as [Hin|Hin].
  - apply list_elem_of_lookup in Hin as [j Hj]. apply (walks_mono ((n + 1) + (n + 1))); [lia|].
    apply (walks_restart _ st j); try done; [by left|by eapply lookup_lt_Some|lia].
  - simpl walks. rewrite walk_step_out by done. simpl. by apply (walks_mono (n + 1)); [lia|].
Qed.
End Walk.

Section Theorems.
Context `{RbTreeLaws tree}.
Implicit Types c : @keycache_t tree.

Definition hashes c : list np_dhkey_t := map fst (content c).

(** The events of [n] calls, the set of keys fixed. *)
Fixpoint calls (n : nat) c : list np_dhkey_t :=
  match n with
  | O => []
  | S n' => let '(c', events) := _np_keycache_exists_state c in events ++ calls n' c'
  end.

Lemma exists_state_step c : _np_keycache_exists_state c =
  (set_iterator c (walk_step (hashes c) (_check_state_iterator c)).1, (walk_step (hashes c) (_check_state_iterator c)).2).
Proof.
  unfold _np_keycache_exists_state, walk_step, hashes, content. by destruct (state_walk _ _ _ _ _) as [[start i] ev].
Qed.

Lemma calls_walks n c : calls n c = walks n (hashes c) (_check_state_iterator c).
Proof.
  revert c. induction n as [|n IH]; intros c; simpl; [done|]. rewrite exists_state_step, IH. simpl.
  by destruct (walk_step (hashes c) (_check_state_iterator c)).
Qed.

Lemma sorted_hashes (l : list entry) : StronglySorted hash_lt l -> NoDup (map fst l).
Proof.
  induction 1 as [|[k p] l S IH HF]; simpl; constructor; [|done]. intros Hin.
  apply list_elem_of_fmap in Hin as ([k' q] & -> & Hin). rewrite Forall_forall in HF. specialize (HF _ Hin).
  unfold hash_lt in HF. simpl in HF. lia.
Qed.

(** Zero is the least hash. *)
Lemma sorted_zero (l : list entry) j : StronglySorted hash_lt l -> Forall (fun e => dhkey_wf e.1) l ->
  map fst l !! S j <> Some dhkey_zero.
Proof.
  intros S W. destruct l as [|e l]; [done|]. apply StronglySorted_inv in S as [_ S]. apply Forall_cons in W as [We _].
  simpl. intros E. apply list_lookup_fmap_Some in E as (e' & Ee & E). apply list_elem_of_lookup_2 in E.
  rewrite Forall_forall in S. specialize (S _ E). unfold hash_lt in S. rewrite <- Ee in S.
  pose proof (dhkey_val_range _ We). change (dhkey_val dhkey_zero) with 0 in S. lia.
Qed.

Section Walks.
Context c (held : key_ptr -> Z) (I : cache_inv c held).

Lemma hashes_wf : Forall dhkey_wf (hashes c).
Proof using I. unfold hashes. rewrite Forall_map. apply (rb_keys_wf _ (inv_tree _ _ I)). Qed.

Lemma hashes_nodup : NoDup (hashes c).
Proof using I. apply sorted_hashes, (rb_sorted _ (inv_tree _ _ I)). Qed.

Lemma hashes_zero j : hashes c !! S j <> Some dhkey_zero.
Proof using I. apply sorted_zero; [apply (rb_sorted _ (inv_tree _ _ I))|apply (rb_keys_wf _ (inv_tree _ _ I))]. Qed.

Lemma walk_step_bounds st : dhkey_wf st ->
  (length (walk_step (hashes c) st).2 <= 11)%nat /\ (walk_step (hashes c) st).2 `sublist_of` hashes c.
Proof using I.
  intros W. destruct (decide (hashes c = [])) as [->|Hne]; [simpl; split; [lia|done]|].
  assert (0 < length (hashes c))%nat as Hlen by (destruct (hashes c); [done|simpl; lia]).
  assert (walk_step (hashes c) st = (dhkey_zero, []) \/ exists j, at_pos (hashes c) st j /\ (j < length (hashes c))%nat)
    as [->|(j & Hpos & Hj)].
  { destruct (decide (st = dhkey_zero)) as [->|Hz]; [right; exists O; split; [by right|done]|].
    destruct (decide (st ∈ hashes c)) as [Hin|Hin].
    - apply list_elem_of_lookup in Hin as [j Hj]. right. exists j. split; [by left|by eapply lookup_lt_Some].
    - left. apply walk_step_out; auto using hashes_wf. }
  { simpl. split; [lia|apply sublist_nil_l]. }
  destruct (walk_step_pos _ hashes_wf hashes_nodup hashes_zero st j Hpos Hj) as (st' & -> & _). simpl.
  split; [rewrite length_take; lia|]. etrans; [apply sublist_take|apply sublist_drop].
Qed.
End Walks.

(** The periodic walk is bounded and starves no key: one call sends at most
    eleven events, to keys of the cache; and as long as the set of keys stays,
    every key gets an event within [2 * (n / 10) + 3] calls for [n] keys, wherever
    the iterator was left (a call that stops at the eleventh key starts the next
    one there, so each call advances by ten). *)
Theorem keycache_walk_reaches_every_key c held k p :
  cache_inv c held -> dhkey_wf (_check_state_iterator c) -> dhkey_wf k -> view c k = Some p ->
  (length (_np_keycache_exists_state c).2 <= 11)%nat /\
  (_np_keycache_exists_state c).2 `sublist_of` hashes c /\
  k ∈ calls (2 * (length (hashes c) / 10) + 3) c.
Proof.
  intros I Wi Wk V. rewrite exists_state_step, calls_walks. split; [apply (walk_step_bounds c held I _ Wi)|].
  split; [apply (walk_step_bounds c held I _ Wi)|].
  apply (walks_all _ (hashes_wf c held I) (hashes_nodup c held I) (hashes_zero c held I)); [done|].
  apply list_elem_of_fmap. exists (k, p). split; [done|]. by apply (view_spec c held).
Qed.

(** ** The contract *)

(** The cache is a finite map: find and exists answer with the entry and leave
    the map; find_or_create answers with the entry or enters an object that was
    not in use; remove takes the entry out and answers [NULL] when nobody else
    held it, freeing it; other hashes are untouched.  No call faults. *)
Theorem keycache_refines_map alloc now c held k :
  cache_inv c held -> dhkey_wf k -> (forall s : gmap key_ptr (np_key_t * Z), s !! alloc s = None) ->
  let others c' := forall k', dhkey_wf k' -> k' <> k -> view c' k' = view c k' in
  (exists c', _np_keycache_find c k = Ok (c', view c k) /\ view c' k = view c k /\ others c') /\
  (forall want, exists c' buffer, _np_keycache_exists c k want = Ok (c', bool_decide (is_Some (view c k)), buffer) /\
     view c' k = view c k /\ others c') /\
  (exists c' p, _np_keycache_find_or_create alloc now c k = Ok (c', p) /\ view c' k = Some p /\ others c' /\
     (view c k = Some p \/ view c k = None /\ objects c !! p = None)) /\
  (exists c' r, _np_keycache_remove now c k = Ok (c', r) /\ view c' k = None /\ others c' /\
     match view c k with
     | Some p => if decide (held p = 0) then r = None /\ objects c' !! p = None else r = Some p /\ is_Some (objects c' !! p)
     | None => r = None
     end).
Proof.
  intros I Wk Hfresh others. unfold others, view. pose proof (inv_tree _ _ I) as O. split; [|split; [|split]].
  - destruct (find_ok c held k I Wk) as (c' & -> & Ht & _). exists c'. by rewrite Ht.
  - intros want. destruct (exists_ok c held k want I Wk) as (c' & b & -> & Ht & _). exists c', b. by rewrite Ht.
  - destruct (find_or_create_ok alloc now c held k I Wk Hfresh) as (c' & p & -> & _ & [[V Ht]|(V & Hp & Ht)]).
    + exists c', p. rewrite Ht. auto.
    + destruct (find_insert _ k p O Wk V) as [F1 F2]. exists c', p. rewrite Ht. auto 6.
  - destruct (keycache_remove_ok now c held k I Wk) as (c' & r & -> & _ & Hr). exists c', r. split; [done|].
    unfold view in Hr. destruct (rb_find (__key_cache c) k) as [p|] eqn:V.
    + destruct Hr as (Ht & Hd & _). rewrite Ht. destruct (find_remove _ k O Wk) as [F1 F2]. auto.
    + destruct Hr as [-> ->]. auto.
Qed.

(** The cache starts empty, nobody holds a key. *)
Lemma run_from_start alloc now prog : (forall s, s !! alloc s = None) -> client_wf prog ->
  exists c held, run_client alloc now (fun _ => 0) prog (_np_keycache_init ∅ : @keycache_t tree, fun _ => 0) = Ok (c, held) /\ cache_inv c held.
Proof.
  intros Hfresh W.
  destruct (run_ok alloc now Hfresh prog (fun _ => 0) (_np_keycache_init ∅, fun _ => 0)) as ([c held] & E & I & _); [|done|done|].
  { split; [|done]. cbn [fst snd]. assert (pointwise_relation key_ptr eq (all_refs (fun _ => 0) (fun _ => 0)) (fun _ => 0)) as -> by done. apply init_ok. }
  exists c, held. split; [done|]. cbn [fst snd] in I.
  assert (pointwise_relation key_ptr eq (all_refs held (fun _ => 0)) held) as Et by (intros q; unfold all_refs; lia).
  by rewrite Et in I.
Qed.

(** C38: References: whatever the other modules do, any program of theirs that asks the
    cache for keys and goes on as it likes with the answers, takes further references on keys in
    hand, writes to fields of theirs other than the hash and the flag of the cache, gives back
    only references it holds, and raises events whose actions are again such programs, to any
    depth: no call touches a freed key, and a key exists exactly as long as the
    cache or somebody else holds it; its counter is the number of its holders. *)
Theorem keycache_references_sound alloc now (prog : client) :
  (forall s, s !! alloc s = None) -> client_wf prog ->
  exists c held, run_client alloc now (fun _ => 0) prog (_np_keycache_init ∅ : @keycache_t tree, fun _ => 0) = Ok (c, held) /\
    forall p, 0 <= held p /\ count c p = held p + in_cache (content c) p /\
      (is_Some (objects c !! p) <-> 0 < held p \/ exists k, (k, p) ∈ content c).
Proof.
  intros Hfresh W. destruct (run_from_start alloc now prog Hfresh W) as (c & held & -> & I). exists c, held. split; [done|]. intros p.
  pose proof (inv_count _ _ I p) as Hc. pose proof (inv_held _ _ I p). split; [done|]. split; [done|].
  unfold count in Hc. split.
  - intros [[key n] E]. rewrite E in Hc. pose proof (inv_pos _ _ I _ _ _ E).
    destruct (decide (0 < held p)); [by left|right]. destruct (decide (in_cache (content c) p = 0)) as [Z0|Hne]; [lia|].
    destruct (filter (fun e => e.2 = p) (content c)) as [|[k q] l] eqn:El; [unfold in_cache in Hne; by rewrite El in Hne|].
    exists k. assert ((k, q) ∈ filter (fun e => e.2 = p) (content c)) as Hl by (rewrite El; apply elem_of_cons; by left).
    apply list_elem_of_filter in Hl as [Hq Hl]. simpl in Hq. by subst q.
  - intros Hor. destruct (objects c !! p) as [x|] eqn:E; [by eexists|]. destruct Hor as [Hor|[k Hin]].
    + pose proof (in_cache_nonneg (content c) p). lia.
    + destruct (inv_entry _ _ I k p Hin) as (key & n & E' & _). congruence.
Qed.

(** Destroying the module ends, whichever key the tree has at its root, and
    leaves an empty cache; a key survives exactly when somebody still holds it. *)
Theorem keycache_destroy_terminates root now c held :
  cache_inv c held ->
  (forall t, rb_ok t -> root t = None <-> rb_foreach t = []) ->
  (forall t k, rb_ok t -> root t = Some k -> is_Some (rb_find t k) /\ dhkey_wf k) ->
  exists c', _np_keycache_destroy root now c = Ok c' /\ content c' = [] /\ (forall p, count c' p = held p).
Proof.
  intros I Hnone Hsome. unfold _np_keycache_destroy. fold (content c).
  assert (forall n c, cache_inv c held -> (length (content c) < n)%nat ->
    exists c', destroy_loop n root now c = Ok c' /\ content c' = [] /\ cache_inv c' held) as Hgen.
  { clear c I. induction n as [|n IH]; intros c I Hn; [lia|]. simpl.
    destruct (root (__key_cache c)) as [k|] eqn:R; [|exists c; split; [done|]; split; [apply Hnone; [apply I|done]|done]].
    destruct (Hsome _ _ (inv_tree _ _ I) R) as [[p F] Wk]. destruct (keycache_remove_ok now c held k I Wk) as (c1 & r & -> & I1 & Hr). simpl.
    unfold view in Hr. rewrite F in Hr. destruct Hr as (Ht & _). apply IH; [done|].
    pose proof (Permutation_length (remove_perm _ k p (inv_tree _ _ I) Wk F)) as L.
    unfold content in *. rewrite Ht. simpl in L. lia. }
  destruct (Hgen (S (length (content c))) c I) as (c' & -> & Hc & I'); [lia|]. exists c'. split; [done|]. split; [done|].
  intros p. rewrite (inv_count _ _ I'), Hc. unfold in_cache. rewrite filter_nil. simpl. lia.
Qed.
End Theorems.

(** ** Concrete caches *)

Definition example_alloc (s : gmap key_ptr (np_key_t * Z)) : key_ptr := fresh (dom s : gset key_ptr).
(** Requests one after the other, whatever the answers. *)
Fixpoint ask_all (qs : list request) (next : client) : client :=
  match qs with [] => next | q :: qs => Ask q (fun _ => ask_all qs next) end.
Definition example_requests : list request :=
  [Find_or_create (key_of 5); Find_or_create (key_of 3); Change_key 1%positive (fun k => set_last_update k 7); Get_all; Remove (key_of 5);
   Release 1%positive; Release 1%positive; Exists_key (key_of 3) true].
Definition example_run (n : nat) : @keycache_t (list entry) * (key_ptr -> Z) :=
  match run_client example_alloc 0 (fun _ => 0) (ask_all (take n example_requests) Stop) (_np_keycache_init ∅, fun _ => 0) with
  | Ok s => s
  | Err _ => (_np_keycache_init ∅, fun _ => 0)
  end.

Lemma example_alloc_fresh s : s !! example_alloc s = None.
Proof. pose proof (is_fresh (dom s : gset key_ptr)) as F. by apply not_elem_of_dom in F. Qed.

Lemma example_requests_wf : Forall request_wf example_requests.
Proof. repeat (constructor; [first [exact I|by_decide|done]|]). constructor. Qed.

Lemma ask_all_wf qs next : Forall request_wf qs -> client_wf next -> client_wf (ask_all qs next).
Proof. intros Hq Hn. induction Hq as [|q qs Hq _ IH]; [done|]. by split. Qed.

Lemma example_inv n : cache_inv (example_run n).1 (example_run n).2.
Proof.
  unfold example_run.
  destruct (run_from_start (tree := list entry) example_alloc 0 (ask_all (take n example_requests) Stop) example_alloc_fresh) as (c & held & -> & I); [|done].
  apply ask_all_wf; [apply Forall_take, example_requests_wf|done].
Qed.

(** Two keys are made; an event for one of them keeps a reference on it and raises an event
    for the other, which takes the first out of the cache; the reference is given back last. *)
Definition example_client : client :=
  ask_all [Find_or_create (key_of 5); Find_or_create (key_of 3); Release 1%positive; Release 2%positive]
    (Execute (key_of 5)
       (fun p => ask_all [Take_ref p; Change_key p (fun k => set_last_update k 7)]
                   (Execute (key_of 3) (fun _ => Ask (Remove (key_of 5)) (fun _ => Stop)) Stop))
       (Ask (Release 1%positive) (fun _ => Stop))).

Lemma keycache_walk_reaches_every_key_witness :
  view (example_run 2).1 (key_of 3) = Some 2%positive /\
  key_of 3 ∈ calls (2 * (length (hashes (example_run 2).1) / 10) + 3) (example_run 2).1.
Proof.
  split; [vm_compute; reflexivity|].
  apply (keycache_walk_reaches_every_key (example_run 2).1 (example_run 2).2 (key_of 3) 2%positive);
    [apply example_inv|by_decide|by_decide|vm_compute; reflexivity].
Defined.

Lemma keycache_refines_map_witness :
  view (example_run 4).1 (key_of 5) = Some 1%positive /\ (example_run 4).2 1%positive = 2 /\
  exists c', _np_keycache_find (example_run 4).1 (key_of 5) = Ok (c', view (example_run 4).1 (key_of 5)) /\
    view c' (key_of 5) = view (example_run 4).1 (key_of 5) /\
    (forall k', dhkey_wf k' -> k' <> key_of 5 -> view c' k' = view (example_run 4).1 k').
Proof.
  split; [vm_compute; reflexivity|]. split; [vm_compute; reflexivity|].
  apply (keycache_refines_map example_alloc 0 (example_run 4).1 (example_run 4).2 (key_of 5));
    [apply example_inv|by_decide|apply example_alloc_fresh].
Defined.

Lemma keycache_references_sound_witness :
  exists c held, run_client example_alloc 0 (fun _ => 0) example_client (_np_keycache_init ∅ : @keycache_t (list entry), fun _ => 0) = Ok (c, held) /\
    forall p, 0 <= held p /\ count c p = held p + in_cache (content c) p /\
      (is_Some (objects c !! p) <-> 0 < held p \/ exists k, (k, p) ∈ content c).
Proof.
  apply (keycache_references_sound example_alloc 0 example_client); [apply example_alloc_fresh|].
  repeat first [by_decide | exact I | split | intros ?]; by_decide.
Defined.

Lemma keycache_destroy_terminates_witness :
  exists c', _np_keycache_destroy (fun t => fst <$> head t) 0 (example_run 8).1 = Ok c' /\ content c' = [] /\
    (forall p, count c' p = (example_run 8).2 p).
Proof.
  apply (keycache_destroy_terminates (fun t => fst <$> head t) 0 (example_run 8).1 (example_run 8).2).
  - apply example_inv.
  - intros t _. by destruct t.
  - intros t k O. destruct t as [|[h q] t]; [done|]. intros [= <-]. pose proof (Forall_inv (proj2 O)) as W.
    split; [|done]. exists q. apply list_find_spec; [done|done|left].
Defined.

(** ** Prefix searches

    The interface search compares only as many bytes as its own argument has, so
    the first interface whose address begins with the address asked for is found. *)
Lemma find_interface_prefix :
  let node := Node 0 0 (Some [49; 48; 46; 48; 46; 49; 48]) (Some [51; 49; 52; 49]) 0 in
  let k := Key (key_of 5) np_key_type_interface dhkey_zero 0 0 true (Some node) in
  interface_matches [49; 48; 46; 48; 46; 49] (Some [51; 49; 52]) k = true.
Proof. reflexivity. Qed.

(** A [search_myself] that is set leaves the own keys out. *)
Lemma search_myself_excludes_own str mine details status rs rd rp rh k :
  mine (dhkey k) = true -> details_match str mine details true status rs rd rp rh k = false.
Proof. intros M. unfold details_match. by rewrite M. Qed.
