(* ===== verification/KeyStates.v ===== *)
(** * The life cycle of a key: the state table of [src/np_key.c]

    One table of eleven states serves every key; it is filled through the engine
    of file [Statemachine].  The conditions of its transitions, in
    [src/core/np_comp_{alias,node,identity,intent,msgproperty}.c], are modelled;
    the actions are named and interpreted by an argument, except those of
    [np_key.c] itself.  Time, the key cache and the local node are an
    environment, one per event. *)
From Stdlib Require Import ZArith Lia QArith Lqa String Ascii.
From stdpp Require Import prelude.
From S2P Require Import Prelude Real Dhkey Key Route Token Statemachine.

Local Open Scope Z_scope.

(** ** Events *)

(** [enum event_type]: flags. *)
Definition evt_noop : Z := 0x0000.
Definition evt_internal : Z := 0x0001.
Definition evt_external : Z := 0x0002.
Definition evt_timeout : Z := 0x0004.
Definition evt_userspace : Z := 0x0008.
Definition evt_message : Z := 0x0010.
Definition evt_token : Z := 0x0020.
Definition evt_property : Z := 0x0040.
Definition evt_response : Z := 0x0080.
Definition evt_authn : Z := 0x0100.
Definition evt_authz : Z := 0x0200.
Definition evt_accnt : Z := 0x0400.
Definition evt_redeliver : Z := 0x0800.
Definition evt_shutdown : Z := 0x1000.
Definition evt_disable : Z := 0x2000.
Definition evt_enable : Z := 0x4000.

Definition MISC_SEND_PINGS_SEC : Q := NP_PI * 10.
Definition MISC_SEND_PINGS_MAX_EVERY_X_SEC : Q := MISC_SEND_PINGS_SEC * 3.
Definition BAD_LINK_REMOVE_GRACETIME : Q := MISC_SEND_PINGS_MAX_EVERY_X_SEC + 3.

(** The names of the messages a node handles itself. *)
Definition _NP_MSG_ACK : list Z := c_string "_NP.ACK".
Definition _NP_MSG_HANDSHAKE : list Z := c_string "_NP.HANDSHAKE".
Definition _NP_MSG_JOIN_REQUEST : list Z := c_string "_NP.JOIN.REQUEST".
Definition _NP_MSG_LEAVE_REQUEST : list Z := c_string "_NP.LEAVE.REQUEST".
Definition _NP_MSG_PING_REQUEST : list Z := c_string "_NP.PING.REQUEST".
Definition _NP_MSG_PIGGY_REQUEST : list Z := c_string "_NP.NODES.PIGGY".
Definition _NP_MSG_UPDATE_REQUEST : list Z := c_string "_NP.NODES.UPDATE".
Definition _NP_MSG_PHEROMONE_UPDATE : list Z := c_string "_NP.PHEROMONE.UPDATE".
Definition _NP_MSG_AVAILABLE_RECEIVER : list Z := c_string "_NP.MESSAGE.RECEIVER.TOKEN".
Definition _NP_MSG_AVAILABLE_SENDER : list Z := c_string "_NP.MESSAGE.SENDER.TOKEN".

(** [enum np_mx_audience_type] *)
Inductive np_mx_audience_type := NP_MX_AUD_PUBLIC | NP_MX_AUD_VIRTUAL | NP_MX_AUD_PROTECTED | NP_MX_AUD_PRIVATE.
#[export] Instance audience_eq_dec : EqDecision np_mx_audience_type.
Proof. solve_decision. Defined.

(** The configuration and the running part of a data channel. *)
Record np_msgproperty_conf_t := PropertyConf { is_internal : bool; audience_type : np_mx_audience_type; max_threshold : Z }.
Record np_msgproperty_run_t := PropertyRun { msg_threshold : Z }.

(** The fields of a node the conditions read; a filter answers for a hash. *)
Record node_t := NodeObj {
  info : np_node_t;
  host_key : option (list Z);
  connection_attempts : Z;
  is_in_leafset : bool;
  is_in_routing_table : bool;
  join_send_at : Q;
  leave_send_at : Q;
  msg_forward_filter : np_dhkey_t -> bool;
}.

(** [struct np_n2n_messagepart_s] with the header its pointers lead to. *)
Record np_n2n_messagepart_t := Part {
  part_uuid : list Z;
  part_nonce : list Z;
  chunk_offset : Z;
  part_subject : np_dhkey_t;
  part_audience : np_dhkey_t;
  part_tstamp : Q;
  part_ttl : Z;
}.

(** What the conditions call outside of the modelled files: libsodium, the hash of
    a token and of its attributes, and reading attributes of type [A]. *)
Class TokenOps (A : Type) := {
  blake2b : list Z -> list Z;
  bin2hex : list Z -> list Z;
  hex2bin : list Z -> option (list Z);
  crypto_sign_verify_detached : list Z -> list Z -> list Z -> Z;
  _np_aaatoken_get_hash : np_aaatoken_t A -> list Z;
  __np_aaatoken_get_attributes_hash : np_aaatoken_t A -> list Z;
  np_get_data_size_ok : A -> bool;
  np_get_data_uint : A -> string -> option Z;
  np_get_data_bin : A -> string -> option (list Z);
}.

Section KeyStates.
Context `{TokenOps A}.
Abbreviation token := (np_aaatoken_t A).

(** [event.user_data] with its run-time type. *)
Inductive user_data_t : Type :=
| D_null
| D_node (n : node_t)
| D_token (t : token)
| D_blob
| D_part (p : np_n2n_messagepart_t)
| D_message
| D_property_conf
| D_property_run
| D_response.

(** [struct np_util_event_s] *)
Record np_util_event_t := Event {
  __source_dhkey : np_dhkey_t;
  target_dhkey : np_dhkey_t;
  event_type : Z;
  user_data : user_data_t;
}.

(** A key with its components ([entity_array]); which slot holds what depends on
    the type of the key. *)
Record key_t := KeyObj {
  key_base : np_key_t;
  entity_token : option token;
  entity_node : option node_t;
  entity_conf : option np_msgproperty_conf_t;
  entity_run : option np_msgproperty_run_t;
  duplicate_filter : np_dhkey_t -> bool;
  crypto_session : np_dhkey_t -> bool;
}.

(** What a condition sees besides the key and the event. *)
Record env_t := Env {
  np_time_now : Q;
  my_node_key : np_dhkey_t;
  _np_keycache_exists : np_dhkey_t -> bool;
  _np_msgproperty_conf_get_inbound : np_dhkey_t -> option np_msgproperty_conf_t;
}.

Definition token_is_valid (now : Q) (t : token) (expected_type : Z) : bool :=
  fst (_np_aaatoken_is_valid crypto_sign_verify_detached _np_aaatoken_get_hash __np_aaatoken_get_attributes_hash
         np_get_data_size_ok np_get_data_uint now (Some t) expected_type).

(** [np_generate_subject] on a zero subject, and on a given one. *)
Definition np_generate_subject (subject_id : np_dhkey_t) (subj : list Z) : np_dhkey_t :=
  _np_dhkey_xor (_np_dhkey_generate_hash blake2b subj) subject_id.
Definition subject_of (name : list Z) : np_dhkey_t := np_generate_subject dhkey_zero name.

Definition np_aaatoken_get_fingerprint (t : token) (include_extensions : bool) : result np_dhkey_t :=
  let hash := blake2b (_np_aaatoken_get_hash t ++ signature t ++
                       (if include_extensions then __np_aaatoken_get_attributes_hash t else [])) in
  np_dhkey_create_from_hash hex2bin (bin2hex hash).

Definition np_aaatoken_get_partner_fp (t : token) : result np_dhkey_t :=
  match np_get_data_bin (attributes t) "_np.partner_fp" with
  | Some bin => _ ← c_assert (length bin =? 32)%nat; Ok (bytes_dhkey bin)
  | None =>
      if (hd 0 (issuer t) =? 0) then np_aaatoken_get_fingerprint t false
      else np_dhkey_create_from_hash hex2bin (issuer t)
  end.

(** [host_key[0]] *)
Definition host_key0 (n : node_t) : result Z :=
  match host_key n with Some s => Ok (hd 0 s) | None => Err Bad_access end.

Definition _np_node_check_address_validity (n : node_t) : bool :=
  match ip_string (info n), port (info n) with Some _, Some _ => true | _, _ => false end.

(** [p->..] through a pointer that may be NULL. *)
Definition deref {B} (p : option B) : result B := match p with Some x => Ok x | None => Err Bad_access end.

Definition cond_t : Type := env_t -> key_t -> np_util_event_t -> result bool.

(** ** Conditions of [np_comp_node.c] *)

Definition __is_node_handshake_token : cond_t := fun e key event =>
  if FLAG_CMP (event_type event) evt_token && FLAG_CMP (event_type event) evt_external then
    match user_data event with
    | D_token hs_token =>
        let ret := FLAG_CMP (token_type hs_token) np_aaatoken_type_handshake in
        ret ← (if ret then
                 issuer_dhkey ← np_str_id hex2bin (issuer hs_token);
                 Ok (_np_dhkey_equal (bytes_dhkey issuer_dhkey) (__source_dhkey event))
               else Ok ret);
        Ok (ret && token_is_valid (np_time_now e) hs_token (token_type hs_token))
    | _ => Ok false
    end
  else Ok false.

Definition __is_shutdown_event : cond_t := fun e key event =>
  let ret := FLAG_CMP (event_type event) evt_shutdown in
  ret ← (if ret && FLAG_CMP (event_type event) evt_external then
           match user_data event with
           | D_token remote_token =>
               let ret := token_is_valid (np_time_now e) remote_token np_aaatoken_type_node in
               match entity_token key with
               | Some local_token =>
                   Ok (if ret then bool_decide (ed25519_public_key remote_token = ed25519_public_key local_token) else ret)
               | None => Ok ret
               end
           | D_null => Err Assert_failed
           | _ => Err Bad_access
           end
         else Ok ret);
  Ok (if ret && FLAG_CMP (event_type event) evt_internal
      then _np_dhkey_equal (dhkey (key_base key)) (target_dhkey event) else ret).

Definition __is_node_token : cond_t := fun e key event =>
  if FLAG_CMP (event_type event) evt_token && FLAG_CMP (event_type event) evt_external then
    match user_data event with
    | D_token t =>
        Ok (FLAG_CMP (token_type t) np_aaatoken_type_node && negb (private_key_is_set t) &&
            token_is_valid (np_time_now e) t (token_type t))
    | _ => Ok false
    end
  else Ok false.

Definition __is_node_invalid : cond_t := fun e key event =>
  if negb (FLAG_CMP (event_type event) evt_noop) then Ok false else
  let ret := FLAG_CMP (key_type (key_base key)) np_key_type_unknown in
  let now := np_time_now e in
  if negb ret && Qltb now (created_at (key_base key) + BAD_LINK_REMOVE_GRACETIME) then Ok false else
  if ret then Ok true else
  match entity_node key with
  | None => Ok true
  | Some node =>
      let ret := 15 <? connection_attempts node in
      let ret := if negb ret then negb (is_in_leafset node) && negb (is_in_routing_table node) else ret in
      let ret := if negb ret then Qltb (success_avg (info node)) BAD_LINK else ret in
      Ok (if negb ret then
            match entity_token key with
            | None => true
            | Some node_token => negb (token_is_valid now node_token (token_type node_token))
            end
          else ret)
  end.

Definition __has_to_leave : cond_t := fun e key event =>
  let now := np_time_now e in
  if negb (FLAG_CMP (event_type event) evt_noop) then Ok false else
  let ret := negb (FLAG_CMP (key_type (key_base key)) np_key_type_node) in
  if negb ret && Qltb (now + NP_PI) (created_at (key_base key) + BAD_LINK_REMOVE_GRACETIME) then Ok false else
  if ret then Ok true else
  match entity_node key with
  | None => Ok true
  | Some node =>
      let ret := (negb (is_in_leafset node) && negb (is_in_routing_table node)) ||
                 Qltb (success_avg (info node)) BAD_LINK in
      Ok (if Qltb (join_send_at node) (leave_send_at node) then true else ret)
  end.

Definition __is_wildcard_key : cond_t := fun e key event =>
  if FLAG_CMP (event_type event) evt_internal then
    match user_data event with
    | D_node node => c ← host_key0 node; Ok (_np_node_check_address_validity node && (c =? 42))
    | _ => Ok false
    end
  else Ok false.

Definition __is_node_info : cond_t := fun e key event =>
  if FLAG_CMP (event_type event) evt_internal then
    match user_data event with
    | D_node node => c ← host_key0 node; Ok (_np_node_check_address_validity node && negb (c =? 42))
    | _ => Ok false
    end
  else Ok false.

Definition __is_node_authn : cond_t := fun e key event =>
  if FLAG_CMP (event_type event) evt_internal && FLAG_CMP (event_type event) evt_token &&
     FLAG_CMP (event_type event) evt_authn
  then Ok (match user_data event with D_token _ => true | _ => false end)
  else Ok false.

Definition __is_node_identity_authn : cond_t := fun e key event =>
  if FLAG_CMP (event_type event) evt_internal && FLAG_CMP (event_type event) evt_token &&
     FLAG_CMP (event_type event) evt_authn
  then
    match user_data event with
    | D_token t =>
        if FLAG_CMP (token_type t) np_aaatoken_type_identity then
          partner_fp ← np_aaatoken_get_partner_fp t; Ok (_np_dhkey_equal partner_fp (dhkey (key_base key)))
        else Ok false
    | _ => Ok false
    end
  else Ok false.

Definition __is_wildcard_invalid : cond_t := fun e key event =>
  Ok (FLAG_CMP (key_type (key_base key)) np_key_type_wildcard && Qltb (created_at (key_base key) + 10) (np_time_now e)).

(** [uuid ++ nonce ++ chunk_offset] hashed into the audience; the filter of the
    node knows the parts already sent. *)
Definition _cache_msg_id (p : np_n2n_messagepart_t) : np_dhkey_t :=
  np_generate_subject (part_audience p)
    (part_uuid p ++ part_nonce p ++ [Z.land (chunk_offset p) 255; chunk_offset p ≫ 8]).

Definition __is_new_np_messagepart : cond_t := fun e key event =>
  match user_data event with
  | D_part msg_part => node ← deref (entity_node key); Ok (negb (msg_forward_filter node (_cache_msg_id msg_part)))
  | _ => Err Bad_access
  end.

Definition internal_message (event : np_util_event_t) : bool :=
  FLAG_CMP (event_type event) evt_internal && FLAG_CMP (event_type event) evt_message.

Definition __is_np_message : cond_t := fun e key event =>
  Ok (internal_message event && FLAG_CMP (key_type (key_base key)) np_key_type_node &&
      match user_data event with D_message => true | _ => false end).

Definition __is_np_messagepart : cond_t := fun e key event =>
  if internal_message event && FLAG_CMP (key_type (key_base key)) np_key_type_node then
    match user_data event with
    | D_part msg_part =>
        ret ← __is_new_np_messagepart e key event;
        Ok (ret && negb (_np_dhkey_equal (part_subject msg_part) (subject_of _NP_MSG_HANDSHAKE)))
    | _ => Ok false
    end
  else Ok false.

Definition __is_handshake_message : cond_t := fun e key event =>
  Ok (internal_message event &&
      (FLAG_CMP (key_type (key_base key)) np_key_type_wildcard || FLAG_CMP (key_type (key_base key)) np_key_type_node) &&
      match user_data event with
      | D_part p => _np_dhkey_equal (part_subject p) (subject_of _NP_MSG_HANDSHAKE)
      | _ => false
      end).

Definition __is_invalid_message : cond_t := fun e key event =>
  Ok (internal_message event && match user_data event with D_part _ => true | _ => false end).

Definition __is_join_out_message : cond_t := fun e key event =>
  Ok (internal_message event &&
      match user_data event with
      | D_part p => _np_dhkey_equal (part_subject p) (subject_of _NP_MSG_JOIN_REQUEST) ||
                    _np_dhkey_equal (part_subject p) (subject_of _NP_MSG_LEAVE_REQUEST)
      | _ => false
      end).

(** ** Conditions of [np_comp_alias.c] *)

Definition __is_alias_handshake_token : cond_t := fun e key event =>
  if FLAG_CMP (event_type event) evt_token && FLAG_CMP (event_type event) evt_external then
    match user_data event with
    | D_token hs_token =>
        let ret := token_type hs_token =? np_aaatoken_type_handshake in
        ret ← (if ret then
                 issuer_dhkey ← np_str_id hex2bin (issuer hs_token);
                 Ok (negb (_np_dhkey_equal (bytes_dhkey issuer_dhkey) (__source_dhkey event)))
               else Ok ret);
        Ok (ret && token_is_valid (np_time_now e) hs_token (token_type hs_token))
    | _ => Ok false
    end
  else Ok false.

Definition __is_unused : cond_t := fun e key event =>
  Ok (Qltb (last_update (key_base key) + BAD_LINK_REMOVE_GRACETIME) (np_time_now e)).

Definition __is_alias_node_info : cond_t := fun e key event =>
  if FLAG_CMP (event_type event) evt_external then
    match user_data event with
    | D_node my_node => Ok (_np_node_check_address_validity my_node)
    | _ => Ok false
    end
  else Ok false.

Definition __is_crypted_message : cond_t := fun e key event =>
  Ok (FLAG_CMP (key_type (key_base key)) np_key_type_alias && FLAG_CMP (event_type event) evt_message &&
      FLAG_CMP (event_type event) evt_external && match user_data event with D_blob => true | _ => false end).

(** [now < tstamp + ttl]: true of a part that is not expired. *)
Definition __is_msgpart_expired (e : env_t) (p : np_n2n_messagepart_t) : bool :=
  Qltb (np_time_now e) (part_tstamp p + inject_Z (part_ttl p)).

(** An external message part on an alias key. *)
Definition external_part (key : key_t) (event : np_util_event_t) : option np_n2n_messagepart_t :=
  if FLAG_CMP (key_type (key_base key)) np_key_type_alias &&
     (FLAG_CMP (event_type event) evt_message && FLAG_CMP (event_type event) evt_external)
  then match user_data event with D_part p => Some p | _ => None end
  else None.

(** The node of the alias has a place in the leafset or the routing table. *)
Definition alias_is_routed (key : key_t) : bool :=
  match entity_node key with
  | Some alias_node => is_in_leafset alias_node || is_in_routing_table alias_node
  | None => false
  end.

Definition __is_join_in_message : cond_t := fun e key event =>
  Ok (match external_part key event with
      | Some join_message =>
          __is_msgpart_expired e join_message &&
          (_np_dhkey_equal (part_subject join_message) (subject_of _NP_MSG_JOIN_REQUEST) ||
           _np_dhkey_equal (part_subject join_message) (subject_of _NP_MSG_LEAVE_REQUEST))
      | None => false
      end).

Definition __is_forward_message : cond_t := fun e key event =>
  Ok (match external_part key event with
      | Some forward_message =>
          alias_is_routed key && __is_msgpart_expired e forward_message &&
          negb (_np_dhkey_equal (my_node_key e) (part_audience forward_message))
      | None => false
      end).

Definition __is_discovery_message : cond_t := fun e key event =>
  ret ← __is_forward_message e key event;
  if (ret : bool) then
    Ok (match external_part key event with
        | Some discovery_message =>
            __is_msgpart_expired e discovery_message &&
            (_np_dhkey_equal (part_subject discovery_message) (subject_of _NP_MSG_AVAILABLE_RECEIVER) ||
             _np_dhkey_equal (part_subject discovery_message) (subject_of _NP_MSG_AVAILABLE_SENDER))
        | None => false
        end)
  else Ok ret.

Definition __is_pheromone_message : cond_t := fun e key event =>
  Ok (match external_part key event with
      | Some pheromone_message =>
          alias_is_routed key && __is_msgpart_expired e pheromone_message &&
          _np_dhkey_equal (part_subject pheromone_message) (subject_of _NP_MSG_PHEROMONE_UPDATE)
      | None => false
      end).

Definition is_dht_subject (s : np_dhkey_t) : bool :=
  _np_dhkey_equal s (subject_of _NP_MSG_ACK) || _np_dhkey_equal s (subject_of _NP_MSG_PING_REQUEST) ||
  _np_dhkey_equal s (subject_of _NP_MSG_PIGGY_REQUEST) || _np_dhkey_equal s (subject_of _NP_MSG_UPDATE_REQUEST) ||
  _np_dhkey_equal s (subject_of _NP_MSG_LEAVE_REQUEST).

Definition __is_dht_message : cond_t := fun e key event =>
  Ok (match external_part key event with
      | Some dht_message =>
          alias_is_routed key && is_dht_subject (part_subject dht_message) && __is_msgpart_expired e dht_message &&
          _np_dhkey_equal (my_node_key e) (part_audience dht_message)
      | None => false
      end).

Definition __is_usr_in_message : cond_t := fun e key event =>
  Ok (match external_part key event with
      | Some usr_message =>
          __is_msgpart_expired e usr_message &&
          match _np_msgproperty_conf_get_inbound e (part_subject usr_message) with
          | Some user_prop => negb (is_internal user_prop) && negb (bool_decide (audience_type user_prop = NP_MX_AUD_VIRTUAL))
          | None => false
          end
      | None => false
      end).

Definition __is_alias_invalid : cond_t := fun e key event =>
  let alias_key := key_base key in
  let ret := FLAG_CMP (key_type alias_key) np_key_type_unknown in
  if negb ret && Qltb (np_time_now e) (created_at alias_key + BAD_LINK_REMOVE_GRACETIME) then Ok false else
  if negb ret && negb (_np_dhkey_cmp (Some dhkey_zero) (Some (parent_dhkey alias_key)) =? 0) &&
     negb (_np_keycache_exists e (parent_dhkey alias_key)) then Ok true else
  if negb ret && Qltb (last_update alias_key + BAD_LINK_REMOVE_GRACETIME) (np_time_now e) then Ok true else
  if ret then Ok true else
  alias_node ← deref (entity_node key);
  let ret := negb (is_in_leafset alias_node) && negb (is_in_routing_table alias_node) in
  let ret := if negb ret then Qltb (success_avg (info alias_node)) BAD_LINK else ret in
  Ok (if negb ret then
        match entity_token key with
        | None => true
        | Some alias_token => negb (token_is_valid (np_time_now e) alias_token np_aaatoken_type_node)
        end
      else ret).

(** ** Conditions of [np_comp_identity.c] and [np_comp_intent.c] *)

Definition __is_identity_aaatoken : cond_t := fun e key event =>
  if FLAG_CMP (event_type event) evt_internal && FLAG_CMP (event_type event) evt_token then
    match user_data event with
    | D_token identity =>
        Ok ((FLAG_CMP (token_type identity) np_aaatoken_type_identity ||
             FLAG_CMP (token_type identity) np_aaatoken_type_node ||
             FLAG_CMP (token_type identity) np_aaatoken_type_handshake) &&
            (private_key_is_set identity || FLAG_CMP (scope identity) np_aaatoken_scope_private ||
             FLAG_CMP (scope identity) np_aaatoken_scope_private_available) &&
            token_is_valid (np_time_now e) identity (token_type identity))
    | _ => Ok false
    end
  else Ok false.

Definition __is_identity_invalid : cond_t := fun e key event =>
  Ok (match entity_token key with
      | Some identity =>
          ((token_type identity =? np_aaatoken_type_identity) ||
           (token_type identity =? np_aaatoken_type_node) && private_key_is_set identity) &&
          negb (token_is_valid (np_time_now e) identity (token_type identity))
      | None => false
      end).

Definition __is_identity_authn : cond_t := fun _ _ _ => Ok false.

Definition __is_unencrypted_np_message : cond_t := fun e key event =>
  Ok (FLAG_CMP (event_type event) evt_external && FLAG_CMP (event_type event) evt_message &&
      match user_data event with D_blob => true | _ => false end).

(** A token not processed before, of a type in [types], and valid. *)
Definition fresh_token (e : env_t) (key : key_t) (t : token) (types : list Z) : bool :=
  negb (duplicate_filter key (subject_of (attributes_signature t))) &&
  existsb (FLAG_CMP (token_type t)) types && token_is_valid (np_time_now e) t (token_type t).

Definition __is_authn_request : cond_t := fun e key event =>
  Ok (FLAG_CMP (event_type event) evt_authn &&
      (FLAG_CMP (event_type event) evt_external && FLAG_CMP (event_type event) evt_token) &&
      match user_data event with
      | D_token t => fresh_token e key t [np_aaatoken_type_identity; np_aaatoken_type_node]
      | _ => false
      end).

Definition __is_authz_request : cond_t := fun e key event =>
  Ok (FLAG_CMP (event_type event) evt_authz &&
      (FLAG_CMP (event_type event) evt_external && FLAG_CMP (event_type event) evt_token) &&
      match user_data event with
      | D_token t => fresh_token e key t [np_aaatoken_type_identity; np_aaatoken_type_node; np_aaatoken_type_message_intent]
      | _ => false
      end).

Definition __is_account_request : cond_t := fun _ _ _ => Ok false.

Definition __is_intent_authz : cond_t := fun e key event =>
  Ok (FLAG_CMP (event_type event) evt_authz &&
      (FLAG_CMP (event_type event) evt_external && FLAG_CMP (event_type event) evt_token) &&
      match user_data event with
      | D_token t => FLAG_CMP (token_type t) np_aaatoken_type_message_intent &&
                     token_is_valid (np_time_now e) t np_aaatoken_type_message_intent
      | _ => false
      end).

(** ** Conditions of [np_comp_msgproperty.c] *)

Definition __is_msgproperty : cond_t := fun e key event =>
  Ok (FLAG_CMP (event_type event) evt_property && FLAG_CMP (event_type event) evt_internal &&
      match user_data event with D_property_conf => true | _ => false end).

Definition __is_msgproperty_lifecycle_enable : cond_t := fun e key event =>
  Ok (FLAG_CMP (event_type event) evt_enable &&
      (FLAG_CMP (event_type event) evt_property && FLAG_CMP (event_type event) evt_internal) &&
      match user_data event with D_property_run => true | _ => false end).

Definition __is_msgproperty_lifecycle_disable : cond_t := fun e key event =>
  Ok (FLAG_CMP (event_type event) evt_disable &&
      (FLAG_CMP (event_type event) evt_property && FLAG_CMP (event_type event) evt_internal) &&
      match user_data event with D_property_run => true | _ => false end).

Definition __is_external_message_event : cond_t := fun e key event =>
  Ok (FLAG_CMP (event_type event) evt_message && FLAG_CMP (event_type event) evt_external &&
      match user_data event with D_message => true | _ => false end).

Definition __is_internal_message_event : cond_t := fun e key event =>
  Ok (FLAG_CMP (event_type event) evt_message && FLAG_CMP (event_type event) evt_internal &&
      negb (FLAG_CMP (event_type event) evt_redeliver) &&
      match user_data event with D_message | D_part _ => true | _ => false end).

Definition __np_msgproperty_threshold_breached (self_conf : np_msgproperty_conf_t) (self : np_msgproperty_run_t) : bool :=
  max_threshold self_conf <? msg_threshold self.

(** [NP_CAST] of a component. *)
Definition NP_CAST {B} (p : option B) : result B := match p with Some x => Ok x | None => Err Assert_failed end.

(** The channel is internal, or has room and a session with the partner. *)
Definition token_available (key : key_t) (event : np_util_event_t) (conf : np_msgproperty_conf_t)
    (run : np_msgproperty_run_t) : bool :=
  is_internal conf ||
  negb (__np_msgproperty_threshold_breached conf run) && crypto_session key (target_dhkey event).

Definition __is_sender_token_available : cond_t := fun e key event =>
  my_property_conf ← NP_CAST (entity_conf key);
  my_property_run ← NP_CAST (entity_run key);
  ret ← __is_external_message_event e key event;
  Ok (ret && token_available key event my_property_conf my_property_run).

Definition __is_receiver_token_available : cond_t := fun e key event =>
  ret ← __is_internal_message_event e key event;
  if (ret : bool) then
    my_property_conf ← NP_CAST (entity_conf key);
    my_property_run ← NP_CAST (entity_run key);
    Ok (token_available key event my_property_conf my_property_run)
  else Ok false.

Definition __is_no_token_available : cond_t := fun e key event =>
  if match user_data event with D_message => true | _ => false end then Ok true
  else
    internal ← __is_internal_message_event e key event;
    external ← __is_external_message_event e key event;
    Ok (internal || external).

Definition __is_message_redelivery_event : cond_t := fun e key event =>
  Ok (FLAG_CMP (event_type event) evt_message &&
      (FLAG_CMP (event_type event) evt_redeliver && FLAG_CMP (event_type event) evt_internal) &&
      match user_data event with D_message => true | _ => false end).

Definition __is_response_event : cond_t := fun e key event =>
  Ok (FLAG_CMP (event_type event) evt_response &&
      (FLAG_CMP (event_type event) evt_timeout || FLAG_CMP (event_type event) evt_internal) &&
      match user_data event with D_response => true | _ => false end).

(** ** Conditions and actions of [np_key.c] *)

Definition __is_noop_event : cond_t := fun e key event => Ok (FLAG_CMP (event_type event) evt_noop).

(** In the source, used by no transition. *)
Definition __is_key_invalid (now : Q) (key : key_t) : bool :=
  Qltb (last_update (key_base key)) (now + 3600) && FLAG_CMP (key_type (key_base key)) np_key_type_unknown.

(** [enum NP_KEY_STATES] *)
Definition UNUSED : Z := 0.
Definition IN_SETUP_NODE : Z := 1.
Definition IN_SETUP_ALIAS : Z := 2.
Definition IN_SETUP_WILDCARD : Z := 3.
Definition IN_SETUP_IDENTITY : Z := 4.
Definition IN_USE_IDENTITY : Z := 5.
Definition IN_USE_NODE : Z := 6.
Definition IN_USE_ALIAS : Z := 7.
Definition IN_USE_MSGPROPERTY : Z := 8.
Definition ON_HOLD_MSGPROPERTY : Z := 9.
Definition IN_DESTROY : Z := 10.
Definition MAX_KEY_STATES : nat := 11.

(** The functions the table names as actions, entry and exit functions. *)
Inductive key_action :=
| __keystate_noop | __np_wildcard_set | __np_node_set_node | __np_alias_set | __np_alias_set_node | __np_node_set
| __np_set_identity | __np_set_property | __np_alias_set_node_destroy | __np_create_session | __np_alias_decrypt
| __np_handle_np_message | __np_node_update_token | __np_node_upgrade | __np_alias_destroy | __np_create_client_network
| __np_node_send_direct | __np_node_send_encrypted | __np_node_discard_message | __np_node_split_message
| __np_node_identity_upgrade | __np_node_destroy | __np_node_handle_completion | __np_identity_update
| __np_identity_destroy | __np_wildcard_destroy | __np_handle_usr_msg | __np_handle_pheromone | __np_handle_np_discovery
| __np_handle_np_forward | __np_alias_shutdown | __np_alias_update | __np_node_add_to_leafset | __np_node_handle_response
| __np_node_send_shutdown | __np_node_send_shutdown_event | __np_node_update | __np_create_identity_network
| __np_extract_handshake | __np_identity_handle_authn | __np_identity_handle_authz | __np_identity_handle_account
| __np_identity_shutdown | __np_property_lifecycle_set | __np_response_handler_set | __np_property_redelivery_set
| __np_property_handle_in_msg | __np_property_handle_out_msg | __np_property_handle_intent
| __np_property_add_msg_to_cache | __np_property_update | __np_property_check | __np_key_destroy.

#[export] Instance key_action_eq_dec : EqDecision key_action.
Proof. solve_decision. Defined.

Abbreviation machine := (@np_util_statemachine_t key_t).
Abbreviation table := (list (option (@np_util_statemachine_state_s key_t np_util_event_t))).

Context (e : env_t) (run_action : key_action -> machine -> np_util_event_t -> result machine).

(** [__keystate_noop] is empty by design. *)
Definition action_func (a : key_action) (m : machine) (event : np_util_event_t) : result machine :=
  match a with __keystate_noop => Ok m | _ => run_action a m event end.

(** A condition looks at the key of the machine; its faults are those of the engine. *)
Definition cond_func (c : cond_t) (m : machine) (event : np_util_event_t) : result bool :=
  c e (_user_data m) event.

(** [NP_UTIL_STATEMACHINE_STATE], [NP_UTIL_STATEMACHINE_TRANSITION] *)
Definition STATE (id : Z) (err enter exit : key_action) (states : table) : result table :=
  np_util_statemachine_add_state states
    (State id (Some (action_func err)) (Some (action_func enter)) (Some (action_func exit)) 0 []).
Definition TRANSITION (source target : Z) (act : option key_action) (cond : option cond_t) (states : table) : result table :=
  np_util_statemachine_add_transition states source
    (Transition true source target (action_func <$> act) (cond_func <$> cond)).

(** The state and the transitions of each source state, in the order of the source. *)
Definition populate_unused (states : table) : result table :=
  states ← STATE UNUSED __keystate_noop __keystate_noop __keystate_noop states;
  states ← TRANSITION UNUSED IN_SETUP_WILDCARD (Some __np_wildcard_set) (Some __is_wildcard_key) states;
  states ← TRANSITION UNUSED IN_SETUP_NODE (Some __np_node_set_node) (Some __is_node_info) states;
  states ← TRANSITION UNUSED IN_SETUP_ALIAS (Some __np_alias_set) (Some __is_alias_handshake_token) states;
  states ← TRANSITION UNUSED UNUSED (Some __np_alias_set_node) (Some __is_alias_node_info) states;
  states ← TRANSITION UNUSED IN_SETUP_NODE (Some __np_node_set) (Some __is_node_handshake_token) states;
  states ← TRANSITION UNUSED IN_SETUP_NODE (Some __np_node_set) (Some __is_node_token) states;
  states ← TRANSITION UNUSED IN_USE_IDENTITY (Some __np_set_identity) (Some __is_identity_aaatoken) states;
  states ← TRANSITION UNUSED IN_USE_MSGPROPERTY (Some __np_set_property) (Some __is_msgproperty) states;
  TRANSITION UNUSED IN_DESTROY (Some __np_alias_set_node_destroy) (Some __is_unused) states.

Definition populate_in_setup_alias (states : table) : result table :=
  states ← STATE IN_SETUP_ALIAS __keystate_noop __np_create_session __keystate_noop states;
  states ← TRANSITION IN_SETUP_ALIAS IN_SETUP_ALIAS (Some __np_alias_decrypt) (Some __is_crypted_message) states;
  states ← TRANSITION IN_SETUP_ALIAS IN_SETUP_ALIAS (Some __np_handle_np_message) (Some __is_join_in_message) states;
  states ← TRANSITION IN_SETUP_ALIAS IN_SETUP_ALIAS (Some __np_node_update_token) (Some __is_node_token) states;
  states ← TRANSITION IN_SETUP_ALIAS IN_USE_ALIAS (Some __np_node_upgrade) (Some __is_node_authn) states;
  TRANSITION IN_SETUP_ALIAS IN_DESTROY (Some __np_alias_destroy) (Some __is_alias_invalid) states.

Definition populate_in_setup_node (states : table) : result table :=
  states ← STATE IN_SETUP_NODE __keystate_noop __np_create_client_network __keystate_noop states;
  states ← TRANSITION IN_SETUP_NODE IN_SETUP_NODE (Some __np_node_send_direct) (Some __is_handshake_message) states;
  states ← TRANSITION IN_SETUP_NODE IN_SETUP_NODE (Some __np_node_send_encrypted) (Some __is_join_out_message) states;
  states ← TRANSITION IN_SETUP_NODE IN_SETUP_NODE (Some __np_node_discard_message) (Some __is_invalid_message) states;
  states ← TRANSITION IN_SETUP_NODE IN_SETUP_NODE (Some __np_node_split_message) (Some __is_np_message) states;
  states ← TRANSITION IN_SETUP_NODE IN_SETUP_NODE (Some __np_node_update_token) (Some __is_node_handshake_token) states;
  states ← TRANSITION IN_SETUP_NODE IN_SETUP_NODE (Some __np_node_update_token) (Some __is_node_token) states;
  states ← TRANSITION IN_SETUP_NODE IN_USE_NODE (Some __np_node_identity_upgrade) (Some __is_node_identity_authn) states;
  states ← TRANSITION IN_SETUP_NODE IN_USE_NODE (Some __np_node_upgrade) (Some __is_node_authn) states;
  states ← TRANSITION IN_SETUP_NODE IN_DESTROY (Some __np_node_destroy) (Some __is_shutdown_event) states;
  states ← TRANSITION IN_SETUP_NODE IN_DESTROY (Some __np_node_destroy) (Some __is_node_invalid) states;
  TRANSITION IN_SETUP_NODE IN_SETUP_NODE (Some __np_node_handle_completion) None states.

Definition populate_in_setup_identity (states : table) : result table :=
  states ← STATE IN_SETUP_IDENTITY __keystate_noop __keystate_noop __keystate_noop states;
  states ← TRANSITION IN_SETUP_IDENTITY IN_USE_IDENTITY (Some __np_identity_update) (Some __is_identity_authn) states;
  TRANSITION IN_SETUP_IDENTITY IN_DESTROY (Some __np_identity_destroy) (Some __is_identity_invalid) states.

Definition populate_in_setup_wildcard (states : table) : result table :=
  states ← STATE IN_SETUP_WILDCARD __keystate_noop __np_create_client_network __keystate_noop states;
  states ← TRANSITION IN_SETUP_WILDCARD IN_SETUP_WILDCARD (Some __np_node_send_direct) (Some __is_handshake_message) states;
  states ← TRANSITION IN_SETUP_WILDCARD IN_DESTROY (Some __np_wildcard_destroy) (Some __is_node_handshake_token) states;
  states ← TRANSITION IN_SETUP_WILDCARD IN_DESTROY (Some __np_wildcard_destroy) (Some __is_wildcard_invalid) states;
  TRANSITION IN_SETUP_WILDCARD IN_SETUP_WILDCARD (Some __np_node_handle_completion) None states.

Definition populate_in_use_alias (states : table) : result table :=
  states ← STATE IN_USE_ALIAS __keystate_noop __keystate_noop __keystate_noop states;
  states ← TRANSITION IN_USE_ALIAS IN_USE_ALIAS (Some __np_alias_decrypt) (Some __is_crypted_message) states;
  states ← TRANSITION IN_USE_ALIAS IN_USE_ALIAS (Some __np_handle_usr_msg) (Some __is_usr_in_message) states;
  states ← TRANSITION IN_USE_ALIAS IN_USE_ALIAS (Some __np_handle_np_message) (Some __is_dht_message) states;
  states ← TRANSITION IN_USE_ALIAS IN_USE_ALIAS (Some __np_handle_pheromone) (Some __is_pheromone_message) states;
  states ← TRANSITION IN_USE_ALIAS IN_USE_ALIAS (Some __np_handle_np_discovery) (Some __is_discovery_message) states;
  states ← TRANSITION IN_USE_ALIAS IN_USE_ALIAS (Some __np_handle_np_forward) (Some __is_forward_message) states;
  states ← TRANSITION IN_USE_ALIAS IN_DESTROY (Some __np_alias_destroy) (Some __is_alias_invalid) states;
  states ← TRANSITION IN_USE_ALIAS IN_USE_ALIAS (Some __np_alias_shutdown) (Some __is_shutdown_event) states;
  states ← TRANSITION IN_USE_ALIAS IN_USE_ALIAS None (Some __is_node_authn) states;
  TRANSITION IN_USE_ALIAS IN_USE_ALIAS (Some __np_alias_update) None states.

Definition populate_in_use_node (states : table) : result table :=
  states ← STATE IN_USE_NODE __keystate_noop __np_node_add_to_leafset __np_node_destroy states;
  states ← TRANSITION IN_USE_NODE IN_USE_NODE (Some __np_node_send_encrypted) (Some __is_np_messagepart) states;
  states ← TRANSITION IN_USE_NODE IN_USE_NODE (Some __np_node_split_message) (Some __is_np_message) states;
  states ← TRANSITION IN_USE_NODE IN_USE_NODE (Some __np_node_handle_response) (Some __is_response_event) states;
  states ← TRANSITION IN_USE_NODE IN_USE_NODE (Some __np_node_send_shutdown) (Some __is_shutdown_event) states;
  states ← TRANSITION IN_USE_NODE IN_USE_NODE (Some __np_node_send_shutdown_event) (Some __has_to_leave) states;
  states ← TRANSITION IN_USE_NODE IN_DESTROY (Some __np_node_send_shutdown) (Some __is_node_invalid) states;
  TRANSITION IN_USE_NODE IN_USE_NODE (Some __np_node_update) None states.

Definition populate_in_use_identity (states : table) : result table :=
  states ← STATE IN_USE_IDENTITY __keystate_noop __np_create_identity_network __np_identity_destroy states;
  states ← TRANSITION IN_USE_IDENTITY IN_USE_IDENTITY (Some __np_extract_handshake) (Some __is_unencrypted_np_message) states;
  states ← TRANSITION IN_USE_IDENTITY IN_USE_IDENTITY (Some __np_identity_handle_authn) (Some __is_authn_request) states;
  states ← TRANSITION IN_USE_IDENTITY IN_USE_IDENTITY (Some __np_identity_handle_authz) (Some __is_authz_request) states;
  states ← TRANSITION IN_USE_IDENTITY IN_USE_IDENTITY (Some __np_identity_handle_account) (Some __is_account_request) states;
  states ← TRANSITION IN_USE_IDENTITY IN_DESTROY (Some __np_identity_shutdown) (Some __is_shutdown_event) states;
  states ← TRANSITION IN_USE_IDENTITY IN_DESTROY (Some __np_identity_shutdown) (Some __is_identity_invalid) states;
  TRANSITION IN_USE_IDENTITY IN_USE_IDENTITY (Some __keystate_noop) (Some __is_noop_event) states.

Definition populate_in_use_msgproperty (states : table) : result table :=
  states ← STATE IN_USE_MSGPROPERTY __keystate_noop __keystate_noop __keystate_noop states;
  states ← TRANSITION IN_USE_MSGPROPERTY ON_HOLD_MSGPROPERTY (Some __np_property_lifecycle_set) (Some __is_msgproperty_lifecycle_disable) states;
  states ← TRANSITION IN_USE_MSGPROPERTY IN_USE_MSGPROPERTY (Some __np_response_handler_set) (Some __is_response_event) states;
  states ← TRANSITION IN_USE_MSGPROPERTY IN_USE_MSGPROPERTY (Some __np_property_redelivery_set) (Some __is_message_redelivery_event) states;
  states ← TRANSITION IN_USE_MSGPROPERTY IN_USE_MSGPROPERTY (Some __np_property_handle_in_msg) (Some __is_sender_token_available) states;
  states ← TRANSITION IN_USE_MSGPROPERTY IN_USE_MSGPROPERTY (Some __np_property_handle_out_msg) (Some __is_receiver_token_available) states;
  states ← TRANSITION IN_USE_MSGPROPERTY IN_USE_MSGPROPERTY (Some __np_property_handle_intent) (Some __is_intent_authz) states;
  states ← TRANSITION IN_USE_MSGPROPERTY IN_USE_MSGPROPERTY (Some __np_property_add_msg_to_cache) (Some __is_no_token_available) states;
  states ← TRANSITION IN_USE_MSGPROPERTY IN_USE_MSGPROPERTY (Some __np_property_update) (Some __is_msgproperty) states;
  TRANSITION IN_USE_MSGPROPERTY IN_USE_MSGPROPERTY (Some __np_property_check) (Some __is_noop_event) states.

Definition populate_on_hold_msgproperty (states : table) : result table :=
  states ← STATE ON_HOLD_MSGPROPERTY __keystate_noop __keystate_noop __keystate_noop states;
  TRANSITION ON_HOLD_MSGPROPERTY IN_USE_MSGPROPERTY (Some __np_property_lifecycle_set) (Some __is_msgproperty_lifecycle_enable) states.

Definition populate_in_destroy (states : table) : result table :=
  STATE IN_DESTROY __keystate_noop __np_key_destroy __keystate_noop states.

(** The static table, filled once: [states] starts as eleven [NULL]s. *)
Definition __np_key_populate_states : result table :=
  let states := replicate MAX_KEY_STATES None in
  states ← populate_unused states;
  states ← populate_in_setup_alias states;
  states ← populate_in_setup_node states;
  states ← populate_in_setup_identity states;
  states ← populate_in_setup_wildcard states;
  states ← populate_in_use_alias states;
  states ← populate_in_use_node states;
  states ← populate_in_use_identity states;
  states ← populate_in_use_msgproperty states;
  states ← populate_on_hold_msgproperty states;
  states ← populate_in_destroy states;
  Ok states.

(** [_np_key_handle_event]: one transition; every event but [evt_noop] counts as
    activity on the key. *)
Definition set_key_update (k : key_t) (t : Q) : key_t :=
  KeyObj (set_last_update (key_base k) t) (entity_token k) (entity_node k) (entity_conf k) (entity_run k)
    (duplicate_filter k) (crypto_session k).

Definition _np_key_handle_event (states : table) (m : machine) (event : np_util_event_t) : result machine :=
  '(m, _) ← np_util_statemachine_invoke_auto_transition states m event;
  Ok (if event_type event =? evt_noop then m
      else Machine (_start_state m) (_current_state m) (set_key_update (_user_data m) (np_time_now e))).
End KeyStates.
