(* ===== verification/KeyLife.v ===== *)
(** * The life cycle of keys against its contract

    The table as rules, first match first: what an event does to a key in a
    state is the first rule whose condition holds; a condition or an action may
    fault. *)
From Stdlib Require Import ZArith Lia QArith Lqa String.
From stdpp Require Import prelude.
From S2P Require Import Prelude Real Dhkey Key Route Token Statemachine StatemachineSpec KeyStates.

Local Open Scope Z_scope.

Section KeyLife.
Context `{TokenOps A}.
Abbreviation key := (@key_t A).
Abbreviation event_t := (@np_util_event_t A).
Abbreviation machine_t := (@np_util_statemachine_t key).
Abbreviation func := (machine_t -> event_t -> result machine_t).

(** ** The rules of each state: target, action, condition *)

Definition rule : Type := Z * option key_action * option (@cond_t A).

Definition key_rules (s : nat) : list rule :=
  match s with
  | 0%nat => (* UNUSED *)
      [(IN_SETUP_WILDCARD, Some __np_wildcard_set, Some __is_wildcard_key);
       (IN_SETUP_NODE, Some __np_node_set_node, Some __is_node_info);
       (IN_SETUP_ALIAS, Some __np_alias_set, Some __is_alias_handshake_token);
       (UNUSED, Some __np_alias_set_node, Some __is_alias_node_info);
       (IN_SETUP_NODE, Some __np_node_set, Some __is_node_handshake_token);
       (IN_SETUP_NODE, Some __np_node_set, Some __is_node_token);
       (IN_USE_IDENTITY, Some __np_set_identity, Some __is_identity_aaatoken);
       (IN_USE_MSGPROPERTY, Some __np_set_property, Some __is_msgproperty);
       (IN_DESTROY, Some __np_alias_set_node_destroy, Some __is_unused)]
  | 1%nat => (* IN_SETUP_NODE *)
      [(IN_SETUP_NODE, Some __np_node_send_direct, Some __is_handshake_message);
       (IN_SETUP_NODE, Some __np_node_send_encrypted, Some __is_join_out_message);
       (IN_SETUP_NODE, Some __np_node_discard_message, Some __is_invalid_message);
       (IN_SETUP_NODE, Some __np_node_split_message, Some __is_np_message);
       (IN_SETUP_NODE, Some __np_node_update_token, Some __is_node_handshake_token);
       (IN_SETUP_NODE, Some __np_node_update_token, Some __is_node_token);
       (IN_USE_NODE, Some __np_node_identity_upgrade, Some __is_node_identity_authn);
       (IN_USE_NODE, Some __np_node_upgrade, Some __is_node_authn);
       (IN_DESTROY, Some __np_node_destroy, Some __is_shutdown_event);
       (IN_DESTROY, Some __np_node_destroy, Some __is_node_invalid);
       (IN_SETUP_NODE, Some __np_node_handle_completion, None)]
  | 2%nat => (* IN_SETUP_ALIAS *)
      [(IN_SETUP_ALIAS, Some __np_alias_decrypt, Some __is_crypted_message);
       (IN_SETUP_ALIAS, Some __np_handle_np_message, Some __is_join_in_message);
       (IN_SETUP_ALIAS, Some __np_node_update_token, Some __is_node_token);
       (IN_USE_ALIAS, Some __np_node_upgrade, Some __is_node_authn);
       (IN_DESTROY, Some __np_alias_destroy, Some __is_alias_invalid)]
  | 3%nat => (* IN_SETUP_WILDCARD *)
      [(IN_SETUP_WILDCARD, Some __np_node_send_direct, Some __is_handshake_message);
       (IN_DESTROY, Some __np_wildcard_destroy, Some __is_node_handshake_token);
       (IN_DESTROY, Some __np_wildcard_destroy, Some __is_wildcard_invalid);
       (IN_SETUP_WILDCARD, Some __np_node_handle_completion, None)]
  | 4%nat => (* IN_SETUP_IDENTITY *)
      [(IN_USE_IDENTITY, Some __np_identity_update, Some __is_identity_authn);
       (IN_DESTROY, Some __np_identity_destroy, Some __is_identity_invalid)]
  | 5%nat => (* IN_USE_IDENTITY *)
      [(IN_USE_IDENTITY, Some __np_extract_handshake, Some __is_unencrypted_np_message);
       (IN_USE_IDENTITY, Some __np_identity_handle_authn, Some __is_authn_request);
       (IN_USE_IDENTITY, Some __np_identity_handle_authz, Some __is_authz_request);
       (IN_USE_IDENTITY, Some __np_identity_handle_account, Some __is_account_request);
       (IN_DESTROY, Some __np_identity_shutdown, Some __is_shutdown_event);
       (IN_DESTROY, Some __np_identity_shutdown, Some __is_identity_invalid);
       (IN_USE_IDENTITY, Some __keystate_noop, Some __is_noop_event)]
  | 6%nat => (* IN_USE_NODE *)
      [(IN_USE_NODE, Some __np_node_send_encrypted, Some __is_np_messagepart);
       (IN_USE_NODE, Some __np_node_split_message, Some __is_np_message);
       (IN_USE_NODE, Some __np_node_handle_response, Some __is_response_event);
       (IN_USE_NODE, Some __np_node_send_shutdown, Some __is_shutdown_event);
       (IN_USE_NODE, Some __np_node_send_shutdown_event, Some __has_to_leave);
       (IN_DESTROY, Some __np_node_send_shutdown, Some __is_node_invalid);
       (IN_USE_NODE, Some __np_node_update, None)]
  | 7%nat => (* IN_USE_ALIAS *)
      [(IN_USE_ALIAS, Some __np_alias_decrypt, Some __is_crypted_message);
       (IN_USE_ALIAS, Some __np_handle_usr_msg, Some __is_usr_in_message);
       (IN_USE_ALIAS, Some __np_handle_np_message, Some __is_dht_message);
       (IN_USE_ALIAS, Some __np_handle_pheromone, Some __is_pheromone_message);
       (IN_USE_ALIAS, Some __np_handle_np_discovery, Some __is_discovery_message);
       (IN_USE_ALIAS, Some __np_handle_np_forward, Some __is_forward_message);
       (IN_DESTROY, Some __np_alias_destroy, Some __is_alias_invalid);
       (IN_USE_ALIAS, Some __np_alias_shutdown, Some __is_shutdown_event);
       (IN_USE_ALIAS, None, Some __is_node_authn);
       (IN_USE_ALIAS, Some __np_alias_update, None)]
  | 8%nat => (* IN_USE_MSGPROPERTY *)
      [(ON_HOLD_MSGPROPERTY, Some __np_property_lifecycle_set, Some __is_msgproperty_lifecycle_disable);
       (IN_USE_MSGPROPERTY, Some __np_response_handler_set, Some __is_response_event);
       (IN_USE_MSGPROPERTY, Some __np_property_redelivery_set, Some __is_message_redelivery_event);
       (IN_USE_MSGPROPERTY, Some __np_property_handle_in_msg, Some __is_sender_token_available);
       (IN_USE_MSGPROPERTY, Some __np_property_handle_out_msg, Some __is_receiver_token_available);
       (IN_USE_MSGPROPERTY, Some __np_property_handle_intent, Some __is_intent_authz);
       (IN_USE_MSGPROPERTY, Some __np_property_add_msg_to_cache, Some __is_no_token_available);
       (IN_USE_MSGPROPERTY, Some __np_property_update, Some __is_msgproperty);
       (IN_USE_MSGPROPERTY, Some __np_property_check, Some __is_noop_event)]
  | 9%nat => (* ON_HOLD_MSGPROPERTY *)
      [(IN_USE_MSGPROPERTY, Some __np_property_lifecycle_set, Some __is_msgproperty_lifecycle_enable)]
  | 10%nat => (* IN_DESTROY *)
      []
  | _ => []
  end.

Definition key_enter_exit (s : nat) : key_action * key_action :=
  match s with
  | 1%nat => (__np_create_client_network, __keystate_noop)
  | 2%nat => (__np_create_session, __keystate_noop)
  | 3%nat => (__np_create_client_network, __keystate_noop)
  | 5%nat => (__np_create_identity_network, __np_identity_destroy)
  | 6%nat => (__np_node_add_to_leafset, __np_node_destroy)
  | 10%nat => (__np_key_destroy, __keystate_noop)
  | _ => (__keystate_noop, __keystate_noop)
  end.

Section Table.
Context (run_action : key_action -> func) (e : env_t).

Definition rule_transition (s : Z) (r : rule) : np_util_statemachine_transition_s :=
  Transition true s r.1.1 (action_func run_action <$> r.1.2) (cond_func e <$> r.2).

Definition key_state (n : nat) : np_util_statemachine_state_s :=
  State (Z.of_nat n) (Some (action_func run_action __keystate_noop)) (Some (action_func run_action (key_enter_exit n).1))
    (Some (action_func run_action (key_enter_exit n).2)) (Z.of_nat (length (key_rules n)))
    (map (rule_transition (Z.of_nat n)) (key_rules n)).

Definition key_table : list (option np_util_statemachine_state_s) := map (fun n => Some (key_state n)) (seq 0 11).

(** Filling the table through the engine gives the rules, in their order. *)
Lemma populate_ok : __np_key_populate_states e run_action = Ok key_table.
Proof. reflexivity. Qed.

Lemma key_table_at n : (n < 11)%nat -> state_at key_table (Z.of_nat n) = Ok (key_state n).
Proof.
  intros Hn. assert (rd key_table (Z.of_nat n) = Ok (Some (key_state n))) as E.
  { apply rd_lookup. split; [lia|]. rewrite Nat2Z.id. unfold key_table.
    rewrite list_lookup_fmap, lookup_seq_lt by lia. done. }
  unfold state_at. by rewrite E.
Qed.

Lemma key_state_wf n : state_wf (key_state n).
Proof. unfold state_wf, key_state. cbn [_transitions _transition_table]. rewrite length_map. lia. Qed.

Lemma key_state_live n : live_transitions (key_state n) = map (rule_transition (Z.of_nat n)) (key_rules n).
Proof.
  unfold live_transitions, key_state. cbn [_transitions _transition_table]. rewrite Nat2Z.id, take_ge; [done|].
  by rewrite length_map.
Qed.

(** ** What an event does *)

Definition rule_enabled (k : key) (ev : event_t) (r : rule) : result bool :=
  match r.2 with Some c => c e k ev | None => Ok true end.

(** The first rule that applies. *)
Fixpoint first_rule (k : key) (ev : event_t) (l : list rule) : result (option rule) :=
  match l with
  | [] => Ok None
  | r :: l => met ← rule_enabled k ev r; if (met : bool) then Ok (Some r) else first_rule k ev l
  end.
Definition dispatch (n : nat) (k : key) (ev : event_t) : result (option rule) := first_rule k ev (key_rules n).

Definition touch (ev : event_t) (m : machine_t) : machine_t :=
  if event_type ev =? evt_noop then m
  else Machine (_start_state m) (_current_state m) (set_key_update (_user_data m) (np_time_now e)).

Definition perform (n : nat) (m : machine_t) (ev : event_t) : result machine_t :=
  first ← dispatch n (_user_data m) ev;
  match first with
  | None => Ok m
  | Some r => fired key_table (key_state n) (rule_transition (Z.of_nat n) r) m ev
  end.

(** Callbacks leave the state to the engine; they may fault. *)
Hypothesis run_keeps : forall a m ev m', run_action a m ev = Ok m' -> _current_state m' = _current_state m.

Lemma action_keeps a : keeps (action_func run_action a).
Proof using run_keeps. intros m ev m'. destruct a; try apply run_keeps. by intros [= ->]. Qed.

Lemma first_enabled_rules n m ev (l : list rule) :
  first_enabled m ev (map (rule_transition n) l) = (first ← first_rule (_user_data m) ev l; Ok (option_map (rule_transition n) first)).
Proof.
  induction l as [|r l IH]; cbn [map first_enabled first_rule]; [done|].
  assert (enabled m ev (rule_transition n r) = rule_enabled (_user_data m) ev r) as ->.
  { unfold enabled, condition_met, rule_enabled, rule_transition. cbn [_active f_condition]. by destruct (r.2). }
  destruct (rule_enabled (_user_data m) ev r) as [[|]|]; [done| |done]. rewrite !bind_ok. apply IH.
Qed.

Lemma targets_in_table n r : r ∈ key_rules n -> 0 <= r.1.1 < 11.
Proof.
  intros Hr. assert (Forall (fun t => 0 <= t < 11) (map (fun r : rule => r.1.1) (key_rules n))) as F.
  { do 11 (destruct n as [|n]; [by_decide|]). constructor. }
  rewrite Forall_map, Forall_forall in F. by apply F.
Qed.

Lemma first_rule_in k ev l r : first_rule k ev l = Ok (Some r) -> r ∈ l /\ rule_enabled k ev r = Ok true.
Proof.
  induction l as [|r0 l IH]; cbn [first_rule]; [done|]. intros E. apply bind_Ok_inv in E as (met & Em & E). destruct met.
  - injection E as ->. split; [left|done].
  - destruct (IH E) as [Hr He]. split; [by right|done].
Qed.
Lemma dispatch_rule n k ev r : dispatch n k ev = Ok (Some r) -> r ∈ key_rules n /\ rule_enabled k ev r = Ok true.
Proof. apply first_rule_in. Qed.

(** A fault of the search is that of a condition. *)
Lemma first_rule_fault k ev l err : first_rule k ev l = Err err -> exists r c, r ∈ l /\ r.2 = Some c /\ c e k ev = Err err.
Proof.
  induction l as [|r l IH]; cbn [first_rule]; [done|]. destruct (rule_enabled k ev r) as [[|]|err'] eqn:Er; [done| |].
  - rewrite bind_ok. intros (r' & c & Hr & Hc)%IH. exists r', c. split; [by right|done].
  - intros [= ->]. unfold rule_enabled in Er. destruct (r.2) as [c|] eqn:Ec; [|done]. exists r, c. split; [left|done].
Qed.

Lemma target_state n r : r ∈ key_rules n -> exists st, state_at key_table (_target_state (rule_transition (Z.of_nat n) r)) = Ok st.
Proof.
  intros Hr%targets_in_table. exists (key_state (Z.to_nat (r.1.1))). rewrite <- key_table_at by lia.
  unfold rule_transition. cbn [_target_state]. by rewrite Z2Nat.id by lia.
Qed.

Lemma invoke_perform n m ev : (n < 11)%nat -> _current_state m = Z.of_nat n ->
  exists b, np_util_statemachine_invoke_auto_transition key_table m ev = (m' ← perform n m ev; Ok (m', b)).
Proof using run_keeps.
  intros Hn Hm. pose proof (key_table_at n Hn) as Hst. rewrite <- Hm in Hst.
  rewrite (invoke_auto_ok key_table m ev _ Hst (key_state_wf n)). unfold auto_result, perform, dispatch.
  rewrite key_state_live, first_enabled_rules.
  destruct (first_rule (_user_data m) ev (key_rules n)) as [[r|]|err] eqn:Er; [|by exists false|by exists false].
  rewrite !bind_ok. cbn [option_map]. exists true. apply first_rule_in in Er as [Hr _].
  rewrite fire_auto_ok; [done| | |by apply target_state].
  - unfold rule_transition. cbn [f_action]. destruct (r.1.2) as [a|]; [|done]. apply action_keeps.
  - apply action_keeps.
Qed.

Lemma key_state_at s st : state_at key_table s = Ok st -> exists n, st = key_state n.
Proof.
  intros Hst. unfold state_at in Hst. inv_ok. apply rd_lookup in Hrun as [Hs Hl]. unfold key_table in Hl.
  rewrite list_lookup_fmap_Some in Hl. destruct Hl as (i & -> & Hi). injection Hst as <-. by exists i.
Qed.

(** What the performance of a rule that returns has done, and what a fault of one is. *)
Lemma perform_returns n m ev m' : perform n m ev = Ok m' -> _current_state m = Z.of_nat n ->
  exists first, dispatch n (_user_data m) ev = Ok first /\
    _current_state m' = match first with Some r => r.1.1 | None => Z.of_nat n end.
Proof using run_keeps.
  intros E Hm. unfold perform in E. apply bind_Ok_inv in E as (first & Ed & E). exists first. split; [done|].
  destruct first as [r|]; [|by injection E as <-].
  rewrite (fired_state key_table _ _ _ _ _ ltac:(intros s tst (i & ->)%key_state_at; apply action_keeps) E). done.
Qed.

Lemma action_fault a m ev err : action_func run_action a m ev = Err err -> exists a m1, run_action a m1 ev = Err err.
Proof. intros E. exists a, m. by destruct a. Qed.

Lemma perform_fault n m ev err : perform n m ev = Err err ->
  (exists r c, r ∈ key_rules n /\ r.2 = Some c /\ c e (_user_data m) ev = Err err) \/ (exists a m1, run_action a m1 ev = Err err).
Proof.
  unfold perform. destruct (dispatch n (_user_data m) ev) as [first|err'] eqn:Ed; [|intros [= ->]; left; by eapply first_rule_fault].
  rewrite bind_ok. destruct first as [r|]; [|done]. apply dispatch_rule in Ed as [Hr _]. destruct (target_state n r Hr) as [st Hst].
  intros E. right. unfold fired in E.
  destruct (call_if (f_action (rule_transition (Z.of_nat n) r)) m ev) as [m1|err1] eqn:E1.
  - rewrite bind_ok in E. destruct (_ =? _); [done|].
    destruct (call (f_exit (key_state n)) m1 ev) as [m2|err2] eqn:E2; [|injection E as ->; exact (action_fault (key_enter_exit n).2 m1 ev err E2)].
    rewrite bind_ok, Hst, bind_ok in E. destruct (key_state_at _ _ Hst) as [i ->].
    exact (action_fault (key_enter_exit i).1 _ ev err E).
  - injection E as ->. cbn [rule_transition f_action] in E1. destruct (r.1.2) as [a|]; [exact (action_fault a m ev err E1)|done].
Qed.

(** One event: the first rule that applies is performed; without one nothing
    happens; an event that is not [evt_noop] counts as activity. *)
Lemma handle_perform n m ev : (n < 11)%nat -> _current_state m = Z.of_nat n ->
  _np_key_handle_event e key_table m ev = (m' ← perform n m ev; Ok (touch ev m')).
Proof using run_keeps.
  intros Hn Hm. unfold _np_key_handle_event. destruct (invoke_perform n m ev Hn Hm) as (b & ->).
  destruct (perform n m ev) as [m'|]; [|done]. unfold touch. by destruct (event_type ev =? evt_noop).
Qed.

Lemma touch_state ev m : _current_state (touch ev m) = _current_state m.
Proof. unfold touch. by destruct (event_type ev =? evt_noop). Qed.
End Table.
End KeyLife.
