(* ===== verification/KeyLifeThms.v ===== *)
(** * What the life cycle of keys guarantees *)
From Stdlib Require Import ZArith Lia QArith Lqa String.
From stdpp Require Import prelude.
From S2P Require Import Prelude Real Dhkey Key Route Token Statemachine StatemachineSpec KeyStates KeyLife.

Local Open Scope Z_scope.

Section Theorems.
Context `{TokenOps A}.
Abbreviation key := (@key_t A).
Abbreviation event_t := (@np_util_event_t A).
Abbreviation machine_t := (@np_util_statemachine_t key).

(** The actions leave the state to the engine; they may fault. *)
Definition leaves_state (run_action : key_action -> machine_t -> event_t -> result machine_t) : Prop :=
  forall a m ev m', run_action a m ev = Ok m' -> _current_state m' = _current_state m.

(** An event in the environment it meets; a sequence of them. *)
Definition handle_one (run_action : key_action -> machine_t -> event_t -> result machine_t)
    (x : env_t * event_t) (m : machine_t) : result machine_t :=
  states ← __np_key_populate_states x.1 run_action; _np_key_handle_event x.1 states m x.2.
Definition handle_all (run_action : key_action -> machine_t -> event_t -> result machine_t)
    (events : list (env_t * event_t)) (m : machine_t) : result machine_t :=
  foldM (handle_one run_action) events m.

Lemma handle_all_cons run_action x events m :
  handle_all run_action (x :: events) m = m1 ← handle_one run_action x m; handle_all run_action events m1.
Proof. reflexivity. Qed.

(** ** The kinds of keys *)

(** The states that can follow. *)
Definition reach (n : nat) : list nat :=
  match n with
  | 0%nat => [0; 1; 2; 3; 5; 6; 7; 8; 9; 10]%nat
  | 1%nat => [1; 6; 10]%nat
  | 2%nat => [2; 7; 10]%nat
  | 3%nat => [3; 10]%nat
  | 5%nat => [5; 10]%nat
  | 6%nat => [6; 10]%nat
  | 7%nat => [7; 10]%nat
  | 8%nat | 9%nat => [8; 9]%nat
  | 10%nat => [10]%nat
  | _ => []
  end.

Definition next_states (n : nat) : list nat := n :: map (fun r : rule => Z.to_nat (r.1.1)) (key_rules n).

Lemma reach_closed : forallb (fun n => forallb (fun s => forallb (fun s' => bool_decide (s' ∈ reach n)) (next_states s)) (reach n))
    (seq 0 11) = true.
Proof. vm_compute. reflexivity. Qed.

Lemma reach_step n s s' : (n < 11)%nat -> s ∈ reach n -> s' ∈ next_states s -> s' ∈ reach n.
Proof.
  intros Hn Hs Hs'. pose proof reach_closed as F. rewrite forallb_elem_of in F.
  specialize (F n ltac:(apply elem_of_seq; lia)). rewrite forallb_elem_of in F. specialize (F s Hs).
  rewrite forallb_elem_of in F. specialize (F s' Hs'). by apply bool_decide_eq_true in F.
Qed.

Lemma reach_bound n s : s ∈ reach n -> (s < 11)%nat.
Proof.
  intros Hs. assert (Forall (fun s => s < 11)%nat (reach n)) as F.
  { do 11 (destruct n as [|n]; [by_decide|]). constructor. }
  rewrite Forall_forall in F. by apply F.
Qed.

Lemma next_bound n s : (n < 11)%nat -> s ∈ next_states n -> (s < 11)%nat.
Proof.
  intros Hn Hs. apply elem_of_cons in Hs as [->|Hs]; [done|]. apply list_elem_of_fmap in Hs as (r & -> & Hr).
  apply targets_in_table in Hr. lia.
Qed.

Lemma handle_one_perform run_action e n m ev : leaves_state run_action -> (n < 11)%nat -> _current_state m = Z.of_nat n ->
  handle_one run_action (e, ev) m = (m' ← perform run_action e n m ev; Ok (touch e ev m')).
Proof.
  intros Hrun Hn Hm. unfold handle_one. rewrite populate_ok, bind_ok. cbn [fst snd]. by apply handle_perform.
Qed.

Lemma step_next run_action e n m ev m' : leaves_state run_action -> (n < 11)%nat -> _current_state m = Z.of_nat n ->
  handle_one run_action (e, ev) m = Ok m' ->
  exists s', _current_state m' = Z.of_nat s' /\ s' ∈ next_states n /\
    (s' <> n -> exists r, r ∈ key_rules n /\ rule_enabled e (_user_data m) ev r = Ok true /\ r.1.1 = Z.of_nat s').
Proof.
  intros Hrun Hn Hm E. rewrite (handle_one_perform run_action e n) in E by done.
  apply bind_Ok_inv in E as (m1 & E & [= <-]). rewrite touch_state.
  destruct (perform_returns run_action e Hrun n m ev m1 E Hm) as ([r|] & Er & Hs).
  - apply dispatch_rule in Er as [Hr Hen]. pose proof (targets_in_table n r Hr) as Ht. exists (Z.to_nat (r.1.1)).
    split; [by rewrite Z2Nat.id by lia|]. split.
    + right. apply list_elem_of_fmap. by exists r.
    + intros _. exists r. rewrite Z2Nat.id by lia. done.
  - exists n. split; [done|]. split; [left|done].
Qed.

(** Where a run can be ended: a condition of the state's rules or an action faults. *)
Definition faults_at (run_action : key_action -> machine_t -> event_t -> result machine_t) (n : nat) (m : machine_t)
    (e : env_t) (ev : event_t) (err : fault) : Prop :=
  (exists r c, r ∈ key_rules n /\ r.2 = Some c /\ c e (_user_data m) ev = Err err) \/
  (exists a m1, run_action a m1 ev = Err err).

(** C37: A new key becomes one of five kinds (node, alias, wildcard, identity, data
    channel) and keeps it, whatever events come, as long as the actions leave the state
    to the engine: when the events have been handled, a node is in setup, in use or
    destroyed, an alias likewise, a data channel is in use or on hold and never destroyed, a
    destroyed key stays so, and the state IN_SETUP_IDENTITY was not entered.  Only a
    fault of a condition of the key's state or of an action ends a run before: the engine
    and the table add none.  (Conditions do fault: a handshake token whose issuer is not
    hexadecimal does it, see conditions_defined.) *)
Theorem key_lifecycle run_action events m n :
  leaves_state run_action -> (n < 11)%nat -> n <> 4%nat -> _current_state m = Z.of_nat n ->
  match handle_all run_action events m with
  | Ok m' => exists s, _current_state m' = Z.of_nat s /\ s ∈ reach n /\ s <> 4%nat
  | Err err => exists e ev m1 s, (e, ev) ∈ events /\ _current_state m1 = Z.of_nat s /\ s ∈ reach n /\
      faults_at run_action s m1 e ev err
  end.
Proof.
  intros Hrun Hn H4 Hm. assert (4%nat ∉ reach n) as H4'.
  { do 11 (destruct n as [|n]; [try done; by_decide|]). lia. }
  assert (n ∈ reach n) as Hnn by (do 11 (destruct n as [|n]; [try done; by_decide|]); lia).
  enough (forall s m, s ∈ reach n -> _current_state m = Z.of_nat s ->
    match handle_all run_action events m with
    | Ok m' => exists s', _current_state m' = Z.of_nat s' /\ s' ∈ reach n
    | Err err => exists e ev m1 s, (e, ev) ∈ events /\ _current_state m1 = Z.of_nat s /\ s ∈ reach n /\ faults_at run_action s m1 e ev err
    end) as Hgen.
  { specialize (Hgen n m Hnn Hm). destruct (handle_all run_action events m) as [m'|err]; [|done].
    destruct Hgen as (s & Hs & Hr). exists s. split; [done|]. split; [done|]. by intros ->. }
  clear m Hm Hnn. induction events as [|[e ev] events IH]; intros s m Hs Hm; [by exists s|].
  rewrite handle_all_cons. pose proof (reach_bound _ _ Hs) as Hb.
  destruct (handle_one run_action (e, ev) m) as [m1|err] eqn:E1.
  - rewrite bind_ok. destruct (step_next run_action e s m ev m1 Hrun Hb Hm E1) as (s1 & Hm1 & Hs1 & _).
    specialize (IH s1 m1 (reach_step n s s1 Hn Hs Hs1) Hm1). destruct (handle_all run_action events m1); [done|].
    destruct IH as (e' & ev' & m2 & s2 & Hin & Hrest). exists e', ev', m2, s2. split; [by right|done].
  - cbn [mbind result_bind]. rewrite (handle_one_perform run_action e s) in E1 by done.
    destruct (perform run_action e s m ev) as [|err'] eqn:Ep; [done|]. injection E1 as ->.
    exists e, ev, m, s. split; [left|]. split; [done|]. split; [done|]. by eapply perform_fault.
Qed.

(** ** Peers are authenticated *)

(** What the token factory sends once a peer has been authenticated. *)
Definition authn_event (ev : event_t) : Prop :=
  FLAG_CMP (event_type ev) evt_internal = true /\ FLAG_CMP (event_type ev) evt_token = true /\
  FLAG_CMP (event_type ev) evt_authn = true /\ exists t, user_data ev = D_token t.

Lemma is_node_authn_event e (k : key) (ev : event_t) : __is_node_authn e k ev = Ok true -> authn_event ev.
Proof.
  unfold __is_node_authn, authn_event. destruct (FLAG_CMP _ evt_internal), (FLAG_CMP _ evt_token), (FLAG_CMP _ evt_authn);
    simpl; try discriminate. destruct (user_data ev); try discriminate. eauto.
Qed.

Lemma is_node_identity_authn_event e (k : key) (ev : event_t) : __is_node_identity_authn e k ev = Ok true -> authn_event ev.
Proof.
  unfold __is_node_identity_authn, authn_event.
  destruct (FLAG_CMP _ evt_internal), (FLAG_CMP _ evt_token), (FLAG_CMP _ evt_authn);
    simpl; try discriminate. destruct (user_data ev); try discriminate. eauto.
Qed.

Lemma enabled_Ok e (k : key) (ev : event_t) r c : r.2 = Some c -> rule_enabled e k ev r = Ok true -> c e k ev = Ok true.
Proof. intros E. unfold rule_enabled. by rewrite E. Qed.

Lemma into_use_rule n (r : @rule A) : r ∈ key_rules n -> r.1.1 = IN_USE_NODE \/ r.1.1 = IN_USE_ALIAS ->
  (n = 6 \/ n = 7)%nat \/ r.2 = Some __is_node_authn \/ r.2 = Some __is_node_identity_authn.
Proof.
  intros Hr Ht. do 11 (destruct n as [|n];
    [simpl in Hr; rewrite ?elem_of_cons, elem_of_nil in Hr; destruct_or?; subst; simpl in *; auto; discriminate|]).
  by apply elem_of_nil in Hr.
Qed.

(** C36: No peer is used unauthenticated: a key that a sequence of events has brought
    from UNUSED to IN_USE_NODE or IN_USE_ALIAS, with actions that leave the state to the
    engine, has seen an internal authentication event with a token. *)
Theorem used_peer_was_authenticated run_action events m m' :
  leaves_state run_action -> _current_state m = UNUSED -> handle_all run_action events m = Ok m' ->
  _current_state m' = IN_USE_NODE \/ _current_state m' = IN_USE_ALIAS ->
  exists e ev, (e, ev) ∈ events /\ authn_event ev.
Proof.
  intros Hrun Hm Hall Huse.
  assert (forall events n m m', (n < 11)%nat -> _current_state m = Z.of_nat n -> handle_all run_action events m = Ok m' ->
    (n = 6 \/ n = 7)%nat \/ (exists e ev, (e, ev) ∈ events /\ authn_event ev) \/
    ~ (_current_state m' = IN_USE_NODE \/ _current_state m' = IN_USE_ALIAS)) as Hgen.
  { clear - Hrun. intros events. induction events as [|[e ev] events IH]; intros n m m' Hn Hm Hall.
    - injection Hall as <-. rewrite Hm. unfold IN_USE_NODE, IN_USE_ALIAS.
      destruct (decide (n = 6 \/ n = 7)%nat); [by left|right; right; lia].
    - rewrite handle_all_cons in Hall. apply bind_Ok_inv in Hall as (m1 & E & Hall).
      destruct (step_next run_action e n m ev m1 Hrun Hn Hm E) as (s1 & Hm1 & Hs1 & Hr). pose proof (next_bound n s1 Hn Hs1) as Hb.
      destruct (IH s1 m1 m' Hb Hm1 Hall) as [Hu|[(e' & ev' & Hin & Ha)|Hno]].
      + destruct (decide (s1 = n)) as [->|Hne]; [by left|]. destruct (Hr Hne) as (r & Hin & Hen & Ht).
        destruct (into_use_rule n r Hin) as [?|Hc]; [unfold IN_USE_NODE, IN_USE_ALIAS; lia|by left|].
        right. left. exists e, ev. split; [left|].
        destruct Hc as [Hc|Hc]; [eapply is_node_authn_event|eapply is_node_identity_authn_event]; by eapply enabled_Ok.
      + right. left. exists e', ev'. split; [by right|done].
      + by right; right. }
  destruct (Hgen events 0%nat m m') as [[?|?]|[?|?]]; try done; lia.
Qed.

(** ** Message parts on an alias *)

(** An event that carries a message part from the network. *)
Definition part_event (ev : event_t) (p : np_n2n_messagepart_t) : Prop :=
  event_type ev = Z.lor evt_external evt_message /\ user_data ev = D_part p.

Definition channel_open (e : env_t) (p : np_n2n_messagepart_t) : bool :=
  match _np_msgproperty_conf_get_inbound e (part_subject p) with
  | Some c => negb (is_internal c) && negb (bool_decide (audience_type c = NP_MX_AUD_VIRTUAL))
  | None => false
  end.
Definition for_me (e : env_t) (p : np_n2n_messagepart_t) : bool := _np_dhkey_equal (my_node_key e) (part_audience p).

Lemma external_part_some (k : key) (ev : event_t) p : FLAG_CMP (key_type (key_base k)) np_key_type_alias = true ->
  part_event ev p -> external_part k ev = Some p.
Proof. intros Ha [Et Ed]. unfold external_part. by rewrite Ha, Et, Ed. Qed.

(** The rules that do not look at message parts do not apply to them. *)
Lemma part_not_crypted e (k : key) (ev : event_t) p : part_event ev p -> __is_crypted_message e k ev = Ok false.
Proof. intros [Et Ed]. unfold __is_crypted_message. rewrite Ed. by rewrite andb_false_r. Qed.

Lemma part_not_shutdown e (k : key) (ev : event_t) p : part_event ev p -> __is_shutdown_event e k ev = Ok false.
Proof. intros [Et Ed]. unfold __is_shutdown_event. by rewrite Et. Qed.

Lemma part_not_authn e (k : key) (ev : event_t) p : part_event ev p -> __is_node_authn e k ev = Ok false.
Proof. intros [Et Ed]. unfold __is_node_authn. by rewrite Et. Qed.

(** A part from the network on an alias in use.  Something is always done.  A part
    that has outlived its time is never handled or passed on.  User messages go
    to an open channel; node messages are for this node, only from a peer with a
    place in the leafset or the routing table; what is forwarded is for another
    node; and a live part for another node from such a peer is always passed to a
    channel, to the pheromones, to the discovery or on. *)
Theorem alias_part_handling e (k : key) (ev : event_t) p :
  FLAG_CMP (key_type (key_base k)) np_key_type_alias = true -> is_Some (entity_node k) -> part_event ev p ->
  exists target act cond, dispatch e 7 k ev = Ok (Some (target, Some act, cond)) /\
    (__is_msgpart_expired e p = false -> act = __np_alias_destroy \/ act = __np_alias_update) /\
    (act = __np_handle_usr_msg -> __is_msgpart_expired e p = true /\ channel_open e p = true) /\
    (act = __np_handle_np_message ->
       __is_msgpart_expired e p = true /\ alias_is_routed k = true /\ for_me e p = true /\
       is_dht_subject (part_subject p) = true) /\
    (act = __np_handle_np_forward \/ act = __np_handle_np_discovery ->
       __is_msgpart_expired e p = true /\ alias_is_routed k = true /\ for_me e p = false) /\
    (__is_msgpart_expired e p = true -> alias_is_routed k = true -> for_me e p = false ->
       act ∈ [__np_handle_usr_msg; __np_handle_pheromone; __np_handle_np_discovery; __np_handle_np_forward]).
Proof.
  intros Ha Hnode Hev. pose proof (external_part_some k ev p Ha Hev) as Ex.
  assert (exists b, __is_alias_invalid e k ev = Ok b) as [inv Einv].
  { destruct Hnode as [n E]. unfold __is_alias_invalid. rewrite E. repeat case_match; by eexists. }
  unfold dispatch. cbn [key_rules first_rule]. unfold rule_enabled. cbn [fst snd]. rewrite Einv.
  rewrite (part_not_crypted e k ev p Hev), (part_not_shutdown e k ev p Hev), (part_not_authn e k ev p Hev).
  unfold __is_usr_in_message, __is_dht_message, __is_pheromone_message, __is_discovery_message, __is_forward_message.
  rewrite Ex. fold (channel_open e p) (for_me e p). cbn [mbind result_bind].
  destruct (__is_msgpart_expired e p), (channel_open e p), (alias_is_routed k), (is_dht_subject (part_subject p)),
    (for_me e p); simpl; repeat case_match; do 3 eexists;
    (split; [done|]; split_and!; try done; try (by intros ?; auto); try (by intros [?|?]; done);
     intros; rewrite ?elem_of_cons; auto 6).
Qed.

(** ** Leaving *)

(** [evt_noop] is zero: the test for it is passed by every event. *)
Lemma noop_test_always_true t : FLAG_CMP t evt_noop = true.
Proof. unfold FLAG_CMP, evt_noop. by rewrite Z.land_0_r. Qed.

(** A node in use is destroyed only while it is routed and well connected: for a
    marked key, after sixteen connection attempts, or when its token is missing
    or no longer valid.  A node that lost its routes or its link, or that was
    told to leave, has to leave, and as long as it has to leave the rule that
    destroys it is not reached. *)
Theorem node_destroyed_only e (k : key) (ev : event_t) r :
  dispatch e 6 k ev = Ok (Some r) -> r.1.1 = IN_DESTROY ->
  FLAG_CMP (key_type (key_base k)) np_key_type_node = true /\
  (FLAG_CMP (key_type (key_base k)) np_key_type_unknown = true \/
   exists node, entity_node k = Some node /\ (is_in_leafset node = true \/ is_in_routing_table node = true) /\
     (BAD_LINK <= success_avg (info node))%Q /\ (leave_send_at node <= join_send_at node)%Q /\
     (15 < connection_attempts node \/ entity_token k = None \/
      exists t, entity_token k = Some t /\ token_is_valid (np_time_now e) t (token_type t) = false)).
Proof.
  intros D Ht. unfold dispatch in D. cbn [key_rules first_rule] in D. unfold rule_enabled in D. cbn [fst snd] in D.
  repeat (apply bind_Ok_inv in D as ([|] & ? & D); [injection D as <-; try discriminate Ht|]); [|discriminate D].
  match goal with H : __has_to_leave e k ev = _ |- _ => rename H into HL end.
  match goal with H : __is_node_invalid e k ev = _ |- _ => rename H into HI end.
  unfold __has_to_leave in HL. unfold __is_node_invalid in HI. rewrite noop_test_always_true in HL, HI. cbn [negb] in HL, HI.
  destruct (FLAG_CMP (key_type (key_base k)) np_key_type_node) eqn:Hn; cbn [negb andb] in HL; [|discriminate HL].
  split; [done|]. destruct (FLAG_CMP (key_type (key_base k)) np_key_type_unknown) eqn:Hu; [by left|right].
  cbn [negb andb] in HI. destruct (Qltb (np_time_now e) (created_at (key_base k) + BAD_LINK_REMOVE_GRACETIME)) eqn:G1;
    [discriminate HI|]. apply Qltb_ge in G1.
  destruct (Qltb (np_time_now e + NP_PI) (created_at (key_base k) + BAD_LINK_REMOVE_GRACETIME)) eqn:G2.
  { apply Qltb_lt in G2. unfold NP_PI in G2. lra. }
  destruct (entity_node k) as [node|]; [|discriminate HL]. exists node. split; [done|].
  destruct (Qltb (join_send_at node) (leave_send_at node)) eqn:L; [discriminate HL|]. apply Qltb_ge in L.
  injection HL as HL. apply orb_false_iff in HL as [HR HB]. rewrite HB in HI. rewrite HR in HI. apply Qltb_ge in HB.
  split; [by destruct (is_in_leafset node), (is_in_routing_table node); simpl in HR; auto|]. split; [done|]. split; [done|].
  destruct (Z.ltb_spec 15 (connection_attempts node)); [by left|right]. cbn [negb] in HI.
  destruct (entity_token k) as [t|]; [right; exists t; split; [done|]; by destruct (token_is_valid _ t _)|by left].
Qed.

(** ** The conditions are defined *)

(** [sodium_hex2bin] on sixty-four hexadecimal digits, as documented. *)
Hypothesis hex2bin_doc : forall s, length s = 64%nat -> forallb isxdigit s = true -> hex2bin s = Some (decode_pairs s).

(** The components a key has in a state. *)
Definition key_wf (n : nat) (k : key) : Prop :=
  match n with
  | 2%nat | 6%nat | 7%nat => is_Some (entity_node k)
  | 8%nat => is_Some (entity_conf k) /\ is_Some (entity_run k)
  | _ => True
  end.

(** What the senders of events see to. *)
Definition event_wf (ev : event_t) : Prop :=
  (FLAG_CMP (event_type ev) evt_shutdown = true -> FLAG_CMP (event_type ev) evt_external = true ->
     exists t, user_data ev = D_token t) /\
  match user_data ev with
  | D_node n => is_Some (host_key n)
  | D_token t =>
      (FLAG_CMP (token_type t) np_aaatoken_type_handshake = true -> valid_format (issuer t) = true) /\
      (forall b, np_get_data_bin (attributes t) "_np.partner_fp" = Some b -> length b = 32%nat)
  | _ => True
  end.

Definition defined {B} (r : result B) : Prop := exists b, r = Ok b.

Lemma create_from_hash_defined s : defined (np_dhkey_create_from_hash hex2bin s).
Proof using hex2bin_doc.
  rewrite create_from_hash_unfold. destruct (valid_format s) eqn:V; [|by eexists].
  rewrite (np_str_id_valid hex2bin hex2bin_doc s V). by eexists.
Qed.

Lemma handshake_conditions_defined e (k : key) ev : event_wf ev ->
  defined (__is_node_handshake_token e k ev) /\ defined (__is_alias_handshake_token e k ev).
Proof using hex2bin_doc.
  intros [_ W]. unfold __is_node_handshake_token, __is_alias_handshake_token.
  destruct (FLAG_CMP (event_type ev) evt_token && FLAG_CMP (event_type ev) evt_external); [|split; by eexists].
  destruct (user_data ev); try (split; by eexists). destruct W as [W _]. split.
  - destruct (FLAG_CMP (token_type t) np_aaatoken_type_handshake); [|by eexists].
    rewrite (np_str_id_valid hex2bin hex2bin_doc _ (W eq_refl)). by eexists.
  - destruct (Z.eqb_spec (token_type t) np_aaatoken_type_handshake) as [E|]; [|by eexists].
    rewrite E in W. rewrite (np_str_id_valid hex2bin hex2bin_doc _ (W eq_refl)). by eexists.
Qed.

Lemma shutdown_defined e (k : key) ev : event_wf ev -> defined (__is_shutdown_event e k ev).
Proof.
  intros [W _]. unfold __is_shutdown_event. destruct (FLAG_CMP (event_type ev) evt_shutdown); [|by eexists].
  destruct (FLAG_CMP (event_type ev) evt_external); [|by eexists]. destruct (W eq_refl eq_refl) as [t ->].
  destruct (entity_token k); by eexists.
Qed.

Lemma node_conditions_defined e (k : key) ev : event_wf ev ->
  defined (__is_wildcard_key e k ev) /\ defined (__is_node_info e k ev).
Proof.
  intros [_ W]. unfold __is_wildcard_key, __is_node_info, host_key0.
  destruct (FLAG_CMP (event_type ev) evt_internal); [|split; by eexists].
  destruct (user_data ev); try (split; by eexists). destruct W as [h ->]. split; by eexists.
Qed.

Lemma identity_authn_defined e (k : key) ev : event_wf ev -> defined (__is_node_identity_authn e k ev).
Proof using hex2bin_doc.
  intros [_ W]. unfold __is_node_identity_authn. destruct (_ && _ && _); [|by eexists].
  destruct (user_data ev); try by eexists. destruct (FLAG_CMP (token_type t) np_aaatoken_type_identity); [|by eexists].
  assert (defined (np_aaatoken_get_partner_fp t)) as [fp ->]; [|by eexists]. unfold np_aaatoken_get_partner_fp.
  destruct (np_get_data_bin (attributes t) "_np.partner_fp") as [b|] eqn:E.
  - rewrite (proj2 W b eq_refl). by eexists.
  - destruct (hd 0 (issuer t) =? 0); [|apply create_from_hash_defined]. apply create_from_hash_defined.
Qed.

Lemma key_conditions_defined e (k : key) ev : is_Some (entity_node k) ->
  defined (__is_np_messagepart e k ev) /\ defined (__is_alias_invalid e k ev).
Proof.
  intros [n E]. unfold __is_np_messagepart, __is_new_np_messagepart, __is_alias_invalid. rewrite E. split.
  - case_match; [|by eexists]. destruct (user_data ev); by eexists.
  - repeat case_match; by eexists.
Qed.

Lemma channel_conditions_defined e (k : key) ev : is_Some (entity_conf k) /\ is_Some (entity_run k) ->
  defined (__is_sender_token_available e k ev) /\ defined (__is_receiver_token_available e k ev).
Proof.
  intros [[c E1] [r E2]]. unfold __is_sender_token_available, __is_receiver_token_available. rewrite E1, E2.
  split; [by eexists|]. unfold __is_internal_message_event. cbn [mbind result_bind]. case_match; by eexists.
Qed.

Lemma discovery_defined e (k : key) (ev : event_t) : defined (__is_discovery_message e k ev).
Proof.
  unfold __is_discovery_message, __is_forward_message. cbn [mbind result_bind].
  destruct (external_part k ev) as [p|]; [|by eexists]. destruct (alias_is_routed k && _ && _); by eexists.
Qed.

(** Every condition of the table yields a verdict on a key with the components of
    its state and an event as its senders build it; but a handshake token from
    the network whose issuer is not sixty-four hexadecimal digits fails the
    assertion in [np_str_id], before its validity is looked at. *)
Theorem conditions_defined n (r : @rule A) c e (k : key) ev :
  r ∈ key_rules n -> r.2 = Some c -> key_wf n k -> event_wf ev ->
  defined (c e k ev) /\
  (forall t, event_type ev = Z.lor evt_external evt_token -> token_type t = np_aaatoken_type_handshake ->
     hex2bin (take 64 (issuer t)) = None ->
     __is_alias_handshake_token e k (Event (__source_dhkey ev) (target_dhkey ev) (event_type ev) (D_token t)) = Err Assert_failed).
Proof using hex2bin_doc.
  intros Hr Hc Wk We. split.
  - destruct (handshake_conditions_defined e k ev We), (node_conditions_defined e k ev We).
    pose proof (shutdown_defined e k ev We). pose proof (identity_authn_defined e k ev We).
    do 11 (destruct n as [|n];
      [simpl in Hr; rewrite ?elem_of_cons, elem_of_nil in Hr; simpl in Wk;
       try (pose proof (key_conditions_defined e k ev Wk) as [? ?]);
       try (pose proof (channel_conditions_defined e k ev Wk) as [? ?]);
       destruct_or?; subst; simpl in Hc; try done; injection Hc as <-; first [assumption|by eexists|apply discovery_defined|
         unfold __is_node_token, __is_node_invalid, __has_to_leave, __is_node_authn, __is_alias_node_info, __is_identity_aaatoken,
           __is_no_token_available; repeat case_match; by eexists]|]).
    by apply elem_of_nil in Hr.
  - intros t Et Ht Hx. unfold __is_alias_handshake_token. cbn [event_type user_data]. rewrite Et, Ht. cbn.
    unfold np_str_id. by rewrite Hx.
Qed.
End Theorems.

(** ** Concrete keys and events *)

#[local] Instance example_ops : TokenOps unit := {|
  blake2b d := replicate 32 (u8 (zsum d));
  bin2hex := bin2hex_ref;
  hex2bin := hex2bin_ref;
  crypto_sign_verify_detached := example_verify;
  _np_aaatoken_get_hash := example_hash;
  __np_aaatoken_get_attributes_hash _ := [9];
  np_get_data_size_ok _ := true;
  np_get_data_uint _ _ := None;
  np_get_data_bin _ _ := None;
|}.

Definition idle_action (a : key_action) (m : @np_util_statemachine_t (@key_t unit)) (ev : @np_util_event_t unit) :=
  Ok m.

Definition example_base (type : Z) : np_key_t := Key (key_of 5) type dhkey_zero 0 0 true None.
Definition example_node (attempts : Z) : node_t :=
  NodeObj (Node 0 1 (Some [49]) (Some [51]) 0) (Some [97]) attempts true false 0 0 (fun _ => false).
Definition example_key (type : Z) (node : option node_t) : @key_t unit :=
  KeyObj (example_base type) None node None None (fun _ => false) (fun _ => false).
Definition example_env (now : Q) : env_t := Env now (key_of 1) (fun _ => true) (fun _ => None).
Definition example_event (type : Z) (d : @user_data_t unit) : @np_util_event_t unit := Event (key_of 5) (key_of 5) type d.

(** A node is announced, authenticated and later runs out of connection attempts. *)
Definition example_events : list (env_t * @np_util_event_t unit) :=
  [(example_env 1, example_event evt_internal (D_node (example_node 0)));
   (example_env 2, example_event (Z.lor evt_internal (Z.lor evt_token evt_authn)) (D_token (example_token [7])))].
Definition example_machine (s : Z) (k : @key_t unit) : @np_util_statemachine_t (@key_t unit) := Machine 0 s k.
Definition example_final : @np_util_statemachine_t (@key_t unit) :=
  match handle_all idle_action example_events (example_machine UNUSED (example_key np_key_type_node None)) with
  | Ok m => m
  | Err _ => example_machine UNUSED (example_key np_key_type_node None)
  end.

Lemma idle_leaves_state : leaves_state idle_action.
Proof. by intros a m ev m' [= <-]. Qed.

Lemma key_lifecycle_witness :
  handle_all idle_action example_events (example_machine UNUSED (example_key np_key_type_node None)) = Ok example_final /\
  exists s, _current_state example_final = Z.of_nat s /\ s ∈ reach 0 /\ s <> 4%nat.
Proof.
  assert (handle_all idle_action example_events (example_machine UNUSED (example_key np_key_type_node None)) = Ok example_final) as E
    by (vm_compute; reflexivity).
  pose proof (key_lifecycle idle_action example_events (example_machine UNUSED (example_key np_key_type_node None)) 0
    idle_leaves_state ltac:(lia) ltac:(lia) eq_refl) as Hk.
  rewrite E in Hk. split; [exact E|exact Hk].
Defined.

Lemma used_peer_was_authenticated_witness :
  _current_state example_final = IN_USE_NODE /\ exists e ev, (e, ev) ∈ example_events /\ authn_event ev.
Proof.
  assert (_current_state example_final = IN_USE_NODE) as E by (vm_compute; reflexivity). split; [exact E|].
  apply (used_peer_was_authenticated idle_action example_events
    (example_machine UNUSED (example_key np_key_type_node None)) example_final);
    [apply idle_leaves_state|reflexivity|vm_compute; reflexivity|left; exact E].
Defined.

Definition example_part : np_n2n_messagepart_t := Part [1] [2] 0 (key_of 77) (key_of 9) 0 60.
Definition example_part_event : @np_util_event_t unit := example_event (Z.lor evt_external evt_message) (D_part example_part).

Lemma alias_part_handling_witness :
  exists target act cond,
    dispatch (example_env 5) 7 (example_key np_key_type_alias (Some (example_node 0))) example_part_event
      = Ok (Some (target, Some act, cond)) /\ act = __np_handle_np_forward.
Proof.
  destruct (alias_part_handling (example_env 5) (example_key np_key_type_alias (Some (example_node 0)))
    example_part_event example_part) as (target & act & cond & D & _); [reflexivity|by eexists|by split|].
  exists target, act, cond. split; [exact D|]. vm_compute in D. by injection D as _ <- _.
Defined.

Lemma node_destroyed_only_witness :
  exists r, dispatch (example_env 400) 6 (example_key np_key_type_node (Some (example_node 16))) (example_event evt_noop D_null)
      = Ok (Some r) /\ r.1.1 = IN_DESTROY /\
    FLAG_CMP (key_type (example_base np_key_type_node)) np_key_type_node = true.
Proof.
  eexists. split; [vm_compute; reflexivity|]. split; [reflexivity|].
  apply (node_destroyed_only (example_env 400) (example_key np_key_type_node (Some (example_node 16)))
    (example_event evt_noop D_null) _ eq_refl eq_refl).
Defined.

Lemma conditions_defined_witness :
  defined (__is_alias_invalid (example_env 400) (example_key np_key_type_alias (Some (example_node 0))) (example_event evt_noop D_null)).
Proof.
  apply (@conditions_defined unit example_ops hex2bin_ref_doc 7 (IN_DESTROY, Some __np_alias_destroy, Some __is_alias_invalid) __is_alias_invalid
    (example_env 400) (example_key np_key_type_alias (Some (example_node 0))) (example_event evt_noop D_null)).
  - do 6 right. left.
  - reflexivity.
  - by eexists.
  - split; [intros E; vm_compute in E; discriminate E|exact I].
Defined.

(** A wildcard is given up ten seconds after it was made. *)
Lemma wildcard_ten_seconds e (k : @key_t unit) ev : FLAG_CMP (key_type (key_base k)) np_key_type_wildcard = true ->
  __is_wildcard_invalid e k ev = Ok true <-> (created_at (key_base k) + 10 < np_time_now e)%Q.
Proof. intros W. unfold __is_wildcard_invalid. rewrite W. rewrite <- Qltb_lt. simpl. by split; [intros [= ->]|intros ->]. Qed.
