(* ===== verification/Chunk.v ===== *)
(** * Splitting messages into packets and putting them together again:
    [src/np_message.c], [src/np_messagepart.c], [_np_node_build_network_packet]
    of [src/core/np_comp_node.c]

    A message in binary form is nonce, mac, header and body; the body is a whole
    number of chunks.  Each packet repeats mac, header and nonce; the first two
    bytes of its mac, a little-endian number, are advanced by the number of the
    chunk, which is how the receiver finds its place.  Pointers into a message or
    packet are modelled by the bytes they lead to; the references a message holds
    on its parts are counted. *)
From Stdlib Require Import ZArith Lia QArith.
From stdpp Require Import prelude.
From S2P Require Import Prelude Real.

Local Open Scope Z_scope.

Definition MSG_INSTRUCTIONS_SIZE : Z := 22.
Definition MSG_MAC_SIZE : Z := 16.
Definition MSG_NONCE_SIZE : Z := 12.
Definition MSG_HEADER_SIZE : Z := 96.
Definition MSG_CHUNK_SIZE_1024 : Z := 1024.

Definition fixed_header_bytes : Z := MSG_NONCE_SIZE + MSG_MAC_SIZE + MSG_HEADER_SIZE.
Definition chunk_bytes : Z := MSG_CHUNK_SIZE_1024 - fixed_header_bytes.

(** The fields of the header, by their place in it. *)
Definition _msg_header_dhkey_bytes : Z := 32.
Definition _msg_header_uuid_bytes : Z := 16.
Definition _msg_header_time_bytes : Z := 8.
Definition _msg_header_ttl_bytes : Z := 4.
Definition _msg_header_parts_bytes : Z := 2.
Definition _msg_header_flags_bytes : Z := 2.
Definition parts_offset : Z :=
  2 * _msg_header_dhkey_bytes + _msg_header_uuid_bytes + _msg_header_time_bytes + _msg_header_ttl_bytes.

(** ** Bytes *)

Definition le16 (b : list Z) : Z := nth 0 b 0 + 256 * nth 1 b 0.
Definition put16 (x : Z) (b : list Z) : list Z := [Z.land (u16 x) 255; u16 x ≫ 8] ++ drop 2 b.

(** [sodium_add], [sodium_sub] and [sodium_compare] on two bytes. *)
Definition sodium_add16 (a : list Z) (x : Z) : list Z := put16 (le16 a + x) a.
Definition sodium_sub16 (a : list Z) (x : Z) : list Z := put16 (le16 a - x) a.
Definition sodium_compare16 (a b : list Z) : Z :=
  if le16 a <? le16 b then -1 else if le16 a =? le16 b then 0 else 1.

(** [memcpy (.., &buffer[from], n)] *)
Definition slice (from n : Z) (b : list Z) : result (list Z) :=
  if decide (0 <= from /\ 0 <= n /\ from + n <= Z.of_nat (length b))
  then Ok (take (Z.to_nat n) (drop (Z.to_nat from) b)) else Err Bad_access.

(** [struct np_n2n_messagepart_s] with [struct np_e2e_messagepart_s]; the header
    holds subject, audience, uuid, tstamp, ttl, parts and flags. *)
Record np_n2n_messagepart_t := MsgPart {
  chunk_offset : Z;
  is_forwarded_part : bool;
  mac_n : list Z;
  seq : Z;
  hop_count : Z;
  part_mac_e : list Z;
  msg_header : list Z;
  part_body : list Z;
  part_nonce : list Z;
}.

Definition header_parts (header : list Z) : Z := le16 (drop (Z.to_nat parts_offset) header).
Definition part_parts (p : np_n2n_messagepart_t) : Z := header_parts (msg_header p).

Inductive np_e2e_messagestate := msgstate_unknown | msgstate_raw | msgstate_binary | msgstate_chunked.
#[export] Instance messagestate_eq_dec : EqDecision np_e2e_messagestate.
Proof. solve_decision. Defined.

(** [struct np_e2e_message_s]: [header], [mac_e], [nonce] are what the header
    pointers lead to; [refs] counts the references held on parts. *)
Record np_e2e_message_t := Message {
  msg_chunk_counter : Z;
  state : np_e2e_messagestate;
  nonce : list Z;
  mac_e : list Z;
  header : list Z;
  binary_message : list Z;
  msg_chunks : option (list (option np_n2n_messagepart_t));
  refs : Z;
}.

(** [_np_message_t_new] *)
Definition _np_message_t_new : np_e2e_message_t := Message 0 msgstate_unknown [] [] [] [] None 0.

(** ** The size of a message *)

(** [new_size * (..) + fixed_header_bytes] of [_np_message_create] and [_np_message_setbody]. *)
Definition message_length (object_size : Z) : Z :=
  let new_size := object_size / chunk_bytes in
  let new_size := if object_size mod chunk_bytes =? 0 then new_size else new_size + 1 in
  new_size * chunk_bytes + fixed_header_bytes.

(** [*msg->parts = ..] writes into the binary message. *)
Definition set_parts (bm : list Z) (parts : Z) : list Z :=
  let at_ := Z.to_nat (MSG_NONCE_SIZE + MSG_MAC_SIZE + parts_offset) in
  take at_ bm ++ put16 parts (drop at_ bm).

(** The cast to [uint16_t] comes before the division. *)
Definition chunks_of (binary_length : Z) : Z := u16 (binary_length - fixed_header_bytes) / chunk_bytes.

(** [__set_header_pointer] *)
Definition __set_header_pointer (m : np_e2e_message_t) : result np_e2e_message_t :=
  n ← slice 0 MSG_NONCE_SIZE (binary_message m);
  c ← slice MSG_NONCE_SIZE MSG_MAC_SIZE (binary_message m);
  h ← slice (MSG_NONCE_SIZE + MSG_MAC_SIZE) MSG_HEADER_SIZE (binary_message m);
  Ok (Message (msg_chunk_counter m) (state m) n c h (binary_message m) (msg_chunks m) (refs m)).

Definition _np_message_calculate_chunking (m : np_e2e_message_t) : result np_e2e_message_t :=
  _ ← c_assert (bool_decide (state m = msgstate_binary));
  let chunks := chunks_of (Z.of_nat (length (binary_message m))) in
  let parts := if UINT16_MAX <? chunks then UINT16_MAX else chunks in
  __set_header_pointer (Message (msg_chunk_counter m) (state m) (nonce m) (mac_e m) (header m)
    (set_parts (binary_message m) parts) (msg_chunks m) (refs m)).

(** ** Sending *)

(** One part; its body is what [bin_body_ptr] leads to when the packet is built. *)
Definition make_part (m : np_e2e_message_t) (i : nat) : result np_n2n_messagepart_t :=
  b ← slice (fixed_header_bytes + chunk_bytes * Z.of_nat i) chunk_bytes (binary_message m);
  Ok (MsgPart (Z.of_nat i) false [] 0 0 (mac_e m) (header m) b (nonce m)).

Definition _np_message_serialize_chunked (m : np_e2e_message_t) : result np_e2e_message_t :=
  _ ← c_assert (bool_decide (state m = msgstate_binary));
  _ ← c_assert (bool_decide (msg_chunks m = None));
  chunks ← for_range 0 (Z.to_nat (header_parts (header m)))
             (fun i acc => p ← make_part m i; Ok (acc ++ [Some p])) [];
  Ok (Message (msg_chunk_counter m) msgstate_chunked (nonce m) (mac_e m) (header m) (binary_message m) (Some chunks)
        (refs m + Z.of_nat (length chunks))).

(** The packet of a part.  [msg_chunk] is the part's memory: a new block for a part
    of one's own (only the mac of the transport encryption is not written), the
    received packet for a part that is forwarded. *)
Definition _np_node_build_network_packet (msg_chunk : list Z) (p : np_n2n_messagepart_t) : list Z :=
  let instructions := take 16 msg_chunk ++
    [Z.land (seq p) 255; Z.land (seq p ≫ 8) 255; Z.land (seq p ≫ 16) 255; Z.land (seq p ≫ 24) 255] ++
    [Z.land (hop_count p) 255; Z.land (hop_count p ≫ 8) 255] in
  if is_forwarded_part p then instructions ++ drop 22 msg_chunk
  else
    let mac := sodium_add16 (part_mac_e p) (chunk_offset p) in
    let n := if 0 <? chunk_offset p then sodium_sub16 (part_nonce p) (chunk_offset p) else part_nonce p in
    instructions ++ mac ++ msg_header p ++ part_body p ++ n.

(** ** Receiving *)

Definition le32 (b : list Z) : Z := le16 b + 65536 * le16 (drop 2 b).

Definition _np_message_deserialize_header_and_instructions (buffer : list Z) : result np_n2n_messagepart_t :=
  m ← slice 0 MSG_MAC_SIZE buffer;
  s ← slice MSG_MAC_SIZE 4 buffer;
  h ← slice (MSG_MAC_SIZE + 4) 2 buffer;
  mac ← slice MSG_INSTRUCTIONS_SIZE MSG_MAC_SIZE buffer;
  head ← slice (MSG_INSTRUCTIONS_SIZE + MSG_MAC_SIZE) MSG_HEADER_SIZE buffer;
  b ← slice (MSG_INSTRUCTIONS_SIZE + MSG_MAC_SIZE + MSG_HEADER_SIZE) chunk_bytes buffer;
  n ← slice (MSG_INSTRUCTIONS_SIZE + MSG_CHUNK_SIZE_1024 - MSG_NONCE_SIZE) MSG_NONCE_SIZE buffer;
  Ok (MsgPart 0 false m (le32 s) (le16 h) mac head b n).

(** [np_messagepart_clone]: a copy of the packet read again. *)
Definition np_messagepart_clone (to_clone : np_n2n_messagepart_t) (msg_chunk : list Z) : result np_n2n_messagepart_t :=
  p ← _np_message_deserialize_header_and_instructions msg_chunk;
  Ok (MsgPart (chunk_offset p) (is_forwarded_part to_clone) (mac_n p) (seq p) (hop_count to_clone) (part_mac_e p)
        (msg_header p) (part_body p) (part_nonce p)).

Inductive np_return := np_ok | np_operation_failed.

Definition set_chunks (m : np_e2e_message_t) (c : list (option np_n2n_messagepart_t)) (counter r : Z) : np_e2e_message_t :=
  Message counter (state m) (nonce m) (mac_e m) (header m) (binary_message m) (Some c) r.

(** The offset of the flags, the last field of the header. *)
Definition flags_offset : nat := Z.to_nat (parts_offset + _msg_header_parts_bytes).

(** A reference to a part is given back. *)
Definition unref_part (m : np_e2e_message_t) : np_e2e_message_t :=
  Message (msg_chunk_counter m) (state m) (nonce m) (mac_e m) (header m) (binary_message m) (msg_chunks m) (refs m - 1).

(** The header pointers of the message lead into a part. *)
Definition use_header (m : np_e2e_message_t) (p : np_n2n_messagepart_t) : np_e2e_message_t :=
  Message (msg_chunk_counter m) (state m) (part_nonce p) (part_mac_e p) (msg_header p) (binary_message m) (msg_chunks m) (refs m).

(** As [use_header], but the pointer to the flags stays. *)
Definition use_header_but_flags (m : np_e2e_message_t) (p : np_n2n_messagepart_t) : np_e2e_message_t :=
  Message (msg_chunk_counter m) (state m) (part_nonce p) (part_mac_e p)
    (take flags_offset (msg_header p) ++ drop flags_offset (header m)) (binary_message m) (msg_chunks m) (refs m).

(** The recursion puts a part that had to make room in its place again; [fuel]
    bounds its depth.  The result: the message, the return value and the count. *)
Fixpoint add_chunk (fuel : nat) (m : np_e2e_message_t) (p : np_n2n_messagepart_t)
    : result (np_e2e_message_t * np_return * Z) :=
  match fuel with
  | O => Err Diverges
  | S fuel' =>
      _ ← c_assert (bool_decide (state m = msgstate_unknown) || bool_decide (state m = msgstate_chunked));
      let m := Message (msg_chunk_counter m) msgstate_chunked (nonce m) (mac_e m) (header m) (binary_message m)
                 (msg_chunks m) (refs m + 1) in
      match msg_chunks m with
      | None =>
          c ← wr (replicate (Z.to_nat (part_parts p)) None) 0 (Some p);
          let m := use_header (set_chunks m c (u16 (msg_chunk_counter m + 1)) (refs m)) p in
          Ok (m, np_ok, msg_chunk_counter m)
      | Some c =>
          let cmp_result := sodium_compare16 (part_mac_e p) (mac_e m) in
          if cmp_result =? 0 then
            Ok (set_chunks m c (msg_chunk_counter m) (refs m - 1), np_operation_failed, msg_chunk_counter m)
          else if cmp_result <? 0 then
            tmp ← rd c 0;
            c ← wr c 0 (Some p);
            let m := use_header_but_flags (set_chunks m c (msg_chunk_counter m) (refs m)) p in
            match tmp with
            | None => Err Bad_access
            | Some tmp =>
                '(m, _, _) ← add_chunk fuel' m tmp;
                let m := unref_part m in
                Ok (m, np_ok, msg_chunk_counter m)
            end
          else
            let chunk_index_new := u16 (le16 (part_mac_e p) - le16 (mac_e m)) in
            slot ← rd c chunk_index_new;
            match slot with
            | Some tmp =>
                if bool_decide (part_mac_e p = part_mac_e tmp) then
                  Ok (set_chunks m c (msg_chunk_counter m) (refs m - 1), np_operation_failed, msg_chunk_counter m)
                else
                  c ← wr c chunk_index_new (Some p);
                  '(m, _, _) ← add_chunk fuel' (set_chunks m c (msg_chunk_counter m) (refs m)) tmp;
                  let m := unref_part m in
                  Ok (m, np_ok, msg_chunk_counter m)
            | None =>
                c ← wr c chunk_index_new (Some p);
                let m := set_chunks m c (u16 (msg_chunk_counter m + 1)) (refs m) in
                Ok (m, np_ok, msg_chunk_counter m)
            end
      end
  end.

(** The copy of the chunks; its end: all of them copied, or one is missing.  The
    header pointers lead into the binary message once the first is copied. *)
Fixpoint join_chunks (n : nat) (i : nat) (c : list (option np_n2n_messagepart_t)) (acc : list Z) : result (list Z * bool) :=
  match n with
  | O => Ok (acc, true)
  | S n' =>
      p ← rd c (Z.of_nat i);
      match p with
      | None => Ok (acc, false)
      | Some p =>
          let acc := if (i =? 0)%nat then acc ++ part_nonce p ++ part_mac_e p ++ msg_header p else acc in
          join_chunks n' (S i) c (acc ++ part_body p)
      end
  end.

(** When a chunk is missing the message stays chunked; of the binary message,
    already allocated in full, the bytes written so far are given. *)
Definition _np_message_deserialize_chunks (m : np_e2e_message_t) : result (np_e2e_message_t * bool) :=
  _ ← c_assert (bool_decide (state m = msgstate_chunked));
  match msg_chunks m with
  | None => Err Assert_failed
  | Some c =>
      p0 ← rd c 0;
      match p0 with
      | None => Err Bad_access
      | Some p0 =>
          let msg_parts := part_parts p0 in
          _ ← c_assert (0 <? msg_parts);
          '(bm, complete) ← join_chunks (Z.to_nat msg_parts) 0 c [];
          m ← __set_header_pointer (Message (msg_chunk_counter m) (state m) (nonce m) (mac_e m) (header m) bm
                                      (msg_chunks m) (refs m));
          if (complete : bool) then
            Ok (Message (msg_chunk_counter m) msgstate_binary (nonce m) (mac_e m) (header m) bm None (refs m - msg_parts), true)
          else Ok (m, false)
      end
  end.

(** ** Expiry *)

(** [_np_message_get_expiry], on the timestamp and ttl of the header *)
Definition _np_message_get_expiry (tstamp : Q) (ttl : Z) : Q := tstamp + inject_Z ttl.

Definition _np_message_is_expired (now tstamp : Q) (ttl : Z) : bool :=
  let remaining_ttl := (_np_message_get_expiry tstamp ttl - now)%Q in Qle_bool remaining_ttl 0.

(** The order of parts, on their [part] numbers: the higher first. *)
Definition _np_messagepart_cmp (part_1 part_2 : Z) : Z :=
  if part_1 <? part_2 then 1 else if part_2 <? part_1 then -1 else 0.
