(* ===== verification/ChunkThms.v ===== *)
(** * Chunks: what is split is put together again, in any order of arrival

    A sender's message goes through [_np_message_calculate_chunking],
    [_np_message_serialize_chunked] and [_np_node_build_network_packet]; the
    receiver reads each packet, adds it with [add_chunk] and finally calls
    [_np_message_deserialize_chunks].  The invariant of the receiver: the slots
    hold the numbers of the chunks seen, none twice, and the chunk in slot [p]
    has a number of at least [p] above that of the base chunk. *)
From Stdlib Require Import ZArith Lia QArith.
From stdpp Require Import prelude.
From S2P Require Import Prelude Real Chunk.

Local Open Scope Z_scope.

(** ** Bytes *)

Definition byte_list (b : list Z) : Prop := Forall (in_u 8) b.

Lemma le16_put16 x b : le16 (put16 x b) = u16 x.
Proof.
  unfold le16, put16. simpl. pose proof (u16_range x) as [H1 H2].
  change 255 with (Z.ones 8). rewrite Z.land_ones, Z.shiftr_div_pow2 by lia.
  change (2 ^ 16) with 65536 in H2. change (2 ^ 8) with 256. divlia.
Qed.

Lemma length_put16 x b : (2 <= length b)%nat -> length (put16 x b) = length b.
Proof. intros H. unfold put16. simpl. rewrite length_drop. lia. Qed.

Lemma drop_put16 x b : drop 2 (put16 x b) = drop 2 b.
Proof. reflexivity. Qed.

Lemma le16_range b : byte_list b -> in_u 16 (le16 b).
Proof.
  intros Hb. unfold le16, in_u.
  assert (forall k, 0 <= nth k b 0 < 256) as Hn.
  { intros k. destruct (nth_in_or_default k b 0) as [Hin| ->]; [|lia].
    apply list_elem_of_In in Hin. by eapply Forall_forall in Hb. }
  pose proof (Hn 0%nat). pose proof (Hn 1%nat). change (2 ^ 16) with 65536. lia.
Qed.

Lemma put16_le16 b : byte_list b -> (2 <= length b)%nat -> put16 (le16 b) b = b.
Proof.
  intros Hb Hl. pose proof (le16_range b Hb) as Hr. unfold put16. rewrite (u16_id _ Hr).
  destruct b as [|x [|y b]]; [simpl in *; lia | simpl in *; lia |].
  apply Forall_cons in Hb as [Hx Hb]. apply Forall_cons in Hb as [Hy _].
  unfold le16. simpl. unfold in_u in Hx, Hy. change (2 ^ 8) with 256 in *.
  change 255 with (Z.ones 8). rewrite Z.land_ones, Z.shiftr_div_pow2 by lia.
  change (2 ^ 8) with 256. f_equal; [divlia | f_equal; divlia].
Qed.

Lemma slice_ok from n b :
  0 <= from -> 0 <= n -> from + n <= Z.of_nat (length b) ->
  slice from n b = Ok (take (Z.to_nat n) (drop (Z.to_nat from) b)).
Proof. intros. unfold slice. by rewrite decide_True. Qed.

(** The middle of three. *)
Lemma slice_middle pre mid post from n :
  from = Z.of_nat (length pre) -> n = Z.of_nat (length mid) -> slice from n (pre ++ mid ++ post) = Ok mid.
Proof.
  intros -> ->. rewrite slice_ok by (rewrite ?length_app; lia).
  by rewrite !Nat2Z.id, drop_app_length, take_app_length.
Qed.

Lemma slice_front mid post n : n = Z.of_nat (length mid) -> slice 0 n (mid ++ post) = Ok mid.
Proof. intros Hn. by apply (slice_middle []). Qed.

Lemma slice_past pre b from n :
  Z.of_nat (length pre) <= from -> slice from n (pre ++ b) = slice (from - Z.of_nat (length pre)) n b.
Proof.
  intros Hf. unfold slice. rewrite length_app. case_decide as H.
  - rewrite decide_True by lia. rewrite drop_app_ge by lia. do 3 f_equal. lia.
  - by rewrite decide_False by lia.
Qed.

Lemma sodium_compare16_cases a b :
  sodium_compare16 a b = if decide (le16 a < le16 b) then -1 else if decide (le16 a = le16 b) then 0 else 1.
Proof.
  unfold sodium_compare16. destruct (le16 a <? le16 b) eqn:E; [apply Z.ltb_lt in E | apply Z.ltb_ge in E].
  - by rewrite decide_True.
  - rewrite decide_False by lia. destruct (le16 a =? le16 b) eqn:E2; [apply Z.eqb_eq in E2 | apply Z.eqb_neq in E2].
    + by rewrite decide_True.
    + by rewrite decide_False.
Qed.

(** ** Lists of numbers that are as large as their place *)

Lemma sum_list_ge (a b : list nat) : Forall2 le a b -> (sum_list a <= sum_list b)%nat.
Proof. induction 1; simpl; lia. Qed.

Lemma ge_same_sum (a b : list nat) : Forall2 le a b -> sum_list a = sum_list b -> a = b.
Proof.
  induction 1 as [|x y a b Hxy Hab IH]; simpl; [done|]. intros Hs.
  pose proof (sum_list_ge a b Hab). f_equal; [lia | apply IH; lia].
Qed.

Lemma perm_ge_is_seq n (l : list nat) :
  l ≡ₚ List.seq 0 n -> (forall p i, l !! p = Some i -> (p <= i)%nat) -> l = List.seq 0 n.
Proof.
  intros Hp Hge. symmetry. apply ge_same_sum; [|by rewrite Hp].
  apply Forall2_same_length_lookup_2; [by rewrite Hp|].
  intros p a b Ha Hb. apply lookup_seq in Ha as [-> _]. by apply Hge.
Qed.

(** ** Filling slots *)

Definition filled {A} (a : list (option A)) : list A := omap id a.

Lemma filled_insert {A} (a : list (option A)) p x y :
  a !! p = Some y -> from_option (fun j => [j]) [] y ++ filled (<[p:=Some x]> a) ≡ₚ x :: filled a.
Proof.
  intros Hp. unfold filled. rewrite <- (take_drop_middle a p y Hp) at 2.
  rewrite insert_take_drop by (by eapply lookup_lt_Some).
  rewrite !omap_app. simpl. destruct y as [j|]; simpl; [solve_Permutation | by rewrite Permutation_middle].
Qed.

Lemma filled_replicate {A} n : filled (replicate n (None : option A)) = [].
Proof. induction n; simpl; done. Qed.

Lemma filled_cons {A} x (a : list (option A)) :
  filled (x :: a) = from_option (fun y => [y]) [] x ++ filled a.
Proof. by destruct x. Qed.

Lemma length_filled {A} (a : list (option A)) : (length (filled a) <= length a)%nat.
Proof. induction a as [|[x|] a IH]; [done | |]; rewrite filled_cons; simpl; lia. Qed.

Lemma filled_full {A} (a : list (option A)) : length (filled a) = length a -> a = Some <$> filled a.
Proof.
  induction a as [|[x|] a IH]; [done | |]; rewrite filled_cons; simpl; intros Hl.
  - f_equal. apply IH. lia.
  - pose proof (length_filled a). lia.
Qed.

(** ** Receiving the chunks of one message *)

Section receiver.
Context (n : nat) (mac hdr : list Z) (part_of : nat -> np_n2n_messagepart_t).

(** What the sender's packets have in common. *)
Context (Hmac : forall i, (i < n)%nat -> le16 (part_mac_e (part_of i)) = le16 mac + Z.of_nat i).
Context (Hhdr : forall i, (i < n)%nat -> msg_header (part_of i) = hdr).
Context (Hparts : header_parts hdr = Z.of_nat n).
Context (Hrange : 0 <= le16 mac /\ le16 mac + Z.of_nat n <= 65536 /\ Z.of_nat n <= UINT16_MAX).

Definition slots (a : list (option nat)) : list (option np_n2n_messagepart_t) :=
  fmap (M:=list) (fmap (M:=option) part_of) a.

(** The slots hold [a]; the chunks of [seen] have arrived. *)
Record receiving (a : list (option nat)) (base : nat) (seen : list nat) (m : np_e2e_message_t) : Prop := {
  rc_state : state m = msgstate_chunked;
  rc_chunks : msg_chunks m = Some (slots a);
  rc_length : length a = n;
  rc_base : a !! 0%nat = Some (Some base);
  rc_seen : filled a ≡ₚ seen;
  rc_place : forall p i, a !! p = Some (Some i) -> (base + p <= i)%nat;
  rc_bound : forall i, i ∈ seen -> (i < n)%nat;
  rc_mac : mac_e m = part_mac_e (part_of base);
  rc_header : header m = hdr;
  rc_counter : msg_chunk_counter m = Z.of_nat (length seen);
}.

Lemma base_seen a base seen m : receiving a base seen m -> base ∈ seen.
Proof using Type.
  intros H. rewrite <- (rc_seen _ _ _ _ H). apply list_elem_of_omap.
  exists (Some base). split; [|done]. by eapply list_elem_of_lookup_2, rc_base.
Qed.

Lemma flags_kept (h : list Z) : take flags_offset h ++ drop flags_offset h = h.
Proof using Type. apply take_drop. Qed.

Lemma rd_slot a p x : a !! p = Some x -> rd (slots a) (Z.of_nat p) = Ok (fmap part_of x).
Proof using Type.
  intros Hp. unfold slots. apply rd_lookup. split; [apply Nat2Z.is_nonneg|]. by rewrite Nat2Z.id, list_lookup_fmap, Hp.
Qed.

Lemma wr_slot a p i :
  (p < length a)%nat ->
  wr (slots a) (Z.of_nat p) (Some (part_of i)) = Ok (slots (<[p:=Some i]> a)).
Proof using Type.
  intros Hp. clear -Hp. unfold slots. rewrite wr_ok by (rewrite length_fmap; lia).
  by rewrite Nat2Z.id, list_fmap_insert.
Qed.

Lemma rd_slot0 a x : a !! 0%nat = Some x -> rd (slots a) 0 = Ok (fmap part_of x).
Proof using Type. apply (rd_slot a 0). Qed.

Lemma wr_slot0 a i : (0 < length a)%nat -> wr (slots a) 0 (Some (part_of i)) = Ok (slots (<[0%nat:=Some i]> a)).
Proof using Type. apply (wr_slot a 0). Qed.

Lemma length_seen seen : NoDup seen -> (forall k, k ∈ seen -> (k < n)%nat) -> (length seen <= n)%nat.
Proof using Type.
  intros Hnd Hb. rewrite <- (length_seq n 0). apply submseteq_length, NoDup_submseteq; [done|].
  intros k Hk. apply elem_of_seq. pose proof (Hb k Hk). lia.
Qed.

Lemma receiving_perm a base seen seen' m : seen ≡ₚ seen' -> receiving a base seen m -> receiving a base seen' m.
Proof using Type.
  intros Hp [? ? ? ? Hs ? Hb ? ? Hc]. split; try done.
  - by rewrite Hs.
  - intros i. rewrite <- Hp. apply Hb.
  - by rewrite Hc, Hp.
Qed.

(** The chunk [j] in slot [p] is exchanged for [i]. *)
Lemma filled_exchange (a : list (option nat)) p i j rest :
  a !! p = Some (Some j) -> filled a ≡ₚ j :: rest -> filled (<[p:=Some i]> a) ≡ₚ i :: rest.
Proof using Type.
  intros Hp Hs. apply (Permutation_cons_inv (a := j)).
  pose proof (filled_insert a p i (Some j) Hp) as H. simpl in H.
  rewrite H, Hs. apply Permutation_swap.
Qed.

Lemma place_insert (a : list (option nat)) base p i :
  (forall q j, a !! q = Some (Some j) -> (base + q <= j)%nat) -> (base + p <= i)%nat ->
  forall q j, <[p:=Some i]> a !! q = Some (Some j) -> (base + q <= j)%nat.
Proof using Type.
  intros Ha Hi q j. destruct (decide (p = q)) as [->|].
  - intros H. apply list_lookup_insert_Some in H as [(_ & [= ->] & _)|[? _]]; done.
  - rewrite list_lookup_insert_ne by done. apply Ha.
Qed.

(** A chunk that was not there is put into its slot; a chunk that has to make
    room is put in again, and its number is higher. *)
Lemma add_chunk_new fuel : forall a base seen m i,
  receiving a base seen m -> NoDup seen -> i ∉ seen -> (i < n)%nat -> (n - i < fuel)%nat ->
  exists a' base' m' c, add_chunk fuel m (part_of i) = Ok (m', np_ok, c) /\
    receiving a' base' (i :: seen) m' /\ refs m' = refs m + 1 /\ c = msg_chunk_counter m'.
Proof using Hmac Hhdr Hparts Hrange.
  induction fuel as [|fuel IH]; intros a base seen m i Hm Hnd Hi Hin Hf; [lia|].
  pose proof (base_seen _ _ _ _ Hm) as Hbs. pose proof (rc_bound _ _ _ _ Hm base Hbs) as Hbn.
  assert (i <> base) as Hib by (intros ->; done).
  pose proof Hm as [Hst Hch Hlen Hb0 Hfill Hpl Hbd Hmc Hh Hct].
  simpl. rewrite Hst, Hch, Hmc. simpl.
  rewrite sodium_compare16_cases, !Hmac by done.
  destruct (decide (i < base)%nat) as [Hlt|Hge].
  - (* the new base; the old one is put in again *)
    rewrite decide_True by lia. simpl.
    rewrite (rd_slot0 a (Some base)) by done. simpl.
    rewrite (wr_slot0 a i) by lia. simpl.
    apply elem_of_Permutation in Hbs as [rest Hrest].
    rewrite Hrest in Hnd, Hi. apply not_elem_of_cons in Hi as [_ Hi]. apply NoDup_cons in Hnd as [Hbr Hnd].
    edestruct (IH (<[0%nat:=Some i]> a) i (i :: rest)) as (a' & base' & m' & c & -> & Hr' & Hrefs & _).
    + split; cbn [use_header_but_flags set_chunks state msg_chunks mac_e header msg_chunk_counter]; try done.
      * by rewrite length_insert.
      * rewrite list_lookup_insert_eq; [done | lia].
      * apply (filled_exchange a 0 i base); [done | by rewrite Hfill].
      * apply place_insert; [|lia]. intros q j Hq. pose proof (Hpl q j Hq). lia.
      * intros k [->|Hk]%elem_of_cons; [done|]. apply Hbd. rewrite Hrest. by right.
      * rewrite Hhdr, Hh by done. apply flags_kept.
      * rewrite Hct, Hrest. done.
    + by apply NoDup_cons.
    + apply not_elem_of_cons. done.
    + done.
    + lia.
    + simpl. exists a', base', (unref_part m'). eexists. split; [reflexivity|]. simpl. split; [|split; [simpl in Hrefs; lia | done]].
      apply (receiving_perm _ _ (base :: i :: rest)); [rewrite Hrest; apply Permutation_swap|].
      destruct Hr'. by split.
  - rewrite !decide_False by lia. simpl.
    replace (u16 _) with (Z.of_nat (i - base)) by (rewrite u16_id; unfold in_u; change (2 ^ 16) with 65536; lia).
    destruct (lookup_lt_is_Some_2 a (i - base)) as [x Hx]; [lia|].
    rewrite (rd_slot a (i - base) x) by done. simpl. rewrite (wr_slot a (i - base) i) by lia.
    destruct x as [j|]; simpl.
    + pose proof (Hpl _ _ Hx) as Hij.
      assert (j ∈ seen) as Hjs. { rewrite <- Hfill. apply list_elem_of_omap. exists (Some j). split; [|done]. by eapply list_elem_of_lookup_2. }
      pose proof (Hbd _ Hjs). assert (i <> j) by (intros ->; done).
      rewrite bool_decide_false by (intros E; apply (f_equal le16) in E; rewrite !Hmac in E by done; lia).
      apply elem_of_Permutation in Hjs as [rest Hrest].
      rewrite Hrest in Hnd, Hi. apply not_elem_of_cons in Hi as [_ Hi]. apply NoDup_cons in Hnd as [Hbr Hnd].
      edestruct (IH (<[(i - base)%nat:=Some i]> a) base (i :: rest)) as (a' & base' & m' & c & -> & Hr' & Hrefs & _).
      * split; cbn [set_chunks state msg_chunks mac_e header msg_chunk_counter]; try done.
        -- by rewrite length_insert.
        -- rewrite list_lookup_insert_ne; [done | lia].
        -- apply (filled_exchange a _ i j); [done | by rewrite Hfill].
        -- apply place_insert; [done | lia].
        -- intros k [->|Hk]%elem_of_cons; [done|]. apply Hbd. rewrite Hrest. by right.
        -- rewrite Hct, Hrest. done.
      * by apply NoDup_cons.
      * apply not_elem_of_cons. done.
      * done.
      * lia.
      * simpl. exists a', base', (unref_part m'). eexists. split; [reflexivity|]. simpl. split; [|split; [simpl in Hrefs; lia | done]].
        apply (receiving_perm _ _ (j :: i :: rest)); [rewrite Hrest; apply Permutation_swap|].
        destruct Hr'. by split.
    + eexists (<[(i - base)%nat:=Some i]> a), base, _, _. split; [reflexivity|].
      split; [|done].
      split; cbn [set_chunks state msg_chunks mac_e header msg_chunk_counter]; try done.
      * by rewrite length_insert.
      * rewrite list_lookup_insert_ne; [done | lia].
      * rewrite <- Hfill. apply (filled_insert a _ i None Hx).
      * apply place_insert; [done | lia].
      * intros k [->|Hk]%elem_of_cons; [done|]. by apply Hbd.
      * rewrite Hct. simpl. rewrite u16_id; [lia|].
        assert (length (i :: seen) <= n)%nat as Hl.
        { apply length_seen; [by apply NoDup_cons|]. intros k [->|Hk]%elem_of_cons; [done | by apply Hbd]. }
        simpl in Hl. unfold in_u, UINT16_MAX in *. change (2 ^ 16) with 65536. lia.
Qed.

Lemma add_chunk_first fuel i :
  (i < n)%nat -> exists a m c, add_chunk (S fuel) _np_message_t_new (part_of i) = Ok (m, np_ok, c) /\
    receiving a i [i] m /\ refs m = 1.
Proof using Hmac Hhdr Hparts Hrange.
  intros Hi. simpl. unfold part_parts. rewrite Hhdr, Hparts, Nat2Z.id by done.
  rewrite <- (fmap_replicate (fmap (M:=option) part_of) n None : slots (replicate n None) = replicate n None).
  rewrite (wr_slot0 (replicate n None) i) by (rewrite length_replicate; lia). simpl.
  eexists (<[0%nat:=Some i]> (replicate n None)), _, _. split; [reflexivity|]. split; [|done].
  assert (replicate n (None : option nat) !! 0%nat = Some None) as H0 by (apply lookup_replicate_2; lia).
  split; cbn [use_header set_chunks state msg_chunks mac_e header msg_chunk_counter]; try done.
  - by rewrite length_insert, length_replicate.
  - apply list_lookup_insert_eq. rewrite length_replicate. lia.
  - pose proof (filled_insert (replicate n None) 0 i None H0) as H. simpl in H.
    by rewrite H, filled_replicate.
  - intros p j H. apply list_lookup_insert_Some in H as [(<- & [= <-] & _)|[_ H]]; [lia|].
    apply lookup_replicate in H as [? _]. done.
  - intros k ->%list_elem_of_singleton. done.
  - by apply Hhdr.
Qed.

(** The chunks of one message, one after the other. *)
Definition add_all (fuel : nat) (order : list nat) (m : np_e2e_message_t) : result np_e2e_message_t :=
  foldM (fun i m => '(m, _, _) ← add_chunk fuel m (part_of i); Ok m) order m.

Lemma add_all_cons fuel i order m :
  add_all fuel (i :: order) m = (m ← ('(m, _, _) ← add_chunk fuel m (part_of i); Ok m); add_all fuel order m).
Proof using Type. reflexivity. Qed.

Lemma add_all_receiving fuel order : forall a base seen m,
  receiving a base seen m -> NoDup (order ++ seen) -> (forall i, i ∈ order -> (i < n)%nat) -> (n < fuel)%nat ->
  exists a' base' m', add_all fuel order m = Ok m' /\ receiving a' base' (order ++ seen) m' /\
    refs m' = refs m + Z.of_nat (length order).
Proof using Hmac Hhdr Hparts Hrange.
  induction order as [|i order IH]; intros a base seen m Hm Hnd Hb Hf; rewrite ?add_all_cons; simpl.
  - exists a, base, m. split; [done|]. split; [done | lia].
  - simpl in Hnd. apply NoDup_cons in Hnd as [Hi Hnd].
    edestruct (add_chunk_new fuel a base seen m i) as (a' & base' & m' & c & -> & Hm' & Hr & _); [done | | | | lia |].
    { by apply NoDup_app in Hnd as (_ & _ & ?). }
    { intros ?. apply Hi, elem_of_app. by right. }
    { apply Hb. by left. }
    simpl. destruct (IH a' base' (i :: seen) m') as (a2 & b2 & m2 & -> & Hm2 & Hr2); [done | | | done |].
    { by rewrite <- Permutation_middle, NoDup_cons. }
    { intros k Hk. apply Hb. by right. }
    exists a2, b2, m2. split; [done|]. split; [|lia].
    apply (receiving_perm _ _ (order ++ i :: seen)); [by rewrite Permutation_middle | done].
Qed.

Lemma chunks_add_all_ok fuel order :
  order <> [] -> NoDup order -> (forall i, i ∈ order -> (i < n)%nat) -> (n < fuel)%nat ->
  exists a base m, add_all fuel order _np_message_t_new = Ok m /\ receiving a base order m /\
    refs m = Z.of_nat (length order).
Proof using Hmac Hhdr Hparts Hrange.
  intros Hne Hnd Hb Hf. destruct order as [|i order]; [done|]. rewrite add_all_cons.
  destruct fuel as [|fuel]; [lia|].
  destruct (add_chunk_first fuel i) as (a & m & c & -> & Hm & Hr); [apply Hb; by left|]. simpl.
  destruct (add_all_receiving (S fuel) order a i [i] m) as (a' & b' & m' & -> & Hm' & Hr'); [done | | | done |].
  - by rewrite Permutation_app_comm.
  - intros k Hk. apply Hb. by right.
  - exists a', b', m'. split; [done|]. split; [|lia].
    apply (receiving_perm _ _ (order ++ [i])); [by rewrite Permutation_app_comm | done].
Qed.

(** ** Putting the chunks together *)

Lemma full_slots a base seen m :
  receiving a base seen m -> NoDup seen -> length seen = n -> a = Some <$> List.seq 0 n.
Proof using Hrange.
  intros Hm Hnd Hl. pose proof (Permutation_length (rc_seen _ _ _ _ Hm)) as Hlf.
  assert (a = Some <$> filled a) as Ha by (apply filled_full; rewrite (rc_length _ _ _ _ Hm); congruence).
  rewrite Ha. f_equal.
  apply perm_ge_is_seq.
  - rewrite (rc_seen _ _ _ _ Hm). apply submseteq_length_Permutation; [|rewrite length_seq; lia].
    apply NoDup_submseteq; [done|]. intros k Hk. apply elem_of_seq. pose proof (rc_bound _ _ _ _ Hm k Hk). lia.
  - intros p i Hp. pose proof (rc_place _ _ _ _ Hm p i) as Hpl. rewrite Ha, list_lookup_fmap, Hp in Hpl.
    specialize (Hpl eq_refl). lia.
Qed.

Lemma missing_slot a base seen m :
  receiving a base seen m -> (length seen < n)%nat -> exists p, a !! p = Some None /\ (0 < p)%nat.
Proof using Type.
  intros Hm Hl. assert (None ∈ a) as [p Hp]%list_elem_of_lookup.
  { destruct (decide (None ∈ a)) as [|Hn]; [done|exfalso].
    assert (length (filled a) = length a) as Ha.
    { clear -Hn. induction a as [|x a IH]; [done|]. apply not_elem_of_cons in Hn as [Hx Hn].
      destruct x as [x|]; [|done]. rewrite filled_cons. simpl. by rewrite IH. }
    rewrite (Permutation_length (rc_seen _ _ _ _ Hm)), (rc_length _ _ _ _ Hm) in Ha. lia. }
  exists p. split; [done|]. destruct p; [|lia]. rewrite (rc_base _ _ _ _ Hm) in Hp. done.
Qed.

Definition piece (i : nat) : list Z :=
  (if (i =? 0)%nat then part_nonce (part_of i) ++ part_mac_e (part_of i) ++ msg_header (part_of i) else [])
  ++ part_body (part_of i).

Lemma join_full c k : forall i acc,
  (forall j, (i <= j < i + k)%nat -> c !! j = Some (Some (part_of j))) ->
  join_chunks k i c acc = Ok (acc ++ concat (map piece (List.seq i k)), true).
Proof using n.
  induction k as [|k IH]; intros i acc Hc; simpl; [by rewrite app_nil_r|].
  unfold rd. rewrite decide_True, Nat2Z.id, Hc by lia. simpl.
  rewrite IH by (intros j Hj; apply Hc; lia). unfold piece at 2.
  destruct (i =? 0)%nat; by rewrite <- !app_assoc.
Qed.

Lemma join_missing c k : forall i acc,
  (i + k <= length c)%nat -> (exists p, (i <= p < i + k)%nat /\ c !! p = Some None) ->
  exists rest, join_chunks k i c acc = Ok (acc ++ rest, false).
Proof using n.
  induction k as [|k IH]; intros i acc Hl (p & Hp & Hc); simpl; [lia|].
  unfold rd. rewrite decide_True, Nat2Z.id by lia.
  destruct (lookup_lt_is_Some_2 c i) as [x Hx]; [lia|]. rewrite Hx. simpl.
  destruct x as [q|]; [|exists []; by rewrite app_nil_r].
  edestruct (IH (S i)) as [rest ->]; [lia| |].
  - exists p. split; [|done]. assert (p <> i) by (intros ->; congruence). lia.
  - destruct (i =? 0)%nat; rewrite <- ?app_assoc; by eexists.
Qed.

End receiver.

(** ** The sender *)

(** A message in binary form, cut into [n] chunks. *)
Record whole (n : nat) (m : np_e2e_message_t) (body : list Z) : Prop := {
  wh_state : state m = msgstate_binary;
  wh_chunks : msg_chunks m = None;
  wh_binary : binary_message m = nonce m ++ mac_e m ++ header m ++ body;
  wh_nonce : length (nonce m) = 12%nat;
  wh_mac : length (mac_e m) = 16%nat;
  wh_header : length (header m) = 96%nat;
  wh_body : length body = (900 * n)%nat;
  wh_parts : header_parts (header m) = Z.of_nat n;
  wh_bytes : byte_list (mac_e m) /\ byte_list (nonce m);
}.

Lemma chunks_of_small n : (n <= 72)%nat -> chunks_of (124 + 900 * Z.of_nat n) = Z.of_nat n.
Proof.
  intros Hn. unfold chunks_of. change fixed_header_bytes with 124. change chunk_bytes with 900.
  rewrite u16_id by (unfold in_u; change (2 ^ 16) with 65536; lia).
  replace (124 + 900 * Z.of_nat n - 124) with (Z.of_nat n * 900) by lia. by rewrite Z.div_mul.
Qed.

Lemma byte_list_app a b : byte_list (a ++ b) <-> byte_list a /\ byte_list b.
Proof. apply Forall_app. Qed.

Lemma split_at {A} k (l : list A) : (k <= length l)%nat -> exists a b, l = a ++ b /\ length a = k.
Proof. intros H. exists (take k l), (drop k l). by rewrite take_drop, length_take_le. Qed.

Lemma calculate_chunking_whole m n :
  state m = msgstate_binary -> msg_chunks m = None -> byte_list (binary_message m) ->
  length (binary_message m) = (124 + 900 * n)%nat -> (n <= 72)%nat ->
  exists m' body, _np_message_calculate_chunking m = Ok m' /\ whole n m' body /\
    binary_message m' = set_parts (binary_message m) (Z.of_nat n) /\
    mac_e m' = take 16 (drop 12 (binary_message m)) /\ refs m' = refs m.
Proof.
  intros Hst Hch Hb Hl Hn.
  destruct (split_at 12 (binary_message m)) as (no & r1 & E1 & L1); [lia|].
  rewrite E1, length_app in Hl. destruct (split_at 16 r1) as (mc & r2 & -> & L2); [lia|].
  rewrite length_app in Hl. destruct (split_at 92 r2) as (h1 & r3 & -> & L3); [lia|].
  rewrite length_app in Hl. destruct r3 as [|p0 [|p1 [|f0 [|f1 body]]]]; cbn [length] in Hl; [lia..|].
  rewrite E1, !byte_list_app in Hb. destruct Hb as (Hbn & Hbm & Hb1 & _).
  unfold _np_message_calculate_chunking. rewrite Hst. rewrite bool_decide_true by done. cbn [c_assert]. rewrite bind_ok.
  replace (Z.of_nat (length (binary_message m))) with (124 + 900 * Z.of_nat n)
    by (rewrite E1, !length_app; simpl length; lia).
  rewrite chunks_of_small by done. cbv zeta.
  destruct (UINT16_MAX <? Z.of_nat n) eqn:Emax; [unfold UINT16_MAX in Emax; lia|].
  set (pn := [Z.land (u16 (Z.of_nat n)) 255; u16 (Z.of_nat n) ≫ 8]).
  assert (length pn = 2%nat) as L4 by reflexivity.
  assert (set_parts (binary_message m) (Z.of_nat n) = no ++ mc ++ (h1 ++ pn ++ [f0; f1]) ++ body) as Es.
  { unfold set_parts. change (Z.to_nat _) with 120%nat. rewrite E1.
    replace 120%nat with (length (no ++ mc ++ h1)) by (rewrite !length_app; lia).
    replace (no ++ mc ++ h1 ++ p0 :: p1 :: f0 :: f1 :: body)
      with ((no ++ mc ++ h1) ++ p0 :: p1 :: f0 :: f1 :: body) by (by rewrite <- !app_assoc).
    rewrite take_app_length, drop_app_length. unfold put16. simpl drop. fold pn.
    by rewrite <- !app_assoc. }
  rewrite Es. unfold __set_header_pointer. cbn [binary_message].
  rewrite slice_front by (unfold MSG_NONCE_SIZE; lia). cbn [mbind result_bind].
  rewrite (slice_middle no mc _ MSG_NONCE_SIZE) by (unfold MSG_NONCE_SIZE, MSG_MAC_SIZE; lia). cbn [mbind result_bind].
  rewrite (app_assoc no mc).
  rewrite (slice_middle (no ++ mc)) by (rewrite ?length_app; unfold MSG_NONCE_SIZE, MSG_MAC_SIZE, MSG_HEADER_SIZE; simpl; lia).
  cbn [mbind result_bind]. rewrite <- (app_assoc no mc).
  eexists _, body. split; [reflexivity|]. split; [|split; [done|]].
  - split; cbn [state msg_chunks nonce mac_e header binary_message]; try done.
    + rewrite !length_app. cbn [length]. lia.
    + lia.
    + unfold header_parts. change (Z.to_nat parts_offset) with 92%nat.
      rewrite <- L3, drop_app_length. etransitivity; [exact (le16_put16 (Z.of_nat n) [p0; p1; f0; f1])|].
      apply u16_id. unfold in_u. change (2 ^ 16) with 65536. lia.
  - cbn [mac_e refs]. split; [|done]. by rewrite E1, (drop_app_length' no), (take_app_length' mc) by done.
Qed.

Definition body_of (body : list Z) (i : nat) : list Z := take 900 (drop (900 * i) body).

Lemma length_body_of body n i : length body = (900 * n)%nat -> (i < n)%nat -> length (body_of body i) = 900%nat.
Proof. intros Hl Hi. unfold body_of. rewrite length_take, length_drop. lia. Qed.

Lemma concat_bodies body n : length body = (900 * n)%nat -> concat (map (body_of body) (List.seq 0 n)) = body.
Proof.
  revert body. induction n as [|n IH]; intros body Hl.
  - destruct body; [done | simpl in Hl; lia].
  - rewrite <- cons_seq. simpl. rewrite <- seq_shift, map_map.
    rewrite (map_ext _ (body_of (drop 900 body))).
    + rewrite IH by (rewrite length_drop; lia). unfold body_of. rewrite Nat.mul_0_r, drop_0. apply take_drop.
    + intros i. unfold body_of. rewrite drop_drop. do 2 f_equal. lia.
Qed.

Definition sent (m : np_e2e_message_t) (body : list Z) (i : nat) : np_n2n_messagepart_t :=
  MsgPart (Z.of_nat i) false [] 0 0 (mac_e m) (header m) (body_of body i) (nonce m).

Lemma make_part_sent n m body i : whole n m body -> (i < n)%nat -> make_part m i = Ok (sent m body i).
Proof.
  intros [? ? Hb Ln Lm Lh Lb ? ?] Hi. unfold make_part.
  change fixed_header_bytes with 124. change chunk_bytes with 900.
  rewrite slice_ok by (rewrite ?Hb, ?length_app; lia). cbn [mbind result_bind]. unfold sent, body_of.
  do 2 f_equal. rewrite Hb.
  replace (Z.to_nat (124 + 900 * Z.of_nat i)) with (length (nonce m ++ mac_e m ++ header m) + 900 * i)%nat
    by (rewrite !length_app; lia).
  rewrite <- drop_drop.
  replace (nonce m ++ mac_e m ++ header m ++ body) with ((nonce m ++ mac_e m ++ header m) ++ body) by (by rewrite <- !app_assoc).
  by rewrite drop_app_length.
Qed.

Lemma make_parts n m body k acc :
  whole n m body -> (k <= n)%nat ->
  for_range 0 k (fun i acc => p ← make_part m i; Ok (acc ++ [Some p])) acc
  = Ok (acc ++ map (fun i => Some (sent m body i)) (List.seq 0 k)).
Proof.
  intros Hw Hk. rewrite for_range_foldM.
  assert (forall l acc, (forall i, i ∈ l -> (i < n)%nat) ->
    foldM (fun i acc => p ← make_part m i; Ok (acc ++ [Some p])) l acc
    = Ok (acc ++ map (fun i => Some (sent m body i)) l)) as H.
  { intros l. induction l as [|i l IH]; intros acc' Hl; simpl; [by rewrite app_nil_r|].
    rewrite (make_part_sent n m body i) by (done || apply Hl; left). simpl.
    rewrite IH by (intros j Hj; apply Hl; by right). by rewrite <- app_assoc. }
  apply H. intros i Hi. apply elem_of_seq in Hi. lia.
Qed.

Lemma serialize_chunked_sent n m body :
  whole n m body -> exists m', _np_message_serialize_chunked m = Ok m' /\
    msg_chunks m' = Some (map (fun i => Some (sent m body i)) (List.seq 0 n)) /\
    state m' = msgstate_chunked /\ refs m' = refs m + Z.of_nat n.
Proof.
  intros Hw. pose proof Hw as [Hst Hch _ _ _ _ _ Hp _].
  unfold _np_message_serialize_chunked. rewrite Hst, Hch, Hp, Nat2Z.id. rewrite !bool_decide_true by done.
  cbn [c_assert]. rewrite !bind_ok, (make_parts n m body n []) by done. cbn [mbind result_bind].
  eexists. split; [reflexivity|]. cbn. by rewrite length_map, length_seq.
Qed.

(** What the receiver reads from the packet of chunk [i]. *)
Definition read_back (blob : list Z) (m : np_e2e_message_t) (body : list Z) (i : nat) : np_n2n_messagepart_t :=
  MsgPart 0 false (take 16 blob) 0 0 (sodium_add16 (mac_e m) (Z.of_nat i)) (header m) (body_of body i)
    (if 0 <? Z.of_nat i then sodium_sub16 (nonce m) (Z.of_nat i) else nonce m).

Lemma packet_read_back n m body blob i :
  whole n m body -> (16 <= length blob)%nat -> (i < n)%nat ->
  _np_message_deserialize_header_and_instructions (_np_node_build_network_packet blob (sent m body i))
  = Ok (read_back blob m body i).
Proof.
  intros [_ _ _ Ln Lm Lh Lb _ _] Hblob Hi.
  unfold _np_node_build_network_packet, sent. cbn [part_mac_e chunk_offset part_nonce seq hop_count msg_header part_body is_forwarded_part].
  cbv zeta. rewrite <- !app_assoc. set (mac := sodium_add16 (mac_e m) (Z.of_nat i)).
  set (no := if 0 <? Z.of_nat i then _ else _).
  assert (length mac = 16%nat) as L1 by (unfold mac, sodium_add16; rewrite length_put16; lia).
  assert (length no = 12%nat) as L2.
  { unfold no, sodium_sub16. destruct (_ <? _); rewrite ?length_put16; lia. }
  pose proof (length_body_of body n i Lb Hi) as L3.
  assert (length (take 16 blob) = 16%nat) as L4 by (rewrite length_take; lia).
  set (b0 := take 16 blob) in *. set (b := body_of body i) in *.
  set (i1 := [Z.land 0 255; _; _; _]). set (i2 := [Z.land 0 255; _]).
  assert (length i1 = 4%nat /\ length i2 = 2%nat) as [L5 L6] by done.
  unfold _np_message_deserialize_header_and_instructions.
  change MSG_INSTRUCTIONS_SIZE with 22. change MSG_MAC_SIZE with 16. change MSG_HEADER_SIZE with 96.
  change chunk_bytes with 900. change MSG_CHUNK_SIZE_1024 with 1024. change MSG_NONCE_SIZE with 12.
  rewrite slice_front by lia. cbn [mbind result_bind].
  rewrite (slice_middle b0 i1 _ 16) by lia. cbn [mbind result_bind].
  rewrite (app_assoc b0 i1), (slice_middle (b0 ++ i1) i2 _ (16 + 4)) by (rewrite ?length_app; lia). cbn [mbind result_bind].
  rewrite (app_assoc _ i2), (slice_middle ((b0 ++ i1) ++ i2) mac _ 22) by (rewrite ?length_app; lia). cbn [mbind result_bind].
  rewrite (app_assoc _ mac), (slice_middle _ (header m) _ (22 + 16)) by (rewrite ?length_app; lia). cbn [mbind result_bind].
  rewrite (app_assoc _ (header m)), (slice_middle _ b _ (22 + 16 + 96)) by (rewrite ?length_app; lia). cbn [mbind result_bind].
  rewrite (app_assoc _ b), <- (app_nil_r no), (slice_middle _ no _ (22 + 1024 - 12)) by (rewrite ?length_app; lia).
  reflexivity.
Qed.

(** ** From the sender's message to the receiver's *)

Definition send (m : np_e2e_message_t) : result np_e2e_message_t :=
  m ← _np_message_calculate_chunking m; _np_message_serialize_chunked m.

Definition packets (blob : list Z) (m : np_e2e_message_t) : list (list Z) :=
  map (_np_node_build_network_packet blob) (filled (default [] (msg_chunks m))).

Lemma packets_sent blob ms (part_of : nat -> np_n2n_messagepart_t) l :
  msg_chunks ms = Some (map (fun i => Some (part_of i)) l) ->
  packets blob ms = map (fun i => _np_node_build_network_packet blob (part_of i)) l.
Proof.
  intros Hc. unfold packets. rewrite Hc. cbn [default]. unfold filled. clear Hc.
  induction l as [|i l IH]; [done|]. simpl. f_equal. apply IH.
Qed.

Definition receive (fuel : nat) (arrived : list (list Z)) (m : np_e2e_message_t) : result np_e2e_message_t :=
  foldM (fun pk m => p ← _np_message_deserialize_header_and_instructions pk; '(m, _, _) ← add_chunk fuel m p; Ok m)
    arrived m.

Lemma receive_add_all fuel n m body blob order m1 :
  whole n m body -> (16 <= length blob)%nat -> (forall i, i ∈ order -> (i < n)%nat) ->
  receive fuel (map (fun i => _np_node_build_network_packet blob (sent m body i)) order) m1
  = add_all (read_back blob m body) fuel order m1.
Proof.
  intros Hw Hb. revert m1. induction order as [|i order IH]; intros m1 Ho; [done|].
  rewrite add_all_cons. unfold receive. cbn [map foldM].
  rewrite (packet_read_back n) by (done || apply Ho; left). rewrite bind_ok.
  destruct (add_chunk _ _ _) as [[[m2 r] c]|]; [|done]. cbn [mbind result_bind].
  apply IH. intros j Hj. apply Ho. by right.
Qed.

Lemma pieces_whole n m body blob :
  whole n m body -> (0 < n)%nat ->
  concat (map (piece (read_back blob m body)) (List.seq 0 n)) = binary_message m.
Proof.
  intros [_ _ Hb Ln Lm Lh Lb _ [Hbm _]] Hn. rewrite Hb.
  transitivity (nonce m ++ mac_e m ++ header m ++ concat (map (body_of body) (List.seq 0 n)));
    [clear Lb | by rewrite concat_bodies].
  destruct n as [|n]; [lia|].
  rewrite <- !cons_seq. cbn [map concat].
  unfold piece at 1. cbn [Nat.eqb part_nonce part_mac_e msg_header part_body read_back]. unfold sodium_add16.
  change (Z.of_nat 0) with 0. rewrite Z.add_0_r, put16_le16 by (done || lia). change (0 <? 0) with false. cbn iota.
  rewrite <- !app_assoc. do 5 f_equal.
  apply map_ext_in. intros i Hi%in_seq. unfold piece. destruct (Nat.eqb_spec i 0); [lia|]. done.
Qed.

Lemma set_header_pointer_ok m :
  (124 <= length (binary_message m))%nat -> exists m', __set_header_pointer m = Ok m'.
Proof.
  intros Hl. unfold __set_header_pointer, MSG_NONCE_SIZE, MSG_MAC_SIZE, MSG_HEADER_SIZE.
  rewrite !slice_ok by lia. cbn [mbind result_bind]. by eexists.
Qed.

Lemma set_header_pointer_whole n m body m1 :
  whole n m body -> binary_message m1 = binary_message m ->
  __set_header_pointer m1 = Ok (Message (msg_chunk_counter m1) (state m1) (nonce m) (mac_e m) (header m)
                                  (binary_message m) (msg_chunks m1) (refs m1)).
Proof.
  intros [_ _ Hb Ln Lm Lh _ _ _] E. unfold __set_header_pointer. rewrite E, Hb.
  unfold MSG_NONCE_SIZE, MSG_MAC_SIZE, MSG_HEADER_SIZE.
  rewrite slice_front by lia. cbn [mbind result_bind].
  rewrite (slice_middle (nonce m) (mac_e m) _ 12) by lia. cbn [mbind result_bind].
  rewrite (app_assoc (nonce m)), (slice_middle _ (header m) _ (12 + 16)) by (rewrite ?length_app; lia). reflexivity.
Qed.

Section both_sides.
Context (n fuel : nat) (m : np_e2e_message_t) (body blob : list Z).
Context (Hw : whole n m body) (Hblob : (16 <= length blob)%nat).

Lemma read_back_header i : msg_header (read_back blob m body i) = header m.
Proof using Type. done. Qed.

Context (a : list (option nat)) (base : nat) (seen : list nat) (m1 : np_e2e_message_t).
Context (Hr : receiving n (header m) (read_back blob m body) a base seen m1).

Lemma deserialize_complete :
  NoDup seen -> length seen = n -> (0 < n)%nat -> Z.of_nat n <= UINT16_MAX -> le16 (mac_e m) + Z.of_nat n <= 65536 ->
  exists m2, _np_message_deserialize_chunks m1 = Ok (m2, true) /\ binary_message m2 = binary_message m /\
    state m2 = msgstate_binary /\ nonce m2 = nonce m /\ mac_e m2 = mac_e m /\ header m2 = header m /\
    msg_chunks m2 = None /\ refs m2 = refs m1 - Z.of_nat n.
Proof using Hw Hblob Hr.
  intros Hnd Hl Hn Hmax Hroom. pose proof Hw as [_ _ _ _ _ _ _ Hp [Hbm _]].
  pose proof (le16_range _ Hbm) as [Hlo _].
  pose proof (full_slots n (mac_e m) (header m) (read_back blob m body) (conj Hlo (conj Hroom Hmax)) _ _ _ _ Hr Hnd Hl) as Ha.
  unfold _np_message_deserialize_chunks. rewrite (rc_state _ _ _ _ _ _ _ Hr), (rc_chunks _ _ _ _ _ _ _ Hr).
  rewrite bool_decide_true by done. cbn [c_assert]. rewrite bind_ok.
  assert (forall j, (j < n)%nat -> slots (read_back blob m body) a !! j = Some (Some (read_back blob m body j))) as Hs.
  { intros j Hj. unfold slots. rewrite Ha, !list_lookup_fmap, lookup_seq_lt by done. done. }
  rewrite (rd_slot0 (read_back blob m body) a (Some 0%nat)) by (by rewrite Ha, list_lookup_fmap, lookup_seq_lt).
  cbn [mbind result_bind fmap option_fmap option_map].
  unfold part_parts. rewrite read_back_header, Hp. destruct (0 <? Z.of_nat n) eqn:E; [|apply Z.ltb_ge in E; lia].
  cbn [c_assert]. rewrite bind_ok, Nat2Z.id, (join_full n (read_back blob m body)) by (intros j Hj; apply Hs; lia).
  rewrite bind_ok. rewrite app_nil_l, (pieces_whole n) by done.
  rewrite (set_header_pointer_whole n m body) by done. rewrite bind_ok.
  eexists. split; [reflexivity|]. done.
Qed.

Lemma deserialize_incomplete :
  (length seen < n)%nat -> exists m2, _np_message_deserialize_chunks m1 = Ok (m2, false).
Proof using Hw Hblob Hr.
  intros Hl. pose proof Hw as [_ _ _ Ln Lm Lh Lb Hp _].
  destruct (missing_slot n (header m) (read_back blob m body) a base seen m1 Hr Hl) as (p & Hp0 & Hpp).
  pose proof (rc_bound _ _ _ _ _ _ _ Hr base (base_seen _ _ _ _ _ _ _ Hr)) as Hbn.
  pose proof (rc_length _ _ _ _ _ _ _ Hr) as Hla. pose proof (lookup_lt_Some _ _ _ Hp0) as Hpa.
  unfold _np_message_deserialize_chunks. rewrite (rc_state _ _ _ _ _ _ _ Hr), (rc_chunks _ _ _ _ _ _ _ Hr).
  rewrite bool_decide_true by done. cbn [c_assert]. rewrite bind_ok.
  rewrite (rd_slot0 (read_back blob m body) a (Some base)) by apply Hr. cbn [mbind result_bind].
  unfold part_parts. cbn [fmap option_fmap option_map]. rewrite read_back_header, Hp.
  destruct (0 <? Z.of_nat n) eqn:E; [|apply Z.ltb_ge in E; lia]. cbn [c_assert]. rewrite bind_ok, Nat2Z.id.
  destruct n as [|k]; [lia|]. cbn [join_chunks].
  rewrite (rd_slot (read_back blob m body) a 0 (Some base)) by apply Hr. cbn [mbind result_bind fmap option_fmap option_map].
  change (0 =? 0)%nat with true. cbn iota.
  match goal with |- context [join_chunks k 1 ?c ?acc] => destruct (join_missing (S k) c k 1 acc) as [rest Hj] end.
  { unfold slots. rewrite length_fmap. lia. }
  { exists p. split; [lia|]. unfold slots. by rewrite list_lookup_fmap, Hp0. }
  rewrite Hj, bind_ok.
  pose proof (length_body_of body (S k) base Lb Hbn) as Lbb.
  match goal with |- context [__set_header_pointer ?mm] => destruct (set_header_pointer_ok mm) as [m2 ->] end.
  { cbn [binary_message part_nonce part_mac_e part_body read_back msg_header]. rewrite !length_app, Lh, Lbb. lia. }
  rewrite bind_ok. by eexists.
Qed.

End both_sides.

Lemma perm_map_app {A B} (f : A -> B) l1 l2 l :
  l1 ++ l2 ≡ₚ map f l -> exists k1 k2, l1 = map f k1 /\ l2 = map f k2 /\ k1 ++ k2 ≡ₚ l.
Proof.
  intros H. apply Permutation_map_inv in H as (k & Hk & Hp). symmetry in Hk.
  apply map_eq_app in Hk as (k1 & k2 & -> & <- & <-). exists k1, k2. done.
Qed.

Lemma whole_reassembled n mw body blob fuel :
  whole n mw body -> (0 < n)%nat -> Z.of_nat n <= UINT16_MAX -> le16 (mac_e mw) + Z.of_nat n <= 65536 ->
  (16 <= length blob)%nat -> (n < fuel)%nat ->
  exists ms, _np_message_serialize_chunked mw = Ok ms /\ length (packets blob ms) = n /\
    forall arrived missing, arrived ++ missing ≡ₚ packets blob ms -> arrived <> [] ->
    exists m1 m2, receive fuel arrived _np_message_t_new = Ok m1 /\
      msg_chunk_counter m1 = Z.of_nat (length arrived) /\ refs m1 = Z.of_nat (length arrived) /\
      _np_message_deserialize_chunks m1 = Ok (m2, bool_decide (missing = [])) /\
      (missing = [] -> binary_message m2 = binary_message mw /\ state m2 = msgstate_binary /\
         nonce m2 = nonce mw /\ mac_e m2 = mac_e mw /\ header m2 = header mw /\ msg_chunks m2 = None /\ refs m2 = 0).
Proof.
  intros Hw Hn0 Hn Hroom Hblob Hf. destruct (serialize_chunked_sent n mw body Hw) as (ms & Es & Hcs & _ & _).
  exists ms. split; [done|].
  rewrite (packets_sent blob ms _ _ Hcs), length_map, length_seq. split; [done|]. intros arrived missing Hp Hne.
  apply perm_map_app in Hp as (k1 & k2 & -> & -> & Hk).
  assert (NoDup (k1 ++ k2)) as Hnd by (rewrite Hk; apply NoDup_seq).
  assert (forall i, i ∈ k1 ++ k2 -> (i < n)%nat) as Hb.
  { intros i. rewrite Hk, elem_of_seq. lia. }
  apply NoDup_app in Hnd as (Hnd & _ & _).
  assert (forall i, i ∈ k1 -> (i < n)%nat) as Hb1 by (intros i Hi; apply Hb, elem_of_app; by left).
  pose proof Hw as [_ _ _ _ Lm _ _ Hparts [Hbm _]]. pose proof (le16_range _ Hbm) as [Hlo _].
  rewrite (receive_add_all fuel n) by done.
  destruct (chunks_add_all_ok n (mac_e mw) (header mw) (read_back blob mw body)) with (fuel := fuel) (order := k1)
    as (a & base & m1 & Ha & Hr & Hrefs); try done.
  { intros i Hi. cbn [read_back part_mac_e]. unfold sodium_add16. rewrite le16_put16. apply u16_id.
    unfold in_u. change (2 ^ 16) with 65536. lia. }
  { intros ->. done. }
  exists m1. rewrite length_map. pose proof (Permutation_length Hk) as Hlen. rewrite length_app, length_seq in Hlen.
  destruct k2 as [|j k2].
  - destruct (deserialize_complete n mw body blob Hw Hblob a base k1 m1 Hr) as (m2 & Hd & Hbin2 & Hst2 & H1 & H2 & H3 & Hc2 & Hr2);
      [done | simpl in Hlen; lia | done | done | lia |].
    exists m2. split; [done|]. split; [apply Hr|]. split; [done|]. split; [done|]. intros _.
    repeat (split; [done|]). simpl in Hlen. lia.
  - destruct (deserialize_incomplete n mw body blob Hw Hblob a base k1 m1 Hr) as (m2 & Hd); [simpl in Hlen; lia|].
    exists m2. split; [done|]. split; [apply Hr|]. split; [done|]. split; [done|]. done.
Qed.

(** The place of a chunk is not checked against the number of parts. *)
Lemma foreign_index_faults fuel m c p :
  state m = msgstate_chunked -> msg_chunks m = Some c -> le16 (mac_e m) < le16 (part_mac_e p) ->
  Z.of_nat (length c) <= u16 (le16 (part_mac_e p) - le16 (mac_e m)) -> add_chunk (S fuel) m p = Err Bad_access.
Proof.
  intros Hs Hc Hlt Hi. simpl. rewrite Hs, Hc. simpl. rewrite sodium_compare16_cases, !decide_False by lia. simpl.
  unfold rd. pose proof (u16_range (le16 (part_mac_e p) - le16 (mac_e m))) as [? _].
  rewrite decide_True, lookup_ge_None_2 by lia. done.
Qed.

(** The number of a chunk is the first two bytes of the mac, which wrap around: when
    the first chunk and the one whose number wrapped to 0 have come, the first one is
    looked up far behind the array of the chunks. *)
Lemma wrapped_number_faults n m body blob fuel :
  whole n m body -> Z.of_nat n <= 72 -> 65536 < le16 (mac_e m) + Z.of_nat n ->
  exists i m1 c, (0 < i < n)%nat /\ add_chunk (S (S fuel)) _np_message_t_new (read_back blob m body 0) = Ok (m1, np_ok, c) /\
    add_chunk (S (S fuel)) m1 (read_back blob m body i) = Err Bad_access.
Proof.
  intros [_ _ _ _ Lm _ _ Hparts [Hby _]] Hn Hwrap. pose proof (le16_range _ Hby) as [Hlo Hhi].
  change (2 ^ 16) with 65536 in Hhi. set (i := Z.to_nat (65536 - le16 (mac_e m))).
  assert (forall j, le16 (part_mac_e (read_back blob m body j)) = u16 (le16 (mac_e m) + Z.of_nat j)) as Hmac.
  { intros j. cbn [read_back part_mac_e]. unfold sodium_add16. apply le16_put16. }
  assert (le16 (part_mac_e (read_back blob m body i)) = 0) as Hi.
  { rewrite Hmac. replace (le16 (mac_e m) + Z.of_nat i) with 65536 by lia. done. }
  assert (le16 (part_mac_e (read_back blob m body 0)) = le16 (mac_e m)) as H0.
  { rewrite Hmac, Z.add_0_r. apply u16_id. unfold in_u. change (2 ^ 16) with 65536. lia. }
  eexists i, _, _. split; [lia|]. split.
  { cbn [add_chunk]. unfold part_parts. cbn [read_back msg_header]. rewrite Hparts, Nat2Z.id.
    cbn [_np_message_t_new state msg_chunks c_assert bool_decide orb mbind result_bind].
    rewrite wr_ok by (rewrite length_replicate; lia). reflexivity. }
  remember (S fuel) as fl eqn:Efl. cbn [add_chunk use_header set_chunks state msg_chunks mac_e].
  match goal with |- context [c_assert ?b] => change (c_assert b) with (Ok tt : result unit) end. rewrite bind_ok.
  rewrite sodium_compare16_cases, Hi, H0, decide_True by lia. cbn [Z.eqb Z.ltb Z.compare].
  assert (0 < n)%nat as Hn0 by lia. destruct n as [|k]; [lia|]. cbn [replicate insert list_insert].
  change (Z.to_nat 0) with 0%nat. cbn [insert list_insert].
  unfold rd. cbn [Z.leb decide lookup list_lookup]. rewrite decide_True by lia. change (Z.to_nat 0) with 0%nat. cbn [lookup list_lookup mbind result_bind].
  rewrite wr_ok by (cbn [length]; lia). cbn [mbind result_bind]. rewrite Efl.
  erewrite foreign_index_faults; [done|done|reflexivity| |].
  - cbn [use_header_but_flags set_chunks mac_e]. rewrite Hi, H0. lia.
  - cbn [use_header_but_flags set_chunks mac_e]. rewrite Hi, H0, Z.sub_0_r, u16_id by (unfold in_u; change (2 ^ 16) with 65536; lia).
    cbn [length insert list_insert]. rewrite ?length_insert. cbn [length]. rewrite length_replicate. lia.
Qed.

(** An order in which two given packets come first. *)
Lemma two_first n i : (0 < i < n)%nat -> exists rest, 0%nat :: i :: rest ≡ₚ List.seq 0 n.
Proof.
  intros Hi. destruct (elem_of_Permutation (List.seq 0 n) 0%nat) as [[l1 E1] _]; [apply elem_of_seq; lia|].
  destruct (elem_of_Permutation l1 i) as [[l2 E2] _].
  { assert (i ∈ 0%nat :: l1) as [->|]%elem_of_cons; [|lia|done]. rewrite <-E1. apply elem_of_seq. lia. }
  exists l2. by rewrite E1, E2.
Qed.

(** C29: [_np_message_add_chunk] and [_np_message_deserialize_chunks] put a message
    of at most 72 chunks together again whatever the order its packets arrive in,
    provided the numbers of the chunks, the first two bytes of the mac counted up,
    do not wrap around: the chunk counter is the number of packets that came, the
    message is returned exactly when the last one is there, it is then byte for byte
    the one the sender had, and every reference taken on a part has been given back.
    When the numbers do wrap around (a mac that begins with 255 255 and two chunks)
    there is an order of arrival in which the receiver reads outside of the array of
    the chunks. *)
Theorem chunks_reassembled n m blob fuel :
  state m = msgstate_binary -> msg_chunks m = None -> byte_list (binary_message m) ->
  length (binary_message m) = (124 + 900 * n)%nat -> (0 < n <= 72)%nat ->
  (16 <= length blob)%nat -> (n < fuel)%nat ->
  exists ms, send m = Ok ms /\ length (packets blob ms) = n /\
    (le16 (take 16 (drop 12 (binary_message m))) + Z.of_nat n <= 65536 ->
     forall arrived missing, arrived ++ missing ≡ₚ packets blob ms -> arrived <> [] ->
     exists m1 m2, receive fuel arrived _np_message_t_new = Ok m1 /\
       msg_chunk_counter m1 = Z.of_nat (length arrived) /\ refs m1 = Z.of_nat (length arrived) /\
       _np_message_deserialize_chunks m1 = Ok (m2, bool_decide (missing = [])) /\
       (missing = [] -> binary_message m2 = set_parts (binary_message m) (Z.of_nat n) /\
          state m2 = msgstate_binary /\ msg_chunks m2 = None /\ refs m2 = 0)) /\
    (65536 < le16 (take 16 (drop 12 (binary_message m))) + Z.of_nat n ->
     exists arrived, arrived ≡ₚ packets blob ms /\ receive fuel arrived _np_message_t_new = Err Bad_access).
Proof.
  intros Hst Hch Hby Hl [Hn0 Hn] Hblob Hf.
  destruct (calculate_chunking_whole m n Hst Hch Hby Hl Hn) as (mw & body & Ec & Hw & Hbin & Hmac & _). rewrite <- Hmac.
  destruct (serialize_chunked_sent n mw body Hw) as (ms & Es & Hcs & _ & _). exists ms. unfold send. rewrite Ec, bind_ok.
  split; [done|]. split; [by rewrite (packets_sent blob ms _ _ Hcs), length_map, length_seq|]. split.
  - intros Hroom arrived missing Hp Hne.
    destruct (whole_reassembled n mw body blob fuel Hw Hn0 ltac:(unfold UINT16_MAX; lia) Hroom Hblob Hf) as (ms' & Es' & _ & Hall).
    rewrite Es in Es'. injection Es' as <-.
    destruct (Hall arrived missing Hp Hne) as (m1 & m2 & H1 & H2 & H3 & H4 & H5). exists m1, m2.
    repeat (split; [done|]). intros Hm. destruct (H5 Hm) as (-> & -> & _ & _ & _ & -> & ->). done.
  - intros Hwrap. destruct fuel as [|[|fl]]; [lia|lia|].
    destruct (wrapped_number_faults n mw body blob fl Hw ltac:(lia) Hwrap) as (i & m1 & c & Hi & E1 & E2).
    destruct (two_first n i Hi) as [rest Hrest]. rewrite (packets_sent blob ms _ _ Hcs).
    exists (map (fun i => _np_node_build_network_packet blob (sent mw body i)) (0%nat :: i :: rest)).
    split; [by rewrite Hrest|]. rewrite (receive_add_all _ n) by (done || (intros j; rewrite Hrest, elem_of_seq; lia)).
    rewrite add_all_cons, E1. cbn [mbind result_bind]. rewrite add_all_cons, E2. done.
Qed.

Definition demo_message (n : nat) : np_e2e_message_t :=
  Message 0 msgstate_binary [] [] [] (replicate (124 + 900 * n) 7) None 0.

(** Macs that begin with 255 255. *)
Definition wrapping_message (n : nat) : np_e2e_message_t :=
  Message 0 msgstate_binary [] [] [] (replicate (124 + 900 * n) 255) None 0.

Lemma chunks_reassembled_witness :
  (exists ms, send (demo_message 2) = Ok ms /\ length (packets (replicate 16 0) ms) = 2%nat /\
    forall arrived missing, arrived ++ missing ≡ₚ packets (replicate 16 0) ms -> arrived <> [] ->
    exists m1 m2, receive 3 arrived _np_message_t_new = Ok m1 /\
      msg_chunk_counter m1 = Z.of_nat (length arrived) /\ refs m1 = Z.of_nat (length arrived) /\
      _np_message_deserialize_chunks m1 = Ok (m2, bool_decide (missing = [])) /\
      (missing = [] -> binary_message m2 = set_parts (binary_message (demo_message 2)) (Z.of_nat 2) /\
         state m2 = msgstate_binary /\ msg_chunks m2 = None /\ refs m2 = 0)) /\
  (exists ms, send (wrapping_message 2) = Ok ms /\
    exists arrived, arrived ≡ₚ packets (replicate 16 0) ms /\ receive 3 arrived _np_message_t_new = Err Bad_access).
Proof.
  split.
  - destruct (chunks_reassembled 2 (demo_message 2) (replicate 16 0) 3) as (ms & E & Hl & Hok & _); try done; try lia.
    { apply Forall_replicate. done. }
    exists ms. split; [done|]. split; [done|]. apply Hok. vm_compute. done.
  - destruct (chunks_reassembled 2 (wrapping_message 2) (replicate 16 0) 3) as (ms & E & _ & _ & Hbad); try done; try lia.
    { apply Forall_replicate. done. }
    exists ms. split; [done|]. apply Hbad. vm_compute. done.
Defined.

(** ** Where it does not hold *)

(** The cast to 16 bits: a message of 73 chunks is sent as none. *)
Lemma chunk_count_truncated : chunks_of (124 + 900 * 73) = 0 /\ chunks_of (124 + 900 * 80) = 7.
Proof. done. Qed.

(** A chunk that announces no parts is written into an empty array. *)
Lemma no_parts_faults fuel m p :
  state m = msgstate_unknown -> msg_chunks m = None -> part_parts p = 0 -> add_chunk (S fuel) m p = Err Bad_access.
Proof. intros Hs Hc Hp. simpl. by rewrite Hs, Hc, Hp. Qed.

(** Two chunks for the same place whose macs differ put each other in again for ever. *)
Lemma same_place_diverges fuel : forall m c p q,
  state m = msgstate_chunked -> msg_chunks m = Some c ->
  le16 (mac_e m) < le16 (part_mac_e p) < 65536 -> le16 (part_mac_e q) = le16 (part_mac_e p) -> 0 <= le16 (mac_e m) ->
  part_mac_e p <> part_mac_e q -> c !! Z.to_nat (le16 (part_mac_e p) - le16 (mac_e m)) = Some (Some q) ->
  add_chunk fuel m p = Err Diverges.
Proof.
  induction fuel as [|fuel IH]; intros m c p q Hs Hc Hlt Heq H0 Hne Hq; [done|]. simpl. rewrite Hs, Hc. simpl.
  rewrite sodium_compare16_cases, !decide_False by lia. simpl.
  rewrite u16_id by (unfold in_u; change (2 ^ 16) with 65536; lia).
  pose proof (lookup_lt_Some _ _ _ Hq).
  unfold rd. rewrite decide_True, Hq by lia. simpl. rewrite bool_decide_false, wr_ok by (done || lia). simpl.
  rewrite (IH _ (<[Z.to_nat (le16 (part_mac_e p) - le16 (mac_e m)) := Some p]> c) q p); cbn [set_chunks state msg_chunks mac_e];
    try done; [lia | ..].
  rewrite Heq. by apply list_lookup_insert_eq.
Qed.

(** A chunk that comes twice, the second time after the base has moved, is counted
    and kept twice: chunk 2 never came, and chunk 3 is in its place. *)
Lemma duplicate_counted_twice :
  ((ms ← send (demo_message 4);
   m1 ← receive 9 (filled (map (fun i => packets (replicate 16 0) ms !! i) [1; 3; 0; 3]%nat)) _np_message_t_new;
   '(_, complete) ← _np_message_deserialize_chunks m1;
   Ok (msg_chunk_counter m1, map (option_map (fun p => le16 (part_mac_e p))) (default [] (msg_chunks m1)), complete))
   : result _) = Ok (4, [Some 1799; Some 1800; Some 1802; Some 1802], true).
Proof. vm_compute. reflexivity. Qed.

(** ** Forwarding *)

Lemma byte_at x k : 0 <= k -> Z.land (x ≫ k) 255 = x / 2 ^ k mod 256.
Proof. intros Hk. rewrite Z.shiftr_div_pow2 by done. change 255 with (Z.ones 8). by rewrite Z.land_ones. Qed.

Definition forwarded (p : np_n2n_messagepart_t) (s h : Z) : np_n2n_messagepart_t :=
  MsgPart (chunk_offset p) true (mac_n p) s h (part_mac_e p) (msg_header p) (part_body p) (part_nonce p).

(** A packet that is forwarded keeps its chunk: only the sequence number and the
    hop count of the instructions are new, and both are read back as they were set. *)
Theorem forwarded_packet_keeps_chunk pk p s h :
  _np_message_deserialize_header_and_instructions pk = Ok p -> in_u 32 s -> in_u 16 h ->
  _np_message_deserialize_header_and_instructions (_np_node_build_network_packet pk (forwarded p s h))
  = Ok (MsgPart 0 false (mac_n p) s h (part_mac_e p) (msg_header p) (part_body p) (part_nonce p)).
Proof.
  intros Hd Hs Hh.
  assert (1046 <= length pk)%nat as Hl.
  { unfold _np_message_deserialize_header_and_instructions in Hd. inv_ok. unfold slice in *.
    repeat case_decide; try done. change (MSG_INSTRUCTIONS_SIZE + MSG_CHUNK_SIZE_1024 - MSG_NONCE_SIZE) with 1034 in *.
    change MSG_NONCE_SIZE with 12 in *. lia. }
  destruct (split_at 16 pk) as (b0 & r & -> & L0); [lia|]. rewrite length_app in Hl.
  destruct (split_at 6 r) as (b1 & rest & -> & L1); [lia|]. rewrite length_app in Hl.
  unfold _np_node_build_network_packet, forwarded. cbn [is_forwarded_part seq hop_count mac_n part_mac_e msg_header part_body part_nonce].
  cbv zeta. rewrite (take_app_length' b0) by done.
  replace (drop 22 (b0 ++ b1 ++ rest)) with rest by (rewrite app_assoc, drop_app_length'; [done | rewrite length_app; lia]).
  rewrite <- !app_assoc. set (sb := [Z.land s 255; _; _; _]). set (hb := [Z.land h 255; _]).
  assert (le32 sb = s) as Es.
  { unfold le32, le16, sb. simpl. rewrite !byte_at by lia. replace (Z.land s 255) with (s mod 256) by (symmetry; apply (Z.land_ones s 8); lia).
    unfold in_u in Hs. change (2 ^ 32) with 4294967296 in Hs. change (2 ^ 8) with 256. change (2 ^ 16) with 65536. change (2 ^ 24) with 16777216. divlia. }
  assert (le16 hb = h) as Eh.
  { unfold le16, hb. simpl. rewrite !byte_at by lia. replace (Z.land h 255) with (h mod 256) by (symmetry; apply (Z.land_ones h 8); lia).
    unfold in_u in Hh. change (2 ^ 16) with 65536 in Hh. change (2 ^ 8) with 256. divlia. }
  assert (length sb = 4%nat /\ length hb = 2%nat) as [Ls Lh] by done. clearbody sb hb.
  unfold _np_message_deserialize_header_and_instructions in Hd |- *.
  change MSG_INSTRUCTIONS_SIZE with 22 in *. change MSG_MAC_SIZE with 16 in *. change MSG_HEADER_SIZE with 96 in *.
  change chunk_bytes with 900 in *. change MSG_CHUNK_SIZE_1024 with 1024 in *. change MSG_NONCE_SIZE with 12 in *.
  rewrite slice_front in Hd |- * by lia. cbn [mbind result_bind] in Hd |- *.
  rewrite (slice_middle b0 sb _ 16) by lia. cbn [mbind result_bind].
  rewrite (app_assoc b0 sb), (slice_middle (b0 ++ sb) hb _ (16 + 4)) by (rewrite ?length_app; lia). cbn [mbind result_bind].
  rewrite (app_assoc _ hb). rewrite (app_assoc b0 b1) in Hd.
  do 2 (apply bind_Ok_inv in Hd as (? & _ & Hd)).
  rewrite !(slice_past (b0 ++ b1)) in Hd by (rewrite length_app; lia).
  rewrite !(slice_past ((b0 ++ sb) ++ hb)) by (rewrite !length_app; lia).
  rewrite !length_app, L0, L1 in Hd. rewrite !length_app, L0, Ls, Lh.
  change (Z.of_nat (16 + 6)) with 22 in Hd. change (Z.of_nat (16 + 4 + 2)) with 22. inv_ok.
  repeat match goal with H : slice _ _ rest = Ok _ |- _ => rewrite H; clear H; cbn [mbind result_bind] end.
  reflexivity.
Qed.

Lemma forwarded_packet_keeps_chunk_witness :
  let pk := replicate 1046 7 in
  let p := MsgPart 0 false (replicate 16 7) (le32 (replicate 4 7)) (le16 [7; 7]) (replicate 16 7) (replicate 96 7)
             (replicate 900 7) (replicate 12 7) in
  _np_message_deserialize_header_and_instructions (_np_node_build_network_packet pk (forwarded p 1000000 258))
  = Ok (MsgPart 0 false (mac_n p) 1000000 258 (part_mac_e p) (msg_header p) (part_body p) (part_nonce p)).
Proof. apply forwarded_packet_keeps_chunk; [vm_compute; reflexivity | by_decide | by_decide]. Defined.
