(* ===== verification/Reassembly.v ===== *)
(** * The cache of incomplete messages: [_np_alias_check_msgpart_cache] and
    [_np_alias_cleanup_msgpart_cache] of [src/core/np_comp_alias.c]

    Parts are collected under a hash of the message's uuid and of the part of its
    mac all its chunks share; a decaying Bloom filter remembers the messages that
    were handed on.  The tree [context->msg_part_cache] is a finite map from
    hashes to messages. *)
From Stdlib Require Import ZArith Lia QArith.
From stdpp Require Import prelude gmap fin_maps.
From S2P Require Import Prelude Real Dhkey Rng BloomBase BloomClassic BloomStandard BloomDecaying Chunk ChunkThms.

Local Open Scope Z_scope.

#[export] Instance dhkey_countable : Countable np_dhkey_t.
Proof. apply (inj_countable' dh_t Dhkey). by intros []. Defined.

Definition NP_MSG_PART_FILTER_SIZE : Z := 8192.
Definition NP_UUID_BYTES : Z := 16.

Record part_cache := PartCache {
  msg_part_cache : gmap np_dhkey_t np_e2e_message_t;
  msg_part_filter : np_bloom_t;
}.

(** The cache as [np_init] sets it up. *)
Definition part_cache_init : part_cache :=
  PartCache ∅ (_np_decaying_bloom_create NP_MSG_PART_FILTER_SIZE 16 1).

(** The fields of a header. *)
Definition header_uuid (h : list Z) : list Z :=
  take (Z.to_nat NP_UUID_BYTES) (drop (Z.to_nat (2 * _msg_header_dhkey_bytes)) h).
Definition header_tstamp (h : list Z) : list Z :=
  take 8 (drop (Z.to_nat (2 * _msg_header_dhkey_bytes + _msg_header_uuid_bytes)) h).
Definition header_ttl (h : list Z) : Z :=
  le32 (drop (Z.to_nat (2 * _msg_header_dhkey_bytes + _msg_header_uuid_bytes + _msg_header_time_bytes)) h).

(** [floor (cbrt (n))] *)
Fixpoint icbrt (fuel : nat) (k n : Z) : Z :=
  match fuel with
  | O => k
  | S fuel' => if (k + 1) * (k + 1) * (k + 1) <=? n then icbrt fuel' (k + 1) n else k
  end.

Section Reassembly.
(** libsodium's hash, the eight bytes of a double, and the depth of the recursion
    of [_np_message_add_chunk]. *)
Context (blake2b : list Z -> list Z) (double_of : list Z -> Q) (fuel : nat).

Definition np_generate_subject (subject_id : np_dhkey_t) (subject : list Z) : np_dhkey_t :=
  _np_dhkey_xor (_np_dhkey_generate_hash blake2b subject) subject_id.

(** The hash a part is filed under: its uuid and its mac without the counter. *)
Definition check_dhkey (p : np_n2n_messagepart_t) : np_dhkey_t :=
  let k := np_generate_subject dhkey_zero (header_uuid (msg_header p)) in
  np_generate_subject k (take (Z.to_nat (MSG_MAC_SIZE - 2)) (drop 2 (part_mac_e p))).

Definition _np_alias_check_msgpart_cache (pc : part_cache) (p : np_n2n_messagepart_t)
    : result (part_cache * option np_e2e_message_t) :=
  let key := check_dhkey p in
  _seen_before ← _np_decaying_bloom_check (msg_part_filter pc) key;
  if _seen_before : bool then Ok (pc, None)
  else if 1 <? part_parts p then
    match msg_part_cache pc !! key with
    | Some msg_in_cache =>
        '(msg_in_cache, _, current_count_of_chunks) ← add_chunk fuel msg_in_cache p;
        if negb (current_count_of_chunks =? header_parts (header msg_in_cache)) then
          Ok (PartCache (<[key := msg_in_cache]> (msg_part_cache pc)) (msg_part_filter pc), None)
        else
          filter ← _np_decaying_bloom_add (msg_part_filter pc) key;
          Ok (PartCache (delete key (msg_part_cache pc)) filter, Some msg_in_cache)
    | None =>
        '(ret, _, _) ← add_chunk fuel _np_message_t_new p;
        Ok (PartCache (<[key := ret]> (msg_part_cache pc)) (msg_part_filter pc), None)
    end
  else
    '(ret, _, _) ← add_chunk fuel _np_message_t_new p;
    filter ← _np_decaying_bloom_add (msg_part_filter pc) key;
    Ok (PartCache (msg_part_cache pc) filter, Some ret).

(** [__np_handle] on the packet of a part: the complete message goes on to its
    subject. *)
Definition __np_handle (pc : part_cache) (packet : list Z) : result (part_cache * option np_e2e_message_t) :=
  part ← _np_message_deserialize_header_and_instructions packet;
  '(pc, msg_to_use) ← _np_alias_check_msgpart_cache pc part;
  match msg_to_use with
  | None => Ok (pc, None)
  | Some msg =>
      '(msg, complete) ← _np_message_deserialize_chunks msg;
      Ok (pc, if (complete : bool) then Some msg else None)
  end.

Definition message_expired (now : Q) (m : np_e2e_message_t) : bool :=
  _np_message_is_expired now (double_of (header_tstamp (header m))) (header_ttl (header m)).

(** The filter follows the number of peers. *)
Definition adjust_filter (_peer_nodes : Z) (f : np_bloom_t) : result np_bloom_t :=
  let _size_modifier := u8 (icbrt 41 0 _peer_nodes) in
  let _size_adjustment :=
    if 0 <? _size_modifier then _size_modifier * NP_MSG_PART_FILTER_SIZE else NP_MSG_PART_FILTER_SIZE in
  f ← (if negb (_size f =? _size_adjustment)
       then _np_standard_bloom_clear
              (Bloom (_type f) _size_adjustment (_d f) (_p f) (_rng f) (_bitset f) (_num_blocks f) (_free_items f))
       else Ok f);
  let _prune_adjustment := if 1 <? _size_modifier then _size_modifier else 1 in
  Ok (Bloom (_type f) (_size f) (_d f) _prune_adjustment (_rng f) (_bitset f) (_num_blocks f) (_free_items f)).

Definition _np_alias_cleanup_msgpart_cache (now : Q) (routes neighbours : Z) (pc : part_cache) : result part_cache :=
  let cache := filter (fun kv => message_expired now kv.2 = false) (msg_part_cache pc) in
  f ← _np_decaying_bloom_decay (msg_part_filter pc);
  f ← adjust_filter (u16 (routes + neighbours)) f;
  Ok (PartCache cache f).

End Reassembly.

(** ** The cache of incomplete messages: every message is handed on exactly once *)

(** ** The filter *)

Lemma added_is_seen b id :
  decaying_wf b -> dhkey_wf id -> 0 < _free_items b ->
  exists b', _np_decaying_bloom_add b id = Ok b' /\ _np_decaying_bloom_check b' id = Ok true.
Proof.
  intros Hb Hid Hf. destruct (decaying_add_ok b id Hb Hid Hf) as (bs & Hadd & Hwf & Hc).
  eexists. split; [exact Hadd|]. rewrite decaying_check_ok by done. f_equal.
  cbn [_bitset _size _d set_free set_bitset]. apply forallb_elem_of. intros p Hp. pose proof Hb as (Hd & Hs & _).
  pose proof (positions_range (_size b) id ltac:(lia)) as Hr. rewrite Forall_forall in Hr.
  rewrite Hc, decide_True by (done || by apply Hr).
  assert (0 < 2 ^ (_d b - 1)) by (apply Z.pow_pos_nonneg; [lia | destruct Hd as [->| ->]; lia]).
  apply negb_true_iff, Z.eqb_neq. intros H0%Z.lor_eq_0_iff. lia.
Qed.

Section reassembly.
Context (blake2b : list Z -> list Z) (fuel : nat).
Context (blake2b_bytes : forall d, Forall (in_u 8) (blake2b d)).

Abbreviation check := (_np_alias_check_msgpart_cache blake2b fuel).
Abbreviation handle := (__np_handle blake2b fuel).

Lemma generate_subject_wf k s : dhkey_wf k -> dhkey_wf (np_generate_subject blake2b k s).
Proof using blake2b_bytes.
  intros Hk. apply _np_dhkey_xor_wf; [|done]. apply bytes_dhkey_wf, blake2b_bytes.
Qed.

(** The packets of one message. *)
Context (n : nat) (m : np_e2e_message_t) (body blob : list Z).
Context (Hw : whole n m body) (Hblob : (16 <= length blob)%nat) (Hfuel : (n < fuel)%nat).
Context (Hroom : le16 (mac_e m) + Z.of_nat n <= 65536) (Hmax : Z.of_nat n <= UINT16_MAX).

Definition key : np_dhkey_t :=
  np_generate_subject blake2b (np_generate_subject blake2b dhkey_zero (header_uuid (header m))) (drop 2 (mac_e m)).

Definition packet (i : nat) : list Z := _np_node_build_network_packet blob (sent m body i).

Lemma key_wf : dhkey_wf key.
Proof using blake2b_bytes. apply generate_subject_wf, generate_subject_wf. by_decide. Qed.

Lemma check_dhkey_key i : check_dhkey blake2b (read_back blob m body i) = key.
Proof using Hw.
  clear - Hw. destruct Hw as [_ _ _ _ Lm _ _ _ _].
  unfold check_dhkey, key. cbn [read_back msg_header part_mac_e]. unfold sodium_add16. rewrite drop_put16.
  f_equal. apply take_ge. rewrite length_drop. change (Z.to_nat (MSG_MAC_SIZE - 2)) with 14%nat. lia.
Qed.

(** The cache and the filter before. *)
Context (cache : gmap np_dhkey_t np_e2e_message_t) (f : np_bloom_t).
Context (Hf : decaying_wf f) (Hfree : 0 < _free_items f) (Hnew : _np_decaying_bloom_check f key = Ok false)
  (Hcache : cache !! key = None).

Abbreviation rcv := (receiving n (header m) (read_back blob m body)).

Lemma handle_packet pc i :
  (i < n)%nat -> handle pc (packet i) =
    ('(pc, msg_to_use) ← check pc (read_back blob m body i);
     match msg_to_use with
     | None => Ok (pc, None)
     | Some msg =>
         '(msg, complete) ← _np_message_deserialize_chunks msg;
         Ok (pc, if (complete : bool) then Some msg else None)
     end).
Proof using All.
  intros Hi. unfold __np_handle, packet. by rewrite (packet_read_back n).
Qed.

Lemma mac_le16 i : (i < n)%nat -> le16 (part_mac_e (read_back blob m body i)) = le16 (mac_e m) + Z.of_nat i.
Proof using All.
  intros Hi. destruct Hw as [_ _ _ _ _ _ _ _ [Hb _]]. pose proof (le16_range _ Hb) as [? _].
  cbn [read_back part_mac_e]. unfold sodium_add16. rewrite le16_put16. apply u16_id.
  unfold in_u. change (2 ^ 16) with 65536. lia.
Qed.

Lemma room : 0 <= le16 (mac_e m) /\ le16 (mac_e m) + Z.of_nat n <= 65536 /\ Z.of_nat n <= UINT16_MAX.
Proof using All.
  destruct Hw as [_ _ _ _ _ _ _ _ [Hb _]]. pose proof (le16_range _ Hb) as [? _]. done.
Qed.

Lemma parts_n i : part_parts (read_back blob m body i) = Z.of_nat n.
Proof using All. apply Hw. Qed.

Lemma first_part i :
  (i < n)%nat -> exists a m1 c, add_chunk fuel _np_message_t_new (read_back blob m body i) = Ok (m1, np_ok, c) /\
    rcv a i [i] m1 /\ refs m1 = 1.
Proof using All.
  intros Hi. assert (exists fl, fuel = S fl) as [fl E] by (exists (pred fuel); lia). rewrite E.
  apply (add_chunk_first n (mac_e m) (header m)); [apply mac_le16 | done | apply Hw | apply room | done].
Qed.

Lemma handle_first i :
  (i < n)%nat -> (1 < n)%nat -> exists a m1, handle (PartCache cache f) (packet i) = Ok (PartCache (<[key:=m1]> cache) f, None) /\
    rcv a i [i] m1 /\ refs m1 = 1.
Proof using All.
  intros Hi Hn. destruct (first_part i Hi) as (a & m1 & c & Ha & Hr & Hrefs).
  exists a, m1. split; [|done]. rewrite handle_packet by done. unfold _np_alias_check_msgpart_cache.
  rewrite check_dhkey_key. cbn [msg_part_filter msg_part_cache]. rewrite Hnew, bind_ok, parts_n, Hcache.
  destruct (1 <? Z.of_nat n) eqn:E; [|apply Z.ltb_ge in E; lia]. by rewrite Ha.
Qed.

Lemma handle_next a base seen m1 i :
  rcv a base seen m1 -> NoDup seen -> i ∉ seen -> (i < n)%nat -> (1 < n)%nat ->
  exists a' base' m', rcv a' base' (i :: seen) m' /\ refs m' = refs m1 + 1 /\
    handle (PartCache (<[key:=m1]> cache) f) (packet i) =
      if decide (S (length seen) = n) then
        f' ← _np_decaying_bloom_add f key;
        '(msg, complete) ← _np_message_deserialize_chunks m';
        Ok (PartCache cache f', if (complete : bool) then Some msg else None)
      else Ok (PartCache (<[key:=m']> cache) f, None).
Proof using All.
  intros Hr Hnd Hi Hin Hn.
  destruct (add_chunk_new n (mac_e m) (header m) (read_back blob m body)) with (fuel := fuel) (a := a) (base := base)
    (seen := seen) (m := m1) (i := i) as (a' & base' & m' & c & Ha & Hr' & Hrefs & ->);
    [apply mac_le16 | done | apply Hw | apply room | done.. | lia |].
  exists a', base', m'. split; [done|]. split; [done|]. rewrite handle_packet by done. unfold _np_alias_check_msgpart_cache.
  rewrite check_dhkey_key. cbn [msg_part_filter msg_part_cache]. rewrite Hnew, bind_ok, parts_n, lookup_insert_eq.
  destruct (1 <? Z.of_nat n) eqn:E; [|apply Z.ltb_ge in E; lia]. rewrite Ha. cbn [mbind result_bind].
  rewrite (rc_header _ _ _ _ _ _ _ Hr'), (rc_counter _ _ _ _ _ _ _ Hr'), (wh_parts _ _ _ Hw). cbn [length].
  rewrite insert_insert_eq, delete_insert_eq, delete_id by done.
  case_decide as Hl.
  - rewrite Hl, Z.eqb_refl. cbn [negb]. destruct (_np_decaying_bloom_add f key) as [f'|]; [|done].
    cbn [mbind result_bind]. by destruct (_np_message_deserialize_chunks m') as [[? ?]|].
  - destruct (Z.eqb_spec (Z.of_nat (S (length seen))) (Z.of_nat n)); [lia|]. done.
Qed.

(** The message as the receiver hands it on. *)
Definition handed_on (m2 : np_e2e_message_t) : Prop :=
  binary_message m2 = binary_message m /\ state m2 = msgstate_binary /\ msg_chunks m2 = None /\ refs m2 = 0.

Definition remembers (f' : np_bloom_t) : Prop := _np_decaying_bloom_check f' key = Ok true.

Lemma remember_key : exists f', _np_decaying_bloom_add f key = Ok f' /\ remembers f'.
Proof using All. apply added_is_seen; [done | apply key_wf | done]. Qed.

Lemma complete_message a base seen m1 :
  rcv a base seen m1 -> NoDup seen -> length seen = n -> (0 < n)%nat -> refs m1 = Z.of_nat n ->
  exists m2, _np_message_deserialize_chunks m1 = Ok (m2, true) /\ handed_on m2.
Proof using All.
  intros Hr Hnd Hl Hn Hrefs.
  destruct (deserialize_complete n m body blob Hw Hblob a base seen m1 Hr)
    as (m2 & Hd & Hb2 & Hs2 & _ & _ & _ & Hc2 & Hr2); [done..|].
  exists m2. split; [done|]. repeat split; try done. lia.
Qed.

Fixpoint handle_all (pc : part_cache) (pks : list (list Z)) : result (part_cache * list (option np_e2e_message_t)) :=
  match pks with
  | [] => Ok (pc, [])
  | pk :: pks => '(pc, o) ← handle pc pk; '(pc, out) ← handle_all pc pks; Ok (pc, o :: out)
  end.

(** What comes late is dropped. *)
Lemma handle_late f' late :
  remembers f' -> (forall i, i ∈ late -> (i < n)%nat) ->
  handle_all (PartCache cache f') (map packet late) = Ok (PartCache cache f', replicate (length late) None).
Proof using All.
  intros Hs. induction late as [|i late IH]; intros Hb; [done|]. cbn [map handle_all].
  rewrite handle_packet by (apply Hb; left). unfold _np_alias_check_msgpart_cache. rewrite check_dhkey_key.
  cbn [msg_part_filter]. rewrite Hs, !bind_ok, IH by (intros j Hj; apply Hb; by right). done.
Qed.

Definition outcome (order late : list nat) (pc : result (part_cache * list (option np_e2e_message_t))) : Prop :=
  exists f' m2, remembers f' /\ handed_on m2 /\
    pc = Ok (PartCache cache f', replicate (pred (length order)) None ++ Some m2 :: replicate (length late) None).

Lemma handle_rest order late : forall a base seen m1,
  rcv a base seen m1 -> NoDup (order ++ seen) -> (forall i, i ∈ order ++ late -> (i < n)%nat) ->
  length (order ++ seen) = n -> order <> [] -> (1 < n)%nat -> refs m1 = Z.of_nat (length seen) ->
  outcome order late (handle_all (PartCache (<[key:=m1]> cache) f) (map packet (order ++ late))).
Proof using All.
  induction order as [|i order IH]; intros a base seen m1 Hr Hnd Hb Hl Hne Hn Hrefs; [done|].
  simpl in Hnd, Hl. apply NoDup_cons in Hnd as [Hi Hnd]. rewrite length_app in Hl.
  pose proof (proj1 (NoDup_app _ _) Hnd) as (_ & _ & Hnd2).
  destruct (handle_next a base seen m1 i Hr) as (a' & base' & m' & Hr' & Hrefs' & Hh); [done | | | done |].
  { intros ?. apply Hi, elem_of_app. by right. }
  { apply Hb. by left. }
  cbn [app map handle_all]. rewrite Hh.
  destruct order as [|j order].
  - rewrite decide_True by (simpl in Hl; lia). destruct remember_key as (f' & -> & Hm). rewrite bind_ok.
    destruct (complete_message a' base' (i :: seen) m' Hr') as (m2 & -> & Ho);
      [by apply NoDup_cons | simpl in *; lia | lia | simpl in Hl; lia |].
    rewrite !bind_ok. cbn [app]. rewrite handle_late by (done || (intros k Hk; apply Hb; by right)).
    exists f', m2. split; [done|]. split; [done|]. done.
  - rewrite decide_False by (simpl in Hl; lia). rewrite bind_ok.
    destruct (IH a' base' (i :: seen) m' Hr') as (f' & m2 & Hm & Ho & ->); [| | | done | done | |].
    + by rewrite <- Permutation_middle, NoDup_cons.
    + intros k Hk. apply Hb. by right.
    + rewrite length_app. simpl in *. lia.
    + simpl. lia.
    + exists f', m2. split; [done|]. split; [done|]. done.
Qed.

Lemma handle_message order late :
  order ≡ₚ List.seq 0 n -> (forall i, i ∈ late -> (i < n)%nat) -> (0 < n)%nat ->
  outcome order late (handle_all (PartCache cache f) (map packet (order ++ late))).
Proof using All.
  intros Hp Hlate Hn. pose proof (Permutation_length Hp) as Hl. rewrite length_seq in Hl.
  assert (NoDup order) as Hnd by (rewrite Hp; apply NoDup_seq).
  assert (forall i, i ∈ order ++ late -> (i < n)%nat) as Hb.
  { intros i [Hi|Hi]%elem_of_app; [|by apply Hlate]. rewrite Hp, elem_of_seq in Hi. lia. }
  destruct order as [|i order]; [simpl in Hl; lia|].
  assert (i < n)%nat as Hi by (apply Hb; by left). cbn [app map handle_all].
  destruct (decide (n = 1%nat)) as [E1|Hn1].
  - destruct order; [|simpl in Hl; lia]. destruct (first_part i Hi) as (a & m1 & c & Ha & Hr & Hrefs).
    rewrite handle_packet by done. unfold _np_alias_check_msgpart_cache. rewrite check_dhkey_key.
    cbn [msg_part_filter msg_part_cache]. rewrite Hnew, bind_ok, parts_n.
    destruct (1 <? Z.of_nat n) eqn:E; [apply Z.ltb_lt in E; lia|]. rewrite Ha, bind_ok.
    destruct remember_key as (f' & -> & Hm). rewrite !bind_ok.
    destruct (complete_message a i [i] m1 Hr) as (m2 & -> & Ho); [apply NoDup_singleton | done | done | lia |].
    rewrite !bind_ok. cbn [app]. rewrite handle_late by done. exists f', m2. done.
  - destruct (handle_first i Hi) as (a & m1 & -> & Hr & Hrefs); [lia|]. rewrite bind_ok.
    apply NoDup_cons in Hnd as [Hio Hnd].
    destruct (handle_rest order late a i [i] m1 Hr) as (f' & m2 & Hm & Ho & ->).
    + rewrite Permutation_app_comm. by apply NoDup_cons.
    + intros k Hk. apply Hb. by right.
    + rewrite length_app. simpl in *. lia.
    + intros ->. simpl in Hl. lia.
    + lia.
    + done.
    + exists f', m2. split; [done|]. split; [done|]. rewrite bind_ok. do 2 f_equal. simpl.
      destruct order; [simpl in Hl; lia | done].
Qed.

End reassembly.

(** The hash a message is filed under, from its bytes. *)
Definition message_key (blake2b : list Z -> list Z) (bm : list Z) : np_dhkey_t :=
  np_generate_subject blake2b (np_generate_subject blake2b dhkey_zero (take 16 (drop 92 bm))) (take 14 (drop 14 bm)).

Lemma uuid_set_parts bm x : (120 <= length bm)%nat -> take 16 (drop 92 (set_parts bm x)) = take 16 (drop 92 bm).
Proof.
  intros Hl. unfold set_parts. change (Z.to_nat _) with 120%nat.
  rewrite drop_app_le by (rewrite length_take; lia).
  rewrite take_app_le by (rewrite length_drop, length_take; lia).
  rewrite !take_drop_commute, take_take. done.
Qed.

Lemma late_numbers (n : nat) (f : nat -> list Z) late : late ⊆ map f (List.seq 0 n) ->
  exists lo, late = map f lo /\ forall i, i ∈ lo -> (i < n)%nat.
Proof.
  induction late as [|pk late IH]; intros Hlate; [exists []; split; [done|]; intros i Hi; by apply elem_of_nil in Hi|].
  destruct IH as (lo & -> & Hlo); [intros x Hx; apply Hlate; by right|].
  destruct (proj1 (list_elem_of_fmap _ _ _) (Hlate pk ltac:(left))) as (i & -> & Hi).
  exists (i :: lo). split; [done|]. intros k [->|Hk]%elem_of_cons; [|by apply Hlo].
  apply elem_of_seq in Hi. lia.
Qed.

Lemma key_message_key blake2b n m m' body :
  whole n m' body -> binary_message m' = set_parts (binary_message m) (Z.of_nat n) ->
  mac_e m' = take 16 (drop 12 (binary_message m)) -> (120 <= length (binary_message m))%nat ->
  key blake2b m' = message_key blake2b (binary_message m).
Proof.
  intros [_ _ Hb Ln Lm Lh _ _ _] Hbin Hmac Hl. unfold key, message_key.
  assert (header_uuid (header m') = take 16 (drop 92 (binary_message m))) as ->.
  { rewrite <- (uuid_set_parts _ (Z.of_nat n)), <- Hbin, Hb by done. unfold header_uuid.
    change (Z.to_nat NP_UUID_BYTES) with 16%nat. change (Z.to_nat (2 * _msg_header_dhkey_bytes)) with 64%nat.
    rewrite app_assoc, (drop_app_ge (nonce m' ++ mac_e m')) by (rewrite length_app; lia).
    rewrite length_app, Ln, Lm. change (92 - (12 + 16))%nat with 64%nat.
    rewrite drop_app_le, take_app_le by (rewrite ?length_drop; lia). done. }
  f_equal. rewrite Hmac, take_drop_commute, drop_drop, take_drop_commute. done.
Qed.

(** The packets whose numbers wrap around: the second one is a fault of the receiver. *)
Lemma handle_wrapped blake2b fuel n m body blob pc :
  whole n m body -> (n <= 72)%nat -> 65536 < le16 (mac_e m) + Z.of_nat n -> (16 <= length blob)%nat -> (n < fuel)%nat ->
  _np_decaying_bloom_check (msg_part_filter pc) (key blake2b m) = Ok false -> msg_part_cache pc !! key blake2b m = None ->
  exists i, (0 < i < n)%nat /\
    forall rest, handle_all blake2b fuel pc (packet m body blob 0 :: packet m body blob i :: rest) = Err Bad_access.
Proof.
  intros Hw Hn Hwrap Hblob Hf Hnew Hcache. pose proof (le16_range _ (proj1 (wh_bytes _ _ _ Hw))) as [_ Hhi].
  change (2 ^ 16) with 65536 in Hhi. destruct fuel as [|[|fl]]; [lia|lia|].
  destruct (wrapped_number_faults n m body blob fl Hw ltac:(lia) Hwrap) as (i & m1 & c & Hi & E1 & E2).
  assert (forall j, check_dhkey blake2b (read_back blob m body j) = key blake2b m) as Hk.
  { intros j. by apply (check_dhkey_key blake2b n). }
  assert (forall j, part_parts (read_back blob m body j) = Z.of_nat n) as Hp by (intros j; apply Hw).
  set (pc1 := PartCache (<[key blake2b m := m1]> (msg_part_cache pc)) (msg_part_filter pc)).
  assert (__np_handle blake2b (S (S fl)) pc (packet m body blob 0) = Ok (pc1, None)) as H0.
  { unfold __np_handle, packet. rewrite (packet_read_back n) by (done || lia). rewrite bind_ok.
    unfold _np_alias_check_msgpart_cache. rewrite Hk, Hnew, bind_ok, Hp, Hcache.
    destruct (Z.ltb_spec 1 (Z.of_nat n)); [|lia]. by rewrite E1. }
  assert (__np_handle blake2b (S (S fl)) pc1 (packet m body blob i) = Err Bad_access) as H1.
  { unfold __np_handle, packet. rewrite (packet_read_back n) by (done || lia). rewrite bind_ok.
    unfold _np_alias_check_msgpart_cache. rewrite Hk. cbn [pc1 msg_part_filter msg_part_cache].
    rewrite Hnew, bind_ok, Hp, lookup_insert_eq. destruct (Z.ltb_spec 1 (Z.of_nat n)); [|lia]. by rewrite E2. }
  exists i. split; [done|]. intros rest. cbn [handle_all]. by rewrite H0, bind_ok, H1.
Qed.

(** C4: Whatever the order its packets arrive in, a message of at most 72 chunks whose
    chunk numbers (the first two bytes of its mac counted up) do not wrap around is
    handed on exactly once, when its last packet comes, byte for byte as it was sent;
    packets of it that come later are dropped, the cache is left as it was, and no
    reference on a part is kept.  The message is a new one (its hash is neither in
    the cache nor in the filter) and the filter has a free place.  When the numbers
    wrap around (a mac that begins with 255 255 and two chunks) there is an order of
    arrival in which the receiver reads outside of the array of the chunks. *)
Theorem message_handed_on_once blake2b fuel n m blob pc :
  (forall d, Forall (in_u 8) (blake2b d)) ->
  state m = msgstate_binary -> msg_chunks m = None -> byte_list (binary_message m) ->
  length (binary_message m) = (124 + 900 * n)%nat -> (0 < n <= 72)%nat ->
  (16 <= length blob)%nat -> (n < fuel)%nat ->
  decaying_wf (msg_part_filter pc) -> 0 < _free_items (msg_part_filter pc) ->
  _np_decaying_bloom_check (msg_part_filter pc) (message_key blake2b (binary_message m)) = Ok false ->
  msg_part_cache pc !! message_key blake2b (binary_message m) = None ->
  exists ms, send m = Ok ms /\
    (le16 (take 16 (drop 12 (binary_message m))) + Z.of_nat n <= 65536 ->
     forall arrived late, arrived ≡ₚ packets blob ms -> late ⊆ packets blob ms ->
     exists f' m2, handle_all blake2b fuel pc (arrived ++ late) =
         Ok (PartCache (msg_part_cache pc) f', replicate (pred n) None ++ Some m2 :: replicate (length late) None) /\
       binary_message m2 = set_parts (binary_message m) (Z.of_nat n) /\ state m2 = msgstate_binary /\ refs m2 = 0) /\
    (65536 < le16 (take 16 (drop 12 (binary_message m))) + Z.of_nat n ->
     exists arrived, arrived ≡ₚ packets blob ms /\ handle_all blake2b fuel pc arrived = Err Bad_access).
Proof.
  intros Hh Hst Hch Hby Hl [Hn0 Hn] Hblob Hf Hwf Hfree Hnew Hcache.
  destruct (calculate_chunking_whole m n Hst Hch Hby Hl Hn) as (mw & body & Ec & Hw & Hbin & Hmac & _).
  destruct (serialize_chunked_sent n mw body Hw) as (ms & Es & Hcs & _ & _).
  exists ms. unfold send. rewrite Ec, bind_ok. split; [done|].
  rewrite (packets_sent blob ms _ _ Hcs). rewrite <- Hmac.
  rewrite <- (key_message_key blake2b n m mw body) in Hnew, Hcache by (done || lia).
  split; [intros Hroom arrived late Ha Hlate|intros Hwrap].
  - apply Permutation_map_inv in Ha as (order & -> & Hp).
    destruct (late_numbers n (packet mw body blob) late Hlate) as (lo & -> & Hlo).
    rewrite <- map_app, length_map.
    destruct (handle_message blake2b fuel Hh n mw body blob Hw Hblob Hf Hroom) with (cache := msg_part_cache pc)
      (f := msg_part_filter pc) (order := order) (late := lo) as (f' & m2 & _ & (Hb2 & Hs2 & _ & Hr2) & Hrun);
      try done; [unfold UINT16_MAX; lia|].
    rewrite <- (Permutation_length Hp), length_seq in Hrun. exists f', m2.
    split; [by destruct pc|]. by rewrite <- Hbin.
  - destruct (handle_wrapped blake2b fuel n mw body blob pc) as (i & Hi & E); try done.
    destruct (two_first n i Hi) as [rest Hrest].
    exists (map (packet mw body blob) (0%nat :: i :: rest)). split; [by rewrite Hrest|]. apply E.
Qed.

Lemma message_handed_on_once_witness :
  (exists ms, send (demo_message 2) = Ok ms /\
    forall arrived late, arrived ≡ₚ packets (replicate 16 0) ms -> late ⊆ packets (replicate 16 0) ms ->
    exists f' m2, handle_all (fun _ => replicate 32 1) 3 part_cache_init (arrived ++ late) =
        Ok (PartCache (msg_part_cache part_cache_init) f', replicate 1 None ++ Some m2 :: replicate (length late) None) /\
      binary_message m2 = set_parts (binary_message (demo_message 2)) (Z.of_nat 2) /\
      state m2 = msgstate_binary /\ refs m2 = 0) /\
  (exists ms, send (wrapping_message 2) = Ok ms /\
    exists arrived, arrived ≡ₚ packets (replicate 16 0) ms /\
      handle_all (fun _ => replicate 32 1) 3 part_cache_init arrived = Err Bad_access).
Proof.
  split.
  - destruct (message_handed_on_once (fun _ => replicate 32 1) 3 2 (demo_message 2) (replicate 16 0) part_cache_init) as (ms & E & Hok & _);
      try done; try lia; try by_decide; try (apply Forall_replicate; by_decide); [by intros _; apply Forall_replicate; by_decide|].
    exists ms. split; [done|]. apply Hok. vm_compute. done.
  - destruct (message_handed_on_once (fun _ => replicate 32 1) 3 2 (wrapping_message 2) (replicate 16 0) part_cache_init) as (ms & E & _ & Hbad);
      try done; try lia; try by_decide; try (apply Forall_replicate; by_decide); [by intros _; apply Forall_replicate; by_decide|].
    exists ms. split; [done|]. apply Hbad. vm_compute. done.
Defined.

(** ** The periodic clean-up *)

Lemma icbrt_spec fuel : forall k n,
  0 <= k -> k * k * k <= n < (k + Z.of_nat fuel + 1) * (k + Z.of_nat fuel + 1) * (k + Z.of_nat fuel + 1) ->
  let r := icbrt fuel k n in k <= r /\ r * r * r <= n < (r + 1) * (r + 1) * (r + 1).
Proof.
  induction fuel as [|fuel IH]; intros k n Hk [Hlo Hhi]; simpl.
  - replace (k + Z.of_nat 0 + 1) with (k + 1) in Hhi by lia. lia.
  - destruct (Z.leb_spec ((k + 1) * (k + 1) * (k + 1)) n); [|lia].
    destruct (IH (k + 1) n) as [? ?]; [lia | | split; [lia | done]].
    split; [done|]. replace (k + 1 + Z.of_nat fuel + 1) with (k + Z.of_nat (S fuel) + 1) by lia. done.
Qed.

Lemma dcell_zeros n j : dcell 16 (replicate n 0) j = 0.
Proof.
  assert (forall i, nth i (replicate n 0) 0 = 0) as H.
  { intros i. rewrite nth_lookup. destruct (replicate n 0 !! i) eqn:E; [|done].
    by apply lookup_replicate in E as [-> _]. }
  unfold dcell. change (16 =? 8) with false. cbn iota. by rewrite !H.
Qed.

Lemma standard_clear_decaying f :
  _d f = 16 -> _num_blocks f = 1 -> 0 < _size f <= 65535 -> _size f mod 8 = 0 -> 0 <= _p f < 32 ->
  _np_standard_bloom_clear f
  = Ok (set_free (set_bitset f (replicate (Z.to_nat (2 * _size f)) 0)) (_size f)).
Proof.
  intros Hd Hb Hs H8 Hp. unfold _np_standard_bloom_clear. rewrite Hd, Hb, Z.mul_1_l.
  replace (_size f / 8 * 16) with (2 * _size f) by divlia.
  rewrite (u64_id (2 * _size f)), (u64_id (_size f)), (u64_id (_size f * 16)) by (unfold in_u; lia).
  replace (_size f * 16 / 16) with (_size f) by divlia. replace (_size f * 16 / 8) with (2 * _size f) by divlia.
  rewrite u16_id by (unfold in_u; change (2 ^ 16) with 65536; lia).
  unfold memset0, calloc. rewrite Z.mul_1_l, u64_id by (unfold in_u; lia).
  rewrite decide_True by (rewrite length_replicate; lia). cbn [mbind result_bind].
  rewrite drop_ge by (rewrite length_replicate; lia). by rewrite app_nil_r.
Qed.

Lemma cleared_wf f :
  _d f = 16 -> 0 < _size f <= 65535 -> 0 <= _p f < 32 ->
  decaying_wf (set_free (set_bitset f (replicate (Z.to_nat (2 * _size f)) 0)) (_size f)).
Proof.
  intros Hd Hs Hp. unfold decaying_wf. cbn [_d _size _p _bitset _free_items set_free set_bitset].
  rewrite Hd, length_replicate. change (16 / 8) with 2.
  split; [by right|]. split; [done|]. split; [done|]. split; [lia|]. split; [|unfold in_u; change (2 ^ 16) with 65536; lia].
  apply Forall_replicate. by_decide.
Qed.

(** The clean-up drops exactly the messages whose time to live is over, and with
    fewer than 512 peers it keeps the duplicate filter usable: well formed, sized to
    the cube root of the number of peers; at an unchanged size every cell has faded
    by the old number of bits, and a change of size forgets all that was handed on. *)
Theorem cleanup_spec double_of now routes neighbours pc :
  let f := msg_part_filter pc in
  let peers := routes + neighbours in
  decaying_wf f -> _d f = 16 -> _num_blocks f = 1 -> 0 <= peers < 512 ->
  exists k f', 0 <= k < 8 /\ k * k * k <= peers < (k + 1) * (k + 1) * (k + 1) /\
    _np_alias_cleanup_msgpart_cache double_of now routes neighbours pc =
      Ok (PartCache (filter (fun kv => message_expired double_of now kv.2 = false) (msg_part_cache pc)) f') /\
    decaying_wf f' /\ _d f' = 16 /\ _num_blocks f' = 1 /\
    _size f' = Z.max 1 k * NP_MSG_PART_FILTER_SIZE /\ _p f' = Z.max 1 k /\
    forall j, 0 <= j < _size f' -> dcell 16 (_bitset f') j =
      if decide (_size f = _size f') then dcell 16 (_bitset f) j ≫ _p f else 0.
Proof.
  intros f peers Hf Hd Hb Hp. set (k := icbrt 41 0 peers).
  destruct (icbrt_spec 41 0 peers) as [Hk0 Hk]; [lia | simpl; lia|]. fold k in Hk0, Hk.
  assert (k < 8) as Hk8 by nia. exists k.
  unfold _np_alias_cleanup_msgpart_cache. fold f.
  destruct (decaying_decay_ok f Hf) as (bs & fr & -> & Hwf & Hcells). cbn [mbind result_bind].
  unfold adjust_filter. rewrite u16_id by (unfold in_u, peers in *; change (2 ^ 16) with 65536; lia).
  fold peers. fold k. rewrite u8_id by (unfold in_u; change (2 ^ 8) with 256; lia).
  assert ((if 0 <? k then k * NP_MSG_PART_FILTER_SIZE else NP_MSG_PART_FILTER_SIZE) = Z.max 1 k * NP_MSG_PART_FILTER_SIZE) as ->.
  { destruct (Z.ltb_spec 0 k); [f_equal; lia|]. replace (Z.max 1 k) with 1 by lia. lia. }
  assert ((if 1 <? k then k else 1) = Z.max 1 k) as -> by (destruct (Z.ltb_spec 1 k); lia).
  cbn [_size set_free set_bitset _type _d _p _rng _bitset _num_blocks _free_items].
  pose proof Hf as (_ & Hs & Hpf & _). unfold NP_MSG_PART_FILTER_SIZE.
  destruct (Z.eqb_spec (_size f) (Z.max 1 k * 8192)) as [He|He]; cbn [negb].
  - eexists. do 2 (split; [lia|]). split; [reflexivity|].
    cbn [_size set_free set_bitset _type _d _p _rng _bitset _num_blocks _free_items].
    destruct Hwf as (H1 & H2 & H3 & H4 & H5 & H6). split.
    { split; [done|]. split; [done|]. split; [simpl; lia|]. done. }
    do 4 (split; [done|]). intros j Hj. rewrite decide_True by done. rewrite <- Hd. by apply Hcells.
  - rewrite standard_clear_decaying; cbn [_size set_free set_bitset _type _d _p _rng _bitset _num_blocks _free_items]; try done; try lia; try divlia.
    cbn [mbind result_bind]. eexists. do 2 (split; [lia|]). split; [reflexivity|].
    cbn [_size set_free set_bitset _type _d _p _rng _bitset _num_blocks _free_items].
    split.
    + pose proof (cleared_wf (Bloom (_type f) (Z.max 1 k * 8192) (_d f) (Z.max 1 k) (_rng f) [] 1 0)) as H. apply H; simpl; lia.
    + do 4 (split; [done|]). intros j Hj. rewrite decide_False by done. apply dcell_zeros.
Qed.

Lemma cleanup_spec_witness :
  let pc := part_cache_init in
  exists k f', 0 <= k < 8 /\ k * k * k <= 20 + 7 < (k + 1) * (k + 1) * (k + 1) /\
    _np_alias_cleanup_msgpart_cache (fun _ => 0%Q) 100%Q 20 7 pc =
      Ok (PartCache (filter (fun kv => message_expired (fun _ => 0%Q) 100%Q kv.2 = false) (msg_part_cache pc)) f') /\
    decaying_wf f' /\ _d f' = 16 /\ _num_blocks f' = 1 /\
    _size f' = Z.max 1 k * NP_MSG_PART_FILTER_SIZE /\ _p f' = Z.max 1 k /\
    forall j, 0 <= j < _size f' -> dcell 16 (_bitset f') j =
      if decide (_size (msg_part_filter pc) = _size f') then dcell 16 (_bitset (msg_part_filter pc)) j ≫ _p (msg_part_filter pc) else 0.
Proof. apply (cleanup_spec (fun _ => 0%Q) 100%Q 20 7 part_cache_init); [by_decide | done | done | lia]. Defined.

(** From 512 peers on the number of free places of the filter, 16 bits wide, is
    zero, and the next message handed on aborts the program. *)
Lemma filter_unusable_at_512 id :
  (f ← adjust_filter 512 (msg_part_filter part_cache_init); _np_decaying_bloom_add f id) = Err Aborted.
Proof. vm_compute. reflexivity. Qed.

(** The filter counts down to zero between two clean-ups, after 8192 messages. *)
Lemma filter_used_up blake2b fuel pc p m c :
  _free_items (msg_part_filter pc) = 0 -> part_parts p = 1 ->
  _np_decaying_bloom_check (msg_part_filter pc) (check_dhkey blake2b p) = Ok false ->
  add_chunk fuel _np_message_t_new p = Ok (m, np_ok, c) ->
  _np_alias_check_msgpart_cache blake2b fuel pc p = Err Aborted.
Proof.
  intros Hf Hp Hc Ha. unfold _np_alias_check_msgpart_cache. rewrite Hc, bind_ok, Hp, Ha. simpl.
  unfold _np_decaying_bloom_add. by rewrite Hf.
Qed.
