(* ===== verification/Dll.v ===== *)
(** * The doubly linked list and the priority list of [include/util/np_list.h]
    (DLL and PLL)

    Both have the same header and nodes; as for the singly linked list, nodes live
    in a store, a pointer is an optional address, and following [NULL] or a freed
    address is a fault.  [alloc] is [calloc], [zero] the value an empty list
    returns.  The loops over nodes get the number of live nodes as fuel. *)
From Stdlib Require Import ZArith Lia.
From stdpp Require Import prelude fin_maps gmap.
From S2P Require Import Prelude.

Local Open Scope Z_scope.

Abbreviation loc := positive.

Record dll_node_t (T : Type) := DNode {
  flink : option loc;
  blink : option loc;
  val : T;
}.
Arguments DNode {T}.
Arguments flink {T}.
Arguments blink {T}.
Arguments val {T}.

Record dll_t := DList {
  dl_size : Z;
  dl_first : option loc;
  dl_last : option loc;
}.

Section Dll.
Context {T : Type} (zero : T) (alloc : gmap loc (dll_node_t T) -> loc).
Abbreviation mem := (gmap loc (dll_node_t T)).

Definition deref (m : mem) (p : option loc) : result (dll_node_t T) :=
  match p with
  | None => Err Bad_access
  | Some l => match m !! l with Some n => Ok n | None => Err Bad_access end
  end.

(** The node at [p] is changed by [f]. *)
Definition update (m : mem) (p : option loc) (f : dll_node_t T -> dll_node_t T) : result mem :=
  match p with
  | None => Err Bad_access
  | Some l => match m !! l with Some n => Ok (<[l := f n]> m) | None => Err Bad_access end
  end.
Definition set_flink (q : option loc) (n : dll_node_t T) : dll_node_t T := DNode q (blink n) (val n).
Definition set_blink (q : option loc) (n : dll_node_t T) : dll_node_t T := DNode (flink n) q (val n).
Definition set_val (v : T) (n : dll_node_t T) : dll_node_t T := DNode (flink n) (blink n) v.

(** The same unless [p] is [NULL]. *)
Definition update_if (m : mem) (p : option loc) (f : dll_node_t T -> dll_node_t T) : result mem :=
  match p with None => Ok m | Some _ => update m p f end.

Definition dfree (m : mem) (p : option loc) : result mem :=
  match p with
  | None => Ok m
  | Some l => match m !! l with Some _ => Ok (delete l m) | None => Err Bad_access end
  end.

(** ** Operations of both lists *)

Definition dll_init : dll_t := DList 0 None None.

Definition dll_delete (m : mem) (s : dll_t) (dll_to_del : option loc) : result (mem * dll_t) :=
  d ← deref m dll_to_del;
  m ← update_if m (flink d) (set_blink (blink d));
  d ← deref m dll_to_del;
  m ← update_if m (blink d) (set_flink (flink d));
  d ← deref m dll_to_del;
  let first := if decide (dl_first s = dll_to_del) then flink d else dl_first s in
  let last := if decide (dl_last s = dll_to_del) then blink d else dl_last s in
  m ← dfree m dll_to_del;
  Ok (m, DList (u32 (dl_size s - 1)) first last).

Definition dll_head (m : mem) (s : dll_t) : result (mem * dll_t * T) :=
  match dl_first s with
  | None => Ok (m, s, zero)
  | Some _ =>
      let tmp := dl_first s in
      n ← deref m tmp;
      m ← update_if m (flink n) (set_blink None);
      let last := match flink n with None => None | Some _ => dl_last s end in
      m ← dfree m tmp;
      Ok (m, DList (u32 (dl_size s - 1)) (flink n) last, val n)
  end.

Definition dll_tail (m : mem) (s : dll_t) : result (mem * dll_t * T) :=
  match dl_last s with
  | None => Ok (m, s, zero)
  | Some _ =>
      let tmp := dl_last s in
      n ← deref m tmp;
      m ← update_if m (blink n) (set_flink None);
      let first := match blink n with None => None | Some _ => dl_first s end in
      m ← dfree m tmp;
      Ok (m, DList (u32 (dl_size s - 1)) first (blink n), val n)
  end.

Fixpoint clear_loop (fuel : nat) (m : mem) (first : option loc) : result mem :=
  match fuel with
  | O => Err Diverges
  | S fuel' =>
      match first with
      | None => Ok m
      | Some _ => n ← deref m first; m ← dfree m first; clear_loop fuel' m (flink n)
      end
  end.

Definition dll_clear (m : mem) (s : dll_t) : result (mem * dll_t) :=
  m ← clear_loop (S (size m)) m (dl_first s);
  Ok (m, DList 0 None None).

(** ** The doubly linked list *)

Definition dll_append (m : mem) (s : dll_t) (value : T) : result (mem * dll_t * loc) :=
  let node := alloc m in
  let m := <[node := DNode None None value]> m in
  match dl_last s with
  | Some _ =>
      m ← update m (dl_last s) (set_flink (Some node));
      m ← update m (Some node) (set_blink (dl_last s));
      Ok (m, DList (u32 (dl_size s + 1)) (dl_first s) (Some node), node)
  | None => Ok (m, DList (u32 (dl_size s + 1)) (Some node) (Some node), node)
  end.

Definition dll_prepend (m : mem) (s : dll_t) (value : T) : result (mem * dll_t * loc) :=
  let node := alloc m in
  let m := <[node := DNode None None value]> m in
  match dl_first s with
  | Some _ =>
      m ← update m (dl_first s) (set_blink (Some node));
      m ← update m (Some node) (set_flink (dl_first s));
      Ok (m, DList (u32 (dl_size s + 1)) (Some node) (dl_last s), node)
  | None => Ok (m, DList (u32 (dl_size s + 1)) (Some node) (Some node), node)
  end.

(** The node a loop from [cur] on stops at. *)
Fixpoint find_node (fuel : nat) (m : mem) (found : T -> bool) (cur : option loc) : result (option loc) :=
  match fuel with
  | O => Err Diverges
  | S fuel' =>
      match cur with
      | None => Ok None
      | Some _ => n ← deref m cur; if found (val n) then Ok cur else find_node fuel' m found (flink n)
      end
  end.

Definition dll_remove `{EqDecision T} (m : mem) (s : dll_t) (value : T) : result (mem * dll_t) :=
  cur ← find_node (S (size m)) m (fun v => bool_decide (value = v)) (dl_first s);
  match cur with None => Ok (m, s) | Some _ => dll_delete m s cur end.

(** ** The priority list *)

Context (cmp_func : T -> T -> Z).

(** The loop of [pll_insert]. *)
Fixpoint insert_loop (fuel : nat) (m : mem) (s : dll_t) (new : loc) (value : T) (dups_ok : bool) (cur : option loc)
    : result (mem * dll_t * bool) :=
  match fuel with
  | O => Err Diverges
  | S fuel' =>
      match cur with
      | None => Ok (m, DList (u32 (dl_size s + 1)) (dl_first s) (dl_last s), true)
      | Some _ =>
          c ← deref m cur;
          let cmp_res := cmp_func (val c) value in
          if cmp_res <? 0 then
            m ← update m (Some new) (set_flink cur);
            m ← update_if m (blink c) (set_flink (Some new));
            m ← update m (Some new) (set_blink (blink c));
            m ← update m cur (set_blink (Some new));
            let first := if decide (cur = dl_first s) then Some new else dl_first s in
            Ok (m, DList (u32 (dl_size s + 1)) first (dl_last s), true)
          else if (cmp_res =? 0) && negb dups_ok then
            m ← dfree m (Some new);
            Ok (m, s, false)
          else if decide (cur = dl_last s) then
            m ← update m cur (set_flink (Some new));
            m ← update m (Some new) (set_blink cur);
            Ok (m, DList (u32 (dl_size s + 1)) (dl_first s) (Some new), true)
          else insert_loop fuel' m s new value dups_ok (flink c)
      end
  end.

Definition pll_insert (m : mem) (s : dll_t) (value : T) (dups_ok : bool) : result (mem * dll_t * bool) :=
  let new := alloc m in
  let m := <[new := DNode None None value]> m in
  match dl_first s with
  | None => Ok (m, DList (u32 (dl_size s + 1)) (Some new) (Some new), true)
  | Some _ => insert_loop (S (size m)) m s new value dups_ok (dl_first s)
  end.

Definition pll_remove (m : mem) (s : dll_t) (value : T) : result (mem * dll_t) :=
  cur ← find_node (S (size m)) m (fun v => cmp_func v value =? 0) (dl_first s);
  match cur with None => Ok (m, s) | Some _ => dll_delete m s cur end.

Definition pll_replace (m : mem) (s : dll_t) (value : T) : result (mem * T) :=
  cur ← find_node (S (size m)) m (fun v => cmp_func v value =? 0) (dl_first s);
  match cur with
  | None => Ok (m, zero)
  | Some _ => n ← deref m cur; m ← update m cur (set_val value); Ok (m, val n)
  end.

(** The search stops at the first element the comparison gives 1 for. *)
Definition pll_find (m : mem) (s : dll_t) (value : T) : result T :=
  cur ← find_node (S (size m)) m (fun v => (cmp_func v value =? 0) || (cmp_func v value =? 1)) (dl_first s);
  match cur with
  | None => Ok zero
  | Some _ => n ← deref m cur; Ok (if cmp_func (val n) value =? 0 then val n else zero)
  end.

End Dll.
