(* ===== verification/DllSpec.v ===== *)
(** * The doubly linked list and the priority list represent sequences *)
From Stdlib Require Import ZArith Lia.
From stdpp Require Import prelude fin_maps gmap sorting.
From S2P Require Import Prelude Dll.

Local Open Scope Z_scope.

Section Segments.
Context {T : Type} (zero : T).
Abbreviation mem := (gmap loc (dll_node_t T)).

Definition fst_or (e : option loc) (ps : list loc) : option loc := match ps with [] => e | p :: _ => Some p end.
Definition lst_or (b : option loc) (ps : list loc) : option loc := match last ps with None => b | Some p => Some p end.

(** The nodes [ps] hold [vs]; the first points back to [b], the last forward to [e]. *)
Fixpoint seg (m : mem) (b : option loc) (ps : list loc) (vs : list T) (e : option loc) : Prop :=
  match ps, vs with
  | [], [] => True
  | p :: ps, v :: vs => m !! p = Some (DNode (fst_or e ps) b v) /\ seg m (Some p) ps vs e
  | _, _ => False
  end.

Lemma dll_seg_length m b ps vs e : seg m b ps vs e -> length ps = length vs.
Proof.
  revert b vs. induction ps as [|p ps IH]; intros b [|v vs] H; simpl in *; try done.
  destruct H as [_ H]. by rewrite (IH (Some p) vs).
Qed.

Lemma lst_or_cons b p ps : lst_or b (p :: ps) = lst_or (Some p) ps.
Proof. unfold lst_or. rewrite last_cons. by destruct (last ps). Qed.

Lemma fst_or_app e ps qs : fst_or e (ps ++ qs) = fst_or (fst_or e qs) ps.
Proof. by destruct ps. Qed.

Lemma lst_or_app b ps qs : lst_or b (ps ++ qs) = lst_or (lst_or b ps) qs.
Proof. unfold lst_or. rewrite last_app. by destruct (last qs). Qed.

Lemma dll_seg_app m b ps qs vs ws e :
  length ps = length vs ->
  seg m b (ps ++ qs) (vs ++ ws) e <-> seg m b ps vs (fst_or e qs) /\ seg m (lst_or b ps) qs ws e.
Proof.
  revert b vs. induction ps as [|p ps IH]; intros b [|v vs] Hl; simpl in *; try done.
  - split; [by intros | by intros [_ ?]].
  - injection Hl as Hl. rewrite fst_or_app, IH, lst_or_cons by done. tauto.
Qed.

Lemma dll_seg_frame m m' b ps vs e :
  (forall p, p ∈ ps -> m' !! p = m !! p) -> seg m b ps vs e -> seg m' b ps vs e.
Proof.
  revert b vs. induction ps as [|p ps IH]; intros b [|v vs] Hf H; simpl in *; try done.
  destruct H as [H1 H2]. split.
  - rewrite Hf by (by left). done.
  - apply IH; [|done]. intros q Hq. apply Hf. by right.
Qed.

Lemma dll_seg_insert m b ps vs e l n : l ∉ ps -> seg m b ps vs e -> seg (<[l := n]> m) b ps vs e.
Proof. intros Hl. apply dll_seg_frame. intros p Hp. apply lookup_insert_ne. by intros ->. Qed.

Lemma dll_seg_delete m b ps vs e l : l ∉ ps -> seg m b ps vs e -> seg (delete l m) b ps vs e.
Proof. intros Hl. apply dll_seg_frame. intros p Hp. apply lookup_delete_ne. by intros ->. Qed.

Lemma dll_seg_in m b ps vs e p : seg m b ps vs e -> p ∈ ps -> is_Some (m !! p).
Proof.
  revert b vs. induction ps as [|q ps IH]; intros b [|v vs] H Hp; simpl in *; try done.
  - by apply not_elem_of_nil in Hp.
  - destruct H as [H1 H2]. apply elem_of_cons in Hp as [->|Hp]; [by eexists | by eapply IH].
Qed.

Lemma dll_seg_size m b ps vs e : seg m b ps vs e -> NoDup ps -> (length ps <= size m)%nat.
Proof.
  intros H Hnd. rewrite <- size_dom, <- (size_list_to_set (C := gset loc) ps) by done.
  apply subseteq_size. intros p Hp. apply elem_of_list_to_set in Hp.
  apply elem_of_dom. by eapply dll_seg_in.
Qed.

Lemma seg_snoc m b ps p vs v e :
  length ps = length vs ->
  seg m b (ps ++ [p]) (vs ++ [v]) e <-> seg m b ps vs (Some p) /\ m !! p = Some (DNode e (lst_or b ps) v).
Proof. intros Hl. rewrite dll_seg_app by done. simpl. tauto. Qed.

(** Changing the pointer at either end. *)
Lemma seg_set_end m b ps p vs v e e' :
  length ps = length vs -> NoDup (ps ++ [p]) -> seg m b (ps ++ [p]) (vs ++ [v]) e ->
  seg (<[p := DNode e' (lst_or b ps) v]> m) b (ps ++ [p]) (vs ++ [v]) e'.
Proof.
  intros Hl Hnd. rewrite !seg_snoc by done. intros [H1 H2]. split; [|apply lookup_insert_eq].
  apply dll_seg_insert; [|done]. apply NoDup_app in Hnd as (_ & Hd & _). intros Hp. apply (Hd p Hp). by left.
Qed.

Lemma seg_set_start m b b' p ps v vs e :
  NoDup (p :: ps) -> seg m b (p :: ps) (v :: vs) e ->
  seg (<[p := DNode (fst_or e ps) b' v]> m) b' (p :: ps) (v :: vs) e.
Proof.
  intros Hnd [H1 H2]. apply NoDup_cons in Hnd as [Hp Hnd]. split; [apply lookup_insert_eq|]. by apply dll_seg_insert.
Qed.

(** The header [s] and the nodes [ps] represent [vs]. *)
Definition is_list (m : mem) (s : dll_t) (ps : list loc) (vs : list T) : Prop :=
  seg m None ps vs None /\ NoDup ps /\ dl_first s = fst_or None ps /\ dl_last s = lst_or None ps /\
  dl_size s = u32 (Z.of_nat (length vs)).

(** Nothing but the nodes [ps] and new addresses changed. *)
Definition frame (m m' : mem) (ps : list loc) : Prop :=
  forall q, is_Some (m !! q) -> q ∉ ps -> m' !! q = m !! q.

Lemma dll_is_list_frame m m' s ps vs qs :
  is_list m s ps vs -> frame m m' qs -> (forall p, p ∈ ps -> p ∉ qs) -> is_list m' s ps vs.
Proof.
  intros (H1 & H2) Hf Hd. split; [|done]. eapply dll_seg_frame; [|done].
  intros p Hp. apply Hf; [by eapply dll_seg_in | by apply Hd].
Qed.

Lemma dll_frame_refl m ps : frame m m ps.
Proof. by intros q _ _. Qed.
Lemma frame_insert m m' ps l n : frame m m' ps -> l ∈ ps \/ m !! l = None -> frame m (<[l := n]> m') ps.
Proof.
  intros Hf Hl q Hq Hqp. rewrite lookup_insert_ne; [by apply Hf|].
  intros ->. destruct Hl as [?|E]; [done|]. rewrite E in Hq. by destruct Hq.
Qed.
Lemma frame_delete m m' ps l : frame m m' ps -> l ∈ ps \/ m !! l = None -> frame m (delete l m') ps.
Proof.
  intros Hf Hl q Hq Hqp. rewrite lookup_delete_ne; [by apply Hf|].
  intros ->. destruct Hl as [?|E]; [done|]. rewrite E in Hq. by destruct Hq.
Qed.

Lemma dll_u32_succ x : u32 (u32 x + 1) = u32 (x + 1).
Proof. unfold u32. by rewrite Zplus_mod_idemp_l. Qed.
Lemma dll_u32_pred x : u32 (u32 x - 1) = u32 (x - 1).
Proof. unfold u32. by rewrite Zminus_mod_idemp_l. Qed.

Lemma update_some (m : mem) p n f : m !! p = Some n -> update m (Some p) f = Ok (<[p := f n]> m).
Proof. intros H. simpl. by rewrite H. Qed.

Lemma list_snoc_inv {A} (l : list A) : l = [] \/ exists l' x, l = l' ++ [x].
Proof. induction l using rev_ind; [by left|]. right. by eexists _, _. Qed.
End Segments.

(** ** Relinking *)

Section Relink.
Context {T : Type} (zero : T).
Abbreviation mem := (gmap loc (dll_node_t T)).
Implicit Types m : gmap loc (dll_node_t T).

(** The first node of a segment points back to [b'] now. *)
Lemma link_back m b b' post vs e :
  seg m b post vs e -> NoDup post ->
  exists m', update_if m (fst_or None post) (set_blink b') = Ok m' /\ seg m' b' post vs e /\
    forall q, q ∉ post -> m' !! q = m !! q.
Proof.
  intros H Hnd. destruct post as [|r post], vs as [|w vs]; simpl in H; try done.
  - exists m. done.
  - pose proof H as [Hr _]. cbn [fst_or update_if]. rewrite (update_some _ _ _ _ Hr).
    eexists. split; [done|]. split; [by apply (seg_set_start m b b')|].
    intros q Hq. apply lookup_insert_ne. intros ->. apply Hq. by left.
Qed.

(** The last node of a segment points forward to [e'] now. *)
Lemma link_fwd m b pre vs e e' :
  seg m b pre vs e -> NoDup pre ->
  exists m', update_if m (lst_or None pre) (set_flink e') = Ok m' /\ seg m' b pre vs e' /\
    forall q, q ∉ pre -> m' !! q = m !! q.
Proof.
  intros H Hnd. pose proof (dll_seg_length _ _ _ _ _ H) as Hl.
  destruct (list_snoc_inv pre) as [->|(ps & p & ->)], (list_snoc_inv vs) as [->|(ws & w & ->)];
    rewrite ?length_app in Hl; simpl in Hl; try lia.
  - exists m. done.
  - assert (length ps = length ws) as Hl' by lia.
    pose proof (proj1 (seg_snoc _ _ _ _ _ _ _ Hl') H) as [_ Hp].
    unfold lst_or at 1. rewrite last_snoc. cbn [update_if]. rewrite (update_some _ _ _ _ Hp).
    eexists. split; [done|]. split; [by apply (seg_set_end m b ps p ws w e)|].
    intros q Hq. apply lookup_insert_ne. intros ->. apply Hq. apply elem_of_app. right. by left.
Qed.

Lemma dll_seg_split m b pre p post vs e :
  seg m b (pre ++ p :: post) vs e ->
  exists vpre v vpost, vs = vpre ++ v :: vpost /\ length pre = length vpre /\
    seg m b pre vpre (Some p) /\ m !! p = Some (DNode (fst_or e post) (lst_or b pre) v) /\ seg m (Some p) post vpost e.
Proof.
  intros H. pose proof (dll_seg_length _ _ _ _ _ H) as Hl. rewrite length_app in Hl. simpl in Hl.
  assert (length (take (length pre) vs) = length pre) as Ht by (rewrite length_take; lia).
  rewrite <- (take_drop (length pre) vs) in H. rewrite dll_seg_app in H by done.
  destruct H as [H1 H2]. destruct (drop (length pre) vs) as [|v vpost] eqn:E; [done|].
  exists (take (length pre) vs), v, vpost. simpl in H2. destruct H2 as [H2 H3].
  split; [by rewrite <- E, take_drop|]. done.
Qed.

Lemma NoDup_middle {A} (pre : list A) p post :
  NoDup (pre ++ p :: post) ->
  NoDup pre /\ NoDup post /\ (p ∉ pre) /\ (p ∉ post) /\ NoDup (pre ++ post) /\ (forall q, (q ∈ pre) -> (q ∉ post)).
Proof.
  intros (H1 & H2 & H3)%NoDup_app. apply NoDup_cons in H3 as [H3 H4].
  split; [done|]. split; [done|]. split; [intros Hp; apply (H2 p Hp); by left|]. split; [done|].
  assert (forall q, (q ∈ pre) -> (q ∉ post)) as Hd by (intros q Hq Hq'; apply (H2 q Hq); by right).
  split; [|done]. by apply NoDup_app.
Qed.

Lemma dll_delete_ok m s pre p post vpre v vpost :
  is_list m s (pre ++ p :: post) (vpre ++ v :: vpost) -> length pre = length vpre ->
  exists m' s', dll_delete m s (Some p) = Ok (m', s') /\
    is_list m' s' (pre ++ post) (vpre ++ vpost) /\ frame m m' (pre ++ p :: post) /\ m' !! p = None.
Proof.
  intros (Hs & Hnd & Hfi & Hla & Hsz) Hl. apply dll_seg_app in Hs as [Hpre [Hp Hpost]]; [|done].
  destruct (NoDup_middle _ _ _ Hnd) as (Hn1 & Hn2 & Hp1 & Hp2 & Hn3 & Hd).
  unfold dll_delete. cbn [deref]. rewrite Hp, bind_ok. cbn [flink blink].
  destruct (link_back m (Some p) (lst_or None pre) post vpost None Hpost Hn2) as (m1 & -> & Hpost1 & Hk1).
  rewrite bind_ok, (Hk1 p Hp2), Hp, bind_ok. cbn [flink blink].
  assert (seg m1 None pre vpre (Some p)) as Hpre1.
  { eapply dll_seg_frame; [|exact Hpre]. intros q Hq. by apply Hk1, Hd. }
  destruct (link_fwd m1 None pre vpre (Some p) (fst_or None post) Hpre1 Hn1) as (m2 & -> & Hpre2 & Hk2).
  rewrite bind_ok, (Hk2 p Hp1), (Hk1 p Hp2), Hp, bind_ok. cbn [flink blink dfree].
  rewrite (Hk2 p Hp1), (Hk1 p Hp2), Hp, bind_ok.
  eexists _, _. split; [reflexivity|]. split; [|split; [|apply lookup_delete_eq]].
  - split; [|split; [done|split; [|split]]].
    + apply dll_seg_app; [done|]. split; apply dll_seg_delete; try done.
      eapply dll_seg_frame; [|exact Hpost1]. intros q Hq. apply Hk2. intros Hq'. by apply (Hd q).
    + simpl. rewrite Hfi. destruct pre as [|q pre]; simpl; [by rewrite decide_True|].
      rewrite decide_False; [done|]. intros [= ->]. apply Hp1. by left.
    + simpl. rewrite Hla, lst_or_app, lst_or_cons. destruct (list_snoc_inv post) as [->|(po & q & ->)].
      * unfold lst_or at 1 2. simpl. rewrite decide_True by done. by rewrite app_nil_r.
      * rewrite lst_or_app. unfold lst_or at 1 3. simpl. rewrite app_assoc, lst_or_app. unfold lst_or at 3. simpl.
        rewrite decide_False; [done|]. intros [= ->]. apply Hp2, elem_of_app. right. by left.
    + simpl. rewrite Hsz, dll_u32_pred, !length_app. simpl. f_equal. lia.
  - apply frame_delete; [|left; apply elem_of_app; right; by left].
    intros q _ Hq. rewrite Hk2, Hk1; [done | |]; intros Hq'; apply Hq, elem_of_app; [right; by right | by left].
Qed.
End Relink.

(** ** The operations *)

Section Operations.
Context {T : Type} (zero : T) (alloc : gmap loc (dll_node_t T) -> loc).
Context (alloc_fresh : forall m, m !! alloc m = None).
Abbreviation mem := (gmap loc (dll_node_t T)).
Implicit Types m : gmap loc (dll_node_t T).

Lemma fresh_not_in m b ps (vs : list T) e l : seg m b ps vs e -> m !! l = None -> l ∉ ps.
Proof. intros H Hl Hin. destruct (dll_seg_in _ _ _ _ _ _ H Hin) as [x Hx]. congruence. Qed.

(** A new node behind the last one. *)
Lemma link_new_last m s ps vs new v :
  is_list m s ps vs -> m !! new = None ->
  exists m', (m ← update_if (<[new := DNode None None v]> m) (dl_last s) (set_flink (Some new));
              update m (Some new) (set_blink (dl_last s))) = Ok m' /\
    is_list m' (DList (u32 (dl_size s + 1)) (fst_or (Some new) ps) (Some new)) (ps ++ [new]) (vs ++ [v]) /\ frame m m' ps.
Proof.
  intros (Hs & Hnd & Hfi & Hla & Hsz) Hnew. pose proof (fresh_not_in _ _ _ _ _ _ Hs Hnew) as Hn.
  pose proof (dll_seg_length _ _ _ _ _ Hs) as Hl. rewrite Hla.
  destruct (link_fwd (<[new := DNode None None v]> m) None ps vs None (Some new)) as (m1 & -> & Hs1 & Hk);
    [by apply dll_seg_insert | done |].
  rewrite bind_ok. assert (m1 !! new = Some (DNode None None v)) as Hm1 by (rewrite Hk by done; apply lookup_insert_eq).
  rewrite (update_some _ _ _ _ Hm1). eexists. split; [done|]. cbn [set_blink flink val]. split.
  - split; [|split; [|split; [|split]]].
    + apply seg_snoc; [done|]. split; [by apply dll_seg_insert | apply lookup_insert_eq].
    + apply NoDup_app. split; [done|]. split; [|apply NoDup_singleton]. by intros q Hq ->%list_elem_of_singleton.
    + simpl. rewrite fst_or_app. by destruct ps.
    + simpl. rewrite lst_or_app. done.
    + simpl. rewrite Hsz, dll_u32_succ, length_app. simpl. f_equal. lia.
  - apply frame_insert; [|by right]. intros q [x Hq] Hqp. rewrite Hk by done. apply lookup_insert_ne. intros ->. congruence.
Qed.

(** A new node before the first of [r :: post]. *)
Lemma link_new_before m s pre r post vpre vpost new v :
  is_list m s (pre ++ r :: post) (vpre ++ vpost) -> length pre = length vpre -> m !! new = None ->
  exists m', (m ← update (<[new := DNode None None v]> m) (Some new) (set_flink (Some r));
              m ← update_if m (lst_or None pre) (set_flink (Some new));
              m ← update m (Some new) (set_blink (lst_or None pre));
              update m (Some r) (set_blink (Some new))) = Ok m' /\
    is_list m' (DList (u32 (dl_size s + 1)) (if decide (Some r = dl_first s) then Some new else dl_first s) (dl_last s))
      (pre ++ new :: r :: post) (vpre ++ v :: vpost) /\ frame m m' (pre ++ r :: post).
Proof.
  intros (Hs & Hnd & Hfi & Hla & Hsz) Hl Hnew. pose proof (fresh_not_in _ _ _ _ _ _ Hs Hnew) as Hn.
  assert ((new ∉ pre) /\ new ∉ (r :: post)) as [Hn1 Hn2] by (split; intros ?; apply Hn, elem_of_app; auto).
  apply dll_seg_app in Hs as [Hpre Hpost]; [|done].
  apply NoDup_app in Hnd as (Hd1 & Hdd & Hd2).
  rewrite (update_some _ _ _ _ (lookup_insert_eq _ _ _)), bind_ok, insert_insert_eq.
  unfold set_flink at 1. cbn [blink val].
  destruct (link_fwd (<[new := DNode (Some r) None v]> m) None pre vpre (Some r) (Some new)) as (m2 & -> & Hpre2 & Hk2);
    [by apply dll_seg_insert | done |].
  rewrite bind_ok. assert (m2 !! new = Some (DNode (Some r) None v)) as Hm2 by (rewrite Hk2 by done; apply lookup_insert_eq).
  rewrite (update_some _ _ _ _ Hm2), bind_ok.
  change (set_blink (lst_or None pre) (DNode (Some r) None v)) with (DNode (Some r) (lst_or None pre) v).
  set (m3 := <[new := DNode (Some r) (lst_or None pre) v]> m2).
  assert (seg m3 (lst_or None pre) (r :: post) vpost None) as Hpost3.
  { apply dll_seg_insert; [done|]. eapply dll_seg_frame; [|exact Hpost]. intros q Hq.
    rewrite Hk2 by (intros ?; by apply (Hdd q)). apply lookup_insert_ne. intros ->. done. }
  destruct (link_back m3 (lst_or None pre) (Some new) (r :: post) vpost None Hpost3 Hd2) as (m4 & Hu & Hpost4 & Hk4).
  cbn [fst_or update_if] in Hu. rewrite Hu. exists m4. split; [done|]. split.
  - split; [|split; [|split; [|split]]].
    + apply dll_seg_app; [done|]. split.
      * simpl. eapply dll_seg_frame; [|apply dll_seg_insert; [exact Hn1 | exact Hpre2]]. intros q Hq. apply Hk4. by apply Hdd.
      * split; [|done]. rewrite Hk4 by done. apply lookup_insert_eq.
    + apply NoDup_app. split; [done|]. split; [|by apply NoDup_cons].
      intros q Hq [->|Hq']%elem_of_cons; [done|]. by apply (Hdd q).
    + simpl. rewrite Hfi. destruct pre as [|q pre]; simpl; [by rewrite decide_True|].
      rewrite decide_False; [done|]. intros [= ->]. apply (Hdd q); by left.
    + simpl. rewrite Hla, !lst_or_app, lst_or_cons. by rewrite !lst_or_cons.
    + simpl. rewrite Hsz, dll_u32_succ, !length_app. simpl. f_equal. lia.
  - intros q [x Hq] Hqp. rewrite Hk4 by (intros ?; apply Hqp, elem_of_app; by right). unfold m3.
    rewrite lookup_insert_ne by (intros ->; congruence).
    rewrite Hk2 by (intros ?; apply Hqp, elem_of_app; by left). apply lookup_insert_ne. intros ->. congruence.
Qed.

Lemma dll_append_ok m s ps vs v :
  is_list m s ps vs -> exists m' s', dll_append alloc m s v = Ok (m', s', alloc m) /\
    is_list m' s' (ps ++ [alloc m]) (vs ++ [v]) /\ frame m m' ps.
Proof using alloc_fresh.
  intros Hl. destruct (link_new_last m s ps vs (alloc m) v Hl (alloc_fresh m)) as (m' & Hu & Hl' & Hf).
  pose proof Hl as (Hs & _ & Hfi & Hla & _). unfold dll_append. destruct (dl_last s) as [l|] eqn:E.
  - cbn [update_if] in Hu. apply bind_Ok_inv in Hu as (m1 & -> & Hu). rewrite bind_ok, Hu, bind_ok.
    eexists _, _. split; [done|]. split; [|done]. rewrite Hfi. destruct ps; [done | exact Hl'].
  - cbn [update_if] in Hu. rewrite bind_ok in Hu. rewrite (update_some _ _ _ _ (lookup_insert_eq _ _ _)) in Hu.
    injection Hu as <-. rewrite insert_insert_eq in Hl', Hf. eexists _, _. split; [done|].
    assert (ps = []) as -> by (destruct (list_snoc_inv ps) as [->|(? & ? & ->)]; [done | by rewrite lst_or_app in Hla]).
    done.
Qed.

Lemma dll_prepend_ok m s ps vs v :
  is_list m s ps vs -> exists m' s', dll_prepend alloc m s v = Ok (m', s', alloc m) /\
    is_list m' s' (alloc m :: ps) (v :: vs) /\ frame m m' ps.
Proof using alloc_fresh.
  intros Hl. pose proof Hl as (Hs & Hnd & Hfi & Hla & Hsz). unfold dll_prepend. rewrite Hfi.
  pose proof (fresh_not_in _ _ _ _ _ _ Hs (alloc_fresh m)) as Hn.
  destruct ps as [|p ps]; cbn [fst_or].
  - destruct vs; [|done]. eexists _, _. split; [done|]. split; [|by apply frame_insert; [apply dll_frame_refl | right]].
    split; [|split; [apply NoDup_singleton|]].
    + split; [apply lookup_insert_eq | done].
    + split; [done|]. split; [done|]. simpl. by rewrite Hsz, dll_u32_succ.
  - destruct (link_back (<[alloc m := DNode None None v]> m) None (Some (alloc m)) (p :: ps) vs None) as (m1 & Hu & Hs1 & Hk);
      [by apply dll_seg_insert | done |].
    cbn [fst_or update_if] in Hu. rewrite Hu, bind_ok.
    assert (m1 !! alloc m = Some (DNode None None v)) as Hm1 by (rewrite Hk by done; apply lookup_insert_eq).
    rewrite (update_some _ _ _ _ Hm1), bind_ok. eexists _, _. split; [done|]. split.
    + split; [|split; [by apply NoDup_cons|split; [done|split]]].
      * split; [apply lookup_insert_eq|]. by apply dll_seg_insert.
      * simpl. by rewrite Hla, !lst_or_cons.
      * simpl. rewrite Hsz, dll_u32_succ. f_equal. simpl. lia.
    + apply frame_insert; [|by right]. intros q [x Hq] Hqp. rewrite Hk by done. apply lookup_insert_ne.
      intros <-. by rewrite alloc_fresh in Hq.
Qed.

Lemma find_node_ok m found e : e = None -> forall fuel b ps vs, seg m b ps vs e -> (length ps < fuel)%nat ->
  find_node fuel m found (fst_or e ps) =
    Ok (match list_find (fun v => found v = true) vs with Some (i, _) => ps !! i | None => None end).
Proof using Type.
  intros ->. induction fuel as [|fuel IH]; intros b ps vs Hs Hf; [lia|].
  destruct ps as [|p ps], vs as [|v vs]; try done. pose proof Hs as [Hp Hs'].
  cbn [find_node fst_or deref]. rewrite Hp, bind_ok. cbn [val flink list_find].
  destruct (decide (found v = true)) as [E|E].
  - by rewrite E.
  - destruct (found v); [done|]. rewrite (IH (Some p) ps vs) by (done || simpl in Hf; lia).
    by destruct (list_find _ vs) as [[i w]|].
Qed.

Lemma find_in_list m s ps vs found :
  is_list m s ps vs -> find_node (S (size m)) m found (dl_first s) =
    Ok (match list_find (fun v => found v = true) vs with Some (i, _) => ps !! i | None => None end).
Proof using Type.
  intros (Hs & Hnd & -> & _). pose proof (dll_seg_size _ _ _ _ _ Hs Hnd).
  apply (find_node_ok m found None eq_refl _ None); [done | lia].
Qed.

(** Deleting the node at position [i]. *)
Lemma dll_delete_at m s ps vs i p :
  is_list m s ps vs -> ps !! i = Some p ->
  exists m' s', dll_delete m s (Some p) = Ok (m', s') /\ is_list m' s' (delete i ps) (delete i vs) /\
    frame m m' ps /\ m' !! p = None.
Proof using Type.
  intros Hl Hp. pose proof Hl as (Hs & _). pose proof (dll_seg_length _ _ _ _ _ Hs) as Hlen.
  destruct (lookup_lt_is_Some_2 vs i) as [v Hv]; [rewrite <- Hlen; by eapply lookup_lt_Some|].
  rewrite !delete_take_drop. rewrite <- (take_drop_middle ps i p Hp), <- (take_drop_middle vs i v Hv) in Hl.
  apply lookup_lt_Some in Hp as Hpl. apply lookup_lt_Some in Hv as Hvl.
  destruct (dll_delete_ok m s (take i ps) p (drop (S i) ps) (take i vs) v (drop (S i) vs)) as (m' & s' & Hd & Hl' & Hf & Hn);
    [done | rewrite !length_take; lia |].
  rewrite (take_drop_middle ps i p Hp) in Hf. by exists m', s'.
Qed.

Lemma dll_head_ok m s p ps v vs :
  is_list m s (p :: ps) (v :: vs) ->
  exists m' s', dll_head zero m s = Ok (m', s', v) /\ is_list m' s' ps vs /\ frame m m' (p :: ps) /\ m' !! p = None.
Proof using Type.
  intros Hl. pose proof Hl as ([Hp Hs] & Hnd & Hfi & Hla & Hsz). unfold dll_head. rewrite Hfi. cbn [fst_or deref].
  rewrite Hp, bind_ok. cbn [flink val]. pose proof (NoDup_cons_1_1 _ _ Hnd) as Hpn.
  destruct (link_back m (Some p) None ps vs None Hs (NoDup_cons_1_2 _ _ Hnd)) as (m1 & -> & Hs1 & Hk).
  rewrite bind_ok. cbn [dfree]. rewrite (Hk p Hpn), Hp, bind_ok. eexists _, _. split; [done|].
  split; [|split; [|apply lookup_delete_eq]].
  - split; [by apply dll_seg_delete|]. split; [by eapply NoDup_cons_1_2|]. split; [done|]. split.
    + simpl. rewrite Hla, lst_or_cons. destruct ps; [done|]. by rewrite !lst_or_cons.
    + simpl. rewrite Hsz, dll_u32_pred. simpl. f_equal. lia.
  - apply frame_delete; [|left; by left]. intros q _ Hq. apply Hk. intros ?. apply Hq. by right.
Qed.

Lemma dll_tail_ok m s ps p vs v :
  is_list m s (ps ++ [p]) (vs ++ [v]) -> length ps = length vs ->
  exists m' s', dll_tail zero m s = Ok (m', s', v) /\ is_list m' s' ps vs /\ frame m m' (ps ++ [p]) /\ m' !! p = None.
Proof using Type.
  intros (Hs & Hnd & Hfi & Hla & Hsz) Hl. apply seg_snoc in Hs as [Hs Hp]; [|done].
  unfold dll_tail. rewrite Hla, lst_or_app.
  change (lst_or (lst_or None ps) [p]) with (Some p). cbn [deref]. rewrite Hp, bind_ok. cbn [blink val].
  pose proof (NoDup_middle ps p [] Hnd) as (Hnd1 & _ & Hpn & _).
  destruct (link_fwd m None ps vs (Some p) None Hs Hnd1) as (m1 & -> & Hs1 & Hk).
  rewrite bind_ok. cbn [dfree]. rewrite (Hk p Hpn), Hp, bind_ok. eexists _, _. split; [done|].
  split; [|split; [|apply lookup_delete_eq]].
  - split; [by apply dll_seg_delete|]. split; [done|]. split; [|split; [done|]].
    + simpl. rewrite Hfi, fst_or_app. destruct (list_snoc_inv ps) as [->|(ps' & q & ->)]; [done|].
      rewrite lst_or_app. unfold lst_or at 1. simpl. by destruct ps'.
    + simpl. rewrite Hsz, dll_u32_pred, length_app. simpl. f_equal. lia.
  - apply frame_delete; [|left; apply elem_of_app; right; by left].
    intros q _ Hq. apply Hk. intros ?. apply Hq, elem_of_app. by left.
Qed.

Lemma dll_clear_loop_ok fuel : forall m b ps vs, seg m b ps vs None -> NoDup ps -> (length ps < fuel)%nat ->
  exists m', clear_loop fuel m (fst_or None ps) = Ok m' /\ (forall q, q ∈ ps -> m' !! q = None) /\
    forall q, q ∉ ps -> m' !! q = m !! q.
Proof using Type.
  induction fuel as [|fuel IH]; intros m b ps vs Hs Hnd Hf; [lia|].
  destruct ps as [|p ps], vs as [|v vs]; try done.
  - exists m. split; [done|]. split; [|done]. intros q Hq. by apply elem_of_nil in Hq.
  - destruct Hs as [Hp Hs]. apply NoDup_cons in Hnd as [Hpn Hnd]. cbn [clear_loop fst_or deref].
    rewrite Hp, bind_ok. cbn [dfree flink]. rewrite Hp, bind_ok.
    destruct (IH (delete p m) (Some p) ps vs) as (m' & -> & Hd & Hk); [by apply dll_seg_delete | done | simpl in Hf; lia |].
    exists m'. split; [done|]. split.
    + intros q [->|Hq]%elem_of_cons; [|by apply Hd]. rewrite Hk by done. apply lookup_delete_eq.
    + intros q Hq. apply not_elem_of_cons in Hq as [Hq1 Hq2]. rewrite Hk by done. by apply lookup_delete_ne.
Qed.

Lemma dll_clear_ok m s ps vs :
  is_list m s ps vs -> exists m' s', dll_clear m s = Ok (m', s') /\ is_list m' s' [] [] /\ frame m m' ps /\
    forall p, p ∈ ps -> m' !! p = None.
Proof using Type.
  intros (Hs & Hnd & Hfi & _). pose proof (dll_seg_size _ _ _ _ _ Hs Hnd) as Hsz. unfold dll_clear. rewrite Hfi.
  destruct (dll_clear_loop_ok (S (size m)) m None ps vs Hs Hnd) as (m' & -> & Hd & Hk); [lia|].
  exists m', (DList 0 None None). split; [done|]. split; [by split; [|split; [apply NoDup_nil_2|]]|].
  split; [|done]. intros q _ Hq. by apply Hk.
Qed.

(** ** The priority list *)

Context (cmp_func : T -> T -> Z).

(** [None]: an equal element is there and duplicates are not wanted. *)
Fixpoint insert_by (dups_ok : bool) (v : T) (l : list T) : option (list T) :=
  match l with
  | [] => Some [v]
  | x :: l' =>
      if cmp_func x v <? 0 then Some (v :: l)
      else if (cmp_func x v =? 0) && negb dups_ok then None
      else cons x <$> insert_by dups_ok v l'
  end.

Definition inserted m s ps (vs : list T) (v : T) (r : result (gmap loc (dll_node_t T) * dll_t * bool)) (o : option (list T)) : Prop :=
  match o with
  | Some vs' => exists m' s' ps', r = Ok (m', s', true) /\ is_list m' s' ps' vs' /\ frame m m' ps
  | None => exists m', r = Ok (m', s, false) /\ is_list m' s ps vs /\ frame m m' ps
  end.

Lemma insert_loop_ok m s v dups : forall fuel pre r post vpre w vpost,
  is_list m s (pre ++ r :: post) (vpre ++ w :: vpost) -> length pre = length vpre -> (length (r :: post) < fuel)%nat ->
  inserted m s (pre ++ r :: post) (vpre ++ w :: vpost) v
    (insert_loop cmp_func fuel (<[alloc m := DNode None None v]> m) s (alloc m) v dups (Some r))
    (app vpre <$> insert_by dups v (w :: vpost)).
Proof using alloc_fresh.
  induction fuel as [|fuel IH]; intros pre r post vpre w vpost Hl Hlen Hf; [lia|].
  pose proof Hl as (Hs & Hnd & Hfi & Hla & Hsz). pose proof (fresh_not_in _ _ _ _ _ _ Hs (alloc_fresh m)) as Hn.
  pose proof (proj1 (dll_seg_app _ _ _ _ _ _ _ Hlen) Hs) as [Hpre [Hr Hpost]].
  assert (r <> alloc m) as Hra by (intros ->; apply Hn, elem_of_app; right; by left).
  cbn [insert_loop deref insert_by]. rewrite lookup_insert_ne, Hr, bind_ok by done. cbn [val flink blink].
  destruct (Z.ltb_spec (cmp_func w v) 0) as [Hc|Hc].
  - destruct (link_new_before m s pre r post vpre (w :: vpost) (alloc m) v Hl Hlen (alloc_fresh m)) as (m' & Hu & Hl' & Hfr).
    cbn [fmap option_fmap option_map inserted]. eexists m', _, _. split; [|split; [exact Hl' | exact Hfr]].
    apply bind_Ok_inv in Hu as (m1 & -> & Hu). rewrite bind_ok.
    apply bind_Ok_inv in Hu as (m2 & -> & Hu). rewrite bind_ok.
    apply bind_Ok_inv in Hu as (m3 & -> & Hu). rewrite bind_ok, Hu, bind_ok. done.
  - destruct ((cmp_func w v =? 0) && negb dups) eqn:E.
    + simpl. rewrite lookup_insert_eq, bind_ok. eexists. split; [done|].
      rewrite delete_insert_id by apply alloc_fresh. split; [done | apply dll_frame_refl].
    + destruct post as [|r' post].
      * destruct vpost; [|done]. rewrite Hla, lst_or_app. change (lst_or (lst_or None pre) [r]) with (Some r).
        rewrite decide_True by done. cbn [insert_by fmap option_fmap option_map inserted].
        destruct (link_new_last m s (pre ++ [r]) (vpre ++ [w]) (alloc m) v Hl (alloc_fresh m)) as (m' & Hu & Hl' & Hfr).
        rewrite Hla, lst_or_app in Hu. change (lst_or (lst_or None pre) [r]) with (Some r) in Hu.
        apply bind_Ok_inv in Hu as (m1 & Hu1 & Hu2). cbn [update_if] in Hu1. rewrite Hu1, bind_ok, Hu2, bind_ok.
        eexists m', _, (pre ++ [r; alloc m]). split; [reflexivity|]. rewrite <- !app_assoc in Hl'. cbn [app] in Hl'.
        rewrite Hfi, fst_or_app in *. split; [|done]. by destruct pre.
      * destruct vpost as [|w' vpost]; [done|].
        rewrite decide_False.
        -- specialize (IH (pre ++ [r]) r' post (vpre ++ [w]) w' vpost).
           rewrite <- !app_assoc in IH. cbn [app] in IH.
           assert (inserted m s (pre ++ r :: r' :: post) (vpre ++ w :: w' :: vpost) v
             (insert_loop cmp_func fuel (<[alloc m := DNode None None v]> m) s (alloc m) v dups (Some r'))
             (app (vpre ++ [w]) <$> insert_by dups v (w' :: vpost))) as H.
           { apply IH; [done | rewrite !length_app; simpl; lia | simpl in *; lia]. }
           destruct (insert_by dups v (w' :: vpost)) as [l|]; [|done]. cbn [fmap option_fmap option_map] in *.
           by rewrite <- app_assoc in H.
        -- rewrite Hla, lst_or_app, lst_or_cons, lst_or_cons. intros E'.
           destruct (list_snoc_inv (r' :: post)) as [|(po & q & Eq)]; [done|].
           rewrite <- (lst_or_cons (Some r)), Eq, lst_or_app in E'. unfold lst_or at 1 in E'. simpl in E'. injection E' as ->.
           apply NoDup_app in Hnd as (_ & _ & Hnd). apply NoDup_cons in Hnd as [Hnd _].
           apply Hnd. rewrite Eq. apply elem_of_app. right. by left.
Qed.

Lemma pll_insert_ok m s ps vs v dups :
  is_list m s ps vs -> inserted m s ps vs v (pll_insert alloc cmp_func m s v dups) (insert_by dups v vs).
Proof using alloc_fresh.
  intros Hl. pose proof Hl as (Hs & Hnd & Hfi & Hla & Hsz). unfold pll_insert. rewrite Hfi.
  destruct ps as [|p ps], vs as [|w vs]; try done; cbn [fst_or].
  - simpl. eexists _, _, [alloc m]. split; [done|]. split; [|apply frame_insert; [apply dll_frame_refl | right; apply alloc_fresh]].
    split; [split; [apply lookup_insert_eq | done]|]. split; [apply NoDup_singleton|]. split; [done|]. split; [done|].
    simpl. by rewrite Hsz, dll_u32_succ.
  - pose proof (dll_seg_size _ _ _ _ _ Hs Hnd). rewrite map_size_insert_None by apply alloc_fresh.
    pose proof (insert_loop_ok m s v dups (S (S (size m))) [] p ps [] w vs Hl eq_refl ltac:(lia)) as H1.
    simpl app in H1. by destruct (insert_by dups v (w :: vs)).
Qed.
End Operations.

(** ** The doubly linked list and the priority list: theorems *)

Section Theorems.
Context {T : Type} (zero : T) (alloc : gmap loc (dll_node_t T) -> loc).
Context (alloc_fresh : forall m, m !! alloc m = None).
Implicit Types m : gmap loc (dll_node_t T).

(** The doubly linked list implements sequences.  Whatever the allocator, on a
    header that represents [vs] (forward and backward links agreeing), appending,
    prepending, deleting a node, removing a value, taking the head or the tail and
    clearing always return, represent the changed sequence and leave every node of
    every other list alone; nodes taken out are freed. *)
Theorem dll_sequence_refines `{EqDecision T} m s ps vs v :
  is_list m s ps vs ->
  (exists m' s', dll_append alloc m s v = Ok (m', s', alloc m) /\ is_list m' s' (ps ++ [alloc m]) (vs ++ [v]) /\ frame m m' ps) /\
  (exists m' s', dll_prepend alloc m s v = Ok (m', s', alloc m) /\ is_list m' s' (alloc m :: ps) (v :: vs) /\ frame m m' ps) /\
  (forall i p, ps !! i = Some p -> exists m' s', dll_delete m s (Some p) = Ok (m', s') /\
     is_list m' s' (delete i ps) (delete i vs) /\ frame m m' ps /\ m' !! p = None) /\
  match list_find (fun w => v = w) vs with
  | None => dll_remove m s v = Ok (m, s)
  | Some (i, _) => exists m' s', dll_remove m s v = Ok (m', s') /\ is_list m' s' (delete i ps) (delete i vs) /\ frame m m' ps
  end /\
  (exists m' s', dll_head zero m s = Ok (m', s', default zero (head vs)) /\ is_list m' s' (tail ps) (tail vs) /\ frame m m' ps) /\
  (exists m' s' n, n = pred (length vs) /\ dll_tail zero m s = Ok (m', s', default zero (last vs)) /\
     is_list m' s' (take n ps) (take n vs) /\ frame m m' ps) /\
  (exists m' s', dll_clear m s = Ok (m', s') /\ is_list m' s' [] [] /\ frame m m' ps /\ forall p, p ∈ ps -> m' !! p = None).
Proof using alloc_fresh.
  intros Hl. pose proof Hl as (Hs & Hnd & Hfi & Hla & Hsz). pose proof (dll_seg_length _ _ _ _ _ Hs) as Hlen.
  split; [by apply dll_append_ok|]. split; [by apply dll_prepend_ok|].
  split; [intros i p; by apply dll_delete_at|].
  split; [|split; [|split; [|exact (dll_clear_ok m s ps vs Hl)]]].
  - unfold dll_remove. rewrite (find_in_list _ _ _ _ _ Hl). rewrite bind_ok.
    rewrite (list_find_ext (fun w => bool_decide (v = w) = true) (fun w => v = w) vs) by (intros w; by rewrite bool_decide_eq_true).
    destruct (list_find _ vs) as [[i w]|] eqn:E; [|done].
    apply list_find_Some in E as (Hi & _). destruct (lookup_lt_is_Some_2 ps i) as [p Hp];
      [rewrite Hlen; by eapply lookup_lt_Some|].
    rewrite Hp. destruct (dll_delete_at m s ps vs i p Hl Hp) as (m' & s' & -> & Hl' & Hf & _). by exists m', s'.
  - destruct ps as [|p ps], vs as [|w vs]; try done.
    + unfold dll_head. rewrite Hfi. exists m, s. split; [done|]. split; [done | apply dll_frame_refl].
    + destruct (dll_head_ok zero m s p ps w vs Hl) as (m' & s' & Hh & Hl' & Hf & _). by exists m', s'.
  - destruct (list_snoc_inv vs) as [->|(ws & w & ->)].
    + destruct ps; [|done]. unfold dll_tail. rewrite Hla. exists m, s, 0%nat. split; [done|]. split; [done|].
      split; [done | apply dll_frame_refl].
    + destruct (list_snoc_inv ps) as [->|(qs & q & ->)]; rewrite !length_app in Hlen; simpl in Hlen; [lia|].
      destruct (dll_tail_ok zero m s qs q ws w Hl) as (m' & s' & Hh & Hl' & Hf & _); [lia|].
      exists m', s', (length ws). rewrite length_app. simpl. split; [lia|]. rewrite last_snoc. split; [done|].
      rewrite take_app_length, take_app_length' by lia. done.
Qed.

(** ** The priority list *)

Context (cmp_func : T -> T -> Z).

(** [x] may stand before [y]. *)
Definition before (x y : T) : Prop := 0 <= cmp_func x y.

Context (before_total : forall x y, cmp_func x y < 0 -> before y x).
Context (before_trans : Transitive before).

Lemma insert_by_sorted dups v vs vs' :
  StronglySorted before vs -> insert_by cmp_func dups v vs = Some vs' -> StronglySorted before vs' /\ vs' ≡ₚ v :: vs.
Proof using before_total before_trans.
  revert vs'. induction vs as [|x vs IH]; intros vs' Hs; simpl.
  - intros [= <-]. split; [|done]. by repeat constructor.
  - apply StronglySorted_inv in Hs as [Hs Hx].
    destruct (Z.ltb_spec (cmp_func x v) 0) as [Hc|Hc].
    + intros [= <-]. split; [|done]. apply before_total in Hc. constructor; [by constructor|].
      constructor; [done|]. eapply Forall_impl; [exact Hx|]. intros y Hy. by transitivity x.
    + destruct (_ && _); [done|]. destruct (insert_by cmp_func dups v vs) as [l|] eqn:E; [|done].
      simpl. intros [= <-]. destruct (IH l Hs eq_refl) as [Hs' Hp]. split.
      * constructor; [done|]. rewrite Hp. by constructor.
      * rewrite Hp. apply Permutation_swap.
Qed.

Lemma insert_by_rejects dups v vs :
  StronglySorted before vs ->
  insert_by cmp_func dups v vs = None <-> dups = false /\ exists x, x ∈ vs /\ cmp_func x v = 0.
Proof using before_total before_trans.
  induction vs as [|x vs IH]; intros Hs; simpl.
  - split; [done|]. intros (_ & y & Hy & _). by apply elem_of_nil in Hy.
  - apply StronglySorted_inv in Hs as [Hs Hx]. destruct (Z.ltb_spec (cmp_func x v) 0) as [Hc|Hc].
    + split; [done|]. intros (_ & y & [->|Hy]%elem_of_cons & E); [lia|].
      rewrite Forall_forall in Hx. assert (before x v); [|unfold before in *; lia].
      transitivity y; [by apply Hx | unfold before; lia].
    + destruct (cmp_func x v =? 0) eqn:E.
      * apply Z.eqb_eq in E. destruct dups; simpl; [|split; [|done]].
        -- destruct (insert_by cmp_func true v vs); [|by destruct (proj1 (IH Hs) eq_refl)]. split; [done | by intros [? _]].
        -- intros _. split; [done|]. exists x. split; [by left | done].
      * apply Z.eqb_neq in E. simpl.
        destruct (insert_by cmp_func dups v vs) as [l|]; simpl.
        -- split; [done|]. intros (Hd & y & [->|Hy]%elem_of_cons & Ey); [done|].
           exfalso. assert (Some l = None) by (apply IH; eauto). done.
        -- split; [|done]. intros _. destruct (proj1 (IH Hs) eq_refl) as (Hd & y & Hy & Ey).
           split; [done|]. exists y. split; [by right | done].
Qed.

Lemma sorted_without pre x post : StronglySorted before (pre ++ x :: post) -> StronglySorted before (pre ++ post).
Proof using Type.
  induction pre as [|y pre IH]; simpl; intros H; apply StronglySorted_inv in H as [Hs Hf]; [done|].
  constructor; [by apply IH|]. rewrite Forall_app in *. destruct Hf as [H1 H2]. by apply Forall_cons in H2 as [_ H2].
Qed.

(** The value of a node is exchanged. *)
Lemma replace_ok m s ps vs i p x v :
  is_list m s ps vs -> ps !! i = Some p -> vs !! i = Some x ->
  exists b e m', deref m (Some p) = Ok (DNode e b x) /\ update m (Some p) (set_val v) = Ok m' /\ is_list m' s ps (<[i:=v]> vs).
Proof using Type.
  intros (Hs & Hnd & Hfi & Hla & Hsz) Hp Hx. pose proof (dll_seg_length _ _ _ _ _ Hs) as Hlen.
  pose proof (lookup_lt_Some _ _ _ Hp) as Hlt.
  rewrite <- (take_drop_middle ps i p Hp), <- (take_drop_middle vs i x Hx) in Hs.
  apply dll_seg_app in Hs as [Hs1 [Hn Hs2]]; [|rewrite !length_take; lia].
  pose proof Hnd as Hnd'. rewrite <- (take_drop_middle ps i p Hp) in Hnd'.
  destruct (NoDup_middle _ _ _ Hnd') as (_ & _ & Hp1 & Hp2 & _).
  cbn [deref]. rewrite Hn. rewrite (update_some _ _ _ _ Hn). eexists _, _, _. split; [reflexivity|]. split; [done|].
  split; [|split; [done|split; [done|split; [done|]]]]; [|by rewrite length_insert].
  rewrite (insert_take_drop vs i v) by lia.
  match goal with |- seg ?mm _ _ _ _ =>
    enough (seg mm None (take i ps ++ p :: drop (S i) ps) (take i vs ++ v :: drop (S i) vs) None) as H
      by (by rewrite (take_drop_middle ps i p Hp) in H) end.
  apply dll_seg_app; [rewrite !length_take; lia|]. split; [by apply dll_seg_insert|].
  split; [apply lookup_insert_eq | by apply dll_seg_insert].
Qed.

(** The priority list keeps its elements in the order of the comparison.
    Inserting refuses a value exactly when duplicates are not wanted and an equal
    element is there, and then changes nothing; otherwise the list holds one element
    more and is in order.  Removing and replacing act on the first equal element. *)
Theorem pll_priority_list m s ps vs v dups :
  is_list m s ps vs -> StronglySorted before vs ->
  (if bool_decide (dups = false /\ Exists (fun x => cmp_func x v = 0) vs) then
     exists m', pll_insert alloc cmp_func m s v dups = Ok (m', s, false) /\ is_list m' s ps vs /\ frame m m' ps
   else
     exists m' s' ps' vs', pll_insert alloc cmp_func m s v dups = Ok (m', s', true) /\ is_list m' s' ps' vs' /\
       StronglySorted before vs' /\ vs' ≡ₚ v :: vs /\ frame m m' ps) /\
  match list_find (fun x => cmp_func x v = 0) vs with
  | None => pll_remove cmp_func m s v = Ok (m, s) /\ pll_replace zero cmp_func m s v = Ok (m, zero)
  | Some (i, x) =>
      (exists m' s', pll_remove cmp_func m s v = Ok (m', s') /\ is_list m' s' (delete i ps) (delete i vs) /\
         StronglySorted before (delete i vs)) /\
      (exists m', pll_replace zero cmp_func m s v = Ok (m', x) /\ is_list m' s ps (<[i:=v]> vs))
  end.
Proof using alloc_fresh before_total before_trans.
  intros Hl Hsort. pose proof Hl as (Hs & Hnd & Hfi & _). pose proof (dll_seg_length _ _ _ _ _ Hs) as Hlen. split.
  - pose proof (pll_insert_ok alloc alloc_fresh cmp_func m s ps vs v dups Hl) as H.
    pose proof (insert_by_rejects dups v vs Hsort) as Hr. case_bool_decide as Hd.
    + rewrite Exists_exists in Hd. rewrite (proj2 Hr) in H by (destruct Hd; eauto). done.
    + destruct (insert_by cmp_func dups v vs) as [vs'|] eqn:E.
      * destruct H as (m' & s' & ps' & H1 & H2 & H3). destruct (insert_by_sorted dups v vs vs' Hsort E) as [Hs' Hp].
        by exists m', s', ps', vs'.
      * exfalso. apply Hd. rewrite Exists_exists. destruct (proj1 Hr eq_refl) as (? & x & Hx & Ex). eauto.
  - unfold pll_remove, pll_replace. rewrite (find_in_list _ _ _ _ _ Hl). rewrite !bind_ok.
    rewrite (list_find_ext (fun w => (cmp_func w v =? 0) = true) (fun w => cmp_func w v = 0) vs)
      by (intros w; by rewrite Z.eqb_eq).
    destruct (list_find _ vs) as [[i x]|] eqn:E; [|done].
    apply list_find_Some in E as (Hi & _). destruct (lookup_lt_is_Some_2 ps i) as [p Hp];
      [rewrite Hlen; by eapply lookup_lt_Some|].
    rewrite Hp. split.
    + destruct (dll_delete_at m s ps vs i p Hl Hp) as (m' & s' & -> & Hl' & _). exists m', s'. split; [done|]. split; [done|].
      rewrite delete_take_drop. rewrite <- (take_drop_middle vs i x Hi) in Hsort.
      by apply sorted_without in Hsort.
    + destruct (replace_ok m s ps vs i p x v Hl Hp Hi) as (b & e & m' & Hd & Hu & Hl'). rewrite Hd, bind_ok, Hu, bind_ok. by exists m'.
Qed.
End Theorems.

(** ** An example *)

Definition alloc_any {T} (m : gmap loc (dll_node_t T)) : loc := fresh (dom m).
Lemma dll_alloc_any_fresh {T} (m : gmap loc (dll_node_t T)) : m !! alloc_any m = None.
Proof. apply not_elem_of_dom. apply is_fresh. Qed.

Definition example_store : gmap loc (dll_node_t Z) :=
  {[1%positive := DNode (Some 2%positive) None 9; 2%positive := DNode None (Some 1%positive) 4]}.
Definition example_list : dll_t := DList 2 (Some 1%positive) (Some 2%positive).

Lemma dll_example_is_list : is_list example_store example_list [1; 2]%positive [9; 4].
Proof.
  split; [done|]. split; [by_decide | done].
Qed.

Lemma dll_sequence_refines_witness :
  exists m' s', dll_append alloc_any example_store example_list 8 = Ok (m', s', alloc_any example_store) /\
    is_list m' s' ([1; 2]%positive ++ [alloc_any example_store]) [9; 4; 8] /\ frame example_store m' [1; 2]%positive.
Proof.
  exact (proj1 (dll_sequence_refines 0 alloc_any dll_alloc_any_fresh example_store example_list [1; 2]%positive [9; 4] 8
                  dll_example_is_list)).
Defined.

Lemma pll_priority_list_witness :
  exists m' s' ps' vs', pll_insert alloc_any Z.sub example_store example_list 7 false = Ok (m', s', true) /\
    is_list m' s' ps' vs' /\ StronglySorted (before Z.sub) vs' /\ vs' ≡ₚ [7; 9; 4] /\ frame example_store m' [1; 2]%positive.
Proof.
  refine (proj1 (pll_priority_list 0 alloc_any dll_alloc_any_fresh Z.sub _ _ example_store example_list [1; 2]%positive [9; 4] 7
                  false dll_example_is_list _)); unfold before.
  - lia.
  - intros x y z. lia.
  - repeat constructor; lia.
Defined.
