(* ===== verification/Qcbor.v ===== *)
(** * The interface of the QCBOR library, as neuropil uses it

    QCBOR ([qcbor/qcbor_encode.h], [qcbor/qcbor_spiffy_decode.h]) is a git
    submodule: its bytes are not ours to define.  Class [Qcbor] is what the
    serialisation relies on: every item the encoder is given is appended to the
    output; its length is the one of RFC 8949; the decoder gives the items of
    a document back one by one, with the tags of each, whatever follows it.
    An instance at the end, a plain encoder of RFC 8949, shows that the
    promises can be kept. *)
From Stdlib Require Import ZArith Lia.
From stdpp Require Import prelude.
From S2P Require Import Prelude.

Local Open Scope Z_scope.

(** ** Items *)

(** What the encoder is told to append, one constructor per function used:
    [QCBOREncode_AddInt64] and [AddUInt64]; the head of four bytes appended by
    [AppendCBORHeadWithSize (.., CBOR_MAJOR_TYPE_POSITIVE_INT, z, 4)];
    [AddText], [AddBytes]; [AddFloat], [AddDouble] (the bits of the number, in the
    width they have: the build switches the preferred, shorter forms off);
    an array or map that is closed after [n] items or pairs.  The last three are
    never written here, but may be read: null, true and false, and all the other
    types of QCBOR. *)
Inductive cbor_value :=
| H_int (z : Z)
| H_u32 (z : Z)
| H_text (s : list Z)
| H_bytes (s : list Z)
| H_float (bits : Z)
| H_double (bits : Z)
| H_array (n : Z)
| H_map (n : Z)
| H_null
| H_bool (b : bool)
| H_other.

(** [QCBORItem]: the value and [uTags], the innermost tag first. *)
Record item := Item { uTags : list Z; uVal : cbor_value }.

#[export] Instance cbor_value_eq_dec : EqDecision cbor_value.
Proof. solve_decision. Defined.
#[export] Instance item_eq_dec : EqDecision item.
Proof. solve_decision. Defined.

(** [(double)f] on the bits of the numbers: infinities and NaNs (made quiet), zeros,
    numbers below the smallest exponent, and the others. *)
Definition float_to_double (b : Z) : Z :=
  let sign := b / 2 ^ 31 * 2 ^ 63 in
  let e := b / 2 ^ 23 mod 2 ^ 8 in
  let m := b mod 2 ^ 23 in
  if e =? 255 then sign + 2047 * 2 ^ 52 + (if m =? 0 then 0 else Z.lor (m * 2 ^ 29) (2 ^ 51))
  else if e =? 0 then
    if m =? 0 then sign else sign + (Z.log2 m + 874) * 2 ^ 52 + (m - 2 ^ Z.log2 m) * 2 ^ (52 - Z.log2 m)
  else sign + (e + 896) * 2 ^ 52 + m * 2 ^ 29.

(** What the decoder makes of an item: how an integer was written is lost, and a number
    of single precision is given as one of double precision (the build does not set
    [QCBOR_DISABLE_FLOAT_HW_USE]). *)
Definition decoded (i : item) : item :=
  Item (uTags i) match uVal i with H_u32 z => H_int z | H_float b => H_double (float_to_double b) | h => h end.

(** A document, with the structure that [OpenArray], [OpenMap], [CloseArray] and
    [CloseMap] give it. *)
Inductive cbor :=
| C_item (i : item)
| C_array (tags : list Z) (l : list cbor)
| C_map (tags : list Z) (l : list cbor).

(** The items of a document in the order they are written.  The count of a map is
    the number of pairs. *)
Fixpoint items (c : cbor) : list item :=
  match c with
  | C_item i => [i]
  | C_array t l => Item t (H_array (Z.of_nat (length l))) :: flat_map items l
  | C_map t l => Item t (H_map (Z.of_nat (length l / 2))) :: flat_map items l
  end.

(** How deep arrays and maps are nested, and the largest number of items in one. *)
Fixpoint nesting (c : cbor) : nat :=
  match c with
  | C_item _ => 0
  | C_array _ l | C_map _ l => S (foldr Nat.max 0%nat (map nesting l))
  end.
Fixpoint widest (c : cbor) : nat :=
  match c with
  | C_item _ => 0
  | C_array _ l | C_map _ l => Nat.max (length l) (foldr Nat.max 0%nat (map widest l))
  end.

(** ** Lengths (RFC 8949, section 3) *)

Definition head_length (n : Z) : Z :=
  if n <? 24 then 1 else if n <? 2 ^ 8 then 2 else if n <? 2 ^ 16 then 3 else if n <? 2 ^ 32 then 5 else 9.

Definition value_length (h : cbor_value) : Z :=
  match h with
  | H_int z => head_length (if 0 <=? z then z else -1 - z)
  | H_u32 _ => 5
  | H_text s | H_bytes s => head_length (Z.of_nat (length s)) + Z.of_nat (length s)
  | H_float _ => 5
  | H_double _ => 9
  | H_array n | H_map n => head_length n
  | H_null | H_bool _ | H_other => 1
  end.
Definition item_length (i : item) : Z := zsum (map head_length (uTags i)) + value_length (uVal i).

Definition value_ok (h : cbor_value) : Prop :=
  match h with
  | H_int z => - 2 ^ 63 <= z < 2 ^ 64
  | H_u32 z | H_float z => in_u 32 z
  | H_double z | H_array z | H_map z => in_u 64 z
  | H_text s | H_bytes s => Forall (in_u 8) s /\ Z.of_nat (length s) < 2 ^ 64
  | H_null | H_bool _ | H_other => False
  end.
Definition item_ok (i : item) : Prop := Forall (in_u 64) (uTags i) /\ value_ok (uVal i).

(** Where the cursor is after each item. *)
Fixpoint cursors (at_ : Z) (l : list item) : list Z :=
  match l with
  | [] => []
  | i :: l => (at_ + item_length i) :: cursors (at_ + item_length i) l
  end.

(** ** The promises *)

Class Qcbor := {
  (** the bytes the encoder appends for one item *)
  qcbor_put : item -> list Z;
  (** the items [QCBORDecode_VGetNext] gives one after the other, each with the
      position of the cursor behind it, up to the first error *)
  qcbor_decode : list Z -> list (item * Z);
  (** [QCBORDecode_Finish] after that many items: no error, or only that more bytes follow *)
  qcbor_finish : list Z -> nat -> bool;
  QCBOR_MAX_ARRAY_NESTING : nat;
  QCBOR_MAX_ITEMS_IN_ARRAY : nat;
  put_bytes i : item_ok i -> Forall (in_u 8) (qcbor_put i);
  put_length i : item_ok i -> Z.of_nat (length (qcbor_put i)) = item_length i;
  decode_put cs extra :
    Forall (fun c => Forall item_ok (items c) /\ (nesting c <= QCBOR_MAX_ARRAY_NESTING)%nat /\
                     (widest c <= QCBOR_MAX_ITEMS_IN_ARRAY)%nat) cs ->
    let its := flat_map items cs in
    exists rest, qcbor_decode (flat_map qcbor_put its ++ extra) = zip (map decoded its) (cursors 0 its) ++ rest;
  finish_put cs extra :
    Forall (fun c => Forall item_ok (items c) /\ (nesting c <= QCBOR_MAX_ARRAY_NESTING)%nat /\
                     (widest c <= QCBOR_MAX_ITEMS_IN_ARRAY)%nat) cs ->
    let its := flat_map items cs in
    qcbor_finish (flat_map qcbor_put its ++ extra) (length its) = true;
}.
Arguments qcbor_put : simpl never.
Arguments qcbor_decode : simpl never.

(** ** An encoder that keeps them *)

Module Rfc8949.

(** [k] bytes, the most significant first. *)
Fixpoint be (k : nat) (n : Z) : list Z :=
  match k with O => [] | S k => n / 256 ^ Z.of_nat k mod 256 :: be k n end.
Definition of_be (l : list Z) : Z := foldl (fun a b => a * 256 + b) 0 l.

Definition put_head (m n : Z) : list Z :=
  if n <? 24 then [m * 32 + n]
  else if n <? 2 ^ 8 then m * 32 + 24 :: be 1 n
  else if n <? 2 ^ 16 then m * 32 + 25 :: be 2 n
  else if n <? 2 ^ 32 then m * 32 + 26 :: be 4 n
  else m * 32 + 27 :: be 8 n.

Definition put_value (h : cbor_value) : list Z :=
  match h with
  | H_int z => if 0 <=? z then put_head 0 z else put_head 1 (-1 - z)
  | H_u32 z => 26 :: be 4 z
  | H_text s => put_head 3 (Z.of_nat (length s)) ++ s
  | H_bytes s => put_head 2 (Z.of_nat (length s)) ++ s
  | H_float b => 250 :: be 4 b
  | H_double b => 251 :: be 8 b
  | H_array n => put_head 4 n
  | H_map n => put_head 5 n
  | H_null => [246]
  | H_bool b => [if b then 245 else 244]
  | H_other => [247]
  end.
Definition put (i : item) : list Z := flat_map (put_head 6) (rev (uTags i)) ++ put_value (uVal i).

(** A head: major type, additional information, argument. *)
Definition get_head (l : list Z) : option (Z * Z * Z * list Z) :=
  match l with
  | [] => None
  | b :: l =>
      let ai := b mod 32 in
      let k := if ai <? 24 then 0%nat else if ai =? 24 then 1%nat else if ai =? 25 then 2%nat else if ai =? 26 then 4%nat else 8%nat in
      if (length l <? k)%nat then None
      else Some (b / 32, ai, if ai <? 24 then ai else of_be (take k l), drop k l)
  end.

Fixpoint get (fuel : nat) (tags : list Z) (l : list Z) : option (item * list Z) :=
  match fuel with
  | O => None
  | S fuel =>
      '(m, ai, n, l) ← get_head l;
      if m =? 6 then get fuel (n :: tags) l
      else if m =? 0 then Some (Item tags (H_int n), l)
      else if m =? 1 then Some (Item tags (H_int (-1 - n)), l)
      else if m =? 2 then Some (Item tags (H_bytes (take (Z.to_nat n) l)), drop (Z.to_nat n) l)
      else if m =? 3 then Some (Item tags (H_text (take (Z.to_nat n) l)), drop (Z.to_nat n) l)
      else if m =? 4 then Some (Item tags (H_array n), l)
      else if m =? 5 then Some (Item tags (H_map n), l)
      else if ai =? 26 then Some (Item tags (H_double (float_to_double n)), l)
      else if ai =? 27 then Some (Item tags (H_double n), l)
      else if (ai =? 20) || (ai =? 21) then Some (Item tags (H_bool (ai =? 21)), l)
      else if ai =? 22 then Some (Item tags H_null, l)
      else if ai <? 26 then Some (Item tags H_other, l)
      else None
  end.

Fixpoint decode_from (fuel : nat) (at_ : Z) (l : list Z) : list (item * Z) :=
  match fuel with
  | O => []
  | S fuel =>
      match get (length l) [] l with
      | None => []
      | Some (i, r) =>
          let at_ := at_ + Z.of_nat (length l) - Z.of_nat (length r) in
          (i, at_) :: decode_from fuel at_ r
      end
  end.
Definition decode (l : list Z) : list (item * Z) := decode_from (length l) 0 l.

Lemma be_length k n : length (be k n) = k.
Proof. by induction k; simpl; [|f_equal]. Qed.

Lemma be_range k n : Forall (in_u 8) (be k n).
Proof.
  induction k as [|k IH]; simpl; constructor; [|done].
  unfold in_u. change (2 ^ 8) with 256. apply Z.mod_pos_bound. lia.
Qed.

Lemma of_be_app a l : foldl (fun a b => a * 256 + b) a l = a * 256 ^ Z.of_nat (length l) + of_be l.
Proof.
  unfold of_be. revert a. induction l as [|b l IH]; intros a; [simpl; lia|].
  cbn [foldl length]. rewrite IH, (IH (0 * 256 + b)).
  rewrite Nat2Z.inj_succ, Z.pow_succ_r by lia. lia.
Qed.

Lemma of_be_be k n : of_be (be k n) = n mod 256 ^ Z.of_nat k.
Proof.
  induction k as [|k IH]; [simpl; by rewrite Z.mod_1_r|].
  unfold of_be. cbn [be foldl]. rewrite of_be_app, be_length, IH, Nat2Z.inj_succ, Z.pow_succ_r by lia.
  assert (0 < 256 ^ Z.of_nat k) by (apply Z.pow_pos_nonneg; lia).
  rewrite (Z.mul_comm 256), Z.rem_mul_r by lia. lia.
Qed.

Lemma of_be_id k n : 0 <= n < 256 ^ Z.of_nat k -> of_be (be k n) = n.
Proof. intros H. by rewrite of_be_be, Z.mod_small. Qed.

Lemma put_head_length m n : Z.of_nat (length (put_head m n)) = head_length n.
Proof. unfold put_head, head_length. repeat case_match; cbn [length]; rewrite ?be_length; lia. Qed.

Lemma put_head_range m n : 0 <= m < 8 -> 0 <= n -> Forall (in_u 8) (put_head m n).
Proof.
  intros Hm Hn. unfold put_head. assert (forall k, 0 <= k < 32 -> in_u 8 (m * 32 + k)) as Hk.
  { intros k Hk. unfold in_u. change (2 ^ 8) with 256. lia. }
  repeat case_match; constructor; try apply be_range; try (apply Hk; lia). constructor.
Qed.

Lemma get_head_raw b k l bs : k = length bs ->
  (if b mod 32 <? 24 then 0%nat else if b mod 32 =? 24 then 1%nat else if b mod 32 =? 25 then 2%nat else if b mod 32 =? 26 then 4%nat else 8%nat) = k ->
  get_head (b :: bs ++ l) = Some (b / 32, b mod 32, if b mod 32 <? 24 then b mod 32 else of_be bs, l).
Proof.
  intros Hk E. unfold get_head. cbv zeta. rewrite E, Hk, length_app.
  destruct (Nat.ltb_spec (length bs + length l) (length bs)); [lia|].
  by rewrite take_app_length, drop_app_length.
Qed.

Lemma head_byte m k : 0 <= k < 32 -> (m * 32 + k) / 32 = m /\ (m * 32 + k) mod 32 = k.
Proof.
  intros H. split; Z.div_mod_to_equations; lia.
Qed.

Lemma get_put_head m n l : 0 <= m -> 0 <= n < 2 ^ 64 -> exists ai, get_head (put_head m n ++ l) = Some (m, ai, n, l).
Proof.
  intros Hm Hn. unfold put_head.
  destruct (Z.ltb_spec n 24) as [H1|H1].
  { destruct (head_byte m n ltac:(lia)) as [E1 E2]. exists n.
    cbn [app]. rewrite (get_head_raw _ 0 l []); [|done|].
    - rewrite E1, E2. by destruct (Z.ltb_spec n 24); [|lia].
    - rewrite E2. by destruct (Z.ltb_spec n 24); [|lia]. }
  assert (forall c k, n < 256 ^ Z.of_nat k -> 24 <= c < 32 ->
    (if c <? 24 then 0%nat else if c =? 24 then 1%nat else if c =? 25 then 2%nat else if c =? 26 then 4%nat else 8%nat) = k ->
    get_head ((m * 32 + c :: be k n) ++ l) = Some (m, c, n, l)) as G.
  { intros c k Hk Hc E. destruct (head_byte m c ltac:(lia)) as [E1 E2].
    change ((m * 32 + c :: be k n) ++ l) with (m * 32 + c :: be k n ++ l).
    rewrite (get_head_raw _ k) by (rewrite ?be_length, ?E2; done).
    rewrite E1, E2, of_be_id by lia. by destruct (Z.ltb_spec c 24); [lia|]. }
  destruct (Z.ltb_spec n (2 ^ 8)); [exists 24; by apply G|].
  destruct (Z.ltb_spec n (2 ^ 16)); [exists 25; by apply G|].
  destruct (Z.ltb_spec n (2 ^ 32)); [exists 26; by apply G|].
  exists 27. by apply G; [lia|..].
Qed.

(** One value read after its tags have been. *)
Lemma get_value fuel tags h l : value_ok h -> get (S fuel) tags (put_value h ++ l) = Some (decoded (Item tags h), l).
Proof.
  intros Hok. destruct h as [z|z|s|s|b|b|n|n| |b|]; cbn [put_value]; try done.
  - destruct (Z.leb_spec 0 z).
    + destruct (get_put_head 0 z l ltac:(lia)) as [ai E]; [cbn in Hok; lia|]. cbn [get]. by rewrite E.
    + destruct (get_put_head 1 (-1 - z) l ltac:(lia)) as [ai E]; [cbn in Hok; lia|]. cbn [get]. rewrite E.
      cbn [mbind option_bind Z.eqb Pos.eqb]. by replace (-1 - (-1 - z)) with z by lia.
  - change ((26 :: be 4 z) ++ l) with (26 :: be 4 z ++ l). cbn [get]. rewrite (get_head_raw _ 4) by (rewrite ?be_length; done).
    rewrite of_be_id by (change (256 ^ Z.of_nat 4) with (2 ^ 32); apply Hok). done.
  - destruct Hok as [_ Hl]. rewrite <-app_assoc.
    destruct (get_put_head 3 (Z.of_nat (length s)) (s ++ l) ltac:(lia)) as [ai E]; [lia|]. cbn [get]. rewrite E. cbn.
    by rewrite Nat2Z.id, take_app_length, drop_app_length.
  - destruct Hok as [_ Hl]. rewrite <-app_assoc.
    destruct (get_put_head 2 (Z.of_nat (length s)) (s ++ l) ltac:(lia)) as [ai E]; [lia|]. cbn [get]. rewrite E. cbn.
    by rewrite Nat2Z.id, take_app_length, drop_app_length.
  - change ((250 :: be 4 b) ++ l) with (250 :: be 4 b ++ l). cbn [get]. rewrite (get_head_raw _ 4) by (rewrite ?be_length; done).
    rewrite of_be_id by (change (256 ^ Z.of_nat 4) with (2 ^ 32); apply Hok). done.
  - change ((251 :: be 8 b) ++ l) with (251 :: be 8 b ++ l). cbn [get]. rewrite (get_head_raw _ 8) by (rewrite ?be_length; done).
    rewrite of_be_id by (change (256 ^ Z.of_nat 8) with (2 ^ 64); apply Hok). done.
  - destruct (get_put_head 4 n l ltac:(lia)) as [ai E]; [cbn in Hok; unfold in_u in Hok; lia|]. cbn [get]. by rewrite E.
  - destruct (get_put_head 5 n l ltac:(lia)) as [ai E]; [cbn in Hok; unfold in_u in Hok; lia|]. cbn [get]. by rewrite E.
Qed.

Lemma get_tagged rtags : forall fuel tags h l, (length rtags < fuel)%nat -> Forall (in_u 64) rtags -> value_ok h ->
  get fuel tags (flat_map (put_head 6) rtags ++ put_value h ++ l) = Some (decoded (Item (rev rtags ++ tags) h), l).
Proof.
  induction rtags as [|t rtags IH]; intros fuel tags h l Hf Ht Hh; (destruct fuel as [|fuel]; [cbn in Hf; lia|]).
  - by apply get_value.
  - apply Forall_cons in Ht as [Ht Hts]. cbn [flat_map]. rewrite <-!app_assoc.
    destruct (get_put_head 6 t (flat_map (put_head 6) rtags ++ put_value h ++ l)) as [ai E]; [lia|done|].
    cbn [get]. rewrite E. cbn [mbind option_bind Z.eqb Pos.eqb]. rewrite IH by (done || cbn in Hf; lia).
    cbn [rev]. by rewrite <-app_assoc.
Qed.

Lemma put_head_pos m n : (0 < length (put_head m n))%nat.
Proof. unfold put_head. repeat case_match; cbn [length]; lia. Qed.

Lemma tags_length rtags : (length rtags <= length (flat_map (put_head 6) rtags))%nat.
Proof. induction rtags as [|t rtags IH]; [done|]. cbn [flat_map length]. rewrite length_app. pose proof (put_head_pos 6 t). lia. Qed.

Lemma put_value_pos h : (0 < length (put_value h))%nat.
Proof.
  destruct h; cbn [put_value]; repeat case_match; rewrite ?length_app; cbn [length]; try lia;
    match goal with |- context [put_head ?m ?n] => pose proof (put_head_pos m n) end; lia.
Qed.

Lemma get_of_put i l : item_ok i -> get (length (put i ++ l)) [] (put i ++ l) = Some (decoded i, l).
Proof.
  intros [Ht Hv]. unfold put. rewrite <-app_assoc, get_tagged; [| |by apply Forall_rev|done].
  - by rewrite rev_involutive, app_nil_r; destruct i.
  - rewrite !length_app. pose proof (tags_length (rev (uTags i))). pose proof (put_value_pos (uVal i)). lia.
Qed.

Lemma value_bytes h : value_ok h -> Forall (in_u 8) (put_value h).
Proof.
  intros Hok. destruct h as [z|z|s|s|b|b|n|n| |b|]; cbn [put_value]; cbn in Hok; unfold in_u in Hok; try done.
  1: destruct (Z.leb_spec 0 z).
  all: try (apply Forall_app; split; [|apply Hok]).
  all: try (apply put_head_range; lia).
  all: constructor; [unfold in_u; lia|apply be_range].
Qed.

Lemma put_in_bytes i : item_ok i -> Forall (in_u 8) (put i).
Proof.
  intros [Ht Hv]. unfold put. apply Forall_app. split; [|by apply value_bytes].
  apply Forall_rev in Ht. revert Ht. generalize (rev (uTags i)). intros ts Ht.
  induction Ht as [|t ts H1 H2 IH]; [constructor|]. apply Forall_app. split; [|done].
  apply put_head_range; [lia|apply H1].
Qed.

Lemma value_bytes_length h : Z.of_nat (length (put_value h)) = value_length h.
Proof.
  destruct h; cbn [put_value value_length]; rewrite ?length_app, ?Nat2Z.inj_add, ?put_head_length;
    repeat case_match; rewrite ?put_head_length; done.
Qed.

Lemma put_item_length i : Z.of_nat (length (put i)) = item_length i.
Proof.
  unfold put, item_length. rewrite length_app, Nat2Z.inj_add, value_bytes_length. f_equal.
  transitivity (zsum (map head_length (rev (uTags i)))).
  - generalize (rev (uTags i)). intros ts. induction ts as [|t ts IH]; [done|]. cbn [flat_map map zsum foldr].
    rewrite length_app, Nat2Z.inj_add, put_head_length. unfold zsum in IH. lia.
  - generalize (uTags i). intros ts. rewrite map_rev. generalize (map head_length ts). intros l.
    induction l as [|x l IH]; [done|]. cbn [rev]. unfold zsum in *. rewrite foldr_app. cbn [foldr].
    rewrite <-IH. clear IH. generalize (rev l). intros r. induction r as [|y r IH]; cbn [foldr]; lia.
Qed.

Lemma decode_items its : forall fuel at_ extra, (length (flat_map put its ++ extra) <= fuel)%nat -> Forall item_ok its ->
  exists rest, decode_from fuel at_ (flat_map put its ++ extra) = zip (map decoded its) (cursors at_ its) ++ rest.
Proof.
  induction its as [|i its IH]; intros fuel at_ extra Hf Hok; [by eexists|].
  apply Forall_cons in Hok as [Hi Hok]. cbn [flat_map] in *. rewrite <-app_assoc in *.
  assert (0 < length (put i))%nat by (unfold put; rewrite length_app; pose proof (put_value_pos (uVal i)); lia).
  rewrite length_app in Hf. destruct fuel as [|fuel]; [lia|].
  cbn [decode_from]. rewrite get_of_put by done. cbn [map cursors zip zip_with].
  replace (at_ + Z.of_nat (length (put i ++ flat_map put its ++ extra)) - Z.of_nat (length (flat_map put its ++ extra)))
    with (at_ + item_length i) by (rewrite length_app, Nat2Z.inj_add, put_item_length; lia).
  destruct (IH fuel (at_ + item_length i) extra ltac:(lia) Hok) as [rest ->]. by exists rest.
Qed.

Lemma decode_forest cs extra :
  Forall (fun c => Forall item_ok (items c) /\ (nesting c <= 15)%nat /\ (widest c <= Z.to_nat 65534)%nat) cs ->
  let its := flat_map items cs in
  exists rest, decode (flat_map put its ++ extra) = zip (map decoded its) (cursors 0 its) ++ rest.
Proof.
  intros H its. apply decode_items; [done|]. subst its. induction H as [|c cs [Hc _] H IH]; [constructor|].
  by apply Forall_app.
Qed.

Lemma cursors_length its : forall at_, length (cursors at_ its) = length its.
Proof. induction its as [|i its IH]; intros at_; cbn; [done|by rewrite IH]. Qed.

Lemma finish_forest cs extra :
  Forall (fun c => Forall item_ok (items c) /\ (nesting c <= 15)%nat /\ (widest c <= Z.to_nat 65534)%nat) cs ->
  let its := flat_map items cs in
  (length its <=? length (decode (flat_map put its ++ extra)))%nat = true.
Proof.
  intros H its. destruct (decode_forest cs extra H) as [rest E]. fold its in E. rewrite E, length_app.
  apply Nat.leb_le. rewrite length_zip_with, length_map, cursors_length. lia.
Qed.

End Rfc8949.

Definition rfc8949 : Qcbor := {|
  qcbor_put := Rfc8949.put;
  qcbor_decode := Rfc8949.decode;
  qcbor_finish := fun l n => (n <=? length (Rfc8949.decode l))%nat;
  QCBOR_MAX_ARRAY_NESTING := 15;
  QCBOR_MAX_ITEMS_IN_ARRAY := Z.to_nat 65534;
  put_bytes := Rfc8949.put_in_bytes;
  put_length i _ := Rfc8949.put_item_length i;
  decode_put := Rfc8949.decode_forest;
  finish_put := Rfc8949.finish_forest;
|}.

Example put_42 : qcbor_put (Qcbor := rfc8949) (Item [31436] (H_int 42)) = [217; 122; 204; 24; 42].
Proof. reflexivity. Qed.

(** 1.5, the smallest number and minus infinity. *)
Example widened : map float_to_double [0x3FC00000; 1; 0xFF800000] = [0x3FF8000000000000; 0x36A0000000000000; 0xFFF0000000000000].
Proof. reflexivity. Qed.
