(* ===== verification/Treeval.v ===== *)
(** * Values: [src/util/np_treeval.c]

    A value carries its type, a size and a union; a tree is itself a value, so
    values and trees are one inductive definition.  The size is kept as the
    code keeps it: for strings, bytes and trees it is set by whoever makes the
    value.  The build is the default one ([NP_USE_QCBOR], [x64]). *)
From Stdlib Require Import ZArith Lia.
From stdpp Require Import prelude.
From S2P Require Import Prelude Dhkey.

Local Open Scope Z_scope.

(** [enum np_treeval_type_t] *)
Definition np_treeval_type_undefined : Z := 0.
Definition np_treeval_type_short : Z := 1.
Definition np_treeval_type_int : Z := 2.
Definition np_treeval_type_long : Z := 3.
Definition np_treeval_type_long_long : Z := 4.
Definition np_treeval_type_float : Z := 5.
Definition np_treeval_type_double : Z := 6.
Definition np_treeval_type_char_ptr : Z := 7.
Definition np_treeval_type_char : Z := 8.
Definition np_treeval_type_unsigned_char : Z := 9.
Definition np_treeval_type_unsigned_short : Z := 10.
Definition np_treeval_type_unsigned_int : Z := 11.
Definition np_treeval_type_unsigned_long : Z := 12.
Definition np_treeval_type_unsigned_long_long : Z := 13.
Definition np_treeval_type_uint_array_2 : Z := 14.
Definition np_treeval_type_float_array_2 : Z := 15.
Definition np_treeval_type_char_array_8 : Z := 16.
Definition np_treeval_type_unsigned_char_array_8 : Z := 17.
Definition np_treeval_type_void : Z := 18.
Definition np_treeval_type_bin : Z := 19.
Definition np_treeval_type_jrb_tree : Z := 20.
Definition np_treeval_type_dhkey : Z := 21.
Definition np_treeval_type_uuid : Z := 22.
Definition np_treeval_type_hash : Z := 23.
Definition np_treeval_type_special_char_ptr : Z := 26.
Definition np_treeval_type_cwt : Z := 27.
Definition np_treeval_type_cose_signed : Z := 28.
Definition np_treeval_type_cose_encrypted : Z := 29.

Definition NP_UUID_BYTES : Z := 16.
Definition crypto_generichash_BYTES : Z := 32.

(** The four types whose value is a tree. *)
Inductive tree_kind := jrb_tree | cwt | cose_signed | cose_encrypted.

(** [struct np_treeval_s], [union val_type] with the type that selects its member,
    [struct np_tree_s].  Floating point numbers are their bits; a string is the
    bytes before its terminator; the elements of a tree are in the order of
    their keys. *)
Inductive np_treeval_t := Treeval (tv_size : Z) (value : val)
with val :=
| V_undefined
| V_sh (sh : Z)
| V_i (i : Z)
| V_l (l : Z)
| V_ll (ll : Z)
| V_f (bits : Z)
| V_d (bits : Z)
| V_s (s : list Z)
| V_special (ush : Z)
| V_c (c : Z)
| V_uc (uc : Z)
| V_ush (ush : Z)
| V_ui (ui : Z)
| V_ul (ul : Z)
| V_ull (ull : Z)
| V_a2_ui (a0 a1 : Z)
| V_farray (f0 f1 : Z)
| V_carray (l : list Z)
| V_ucarray (l : list Z)
| V_v (v : Z)
| V_bin (bin : list Z)
| V_hash (bin : list Z)
| V_dhkey (dhkey : np_dhkey_t)
| V_uuid (uuid : list Z)
| V_tree (kind : tree_kind) (tree : np_tree_t)
with np_tree_t := Tree (rbh_root : list (np_treeval_t * np_treeval_t)) (t_size t_byte_size : Z) (in_place immutable : bool).

Definition tv_size (v : np_treeval_t) : Z := let 'Treeval s _ := v in s.
Definition value (v : np_treeval_t) : val := let 'Treeval _ x := v in x.
Definition rbh_root (t : np_tree_t) : list (np_treeval_t * np_treeval_t) := let 'Tree e _ _ _ _ := t in e.
Definition t_size (t : np_tree_t) : Z := let 'Tree _ s _ _ _ := t in s.
Definition t_byte_size (t : np_tree_t) : Z := let 'Tree _ _ b _ _ := t in b.
Definition in_place (t : np_tree_t) : bool := let 'Tree _ _ _ p _ := t in p.
Definition immutable (t : np_tree_t) : bool := let 'Tree _ _ _ _ i := t in i.

Definition kind_type (k : tree_kind) : Z :=
  match k with
  | jrb_tree => np_treeval_type_jrb_tree
  | cwt => np_treeval_type_cwt
  | cose_signed => np_treeval_type_cose_signed
  | cose_encrypted => np_treeval_type_cose_encrypted
  end.

Definition type_of (v : val) : Z :=
  match v with
  | V_undefined => np_treeval_type_undefined
  | V_sh _ => np_treeval_type_short
  | V_i _ => np_treeval_type_int
  | V_l _ => np_treeval_type_long
  | V_ll _ => np_treeval_type_long_long
  | V_f _ => np_treeval_type_float
  | V_d _ => np_treeval_type_double
  | V_s _ => np_treeval_type_char_ptr
  | V_special _ => np_treeval_type_special_char_ptr
  | V_c _ => np_treeval_type_char
  | V_uc _ => np_treeval_type_unsigned_char
  | V_ush _ => np_treeval_type_unsigned_short
  | V_ui _ => np_treeval_type_unsigned_int
  | V_ul _ => np_treeval_type_unsigned_long
  | V_ull _ => np_treeval_type_unsigned_long_long
  | V_a2_ui _ _ => np_treeval_type_uint_array_2
  | V_farray _ _ => np_treeval_type_float_array_2
  | V_carray _ => np_treeval_type_char_array_8
  | V_ucarray _ => np_treeval_type_unsigned_char_array_8
  | V_v _ => np_treeval_type_void
  | V_bin _ => np_treeval_type_bin
  | V_hash _ => np_treeval_type_hash
  | V_dhkey _ => np_treeval_type_dhkey
  | V_uuid _ => np_treeval_type_uuid
  | V_tree k _ => kind_type k
  end.

(** ** Construction: the arguments have the width of the C parameter *)

Definition np_treeval_new_i (i : Z) : np_treeval_t := Treeval 2 (V_i i).
Definition np_treeval_new_l (l : Z) : np_treeval_t := Treeval 4 (V_l l).
Definition np_treeval_new_ll (ll : Z) : np_treeval_t := Treeval 8 (V_ll ll).
Definition np_treeval_new_f (f : Z) : np_treeval_t := Treeval 4 (V_f f).
Definition np_treeval_new_d (d : Z) : np_treeval_t := Treeval 8 (V_d d).
(** The size is not set: [junk] is what it happens to be. *)
Definition np_treeval_new_v (junk v : Z) : np_treeval_t := Treeval junk (V_v v).
Definition np_treeval_new_s (s : list Z) : np_treeval_t := Treeval (Z.of_nat (length s)) (V_s s).
Definition np_treeval_new_c (c : Z) : np_treeval_t := Treeval 1 (V_c c).
Definition np_treeval_new_uc (uc : Z) : np_treeval_t := Treeval 1 (V_uc uc).
Definition np_treeval_new_sh (sh : Z) : np_treeval_t := Treeval 1 (V_sh sh).
Definition np_treeval_new_ush (ush : Z) : np_treeval_t := Treeval 1 (V_ush ush).
Definition np_treeval_new_ui (ui : Z) : np_treeval_t := Treeval 2 (V_ui ui).
Definition np_treeval_new_ul (ul : Z) : np_treeval_t := Treeval 4 (V_ul ul).
Definition np_treeval_new_ull (ull : Z) : np_treeval_t := Treeval 8 (V_ull ull).
Definition np_treeval_new_bin (data : list Z) : np_treeval_t := Treeval (Z.of_nat (length data)) (V_bin data).
Definition np_treeval_new_dhkey (dhkey : np_dhkey_t) : np_treeval_t := Treeval 32 (V_dhkey dhkey).
Definition np_treeval_new_iarray (i0 i1 : Z) : np_treeval_t := Treeval 4 (V_a2_ui i0 i1).
Definition np_treeval_new_farray (f0 f1 : Z) : np_treeval_t := Treeval 8 (V_farray f0 f1).
Definition np_treeval_new_tree (tree : np_tree_t) : np_treeval_t := Treeval (u32 (t_size tree)) (V_tree jrb_tree tree).
Definition np_treeval_new_cose_encrypted (tree : np_tree_t) : np_treeval_t :=
  Treeval (u32 (t_size tree)) (V_tree cose_encrypted tree).
Definition np_treeval_new_cose_signed (tree : np_tree_t) : np_treeval_t :=
  Treeval (u32 (t_size tree)) (V_tree cose_signed tree).
Definition np_treeval_new_cwt (tree : np_tree_t) : np_treeval_t := Treeval (u32 (t_size tree)) (V_tree cwt tree).

(** ** Size in a serialised message *)

(** The conversion to [int16_t]. *)
Definition s16 (x : Z) : Z := (x + 2 ^ 15) mod 2 ^ 16 - 2 ^ 15.

(** The extra bytes of a length or count. *)
Definition extra8 (n : Z) : Z := if 24 <=? n then 1 else 0.
Definition extra16 (n : Z) : Z := if UINT8_MAX <? n then 2 else extra8 n.
Definition extra32 (n : Z) : Z := if UINT16_MAX <? n then 4 else extra16 n.
Definition extra64 (n : Z) : Z := if UINT32_MAX <? n then 8 else extra32 n.

(** The magnitude of an unsigned int is read through the signed member [i]. *)
Definition np_treeval_get_byte_size (ele : np_treeval_t) : Z :=
  match value ele with
  | V_sh x => 1 + 1 + 2 + extra8 (Z.abs x)
  | V_i x => 1 + 1 + 2 + extra16 (Z.abs x)
  | V_l x => 1 + 1 + 2 + extra32 (Z.abs x)
  | V_ll x => 1 + 1 + 2 + extra64 (Z.abs x)
  | V_f _ => 1 + 4
  | V_d _ => 1 + 8
  | V_s _ => extra64 (tv_size ele) + 1 + tv_size ele
  | V_c _ | V_uc _ => 1 + 1
  | V_ush x => 1 + 1 + 2 + extra8 x
  | V_ui x => 1 + 1 + 2 + extra16 (s16 x)
  | V_ul x => 1 + 1 + 2 + extra32 x
  | V_ull x => 1 + 1 + 2 + extra64 x
  | V_a2_ui a b => extra16 a + extra16 b + (1 + 1 + 2 + 1 + 1)
  | V_farray _ _ => 1 + 2 * 4
  | V_carray _ | V_ucarray _ => 1 + 8
  | V_v _ => 1 + 8
  | V_bin _ => extra32 (tv_size ele) + 1 + tv_size ele
  | V_hash _ => 1 + 1 + 2 + 1 + tv_size ele
  | V_tree jrb_tree t => extra64 (t_size t) + (1 + 1 + 2 + t_byte_size t)
  | V_tree _ t => 1 + 2 + extra64 (t_size t) + (1 + 1 + 2 + t_byte_size t)
  | V_dhkey _ => 1 + 1 + 2 + 8 * (1 + 4)
  | V_undefined | V_special _ | V_uuid _ => 0
  end.

(** ** The order of keys *)

(** The sign of [strcmp], which [strncmp (a, b, strlen (a) + 1)] has too, and of
    [memcmp] on fields of one length. *)
Fixpoint strcmp (a b : list Z) : Z :=
  match a, b with
  | [], [] => 0
  | [], _ :: _ => -1
  | _ :: _, [] => 1
  | x :: a, y :: b => if x <? y then -1 else if y <? x then 1 else strcmp a b
  end.

(** A double as a number of the same order: the bits without the sign, negated when
    it is set.  [None]: not a number. *)
Definition dbl_order (bits : Z) : option Z :=
  let m := bits mod 2 ^ 63 in
  if 2047 * 2 ^ 52 <? m then None else Some (if bits <? 2 ^ 63 then m else - m).

(** The sign of [j1 - j2]; a difference that is not a number has none. *)
Definition dbl_cmp (b1 b2 : Z) : Z :=
  match dbl_order b1, dbl_order b2 with
  | Some x, Some y => if x <? y then -1 else if y <? x then 1 else 0
  | _, _ => 0
  end.

(** [_np_tree_elem_cmp] of [np_tree.c], on the keys. *)
Definition _np_tree_elem_cmp (j1 j2 : val) : Z :=
  match j1, j2 with
  | V_s a, V_s b => strcmp a b
  | V_d a, V_d b => dbl_cmp a b
  | V_ul a, V_ul b => s16 (u32 (a - b))
  | V_i a, V_i b => s16 (a - b)
  | V_dhkey a, V_dhkey b => _np_dhkey_cmp (Some a) (Some b)
  | V_uuid a, V_uuid b => strcmp a b
  | _, _ => if 0 <? type_of j1 - type_of j2 then 1 else 0
  end.
