(* ===== verification/Tree.v ===== *)
(** * Trees of values: [src/util/np_tree.c]

    An ordered map from keys (strings, integers, doubles, hash keys, uuids) to
    values, with its number of elements and its serialised size.  The red-black
    macros of [include/tree/tree.h] are vendored code; a tree is the sequence of
    its elements that they keep in order: [RB_FIND] gives the element that
    compares equal, [RB_NFIND] the first that does not compare less, [RB_INSERT]
    puts an element in its place unless one compares equal, [RB_REMOVE] takes it
    out, [RB_FOREACH] goes through the sequence.  For keys of one type and, where
    the comparison cuts a difference to sixteen bits, close enough together, the
    comparison is an order, and these macros do just that.

    The functions for the six kinds of keys differ only in how the key is built. *)
From Stdlib Require Import ZArith Lia.
From stdpp Require Import prelude.
From S2P Require Import Prelude Dhkey Treeval.

Local Open Scope Z_scope.

Abbreviation elem := (np_treeval_t * np_treeval_t)%type.

Definition np_tree_create : np_tree_t := Tree [] 0 0 false false.

Definition set_elems (t : np_tree_t) (l : list elem) (sz bytes : Z) : np_tree_t :=
  Tree l sz bytes (in_place t) (immutable t).
Definition set_attr (t : np_tree_t) (p i : bool) : np_tree_t := Tree (rbh_root t) (t_size t) (t_byte_size t) p i.

(** ** The sequence of elements *)

Definition RB_FIND (l : list elem) (key : val) : option elem :=
  List.find (fun e => _np_tree_elem_cmp key (value e.1) =? 0) l.
Definition RB_NFIND (l : list elem) (key : val) : option elem :=
  List.find (fun e => _np_tree_elem_cmp key (value e.1) <=? 0) l.
Fixpoint RB_INSERT (l : list elem) (new : elem) : list elem :=
  match l with
  | [] => [new]
  | e :: l' =>
      let c := _np_tree_elem_cmp (value new.1) (value e.1) in
      if c <? 0 then new :: l else if c =? 0 then l else e :: RB_INSERT l' new
  end.
Fixpoint RB_REMOVE (l : list elem) (key : val) : list elem :=
  match l with
  | [] => []
  | e :: l' => if _np_tree_elem_cmp key (value e.1) =? 0 then l' else e :: RB_REMOVE l' key
  end.
(** The value of the element [found] is overwritten where it is in the tree, as
    np_tree_replace_treeval does through its pointer. *)
Fixpoint overwrite_element (l : list elem) (key : val) (v : np_treeval_t) : list elem :=
  match l with
  | [] => []
  | e :: l' => if _np_tree_elem_cmp key (value e.1) =? 0 then (e.1, v) :: l' else e :: overwrite_element l' key v
  end.

(** ** Lookup *)

Definition np_tree_find_str (n : np_tree_t) (key : list Z) : option elem := RB_FIND (rbh_root n) (V_s key).
Definition np_tree_find_int (n : np_tree_t) (key : Z) : option elem := RB_FIND (rbh_root n) (V_i key).
Definition np_tree_find_dhkey (n : np_tree_t) (key : np_dhkey_t) : option elem := RB_FIND (rbh_root n) (V_dhkey key).
Definition np_tree_find_ulong (n : np_tree_t) (key : Z) : option elem := RB_FIND (rbh_root n) (V_ul key).
Definition np_tree_find_dbl (n : np_tree_t) (key : Z) : option elem := RB_FIND (rbh_root n) (V_d key).
Definition np_tree_find_uuid (n : np_tree_t) (key : list Z) : option elem := RB_FIND (rbh_root n) (V_uuid key).

(** [strncmp (a, b, n) == 0] *)
Definition strncmp_eq (a b : list Z) (n : nat) : bool := bool_decide (take n a = take n b).

(** The element found and [*fnd]. *)
Definition np_tree_find_gte_str (n : np_tree_t) (key : list Z) : option elem * bool :=
  let result := RB_NFIND (rbh_root n) (V_s key) in
  (result, match result with
           | Some (Treeval _ (V_s s), _) => strncmp_eq s key (length key)
           | _ => false
           end).
Definition np_tree_find_gte_int (n : np_tree_t) (ikey : Z) : option elem * bool :=
  let result := RB_NFIND (rbh_root n) (V_i ikey) in
  (result, match result with Some (Treeval _ (V_i i), _) => i =? ikey | _ => false end).
Definition np_tree_find_gte_ulong (n : np_tree_t) (ulkey : Z) : option elem * bool :=
  let result := RB_NFIND (rbh_root n) (V_ul ulkey) in
  (result, match result with Some (Treeval _ (V_ul u), _) => u =? ulkey | _ => false end).
Definition np_tree_find_gte_dbl (n : np_tree_t) (dkey : Z) : option elem * bool :=
  let result := RB_NFIND (rbh_root n) (V_d dkey) in
  (result, match result with
           | Some (Treeval _ (V_d d), _) =>
               match dbl_order d, dbl_order dkey with Some x, Some y => x =? y | _, _ => false end
           | _ => false
           end).

(** ** Sizes *)

Definition np_tree_get_byte_size (tree : np_tree_t) : Z := np_treeval_get_byte_size (np_treeval_new_tree tree).
Definition np_tree_element_get_byte_size (node : elem) : Z :=
  u64 (np_treeval_get_byte_size node.1 + np_treeval_get_byte_size node.2).

(** ** Removal *)

Definition __np_tree_immutable_check (tree : np_tree_t) : result unit := c_assert (negb (immutable tree)).

Definition np_tree_del_element (tree : np_tree_t) (to_delete : option elem) : np_tree_t :=
  match to_delete with
  | None => tree
  | Some e =>
      set_elems tree (RB_REMOVE (rbh_root tree) (value e.1)) (u64 (t_size tree - 1))
        (u64 (t_byte_size tree - np_tree_element_get_byte_size e))
  end.

Definition np_tree_del_str (tree : np_tree_t) (key : list Z) : result np_tree_t :=
  _ ← __np_tree_immutable_check tree; Ok (np_tree_del_element tree (np_tree_find_str tree key)).
Definition np_tree_del_int (tree : np_tree_t) (key : Z) : result np_tree_t :=
  _ ← __np_tree_immutable_check tree; Ok (np_tree_del_element tree (np_tree_find_int tree key)).
Definition np_tree_del_dhkey (tree : np_tree_t) (key : np_dhkey_t) : result np_tree_t :=
  _ ← __np_tree_immutable_check tree; Ok (np_tree_del_element tree (np_tree_find_dhkey tree key)).
Definition np_tree_del_uuid (tree : np_tree_t) (key : list Z) : result np_tree_t :=
  _ ← __np_tree_immutable_check tree; Ok (np_tree_del_element tree (np_tree_find_uuid tree key)).
Definition np_tree_del_double (tree : np_tree_t) (dkey : Z) : result np_tree_t :=
  _ ← __np_tree_immutable_check tree; Ok (np_tree_del_element tree (np_tree_find_dbl tree dkey)).
Definition np_tree_del_ulong (tree : np_tree_t) (key : Z) : result np_tree_t :=
  _ ← __np_tree_immutable_check tree; Ok (np_tree_del_element tree (np_tree_find_ulong tree key)).

(** As long as there is a smallest element, it is removed. *)
Fixpoint clear_loop (fuel : nat) (n : np_tree_t) : result np_tree_t :=
  match fuel with
  | O => Err Diverges
  | S fuel' => match head (rbh_root n) with None => Ok n | iter => clear_loop fuel' (np_tree_del_element n iter) end
  end.
Definition np_tree_clear (n : np_tree_t) : result np_tree_t := clear_loop (S (length (rbh_root n))) n.

(** ** Insertion: the element is counted, and its size added, whether or not
    [RB_INSERT] found a place for it *)

Definition np_tree_insert_element (tree : np_tree_t) (ele : elem) : result np_tree_t :=
  _ ← __np_tree_immutable_check tree;
  Ok (set_elems tree (RB_INSERT (rbh_root tree) ele) (u64 (t_size tree + 1))
        (u64 (t_byte_size tree + np_tree_element_get_byte_size ele))).

Section Copying.
(** [np_treeval_copy_of_val], which needs the functions below for trees. *)
Context (copy : np_treeval_t -> result np_treeval_t).

Definition set_treeval (tree : np_tree_t) (v : np_treeval_t) : result np_treeval_t :=
  if in_place tree then Ok v else copy v.

(** The common part: nothing happens when the key is there. *)
Definition insert_key (tree : np_tree_t) (found : option elem) (key v : np_treeval_t) : result np_tree_t :=
  match found with
  | Some _ => Ok tree
  | None => v ← set_treeval tree v; np_tree_insert_element tree (key, v)
  end.

Definition str_key (tree : np_tree_t) (key : list Z) : np_treeval_t :=
  Treeval (Z.of_nat (length (take 255 key))) (V_s (if in_place tree then key else take 255 key)).

Definition insert_str (tree : np_tree_t) (key : list Z) (v : np_treeval_t) : result np_tree_t :=
  insert_key tree (np_tree_find_str tree key) (str_key tree key) v.
Definition insert_int (tree : np_tree_t) (ikey : Z) (v : np_treeval_t) : result np_tree_t :=
  insert_key tree (np_tree_find_int tree ikey) (Treeval 2 (V_i ikey)) v.
Definition insert_dhkey (tree : np_tree_t) (key : np_dhkey_t) (v : np_treeval_t) : result np_tree_t :=
  insert_key tree (np_tree_find_dhkey tree key) (Treeval 32 (V_dhkey key)) v.
Definition insert_uuid (tree : np_tree_t) (key : list Z) (v : np_treeval_t) : result np_tree_t :=
  insert_key tree (np_tree_find_uuid tree key) (Treeval NP_UUID_BYTES (V_uuid key)) v.
Definition insert_ulong (tree : np_tree_t) (ulkey : Z) (v : np_treeval_t) : result np_tree_t :=
  insert_key tree (np_tree_find_ulong tree ulkey) (Treeval 4 (V_ul ulkey)) v.
Definition insert_dbl (tree : np_tree_t) (dkey : Z) (v : np_treeval_t) : result np_tree_t :=
  insert_key tree (np_tree_find_dbl tree dkey) (Treeval 8 (V_d dkey)) v.

(** The chain of tests on the type of a key in [np_tree_copy]. *)
Definition insert_by_key (target : np_tree_t) (key v : np_treeval_t) : result np_tree_t :=
  match value key with
  | V_s s => insert_str target s v
  | V_i i => insert_int target i v
  | V_d d => insert_dbl target d v
  | V_ul ul => insert_ulong target ul v
  | V_dhkey k => insert_dhkey target k v
  | V_uuid u => insert_uuid target u v
  | _ => Ok target
  end.
Definition tree_copy (source : list elem) (target : np_tree_t) : result np_tree_t :=
  foldM (fun tmp target => insert_by_key target tmp.1 tmp.2) source target.
Definition tree_clone (source : np_tree_t) : result np_tree_t :=
  ret ← tree_copy (rbh_root source) (set_attr np_tree_create false false);
  Ok (set_attr ret false (immutable source)).

End Copying.

(** [strndup (s, n)] *)
Definition strndup (s : list Z) (n : Z) : list Z := take (Z.to_nat n) s.

(** Types without a case become undefined; what their size and value are then is
    not determined: 0 here. *)
Fixpoint np_treeval_copy_of_val (from : np_treeval_t) : result np_treeval_t :=
  match from with
  | Treeval size v =>
      match v with
      | V_sh _ | V_ush _ | V_special _ | V_c _ | V_uc _ => Ok (Treeval 1 v)
      | V_i _ | V_ui _ => Ok (Treeval 2 v)
      | V_l _ | V_ul _ | V_f _ | V_a2_ui _ _ => Ok (Treeval 4 v)
      | V_ll _ | V_ull _ | V_d _ => Ok (Treeval 8 v)
      | V_s s => Ok (Treeval size (V_s (strndup s size)))
      | V_bin b =>
          _ ← (if Z.of_nat (length b) <? size then Err Bad_access else Ok tt);
          Ok (Treeval size (V_bin (take (Z.to_nat size) b)))
      | V_hash b =>
          _ ← (if Z.of_nat (length b) <? size then Err Bad_access else Ok tt);
          Ok (Treeval size (V_hash (take (Z.to_nat size) b)))
      | V_dhkey k => Ok (Treeval 32 (V_dhkey k))
      | V_uuid u => Ok (Treeval NP_UUID_BYTES (V_uuid u))
      | V_v p => Ok (Treeval size (V_v p))
      | V_tree k (Tree els sz bytes p i) =>
          ret ← foldM (fun tmp target => insert_by_key np_treeval_copy_of_val target tmp.1 tmp.2) els
                  (set_attr np_tree_create false false);
          Ok (Treeval size (V_tree k (set_attr ret false i)))
      | V_undefined | V_farray _ _ | V_carray _ | V_ucarray _ => Ok (Treeval 0 V_undefined)
      end
  end.

(** ** The functions themselves *)

Definition np_tree_set_treeval (tree : np_tree_t) (v : np_treeval_t) : result np_treeval_t :=
  set_treeval np_treeval_copy_of_val tree v.

Definition np_tree_insert_str := insert_str np_treeval_copy_of_val.
Definition np_tree_insert_int := insert_int np_treeval_copy_of_val.
Definition np_tree_insert_dhkey := insert_dhkey np_treeval_copy_of_val.
Definition np_tree_insert_uuid := insert_uuid np_treeval_copy_of_val.
Definition np_tree_insert_ulong := insert_ulong np_treeval_copy_of_val.
Definition np_tree_insert_dbl := insert_dbl np_treeval_copy_of_val.

Definition np_tree_copy (source target : np_tree_t) : result np_tree_t :=
  tree_copy np_treeval_copy_of_val (rbh_root source) target.
Definition np_tree_clone (source : np_tree_t) : result np_tree_t := tree_clone np_treeval_copy_of_val source.

(** [element] is one of the tree. *)
Definition np_tree_replace_treeval (tree : np_tree_t) (element : elem) (v : np_treeval_t) : result np_tree_t :=
  _ ← __np_tree_immutable_check tree;
  let bytes := u64 (t_byte_size tree - np_tree_element_get_byte_size element) in
  v ← np_tree_set_treeval tree v;
  Ok (set_elems tree (overwrite_element (rbh_root tree) (value element.1) v) (t_size tree)
        (u64 (bytes + np_tree_element_get_byte_size (element.1, v)))).

Definition np_tree_replace_str (tree : np_tree_t) (key : list Z) (v : np_treeval_t) : result np_tree_t :=
  match np_tree_find_str tree key with
  | None => np_tree_insert_str tree key v
  | Some found => np_tree_replace_treeval tree found v
  end.
Definition np_tree_replace_int (tree : np_tree_t) (ikey : Z) (v : np_treeval_t) : result np_tree_t :=
  match np_tree_find_int tree ikey with
  | None => np_tree_insert_int tree ikey v
  | Some found => np_tree_replace_treeval tree found v
  end.
Definition np_tree_replace_dhkey (tree : np_tree_t) (key : np_dhkey_t) (v : np_treeval_t) : result np_tree_t :=
  match np_tree_find_dhkey tree key with
  | None => np_tree_insert_dhkey tree key v
  | Some found => np_tree_replace_treeval tree found v
  end.
Definition np_tree_replace_uuid (tree : np_tree_t) (key : list Z) (v : np_treeval_t) : result np_tree_t :=
  match np_tree_find_uuid tree key with
  | None => np_tree_insert_uuid tree key v
  | Some found => np_tree_replace_treeval tree found v
  end.
Definition np_tree_replace_ulong (tree : np_tree_t) (ulkey : Z) (v : np_treeval_t) : result np_tree_t :=
  match np_tree_find_ulong tree ulkey with
  | None => np_tree_insert_ulong tree ulkey v
  | Some found => np_tree_replace_treeval tree found v
  end.
Definition np_tree_replace_dbl (tree : np_tree_t) (dkey : Z) (v : np_treeval_t) : result np_tree_t :=
  match np_tree_find_dbl tree dkey with
  | None => np_tree_insert_dbl tree dkey v
  | Some found => np_tree_replace_treeval tree found v
  end.

Definition replace_by_key (target : np_tree_t) (key v : np_treeval_t) : result np_tree_t :=
  match value key with
  | V_s s => np_tree_replace_str target s v
  | V_i i => np_tree_replace_int target i v
  | V_d d => np_tree_replace_dbl target d v
  | V_ul ul => np_tree_replace_ulong target ul v
  | V_dhkey k => np_tree_replace_dhkey target k v
  | V_uuid u => np_tree_replace_uuid target u v
  | _ => Ok target
  end.
Definition np_tree_copy_inplace (source target : np_tree_t) : result np_tree_t :=
  foldM (fun tmp target => replace_by_key target tmp.1 tmp.2) (rbh_root source) target.

Definition _np_tree_replace_all_with_str (n : np_tree_t) (key : list Z) (v : np_treeval_t) : result np_tree_t :=
  n ← np_tree_clear n; np_tree_insert_str n key v.

(** The field of that name is there; [*buffer]: its element, or that of the subject
    field, which only the log wanted. *)
Definition np_tree_check_field (tree : np_tree_t) (field_name subject : list Z) : bool * option elem :=
  match np_tree_find_str tree field_name with
  | Some e => (true, Some e)
  | None => (false, np_tree_find_str tree subject)
  end.

(** Elements are listed in the order of their keys. *)
Example insert_two :
  (t ← np_tree_insert_str np_tree_create [98; 98] (np_treeval_new_ul 7);
   t ← np_tree_insert_str t [97; 97; 97] (np_treeval_new_s [120; 121]);
   Ok (rbh_root t, t_size t, t_byte_size t))
  = Ok ([(Treeval 3 (V_s [97; 97; 97]), Treeval 2 (V_s [120; 121])); (Treeval 2 (V_s [98; 98]), Treeval 4 (V_ul 7))], 2, 14).
Proof. reflexivity. Qed.
