(* ===== verification/TreeSpec.v ===== *)
(** * Trees refine finite maps

    Keys are ranked by lists of numbers, compared lexicographically; a tree whose
    keys have one kind is then a finite map from ranks to values, listed in order,
    with exact books of its size.  A well-formed value is one that copying
    reproduces. *)
From Stdlib Require Import ZArith Lia.
From stdpp Require Import prelude gmap fin_maps sorting.
From S2P Require Import Prelude Dhkey Treeval Tree.

Local Open Scope Z_scope.

(** ** Ranks *)

Lemma strcmp_refl a : strcmp a a = 0.
Proof. induction a as [|x a IH]; [done|]. cbn. by rewrite Z.ltb_irrefl. Qed.

Lemma strcmp_zero a b : strcmp a b = 0 <-> a = b.
Proof.
  split; [|intros ->; apply strcmp_refl].
  revert b. induction a as [|x a IH]; intros [|y b]; cbn; try done.
  destruct (Z.ltb_spec x y); [done|]. destruct (Z.ltb_spec y x); [done|].
  intros E%IH. f_equal; [lia|done].
Qed.

Lemma strcmp_anti a b : strcmp b a = - strcmp a b.
Proof.
  revert b. induction a as [|x a IH]; intros [|y b]; cbn; try done.
  destruct (Z.ltb_spec x y), (Z.ltb_spec y x); try lia. apply IH.
Qed.

Lemma strcmp_cases a b : strcmp a b = -1 \/ a = b \/ strcmp a b = 1.
Proof.
  assert (strcmp a b = -1 \/ strcmp a b = 0 \/ strcmp a b = 1) as [H|[H|H]]; [|by left| |by right; right].
  - revert b. induction a as [|x a IH]; intros [|y b]; cbn; try lia. repeat case_match; try lia. apply IH.
  - right. left. by apply strcmp_zero.
Qed.

Lemma strcmp_trans a b c : strcmp a b = -1 -> strcmp b c = -1 -> strcmp a c = -1.
Proof.
  revert b c. induction a as [|x a IH]; intros [|y b] [|z c]; cbn; try done.
  destruct (Z.ltb_spec x y), (Z.ltb_spec y x), (Z.ltb_spec y z), (Z.ltb_spec z y), (Z.ltb_spec x z), (Z.ltb_spec z x);
    try lia. apply IH.
Qed.

(** What kind of keys a tree has.  Differences of numbers are cut to sixteen bits,
    so numbers have to come from an interval of half that size. *)
Inductive key_kind := K_str | K_int (lo : Z) | K_ul (lo : Z) | K_dbl | K_dhkey | K_uuid.

Definition key_of_kind (k : key_kind) (v : val) : Prop :=
  match k, v with
  | K_str, V_s s => (length s <= 255)%nat
  | K_int lo, V_i i => lo <= i < lo + 2 ^ 15
  | K_ul lo, V_ul u => lo <= u < lo + 2 ^ 15
  | K_dbl, V_d d => is_Some (dbl_order d)
  | K_dhkey, V_dhkey h => dhkey_wf h
  | K_uuid, V_uuid u => length u = 16%nat
  | _, _ => False
  end.

Definition rank (v : val) : list Z :=
  match v with
  | V_s s => s
  | V_i i => [i]
  | V_ul u => [u]
  | V_d d => [default 0 (dbl_order d)]
  | V_dhkey h => dh_t h
  | V_uuid u => u
  | _ => []
  end.

Lemma s16_small x : - 2 ^ 15 <= x < 2 ^ 15 -> s16 x = x.
Proof. intros H. unfold s16. rewrite Z.mod_small; lia. Qed.

Lemma s16_u32 x : s16 (u32 x) = s16 x.
Proof.
  unfold s16, u32. f_equal. rewrite <-(Zplus_mod_idemp_l (x mod 2 ^ 32)).
  assert ((x mod 2 ^ 32) mod 2 ^ 16 = x mod 2 ^ 16) as ->; [|by rewrite Zplus_mod_idemp_l].
  apply Z.mod_mod_divide. by exists (2 ^ 16).
Qed.

Lemma cmp_words_strcmp l1 l2 : length l1 = length l2 -> cmp_words l1 l2 = strcmp l1 l2.
Proof.
  revert l2. induction l1 as [|x l1 IH]; intros [|y l2] H; try done. cbn.
  destruct (Z.ltb_spec y x), (Z.ltb_spec x y); try lia. by apply IH; injection H.
Qed.

Lemma strcmp_one x y : strcmp [x] [y] = Z.sgn (x - y).
Proof. cbn. destruct (Z.ltb_spec x y), (Z.ltb_spec y x); lia. Qed.

Lemma strcmp_sgn a b : Z.sgn (strcmp a b) = strcmp a b.
Proof. destruct (strcmp_cases a b) as [-> | [-> | ->]]; try done. by rewrite strcmp_refl. Qed.

(** The comparison of two keys of one kind is that of their ranks. *)
Lemma cmp_rank k a b : key_of_kind k a -> key_of_kind k b -> Z.sgn (_np_tree_elem_cmp a b) = strcmp (rank a) (rank b).
Proof.
  intros Ha Hb. destruct k, a, b; try done; cbn [_np_tree_elem_cmp rank].
  - apply strcmp_sgn.
  - cbn in Ha, Hb. rewrite s16_small, strcmp_one by lia. done.
  - cbn in Ha, Hb. rewrite s16_u32, s16_small, strcmp_one by lia. done.
  - destruct Ha as [x Hx], Hb as [y Hy]. unfold dbl_cmp. rewrite Hx, Hy. cbn [from_option id].
    rewrite strcmp_one. destruct (Z.ltb_spec x y), (Z.ltb_spec y x); lia.
  - cbn in Ha, Hb. unfold _np_dhkey_cmp. rewrite cmp_words_strcmp, strcmp_sgn; [done|].
    by destruct Ha as [-> _], Hb as [-> _].
  - apply strcmp_sgn.
Qed.

Section Kind.
Context (k : key_kind).

Abbreviation erank e := (rank (value (@fst np_treeval_t np_treeval_t e))).
Definition before (e1 e2 : elem) : Prop := strcmp (erank e1) (erank e2) = -1.

(** The elements of a tree of kind [k]. *)
Definition ordered (l : list elem) : Prop :=
  StronglySorted before l /\ Forall (fun e : elem => key_of_kind k (value e.1)) l.

Lemma before_trans e1 e2 e3 : before e1 e2 -> before e2 e3 -> before e1 e3.
Proof. apply strcmp_trans. Qed.

Lemma cmp_key a (e : elem) : key_of_kind k a -> key_of_kind k (value (fst e)) ->
  let c := _np_tree_elem_cmp a (value (fst e)) in
  (c <? 0) = (strcmp (rank a) (erank e) =? -1) /\ (c =? 0) = (strcmp (rank a) (erank e) =? 0) /\
  (c <=? 0) = (strcmp (rank a) (erank e) <=? 0).
Proof.
  intros Ha He c. pose proof (cmp_rank k a (value (fst e)) Ha He) as E. fold c in E.
  destruct (strcmp_cases (rank a) (erank e)) as [H|[H|H]]; rewrite ?H, ?strcmp_refl in *; lia.
Qed.

(** Where a key is, or would be. *)
Lemma place l a : ordered l -> key_of_kind k a ->
  exists pre post, Forall (fun e => strcmp (rank a) (erank e) = 1) pre /\ Forall (fun e => strcmp (rank a) (erank e) = -1) post /\
    (l = pre ++ post \/ exists e, l = pre ++ e :: post /\ erank e = rank a).
Proof.
  intros [Hs Hk] Ha. induction Hs as [|e l Hs IH He]; [by exists [], []; eauto|].
  apply Forall_cons in Hk as [Hke Hk]. destruct (strcmp_cases (rank a) (erank e)) as [H|[H|H]].
  - exists [], (e :: l). split; [constructor|]. split; [|by left]. constructor; [done|].
    eapply Forall_impl; [exact He|]. intros e' He'. by eapply strcmp_trans.
  - exists [], l. split; [constructor|]. split; [|by right; exists e]. rewrite H. done.
  - destruct (IH Hk) as (pre & post & Hpre & Hpost & Hl). exists (e :: pre), post. split; [by constructor|].
    split; [done|]. destruct Hl as [-> | (e' & -> & Ee)]; [by left|right; by exists e'].
Qed.

Lemma find_skip (p : elem -> bool) pre l : Forall (fun e => p e = false) pre -> List.find p (pre ++ l) = List.find p l.
Proof. induction 1 as [|e pre He _ IH]; [done|]. cbn. by rewrite He. Qed.

Lemma find_none (p : elem -> bool) l : Forall (fun e => p e = false) l -> List.find p l = None.
Proof. intros H. rewrite <-(app_nil_r l), find_skip; done. Qed.

(** ** The sequence operations on a key that is there, and on one that is not *)

Section Place.
Context (a : val) (pre post : list elem).
Hypothesis Ha : key_of_kind k a.
Hypothesis Hpre : Forall (fun e => strcmp (rank a) (erank e) = 1) pre.
Hypothesis Hpost : Forall (fun e => strcmp (rank a) (erank e) = -1) post.

Lemma pre_kind (l : list elem) s : Forall (fun e : elem => key_of_kind k (value e.1)) l ->
  Forall (fun e => strcmp (rank a) (erank e) = s) l ->
  Forall (fun e : elem => (_np_tree_elem_cmp a (value e.1) <? 0) = (s =? -1) /\ (_np_tree_elem_cmp a (value e.1) =? 0) = (s =? 0) /\
                   (_np_tree_elem_cmp a (value e.1) <=? 0) = (s <=? 0)) l.
Proof using Ha.
  intros Hk Hs. induction Hs as [|e l He Hs IH]; constructor; [|by apply Forall_cons in Hk as [_ Hk]; apply IH].
  apply Forall_cons in Hk as [Hke _]. destruct (cmp_key a e Ha Hke) as (H1 & H2 & H3). by rewrite He in *.
Qed.

Lemma ops_absent : ordered (pre ++ post) ->
  RB_FIND (pre ++ post) a = None /\ RB_NFIND (pre ++ post) a = head post /\
  (forall sz v, RB_INSERT (pre ++ post) (Treeval sz a, v) = pre ++ (Treeval sz a, v) :: post) /\
  RB_REMOVE (pre ++ post) a = pre ++ post.
Proof using All.
  intros [_ Hk]. apply Forall_app in Hk as [Hk1 Hk2].
  pose proof (pre_kind pre 1 Hk1 Hpre) as P. pose proof (pre_kind post (-1) Hk2 Hpost) as Q. clear Hk1 Hk2 Hpre Hpost.
  split_and!.
  - unfold RB_FIND. apply find_none, Forall_app. split; (eapply Forall_impl; [eassumption|]); intros e (_ & -> & _); done.
  - unfold RB_NFIND. rewrite find_skip by (eapply Forall_impl; [exact P|]; intros e (_ & _ & ->); done).
    destruct Q as [|e post (_ & _ & E) _]; [done|]. cbn. by rewrite E.
  - intros sz v. induction P as [|e pre (E1 & E2 & _) _ IH]; cbn.
    + destruct Q as [|e post (E & _) _]; [done|]. cbn. by rewrite E.
    + by rewrite E1, E2, IH.
  - induction P as [|e pre (E1 & E2 & _) _ IH]; cbn.
    + induction Q as [|e post (_ & E & _) _ IH]; [done|]. cbn. by rewrite E, IH.
    + by rewrite E2, IH.
Qed.

Lemma ops_present e : erank e = rank a -> ordered (pre ++ e :: post) ->
  RB_FIND (pre ++ e :: post) a = Some e /\ RB_NFIND (pre ++ e :: post) a = Some e /\
  RB_REMOVE (pre ++ e :: post) a = pre ++ post /\
  (forall v, overwrite_element (pre ++ e :: post) a v = pre ++ (e.1, v) :: post).
Proof using All.
  intros Ee [_ Hk]. apply Forall_app in Hk as [Hk1 Hk2]. apply Forall_cons in Hk2 as [Hke _].
  pose proof (pre_kind pre 1 Hk1 Hpre) as P. clear Hk1.
  destruct (cmp_key a e Ha Hke) as (E1 & E2 & E3). rewrite <-Ee, strcmp_refl in *. clear Hpre Hpost.
  split_and!.
  - unfold RB_FIND. rewrite find_skip by (eapply Forall_impl; [exact P|]; intros ? (_ & -> & _); done). cbn. by rewrite E2.
  - unfold RB_NFIND. rewrite find_skip by (eapply Forall_impl; [exact P|]; intros ? (_ & _ & ->); done). cbn. by rewrite E3.
  - induction P as [|e' pre (_ & E & _) _ IH]; cbn; [by rewrite E2|]. by rewrite E, IH.
  - intros v. induction P as [|e' pre (_ & E & _) _ IH]; cbn; [by rewrite E2|]. by rewrite E, IH.
Qed.
End Place.

(** ** The map a tree stands for *)

Definition to_map (l : list elem) : gmap (list Z) np_treeval_t := list_to_map (map (fun e => (erank e, e.2)) l).

Definition key_size (v : val) : Z :=
  match v with
  | V_s s => Z.of_nat (length s)
  | V_i _ => 2
  | V_ul _ => 4
  | V_d _ => 8
  | V_dhkey _ => 32
  | _ => NP_UUID_BYTES
  end.
Definition mk_key (v : val) : np_treeval_t := Treeval (key_size v) v.

(** The well-formed trees of the kind: keys in order and as the functions build
    them, exact books. *)
Record tree_wf (t : np_tree_t) : Prop := {
  wf_ordered : ordered (rbh_root t);
  wf_keys : Forall (fun e : elem => e.1 = mk_key (value e.1)) (rbh_root t);
  wf_size : t_size t = u64 (Z.of_nat (length (rbh_root t)));
  wf_bytes : t_byte_size t = u64 (zsum (map np_tree_element_get_byte_size (rbh_root t)));
  wf_copies : in_place t = false;
}.

Lemma ordered_nodup l : ordered l -> NoDup (map (fun e => (erank e, e.2)) l).*1.
Proof.
  intros [Hs _]. induction Hs as [|e l Hs IH He]; [constructor|]. cbn. constructor; [|done].
  intros (y & Ey & (e' & -> & He')%list_elem_of_fmap)%list_elem_of_fmap. cbn in Ey.
  rewrite Forall_forall in He. specialize (He _ He'). unfold before in He. rewrite Ey, strcmp_refl in He. lia.
Qed.

Lemma to_map_middle pre e post : ordered (pre ++ e :: post) ->
  to_map (pre ++ e :: post) = <[erank e := e.2]> (to_map (pre ++ post)).
Proof.
  intros Ho. unfold to_map. pose proof (ordered_nodup _ Ho) as Hn.
  rewrite (list_to_map_proper _ (map (fun e => (erank e, e.2)) (e :: pre ++ post))); [done|done|].
  apply Permutation_map. symmetry. apply Permutation_middle.
Qed.

Lemma to_map_not pre post r : Forall (fun e => strcmp r (erank e) = 1) pre -> Forall (fun e => strcmp r (erank e) = -1) post ->
  to_map (pre ++ post) !! r = None.
Proof.
  intros H1 H2. apply not_elem_of_list_to_map_1. intros (y & -> & (e & -> & He)%list_elem_of_fmap)%list_elem_of_fmap.
  apply elem_of_app in He. rewrite Forall_forall in H1, H2. cbn in *.
  destruct He as [He|He]; [specialize (H1 _ He)|specialize (H2 _ He)]; rewrite strcmp_refl in *; lia.
Qed.

Lemma ordered_sub pre e post : ordered (pre ++ e :: post) -> ordered (pre ++ post).
Proof.
  intros [Hs Hk]. split; [|apply Forall_app in Hk as [? Hk]; apply Forall_cons in Hk as [_ ?]; by apply Forall_app].
  clear Hk. induction pre as [|x pre IH]; cbn in *; [by apply StronglySorted_inv in Hs as [? _]|].
  apply StronglySorted_inv in Hs as [Hs Hx]. constructor; [by apply IH|].
  apply Forall_app in Hx as [? Hx]. apply Forall_cons in Hx as [_ ?]. by apply Forall_app.
Qed.

Lemma ordered_add pre (e : elem) post : key_of_kind k (value e.1) ->
  Forall (fun e' => strcmp (erank e) (erank e') = 1) pre -> Forall (fun e' => strcmp (erank e) (erank e') = -1) post ->
  ordered (pre ++ post) -> ordered (pre ++ e :: post).
Proof.
  intros He Hpre Hpost [Hs Hk]. split.
  - clear Hk. induction Hpre as [|x pre Hx Hpre IH]; cbn in *; [by constructor|].
    apply StronglySorted_inv in Hs as [Hs Hxs]. constructor; [by apply IH|].
    apply Forall_app in Hxs as [? ?]. apply Forall_app. split; [done|]. constructor; [|done].
    unfold before. rewrite strcmp_anti. lia.
  - apply Forall_app in Hk as [? ?]. apply Forall_app. split; [done|]. by constructor.
Qed.

Lemma ordered_update pre (e : elem) v post : ordered (pre ++ e :: post) -> ordered (pre ++ (e.1, v) :: post).
Proof.
  intros [Hs Hk]. split.
  - clear Hk. induction pre as [|x pre IH]; cbn in *.
    + apply StronglySorted_inv in Hs as [? ?]. by constructor.
    + apply StronglySorted_inv in Hs as [Hs Hx]. constructor; [by apply IH|].
      apply Forall_app in Hx as [? Hx]. apply Forall_cons in Hx as [? ?]. apply Forall_app. split; [done|by constructor].
  - apply Forall_app in Hk as [? Hk]. apply Forall_cons in Hk as [? ?]. apply Forall_app. split; [done|by constructor].
Qed.

(** ** The books *)

Lemma u64_add_l a b : u64 (u64 a + b) = u64 (a + b).
Proof. apply Zplus_mod_idemp_l. Qed.
Lemma u64_sub_l a b : u64 (u64 a - b) = u64 (a - b).
Proof. apply Zminus_mod_idemp_l. Qed.
Lemma zsum_middle pre x post : zsum (pre ++ x :: post) = x + zsum (pre ++ post).
Proof. unfold zsum. induction pre as [|y pre IH]; cbn in *; lia. Qed.

(** How each operation changes a well-formed tree. *)
Lemma wf_set t l sz bytes : ordered l -> Forall (fun e : elem => e.1 = mk_key (value e.1)) l ->
  sz = u64 (Z.of_nat (length l)) -> bytes = u64 (zsum (map np_tree_element_get_byte_size l)) -> in_place t = false ->
  tree_wf (set_elems t l sz bytes).
Proof. intros. by constructor. Qed.

Section Op.
Context (copy : np_treeval_t -> result np_treeval_t) (t : np_tree_t) (a : val).
Hypothesis Hwf : tree_wf t.
Hypothesis Ha : key_of_kind k a.

(** Which key the insertions build. *)
Lemma insert_by_key_eq sz v :
  insert_by_key copy t (Treeval sz a) v = insert_key copy t (RB_FIND (rbh_root t) a) (mk_key a) v.
Proof using All.
  unfold insert_by_key. destruct a; try (by destruct k); cbn [value]; try done.
  unfold insert_str, str_key. rewrite (wf_copies t Hwf). destruct k; try done. cbn in Ha.
  rewrite take_ge by done. done.
Qed.

Lemma find_spec : snd <$> RB_FIND (rbh_root t) a = to_map (rbh_root t) !! rank a.
Proof using Hwf Ha.
  pose proof (wf_ordered t Hwf) as Ho. destruct (place _ a Ho Ha) as (pre & post & Hpre & Hpost & [E|(e & E & Ee)]); rewrite E in *.
  - destruct (ops_absent a pre post Ha Hpre Hpost Ho) as (-> & _). symmetry. by apply to_map_not.
  - destruct (ops_present a pre post Ha Hpre Hpost e Ee Ho) as (-> & _). rewrite to_map_middle by done.
    rewrite <-Ee, lookup_insert_eq. done.
Qed.

Hypothesis Hm : immutable t = false.

Lemma insert_spec sz v v' : copy v = Ok v' ->
  exists t', insert_by_key copy t (Treeval sz a) v = Ok t' /\ tree_wf t' /\ immutable t' = false /\
    to_map (rbh_root t') = match to_map (rbh_root t) !! rank a with
                           | Some _ => to_map (rbh_root t)
                           | None => <[rank a := v']> (to_map (rbh_root t))
                           end.
Proof using All.
  intros Hv. rewrite insert_by_key_eq. rewrite <-find_spec. pose proof Hwf as [Ho Hks Hsz Hb Hp].
  destruct (place _ a Ho Ha) as (pre & post & Hpre & Hpost & [E|(e & E & Ee)]); rewrite E in *.
  - destruct (ops_absent a pre post Ha Hpre Hpost Ho) as (-> & _ & Hi & _). cbn [insert_key].
    unfold set_treeval. rewrite Hp, Hv. cbn [mbind result_bind].
    unfold np_tree_insert_element, __np_tree_immutable_check. rewrite Hm, E. cbn [negb c_assert mbind result_bind].
    unfold mk_key. rewrite Hi. fold (mk_key a). eexists. split; [reflexivity|].
    assert (ordered (pre ++ (mk_key a, v') :: post)) as Ho' by by apply ordered_add.
    split; [|split; [done|]].
    + apply wf_set; [done| | | |done].
      * apply Forall_app in Hks as [? ?]. apply Forall_app. split; [done|by constructor].
      * rewrite Hsz, u64_add_l, !length_app. cbn [length]. f_equal. lia.
      * rewrite Hb, u64_add_l, !map_app. cbn [map]. rewrite zsum_middle. f_equal. lia.
    + cbn [set_elems rbh_root fmap option_fmap option_map]. by rewrite to_map_middle.
  - destruct (ops_present a pre post Ha Hpre Hpost e Ee Ho) as (-> & _). cbn [insert_key].
    exists t. rewrite E. by split_and!.
Qed.

Lemma delete_spec : let t' := np_tree_del_element t (RB_FIND (rbh_root t) a) in
  tree_wf t' /\ immutable t' = false /\ to_map (rbh_root t') = delete (rank a) (to_map (rbh_root t)).
Proof using Hwf Ha Hm.
  intros t'. subst t'. pose proof Hwf as [Ho Hks Hsz Hb Hp].
  destruct (place _ a Ho Ha) as (pre & post & Hpre & Hpost & [E|(e & E & Ee)]); rewrite E in *.
  - destruct (ops_absent a pre post Ha Hpre Hpost Ho) as (-> & _). cbn [np_tree_del_element]. split_and!; [done|done|].
    rewrite E. symmetry. apply delete_id. by apply to_map_not.
  - destruct (ops_present a pre post Ha Hpre Hpost e Ee Ho) as (-> & _ & Hr & _). cbn [np_tree_del_element].
    assert (RB_REMOVE (rbh_root t) (value e.1) = pre ++ post) as Hr'.
    { assert (key_of_kind k (value e.1)) as Hke.
      { destruct Ho as [_ Hk]. apply Forall_app in Hk as [_ Hk]. by apply Forall_cons in Hk as [? _]. }
      rewrite E. by destruct (ops_present (value e.1) pre post) with (e := e) as (_ & _ & -> & _); rewrite ?Ee. }
    split_and!; [| done |].
    + rewrite Hr'. apply wf_set; [by eapply ordered_sub| | | |done].
      * apply Forall_app in Hks as [? Hks]. apply Forall_cons in Hks as [_ ?]. by apply Forall_app.
      * rewrite Hsz, u64_sub_l, !length_app. cbn [length]. f_equal. lia.
      * rewrite Hb, u64_sub_l, !map_app. cbn [map]. rewrite zsum_middle. f_equal. lia.
    + rewrite Hr'. cbn [set_elems rbh_root]. rewrite to_map_middle, Ee, delete_insert_id by (done || by apply to_map_not). done.
Qed.
End Op.
End Kind.

(** ** Copies *)

(** A key behind all others is put at the end. *)
Lemma insert_last k copy t (e : elem) v : tree_wf k t -> immutable t = false -> ordered k (rbh_root t ++ [e]) ->
  e.1 = mk_key (value e.1) -> copy v = Ok e.2 ->
  exists t', insert_by_key copy t e.1 v = Ok t' /\ tree_wf k t' /\ immutable t' = false /\ rbh_root t' = rbh_root t ++ [e].
Proof.
  intros Hwf Hm Ho He Hc. pose proof Hwf as [Ho' Hks Hsz Hb Hp].
  assert (key_of_kind k (value e.1)) as Hk.
  { destruct Ho as [_ Hk]. apply Forall_app in Hk as [_ Hk]. by apply Forall_cons in Hk as [? _]. }
  assert (Forall (fun e' => strcmp (rank (value e.1)) (rank (value (@fst np_treeval_t np_treeval_t e'))) = 1) (rbh_root t)) as Hpre.
  { apply Forall_forall. intros e' He'. apply list_elem_of_split in He' as (l1 & l2 & E). rewrite E in Ho.
    destruct Ho as [Ho _]. clear -Ho. induction l1 as [|x l1 IH]; cbn in Ho; apply StronglySorted_inv in Ho as [Ho Hx]; [|by apply IH].
    apply Forall_app in Hx as [_ Hx]. apply Forall_cons in Hx as [Hx _]. unfold before in Hx. rewrite strcmp_anti. lia. }
  pose proof (ops_absent k (value e.1) (rbh_root t) [] Hk Hpre (Forall_nil_2 _)) as Hops. rewrite app_nil_r in Hops.
  destruct (Hops Ho') as (Hf & _ & Hi & _). rewrite He. unfold mk_key. rewrite (insert_by_key_eq k) by done.
  rewrite Hf. cbn [insert_key]. unfold set_treeval. rewrite Hp, Hc. cbn [mbind result_bind].
  unfold np_tree_insert_element, __np_tree_immutable_check. rewrite Hm. cbn [negb c_assert mbind result_bind].
  unfold mk_key. rewrite Hi. fold (mk_key (value e.1)). rewrite <-He. destruct e as [e1 e2]. cbn [fst snd] in *.
  eexists. split; [reflexivity|]. split_and!; [|done|done].
  apply wf_set; [done| | | |done].
  - apply Forall_app. split; [done|]. by constructor.
  - rewrite Hsz, u64_add_l, length_app. cbn [length]. f_equal. lia.
  - rewrite Hb, u64_add_l, map_app. cbn [map]. rewrite zsum_middle, app_nil_r. f_equal. lia.
Qed.

Lemma ordered_app k l1 l2 : ordered k (l1 ++ l2) -> ordered k l1.
Proof.
  intros [Hs Hk]. split; [|by apply Forall_app in Hk as [? _]]. clear Hk.
  induction l1 as [|x l1 IH]; [constructor|]. cbn in Hs. apply StronglySorted_inv in Hs as [Hs Hx].
  constructor; [by apply IH|]. by apply Forall_app in Hx as [? _].
Qed.

Lemma copy_elems k copy els : Forall (fun e => copy e.2 = Ok e.2) els ->
  forall t, tree_wf k t -> immutable t = false -> ordered k (rbh_root t ++ els) ->
  Forall (fun e : elem => e.1 = mk_key (value e.1)) els ->
  exists t', tree_copy copy els t = Ok t' /\ tree_wf k t' /\ immutable t' = false /\ rbh_root t' = rbh_root t ++ els.
Proof.
  unfold tree_copy. induction 1 as [|e els He _ IH]; intros t Hwf Hm Ho Hks.
  - exists t. rewrite app_nil_r. by split_and!.
  - apply Forall_cons in Hks as [Hke Hks]. cbn [foldM].
    destruct (insert_last k copy t e e.2) as (t' & -> & Hwf' & Hm' & Hr); try done.
    { eapply (ordered_app _ _ els). by rewrite <-app_assoc. }
    cbn [mbind result_bind]. destruct (IH t') as (t'' & -> & Hwf'' & Hm'' & Hr''); try done.
    { by rewrite Hr, <-app_assoc. }
    exists t''. rewrite Hr'', Hr, <-app_assoc. by split_and!.
Qed.

Lemma create_wf k i : tree_wf k (set_attr np_tree_create false i).
Proof. by repeat constructor. Qed.

Lemma wf_ext k t1 t2 : tree_wf k t1 -> tree_wf k t2 -> rbh_root t1 = rbh_root t2 -> immutable t1 = immutable t2 -> t1 = t2.
Proof.
  intros [_ _ H1 H2 H3] [_ _ H1' H2' H3'] Hr Hi. destruct t1, t2. cbn in *. subst. f_equal.
Qed.

Lemma wf_set_immutable k t i : tree_wf k t -> tree_wf k (set_attr t false i).
Proof. intros [? ? ? ? ?]. by constructor. Qed.

(** Values as the functions build them. *)
Definition fixed_size (v : val) : option Z :=
  match v with
  | V_sh _ | V_ush _ | V_special _ | V_c _ | V_uc _ => Some 1
  | V_i _ | V_ui _ => Some 2
  | V_l _ | V_ul _ | V_f _ | V_a2_ui _ _ => Some 4
  | V_ll _ | V_ull _ | V_d _ => Some 8
  | V_dhkey _ => Some 32
  | V_uuid _ => Some NP_UUID_BYTES
  | _ => None
  end.

Inductive wf_val : np_treeval_t -> Prop :=
| wf_fixed sz v : fixed_size v = Some sz -> wf_val (Treeval sz v)
| wf_void sz p : wf_val (Treeval sz (V_v p))
| wf_string s : wf_val (Treeval (Z.of_nat (length s)) (V_s s))
| wf_bin b : wf_val (Treeval (Z.of_nat (length b)) (V_bin b))
| wf_hash b : wf_val (Treeval (Z.of_nat (length b)) (V_hash b))
| wf_subtree kind k t : tree_wf k t -> Forall (fun e : elem => wf_val e.2) (rbh_root t) ->
    wf_val (Treeval (u32 (t_size t)) (V_tree kind t)).

(** Induction that also goes into subtrees. *)
Lemma wf_val_nested (P : np_treeval_t -> Prop) :
  (forall sz v, fixed_size v = Some sz -> P (Treeval sz v)) ->
  (forall sz p, P (Treeval sz (V_v p))) ->
  (forall s, P (Treeval (Z.of_nat (length s)) (V_s s))) ->
  (forall b, P (Treeval (Z.of_nat (length b)) (V_bin b))) ->
  (forall b, P (Treeval (Z.of_nat (length b)) (V_hash b))) ->
  (forall kind k t, tree_wf k t -> Forall (fun e : elem => wf_val e.2 /\ P e.2) (rbh_root t) ->
     P (Treeval (u32 (t_size t)) (V_tree kind t))) ->
  forall v, wf_val v -> P v.
Proof.
  intros H1 H2 H3 H4 H5 H6. fix IH 2. intros v Hv. destruct Hv as [sz v E|sz p|s|b|b|kind k t Hwf Hels].
  - by apply H1.
  - apply H2.
  - apply H3.
  - apply H4.
  - apply H5.
  - apply (H6 kind k); [done|]. clear Hwf. induction Hels as [|e els He Hels IHl]; constructor; [|exact IHl].
    split; [exact He|]. apply IH. exact He.
Qed.

(** A copy is the same value again, whatever it contains. *)
Lemma copy_of_wf v : wf_val v -> np_treeval_copy_of_val v = Ok v.
Proof.
  apply (wf_val_nested (fun v => np_treeval_copy_of_val v = Ok v)); clear v.
  - intros sz v E. destruct v; simplify_eq/=; done.
  - done.
  - intros s. cbn [np_treeval_copy_of_val]. unfold strndup. by rewrite Nat2Z.id, take_ge.
  - intros b. cbn [np_treeval_copy_of_val]. rewrite Z.ltb_irrefl. cbn [mbind result_bind]. by rewrite Nat2Z.id, take_ge.
  - intros b. cbn [np_treeval_copy_of_val]. rewrite Z.ltb_irrefl. cbn [mbind result_bind]. by rewrite Nat2Z.id, take_ge.
  - intros kind k t Hwf Hels. destruct t as [els sz bytes p i]. cbn [np_treeval_copy_of_val rbh_root] in *.
    destruct (copy_elems k np_treeval_copy_of_val els) with (t := set_attr np_tree_create false false) as (t' & Ht & Hwf' & Hm' & Hr).
    + eapply Forall_impl; [exact Hels|]. by intros e [_ ?].
    + apply create_wf.
    + done.
    + apply Hwf.
    + apply Hwf.
    + unfold tree_copy in Ht. rewrite Ht. cbn [mbind result_bind]. do 3 f_equal.
      eapply wf_ext; [by apply wf_set_immutable|exact Hwf|exact Hr|done].
Qed.

(** [np_tree_replace_*] *)
Lemma replace_spec k t a sz v v' : tree_wf k t -> key_of_kind k a -> immutable t = false ->
  np_treeval_copy_of_val v = Ok v' ->
  exists t', replace_by_key t (Treeval sz a) v = Ok t' /\ tree_wf k t' /\ immutable t' = false /\
    to_map (rbh_root t') = <[rank a := v']> (to_map (rbh_root t)).
Proof.
  intros Hwf Ha Hm Hv. pose proof (find_spec k t a Hwf Ha) as Hf.
  assert (replace_by_key t (Treeval sz a) v =
          match RB_FIND (rbh_root t) a with
          | None => insert_by_key np_treeval_copy_of_val t (Treeval sz a) v
          | Some found => np_tree_replace_treeval t found v
          end) as -> by by destruct k, a.
  pose proof Hwf as [Ho Hks Hsz Hb Hp].
  destruct (place k _ a Ho Ha) as (pre & post & Hpre & Hpost & [E|(e & E & Ee)]).
  - rewrite E in Ho. destruct (ops_absent k a pre post Ha Hpre Hpost Ho) as (Hn & _). rewrite E, Hn in *.
    destruct (insert_spec k np_treeval_copy_of_val t a Hwf Ha Hm sz v v' Hv) as (t' & -> & Hwf' & Hm' & Hmap).
    exists t'. split_and!; try done. rewrite E in Hmap. by rewrite <-Hf in Hmap.
  - rewrite E in Ho. destruct (ops_present k a pre post Ha Hpre Hpost e Ee Ho) as (Hs & _ & _ & _). rewrite E, Hs.
    unfold np_tree_replace_treeval, __np_tree_immutable_check, np_tree_set_treeval, set_treeval.
    rewrite Hm, Hp, Hv. cbn [negb c_assert mbind result_bind].
    assert (key_of_kind k (value e.1)) as Hke.
    { destruct Ho as [_ Hk]. apply Forall_app in Hk as [_ Hk]. by apply Forall_cons in Hk as [? _]. }
    rewrite E. destruct (ops_present k (value e.1) pre post) with (e := e) as (_ & _ & _ & ->); rewrite ?Ee; try done.
    eexists. split; [reflexivity|]. split_and!; [|done|].
    + rewrite E in Hks, Hsz, Hb. apply wf_set; [by apply ordered_update| | | |done].
      * apply Forall_app in Hks as [? Hks]. apply Forall_cons in Hks as [? ?]. apply Forall_app. split; [done|]. by constructor.
      * rewrite Hsz, !length_app. done.
      * rewrite Hb, u64_sub_l, u64_add_l, !map_app. cbn [map]. rewrite !zsum_middle. f_equal. lia.
    + cbn [set_elems rbh_root]. rewrite !(to_map_middle k) by (done || by apply ordered_update). cbn [fst snd].
      by rewrite <-Ee, insert_insert_eq.
Qed.

(** ** What the tree functions promise *)

Abbreviation tmap t := (to_map (rbh_root t)).

(** C33: A tree is an ordered finite map.  On a well-formed tree that may be changed,
    for any key of its kind: lookup is the lookup of the map; insertion adds the
    value unless the key has one; replacement sets it; deletion removes it.  The
    order of the elements, their number and the serialised size stay exact. *)
Theorem tree_refines_map k t key sz v :
  tree_wf k t -> immutable t = false -> key_of_kind k key -> wf_val v ->
  snd <$> RB_FIND (rbh_root t) key = tmap t !! rank key /\
  (exists t', insert_by_key np_treeval_copy_of_val t (Treeval sz key) v = Ok t' /\ tree_wf k t' /\ immutable t' = false /\
     tmap t' = match tmap t !! rank key with Some _ => tmap t | None => <[rank key := v]> (tmap t) end) /\
  (exists t', replace_by_key t (Treeval sz key) v = Ok t' /\ tree_wf k t' /\ immutable t' = false /\
     tmap t' = <[rank key := v]> (tmap t)) /\
  (let t' := np_tree_del_element t (RB_FIND (rbh_root t) key) in
   tree_wf k t' /\ immutable t' = false /\ tmap t' = delete (rank key) (tmap t)).
Proof.
  intros Hwf Hm Hk Hv. apply copy_of_wf in Hv. split_and!.
  - by apply (find_spec k).
  - by apply insert_spec.
  - by apply replace_spec.
  - by apply delete_spec.
Qed.

(** ** Whole trees *)

Lemma union_insert_l (m1 m2 : gmap (list Z) np_treeval_t) r v :
  m1 !! r = None -> <[r := v]> m1 ∪ m2 = m1 ∪ <[r := v]> m2.
Proof. intros H. by rewrite <-insert_union_l, <-insert_union_r. Qed.

Lemma copy_union k els : Forall (fun e : elem => wf_val e.2) els -> ordered k els -> forall t, tree_wf k t -> immutable t = false ->
  exists t', tree_copy np_treeval_copy_of_val els t = Ok t' /\ tree_wf k t' /\ immutable t' = false /\
    tmap t' = tmap t ∪ to_map els.
Proof.
  unfold tree_copy. induction 1 as [|[[sz key] v] els Hv _ IH]; intros Ho t Hwf Hm.
  - exists t. split_and!; try done. symmetry. apply (right_id_L ∅ (∪)).
  - cbn [foldM fst snd]. pose proof Ho as [Hs Hks]. apply Forall_cons in Hks as [Hk Hks]. cbn in Hk.
    destruct (insert_spec k np_treeval_copy_of_val t key Hwf Hk Hm sz v v (copy_of_wf _ Hv)) as (t1 & -> & Hwf1 & Hm1 & Hmap1).
    cbn [mbind result_bind]. destruct (IH (ordered_sub k [] _ _ Ho) t1 Hwf1 Hm1) as (t' & -> & Hwf' & Hm' & Hmap').
    exists t'. split_and!; try done. rewrite Hmap', Hmap1. change (to_map ((Treeval sz key, v) :: els)) with (<[rank key := v]> (to_map els)).
    destruct (tmap t !! rank key) as [w|] eqn:E; [|by apply union_insert_l].
    apply map_eq. intros r. rewrite !lookup_union. destruct (decide (r = rank key)) as [->|Hr].
    + rewrite lookup_insert_eq, E. by destruct (to_map els !! rank key).
    + by rewrite lookup_insert_ne.
Qed.

Lemma copy_inplace_union k els : Forall (fun e : elem => wf_val e.2) els -> ordered k els -> forall t, tree_wf k t -> immutable t = false ->
  exists t', foldM (fun tmp target => replace_by_key target tmp.1 tmp.2) els t = Ok t' /\ tree_wf k t' /\ immutable t' = false /\
    tmap t' = to_map els ∪ tmap t.
Proof.
  induction 1 as [|[[sz key] v] els Hv _ IH]; intros Ho t Hwf Hm.
  - exists t. split_and!; try done. symmetry. apply (left_id_L ∅ (∪)).
  - cbn [foldM fst snd]. pose proof Ho as [Hs Hks]. apply Forall_cons in Hks as [Hk Hks]. cbn in Hk.
    destruct (replace_spec k t key sz v v Hwf Hk Hm (copy_of_wf _ Hv)) as (t1 & -> & Hwf1 & Hm1 & Hmap1).
    cbn [mbind result_bind]. destruct (IH (ordered_sub k [] _ _ Ho) t1 Hwf1 Hm1) as (t' & -> & Hwf' & Hm' & Hmap').
    exists t'. split_and!; try done. rewrite Hmap', Hmap1. change (to_map ((Treeval sz key, v) :: els)) with (<[rank key := v]> (to_map els)).
    symmetry. apply union_insert_l.
    pose proof (ordered_nodup k _ Ho) as Hn. cbn in Hn. apply NoDup_cons in Hn as [Hn _].
    by apply not_elem_of_list_to_map_1.
Qed.

Lemma clear_loop_empties k fuel : forall t, (length (rbh_root t) < fuel)%nat -> tree_wf k t ->
  clear_loop fuel t = Ok (set_elems t [] 0 0).
Proof.
  induction fuel as [|fuel IH]; intros t Hf Hwf; [lia|]. cbn [clear_loop]. pose proof Hwf as [Ho Hks Hsz Hb Hp].
  destruct (rbh_root t) as [|e els] eqn:E.
  - cbn [head]. f_equal. apply (wf_ext k); [done| |by rewrite E|done].
    apply wf_set; [by repeat constructor|constructor|done|done|done].
  - cbn [head]. assert (key_of_kind k (value e.1)) as Hke by (destruct Ho as [_ Hk]; by apply Forall_cons in Hk as [? _]).
    pose proof (cmp_key k (value e.1) e Hke Hke) as (_ & E2 & _). rewrite strcmp_refl in E2.
    assert (RB_REMOVE (rbh_root t) (value e.1) = els) as Hr by (rewrite E; cbn [RB_REMOVE]; by rewrite E2).
    rewrite IH; cbn [np_tree_del_element set_elems rbh_root]; rewrite ?Hr; [done|cbn in Hf; lia|].
    apply wf_set; [by apply (ordered_sub k [] e)|by apply Forall_cons in Hks as [_ ?]| | |done].
    + rewrite Hsz, u64_sub_l. cbn [length]. f_equal. lia.
    + rewrite Hb, u64_sub_l. cbn [map zsum foldr]. f_equal. unfold zsum. lia.
Qed.

(** Whole trees: a clone is the same tree, values and subtrees included, and may be
    changed exactly when the original may; copying one tree into another adds the
    elements whose keys are missing, copying in place also overwrites the others;
    clearing always ends, with the empty tree and books at zero. *)
Theorem tree_copies k src t :
  tree_wf k src -> Forall (fun e : elem => wf_val e.2) (rbh_root src) -> tree_wf k t -> immutable t = false ->
  np_tree_clone src = Ok src /\
  (exists t', np_tree_copy src t = Ok t' /\ tree_wf k t' /\ tmap t' = tmap t ∪ tmap src) /\
  (exists t', np_tree_copy_inplace src t = Ok t' /\ tree_wf k t' /\ tmap t' = tmap src ∪ tmap t) /\
  np_tree_clear t = Ok (set_elems t [] 0 0).
Proof.
  intros Hsrc Hvs Hwf Hm. split_and!.
  - unfold np_tree_clone, tree_clone.
    destruct (copy_elems k np_treeval_copy_of_val (rbh_root src)) with (t := set_attr np_tree_create false false) as (t' & Ht & Hwf' & Hm' & Hr).
    + eapply Forall_impl; [exact Hvs|]. intros e. apply copy_of_wf.
    + apply create_wf.
    + done.
    + apply Hsrc.
    + apply Hsrc.
    + rewrite Ht. cbn [mbind result_bind]. f_equal.
      eapply wf_ext; [by apply wf_set_immutable|exact Hsrc|exact Hr|done].
  - destruct (copy_union k _ Hvs (wf_ordered _ _ Hsrc) t Hwf Hm) as (t' & ? & ? & _ & ?). by exists t'.
  - destruct (copy_inplace_union k _ Hvs (wf_ordered _ _ Hsrc) t Hwf Hm) as (t' & ? & ? & _ & ?). by exists t'.
  - unfold np_tree_clear. apply (clear_loop_empties k); [lia|done].
Qed.

(** [np_tree_find_gte_*]: the smallest element whose key is not smaller. *)
Lemma nfind_spec k t key : tree_wf k t -> key_of_kind k key ->
  match RB_NFIND (rbh_root t) key with
  | Some e => e ∈ rbh_root t /\ strcmp (rank key) (rank (value e.1)) <= 0 /\
      forall e', e' ∈ rbh_root t -> strcmp (rank key) (rank (value e'.1)) <= 0 -> strcmp (rank (value e.1)) (rank (value e'.1)) <= 0
  | None => forall e', e' ∈ rbh_root t -> strcmp (rank key) (rank (value e'.1)) = 1
  end.
Proof.
  intros [Ho _ _ _ _] Hk. destruct (place k _ key Ho Hk) as (pre & post & Hpre & Hpost & [E|(e & E & Ee)]); rewrite E in *.
  - destruct (ops_absent k key pre post Hk Hpre Hpost Ho) as (_ & -> & _). destruct post as [|e post]; cbn [head].
    + intros e' He'. rewrite app_nil_r in He'. rewrite Forall_forall in Hpre. by apply Hpre.
    + apply Forall_cons in Hpost as [He Hpost]. split_and!; [set_solver|lia|]. intros e' He' Hle.
      apply elem_of_app in He' as [He'|He']; [rewrite Forall_forall in Hpre; specialize (Hpre _ He'); cbn in Hpre; lia|].
      apply elem_of_cons in He' as [->|He']; [by rewrite strcmp_refl|].
      destruct Ho as [Hs _]. clear -Hs He'. induction pre as [|x pre IH]; cbn in Hs; apply StronglySorted_inv in Hs as [Hs Hx]; [|by apply IH].
      rewrite Forall_forall in Hx. specialize (Hx _ He'). unfold before in Hx. lia.
  - destruct (ops_present k key pre post Hk Hpre Hpost e Ee Ho) as (_ & -> & _). rewrite <-Ee.
    split_and!; [set_solver|by rewrite strcmp_refl|done].
Qed.

(** ** Keys and values outside the domain *)

(** Two numbers that differ by a multiple of [2 ^ 16] are one key. *)
Lemma ulong_keys_collide u v : in_u 32 u -> in_u 32 v -> (u - v) mod 2 ^ 16 = 0 -> _np_tree_elem_cmp (V_ul u) (V_ul v) = 0.
Proof.
  intros _ _ H. cbn [_np_tree_elem_cmp]. rewrite s16_u32. unfold s16.
  rewrite Z.add_mod, H by lia. cbn. reflexivity.
Qed.

Example ulong_65536_is_found_under_0 :
  (t ← np_tree_insert_ulong np_tree_create 65536 (np_treeval_new_s [120]); Ok (np_tree_find_ulong t 0))
  = Ok (Some (Treeval 4 (V_ul 65536), Treeval 1 (V_s [120]))).
Proof. reflexivity. Qed.

(** A key of more than 255 bytes is cut; inserted again it is not found, counted a
    second time and dropped. *)
Example long_key_counted_twice :
  (t ← np_tree_insert_str np_tree_create (replicate 256 97) (np_treeval_new_ul 1);
   t ← np_tree_insert_str t (replicate 256 97) (np_treeval_new_ul 2);
   Ok (length (rbh_root t), t_size t)) = Ok (1%nat, 2).
Proof. reflexivity. Qed.

(** The size of an unsigned int above the signed range leaves its bytes out. *)
Example uint_size_too_small : np_treeval_get_byte_size (np_treeval_new_ui 40000) = 4.
Proof. reflexivity. Qed.

(** ** Witnesses *)

Definition example_subtree : np_tree_t :=
  Tree [(Treeval 2 (V_i (-3)), Treeval 4 (V_ul 70000)); (Treeval 2 (V_i 5), Treeval 2 (V_bin [1; 2]))] 2 19 false true.
Definition example_tree : np_tree_t :=
  Tree [(Treeval 1 (V_s [97]), Treeval 2 (V_tree cwt example_subtree)); (Treeval 3 (V_s [98; 98; 98]), Treeval 8 (V_ll (-1)))] 2 36 false false.

Lemma example_subtree_wf : tree_wf (K_int (-100)) example_subtree.
Proof. repeat constructor; cbn; lia. Qed.
Lemma example_subtree_values : Forall (fun e : elem => wf_val e.2) (rbh_root example_subtree).
Proof. constructor; [by constructor|]. constructor; [exact (wf_bin [1; 2])|constructor]. Qed.
Lemma example_tree_wf : tree_wf K_str example_tree.
Proof. repeat constructor; cbn; lia. Qed.
Lemma example_tree_values : Forall (fun e : elem => wf_val e.2) (rbh_root example_tree).
Proof.
  constructor; [exact (wf_subtree cwt _ _ example_subtree_wf example_subtree_values)|].
  constructor; [by constructor|constructor].
Qed.

Lemma tree_refines_map_witness :
  exists t', insert_by_key np_treeval_copy_of_val example_tree (Treeval 0 (V_s [97; 98])) (Treeval 1 (V_c 7)) = Ok t' /\
    tree_wf K_str t' /\ tmap t' !! [97; 98] = Some (Treeval 1 (V_c 7)).
Proof.
  destruct (tree_refines_map K_str example_tree (V_s [97; 98]) 0 (Treeval 1 (V_c 7))) as (_ & (t' & H1 & H2 & _ & H3) & _).
  - apply example_tree_wf.
  - reflexivity.
  - cbn. lia.
  - by constructor.
  - exists t'. split; [exact H1|]. split; [exact H2|]. rewrite H3. vm_compute. reflexivity.
Defined.

Lemma tree_copies_witness : np_tree_clone example_tree = Ok example_tree.
Proof.
  refine (proj1 (tree_copies K_str example_tree np_tree_create _ _ _ _)).
  - apply example_tree_wf.
  - apply example_tree_values.
  - apply create_wf.
  - reflexivity.
Defined.
