(* ===== verification/Serial.v ===== *)
(** * Serialised trees: [src/util/s11n_impl/np_serialize_qcbor.c]

    Writing a tree gives one CBOR map, a tag per neuropil type; reading it goes
    through the items in order and builds the tree again, value by value.  The
    reader treats whatever comes over the network, so it is modelled on every
    sequence of items, not only on those the writer makes. *)
From Stdlib Require Import ZArith Lia.
From stdpp Require Import prelude.
From S2P Require Import Prelude Dhkey Treeval Tree Qcbor.

Local Open Scope Z_scope.

Definition NP_CBOR_REGISTRY_ENTRIES : Z := 31415.
Definition CBOR_TAG_CWT : Z := 61.
Definition CBOR_TAG_COSE_ENCRYPT : Z := 96.
Definition CBOR_TAG_COSE_SIGN : Z := 98.
(** [uTags[n]] when there are not that many tags. *)
Definition CBOR_TAG_INVALID16 : Z := 65535.

Definition np_tag (type : Z) : Z := NP_CBOR_REGISTRY_ENTRIES + type.

(** ** Writing *)

Definition tagged (type : Z) (h : cbor_value) : result (list cbor) := Ok [C_item (Item [np_tag type] h)].
Definition untagged (h : cbor_value) : result (list cbor) := Ok [C_item (Item [] h)].

(** [size] bytes from where the bytes start; a string has its terminator behind them. *)
Definition read_bytes (s : list Z) (size : Z) : result (list Z) :=
  if Z.of_nat (length s) <? size then Err Bad_access else Ok (take (Z.to_nat size) s).

Definition __np_tree_serialize_write_type_dhkey (source : np_dhkey_t) : cbor :=
  C_array [np_tag np_treeval_type_dhkey] (map (fun t => C_item (Item [] (H_u32 t))) (dh_t source)).

(** The key types that are written. *)
Definition key_written (key : val) : bool :=
  match key with V_i _ | V_dhkey _ | V_ul _ | V_d _ | V_s _ => true | _ => false end.

Definition kind_tags (k : tree_kind) : list Z :=
  np_tag np_treeval_type_jrb_tree ::
    match k with
    | jrb_tree => []
    | cwt => [CBOR_TAG_CWT]
    | cose_signed => [CBOR_TAG_COSE_SIGN]
    | cose_encrypted => [CBOR_TAG_COSE_ENCRYPT]
    end.

(** The body of the loop over the elements. *)
Definition write_pair (write : np_treeval_t -> result (list cbor)) (tmp : elem) (acc : list cbor) : result (list cbor) :=
  if key_written (value tmp.1) then k ← write tmp.1; x ← write tmp.2; Ok (acc ++ k ++ x) else Ok acc.

(** What is appended for a value; nothing for the types that are not implemented. *)
Fixpoint __np_tree_serialize_write_type (v : np_treeval_t) : result (list cbor) :=
  match v with
  | Treeval size v =>
      match v with
      | V_sh x => tagged np_treeval_type_short (H_int x)
      | V_i x => tagged np_treeval_type_int (H_int x)
      | V_l x => tagged np_treeval_type_long (H_int x)
      | V_ll x => tagged np_treeval_type_long_long (H_int x)
      | V_s s => b ← read_bytes s size; untagged (H_text b)
      | V_c c => untagged (H_text [c])
      | V_f x => untagged (H_float x)
      | V_d x => untagged (H_double x)
      | V_ush x => tagged np_treeval_type_unsigned_short (H_int x)
      | V_ui x => tagged np_treeval_type_unsigned_int (H_int x)
      | V_ul x => tagged np_treeval_type_unsigned_long (H_int x)
      | V_ull x => tagged np_treeval_type_unsigned_long_long (H_int x)
      | V_a2_ui a b =>
          Ok [C_array [np_tag np_treeval_type_uint_array_2] [C_item (Item [] (H_int a)); C_item (Item [] (H_int b))]]
      | V_bin b => b ← read_bytes b size; untagged (H_bytes b)
      | V_dhkey k => Ok [__np_tree_serialize_write_type_dhkey k]
      | V_hash b => b ← read_bytes b size; tagged np_treeval_type_hash (H_bytes b)
      | V_tree kind (Tree els _ _ _ _) =>
          l ← foldM (write_pair __np_tree_serialize_write_type) els [];
          Ok [C_map (kind_tags kind) l]
      | V_undefined | V_special _ | V_uc _ | V_farray _ _ | V_carray _ | V_ucarray _ | V_v _ | V_uuid _ => Ok []
      end
  end.

(** ** Reading *)

(** [QCBORDecodeContext]: the items to come, the cursor, [uLastError], and how many
    items were taken. *)
Record decoder := Decoder { its : list (item * Z); cursor : Z; uLastError : bool; taken : nat }.

(** [QCBORDecode_VGetNext]: once there was an error there are no more items. *)
Definition VGetNext (d : decoder) : option item * decoder :=
  if uLastError d then (None, d)
  else match its d with
       | [] => (None, Decoder [] (cursor d) true (taken d))
       | (i, p) :: r => (Some i, Decoder r p false (S (taken d)))
       end.

Definition set_error (d : decoder) : decoder := Decoder (its d) (cursor d) true (taken d).

Definition tag_at (n : nat) (i : item) : Z := nth n (uTags i) CBOR_TAG_INVALID16.

(** An integer item, as its two members of [val] read it. *)
Definition as_int64 (z : Z) : Z := if z <? 2 ^ 63 then z else z - 2 ^ 64.
(** [QCBOR_Int64ToUInt8] and its like: what is left in a field that was 0. *)
Definition fits (lo hi z : Z) : Z := if (lo <=? z) && (z <=? hi) then z else 0.

(** The integer of the next item; [val] of an item of another type is not an
    integer, and 0 when there is none. *)
Definition next_int (d : decoder) : Z * decoder :=
  let '(i, d) := VGetNext d in
  (match i with Some (Item _ (H_int z)) => as_int64 z | _ => 0 end, d).

Fixpoint read_words (n : nat) (d : decoder) (acc : list Z) : list Z * decoder :=
  match n with
  | O => (rev acc, d)
  | S n => let '(z, d) := next_int d in read_words n d (fits 0 (2 ^ 32 - 1) z :: acc)
  end.

Definition __np_tree_serialize_read_type_dhkey (d : decoder) : np_treeval_t * decoder :=
  let '(t, d) := read_words 8 d [] in (Treeval 32 (V_dhkey (Dhkey t)), d).

(** An integer item with its tag. *)
Definition read_int (i : item) (z : Z) : np_treeval_t :=
  let t := tag_at 0 i in
  let x := as_int64 z in
  if t =? np_tag np_treeval_type_unsigned_short then Treeval 0 (V_ush (fits 0 255 x))
  else if t =? np_tag np_treeval_type_unsigned_int then Treeval 0 (V_ui (fits 0 65535 x))
  else if t =? np_tag np_treeval_type_unsigned_long then Treeval 0 (V_ul (fits 0 (2 ^ 32 - 1) x))
  else if t =? np_tag np_treeval_type_unsigned_long_long then Treeval 0 (V_ull (fits 0 (2 ^ 63 - 1) x))
  else if t =? np_tag np_treeval_type_short then Treeval 0 (V_sh (fits (-128) 127 x))
  else if t =? np_tag np_treeval_type_int then Treeval 0 (V_i (fits (-2 ^ 15) (2 ^ 15 - 1) x))
  else if t =? np_tag np_treeval_type_long then Treeval 0 (V_l (fits (-2 ^ 31) (2 ^ 31 - 1) x))
  else if t =? np_tag np_treeval_type_long_long then Treeval 0 (V_ll x)
  else Treeval 0 V_undefined.

Definition kind_of_tag (i : item) : tree_kind :=
  if tag_at 1 i =? CBOR_TAG_CWT then cwt
  else if tag_at 1 i =? CBOR_TAG_COSE_ENCRYPT then cose_encrypted
  else if tag_at 1 i =? CBOR_TAG_COSE_SIGN then cose_signed
  else jrb_tree.

(** The bytes of a string before the first NUL, as [strndup] copies them. *)
Fixpoint until_nul (s : list Z) : list Z :=
  match s with [] => [] | c :: s => if c =? 0 then [] else c :: until_nul s end.

(** Which of the trees' functions adds a pair that was read. *)
Definition add_pair (tree : np_tree_t) (tmp_key tmp_val : np_treeval_t) : result np_tree_t :=
  match value tmp_key with
  | V_i i => np_tree_insert_int tree i tmp_val
  | V_dhkey k => np_tree_insert_dhkey tree k tmp_val
  | V_ul u => np_tree_insert_ulong tree u tmp_val
  | V_d d => np_tree_insert_dbl tree d tmp_val
  | V_s s => np_tree_insert_str tree s tmp_val
  | V_uuid u => np_tree_insert_uuid tree u tmp_val
  | _ => Ok tree
  end.

(** One round of the loop over the pairs: key and value are read into a tree of
    their own. *)
Definition read_pair (read : np_tree_t -> decoder -> result (np_treeval_t * np_tree_t * decoder)) (s : np_tree_t * decoder)
    : result (np_tree_t * decoder) :=
  let '(tree, d) := s in
  '(tmp_key, subtree, d) ← read np_tree_create d;
  subtree ← np_tree_clear subtree;
  '(tmp_val, subtree, d) ← read subtree d;
  tree ← add_pair tree tmp_key tmp_val;
  Ok (tree, d).

(** The value read, the tree it was read into, the rest.  [fuel] bounds the depth of
    the recursion.  Texts and bytes are copies, as for every tree that is not in place
    (no tree of the library is); the texts freed after a pair was added are then copies of
    what the tree has. *)
Fixpoint __np_tree_deserialize_read_type (fuel : nat) (tree : np_tree_t) (d : decoder)
    : result (np_treeval_t * np_tree_t * decoder) :=
  match fuel with
  | O => Err Diverges
  | S fuel' =>
      let '(_item, d) := VGetNext d in
      match _item with
      | None => Ok (Treeval 0 V_undefined, tree, d)
      | Some i =>
          match uVal i with
          | H_map n =>
              if tag_at 0 i =? np_tag np_treeval_type_jrb_tree then
                '(tree, d) ← for_range 0 (Z.to_nat n) (fun _ => read_pair (__np_tree_deserialize_read_type fuel')) (tree, d);
                Ok (Treeval (u32 (t_size tree)) (V_tree (kind_of_tag i) tree), tree, d)
              else Ok (Treeval 0 V_undefined, tree, d)
          | H_array _ =>
              if tag_at 0 i =? np_tag np_treeval_type_uint_array_2 then
                let '(a, d) := next_int d in
                let '(b, d) := next_int d in
                Ok (Treeval 0 (V_a2_ui (fits 0 65535 a) (fits 0 65535 b)), tree, d)
              else if tag_at 0 i =? np_tag np_treeval_type_dhkey then
                let '(v, d) := __np_tree_serialize_read_type_dhkey d in Ok (v, tree, d)
              else Ok (Treeval 0 V_undefined, tree, set_error d)
          | H_text s =>
              match s with
              | [c] => Ok (Treeval 1 (V_c c), tree, d)
              | _ => Ok (Treeval (Z.of_nat (length s)) (V_s (until_nul s)), tree, d)
              end
          | H_bytes s =>
              if tag_at 0 i =? np_tag np_treeval_type_hash then Ok (Treeval (Z.of_nat (length s)) (V_hash s), tree, d)
              else Ok (Treeval (Z.of_nat (length s)) (V_bin s), tree, d)
          | H_float b => Ok (Treeval 0 (V_f b), tree, d)
          | H_double b => Ok (Treeval 0 (V_d b), tree, d)
          | H_int z | H_u32 z => Ok (read_int i z, tree, d)
          | H_null | H_bool _ => Ok (Treeval 0 V_undefined, tree, set_error d)
          | H_other => Ok (Treeval 0 V_undefined, tree, d)
          end
      end
  end.

(** ** Buffers *)

Section Buffers.
Context `{Qcbor}.

(** [_bytes_written] and the bytes, or [_error]: the encoder found the buffer too
    small, or an array too deep or too long. *)
Definition np_serializer_write_map (_buffer_size : Z) (tree : np_tree_t) : result (option (list Z)) :=
  l ← __np_tree_serialize_write_type (Treeval (u32 (t_size tree)) (V_tree jrb_tree tree));
  let bytes := flat_map qcbor_put (flat_map items l) in
  let ok := forallb (fun c => (nesting c <=? QCBOR_MAX_ARRAY_NESTING)%nat && (widest c <=? QCBOR_MAX_ITEMS_IN_ARRAY)%nat) l in
  Ok (if ok && (Z.of_nat (length bytes) <=? _buffer_size) then Some bytes else None).

(** The target tree and [_bytes_read], or [_error] (the tree may then be incomplete). *)
Definition np_serializer_read_map (_buffer : list Z) (tree : np_tree_t) : result (np_tree_t * option Z) :=
  let l := qcbor_decode _buffer in
  '(_, tree, d) ← __np_tree_deserialize_read_type (S (length l)) tree (Decoder l 0 false 0);
  if negb (uLastError d) && qcbor_finish _buffer (taken d) then
    Ok (if in_place tree then set_attr tree (in_place tree) true else tree, Some (cursor d))
  else Ok (tree, None).

End Buffers.

Definition np_serializer_add_map_bytesize (tree : np_tree_t) (byte_size : Z) : Z :=
  byte_size + 1 + (if UINT8_MAX <? t_byte_size tree then 2 else if 24 <=? t_byte_size tree then 1 else 0).

(** ** Reading a serialised tree never fails

    Whatever bytes arrive, the reader of [Serial] ends, and no assertion or
    access of it fails: the tree it fills stays open for changes, and every value
    in it is long enough for its size. *)

(** Binary data and hashes are as long as they claim, in subtrees too; a text ends at its
    first NUL, which can come before its size. *)
Inductive sound : np_treeval_t -> Prop :=
| sound_leaf sz v : match v with
                    | V_bin b | V_hash b => sz = Z.of_nat (length b)
                    | V_s s => Z.of_nat (length s) <= sz
                    | V_tree _ _ => False
                    | _ => True
                    end -> sound (Treeval sz v)
| sound_subtree sz kind t : Forall (fun e : elem => sound e.2) (rbh_root t) -> sound (Treeval sz (V_tree kind t)).

Lemma sound_nested (P : np_treeval_t -> Prop) :
  (forall sz v, match v with V_bin b | V_hash b => sz = Z.of_nat (length b) | V_s s => Z.of_nat (length s) <= sz | V_tree _ _ => False | _ => True end ->
     P (Treeval sz v)) ->
  (forall sz kind t, Forall (fun e : elem => sound e.2 /\ P e.2) (rbh_root t) -> P (Treeval sz (V_tree kind t))) ->
  forall v, sound v -> P v.
Proof.
  intros H1 H2. fix IH 2. intros v Hv. destruct Hv as [sz v Hv|sz kind t Hels]; [by apply H1|].
  apply H2. induction Hels as [|e els He Hels IHl]; constructor; [|exact IHl]. split; [exact He|]. apply IH. exact He.
Qed.

(** A tree that may be changed, copies what it is given, and holds sound values. *)
Definition open (t : np_tree_t) : Prop := immutable t = false /\ in_place t = false /\ Forall (fun e : elem => sound e.2) (rbh_root t).

Lemma open_create : open np_tree_create.
Proof. by split; [|split; [|constructor]]. Qed.

Lemma insert_sound l (e : elem) : sound e.2 -> Forall (fun e : elem => sound e.2) l ->
  Forall (fun e : elem => sound e.2) (RB_INSERT l e).
Proof.
  intros He H. induction H as [|x l Hx Hl IH]; cbn [RB_INSERT]; [by repeat constructor|].
  destruct (_ <? 0); [by repeat constructor|]. destruct (_ =? 0); by constructor.
Qed.

Section Insert.
Context (copy : np_treeval_t -> result np_treeval_t).
Definition copies (v : np_treeval_t) : Prop := exists v', copy v = Ok v' /\ sound v'.

Lemma insert_key_open t found key v : open t -> sound v -> copies v ->
  exists t', insert_key copy t found key v = Ok t' /\ open t'.
Proof.
  intros (Hm & Hi & Hs) Hv (v' & Hc & Hv'). unfold insert_key. destruct found; [by exists t|].
  unfold set_treeval. assert (exists w, (if in_place t then Ok v else copy v) = Ok w /\ sound w) as (w & -> & Hw)
    by (destruct (in_place t); eauto).
  cbn [mbind result_bind]. unfold np_tree_insert_element, __np_tree_immutable_check. rewrite Hm.
  cbn [negb c_assert mbind result_bind]. eexists. split; [reflexivity|]. split; [done|]. split; [done|]. cbn [set_elems rbh_root]. by apply insert_sound.
Qed.

Lemma insert_by_key_open t key v : open t -> sound v -> copies v ->
  exists t', insert_by_key copy t key v = Ok t' /\ open t'.
Proof.
  intros Ht Hv Hc. unfold insert_by_key. destruct (value key); try (by exists t); by apply insert_key_open.
Qed.

Lemma tree_copy_open els : Forall (fun e : elem => sound e.2 /\ copies e.2) els -> forall t, open t ->
  exists t', tree_copy copy els t = Ok t' /\ open t'.
Proof.
  unfold tree_copy. induction 1 as [|e els [He Hc] _ IH]; intros t Ht; [by exists t|]. cbn [foldM].
  destruct (insert_by_key_open t e.1 e.2 Ht He Hc) as (t' & -> & Ht'). by apply IH.
Qed.
End Insert.

Lemma copy_sound v : sound v -> copies np_treeval_copy_of_val v.
Proof.
  apply (sound_nested (copies np_treeval_copy_of_val)); clear v.
  - intros sz v Hv. unfold copies. destruct v; cbn [np_treeval_copy_of_val]; try done;
      try (eexists; split; [reflexivity|by constructor]);
      try (destruct (Z.ltb_spec (Z.of_nat (length bin)) sz); [lia|]; cbn [mbind result_bind]; eexists; split; [reflexivity|];
       constructor; rewrite length_take; lia).
    eexists. split; [reflexivity|]. constructor. unfold strndup. rewrite length_take. lia.
  - intros sz kind [els s b p i] Hels. cbn [rbh_root] in Hels. unfold copies. cbn [np_treeval_copy_of_val].
    destruct (tree_copy_open np_treeval_copy_of_val els Hels (set_attr np_tree_create false false)) as (t' & Ht & Hm & _ & Hs).
    { by split; [|split; [|constructor]]. }
    unfold tree_copy in Ht. rewrite Ht. cbn [mbind result_bind]. eexists. split; [reflexivity|]. by constructor.
Qed.

(** ** Clearing *)

Lemma cmp_self v : _np_tree_elem_cmp v v = 0.
Proof.
  destruct v; cbn [_np_tree_elem_cmp]; rewrite ?Z.sub_diag; try done.
  - unfold dbl_cmp. destruct (dbl_order bits); [by rewrite Z.ltb_irrefl|done].
  - induction s as [|x s IH]; [done|]. cbn. by rewrite Z.ltb_irrefl.
  - unfold _np_dhkey_cmp. induction (dh_t dhkey) as [|x l IH]; [done|]. cbn. by rewrite Z.ltb_irrefl.
  - induction uuid as [|x s IH]; [done|]. cbn. by rewrite Z.ltb_irrefl.
Qed.

Lemma clear_loop_total fuel : forall t, (length (rbh_root t) < fuel)%nat ->
  exists sz b, clear_loop fuel t = Ok (set_elems t [] sz b).
Proof.
  induction fuel as [|fuel IH]; intros t Hf; [lia|]. cbn [clear_loop].
  destruct (rbh_root t) as [|e els] eqn:E; cbn [head].
  - exists (t_size t), (t_byte_size t). destruct t. cbn in *. by subst.
  - destruct (IH (np_tree_del_element t (Some e))) as (sz & b & ->).
    + cbn [np_tree_del_element set_elems rbh_root]. rewrite E. cbn [RB_REMOVE]. rewrite cmp_self. cbn in *. lia.
    + by exists sz, b.
Qed.

Lemma clear_open t : open t -> exists t', np_tree_clear t = Ok t' /\ open t' /\ rbh_root t' = [] /\ in_place t' = in_place t.
Proof.
  intros (Hm & Hi & _). unfold np_tree_clear. destruct (clear_loop_total (S (length (rbh_root t))) t) as (sz & b & ->); [lia|].
  eexists. split; [reflexivity|]. by repeat split.
Qed.

(** ** Reading *)

Definition remaining (d : decoder) : nat := length (its d).

Lemma next_remaining d : let '(i, d') := VGetNext d in
  (remaining d' <= remaining d)%nat /\ match i with Some _ => (remaining d' < remaining d)%nat | None => True end.
Proof.
  unfold VGetNext, remaining. destruct (uLastError d); [done|]. destruct (its d) as [|[i p] r]; cbn; lia.
Qed.

Lemma next_int_remaining d : (remaining (snd (next_int d)) <= remaining d)%nat.
Proof. unfold next_int. pose proof (next_remaining d). destruct (VGetNext d) as [i d']. cbn. lia. Qed.

Lemma read_words_remaining n : forall d acc, (remaining (snd (read_words n d acc)) <= remaining d)%nat.
Proof.
  induction n as [|n IH]; intros d acc; cbn [read_words]; [done|]. pose proof (next_int_remaining d).
  destruct (next_int d) as [z d']. cbn in H. etrans; [apply IH|done].
Qed.

Lemma add_pair_open t key v : open t -> sound v -> exists t', add_pair t key v = Ok t' /\ open t'.
Proof.
  intros Ht Hv. unfold add_pair. pose proof (copy_sound v Hv) as Hc.
  destruct (value key); try (by exists t); by apply (insert_key_open np_treeval_copy_of_val).
Qed.

Lemma read_int_sound i z : sound (read_int i z).
Proof. unfold read_int. repeat (destruct (_ =? _)); by constructor. Qed.

Definition reads (t : np_tree_t) (d : decoder) (r : result (np_treeval_t * np_tree_t * decoder)) : Prop :=
  exists v t' d', r = Ok (v, t', d') /\ sound v /\ open t' /\ (remaining d' <= remaining d)%nat.

Lemma reads_leaf t d v d' : open t -> sound v -> (remaining d' <= remaining d)%nat -> reads t d (Ok (v, t, d')).
Proof. intros. by exists v, t, d'. Qed.

Lemma until_nul_length s : (length (until_nul s) <= length s)%nat.
Proof. induction s as [|c s IH]; cbn; [lia|]. destruct (c =? 0); cbn; lia. Qed.

(** Enough fuel for as many levels as there are items left. *)
Lemma read_total fuel : forall t d, open t -> (remaining d < fuel)%nat -> reads t d (__np_tree_deserialize_read_type fuel t d).
Proof.
  induction fuel as [|fuel IH]; intros t d Ht Hf; [lia|]. cbn [__np_tree_deserialize_read_type].
  pose proof (next_remaining d) as Hn. destruct (VGetNext d) as [[i|] d1]; [|by apply reads_leaf; [|constructor|lia]].
  destruct Hn as [_ Hn]. destruct (uVal i) as [z|z|s|s|b|b|n|n| |b|].
  - apply reads_leaf; [done|apply read_int_sound|lia].
  - apply reads_leaf; [done|apply read_int_sound|lia].
  - pose proof (until_nul_length s) as Hu. destruct s as [|c [|c' s]]; (apply reads_leaf; [done|constructor; (done || lia)|lia]).
  - destruct (_ =? _); (apply reads_leaf; [done|by constructor|lia]).
  - apply reads_leaf; [done|by constructor|lia].
  - apply reads_leaf; [done|by constructor|lia].
  - destruct (_ =? _).
    { pose proof (next_int_remaining d1) as H1. destruct (next_int d1) as [x d2]. cbn in H1.
      pose proof (next_int_remaining d2) as H2. destruct (next_int d2) as [y d3]. cbn in H2.
      apply reads_leaf; [done|by constructor|lia]. }
    destruct (_ =? _); [|apply reads_leaf; [done|by constructor|unfold remaining, set_error in *; cbn; lia]].
    unfold __np_tree_serialize_read_type_dhkey. pose proof (read_words_remaining 8 d1 []) as H1.
    destruct (read_words 8 d1 []) as [l d2]. cbn in H1. apply reads_leaf; [done|by constructor|lia].
  - destruct (_ =? _); [|apply reads_leaf; [done|by constructor|lia]].
    edestruct (for_range_inv (fun _ (s : np_tree_t * decoder) => open s.1 /\ (remaining s.2 <= remaining d1)%nat))
      as ([t' d'] & -> & Ht' & Hd'); [|intros k [t1 d2] _ [Ht1 Hd2]|].
    + by split.
    + cbn [fst snd read_pair] in *. destruct (IH np_tree_create d2 open_create ltac:(lia)) as (key & st & d3 & -> & Hk & Hst & H3).
      cbn [mbind result_bind]. destruct (clear_open st Hst) as (st' & -> & Hst' & _). cbn [mbind result_bind].
      destruct (IH st' d3 Hst' ltac:(lia)) as (v & st2 & d4 & -> & Hv & _ & H4). cbn [mbind result_bind].
      destruct (add_pair_open t1 key v Ht1 Hv) as (t2 & -> & Ht2). cbn [mbind result_bind].
      eexists. split; [reflexivity|]. cbn. split; [done|lia].
    + cbn [mbind result_bind fst snd] in *. eexists _, t', d'. split; [reflexivity|]. split_and!; [|done|lia].
      apply sound_subtree, Ht'.
  - apply reads_leaf; [done|by constructor|unfold remaining, set_error in *; cbn; lia].
  - apply reads_leaf; [done|by constructor|unfold remaining, set_error in *; cbn; lia].
  - apply reads_leaf; [done|by constructor|lia].
Qed.

Lemma clone_open t : Forall (fun e : elem => sound e.2) (rbh_root t) ->
  exists c, np_tree_clone t = Ok c /\ Forall (fun e : elem => sound e.2) (rbh_root c).
Proof.
  intros Hs. unfold np_tree_clone, tree_clone.
  destruct (tree_copy_open np_treeval_copy_of_val (rbh_root t)) with (t := set_attr np_tree_create false false) as (c & -> & _ & _ & Hc).
  - eapply Forall_impl; [exact Hs|]. intros e He. split; [done|by apply copy_sound].
  - by split; [|split; [|constructor]].
  - cbn [mbind result_bind]. by eexists.
Qed.

(** C32: Whatever bytes arrive and whatever items QCBOR finds in them, reading them into a
    tree that may be changed, copies what it is given (is not in place) and holds sound
    values ends without a fault, as deep as the maps in them claim to be nested and as long
    as they claim to be.  The tree still holds sound values only: binary data and hashes of
    exactly their size, texts of at most their size (a NUL can end them before); and it can
    be cloned.  (A text that is shorter than its size makes writing the value again read
    beyond it: [nul_in_text_reads_on].) *)
Theorem deserialisation_is_safe `{Qcbor} buffer t :
  open t ->
  exists t' r, np_serializer_read_map buffer t = Ok (t', r) /\ Forall (fun e : elem => sound e.2) (rbh_root t') /\
    exists c, np_tree_clone t' = Ok c /\ Forall (fun e : elem => sound e.2) (rbh_root c).
Proof.
  intros Ht. unfold np_serializer_read_map.
  destruct (read_total (S (length (qcbor_decode buffer))) t (Decoder (qcbor_decode buffer) 0 false 0) Ht) as (v & t' & d & -> & _ & (_ & _ & Ht') & _).
  { unfold remaining. cbn [its]. lia. }
  cbn [mbind result_bind]. destruct (_ && _).
  - eexists _, _. split; [reflexivity|].
    assert (Forall (fun e : elem => sound e.2) (rbh_root (if in_place t' then set_attr t' (in_place t') true else t'))) as Hs
      by by destruct (in_place t').
    split; [done|]. by apply clone_open.
  - eexists _, _. split; [reflexivity|]. split; [done|]. by apply clone_open.
Qed.

(** A map that claims 1000 pairs and ends after one. *)
Definition truncated_map : list Z := [217; 122; 203; 185; 3; 232; 97; 97; 24; 42].

Lemma deserialisation_is_safe_witness :
  exists t' r, @np_serializer_read_map rfc8949 truncated_map np_tree_create = Ok (t', r) /\ Forall (fun e : elem => sound e.2) (rbh_root t').
Proof.
  destruct (deserialisation_is_safe (H := rfc8949) truncated_map np_tree_create open_create) as (t' & r & H1 & H2 & _).
  exists t', r. exact (conj H1 H2).
Defined.
