(* ===== verification/SerialThms.v ===== *)
(** * Serialised trees: the bytes fit the computed size and give the tree back *)
From Stdlib Require Import ZArith Lia.
From stdpp Require Import prelude gmap fin_maps sorting.
From S2P Require Import Prelude Dhkey Treeval Tree TreeSpec Qcbor Serial.

Local Open Scope Z_scope.

(** ** Values that survive *)

Definition text_ok (s : list Z) : Prop := Forall (fun c => 1 <= c < 256) s /\ length s <> 1%nat /\ Z.of_nat (length s) < 2 ^ 32.

(** Values without subtrees, in the range of their type.  Strings of one character
    are read as characters, numbers above the signed range of their type are lost
    or outgrow their size, and numbers of single precision come back in double precision. *)
Definition leaf_ok (sz : Z) (v : val) : Prop :=
  match v with
  | V_sh x => sz = 1 /\ -128 <= x <= 127
  | V_i x => sz = 2 /\ - 2 ^ 15 <= x <= 2 ^ 15 - 1
  | V_l x => sz = 4 /\ - 2 ^ 31 <= x <= 2 ^ 31 - 1
  | V_ll x => sz = 8 /\ - 2 ^ 63 <= x <= 2 ^ 63 - 1
  | V_d b => sz = 8 /\ in_u 64 b
  | V_s s => sz = Z.of_nat (length s) /\ text_ok s
  | V_c c => sz = 1 /\ in_u 8 c
  | V_ush x => sz = 1 /\ in_u 8 x
  | V_ui x => sz = 2 /\ 0 <= x < 2 ^ 15
  | V_ul x => sz = 4 /\ in_u 32 x
  | V_ull x => sz = 8 /\ 0 <= x < 2 ^ 63
  | V_a2_ui a b => sz = 4 /\ in_u 16 a /\ in_u 16 b
  | V_bin b => sz = Z.of_nat (length b) /\ Forall (in_u 8) b /\ Z.of_nat (length b) < 2 ^ 32
  | V_hash b => sz = Z.of_nat (length b) /\ Forall (in_u 8) b /\ Z.of_nat (length b) < 256
  | V_dhkey k => sz = 32 /\ dhkey_wf k
  | _ => False
  end.

Definition key_serial (v : val) : Prop := key_written v = true /\ leaf_ok (key_size v) v.

Definition plain_size (e : elem) : Z := np_treeval_get_byte_size e.1 + np_treeval_get_byte_size e.2.

Inductive serial : np_treeval_t -> Prop :=
| serial_leaf sz v : leaf_ok sz v -> serial (Treeval sz v)
| serial_tree kind k t :
    tree_wf k t -> immutable t = false -> Forall (fun e : elem => key_serial (value e.1)) (rbh_root t) ->
    zsum (map plain_size (rbh_root t)) < 2 ^ 64 -> Forall (fun e : elem => serial e.2) (rbh_root t) ->
    serial (Treeval (u32 (t_size t)) (V_tree kind t)).

Lemma serial_nested (P : np_treeval_t -> Prop) :
  (forall sz v, leaf_ok sz v -> P (Treeval sz v)) ->
  (forall kind k t, tree_wf k t -> immutable t = false -> Forall (fun e : elem => key_serial (value e.1)) (rbh_root t) ->
    zsum (map plain_size (rbh_root t)) < 2 ^ 64 -> Forall (fun e : elem => P e.2) (rbh_root t) ->
    P (Treeval (u32 (t_size t)) (V_tree kind t))) ->
  forall v, serial v -> P v.
Proof.
  intros H1 H2. fix IH 2. intros v Hv. destruct Hv as [sz v Hv|kind k t Hwf Hm Hk Hz Hels]; [by apply H1|].
  apply (H2 kind k); [done..|]. clear Hwf Hk Hz. induction Hels as [|e els He Hels IHl]; constructor; [|exact IHl].
  apply IH. exact He.
Qed.

(** How deep and how wide the document of a value is. *)
Fixpoint depth (v : np_treeval_t) : nat :=
  match v with
  | Treeval _ (V_a2_ui _ _) | Treeval _ (V_dhkey _) => 1
  | Treeval _ (V_tree _ (Tree els _ _ _ _)) => S (foldr Nat.max 0%nat (map (fun e => Nat.max (depth e.1) (depth e.2)) els))
  | _ => 0
  end.
Fixpoint width (v : np_treeval_t) : nat :=
  match v with
  | Treeval _ (V_a2_ui _ _) => 2
  | Treeval _ (V_dhkey k) => length (dh_t k)
  | Treeval _ (V_tree _ (Tree els _ _ _ _)) =>
      Nat.max (2 * length els) (foldr Nat.max 0%nat (map (fun e => Nat.max (width e.1) (width e.2)) els))
  | _ => 0
  end.

(** The value as it is read, before it is copied into a tree. *)
Definition raw (v : np_treeval_t) : np_treeval_t :=
  match value v with
  | V_s _ | V_c _ | V_bin _ | V_hash _ | V_dhkey _ | V_tree _ _ => v
  | x => Treeval 0 x
  end.

(** ** One value *)

Definition after (d : Z) (ps : list (item * Z)) : Z := foldl (fun _ p => p.2) d ps.

Definition reads_back (v : np_treeval_t) (c : cbor) : Prop :=
  forall ps rest cur n fuel T,
    map fst ps = map decoded (items c) -> (nesting c < fuel)%nat ->
    (match value v with V_tree _ _ => T = np_tree_create | _ => True end) ->
    __np_tree_deserialize_read_type fuel T (Decoder (ps ++ rest) cur false n) =
    Ok (raw v, match value v with V_tree _ t => t | _ => T end, Decoder rest (after cur ps) false (n + length ps)).

Definition written (v : np_treeval_t) (c : cbor) : Prop :=
  __np_tree_serialize_write_type v = Ok [c] /\ Forall item_ok (items c) /\
  zsum (map item_length (items c)) <= np_treeval_get_byte_size v /\ 1 <= np_treeval_get_byte_size v /\
  nesting c = depth v /\ widest c = width v /\ reads_back v c /\ np_treeval_copy_of_val (raw v) = Ok v.

Lemma head_length_extra n : 0 <= n -> head_length n = 1 + extra64 n.
Proof.
  intros H. unfold head_length, extra64, extra32, extra16, extra8, UINT32_MAX, UINT16_MAX, UINT8_MAX.
  repeat match goal with |- context [?a <? ?b] => destruct (Z.ltb_spec a b) | |- context [?a <=? ?b] => destruct (Z.leb_spec a b) end; lia.
Qed.

Lemma until_nul_text s : Forall (fun c => 1 <= c < 256) s -> until_nul s = s.
Proof. induction 1 as [|c s Hc _ IH]; [done|]. cbn. destruct (Z.eqb_spec c 0); [lia|]. by rewrite IH. Qed.

(** Documents of one item, which is read as it was written. *)
Lemma leaf_reads v i :
  (forall d fuel T, __np_tree_deserialize_read_type (S fuel) T (Decoder ((decoded i, d.2) :: its d.1) (cursor d.1) false (taken d.1)) =
     Ok (raw v, T, Decoder (its d.1) d.2 false (S (taken d.1)))) ->
  match value v with V_tree _ _ => False | _ => True end ->
  reads_back v (C_item i).
Proof.
  intros H Ht ps rest cur n fuel T Hps Hf _. destruct ps as [|[i' p] [|? ?]]; try done. cbn in Hps. injection Hps as ->.
  destruct fuel as [|fuel]; [cbn in Hf; lia|]. cbn [app]. specialize (H (Decoder rest cur false n, p) fuel T). cbn [fst snd its cursor taken] in H.
  rewrite H. cbn. rewrite Nat.add_1_r. by destruct (value v).
Qed.

Lemma as_int64_id x : x < 2 ^ 63 -> as_int64 x = x.
Proof. intros H. unfold as_int64. by destruct (Z.ltb_spec x (2 ^ 63)); [|lia]. Qed.
Lemma fits_id lo hi x : lo <= x <= hi -> fits lo hi x = x.
Proof. intros H. unfold fits. by destruct (Z.leb_spec lo x), (Z.leb_spec x hi); try lia. Qed.

Ltac size_cases := unfold head_length, extra64, extra32, extra16, extra8, UINT32_MAX, UINT16_MAX, UINT8_MAX in *;
  repeat match goal with
  | |- context [?a <? ?b] => destruct (Z.ltb_spec a b)
  | |- context [?a <=? ?b] => destruct (Z.leb_spec a b)
  end; try lia.

Lemma extra64_mono a b : 0 <= a <= b -> extra64 a <= extra64 b.
Proof. intros H. size_cases. Qed.

Lemma extra64_16 a : a < 2 ^ 16 -> extra64 a = extra16 a.
Proof. intros H. size_cases. Qed.

Lemma int_head_length x : head_length (if 0 <=? x then x else -1 - x) <= 1 + extra64 (Z.abs x).
Proof.
  destruct (Z.leb_spec 0 x); rewrite head_length_extra by lia; [by rewrite Z.abs_eq|].
  pose proof (extra64_mono (-1 - x) (Z.abs x)). lia.
Qed.

Lemma tag_ok ty : 0 <= ty < 30 -> Forall (in_u 64) [np_tag ty].
Proof. intros H. constructor; [|constructor]. unfold in_u, np_tag, NP_CBOR_REGISTRY_ENTRIES. lia. Qed.

(** The integer types: the tag, what the item is read as. *)
Lemma int_written sz v ty x :
  np_tag ty = 31415 + ty -> 0 <= ty < 30 -> - 2 ^ 63 <= x < 2 ^ 63 ->
  __np_tree_serialize_write_type (Treeval sz v) = tagged ty (H_int x) ->
  read_int (Item [np_tag ty] (H_int x)) x = raw (Treeval sz v) ->
  np_treeval_copy_of_val (raw (Treeval sz v)) = Ok (Treeval sz v) ->
  4 + extra64 (Z.abs x) <= np_treeval_get_byte_size (Treeval sz v) ->
  depth (Treeval sz v) = 0%nat -> width (Treeval sz v) = 0%nat -> match v with V_tree _ _ => False | _ => True end ->
  exists c, written (Treeval sz v) c.
Proof.
  intros Ety Hty Hx Hw Hr Hc Hb Hd Hwd Hv. exists (C_item (Item [np_tag ty] (H_int x))).
  assert (forall y, 1 <= head_length y) as Hl by (intros y; unfold head_length; repeat case_match; lia).
  split_and!; try done.
  - constructor; [|constructor]. split; [|cbn; lia]. constructor; [unfold in_u; lia|constructor].
  - cbn [items map zsum foldr]. unfold item_length. cbn [uTags uVal map value_length]. rewrite Ety. unfold zsum. cbn [foldr].
    assert (head_length (31415 + ty) = 3) as -> by (unfold head_length; repeat case_match; lia).
    pose proof (int_head_length x). lia.
  - specialize (Hl (if 0 <=? x then x else -1 - x)). pose proof (int_head_length x). lia.
  - apply leaf_reads; [|done]. intros d fuel T.
    cbn -[read_int raw np_tag]. unfold decoded. cbn [uTags uVal]. by rewrite Hr.
Qed.

Ltac tag_tests := repeat match goal with
  | |- context [np_tag ?a =? np_tag ?b] => let r := eval vm_compute in (np_tag a =? np_tag b) in change (np_tag a =? np_tag b) with r
  end; cbv iota.

Ltac int_leaf ty x :=
  apply (int_written _ _ ty x); [reflexivity|unfold ty; lia|lia|reflexivity| |reflexivity| |reflexivity|reflexivity|exact I];
  [unfold read_int, tag_at, raw; cbn [nth uTags value]; tag_tests; rewrite ?as_int64_id, ?fits_id by lia; reflexivity
  |cbn [np_treeval_get_byte_size value]; rewrite ?s16_small by lia; size_cases].

Lemma after_one d i p : after d [(i, p)] = p.
Proof. done. Qed.

(** Text, bytes and floating point numbers: the item gives the value itself. *)
Ltac plain_leaf i :=
  exists (C_item i); split_and!; [|constructor; [|constructor]|cbn [items map zsum foldr]; unfold item_length; cbn [uTags uVal map zsum foldr value_length]
    |cbn [np_treeval_get_byte_size value tv_size]; size_cases|reflexivity|reflexivity|apply leaf_reads; [intros d fuel T|exact I]|].

Lemma read_bytes_all s : read_bytes s (Z.of_nat (length s)) = Ok s.
Proof. unfold read_bytes. by rewrite Z.ltb_irrefl, Nat2Z.id, take_ge. Qed.

Lemma text_bytes s : Forall (fun c => 1 <= c < 256) s -> Forall (in_u 8) s.
Proof. intros H. eapply Forall_impl; [exact H|]. intros c Hc. cbn beta in Hc. unfold in_u. lia. Qed.

Lemma string_written s : text_ok s -> exists c, written (Treeval (Z.of_nat (length s)) (V_s s)) c.
Proof.
  intros (Ht & H1 & Hl). plain_leaf (Item [] (H_text s)).
  - cbn [__np_tree_serialize_write_type]. by rewrite read_bytes_all.
  - split; [constructor|]. split; [by apply text_bytes|lia].
  - rewrite head_length_extra by lia. cbn [np_treeval_get_byte_size value tv_size]. lia.
  - destruct s as [|c [|c' s]]; [done|done|]. cbn -[until_nul]. rewrite until_nul_text by done. done.
  - unfold raw. cbn [value np_treeval_copy_of_val]. unfold strndup. by rewrite Nat2Z.id, take_ge.
Qed.

Lemma char_written x : in_u 8 x -> exists c, written (Treeval 1 (V_c x)) c.
Proof.
  intros Hx. plain_leaf (Item [] (H_text [x])).
  - reflexivity.
  - split; [constructor|]. split; [by apply Forall_singleton|done].
  - done.
  - reflexivity.
  - reflexivity.
Qed.

Lemma bytes_copy b : (_ ← (if Z.of_nat (length b) <? Z.of_nat (length b) then Err Bad_access else Ok tt);
    Ok (Treeval (Z.of_nat (length b)) (V_bin (take (Z.to_nat (Z.of_nat (length b))) b)))) =
  Ok (Treeval (Z.of_nat (length b)) (V_bin b)).
Proof. rewrite Z.ltb_irrefl. cbn [mbind result_bind]. by rewrite Nat2Z.id, take_ge. Qed.

Lemma bin_written b : Forall (in_u 8) b -> Z.of_nat (length b) < 2 ^ 32 -> exists c, written (Treeval (Z.of_nat (length b)) (V_bin b)) c.
Proof.
  intros Hb Hl. plain_leaf (Item [] (H_bytes b)).
  - cbn [__np_tree_serialize_write_type]. by rewrite read_bytes_all.
  - split; [constructor|]. split; [done|lia].
  - rewrite head_length_extra by lia. cbn [np_treeval_get_byte_size value tv_size]. size_cases.
  - reflexivity.
  - unfold raw. cbn [value np_treeval_copy_of_val]. by rewrite bytes_copy.
Qed.

Lemma hash_written b : Forall (in_u 8) b -> Z.of_nat (length b) < 256 -> exists c, written (Treeval (Z.of_nat (length b)) (V_hash b)) c.
Proof.
  intros Hb Hl. plain_leaf (Item [np_tag np_treeval_type_hash] (H_bytes b)).
  - cbn [__np_tree_serialize_write_type]. by rewrite read_bytes_all.
  - split; [by apply tag_ok|]. split; [done|lia].
  - change (head_length (np_tag np_treeval_type_hash)) with 3. cbn [np_treeval_get_byte_size value tv_size]. size_cases.
  - reflexivity.
  - unfold raw. cbn [value np_treeval_copy_of_val]. rewrite Z.ltb_irrefl. cbn [mbind result_bind]. by rewrite Nat2Z.id, take_ge.
Qed.

Lemma words_read l : forall ps rest cur n acc,
  map fst ps = map (fun t => Item [] (H_int t)) l -> Forall (in_u 32) l ->
  read_words (length l) (Decoder (ps ++ rest) cur false n) acc = (rev acc ++ l, Decoder rest (after cur ps) false (n + length ps)).
Proof.
  induction l as [|t l IH]; intros ps rest cur n acc Hps Hl.
  - destruct ps; [|done]. cbn. by rewrite app_nil_r, Nat.add_0_r.
  - destruct ps as [|[i p] ps]; [done|]. cbn in Hps. injection Hps as -> Hps. apply Forall_cons in Hl as [Ht Hl].
    cbn [length read_words next_int VGetNext uLastError its app taken]. unfold next_int, VGetNext. cbn [uLastError its app taken].
    rewrite as_int64_id, fits_id by (unfold in_u in Ht; lia).
    rewrite IH by done. cbn [rev length]. rewrite <-app_assoc, Nat.add_succ_r. reflexivity.
Qed.

Lemma word_items l : flat_map items (map (fun t => C_item (Item [] (H_u32 t))) l) = map (fun t => Item [] (H_u32 t)) l.
Proof. induction l as [|t l IH]; [done|]. cbn. by rewrite IH. Qed.
Lemma max_zeros {A} (l : list A) : foldr Nat.max 0%nat (map (fun _ => 0%nat) l) = 0%nat.
Proof. by induction l. Qed.

Lemma dhkey_written k : dhkey_wf k -> exists c, written (Treeval 32 (V_dhkey k)) c.
Proof.
  intros [Hl Hk]. exists (__np_tree_serialize_write_type_dhkey k). unfold __np_tree_serialize_write_type_dhkey.
  assert (flat_map items (map (fun t => C_item (Item [] (H_u32 t))) (dh_t k)) = map (fun t => Item [] (H_u32 t)) (dh_t k)) as Ef
    by apply word_items.
  split_and!; cbn [items]; rewrite ?Ef, ?length_map, ?Hl; try done.
  - constructor; [split; [by apply tag_ok|done]|].
    apply Forall_forall. intros i (t & -> & Ht)%list_elem_of_fmap. split; [constructor|]. cbn. rewrite Forall_forall in Hk. by apply Hk.
  - cbn [map zsum foldr]. rewrite map_map. change (item_length (Item [np_tag np_treeval_type_dhkey] (H_array (Z.of_nat 8)))) with 4.
    destruct (dh_t k) as [|t0 [|t1 [|t2 [|t3 [|t4 [|t5 [|t6 [|t7 [|? ?]]]]]]]]]; done.
  - cbn [nesting depth]. f_equal. rewrite map_map. apply max_zeros.
  - cbn [widest width]. rewrite length_map, map_map. cbn [widest]. rewrite max_zeros. lia.
  - intros ps rest cur n fuel T Hps Hf _. cbn [items] in Hps. rewrite Ef, length_map, Hl, map_cons, map_map in Hps.
    destruct ps as [|[i p] ps]; [done|]. cbn in Hps. injection Hps as -> Hps.
    destruct fuel as [|fuel]; [cbn in Hf; lia|]. cbn [app __np_tree_deserialize_read_type VGetNext uLastError its uVal].
    unfold VGetNext. cbn [uLastError its uVal taken]. change (tag_at 0 _ =? np_tag np_treeval_type_uint_array_2) with false.
    change (tag_at 0 _ =? np_tag np_treeval_type_dhkey) with true. cbn iota.
    unfold __np_tree_serialize_read_type_dhkey. rewrite <-Hl, words_read by done. cbn [rev app]. destruct k as [l]. cbn [dh_t].
    unfold raw. cbn [value after foldl length]. do 3 f_equal. lia.
Qed.

Lemma leaf_written sz v : leaf_ok sz v -> exists c, written (Treeval sz v) c.
Proof.
  destruct v as [|x|x|x|x|b|b|s|x|x|x|x|x|x|x|a0 a1| | | | |b|b|h| |]; cbn [leaf_ok]; try done; unfold in_u.
  - intros [-> Hx]. int_leaf np_treeval_type_short x.
  - intros [-> Hx]. int_leaf np_treeval_type_int x.
  - intros [-> Hx]. int_leaf np_treeval_type_long x.
  - intros [-> Hx]. int_leaf np_treeval_type_long_long x.
  - intros [-> Hb]. plain_leaf (Item [] (H_double b)); try reflexivity; try (by split; [constructor|]); done.
  - intros [-> Hs]. by apply string_written.
  - intros [-> Hx]. by apply char_written.
  - intros [-> Hx]. int_leaf np_treeval_type_unsigned_short x.
  - intros [-> Hx]. int_leaf np_treeval_type_unsigned_int x.
  - intros [-> Hx]. int_leaf np_treeval_type_unsigned_long x.
  - intros [-> Hx]. int_leaf np_treeval_type_unsigned_long_long x.
  - intros (-> & H0 & H1).
    exists (C_array [np_tag np_treeval_type_uint_array_2] [C_item (Item [] (H_int a0)); C_item (Item [] (H_int a1))]).
    split_and!; try done.
    + constructor; [split; [by apply tag_ok|done]|].
      constructor; [split; [constructor|cbn [uVal value_ok]; lia]|]. constructor; [split; [constructor|cbn [uVal value_ok]; lia]|constructor].
    + pose proof (int_head_length a0) as B0. pose proof (int_head_length a1) as B1.
      rewrite Z.abs_eq in B0, B1 by lia. rewrite extra64_16 in B0, B1 by lia.
      cbn [items flat_map app length map zsum foldr np_treeval_get_byte_size value]. unfold item_length.
      cbn [uTags uVal map zsum foldr value_length]. change (head_length (np_tag np_treeval_type_uint_array_2)) with 3.
      change (head_length (Z.of_nat 2)) with 1. lia.
    + cbn [np_treeval_get_byte_size value]. size_cases.
    + intros ps rest cur n fuel T Hps Hf _. destruct ps as [|[i p] [|[i1 p1] [|[i2 p2] [|? ?]]]]; try done. cbn in Hps. injection Hps as -> -> ->.
      destruct fuel as [|fuel]; [cbn in Hf; lia|]. cbn -[as_int64 fits]. rewrite !as_int64_id, !fits_id by lia.
      unfold raw. cbn. do 3 f_equal. lia.
  - intros (-> & Hb & Hl). by apply bin_written.
  - intros (-> & Hb & Hl). by apply hash_written.
  - intros (-> & Hk). by apply dhkey_written.
Qed.

(** ** Trees *)

Lemma after_app d ps qs : after d (ps ++ qs) = after (after d ps) qs.
Proof. apply foldl_app. Qed.

Lemma zsum_app a b : zsum (a ++ b) = zsum a + zsum b.
Proof. unfold zsum. induction a as [|x a IH]; cbn; [done|]. rewrite IH. lia. Qed.

(** A pair that was read goes where a copy would go. *)
Lemma add_pair_eq t key v : key_serial (value key) -> add_pair t (raw key) v = insert_by_key np_treeval_copy_of_val t key v.
Proof. intros [Hk _]. unfold add_pair, insert_by_key, raw. destruct key as [sz a]. by destruct a. Qed.

Lemma key_is_leaf key : key = mk_key (value key) -> key_serial (value key) ->
  exists sz v, key = Treeval sz v /\ leaf_ok sz v /\ match v with V_tree _ _ => False | _ => True end.
Proof.
  intros E [Hk Hl]. rewrite E. eexists _, _. split; [reflexivity|]. split; [done|]. by destruct (value key).
Qed.

(** One round of the loop. *)
Lemma read_pair_back k fuel key v ck cv ps1 ps2 rest cur n t :
  written key ck -> match value key with V_tree _ _ => False | _ => True end -> key_serial (value key) -> written v cv ->
  map fst ps1 = map decoded (items ck) -> map fst ps2 = map decoded (items cv) ->
  (nesting ck < fuel)%nat -> (nesting cv < fuel)%nat ->
  tree_wf k t -> immutable t = false -> ordered k (rbh_root t ++ [(key, v)]) -> key = mk_key (value key) ->
  exists t', read_pair (__np_tree_deserialize_read_type fuel) (t, Decoder (ps1 ++ ps2 ++ rest) cur false n) =
    Ok (t', Decoder rest (after cur (ps1 ++ ps2)) false (n + length (ps1 ++ ps2))) /\
    tree_wf k t' /\ immutable t' = false /\ rbh_root t' = rbh_root t ++ [(key, v)].
Proof.
  intros (_ & _ & _ & _ & _ & _ & Rk & _) Hnt Hks (_ & _ & _ & _ & _ & _ & Rv & Cv) E1 E2 F1 F2 Hwf Hm Ho Ek.
  unfold read_pair. rewrite Rk by (done || by destruct (value key)).
  assert (match value key with V_tree _ t0 => t0 | _ => np_tree_create end = np_tree_create) as -> by by destruct (value key).
  cbn [mbind result_bind]. change (np_tree_clear np_tree_create) with (@Ok np_tree_t np_tree_create). cbn [mbind result_bind].
  rewrite Rv by (done || by destruct (value v)). cbn [mbind result_bind]. rewrite add_pair_eq by done.
  destruct (insert_last k np_treeval_copy_of_val t (key, v) (raw v)) as (t' & Hi & Hwf' & Hm' & Hr); [done..|].
  cbn [fst] in Hi. rewrite Hi. cbn [mbind result_bind]. exists t'. split; [|done]. by rewrite after_app, length_app, Nat.add_assoc.
Qed.

(** What a list of elements becomes. *)
Record elems_written (els : list elem) (cs : list cbor) : Prop := {
  ew_write acc : foldM (write_pair __np_tree_serialize_write_type) els acc = Ok (acc ++ cs);
  ew_length : length cs = (2 * length els)%nat;
  ew_ok : Forall item_ok (flat_map items cs);
  ew_size : zsum (map item_length (flat_map items cs)) <= zsum (map plain_size els);
  ew_count : Z.of_nat (length els) <= zsum (map plain_size els);
  ew_plain : zsum (map plain_size els) < 2 ^ 64 -> map np_tree_element_get_byte_size els = map plain_size els;
  ew_depth : foldr Nat.max 0%nat (map nesting cs) = foldr Nat.max 0%nat (map (fun e => Nat.max (depth e.1) (depth e.2)) els);
  ew_width : foldr Nat.max 0%nat (map widest cs) = foldr Nat.max 0%nat (map (fun e => Nat.max (width e.1) (width e.2)) els);
  ew_read k fuel ps rest cur n t i0 :
    map fst ps = map decoded (flat_map items cs) -> (foldr Nat.max 0%nat (map nesting cs) < fuel)%nat ->
    tree_wf k t -> immutable t = false -> ordered k (rbh_root t ++ els) ->
    exists t', for_range i0 (length els) (fun _ => read_pair (__np_tree_deserialize_read_type fuel)) (t, Decoder (ps ++ rest) cur false n) =
      Ok (t', Decoder rest (after cur ps) false (n + length ps)) /\
      tree_wf k t' /\ immutable t' = false /\ rbh_root t' = rbh_root t ++ els;
}.

Lemma elems_written_nil : elems_written [] [].
Proof.
  constructor; try done; [intros acc; by rewrite app_nil_r|].
  intros k fuel ps rest cur n t i0 Hps _ Hwf Hm _. destruct ps; [|done]. exists t. cbn. rewrite Nat.add_0_r, app_nil_r. by split_and!.
Qed.

Lemma elems_written_cons (e : elem) els ck cv cs :
  e.1 = mk_key (value e.1) -> key_serial (value e.1) -> written e.1 ck -> written e.2 cv -> elems_written els cs ->
  elems_written (e :: els) (ck :: cv :: cs).
Proof.
  intros Ek Hks Wk Wv [E1 E2 E3 E4 E5 Ep E6 E7 E8]. destruct e as [key v]. cbn [fst snd] in *.
  pose proof Wk as (W1 & W2 & W3 & W4 & W5 & W6 & _ & _). pose proof Wv as (V1 & V2 & V3 & V4 & V5 & V6 & _ & _).
  constructor.
  - intros acc. cbn [foldM]. unfold write_pair at 2. cbn [fst snd]. destruct Hks as [-> _]. rewrite W1. cbn [mbind result_bind].
    rewrite V1. cbn [mbind result_bind]. rewrite E1. by rewrite <-app_assoc.
  - cbn [length]. rewrite E2. lia.
  - cbn [flat_map]. by rewrite !Forall_app.
  - cbn [flat_map]. rewrite !map_app, !zsum_app. cbn [map zsum foldr]. unfold plain_size at 1. cbn [fst snd]. unfold zsum in *. lia.
  - cbn [length map zsum foldr]. unfold plain_size at 1. cbn [fst snd]. unfold zsum in *. lia.
  - change (plain_size (key, v) + zsum (map plain_size els) < 2 ^ 64 ->
            np_tree_element_get_byte_size (key, v) :: map np_tree_element_get_byte_size els = plain_size (key, v) :: map plain_size els).
    intros Hs. assert (1 <= plain_size (key, v)) by (unfold plain_size; cbn [fst snd]; lia).
    rewrite Ep by lia. f_equal. apply Z.mod_small. fold (plain_size (key, v)). lia.
  - cbn [map foldr fst snd]. rewrite W5, V5, E6. lia.
  - cbn [map foldr fst snd]. rewrite W6, V6, E7. lia.
  - intros k fuel ps rest cur n t i0 Hps Hf Hwf Hm Ho. cbn [map foldr] in Hf. cbn [flat_map] in Hps. rewrite !map_app in Hps.
    apply fmap_app_inv in Hps as (ps1 & ps' & Hps1 & Hps' & ->). symmetry in Hps'. apply fmap_app_inv in Hps' as (ps2 & ps3 & Hps2 & Hps3 & ->).
    cbn [length for_range].
    destruct (read_pair_back k fuel key v ck cv ps1 ps2 (ps3 ++ rest) cur n t) as (t1 & Hr & Hwf1 & Hm1 & Hr1); try done; try lia.
    { destruct (key_is_leaf key Ek Hks) as (sz & a & -> & _ & ?). done. }
    { eapply (ordered_app _ _ els). by rewrite <-app_assoc. }
    rewrite <-!app_assoc. rewrite Hr. cbn [mbind result_bind].
    destruct (E8 k fuel ps3 rest (after cur (ps1 ++ ps2)) (n + length (ps1 ++ ps2))%nat t1 (S i0)) as (t' & -> & Hwf' & Hm' & Hr'); try done; [lia|by rewrite Hr1, <-app_assoc|].
    exists t'. split; [|split_and!; [done|done|by rewrite Hr', Hr1, <-app_assoc]].
    do 3 f_equal; [by rewrite !after_app|rewrite !length_app; lia].
Qed.

Lemma elems_are_written els : Forall (fun e : elem => e.1 = mk_key (value e.1)) els -> Forall (fun e : elem => key_serial (value e.1)) els ->
  Forall (fun e : elem => exists c, written e.2 c) els -> exists cs, elems_written els cs.
Proof.
  intros H1 H2 H3. induction H3 as [|e els [cv Wv] _ IH]; [exists []; apply elems_written_nil|].
  apply Forall_cons in H1 as [Ek H1]. apply Forall_cons in H2 as [Hk H2]. destruct (IH H1 H2) as [cs Hcs].
  destruct (key_is_leaf e.1 Ek Hk) as (sz & a & Ea & Hl & _). destruct (leaf_written sz a Hl) as [ck Wk]. rewrite <-Ea in Wk.
  exists (ck :: cv :: cs). by apply elems_written_cons.
Qed.

Lemma leaf_wf sz v : leaf_ok sz v -> wf_val (Treeval sz v).
Proof.
  destruct v; cbn [leaf_ok]; try done; intros H; try (by constructor; destruct H as [-> _]); destruct H as [-> _];
    [apply wf_string|apply wf_bin|apply wf_hash].
Qed.

Lemma kind_tags_ok kind : Forall (in_u 64) (kind_tags kind).
Proof. destruct kind; repeat (constructor; [by vm_compute|]); constructor. Qed.

(** A tree from its elements. *)
Lemma tree_written kind k t cs :
  tree_wf k t -> immutable t = false -> zsum (map plain_size (rbh_root t)) < 2 ^ 64 ->
  Forall (fun e : elem => wf_val e.2) (rbh_root t) -> elems_written (rbh_root t) cs ->
  written (Treeval (u32 (t_size t)) (V_tree kind t)) (C_map (kind_tags kind) cs).
Proof.
  intros Hwf Hm Hz Hvs [E1 E2 E3 E4 E5 Ep E6 E7 E8]. pose proof Hwf as [Ho Hkeys Hsz Hb Hp].
  assert (length cs / 2 = length (rbh_root t))%nat as Hdiv by (rewrite E2, Nat.mul_comm; by apply Nat.div_mul).
  rewrite Ep in Hb by done. unfold u64 in Hb, Hsz. rewrite Z.mod_small in Hb, Hsz by lia.
  assert (np_treeval_get_byte_size (Treeval (u32 (t_size t)) (V_tree kind t)) >=
          zsum (map head_length (kind_tags kind)) + head_length (Z.of_nat (length (rbh_root t))) + zsum (map plain_size (rbh_root t))) as Hsize.
  { rewrite head_length_extra by lia. cbn [np_treeval_get_byte_size value]. rewrite Hb, Hsz.
    assert (zsum (map head_length (kind_tags kind)) <= match kind with jrb_tree => 3 | _ => 5 end) by by destruct kind.
    destruct kind; lia. }
  assert (forall n, 1 <= head_length n) as Hl by (intros n; unfold head_length; repeat case_match; lia).
  split_and!.
  - destruct t as [els sz b p i]. cbn [__np_tree_serialize_write_type rbh_root] in *. by rewrite E1.
  - cbn [items]. constructor; [|done]. split; [apply kind_tags_ok|]. cbn [uVal value_ok]. rewrite Hdiv. unfold in_u. lia.
  - cbn [items map]. rewrite Hdiv. cbn [zsum foldr]. unfold item_length at 1. cbn [uTags uVal value_length]. unfold zsum in *. lia.
  - specialize (Hl (Z.of_nat (length (rbh_root t)))).
    assert (0 <= zsum (map head_length (kind_tags kind))) by (by destruct kind). lia.
  - destruct t as [els sz b p i]. cbn [nesting depth rbh_root] in *. by rewrite E6.
  - destruct t as [els sz b p i]. cbn [widest width rbh_root] in *. by rewrite E2, E7.
  - intros ps rest cur n fuel T Hps Hf HT. cbn [value] in HT. subst T. cbn [items] in Hps. rewrite Hdiv in Hps.
    destruct ps as [|[i p] ps]; [done|]. cbn [map fst] in Hps. injection Hps as -> Hps.
    destruct fuel as [|fuel]; [cbn in Hf; lia|]. cbn [nesting] in Hf. cbn [app __np_tree_deserialize_read_type].
    unfold VGetNext. cbn [uLastError its taken]. unfold decoded. cbn [uVal uTags].
    assert ((tag_at 0 (Item (kind_tags kind) (H_map (Z.of_nat (length (rbh_root t))))) =? np_tag np_treeval_type_jrb_tree) = true) as ->
      by by destruct kind. rewrite Nat2Z.id.
    destruct (E8 k fuel ps rest p (S n) np_tree_create 0%nat) as (t' & -> & Hwf' & Hm' & Hr); try done; [lia|apply create_wf|].
    cbn [mbind result_bind]. rewrite (wf_ext k t' t) by (done || by rewrite Hm, Hm').
    assert (kind_of_tag (Item (kind_tags kind) (H_map (Z.of_nat (length (rbh_root t))))) = kind) as -> by by destruct kind.
    unfold raw. cbn [value length after foldl snd]. by rewrite Nat.add_succ_r.
  - unfold raw. cbn [value]. apply copy_of_wf. by eapply wf_subtree.
Qed.

Lemma serial_written v : serial v -> (exists c, written v c) /\ wf_val v.
Proof.
  apply (serial_nested (fun v => (exists c, written v c) /\ wf_val v)); clear v.
  - intros sz v Hv. split; [by apply leaf_written|by apply leaf_wf].
  - intros kind k t Hwf Hm Hks Hz Hels.
    assert (Forall (fun e : elem => exists c, written e.2 c) (rbh_root t)) as H1 by (eapply Forall_impl; [exact Hels|by intros e [? _]]).
    assert (Forall (fun e : elem => wf_val e.2) (rbh_root t)) as H2 by (eapply Forall_impl; [exact Hels|by intros e [_ ?]]).
    destruct (elems_are_written (rbh_root t) (wf_keys _ _ Hwf) Hks H1) as [cs Hcs]. split.
    + eexists. by eapply tree_written.
    + by eapply wf_subtree.
Qed.

(** ** Messages *)

Lemma decoded_prefix (its : list item) at_ : map fst (zip (map decoded its) (cursors at_ its)) = map decoded its.
Proof. revert at_. induction its as [|i its IH]; intros at_; [done|]. cbn. by rewrite IH. Qed.

Lemma after_cursors (its : list item) : forall at_ , after at_ (zip (map decoded its) (cursors at_ its)) = at_ + zsum (map item_length its).
Proof.
  induction its as [|i its IH]; intros at_; [cbn; lia|]. cbn [map cursors zip zip_with after foldl snd].
  unfold after in IH. rewrite IH. cbn [zsum foldr]. unfold zsum. lia.
Qed.

Lemma bytes_length `{Qcbor} (its : list item) : Forall item_ok its -> Z.of_nat (length (flat_map qcbor_put its)) = zsum (map item_length its).
Proof.
  induction 1 as [|i its Hi _ IH]; [done|]. cbn [flat_map map zsum foldr]. rewrite length_app, Nat2Z.inj_add, put_length, IH by done. done.
Qed.

Lemma nesting_items c : (nesting c <= length (items c))%nat.
Proof.
  revert c. fix IH 1. intros [i|t l|t l]; cbn [nesting items length]; [lia| |]; apply le_n_S;
    (induction l as [|c l IHl]; [done|]; cbn [map foldr flat_map]; rewrite length_app; specialize (IH c); lia).
Qed.

Lemma tree_serialised `{Qcbor} t extra :
  let v := np_treeval_new_tree t in
  serial v -> (depth v <= QCBOR_MAX_ARRAY_NESTING)%nat -> (width v <= QCBOR_MAX_ITEMS_IN_ARRAY)%nat ->
  exists bytes,
    (forall _buffer_size, np_tree_get_byte_size t <= _buffer_size -> np_serializer_write_map _buffer_size t = Ok (Some bytes)) /\
    Z.of_nat (length bytes) <= np_tree_get_byte_size t /\
    np_serializer_read_map (bytes ++ extra) np_tree_create = Ok (t, Some (Z.of_nat (length bytes))) /\
    Forall (in_u 8) bytes.
Proof.
  intros v Hv Hd Hw. destruct (serial_written v Hv) as [(c & W1 & W2 & W3 & _ & W5 & W6 & W7 & _) _].
  exists (flat_map qcbor_put (items c)). pose proof (bytes_length (items c) W2) as Hlen.
  assert (Z.of_nat (length (flat_map qcbor_put (items c))) <= np_tree_get_byte_size t) as Hfit by (rewrite Hlen; exact W3).
  assert (Forall (fun c => Forall item_ok (items c) /\ (nesting c <= QCBOR_MAX_ARRAY_NESTING)%nat /\
    (widest c <= QCBOR_MAX_ITEMS_IN_ARRAY)%nat) [c]) as Hc by (constructor; [|constructor]; by rewrite W5, W6).
  split_and!; [|done| |].
  - intros size Hs. unfold np_serializer_write_map. change (Treeval (u32 (t_size t)) (V_tree jrb_tree t)) with v. rewrite W1.
    cbn [mbind result_bind flat_map forallb]. rewrite app_nil_r, W5, W6.
    rewrite !(proj2 (Nat.leb_le _ _)) by done. rewrite (proj2 (Z.leb_le _ _)) by lia. done.
  - unfold np_serializer_read_map. destruct (decode_put [c] extra Hc) as [rest E].
    pose proof (finish_put [c] extra Hc) as F. cbn [flat_map] in E, F. rewrite !app_nil_r in E, F. rewrite E.
    pose proof (nesting_items c) as Hn. rewrite W7.
    + cbn [mbind result_bind value v uLastError taken negb andb]. unfold v, np_treeval_new_tree. cbn [value].
      rewrite length_zip_with, length_map, Rfc8949.cursors_length, Nat.min_id, Nat.add_0_l. rewrite F.
      inversion Hv as [? ? Hleaf|? k ? Hwf]; [done|]. rewrite (wf_copies _ _ Hwf). cbn [cursor].
      by rewrite after_cursors, Hlen.
    + apply decoded_prefix.
    + rewrite length_app, length_zip_with, length_map, Rfc8949.cursors_length. lia.
    + done.
  - clear -W2. induction W2 as [|i l Hi _ IH]; [constructor|]. cbn [flat_map]. apply Forall_app. split; [by apply put_bytes|exact IH].
Qed.

(** C30: A tree of values that survive travels: written to any buffer of at least its
    computed size it fits, and what is read from the bytes, whatever follows them,
    is the tree that was written, every value and subtree included; the reader
    stops right behind it.  The trees are those that may be changed, with keys in order and
    a count and size that are right, no deeper and no wider than QCBOR allows; their keys
    are integers, hash keys, unsigned longs, doubles or texts; their values are integers in
    the range of their type (unsigned ints below 2^15, unsigned long longs below 2^63),
    doubles, characters, texts without NUL and not of one character, binary data, hashes
    below 256 bytes, pairs of unsigned ints, hash keys and such trees.  What happens to the
    others is shown below. *)
Theorem tree_roundtrip `{Qcbor} t extra :
  let v := np_treeval_new_tree t in
  serial v -> (depth v <= QCBOR_MAX_ARRAY_NESTING)%nat -> (width v <= QCBOR_MAX_ITEMS_IN_ARRAY)%nat ->
  exists bytes,
    (forall _buffer_size, np_tree_get_byte_size t <= _buffer_size -> np_serializer_write_map _buffer_size t = Ok (Some bytes)) /\
    Z.of_nat (length bytes) <= np_tree_get_byte_size t /\
    np_serializer_read_map (bytes ++ extra) np_tree_create = Ok (t, Some (Z.of_nat (length bytes))).
Proof.
  intros v Hv Hd Hw. destruct (tree_serialised t extra Hv Hd Hw) as (bytes & H1 & H2 & H3 & _). by exists bytes.
Qed.

(** ** What does not survive *)

(** A string of one character comes back as a character; as a key it is lost with
    its value. *)
Example one_letter_key_is_lost :
  (t ← np_tree_insert_str np_tree_create [107] (np_treeval_new_ul 7);
   r ← @np_serializer_write_map rfc8949 100 t;
   @np_serializer_read_map rfc8949 (default [] r) np_tree_create) = Ok (np_tree_create, Some 10).
Proof. vm_compute. reflexivity. Qed.

(** A number of single precision comes back as one of double precision. *)
Example float_becomes_double :
  (t ← np_tree_insert_str np_tree_create [107; 107] (Treeval 4 (V_f 0x3FC00000));
   r ← @np_serializer_write_map rfc8949 100 t;
   '(t, _) ← @np_serializer_read_map rfc8949 (default [] r) np_tree_create;
   Ok (snd <$> rbh_root t)) = Ok [Treeval 8 (V_d 0x3FF8000000000000)].
Proof. vm_compute. reflexivity. Qed.

(** An unsigned number above the signed range comes back as 0. *)
Lemma large_ull_lost x : 2 ^ 63 <= x < 2 ^ 64 ->
  read_int (Item [np_tag np_treeval_type_unsigned_long_long] (H_int x)) x = Treeval 0 (V_ull 0).
Proof.
  intros Hx. unfold read_int, tag_at. cbn [nth uTags]. tag_tests. unfold as_int64, fits.
  destruct (Z.ltb_spec x (2 ^ 63)); [lia|]. by destruct (Z.leb_spec 0 (x - 2 ^ 64)); [lia|].
Qed.

(** A text with a NUL inside is kept up to it, with the size of the whole; writing the
    value again reads beyond its end. *)
Example nul_in_text_reads_on :
  (let '(v, _, _) := default (Treeval 0 V_undefined, np_tree_create, Decoder [] 0 true 0)
       match __np_tree_deserialize_read_type 1 np_tree_create (Decoder [(Item [] (H_text [120; 0; 121; 122]), 5)] 0 false 0) with
       | Ok r => Some r | Err _ => None end in
   w ← np_treeval_copy_of_val v; Ok (w, __np_tree_serialize_write_type w))
  = Ok (Treeval 4 (V_s [120]), Err Bad_access).
Proof. reflexivity. Qed.

(** The size computed for an unsigned int above the signed range is two bytes short:
    the element does not fit a buffer of the computed size. *)
Example uint_does_not_fit :
  (t ← np_tree_insert_str np_tree_create [107; 107] (np_treeval_new_ui 40000);
   @np_serializer_write_map rfc8949 (np_tree_get_byte_size t) t) = Ok None.
Proof. vm_compute. reflexivity. Qed.

(** ** Witness *)

Definition message_body : np_tree_t :=
  Tree [(Treeval 2 (V_i (-3)), Treeval 4 (V_ul 70000)); (Treeval 2 (V_i 5), Treeval 2 (V_bin [0; 255]))] 2 19 false false.
Definition message_tree : np_tree_t :=
  Tree [(Treeval 4 (V_s [98; 111; 100; 121]), Treeval 2 (V_tree cwt message_body));
        (Treeval 3 (V_s [115; 101; 113]), Treeval 8 (V_ll (-1)))] 2 39 false false.

Lemma message_body_serial : serial (Treeval 2 (V_tree cwt message_body)).
Proof.
  change (serial (Treeval (u32 (t_size message_body)) (V_tree cwt message_body))). apply (serial_tree cwt (K_int (-100))).
  - repeat constructor; cbn; lia.
  - reflexivity.
  - repeat constructor; cbn; lia.
  - reflexivity.
  - constructor; [|constructor; [|constructor]]; constructor; [by vm_compute|].
    split; [done|]. split; [|done]. by repeat constructor.
Qed.

Lemma message_serial : serial (np_treeval_new_tree message_tree).
Proof.
  apply (serial_tree jrb_tree K_str).
  - repeat constructor; cbn; lia.
  - reflexivity.
  - repeat constructor; cbn; try lia; done.
  - reflexivity.
  - constructor; [exact message_body_serial|]. constructor; [|constructor]. by constructor.
Qed.

Lemma tree_roundtrip_witness :
  exists bytes, @np_serializer_write_map rfc8949 43 message_tree = Ok (Some bytes) /\
    @np_serializer_read_map rfc8949 (bytes ++ [1; 2; 3]) np_tree_create = Ok (message_tree, Some (Z.of_nat (length bytes))).
Proof.
  destruct (tree_roundtrip (H := rfc8949) message_tree [1; 2; 3]) as (bytes & H1 & _ & H3).
  - apply message_serial.
  - vm_compute. lia.
  - change (4 <= Z.to_nat 65534)%nat. lia.
  - exists bytes. split; [apply H1; vm_compute; discriminate|exact H3].
Defined.
