(* ===== verification/BloomSerial.v ===== *)
(** * Filters on the wire: [_np_neuropil_bloom_serialize], [_np_neuropil_bloom_deserialize]

    A filter travels as a tree of whole numbers: what is left of its room under the key
    [-1], and the age and the count of every cell that is in use under the position of
    the cell.  Reading it back gives the filter again.  The bytes come from the network:
    the reader does not always check what it finds. *)
From Stdlib Require Import ZArith Lia.
From stdpp Require Import prelude gmap fin_maps sorting.
From S2P Require Import Prelude Dhkey Rng BloomBase BloomNeuropil BloomNeuropilSpec Treeval Tree TreeSpec Qcbor Serial SerialThms.

Local Open Scope Z_scope.

Section Buffers.
Context `{Qcbor}.
(** What a new block of memory holds. *)
Context (alloc : Z -> list Z).

(** A buffer of the size that is computed for the tree. *)
Definition np_tree2buffer (tree : np_tree_t) : result (list Z) :=
  let tree_size := np_tree_get_byte_size tree in
  w ← np_serializer_write_map tree_size tree;
  let bytes := default [] w in
  Ok (bytes ++ drop (length bytes) (alloc tree_size)).
Definition np_buffer2tree (buffer : list Z) (tree : np_tree_t) : result np_tree_t :=
  '(tree, _) ← np_serializer_read_map buffer tree; Ok tree.

Definition write_cell (bitset : list Z) (k : Z) (data : np_tree_t) : result np_tree_t :=
  '(age, count) ← rd_cell bitset k;
  if (0 <? age) && (0 <? count) then np_tree_insert_int data k (np_treeval_new_iarray age count) else Ok data.

(** The bytes and [*to_size]. *)
Definition _np_neuropil_bloom_serialize (filter : np_bloom_t) : result (list Z * Z) :=
  data ← np_tree_insert_int np_tree_create (-1) (np_treeval_new_ui (_free_items filter));
  data ← for_step2 (filter_bytes filter) (write_cell (_bitset filter)) data;
  to ← np_tree2buffer data;
  Ok (to, u16 (np_tree_get_byte_size data)).

(** Members of a value whatever its type is. *)
Definition member_ui (v : np_treeval_t) : result Z :=
  match value v with
  | V_i x | V_l x | V_ll x | V_ui x | V_ul x | V_ull x | V_f x | V_d x | V_a2_ui x _ => Ok (u16 x)
  | _ => Err Undefined
  end.
Definition member_a2 (v : np_treeval_t) : result (Z * Z) :=
  match value v with
  | V_a2_ui x y => Ok (x, y)
  | V_l x | V_ll x | V_ul x | V_ull x | V_f x | V_d x => Ok (u16 x, u16 (x ≫ 16))
  | _ => Err Undefined
  end.

Definition read_cell (bytes : Z) (iter : elem) (bitset : list Z) : result (list Z) :=
  pos ← member_ui iter.1;
  _ ← c_assert (pos <? bytes);
  '(age, count) ← member_a2 iter.2;
  bitset ← wr bitset pos (u8 age);
  wr bitset (pos + 1) (u8 count).

Definition _np_neuropil_bloom_deserialize (filter : np_bloom_t) (from : list Z) : result np_bloom_t :=
  data ← np_buffer2tree from np_tree_create;
  match np_tree_find_int data (-1) with
  | None => Err Bad_access
  | Some e =>
      free_items ← member_ui e.2;
      data ← np_tree_del_int data (-1);
      bitset ← foldM (read_cell (filter_bytes filter)) (rbh_root data) (_bitset filter);
      Ok (set_free (set_bitset filter bitset) free_items)
  end.
End Buffers.

(** ** The tree of a filter *)

Definition cell_elem (j : nat) (x : cell) : elem := (mk_key (V_i (2 * Z.of_nat j)), np_treeval_new_iarray (fst x) (snd x)).

Fixpoint cell_elems (j : nat) (cs : list cell) : list elem :=
  match cs with
  | [] => []
  | x :: cs => (if visible x then [cell_elem j x] else []) ++ cell_elems (S j) cs
  end.

Definition free_elem (free : Z) : elem := (mk_key (V_i (-1)), np_treeval_new_ui free).

Lemma cell_elems_in j cs e : e ∈ cell_elems j cs ->
  exists i x, e = cell_elem (j + i) x /\ cs !! i = Some x /\ visible x = true.
Proof.
  revert j. induction cs as [|x cs IH]; intros j; cbn [cell_elems]; [by intros ?%not_elem_of_nil|].
  intros [He|He]%elem_of_app.
  - destruct (visible x) eqn:Hv; [|by apply not_elem_of_nil in He]. apply list_elem_of_singleton in He as ->.
    exists 0%nat, x. by rewrite Nat.add_0_r.
  - destruct (IH (S j) He) as (i & y & -> & Hi & Hy). exists (S i), y. split; [f_equal; lia | done].
Qed.

Lemma cell_elems_length j cs : (length (cell_elems j cs) <= length cs)%nat.
Proof. revert j. induction cs as [|x cs IH]; intros j; cbn; [done|]. rewrite length_app. specialize (IH (S j)). destruct (visible x); cbn; lia. Qed.

Lemma visible_positive x : is_cell x -> (0 <? fst x) && (0 <? snd x) = visible x.
Proof.
  intros [Ha Hc]. unfold in_u in *. unfold visible.
  destruct (Z.ltb_spec 0 (fst x)), (Z.ltb_spec 0 (snd x)), (Z.eqb_spec (fst x) 0), (Z.eqb_spec (snd x) 0); cbn; lia || done.
Qed.

(** The loop of the writer copies the elements. *)
Lemma cells_written cs : forall pre data, Forall is_cell cs ->
  for_range (length pre) (length cs) (fun j => write_cell (uncells (pre ++ cs)) (2 * Z.of_nat j)) data =
  tree_copy np_treeval_copy_of_val (cell_elems (length pre) cs) data.
Proof.
  unfold tree_copy. induction cs as [|x cs IH]; intros pre data Hcs; [done|].
  apply Forall_cons in Hcs as [Hx Hcs]. cbn [length for_range cell_elems].
  assert (write_cell (uncells (pre ++ x :: cs)) (2 * Z.of_nat (length pre)) data =
    if visible x then np_tree_insert_int data (2 * Z.of_nat (length pre)) (np_treeval_new_iarray (fst x) (snd x)) else Ok data) as ->.
  { unfold write_cell. rewrite (rd_cell_middle pre) by done. cbn [mbind result_bind]. rewrite <- (visible_positive x Hx).
    by destruct x. }
  rewrite (app_cons_snoc pre x cs).
  replace (S (length pre)) with (length (pre ++ [x])) by (rewrite length_app; simpl; lia).
  destruct (visible x); cbn [app foldM]; [|cbn [mbind result_bind]; by apply IH].
  change (insert_by_key np_treeval_copy_of_val data (cell_elem (length pre) x).1 (cell_elem (length pre) x).2)
    with (np_tree_insert_int data (2 * Z.of_nat (length pre)) (np_treeval_new_iarray (fst x) (snd x))).
  destruct (np_tree_insert_int _ _ _); cbn [mbind result_bind]; [by apply IH | done].
Qed.

Definition k_cells : key_kind := K_int (-1).

Lemma before_cells i j x y : (i < j)%nat -> before (cell_elem i x) (cell_elem j y).
Proof. intros Hij. unfold before. cbn [cell_elem fst value mk_key rank]. rewrite strcmp_one. lia. Qed.

Lemma cells_sorted cs : forall j, StronglySorted before (cell_elems j cs).
Proof.
  induction cs as [|x cs IH]; intros j; cbn [cell_elems]; [constructor|].
  destruct (visible x); cbn [app]; [|apply IH]. constructor; [apply IH|]. apply Forall_forall. intros e He.
  destruct (cell_elems_in _ _ _ He) as (i & y & -> & _). apply before_cells. lia.
Qed.

Definition filter_elems (cs : list cell) (free : Z) : list elem := free_elem free :: cell_elems 0 cs.

Lemma filter_ordered cs free : cells_wf cs -> ordered k_cells (filter_elems cs free).
Proof.
  intros [Hl _]. split.
  - constructor; [apply cells_sorted|]. apply Forall_forall. intros e He.
    destruct (cell_elems_in _ _ _ He) as (i & y & -> & _). unfold before. cbn [free_elem cell_elem fst value mk_key rank].
    rewrite strcmp_one. lia.
  - constructor; [by vm_compute|]. apply Forall_forall. intros e He.
    destruct (cell_elems_in _ _ _ He) as (i & y & -> & Hi & _). apply lookup_lt_Some in Hi.
    cbn [cell_elem fst value mk_key key_of_kind k_cells]. unfold NCELLS in Hl. lia.
Qed.

Lemma filter_keys cs free : Forall (fun e : elem => e.1 = mk_key (value e.1)) (filter_elems cs free).
Proof.
  constructor; [done|]. apply Forall_forall. intros e He. by destruct (cell_elems_in _ _ _ He) as (i & y & -> & _).
Qed.

(** The writer's tree. *)
Lemma filter_tree rng cs free : cells_wf cs ->
  exists t, (data ← np_tree_insert_int np_tree_create (-1) (np_treeval_new_ui free);
             for_step2 (filter_bytes (mk rng cs free)) (write_cell (uncells cs)) data) = Ok t /\
    tree_wf k_cells t /\ immutable t = false /\ rbh_root t = filter_elems cs free.
Proof.
  intros Hwf. pose proof Hwf as [Hl Hcs]. pose proof (filter_ordered cs free Hwf) as Ho.
  destruct (copy_elems k_cells np_treeval_copy_of_val (filter_elems cs free)) with (t := np_tree_create) as (t & Hcopy & Ht);
    [|apply (create_wf _ false)|done|done|apply filter_keys|].
  { constructor; [done|]. apply Forall_forall. intros e He. by destruct (cell_elems_in _ _ _ He) as (i & y & -> & _). }
  exists t. split; [|exact Ht]. rewrite <- Hcopy. unfold tree_copy at 1, filter_elems. cbn [foldM].
  change (insert_by_key np_treeval_copy_of_val np_tree_create (free_elem free).1 (free_elem free).2)
    with (np_tree_insert_int np_tree_create (-1) (np_treeval_new_ui free)).
  destruct (np_tree_insert_int np_tree_create (-1) (np_treeval_new_ui free)) as [d|]; cbn [mbind result_bind]; [|done].
  change (filter_bytes (mk rng cs free)) with 2040. unfold for_step2. rewrite decide_True by done.
  change (Z.to_nat ((2040 + 1) / 2)) with NCELLS. rewrite <- Hl. exact (cells_written cs [] d Hcs).
Qed.

(** ** What is read back *)

(** A cell that is not in use is not written. *)
Definition kept (x : cell) : cell := if visible x then x else (0, 0).

Lemma wr_cell_middle pre x post pos a c :
  pos = 2 * Z.of_nat (length pre) ->
  (b ← wr (uncells (pre ++ x :: post)) pos a; wr b (pos + 1) c) = Ok (uncells (pre ++ (a, c) :: post)).
Proof.
  intros ->. destruct x as [a0 c0]. rewrite !uncells_app. cbn [uncells].
  rewrite (wr_middle _ _ _ _ (2 * _)) by (by rewrite uncells_length). cbn [mbind result_bind].
  rewrite (app_cons_snoc _ a), wr_middle; [by rewrite <- app_assoc|]. rewrite length_app, Nat2Z.inj_add, uncells_length. simpl. lia.
Qed.

Lemma cells_read cs : forall pre, Forall is_cell cs -> Z.of_nat (length pre) + Z.of_nat (length cs) <= 1020 ->
  foldM (read_cell 2040) (cell_elems (length pre) cs) (uncells (pre ++ replicate (length cs) (0, 0))) = Ok (uncells (pre ++ map kept cs)).
Proof.
  induction cs as [|x cs IH]; intros pre Hcs Hl; [done|]. apply Forall_cons in Hcs as [Hx Hcs].
  cbn [length] in Hl. cbn [cell_elems length replicate map].
  assert (length (pre ++ [kept x]) = S (length pre)) as Hlen by (rewrite length_app; simpl; lia).
  specialize (IH (pre ++ [kept x]) Hcs ltac:(rewrite Hlen; lia)). rewrite Hlen, <- !app_cons_snoc in IH.
  assert (kept x = if visible x then x else (0, 0)) as Hk by done.
  destruct (visible x) eqn:Hv; cbn [app foldM]; rewrite Hk in IH |- *; [|exact IH].
  assert (read_cell 2040 (cell_elem (length pre) x) (uncells (pre ++ (0, 0) :: replicate (length cs) (0, 0))) =
    Ok (uncells (pre ++ x :: replicate (length cs) (0, 0)))) as ->; [|exact IH].
  destruct x as [a c], Hx as [Ha Hc]. cbn [fst snd] in *. unfold read_cell.
  cbn [cell_elem fst snd member_ui member_a2 mk_key value np_treeval_new_iarray mbind result_bind].
  rewrite u16_id by (unfold in_u; lia). rewrite (proj2 (Z.ltb_lt _ 2040)) by lia. cbn [c_assert mbind result_bind].
  rewrite !u8_id by done. by apply wr_cell_middle.
Qed.

Lemma cell_sizes cs j : Forall is_cell cs ->
  Forall (fun x => 0 <= x <= 20) (map plain_size (cell_elems j cs)).
Proof.
  intros Hcs. apply Forall_map, Forall_forall. intros e He. destruct (cell_elems_in _ _ _ He) as (i & x & -> & _).
  cbn [plain_size cell_elem fst snd mk_key np_treeval_new_iarray np_treeval_get_byte_size value].
  unfold plain_size, extra16, extra8, UINT8_MAX. cbn [np_treeval_get_byte_size cell_elem fst snd mk_key np_treeval_new_iarray value].
  unfold extra16, extra8, UINT8_MAX. repeat case_match; lia.
Qed.

Lemma small_free free : 0 <= free <= 64 -> 0 <= plain_size (free_elem free) <= 20.
Proof.
  intros Hf. unfold plain_size. cbn [np_treeval_get_byte_size free_elem fst snd mk_key np_treeval_new_ui value].
  rewrite TreeSpec.s16_small by lia. unfold extra16, extra8, UINT8_MAX. repeat case_match; lia.
Qed.

Lemma filter_serial t cs free : cells_wf cs -> 0 <= free <= 64 ->
  tree_wf k_cells t -> immutable t = false -> rbh_root t = filter_elems cs free ->
  serial (np_treeval_new_tree t) /\ (depth (np_treeval_new_tree t) <= 2)%nat /\ Z.of_nat (width (np_treeval_new_tree t)) <= 2042.
Proof.
  intros [Hl Hcs] Hfree Hwf Hm Hr. pose proof (cell_elems_length 0 cs) as Hlen.
  assert (forall e, e ∈ cell_elems 0 cs -> exists i x, e = cell_elem i x /\ Z.of_nat i < 1020 /\ is_cell x) as Hin.
  { intros e He. destruct (cell_elems_in _ _ _ He) as (i & x & -> & Hi & _). exists i, x. split; [done|].
    pose proof (lookup_lt_Some _ _ _ Hi). unfold NCELLS in Hl. split; [lia|]. by eapply Forall_lookup_1. }
  split_and!.
  - apply (serial_tree jrb_tree k_cells t Hwf Hm); rewrite Hr.
    + constructor; [by vm_compute|]. apply Forall_forall. intros e He. destruct (Hin e He) as (i & x & -> & Hi & _).
      split; [done|]. cbn. lia.
    + pose proof (zsum_bounds 20 (map plain_size (filter_elems cs free))) as Hz. rewrite length_map in Hz.
      cbn [filter_elems map length] in Hz |- *. rewrite Hl in Hlen.
      assert (Z.of_nat NCELLS = 1020) as Hn by done.
      destruct Hz as [_ Hz]; [constructor; [by apply small_free | by apply cell_sizes]|]. lia.
    + constructor; [constructor; cbn; lia|]. apply Forall_forall. intros e He. destruct (Hin e He) as (i & x & -> & _ & Ha & Hc).
      constructor. cbn. unfold in_u in *. lia.
  - unfold np_treeval_new_tree. destruct t as [els ? ? ? ?]. cbn [rbh_root depth] in *. subst els. apply le_n_S.
    cbn [filter_elems map foldr free_elem fst snd mk_key np_treeval_new_ui depth Nat.max].
    assert (forall l, (forall e, e ∈ l -> exists i x, e = cell_elem i x) ->
      (foldr Nat.max 0 (map (fun e : elem => Nat.max (depth e.1) (depth e.2)) l) <= 1)%nat) as Hd.
    { intros l. induction l as [|e l IH]; intros He; cbn; [lia|]. destruct (He e ltac:(by left)) as (i & x & ->). cbn.
      assert (forall e, e ∈ l -> exists i x, e = cell_elem i x) as Hrest by (intros; apply He; by right). specialize (IH Hrest). lia. }
    apply Hd. intros e He. destruct (Hin e He) as (i & x & -> & _). by exists i, x.
  - unfold np_treeval_new_tree. destruct t as [els ? ? ? ?]. cbn [rbh_root width] in *. subst els.
    assert (forall l, (forall e, e ∈ l -> exists i x, e = cell_elem i x) ->
      (foldr Nat.max 0 (map (fun e : elem => Nat.max (width e.1) (width e.2)) l) <= 2)%nat) as Hd.
    { intros l. induction l as [|e l IH]; intros He; cbn; [lia|]. destruct (He e ltac:(by left)) as (i & x & ->). cbn.
      assert (forall e, e ∈ l -> exists i x, e = cell_elem i x) as Hrest by (intros; apply He; by right). specialize (IH Hrest). lia. }
    assert (foldr Nat.max 0 (map (fun e : elem => Nat.max (width e.1) (width e.2)) (filter_elems cs free)) <= 2)%nat as Hmax.
    { cbn [filter_elems map foldr free_elem fst snd mk_key np_treeval_new_ui width Nat.max]. apply Hd.
      intros e He. destruct (Hin e He) as (i & x & -> & _). by exists i, x. }
    assert (Z.of_nat (length (filter_elems cs free)) <= 1021).
    { cbn [filter_elems length]. assert (Z.of_nat NCELLS = 1020) by done. lia. }
    lia.
Qed.

Lemma filter_size t cs free : cells_wf cs -> 0 <= free <= 64 -> tree_wf k_cells t -> rbh_root t = filter_elems cs free ->
  0 <= np_tree_get_byte_size t < 2 ^ 16.
Proof.
  intros [Hl Hcs] Hfree Hwf Hr. pose proof (wf_bytes _ _ Hwf) as Hb. pose proof (wf_size _ _ Hwf) as Hs.
  assert (forall e, 0 <= plain_size e <= 20 -> 0 <= np_tree_element_get_byte_size e <= 20) as Hsame.
  { intros e He. unfold np_tree_element_get_byte_size. fold (plain_size e). by rewrite u64_id by (unfold in_u; lia). }
  pose proof (zsum_bounds 20 (map np_tree_element_get_byte_size (filter_elems cs free))) as Hz.
  destruct Hz as [Hz0 Hz].
  { pose proof (cell_sizes cs 0 Hcs) as Hc. rewrite Forall_map in Hc. cbn [filter_elems map].
    constructor; [by apply Hsame, small_free|]. apply Forall_map. eapply Forall_impl; [exact Hc|]. exact Hsame. }
  rewrite length_map in Hz. cbn [filter_elems length] in Hz. pose proof (cell_elems_length 0 cs) as Hlen. rewrite Hl in Hlen.
  assert (Z.of_nat NCELLS = 1020) as Hn by done.
  unfold np_tree_get_byte_size, np_treeval_new_tree. cbn [np_treeval_get_byte_size value]. rewrite Hb, Hr.
  rewrite u64_id by (unfold in_u; lia).
  unfold extra64, extra32, extra16, extra8. repeat case_match; lia.
Qed.

Lemma kept_visible cs i : visible (cell_at (map kept cs) i) = visible (cell_at cs i).
Proof.
  unfold cell_at. rewrite list_lookup_fmap. destruct (cs !! i) as [x|]; cbn; [|done]. unfold kept. by destruct (visible x) eqn:Hv.
Qed.

(** C20: A filter survives the wire.  What is written fits its two-byte length; read into an
    empty filter, whatever follows it, it gives the same room and the same cells, those
    that are not in use emptied, so every subject is found that was found before and no
    other. *)
Theorem filter_roundtrip `{Qcbor} alloc rng rng' cs free extra :
  cells_wf cs -> 0 <= free <= 64 -> (2 <= QCBOR_MAX_ARRAY_NESTING)%nat -> 2042 <= Z.of_nat QCBOR_MAX_ITEMS_IN_ARRAY ->
  (forall n, 0 <= n -> Z.of_nat (length (alloc n)) = n) ->
  exists bytes, _np_neuropil_bloom_serialize alloc (mk rng cs free) = Ok (bytes, Z.of_nat (length bytes)) /\
    _np_neuropil_bloom_deserialize (mk rng' (replicate NCELLS (0, 0)) 64) (bytes ++ extra) = Ok (mk rng' (map kept cs) free) /\
    forall x, _np_neuropil_bloom_check (mk rng' (map kept cs) free) x = _np_neuropil_bloom_check (mk rng cs free) x.
Proof.
  intros Hwf Hfree Hnest Hitems Halloc. pose proof Hwf as [Hl Hcs].
  destruct (filter_tree rng cs free Hwf) as (t & Hrun & Ht & Hm & Hr).
  destruct (filter_serial t cs free Hwf Hfree Ht Hm Hr) as (Hser & Hd & Hw).
  pose proof (filter_size t cs free Hwf Hfree Ht Hr) as Hsize.
  destruct (tree_serialised t [] Hser ltac:(lia) ltac:(lia)) as (b & Hwrite & Hlen & _ & _).
  set (rest := drop (length b) (alloc (np_tree_get_byte_size t))).
  exists (b ++ rest). split_and!.
  - unfold _np_neuropil_bloom_serialize. change (_free_items (mk rng cs free)) with free.
    apply bind_Ok_inv in Hrun as (d & Hins & Hrun). rewrite Hins. cbn [mbind result_bind]. change (_bitset (mk rng cs free)) with (uncells cs).
    rewrite Hrun. cbn [mbind result_bind]. unfold np_tree2buffer. rewrite Hwrite by lia. cbn [mbind result_bind default from_option].
    fold rest. rewrite u16_id by (unfold in_u; lia). do 2 f_equal. subst rest.
    pose proof (Halloc (np_tree_get_byte_size t) ltac:(lia)) as Ha. rewrite length_app, length_drop. lia.
  - unfold _np_neuropil_bloom_deserialize, np_buffer2tree. rewrite <- app_assoc.
    destruct (tree_serialised t (rest ++ extra) Hser ltac:(lia) ltac:(lia)) as (b' & Hwrite' & _ & Hread & _).
    assert (b' = b) as -> by (specialize (Hwrite (np_tree_get_byte_size t) ltac:(lia)); rewrite Hwrite' in Hwrite by lia; congruence).
    rewrite Hread. cbn [mbind result_bind]. unfold np_tree_find_int, np_tree_del_int, RB_FIND, np_tree_find_int. rewrite Hr.
    change (List.find _ (filter_elems cs free)) with (Some (free_elem free)).
    cbn [free_elem snd member_ui np_treeval_new_ui value mbind result_bind].
    unfold __np_tree_immutable_check. rewrite Hm. cbn [negb c_assert mbind result_bind].
    change (RB_FIND (filter_elems cs free) (V_i (-1))) with (Some (free_elem free)).
    assert (rbh_root (np_tree_del_element t (Some (free_elem free))) = cell_elems 0 cs) as ->.
    { cbn [np_tree_del_element free_elem fst mk_key value]. unfold set_elems. cbn [rbh_root]. by rewrite Hr. }
    change (_bitset (mk rng' (replicate NCELLS (0, 0)) 64)) with (uncells (replicate NCELLS (0, 0))).
    change (filter_bytes _) with 2040. assert (Z.of_nat NCELLS = 1020) as Hn by done.
    pose proof (cells_read cs [] Hcs ltac:(cbn [length]; lia)) as Hcells. rewrite Hl in Hcells. cbn [app length] in Hcells. rewrite Hcells.
    cbn [mbind result_bind]. by rewrite u16_id by (unfold in_u; lia).
  - intros x. rewrite !neuropil_check_mk by (rewrite ?length_map; done). f_equal.
    induction (np_cells x) as [|i l IH]; cbn [forallb]; [done|]. by rewrite kept_visible, IH.
Qed.

(** ** What is not checked *)

(** Without the key [-1] the reader follows a null pointer. *)
Lemma no_room_is_fatal `{Qcbor} filter from t :
  np_buffer2tree from np_tree_create = Ok t -> np_tree_find_int t (-1) = None -> _np_neuropil_bloom_deserialize filter from = Err Bad_access.
Proof. intros Hr Hf. unfold _np_neuropil_bloom_deserialize. rewrite Hr. cbn [mbind result_bind]. by rewrite Hf. Qed.

(** A position behind the filter fails an assertion, the last one writes behind it. *)
Lemma position_behind sz v bitset pos : 2040 <= pos < 2 ^ 16 ->
  read_cell 2040 (Treeval 2 (V_i pos), Treeval sz v) bitset = Err Assert_failed.
Proof.
  intros Hp. unfold read_cell. cbn [fst member_ui value mbind result_bind]. rewrite u16_id by (unfold in_u; lia).
  by rewrite (proj2 (Z.ltb_ge pos 2040)) by lia.
Qed.
Lemma last_position age count bitset : length bitset = Z.to_nat 2040 ->
  read_cell 2040 (Treeval 2 (V_i 2039), Treeval 4 (V_a2_ui age count)) bitset = Err Bad_access.
Proof.
  intros Hl. unfold read_cell. cbn [fst snd member_ui member_a2 value mbind result_bind].
  change (u16 2039) with 2039. change (2039 <? 2040) with true. cbn [c_assert mbind result_bind].
  rewrite wr_ok by lia. cbn [mbind result_bind]. unfold wr. rewrite decide_False; [done|]. rewrite length_insert. lia.
Qed.

(** ** Example *)

Definition one_cell : list cell := (128, 1) :: replicate 1019 (0, 0).

Lemma filter_roundtrip_witness :
  exists bytes, @_np_neuropil_bloom_serialize rfc8949 (fun n => replicate (Z.to_nat n) 0) (mk rng0 one_cell 63) = Ok (bytes, Z.of_nat (length bytes)) /\
    @_np_neuropil_bloom_deserialize rfc8949 _np_neuropil_bloom_create (bytes ++ [0; 0]) = Ok (mk rng0 (map kept one_cell) 63).
Proof.
  destruct (filter_roundtrip (H := rfc8949) (fun n => replicate (Z.to_nat n) 0) rng0 rng0 one_cell 63 [0; 0]) as (bytes & H1 & H2 & _).
  - split; [by vm_compute|]. constructor; [by_decide|]. apply Forall_replicate. by_decide.
  - lia.
  - vm_compute. lia.
  - change (2042 <= Z.of_nat (Z.to_nat 65534)). lia.
  - intros n Hn. rewrite length_replicate. lia.
  - exists bytes. split; [exact H1|]. rewrite create_mk. exact H2.
Defined.
