(* ===== verification/Datablock.v ===== *)
(** * Data blocks: [src/neuropil_data.c] and the objects of [src/util/s11n_impl/np_serialize_qcbor.c]

    A data block is a key/value store kept serialised in one piece of memory: a
    header of 21 bytes (an array of the magic number, the length of the memory, the
    length in use and the number of objects), then the objects, a key and a value
    each.  The attributes of tokens and of intents are data blocks, those of a
    peer included, so nothing is assumed of the bytes here.

    Memory is a list of bytes from the start of the block on: the block and whatever
    lies behind it.  Positions ([buffer_start], [buffer_end]) are distances from
    there.  The decoder is given a position and a length; what it is given is
    clipped to the memory, since it only touches the bytes of the items it finds.
    A value that is set is not part of the block it is set in. *)
From Stdlib Require Import ZArith Lia.
From stdpp Require Import prelude.
From S2P Require Import Prelude Treeval Qcbor Serial.

Local Open Scope Z_scope.

Definition NP_DATA_MAGIC_NO : Z := 22964591.

Inductive np_data_return :=
| np_data_ok | np_key_not_found | np_insufficient_memory | np_invalid_structure | np_invalid_arguments
| np_could_not_write_magicno | np_could_not_write_total_length | np_could_not_write_used_length
| np_could_not_write_object_count | np_could_not_write_bin | np_could_not_write_str | np_could_not_write_int
| np_could_not_write_uint | np_could_not_write_key | np_could_not_read_magicno | np_could_not_read_total_length
| np_could_not_read_used_length | np_could_not_read_object_count | np_could_not_read_object | np_could_not_read_key.

#[export] Instance np_data_return_eq_dec : EqDecision np_data_return.
Proof. solve_decision. Defined.

Inductive np_data_type := NP_DATA_TYPE_BIN | NP_DATA_TYPE_INT | NP_DATA_TYPE_UNSIGNED_INT | NP_DATA_TYPE_STR.

#[export] Instance np_data_type_eq_dec : EqDecision np_data_type.
Proof. solve_decision. Defined.

(** The union: the members [bin] and [str] are a pointer (what it points to), the
    members [integer] and [unsigned_integer] share 32 bits. *)
Inductive np_data_value := U_ptr (p : list Z) | U_num (bits : Z).

#[export] Instance np_data_value_eq_dec : EqDecision np_data_value.
Proof. solve_decision. Defined.

Definition s32 (x : Z) : Z := let y := u32 x in if y <? 2 ^ 31 then y else y - 2 ^ 32.

Definition as_ptr (v : np_data_value) : result (list Z) := match v with U_ptr p => Ok p | U_num _ => Err Bad_access end.
Definition as_unsigned (v : np_data_value) : result Z := match v with U_num b => Ok (u32 b) | U_ptr _ => Err Undefined end.
Definition as_integer (v : np_data_value) : result Z := b ← as_unsigned v; Ok (s32 b).

Record np_data_conf := Data_conf { conf_key : list Z; conf_type : np_data_type; conf_data_size : Z }.

Record np_kv_buffer := Kv_buffer {
  buffer_start : Z;
  buffer_end : option Z;   (* [None]: NULL *)
  kv_key : list Z;
  data_type : np_data_type;
  data_size : Z;
  kv_data : np_data_value;
}.

(** [_inner_blob] is always the start of the memory. *)
Record np_datablock_header := Datablock_header { total_length : Z; used_length : Z; object_count : Z }.

(** ** Strings in arrays of 255 characters *)

(** The characters [strnlen (key, 255)] counts. *)
Definition strn (key : list Z) : list Z := until_nul (take 255 key).
Definition strnlen (key : list Z) : Z := Z.of_nat (length (strn key)).

(** [strncmp (a, b, n) == 0] *)
Definition strncmp_eq (a b : list Z) (n : Z) : bool :=
  bool_decide (take (Z.to_nat n) (until_nul a) = take (Z.to_nat n) (until_nul b)).

(** [strncpy (dest, src, strnlen (src, 255)); dest[strnlen (src, 255)] = 0] into an
    array of 255. *)
Definition copy_key (src : list Z) : result (list Z) := if strnlen src <? 255 then Ok (strn src) else Err Bad_access.

(** ** Memory *)

(** The [len] bytes at [start]; without a length, all there are. *)
Definition bytes_at (mem : list Z) (start : Z) (len : option Z) : list Z :=
  let l := drop (Z.to_nat start) mem in match len with Some n => take (Z.to_nat n) l | None => l end.

Definition write_at (mem : list Z) (start : Z) (bytes : list Z) : result (list Z) :=
  if (0 <=? start) && (start + Z.of_nat (length bytes) <=? Z.of_nat (length mem)) then
    Ok (take (Z.to_nat start) mem ++ bytes ++ drop (Z.to_nat start + length bytes) mem)
  else Err Bad_access.

Definition memmove (mem : list Z) (dest src len : Z) : result (list Z) :=
  if (0 <=? src) && (src + len <=? Z.of_nat (length mem)) then write_at mem dest (bytes_at mem src (Some len))
  else Err Bad_access.

(** The length between two pointers, a [size_t]; one that is negative or that starts
    at NULL is longer than any memory. *)
Definition buffer_length (start : Z) (end_ : option Z) : option Z :=
  match end_ with Some e => if start <=? e then Some (e - start) else None | None => None end.

Section Blocks.
Context `{Qcbor}.
(** What the encoder has left in a buffer that was too small for the items. *)
Context (encoder_leaves : list item -> Z -> list Z).

(** [QCBOREncode_Finish] of the items in a buffer of [size] bytes: whether it
    succeeds, and the bytes. *)
Definition encode (its : list item) (size : Z) : bool * list Z :=
  let b := flat_map qcbor_put its in
  if Z.of_nat (length b) <=? size then (true, b) else (false, take (Z.to_nat size) (encoder_leaves its size)).

(** ** Objects *)

Definition object_items (to_write : np_kv_buffer) : result (list item) :=
  let key := Item [] (H_text (strn (kv_key to_write))) in
  match data_type to_write with
  | NP_DATA_TYPE_BIN => p ← as_ptr (kv_data to_write); b ← read_bytes p (data_size to_write); Ok [key; Item [] (H_bytes b)]
  | NP_DATA_TYPE_STR => p ← as_ptr (kv_data to_write); b ← read_bytes p (data_size to_write); Ok [key; Item [] (H_text b)]
  | NP_DATA_TYPE_INT => z ← as_integer (kv_data to_write); Ok [key; Item [np_tag np_treeval_type_long] (H_int z)]
  | NP_DATA_TYPE_UNSIGNED_INT =>
      z ← as_unsigned (kv_data to_write); Ok [key; Item [np_tag np_treeval_type_unsigned_long] (H_int z)]
  end.

Definition set_end (kv : np_kv_buffer) (end_ : option Z) : np_kv_buffer :=
  Kv_buffer (buffer_start kv) end_ (kv_key kv) (data_type kv) (data_size kv) (kv_data kv).
Definition set_region (kv : np_kv_buffer) (start : Z) (end_ : option Z) : np_kv_buffer :=
  Kv_buffer start end_ (kv_key kv) (data_type kv) (data_size kv) (kv_data kv).

Definition np_serializer_write_object (mem : list Z) (to_write : np_kv_buffer) : result (np_data_return * np_kv_buffer * list Z) :=
  its ← object_items to_write;
  match buffer_length (buffer_start to_write) (buffer_end to_write) with
  | None => Err Bad_access
  | Some write_len =>
      let '(ok, b) := encode its write_len in
      mem ← write_at mem (buffer_start to_write) b;
      if ok then Ok (np_data_ok, set_end to_write (Some (buffer_start to_write + Z.of_nat (length b))), mem)
      else Ok (np_could_not_write_total_length, to_write, mem)
  end.

Definition NP_DATA_SIZE_INT : Z := 4.

(** An integer that does not fit 32 bits leaves the union as it was. *)
Definition read_integer (i : item) (z : Z) (to_read : np_kv_buffer) : option (np_data_type * Z * result Z) :=
  if 2 ^ 63 <=? z then None
  else if tag_at 0 i =? np_tag np_treeval_type_long then
    Some (NP_DATA_TYPE_INT, NP_DATA_SIZE_INT,
          if (- 2 ^ 31 <=? z) && (z <=? 2 ^ 31 - 1) then Ok (u32 z) else as_unsigned (kv_data to_read))
  else if tag_at 0 i =? np_tag np_treeval_type_unsigned_long then
    Some (NP_DATA_TYPE_UNSIGNED_INT, NP_DATA_SIZE_INT,
          if (0 <=? z) && (z <=? UINT32_MAX) then Ok z else as_unsigned (kv_data to_read))
  else None.

(** Type, size and data of the value item. *)
Definition read_value (i : item) (to_read : np_kv_buffer) : option (np_data_type * Z * result np_data_value) :=
  match uVal i with
  | H_bytes s => Some (NP_DATA_TYPE_BIN, Z.of_nat (length s), Ok (U_ptr s))
  | H_text s => Some (NP_DATA_TYPE_STR, Z.of_nat (length s), Ok (U_ptr s))
  | H_int z | H_u32 z =>
      '(t, n, b) ← read_integer i z to_read; Some (t, n, b ← b; Ok (U_num b))
  | _ => None
  end.

(** The key item is used as a string whatever its type is. *)
Definition read_key (i : item) : result (list Z) :=
  match uVal i with
  | H_text s | H_bytes s => if Z.of_nat (length s) <? 255 then Ok (until_nul s) else Err Bad_access
  | _ => Err Bad_access
  end.

Definition np_serializer_read_object (mem : list Z) (to_read : np_kv_buffer) : result (np_data_return * np_kv_buffer) :=
  let b := bytes_at mem (buffer_start to_read) (buffer_length (buffer_start to_read) (buffer_end to_read)) in
  let '(item, d) := VGetNext (Decoder (qcbor_decode b) 0 false 0) in
  match item with
  | None => Ok (np_could_not_read_key, to_read)
  | Some i =>
      key ← read_key i;
      let to_read := Kv_buffer (buffer_start to_read) (buffer_end to_read) key (data_type to_read) (data_size to_read) (kv_data to_read) in
      let '(item, d) := VGetNext d in
      match item with
      | None => Ok (np_could_not_read_object, to_read)
      | Some i =>
          match read_value i to_read with
          | None => Ok (np_invalid_arguments, to_read)
          | Some (t, n, v) =>
              v ← v;
              let to_read := Kv_buffer (buffer_start to_read) (buffer_end to_read) key t n v in
              if qcbor_finish b (taken d) then Ok (np_data_ok, set_end to_read (Some (buffer_start to_read + cursor d)))
              else Ok (np_invalid_structure, to_read)
          end
      end
  end.

(** ** Sizes *)

Definition CBOR_TWENTY_FOUR : Z := 24.

Definition size_extra (n : Z) : Z := if UINT8_MAX <? n then 2 else if CBOR_TWENTY_FOUR <? n then 1 else 0.
Definition number_extra (n : Z) : Z :=
  if UINT16_MAX <? n then 4 else if UINT8_MAX <? n then 2 else if CBOR_TWENTY_FOUR <? n then 1 else 0.

Definition np_serializer_calculate_object_size (kv_pair : np_kv_buffer) : result Z :=
  let key_size := strnlen (kv_key kv_pair) in
  let object_size := 1 + key_size + (if CBOR_TWENTY_FOUR <? key_size then 1 else 0) in
  match data_type kv_pair with
  | NP_DATA_TYPE_BIN | NP_DATA_TYPE_STR => Ok (u64 (object_size + size_extra (data_size kv_pair) + 1 + data_size kv_pair))
  | NP_DATA_TYPE_INT =>
      z ← as_integer (kv_data kv_pair);
      if z =? - 2 ^ 31 then Err Undefined
      else Ok (object_size + 4 + number_extra (if 0 <? z then z else - z))
  | NP_DATA_TYPE_UNSIGNED_INT => z ← as_unsigned (kv_data kv_pair); Ok (object_size + 4 + number_extra z)
  end.

(** ** The header *)

Definition DATABLOCK_OVERHEAD : Z := 21.

Definition np_skip_datablock_header : Z := DATABLOCK_OVERHEAD.

(** [AppendCBORHeadWithSize (.., z, 4)] *)
Definition head4 (z : Z) : cbor_value := if z <? 2 ^ 32 then H_u32 z else H_int z.

Definition header_items (block : np_datablock_header) (data_magic_no : Z) : list item :=
  items (C_array [] [C_item (Item [] (H_int data_magic_no)); C_item (Item [] (head4 (total_length block)));
                     C_item (Item [] (head4 (used_length block))); C_item (Item [] (head4 (object_count block)))]).

Definition np_serializer_write_datablock_header (mem : list Z) (block : np_datablock_header) (data_magic_no : Z)
    : result (np_data_return * np_datablock_header * list Z) :=
  let fresh := used_length block =? 0 in
  let block := if fresh then Datablock_header (total_length block) DATABLOCK_OVERHEAD (object_count block) else block in
  mem ← (if fresh then write_at mem 0 (replicate (Z.to_nat (total_length block)) 0) else Ok mem);
  let '(ok, b) := encode (header_items block data_magic_no) (total_length block) in
  mem ← write_at mem 0 b;
  Ok (if ok then np_data_ok else np_invalid_structure, block, mem).

(** An item of type INT64 that [QCBOR_Int64ToUInt32] converts. *)
Definition item_u32 (i : option item) : option Z :=
  match i with
  | Some (Item _ (H_int z)) | Some (Item _ (H_u32 z)) => if (0 <=? z) && (z <=? UINT32_MAX) then Some z else None
  | _ => None
  end.

(** What was read before a failure stays in [block]. *)
Definition np_serializer_read_datablock_header (mem : list Z) (block : np_datablock_header) (data_magic_no : Z)
    : np_data_return * np_datablock_header :=
  let b := bytes_at mem 0 (Some DATABLOCK_OVERHEAD) in
  let '(item, d) := VGetNext (Decoder (qcbor_decode b) 0 false 0) in
  match item with
  | Some (Item _ (H_array 4)) =>
      let '(item, d) := VGetNext d in
      if negb (bool_decide (item_u32 item = Some data_magic_no)) then (np_could_not_read_magicno, block)
      else
        let '(item, d) := VGetNext d in
        match item_u32 item with
        | None => (np_could_not_read_total_length, block)
        | Some total =>
            let '(item, d) := VGetNext d in
            match item_u32 item with
            | None => (np_could_not_read_used_length, Datablock_header total (used_length block) (object_count block))
            | Some used =>
                let '(item, d) := VGetNext d in
                match item_u32 item with
                | None => (np_could_not_read_object_count, Datablock_header total used (object_count block))
                | Some count =>
                    (if qcbor_finish b (taken d) then np_data_ok else np_invalid_structure, Datablock_header total used count)
                end
            end
        end
  | _ => (np_invalid_arguments, block)
  end.

(** [{._inner_blob = block}] *)
Definition no_header : np_datablock_header := Datablock_header 0 0 0.
Definition no_object (start : Z) : np_kv_buffer := Kv_buffer start None [] NP_DATA_TYPE_BIN 0 (U_num 0).

(** ** Searching *)

Definition same_key (kv_pair : np_kv_buffer) (key : list Z) : bool :=
  strncmp_eq (kv_key kv_pair) key (strnlen key) && (strnlen (kv_key kv_pair) =? strnlen key).

(** The loop: an object that cannot be read does not move it on.  Each object takes
    at least a byte, so [fuel] is the length of the memory. *)
Fixpoint search_loop (fuel : nat) (mem : list Z) (block : np_datablock_header) (key : list Z) (kv_pair : np_kv_buffer)
    (objects_read : Z) : result (np_data_return * np_kv_buffer) :=
  if objects_read <? object_count block then
    match fuel with
    | O => Err Diverges
    | S fuel =>
        '(r, kv_pair) ← np_serializer_read_object mem kv_pair;
        if bool_decide (r = np_data_ok) then
          if same_key kv_pair key then Ok (np_data_ok, kv_pair)
          else search_loop fuel mem block key
                 (set_region kv_pair (default 0 (buffer_end kv_pair)) (Some (used_length block))) (u16 (objects_read + 1))
        else Err Diverges
    end
  else Ok (np_key_not_found, kv_pair).

Definition np_serializer_search_object (mem : list Z) (block : np_datablock_header) (key : list Z) (kv_pair : np_kv_buffer)
    (data_magic_no : Z) : result (np_data_return * np_datablock_header * np_kv_buffer) :=
  let block := (np_serializer_read_datablock_header mem block data_magic_no).2 in
  '(r, kv_pair) ← search_loop (S (length mem)) mem block key
                    (set_region kv_pair np_skip_datablock_header (Some (used_length block))) 0;
  Ok (r, block, kv_pair).

(** ** The operations: [neuropil_data.c] *)

Definition np_init_datablock (mem : list Z) (block_length : Z) : result (np_data_return * list Z) :=
  '(ret, _, mem) ← np_serializer_write_datablock_header mem (Datablock_header block_length 0 0) NP_DATA_MAGIC_NO;
  Ok (ret, mem).

(** The configuration and the value of an object. *)
Definition __convert_kv_to_conf (src : np_kv_buffer) : result (np_data_conf * np_data_value) :=
  key ← copy_key (kv_key src);
  value ← match data_type src with
          | NP_DATA_TYPE_BIN | NP_DATA_TYPE_STR => p ← as_ptr (kv_data src); Ok (U_ptr p)
          | NP_DATA_TYPE_INT | NP_DATA_TYPE_UNSIGNED_INT => b ← as_unsigned (kv_data src); Ok (U_num b)
          end;
  Ok (Data_conf key (data_type src) (data_size src), value).

(** The callback gets and changes its own state. *)
Fixpoint iterate_loop {U} (fuel : nat) (mem : list Z) (db_header : np_datablock_header)
    (callback : np_data_conf -> np_data_value -> U -> result (bool * U)) (userdata : U)
    (ret : np_data_return) (container : np_kv_buffer) (byte_count object_count_ : Z) : result (np_data_return * U) :=
  if object_count_ <? object_count db_header then
    match fuel with
    | O => Err Diverges
    | S fuel =>
        '(ret, container) ← np_serializer_read_object mem container;
        if bool_decide (ret = np_data_ok) then
          '(data_conf, data_value) ← __convert_kv_to_conf container;
          '(go_on, userdata) ← callback data_conf data_value userdata;
          if negb go_on then Ok (np_invalid_arguments, userdata)
          else
            let buffer_end := default 0 (buffer_end container) in
            let byte_count := u64 (byte_count + (buffer_end - buffer_start container)) in
            iterate_loop fuel mem db_header callback userdata ret
              (set_region container buffer_end (Some (buffer_end + u64 (used_length db_header - byte_count))))
              byte_count (u16 (object_count_ + 1))
        else Ok (np_invalid_structure, userdata)
    end
  else Ok (ret, userdata).

Definition np_iterate_data {U} (mem : list Z) (callback : np_data_conf -> np_data_value -> U -> result (bool * U))
    (userdata : U) : result (np_data_return * U) :=
  let '(ret, db_header) := np_serializer_read_datablock_header mem no_header NP_DATA_MAGIC_NO in
  if bool_decide (ret = np_data_ok) then
    iterate_loop (S (length mem)) mem db_header callback userdata ret (no_object np_skip_datablock_header) 0 0
  else Ok (ret, userdata).

Fixpoint map_loop {U} (fuel : nat) (mem : list Z) (db_header : np_datablock_header)
    (map_ : np_data_conf -> np_data_value -> U -> result (bool * U)) (map : U)
    (ret : np_data_return) (container : np_kv_buffer) (object_count_ : Z) : result (np_data_return * U) :=
  if object_count_ <? object_count db_header then
    match fuel with
    | O => Err Diverges
    | S fuel =>
        '(ret, container) ← np_serializer_read_object mem container;
        if bool_decide (ret = np_data_ok) then
          '(conf, value) ← __convert_kv_to_conf container;
          '(go_on, map) ← map_ conf value map;
          if negb go_on then Ok (np_invalid_arguments, map)
          else
            map_loop fuel mem db_header map_ map ret
              (set_region container (default 0 (buffer_end container)) (buffer_end container)) (u16 (object_count_ + 1))
        else Ok (ret, map)
    end
  else Ok (ret, map).

(** The header is never read: [ret] is what it was initialised with. *)
Definition _np_iterate_data_mapreduce {U} (mem : list Z) (map_ : np_data_conf -> np_data_value -> U -> result (bool * U))
    (map : U) : result (np_data_return * U) :=
  let ret := np_could_not_read_object in
  let db_header := no_header in
  if bool_decide (ret = np_data_ok) then
    map_loop (S (length mem)) mem db_header map_ map ret (no_object np_skip_datablock_header) 0
  else Ok (ret, map).

(** Room is made where the old object was: what follows it is moved. *)
Definition move_rest (mem : list Z) (db_header : np_datablock_header) (old_container : np_kv_buffer)
    (new_object_size old_object_size : Z) : result (list Z * Z * Z) :=
  if 0 <? old_object_size then
    let old_end := default 0 (buffer_end old_container) in
    let move_delta := s32 (new_object_size - old_object_size) in
    let old_container_offset := u32 old_end in
    mem ← memmove mem (old_end + move_delta) old_end (u64 (used_length db_header - old_container_offset));
    Ok (mem, buffer_start old_container, u32 (object_count db_header - 1))
  else Ok (mem, used_length db_header, object_count db_header).

(** The object is written, then the header; there is always something to write. *)
Definition add_object (mem : list Z) (db_header : np_datablock_header) (new_container : np_kv_buffer)
    (start count new_object_size old_object_size : Z) : result (np_data_return * list Z) :=
  '(ret, new_container, mem) ← np_serializer_write_object mem (set_region new_container start (Some (start + new_object_size)));
  c_assert (new_object_size =? default 0 (buffer_end new_container) - start);;
  let count := u32 (count + 1) in
  if bool_decide (ret = np_data_ok) then
    let used := u64 (used_length db_header + new_object_size - old_object_size) in
    '(ret, _, mem) ← np_serializer_write_datablock_header mem (Datablock_header (total_length db_header) used count) NP_DATA_MAGIC_NO;
    Ok (ret, mem)
  else Ok (ret, mem).

Definition np_set_data (mem : list Z) (data_conf : np_data_conf) (data : np_data_value) : result (np_data_return * list Z) :=
  let '(ret, db_header) := np_serializer_read_datablock_header mem no_header NP_DATA_MAGIC_NO in
  if bool_decide (ret = np_data_ok) then
    '(ret, db_header, old_container) ←
      np_serializer_search_object mem db_header (conf_key data_conf) (no_object 0) NP_DATA_MAGIC_NO;
    old_object_size ← (if bool_decide (ret = np_data_ok) then np_serializer_calculate_object_size old_container else Ok 0);
    key ← copy_key (conf_key data_conf);
    let new_container := Kv_buffer (used_length db_header) None key (conf_type data_conf) (conf_data_size data_conf) data in
    new_object_size ← np_serializer_calculate_object_size new_container;
    let available_space := u64 (u64 (total_length db_header - used_length db_header) + old_object_size) in
    if available_space <? new_object_size then Ok (np_insufficient_memory, mem)
    else
      '(mem, start, count) ← move_rest mem db_header old_container new_object_size old_object_size;
      add_object mem db_header new_container start count new_object_size old_object_size
  else Ok (ret, mem).

(** The object found, or nothing in the output arguments. *)
Definition np_get_data (mem : list Z) (key : list Z) : result (np_data_return * option (np_data_conf * np_data_value)) :=
  '(ret, _, old_container) ← np_serializer_search_object mem no_header key (no_object 0) NP_DATA_MAGIC_NO;
  if bool_decide (ret = np_data_ok) then o ← __convert_kv_to_conf old_container; Ok (ret, Some o) else Ok (ret, None).

Definition np_get_data_size (mem : list Z) : np_data_return * Z :=
  let '(ret, db_header) := np_serializer_read_datablock_header mem no_header NP_DATA_MAGIC_NO in
  (ret, if bool_decide (ret = np_data_ok) then used_length db_header else 0).

Definition np_get_object_count (mem : list Z) : np_data_return * Z :=
  let '(ret, db_header) := np_serializer_read_datablock_header mem no_header NP_DATA_MAGIC_NO in
  (ret, if bool_decide (ret = np_data_ok) then object_count db_header else 0).

Fixpoint merge_loop (fuel : nat) (dest src : list Z) (db_header : np_datablock_header) (ret : np_data_return)
    (kv_pair : np_kv_buffer) (objects_read : Z) : result (np_data_return * list Z) :=
  if objects_read <? object_count db_header then
    match fuel with
    | O => Err Diverges
    | S fuel =>
        '(r, kv_pair) ← np_serializer_read_object src kv_pair;
        if bool_decide (r = np_data_ok) then
          '(data_cfg, data_val) ← __convert_kv_to_conf kv_pair;
          '(ret, dest) ← np_set_data dest data_cfg data_val;
          if bool_decide (ret = np_data_ok) then
            merge_loop fuel dest src db_header ret
              (set_region kv_pair (default 0 (buffer_end kv_pair)) (Some (used_length db_header))) (u16 (objects_read + 1))
          else Ok (ret, dest)
        else Ok (np_invalid_structure, dest)
    end
  else Ok (ret, dest).

Definition np_merge_data (dest : list Z) (src : option (list Z)) : result (np_data_return * list Z) :=
  match src with
  | None => Ok (np_could_not_read_object, dest)
  | Some src =>
      let '(ret, db_header) := np_serializer_read_datablock_header src no_header NP_DATA_MAGIC_NO in
      if bool_decide (ret = np_data_ok) then
        merge_loop (S (length src)) dest src db_header ret
          (set_region (no_object 0) np_skip_datablock_header (Some (used_length db_header))) 0
      else Ok (ret, dest)
  end.

End Blocks.

#[local] Existing Instance rfc8949.
Definition no_leaves : list item -> Z -> list Z := fun _ n => replicate (Z.to_nat n) 0.

(** A block of 64 bytes: two values set, one of them again, and read. *)
Definition example_block : result (list Z) :=
  '(_, b) ← np_init_datablock no_leaves (replicate 64 7) 64;
  '(_, b) ← np_set_data no_leaves b (Data_conf [97] NP_DATA_TYPE_INT 4) (U_num 100000);
  '(_, b) ← np_set_data no_leaves b (Data_conf [98; 99] NP_DATA_TYPE_STR 3) (U_ptr [120; 121; 122]);
  '(_, b) ← np_set_data no_leaves b (Data_conf [97] NP_DATA_TYPE_BIN 1) (U_ptr [9]);
  Ok b.
Example get_first : (b ← example_block; np_get_data b [97]) = Ok (np_data_ok, Some (Data_conf [97] NP_DATA_TYPE_BIN 1, U_ptr [9])).
Proof. vm_compute. reflexivity. Qed.
Example get_second : (b ← example_block; np_get_data b [98; 99]) = Ok (np_data_ok, Some (Data_conf [98; 99] NP_DATA_TYPE_STR 3, U_ptr [120; 121; 122])).
Proof. vm_compute. reflexivity. Qed.
Example size_of_it : (np_get_data_size <$> example_block) = Ok (np_data_ok, 32).
Proof. vm_compute. reflexivity. Qed.
