(* ===== verification/DatablockSpec.v ===== *)
(** * Data blocks: what a block holds

    A block denotes a list of pairs of a key and a value in the order of its
    objects.  Predicate [is_block] ties the bytes to that list; the lemmas below
    step through reading, searching and writing on blocks of which it holds. *)
From Stdlib Require Import ZArith Lia.
From stdpp Require Import prelude.
From S2P Require Import Prelude Treeval Qcbor Serial SerialThms Datablock.

Local Open Scope Z_scope.

(** ** Values and keys *)

Inductive dval := D_bin (b : list Z) | D_int (z : Z) | D_uint (z : Z) | D_str (s : list Z).
#[export] Instance dval_eq_dec : EqDecision dval.
Proof. solve_decision. Defined.

Definition dval_type (v : dval) : np_data_type :=
  match v with
  | D_bin _ => NP_DATA_TYPE_BIN | D_int _ => NP_DATA_TYPE_INT | D_uint _ => NP_DATA_TYPE_UNSIGNED_INT | D_str _ => NP_DATA_TYPE_STR
  end.
Definition dval_size (v : dval) : Z := match v with D_bin b | D_str b => Z.of_nat (length b) | D_int _ | D_uint _ => 4 end.
Definition dval_union (v : dval) : np_data_value := match v with D_bin b | D_str b => U_ptr b | D_int z => U_num (u32 z) | D_uint z => U_num z end.

(** What a reader gets. *)
Definition dval_conf (k : list Z) (v : dval) : np_data_conf := Data_conf k (dval_type v) (dval_size v).

(** What a configuration and a union given by a caller mean: the size of a number is
    not looked at, a pointer may lead to more bytes than the size says. *)
Definition denotes (c : np_data_conf) (d : np_data_value) (k : list Z) (v : dval) : Prop :=
  strn (conf_key c) = k /\ conf_type c = dval_type v /\
  match v, d with
  | D_bin b, U_ptr p | D_str b, U_ptr p => conf_data_size c = Z.of_nat (length b) /\ take (length b) p = b
  | D_int z, U_num n => s32 n = z
  | D_uint z, U_num n => u32 n = z
  | _, _ => False
  end.

(** In the range of their types, and of the sizes the computation knows: a key of at
    most 254 characters, bytes and texts below 2^16 bytes, numbers of 32 bits.  The
    smallest of them, -2^31, is left out: its size computation negates it in an
    [int32_t], which is undefined. *)
Definition key_range (k : list Z) : Prop := Forall (fun c => 1 <= c < 256) k /\ (length k < 255)%nat.
Definition dval_range (v : dval) : Prop :=
  match v with
  | D_bin b | D_str b => Forall (in_u 8) b /\ Z.of_nat (length b) < 2 ^ 16
  | D_int z => - 2 ^ 31 < z < 2 ^ 31
  | D_uint z => in_u 32 z
  end.

(** How many bytes the computed size of a key or a value is too large, or too small
    when it is negative. *)
Definition key_excess (k : list Z) : Z := if decide (length k = 24%nat) then -1 else 0.
Definition dval_excess (v : dval) : Z :=
  match v with
  | D_bin b | D_str b => if decide (length b = 24%nat) then -1 else 0
  | D_int z => if decide (z = 24) then -1 else if decide (z = - 2 ^ 8) then 1 else if decide (z = - 2 ^ 16) then 2 else 0
  | D_uint z => if decide (z = 24) then -1 else 0
  end.

Definition key_ok (k : list Z) : Prop := key_range k /\ key_excess k = 0.
Definition dval_ok (v : dval) : Prop := dval_range v /\ dval_excess v = 0.

Abbreviation obj := (list Z * dval)%type.

Definition dval_item (v : dval) : item :=
  match v with
  | D_bin b => Item [] (H_bytes b)
  | D_str b => Item [] (H_text b)
  | D_int z => Item [np_tag np_treeval_type_long] (H_int z)
  | D_uint z => Item [np_tag np_treeval_type_unsigned_long] (H_int z)
  end.
Definition obj_items (o : obj) : list item := [Item [] (H_text o.1); dval_item o.2].
Definition obj_size (o : obj) : Z := zsum (map item_length (obj_items o)).
Definition objs_size (l : list obj) : Z := zsum (map obj_size l).

(** The pairs a block can hold: those in range whose size
    np_serializer_calculate_object_size gets right.  It does not for a key or a value
    of 24 bytes, the number 24, -256 and -65536; what setting those does is
    [number_24_is_refused], [number_24_breaks_block], [length_24_is_refused] and
    [minus_256_asserts] of DatablockThms. *)
Definition obj_ok (o : obj) : Prop := key_ok o.1 /\ dval_ok o.2.

(** The value of a key is changed where it is, a new one goes to the end. *)
Fixpoint put_obj (k : list Z) (v : dval) (l : list obj) : list obj :=
  match l with
  | [] => [(k, v)]
  | o :: l => if decide (o.1 = k) then (k, v) :: l else o :: put_obj k v l
  end.
Fixpoint get_obj (k : list Z) (l : list obj) : option dval :=
  match l with [] => None | o :: l => if decide (o.1 = k) then Some o.2 else get_obj k l end.

Lemma get_put k v k' l : get_obj k' (put_obj k v l) = if decide (k' = k) then Some v else get_obj k' l.
Proof.
  induction l as [|[k0 v0] l IH]; cbn.
  - by repeat case_decide; simplify_eq.
  - destruct (decide (k0 = k)) as [->|]; cbn; [by repeat case_decide; simplify_eq|].
    rewrite IH. by repeat case_decide; simplify_eq.
Qed.

(** ** Lengths *)

Lemma until_nul_take n s : Forall (fun c => 1 <= c < 256) s -> until_nul (take n s) = take n s.
Proof. intros Hs. apply until_nul_text. by apply Forall_take. Qed.

Lemma strn_key k : key_range k -> strn k = k.
Proof. intros [Hk Hl]. unfold strn. rewrite take_ge by lia. by apply until_nul_text. Qed.

Lemma strn_range k : Forall (in_u 8) k -> Forall (fun c => 1 <= c < 256) (strn k).
Proof.
  unfold strn. intros Hk. apply (Forall_take _ 255%nat) in Hk. induction Hk as [|c s Hc _ IH]; [constructor|]. cbn.
  destruct (Z.eqb_spec c 0); constructor; [unfold in_u in Hc; change (2 ^ 8) with 256 in Hc; lia|done].
Qed.

Lemma copy_key_ok k : key_range k -> copy_key k = Ok k.
Proof.
  intros Hk. unfold copy_key, strnlen. rewrite strn_key by done. destruct Hk as [_ Hl].
  by destruct (Z.ltb_spec (Z.of_nat (length k)) 255); [|lia].
Qed.

Ltac tests := repeat match goal with
  | |- context [?a <? ?b] => destruct (Z.ltb_spec a b)
  | |- context [?a <=? ?b] => destruct (Z.leb_spec a b)
  | |- context [decide (?a = ?b)] => destruct (decide (a = b))
  end.

Lemma np_tag_length ty : 0 <= ty < 30 -> head_length (np_tag ty) = 3.
Proof. intros H. unfold np_tag, NP_CBOR_REGISTRY_ENTRIES, head_length. tests; lia. Qed.

Lemma key_size_excess k : key_range k ->
  1 + Z.of_nat (length k) + (if CBOR_TWENTY_FOUR <? Z.of_nat (length k) then 1 else 0) =
  item_length (Item [] (H_text k)) + key_excess k.
Proof.
  intros [_ Hl]. unfold item_length, key_excess, CBOR_TWENTY_FOUR. cbn [uTags uVal value_length map zsum foldr].
  unfold head_length, zsum. cbn [foldr]. tests; lia.
Qed.

Lemma bytes_size_excess n : 0 <= n < 2 ^ 16 ->
  size_extra n + 1 + n = head_length n + n + (if decide (n = 24) then -1 else 0).
Proof. intros Hn. unfold size_extra, head_length, CBOR_TWENTY_FOUR, UINT8_MAX. tests; lia. Qed.

Lemma item_length_dval v : item_length (dval_item v) =
  match v with
  | D_bin b | D_str b => head_length (Z.of_nat (length b)) + Z.of_nat (length b)
  | D_int z => 3 + head_length (if 0 <=? z then z else -1 - z)
  | D_uint z => 3 + head_length (if 0 <=? z then z else -1 - z)
  end.
Proof. by destruct v. Qed.

Lemma obj_size_eq o : obj_size o = item_length (Item [] (H_text o.1)) + item_length (dval_item o.2).
Proof. unfold obj_size, obj_items, zsum. cbn [map foldr]. lia. Qed.

Lemma item_length_pos i : value_ok (uVal i) -> 1 <= item_length i.
Proof.
  assert (forall n, 1 <= head_length n) as Hh by (intros n; unfold head_length; tests; lia).
  intros Hi. unfold item_length. assert (0 <= zsum (map head_length (uTags i))) as Ht.
  { induction (uTags i) as [|t ts IH]; [done|]. cbn [map zsum foldr]. specialize (Hh t). unfold zsum in IH. lia. }
  destruct (uVal i) as [z|z|s|s|b|b|n|n| |b|]; cbn [value_length]; try lia; try done;
    match goal with |- context [head_length ?n] => specialize (Hh n) end; lia.
Qed.

Lemma key_item_ok k : key_range k -> item_ok (Item [] (H_text k)).
Proof.
  intros [Hk Hl]. split; [constructor|]. split; [|lia]. eapply Forall_impl; [exact Hk|].
  intros c Hc. cbn beta in Hc. unfold in_u. lia.
Qed.

Lemma dval_item_ok v : dval_range v -> item_ok (dval_item v).
Proof.
  destruct v as [b|z|z|b]; cbn -[np_tag]; intros Hv; (split; [try apply tag_ok; try constructor|]); cbn; try apply Hv.
  all: unfold np_treeval_type_long, np_treeval_type_unsigned_long; unfold in_u in *; try lia.
  - split; [apply Hv|lia].
  - split; [apply Hv|lia].
Qed.

Lemma obj_items_ok o : key_range o.1 -> dval_range o.2 -> Forall item_ok (obj_items o).
Proof. intros Hk Hv. constructor; [by apply key_item_ok|]. constructor; [by apply dval_item_ok|constructor]. Qed.

Lemma obj_size_pos o : key_range o.1 -> dval_range o.2 -> 2 <= obj_size o.
Proof.
  intros Hk Hv. rewrite obj_size_eq. pose proof (item_length_pos _ (proj2 (key_item_ok _ Hk))).
  pose proof (item_length_pos _ (proj2 (dval_item_ok _ Hv))). lia.
Qed.

Lemma objs_size_app a b : objs_size (a ++ b) = objs_size a + objs_size b.
Proof. unfold objs_size. by rewrite map_app, zsum_app. Qed.

Lemma objs_size_cons o l : objs_size (o :: l) = obj_size o + objs_size l.
Proof. done. Qed.

Lemma objs_size_ge l : Forall obj_ok l -> 2 * Z.of_nat (length l) <= objs_size l.
Proof.
  induction 1 as [|o l [[Hk _] [Hv _]] _ IH]; [done|]. rewrite objs_size_cons. pose proof (obj_size_pos o Hk Hv). cbn [length]. lia.
Qed.

(** ** Memory *)

Lemma bytes_at_middle pre b post start len :
  start = Z.of_nat (length pre) -> match len with Some n => Z.of_nat (length b) <= n | None => True end ->
  exists extra, bytes_at (pre ++ b ++ post) start len = b ++ extra.
Proof.
  intros -> Hl. unfold bytes_at. rewrite Nat2Z.id, drop_app_length. destruct len as [n|]; [|by exists post].
  exists (take (Z.to_nat n - length b) post). rewrite take_app. f_equal. apply take_ge. lia.
Qed.

Lemma bytes_at_exact pre b post start : start = Z.of_nat (length pre) ->
  bytes_at (pre ++ b ++ post) start (Some (Z.of_nat (length b))) = b.
Proof. intros ->. unfold bytes_at. by rewrite !Nat2Z.id, drop_app_length, take_app_length. Qed.

Lemma write_at_middle pre old post new start : start = Z.of_nat (length pre) -> length new = length old ->
  write_at (pre ++ old ++ post) start new = Ok (pre ++ new ++ post).
Proof.
  intros -> Hl. unfold write_at. rewrite !length_app.
  destruct (Z.leb_spec 0 (Z.of_nat (length pre))); [|lia].
  destruct (Z.leb_spec (Z.of_nat (length pre) + Z.of_nat (length new)) (Z.of_nat (length pre + (length old + length post)))); [|lia].
  cbn [andb]. rewrite Nat2Z.id, take_app_length. rewrite (app_assoc pre old post).
  replace (length pre + length new)%nat with (length (pre ++ old)) by (rewrite length_app; lia).
  by rewrite drop_app_length.
Qed.

Lemma until_nul_take_comm n s : until_nul (take n s) = take n (until_nul s).
Proof.
  revert n. induction s as [|c s IH]; intros [|n]; try done. cbn. destruct (c =? 0); [done|]. cbn. by rewrite IH.
Qed.

Lemma same_key_spec kv k key : key_range k -> kv_key kv = k -> same_key kv key = bool_decide (k = strn key).
Proof.
  intros Hk E. unfold same_key. rewrite E. unfold strnlen. rewrite (strn_key k Hk). unfold strncmp_eq.
  rewrite (until_nul_text k) by apply Hk. rewrite Nat2Z.id. unfold strn. rewrite until_nul_take_comm.
  set (u := until_nul key). rewrite length_take.
  assert (take (255 `min` length u) u = take 255 u) as ->.
  { destruct (Nat.min_spec 255 (length u)) as [[? ->]|[? ->]]; [done|]. by rewrite !take_ge by lia. }
  destruct (bool_decide_reflect (k = take 255 u)) as [->|Hne].
  - rewrite take_ge by (rewrite length_take; lia). rewrite bool_decide_eq_true_2 by done. rewrite length_take. by rewrite Z.eqb_refl.
  - destruct (Z.eqb_spec (Z.of_nat (length k)) (Z.of_nat (255 `min` length u))) as [El|]; [|by rewrite andb_false_r].
    apply Nat2Z.inj in El. rewrite take_ge by lia. by rewrite bool_decide_eq_false_2.
Qed.

(** Where the object of a key is, if there is one. *)
Lemma find_key (k : list Z) (l : list obj) :
  (Forall (fun o => o.1 ≠ k) l /\ get_obj k l = None /\ forall v, put_obj k v l = l ++ [(k, v)]) \/
  (exists a v0 b, l = a ++ (k, v0) :: b /\ Forall (fun o => o.1 ≠ k) a /\ get_obj k l = Some v0 /\
     forall v, put_obj k v l = a ++ (k, v) :: b).
Proof.
  induction l as [|[k0 v0] l IH]; [by left|]. cbn. destruct (decide (k0 = k)) as [->|Hne].
  { right. exists [], v0, l. by repeat constructor. }
  destruct IH as [(H1 & H2 & H3)|(a & v1 & b & -> & H2 & H3 & H4)].
  - left. split; [by constructor|]. split; [done|]. intros v. by rewrite H3.
  - right. exists ((k0, v0) :: a), v1, b. split; [done|]. split; [by constructor|]. split; [done|]. intros v. by rewrite H4.
Qed.

Lemma dval_read_back v kv : dval_range v ->
  read_value (decoded (dval_item v)) kv = Some (dval_type v, dval_size v, Ok (dval_union v)).
Proof.
  destruct v as [b|z|z|b]; intros Hv; try done; unfold read_value, decoded, dval_item; cbn [uVal uTags]; unfold read_integer, tag_at; cbn [uTags nth].
  - cbn in Hv. destruct (Z.leb_spec (2 ^ 63) z); [lia|]. tag_tests.
    destruct (Z.leb_spec (- 2 ^ 31) z), (Z.leb_spec z (2 ^ 31 - 1)); try lia. done.
  - cbn in Hv. unfold in_u in Hv. destruct (Z.leb_spec (2 ^ 63) z); [lia|]. tag_tests. unfold UINT32_MAX.
    destruct (Z.leb_spec 0 z), (Z.leb_spec z 4294967295); try lia. done.
Qed.

(** ** Reading a block *)

(** The decoder takes arrays of at least the four items of the header. *)
Class Block_limits `{Qcbor} : Prop := {
  deep_enough : (1 <= QCBOR_MAX_ARRAY_NESTING)%nat;
  wide_enough : (4 <= QCBOR_MAX_ITEMS_IN_ARRAY)%nat;
}.

Section Reading.
Context `{Qcbor}.

Definition obj_bytes (o : obj) : list Z := flat_map qcbor_put (obj_items o).
Definition objs_bytes (l : list obj) : list Z := flat_map obj_bytes l.
Definition header_of (total : Z) (l : list obj) : np_datablock_header :=
  Datablock_header total (DATABLOCK_OVERHEAD + objs_size l) (Z.of_nat (length l)).
Definition header_bytes (h : np_datablock_header) : list Z := flat_map qcbor_put (header_items h NP_DATA_MAGIC_NO).

(** The bytes of a block of [total] bytes with the objects [l], followed by [beyond]. *)
Record is_block (total : Z) (l : list obj) (beyond mem : list Z) : Prop := {
  block_objs : Forall obj_ok l;
  block_keys : NoDup (map fst l);
  block_total : total <= 2 ^ 17;
  block_bytes : exists slack, mem = header_bytes (header_of total l) ++ objs_bytes l ++ slack ++ beyond /\
    DATABLOCK_OVERHEAD + objs_size l + Z.of_nat (length slack) = total;
}.

Lemma obj_bytes_length o : key_range o.1 -> dval_range o.2 -> Z.of_nat (length (obj_bytes o)) = obj_size o.
Proof. intros Hk Hv. apply bytes_length. by apply obj_items_ok. Qed.

Lemma objs_bytes_length l : Forall obj_ok l -> Z.of_nat (length (objs_bytes l)) = objs_size l.
Proof.
  induction 1 as [|o l [[Hk _] [Hv _]] _ IH]; [done|]. rewrite objs_size_cons. cbn [objs_bytes flat_map].
  rewrite length_app, Nat2Z.inj_add, obj_bytes_length by done. unfold objs_bytes in IH. lia.
Qed.

Lemma objs_bytes_app a b : objs_bytes (a ++ b) = objs_bytes a ++ objs_bytes b.
Proof. unfold objs_bytes. by rewrite flat_map_app. Qed.

Lemma block_count total l beyond mem : is_block total l beyond mem -> Z.of_nat (length l) < 2 ^ 16 /\ objs_size l < 2 ^ 17.
Proof.
  intros [Ho _ Ht (slack & _ & Hs)]. pose proof (objs_size_ge l Ho). unfold DATABLOCK_OVERHEAD in Hs. lia.
Qed.

(** A header in the range of its four numbers. *)
Definition header_range (h : np_datablock_header) : Prop :=
  in_u 32 (total_length h) /\ in_u 32 (used_length h) /\ in_u 32 (object_count h).

Lemma header_items_eq h : header_range h ->
  header_items h NP_DATA_MAGIC_NO =
  [Item [] (H_array 4); Item [] (H_int NP_DATA_MAGIC_NO); Item [] (H_u32 (total_length h)); Item [] (H_u32 (used_length h));
   Item [] (H_u32 (object_count h))].
Proof.
  intros (H1 & H2 & H3). unfold header_items, head4. unfold in_u in *.
  by destruct (Z.ltb_spec (total_length h) (2 ^ 32)), (Z.ltb_spec (used_length h) (2 ^ 32)), (Z.ltb_spec (object_count h) (2 ^ 32)); try lia.
Qed.

Lemma header_items_ok h : header_range h -> Forall item_ok (header_items h NP_DATA_MAGIC_NO).
Proof.
  intros Hh. rewrite header_items_eq by done. destruct Hh as (H1 & H2 & H3).
  repeat constructor; cbn; unfold NP_DATA_MAGIC_NO; unfold in_u in *; lia.
Qed.

Lemma header_bytes_length h : header_range h -> Z.of_nat (length (header_bytes h)) = DATABLOCK_OVERHEAD.
Proof.
  intros Hh. unfold header_bytes. rewrite bytes_length by (by apply header_items_ok). by rewrite header_items_eq.
Qed.

Lemma block_header total l beyond mem : is_block total l beyond mem -> header_range (header_of total l).
Proof.
  intros Hb. destruct (block_count _ _ _ _ Hb). destruct Hb as [Ho _ Ht (slack & _ & Hs)].
  pose proof (objs_size_ge l Ho). unfold header_range, header_of, in_u. cbn. unfold DATABLOCK_OVERHEAD in *. lia.
Qed.

Context `{!Block_limits}.

Lemma header_decoded h : header_range h ->
  exists rest, qcbor_decode (header_bytes h) =
    [(Item [] (H_array 4), 1); (Item [] (H_int NP_DATA_MAGIC_NO), 6); (Item [] (H_int (total_length h)), 11);
     (Item [] (H_int (used_length h)), 16); (Item [] (H_int (object_count h)), 21)] ++ rest /\
    qcbor_finish (header_bytes h) 5 = true.
Proof.
  intros Hh. pose proof (header_items_ok h Hh) as Hok.
  assert (Forall (fun c => Forall item_ok (items c) /\ (nesting c <= QCBOR_MAX_ARRAY_NESTING)%nat /\ (widest c <= QCBOR_MAX_ITEMS_IN_ARRAY)%nat)
    [C_array [] [C_item (Item [] (H_int NP_DATA_MAGIC_NO)); C_item (Item [] (head4 (total_length h)));
                     C_item (Item [] (head4 (used_length h))); C_item (Item [] (head4 (object_count h)))]]) as Hc.
  { constructor; [|constructor]. split; [exact Hok|]. pose proof deep_enough. pose proof wide_enough. cbn. lia. }
  destruct (decode_put _ [] Hc) as [rest Hd]. pose proof (finish_put _ [] Hc) as Hf. cbn zeta in Hd, Hf.
  cbn [flat_map] in Hd, Hf. rewrite !app_nil_r in Hd, Hf. change (items _) with (header_items h NP_DATA_MAGIC_NO) in Hd, Hf.
  exists rest. unfold header_bytes. rewrite Hd. rewrite header_items_eq in * by done. split; [reflexivity|exact Hf].
Qed.

Lemma item_u32_int z : in_u 32 z -> item_u32 (Some (Item [] (H_int z))) = Some z.
Proof.
  unfold in_u, item_u32, UINT32_MAX. intros Hz. destruct (Z.leb_spec 0 z), (Z.leb_spec z 4294967295); try lia. done.
Qed.

Lemma read_header_ok h h0 mem rest : header_range h -> mem = header_bytes h ++ rest ->
  np_serializer_read_datablock_header mem h0 NP_DATA_MAGIC_NO = (np_data_ok, h).
Proof.
  intros Hh ->. unfold np_serializer_read_datablock_header.
  rewrite <-(header_bytes_length h Hh).
  pose proof (bytes_at_exact [] (header_bytes h) rest 0 eq_refl) as E. cbn [app] in E. rewrite E.
  destruct (header_decoded h Hh) as (r & -> & Hf). destruct Hh as (H1 & H2 & H3).
  cbn [VGetNext app uLastError its taken]. rewrite item_u32_int by (unfold in_u, NP_DATA_MAGIC_NO; lia).
  rewrite bool_decide_eq_true_2 by done. cbn [negb]. rewrite !item_u32_int by done. rewrite Hf. by destruct h.
Qed.

Lemma block_read total l beyond mem h0 : is_block total l beyond mem ->
  np_serializer_read_datablock_header mem h0 NP_DATA_MAGIC_NO = (np_data_ok, header_of total l).
Proof.
  intros Hb. pose proof (block_header _ _ _ _ Hb). destruct Hb as [_ _ _ (slack & -> & _)]. by eapply read_header_ok.
Qed.

(** ** One object *)

(** The buffer after object [o] was read at [start]. *)
Definition kv_of (start : Z) (o : obj) : np_kv_buffer :=
  Kv_buffer start (Some (start + obj_size o)) o.1 (dval_type o.2) (dval_size o.2) (dval_union o.2).

Lemma obj_decoded o extra : key_range o.1 -> dval_range o.2 ->
  exists rest p, qcbor_decode (obj_bytes o ++ extra) =
    (Item [] (H_text o.1), p) :: (decoded (dval_item o.2), obj_size o) :: rest /\ qcbor_finish (obj_bytes o ++ extra) 2 = true.
Proof.
  intros Hk Hv. pose proof (obj_items_ok o Hk Hv) as Hok.
  assert (Forall (fun c => Forall item_ok (items c) /\ (nesting c <= QCBOR_MAX_ARRAY_NESTING)%nat /\ (widest c <= QCBOR_MAX_ITEMS_IN_ARRAY)%nat)
    (map C_item (obj_items o))) as Hc.
  { unfold obj_items in *. inversion Hok as [|? ? H1 H2]; subst. inversion H2 as [|? ? H3 _]; subst.
    assert (forall i, item_ok i -> Forall item_ok (items (C_item i)) /\ (nesting (C_item i) <= QCBOR_MAX_ARRAY_NESTING)%nat /\
      (widest (C_item i) <= QCBOR_MAX_ITEMS_IN_ARRAY)%nat) as Hi.
    { intros i Hi. split; [by constructor|cbn; lia]. }
    constructor; [by apply Hi|]. constructor; [by apply Hi|constructor]. }
  destruct (decode_put _ extra Hc) as [rest Hd]. pose proof (finish_put _ extra Hc) as Hf. cbn zeta in Hd, Hf.
  change (flat_map items (map C_item (obj_items o))) with (obj_items o) in Hd, Hf.
  exists rest, (item_length (Item [] (H_text o.1))). unfold obj_bytes. rewrite Hd. split; [|exact Hf].
  cbn [obj_items map cursors zip zip_with app]. rewrite obj_size_eq. reflexivity.
Qed.

Lemma read_object_at mem o kv extra : key_range o.1 -> dval_range o.2 ->
  bytes_at mem (buffer_start kv) (buffer_length (buffer_start kv) (buffer_end kv)) = obj_bytes o ++ extra ->
  np_serializer_read_object mem kv = Ok (np_data_ok, kv_of (buffer_start kv) o).
Proof.
  intros Hk Hv Hb. unfold np_serializer_read_object. cbv zeta. rewrite Hb.
  destruct (obj_decoded o extra Hk Hv) as (rest & p & -> & Hf). cbn [VGetNext uLastError its taken cursor].
  unfold read_key. cbn [uVal]. destruct Hk as [Hk Hl]. destruct (Z.ltb_spec (Z.of_nat (length o.1)) 255); [|lia].
  rewrite until_nul_text by done. rewrite bind_ok. rewrite dval_read_back by done. rewrite bind_ok.
  by rewrite Hf.
Qed.

(** The object at its place among the others, with the end of the objects as the end. *)
Lemma read_object_in mem pre o post kv :
  key_range o.1 -> dval_range o.2 -> mem = pre ++ obj_bytes o ++ post -> buffer_start kv = Z.of_nat (length pre) ->
  match buffer_end kv with Some e => buffer_start kv + obj_size o <= e | None => True end ->
  np_serializer_read_object mem kv = Ok (np_data_ok, kv_of (buffer_start kv) o).
Proof.
  intros Hk Hv -> Hs He. pose proof (obj_size_pos o Hk Hv).
  destruct (bytes_at_middle pre (obj_bytes o) post (buffer_start kv) (buffer_length (buffer_start kv) (buffer_end kv))) as [extra E]; [done| |].
  - rewrite obj_bytes_length by done. unfold buffer_length. destruct (buffer_end kv) as [e|]; [|done].
    destruct (Z.leb_spec (buffer_start kv) e); [lia|done].
  - by eapply read_object_at.
Qed.

(** ** Searching *)

(** The loop passes objects with other keys. *)
Lemma search_skip a : forall fuel mem pre rest post block key kv n,
  mem = pre ++ objs_bytes (a ++ rest) ++ post -> Forall obj_ok (a ++ rest) -> Forall (fun o => o.1 ≠ strn key) a ->
  buffer_start kv = Z.of_nat (length pre) -> buffer_end kv = Some (used_length block) ->
  used_length block = Z.of_nat (length pre) + objs_size (a ++ rest) ->
  object_count block = n + Z.of_nat (length (a ++ rest)) -> 0 <= n -> object_count block < 2 ^ 16 ->
  exists kv', search_loop (length a + fuel) mem block key kv n = search_loop fuel mem block key kv' (n + Z.of_nat (length a)) /\
    buffer_start kv' = Z.of_nat (length pre) + objs_size a /\ buffer_end kv' = Some (used_length block).
Proof.
  induction a as [|o a IH]; intros fuel mem pre rest post block key kv n -> Hok Hne Hs He Hu Hc Hn Hmax.
  { exists kv. split; [by rewrite Z.add_0_r|]. split; [by rewrite Hs, Z.add_0_r|done]. }
  cbn [app] in Hok. apply Forall_cons in Hok as [[[Hk Hkx] [Hv Hvx]] Hok]. apply Forall_cons in Hne as [Ho Hne].
  cbn [app] in *. rewrite objs_size_cons in Hu. cbn [length] in Hc. rewrite length_app in Hc.
  assert (0 <= objs_size (a ++ rest)) by (pose proof (objs_size_ge _ Hok); lia).
  cbn [length Nat.add search_loop]. destruct (Z.ltb_spec n (object_count block)); [|lia].
  assert (pre ++ objs_bytes (o :: a ++ rest) ++ post = (pre ++ obj_bytes o) ++ objs_bytes (a ++ rest) ++ post) as Em.
  { cbn [objs_bytes flat_map]. by rewrite <-!app_assoc. }
  rewrite Em.
  rewrite (read_object_in _ pre o (objs_bytes (a ++ rest) ++ post)); [|done|done|by rewrite <-app_assoc|done|rewrite He; lia].
  rewrite bind_ok, bool_decide_eq_true_2 by done.
  rewrite (same_key_spec _ o.1) by done. rewrite bool_decide_eq_false_2 by done.
  rewrite u16_id by (unfold in_u; lia).
  destruct (IH fuel ((pre ++ obj_bytes o) ++ objs_bytes (a ++ rest) ++ post) (pre ++ obj_bytes o) rest post block key
    (set_region (kv_of (buffer_start kv) o) (buffer_start kv + obj_size o) (Some (used_length block))) (n + 1)) as (kv' & E & E1 & E2);
    try done; try lia.
  - cbn [buffer_start set_region]. by rewrite length_app, Nat2Z.inj_add, obj_bytes_length, Hs.
  - rewrite length_app, Nat2Z.inj_add, obj_bytes_length by done. lia.
  - rewrite length_app. lia.
  - exists kv'. cbn [buffer_end kv_of default from_option id]. rewrite E. split; [f_equal; lia|]. split; [|done]. rewrite E1, objs_size_cons, length_app, Nat2Z.inj_add, obj_bytes_length by done. lia.
Qed.

Lemma search_absent total l beyond mem h0 key kv :
  is_block total l beyond mem -> Forall (fun o => o.1 ≠ strn key) l ->
  exists kv', np_serializer_search_object mem h0 key kv NP_DATA_MAGIC_NO = Ok (np_key_not_found, header_of total l, kv').
Proof.
  intros Hb Hne. unfold np_serializer_search_object. rewrite (block_read _ _ _ _ _ Hb). cbn [snd].
  pose proof (block_count _ _ _ _ Hb) as [Hc _]. pose proof (block_header _ _ _ _ Hb) as Hh.
  destruct Hb as [Ho _ Ht (slack & Hm & Hs)].
  assert (length l <= length mem)%nat as Hlen.
  { rewrite Hm, !length_app. pose proof (objs_bytes_length l Ho). pose proof (objs_size_ge l Ho). lia. }
  destruct (search_skip l (S (length mem) - length l) mem (header_bytes (header_of total l)) [] (slack ++ beyond)
    (header_of total l) key (set_region kv np_skip_datablock_header (Some (used_length (header_of total l)))) 0) as (kv' & E & _ & _);
    rewrite ?app_nil_r; try done.
  - cbn [set_region buffer_start]. by rewrite header_bytes_length.
  - by rewrite header_bytes_length.
  - replace (length l + (S (length mem) - length l))%nat with (S (length mem)) in E by lia.
    rewrite E. replace (S (length mem) - length l)%nat with (S (length mem - length l)) by lia. cbn [search_loop].
    rewrite Z.add_0_l. cbn [object_count header_of]. rewrite Z.ltb_irrefl. by exists kv'.
Qed.

Lemma search_present total a o b beyond mem h0 key kv :
  is_block total (a ++ o :: b) beyond mem -> Forall (fun o => o.1 ≠ strn key) a -> o.1 = strn key ->
  np_serializer_search_object mem h0 key kv NP_DATA_MAGIC_NO =
  Ok (np_data_ok, header_of total (a ++ o :: b), kv_of (DATABLOCK_OVERHEAD + objs_size a) o).
Proof.
  intros Hb Hne E0. unfold np_serializer_search_object. rewrite (block_read _ _ _ _ _ Hb). cbn [snd].
  pose proof (block_count _ _ _ _ Hb) as [Hc _]. pose proof (block_header _ _ _ _ Hb) as Hh.
  destruct Hb as [Ho _ Ht (slack & Hm & Hs)]. set (l := a ++ o :: b) in *.
  assert (length l <= length mem)%nat as Hlen.
  { rewrite Hm, !length_app. pose proof (objs_bytes_length l Ho). pose proof (objs_size_ge l Ho). lia. }
  assert (length l = length a + S (length b))%nat as Hl by (unfold l; by rewrite length_app).
  destruct (search_skip a (S (length mem) - length a) mem (header_bytes (header_of total l)) (o :: b) (slack ++ beyond)
    (header_of total l) key (set_region kv np_skip_datablock_header (Some (used_length (header_of total l)))) 0) as (kv' & E & E1 & E2); try done.
  { cbn [set_region buffer_start]. by rewrite header_bytes_length. }
  { by rewrite header_bytes_length. }
  replace (length a + (S (length mem) - length a))%nat with (S (length mem)) in E by lia.
  rewrite E. replace (S (length mem) - length a)%nat with (S (length mem - length a)) by lia. cbn [search_loop].
  rewrite Z.add_0_l. cbn [object_count header_of]. destruct (Z.ltb_spec (Z.of_nat (length a)) (Z.of_nat (length l))); [|lia].
  unfold l in Ho. apply Forall_app in Ho as [Ha Ho]. apply Forall_cons in Ho as [[[Hk Hkx] [Hv Hvx]] Hb].
  rewrite header_bytes_length in E1 by done.
  rewrite (read_object_in _ (header_bytes (header_of total l) ++ objs_bytes a) o (objs_bytes b ++ slack ++ beyond)); [|done|done| | |].
  - rewrite bind_ok, bool_decide_eq_true_2 by done. rewrite (same_key_spec _ o.1) by done. rewrite bool_decide_eq_true_2 by done.
    by rewrite E1.
  - rewrite Hm. unfold l. rewrite objs_bytes_app. cbn [objs_bytes flat_map]. by rewrite <-!app_assoc.
  - by rewrite E1, length_app, Nat2Z.inj_add, header_bytes_length, objs_bytes_length.
  - rewrite E1, E2. cbn [used_length header_of]. unfold l. rewrite objs_size_app, objs_size_cons.
    pose proof (objs_size_ge b Hb). lia.
Qed.

End Reading.
