(* ===== verification/DatablockThms.v ===== *)
(** * Data blocks: the operations keep a block and act on its list of pairs *)
From Stdlib Require Import ZArith Lia.
From stdpp Require Import prelude.
From S2P Require Import Prelude Treeval Qcbor Serial SerialThms Datablock DatablockSpec.

Local Open Scope Z_scope.

(** ** What a buffer denotes *)

Definition kv_denotes (kv : np_kv_buffer) (k : list Z) (v : dval) : Prop :=
  denotes (Data_conf (kv_key kv) (data_type kv) (data_size kv)) (kv_data kv) k v.

Lemma u32_u32 x : u32 (u32 x) = u32 x.
Proof. apply u32_id, u32_range. Qed.
Lemma s32_u32 x : s32 (u32 x) = s32 x.
Proof. unfold s32. by rewrite u32_u32. Qed.
Lemma s32_id x : - 2 ^ 31 <= x < 2 ^ 31 -> s32 x = x.
Proof.
  intros H. unfold s32, u32. destruct (Z.ltb_spec (x mod 2 ^ 32) (2 ^ 31)); Z.div_mod_to_equations; lia.
Qed.

Lemma kv_of_denotes start o : key_range o.1 -> dval_range o.2 -> kv_denotes (kv_of start o) o.1 o.2.
Proof.
  intros Hk Hv. destruct o as [k v]. cbn [fst snd] in *. split; [by apply strn_key|]. split; [done|]. cbn.
  destruct v as [b|z|z|b]; cbn; try (split; [done|by rewrite take_ge]).
  - cbn in Hv. rewrite s32_u32. apply s32_id. lia.
  - by apply u32_id.
Qed.

Lemma conf_denotes k v : key_range k -> dval_range v -> denotes (dval_conf k v) (dval_union v) k v.
Proof. intros Hk Hv. apply (kv_of_denotes 0 (k, v) Hk Hv). Qed.

Lemma read_bytes_denoted p n b : n = Z.of_nat (length b) -> take (length b) p = b -> read_bytes p n = Ok b.
Proof.
  intros -> E. unfold read_bytes. assert (length b <= length p)%nat by (rewrite <-E, length_take; lia).
  destruct (Z.ltb_spec (Z.of_nat (length p)) (Z.of_nat (length b))); [lia|]. by rewrite Nat2Z.id, E.
Qed.

Lemma object_items_denoted kv k v : kv_denotes kv k v -> object_items kv = Ok (obj_items (k, v)).
Proof.
  intros (Ek & Et & Hv). cbn [conf_key conf_type conf_data_size] in Ek, Et, Hv. unfold object_items. rewrite Ek, Et.
  destruct v as [b|z|z|b], (kv_data kv) as [p|n]; try done; cbn -[np_tag].
  - destruct Hv as [Hn Hp]. by rewrite (read_bytes_denoted p _ b).
  - unfold as_integer. cbn. by rewrite s32_u32, Hv.
  - by rewrite Hv.
  - destruct Hv as [Hn Hp]. by rewrite (read_bytes_denoted p _ b).
Qed.

(** The size np_serializer_calculate_object_size computes, against the bytes
    that are written: exact, except for a key, bytes, text or a number of 24
    (one byte too few) and for -256 and -65536 (one and two bytes too many). *)
Theorem object_size_bounds kv k v :
  kv_denotes kv k v -> key_range k -> dval_range v ->
  np_serializer_calculate_object_size kv = Ok (obj_size (k, v) + key_excess k + dval_excess v).
Proof.
  intros (Ek & Et & Hv) Hk Hr. cbn [conf_key conf_type conf_data_size] in Ek, Et, Hv. unfold np_serializer_calculate_object_size, strnlen. rewrite Ek, Et.
  rewrite (key_size_excess k Hk), obj_size_eq, item_length_dval. cbn [fst snd].
  assert (0 <= item_length (Item [] (H_text k)) + key_excess k <= 300) as Hs.
  { rewrite <-key_size_excess by done. destruct Hk as [_ Hl]. unfold CBOR_TWENTY_FOUR. tests; lia. }
  destruct v as [b|z|z|b], (kv_data kv) as [p|n]; try done; cbn [dval_type dval_excess] in *; cbn in Hr.
  1,4: destruct Hv as [-> Hp]; rewrite <-2!Z.add_assoc, (Z.add_assoc (size_extra _)), bytes_size_excess by lia;
    rewrite u64_id by (unfold in_u, head_length; tests; lia); apply (f_equal Ok); repeat case_decide; lia.
  - unfold as_integer. cbn [as_unsigned mbind result_bind]. rewrite s32_u32, Hv. destruct (Z.eqb_spec z (- 2 ^ 31)); [lia|].
    apply (f_equal Ok). destruct (Z.leb_spec 0 z), (Z.ltb_spec 0 z); try lia;
      unfold number_extra, head_length, UINT16_MAX, UINT8_MAX, CBOR_TWENTY_FOUR; repeat case_decide; tests; lia.
  - cbn [as_unsigned mbind result_bind]. rewrite Hv. unfold in_u in Hr.
    apply (f_equal Ok). destruct (Z.leb_spec 0 z), (Z.ltb_spec 0 z); try lia;
      unfold number_extra, head_length, UINT16_MAX, UINT8_MAX, CBOR_TWENTY_FOUR; repeat case_decide; tests; lia.
Qed.

Lemma exact_size kv k v : kv_denotes kv k v -> obj_ok (k, v) -> np_serializer_calculate_object_size kv = Ok (obj_size (k, v)).
Proof.
  intros Hd [[Hk Ek] [Hv Ev]]. rewrite (object_size_bounds kv k v) by done. cbn in *. f_equal. lia.
Qed.

(** Bytes that are moved over part of what follows. *)
Lemma memmove_over pre R post src len (n : nat) moved dest :
  bytes_at (pre ++ R ++ post) src (Some len) = moved -> 0 <= src -> src + len <= Z.of_nat (length (pre ++ R ++ post)) ->
  dest = Z.of_nat (length pre + n) -> (n + length moved <= length R)%nat ->
  memmove (pre ++ R ++ post) dest src len = Ok (pre ++ take n R ++ moved ++ drop (n + length moved) R ++ post).
Proof.
  intros Hm Hsrc Hlen -> Hn. unfold memmove.
  destruct (Z.leb_spec 0 src), (Z.leb_spec (src + len) (Z.of_nat (length (pre ++ R ++ post)))); try lia. cbn [andb]. rewrite Hm.
  assert (pre ++ R ++ post = (pre ++ take n R) ++ take (length moved) (drop n R) ++ drop (n + length moved) R ++ post) as ->.
  { rewrite <-app_assoc. f_equal. rewrite <-(take_drop n R) at 1. rewrite <-app_assoc. f_equal.
    rewrite <-(take_drop (length moved) (drop n R)) at 1. rewrite <-app_assoc, drop_drop. done. }
  rewrite write_at_middle; [by rewrite <-app_assoc| |].
  - rewrite length_app, length_take. lia.
  - rewrite length_take, length_drop. lia.
Qed.
Section Operations.
Context `{Qcbor}.
Context (encoder_leaves : list item -> Z -> list Z).
Context `{!Block_limits}.

Abbreviation np_set_data := (np_set_data encoder_leaves).

(** ** Writing *)

Lemma write_object_at pre old post start kv k v :
  kv_denotes kv k v -> obj_ok (k, v) -> start = Z.of_nat (length pre) -> Z.of_nat (length old) = obj_size (k, v) ->
  np_serializer_write_object encoder_leaves (pre ++ old ++ post) (set_region kv start (Some (start + obj_size (k, v)))) =
  Ok (np_data_ok, set_region kv start (Some (start + obj_size (k, v))), pre ++ obj_bytes (k, v) ++ post).
Proof.
  intros Hd [[Hk _] [Hv _]] Hs Hl. pose proof (obj_size_pos (k, v) Hk Hv). pose proof (obj_bytes_length (k, v) Hk Hv).
  unfold np_serializer_write_object. rewrite (object_items_denoted _ k v) by exact Hd. rewrite bind_ok.
  cbn [buffer_start buffer_end set_region buffer_length].
  destruct (Z.leb_spec start (start + obj_size (k, v))); [|lia].
  unfold encode. change (flat_map qcbor_put (obj_items (k, v))) with (obj_bytes (k, v)).
  destruct (Z.leb_spec (Z.of_nat (length (obj_bytes (k, v)))) (start + obj_size (k, v) - start)); [|lia].
  rewrite write_at_middle by lia. rewrite bind_ok. by replace (Z.of_nat (length (obj_bytes (k, v)))) with (obj_size (k, v)) by lia.
Qed.

Lemma write_header_at old rest h :
  header_range h -> used_length h ≠ 0 -> DATABLOCK_OVERHEAD <= total_length h -> Z.of_nat (length old) = DATABLOCK_OVERHEAD ->
  np_serializer_write_datablock_header encoder_leaves (old ++ rest) h NP_DATA_MAGIC_NO = Ok (np_data_ok, h, header_bytes h ++ rest).
Proof.
  intros Hh Hu Ht Hl. unfold np_serializer_write_datablock_header. destruct (Z.eqb_spec (used_length h) 0); [done|].
  rewrite bind_ok. unfold encode. change (flat_map qcbor_put (header_items h NP_DATA_MAGIC_NO)) with (header_bytes h).
  pose proof (header_bytes_length h Hh).
  destruct (Z.leb_spec (Z.of_nat (length (header_bytes h))) (total_length h)); [|lia].
  rewrite (write_at_middle [] old rest) by (done || lia). done.
Qed.

Lemma block_start total l beyond mem : is_block total l beyond mem ->
  Z.of_nat (length (header_bytes (header_of total l))) = DATABLOCK_OVERHEAD.
Proof. intros Hb. by eapply header_bytes_length, block_header. Qed.

(** The new object is written over [old], which was made room of its size for. *)
Lemma add_object_at total l0 A old B slack beyond used hc count old_size kv a k v b :
  let l := a ++ (k, v) :: b in
  kv_denotes kv k v -> Forall obj_ok l -> NoDup (map fst l) -> total <= 2 ^ 17 -> objs_size l <= total - DATABLOCK_OVERHEAD ->
  Z.of_nat (length l0) = DATABLOCK_OVERHEAD -> A = objs_bytes a -> B = objs_bytes b ->
  Z.of_nat (length old) = obj_size (k, v) -> DATABLOCK_OVERHEAD + objs_size l + Z.of_nat (length slack) = total ->
  used + obj_size (k, v) - old_size = DATABLOCK_OVERHEAD + objs_size l -> count + 1 = Z.of_nat (length l) ->
  exists mem', add_object encoder_leaves (l0 ++ A ++ old ++ B ++ slack ++ beyond) (Datablock_header total used hc)
    kv (DATABLOCK_OVERHEAD + objs_size a) count (obj_size (k, v)) old_size = Ok (np_data_ok, mem') /\ is_block total l beyond mem'.
Proof.
  intros l Hd Hok Hnd Ht Hfit Hl0 -> -> Hold Hs Hu Hc.
  assert (Forall obj_ok a /\ obj_ok (k, v)) as [Ha Ho] by (unfold l in Hok; rewrite Forall_app, Forall_cons in Hok; tauto).
  assert (is_block total l beyond (header_bytes (header_of total l) ++ objs_bytes l ++ slack ++ beyond)) as Hb.
  { split; try done. by exists slack. }
  pose proof (block_header _ _ _ _ Hb) as Hh. pose proof (block_count _ _ _ _ Hb) as [Hcnt Hsz]. pose proof (objs_size_ge l Hok) as Hge.
  exists (header_bytes (header_of total l) ++ objs_bytes l ++ slack ++ beyond). split; [|exact Hb].
  unfold add_object. rewrite (app_assoc l0). rewrite (write_object_at (l0 ++ objs_bytes a) old _ _ kv k v); [|done|done| |done].
  2: { rewrite length_app, Nat2Z.inj_add, objs_bytes_length by done. lia. }
  rewrite bind_ok. cbn [buffer_end set_region default from_option id]. rewrite Z.add_simpl_l, Z.eqb_refl.
  change (c_assert true) with (Ok tt). rewrite bind_ok.
  rewrite bool_decide_eq_true_2 by done. cbn [used_length total_length].
  rewrite Hu, Hc, u64_id, u32_id by (unfold in_u, DATABLOCK_OVERHEAD in *; lia).
  change (Datablock_header total (DATABLOCK_OVERHEAD + objs_size l) (Z.of_nat (length l))) with (header_of total l).
  rewrite <-!app_assoc. rewrite write_header_at; [|done| | |done].
  - rewrite bind_ok. unfold l. rewrite objs_bytes_app. cbn [objs_bytes flat_map]. by rewrite <-!app_assoc.
  - cbn. unfold DATABLOCK_OVERHEAD. lia.
  - cbn. lia.
Qed.

(** ** Setting a value *)

(** What setting means: the pair is put into the list if there is room for it. *)
Definition set_result (total : Z) (l : list obj) (k : list Z) (v : dval) : np_data_return * list obj :=
  if DATABLOCK_OVERHEAD + objs_size (put_obj k v l) <=? total then (np_data_ok, put_obj k v l) else (np_insufficient_memory, l).

Lemma set_absent total l beyond mem c d k v :
  is_block total l beyond mem -> denotes c d k v -> obj_ok (k, v) -> Forall (fun o => o.1 ≠ k) l -> put_obj k v l = l ++ [(k, v)] ->
  exists mem', np_set_data mem c d = Ok ((set_result total l k v).1, mem') /\ is_block total (set_result total l k v).2 beyond mem' /\
    ((set_result total l k v).1 ≠ np_data_ok -> mem' = mem).
Proof.
  intros Hb Hd Hok Hne Hput. unfold Datablock.np_set_data. rewrite (block_read _ _ _ _ _ Hb), bool_decide_eq_true_2 by done.
  destruct (search_absent total l beyond mem (header_of total l) (conf_key c) (no_object 0) Hb) as [kv' ->].
  { destruct Hd as [-> _]. done. }
  rewrite bind_ok, bool_decide_eq_false_2, bind_ok by done.
  pose proof Hd as (Ek & Et & Ev). pose proof Hok as [[Hk Hkx] [Hv Hvx]]. cbn [fst snd] in Hk, Hv, Hkx, Hvx.
  unfold copy_key, strnlen. rewrite Ek. destruct (Z.ltb_spec (Z.of_nat (length k)) 255); [|destruct Hk; lia].
  rewrite bind_ok. set (kv := Kv_buffer _ _ _ _ _ _).
  assert (kv_denotes kv k v) as Hkv.
  { split; [by apply strn_key|]. split; done. }
  rewrite (exact_size kv k v), bind_ok by done.
  pose proof (block_count _ _ _ _ Hb) as [Hcnt Hsz]. pose proof (block_start _ _ _ _ Hb) as Hst.
  pose proof (obj_size_pos (k, v) Hk Hv) as Hpos.
  pose proof Hb as [Ho Hnd Ht (slack & Hm & Hs)]. pose proof (objs_size_ge l Ho) as Hge.
  cbn [total_length used_length object_count header_of]. unfold set_result. rewrite Hput, objs_size_app, objs_size_cons. change (objs_size []) with 0.
  rewrite u64_id, u64_id; [|unfold in_u, DATABLOCK_OVERHEAD in *; lia|rewrite u64_id; unfold in_u, DATABLOCK_OVERHEAD in *; lia].
  destruct (Z.ltb_spec (total - (DATABLOCK_OVERHEAD + objs_size l) + 0) (obj_size (k, v))).
  { destruct (Z.leb_spec (DATABLOCK_OVERHEAD + (objs_size l + (obj_size (k, v) + 0))) total); [lia|]. by exists mem. }
  destruct (Z.leb_spec (DATABLOCK_OVERHEAD + (objs_size l + (obj_size (k, v) + 0))) total); [|lia].
  unfold move_rest. cbn [Z.ltb Z.compare]. rewrite bind_ok. cbn [fst snd used_length object_count].
  set (n := Z.to_nat (obj_size (k, v))).
  assert (Z.of_nat n = obj_size (k, v)) as Hnz by lia.
  assert (mem = header_bytes (header_of total l) ++ objs_bytes l ++ take n slack ++ [] ++ drop n slack ++ beyond) as ->.
  { rewrite Hm. do 2 f_equal. cbn [app]. by rewrite app_assoc, take_drop. }
  destruct (add_object_at total (header_bytes (header_of total l)) (objs_bytes l) (take n slack) [] (drop n slack) beyond
    (DATABLOCK_OVERHEAD + objs_size l) (Z.of_nat (length l)) (Z.of_nat (length l)) 0 kv l k v []) as (mem' & E & Hb'); try done.
  - apply Forall_app. split; [done|]. by constructor.
  - rewrite map_app. apply NoDup_app. split; [done|]. split; [|by apply NoDup_singleton].
    intros x Hx Hin. apply list_elem_of_singleton in Hin. cbn in Hin. subst x. apply list_elem_of_fmap in Hx as (o & Eo & Hx).
    rewrite Forall_forall in Hne. by apply (Hne o).
  - rewrite objs_size_app, objs_size_cons. change (objs_size []) with 0. lia.
  - rewrite length_take. lia.
  - rewrite objs_size_app, objs_size_cons, length_drop. change (objs_size []) with 0. lia.
  - rewrite objs_size_app, objs_size_cons. change (objs_size []) with 0. lia.
  - rewrite length_app. cbn [length]. lia.
  - exists mem'. split; [exact E|]. split; [exact Hb'|]. done.
Qed.

Lemma set_present total a v0 b beyond mem c d k v :
  let l := a ++ (k, v0) :: b in
  is_block total l beyond mem -> denotes c d k v -> obj_ok (k, v) -> Forall (fun o => o.1 ≠ k) a -> put_obj k v l = a ++ (k, v) :: b ->
  exists mem', np_set_data mem c d = Ok ((set_result total l k v).1, mem') /\ is_block total (set_result total l k v).2 beyond mem' /\
    ((set_result total l k v).1 ≠ np_data_ok -> mem' = mem).
Proof.
  intros l Hb Hd Hok Hne Hput. unfold Datablock.np_set_data. rewrite (block_read _ _ _ _ _ Hb), bool_decide_eq_true_2 by done.
  pose proof Hd as (Ek & Et & Ev). pose proof Hok as [[Hk Hkx] [Hv Hvx]]. cbn [fst snd] in Hk, Hv, Hkx, Hvx.
  rewrite (search_present total a (k, v0) b beyond mem (header_of total l) (conf_key c) (no_object 0)) by (rewrite ?Ek; done).
  rewrite bind_ok, bool_decide_eq_true_2 by done. fold l.
  pose proof (block_count _ _ _ _ Hb) as [Hcnt Hsz]. pose proof (block_start _ _ _ _ Hb) as Hst.
  pose proof Hb as [Ho Hnd Ht (slack & Hm & Hs)]. pose proof (objs_size_ge l Ho) as Hge.
  assert (Forall obj_ok a /\ obj_ok (k, v0) /\ Forall obj_ok b) as (Hoa & Hov & Hob).
  { unfold l in Ho. rewrite Forall_app, Forall_cons in Ho. tauto. }
  rewrite (exact_size _ k v0), bind_ok; [|apply (kv_of_denotes _ (k, v0)); [done|apply Hov]|done].
  unfold copy_key, strnlen. rewrite Ek. destruct (Z.ltb_spec (Z.of_nat (length k)) 255); [|destruct Hk; lia].
  rewrite bind_ok. set (kv := Kv_buffer (used_length _) _ _ _ _ _).
  assert (kv_denotes kv k v) as Hkv.
  { split; [by apply strn_key|]. split; done. }
  rewrite (exact_size kv k v), bind_ok by done.
  pose proof (obj_size_pos (k, v) Hk Hv) as Hpos. pose proof (obj_size_pos (k, v0) Hk (proj1 (proj2 Hov))) as Hpos0.
  assert (objs_size l = objs_size a + obj_size (k, v0) + objs_size b) as Hl by (unfold l; rewrite objs_size_app, objs_size_cons; lia).
  pose proof (objs_size_ge a Hoa) as Hga. pose proof (objs_size_ge b Hob) as Hgb.
  cbn [total_length used_length object_count header_of]. unfold set_result. rewrite Hput, objs_size_app, objs_size_cons.
  rewrite u64_id, u64_id; [|unfold in_u, DATABLOCK_OVERHEAD in *; lia|rewrite u64_id; unfold in_u, DATABLOCK_OVERHEAD in *; lia].
  destruct (Z.ltb_spec (total - (DATABLOCK_OVERHEAD + objs_size l) + obj_size (k, v0)) (obj_size (k, v))).
  { destruct (Z.leb_spec (DATABLOCK_OVERHEAD + (objs_size a + (obj_size (k, v) + objs_size b))) total); [lia|]. by exists mem. }
  destruct (Z.leb_spec (DATABLOCK_OVERHEAD + (objs_size a + (obj_size (k, v) + objs_size b))) total); [|lia]. cbn [fst snd].
  set (n := Z.to_nat (obj_size (k, v))). assert (Z.of_nat n = obj_size (k, v)) as Hnz by lia.
  set (P := header_bytes (header_of total l) ++ objs_bytes a). set (R := obj_bytes (k, v0) ++ objs_bytes b ++ slack).
  assert (mem = P ++ R ++ beyond) as Em.
  { rewrite Hm. unfold l, P, R. rewrite objs_bytes_app. cbn [objs_bytes flat_map]. by rewrite <-!app_assoc. }
  pose proof (obj_bytes_length (k, v0) Hk (proj1 (proj2 Hov))) as Hlo. pose proof (objs_bytes_length b Hob) as Hlb.
  assert (Z.of_nat (length P) = DATABLOCK_OVERHEAD + objs_size a) as HP.
  { unfold P. rewrite length_app, Nat2Z.inj_add, objs_bytes_length by done. lia. }
  assert (Z.of_nat (length R) = obj_size (k, v0) + objs_size b + Z.of_nat (length slack)) as HR.
  { unfold R. rewrite !length_app. lia. }
  assert (1 <= Z.of_nat (length l)) as Hlen by (unfold l; rewrite length_app; cbn [length]; lia).
  unfold move_rest. destruct (Z.ltb_spec 0 (obj_size (k, v0))); [|lia].
  cbn [buffer_end buffer_start kv_of default from_option id used_length object_count header_of].
  rewrite !u32_id by (unfold in_u, DATABLOCK_OVERHEAD in *; lia).
  rewrite s32_id by (unfold DATABLOCK_OVERHEAD in *; lia). rewrite u64_id by (unfold in_u, DATABLOCK_OVERHEAD in *; lia).
  rewrite Em, (memmove_over P R beyond _ _ n (objs_bytes b)); [| |unfold DATABLOCK_OVERHEAD; lia|rewrite !length_app; lia|rewrite Nat2Z.inj_add; lia|lia].
  2: { replace (P ++ R ++ beyond) with ((P ++ obj_bytes (k, v0)) ++ objs_bytes b ++ slack ++ beyond) by (unfold R; by rewrite <-!app_assoc).
       replace (DATABLOCK_OVERHEAD + objs_size l - (DATABLOCK_OVERHEAD + objs_size a + obj_size (k, v0))) with (Z.of_nat (length (objs_bytes b))) by lia.
       apply bytes_at_exact. rewrite length_app. lia. }
  rewrite !bind_ok. unfold P. rewrite <-app_assoc.
  destruct (add_object_at total (header_bytes (header_of total l)) (objs_bytes a) (take n R) (objs_bytes b) (drop (n + length (objs_bytes b)) R) beyond
    (DATABLOCK_OVERHEAD + objs_size l) (Z.of_nat (length l)) (Z.of_nat (length l) - 1) (obj_size (k, v0)) kv a k v b) as (mem' & E & Hb'); try done.
  - apply Forall_app. split; [done|]. by constructor.
  - unfold l in Hnd. rewrite map_app in *. done.
  - rewrite objs_size_app, objs_size_cons. lia.
  - rewrite length_take. lia.
  - rewrite objs_size_app, objs_size_cons, length_drop. lia.
  - rewrite objs_size_app, objs_size_cons. lia.
  - unfold l. rewrite !length_app. cbn [length]. lia.
  - exists mem'. split; [exact E|]. split; [exact Hb'|]. done.
Qed.
Lemma set_spec total l beyond mem c d k v :
  is_block total l beyond mem -> denotes c d k v -> obj_ok (k, v) ->
  exists mem', np_set_data mem c d = Ok ((set_result total l k v).1, mem') /\ is_block total (set_result total l k v).2 beyond mem' /\
    ((set_result total l k v).1 ≠ np_data_ok -> mem' = mem).
Proof.
  intros Hb Hd Ho. destruct (find_key k l) as [(H1 & _ & H3)|(a & v0 & b & -> & H2 & _ & H4)].
  - by apply set_absent.
  - by apply set_present.
Qed.

(** ** Reading *)

Lemma convert_ok start o : key_range o.1 -> dval_range o.2 ->
  __convert_kv_to_conf (kv_of start o) = Ok (dval_conf o.1 o.2, dval_union o.2).
Proof.
  intros Hk Hv. unfold __convert_kv_to_conf. cbn [kv_of kv_key data_type kv_data data_size].
  rewrite copy_key_ok, bind_ok by done. destruct o as [k [b|z|z|b]]; cbn [fst snd dval_type dval_union as_ptr as_unsigned] in *; try done; cbn in Hv.
  - rewrite !bind_ok. by rewrite u32_u32.
  - rewrite !bind_ok. by rewrite u32_id.
Qed.

Definition get_result (l : list obj) (k : list Z) : np_data_return * option (np_data_conf * np_data_value) :=
  match get_obj k l with Some v => (np_data_ok, Some (dval_conf k v, dval_union v)) | None => (np_key_not_found, None) end.

Lemma get_spec total l beyond mem key : is_block total l beyond mem -> np_get_data mem key = Ok (get_result l (strn key)).
Proof.
  intros Hb. unfold np_get_data, get_result. destruct (find_key (strn key) l) as [(H1 & -> & _)|(a & v0 & b & -> & H2 & -> & _)].
  - destruct (search_absent total l beyond mem no_header key (no_object 0) Hb H1) as [kv' ->]. done.
  - rewrite (search_present total a (strn key, v0) b beyond mem) by done. rewrite bind_ok, bool_decide_eq_true_2 by done.
    pose proof (block_objs _ _ _ _ Hb) as Ho. apply Forall_app in Ho as [_ Ho]. apply Forall_cons in Ho as [[[Hk _] [Hv _]] _].
    by rewrite convert_ok.
Qed.

(** A callback over the pairs of a block, until it says no. *)
Fixpoint iter_objs {U} (callback : np_data_conf -> np_data_value -> U -> result (bool * U)) (l : list obj) (userdata : U)
    : result (np_data_return * U) :=
  match l with
  | [] => Ok (np_data_ok, userdata)
  | o :: l =>
      '(go_on, userdata) ← callback (dval_conf o.1 o.2) (dval_union o.2) userdata;
      if (go_on : bool) then iter_objs callback l userdata else Ok (np_invalid_arguments, userdata)
  end.

Lemma objs_next pre o l post : pre ++ objs_bytes (o :: l) ++ post = (pre ++ obj_bytes o) ++ objs_bytes l ++ post.
Proof. cbn [objs_bytes flat_map]. by rewrite <-!app_assoc. Qed.

Lemma iterate_from {U} (cb : np_data_conf -> np_data_value -> U -> result (bool * U)) h l : forall fuel pre post u kv bc n,
  Forall obj_ok l -> buffer_start kv = Z.of_nat (length pre) ->
  match buffer_end kv with Some e => buffer_start kv + objs_size l <= e | None => True end ->
  used_length h = DATABLOCK_OVERHEAD + bc + objs_size l -> 0 <= bc -> used_length h < 2 ^ 32 ->
  object_count h = n + Z.of_nat (length l) -> 0 <= n -> object_count h < 2 ^ 16 -> (length l <= fuel)%nat ->
  iterate_loop fuel (pre ++ objs_bytes l ++ post) h cb u np_data_ok kv bc n = iter_objs cb l u.
Proof.
  induction l as [|o l IH]; intros fuel pre post u kv bc n Ho Hs He Hu Hbc Hu32 Hc Hn Hmax Hf.
  { destruct fuel; cbn [iterate_loop]; destruct (Z.ltb_spec n (object_count h)); cbn [length] in Hc; try lia; done. }
  apply Forall_cons in Ho as [[[Hk Hkx] [Hv Hvx]] Ho]. rewrite objs_size_cons in He, Hu. cbn [length] in Hc, Hf.
  pose proof (objs_size_ge l Ho) as Hge. pose proof (obj_size_pos o Hk Hv) as Hpos. destruct fuel as [|fuel]; [lia|].
  cbn [iterate_loop]. destruct (Z.ltb_spec n (object_count h)); [|lia]. rewrite objs_next.
  rewrite (read_object_in _ pre o (objs_bytes l ++ post)); [|done|done|by rewrite <-app_assoc|done|destruct (buffer_end kv); [lia|done]].
  rewrite bind_ok, bool_decide_eq_true_2, convert_ok, bind_ok by done. cbn [iter_objs].
  destruct (cb (dval_conf o.1 o.2) (dval_union o.2) u) as [[[] u']|e]; [|done|done]. rewrite !bind_ok. cbn [negb].
  cbn [buffer_end buffer_start kv_of default from_option id]. rewrite (u16_id (n + 1)) by (unfold in_u; lia).
  assert (buffer_start kv + obj_size o - buffer_start kv = obj_size o) as -> by lia.
  rewrite (u64_id (bc + obj_size o)) by (unfold in_u, DATABLOCK_OVERHEAD in *; lia).
  rewrite u64_id by (unfold in_u, DATABLOCK_OVERHEAD in *; lia).
  apply IH; cbn [buffer_start buffer_end set_region]; try done; try lia.
  - by rewrite length_app, Nat2Z.inj_add, obj_bytes_length, Hs.
  - unfold DATABLOCK_OVERHEAD in *. lia.
Qed.

(** ** Merging *)

Fixpoint merge_objs (total : Z) (l dest : list obj) : np_data_return * list obj :=
  match l with
  | [] => (np_data_ok, dest)
  | o :: l =>
      let '(r, dest) := set_result total dest o.1 o.2 in
      if decide (r = np_data_ok) then merge_objs total l dest else (r, dest)
  end.

Lemma merge_from total beyond h l : forall fuel pre post dest l0 kv n,
  is_block total l0 beyond dest ->
  Forall obj_ok l -> buffer_start kv = Z.of_nat (length pre) -> buffer_end kv = Some (used_length h) ->
  used_length h = Z.of_nat (length pre) + objs_size l ->
  object_count h = n + Z.of_nat (length l) -> 0 <= n -> object_count h < 2 ^ 16 -> (length l <= fuel)%nat ->
  exists dest', merge_loop encoder_leaves fuel dest (pre ++ objs_bytes l ++ post) h np_data_ok kv n = Ok ((merge_objs total l l0).1, dest') /\
    is_block total (merge_objs total l l0).2 beyond dest'.
Proof.
  induction l as [|o l IH]; intros fuel pre post dest l0 kv n Hb Ho Hs He Hu Hc Hn Hmax Hf.
  { exists dest. destruct fuel; cbn [merge_loop]; destruct (Z.ltb_spec n (object_count h)); cbn [length] in Hc; try lia; done. }
  apply Forall_cons in Ho as [Hob Ho]. pose proof Hob as [[Hk Hkx] [Hv Hvx]]. rewrite objs_size_cons in Hu. cbn [length] in Hc, Hf.
  pose proof (objs_size_ge l Ho) as Hge. destruct fuel as [|fuel]; [lia|].
  cbn [merge_loop]. destruct (Z.ltb_spec n (object_count h)); [|lia]. rewrite objs_next.
  rewrite (read_object_in _ pre o (objs_bytes l ++ post)); [|done|done|by rewrite <-app_assoc|done|rewrite He; lia].
  rewrite bind_ok, bool_decide_eq_true_2, convert_ok, bind_ok by done. cbn [merge_objs].
  destruct (set_spec total l0 beyond dest (dval_conf o.1 o.2) (dval_union o.2) o.1 o.2 Hb) as (dest1 & -> & Hb1 & _); [by apply conf_denotes|done|].
  destruct (set_result total l0 o.1 o.2) as [r l1]. cbn [fst snd] in *. rewrite bind_ok.
  destruct (decide (r = np_data_ok)) as [->|Hne]; [|by rewrite bool_decide_eq_false_2 by done; exists dest1].
  rewrite bool_decide_eq_true_2 by done. rewrite u16_id by (unfold in_u; lia).
  apply IH; cbn [buffer_start buffer_end set_region kv_of default from_option id]; try done; try lia.
  - by rewrite length_app, Nat2Z.inj_add, obj_bytes_length, Hs.
  - rewrite length_app, Nat2Z.inj_add, obj_bytes_length by done. lia.
Qed.

Lemma block_length total l beyond mem : is_block total l beyond mem -> (length l <= length mem)%nat.
Proof.
  intros [Ho _ _ (slack & -> & _)]. pose proof (objs_bytes_length l Ho). pose proof (objs_size_ge l Ho). rewrite !length_app. lia.
Qed.

Lemma merge_spec total l0 beyond dest total' l beyond' src :
  is_block total l0 beyond dest -> is_block total' l beyond' src ->
  exists dest', np_merge_data encoder_leaves dest (Some src) = Ok ((merge_objs total l l0).1, dest') /\
    is_block total (merge_objs total l l0).2 beyond dest'.
Proof.
  intros Hd Hb. unfold np_merge_data. rewrite (block_read _ _ _ _ _ Hb), bool_decide_eq_true_2 by done.
  pose proof (block_count _ _ _ _ Hb) as [Hcnt Hsz]. pose proof (block_start _ _ _ _ Hb) as Hst.
  pose proof (block_length _ _ _ _ Hb) as Hlen.
  pose proof Hb as [Ho _ Ht (slack & Hm & Hs)]. set (fuel := S (length src)).
  assert (length l <= fuel)%nat as Hf by (unfold fuel; lia). clearbody fuel. rewrite Hm.
  apply merge_from; cbn [set_region buffer_start buffer_end used_length object_count header_of]; try done; try lia.
Qed.

Lemma iterate_spec {U} total l beyond mem (cb : np_data_conf -> np_data_value -> U -> result (bool * U)) u :
  is_block total l beyond mem -> np_iterate_data mem cb u = iter_objs cb l u.
Proof.
  intros Hb. unfold np_iterate_data. rewrite (block_read _ _ _ _ _ Hb), bool_decide_eq_true_2 by done.
  pose proof (block_count _ _ _ _ Hb) as [Hcnt Hsz]. pose proof (block_start _ _ _ _ Hb) as Hst.
  pose proof (block_length _ _ _ _ Hb) as Hlen.
  pose proof Hb as [Ho _ Ht (slack & Hm & Hs)]. set (fuel := S (length mem)).
  assert (length l <= fuel)%nat as Hf by (unfold fuel; lia). clearbody fuel. rewrite Hm.
  apply iterate_from; cbn [no_object buffer_start buffer_end used_length object_count header_of]; try done; try lia.
Qed.

Lemma init_spec total old beyond : Z.of_nat (length old) = total -> DATABLOCK_OVERHEAD <= total <= 2 ^ 17 ->
  exists mem, np_init_datablock encoder_leaves (old ++ beyond) total = Ok (np_data_ok, mem) /\ is_block total [] beyond mem.
Proof.
  intros Hl Ht. unfold np_init_datablock, np_serializer_write_datablock_header. cbn [used_length total_length object_count Z.eqb].
  rewrite (write_at_middle [] old beyond) by (rewrite ?length_replicate; lia || done). rewrite bind_ok.
  change (Datablock_header total DATABLOCK_OVERHEAD 0) with (header_of total []).
  unfold encode. change (flat_map qcbor_put (header_items (header_of total []) NP_DATA_MAGIC_NO)) with (header_bytes (header_of total [])).
  assert (header_range (header_of total [])) as Hh.
  { unfold header_range, in_u, header_of. cbn. unfold DATABLOCK_OVERHEAD in *. lia. }
  pose proof (header_bytes_length _ Hh) as Hhl.
  destruct (Z.leb_spec (Z.of_nat (length (header_bytes (header_of total [])))) total); [|lia]. cbn [app].
  set (zs := replicate (Z.to_nat total) 0). assert (length zs = Z.to_nat total) as Hz by apply length_replicate.
  assert (zs ++ beyond = [] ++ take 21 zs ++ drop 21 zs ++ beyond) as ->.
  { cbn [app]. by rewrite (app_assoc (take 21 zs)), take_drop. }
  unfold DATABLOCK_OVERHEAD in *.
  rewrite (write_at_middle []) by (rewrite ?length_take; lia || done). rewrite !bind_ok.
  eexists. split; [done|]. split; [constructor|constructor|lia|]. exists (drop 21 zs). split; [done|]. rewrite length_drop.
  change (objs_size []) with 0. unfold DATABLOCK_OVERHEAD. lia.
Qed.
End Operations.

(** ** Sequences of operations *)

Inductive data_op :=
| Op_set (data_conf : np_data_conf) (data : np_data_value)
| Op_get (key : list Z)
| Op_size
| Op_count
| Op_merge (src : list Z).

Inductive data_res :=
| R_code (r : np_data_return)
| R_object (r : np_data_return) (o : option (np_data_conf * np_data_value))
| R_number (r : np_data_return) (n : Z).

(** The same on lists of pairs. *)
Inductive abs_op := A_set (k : list Z) (v : dval) | A_get (k : list Z) | A_size | A_count | A_merge (l : list obj).

Definition spec_op (total : Z) (l : list obj) (a : abs_op) : data_res * list obj :=
  match a with
  | A_set k v => (R_code (set_result total l k v).1, (set_result total l k v).2)
  | A_get k => (R_object (get_result l k).1 (get_result l k).2, l)
  | A_size => (R_number np_data_ok (DATABLOCK_OVERHEAD + objs_size l), l)
  | A_count => (R_number np_data_ok (Z.of_nat (length l)), l)
  | A_merge s => (R_code (merge_objs total s l).1, (merge_objs total s l).2)
  end.
Fixpoint spec_ops (total : Z) (l : list obj) (s : list abs_op) : list data_res * list obj :=
  match s with
  | [] => ([], l)
  | a :: s => let '(r, l) := spec_op total l a in let '(rs, l) := spec_ops total l s in (r :: rs, l)
  end.

Section Sequences.
Context `{Qcbor} `{!Block_limits}.
Context (encoder_leaves : list item -> Z -> list Z).

Definition run_op (mem : list Z) (op : data_op) : result (data_res * list Z) :=
  match op with
  | Op_set c d => '(r, mem) ← np_set_data encoder_leaves mem c d; Ok (R_code r, mem)
  | Op_get key => '(r, o) ← np_get_data mem key; Ok (R_object r o, mem)
  | Op_size => let '(r, n) := np_get_data_size mem in Ok (R_number r n, mem)
  | Op_count => let '(r, n) := np_get_object_count mem in Ok (R_number r n, mem)
  | Op_merge src => '(r, mem) ← np_merge_data encoder_leaves mem (Some src); Ok (R_code r, mem)
  end.
Fixpoint run_ops (mem : list Z) (s : list data_op) : result (list data_res * list Z) :=
  match s with
  | [] => Ok ([], mem)
  | op :: s => '(r, mem) ← run_op mem op; '(rs, mem) ← run_ops mem s; Ok (r :: rs, mem)
  end.

Definition op_denotes (op : data_op) (a : abs_op) : Prop :=
  match op, a with
  | Op_set c d, A_set k v => denotes c d k v /\ obj_ok (k, v)
  | Op_get key, A_get k => strn key = k
  | Op_size, A_size | Op_count, A_count => True
  | Op_merge src, A_merge l => exists total beyond, is_block total l beyond src
  | _, _ => False
  end.

Lemma run_op_spec total l beyond mem op a : is_block total l beyond mem -> op_denotes op a ->
  exists mem', run_op mem op = Ok ((spec_op total l a).1, mem') /\ is_block total (spec_op total l a).2 beyond mem'.
Proof.
  intros Hb Hd. destruct op as [c d|key| | |src], a as [k v|k| | |s]; try done; cbn [run_op spec_op fst snd].
  - destruct Hd as [Hd Ho]. destruct (set_spec encoder_leaves total l beyond mem c d k v Hb Hd Ho) as (mem' & -> & Hb' & _).
    by exists mem'.
  - cbn in Hd. subst k. rewrite (get_spec total l beyond) by done. exists mem. by destruct (get_result l (strn key)).
  - unfold np_get_data_size. rewrite (block_read _ _ _ _ _ Hb). by exists mem.
  - unfold np_get_object_count. rewrite (block_read _ _ _ _ _ Hb). by exists mem.
  - destruct Hd as (t' & b' & Hs). destruct (merge_spec encoder_leaves total l beyond mem t' s b' src Hb Hs) as (mem' & -> & Hb').
    by exists mem'.
Qed.

Lemma run_ops_spec total beyond ops aops : Forall2 op_denotes ops aops -> forall l mem, is_block total l beyond mem ->
  exists mem', run_ops mem ops = Ok ((spec_ops total l aops).1, mem') /\ is_block total (spec_ops total l aops).2 beyond mem'.
Proof.
  induction 1 as [|op a ops aops Hd _ IH]; intros l mem Hb; [by exists mem|].
  destruct (run_op_spec total l beyond mem op a Hb Hd) as (mem1 & E1 & Hb1). cbn [run_ops spec_ops]. rewrite E1, bind_ok.
  destruct (spec_op total l a) as [r l1]. cbn [fst snd] in *. destruct (IH l1 mem1 Hb1) as (mem2 & E2 & Hb2). rewrite E2, bind_ok.
  destruct (spec_ops total l1 aops) as [rs l2]. by exists mem2.
Qed.

(** C31: A data block of at most 2^17 bytes behaves like a list of pairs of bounded
    size, for the pairs whose size np_serializer_calculate_object_size gets right
    ([obj_ok]): after np_init_datablock any sequence of np_set_data with such a pair,
    np_get_data of any key, np_get_data_size, np_get_object_count and np_merge_data
    from a block of such pairs gives the results the list gives (a value set again is
    changed in place, one there is no room for is refused), never touches a byte
    behind the block, and leaves a block of the list.  Such a pair has a key of at
    most 254 characters and a value below 2^16 bytes or a number of 32 bits; not
    among them are keys and values of exactly 24 bytes and the numbers 24, -256,
    -65536 and -2^31: for those the code does not do this, see number_24_is_refused,
    number_24_breaks_block, length_24_is_refused, minus_256_asserts and
    smallest_number_undefined below. *)
Theorem datablock_refines_list total old beyond ops aops :
  Z.of_nat (length old) = total -> DATABLOCK_OVERHEAD <= total <= 2 ^ 17 -> Forall2 op_denotes ops aops ->
  exists mem0 mem, np_init_datablock encoder_leaves (old ++ beyond) total = Ok (np_data_ok, mem0) /\
    run_ops mem0 ops = Ok ((spec_ops total [] aops).1, mem) /\ is_block total (spec_ops total [] aops).2 beyond mem.
Proof.
  intros Hl Ht Hops. destruct (init_spec encoder_leaves total old beyond Hl Ht) as (mem0 & E0 & Hb0).
  destruct (run_ops_spec total beyond ops aops Hops [] mem0 Hb0) as (mem & E & Hb). by exists mem0, mem.
Qed.

Lemma set_result_get total l k v k' : (set_result total l k v).1 = np_data_ok ->
  get_obj k' (set_result total l k v).2 = if decide (k' = k) then Some v else get_obj k' l.
Proof. unfold set_result. case_match; [|done]. intros _. apply get_put. Qed.

Lemma merge_get total l k' : forall dest, NoDup (map fst l) -> (merge_objs total l dest).1 = np_data_ok ->
  get_obj k' (merge_objs total l dest).2 = match get_obj k' l with Some v => Some v | None => get_obj k' dest end.
Proof.
  induction l as [|[k v] l IH]; intros dest Hnd; [done|]. cbn [map fst] in Hnd. apply NoDup_cons in Hnd as [Hn Hnd].
  cbn [merge_objs fst snd get_obj]. pose proof (set_result_get total dest k v k') as Hs.
  destruct (set_result total dest k v) as [r d]. cbn [fst snd] in *. destruct (decide (r = np_data_ok)) as [Hr|Hr]; [|done].
  intros E. rewrite (IH d Hnd E), Hs by done. destruct (decide (k = k')) as [->|Hk]; [|by rewrite (decide_False (P := k' = k)) by done].
  rewrite decide_True by done. destruct (find_key k' l) as [(_ & -> & _)|(a & v0 & b & El & _)]; [done|].
  exfalso. apply Hn. rewrite El, map_app. apply elem_of_app. right. by left.
Qed.

(** Merging ends, and what is read from the destination afterwards is what the
    source holds for the key, else what the destination held before; if there is not
    enough memory for one of the values the destination is still a block. *)
Theorem merge_overwrites total l0 beyond dest total' l beyond' src :
  is_block total l0 beyond dest -> is_block total' l beyond' src ->
  exists r dest' l', np_merge_data encoder_leaves dest (Some src) = Ok (r, dest') /\ is_block total l' beyond dest' /\
    (r = np_data_ok \/ r = np_insufficient_memory) /\
    (r = np_data_ok -> forall key, np_get_data dest' key =
       match np_get_data src key with Ok (np_data_ok, o) => Ok (np_data_ok, o) | _ => np_get_data dest key end).
Proof.
  intros Hd Hs. destruct (merge_spec encoder_leaves total l0 beyond dest total' l beyond' src Hd Hs) as (dest' & E & Hb').
  exists (merge_objs total l l0).1, dest', (merge_objs total l l0).2. split; [exact E|]. split; [exact Hb'|]. split.
  - clear. revert l0. induction l as [|o l IH]; intros l0; [by left|]. cbn [merge_objs].
    assert ((set_result total l0 o.1 o.2).1 = np_data_ok \/ (set_result total l0 o.1 o.2).1 = np_insufficient_memory) as Hr.
    { unfold set_result. case_match; [by left|by right]. }
    destruct (set_result total l0 o.1 o.2) as [r d]. cbn [fst] in Hr. destruct (decide (r = np_data_ok)); [apply IH|done].
  - intros Er key. rewrite (get_spec _ _ _ _ key Hb'), (get_spec _ _ _ _ key Hs), (get_spec _ _ _ _ key Hd). unfold get_result.
    rewrite merge_get by (apply Hs || done). by destruct (get_obj (strn key) l).
Qed.

(** Np_iterate_data ends and shows the callback every pair of the block once, in
    the order of the objects, until the callback asks to stop. *)
Theorem iterate_visits_all {U} total l beyond mem (callback : np_data_conf -> np_data_value -> U -> result (bool * U)) userdata :
  is_block total l beyond mem -> np_iterate_data mem callback userdata = iter_objs callback l userdata.
Proof. apply iterate_spec. Qed.

End Sequences.

(** ** Blocks and values that go wrong *)

#[local] Existing Instance rfc8949.
#[export] Instance rfc8949_limits : Block_limits (H := rfc8949).
Proof. split; cbn; lia. Qed.

Definition block_with (l : list (list Z * dval)) : result (list np_data_return * list Z) :=
  '(_, b) ← np_init_datablock no_leaves (replicate 64 7) 64;
  foldM (fun (o : obj) '(rs, b) => '(r, b) ← np_set_data no_leaves b (dval_conf o.1 o.2) (dval_union o.2); Ok (rs ++ [r], b)) l ([], b).

(** A number 24 is refused although there is room for it. *)
Lemma number_24_is_refused : fst <$> block_with [([97], D_uint 24)] = Ok [np_could_not_write_total_length].
Proof. vm_compute. reflexivity. Qed.

(** When it was to replace a value the objects behind were already moved: the
    block is broken, the other key cannot be read any more. *)
Lemma number_24_breaks_block :
  fst <$> block_with [([97], D_int 300); ([98], D_int 7); ([97], D_int 24)] =
    Ok [np_data_ok; np_data_ok; np_could_not_write_total_length] /\
  (b ← snd <$> block_with [([97], D_int 300); ([98], D_int 7)]; np_get_data b [98]) = Ok (np_data_ok, Some (dval_conf [98] (D_int 7), U_num 7)) /\
  (b ← snd <$> block_with [([97], D_int 300); ([98], D_int 7); ([97], D_int 24)]; np_get_data b [98]) = Err Bad_access.
Proof. vm_compute. done. Qed.

Lemma length_24_is_refused : fst <$> block_with [([97], D_bin (replicate 24 1))] = Ok [np_could_not_write_total_length] /\
  fst <$> block_with [(replicate 24 97, D_int 5)] = Ok [np_could_not_write_total_length].
Proof. vm_compute. done. Qed.

Lemma smallest_number_undefined : block_with [([97], D_int (- 2 ^ 31))] = Err Undefined.
Proof. vm_compute. reflexivity. Qed.

(** The size of -256 and of -65536 is too large: the count of the bytes written does not agree. *)
Lemma minus_256_asserts : block_with [([97], D_int (-256))] = Err Assert_failed.
Proof. vm_compute. reflexivity. Qed.

(** A block as a peer may send it: a header that promises an object, and none there. *)
Definition promised_object : list Z := header_bytes (Datablock_header 64 21 1) ++ replicate 43 0.
Lemma missing_object_hangs : np_get_data promised_object [97] = Err Diverges.
Proof. vm_compute. reflexivity. Qed.

(** A key of 300 characters is copied into an array of 255. *)
Definition long_key_block : list Z :=
  header_bytes (Datablock_header 400 325 1) ++ Rfc8949.put (Item [] (H_text (replicate 300 97))) ++ [5] ++ replicate 75 0.
Lemma long_key_overflows : np_get_data long_key_block [97] = Err Bad_access.
Proof. vm_compute. reflexivity. Qed.

Lemma mapreduce_never_iterates {U} mem (map_ : np_data_conf -> np_data_value -> U -> result (bool * U)) map :
  _np_iterate_data_mapreduce mem map_ map = Ok (np_could_not_read_object, map).
Proof. done. Qed.

(** ** Witnesses *)

Lemma object_size_bounds_witness :
  np_serializer_calculate_object_size (Kv_buffer 0 None [97; 0; 5] NP_DATA_TYPE_INT 4 (U_num (2 ^ 32 - 256))) =
  Ok (obj_size ([97], D_int (-256)) + key_excess [97] + dval_excess (D_int (-256))).
Proof.
  apply object_size_bounds.
  - split; [reflexivity|]. split; reflexivity.
  - split; [repeat constructor; lia|cbn; lia].
  - cbn. lia.
Defined.

Definition witness_ops : list data_op :=
  [Op_set (dval_conf [97] (D_int 100000)) (U_num 100000); Op_set (Data_conf [98; 99; 0; 1] NP_DATA_TYPE_STR 2) (U_ptr [120; 121; 122]);
   Op_set (dval_conf [97] (D_bin [9])) (U_ptr [9]); Op_get [98; 99]; Op_size; Op_count;
   Op_set (dval_conf [100] (D_bin (replicate 30 1))) (U_ptr (replicate 30 1))].
Definition witness_abs : list abs_op :=
  [A_set [97] (D_int 100000); A_set [98; 99] (D_str [120; 121]); A_set [97] (D_bin [9]); A_get [98; 99]; A_size; A_count;
   A_set [100] (D_bin (replicate 30 1))].

Ltac small_obj := match goal with |- obj_ok _ => split; (split; [|reflexivity]) end;
  [split; [repeat constructor; lia|cbn; lia]|cbn -[replicate]; unfold in_u; repeat split; try lia; repeat constructor; unfold in_u; lia].

Lemma datablock_refines_list_witness :
  exists mem0 mem, np_init_datablock no_leaves (replicate 64 7 ++ [1; 2; 3]) 64 = Ok (np_data_ok, mem0) /\
    run_ops no_leaves mem0 witness_ops =
      Ok ([R_code np_data_ok; R_code np_data_ok; R_code np_data_ok;
           R_object np_data_ok (Some (dval_conf [98; 99] (D_str [120; 121]), U_ptr [120; 121]));
           R_number np_data_ok 31; R_number np_data_ok 2; R_code np_insufficient_memory], mem) /\
    is_block 64 [([97], D_bin [9]); ([98; 99], D_str [120; 121])] [1; 2; 3] mem.
Proof.
  apply (datablock_refines_list no_leaves 64 (replicate 64 7) [1; 2; 3] witness_ops witness_abs).
  - reflexivity.
  - unfold DATABLOCK_OVERHEAD. lia.
  - repeat (apply Forall2_cons; split); try apply Forall2_nil; try exact eq_refl; try exact I; (split; [|small_obj]);
      (split; [reflexivity|split; [reflexivity|repeat split]]).
Defined.

Definition small_block (l : list obj) : list Z :=
  header_bytes (header_of 64 l) ++ objs_bytes l ++ replicate (Z.to_nat (64 - DATABLOCK_OVERHEAD - objs_size l)) 0.

Definition dest_objs : list obj := [([97], D_int 5); ([98], D_uint 70)].
Definition src_objs : list obj := [([99], D_str [120]); ([97], D_bin [1; 2])].

Lemma dest_is_block : is_block 64 dest_objs [8; 8] (small_block dest_objs ++ [8; 8]).
Proof.
  split; [repeat first [apply List.Forall_nil|apply List.Forall_cons; [small_obj|]]|by_decide|lia|].
  exists (replicate (Z.to_nat (64 - DATABLOCK_OVERHEAD - objs_size dest_objs)) 0).
  split; [|reflexivity]. unfold small_block. by rewrite <-!app_assoc.
Qed.
Lemma src_is_block : is_block 64 src_objs [] (small_block src_objs).
Proof.
  split; [repeat first [apply List.Forall_nil|apply List.Forall_cons; [small_obj|]]|by_decide|lia|].
  exists (replicate (Z.to_nat (64 - DATABLOCK_OVERHEAD - objs_size src_objs)) 0).
  split; [|reflexivity]. unfold small_block. by rewrite app_nil_r.
Qed.

Lemma merge_overwrites_witness :
  exists r dest' l', np_merge_data no_leaves (small_block dest_objs ++ [8; 8]) (Some (small_block src_objs)) = Ok (r, dest') /\
    is_block 64 l' [8; 8] dest' /\ (r = np_data_ok \/ r = np_insufficient_memory) /\
    (r = np_data_ok -> forall key, np_get_data dest' key =
       match np_get_data (small_block src_objs) key with
       | Ok (np_data_ok, o) => Ok (np_data_ok, o)
       | _ => np_get_data (small_block dest_objs ++ [8; 8]) key
       end).
Proof.
  exact (merge_overwrites no_leaves 64 dest_objs [8; 8] _ 64 src_objs [] _ dest_is_block src_is_block).
Defined.

Lemma iterate_visits_all_witness :
  np_iterate_data (small_block dest_objs ++ [8; 8]) (fun c d (u : list (np_data_conf * np_data_value)) => Ok (true, u ++ [(c, d)])) [] =
  Ok (np_data_ok, [(dval_conf [97] (D_int 5), U_num 5); (dval_conf [98] (D_uint 70), U_num 70)]).
Proof.
  exact (iterate_visits_all 64 dest_objs [8; 8] _ _ [] dest_is_block).
Defined.
