(* ===== verification/Crypto.v ===== *)
(** * Keys and sessions: [src/np_crypto.c] on top of libsodium

    Class [Sodium] is what neuropil relies on from libsodium: signatures that
    verify under the public key that belongs to the secret one, conversion of a key
    pair to key exchange, a key exchange in which both roles end up with the same
    two keys, authenticated encryption that decrypts with the same key, a hash of
    fixed length.  An instance with none of the secrecy, only these equations,
    shows that they can hold together. *)
From Stdlib Require Import ZArith Lia.
From stdpp Require Import prelude.
From S2P Require Import Prelude Dhkey.

Local Open Scope Z_scope.

Definition crypto_generichash_BYTES : nat := 32.
Definition crypto_sign_BYTES : nat := 64.
Definition crypto_sign_PUBLICKEYBYTES : nat := 32.
Definition crypto_kx_SESSIONKEYBYTES : nat := 32.
Definition crypto_aead_chacha20poly1305_IETF_ABYTES : Z := 16.

Class Sodium := {
  crypto_generichash : list Z -> list Z;
  sodium_bin2hex : list Z -> list Z;
  (** [None]: the function does not return 0 *)
  sodium_hex2bin : list Z -> option (list Z);
  crypto_sign_detached : list Z -> list Z -> list Z;
  crypto_sign_verify_detached : list Z -> list Z -> list Z -> Z;
  crypto_sign_ed25519_sk_to_pk : list Z -> option (list Z);
  crypto_sign_ed25519_sk_to_curve25519 : list Z -> option (list Z);
  crypto_sign_ed25519_pk_to_curve25519 : list Z -> option (list Z);
  (** own public key, own secret key, public key of the peer: the keys to read and to write *)
  crypto_kx_client_session_keys : list Z -> list Z -> list Z -> option (list Z * list Z);
  crypto_kx_server_session_keys : list Z -> list Z -> list Z -> option (list Z * list Z);
  (** key, nonce, additional data, message: ciphertext and mac, and back *)
  aead_encrypt : list Z -> list Z -> list Z -> list Z -> list Z * list Z;
  aead_decrypt : list Z -> list Z -> list Z -> list Z -> list Z -> option (list Z);
  (** a public and a secret key that belong together, for key exchange *)
  kx_pair : list Z -> list Z -> Prop;
  bin2hex_doc b : Forall (in_u 8) b -> sodium_bin2hex b = concat (map hex_of_byte b);
  hex2bin_doc s : length s = 64%nat -> forallb isxdigit s = true -> sodium_hex2bin s = Some (decode_pairs s);
  generichash_length m : length (crypto_generichash m) = crypto_generichash_BYTES;
  generichash_bytes m : Forall (in_u 8) (crypto_generichash m);
  sign_length m sk : length (crypto_sign_detached m sk) = crypto_sign_BYTES;
  sign_bytes m sk : Forall (in_u 8) (crypto_sign_detached m sk);
  sign_verifies m sk pk :
    crypto_sign_ed25519_sk_to_pk sk = Some pk -> crypto_sign_verify_detached (crypto_sign_detached m sk) m pk = 0;
  pk_bytes sk pk : crypto_sign_ed25519_sk_to_pk sk = Some pk -> length pk = crypto_sign_PUBLICKEYBYTES /\ Forall (in_u 8) pk;
  curve_pair sk pk csk cpk :
    crypto_sign_ed25519_sk_to_pk sk = Some pk -> crypto_sign_ed25519_sk_to_curve25519 sk = Some csk ->
    crypto_sign_ed25519_pk_to_curve25519 pk = Some cpk -> kx_pair cpk csk;
  kx_agree pc sc ps ss : kx_pair pc sc -> kx_pair ps ss ->
    crypto_kx_client_session_keys pc sc ps = prod_swap <$> crypto_kx_server_session_keys ps ss pc;
  aead_roundtrip k n ad m : aead_decrypt k n ad (aead_encrypt k n ad m).1 (aead_encrypt k n ad m).2 = Some m;
  aead_lengths k n ad m : length (aead_encrypt k n ad m).1 = length m /\ length (aead_encrypt k n ad m).2 = 16%nat;
  aead_bytes k n ad m : Forall (in_u 8) m -> Forall (in_u 8) (aead_encrypt k n ad m).1 /\ Forall (in_u 8) (aead_encrypt k n ad m).2;
}.

(** ** Data *)

Inductive np_crypto_session_type :=
| crypto_session_none | crypto_session_initial | crypto_session_private | crypto_session_shared | crypto_session_protected.

#[export] Instance np_crypto_session_type_eq_dec : EqDecision np_crypto_session_type.
Proof. solve_decision. Defined.

Record np_crypto_session_t := Crypto_session {
  session_type : np_crypto_session_type;
  session_key_to_read_is_set : bool;
  session_key_to_write_is_set : bool;
  session_key_to_read : list Z;
  session_key_to_write : list Z;
}.

Record np_crypto_t := Crypto {
  ed25519_public_key_is_set : bool;
  ed25519_secret_key_is_set : bool;
  derived_kx_public_key_is_set : bool;
  derived_kx_secret_key_is_set : bool;
  ed25519_public_key : list Z;
  ed25519_secret_key : list Z;
  derived_kx_public_key : list Z;
  derived_kx_secret_key : list Z;
}.

Definition zero_bytes (n : nat) : list Z := replicate n 0.

Definition _np_crypto_session_t_new : np_crypto_session_t :=
  Crypto_session crypto_session_none false false (zero_bytes crypto_kx_SESSIONKEYBYTES) (zero_bytes crypto_kx_SESSIONKEYBYTES).
Definition _np_crypto_session_t_del (session : np_crypto_session_t) : np_crypto_session_t :=
  Crypto_session (session_type session) false false (zero_bytes crypto_kx_SESSIONKEYBYTES) (zero_bytes crypto_kx_SESSIONKEYBYTES).

(** The keys stay whatever they are. *)
Definition np_crypto_init (self : np_crypto_t) : np_crypto_t :=
  Crypto false false false false (ed25519_public_key self) (ed25519_secret_key self) (derived_kx_public_key self)
    (derived_kx_secret_key self).

Definition set_public (c : np_crypto_t) (pk : list Z) : np_crypto_t :=
  Crypto true (ed25519_secret_key_is_set c) (derived_kx_public_key_is_set c) (derived_kx_secret_key_is_set c)
    pk (ed25519_secret_key c) (derived_kx_public_key c) (derived_kx_secret_key c).
Definition set_secret (c : np_crypto_t) (sk : list Z) : np_crypto_t :=
  Crypto (ed25519_public_key_is_set c) true (derived_kx_public_key_is_set c) (derived_kx_secret_key_is_set c)
    (ed25519_public_key c) sk (derived_kx_public_key c) (derived_kx_secret_key c).
Definition set_kx_public (c : np_crypto_t) (pk : list Z) : np_crypto_t :=
  Crypto (ed25519_public_key_is_set c) (ed25519_secret_key_is_set c) true (derived_kx_secret_key_is_set c)
    (ed25519_public_key c) (ed25519_secret_key c) pk (derived_kx_secret_key c).
Definition set_kx_secret (c : np_crypto_t) (sk : list Z) : np_crypto_t :=
  Crypto (ed25519_public_key_is_set c) (ed25519_secret_key_is_set c) (derived_kx_public_key_is_set c) true
    (ed25519_public_key c) (ed25519_secret_key c) (derived_kx_public_key c) sk.
Definition no_secrets (c : np_crypto_t) : np_crypto_t :=
  Crypto (ed25519_public_key_is_set c) false (derived_kx_public_key_is_set c) false
    (ed25519_public_key c) (ed25519_secret_key c) (derived_kx_public_key c) (derived_kx_secret_key c).
Definition set_session_keys (s : np_crypto_session_t) (read write : list Z) : np_crypto_session_t :=
  Crypto_session (session_type s) true true read write.
Definition set_session_type (s : np_crypto_session_t) (t : np_crypto_session_type) : np_crypto_session_t :=
  Crypto_session t (session_key_to_read_is_set s) (session_key_to_write_is_set s) (session_key_to_read s) (session_key_to_write s).

Section Operations.
Context `{Sodium}.

(** ** Keys

    The result: whether a pointer or NULL is returned, and what is in the buffer. *)

(** The two conversions that [np_cryptofactory_new] and [np_cryptofactory_by_secret]
    end with. *)
Definition derive_kx (ret : np_crypto_t) : bool * np_crypto_t :=
  match crypto_sign_ed25519_sk_to_curve25519 (ed25519_secret_key ret) with
  | None => (false, ret)
  | Some sk =>
      let ret := set_kx_secret ret sk in
      match crypto_sign_ed25519_pk_to_curve25519 (ed25519_public_key ret) with
      | None => (false, ret)
      | Some pk => (true, set_kx_public ret pk)
      end
  end.

(** [keypair] is what [crypto_sign_ed25519_keypair] makes up. *)
Definition np_cryptofactory_new (keypair : option (list Z * list Z)) (buffer : np_crypto_t) : bool * np_crypto_t :=
  match keypair with
  | None => (false, buffer)
  | Some (pk, sk) => derive_kx (set_secret (set_public buffer pk) sk)
  end.

Definition np_cryptofactory_by_secret (buffer : np_crypto_t) (secret_key : list Z) : bool * np_crypto_t :=
  let ret := set_secret buffer secret_key in
  match crypto_sign_ed25519_sk_to_pk secret_key with
  | None => (false, ret)
  | Some pk => derive_kx (set_public ret pk)
  end.

(** The flags of the secret keys are only cleared when the conversion works. *)
Definition np_cryptofactory_by_public (buffer : np_crypto_t) (public_key : list Z) : bool * np_crypto_t :=
  let ret := set_public buffer public_key in
  match crypto_sign_ed25519_pk_to_curve25519 public_key with
  | None => (false, ret)
  | Some pk => (true, no_secrets (set_kx_public ret pk))
  end.

(** ** Sessions *)

(** Whether 0 is returned, and the session. *)
Definition np_crypto_session (my_container : np_crypto_t) (session : np_crypto_session_t) (remote_container : np_crypto_t)
    (remote_is_client : bool) : result (bool * np_crypto_session_t) :=
  c_assert (derived_kx_public_key_is_set remote_container);;
  c_assert (derived_kx_secret_key_is_set my_container);;
  c_assert (derived_kx_public_key_is_set my_container);;
  let session_keys := if remote_is_client then crypto_kx_server_session_keys else crypto_kx_client_session_keys in
  match session_keys (derived_kx_public_key my_container) (derived_kx_secret_key my_container) (derived_kx_public_key remote_container) with
  | Some (read, write) => Ok (true, set_session_keys session read write)
  | None => Ok (false, session)
  end.

(** Ciphertext and mac. *)
Definition np_crypto_session_encrypt (session : np_crypto_session_t) (ciphertext_length mac_length : Z) (data ad_data nonce : list Z)
    : result (list Z * list Z) :=
  c_assert (ciphertext_length =? Z.of_nat (length data));;
  c_assert (crypto_aead_chacha20poly1305_IETF_ABYTES =? mac_length);;
  Ok (aead_encrypt (session_key_to_write session) nonce ad_data data).

Definition np_crypto_session_decrypt (session : np_crypto_session_t) (ciphertext mac : list Z) (data_length : Z) (ad_data nonce : list Z)
    : result (option (list Z)) :=
  c_assert (Z.of_nat (length ciphertext) =? data_length);;
  Ok (aead_decrypt (session_key_to_read session) nonce ad_data ciphertext mac).

(** ** Signatures *)

Definition np_crypto_generate_signature (self : np_crypto_t) (data_to_sign : list Z) : option (list Z) :=
  if ed25519_secret_key_is_set self then Some (crypto_sign_detached data_to_sign (ed25519_secret_key self)) else None.
Definition np_crypto_verify_signature (self : np_crypto_t) (signature_buffer data_to_verify : list Z) : Z :=
  if ed25519_public_key_is_set self then crypto_sign_verify_detached signature_buffer data_to_verify (ed25519_public_key self) else -2.

(** ** What the functions establish *)

(** A container whose key exchange keys belong together. *)
Definition kx_ready (c : np_crypto_t) : Prop :=
  derived_kx_public_key_is_set c = true /\ derived_kx_secret_key_is_set c = true /\
  kx_pair (derived_kx_public_key c) (derived_kx_secret_key c).
(** What a peer knows of it. *)
Definition kx_public (c c' : np_crypto_t) : Prop :=
  derived_kx_public_key_is_set c' = true /\ derived_kx_public_key c' = derived_kx_public_key c.

Lemma by_secret_ready buffer sk c : np_cryptofactory_by_secret buffer sk = (true, c) ->
  kx_ready c /\ ed25519_secret_key c = sk /\ ed25519_secret_key_is_set c = true /\ ed25519_public_key_is_set c = true /\
  crypto_sign_ed25519_sk_to_pk sk = Some (ed25519_public_key c) /\
  crypto_sign_ed25519_pk_to_curve25519 (ed25519_public_key c) = Some (derived_kx_public_key c).
Proof.
  unfold np_cryptofactory_by_secret, derive_kx. intros E. destruct (crypto_sign_ed25519_sk_to_pk sk) as [pk|] eqn:E1; [|done].
  cbn in E. destruct (crypto_sign_ed25519_sk_to_curve25519 sk) as [csk|] eqn:E2; [|done].
  cbn in E. destruct (crypto_sign_ed25519_pk_to_curve25519 pk) as [cpk|] eqn:E3; [|done].
  injection E as <-. cbn. split; [|done]. split; [done|]. split; [done|]. by eapply curve_pair.
Qed.

Lemma by_public_known buffer buffer' sk c c' :
  np_cryptofactory_by_secret buffer sk = (true, c) ->
  np_cryptofactory_by_public buffer' (ed25519_public_key c) = (true, c') -> kx_public c c' /\ ed25519_public_key c' = ed25519_public_key c.
Proof.
  intros E E'. apply by_secret_ready in E as (_ & _ & _ & _ & _ & E). unfold np_cryptofactory_by_public in E'. rewrite E in E'.
  injection E' as <-. done.
Qed.

(** Both sides of an exchange hold each other's key. *)
Lemma session_agrees a b a' b' sa sb sa' sb' : kx_ready a -> kx_ready b -> kx_public a a' -> kx_public b b' ->
  np_crypto_session a sa b' false = Ok (true, sa') -> np_crypto_session b sb a' true = Ok (true, sb') ->
  session_key_to_read sa' = session_key_to_write sb' /\ session_key_to_write sa' = session_key_to_read sb' /\
  session_type sa' = session_type sa /\ session_type sb' = session_type sb.
Proof.
  intros (A1 & A2 & A3) (B1 & B2 & B3) (A4 & A5) (B4 & B5). unfold np_crypto_session.
  rewrite A1, A2, A4, B1, B2, B4, A5, B5. cbn [c_assert mbind result_bind].
  rewrite (kx_agree _ _ _ _ A3 B3).
  destruct (crypto_kx_server_session_keys (derived_kx_public_key b) (derived_kx_secret_key b) (derived_kx_public_key a)) as [[r w]|]; cbn; [|done].
  intros [= <-] [= <-]. done.
Qed.

(** ... and both find one, or neither does. *)
Lemma session_both a b a' b' sa sb : kx_ready a -> kx_ready b -> kx_public a a' -> kx_public b b' ->
  exists ok sa' sb', np_crypto_session a sa b' false = Ok (ok, sa') /\ np_crypto_session b sb a' true = Ok (ok, sb').
Proof.
  intros (A1 & A2 & A3) (B1 & B2 & B3) (A4 & A5) (B4 & B5). unfold np_crypto_session.
  rewrite A1, A2, A4, B1, B2, B4, A5, B5. cbn [c_assert mbind result_bind].
  rewrite (kx_agree _ _ _ _ A3 B3).
  destruct (crypto_kx_server_session_keys (derived_kx_public_key b) (derived_kx_secret_key b) (derived_kx_public_key a)) as [[r w]|]; cbn; do 3 eexists; (split; reflexivity).
Qed.

(** What one side writes the other reads. *)
Lemma session_transport sa sb data ad nonce : session_key_to_write sa = session_key_to_read sb ->
  exists c m, np_crypto_session_encrypt sa (Z.of_nat (length data)) 16 data ad nonce = Ok (c, m) /\
    np_crypto_session_decrypt sb c m (Z.of_nat (length data)) ad nonce = Ok (Some data).
Proof.
  intros E. unfold np_crypto_session_encrypt, np_crypto_session_decrypt. rewrite (Z.eqb_refl (Z.of_nat (length data))).
  change (crypto_aead_chacha20poly1305_IETF_ABYTES =? 16) with true. cbn [c_assert mbind result_bind].
  pose proof (aead_lengths (session_key_to_write sa) nonce ad data) as [Hc _].
  pose proof (aead_roundtrip (session_key_to_write sa) nonce ad data) as Hr.
  destruct (aead_encrypt (session_key_to_write sa) nonce ad data) as [c m]. exists c, m. cbn [fst snd] in *. split; [done|].
  rewrite Hc, (Z.eqb_refl (Z.of_nat (length data))). cbn [c_assert mbind result_bind]. by rewrite <-E, Hr.
Qed.

End Operations.

(** ** The equations can hold *)

Module Toy.

Definition fit (n : nat) (l : list Z) : list Z := take n (map (fun x => x mod 256) l ++ replicate n 0).
Definition mac_of (k n ad : list Z) : list Z := fit 16 (k ++ n ++ ad).

Lemma fit_length n l : length (fit n l) = n.
Proof. unfold fit. rewrite length_take, length_app, length_replicate. lia. Qed.
Lemma fit_bytes n l : Forall (in_u 8) (fit n l).
Proof.
  unfold fit. apply Forall_take, Forall_app. split.
  - apply Forall_map, Forall_true. intros x. cbn. unfold in_u. change (2 ^ 8) with 256. apply Z.mod_pos_bound. lia.
  - apply Forall_replicate. unfold in_u. lia.
Qed.

(** The secret key is the public key; a signature is the hash. *)
Definition verify (s m pk : list Z) : Z := if decide (s = fit 64 (m ++ pk)) then 0 else -1.
Definition aead_dec (k n ad c m : list Z) : option (list Z) := if decide (m = mac_of k n ad) then Some c else None.
End Toy.

Definition toy_sodium : Sodium.
Proof.
  refine {|
    crypto_generichash := Toy.fit 32;
    sodium_bin2hex := bin2hex_ref;
    sodium_hex2bin := hex2bin_ref;
    crypto_sign_detached := fun m sk => Toy.fit 64 (m ++ Toy.fit 32 sk);
    crypto_sign_verify_detached := Toy.verify;
    crypto_sign_ed25519_sk_to_pk := fun sk => Some (Toy.fit 32 sk);
    crypto_sign_ed25519_sk_to_curve25519 := fun sk => Some (Toy.fit 32 sk);
    crypto_sign_ed25519_pk_to_curve25519 := fun pk => Some pk;
    crypto_kx_client_session_keys := fun p s r => Some (Toy.fit 32 (map (Z.add 1) s ++ r), Toy.fit 32 (map (Z.add 2) s ++ r));
    crypto_kx_server_session_keys := fun p s r => Some (Toy.fit 32 (map (Z.add 2) r ++ s), Toy.fit 32 (map (Z.add 1) r ++ s));
    aead_encrypt := fun k n ad m => (m, Toy.mac_of k n ad);
    aead_decrypt := Toy.aead_dec;
    kx_pair := eq;
  |}.
  - done.
  - apply hex2bin_ref_doc.
  - intros m. apply Toy.fit_length.
  - intros m. apply Toy.fit_bytes.
  - intros m sk. apply Toy.fit_length.
  - intros m sk. apply Toy.fit_bytes.
  - intros m sk pk [= <-]. unfold Toy.verify. by rewrite decide_True.
  - intros sk pk [= <-]. split; [apply Toy.fit_length|apply Toy.fit_bytes].
  - intros sk pk csk cpk [= <-] [= <-] [= <-]. done.
  - intros pc sc ps ss -> ->. done.
  - intros k n ad m. unfold Toy.aead_dec. by rewrite decide_True.
  - intros k n ad m. split; [done|apply Toy.fit_length].
  - intros k n ad m Hm. split; [exact Hm|apply Toy.fit_bytes].
Defined.
