(* ===== verification/Aaatoken.v ===== *)
(** * Tokens: [src/np_aaatoken.c]

    A token carries who issued it, for what and until when, a data block of
    attributes, a public key and two signatures, one of the content and one of the
    attributes.  Here are its hash and fingerprint, signing, sending it as a tree
    and reading it from one, and the partner that is kept in its attributes; file
    [TokenFactory] has the tokens a node makes.  The check of file [Token] is
    repeated on whole tokens, with the accesses that can fail.

    Strings are the characters before the terminator of their array. *)
From Stdlib Require Import ZArith Lia QArith Lqa String.
From stdpp Require Import prelude.
From S2P Require Import Prelude Real Dhkey Token Crypto Treeval Tree Qcbor Serial Datablock.

Local Open Scope Z_scope.

Definition NP_UUID_BYTES : nat := 16.
Definition NP_EXTENSION_BYTES : Z := 10240.
Definition NP_FINGERPRINT_BYTES : Z := 32.

Definition AAA_UNKNOWN : Z := 0x00.
Definition AAA_AUTHENTICATED : Z := 0x02.
Definition AAA_AUTHORIZED : Z := 0x04.
Definition IS_AUTHENTICATED (x : Z) : bool := AAA_AUTHENTICATED =? Z.land AAA_AUTHENTICATED x.
Definition IS_AUTHORIZED (x : Z) : bool := AAA_AUTHORIZED =? Z.land AAA_AUTHORIZED x.

(** [issuer_token]: the keys of the token it points to, [None] when it is the token
    itself. *)
Record np_aaatoken_t := Aaatoken {
  version : Q;
  uuid : list Z;
  realm : list Z;
  issuer : list Z;
  subject : list Z;
  audience : list Z;
  issued_at : Q;
  not_before : Q;
  expires_at : Q;
  attributes : list Z;
  attributes_signature : list Z;
  crypto : np_crypto_t;
  signature : list Z;
  state : Z;
  token_type : Z;
  scope : Z;
  private_key_is_set : bool;
  issuer_token : option np_crypto_t;
  is_signature_verified : bool;
  is_signature_attributes_verified : bool;
}.

Definition set_uuid (t : np_aaatoken_t) (uuid_ : list Z) : np_aaatoken_t :=
  Aaatoken (version t) uuid_ (realm t) (issuer t) (subject t) (audience t) (issued_at t) (not_before t) (expires_at t)
    (attributes t) (attributes_signature t) (crypto t) (signature t) (state t) (token_type t) (scope t) (private_key_is_set t) (issuer_token t) (is_signature_verified t) (is_signature_attributes_verified t).
Definition set_realm (t : np_aaatoken_t) (realm_ : list Z) : np_aaatoken_t :=
  Aaatoken (version t) (uuid t) realm_ (issuer t) (subject t) (audience t) (issued_at t) (not_before t) (expires_at t)
    (attributes t) (attributes_signature t) (crypto t) (signature t) (state t) (token_type t) (scope t) (private_key_is_set t) (issuer_token t) (is_signature_verified t) (is_signature_attributes_verified t).
Definition set_issuer (t : np_aaatoken_t) (issuer_ : list Z) : np_aaatoken_t :=
  Aaatoken (version t) (uuid t) (realm t) issuer_ (subject t) (audience t) (issued_at t) (not_before t) (expires_at t)
    (attributes t) (attributes_signature t) (crypto t) (signature t) (state t) (token_type t) (scope t) (private_key_is_set t) (issuer_token t) (is_signature_verified t) (is_signature_attributes_verified t).
Definition set_subject (t : np_aaatoken_t) (subject_ : list Z) : np_aaatoken_t :=
  Aaatoken (version t) (uuid t) (realm t) (issuer t) subject_ (audience t) (issued_at t) (not_before t) (expires_at t)
    (attributes t) (attributes_signature t) (crypto t) (signature t) (state t) (token_type t) (scope t) (private_key_is_set t) (issuer_token t) (is_signature_verified t) (is_signature_attributes_verified t).
Definition set_audience (t : np_aaatoken_t) (audience_ : list Z) : np_aaatoken_t :=
  Aaatoken (version t) (uuid t) (realm t) (issuer t) (subject t) audience_ (issued_at t) (not_before t) (expires_at t)
    (attributes t) (attributes_signature t) (crypto t) (signature t) (state t) (token_type t) (scope t) (private_key_is_set t) (issuer_token t) (is_signature_verified t) (is_signature_attributes_verified t).
Definition set_expires_at (t : np_aaatoken_t) (expires_at_ : Q) : np_aaatoken_t :=
  Aaatoken (version t) (uuid t) (realm t) (issuer t) (subject t) (audience t) (issued_at t) (not_before t) expires_at_
    (attributes t) (attributes_signature t) (crypto t) (signature t) (state t) (token_type t) (scope t) (private_key_is_set t) (issuer_token t) (is_signature_verified t) (is_signature_attributes_verified t).
Definition set_issued_at (t : np_aaatoken_t) (issued_at_ : Q) : np_aaatoken_t :=
  Aaatoken (version t) (uuid t) (realm t) (issuer t) (subject t) (audience t) issued_at_ (not_before t) (expires_at t)
    (attributes t) (attributes_signature t) (crypto t) (signature t) (state t) (token_type t) (scope t) (private_key_is_set t) (issuer_token t) (is_signature_verified t) (is_signature_attributes_verified t).
Definition set_not_before (t : np_aaatoken_t) (not_before_ : Q) : np_aaatoken_t :=
  Aaatoken (version t) (uuid t) (realm t) (issuer t) (subject t) (audience t) (issued_at t) not_before_ (expires_at t)
    (attributes t) (attributes_signature t) (crypto t) (signature t) (state t) (token_type t) (scope t) (private_key_is_set t) (issuer_token t) (is_signature_verified t) (is_signature_attributes_verified t).
Definition set_attributes (t : np_aaatoken_t) (attributes_ : list Z) : np_aaatoken_t :=
  Aaatoken (version t) (uuid t) (realm t) (issuer t) (subject t) (audience t) (issued_at t) (not_before t) (expires_at t)
    attributes_ (attributes_signature t) (crypto t) (signature t) (state t) (token_type t) (scope t) (private_key_is_set t) (issuer_token t) (is_signature_verified t) (is_signature_attributes_verified t).
Definition set_attributes_signature (t : np_aaatoken_t) (attributes_signature_ : list Z) : np_aaatoken_t :=
  Aaatoken (version t) (uuid t) (realm t) (issuer t) (subject t) (audience t) (issued_at t) (not_before t) (expires_at t)
    (attributes t) attributes_signature_ (crypto t) (signature t) (state t) (token_type t) (scope t) (private_key_is_set t) (issuer_token t) (is_signature_verified t) (is_signature_attributes_verified t).
Definition set_crypto (t : np_aaatoken_t) (crypto_ : np_crypto_t) : np_aaatoken_t :=
  Aaatoken (version t) (uuid t) (realm t) (issuer t) (subject t) (audience t) (issued_at t) (not_before t) (expires_at t)
    (attributes t) (attributes_signature t) crypto_ (signature t) (state t) (token_type t) (scope t) (private_key_is_set t) (issuer_token t) (is_signature_verified t) (is_signature_attributes_verified t).
Definition set_signature (t : np_aaatoken_t) (signature_ : list Z) : np_aaatoken_t :=
  Aaatoken (version t) (uuid t) (realm t) (issuer t) (subject t) (audience t) (issued_at t) (not_before t) (expires_at t)
    (attributes t) (attributes_signature t) (crypto t) signature_ (state t) (token_type t) (scope t) (private_key_is_set t) (issuer_token t) (is_signature_verified t) (is_signature_attributes_verified t).
Definition set_state (t : np_aaatoken_t) (state_ : Z) : np_aaatoken_t :=
  Aaatoken (version t) (uuid t) (realm t) (issuer t) (subject t) (audience t) (issued_at t) (not_before t) (expires_at t)
    (attributes t) (attributes_signature t) (crypto t) (signature t) state_ (token_type t) (scope t) (private_key_is_set t) (issuer_token t) (is_signature_verified t) (is_signature_attributes_verified t).
Definition set_type (t : np_aaatoken_t) (token_type_ : Z) : np_aaatoken_t :=
  Aaatoken (version t) (uuid t) (realm t) (issuer t) (subject t) (audience t) (issued_at t) (not_before t) (expires_at t)
    (attributes t) (attributes_signature t) (crypto t) (signature t) (state t) token_type_ (scope t) (private_key_is_set t) (issuer_token t) (is_signature_verified t) (is_signature_attributes_verified t).
Definition set_scope (t : np_aaatoken_t) (scope_ : Z) : np_aaatoken_t :=
  Aaatoken (version t) (uuid t) (realm t) (issuer t) (subject t) (audience t) (issued_at t) (not_before t) (expires_at t)
    (attributes t) (attributes_signature t) (crypto t) (signature t) (state t) (token_type t) scope_ (private_key_is_set t) (issuer_token t) (is_signature_verified t) (is_signature_attributes_verified t).
Definition set_issuer_token (t : np_aaatoken_t) (issuer_token_ : option np_crypto_t) : np_aaatoken_t :=
  Aaatoken (version t) (uuid t) (realm t) (issuer t) (subject t) (audience t) (issued_at t) (not_before t) (expires_at t)
    (attributes t) (attributes_signature t) (crypto t) (signature t) (state t) (token_type t) (scope t) (private_key_is_set t) issuer_token_ (is_signature_verified t) (is_signature_attributes_verified t).
Definition set_checked (t : np_aaatoken_t) (state_ : Z) (is_signature_verified_ : bool) (is_signature_attributes_verified_ : bool) : np_aaatoken_t :=
  Aaatoken (version t) (uuid t) (realm t) (issuer t) (subject t) (audience t) (issued_at t) (not_before t) (expires_at t)
    (attributes t) (attributes_signature t) (crypto t) (signature t) state_ (token_type t) (scope t) (private_key_is_set t) (issuer_token t) is_signature_verified_ is_signature_attributes_verified_.

(** The representation of a double, which the hash is computed of and which is sent. *)
Class Doubles := {
  is_double : Q -> Prop;
  dbl_bits : Q -> Z;
  bits_dbl : Z -> Q;
  bits_range x : is_double x -> in_u 64 (dbl_bits x);
  bits_roundtrip x : is_double x -> bits_dbl (dbl_bits x) = x;
}.

(** [strnlen (s, n)] characters of [s] *)
Definition strn_of (n : nat) (s : list Z) : list Z := until_nul (take n s).

(** The keys of the issuer. *)
Definition issuer_crypto (t : np_aaatoken_t) : np_crypto_t := default (crypto t) (issuer_token t).

Section Tokens.
Context `{Sodium} `{Qcbor} `{Doubles}.
Context (encoder_leaves : list item -> Z -> list Z).
(** [np_treeval_to_str] of a value that is no string: what [snprintf] prints. *)
Context (printed : np_treeval_t -> list Z).

Abbreviation np_set_data := (np_set_data encoder_leaves).
Abbreviation np_merge_data := (np_merge_data encoder_leaves).
Abbreviation np_init_datablock := (np_init_datablock encoder_leaves).
Abbreviation np_dhkey_create_from_hash := (np_dhkey_create_from_hash sodium_hex2bin).
Abbreviation _np_dhkey_str := (_np_dhkey_str sodium_bin2hex).

(** ** Hashes *)

Definition le_bytes (n : nat) (x : Z) : list Z := map (fun i => (x ≫ (8 * Z.of_nat i)) mod 256) (seq 0 n).
Definition dbl_bytes (x : Q) : list Z := le_bytes 8 (dbl_bits x).

(** The bytes the updates of the hash are given, one after the other. *)
Definition hashed_bytes (self : np_aaatoken_t) : list Z :=
  uuid self ++ strn_of 255 (realm self) ++ strn_of 65 (issuer self) ++ strn_of 255 (subject self) ++ strn_of 255 (audience self) ++
  ed25519_public_key (crypto self) ++ dbl_bytes (expires_at self) ++ dbl_bytes (issued_at self) ++ dbl_bytes (not_before self).
Definition _np_aaatoken_get_hash (self : np_aaatoken_t) : list Z := crypto_generichash (hashed_bytes self).

(** The size of the attributes is what their header says. *)
Definition __np_aaatoken_get_attributes_hash (self : np_aaatoken_t) : result (list Z) :=
  let '(r, attr_data_size) := np_get_data_size (attributes self) in
  c_assert (bool_decide (r = np_data_ok));;
  a ← read_bytes (attributes self) attr_data_size;
  Ok (crypto_generichash (a ++ signature self)).

Definition np_aaatoken_get_fingerprint (self : np_aaatoken_t) (include_extensions : bool) : result np_dhkey_t :=
  let hash_fields := _np_aaatoken_get_hash self in
  ext ← (if include_extensions then __np_aaatoken_get_attributes_hash self else Ok []);
  np_dhkey_create_from_hash (sodium_bin2hex (crypto_generichash (hash_fields ++ signature self ++ ext))).

Definition _np_aaatoken_get_issuer (self : np_aaatoken_t) : result np_dhkey_t := np_dhkey_create_from_hash (issuer self).

(** ** Signing *)

Definition _np_aaatoken_update_scope (self : np_aaatoken_t) : np_aaatoken_t :=
  set_scope self (if private_key_is_set self then np_aaatoken_scope_private else np_aaatoken_scope_public).

Definition _np_aaatoken_update_attributes_signature (self : np_aaatoken_t) : result np_aaatoken_t :=
  c_assert (scope self <=? np_aaatoken_scope_private_available);;
  hash ← __np_aaatoken_get_attributes_hash self;
  Ok (set_attributes_signature self (crypto_sign_detached hash (ed25519_secret_key (issuer_crypto self)))).

(** With a [signee] its signature of (32 bytes of) the signature becomes an attribute. *)
Definition _np_aaatoken_set_signature (self : np_aaatoken_t) (signee : option np_aaatoken_t) : result np_aaatoken_t :=
  c_assert (ed25519_public_key_is_set (crypto self));;
  match signee with
  | None =>
      c_assert (scope self <=? np_aaatoken_scope_private_available);;
      let hash := _np_aaatoken_get_hash self in
      Ok (set_signature self (crypto_sign_detached hash (ed25519_secret_key (issuer_crypto self))))
  | Some signee =>
      c_assert (private_key_is_set signee);;
      c_assert (ed25519_secret_key_is_set (crypto signee));;
      my_token_fp ← np_aaatoken_get_fingerprint signee false;
      let signee_token_fp := _np_dhkey_str my_token_fp in
      c_assert (strncmp_eq signee_token_fp (issuer self) (NP_FINGERPRINT_BYTES * 2));;
      let signer_pubsig := ed25519_public_key (crypto signee) ++
        crypto_sign_detached (take Crypto.crypto_generichash_BYTES (signature self)) (ed25519_secret_key (crypto signee)) in
      '(_, a) ← np_set_data (attributes self) (Data_conf signee_token_fp NP_DATA_TYPE_BIN 96) (U_ptr signer_pubsig);
      _np_aaatoken_update_attributes_signature (set_attributes self a)
  end.

(** ** The partner *)

Definition partner_key : list Z := c_string "_np.partner_fp".

Definition np_aaatoken_set_partner_fp (self : np_aaatoken_t) (partner_fp : np_dhkey_t) : result np_aaatoken_t :=
  '(r, a) ← np_set_data (attributes self) (Data_conf partner_key NP_DATA_TYPE_BIN NP_FINGERPRINT_BYTES) (U_ptr (dhkey_bytes partner_fp));
  c_assert (bool_decide (r = np_data_ok));;
  _np_aaatoken_update_attributes_signature (set_attributes self a).

Definition np_aaatoken_get_partner_fp (self : np_aaatoken_t) : result np_dhkey_t :=
  '(r, o) ← np_get_data (attributes self) partner_key;
  c_assert (bool_decide (r = np_data_ok \/ r = np_key_not_found));;
  match o with
  | Some (conf, val) =>
      c_assert (conf_data_size conf =? NP_FINGERPRINT_BYTES);;
      p ← as_ptr val; b ← read_bytes p NP_FINGERPRINT_BYTES; Ok (bytes_dhkey b)
  | None =>
      match until_nul (issuer self) with
      | [] => np_aaatoken_get_fingerprint self false
      | _ => np_dhkey_create_from_hash (issuer self)
      end
  end.

(** ** Validity *)

Definition record_check (t : np_aaatoken_t) (ok : bool) : bool * option np_aaatoken_t :=
  (ok, Some (set_checked t (if ok then Z.lor (state t) AAA_VALID else Z.land (state t) AAA_INVALID)
               (is_signature_verified t) (is_signature_attributes_verified t))).

Definition check_attributes_signature (t : np_aaatoken_t) : result (np_aaatoken_t * bool) :=
  if is_signature_attributes_verified t then Ok (t, true)
  else if negb (bool_decide ((np_get_data_size (attributes t)).1 = np_data_ok)) then Ok (t, false)
  else
    hash ← __np_aaatoken_get_attributes_hash t;
    if crypto_sign_verify_detached (attributes_signature t) hash (ed25519_public_key (crypto t)) =? 0 then
      Ok (set_checked t (state t) (is_signature_verified t) true, true)
    else Ok (t, false).

(** Both signatures of a token of public scope. *)
Definition check_signatures (t : np_aaatoken_t) : result (np_aaatoken_t * bool) :=
  if is_signature_verified t then check_attributes_signature t
  else if crypto_sign_verify_detached (signature t) (_np_aaatoken_get_hash t) (ed25519_public_key (crypto t)) <? 0 then Ok (t, false)
  else check_attributes_signature (set_checked t (state t) true (is_signature_attributes_verified t)).

(** An attribute read as an unsigned number. *)
Definition uint_attribute (a : list Z) (key : string) : result (option Z) :=
  '(_, o) ← np_get_data a (c_string key);
  match o with Some (_, v) => n ← as_unsigned v; Ok (Some n) | None => Ok None end.

Definition check_thresholds (t : np_aaatoken_t) : result bool :=
  max ← uint_attribute (attributes t) "max_threshold";
  match max with
  | None => Ok false
  | Some token_max_threshold =>
      msg ← uint_attribute (attributes t) "msg_threshold";
      match msg with
      | None => Ok false
      | Some token_msg_threshold => Ok ((0 <=? token_msg_threshold) && (token_msg_threshold <=? token_max_threshold))
      end
  end.

Definition _np_aaatoken_is_valid (now : Q) (token : option np_aaatoken_t) (expected_type : Z) : result (bool * option np_aaatoken_t) :=
  match token with
  | None => Ok (false, None)
  | Some t =>
      if negb (FLAG_CMP (token_type t) expected_type) then Ok (record_check t false)
      else if Qltb (expires_at t) now then Ok (record_check t false)
      else
        '(t, ok) ← (if np_aaatoken_scope_private_available <? scope t then check_signatures t else Ok (t, true));
        if negb ok then Ok (record_check t false)
        else if FLAG_CMP (token_type t) np_aaatoken_type_message_intent then
          usable ← check_thresholds t; Ok (record_check t usable)
        else Ok (record_check t true)
  end.

(** ** Sending *)

(** The string in an array of [n]; one without a terminator is read on behind it. *)
Definition c_str (n : nat) (s : list Z) : result (list Z) :=
  if (length (until_nul s) <? n)%nat then Ok (until_nul s) else Err Bad_access.

(** The fields up to the signature, in the order they are put into the tree. *)
Definition encode_fields (data : np_tree_t) (token : np_aaatoken_t) : result np_tree_t :=
  data ← np_tree_replace_str data (c_string "np.t.type") (np_treeval_new_ush (token_type token));
  data ← np_tree_replace_str data (c_string "np.t.u") (np_treeval_new_bin (uuid token));
  s ← c_str 255 (realm token); data ← np_tree_replace_str data (c_string "np.t.r") (np_treeval_new_s s);
  s ← c_str 65 (issuer token); data ← np_tree_replace_str data (c_string "np.t.i") (np_treeval_new_s s);
  s ← c_str 255 (subject token); data ← np_tree_replace_str data (c_string "np.t.s") (np_treeval_new_s s);
  s ← c_str 255 (audience token); data ← np_tree_replace_str data (c_string "np.t.a") (np_treeval_new_s s);
  data ← np_tree_replace_str data (c_string "np.t.p") (np_treeval_new_bin (ed25519_public_key (crypto token)));
  data ← np_tree_replace_str data (c_string "np.t.ex") (np_treeval_new_d (dbl_bits (expires_at token)));
  data ← np_tree_replace_str data (c_string "np.t.ia") (np_treeval_new_d (dbl_bits (issued_at token)));
  data ← np_tree_replace_str data (c_string "np.t.nb") (np_treeval_new_d (dbl_bits (not_before token)));
  np_tree_replace_str data (c_string "np.t.si") (np_treeval_new_bin (signature token)).

(** The attributes of a token whose secret key is at hand are signed again. *)
Definition _np_aaatoken_encode (data : np_tree_t) (token : np_aaatoken_t) : result (np_tree_t * np_aaatoken_t) :=
  data ← encode_fields data token;
  let attributes_size := (np_get_data_size (attributes token)).2 in
  a ← read_bytes (attributes token) attributes_size;
  data ← np_tree_replace_str data (c_string "np.t.e") (np_treeval_new_bin a);
  token ← (if scope token <=? np_aaatoken_scope_private_available then _np_aaatoken_update_attributes_signature token else Ok token);
  data ← np_tree_replace_str data (c_string "np.t.sie") (np_treeval_new_bin (attributes_signature token));
  Ok (data, token).

(** ** Receiving *)

(** [np_treeval_to_str]: for a character, the address of its own argument. *)
Definition np_treeval_to_str (v : np_treeval_t) : result (list Z) :=
  match value v with V_s s => Ok (until_nul s) | V_c _ | V_uc _ => Err Bad_access | _ => Ok (printed v) end.

(** [n] bytes at [value.bin]; of the other members only the strings are pointers. *)
Definition bin_bytes (v : np_treeval_t) (n : Z) : result (list Z) :=
  match value v with
  | V_bin b | V_hash b => read_bytes b n
  | V_s s => read_bytes (s ++ [0]) n
  | _ => Err Bad_access
  end.

(** [value.ush] and [value.d] of a value of whatever type. *)
Definition ush_of (v : np_treeval_t) : result Z :=
  match value v with
  | V_ush x | V_sh x | V_i x | V_l x | V_ll x | V_ui x | V_ul x | V_ull x | V_special x | V_c x | V_uc x | V_f x | V_d x | V_a2_ui x _ => Ok (x mod 256)
  | _ => Err Undefined
  end.
Definition double_of (v : np_treeval_t) : result Q := match value v with V_d b => Ok (bits_dbl b) | _ => Err Undefined end.

(** A field of the tree: [act] when it is there and nothing was missing before. *)
Definition decode_field (data : np_tree_t) (key : string) (mandatory : bool)
    (act : np_treeval_t -> np_aaatoken_t -> result (bool * np_aaatoken_t)) (s : bool * np_aaatoken_t) : result (bool * np_aaatoken_t) :=
  let '(ret, token) := s in
  match (if ret then np_tree_find_str data (c_string key) else None) with
  | Some tmp => act tmp.2 token
  | None => Ok (if mandatory then false else ret, token)
  end.
Definition field_done (r : result np_aaatoken_t) : result (bool * np_aaatoken_t) := token ← r; Ok (true, token).

Definition decode_string (n : nat) (set : np_aaatoken_t -> list Z -> np_aaatoken_t) (v : np_treeval_t) (token : np_aaatoken_t) :=
  field_done (s ← np_treeval_to_str v; Ok (set token (take n s))).
Definition decode_double (set : np_aaatoken_t -> Q -> np_aaatoken_t) (v : np_treeval_t) (token : np_aaatoken_t) :=
  field_done (x ← double_of v; Ok (set token x)).
Definition decode_uuid (v : np_treeval_t) (token : np_aaatoken_t) := field_done (b ← bin_bytes v (Z.of_nat NP_UUID_BYTES); Ok (set_uuid token b)).
Definition decode_type (v : np_treeval_t) (token : np_aaatoken_t) := field_done (x ← ush_of v; Ok (set_type token x)).
Definition decode_key (v : np_treeval_t) (token : np_aaatoken_t) : result (bool * np_aaatoken_t) :=
  b ← bin_bytes v (Z.of_nat crypto_sign_PUBLICKEYBYTES);
  let '(ok, c) := np_cryptofactory_by_public (crypto token) b in Ok (ok, set_crypto token c).
Definition decode_signature (v : np_treeval_t) (token : np_aaatoken_t) :=
  field_done (b ← bin_bytes v (Z.of_nat crypto_sign_BYTES);
    Ok (set_checked (set_signature token b) (state token) false (is_signature_attributes_verified token))).

Definition decode_attributes_signature (v : np_treeval_t) (token : np_aaatoken_t) :=
  field_done (let n := Z.min (tv_size v) (Z.of_nat crypto_sign_BYTES) in
    b ← bin_bytes v n;
    Ok (set_checked (set_attributes_signature token (b ++ drop (Z.to_nat n) (attributes_signature token))) (state token)
          (is_signature_verified token) false)).
Definition decode_attributes (data : np_tree_t) (v : np_treeval_t) (token : np_aaatoken_t) : result (bool * np_aaatoken_t) :=
  let n := Z.min (tv_size v) NP_EXTENSION_BYTES in
  b ← bin_bytes v n;
  decode_field data "np.t.sie" true decode_attributes_signature (true, set_attributes token (b ++ drop (Z.to_nat n) (attributes token))).

Definition np_aaatoken_decode (data : np_tree_t) (token : np_aaatoken_t) : result (bool * np_aaatoken_t) :=
  let s := (true, set_type (set_scope token np_aaatoken_scope_undefined) np_aaatoken_type_undefined) in
  s ← decode_field data "np.t.u" true decode_uuid s;
  s ← decode_field data "np.t.type" true decode_type s;
  s ← decode_field data "np.t.r" false (decode_string 255 set_realm) s;
  s ← decode_field data "np.t.i" true (decode_string 65 set_issuer) s;
  s ← decode_field data "np.t.s" true (decode_string 255 set_subject) s;
  s ← decode_field data "np.t.a" false (decode_string 255 set_audience) s;
  s ← decode_field data "np.t.p" true decode_key s;
  s ← decode_field data "np.t.ex" true (decode_double set_expires_at) s;
  s ← decode_field data "np.t.ia" false (decode_double set_issued_at) s;
  s ← decode_field data "np.t.nb" false (decode_double set_not_before) s;
  s ← decode_field data "np.t.si" true decode_signature s;
  '(ret, token) ← decode_field data "np.t.e" false (decode_attributes data) s;
  Ok (ret, _np_aaatoken_update_scope token).

(** ** New tokens *)

(** [_np_aaatoken_t_new]: a generated uuid, the time, ten to thirty seconds to live. *)
Definition _np_aaatoken_t_new (old : np_aaatoken_t) (uuid_ : list Z) (now : Q) (expire_sec : Z) : result np_aaatoken_t :=
  '(_, a) ← np_init_datablock (attributes old) NP_EXTENSION_BYTES;
  let c := Crypto false false (derived_kx_public_key_is_set (crypto old)) (derived_kx_secret_key_is_set (crypto old))
             (zero_bytes 32) (zero_bytes 64) (zero_bytes 32) (zero_bytes 32) in
  Ok (Aaatoken (12 # 100) uuid_ [] [] [] [] now now (now + inject_Z expire_sec)%Q a (attributes_signature old) c
        (zero_bytes 64) AAA_UNKNOWN np_aaatoken_type_undefined np_aaatoken_scope_undefined false None false
        (is_signature_attributes_verified old)).

End Tokens.
