(* ===== verification/AaatokenSpec.v ===== *)
(** * Tokens on the way: the tree of a token and what is read from it

    A tree with string keys is described by the list of its fields; encoding adds
    thirteen of them, decoding looks them up again. *)
From Stdlib Require Import ZArith Lia QArith Lqa String.
From stdpp Require Import prelude gmap fin_maps.
From S2P Require Import Prelude Real Dhkey Token Crypto Treeval Tree TreeSpec Qcbor Serial SerialThms Datablock DatablockSpec DatablockThms Aaatoken.

Local Open Scope Z_scope.

(** ** Trees as lists of fields *)

Fixpoint assoc {V} (k : list Z) (l : list (list Z * V)) : option V :=
  match l with [] => None | (k', v) :: l => if decide (k' = k) then Some v else assoc k l end.
Definition of_list {V} (l : list (list Z * V)) : gmap (list Z) V := foldr (fun kv m => <[kv.1 := kv.2]> m) ∅ l.

Lemma of_list_lookup {V} (l : list (list Z * V)) k : of_list l !! k = assoc k l.
Proof.
  induction l as [|[k' v] l IH]; [apply lookup_empty|]. cbn. destruct (decide (k' = k)) as [->|Hne].
  - apply lookup_insert_eq.
  - by rewrite lookup_insert_ne.
Qed.

Lemma of_list_size {V} (l : list (list Z * V)) : (size (of_list l) <= length l)%nat.
Proof.
  induction l as [|[k' v] l IH]; [done|]. change (of_list ((k', v) :: l)) with (<[k' := v]> (of_list l)). cbn [length].
  destruct (of_list l !! k') eqn:E.
  - rewrite map_size_insert_Some by done. lia.
  - rewrite map_size_insert_None by done. lia.
Qed.

Lemma assoc_elem {V} k (v : V) l : assoc k l = Some v -> (k, v) ∈ l.
Proof.
  induction l as [|[k' v'] l IH]; [done|]. cbn. destruct (decide (k' = k)) as [->|]; [intros [= ->]; by left|].
  intros E. right. by apply IH.
Qed.

Abbreviation field := (list Z * np_treeval_t)%type.

Definition holds (t : np_tree_t) (l : list field) : Prop :=
  tree_wf K_str t /\ immutable t = false /\ to_map (rbh_root t) = of_list l.

Lemma tree_holds_empty : holds np_tree_create [].
Proof. split; [apply (create_wf K_str false)|done]. Qed.

Lemma put_field t l key v : holds t l -> (length key <= 255)%nat -> wf_val v ->
  exists t', np_tree_replace_str t key v = Ok t' /\ holds t' ((key, v) :: l).
Proof.
  intros (Hwf & Hm & Hl) Hk Hv.
  destruct (replace_spec K_str t (V_s key) 0 v v Hwf Hk Hm (copy_of_wf v Hv)) as (t' & E & Hwf' & Hm' & Hl').
  exists t'. split; [exact E|]. split; [done|]. split; [done|]. rewrite Hl', Hl. done.
Qed.

Lemma find_field t l key : holds t l -> (length key <= 255)%nat -> snd <$> np_tree_find_str t key = assoc key l.
Proof.
  intros (Hwf & Hm & Hl) Hk. rewrite <-of_list_lookup, <-Hl. apply (find_spec K_str t (V_s key)); done.
Qed.

(** The elements are the fields. *)
Lemma holds_elems t l : holds t l ->
  Forall (fun e : elem => exists k v, (k, v) ∈ l /\ e = (mk_key (V_s k), v)) (rbh_root t) /\ (length (rbh_root t) <= length l)%nat.
Proof.
  intros (Hwf & _ & Hl). pose proof (wf_ordered _ _ Hwf) as Ho. pose proof (ordered_nodup _ _ Ho) as Hnd. split.
  - apply Forall_forall. intros e He. pose proof (wf_keys _ _ Hwf) as Hk. rewrite Forall_forall in Hk. specialize (Hk e He).
    destruct Ho as [_ Ho]. rewrite Forall_forall in Ho. specialize (Ho e He).
    destruct e as [ek ev]. cbn [fst snd] in *. destruct (value ek) as [| | | | | | |s| | | | | | | | | | | | | | | | |] eqn:Ek; try done.
    exists s, ev. split; [|by rewrite Hk]. apply assoc_elem. rewrite <-of_list_lookup, <-Hl. unfold to_map.
    apply elem_of_list_to_map_1; [exact Hnd|]. apply list_elem_of_fmap. exists (ek, ev). cbn. by rewrite Ek.
  - pose proof (of_list_size l) as Hs. rewrite <-Hl in Hs. unfold to_map in Hs. revert Hs.
    assert (forall m : list (list Z * np_treeval_t), NoDup m.*1 -> size (list_to_map m : gmap (list Z) np_treeval_t) = length m) as Hm.
    { induction m as [|[k v] m IH]; [done|]. cbn [fmap list_fmap]. intros [Hk Hm]%NoDup_cons. cbn [list_to_map foldr].
      change (size (<[k := v]> (list_to_map m : gmap (list Z) np_treeval_t)) = length ((k, v) :: m)).
      rewrite map_size_insert_None by (by apply not_elem_of_list_to_map_1). by rewrite IH. }
    intros Hs. rewrite Hm in Hs by exact Hnd. by rewrite length_map in Hs.
Qed.

(** ** Tokens that can be sent *)

Definition text (n : nat) (s : list Z) : Prop := Forall (fun c => 1 <= c < 256) s /\ (length s < n)%nat /\ length s ≠ 1%nat.

Lemma text_nul n s : text n s -> until_nul s = s.
Proof. intros [Hs _]. by apply until_nul_text. Qed.
Lemma text_take n s : text n s -> take n s = s.
Proof. intros (_ & Hl & _). by rewrite take_ge by lia. Qed.
Lemma text_strn n s : text n s -> strn_of n s = s.
Proof. intros Hs. unfold strn_of. rewrite (text_take n s Hs). by eapply text_nul. Qed.
Lemma text_c_str n s : text n s -> c_str n s = Ok s.
Proof.
  intros Hs. unfold c_str. rewrite (text_nul n s Hs). destruct Hs as (_ & Hl & _).
  by destruct (Nat.ltb_spec (length s) n); [|lia].
Qed.

Definition bytes_of_size (n : nat) (b : list Z) : Prop := Forall (in_u 8) b /\ length b = n.

Section Tokens.
Context `{Sodium} `{Qcbor} `{!Block_limits} `{Doubles}.
Context (printed : np_treeval_t -> list Z).

(** The content of a token is in range, its attributes are a block of [l]. *)
Record content_ok (t : np_aaatoken_t) (l : list obj) : Prop := {
  ok_uuid : bytes_of_size NP_UUID_BYTES (uuid t);
  ok_realm : text 255 (realm t);
  ok_issuer : text 65 (issuer t);
  ok_subject : text 255 (subject t);
  ok_audience : text 255 (audience t);
  ok_times : is_double (issued_at t) /\ is_double (not_before t) /\ is_double (expires_at t);
  ok_key : bytes_of_size crypto_sign_PUBLICKEYBYTES (ed25519_public_key (crypto t));
  ok_signature : bytes_of_size crypto_sign_BYTES (signature t);
  ok_type : in_u 8 (token_type t);
  ok_attributes : is_block NP_EXTENSION_BYTES l [] (attributes t);
}.

Definition head_fields (t : np_aaatoken_t) : list field :=
  [(c_string "np.t.si", np_treeval_new_bin (signature t));
   (c_string "np.t.nb", np_treeval_new_d (dbl_bits (not_before t)));
   (c_string "np.t.ia", np_treeval_new_d (dbl_bits (issued_at t)));
   (c_string "np.t.ex", np_treeval_new_d (dbl_bits (expires_at t)));
   (c_string "np.t.p", np_treeval_new_bin (ed25519_public_key (crypto t)));
   (c_string "np.t.a", np_treeval_new_s (audience t));
   (c_string "np.t.s", np_treeval_new_s (subject t));
   (c_string "np.t.i", np_treeval_new_s (issuer t));
   (c_string "np.t.r", np_treeval_new_s (realm t));
   (c_string "np.t.u", np_treeval_new_bin (uuid t));
   (c_string "np.t.type", np_treeval_new_ush (token_type t))].
Definition used_attributes (t : np_aaatoken_t) (l : list obj) : list Z :=
  take (Z.to_nat (DATABLOCK_OVERHEAD + objs_size l)) (attributes t).
Definition all_fields (t : np_aaatoken_t) (l : list obj) (sig : list Z) : list field :=
  (c_string "np.t.sie", np_treeval_new_bin sig) :: (c_string "np.t.e", np_treeval_new_bin (used_attributes t l)) :: head_fields t.

Ltac next_field d Hd := match goal with
  | |- context [np_tree_replace_str ?t ?k ?v] =>
      let E := fresh "E" in let d' := fresh "d" in
      destruct (put_field t _ k v Hd) as (d' & E & Hd');
      [apply Nat.leb_le; vm_compute; reflexivity|constructor; done|];
      rewrite E, bind_ok; clear E Hd; rename Hd' into Hd
  end.

Lemma encode_fields_ok t l : content_ok t l -> exists d, encode_fields np_tree_create t = Ok d /\ holds d (head_fields t).
Proof.
  intros [_ Hr Hi Hs Ha _ _ _ _ _]. unfold encode_fields. pose proof tree_holds_empty as Hd.
  do 2 next_field d Hd.
  rewrite (text_c_str _ _ Hr), bind_ok. next_field d Hd.
  rewrite (text_c_str _ _ Hi), bind_ok. next_field d Hd.
  rewrite (text_c_str _ _ Hs), bind_ok. next_field d Hd.
  rewrite (text_c_str _ _ Ha), bind_ok. do 5 next_field d Hd.
  eapply put_field; [exact Hd|apply Nat.leb_le; vm_compute; reflexivity|by constructor].
Qed.

Lemma block_size t l : is_block NP_EXTENSION_BYTES l [] (attributes t) ->
  np_get_data_size (attributes t) = (np_data_ok, DATABLOCK_OVERHEAD + objs_size l) /\
  DATABLOCK_OVERHEAD + objs_size l <= Z.of_nat (length (attributes t)) /\ 0 <= objs_size l /\
  Z.of_nat (length (attributes t)) = NP_EXTENSION_BYTES.
Proof.
  intros Hb. unfold np_get_data_size. rewrite (block_read _ _ _ _ no_header Hb), bool_decide_eq_true_2 by done.
  pose proof (block_start _ _ _ _ Hb) as Hst. destruct Hb as [Ho _ _ (slack & -> & Hs)].
  pose proof (objs_size_ge l Ho). rewrite !length_app. cbn [length]. pose proof (objs_bytes_length l Ho).
  cbn [used_length header_of]. unfold NP_EXTENSION_BYTES in *. split; [done|]. lia.
Qed.

Lemma attributes_hash_ok t l : is_block NP_EXTENSION_BYTES l [] (attributes t) ->
  __np_aaatoken_get_attributes_hash t = Ok (crypto_generichash (used_attributes t l ++ signature t)).
Proof.
  intros Hb. destruct (block_size t l Hb) as (E & Hs & Hpos & _). unfold __np_aaatoken_get_attributes_hash. rewrite E.
  rewrite bool_decide_eq_true_2 by done. change (c_assert true) with (Ok tt). rewrite bind_ok. unfold read_bytes.
  destruct (Z.ltb_spec (Z.of_nat (length (attributes t))) (DATABLOCK_OVERHEAD + objs_size l)); [lia|]. done.
Qed.

(** The token after it was sent: its attributes are signed again when that is possible. *)
Definition resigned (t : np_aaatoken_t) (l : list obj) : np_aaatoken_t :=
  if scope t <=? np_aaatoken_scope_private_available then
    set_attributes_signature t
      (crypto_sign_detached (crypto_generichash (used_attributes t l ++ signature t)) (ed25519_secret_key (issuer_crypto t)))
  else t.

Lemma encode_ok t l : content_ok t l ->
  exists d, _np_aaatoken_encode np_tree_create t = Ok (d, resigned t l) /\ holds d (all_fields t l (attributes_signature (resigned t l))).
Proof.
  intros Hok. destruct (encode_fields_ok t l Hok) as (d & E & Hd). unfold _np_aaatoken_encode. rewrite E, bind_ok.
  pose proof (ok_attributes t l Hok) as Hb. destruct (block_size t l Hb) as (Es & Hs & Hpos & _). rewrite Es. cbn [snd].
  unfold read_bytes. destruct (Z.ltb_spec (Z.of_nat (length (attributes t))) (DATABLOCK_OVERHEAD + objs_size l)); [lia|].
  rewrite bind_ok. fold (used_attributes t l). next_field d Hd.
  assert ((if scope t <=? np_aaatoken_scope_private_available then _np_aaatoken_update_attributes_signature t else Ok t) = Ok (resigned t l)) as ->.
  { unfold resigned. destruct (scope t <=? np_aaatoken_scope_private_available) eqn:Esc; [|done].
    unfold _np_aaatoken_update_attributes_signature. rewrite Esc. change (c_assert true) with (Ok tt).
    by rewrite bind_ok, (attributes_hash_ok t l Hb), bind_ok. }
  rewrite bind_ok. next_field d Hd. eexists. split; [reflexivity|]. exact Hd.
Qed.

(** ** What is read *)

Lemma decode_step data fs key mandatory act tok v : holds data fs -> (length (c_string key) <= 255)%nat -> assoc (c_string key) fs = Some v ->
  decode_field data key mandatory act (true, tok) = act v tok.
Proof.
  intros Hd Hk E. unfold decode_field. pose proof (find_field data fs (c_string key) Hd Hk) as Hf. rewrite E in Hf.
  destruct (np_tree_find_str data (c_string key)) as [e|]; [|done]. by injection Hf as ->.
Qed.

(** The token read into [t0], with the signature [sig] of the attributes; [cpk] is the
    key exchange key of its public key. *)
Definition received (t t0 : np_aaatoken_t) (l : list obj) (sig cpk : list Z) : np_aaatoken_t :=
  let a := used_attributes t l in
  Aaatoken (version t0) (uuid t) (realm t) (issuer t) (subject t) (audience t) (issued_at t) (not_before t) (expires_at t)
    (a ++ drop (length a) (attributes t0)) sig
    (Crypto true false true false (ed25519_public_key (crypto t)) (ed25519_secret_key (crypto t0)) cpk (derived_kx_secret_key (crypto t0)))
    (signature t) (state t0) (token_type t) np_aaatoken_scope_public (private_key_is_set t0) (issuer_token t0) false false.

Lemma read_bytes_exact b n : Z.of_nat (length b) = n -> read_bytes b n = Ok b.
Proof. intros <-. unfold read_bytes. rewrite Z.ltb_irrefl. by rewrite Nat2Z.id, take_ge. Qed.

Lemma decode_string_ok n set s tok : text n s -> decode_string printed n set (np_treeval_new_s s) tok = Ok (true, set tok s).
Proof.
  intros Hs. unfold decode_string, np_treeval_to_str. cbn [np_treeval_new_s value]. rewrite (text_nul n s Hs), bind_ok.
  by rewrite (text_take n s Hs).
Qed.

Lemma decode_double_ok set x tok : is_double x -> decode_double set (np_treeval_new_d (dbl_bits x)) tok = Ok (true, set tok x).
Proof. intros Hx. unfold decode_double, double_of. cbn [np_treeval_new_d value]. by rewrite bind_ok, bits_roundtrip. Qed.

Ltac next_step Hd := erewrite (decode_step _ _ _ _ _ _ _ Hd); [|apply Nat.leb_le; vm_compute; reflexivity|reflexivity].

Lemma decode_ok t t0 l sig cpk data :
  content_ok t l -> bytes_of_size crypto_sign_BYTES sig -> holds data (all_fields t l sig) ->
  crypto_sign_ed25519_pk_to_curve25519 (ed25519_public_key (crypto t)) = Some cpk ->
  private_key_is_set t0 = false -> (length (attributes_signature t0) <= crypto_sign_BYTES)%nat ->
  np_aaatoken_decode printed data t0 = Ok (true, received t t0 l sig cpk).
Proof.
  intros [Hu Hr Hi Hs Ha (Ht1 & Ht2 & Ht3) Hpk Hsi Hty Hat] Hsig Hd Hc Hp Hl0.
  destruct (block_size t l Hat) as (_ & Hsz & Hpos & Hlen).
  assert (Z.of_nat (length (used_attributes t l)) = DATABLOCK_OVERHEAD + objs_size l) as Hua.
  { unfold used_attributes. rewrite length_take. unfold DATABLOCK_OVERHEAD in *. lia. }
  unfold np_aaatoken_decode. cbv zeta.
  next_step Hd. unfold decode_uuid, bin_bytes. cbn [np_treeval_new_bin value]. rewrite read_bytes_exact by (f_equal; apply Hu). cbn [mbind result_bind field_done].
  next_step Hd. unfold decode_type, ush_of. cbn [np_treeval_new_ush value]. rewrite (Z.mod_small (token_type t)) by (unfold in_u in Hty; lia). cbn [mbind result_bind field_done].
  next_step Hd. rewrite (decode_string_ok 255) by done. rewrite bind_ok.
  next_step Hd. rewrite (decode_string_ok 65) by done. rewrite bind_ok.
  next_step Hd. rewrite (decode_string_ok 255) by done. rewrite bind_ok.
  next_step Hd. rewrite (decode_string_ok 255) by done. rewrite bind_ok.
  next_step Hd. unfold decode_key, bin_bytes. cbn [np_treeval_new_bin value]. rewrite read_bytes_exact by (f_equal; apply Hpk). rewrite bind_ok.
  unfold np_cryptofactory_by_public. rewrite Hc. rewrite bind_ok.
  do 3 (next_step Hd; rewrite decode_double_ok by done; rewrite bind_ok).
  next_step Hd. unfold decode_signature, bin_bytes. cbn [np_treeval_new_bin value]. rewrite read_bytes_exact by (f_equal; apply Hsi). cbn [mbind result_bind field_done].
  next_step Hd. unfold decode_attributes, bin_bytes. cbn [np_treeval_new_bin value tv_size].
  rewrite Z.min_l by lia. rewrite read_bytes_exact by done. rewrite bind_ok.
  next_step Hd. unfold decode_attributes_signature, bin_bytes. cbn [np_treeval_new_bin value tv_size].
  rewrite Z.min_l by (rewrite (proj2 Hsig); lia). rewrite read_bytes_exact by done. cbn [mbind result_bind field_done].
  rewrite !Nat2Z.id. unfold _np_aaatoken_update_scope.
  match goal with |- context [drop (length sig) ?x] => change x with (attributes_signature t0) end.
  rewrite (drop_ge (attributes_signature t0)) by (rewrite (proj2 Hsig); exact Hl0). rewrite app_nil_r.
  match goal with |- context [private_key_is_set ?x] => change (private_key_is_set x) with (private_key_is_set t0) end.
  rewrite Hp. reflexivity.
Qed.

(** ** The tree can be serialised *)

Definition sendable_field (kv : field) : Prop :=
  text_ok kv.1 /\ serial kv.2 /\ 0 <= plain_size (mk_key (V_s kv.1), kv.2) <= 2 ^ 20 /\ depth kv.2 = 0%nat /\ width kv.2 = 0%nat.

Lemma put_all_bytes its : Forall item_ok its -> Forall (in_u 8) (flat_map qcbor_put its).
Proof. induction 1 as [|i its Hi _ IH]; [constructor|]. cbn [flat_map]. apply Forall_app. split; [by apply put_bytes|done]. Qed.

Lemma used_bytes t l : is_block NP_EXTENSION_BYTES l [] (attributes t) -> Forall (in_u 8) (used_attributes t l).
Proof.
  intros Hb. pose proof (block_start _ _ _ _ Hb) as Hst. pose proof (block_header _ _ _ _ Hb) as Hh. destruct Hb as [Ho _ _ (slack & E & Hs)].
  unfold used_attributes. rewrite E, (app_assoc (header_bytes _)).
  assert (Z.to_nat (DATABLOCK_OVERHEAD + objs_size l) = length (header_bytes (header_of NP_EXTENSION_BYTES l) ++ objs_bytes l)) as ->.
  { rewrite length_app. pose proof (objs_bytes_length l Ho). lia. }
  rewrite take_app_length. apply Forall_app. split.
  - apply put_all_bytes. by apply header_items_ok.
  - clear -Ho. induction Ho as [|o l [[Hk _] [Hv _]] _ IH]; [constructor|]. cbn [objs_bytes flat_map]. apply Forall_app. split; [|exact IH].
    apply put_all_bytes. by apply obj_items_ok.
Qed.

Lemma small_field kv : text_ok kv.1 -> serial kv.2 -> (length kv.1 <= 255)%nat -> 0 <= np_treeval_get_byte_size kv.2 <= 2 ^ 16 ->
  depth kv.2 = 0%nat -> width kv.2 = 0%nat -> sendable_field kv.
Proof.
  intros Hk Hv Hl Hs Hd Hw. split; [done|]. split; [done|]. split; [|done]. unfold plain_size, mk_key. cbn [fst snd key_size].
  set (n := np_treeval_get_byte_size kv.2) in *. cbn [np_treeval_get_byte_size value tv_size]. assert (0 <= extra64 (Z.of_nat (length kv.1)) <= 8) by size_cases. lia.
Qed.

Lemma bin_field k b : text_ok k -> (length k <= 255)%nat -> Forall (in_u 8) b -> Z.of_nat (length b) <= NP_EXTENSION_BYTES ->
  sendable_field (k, np_treeval_new_bin b).
Proof.
  intros Hk Hl Hb Hn. unfold NP_EXTENSION_BYTES in Hn. apply small_field; try done.
  - apply serial_leaf. split; [done|]. split; [done|lia].
  - cbn -[extra32]. assert (0 <= extra32 (Z.of_nat (length b)) <= 4) by size_cases. lia.
Qed.
Lemma text_field k n s : text_ok k -> (length k <= 255)%nat -> text n s -> (n <= 255)%nat -> sendable_field (k, np_treeval_new_s s).
Proof.
  intros Hk Hl (Hs & Hn & H1') Hle. apply small_field; try done.
  - apply serial_leaf. split; [done|]. split; [done|]. split; [done|]. lia.
  - cbn -[extra64]. assert (0 <= extra64 (Z.of_nat (length s)) <= 8) by size_cases. lia.
Qed.
Lemma double_field k x : text_ok k -> (length k <= 255)%nat -> is_double x -> sendable_field (k, np_treeval_new_d (dbl_bits x)).
Proof.
  intros Hk Hl Hx. apply small_field; try done. apply serial_leaf. split; [done|]. by apply bits_range.
Qed.

Lemma fields_sendable t l sig : content_ok t l -> bytes_of_size crypto_sign_BYTES sig -> Forall sendable_field (all_fields t l sig).
Proof.
  intros [Hu Hr Hi Hs Ha (Ht1 & Ht2 & Ht3) Hpk Hsi Hty Hat] Hsig.
  destruct (block_size t l Hat) as (_ & Hsz & Hpos & Hlen).
  assert (forall (k : string), forallb (fun c => (1 <=? c) && (c <? 256)) (c_string k) = true ->
    negb (length (c_string k) =? 1)%nat && (length (c_string k) <=? 255)%nat = true ->
    text_ok (c_string k) /\ (length (c_string k) <= 255)%nat) as Hk.
  { intros k Hk1 Hk2. apply andb_true_iff in Hk2 as [Hk2 Hk3]. apply Nat.leb_le in Hk3. apply negb_true_iff, Nat.eqb_neq in Hk2.
    split; [|done]. split; [|split; [done|lia]]. apply Forall_forall. intros c Hc.
    rewrite forallb_elem_of in Hk1. specialize (Hk1 c Hc). lia. }
  unfold all_fields, head_fields. repeat (apply Forall_cons; split); [..|constructor].
  all: match goal with |- sendable_field (c_string ?k, _) => destruct (Hk k) as [Hk1 Hk2]; [vm_compute; reflexivity..|] end.
  all: try (apply double_field; done).
  all: try (by apply (text_field _ 255); [done|done|done|lia]).
  all: try (by apply (text_field _ 65); [done|done|done|lia]).
  all: try (apply bin_field; [done|done|apply Hsig || apply Hsi || apply Hpk || apply Hu || by apply used_bytes|]).
  - rewrite (proj2 Hsig). vm_compute. discriminate.
  - unfold used_attributes. rewrite length_take. lia.
  - rewrite (proj2 Hsi). vm_compute. discriminate.
  - rewrite (proj2 Hpk). vm_compute. discriminate.
  - rewrite (proj2 Hu). vm_compute. discriminate.
  - apply small_field; try done.
    + apply serial_leaf. by split.
    + cbn -[extra8]. unfold in_u in Hty. assert (0 <= extra8 (token_type t) <= 2) by size_cases. lia.
Qed.

Lemma max_zero {A} (f : A -> nat) l : Forall (fun x => f x = 0%nat) l -> foldr Nat.max 0%nat (map f l) = 0%nat.
Proof. induction 1 as [|x l Hx _ IH]; [done|]. cbn. by rewrite Hx, IH. Qed.

Lemma fields_serial d fs : holds d fs -> Forall sendable_field fs -> Z.of_nat (length fs) < 2 ^ 32 ->
  serial (np_treeval_new_tree d) /\ (depth (np_treeval_new_tree d) <= 1)%nat /\ (width (np_treeval_new_tree d) <= 2 * length fs)%nat.
Proof.
  intros Hd Hfs Hlen. destruct (holds_elems d fs Hd) as [Hel Hl]. destruct Hd as (Hwf & Hm & _).
  assert (Forall (fun e : elem => key_serial (value e.1) /\ serial e.2 /\ 0 <= plain_size e <= 2 ^ 20 /\
    Nat.max (depth e.1) (depth e.2) = 0%nat /\ Nat.max (width e.1) (width e.2) = 0%nat) (rbh_root d)) as Hall.
  { eapply Forall_impl; [exact Hel|]. intros e (k & v & Hin & ->). rewrite Forall_forall in Hfs. destruct (Hfs _ Hin) as (H1' & H2' & H3' & H4' & H5').
    cbn [fst snd] in *. split; [split; [done|by split]|]. split; [done|]. split; [done|]. by rewrite H4', H5'. }
  split; [|split].
  - apply (serial_tree jrb_tree K_str); [done|done| | |].
    + eapply Forall_impl; [exact Hall|]. by intros e (? & ? & ? & ? & ?).
    + pose proof (zsum_bounds (2 ^ 20) (map plain_size (rbh_root d))) as Hz. rewrite length_map in Hz.
      assert (Forall (fun x => 0 <= x <= 2 ^ 20) (map plain_size (rbh_root d))) as Hb.
      { apply Forall_map. eapply Forall_impl; [exact Hall|]. by intros e (? & ? & ? & ? & ?). }
      specialize (Hz Hb). lia.
    + eapply Forall_impl; [exact Hall|]. by intros e (? & ? & ? & ? & ?).
  - destruct d as [els sz b p i]. cbn [np_treeval_new_tree depth rbh_root] in *.
    rewrite (max_zero (fun e : elem => Nat.max (depth e.1) (depth e.2))); [lia|]. eapply Forall_impl; [exact Hall|]. by intros e (? & ? & ? & ? & ?).
  - destruct d as [els sz b p i]. cbn [np_treeval_new_tree width rbh_root] in *.
    rewrite (max_zero (fun e : elem => Nat.max (width e.1) (width e.2))); [lia|]. eapply Forall_impl; [exact Hall|]. by intros e (? & ? & ? & ? & ?).
Qed.

End Tokens.

(** ** Tokens: signed ones are accepted where they arrive *)

Section Tokens.
Context `{Sodium} `{Qcbor} `{!Block_limits} `{Doubles}.
Context (encoder_leaves : list item -> Z -> list Z) (printed : np_treeval_t -> list Z).

(** ** Signing *)

(** The secret key that belongs to the public key of the token has signed it. *)
Record self_signed (t : np_aaatoken_t) : Prop := {
  own_pair : crypto_sign_ed25519_sk_to_pk (ed25519_secret_key (issuer_crypto t)) = Some (ed25519_public_key (crypto t));
  own_signature : signature t = crypto_sign_detached (_np_aaatoken_get_hash t) (ed25519_secret_key (issuer_crypto t));
  own_scope : scope t <= np_aaatoken_scope_private_available;
  own_kx : is_Some (crypto_sign_ed25519_pk_to_curve25519 (ed25519_public_key (crypto t)));
}.

Lemma set_signature_signs t t' :
  crypto_sign_ed25519_sk_to_pk (ed25519_secret_key (issuer_crypto t)) = Some (ed25519_public_key (crypto t)) ->
  is_Some (crypto_sign_ed25519_pk_to_curve25519 (ed25519_public_key (crypto t))) ->
  _np_aaatoken_set_signature encoder_leaves t None = Ok t' -> self_signed t'.
Proof.
  intros Hp Hk E. unfold _np_aaatoken_set_signature in E. inv_ok. apply Z.leb_le in Hrun0. by split.
Qed.

(** ** Accepting *)

(** An intent has its two counters. *)
Definition thresholds_ok (l : list obj) (type : Z) : Prop :=
  FLAG_CMP type np_aaatoken_type_message_intent = true ->
  exists max msg, get_obj (c_string "max_threshold") l = Some (D_uint max) /\
    get_obj (c_string "msg_threshold") l = Some (D_uint msg) /\ 0 <= msg <= max /\ in_u 32 max.

Lemma name_key k : forallb (fun c => (1 <=? c) && (c <? 256)) (c_string k) && (length (c_string k) <? 255)%nat = true -> key_range (c_string k).
Proof.
  intros [Hc Hl]%andb_true_iff. apply Nat.ltb_lt in Hl. split; [|done]. apply Forall_forall. intros c Hin.
  rewrite forallb_elem_of in Hc. specialize (Hc c Hin). lia.
Qed.

Lemma uint_attribute_ok total l beyond mem k v : is_block total l beyond mem -> key_range (c_string k) -> in_u 32 v ->
  get_obj (c_string k) l = Some (D_uint v) -> uint_attribute mem k = Ok (Some v).
Proof.
  intros Hb Hk Hv E. unfold uint_attribute. rewrite (get_spec _ _ _ _ _ Hb), strn_key by done. unfold get_result. rewrite E.
  rewrite bind_ok. cbn [dval_union as_unsigned mbind result_bind]. by rewrite u32_id.
Qed.

Lemma thresholds_checked t total l beyond : is_block total l beyond (attributes t) -> thresholds_ok l (token_type t) ->
  FLAG_CMP (token_type t) np_aaatoken_type_message_intent = true -> check_thresholds t = Ok true.
Proof.
  intros Hb Ht Hf. destruct (Ht Hf) as (max & msg & E1 & E2 & Hle & Hm). unfold check_thresholds.
  rewrite (uint_attribute_ok _ _ _ _ "max_threshold" max Hb); [|apply name_key; vm_compute; reflexivity|exact Hm|exact E1]. rewrite bind_ok.
  rewrite (uint_attribute_ok _ _ _ _ "msg_threshold" msg Hb); [|apply name_key; vm_compute; reflexivity|unfold in_u in *; lia|exact E2]. rewrite bind_ok.
  destruct (Z.leb_spec 0 msg), (Z.leb_spec msg max); try lia. done.
Qed.

Lemma flag_self x : FLAG_CMP x x = true.
Proof. unfold FLAG_CMP. rewrite Z.land_diag. apply Z.eqb_refl. Qed.

Lemma used_length_eq t l : is_block NP_EXTENSION_BYTES l [] (attributes t) ->
  Z.of_nat (length (used_attributes t l)) = DATABLOCK_OVERHEAD + objs_size l.
Proof.
  intros Hb. destruct (block_size t l Hb) as (_ & Hs & Hpos & _). unfold used_attributes. rewrite length_take. unfold DATABLOCK_OVERHEAD in *. lia.
Qed.

(** The attributes of the token that is read are the same block, with other bytes
    behind the part in use. *)
Lemma received_block t t0 l sig cpk : is_block NP_EXTENSION_BYTES l [] (attributes t) ->
  Z.of_nat (length (attributes t0)) = NP_EXTENSION_BYTES ->
  is_block NP_EXTENSION_BYTES l [] (attributes (received t t0 l sig cpk)) /\
  used_attributes (received t t0 l sig cpk) l = used_attributes t l.
Proof.
  intros Hb Hl. pose proof (used_length_eq t l Hb) as Hu. pose proof (block_start _ _ _ _ Hb) as Hst.
  destruct (block_size t l Hb) as (_ & Hsz & Hpos & Hlen).
  pose proof Hb as [Ho Hnd Ht (slack & E & Hs)]. cbn [received attributes].
  assert (used_attributes t l = header_bytes (header_of NP_EXTENSION_BYTES l) ++ objs_bytes l) as Eu.
  { unfold used_attributes. rewrite E, (app_assoc (header_bytes _)).
    assert (Z.to_nat (DATABLOCK_OVERHEAD + objs_size l) = length (header_bytes (header_of NP_EXTENSION_BYTES l) ++ objs_bytes l)) as ->.
    { rewrite length_app. pose proof (objs_bytes_length l Ho). lia. }
    by rewrite take_app_length. }
  split.
  - split; [done|done|done|]. exists (drop (length (used_attributes t l)) (attributes t0)). rewrite app_nil_r. split.
    + rewrite Eu at 1. by rewrite <-app_assoc.
    + rewrite length_drop. lia.
  - unfold used_attributes at 1. cbn [received attributes].
    assert (Z.to_nat (DATABLOCK_OVERHEAD + objs_size l) = length (used_attributes t l)) as -> by lia. by rewrite take_app_length.
Qed.

(** What the check of the attributes needs. *)
Lemma attributes_checked t l : is_block NP_EXTENSION_BYTES l [] (attributes t) -> is_signature_attributes_verified t = false ->
  crypto_sign_verify_detached (attributes_signature t) (crypto_generichash (used_attributes t l ++ signature t))
    (ed25519_public_key (crypto t)) = 0 ->
  check_attributes_signature t = Ok (set_checked t (state t) (is_signature_verified t) true, true).
Proof.
  intros Hb Ev Hs. unfold check_attributes_signature. rewrite Ev. destruct (block_size t l Hb) as (Es & _). rewrite Es. cbn [fst].
  rewrite bool_decide_eq_true_2 by done. cbn [negb]. by rewrite (attributes_hash_ok t l Hb), bind_ok, Hs.
Qed.

Lemma received_valid t t0 l cpk now expected : FLAG_CMP (token_type t) expected = true -> content_ok t l -> self_signed t -> thresholds_ok l (token_type t) ->
  Z.of_nat (length (attributes t0)) = NP_EXTENSION_BYTES -> (now <= expires_at t)%Q ->
  let r := received t t0 l (attributes_signature (resigned t l)) cpk in
  _np_aaatoken_is_valid now (Some r) expected = Ok (true, Some (set_checked r (Z.lor (state t0) AAA_VALID) true true)).
Proof.
  intros Hexp Hok [Hpair Hsig Hsc Hkx] Hth Hl Hnow r. unfold _np_aaatoken_is_valid.
  pose proof (ok_attributes t l Hok) as Hb. destruct (received_block t t0 l (attributes_signature (resigned t l)) cpk Hb Hl) as [Hrb Hru]. fold r in Hrb, Hru.
  change (token_type r) with (token_type t). rewrite Hexp. cbn [negb].
  change (expires_at r) with (expires_at t). destruct (Qltb (expires_at t) now) eqn:El.
  { apply Qltb_lt in El. exfalso. apply (Qlt_not_le _ _ El Hnow). }
  change (np_aaatoken_scope_private_available <? scope r) with true. cbv iota.
  unfold check_signatures. change (is_signature_verified r) with false. cbv iota.
  change (signature r) with (signature t). change (_np_aaatoken_get_hash r) with (_np_aaatoken_get_hash t).
  change (ed25519_public_key (crypto r)) with (ed25519_public_key (crypto t)).
  rewrite Hsig, (sign_verifies _ _ _ Hpair). cbn [Z.ltb Z.compare].
  set (r1 := set_checked r (state r) true (is_signature_attributes_verified r)).
  assert (check_attributes_signature r1 = Ok (set_checked r1 (state r1) (is_signature_verified r1) true, true)) as ->.
  { apply (attributes_checked r1 l); [exact Hrb|done|]. change (signature r1) with (signature t).
    change (used_attributes r1 l) with (used_attributes r l). rewrite Hru.
    change (attributes_signature r1) with (attributes_signature (resigned t l)). change (ed25519_public_key (crypto r1)) with (ed25519_public_key (crypto t)).
    unfold resigned. destruct (Z.leb_spec (scope t) np_aaatoken_scope_private_available); [|lia].
    cbn [set_attributes_signature attributes_signature]. by rewrite (sign_verifies _ _ _ Hpair). }
  rewrite bind_ok. cbn [negb].
  destruct (FLAG_CMP _ np_aaatoken_type_message_intent) eqn:Ef; [|reflexivity].
  match goal with |- context [check_thresholds ?x] => change (check_thresholds x) with (check_thresholds r) end.
  by rewrite (thresholds_checked r NP_EXTENSION_BYTES l []).
Qed.

(** On the way: the tree of a token is serialised and read back, and decoding it gives
    the token as received. *)
Lemma token_travels t l extra : content_ok t l -> self_signed t -> (26 <= QCBOR_MAX_ITEMS_IN_ARRAY)%nat ->
  exists data bytes cpk, _np_aaatoken_encode np_tree_create t = Ok (data, resigned t l) /\
    (forall size, np_tree_get_byte_size data <= size -> np_serializer_write_map size data = Ok (Some bytes)) /\
    np_serializer_read_map (bytes ++ extra) np_tree_create = Ok (data, Some (Z.of_nat (length bytes))) /\
    forall t0, private_key_is_set t0 = false -> (length (attributes_signature t0) <= crypto_sign_BYTES)%nat ->
      np_aaatoken_decode printed data t0 = Ok (true, received t t0 l (attributes_signature (resigned t l)) cpk).
Proof.
  intros Hok Hself Hmax. destruct (encode_ok t l Hok) as (data & E & Hd). pose proof (own_scope t Hself) as Hsc.
  assert (bytes_of_size crypto_sign_BYTES (attributes_signature (resigned t l))) as Hsig.
  { unfold resigned. destruct (Z.leb_spec (scope t) np_aaatoken_scope_private_available); [|lia].
    split; [apply sign_bytes|apply sign_length]. }
  destruct (fields_serial data _ Hd (fields_sendable t l _ Hok Hsig)) as (Hser & Hdep & Hwid); [vm_compute; done|].
  destruct (tree_serialised data extra Hser) as (bytes & Hw & _ & Hr & _).
  { pose proof deep_enough. lia. }
  { cbn [length all_fields head_fields] in Hwid. lia. }
  destruct (own_kx t Hself) as [cpk Hcpk]. exists data, bytes, cpk. split; [exact E|]. split; [exact Hw|]. split; [exact Hr|].
  intros t0 Hp0 Hs0. by apply decode_ok.
Qed.

(** A token signed with the secret key of its public key travels: it can be
    encoded and serialised, what the receiver reads is complete, has the same
    content, fingerprint and attributes and, until it expires, is valid. *)
Theorem signed_token_accepted t t0 l now extra :
  content_ok t l -> self_signed t -> thresholds_ok l (token_type t) -> (now <= expires_at t)%Q ->
  private_key_is_set t0 = false -> (length (attributes_signature t0) <= crypto_sign_BYTES)%nat ->
  Z.of_nat (length (attributes t0)) = NP_EXTENSION_BYTES -> (26 <= QCBOR_MAX_ITEMS_IN_ARRAY)%nat ->
  exists data t1 bytes r r', _np_aaatoken_encode np_tree_create t = Ok (data, t1) /\
    (forall size, np_tree_get_byte_size data <= size -> np_serializer_write_map size data = Ok (Some bytes)) /\
    np_serializer_read_map (bytes ++ extra) np_tree_create = Ok (data, Some (Z.of_nat (length bytes))) /\
    np_aaatoken_decode printed data t0 = Ok (true, r) /\
    _np_aaatoken_is_valid now (Some r) (token_type t) = Ok (true, Some r') /\
    hashed_bytes r = hashed_bytes t /\ np_aaatoken_get_fingerprint r false = np_aaatoken_get_fingerprint t false /\
    forall key, np_get_data (attributes r) key = np_get_data (attributes t) key.
Proof.
  intros Hok Hself Hth Hnow Hp0 Hs0 Hl0 Hmax. destruct (token_travels t l extra Hok Hself Hmax) as (data & bytes & cpk & E & Hw & Hr & Hdec).
  destruct (received_block t t0 l (attributes_signature (resigned t l)) cpk (ok_attributes t l Hok) Hl0) as [Hrb _].
  eexists data, _, bytes, _, _. split; [exact E|]. split; [exact Hw|]. split; [exact Hr|]. split; [by apply Hdec|].
  split; [by apply received_valid; [apply flag_self|..]|]. split; [reflexivity|]. split; [reflexivity|].
  intros key. rewrite (get_spec _ _ _ _ _ Hrb). by rewrite (get_spec _ _ _ _ _ (ok_attributes t l Hok)).
Qed.

(** ** The partner *)

Lemma partner_key_ok : key_ok partner_key.
Proof. split; [apply name_key; vm_compute; reflexivity|reflexivity]. Qed.

Lemma dhkey_obj_ok fp : dhkey_wf fp -> obj_ok (partner_key, D_bin (dhkey_bytes fp)).
Proof.
  intros Hw. pose proof (dhkey_bytes_length fp Hw) as Hl. split; [exact partner_key_ok|]. split; cbn [snd dval_range dval_excess].
  - split; [apply dhkey_bytes_range|]. rewrite Hl. reflexivity.
  - by rewrite decide_False by lia.
Qed.

Lemma get_partner_ok t l fp : is_block NP_EXTENSION_BYTES l [] (attributes t) -> dhkey_wf fp ->
  get_obj partner_key l = Some (D_bin (dhkey_bytes fp)) -> np_aaatoken_get_partner_fp t = Ok fp.
Proof.
  intros Hb Hw Hg. pose proof (dhkey_bytes_length fp Hw) as Hl.
  unfold np_aaatoken_get_partner_fp. rewrite (get_spec _ _ _ _ partner_key Hb). unfold get_result.
  rewrite strn_key by apply partner_key_ok. rewrite Hg, bind_ok.
  rewrite bool_decide_eq_true_2 by (by left). change (c_assert true) with (Ok tt). rewrite bind_ok.
  cbn [dval_conf conf_data_size dval_size]. rewrite Hl. change (Z.of_nat 32 =? NP_FINGERPRINT_BYTES) with true.
  change (c_assert true) with (Ok tt). rewrite bind_ok. cbn [dval_union as_ptr mbind result_bind].
  rewrite read_bytes_exact by (by rewrite Hl). cbn [mbind result_bind]. by rewrite bytes_dhkey_of_key.
Qed.

Lemma set_partner_ok t l fp :
  is_block NP_EXTENSION_BYTES l [] (attributes t) -> dhkey_wf fp -> scope t <= np_aaatoken_scope_private_available ->
  DATABLOCK_OVERHEAD + objs_size (put_obj partner_key (D_bin (dhkey_bytes fp)) l) <= NP_EXTENSION_BYTES ->
  exists a, is_block NP_EXTENSION_BYTES (put_obj partner_key (D_bin (dhkey_bytes fp)) l) [] a /\
    np_aaatoken_set_partner_fp encoder_leaves t fp = Ok (set_attributes_signature (set_attributes t a)
      (crypto_sign_detached (crypto_generichash (used_attributes (set_attributes t a) (put_obj partner_key (D_bin (dhkey_bytes fp)) l) ++ signature t))
        (ed25519_secret_key (issuer_crypto t)))).
Proof.
  intros Hb Hw Hs Hfit. pose proof (dhkey_bytes_length fp Hw) as Hl. unfold np_aaatoken_set_partner_fp.
  destruct (set_spec encoder_leaves NP_EXTENSION_BYTES l [] (attributes t) (Data_conf partner_key NP_DATA_TYPE_BIN NP_FINGERPRINT_BYTES)
    (U_ptr (dhkey_bytes fp)) partner_key (D_bin (dhkey_bytes fp)) Hb) as (a & -> & Ha & _).
  { split; [apply strn_key, partner_key_ok|]. split; [done|]. cbn. rewrite Hl. split; [done|]. by rewrite take_ge by lia. }
  { by apply dhkey_obj_ok. }
  unfold set_result in *. rewrite (proj2 (Z.leb_le _ _) Hfit) in *. cbn [fst snd] in *.
  rewrite bind_ok, bool_decide_eq_true_2 by done. change (c_assert true) with (Ok tt). rewrite bind_ok.
  unfold _np_aaatoken_update_attributes_signature. change (scope (set_attributes t a)) with (scope t).
  rewrite (proj2 (Z.leb_le _ _) Hs). change (c_assert true) with (Ok tt). rewrite bind_ok.
  rewrite (attributes_hash_ok (set_attributes t a) _ Ha), bind_ok. by exists a.
Qed.

(** A partner that is set is the partner that is found, in a token that keeps its
    hash and its other attributes; without one it is the issuer, or the token itself
    when it names no issuer. *)
Theorem partner_fp_roundtrip t l fp :
  is_block NP_EXTENSION_BYTES l [] (attributes t) -> dhkey_wf fp -> scope t <= np_aaatoken_scope_private_available ->
  DATABLOCK_OVERHEAD + objs_size (put_obj partner_key (D_bin (dhkey_bytes fp)) l) <= NP_EXTENSION_BYTES ->
  (exists t', np_aaatoken_set_partner_fp encoder_leaves t fp = Ok t' /\ np_aaatoken_get_partner_fp t' = Ok fp /\
    hashed_bytes t' = hashed_bytes t /\ signature t' = signature t /\
    (forall key, strn key ≠ partner_key -> np_get_data (attributes t') key = np_get_data (attributes t) key) /\
    (crypto_sign_ed25519_sk_to_pk (ed25519_secret_key (issuer_crypto t)) = Some (ed25519_public_key (crypto t)) ->
     exists r, check_attributes_signature t' = Ok (r, true))) /\
  (get_obj partner_key l = None -> np_aaatoken_get_partner_fp t =
     if bool_decide (until_nul (issuer t) = []) then np_aaatoken_get_fingerprint t false else _np_aaatoken_get_issuer t).
Proof.
  intros Hb Hw Hs Hfit. pose proof (dhkey_bytes_length fp Hw) as Hl. split.
  - destruct (set_partner_ok t l fp Hb Hw Hs Hfit) as (a & Ha & ->).
    eexists. split; [reflexivity|]. split; [|split; [done|split; [done|split]]].
    + apply (get_partner_ok _ (put_obj partner_key (D_bin (dhkey_bytes fp)) l)); [exact Ha|done|]. by rewrite get_put, decide_True.
    + intros key Hk. cbn [attributes set_attributes set_attributes_signature]. rewrite (get_spec _ _ _ _ key Ha), (get_spec _ _ _ _ key Hb).
      unfold get_result. by rewrite get_put, decide_False by done.
    + intros Hp. destruct (is_signature_attributes_verified t) eqn:Ev.
      { eexists. unfold check_attributes_signature. cbn [is_signature_attributes_verified set_attributes_signature set_attributes]. by rewrite Ev. }
      eexists. apply (attributes_checked _ (put_obj partner_key (D_bin (dhkey_bytes fp)) l)); [exact Ha|done|]. by apply sign_verifies.
  - intros En. unfold np_aaatoken_get_partner_fp. rewrite (get_spec _ _ _ _ partner_key Hb). unfold get_result.
    rewrite strn_key by apply partner_key_ok. rewrite En, bind_ok. rewrite bool_decide_eq_true_2 by (by right).
    change (c_assert true) with (Ok tt). rewrite bind_ok. unfold _np_aaatoken_get_issuer.
    case_bool_decide as Ei; destruct (until_nul (issuer t)); done.
Qed.

(** ** What a signature does not cover

    The fields are hashed one after the other without their lengths: characters can
    be moved from the front of one to the end of the one before. *)
Lemma hash_moves_characters t s a b : text 255 (s ++ a) -> text 255 s -> text 255 b -> text 255 (a ++ b) ->
  hashed_bytes (set_subject (set_audience t b) (s ++ a)) = hashed_bytes (set_subject (set_audience t (a ++ b)) s).
Proof.
  intros T1 T2 T3 T4. unfold hashed_bytes. cbn [uuid realm issuer subject audience crypto expires_at issued_at not_before set_subject set_audience].
  rewrite (text_strn 255 (s ++ a)) by exact T1. rewrite (text_strn 255 b) by exact T3. rewrite (text_strn 255 s) by exact T2.
  rewrite (text_strn 255 (a ++ b)) by exact T4. by rewrite <-!(app_assoc s), <-!(app_assoc a), !app_assoc.
Qed.

(** So a token for one subject is just as well signed for another. *)
Lemma subject_can_be_changed t s a b : text 255 (s ++ a) -> text 255 s -> text 255 b -> text 255 (a ++ b) ->
  subject t = s -> audience t = a ++ b ->
  let t' := set_subject (set_audience t b) (s ++ a) in
  crypto_sign_verify_detached (signature t') (_np_aaatoken_get_hash t') (ed25519_public_key (crypto t')) =
    crypto_sign_verify_detached (signature t) (_np_aaatoken_get_hash t) (ed25519_public_key (crypto t)) /\
  np_aaatoken_get_fingerprint t' false = np_aaatoken_get_fingerprint t false.
Proof.
  intros T1 T2 T3 T4 Es Ea t'. unfold t'.
  assert (hashed_bytes (set_subject (set_audience t b) (s ++ a)) = hashed_bytes t) as Eh.
  { rewrite hash_moves_characters by done. destruct t. cbn in *. by subst. }
  unfold np_aaatoken_get_fingerprint, _np_aaatoken_get_hash. by rewrite Eh.
Qed.

(** The signature of a second signer covers the first half of the signature only. *)
Lemma signee_covers_half t s1 s2 signee : take 32 s1 = take 32 s2 ->
  attributes <$> _np_aaatoken_set_signature encoder_leaves (set_signature t s1) (Some signee) =
  attributes <$> _np_aaatoken_set_signature encoder_leaves (set_signature t s2) (Some signee).
Proof.
  intros E. unfold _np_aaatoken_set_signature. cbn [crypto issuer attributes signature set_signature].
  change Crypto.crypto_generichash_BYTES with 32%nat. rewrite E.
  destruct (c_assert (ed25519_public_key_is_set (crypto t))); [|done]. rewrite !bind_ok.
  destruct (c_assert (private_key_is_set signee)); [|done]. rewrite !bind_ok.
  destruct (c_assert (ed25519_secret_key_is_set (crypto signee))); [|done]. rewrite !bind_ok.
  destruct (np_aaatoken_get_fingerprint signee false); [|done]. rewrite !bind_ok.
  destruct (c_assert (strncmp_eq _ _ _)); [|done]. rewrite !bind_ok.
  destruct (Datablock.np_set_data _ _ _ _) as [[r b]|]; [|done]. rewrite !bind_ok.
  unfold _np_aaatoken_update_attributes_signature, __np_aaatoken_get_attributes_hash. cbn [attributes scope set_attributes set_signature].
  destruct (c_assert (scope t <=? np_aaatoken_scope_private_available)); [|done]. rewrite !bind_ok.
  destruct (np_get_data_size b) as [r' n]. destruct (c_assert (bool_decide (r' = np_data_ok))); [|done]. rewrite !bind_ok.
  by destruct (read_bytes b n).
Qed.

End Tokens.

(** ** Witnesses *)

(** Whole numbers as doubles. *)
Definition whole_doubles : Doubles.
Proof.
  refine {| is_double := fun x => exists z, in_u 64 z /\ x = inject_Z z; dbl_bits := Qnum; bits_dbl := inject_Z |}.
  - intros x (z & Hz & ->). exact Hz.
  - intros x (z & Hz & ->). reflexivity.
Defined.

#[local] Existing Instance rfc8949.
#[local] Existing Instance toy_sodium.
#[local] Existing Instance whole_doubles.

Definition sample_key : list Z := replicate 32 7.
Definition sample_crypto : np_crypto_t := (np_cryptofactory_by_secret (Crypto false false false false [] [] [] []) sample_key).2.
Definition sample_objs : list obj := [(c_string "max_threshold", D_uint 20); (c_string "msg_threshold", D_uint 3)].
Definition sample_block : list Z :=
  header_bytes (header_of NP_EXTENSION_BYTES sample_objs) ++ objs_bytes sample_objs ++
  replicate (Z.to_nat (NP_EXTENSION_BYTES - DATABLOCK_OVERHEAD - objs_size sample_objs)) 0.
Definition unsigned_token : np_aaatoken_t :=
  Aaatoken 0 (replicate 16 1) [] [] (c_string "topic") (c_string "us") 100 100 500 sample_block (replicate 64 0) sample_crypto (replicate 64 0)
    0 np_aaatoken_type_message_intent np_aaatoken_scope_private true None false false.
Definition sample_token : np_aaatoken_t :=
  set_signature unsigned_token (crypto_sign_detached (_np_aaatoken_get_hash unsigned_token) sample_key).
Definition empty_token : np_aaatoken_t :=
  Aaatoken 0 [] [] [] [] [] 0 0 0 sample_block [] (Crypto false false false false [] [] [] []) [] 0 0 0 false None false false.

Lemma sample_block_ok : is_block NP_EXTENSION_BYTES sample_objs [] sample_block.
Proof.
  assert (forall k, key_ok (c_string k) -> forall z, dval_ok (D_uint z) -> obj_ok (c_string k, D_uint z)) as Ho by (by split).
  split; [|by_decide|unfold NP_EXTENSION_BYTES; lia|].
  - repeat first [apply List.Forall_nil|apply List.Forall_cons; [apply Ho; (split; [|reflexivity]); [apply name_key; vm_compute; reflexivity|cbn; unfold in_u; lia]|]].
  - exists (replicate (Z.to_nat (NP_EXTENSION_BYTES - DATABLOCK_OVERHEAD - objs_size sample_objs)) 0).
    split; [unfold sample_block; by rewrite app_nil_r|]. rewrite length_replicate. vm_compute. reflexivity.
Qed.

Lemma sample_text n s : forallb (fun c => (1 <=? c) && (c <? 256)) s && (length s <? n)%nat && negb (length s =? 1)%nat = true -> text n s.
Proof.
  intros [[Hc Hl]%andb_true_iff H1]%andb_true_iff. apply Nat.ltb_lt in Hl. apply negb_true_iff, Nat.eqb_neq in H1. split; [|done].
  apply Forall_forall. intros c Hin. rewrite forallb_elem_of in Hc. specialize (Hc c Hin). lia.
Qed.
Lemma sample_bytes n b : forallb (fun c => (0 <=? c) && (c <? 256)) b && (length b =? n)%nat = true -> bytes_of_size n b.
Proof.
  intros [Hc Hl]%andb_true_iff. apply Nat.eqb_eq in Hl. split; [|done].
  apply Forall_forall. intros c Hin. rewrite forallb_elem_of in Hc. specialize (Hc c Hin). unfold in_u. lia.
Qed.

Lemma sample_content_ok : content_ok sample_token sample_objs.
Proof.
  split; try (apply sample_text; vm_compute; reflexivity); try (apply sample_bytes; vm_compute; reflexivity).
  - split; [exists 100; split; [unfold in_u; lia|reflexivity]|]. split; [exists 100|exists 500]; (split; [unfold in_u; lia|reflexivity]).
  - cbn. unfold in_u, np_aaatoken_type_message_intent. lia.
  - exact sample_block_ok.
Qed.
Lemma sample_thresholds_ok : thresholds_ok sample_objs (token_type sample_token).
Proof. intros _. exists 20, 3. split; [reflexivity|]. split; [reflexivity|]. unfold in_u. lia. Qed.

Lemma signed_token_accepted_witness :
  exists data t1 bytes r r', _np_aaatoken_encode np_tree_create sample_token = Ok (data, t1) /\
    (forall size, np_tree_get_byte_size data <= size -> np_serializer_write_map size data = Ok (Some bytes)) /\
    np_serializer_read_map (bytes ++ [0; 0]) np_tree_create = Ok (data, Some (Z.of_nat (length bytes))) /\
    np_aaatoken_decode (fun _ => []) data empty_token = Ok (true, r) /\
    _np_aaatoken_is_valid 400 (Some r) np_aaatoken_type_message_intent = Ok (true, Some r') /\
    hashed_bytes r = hashed_bytes sample_token /\ np_aaatoken_get_fingerprint r false = np_aaatoken_get_fingerprint sample_token false /\
    forall key, np_get_data (attributes r) key = np_get_data (attributes sample_token) key.
Proof.
  apply (signed_token_accepted (fun _ => []) sample_token empty_token sample_objs 400 [0; 0] sample_content_ok).
  - split; [reflexivity|reflexivity|vm_compute; discriminate|exists sample_key; reflexivity].
  - exact sample_thresholds_ok.
  - vm_compute. discriminate.
  - reflexivity.
  - apply Nat.leb_le. reflexivity.
  - change (attributes empty_token) with sample_block. exact (proj2 (proj2 (proj2 (block_size sample_token sample_objs sample_block_ok)))).
  - apply Nat.leb_le. vm_compute. reflexivity.
Defined.

Definition partner : np_dhkey_t := bytes_dhkey (replicate 32 9).
Lemma partner_fp_roundtrip_witness :
  (exists t', np_aaatoken_set_partner_fp no_leaves sample_token partner = Ok t' /\ np_aaatoken_get_partner_fp t' = Ok partner /\
    hashed_bytes t' = hashed_bytes sample_token /\ signature t' = signature sample_token /\
    (forall key, strn key ≠ partner_key -> np_get_data (attributes t') key = np_get_data (attributes sample_token) key) /\
    (crypto_sign_ed25519_sk_to_pk (ed25519_secret_key (issuer_crypto sample_token)) = Some (ed25519_public_key (crypto sample_token)) ->
     exists r, check_attributes_signature t' = Ok (r, true))) /\
  (get_obj partner_key sample_objs = None -> np_aaatoken_get_partner_fp sample_token =
     if bool_decide (until_nul (issuer sample_token) = []) then np_aaatoken_get_fingerprint sample_token false else _np_aaatoken_get_issuer sample_token).
Proof.
  apply (partner_fp_roundtrip no_leaves sample_token sample_objs partner sample_block_ok).
  - apply bytes_dhkey_wf. by apply Forall_replicate.
  - vm_compute. discriminate.
  - vm_compute. discriminate.
Defined.

(** ** Tokens that go wrong *)

(** The types of received values are not looked at: a number where bytes are expected
    is used as an address. *)
Lemma number_used_as_address data :
  np_tree_replace_str np_tree_create (c_string "np.t.u") (np_treeval_new_ush 7) = Ok data ->
  np_aaatoken_decode (fun _ => []) data empty_token = Err Bad_access.
Proof. intros [= <-]. vm_compute. reflexivity. Qed.

(** The size in the header of received attributes is believed. *)
Definition oversized : np_aaatoken_t :=
  set_attributes empty_token (header_bytes (Datablock_header 10240 99999 0) ++ replicate 100 0).
Lemma header_size_believed : __np_aaatoken_get_attributes_hash oversized = Err Bad_access.
Proof. vm_compute. reflexivity. Qed.

(** A realm of one letter arrives as a character, whose text is taken from the
    address of an argument that is gone. *)
Lemma one_letter_realm : decode_string (fun _ => []) 255 set_realm (mk_key (V_c 97)) empty_token = Err Bad_access.
Proof. reflexivity. Qed.
