(* ===== verification/Attributes.v ===== *)
(** * Attributes and policies: [src/neuropil_attributes.c]

    Attributes that are to be put into messages, intents and identities are
    collected in one data block per kind.  A policy is a neuropil Bloom filter of
    required keys and values; attributes comply with it when a filter built of
    them covers all its cells.

    The two properties of a subject (for receiving and for sending), which
    [_np_msgproperty_run_get] finds, are arguments. *)
From Stdlib Require Import ZArith Lia QArith String.
From stdpp Require Import prelude.
From S2P Require Import Prelude Dhkey Rng BloomBase BloomNeuropil Token Crypto Treeval Qcbor Serial Datablock BloomNeuropilSpec BloomNeuropilThms SerialThms DatablockSpec DatablockThms.

Local Open Scope Z_scope.

(** [enum np_msg_attr_type] *)
Definition NP_ATTR_NONE : Z := -1.
Definition NP_ATTR_USER_MSG : Z := 0.
Definition NP_ATTR_INTENT : Z := 1.
Definition NP_ATTR_IDENTITY : Z := 2.
Definition NP_ATTR_IDENTITY_AND_USER_MSG : Z := 3.
Definition NP_ATTR_INTENT_AND_USER_MSG : Z := 4.
Definition NP_ATTR_INTENT_AND_IDENTITY : Z := 5.
Definition NP_ATTR_MAX : Z := 6.

(** [sizeof (np_attributes_t)] *)
Definition ATTRIBUTES_SIZE : Z := 10240.

(** [np_module_struct(attributes)] *)
Abbreviation attributes_module := (list (list Z)).

(** What this file uses of [np_msgproperty_run_t]. *)
Record np_msgproperty_run_t := Msgproperty_run {
  run_attributes : list Z;
  required_attributes_policy : option np_bloom_t;
}.

(** [&attribute_cache[cache]] *)
Definition cache_at (caches : attributes_module) (cache : Z) : result (list Z) :=
  match (if cache <? 0 then None else caches !! Z.to_nat cache) with Some b => Ok b | None => Err Bad_access end.

Definition _np_get_attributes_cache (caches : attributes_module) (cache : Z) : result (list Z) :=
  c_assert (negb (cache =? NP_ATTR_NONE));;
  cache_at caches cache.

Section Attributes.
Context `{Sodium} `{Qcbor}.
Context (encoder_leaves : list item -> Z -> list Z).

Abbreviation np_set_data := (np_set_data encoder_leaves).
Abbreviation np_init_datablock := (np_init_datablock encoder_leaves).

(** ** The caches *)

(** The loop ends at the first block that cannot be initialised. *)
Fixpoint init_caches (blocks : attributes_module) : result (bool * attributes_module) :=
  match blocks with
  | [] => Ok (true, [])
  | b :: blocks =>
      '(r, b) ← np_init_datablock b ATTRIBUTES_SIZE;
      if bool_decide (r = np_data_ok) then '(ret, blocks) ← init_caches blocks; Ok (ret, b :: blocks)
      else Ok (false, b :: blocks)
  end.
(** [_module] is what [np_module_malloc] gives, [NP_ATTR_MAX] blocks of whatever bytes. *)
Definition _np_attributes_init (_module : attributes_module) : result (bool * attributes_module) := init_caches _module.

(** The configuration of a binary attribute: [strncpy (conf.key, key, 254)]. *)
Definition bin_conf (key : list Z) (bin_length : Z) : np_data_conf :=
  Data_conf (until_nul (take 254 key)) NP_DATA_TYPE_BIN bin_length.

(** [if (inheritance != NP_ATTR_NONE) ret = np_set_data (...)] *)
Definition set_inherited (caches : attributes_module) (inheritance : Z) (conf : np_data_conf) (bin : list Z) (ret : np_data_return)
    : result (np_data_return * attributes_module) :=
  if inheritance =? NP_ATTR_NONE then Ok (ret, caches)
  else
    b ← cache_at caches inheritance;
    '(ret, b) ← np_set_data b conf (U_ptr bin);
    Ok (ret, <[Z.to_nat inheritance := b]> caches).

(** [if (p != NULL) ret = np_set_data (p->attributes, ...)] *)
Definition set_optional (block : option (list Z)) (conf : np_data_conf) (bin : list Z) (ret : np_data_return)
    : result (np_data_return * option (list Z)) :=
  match block with
  | None => Ok (ret, None)
  | Some a => '(ret, a) ← np_set_data a conf (U_ptr bin); Ok (ret, Some a)
  end.

(** [ident]: the attributes of the token, if one is given. *)
Definition np_set_ident_attr_bin (caches : attributes_module) (ident : option (list Z)) (inheritance : Z) (key bin : list Z)
    (bin_length : Z) : result (np_data_return * option (list Z) * attributes_module) :=
  let conf := bin_conf key bin_length in
  '(ret, ident) ← set_optional ident conf bin np_invalid_arguments;
  '(ret, caches) ← set_inherited caches inheritance conf bin ret;
  Ok (ret, ident, caches).

Definition with_attributes (p : np_msgproperty_run_t) (a : list Z) : np_msgproperty_run_t :=
  Msgproperty_run a (required_attributes_policy p).

(** [property != NULL]: its attributes are changed. *)
Definition set_property (property : option np_msgproperty_run_t) (conf : np_data_conf) (bin : list Z) (ret : np_data_return)
    : result (np_data_return * option np_msgproperty_run_t) :=
  match property with
  | None => Ok (ret, None)
  | Some p => '(ret, a) ← np_set_data (run_attributes p) conf (U_ptr bin); Ok (ret, Some (with_attributes p a))
  end.

Definition np_set_mxp_attr_bin (caches : attributes_module) (inbound outbound : option np_msgproperty_run_t) (subject : np_dhkey_t)
    (inheritance : Z) (key bin : list Z) (bin_length : Z)
    : result (np_data_return * option np_msgproperty_run_t * option np_msgproperty_run_t * attributes_module) :=
  let conf := bin_conf key bin_length in
  '(ret, inbound, outbound) ←
    (if bool_decide (subject = dhkey_zero) then Ok (np_invalid_arguments, inbound, outbound)
     else
       '(ret, inbound) ← set_property inbound conf bin np_invalid_arguments;
       '(ret, outbound) ← set_property outbound conf bin ret;
       Ok (ret, inbound, outbound));
  '(ret, caches) ← set_inherited caches inheritance conf bin ret;
  Ok (ret, inbound, outbound, caches).

(** The pointer handed out is the union whatever its type; without an object it is
    not set. *)
Definition np_get_token_attr_bin (attributes key : list Z) : result (np_data_return * option (np_data_conf * np_data_value)) :=
  np_get_data attributes key.

(** The bytes are copied without a look at the result. *)
Definition np_get_msg_attr_bin (attributes key : list Z) : result (np_data_return * np_data_conf * list Z) :=
  '(ret, o) ← np_get_data attributes key;
  match o with
  | Some (conf, val) => p ← as_ptr val; b ← read_bytes p (conf_data_size conf); Ok (ret, conf, b)
  | None => Err Undefined
  end.

(** ** Policies *)

(** Of the operations of [_np_attribute_bloom] policies use [add_cb], [union_cb] and
    [intersect_cb]. *)
Definition _np_attribute_bloom : np_bloom_t := _np_neuropil_bloom_create.
Definition add_cb (b : np_bloom_t) (id : np_dhkey_t) := _np_neuropil_bloom_add b id.
Definition union_cb (b c : np_bloom_t) := _np_neuropil_bloom_union b c.
Definition intersect_cb (b c : np_bloom_t) := _np_neuropil_bloom_intersect_ignore_age b c.

(** What is added for a key *)
Definition key_id (key : list Z) : np_dhkey_t := np_dhkey_create_from_hostport crypto_generichash (until_nul key) (c_string "required").
(** ... and of a value. *)
Definition value_id (value : list Z) : np_dhkey_t := _np_dhkey_generate_hash crypto_generichash value.

Definition _np_policy_set_key (bloom : np_bloom_t) (key : list Z) : result np_bloom_t := add_cb bloom (key_id key).
Definition _np_policy_set_bin (bloom : np_bloom_t) (key value : list Z) (value_size : Z) : result np_bloom_t :=
  bloom ← _np_policy_set_key bloom key;
  v ← read_bytes value value_size;
  add_cb bloom (value_id v).

(** [if (property->required_attributes_policy == NULL) ...] and what is added then. *)
Definition require (p : np_msgproperty_run_t) (key : list Z) (value : option (list Z)) (value_size : Z) : result np_msgproperty_run_t :=
  let policy := default _np_attribute_bloom (required_attributes_policy p) in
  policy ← match value with
           | None => _np_policy_set_key policy key
           | Some v => _np_policy_set_bin policy key v value_size
           end;
  Ok (Msgproperty_run (run_attributes p) (Some policy)).

(** [np_invalid_operation] is of another enumeration; as a number it is this result. *)
Definition np_invalid_operation : np_data_return := np_could_not_write_total_length.

(** [subject] is whether a subject is given. *)
Definition np_set_mxp_attr_policy_bin (inbound outbound : option np_msgproperty_run_t) (subject : bool) (key : list Z)
    (value : option (list Z)) (value_size : Z)
    : result (np_data_return * option np_msgproperty_run_t * option np_msgproperty_run_t) :=
  if negb subject then Ok (np_key_not_found, inbound, outbound)
  else
    inbound ← match inbound with None => Ok None | Some p => Some <$> require p key value value_size end;
    match outbound with
    | None => Ok (np_invalid_operation, inbound, None)
    | Some p => p ← require p key value value_size; Ok (np_data_ok, inbound, Some p)
    end.

(** The bytes that are hashed: at the pointer, or of the number itself. *)
Definition value_bytes (conf : np_data_conf) (d : np_data_value) : result (list Z) :=
  match conf_type conf with
  | NP_DATA_TYPE_BIN | NP_DATA_TYPE_STR => as_ptr d
  | NP_DATA_TYPE_INT | NP_DATA_TYPE_UNSIGNED_INT => n ← as_unsigned d; Ok (map (fun i => (n ≫ (8 * Z.of_nat i)) mod 256) (seq 0 4))
  end.

Definition __np_policy_classic_build_attribute_bloom (out_data_config : np_data_conf) (out_data : np_data_value) (bloom : np_bloom_t)
    : result (bool * np_bloom_t) :=
  bloom ← _np_policy_set_key bloom (conf_key out_data_config);
  v ← value_bytes out_data_config out_data;
  bloom ← _np_policy_set_bin bloom (conf_key out_data_config) v (conf_data_size out_data_config);
  Ok (true, bloom).

Definition _np_attribute_build_bloom (target : np_bloom_t) (attributes : list Z) : result (bool * np_bloom_t) :=
  '(r, target) ← np_iterate_data attributes __np_policy_classic_build_attribute_bloom target;
  Ok (bool_decide (r = np_data_ok), target).

Definition _np_policy_check_compliance (policy : option np_bloom_t) (attributes : list Z) : result bool :=
  match policy with
  | None => Ok true
  | Some policy =>
      c ← _np_neuropil_bloom_cmp _np_attribute_bloom policy;
      if c =? 0 then Ok true
      else
        '(ret, all_relevant_hashes_of_attributes) ← _np_attribute_build_bloom _np_attribute_bloom attributes;
        if (ret : bool) then
          relevant ← union_cb _np_attribute_bloom policy;
          '(_, relevant) ← intersect_cb relevant all_relevant_hashes_of_attributes;
          c ← _np_neuropil_bloom_cmp policy relevant;
          Ok (c =? 0)
        else Ok false
  end.

End Attributes.

(** ** Policies: which attributes comply *)

Abbreviation add_all := (filter_add_all neuropil_ops).

Lemma bloom_add_all_cons id ids b : add_all (id :: ids) b = (b ← _np_neuropil_bloom_add b id; add_all ids b).
Proof. done. Qed.
Lemma add_all_app ids ids' : forall b, add_all (ids ++ ids') b = (b ← add_all ids b; add_all ids' b).
Proof.
  induction ids as [|id ids IH]; intros b; [done|]. cbn [app]. rewrite !bloom_add_all_cons.
  destruct (_np_neuropil_bloom_add b id); [rewrite !bind_ok; apply IH|done].
Qed.

(** More than there is room for. *)
Lemma add_all_aborts rng ids : forall cs free, length cs = NCELLS -> 0 <= free <= 64 -> free < Z.of_nat (length ids) ->
  add_all ids (mk rng cs free) = Err Aborted.
Proof.
  induction ids as [|id ids IH]; intros cs free Hl Hf Hlen; cbn [length] in Hlen; [lia|]. rewrite bloom_add_all_cons.
  destruct (decide (free = 0)) as [->|]; [by rewrite neuropil_full_aborts|].
  rewrite neuropil_add_mk by (done || lia). rewrite bind_ok. apply IH; [by rewrite alter_cells_length|lia|lia].
Qed.

Section Policies.
Context `{Sodium} `{Qcbor} `{!Block_limits}.

(** What a filter is given for a requirement, and for an attribute. *)
Definition req_ids (r : list Z * option (list Z)) : list np_dhkey_t :=
  key_id r.1 :: match r.2 with None => [] | Some v => [value_id v] end.
Definition dval_bytes (v : dval) : list Z :=
  match v with
  | D_bin b | D_str b => b
  | D_int z => map (fun i => (u32 z ≫ (8 * Z.of_nat i)) mod 256) (seq 0 4)
  | D_uint z => map (fun i => (u32 z ≫ (8 * Z.of_nat i)) mod 256) (seq 0 4)
  end.
Definition attr_ids (o : obj) : list np_dhkey_t := [key_id o.1; key_id o.1; value_id (dval_bytes o.2)].

(** A policy is made by requiring. *)
Definition set_requirement (bloom : np_bloom_t) (r : list Z * option (list Z)) : result np_bloom_t :=
  match r.2 with None => _np_policy_set_key bloom r.1 | Some v => _np_policy_set_bin bloom r.1 v (Z.of_nat (length v)) end.
Definition make_policy (reqs : list (list Z * option (list Z))) : result np_bloom_t :=
  foldM (fun r b => set_requirement b r) reqs _np_attribute_bloom.

Lemma set_bin_ids bloom key v n : n = Z.of_nat (length v) ->
  _np_policy_set_bin bloom key v n = add_all [key_id key; value_id v] bloom.
Proof.
  intros ->. unfold _np_policy_set_bin, _np_policy_set_key, Attributes.add_cb. rewrite bloom_add_all_cons.
  destruct (_np_neuropil_bloom_add bloom (key_id key)); [|done]. rewrite !bind_ok, bloom_add_all_cons. unfold read_bytes. rewrite Z.ltb_irrefl, Nat2Z.id, take_ge by lia.
  rewrite bind_ok. by destruct (_np_neuropil_bloom_add _ _).
Qed.

Lemma set_requirement_ids bloom r : set_requirement bloom r = add_all (req_ids r) bloom.
Proof.
  destruct r as [k [v|]]; unfold set_requirement, req_ids; cbn [fst snd].
  - by apply set_bin_ids.
  - rewrite bloom_add_all_cons. unfold _np_policy_set_key, Attributes.add_cb. by destruct (_np_neuropil_bloom_add _ _).
Qed.

Lemma make_policy_ids reqs : forall b, foldM (fun r b => set_requirement b r) reqs b = add_all (flat_map req_ids reqs) b.
Proof.
  induction reqs as [|r reqs IH]; intros b; [done|]. cbn [foldM flat_map]. rewrite set_requirement_ids, add_all_app.
  destruct (add_all (req_ids r) b); [rewrite !bind_ok; apply IH|done].
Qed.

(** Building the filter of attributes. *)
Lemma callback_ids o b : dval_range o.2 ->
  __np_policy_classic_build_attribute_bloom (dval_conf o.1 o.2) (dval_union o.2) b = (b ← add_all (attr_ids o) b; Ok (true, b)).
Proof.
  intros Hv. unfold __np_policy_classic_build_attribute_bloom, _np_policy_set_key, Attributes.add_cb, attr_ids. cbn [dval_conf conf_key conf_data_size].
  rewrite bloom_add_all_cons. destruct (_np_neuropil_bloom_add b (key_id o.1)) as [b1|]; [|done]. rewrite !bind_ok.
  assert (value_bytes (dval_conf o.1 o.2) (dval_union o.2) = Ok (dval_bytes o.2)) as ->.
  { destruct o as [k [| | |]]; unfold value_bytes; cbn; rewrite ?u32_id by (apply u32_range); done. }
  rewrite bind_ok. rewrite (set_bin_ids b1 o.1 (dval_bytes o.2)) by (by destruct o as [k [| | |]]). done.
Qed.

Lemma build_ids l : forall b, Forall obj_ok l ->
  iter_objs __np_policy_classic_build_attribute_bloom l b = (b ← add_all (flat_map attr_ids l) b; Ok (np_data_ok, b)).
Proof.
  induction l as [|o l IH]; intros b Ho; [done|]. apply Forall_cons in Ho as [[_ [Hv _]] Ho]. cbn [iter_objs flat_map].
  rewrite callback_ids, add_all_app by done. destruct (add_all (attr_ids o) b); [|done]. rewrite !bind_ok. by apply IH.
Qed.

Lemma attr_ids_length l : length (flat_map attr_ids l) = (3 * length l)%nat.
Proof. induction l as [|o l IH]; [done|]. cbn [flat_map]. rewrite length_app, IH. cbn [length attr_ids]. lia. Qed.

(** ** The comparison *)

Lemma np_cells_some id : exists j, j ∈ np_cells id /\ (j < NCELLS)%nat.
Proof.
  assert (cell_index id 0 ∈ np_cells id) as Hin.
  { with_strategy transparent [np_cells] (unfold np_cells). apply list_elem_of_fmap. exists 0%nat. split; [done|]. apply elem_of_seq. lia. }
  exists (cell_index id 0). split; [done|]. by apply cell_index_lt; lia.
Qed.

Lemma hit_by_elem ids j : hit_by ids j = true <-> exists id, id ∈ ids /\ j ∈ np_cells id.
Proof.
  unfold hit_by. rewrite existsb_exists. split.
  - intros (id & Hin & Hj%bool_decide_eq_true). exists id. by rewrite list_elem_of_In.
  - intros (id & Hin & Hj). exists id. rewrite <-list_elem_of_In. split; [done|]. by apply bool_decide_eq_true.
Qed.

Lemma holds_count cs ids a j : BloomNeuropilThms.holds cs ids a -> (j < NCELLS)%nat -> snd (cell_at cs j) = total_hits ids j.
Proof. intros [_ Hh] Hj. unfold cell_at. by rewrite (Hh j Hj). Qed.

(** Two filters of identifiers agree. *)
Lemma hits_zero ids j : total_hits ids j = 0 <-> hit_by ids j = false.
Proof.
  pose proof (hit_by_total ids j) as Hh. pose proof (total_hits_nonneg ids j). destruct (hit_by ids j).
  - split; [|done]. intros E. assert (0 < total_hits ids j) by (by apply Hh). lia.
  - split; [done|]. intros _. destruct (decide (0 < total_hits ids j)) as [Hp%Hh|]; [done|lia].
Qed.

Definition keep_cell : Z * Z -> Z * Z -> Z * Z :=
  fun '(ra, rc) '(_, tc) => (ra, if (0 <? rc) && (0 <? tc) then u8 (rc + tc) else 0).

Lemma intersect_ignore_age_mk r1 r2 cs1 cs2 f1 f2 :
  length cs1 = NCELLS -> length cs2 = NCELLS ->
  exists b, intersect_cb (mk r1 cs1 f1) (mk r2 cs2 f2) =
    if 64 <=? f2 + f1 then Ok (b, mk r1 (zip_with keep_cell cs1 cs2) 0) else Err Assert_failed.
Proof.
  intros H1' H2'. unfold intersect_cb, _np_neuropil_bloom_intersect_ignore_age. rewrite neuropil_compatible_mk, bind_ok.
  change (_free_items (mk r1 cs1 f1)) with f1. change (_free_items (mk r2 cs2 f2)) with f2.
  unfold SCALE3D_FREE_ITEMS. destruct (64 <=? f2 + f1); [|by exists true].
  change (c_assert true) with (Ok tt). rewrite bind_ok. change (filter_bytes _) with 2040.
  change (_bitset (mk r1 cs1 f1)) with (uncells cs1). change (_bitset (mk r2 cs2 f2)) with (uncells cs2).
  rewrite cells_loop_mk by done. rewrite bind_ok. eexists. reflexivity.
Qed.

Lemma zip_cells_wf g cs1 cs2 : cells_wf cs1 -> cells_wf cs2 -> (forall x y, is_cell x -> is_cell y -> is_cell (g x y)) -> cells_wf (zip_with g cs1 cs2).
Proof.
  intros [L1 C1] [L2 C2] Hg. split; [rewrite length_zip_with; lia|]. apply Forall_forall. intros z Hz.
  apply list_elem_of_lookup in Hz as [j Hj]. apply lookup_zip_with_Some in Hj as (x & y & -> & Hx & Hy).
  apply Hg; [exact (Forall_lookup_1 _ _ _ _ C1 Hx)|exact (Forall_lookup_1 _ _ _ _ C2 Hy)].
Qed.

Lemma union_cell_cell x y : is_cell x -> is_cell y -> is_cell (union_cell x y).
Proof.
  intros [[? ?] ?] [[? ?] ?]. unfold union_cell, is_cell. cbn [fst snd]. split; [|apply u8_range].
  case_match; [by_decide|apply u8_range].
Qed.
Lemma keep_cell_cell x y : is_cell x -> is_cell y -> is_cell (keep_cell x y).
Proof.
  destruct x as [a c], y as [b d]. intros [? ?] [? ?]. unfold keep_cell, is_cell. cbn [fst snd] in *. split; [done|].
  case_match; [apply u8_range|by_decide].
Qed.

Lemma counts_at cs free j : counts_ok cs free -> free <= 64 -> snd (cell_at cs j) <= 2 * (64 - free).
Proof.
  intros Hk Hf. unfold cell_at. destruct (cs !! j) as [x|] eqn:E; cbn; [exact (Forall_lookup_1 _ _ _ _ Hk E)|lia].
Qed.

(** The cells of the policy that are left after the intersection. *)
Lemma relevant_count ps cs ids attrs j : (j < NCELLS)%nat -> cells_wf ps -> cells_wf cs ->
  counts_ok ps (64 - Z.of_nat (length ids)) -> counts_ok cs (64 - Z.of_nat (length attrs)) ->
  BloomNeuropilThms.holds ps (rev ids) 128 -> BloomNeuropilThms.holds cs (rev attrs) 128 ->
  Z.of_nat (length attrs) + Z.of_nat (length ids) <= 64 ->
  snd (cell_at (zip_with keep_cell (zip_with union_cell (replicate NCELLS (0, 0)) ps) cs) j) = 0 <->
  hit_by ids j = false \/ hit_by attrs j = false.
Proof.
  intros Hj Pwf Cwf Pk Ck Hps Hcs Hlen.
  pose proof (counts_at _ _ j Pk) as Bp. pose proof (counts_at _ _ j Ck) as Bc.
  assert (cell_at (replicate NCELLS (0, 0)) j = (0, 0)) as E0 by (unfold cell_at; by rewrite lookup_replicate_2).
  rewrite cell_at_zip; [|rewrite length_zip_with, length_replicate, (proj1 Pwf); lia|apply Cwf|done].
  rewrite cell_at_zip; [|done|apply Pwf|done]. rewrite E0.
  pose proof (cell_at_cell ps j (proj2 Pwf)) as [_ [? ?]]. pose proof (cell_at_cell cs j (proj2 Cwf)) as [_ [? ?]].
  pose proof (holds_count _ _ _ _ Hps Hj) as Ep. pose proof (holds_count _ _ _ _ Hcs Hj) as Ec.
  pose proof (hits_zero (rev ids) j) as Zp. pose proof (hits_zero (rev attrs) j) as Zc. rewrite hit_by_rev in Zp, Zc.
  rewrite <-Zp, <-Zc, <-Ep, <-Ec. destruct (cell_at ps j) as [pa pc], (cell_at cs j) as [ca cc]. cbn [fst snd union_cell keep_cell] in *.
  rewrite Z.add_0_l, (u8_id pc) by (unfold in_u; lia).
  destruct (Z.ltb_spec 0 pc), (Z.ltb_spec 0 cc); cbn [andb]; [rewrite u8_id by (unfold in_u; lia)|..]; lia.
Qed.

Lemma covered_all attrs ids : forallb (covered attrs) ids = true <->
  forall j, hit_by ids j = true -> hit_by attrs j = true.
Proof.
  rewrite forallb_elem_of. split.
  - intros Hc j Hj. apply hit_by_elem in Hj as (id & Hid & Hj). specialize (Hc id Hid). unfold covered in Hc. rewrite forallb_elem_of in Hc. by apply Hc.
  - intros Hh id Hid. unfold covered. apply forallb_elem_of. intros j Hj. apply Hh, hit_by_elem. by exists id.
Qed.

Lemma hit_by_small ids j : hit_by ids j = true -> (j < NCELLS)%nat.
Proof. intros (id & _ & Hj)%hit_by_elem. pose proof (np_cells_lt id) as Hl. rewrite Forall_forall in Hl. by apply Hl. Qed.

(** An attribute has the key; the value is that of some attribute, whatever its key. *)
Definition met (l : list obj) (r : list Z * option (list Z)) : Prop :=
  r.1 ∈ map fst l /\ match r.2 with None => True | Some v => v ∈ map (fun o => dval_bytes o.2) l end.

Lemma met_covered l reqs : Forall (met l) reqs -> forallb (covered (flat_map attr_ids l)) (flat_map req_ids reqs) = true.
Proof.
  intros Hm. apply covered_all. intros j (id & Hid & Hj)%hit_by_elem. apply hit_by_elem. exists id. split; [|done].
  rewrite list_elem_of_In, in_flat_map in Hid |- *. destruct Hid as (r & Hr & Hid). rewrite Forall_forall in Hm.
  destruct (Hm r) as [Hk Hv]; [by rewrite list_elem_of_In|]. destruct r as [k [v|]]; cbn [req_ids fst snd In] in *.
  - destruct Hid as [<-|[<-|[]]].
    + apply list_elem_of_fmap in Hk as (o & -> & Ho). exists o. rewrite <-list_elem_of_In. split; [done|]. by left.
    + apply list_elem_of_fmap in Hv as (o & -> & Ho). exists o. rewrite <-list_elem_of_In. split; [done|]. do 2 right. by left.
  - destruct Hid as [<-|[]]. apply list_elem_of_fmap in Hk as (o & -> & Ho). exists o. rewrite <-list_elem_of_In. split; [done|]. by left.
Qed.

(** C25: Compliance of attributes that are a data block as np_set_data makes it
    ([is_block]: distinct keys, the pairs of [obj_ok]) with a policy made of any list of
    requirements: without requirements they comply; with
    some the attributes must be at most 21 (the filter has 64 places, each takes three)
    and share the places with the policy, else the check aborts; then the attributes
    comply exactly when their identifiers cover those of all the requirements, which
    they do when the requirements are met.  Attributes come from peers and may be
    other bytes, which this says nothing about: the check may then read and write
    outside of its memory, see malformed_attributes_fault below. *)
Theorem policy_compliance_spec total l beyond mem reqs policy :
  is_block total l beyond mem -> make_policy reqs = Ok policy ->
  let ids := flat_map req_ids reqs in
  let attrs := flat_map attr_ids l in
  _np_policy_check_compliance None mem = Ok true /\
  _np_policy_check_compliance (Some policy) mem =
    (if bool_decide (reqs = []) then Ok true
     else if 64 <? 3 * Z.of_nat (length l) then Err Aborted
     else if 64 <? 3 * Z.of_nat (length l) + Z.of_nat (length ids) then Err Assert_failed
     else Ok (forallb (covered attrs) ids)) /\
  (Forall (met l) reqs -> forallb (covered attrs) ids = true).
Proof.
  intros Hb Hp ids attrs. split; [done|]. split; [|apply met_covered]. unfold make_policy, _np_attribute_bloom in Hp. rewrite make_policy_ids in Hp. fold ids in Hp.
  destruct (decide (length ids <= 64)%nat) as [Hids|Hids].
  2:{ rewrite create_mk, add_all_aborts in Hp; [done|done|lia|lia]. }
  destruct (neuropil_build_ok ids Hids) as (ps & Ep & Hps & Pwf & Pk). rewrite Ep in Hp. injection Hp as <-.
  unfold _np_policy_check_compliance, _np_attribute_bloom. rewrite create_mk.
  assert (cells_wf (replicate NCELLS (0, 0))) as Ewf by (split; [done|]; apply Forall_replicate; by_decide).
  destruct (cmp_mk rng0 rng0 (replicate NCELLS (0, 0)) ps 64 (64 - Z.of_nat (length ids)) Ewf Pwf) as (c & -> & Hc & Hc0). rewrite bind_ok.
  case_bool_decide as Er.
  { assert (c = 0) as ->; [|done]. apply Hc0. intros j Hj. rewrite (holds_count _ _ _ _ holds_empty Hj), (holds_count _ _ _ _ Hps Hj).
    unfold ids. by rewrite Er. }
  assert ((c =? 0) = false) as ->.
  { apply Z.eqb_neq. intros Ez. destruct reqs as [|r reqs]; [done|]. destruct (np_cells_some (key_id r.1)) as (j & Hj & Hlt).
    apply Hc0 with (j := j) in Ez; [|done]. rewrite (holds_count _ _ _ _ holds_empty Hlt), (holds_count _ _ _ _ Hps Hlt) in Ez.
    assert (total_hits (rev ids) j = 0) as E0 by (by apply Ez). apply hits_zero in E0. rewrite hit_by_rev in E0.
    assert (hit_by ids j = true) as E1; [|congruence]. apply hit_by_elem. exists (key_id r.1). split; [by left|done]. }
  unfold _np_attribute_build_bloom. rewrite (iterate_spec total l beyond mem _ _ Hb), build_ids by apply Hb. fold attrs.
  pose proof (attr_ids_length l) as Hal. fold attrs in Hal. destruct (Z.ltb_spec 64 (3 * Z.of_nat (length l))) as [Hbig|Hsmall].
  { rewrite add_all_aborts; [done|done|lia|lia]. }
  destruct (neuropil_build_ok attrs) as (cs & Ea & Hcs & Cwf & Ck); [lia|]. rewrite <-create_mk, Ea, !bind_ok, create_mk.
  rewrite bool_decide_eq_true_2 by done. unfold union_cb. rewrite neuropil_union_mk by (done || apply Pwf || lia).
  destruct (Z.leb_spec 64 (64 + (64 - Z.of_nat (length ids)))); [|lia]. rewrite bind_ok.
  set (us := zip_with union_cell (replicate NCELLS (0, 0)) ps).
  assert (length us = NCELLS) as Hus by (unfold us; rewrite length_zip_with, length_replicate, (proj1 Pwf); lia).
  destruct (intersect_ignore_age_mk rng0 rng0 us cs (64 + (64 - Z.of_nat (length ids)) - 64) (64 - Z.of_nat (length attrs)) Hus (proj1 Cwf)) as (b & ->).
  destruct (Z.leb_spec 64 (64 - Z.of_nat (length attrs) + (64 + (64 - Z.of_nat (length ids)) - 64))), (Z.ltb_spec 64 (3 * Z.of_nat (length l) + Z.of_nat (length ids))); try lia; [|done].
  rewrite bind_ok. fold us.
  destruct (cmp_mk rng0 rng0 ps (zip_with keep_cell us cs) (64 - Z.of_nat (length ids)) 0 Pwf) as (r & -> & _ & Hr).
  { apply zip_cells_wf; [apply zip_cells_wf; [exact Ewf|exact Pwf|exact union_cell_cell]|exact Cwf|exact keep_cell_cell]. }
  rewrite bind_ok. apply (f_equal Ok), eq_bool_prop_intro. rewrite !Is_true_true, Z.eqb_eq, Hr, covered_all.
  assert (forall j, (j < NCELLS)%nat -> snd (cell_at ps j) = 0 <-> hit_by ids j = false) as Hz.
  { intros j Hj. rewrite (holds_count _ _ _ _ Hps Hj), hits_zero. by rewrite hit_by_rev. }
  split.
  - intros Hall j Hj. pose proof (hit_by_small _ _ Hj) as Hlt. specialize (Hall j Hlt). rewrite (Hz j Hlt) in Hall.
    unfold us in Hall. rewrite (relevant_count ps cs ids attrs) in Hall by (done || lia).
    destruct (hit_by attrs j); [done|]. exfalso. assert (hit_by ids j = false); [tauto|congruence].
  - intros Hall j Hlt. rewrite (Hz j Hlt). unfold us. rewrite (relevant_count ps cs ids attrs) by (done || lia).
    specialize (Hall j). destruct (hit_by ids j), (hit_by attrs j); try tauto. by specialize (Hall eq_refl).
Qed.

End Policies.

(** ** The caches hold blocks *)

Section Caches.
Context `{Sodium} `{Qcbor} `{!Block_limits}.
Context (encoder_leaves : list item -> Z -> list Z).

Definition caches_ok (caches : attributes_module) : Prop :=
  length caches = Z.to_nat NP_ATTR_MAX /\ Forall (fun b => exists l, is_block ATTRIBUTES_SIZE l [] b) caches.

Lemma init_caches_ok blocks : Forall (fun b : list Z => Z.of_nat (length b) = ATTRIBUTES_SIZE) blocks ->
  exists caches, init_caches encoder_leaves blocks = Ok (true, caches) /\ length caches = length blocks /\
    Forall (fun b => exists l, is_block ATTRIBUTES_SIZE l [] b) caches.
Proof.
  induction 1 as [|b blocks Hb _ (caches & IH & Hl & Hf)]; [by exists []|]. cbn [init_caches].
  destruct (init_spec encoder_leaves ATTRIBUTES_SIZE b [] Hb) as (b' & E & Hb'); [unfold ATTRIBUTES_SIZE, DATABLOCK_OVERHEAD; lia|].
  rewrite app_nil_r in E. rewrite E, bind_ok, bool_decide_eq_true_2, IH by done. exists (b' :: caches).
  split; [done|]. split; [cbn; lia|]. apply Forall_cons. split; [by eexists|done].
Qed.

Lemma _np_attributes_init_ok _module : length _module = Z.to_nat NP_ATTR_MAX ->
  Forall (fun b : list Z => Z.of_nat (length b) = ATTRIBUTES_SIZE) _module ->
  exists caches, _np_attributes_init encoder_leaves _module = Ok (true, caches) /\ caches_ok caches.
Proof.
  intros Hl Hb. destruct (init_caches_ok _module Hb) as (caches & E & Hl' & Hf). exists caches. split; [exact E|]. split; [lia|done].
Qed.

Lemma cache_at_ok caches i : caches_ok caches -> 0 <= i < NP_ATTR_MAX ->
  exists b l, cache_at caches i = Ok b /\ caches !! Z.to_nat i = Some b /\ is_block ATTRIBUTES_SIZE l [] b.
Proof.
  intros [Hl Hf] Hi. unfold cache_at. destruct (Z.ltb_spec i 0); [lia|].
  destruct (lookup_lt_is_Some_2 caches (Z.to_nat i)) as [b Hb]; [rewrite Hl; lia|]. rewrite Hb.
  destruct (Forall_lookup_1 _ _ _ _ Hf Hb) as [l Hbl]. by exists b, l.
Qed.

(** An attribute of an identity: set where it is asked to be, and afterwards found there. *)
Lemma np_set_ident_attr_bin_ok caches key bin i : caches_ok caches -> 0 <= i < NP_ATTR_MAX ->
  key_range key -> (length key < 255)%nat -> obj_ok (key, D_bin bin) ->
  exists r caches' b, np_set_ident_attr_bin encoder_leaves caches None i key bin (Z.of_nat (length bin)) = Ok (r, None, caches') /\
    caches_ok caches' /\ caches' !! Z.to_nat i = Some b /\
    (r = np_data_ok -> np_get_data b key = Ok (np_data_ok, Some (dval_conf key (D_bin bin), U_ptr bin))) /\
    forall j, j ≠ Z.to_nat i -> caches' !! j = caches !! j.
Proof.
  intros Hc Hi Hk Hlk Ho. destruct (cache_at_ok caches i Hc Hi) as (b & l & Eb & Elk & Hb).
  unfold np_set_ident_attr_bin, set_optional. rewrite bind_ok. unfold set_inherited.
  destruct (Z.eqb_spec i NP_ATTR_NONE); [unfold NP_ATTR_NONE in *; lia|]. rewrite Eb, bind_ok.
  assert (until_nul (take 254 key) = key) as Ekey by (rewrite take_ge by lia; apply until_nul_text, Hk).
  destruct (set_spec encoder_leaves ATTRIBUTES_SIZE l [] b (bin_conf key (Z.of_nat (length bin))) (U_ptr bin) key (D_bin bin) Hb) as (b' & E & Hb' & _).
  { unfold bin_conf. rewrite Ekey. split; [by apply strn_key|]. split; [done|]. cbn. split; [done|]. by rewrite take_ge. }
  { done. }
  rewrite E, !bind_ok. destruct Hc as [Hl Hf]. assert (Z.to_nat i < length caches)%nat as Hlt by (rewrite Hl; lia).
  eexists _, _, b'. split; [reflexivity|]. split; [|split; [by apply list_lookup_insert_eq|split]].
  - split; [by rewrite length_insert|]. apply Forall_insert; [done|]. by eexists.
  - intros Er. rewrite (get_spec _ _ _ _ key Hb'). unfold get_result. rewrite strn_key by done.
    rewrite set_result_get by done. by rewrite decide_True.
  - intros j Hj. by apply list_lookup_insert_ne.
Qed.

End Caches.

(** ** Witnesses *)

#[local] Existing Instance rfc8949.
#[local] Existing Instance toy_sodium.

Definition two_objs : list obj := [([107; 49], D_bin [1; 2]); ([107; 50], D_uint 9)].
Definition two_reqs : list (list Z * option (list Z)) := [([107; 50], None); ([107; 49], Some [1; 2])].
Definition two_policy : np_bloom_t := match make_policy two_reqs with Ok p => p | Err _ => _np_attribute_bloom end.

Lemma two_is_block : is_block 64 two_objs [] (small_block two_objs).
Proof.
  split; [repeat first [apply List.Forall_nil|apply List.Forall_cons; [small_obj|]]|by_decide|lia|].
  exists (replicate (Z.to_nat (64 - DATABLOCK_OVERHEAD - objs_size two_objs)) 0).
  split; [|reflexivity]. unfold small_block. by rewrite app_nil_r.
Qed.

Lemma policy_compliance_spec_witness :
  _np_policy_check_compliance (Some two_policy) (small_block two_objs) = Ok true.
Proof.
  assert (make_policy two_reqs = Ok two_policy) as Hp by (vm_compute; reflexivity).
  destruct (policy_compliance_spec 64 two_objs [] (small_block two_objs) two_reqs two_policy two_is_block Hp) as (_ & E & Hm).
  refine (eq_trans E _). refine (f_equal Ok (Hm _)).
  apply List.Forall_cons; [|apply List.Forall_cons; [|apply List.Forall_nil]]; (split; by_decide).
Defined.

(** Attributes a peer sends are checked as they are: a key of 300 characters is copied
    into an array of 255, and a header that promises an object where none is makes
    the iteration read it from a NULL end. *)
Lemma malformed_attributes_fault :
  _np_policy_check_compliance (Some two_policy) long_key_block = Err Bad_access /\
  _np_policy_check_compliance (Some two_policy) promised_object = Err Bad_access.
Proof. split; vm_compute; reflexivity. Qed.

(** A key and its value are required one apart from the other: the values of two keys
    may be exchanged. *)
Definition wanted : list (list Z * option (list Z)) := [([114], Some [1]); ([115], Some [2])].
Definition swapped_objs : list obj := [([114], D_bin [2]); ([115], D_bin [1])].
Lemma swapped_values_comply :
  (p ← make_policy wanted; _np_policy_check_compliance (Some p) (small_block swapped_objs)) = Ok true.
Proof. vm_compute. reflexivity. Qed.
