(* ===== verification/TokenFactory.v ===== *)
(** * Making tokens: [src/np_token_factory.c]

    A node makes tokens for its identity and itself, and derives others from these:
    one for each subject (message intents), one for each handshake.  A derived token
    has the public key of its source and, while it stays on the node, is signed with
    the secret key of the source. *)
From Stdlib Require Import ZArith Lia QArith Lqa String.
From stdpp Require Import prelude.
From S2P Require Import Prelude Real Dhkey Rng Token Crypto Treeval Tree Qcbor Serial Datablock Aaatoken Attributes.

Local Open Scope Z_scope.

(** ** What the functions read *)

(** Of [np_state_t]: the two keys of the node, with the tokens they hold, and the
    attribute caches. *)
Record factory_context := Factory_context {
  realm_id : option (list Z);
  my_identity_dhkey : np_dhkey_t;
  my_identity_token : np_aaatoken_t;
  my_node_dhkey : np_dhkey_t;
  my_node_token : np_aaatoken_t;
  attribute_cache : list (list Z);
}.

(** What [np_new_obj] yields: the memory it finds, a generated uuid, the time and how
    long the token is to live at first. *)
Record new_object := New_object { found : np_aaatoken_t; new_uuid : list Z; created : Q; live_sec : Z }.

Inductive np_mx_audience_type := NP_MX_AUD_PUBLIC | NP_MX_AUD_VIRTUAL | NP_MX_AUD_PROTECTED | NP_MX_AUD_PRIVATE.
#[export] Instance np_mx_audience_type_eq_dec : EqDecision np_mx_audience_type.
Proof. solve_decision. Defined.

(** What an intent token is made of. *)
Record np_msgproperty_conf_t := Msgproperty_conf {
  msg_subject : list Z;
  mep_type : Z;
  ack_mode : Z;
  max_threshold : Z;
  token_max_ttl : Z;
  audience_type : np_mx_audience_type;
  audience_id : np_dhkey_t;
}.

Definition NODE_MAX_TTL_SEC : Z := Z.shiftl 3 16.
Definition NODE_MIN_TTL_SEC : Z := Z.shiftl 3 8.

(** The token is its own issuer and has its secret key. *)
Definition set_own (t : np_aaatoken_t) : np_aaatoken_t :=
  Aaatoken (version t) (uuid t) (realm t) (issuer t) (subject t) (audience t) (issued_at t) (not_before t) (expires_at t)
    (attributes t) (attributes_signature t) (crypto t) (signature t) (state t) (token_type t) np_aaatoken_scope_private true None
    (is_signature_verified t) (is_signature_attributes_verified t).

(** The fields copied from the source, and its key. *)
Definition copy_fields (t source : np_aaatoken_t) (c : np_crypto_t) (scope_ : Z) : np_aaatoken_t :=
  Aaatoken (version source) (uuid t) (take 255 (until_nul (realm source))) (take 65 (until_nul (issuer source)))
    (take 255 (until_nul (subject source))) (take 255 (until_nul (audience source))) (issued_at source) (not_before source) (expires_at source)
    (attributes source) (attributes_signature t) c (signature t) (state source) (token_type source) scope_ (private_key_is_set t)
    (if private_key_is_set source && (scope_ =? np_aaatoken_scope_private_available) then Some (crypto source) else issuer_token t)
    (is_signature_verified t) (is_signature_attributes_verified t).

Section Factory.
Context `{Sodium} `{Qcbor} `{Doubles}.
Context (encoder_leaves : list item -> Z -> list Z) (printed : np_treeval_t -> list Z).

Abbreviation np_set_data := (np_set_data encoder_leaves).
Abbreviation np_merge_data := (np_merge_data encoder_leaves).
Abbreviation np_init_datablock := (np_init_datablock encoder_leaves).
Abbreviation set_signature_of := (_np_aaatoken_set_signature encoder_leaves).

Definition np_new_obj (o : new_object) : result np_aaatoken_t :=
  _np_aaatoken_t_new encoder_leaves (found o) (new_uuid o) (created o) (live_sec o).

(** ["prefix:uuid"], at most 253 characters *)
Definition urn (prefix : string) (u : list Z) : list Z := take 253 (c_string prefix ++ c_string ":" ++ sodium_bin2hex u).

(** ** New tokens and derived ones *)

(** [keypair]: what libsodium generates when no secret key is given.  The result of
    the crypto factory is not looked at. *)
Definition __np_token_factory_new (context : factory_context) (o : new_object) (issuer_ : list Z) (expires_at_ now : Q)
    (secret_key : option (list Z)) (keypair : option (list Z * list Z)) : result np_aaatoken_t :=
  ret ← np_new_obj o;
  let ret := set_subject ret (urn "urn:np:id" (uuid ret)) in
  let ret := match realm_id context with Some r => set_realm ret (take 255 (until_nul r)) | None => ret end in
  let ret := set_issuer ret (take 65 (until_nul issuer_)) in
  let ret := set_expires_at (set_not_before ret now) expires_at_ in
  let c := match secret_key with
           | Some sk => np_cryptofactory_by_secret (crypto ret) sk
           | None => np_cryptofactory_new keypair (crypto ret)
           end in
  Ok (set_own (set_crypto ret c.2)).

(** What may be derived from what. *)
Definition derive_contract (source : np_aaatoken_t) (scope_ : Z) : result unit :=
  if scope_ =? np_aaatoken_scope_private then
    c_assert (scope source =? np_aaatoken_scope_private);;
    c_assert (FLAG_CMP (token_type source) np_aaatoken_type_identity || FLAG_CMP (token_type source) np_aaatoken_type_node)
  else if scope_ =? np_aaatoken_scope_private_available then c_assert (scope source <=? np_aaatoken_scope_private)
  else if scope_ =? np_aaatoken_scope_public then c_assert (scope source <=? np_aaatoken_scope_private_available)
  else Err Aborted.

Definition __np_token_factory_derive (o : new_object) (source : np_aaatoken_t) (scope_ : Z) : result np_aaatoken_t :=
  derive_contract source scope_;;
  ret ← np_new_obj o;
  let '(ok, c) := if negb (scope_ =? np_aaatoken_scope_private) then np_cryptofactory_by_public (crypto ret) (ed25519_public_key (crypto source))
                  else np_cryptofactory_by_secret (crypto ret) (ed25519_secret_key (crypto source)) in
  c_assert ok;;
  Ok (copy_fields ret source c scope_).

(** [np_merge_data (ret->attributes, _np_get_attributes_cache (context, cache))] *)
Definition merge_cache (context : factory_context) (cache : Z) (ret : np_aaatoken_t) : result np_aaatoken_t :=
  c ← _np_get_attributes_cache (attribute_cache context) cache;
  '(_, a) ← np_merge_data (attributes ret) (Some c);
  Ok (set_attributes ret a).
Definition merge_identity_caches (context : factory_context) (ret : np_aaatoken_t) : result np_aaatoken_t :=
  ret ← merge_cache context NP_ATTR_IDENTITY ret;
  ret ← merge_cache context NP_ATTR_IDENTITY_AND_USER_MSG ret;
  merge_cache context NP_ATTR_INTENT_AND_IDENTITY ret.

Definition sign_both (ret : np_aaatoken_t) : result np_aaatoken_t :=
  ret ← set_signature_of ret None; _np_aaatoken_update_attributes_signature ret.

Definition np_token_factory_get_public_ident_token (context : factory_context) (o : new_object) (source : np_aaatoken_t) : result np_aaatoken_t :=
  c_assert (FLAG_CMP (token_type source) np_aaatoken_type_identity);;
  ret ← __np_token_factory_derive o source np_aaatoken_scope_private_available;
  ret ← merge_identity_caches context (set_uuid ret (uuid source));
  sign_both ret.

Definition np_token_factory_get_public_node_token (o : new_object) (source : np_aaatoken_t) : result np_aaatoken_t :=
  c_assert (FLAG_CMP (token_type source) np_aaatoken_type_node);;
  ret ← __np_token_factory_derive o source np_aaatoken_scope_public;
  set_signature_of ret None.

(** ** Message intents *)

(** An attribute that is a number; it is asserted that it can be set. *)
Definition set_uint (ret : np_aaatoken_t) (key : string) (v : Z) : result np_aaatoken_t :=
  '(tmp, a) ← np_set_data (attributes ret) (Data_conf (c_string key) NP_DATA_TYPE_UNSIGNED_INT 0) (U_num v);
  c_assert (bool_decide (tmp = np_data_ok));;
  Ok (set_attributes ret a).

(** The audience is copied without a terminator: what was behind stays. *)
Definition with_audience (ret : np_aaatoken_t) (conf : np_msgproperty_conf_t) : np_aaatoken_t :=
  if bool_decide (audience_type conf = NP_MX_AUD_PROTECTED) then
    set_audience ret (_np_dhkey_str sodium_bin2hex (audience_id conf) ++ drop 64 (audience ret))
  else ret.

Definition intent_attributes (conf : np_msgproperty_conf_t) (ret : np_aaatoken_t) : result np_aaatoken_t :=
  ret ← set_uint ret "mep_type" (mep_type conf);
  ret ← set_uint ret "ack_mode" (ack_mode conf);
  ret ← set_uint ret "max_threshold" (max_threshold conf);
  set_uint ret "msg_threshold" 0.

Definition _np_token_factory_new_message_intent_token (context : factory_context) (o : new_object) (now : Q)
    (msg_request : np_msgproperty_conf_t) : result np_aaatoken_t :=
  let identity_token := my_identity_token context in
  ret ← __np_token_factory_derive o identity_token np_aaatoken_scope_private_available;
  let ret := set_type ret np_aaatoken_type_message_intent in
  '(_, a) ← np_init_datablock (attributes ret) NP_EXTENSION_BYTES;
  let ret := set_attributes ret a in
  let ret := set_subject ret (take 254 (until_nul (msg_subject msg_request))) in
  let ret := set_issuer ret (take 65 (_np_dhkey_str sodium_bin2hex (my_identity_dhkey context))) in
  let ret := with_audience ret msg_request in
  let ret := set_not_before ret now in
  let expires := (now + inject_Z (token_max_ttl msg_request))%Q in
  let ret := set_expires_at ret (if Qltb (expires_at identity_token) expires then expires_at identity_token else expires) in
  ret ← intent_attributes msg_request ret;
  ret ← np_aaatoken_set_partner_fp encoder_leaves ret (my_node_dhkey context);
  let ret := set_state ret (Z.lor (Z.lor AAA_AUTHORIZED AAA_AUTHENTICATED) AAA_VALID) in
  ret ← merge_cache context NP_ATTR_INTENT ret;
  ret ← merge_cache context NP_ATTR_INTENT_AND_USER_MSG ret;
  ret ← merge_cache context NP_ATTR_INTENT_AND_IDENTITY ret;
  set_signature_of ret None.

(** ** Handshakes, nodes and identities *)

(** [protocol]: what [_np_network_get_protocol_string] returns; [rng]: the global
    random number. *)
Definition _np_token_factory_new_handshake_token (context : factory_context) (o : new_object) (protocol local_ip port : list Z) (rng : Z)
    : result np_aaatoken_t :=
  let my_node_token := my_node_token context in
  c_assert (FLAG_CMP (token_type my_node_token) np_aaatoken_type_node);;
  c_assert (scope my_node_token =? np_aaatoken_scope_private);;
  ret ← __np_token_factory_derive o my_node_token np_aaatoken_scope_private_available;
  '(_, a) ← np_init_datablock (attributes ret) NP_EXTENSION_BYTES;
  let ret := set_type (set_attributes ret a) np_aaatoken_type_handshake in
  node_dhkey ← np_aaatoken_get_fingerprint my_node_token false;
  let ret := set_issuer ret (_np_dhkey_str sodium_bin2hex node_dhkey) in
  let ret := set_subject ret (take 253 (c_string "urn:np:node:" ++ protocol ++ c_string ":" ++ local_ip ++ c_string ":" ++ port)) in
  '(_, a) ← np_set_data (attributes ret) (Data_conf (c_string "_np.hs.priority") NP_DATA_TYPE_UNSIGNED_INT 0) (U_num rng);
  sign_both (set_attributes ret a).

(** [rand]: a number below [NODE_MAX_TTL_SEC]. *)
Definition _np_token_factory_new_node_token (context : factory_context) (o : new_object) (now now' : Q) (rand : Z)
    (keypair : option (list Z * list Z)) : result np_aaatoken_t :=
  let rand_interval := rand + NODE_MIN_TTL_SEC in
  ret ← __np_token_factory_new context o [] (now + inject_Z rand_interval)%Q now' None keypair;
  let ret := set_type ret np_aaatoken_type_node in
  sign_both (set_subject ret (urn "urn:np:node" (uuid ret))).

Definition np_token_factory_new_identity_token (context : factory_context) (o : new_object) (expires_at_ now : Q)
    (secret_key : option (list Z)) (keypair : option (list Z * list Z)) : result np_aaatoken_t :=
  ret ← __np_token_factory_new context o [] expires_at_ now secret_key keypair;
  ret ← merge_identity_caches context (set_type ret np_aaatoken_type_identity);
  sign_both ret.

(** ** Tokens that arrive *)

Definition np_token_factory_read_from_tree (o : new_object) (now : Q) (tree : np_tree_t) : result (option np_aaatoken_t) :=
  ret ← np_new_obj o;
  '(ok, ret) ← np_aaatoken_decode printed tree ret;
  if (ok : bool) then
    '(valid, ret) ← _np_aaatoken_is_valid now (Some ret) np_aaatoken_type_undefined;
    match (if (valid : bool) then ret else None) with
    | Some ret => c_assert (1 <? Z.of_nat (length (until_nul (subject ret))));; Ok (Some ret)
    | None => Ok None
    end
  else Ok None.

End Factory.
