(* ===== verification/TokenFactoryThms.v ===== *)
(** * Making tokens: an intent that is made is accepted where it arrives *)
From Stdlib Require Import ZArith Lia QArith Lqa String.
From stdpp Require Import prelude gmap fin_maps.
From S2P Require Import Prelude Real Dhkey Token Crypto Treeval Tree TreeSpec Qcbor Serial SerialThms Datablock DatablockSpec DatablockThms Aaatoken AaatokenSpec Attributes TokenFactory.

Local Open Scope Z_scope.

(** ** Lists of attributes *)

Lemma put_fresh k v l : get_obj k l = None -> put_obj k v l = l ++ [(k, v)].
Proof.
  induction l as [|[k' v'] l IH]; [done|]. cbn. destruct (decide (k' = k)); [done|]. intros E. by rewrite IH.
Qed.

Lemma objs_size_one o : objs_size [o] = obj_size o.
Proof. unfold objs_size, zsum. cbn. lia. Qed.

Lemma obj_size_bound o n : (length o.1 < 255)%nat -> match o.2 with D_bin b | D_str b => Z.of_nat (length b) <= n | D_int z | D_uint z => True end ->
  0 <= n < 2 ^ 16 -> obj_size o <= Z.of_nat (length o.1) + n + 30.
Proof.
  intros Hk Hv Hn. rewrite obj_size_eq, item_length_dval. unfold item_length. cbn [uTags uVal value_length map zsum foldr].
  destruct o as [k [b|z|z|b]]; cbn [fst snd] in *; unfold head_length; repeat case_match; lia.
Qed.

Lemma merge_keeps total k l : get_obj k l = None -> forall dest, get_obj k (merge_objs total l dest).2 = get_obj k dest.
Proof.
  induction l as [|[k' v] l IH]; [done|]. cbn [get_obj merge_objs fst snd]. destruct (decide (k' = k)) as [|Hne]; [done|]. intros Hk dest.
  destruct (set_result total dest k' v) as [r dest'] eqn:E. assert (get_obj k dest' = get_obj k dest) as Hd.
  { unfold set_result in E. case_match; injection E as <- <-; [|done]. rewrite get_put. by rewrite decide_False by done. }
  case_decide; cbn [snd]; [by rewrite IH|done].
Qed.

Section Factory.
Context `{Sodium} `{Qcbor} `{!Block_limits} `{Doubles}.
Context (encoder_leaves : list item -> Z -> list Z) (printed : np_treeval_t -> list Z).

(** ** New objects *)

(** The memory has the size of a token; the uuid is one. *)
Definition object_ok (o : new_object) : Prop :=
  Z.of_nat (length (attributes (found o))) = NP_EXTENSION_BYTES /\ bytes_of_size NP_UUID_BYTES (new_uuid o) /\
  (length (attributes_signature (found o)) <= crypto_sign_BYTES)%nat.

Lemma new_obj_ok o : object_ok o ->
  exists t, np_new_obj encoder_leaves o = Ok t /\ uuid t = new_uuid o /\ is_block NP_EXTENSION_BYTES [] [] (attributes t) /\
    private_key_is_set t = false /\ issuer_token t = None /\ signature t = zero_bytes 64 /\
    attributes_signature t = attributes_signature (found o).
Proof.
  intros (Hl & _ & _). unfold np_new_obj, _np_aaatoken_t_new.
  destruct (init_spec encoder_leaves NP_EXTENSION_BYTES (attributes (found o)) [] Hl) as (a & E & Ha); [unfold NP_EXTENSION_BYTES, DATABLOCK_OVERHEAD; lia|].
  rewrite app_nil_r in E. rewrite E, bind_ok. eexists. split; [reflexivity|]. by cbn.
Qed.

(** A token with which others can be derived and signed. *)
Record identity_ready (t : np_aaatoken_t) : Prop := {
  id_scope : scope t = np_aaatoken_scope_private;
  id_private : private_key_is_set t = true;
  id_pair : crypto_sign_ed25519_sk_to_pk (ed25519_secret_key (crypto t)) = Some (ed25519_public_key (crypto t));
  id_kx : is_Some (crypto_sign_ed25519_pk_to_curve25519 (ed25519_public_key (crypto t)));
  id_block : Z.of_nat (length (attributes t)) = NP_EXTENSION_BYTES;
}.

(** A token derived for use on the node itself. *)
Lemma derive_ok o source : object_ok o -> identity_ready source ->
  exists t c, __np_token_factory_derive encoder_leaves o source np_aaatoken_scope_private_available =
      Ok (copy_fields t source c np_aaatoken_scope_private_available) /\
    ed25519_public_key_is_set c = true /\ ed25519_public_key c = ed25519_public_key (crypto source) /\
    uuid t = new_uuid o /\ private_key_is_set t = false /\ attributes_signature t = attributes_signature (found o).
Proof.
  intros Ho [Hs Hp Hpair [cpk Hk] _]. unfold __np_token_factory_derive, derive_contract. rewrite Hs.
  change (np_aaatoken_scope_private_available =? np_aaatoken_scope_private) with false.
  change (np_aaatoken_scope_private_available =? np_aaatoken_scope_private_available) with true.
  change (np_aaatoken_scope_private <=? np_aaatoken_scope_private) with true. cbv iota. change (c_assert true) with (Ok tt).
  destruct (new_obj_ok o Ho) as (t & -> & Hu & _ & Hpk & _ & _ & Ha). rewrite !bind_ok. cbn [negb].
  unfold np_cryptofactory_by_public. rewrite Hk. change (c_assert true) with (Ok tt). rewrite bind_ok.
  eexists t, _. by split.
Qed.

(** ** Steps that change the attributes only *)

Lemma set_uint_ok t l key v : is_block NP_EXTENSION_BYTES l [] (attributes t) -> key_ok (c_string key) -> in_u 32 v -> v ≠ 24 ->
  get_obj (c_string key) l = None -> objs_size l <= 9000 ->
  exists a, set_uint encoder_leaves t key v = Ok (set_attributes t a) /\ is_block NP_EXTENSION_BYTES (l ++ [(c_string key, D_uint v)]) [] a /\
    objs_size (l ++ [(c_string key, D_uint v)]) <= objs_size l + Z.of_nat (length (c_string key)) + 30.
Proof.
  intros Hb Hk Hv H24 Hn Hs. unfold set_uint.
  assert (objs_size (l ++ [(c_string key, D_uint v)]) <= objs_size l + Z.of_nat (length (c_string key)) + 30) as Hsz.
  { rewrite objs_size_app, objs_size_one. pose proof (obj_size_bound (c_string key, D_uint v) 0 (proj2 (proj1 Hk)) I). cbn [fst] in *. lia. }
  destruct (set_spec encoder_leaves NP_EXTENSION_BYTES l [] (attributes t) (Data_conf (c_string key) NP_DATA_TYPE_UNSIGNED_INT 0) (U_num v)
    (c_string key) (D_uint v) Hb) as (a & E & Ha & _).
  { split; [apply strn_key, Hk|]. split; [done|]. by apply u32_id. }
  { split; [done|]. split; [done|]. cbn. by rewrite decide_False. }
  rewrite E, bind_ok. unfold set_result in *. rewrite put_fresh in * by done.
  pose proof (proj2 (proj1 Hk)).
  destruct (Z.leb_spec (DATABLOCK_OVERHEAD + objs_size (l ++ [(c_string key, D_uint v)])) NP_EXTENSION_BYTES);
    [|unfold DATABLOCK_OVERHEAD, NP_EXTENSION_BYTES in *; lia]. cbn [fst snd] in *.
  rewrite bool_decide_eq_true_2 by done. change (c_assert true) with (Ok tt). rewrite bind_ok. by exists a.
Qed.

(** The caches are blocks without the names [ks]. *)
Definition caches_free (ks : list (list Z)) (caches : list (list Z)) : Prop :=
  length caches = Z.to_nat NP_ATTR_MAX /\
  Forall (fun b => exists l, is_block ATTRIBUTES_SIZE l [] b /\ Forall (fun k => get_obj k l = None) ks) caches.

Lemma merge_cache_ok context i ks t l : caches_free ks (attribute_cache context) -> 0 <= i < NP_ATTR_MAX ->
  is_block NP_EXTENSION_BYTES l [] (attributes t) ->
  exists a l', merge_cache encoder_leaves context i t = Ok (set_attributes t a) /\ is_block NP_EXTENSION_BYTES l' [] a /\
    Forall (fun k => get_obj k l' = get_obj k l) ks.
Proof.
  intros [Hl Hf] Hi Hb. unfold merge_cache, _np_get_attributes_cache, cache_at.
  destruct (Z.eqb_spec i NP_ATTR_NONE); [unfold NP_ATTR_NONE in *; lia|]. change (c_assert (negb false)) with (Ok tt). rewrite bind_ok.
  destruct (Z.ltb_spec i 0); [lia|]. destruct (lookup_lt_is_Some_2 (attribute_cache context) (Z.to_nat i)) as [b Eb]; [rewrite Hl; lia|].
  rewrite Eb, bind_ok. destruct (Forall_lookup_1 _ _ _ _ Hf Eb) as (lc & Hc & Hks).
  destruct (merge_spec encoder_leaves NP_EXTENSION_BYTES l [] (attributes t) ATTRIBUTES_SIZE lc [] b Hb Hc) as (a & E & Ha).
  rewrite E, bind_ok. eexists a, _. split; [reflexivity|]. split; [exact Ha|].
  eapply Forall_impl; [exact Hks|]. intros k Hk. by apply merge_keeps.
Qed.

(** ** Intents *)

Lemma hex_text k : dhkey_wf k -> let s := _np_dhkey_str sodium_bin2hex k in Forall (fun c => 1 <= c < 256) s /\ length s = 64%nat.
Proof.
  intros Hk s. unfold s, _np_dhkey_str, np_id_str. rewrite bin2hex_doc by apply dhkey_bytes_range.
  destruct (hex_string_facts _ (dhkey_bytes_range k)) as (L & X & _). rewrite dhkey_bytes_length in L by done.
  rewrite take_ge by lia. split; [|lia]. apply Forall_forall. intros c Hc. rewrite forallb_elem_of in X. specialize (X c Hc).
  unfold isxdigit in X. lia.
Qed.

Definition partner_obj (k : np_dhkey_t) : obj := (partner_key, D_bin (dhkey_bytes k)).
Definition intent_objs (context : factory_context) (conf : np_msgproperty_conf_t) : list obj :=
  [(c_string "mep_type", D_uint (mep_type conf)); (c_string "ack_mode", D_uint (ack_mode conf));
   (c_string "max_threshold", D_uint (max_threshold conf)); (c_string "msg_threshold", D_uint 0); partner_obj (my_node_dhkey context)].

(** What the node needs to make an intent token: an identity that can sign, names that
    fit, numbers that can be set, no attribute of the user with a reserved name. *)
Record intent_input_ok (context : factory_context) (now : Q) (conf : np_msgproperty_conf_t) : Prop := {
  in_identity : identity_ready (my_identity_token context);
  in_realm : text 255 (realm (my_identity_token context));
  in_audience : text 255 (audience (my_identity_token context));
  in_times : is_double (issued_at (my_identity_token context)) /\ is_double (expires_at (my_identity_token context)) /\
    is_double now /\ is_double (now + inject_Z (token_max_ttl conf))%Q;
  in_keys : dhkey_wf (my_identity_dhkey context) /\ dhkey_wf (my_node_dhkey context) /\ dhkey_wf (audience_id conf);
  in_subject : text 255 (msg_subject conf);
  in_numbers : Forall (fun v => in_u 32 v /\ v ≠ 24) [mep_type conf; ack_mode conf; max_threshold conf];
  in_caches : caches_free [c_string "max_threshold"; c_string "msg_threshold"; partner_key] (attribute_cache context);
}.

Ltac name_ok := split; [apply name_key; vm_compute; reflexivity|vm_compute; reflexivity].

Lemma intent_attributes_ok conf t : is_block NP_EXTENSION_BYTES [] [] (attributes t) ->
  Forall (fun v => in_u 32 v /\ v ≠ 24) [mep_type conf; ack_mode conf; max_threshold conf] ->
  exists a l, intent_attributes encoder_leaves conf t = Ok (set_attributes t a) /\ is_block NP_EXTENSION_BYTES l [] a /\
    l = [(c_string "mep_type", D_uint (mep_type conf)); (c_string "ack_mode", D_uint (ack_mode conf));
         (c_string "max_threshold", D_uint (max_threshold conf)); (c_string "msg_threshold", D_uint 0)] /\ objs_size l <= 1000.
Proof.
  intros Hb Hn. apply Forall_cons in Hn as [[? ?] Hn]. apply Forall_cons in Hn as [[? ?] Hn]. apply Forall_cons in Hn as [[? ?] _].
  unfold intent_attributes.
  destruct (set_uint_ok t [] "mep_type" (mep_type conf) Hb) as (a1 & -> & B1 & S1); [name_ok|done|done|done|by vm_compute|]. rewrite bind_ok.
  change (objs_size []) with 0 in S1. change (Z.of_nat (length (c_string "mep_type"))) with 8 in S1.
  destruct (set_uint_ok (set_attributes t a1) _ "ack_mode" (ack_mode conf) B1) as (a2 & -> & B2 & S2); [name_ok|done|done|reflexivity|lia|]. rewrite bind_ok.
  change (Z.of_nat (length (c_string "ack_mode"))) with 8 in S2.
  destruct (set_uint_ok (set_attributes (set_attributes t a1) a2) _ "max_threshold" (max_threshold conf) B2) as (a3 & -> & B3 & S3); [name_ok|done|done|reflexivity|lia|].
  rewrite bind_ok. change (Z.of_nat (length (c_string "max_threshold"))) with 13 in S3.
  destruct (set_uint_ok (set_attributes (set_attributes (set_attributes t a1) a2) a3) _ "msg_threshold" 0 B3) as (a4 & -> & B4 & S4); [name_ok|by_decide|done|reflexivity|lia|].
  change (Z.of_nat (length (c_string "msg_threshold"))) with 13 in S4.
  exists a4. eexists. split; [reflexivity|]. split; [exact B4|]. split; [reflexivity|]. lia.
Qed.

Lemma merge_three context ks t l : caches_free ks (attribute_cache context) -> is_block NP_EXTENSION_BYTES l [] (attributes t) ->
  exists a l', (forall f : np_aaatoken_t -> result np_aaatoken_t,
      (ret ← merge_cache encoder_leaves context NP_ATTR_INTENT t;
       ret ← merge_cache encoder_leaves context NP_ATTR_INTENT_AND_USER_MSG ret;
       ret ← merge_cache encoder_leaves context NP_ATTR_INTENT_AND_IDENTITY ret; f ret) = f (set_attributes t a)) /\
    is_block NP_EXTENSION_BYTES l' [] a /\ Forall (fun k => get_obj k l' = get_obj k l) ks.
Proof.
  intros Hc Hb. assert (forall i, i = NP_ATTR_INTENT \/ i = NP_ATTR_INTENT_AND_USER_MSG \/ i = NP_ATTR_INTENT_AND_IDENTITY -> 0 <= i < NP_ATTR_MAX) as Hi.
  { intros i [->|[->| ->]]; by_decide. }
  destruct (merge_cache_ok context NP_ATTR_INTENT ks t l Hc (Hi _ ltac:(tauto)) Hb) as (a1 & l1 & E1 & B1 & K1).
  destruct (merge_cache_ok context NP_ATTR_INTENT_AND_USER_MSG ks (set_attributes t a1) l1 Hc (Hi _ ltac:(tauto)) B1) as (a2 & l2 & E2 & B2 & K2).
  destruct (merge_cache_ok context NP_ATTR_INTENT_AND_IDENTITY ks (set_attributes (set_attributes t a1) a2) l2 Hc (Hi _ ltac:(tauto)) B2) as (a3 & l3 & E3 & B3 & K3).
  exists a3, l3. split; [intros f; rewrite E1, bind_ok, E2, bind_ok, E3, bind_ok; reflexivity|]. split; [exact B3|].
  rewrite Forall_forall in K1, K2, K3. apply Forall_forall. intros k Hk. by rewrite (K3 k Hk), (K2 k Hk), (K1 k Hk).
Qed.

(** What the token says. *)
Record intent_of (context : factory_context) (o : new_object) (now : Q) (conf : np_msgproperty_conf_t) (t : np_aaatoken_t) (l : list obj) : Prop := {
  of_subject : subject t = msg_subject conf;
  of_issuer : issuer t = _np_dhkey_str sodium_bin2hex (my_identity_dhkey context);
  of_key : ed25519_public_key (crypto t) = ed25519_public_key (crypto (my_identity_token context));
  of_type : token_type t = np_aaatoken_type_message_intent;
  of_expiry : expires_at t = if Qltb (expires_at (my_identity_token context)) (now + inject_Z (token_max_ttl conf))
    then expires_at (my_identity_token context) else (now + inject_Z (token_max_ttl conf))%Q;
  of_uuid : uuid t = new_uuid o;
  of_partner : get_obj partner_key l = Some (D_bin (dhkey_bytes (my_node_dhkey context)));
  of_threshold : get_obj (c_string "max_threshold") l = Some (D_uint (max_threshold conf));
}.

Lemma text_keep n s : text n s -> take n (until_nul s) = s.
Proof. intros Ht. by rewrite (text_nul n s Ht), (text_take n s Ht). Qed.

Lemma audience_ok conf t : text 255 (audience t) -> dhkey_wf (audience_id conf) -> text 255 (audience (with_audience t conf)).
Proof.
  intros Ht Hk. unfold with_audience. case_bool_decide; [|done]. cbn [audience set_audience].
  destruct (hex_text _ Hk) as [Hc Hl]. destruct Ht as (Hf & Hlt & _). split; [|split].
  - apply Forall_app. split; [done|by apply Forall_drop].
  - rewrite length_app, length_drop, Hl. lia.
  - rewrite length_app, Hl. lia.
Qed.
Lemma audience_only conf t : exists x, with_audience t conf = set_audience t x.
Proof. unfold with_audience. case_bool_decide; [by eexists|]. exists (audience t). by destruct t. Qed.

Lemma new_intent_ok context o now conf : intent_input_ok context now conf -> object_ok o ->
  exists t l, _np_token_factory_new_message_intent_token encoder_leaves context o now conf = Ok t /\
    content_ok t l /\ self_signed t /\ thresholds_ok l (token_type t) /\ intent_of context o now conf t l.
Proof.
  intros [Hid Hr Ha (Ht1 & Ht2 & Ht3 & Ht4) (Hk1 & Hk2 & Hk3) Hsub Hnum Hcache] Ho.
  unfold _np_token_factory_new_message_intent_token. destruct (derive_ok o _ Ho Hid) as (t0 & c & -> & Hset & Hpk & Hu & Hp0 & _). rewrite bind_ok.
  destruct Hid as [Hs Hpriv Hpair Hkx Hblk].
  destruct (init_spec encoder_leaves NP_EXTENSION_BYTES (attributes (my_identity_token context)) [] Hblk) as (a0 & E0 & B0); [unfold NP_EXTENSION_BYTES, DATABLOCK_OVERHEAD; lia|].
  rewrite app_nil_r in E0. change (attributes (set_type ?x _)) with (attributes x).
  change (attributes (copy_fields _ (my_identity_token context) _ _)) with (attributes (my_identity_token context)). rewrite E0, bind_ok.
  set (t1 := set_issuer _ _). destruct (audience_only conf t1) as [x Hx].
  assert (text 255 (audience (with_audience t1 conf))) as Haud.
  { apply audience_ok; [|done]. unfold t1. cbn. by rewrite text_keep. }
  set (e := if Qltb _ _ then _ else _). rewrite Hx in Haud |- *. cbn [audience set_audience] in Haud.
  set (t2 := set_expires_at _ e).
  destruct (intent_attributes_ok conf t2 B0 Hnum) as (a4 & l4 & -> & B4 & El4 & S4). rewrite bind_ok.
  destruct (set_partner_ok encoder_leaves (set_attributes t2 a4) l4 (my_node_dhkey context) B4 Hk2) as (a5 & B5 & ->); [by vm_compute| |].
  { rewrite put_fresh by (rewrite El4; reflexivity). rewrite objs_size_app, objs_size_one.
    pose proof (obj_size_bound (partner_key, D_bin (dhkey_bytes (my_node_dhkey context))) 32) as Hb. cbn [fst snd] in Hb.
    specialize (Hb ltac:(vm_compute; lia)). rewrite dhkey_bytes_length in Hb by done. specialize (Hb ltac:(done) ltac:(lia)).
    change (Z.of_nat (length partner_key)) with 14 in Hb. unfold DATABLOCK_OVERHEAD, NP_EXTENSION_BYTES. lia. }
  rewrite bind_ok. rewrite put_fresh in * by (rewrite El4; reflexivity). set (t3 := set_state _ _).
  destruct (merge_three context _ t3 _ Hcache B5) as (a6 & l6 & Em & B6 & K6).
  rewrite (Em (fun ret => _np_aaatoken_set_signature encoder_leaves ret None)). clear Em. set (t4 := set_attributes t3 a6).
  assert (_np_aaatoken_set_signature encoder_leaves t4 None = Ok (set_signature t4 (crypto_sign_detached (_np_aaatoken_get_hash t4)
    (ed25519_secret_key (crypto (my_identity_token context)))))) as ->.
  { unfold _np_aaatoken_set_signature. change (crypto t4) with c. rewrite Hset. change (c_assert true) with (Ok tt).
    change (scope t4 <=? np_aaatoken_scope_private_available) with true. change (c_assert true) with (Ok tt). rewrite !bind_ok.
    unfold issuer_crypto. change (issuer_token t4) with
      (if private_key_is_set (my_identity_token context) && true then Some (crypto (my_identity_token context)) else issuer_token t0).
    by rewrite Hpriv. }
  exists (set_signature t4 (crypto_sign_detached (_np_aaatoken_get_hash t4) (ed25519_secret_key (crypto (my_identity_token context))))), l6.
  assert (take 254 (until_nul (msg_subject conf)) = msg_subject conf) as Esub.
  { rewrite (text_nul 255) by done. apply take_ge. destruct Hsub as (_ & Hlen & _). lia. }
  destruct (hex_text _ Hk1) as [Hhex Hhexl]. set (hex := _np_dhkey_str sodium_bin2hex (my_identity_dhkey context)) in *.
  assert (take 65 hex = hex) as Ehex by (apply take_ge; lia).
  apply Forall_cons in K6 as [Kmax K6]. apply Forall_cons in K6 as [Kmsg K6]. apply Forall_cons in K6 as [Kpart _].
  rewrite El4 in Kmax, Kmsg, Kpart. cbn [app] in Kmax, Kmsg, Kpart.
  assert (get_obj (c_string "max_threshold") l6 = Some (D_uint (max_threshold conf))) as Gmax by (rewrite Kmax; reflexivity).
  assert (get_obj (c_string "msg_threshold") l6 = Some (D_uint 0)) as Gmsg by (rewrite Kmsg; reflexivity).
  assert (get_obj partner_key l6 = Some (D_bin (dhkey_bytes (my_node_dhkey context)))) as Gpart by (rewrite Kpart; reflexivity).
  assert (in_u 32 (max_threshold conf)) as Hmax.
  { apply Forall_cons in Hnum as [_ Hnum]. apply Forall_cons in Hnum as [_ Hnum]. by apply Forall_cons in Hnum as [[? _] _]. }
  assert (is_double e) as He by (unfold e; by case_match).
  split; [reflexivity|]. split; [|split; [|split]].
  - split; cbn.
    + rewrite Hu. apply Ho.
    + by rewrite text_keep.
    + rewrite Ehex. split; [done|]. split; lia.
    + by rewrite Esub.
    + done.
    + done.
    + rewrite Hpk. destruct (pk_bytes _ _ Hpair). by split.
    + split; [apply sign_bytes|apply sign_length].
    + by_decide.
    + done.
  - split; cbn.
    + unfold issuer_crypto. cbn. rewrite Hpriv. cbn. by rewrite Hpk.
    + unfold issuer_crypto. cbn. rewrite Hpriv. cbn. reflexivity.
    + by_decide.
    + by rewrite Hpk.
  - intros _. exists (max_threshold conf), 0. split; [exact Gmax|]. split; [exact Gmsg|]. unfold in_u in *. lia.
  - split; cbn; done.
Qed.
(** C3: From one node to another: an intent token that a node makes for a subject can be
    sent; a peer that reads it before it or the identity expires accepts it, with the
    subject, the issuer, the key, the fingerprint and the node the sender put in. *)
Theorem intent_token_accepted context o now conf o' now' extra :
  intent_input_ok context now conf -> object_ok o -> object_ok o' -> (1 < length (msg_subject conf))%nat ->
  (now' <= expires_at (my_identity_token context))%Q -> (now' <= now + inject_Z (token_max_ttl conf))%Q ->
  (26 <= QCBOR_MAX_ITEMS_IN_ARRAY)%nat ->
  exists t data t1 bytes r, _np_token_factory_new_message_intent_token encoder_leaves context o now conf = Ok t /\
    _np_aaatoken_encode np_tree_create t = Ok (data, t1) /\
    (forall size, np_tree_get_byte_size data <= size -> np_serializer_write_map size data = Ok (Some bytes)) /\
    np_serializer_read_map (bytes ++ extra) np_tree_create = Ok (data, Some (Z.of_nat (length bytes))) /\
    np_token_factory_read_from_tree encoder_leaves printed o' now' data = Ok (Some r) /\
    IS_VALID (state r) = true /\ FLAG_CMP (token_type r) np_aaatoken_type_message_intent = true /\
    subject r = msg_subject conf /\ issuer r = _np_dhkey_str sodium_bin2hex (my_identity_dhkey context) /\
    ed25519_public_key (crypto r) = ed25519_public_key (crypto (my_identity_token context)) /\
    np_aaatoken_get_fingerprint r false = np_aaatoken_get_fingerprint t false /\
    np_aaatoken_get_partner_fp r = Ok (my_node_dhkey context).
Proof.
  intros Hin Ho Ho' Hlen Hn1 Hn2 Hmax. destruct (new_intent_ok context o now conf Hin Ho) as (t & l & Et & Hok & Hself & Hth & Hof).
  destruct (token_travels printed t l extra Hok Hself Hmax) as (data & bytes & cpk & E & Hw & Hr & Hdec).
  destruct (new_obj_ok o' Ho') as (t0 & E0 & _ & B0 & Hp0 & _ & _ & Ha0). destruct Ho' as (_ & _ & Hs0).
  assert (Z.of_nat (length (attributes t0)) = NP_EXTENSION_BYTES) as Hl0 by apply (block_size t0 [] B0).
  set (r := received t t0 l (attributes_signature (resigned t l)) cpk) in *.
  set (r' := set_checked r (Z.lor (state t0) AAA_VALID) true true).
  destruct (received_block t t0 l (attributes_signature (resigned t l)) cpk (ok_attributes t l Hok) Hl0) as [Hrb _]. fold r in Hrb.
  exists t, data, (resigned t l), bytes, r'. split; [exact Et|]. split; [exact E|]. split; [exact Hw|]. split; [exact Hr|]. split.
  - unfold np_token_factory_read_from_tree. rewrite E0, bind_ok. rewrite Hdec; [|done|by rewrite Ha0]. rewrite bind_ok. fold r.
    assert (_np_aaatoken_is_valid now' (Some r) np_aaatoken_type_undefined = Ok (true, Some r')) as ->.
    { apply received_valid; [unfold FLAG_CMP; by rewrite Z.land_0_r|done|done|done|done|]. rewrite (of_expiry _ _ _ _ _ _ Hof). by case_match. }
    rewrite bind_ok. change (subject r') with (subject t). rewrite (of_subject _ _ _ _ _ _ Hof).
    rewrite (text_nul 255) by apply Hin. destruct (Z.ltb_spec 1 (Z.of_nat (length (msg_subject conf)))); [done|lia].
  - destruct Hof as [H1' H2' H3' H4' _ _ H7' _]. split; [|split; [|split; [|split; [|split; [|split]]]]].
    + apply is_valid_valid.
    + change (token_type r') with (token_type t). by rewrite H4'.
    + done.
    + done.
    + done.
    + done.
    + apply (get_partner_ok r' l); [exact Hrb|apply Hin|done].
Qed.

(** ** Identities *)

Lemma merge_identity_ok context t l : caches_free [] (attribute_cache context) -> is_block NP_EXTENSION_BYTES l [] (attributes t) ->
  exists a l', merge_identity_caches encoder_leaves context t = Ok (set_attributes t a) /\ is_block NP_EXTENSION_BYTES l' [] a.
Proof.
  intros Hc Hb. unfold merge_identity_caches. assert (forall i, i = NP_ATTR_IDENTITY \/ i = NP_ATTR_IDENTITY_AND_USER_MSG \/ i = NP_ATTR_INTENT_AND_IDENTITY -> 0 <= i < NP_ATTR_MAX) as Hi.
  { intros i [->|[->| ->]]; by_decide. }
  destruct (merge_cache_ok context NP_ATTR_IDENTITY [] t l Hc (Hi _ ltac:(tauto)) Hb) as (a1 & l1 & -> & B1 & _). rewrite bind_ok.
  destruct (merge_cache_ok context NP_ATTR_IDENTITY_AND_USER_MSG [] (set_attributes t a1) l1 Hc (Hi _ ltac:(tauto)) B1) as (a2 & l2 & -> & B2 & _). rewrite bind_ok.
  destruct (merge_cache_ok context NP_ATTR_INTENT_AND_IDENTITY [] (set_attributes (set_attributes t a1) a2) l2 Hc (Hi _ ltac:(tauto)) B2) as (a3 & l3 & -> & B3 & _).
  exists a3, l3. by split.
Qed.

(** Both signatures of a token that has its key. *)
Lemma sign_both_ok t l : is_block NP_EXTENSION_BYTES l [] (attributes t) -> ed25519_public_key_is_set (crypto t) = true ->
  scope t <= np_aaatoken_scope_private_available ->
  exists s, sign_both encoder_leaves t =
    Ok (set_attributes_signature (set_signature t (crypto_sign_detached (_np_aaatoken_get_hash t) (ed25519_secret_key (issuer_crypto t)))) s).
Proof.
  intros Hb Hk Hs. unfold sign_both, _np_aaatoken_set_signature. rewrite Hk. change (c_assert true) with (Ok tt). rewrite !bind_ok.
  rewrite (proj2 (Z.leb_le _ _) Hs). change (c_assert true) with (Ok tt). rewrite !bind_ok.
  unfold _np_aaatoken_update_attributes_signature. cbn [scope set_signature]. rewrite (proj2 (Z.leb_le _ _) Hs).
  change (c_assert true) with (Ok tt). rewrite bind_ok, (attributes_hash_ok (set_signature t _) l Hb), bind_ok. by eexists.
Qed.

(** A new identity can be made of every secret key libsodium can convert: it is
    private, signed by itself, and all that is needed to derive intents. *)
Theorem new_identity_ready context o expires now sk c0 c : object_ok o -> caches_free [] (attribute_cache context) ->
  np_cryptofactory_by_secret c0 sk = (true, c) ->
  exists t, np_token_factory_new_identity_token encoder_leaves context o expires now (Some sk) None = Ok t /\
    identity_ready t /\ self_signed t /\ token_type t = np_aaatoken_type_identity /\ expires_at t = expires /\
    ed25519_secret_key (crypto t) = sk /\ subject t = urn "urn:np:id" (new_uuid o) /\ until_nul (issuer t) = [].
Proof.
  intros Ho Hc Hk. unfold np_token_factory_new_identity_token, __np_token_factory_new.
  destruct (new_obj_ok o Ho) as (t0 & -> & Hu & B0 & _). rewrite !bind_ok.
  assert (exists c', np_cryptofactory_by_secret (crypto t0) sk = (true, c')) as [c' Hk'].
  { revert Hk. unfold np_cryptofactory_by_secret, derive_kx. destruct (crypto_sign_ed25519_sk_to_pk sk) as [pk|]; [|done]. cbn.
    destruct (crypto_sign_ed25519_sk_to_curve25519 sk); [|done]. cbn. destruct (crypto_sign_ed25519_pk_to_curve25519 pk); [|done]. by eexists. }
  set (t1 := set_expires_at _ _). change (crypto t1) with (crypto t0) || (assert (crypto t1 = crypto t0) as -> by (unfold t1; by destruct (realm_id context))).
  rewrite Hk'. cbn [snd]. destruct (by_secret_ready _ _ _ Hk') as (_ & Esk & _ & Epks & Epair & Ekx).
  set (t2 := set_type _ _).
  assert (attributes t2 = attributes t0 /\ crypto t2 = c' /\ subject t2 = urn "urn:np:id" (new_uuid o) /\ issuer t2 = [] /\ expires_at t2 = expires) as (Ea & Ec & Es & Ei & Ee).
  { unfold t2, t1. destruct (realm_id context); cbn; by rewrite Hu. }
  destruct (merge_identity_ok context t2 [] Hc) as (a & l & -> & B); [by rewrite Ea|]. rewrite bind_ok.
  destruct (sign_both_ok (set_attributes t2 a) l B) as [s ->]; [cbn [crypto set_attributes]; by rewrite Ec|by vm_compute|].
  eexists. split; [reflexivity|]. cbn [set_attributes_signature set_signature set_attributes token_type expires_at crypto subject issuer].
  rewrite Ec. split; [|split; [|split; [done|split; [done|split; [done|split; [done|by rewrite Ei]]]]]].
  - split; cbn [scope private_key_is_set crypto set_attributes_signature set_signature set_attributes attributes]; rewrite ?Ec; try done.
    + by rewrite Esk.
    + apply (block_size (set_attributes t2 a) l B).
  - split; unfold issuer_crypto; cbn [issuer_token set_attributes_signature set_signature set_attributes t2 set_type set_own default from_option crypto]; change (crypto (set_crypto t1 c')) with c'; rewrite ?Ec.
    + by rewrite Esk.
    + done.
    + by vm_compute.
    + by rewrite Ekx.
Qed.

(** ** The public token of a node *)

(** It is derived with public scope, which the signing that follows refuses. *)
Lemma public_node_token_asserts o source : object_ok o -> identity_ready source -> FLAG_CMP (token_type source) np_aaatoken_type_node = true ->
  np_token_factory_get_public_node_token encoder_leaves o source = Err Assert_failed.
Proof.
  intros Ho [Hs Hp Hpair [cpk Hk] _] Ht. unfold np_token_factory_get_public_node_token. rewrite Ht. change (c_assert true) with (Ok tt).
  rewrite bind_ok. unfold __np_token_factory_derive, derive_contract. rewrite Hs.
  change (np_aaatoken_scope_public =? np_aaatoken_scope_private) with false.
  change (np_aaatoken_scope_public =? np_aaatoken_scope_private_available) with false.
  change (np_aaatoken_scope_public =? np_aaatoken_scope_public) with true.
  change (np_aaatoken_scope_private <=? np_aaatoken_scope_private_available) with true. cbv iota. change (c_assert true) with (Ok tt).
  destruct (new_obj_ok o Ho) as (t & -> & _). rewrite !bind_ok. cbn [negb]. unfold np_cryptofactory_by_public. rewrite Hk.
  change (c_assert true) with (Ok tt). by rewrite !bind_ok.
Qed.

End Factory.

(** ** Witnesses *)

#[local] Existing Instance rfc8949.
#[local] Existing Instance toy_sodium.
#[local] Existing Instance whole_doubles.

Definition empty_block : list Z :=
  header_bytes (header_of NP_EXTENSION_BYTES []) ++ replicate (Z.to_nat (NP_EXTENSION_BYTES - DATABLOCK_OVERHEAD)) 0.
Lemma empty_is_block : is_block NP_EXTENSION_BYTES [] [] empty_block.
Proof.
  split; [constructor|constructor|by vm_compute|]. exists (replicate (Z.to_nat (NP_EXTENSION_BYTES - DATABLOCK_OVERHEAD)) 0).
  split; [unfold empty_block; by rewrite app_nil_r|]. rewrite length_replicate. vm_compute. reflexivity.
Qed.

Definition sample_identity : np_aaatoken_t :=
  Aaatoken 0 (replicate 16 1) [] [] (c_string "urn:np:id") (c_string "all") 100 100 500 empty_block (replicate 64 0) sample_crypto (replicate 64 0)
    0 np_aaatoken_type_identity np_aaatoken_scope_private true None false false.
Definition sample_context : factory_context :=
  Factory_context None (bytes_dhkey (replicate 32 1)) sample_identity (bytes_dhkey (replicate 32 2)) sample_identity (replicate 6 empty_block).
Definition sample_object (u : Z) : new_object := New_object empty_token (replicate 16 u) 100 20.
Definition sample_conf : np_msgproperty_conf_t :=
  Msgproperty_conf (c_string "weather") 16 0 20 300 NP_MX_AUD_PROTECTED (bytes_dhkey (replicate 32 3)).

Lemma sample_object_ok u : in_u 8 u -> object_ok (sample_object u).
Proof.
  intros Hu. split; [|split].
  - change (attributes (found (sample_object u))) with sample_block.
    exact (proj2 (proj2 (proj2 (block_size sample_token sample_objs sample_block_ok)))).
  - split; [by apply Forall_replicate|reflexivity].
  - apply Nat.leb_le. reflexivity.
Qed.

Lemma sample_identity_ready : identity_ready sample_identity.
Proof.
  split; [reflexivity|reflexivity|reflexivity|by eexists|]. exact (proj2 (proj2 (proj2 (block_size sample_identity [] empty_is_block)))).
Qed.

Lemma sample_caches_free ks : caches_free ks (attribute_cache sample_context).
Proof.
  split; [reflexivity|]. apply Forall_replicate. exists []. split; [exact empty_is_block|]. apply Forall_true. done.
Qed.

Lemma whole_is_double z : in_u 64 z -> is_double (inject_Z z).
Proof. intros Hz. by exists z. Qed.

Lemma sample_input_ok : intent_input_ok sample_context 100 sample_conf.
Proof.
  assert (forall b, in_u 8 b -> dhkey_wf (bytes_dhkey (replicate 32 b))) as Hk by (intros b Hb; apply bytes_dhkey_wf; by apply Forall_replicate).
  split; try (apply sample_text; vm_compute; reflexivity).
  - exact sample_identity_ready.
  - split; [|split; [|split]]; [apply (whole_is_double 100)|apply (whole_is_double 500)|apply (whole_is_double 100)|apply (whole_is_double 400)]; by_decide.
  - split; [|split]; apply Hk; by_decide.
  - repeat (apply List.Forall_cons; [split; [by_decide|done]|]). apply List.Forall_nil.
  - apply sample_caches_free.
Qed.

Lemma intent_token_accepted_witness :
  exists t data t1 bytes r, _np_token_factory_new_message_intent_token no_leaves sample_context (sample_object 7) 100 sample_conf = Ok t /\
    _np_aaatoken_encode np_tree_create t = Ok (data, t1) /\
    (forall size, np_tree_get_byte_size data <= size -> np_serializer_write_map size data = Ok (Some bytes)) /\
    np_serializer_read_map (bytes ++ [1; 2; 3]) np_tree_create = Ok (data, Some (Z.of_nat (length bytes))) /\
    np_token_factory_read_from_tree no_leaves (fun _ => []) (sample_object 9) 300 data = Ok (Some r) /\
    IS_VALID (state r) = true /\ FLAG_CMP (token_type r) np_aaatoken_type_message_intent = true /\
    subject r = msg_subject sample_conf /\ issuer r = _np_dhkey_str sodium_bin2hex (my_identity_dhkey sample_context) /\
    ed25519_public_key (crypto r) = ed25519_public_key (crypto (my_identity_token sample_context)) /\
    np_aaatoken_get_fingerprint r false = np_aaatoken_get_fingerprint t false /\
    np_aaatoken_get_partner_fp r = Ok (my_node_dhkey sample_context).
Proof.
  apply (intent_token_accepted no_leaves (fun _ => []) sample_context (sample_object 7) 100 sample_conf (sample_object 9) 300 [1; 2; 3] sample_input_ok).
  - apply sample_object_ok. by_decide.
  - apply sample_object_ok. by_decide.
  - apply Nat.ltb_lt. vm_compute. reflexivity.
  - vm_compute. discriminate.
  - vm_compute. discriminate.
  - apply Nat.leb_le. vm_compute. reflexivity.
Defined.

Lemma new_identity_ready_witness :
  exists t, np_token_factory_new_identity_token no_leaves sample_context (sample_object 5) 1000 100 (Some sample_key) None = Ok t /\
    identity_ready t /\ self_signed t /\ token_type t = np_aaatoken_type_identity /\ expires_at t = 1000%Q /\
    ed25519_secret_key (crypto t) = sample_key /\ subject t = urn "urn:np:id" (new_uuid (sample_object 5)) /\ until_nul (issuer t) = [].
Proof.
  apply (new_identity_ready no_leaves sample_context (sample_object 5) 1000 100 sample_key (Crypto false false false false [] [] [] []) sample_crypto).
  - apply sample_object_ok. by_decide.
  - apply sample_caches_free.
  - reflexivity.
Defined.

(** A property whose threshold is 24 has no intent token: the attribute cannot be set,
    which is asserted. *)
Lemma threshold_24_asserts : set_uint no_leaves sample_identity "max_threshold" 24 = Err Assert_failed.
Proof. vm_compute. reflexivity. Qed.
