(* ===== verification/UserToken.v ===== *)
(** * Tokens of the user: [struct np_token] and [np_aaatoken4user], [np_user4aaatoken]

    Applications see a token with identifiers of 32 bytes where the library keeps
    their hexadecimal strings.  Converting there and back keeps what is signed, for
    tokens whose realm, issuer and audience are such strings or empty. *)
From Stdlib Require Import ZArith Lia QArith String.
From stdpp Require Import prelude.
From S2P Require Import Prelude Real Dhkey Token Crypto Treeval Tree TreeSpec Qcbor Serial SerialThms Datablock DatablockSpec DatablockThms Aaatoken AaatokenSpec.

Local Open Scope Z_scope.

Definition NP_SECRET_KEY_BYTES : nat := 64.

(** The strings and arrays of [struct np_token]. *)
Record np_token := Np_token {
  u_uuid : list Z;
  u_subject : list Z;
  u_issuer : list Z;
  u_realm : list Z;
  u_audience : list Z;
  u_issued_at : Q;
  u_not_before : Q;
  u_expires_at : Q;
  u_public_key : list Z;
  u_secret_key : list Z;
  u_signature : list Z;
  u_attributes : list Z;
  u_attributes_signature : list Z;
}.

Section Users.
Context `{Sodium} `{Qcbor} `{!Block_limits} `{Doubles}.

(** The attributes of [dest] stay when those of the token are no block. *)
Definition np_aaatoken4user (dest : np_token) (src : np_aaatoken_t) : result np_token :=
  realm_dhkey ← np_dhkey_create_from_hash sodium_hex2bin (realm src);
  audience_dhkey ← np_dhkey_create_from_hash sodium_hex2bin (audience src);
  issuer_dhkey ← np_dhkey_create_from_hash sodium_hex2bin (issuer src);
  let '(r, attr_size) := np_get_data_size (attributes src) in
  Ok (Np_token (uuid src) (take 255 (until_nul (subject src))) (dhkey_bytes issuer_dhkey) (dhkey_bytes realm_dhkey) (dhkey_bytes audience_dhkey)
        (issued_at src) (not_before src) (expires_at src) (ed25519_public_key (crypto src))
        (if private_key_is_set src then ed25519_secret_key (crypto src) else zero_bytes NP_SECRET_KEY_BYTES)
        (signature src)
        (if bool_decide (r = np_data_ok) && (attr_size <=? NP_EXTENSION_BYTES) then attributes src else u_attributes dest)
        (attributes_signature src)).

(** An identifier as a string; of all zeros, the empty one. *)
Definition id_string (id : list Z) : list Z := if decide (id = dhkey_bytes dhkey_zero) then [] else np_id_str sodium_bin2hex id.

(** The secret key is not taken over. *)
Definition np_user4aaatoken (dest : np_aaatoken_t) (src : np_token) : np_aaatoken_t :=
  let c := crypto dest in
  let c := Crypto true (ed25519_secret_key_is_set c) (derived_kx_public_key_is_set c) (derived_kx_secret_key_is_set c)
             (u_public_key src) (ed25519_secret_key c) (derived_kx_public_key c) (derived_kx_secret_key c) in
  _np_aaatoken_update_scope
    (Aaatoken (version dest) (u_uuid src) (id_string (u_realm src)) (id_string (u_issuer src)) (take 255 (until_nul (u_subject src)))
      (id_string (u_audience src)) (u_issued_at src) (u_not_before src) (u_expires_at src) (u_attributes src) (u_attributes_signature src)
      c (u_signature src) (state dest) (token_type dest) (scope dest) (private_key_is_set dest) (issuer_token dest)
      (is_signature_verified dest) (is_signature_attributes_verified dest)).

(** ** There and back *)

(** The string of an identifier, or none. *)
Definition identifier (s : list Z) : Prop :=
  s = [] \/ exists k, dhkey_wf k /\ k ≠ dhkey_zero /\ s = _np_dhkey_str sodium_bin2hex k.

Lemma identifier_kept s : identifier s ->
  exists k, np_dhkey_create_from_hash sodium_hex2bin s = Ok k /\ dhkey_wf k /\ id_string (dhkey_bytes k) = s.
Proof.
  intros [->|(k & Hk & Hnz & ->)].
  - exists dhkey_zero. split; [by rewrite create_from_hash_unfold|]. split; [by_decide|]. unfold id_string. by rewrite decide_True.
  - destruct (dhkey_hex_roundtrip sodium_bin2hex sodium_hex2bin bin2hex_doc hex2bin_doc k Hk) as (_ & E & _). exists k. split; [exact E|]. split; [done|]. unfold id_string.
    rewrite decide_False; [done|]. intros Eb. apply Hnz, dhkey_bytes_inj; [done|by_decide|done].
Qed.
(** Handing a token to the application and taking it back keeps what is signed:
    hash, fingerprint, both signatures and the attributes, so it is verified as before.
    The secret key goes to the application when the token has it, and is not taken
    back. *)
Theorem user_token_roundtrip t t0 u0 l :
  identifier (realm t) -> identifier (issuer t) -> identifier (audience t) -> text 255 (subject t) ->
  is_block NP_EXTENSION_BYTES l [] (attributes t) ->
  exists u, np_aaatoken4user u0 t = Ok u /\
    u_secret_key u = (if private_key_is_set t then ed25519_secret_key (crypto t) else zero_bytes NP_SECRET_KEY_BYTES) /\
    let r := np_user4aaatoken t0 u in
    hashed_bytes r = hashed_bytes t /\ signature r = signature t /\ attributes r = attributes t /\
    attributes_signature r = attributes_signature t /\ ed25519_public_key (crypto r) = ed25519_public_key (crypto t) /\
    (forall include, np_aaatoken_get_fingerprint r include = np_aaatoken_get_fingerprint t include) /\
    ed25519_secret_key (crypto r) = ed25519_secret_key (crypto t0) /\
    scope r = (if private_key_is_set t0 then np_aaatoken_scope_private else np_aaatoken_scope_public).
Proof.
  intros Hr Hi Ha Hs Hb. destruct (identifier_kept _ Hr) as (kr & Er & _ & Sr), (identifier_kept _ Hi) as (ki & Ei & _ & Si), (identifier_kept _ Ha) as (ka & Ea & _ & Sa).
  unfold np_aaatoken4user. rewrite Er, bind_ok, Ea, bind_ok, Ei, bind_ok.
  destruct (block_size t l Hb) as (Esz & Hsz & _ & Hlen). rewrite Esz. rewrite bool_decide_eq_true_2 by done. rewrite Hlen in Hsz.
  rewrite (proj2 (Z.leb_le _ _) Hsz). cbn [andb]. eexists. split; [reflexivity|]. split; [done|].
  assert (forall t', hashed_bytes t' = hashed_bytes t -> signature t' = signature t -> attributes t' = attributes t ->
    forall include, np_aaatoken_get_fingerprint t' include = np_aaatoken_get_fingerprint t include) as Hf.
  { intros t' E1 E2 E3 include. unfold np_aaatoken_get_fingerprint, _np_aaatoken_get_hash, __np_aaatoken_get_attributes_hash. by rewrite E1, E2, E3. }
  assert (forall t' : np_aaatoken_t, uuid t' = uuid t -> realm t' = realm t -> issuer t' = issuer t -> subject t' = subject t -> audience t' = audience t ->
    ed25519_public_key (crypto t') = ed25519_public_key (crypto t) -> expires_at t' = expires_at t -> issued_at t' = issued_at t ->
    not_before t' = not_before t -> hashed_bytes t' = hashed_bytes t) as Hh.
  { intros t' E1 E2 E3 E4 E5 E6 E7 E8 E9. unfold hashed_bytes. by rewrite E1, E2, E3, E4, E5, E6, E7, E8, E9. }
  match goal with |- hashed_bytes ?x = _ /\ _ => set (r := x) end. assert (hashed_bytes r = hashed_bytes t) as Er'.
  { apply Hh; try done. cbn [r np_user4aaatoken _np_aaatoken_update_scope set_scope subject u_subject].
    rewrite (text_nul 255 (subject t)) by done. rewrite (text_take 255 (subject t)) by done.
    rewrite (text_nul 255 (subject t)) by done. by rewrite (text_take 255 (subject t)). }
  split; [done|]. split; [done|]. split; [done|]. split; [done|]. split; [done|]. split; [by apply Hf|]. by split.
Qed.

(** A realm that is no identifier is lost on the way, and with it the signature. *)
Lemma plain_realm_is_lost dest u0 t u : realm t = c_string "my realm" -> np_aaatoken4user u0 t = Ok u -> realm (np_user4aaatoken dest u) = [].
Proof.
  intros E. unfold np_aaatoken4user. rewrite E, (create_from_hash_unfold sodium_hex2bin (c_string "my realm")). change (valid_format (c_string "my realm")) with false. cbv iota.
  rewrite bind_ok. destruct (np_dhkey_create_from_hash sodium_hex2bin (audience t)); [|done]. rewrite bind_ok.
  destruct (np_dhkey_create_from_hash sodium_hex2bin (issuer t)); [|done]. rewrite bind_ok.
  destruct (np_get_data_size (attributes t)). intros [= <-]. unfold np_user4aaatoken. cbn [_np_aaatoken_update_scope set_scope realm u_realm].
  unfold id_string. by rewrite decide_True.
Qed.

End Users.

(** ** Witness *)

#[local] Existing Instance rfc8949.
#[local] Existing Instance toy_sodium.
#[local] Existing Instance whole_doubles.

Definition empty_user : np_token := Np_token [] [] [] [] [] 0 0 0 [] [] [] [] [].
Definition identified : np_aaatoken_t := set_issuer (set_audience sample_token []) (_np_dhkey_str sodium_bin2hex partner).

Lemma user_token_roundtrip_witness :
  exists u, np_aaatoken4user empty_user identified = Ok u /\ hashed_bytes (np_user4aaatoken empty_token u) = hashed_bytes identified /\
    np_aaatoken_get_fingerprint (np_user4aaatoken empty_token u) true = np_aaatoken_get_fingerprint identified true.
Proof.
  destruct (user_token_roundtrip identified empty_token empty_user sample_objs) as (u & E & _ & Hh & _ & _ & _ & _ & Hf & _).
  - left. reflexivity.
  - right. exists partner. split; [apply bytes_dhkey_wf; apply Forall_replicate; by_decide|]. split; [by_decide|reflexivity].
  - left. reflexivity.
  - apply sample_text. vm_compute. reflexivity.
  - exact sample_block_ok.
  - exists u. exact (conj E (conj Hh (Hf true))).
Defined.
