(* ===== verification/Intent.v ===== *)
(** * Intents: [src/core/np_comp_intent.c]

    For a subject a node keeps the tokens of those who send and of those who receive
    on it, in two priority lists (the ledger), and the session keys it shares with
    them.  A new token replaces an equal one or joins its list; as soon as it is
    authorised two sessions are derived, identified by the sum and by the exclusive
    or of the fingerprints of the sender's and the receiver's token, from which both
    sides know them.  Tokens are shared objects: the lists hold pointers, and the
    store says which token a pointer leads to.  The lists are sequences, on which the
    operations of [Dll] act as file [DllSpec] says. *)
From Stdlib Require Import ZArith Lia QArith String.
From stdpp Require Import prelude gmap fin_maps sorting functions.
From S2P Require Import Prelude Real Dhkey Sll DllSpec Reassembly Token Crypto Treeval Tree Qcbor Serial Datablock Aaatoken.

Local Open Scope Z_scope.

(** [np_msg_mep_type] and [np_msg_ack_type] *)
Definition DEFAULT_TYPE : Z := 0x000.
Definition RECEIVER_MASK : Z := 0x00F.
Definition SENDER_MASK : Z := 0x0F0.
Definition SINGLE_RECEIVER : Z := 0x001.
Definition SINGLE_SENDER : Z := 0x010.
Definition ACK_NONE : Z := 0x01.

Inductive crud_op := crud_unknown | crud_create | crud_read | crud_update | crud_delete.
#[export] Instance crud_op_eq_dec : EqDecision crud_op.
Proof. solve_decision. Defined.

(** What a pointer to a token leads to. *)
Abbreviation store := (loc -> np_aaatoken_t).

(** [struct __np_token_ledger] *)
Record token_ledger := Ledger { recv_tokens : list loc; send_tokens : list loc }.

(** The entities of the key of a subject: of its configuration the exchange pattern
    and the acknowledgement mode, of its run time data the fingerprint of the node's
    own token, the ledger, the sessions and whom to acknowledge to. *)
Record subject_key := Subject_key {
  mep_type : Z;
  ack_mode : Z;
  current_fp : np_dhkey_t;
  ledger : token_ledger;
  crypto_tree : gmap np_dhkey_t np_crypto_session_t;
  ack_tree : gmap np_dhkey_t np_dhkey_t;
}.

Definition set_types (k : subject_key) (mep ack : Z) : subject_key :=
  Subject_key mep ack (current_fp k) (ledger k) (crypto_tree k) (ack_tree k).
Definition set_recv (k : subject_key) (l : list loc) : subject_key :=
  Subject_key (mep_type k) (ack_mode k) (current_fp k) (Ledger l (send_tokens (ledger k))) (crypto_tree k) (ack_tree k).
Definition set_send (k : subject_key) (l : list loc) : subject_key :=
  Subject_key (mep_type k) (ack_mode k) (current_fp k) (Ledger (recv_tokens (ledger k)) l) (crypto_tree k) (ack_tree k).
Definition set_sessions (k : subject_key) (c : gmap np_dhkey_t np_crypto_session_t) (a : gmap np_dhkey_t np_dhkey_t) : subject_key :=
  Subject_key (mep_type k) (ack_mode k) (current_fp k) (ledger k) c a.

(** A message that hands over a session key: under which session it is sent, which
    session it is about, and the key. *)
Record rekey_message := Rekey { rekey_to : np_dhkey_t; rekey_about : np_dhkey_t; rekey_key : list Z }.

(** ** Comparing *)

(** The sign of [memcmp] and of [strncmp] on what the strings have up to the limit. *)
Fixpoint chars_cmp (a b : list Z) : Z :=
  match a, b with
  | [], [] => 0
  | [], _ => -1
  | _, [] => 1
  | x :: a, y :: b => if x <? y then -1 else if y <? x then 1 else chars_cmp a b
  end.
Definition strncmp (a b : list Z) (n : nat) : Z := chars_cmp (strn_of n a) (strn_of n b).

(** As many characters of subject and realm as the first token has are compared. *)
Definition intent_cmp (first second : np_aaatoken_t) : Z :=
  let ret_check := chars_cmp (uuid first) (uuid second) in
  if 0 =? ret_check then ret_check
  else
    let ret_check := strncmp (issuer first) (issuer second) 65 in
    if negb (0 =? ret_check) then ret_check
    else
      let ret_check := strncmp (subject first) (subject second) (length (strn_of 255 (subject first))) in
      if negb (0 =? ret_check) then ret_check
      else strncmp (realm first) (realm second) (length (strn_of 255 (realm first))).

(** On pointers. *)
Definition _np_intent_cmp (s : store) (first second : option loc) : Z :=
  if decide (first = second) then 0
  else match first, second with Some a, Some b => intent_cmp (s a) (s b) | _, _ => -1 end.

(** [sodium_memcmp] is 0 or -1. *)
Definition sodium_memcmp (a b : list Z) : Z := if decide (a = b) then 0 else -1.

Definition _np_intent_cmp_exact (s : store) (first second : option loc) : Z :=
  if decide (first = second) then 0
  else
    match first, second with
    | Some a, Some b =>
        let ret_check := sodium_memcmp (derived_kx_public_key (crypto (s a))) (derived_kx_public_key (crypto (s b))) in
        if negb (0 =? ret_check) then ret_check
        else
          let ret_check := chars_cmp (uuid (s a)) (uuid (s b)) in
          if negb (0 =? ret_check) then ret_check else _np_intent_cmp s first second
    | _, _ => -1
    end.

(** [pll_replace] and [pll_remove] on sequences: at the first element the comparison
    gives 0 for. *)
Definition replace_by (cmp : loc -> loc -> Z) (v : loc) (l : list loc) : option (loc * list loc) :=
  match list_find (fun x => cmp x v = 0) l with Some (i, x) => Some (x, <[i := v]> l) | None => None end.
Definition remove_by (cmp : loc -> loc -> Z) (v : loc) (l : list loc) : list loc :=
  match list_find (fun x => cmp x v = 0) l with Some (i, _) => delete i l | None => l end.

Section Intents.
Context `{Sodium} `{Qcbor} `{Doubles}.

Abbreviation create_from_hash := (np_dhkey_create_from_hash sodium_hex2bin).

(** ** Sessions *)

Definition private_id (sender receiver : np_dhkey_t) : np_dhkey_t := _np_dhkey_add sender receiver.
Definition initial_id (sender receiver : np_dhkey_t) : np_dhkey_t := _np_dhkey_xor sender receiver.

(** [np_tree_insert_dhkey] leaves a key that is there as it is. *)
Definition insert_missing {V} (k : np_dhkey_t) (v : V) (m : gmap np_dhkey_t V) : gmap np_dhkey_t V :=
  match m !! k with Some _ => m | None => <[k := v]> m end.

(** The token a list begins with; there has to be one. *)
Definition pll_first_val (l : list loc) : result loc := match l with t :: _ => Ok t | [] => Err Bad_access end.

(** One of the two sessions, if it is not there: whether a key pair could be derived,
    the session and whether it is new. *)
Definition new_session (tree : gmap np_dhkey_t np_crypto_session_t) (id : np_dhkey_t) (type : np_crypto_session_type)
    (mine peer : np_crypto_t) (remote_is_client : bool) : result (bool * np_crypto_session_t * bool) :=
  let session := _np_crypto_session_t_new in
  match tree !! id with
  | Some _ => Ok (true, session, false)
  | None => '(ok, session) ← np_crypto_session mine (set_session_type session type) peer remote_is_client; Ok (ok, session, true)
  end.

(** Both of them. [None]: nothing is registered. *)
Definition both_sessions (tree : gmap np_dhkey_t np_crypto_session_t) (private initial : np_dhkey_t) (mine peer : np_crypto_t)
    (private_remote_is_client : bool) : result (option (np_crypto_session_t * np_crypto_session_t)) :=
  '(i, private_crypto_session, u) ← new_session tree private crypto_session_private mine peer private_remote_is_client;
  '(j, initial_crypto_session, v) ← new_session tree initial crypto_session_initial mine peer (negb private_remote_is_client);
  Ok (if negb (i && j) then None else if u || v then Some (private_crypto_session, initial_crypto_session) else None).

(** At the receiver of messages. *)
Definition _np_intent_update_sender_session (s : store) (k : subject_key) (sender_token : loc) (crud : crud_op) : result subject_key :=
  my_receiver_token ← pll_first_val (recv_tokens (ledger k));
  let my_receiver_token_fp := current_fp k in
  sender_token_fp ← np_aaatoken_get_fingerprint (s sender_token) false;
  sender_node_fp ← np_aaatoken_get_partner_fp (s sender_token);
  let private_session_fp := private_id sender_token_fp my_receiver_token_fp in
  let initial_session_fp := initial_id sender_token_fp my_receiver_token_fp in
  if decide (sender_token = my_receiver_token) then Ok k
  else if decide (crud = crud_delete) then
    Ok (set_sessions k (delete initial_session_fp (delete private_session_fp (crypto_tree k)))
          (delete private_session_fp (delete initial_session_fp (delete sender_token_fp (ack_tree k)))))
  else
    r ← both_sessions (crypto_tree k) private_session_fp initial_session_fp (issuer_crypto (s my_receiver_token))
          (crypto (s sender_token)) true;
    match r with
    | None => Ok k
    | Some (private_crypto_session, initial_crypto_session) =>
        Ok (set_sessions k
              (<[initial_session_fp := initial_crypto_session]> (<[private_session_fp := private_crypto_session]> (crypto_tree k)))
              (insert_missing private_session_fp sender_node_fp
                (insert_missing initial_session_fp sender_node_fp (insert_missing sender_token_fp sender_node_fp (ack_tree k)))))
    end.

(** At the sender of messages; the second component is the message that is sent. *)
Definition _np_intent_update_receiver_session (s : store) (k : subject_key) (receiver_token : loc) (crud : crud_op)
    : result (subject_key * option rekey_message) :=
  my_sender_token ← pll_first_val (send_tokens (ledger k));
  let my_sender_token_fp := current_fp k in
  receiver_token_fp ← np_aaatoken_get_fingerprint (s receiver_token) false;
  let private_session_fp := private_id my_sender_token_fp receiver_token_fp in
  let initial_session_fp := initial_id my_sender_token_fp receiver_token_fp in
  '(k, send_update) ←
    (if decide (receiver_token_fp = my_sender_token_fp) then Ok (k, false)
     else if decide (crud = crud_delete) then
       Ok (set_sessions k (delete initial_session_fp (delete private_session_fp (crypto_tree k))) (ack_tree k), false)
     else
       r ← both_sessions (crypto_tree k) private_session_fp initial_session_fp (issuer_crypto (s my_sender_token))
             (crypto (s receiver_token)) false;
       match r with
       | None => Ok (k, false)
       | Some (private_crypto_session, initial_crypto_session) =>
           Ok (set_sessions k
                 (<[initial_session_fp := initial_crypto_session]> (<[private_session_fp := private_crypto_session]> (crypto_tree k)))
                 (ack_tree k), true)
       end);
  Ok (k, match crypto_tree k !! my_sender_token_fp with
         | Some _crypto_session =>
             if (send_update : bool) then Some (Rekey initial_session_fp my_sender_token_fp (session_key_to_write _crypto_session)) else None
         | None => None
         end).

(** The sessions in the order of the tree. *)
Definition dhkey_le (a b : np_dhkey_t * np_crypto_session_t) : Prop := _np_dhkey_cmp (Some a.1) (Some b.1) <= 0.
#[export] Instance dhkey_le_dec a b : Decision (dhkey_le a b).
Proof. unfold dhkey_le. apply _. Defined.
Definition in_order (m : gmap np_dhkey_t np_crypto_session_t) : list (np_dhkey_t * np_crypto_session_t) := merge_sort dhkey_le (map_to_list m).

(** The key of the node's own session goes to everybody with an initial session. *)
Definition rekey_all (tree : gmap np_dhkey_t np_crypto_session_t) (my_token_fp : np_dhkey_t) (key : list Z) : list rekey_message :=
  omap (fun e : np_dhkey_t * np_crypto_session_t =>
    if decide (my_token_fp = e.1) then None
    else if decide (session_type e.2 = crypto_session_initial) then Some (Rekey e.1 my_token_fp key) else None) (in_order tree).

(** [random_write], [random_read]: what [randombytes_buf] fills in. *)
Definition _np_intent_update_session (k : subject_key) (my_token : np_aaatoken_t) (for_receiver : bool) (crud : crud_op)
    (random_write random_read : list Z) : result (subject_key * list rekey_message) :=
  my_token_fp ← np_aaatoken_get_fingerprint my_token false;
  match crud with
  | crud_update => Ok (k, [])
  | crud_delete =>
      Ok (match crypto_tree k !! my_token_fp with
          | None => k
          | Some _ => set_sessions k (delete my_token_fp (crypto_tree k)) (ack_tree k)
          end, [])
  | crud_create =>
      let my_crypto_session := Crypto_session crypto_session_shared true true random_read random_write in
      let tree := insert_missing my_token_fp my_crypto_session (crypto_tree k) in
      Ok (set_sessions k tree (ack_tree k), if for_receiver then [] else rekey_all tree my_token_fp random_write)
  | crud_unknown | crud_read => if for_receiver then Ok (k, []) else Err Bad_access
  end.

(** [iter->key.value.dhkey] *)
Definition dhkey_of (v : np_treeval_t) : result np_dhkey_t :=
  match value v with V_dhkey x => Ok x | _ => Err Undefined end.

(** One key of a received message. *)
Definition import_one (crud : crud_op) (e : elem) (tree : gmap np_dhkey_t np_crypto_session_t)
    : result (gmap np_dhkey_t np_crypto_session_t) :=
  _to_find ← dhkey_of e.1;
  if decide (crud = crud_delete) then Ok (delete _to_find tree)
  else
    key ← bin_bytes e.2 (Z.of_nat crypto_kx_SESSIONKEYBYTES);
    Ok (<[_to_find :=
      match tree !! _to_find with
      | None => Crypto_session crypto_session_shared true false key (zero_bytes crypto_kx_SESSIONKEYBYTES)
      | Some old => Crypto_session crypto_session_shared (session_key_to_read_is_set old) (session_key_to_write_is_set old) key
                      (session_key_to_write old)
      end]> tree).
Definition _np_intent_import_session (k : subject_key) (received : np_tree_t) (crud : crud_op) : result subject_key :=
  tree ← foldM (import_one crud) (rbh_root received) (crypto_tree k);
  Ok (set_sessions k tree (ack_tree k)).

Definition _np_intent_has_crypto_session (k : subject_key) (session_dhkey : np_dhkey_t) : bool :=
  bool_decide (is_Some (crypto_tree k !! session_dhkey)).
Definition _np_intent_get_ack_session (k : subject_key) (session_dhkey : np_dhkey_t) : option np_dhkey_t := ack_tree k !! session_dhkey.
Definition _np_intent_get_crypto_session (k : subject_key) (session_dhkey : np_dhkey_t) (crypto_session : np_crypto_session_t)
    : bool * np_crypto_session_t :=
  match crypto_tree k !! session_dhkey with Some stored => (true, stored) | None => (false, crypto_session) end.

(** ** The ledger *)

(** The two kinds of comparison and whether equal tokens may stand side by side. *)
Definition put_token (s : store) (single : bool) (token : loc) (l : list loc) : option loc * list loc :=
  let cmp_add a b := _np_intent_cmp s (Some a) (Some b) in
  let cmp_replace a b := if single then _np_intent_cmp s (Some a) (Some b) else _np_intent_cmp_exact s (Some a) (Some b) in
  match replace_by cmp_replace token l with
  | Some (old, l) => (Some old, l)
  | None => (None, default l (insert_by cmp_add (negb single) token l))
  end.

(** The token takes over the state of the one it replaces. *)
Definition take_state (s : store) (ret : option loc) (token : loc) : store :=
  match ret with Some old => <[token := set_state (s token) (state (s old))]> s | None => s end.
Definition crud_of (ret : option loc) : crud_op := match ret with Some _ => crud_update | None => crud_create end.

Definition uint_or (a : list Z) (key : string) (d : Z) : result Z := v ← uint_attribute a key; Ok (default d v).

Definition _np_intent_add_sender (s : store) (k : subject_key) (token : loc) : result (store * subject_key * option loc) :=
  let a := attributes (s token) in
  mep ← uint_or a "mep_type" DEFAULT_TYPE;
  ack ← uint_or a "ack_mode" ACK_NONE;
  max_threshold ← uint_or a "max_threshold" 0;
  let k := set_types k (Z.lor (mep_type k) (Z.land mep SENDER_MASK)) ack in
  if 0 <? max_threshold then
    let single := FLAG_CMP (Z.land (mep_type k) SENDER_MASK) SINGLE_SENDER in
    let '(ret, l) := put_token s single token (send_tokens (ledger k)) in
    let k := set_send k l in
    let s := take_state s ret token in
    k ← (if IS_AUTHORIZED (state (s token)) then _np_intent_update_sender_session s k token (crud_of ret) else Ok k);
    Ok (s, k, ret)
  else Ok (s, k, None).

Definition _np_intent_add_receiver (s : store) (k : subject_key) (token : loc)
    : result (store * subject_key * option loc * option rekey_message) :=
  let a := attributes (s token) in
  max_threshold ← uint_or a "max_threshold" 0;
  mep ← uint_or a "mep_type" DEFAULT_TYPE;
  let k := set_types k (Z.lor (mep_type k) (Z.land mep RECEIVER_MASK)) (ack_mode k) in
  if 0 <? max_threshold then
    let single := FLAG_CMP (Z.land (mep_type k) RECEIVER_MASK) SINGLE_RECEIVER in
    let '(ret, l) := put_token s single token (recv_tokens (ledger k)) in
    let k := set_recv k l in
    let s := take_state s ret token in
    '(k, m) ← (if IS_AUTHORIZED (state (s token)) then _np_intent_update_receiver_session s k token (crud_of ret) else Ok (k, None));
    Ok (s, k, ret, m)
  else Ok (s, k, None, None).

(** Whether the token can be used now; the check is recorded in it. *)
Definition intent_valid (now : Q) (s : store) (t : loc) : result (bool * store) :=
  '(ok, t') ← _np_aaatoken_is_valid now (Some (s t)) np_aaatoken_type_message_intent;
  Ok (ok, match t' with Some t' => <[t := t']> s | None => s end).

Fixpoint sender_loop (now : Q) (sender_dhkey : np_dhkey_t) (s : store) (iter : list loc) : result (store * option loc) :=
  match iter with
  | [] => Ok (s, None)
  | return_token :: iter =>
      '(ok, s) ← intent_valid now s return_token;
      if negb ok then sender_loop now sender_dhkey s iter
      else
        partner_token_dhkey ← np_aaatoken_get_partner_fp (s return_token);
        if negb (bool_decide (sender_dhkey = dhkey_zero)) && negb (bool_decide (partner_token_dhkey = sender_dhkey)) then
          sender_loop now sender_dhkey s iter
        else if IS_AUTHORIZED (state (s return_token)) then Ok (s, Some return_token)
        else sender_loop now sender_dhkey s iter
  end.
Definition _np_intent_get_sender_token (now : Q) (s : store) (k : subject_key) (sender_dhkey : np_dhkey_t) : result (store * option loc) :=
  sender_loop now sender_dhkey s (send_tokens (ledger k)).

(** [me], [node]: the keys of the identity and of the node. *)
Fixpoint receiver_loop (now : Q) (me node target : np_dhkey_t) (s : store) (iter : list loc) : result (store * option loc) :=
  match iter with
  | [] => Ok (s, None)
  | return_token :: iter =>
      '(ok, s) ← intent_valid now s return_token;
      if negb ok then receiver_loop now me node target s iter
      else
        recvtoken_issuer_key ← create_from_hash (issuer (s return_token));
        if bool_decide (recvtoken_issuer_key = me) || bool_decide (recvtoken_issuer_key = node) then receiver_loop now me node target s iter
        else if negb (bool_decide (target = dhkey_zero)) && negb (bool_decide (recvtoken_issuer_key = target)) then
          receiver_loop now me node target s iter
        else if IS_AUTHORIZED (state (s return_token)) then Ok (s, Some return_token)
        else receiver_loop now me node target s iter
  end.
Definition _np_intent_get_receiver (now : Q) (me node : np_dhkey_t) (s : store) (k : subject_key) (target : np_dhkey_t)
    : result (store * option loc) :=
  receiver_loop now me node target s (recv_tokens (ledger k)).

Fixpoint all_receiver_loop (now : Q) (current audience_ : np_dhkey_t) (s : store) (tmp : list loc) (result_list : list loc)
    : result (store * list loc) :=
  match tmp with
  | [] => Ok (s, result_list)
  | t :: tmp =>
      '(ok, s) ← intent_valid now s t;
      if negb ok || negb (IS_AUTHORIZED (state (s t))) then all_receiver_loop now current audience_ s tmp result_list
      else
        issuer_ ← create_from_hash (issuer (s t));
        token_audience ← create_from_hash (audience (s t));
        let include_token := bool_decide (audience_ = issuer_) || bool_decide (audience_ = token_audience) || bool_decide (audience_ = current) in
        all_receiver_loop now current audience_ s tmp (if include_token then result_list ++ [t] else result_list)
  end.
Definition _np_intent_get_all_receiver (now : Q) (s : store) (k : subject_key) (audience_ : np_dhkey_t) (tmp_token_list : list loc)
    : result (store * list loc) :=
  all_receiver_loop now (current_fp k) audience_ s (recv_tokens (ledger k)) tmp_token_list.

(** The first token that is not valid any more. *)
Fixpoint first_invalid (now : Q) (s : store) (iter : list loc) : result (store * option loc) :=
  match iter with
  | [] => Ok (s, None)
  | t :: iter => '(ok, s) ← intent_valid now s t; if (ok : bool) then first_invalid now s iter else Ok (s, Some t)
  end.

Definition check_senders (now : Q) (s : store) (k : subject_key) : result (store * subject_key) :=
  '(s, o) ← first_invalid now s (send_tokens (ledger k));
  match o with
  | None => Ok (s, k)
  | Some t =>
      k ← _np_intent_update_sender_session s k t crud_delete;
      Ok (s, set_send k (remove_by (fun a b => _np_intent_cmp_exact s (Some a) (Some b)) t (send_tokens (ledger k))))
  end.
Definition check_receivers (now : Q) (s : store) (k : subject_key) : result (store * subject_key) :=
  '(s, o) ← first_invalid now s (recv_tokens (ledger k));
  match o with
  | None => Ok (s, k)
  | Some t =>
      '(k, _) ← _np_intent_update_receiver_session s k t crud_delete;
      Ok (s, set_recv k (remove_by (fun a b => _np_intent_cmp_exact s (Some a) (Some b)) t (recv_tokens (ledger k))))
  end.
(** [now], [now']: the time during the first and the second search. *)
Definition __np_intent_check (now now' : Q) (s : store) (k : subject_key) : result (store * subject_key) :=
  '(s, k) ← check_senders now s k; check_receivers now' s k.

End Intents.
