(* ===== verification/IntentThms.v ===== *)
(** * Intents: what sender and receiver agree on, and which tokens are used *)
From Stdlib Require Import ZArith Lia QArith String.
From stdpp Require Import prelude gmap fin_maps sorting functions.
From S2P Require Import Prelude Real Dhkey Sll DllSpec Reassembly Token Crypto Treeval Tree TreeSpec Qcbor Serial SerialThms Datablock DatablockSpec DatablockThms Aaatoken AaatokenSpec Intent.

Local Open Scope Z_scope.

Section Intents.
Context `{Sodium} `{Qcbor} `{Doubles}.

(** ** Sessions *)

(** What one side writes with [x] the other reads with [y], and the other way round. *)
Definition agree (x y : np_crypto_session_t) : Prop :=
  session_key_to_write x = session_key_to_read y /\ session_key_to_read x = session_key_to_write y /\ session_type x = session_type y.

(** The two roles of one exchange. *)
Lemma new_sessions_agree ta tb id type a b a' b' : kx_ready a -> kx_ready b -> kx_public a a' -> kx_public b b' ->
  ta !! id = None -> tb !! id = None ->
  exists ok x y, new_session ta id type a b' false = Ok (ok, x, true) /\ new_session tb id type b a' true = Ok (ok, y, true) /\
    (ok = true -> agree x y).
Proof.
  intros Ha Hb Ha' Hb' Ea Eb. unfold new_session. rewrite Ea, Eb.
  set (st := set_session_type _np_crypto_session_t_new type).
  destruct (session_both a b a' b' st st Ha Hb Ha' Hb') as (ok & x & y & Ex & Ey). rewrite Ex, Ey, !bind_ok. exists ok, x, y.
  split; [done|]. split; [done|]. intros ->. destruct (session_agrees a b a' b' st st x y Ha Hb Ha' Hb' Ex Ey) as (E1 & E2 & E3 & E4).
  split; [done|]. split; [done|]. by rewrite E3, E4.
Qed.

(** Both sides register both sessions, or neither does. *)
Lemma both_sessions_agree ta tb p i a b a' b' : kx_ready a -> kx_ready b -> kx_public a a' -> kx_public b b' ->
  ta !! p = None -> ta !! i = None -> tb !! p = None -> tb !! i = None ->
  (both_sessions ta p i a b' false = Ok None /\ both_sessions tb p i b a' true = Ok None) \/
  (exists px ix py iy, both_sessions ta p i a b' false = Ok (Some (px, ix)) /\ both_sessions tb p i b a' true = Ok (Some (py, iy)) /\
     agree px py /\ agree ix iy).
Proof.
  intros Ha Hb Ha' Hb' E1 E2 E3 E4. unfold both_sessions. cbn [negb].
  destruct (new_sessions_agree ta tb p crypto_session_private a b a' b' Ha Hb Ha' Hb' E1 E3) as (ok & px & py & -> & -> & Hp).
  destruct (new_sessions_agree tb ta i crypto_session_initial b a b' a' Hb Ha Hb' Ha' E4 E2) as (ok' & iy & ix & -> & -> & Hi).
  rewrite !bind_ok. destruct ok, ok'; cbn [negb andb orb]; [right|by left..]. exists px, ix, py, iy.
  split; [done|]. split; [done|]. split; [by apply Hp|]. destruct (Hi eq_refl) as (A1 & A2 & A3). by split.
Qed.

(** The sender [A] of messages holds its own token at [a] and that of the receiver at
    [b']; the receiver [B] its own at [b] and that of the sender at [a']. *)
Record paired (sA sB : store) (kA kB : subject_key) (a b' b a' : loc) : Prop := {
  p_own_sender : exists l, send_tokens (ledger kA) = a :: l;
  p_own_receiver : exists l, recv_tokens (ledger kB) = b :: l;
  p_sender_fp : np_aaatoken_get_fingerprint (sB a') false = Ok (current_fp kA);
  p_receiver_fp : np_aaatoken_get_fingerprint (sA b') false = Ok (current_fp kB);
  p_partner : exists node, np_aaatoken_get_partner_fp (sB a') = Ok node;
  p_distinct : current_fp kA ≠ current_fp kB /\ a' ≠ b;
  p_ready : kx_ready (issuer_crypto (sA a)) /\ kx_ready (issuer_crypto (sB b));
  p_known : kx_public (issuer_crypto (sA a)) (crypto (sB a')) /\ kx_public (issuer_crypto (sB b)) (crypto (sA b'));
}.

Definition absent (kA kB : subject_key) (id : np_dhkey_t) : Prop := crypto_tree kA !! id = None /\ crypto_tree kB !! id = None.

(** Both have a session under [id], and what one encrypts the other decrypts. *)
Definition connected (kA kB : subject_key) (id : np_dhkey_t) : Prop :=
  exists x y, crypto_tree kA !! id = Some x /\ crypto_tree kB !! id = Some y /\ session_type x = session_type y /\
    forall data ad nonce,
      (exists c m, np_crypto_session_encrypt x (Z.of_nat (length data)) 16 data ad nonce = Ok (c, m) /\
         np_crypto_session_decrypt y c m (Z.of_nat (length data)) ad nonce = Ok (Some data)) /\
      (exists c m, np_crypto_session_encrypt y (Z.of_nat (length data)) 16 data ad nonce = Ok (c, m) /\
         np_crypto_session_decrypt x c m (Z.of_nat (length data)) ad nonce = Ok (Some data)).

Lemma agree_connected kA kB id x y : crypto_tree kA !! id = Some x -> crypto_tree kB !! id = Some y -> agree x y -> connected kA kB id.
Proof.
  intros Ex Ey (E1 & E2 & E3). exists x, y. split; [done|]. split; [done|]. split; [done|]. intros data ad nonce.
  split; by apply session_transport.
Qed.

(** Two entries, the second stored last. *)
Lemma two_entries {V} (t : gmap np_dhkey_t V) p i x y : let t' := <[i := y]> (<[p := x]> t) in
  t' !! i = Some y /\ t' !! p = Some (if decide (i = p) then y else x).
Proof.
  intros t'. split; [apply lookup_insert_eq|]. unfold t'. case_decide as E; [subst; apply lookup_insert_eq|].
  by rewrite lookup_insert_ne, lookup_insert_eq.
Qed.

(** C2: Sender and receiver agree: when the tokens of both are authorised and no session
    is there yet, each registers two sessions under identifiers both can compute, or
    neither registers any; what one encrypts with such a session the other decrypts,
    and an acknowledgement finds the way to the sender's node. *)
Theorem sessions_agree sA sB kA kB a b' b a' crud crud' :
  paired sA sB kA kB a b' b a' ->
  let p := private_id (current_fp kA) (current_fp kB) in
  let i := initial_id (current_fp kA) (current_fp kB) in
  absent kA kB p -> absent kA kB i -> crud ≠ crud_delete -> crud' ≠ crud_delete ->
  exists kA' m kB', _np_intent_update_receiver_session sA kA b' crud = Ok (kA', m) /\
    _np_intent_update_sender_session sB kB a' crud' = Ok kB' /\
    (kA' = kA /\ kB' = kB \/
     connected kA' kB' p /\ connected kA' kB' i /\
     (ack_tree kB = ∅ -> forall id, id = current_fp kA \/ id = p \/ id = i ->
        exists node, np_aaatoken_get_partner_fp (sB a') = Ok node /\ _np_intent_get_ack_session kB' id = Some node)).
Proof.
  intros [[la Ela] [lb Elb] Ef1 Ef2 [node En] [Hne Hptr] [Ra Rb] [Ka Kb]] p i [E1 E3] [E2 E4] Hc Hc'.
  unfold _np_intent_update_receiver_session, _np_intent_update_sender_session. rewrite Ela, Elb. cbn [pll_first_val]. rewrite !bind_ok.
  rewrite Ef1, Ef2, En, !bind_ok. fold p i. rewrite decide_False by (by intros E; apply Hne). rewrite (decide_False (P := a' = b)) by done.
  rewrite !decide_False by done.
  destruct (both_sessions_agree (crypto_tree kA) (crypto_tree kB) p i _ _ _ _ Ra Rb Ka Kb E1 E2 E3 E4) as
    [[-> ->]|(px & ix & py & iy & -> & -> & Hp & Hi)]; rewrite !bind_ok.
  - eexists _, _, _. split; [reflexivity|]. split; [reflexivity|]. by left.
  - eexists _, _, _. split; [reflexivity|]. split; [reflexivity|]. right. cbn [crypto_tree set_sessions].
    destruct (two_entries (crypto_tree kA) p i px ix) as [Ai Ap], (two_entries (crypto_tree kB) p i py iy) as [Bi Bp].
    split; [|split].
    + eapply agree_connected; [exact Ap|exact Bp|]. by case_decide.
    + by eapply agree_connected; [exact Ai|exact Bi|].
    + intros Hack id Hid. exists node. split; [done|]. unfold _np_intent_get_ack_session. cbn [ack_tree set_sessions]. rewrite Hack.
      assert (forall (k k' : np_dhkey_t) (m : gmap np_dhkey_t np_dhkey_t), m !! k' = Some node -> insert_missing k node m !! k' = Some node) as Hkeep.
      { intros k k' m E. unfold insert_missing. destruct (m !! k) eqn:Ek; [done|]. rewrite lookup_insert_ne; [done|]. intros ->. congruence. }
      assert (forall (k : np_dhkey_t) (m : gmap np_dhkey_t np_dhkey_t), (m !! k = None \/ m !! k = Some node) -> insert_missing k node m !! k = Some node) as Hput.
      { intros k m [E|E]; unfold insert_missing; rewrite E; [apply lookup_insert_eq|done]. }
      assert (forall (k k' : np_dhkey_t) (m : gmap np_dhkey_t np_dhkey_t), (m !! k' = None \/ m !! k' = Some node) ->
        insert_missing k node m !! k' = None \/ insert_missing k node m !! k' = Some node) as Hok.
      { intros k k' m [E|E]; [|right; by apply Hkeep]. destruct (decide (k = k')) as [->|]; [right; apply Hput; by left|left].
        unfold insert_missing. destruct (m !! k); [done|]. by rewrite lookup_insert_ne. }
      destruct Hid as [->|[->| ->]].
      * apply Hkeep, Hkeep, Hput. by left.
      * apply Hput, Hok, Hok. by left.
      * apply Hkeep, Hput, Hok. by left.
Qed.

(** ** The key of a node's own session *)

(** A received message with one key. *)
Definition key_message (about : np_dhkey_t) (key : list Z) (received : np_tree_t) : Prop :=
  rbh_root received = [(np_treeval_new_dhkey about, np_treeval_new_bin key)].

Lemma key_message_import k about key received : key_message about key received -> length key = crypto_kx_SESSIONKEYBYTES ->
  exists session, _np_intent_import_session k received crud_create = Ok (set_sessions k (<[about := session]> (crypto_tree k)) (ack_tree k)) /\
    session_key_to_read session = key /\ session_type session = crypto_session_shared.
Proof.
  intros Hr Hl. unfold _np_intent_import_session. rewrite Hr. cbn [foldM]. unfold import_one. cbn [fst snd dhkey_of value np_treeval_new_dhkey].
  rewrite bind_ok, decide_False by done. unfold bin_bytes. cbn [value np_treeval_new_bin]. rewrite read_bytes_exact by (by rewrite Hl).
  rewrite !bind_ok. destruct (crypto_tree k !! about); eexists; (split; [reflexivity|by split]).
Qed.

(** Nobody but those with an initial session is told, and nobody twice. *)
Lemma rekey_targets tree about key : NoDup (rekey_to <$> rekey_all tree about key) /\
  forall id, id ∈ rekey_to <$> rekey_all tree about key <->
    id ≠ about /\ exists session, tree !! id = Some session /\ session_type session = crypto_session_initial.
Proof.
  unfold rekey_all, in_order. set (l := merge_sort _ _).
  assert (l ≡ₚ map_to_list tree) as Hp by apply merge_sort_Permutation.
  assert (NoDup l.*1) as Hnd by (rewrite Hp; apply NoDup_fst_map_to_list).
  assert (forall id x, (id, x) ∈ l <-> tree !! id = Some x) as Hin by (intros id x; rewrite Hp; apply elem_of_map_to_list).
  clearbody l. clear Hp. set (f := fun e : np_dhkey_t * np_crypto_session_t => _).
  assert (forall (m : list (np_dhkey_t * np_crypto_session_t)) id, id ∈ rekey_to <$> omap f m <-> id ≠ about /\ exists x, (id, x) ∈ m /\ session_type x = crypto_session_initial) as Hm.
  { intros m id. rewrite list_elem_of_fmap. setoid_rewrite list_elem_of_omap. split.
    - intros (msg & -> & [i x] & Hi & E). unfold f in E. cbn [fst snd] in E. case_decide as E1; [done|]. case_decide as E2; [|done].
      injection E as <-. cbn [rekey_to]. split; [congruence|]. by exists x.
    - intros [Hne (x & Hi & E)]. exists (Rekey id about key). split; [done|]. exists (id, x). split; [done|]. unfold f. cbn [fst snd].
      by rewrite decide_False, decide_True. }
  split.
  - clear Hin. induction l as [|[i x] l IH]; [apply NoDup_nil_2|]. apply list.NoDup_cons in Hnd as [Hi Hnd]. specialize (IH Hnd).
    cbn [omap list_omap]. unfold f at 1. cbn [fst snd]. case_decide; [done|]. case_decide; [|done]. rewrite fmap_cons. cbn [rekey_to].
    apply list.NoDup_cons. split; [|done]. rewrite Hm. intros [_ (y & Hy & _)]. apply Hi, list_elem_of_fmap. by exists (i, y).
  - intros id. rewrite Hm. by setoid_rewrite Hin.
Qed.

(** C11: A node that starts to send hands its session key to every receiver it shares an
    initial session with, to each once and to nobody else; whoever imports the key can
    decrypt what the sender encrypts with its new session. *)
Theorem session_key_reaches_receivers k my_token my_fp random_write random_read :
  np_aaatoken_get_fingerprint my_token false = Ok my_fp -> crypto_tree k !! my_fp = None ->
  length random_write = crypto_kx_SESSIONKEYBYTES ->
  exists k' messages session, _np_intent_update_session k my_token false crud_create random_write random_read = Ok (k', messages) /\
    crypto_tree k' !! my_fp = Some session /\ session_type session = crypto_session_shared /\
    NoDup (rekey_to <$> messages) /\
    (forall id, id ∈ rekey_to <$> messages <->
       exists s, crypto_tree k !! id = Some s /\ session_type s = crypto_session_initial) /\
    forall m kR received, m ∈ messages -> key_message (rekey_about m) (rekey_key m) received ->
      exists kR' s, _np_intent_import_session kR received crud_create = Ok kR' /\
        _np_intent_get_crypto_session kR' my_fp _np_crypto_session_t_new = (true, s) /\
        (forall id, id ≠ my_fp -> crypto_tree kR' !! id = crypto_tree kR !! id) /\
        forall data ad nonce, exists c mac,
          np_crypto_session_encrypt session (Z.of_nat (length data)) 16 data ad nonce = Ok (c, mac) /\
          np_crypto_session_decrypt s c mac (Z.of_nat (length data)) ad nonce = Ok (Some data).
Proof.
  intros Ef Ea Hl. unfold _np_intent_update_session. rewrite Ef, bind_ok. unfold insert_missing. rewrite Ea.
  set (session := Crypto_session crypto_session_shared true true random_read random_write).
  eexists _, _, session. split; [reflexivity|]. cbn [crypto_tree set_sessions]. split; [apply lookup_insert_eq|]. split; [done|].
  destruct (rekey_targets (<[my_fp := session]> (crypto_tree k)) my_fp random_write) as [Hnd Hin]. split; [done|]. split.
  - intros id. rewrite Hin. split.
    + intros [Hne (s & Es & Et)]. exists s. by rewrite lookup_insert_ne in Es by done.
    + intros (s & Es & Et). assert (id ≠ my_fp) as Hne by congruence. split; [done|]. exists s. by rewrite lookup_insert_ne by done.
  - intros m kR received Hm Hr.
    assert (rekey_about m = my_fp /\ rekey_key m = random_write) as [Em Ek].
    { apply list_elem_of_omap in Hm as ([i x] & _ & E). cbn [fst snd] in E. case_decide; [done|]. case_decide; [|done]. by injection E as <-. }
    rewrite Em, Ek in Hr. destruct (key_message_import kR my_fp random_write received Hr Hl) as (s & E & Hrd & _).
    eexists _, s. split; [exact E|]. unfold _np_intent_get_crypto_session. cbn [crypto_tree set_sessions]. rewrite lookup_insert_eq.
    split; [done|]. split; [intros id Hne; by rewrite lookup_insert_ne by done|]. intros data ad nonce. by apply session_transport.
Qed.

(** ** Where it goes wrong *)

(** The first token of a list is taken to be one's own: with no token there the
    program reads behind the end of the list. *)
Lemma no_own_token s k t crud : send_tokens (ledger k) = [] -> _np_intent_update_receiver_session s k t crud = Err Bad_access.
Proof. intros E. unfold _np_intent_update_receiver_session. by rewrite E. Qed.
Lemma no_own_receiver_token s k t crud : recv_tokens (ledger k) = [] -> _np_intent_update_sender_session s k t crud = Err Bad_access.
Proof. intros E. unfold _np_intent_update_sender_session. by rewrite E. Qed.

(** A session created a second time is sent but not kept: receivers get a key the
    sender does not use. *)
Lemma second_key_not_used k my_token my_fp old random_write random_read :
  np_aaatoken_get_fingerprint my_token false = Ok my_fp -> crypto_tree k !! my_fp = Some old ->
  exists k', _np_intent_update_session k my_token false crud_create random_write random_read =
      Ok (k', rekey_all (crypto_tree k) my_fp random_write) /\ crypto_tree k' !! my_fp = Some old.
Proof.
  intros Ef Ea. unfold _np_intent_update_session, insert_missing. rewrite Ef, bind_ok, Ea. eexists. split; [reflexivity|done].
Qed.

(** When the private session is there and the initial one is not, the private one is
    replaced by one without keys. *)
Lemma private_session_lost tree p i mine peer old b ini : tree !! p = Some old -> tree !! i = None ->
  np_crypto_session mine (set_session_type _np_crypto_session_t_new crypto_session_initial) peer (negb b) = Ok (true, ini) ->
  both_sessions tree p i mine peer b = Ok (Some (_np_crypto_session_t_new, ini)).
Proof. intros Ep Ei E. unfold both_sessions, new_session. by rewrite Ep, Ei, bind_ok, E. Qed.

(** A message may replace the key of any session, not only of the sender's own. *)
Lemma any_session_replaced k victim old key received : crypto_tree k !! victim = Some old -> key_message victim key received ->
  length key = crypto_kx_SESSIONKEYBYTES ->
  exists k' s, _np_intent_import_session k received crud_create = Ok k' /\ crypto_tree k' !! victim = Some s /\
    session_key_to_read s = key /\ session_type s = crypto_session_shared.
Proof.
  intros _ Hr Hl. destruct (key_message_import k victim key received Hr Hl) as (s & E & H1' & H2'). eexists _, s. split; [exact E|].
  split; [apply lookup_insert_eq|done].
Qed.

End Intents.

(** ** Witnesses *)

#[local] Existing Instance rfc8949.
#[local] Existing Instance toy_sodium.
#[local] Existing Instance whole_doubles.

(** A sender with key 7 and a receiver with key 8; what the other has of their tokens
    is the public key. *)
Definition no_keys : np_crypto_t := Crypto false false false false [] [] [] [].
Definition own_crypto (x : Z) : np_crypto_t := (np_cryptofactory_by_secret no_keys (replicate 32 x)).2.
Definition peer_crypto (x : Z) : np_crypto_t := (np_cryptofactory_by_public no_keys (ed25519_public_key (own_crypto x))).2.
Definition intent_of (x : Z) (c : np_crypto_t) : np_aaatoken_t :=
  Aaatoken 0 (replicate 16 x) [] [] (c_string "topic") (c_string "us") 100 100 500 sample_block (replicate 64 0) c (replicate 64 x)
    AAA_AUTHORIZED np_aaatoken_type_message_intent np_aaatoken_scope_private true None false false.
Definition fp_of (x : Z) : np_dhkey_t :=
  match np_aaatoken_get_fingerprint (intent_of x (own_crypto x)) false with Ok fp => fp | Err _ => dhkey_zero end.
Definition sender_store (l : loc) : np_aaatoken_t := if decide (l = 1%positive) then intent_of 7 (own_crypto 7) else intent_of 8 (peer_crypto 8).
Definition receiver_store (l : loc) : np_aaatoken_t := if decide (l = 1%positive) then intent_of 8 (own_crypto 8) else intent_of 7 (peer_crypto 7).
Definition sender_key : subject_key := Subject_key 0 0 (fp_of 7) (Ledger [2%positive] [1%positive]) ∅ ∅.
Definition receiver_key : subject_key := Subject_key 0 0 (fp_of 8) (Ledger [1%positive] [2%positive]) ∅ ∅.

Lemma sample_paired : paired sender_store receiver_store sender_key receiver_key 1 2 1 2.
Proof.
  split.
  - by exists [].
  - by exists [].
  - vm_compute. reflexivity.
  - vm_compute. reflexivity.
  - eexists. vm_compute. reflexivity.
  - split; [by_decide|done].
  - split; vm_compute; done.
  - split; vm_compute; done.
Qed.

Lemma sessions_agree_witness :
  let p := private_id (fp_of 7) (fp_of 8) in let i := initial_id (fp_of 7) (fp_of 8) in
  exists kA' m kB', _np_intent_update_receiver_session sender_store sender_key 2 crud_create = Ok (kA', m) /\
    _np_intent_update_sender_session receiver_store receiver_key 2 crud_create = Ok kB' /\
    (kA' = sender_key /\ kB' = receiver_key \/
     connected kA' kB' p /\ connected kA' kB' i /\
     (ack_tree receiver_key = ∅ -> forall id, id = fp_of 7 \/ id = p \/ id = i ->
        exists node, np_aaatoken_get_partner_fp (receiver_store 2) = Ok node /\ _np_intent_get_ack_session kB' id = Some node)).
Proof.
  apply (sessions_agree sender_store receiver_store sender_key receiver_key 1 2 1 2 crud_create crud_create sample_paired); done.
Defined.

Definition initial_session : np_crypto_session_t :=
  Crypto_session crypto_session_initial true true (replicate 32 1) (replicate 32 2).
Definition connected_key : subject_key := Subject_key 0 0 (fp_of 7) (Ledger [2%positive] [1%positive]) {[ fp_of 8 := initial_session ]} ∅.
Lemma session_key_reaches_receivers_witness :
  exists k' messages session,
    _np_intent_update_session connected_key (intent_of 7 (own_crypto 7)) false crud_create (replicate 32 5) (replicate 32 6) = Ok (k', messages) /\
    crypto_tree k' !! fp_of 7 = Some session /\ session_type session = crypto_session_shared /\
    NoDup (rekey_to <$> messages) /\
    (forall id, id ∈ rekey_to <$> messages <->
       exists s, crypto_tree connected_key !! id = Some s /\ session_type s = crypto_session_initial) /\
    forall m kR received, m ∈ messages -> key_message (rekey_about m) (rekey_key m) received ->
      exists kR' s, _np_intent_import_session kR received crud_create = Ok kR' /\
        _np_intent_get_crypto_session kR' (fp_of 7) _np_crypto_session_t_new = (true, s) /\
        (forall id, id ≠ fp_of 7 -> crypto_tree kR' !! id = crypto_tree kR !! id) /\
        forall data ad nonce, exists c mac,
          np_crypto_session_encrypt session (Z.of_nat (length data)) 16 data ad nonce = Ok (c, mac) /\
          np_crypto_session_decrypt s c mac (Z.of_nat (length data)) ad nonce = Ok (Some data).
Proof.
  apply (session_key_reaches_receivers connected_key (intent_of 7 (own_crypto 7)) (fp_of 7) (replicate 32 5) (replicate 32 6)).
  - vm_compute. reflexivity.
  - vm_compute. reflexivity.
  - reflexivity.
Defined.
