(* ===== verification/LedgerThms.v ===== *)
(** * The ledger of a subject: which token is found, and how tokens come and go

    The searches of [np_comp_intent.c] return the first token that is valid, authorised
    and of the wanted partner, and record the check in the tokens they pass.  A new
    token takes the place of the one with its identity or joins the list; the clean-up
    removes the first token that is no longer valid. *)
From Stdlib Require Import ZArith Lia QArith String.
From stdpp Require Import prelude gmap fin_maps sorting functions.
From S2P Require Import Prelude Real Dhkey Sll DllSpec Reassembly Token Crypto Treeval Tree TreeSpec Qcbor Serial SerialThms Datablock DatablockSpec DatablockThms Aaatoken AaatokenSpec Intent IntentThms.

Local Open Scope Z_scope.

Section Tokens.
Context `{Sodium} `{Qcbor} `{!Block_limits} `{Doubles}.

Abbreviation create_from_hash := (np_dhkey_create_from_hash sodium_hex2bin).

(** ** The check of a token that can be read *)

(** An attribute that is missing or a number. *)
Definition number (l : list obj) (name : string) : Prop :=
  key_range (c_string name) /\ (get_obj (c_string name) l = None \/ exists v, in_u 32 v /\ get_obj (c_string name) l = Some (D_uint v)).

Record readable (t : np_aaatoken_t) : Prop := {
  readable_block : exists l, is_block NP_EXTENSION_BYTES l [] (attributes t) /\
    number l "max_threshold" /\ number l "msg_threshold" /\ number l "mep_type" /\ number l "ack_mode" /\
    (get_obj partner_key l = None \/ exists fp, dhkey_wf fp /\ get_obj partner_key l = Some (D_bin (dhkey_bytes fp)));
}.

(** The token, with other marks of its check. *)
Definition checked (t t' : np_aaatoken_t) : Prop :=
  exists st a b, t' = set_checked t st a b /\ IS_AUTHORIZED st = IS_AUTHORIZED (state t).

Lemma checked_refl t : checked t t.
Proof. exists (state t), (is_signature_verified t), (is_signature_attributes_verified t). by destruct t. Qed.
Lemma checked_trans t1 t2 t3 : checked t1 t2 -> checked t2 t3 -> checked t1 t3.
Proof. intros (st & a & b & -> & E) (st' & a' & b' & -> & E'). exists st', a', b'. split; [done|]. by rewrite E'. Qed.

Lemma uint_attribute_defined l mem k : is_block NP_EXTENSION_BYTES l [] mem -> number l k -> exists o, uint_attribute mem k = Ok o.
Proof.
  intros Hb [Hk [E|(v & Hv & E)]]; [|by exists (Some v); apply (uint_attribute_ok NP_EXTENSION_BYTES l [])].
  exists None. unfold uint_attribute. rewrite (get_spec _ _ _ _ _ Hb), strn_key by done. unfold get_result. by rewrite E.
Qed.

Lemma authorized_kept st b : IS_AUTHORIZED (if b : bool then Z.lor st AAA_VALID else Z.land st AAA_INVALID) = IS_AUTHORIZED st.
Proof.
  unfold IS_AUTHORIZED. f_equal. apply Z.bits_inj'. intros n Hn. destruct b; rewrite ?Z.land_spec, ?Z.lor_spec, ?Z.land_spec.
  - change (Z.testbit AAA_AUTHORIZED n && (Z.testbit st n || Z.testbit AAA_VALID n) = Z.testbit AAA_AUTHORIZED n && Z.testbit st n).
    destruct (decide (n = 0)) as [->|]; [by rewrite !andb_false_l|]. unfold AAA_VALID. rewrite (Z.bits_above_log2 1 n) by (cbn; lia). by rewrite orb_false_r.
  - unfold AAA_INVALID. rewrite Z.lnot_spec by done. destruct (decide (n = 0)) as [->|]; [by rewrite !andb_false_l|].
    unfold AAA_VALID. rewrite (Z.bits_above_log2 1 n) by (cbn; lia). by rewrite andb_true_r.
Qed.

Lemma check_signatures_checked t : readable t -> exists ok st a b, check_signatures t = Ok (set_checked t st a b, ok) /\ st = state t.
Proof.
  intros [(l & Hb & _)]. unfold check_signatures.
  assert (forall t', attributes t' = attributes t -> exists ok a b, check_attributes_signature t' = Ok (set_checked t' (state t') a b, ok)) as Hc.
  { intros t' Ea. rewrite <-Ea in Hb. unfold check_attributes_signature. destruct (block_size t' l Hb) as (Es & _). rewrite Es. cbn [fst].
    rewrite bool_decide_eq_true_2 by done. cbn [negb]. rewrite (attributes_hash_ok t' l Hb), bind_ok.
    assert (t' = set_checked t' (state t') (is_signature_verified t') (is_signature_attributes_verified t')) as Et by (by destruct t').
    assert (forall ok : bool, exists (ok' : bool) a b, Ok (t', ok) = Ok (set_checked t' (state t') a b, ok')) as Hsame.
    { intros ok. exists ok, (is_signature_verified t'), (is_signature_attributes_verified t'). apply (f_equal (fun x => Ok (x, ok))), Et. }
    destruct (is_signature_attributes_verified t'); [apply Hsame|]. case_match; [by eexists _, _, _|apply Hsame]. }
  destruct (is_signature_verified t).
  - destruct (Hc t eq_refl) as (ok & a & b & ->). by exists ok, (state t), a, b.
  - case_match; [exists false, (state t), (is_signature_verified t), (is_signature_attributes_verified t); split; [by destruct t|done]|].
    destruct (Hc (set_checked t (state t) true (is_signature_attributes_verified t)) eq_refl) as (ok & a & b & ->).
    by exists ok, (state t), a, b.
Qed.

(** The check ends with a verdict, and nothing but its record changes. *)
Lemma is_valid_checked t now expected : readable t -> exists ok t', _np_aaatoken_is_valid now (Some t) expected = Ok (ok, Some t') /\
  checked t t' /\ (ok = true -> IS_VALID (state t') = true).
Proof.
  intros Hr. unfold _np_aaatoken_is_valid.
  assert (forall (t1 : np_aaatoken_t) st a b ok, t1 = set_checked t st a b -> st = state t ->
    exists t', record_check t1 ok = (ok, Some t') /\ checked t t' /\ (ok = true -> IS_VALID (state t') = true)) as Hrec.
  { intros t1 st a b ok -> ->. eexists. split; [reflexivity|]. split.
    - do 3 eexists. split; [reflexivity|]. apply authorized_kept.
    - intros ->. apply is_valid_valid. }
  assert (t = set_checked t (state t) (is_signature_verified t) (is_signature_attributes_verified t)) as Et by (by destruct t).
  assert (forall ok, exists ok' t', Ok (record_check t ok) = Ok (ok', Some t') /\ checked t t' /\ (ok' = true -> IS_VALID (state t') = true)) as H0'.
  { intros ok. destruct (Hrec t _ _ _ ok Et eq_refl) as (t' & -> & ?). by exists ok, t'. }
  destruct (negb (FLAG_CMP (token_type t) expected)); [apply H0'|]. destruct (Qltb (expires_at t) now); [apply H0'|].
  assert (exists ok t1, (if np_aaatoken_scope_private_available <? scope t then check_signatures t else Ok (t, true)) = Ok (t1, ok) /\
    exists a b, t1 = set_checked t (state t) a b) as (ok & t1 & -> & a & b & E1).
  { destruct (_ <? scope t); [|exists true, t; by eauto].
    destruct (check_signatures_checked t Hr) as (ok & st & a & b & -> & ->). by eauto 10. }
  rewrite bind_ok. destruct ok; cbn [negb]; [|destruct (Hrec t1 _ _ _ false E1 eq_refl) as (t' & -> & ?); by exists false, t'].
  assert (exists ok, (if FLAG_CMP (token_type t1) np_aaatoken_type_message_intent then usable ← check_thresholds t1; Ok (record_check t1 usable)
    else Ok (record_check t1 true)) = Ok (record_check t1 ok)) as [ok ->].
  { destruct (FLAG_CMP _ _); [|by exists true]. destruct Hr as [(l & Hb & N1 & N2 & _)]. unfold check_thresholds. subst t1. cbn [attributes set_checked].
    destruct (uint_attribute_defined _ _ _ Hb N1) as [[m|] ->]; rewrite bind_ok; [|by exists false].
    destruct (uint_attribute_defined _ _ _ Hb N2) as [[n|] ->]; rewrite bind_ok; by eexists. }
  destruct (Hrec t1 _ _ _ ok E1 eq_refl) as (t' & -> & ?). by exists ok, t'.
Qed.

Lemma fingerprint_hash_defined s : exists k, create_from_hash s = Ok k.
Proof.
  rewrite create_from_hash_unfold. destruct (valid_format s) eqn:V; [|by eexists].
  rewrite (np_str_id_valid sodium_hex2bin hex2bin_doc s V). by eexists.
Qed.

Lemma partner_defined t : readable t -> exists fp, np_aaatoken_get_partner_fp t = Ok fp.
Proof.
  intros [(l & Hb & _ & _ & _ & _ & [E|(fp & Hw & E)])]; [|exists fp; by apply (get_partner_ok t l)].
  unfold np_aaatoken_get_partner_fp. rewrite (get_spec _ _ _ _ partner_key Hb). unfold get_result.
  rewrite strn_key by apply partner_key_ok. rewrite E, bind_ok. rewrite bool_decide_eq_true_2 by (by right).
  change (c_assert true) with (Ok tt). rewrite bind_ok. destruct (until_nul (issuer t)); [|apply fingerprint_hash_defined].
  unfold np_aaatoken_get_fingerprint. rewrite bind_ok. apply fingerprint_hash_defined.
Qed.

(** ** Searching *)

(** What the searches for a sender and for a receiver share: the first valid token that
    passes the test. *)
Fixpoint scan (test : np_aaatoken_t -> result bool) (now : Q) (s : store) (iter : list loc) : result (store * option loc) :=
  match iter with
  | [] => Ok (s, None)
  | t :: iter =>
      '(ok, s) ← intent_valid now s t;
      if negb ok then scan test now s iter
      else b ← test (s t); if (b : bool) then Ok (s, Some t) else scan test now s iter
  end.

Definition sender_test (d : np_dhkey_t) (t : np_aaatoken_t) : result bool :=
  fp ← np_aaatoken_get_partner_fp t;
  Ok ((bool_decide (d = dhkey_zero) || bool_decide (fp = d)) && IS_AUTHORIZED (state t)).
Definition receiver_test (me node target : np_dhkey_t) (t : np_aaatoken_t) : result bool :=
  issuer_key ← create_from_hash (issuer t);
  Ok (negb (bool_decide (issuer_key = me)) && negb (bool_decide (issuer_key = node)) &&
      (bool_decide (target = dhkey_zero) || bool_decide (issuer_key = target)) && IS_AUTHORIZED (state t)).

Lemma bind_ext {A B} (r : result A) (f g : A -> result B) : (forall a, f a = g a) -> r ≫= f = r ≫= g.
Proof. intros E. destruct r; [apply E|done]. Qed.
Lemma bind_assoc {A B C} (r : result A) (f : A -> result B) (g : B -> result C) : (r ≫= f) ≫= g = r ≫= (fun a => f a ≫= g).
Proof. by destruct r. Qed.

Lemma sender_test_eq d t : sender_test d t =
  (np_aaatoken_get_partner_fp t ≫= fun fp => Ok ((bool_decide (d = dhkey_zero) || bool_decide (fp = d)) && IS_AUTHORIZED (state t))).
Proof. done. Qed.
Lemma receiver_test_eq me node target t : receiver_test me node target t =
  (create_from_hash (issuer t) ≫= fun issuer_key =>
   Ok (negb (bool_decide (issuer_key = me)) && negb (bool_decide (issuer_key = node)) &&
      (bool_decide (target = dhkey_zero) || bool_decide (issuer_key = target)) && IS_AUTHORIZED (state t))).
Proof. done. Qed.

Lemma sender_loop_scan now d iter s : sender_loop now d s iter = scan (sender_test d) now s iter.
Proof.
  revert s. induction iter as [|t iter IH]; intros s; [done|]. cbn [sender_loop scan]. apply bind_ext. intros [ok s1]. destruct ok; cbn [negb]; [|apply IH].
  rewrite sender_test_eq, bind_assoc. apply bind_ext. intros fp. rewrite bind_ok, !IH.
  destruct (bool_decide (d = dhkey_zero)), (bool_decide (fp = d)), (IS_AUTHORIZED (state (s1 t))); done.
Qed.
Lemma receiver_loop_scan now me node target iter s : receiver_loop now me node target s iter = scan (receiver_test me node target) now s iter.
Proof.
  revert s. induction iter as [|t iter IH]; intros s; [done|]. cbn [receiver_loop scan]. apply bind_ext. intros [ok s1]. destruct ok; cbn [negb]; [|apply IH].
  rewrite receiver_test_eq, bind_assoc. apply bind_ext. intros key. rewrite bind_ok, !IH.
  destruct (bool_decide (key = me)), (bool_decide (key = node)), (bool_decide (target = dhkey_zero)), (bool_decide (key = target)), (IS_AUTHORIZED (state (s1 t))); done.
Qed.

(** The verdict the check comes to. *)
Definition usable (now : Q) (t : np_aaatoken_t) : bool :=
  match _np_aaatoken_is_valid now (Some t) np_aaatoken_type_message_intent with Ok (ok, _) => ok | Err _ => false end.

(** Nothing changes but the records of checks. *)
Definition only_checked (s s' : store) : Prop := forall p, checked (s p) (s' p).

Lemma intent_valid_spec now s t : readable (s t) -> exists s', intent_valid now s t = Ok (usable now (s t), s') /\ only_checked s s' /\
  (forall p, p ≠ t -> s' p = s p) /\ (usable now (s t) = true -> IS_VALID (state (s' t)) = true).
Proof.
  intros Hr. unfold intent_valid, usable. destruct (is_valid_checked (s t) now np_aaatoken_type_message_intent Hr) as (ok & t' & -> & Hc & Hv).
  rewrite bind_ok. exists (<[t := t']> s). split; [done|]. split; [|split].
  - intros p. destruct (decide (p = t)) as [->|Hp]; [by rewrite fn_lookup_insert|]. rewrite fn_lookup_insert_ne by done. apply checked_refl.
  - intros p Hp. by rewrite fn_lookup_insert_ne.
  - intros E. rewrite fn_lookup_insert. by apply Hv.
Qed.

(** The test gives the same for a token whose check is recorded. *)
Definition tests (test : np_aaatoken_t -> result bool) (t : np_aaatoken_t) (b : bool) : Prop := forall t', checked t t' -> test t' = Ok b.

Lemma scan_spec test now fits l : forall s, NoDup l -> Forall (fun t => readable (s t)) l -> Forall (fun t => tests test (s t) (fits t)) l ->
  exists s' o, scan test now s l = Ok (s', o) /\ only_checked s s' /\ (forall p, p ∉ l -> s' p = s p) /\
    match o with
    | Some t => exists l1 l2, l = l1 ++ t :: l2 /\ usable now (s t) && fits t = true /\
        Forall (fun p => usable now (s p) && fits p = false) l1 /\ IS_VALID (state (s' t)) = true
    | None => Forall (fun p => usable now (s p) && fits p = false) l
    end.
Proof.
  induction l as [|t l IH]; intros s Hnd Hr Ht.
  { exists s, None. split; [done|]. split; [intros p; apply checked_refl|]. done. }
  apply list.NoDup_cons in Hnd as [Hin Hnd]. apply list.Forall_cons in Hr as [Hr Hrs]. apply list.Forall_cons in Ht as [Ht Hts].
  destruct (intent_valid_spec now s t Hr) as (s1 & E & Hc & Hk & Hv). cbn [scan]. rewrite E, bind_ok.
  assert (forall P : loc -> np_aaatoken_t -> Prop, Forall (fun p => P p (s p)) l -> Forall (fun p => P p (s1 p)) l) as Hmove.
  { intros P HP. rewrite list.Forall_forall in *. intros p Hp. rewrite Hk by (intros ->; by apply Hin). by apply HP. }
  assert (Forall (fun p => usable now (s1 p) && fits p = false) l -> Forall (fun p => usable now (s p) && fits p = false) l) as Hback.
  { intros HP. rewrite !list.Forall_forall in *. intros p Hp. rewrite <-(Hk p) by (intros ->; by apply Hin). by apply HP. }
  specialize (IH s1 Hnd (Hmove (fun _ => readable) Hrs) (Hmove (fun p x => tests test x (fits p)) Hts)).
  destruct (usable now (s t) && fits t) eqn:Eu.
  - apply andb_true_iff in Eu as [Eu Ef]. rewrite Eu. cbn [negb]. rewrite (Ht (s1 t) (Hc t)), Ef, bind_ok.
    exists s1, (Some t). split; [done|]. split; [done|]. split; [intros p [Hp _]%not_elem_of_cons; by apply Hk|].
    exists [], l. rewrite Eu, Ef. split; [done|]. split; [done|]. split; [by apply list.Forall_nil|by apply Hv].
  - assert ((if negb (usable now (s t)) then scan test now s1 l else b ← test (s1 t); if (b : bool) then Ok (s1, Some t) else scan test now s1 l) = scan test now s1 l) as ->.
    { destruct (usable now (s t)); [|done]. cbn [negb]. rewrite (Ht (s1 t) (Hc t)), bind_ok. cbn in Eu. by rewrite Eu. }
    destruct IH as (s' & o & -> & Hc' & Hk' & Ho). exists s', o. split; [done|]. split; [intros p; by eapply checked_trans|].
    split; [intros p [Hp Hp']%not_elem_of_cons; rewrite Hk' by done; by apply Hk|]. destruct o as [r|].
    + destruct Ho as (l1 & l2 & -> & Hur & H1' & H2'). exists (t :: l1), l2. split; [done|].
      rewrite <-(Hk r) by (intros ->; apply Hin, elem_of_app; right; left). split; [done|]. split; [|done].
      apply list.Forall_cons. split; [done|]. rewrite list.Forall_forall in *. intros p Hp. rewrite <-(Hk p); [by apply H1'|].
      intros ->. apply Hin, elem_of_app. by left.
    + apply list.Forall_cons. split; [done|]. by apply Hback.
Qed.

(** The tokens of a list, each once, all of which can be read. *)
Definition listed (s : store) (l : list loc) : Prop := NoDup l /\ Forall (fun t => readable (s t)) l.

Lemma listed_cons s t l : listed s (t :: l) -> readable (s t) /\ (t ∉ l) /\ listed s l.
Proof. intros [[Hin Hnd]%list.NoDup_cons [Hr Hrs]%list.Forall_cons]. split; [done|]. split; [done|]. by split. Qed.
Lemma listed_step s s' t l : t ∉ l -> (forall p, p ≠ t -> s' p = s p) -> listed s l -> listed s' l.
Proof.
  intros Hin Hk [Hnd Hr]. split; [done|]. rewrite list.Forall_forall in *. intros p Hp. rewrite Hk by (intros ->; by apply Hin). by apply Hr.
Qed.
Lemma kept_ext {B} (f : loc -> np_aaatoken_t -> B) s s' t l : t ∉ l -> (forall p, p ≠ t -> s' p = s p) ->
  Forall (fun p => f p (s' p) = f p (s p)) l.
Proof. intros Hin Hk. rewrite list.Forall_forall. intros p Hp. rewrite Hk; [done|]. intros ->. by apply Hin. Qed.

Lemma filter_same {B} (f g : B -> bool) l : Forall (fun x => f x = g x) l -> filter f l = filter g l.
Proof.
  induction 1 as [|x l E _ IH]; [done|]. rewrite !filter_cons, IH. assert (Is_true (f x) <-> Is_true (g x)) as E' by (by rewrite E).
  destruct (decide (Is_true (f x))), (decide (Is_true (g x))); [done|tauto|tauto|done].
Qed.

(** The issuer and the audience of a token as keys. *)
Definition as_key (text : list Z) : np_dhkey_t := match create_from_hash text with Ok k => k | Err _ => dhkey_zero end.
Lemma as_key_ok text : create_from_hash text = Ok (as_key text).
Proof. unfold as_key. by destruct (fingerprint_hash_defined text) as [k ->]. Qed.
Definition partner_of (t : np_aaatoken_t) : np_dhkey_t := match np_aaatoken_get_partner_fp t with Ok k => k | Err _ => dhkey_zero end.
Lemma partner_of_ok t : readable t -> np_aaatoken_get_partner_fp t = Ok (partner_of t).
Proof. intros Hr. unfold partner_of. by destruct (partner_defined t Hr) as [fp ->]. Qed.

Definition from_sender (d : np_dhkey_t) (t : np_aaatoken_t) : bool :=
  (bool_decide (d = dhkey_zero) || bool_decide (partner_of t = d)) && IS_AUTHORIZED (state t).
Definition from_receiver (me node target : np_dhkey_t) (t : np_aaatoken_t) : bool :=
  negb (bool_decide (as_key (issuer t) = me)) && negb (bool_decide (as_key (issuer t) = node)) &&
  (bool_decide (target = dhkey_zero) || bool_decide (as_key (issuer t) = target)) && IS_AUTHORIZED (state t).
Definition in_audience (current aud : np_dhkey_t) (t : np_aaatoken_t) : bool :=
  IS_AUTHORIZED (state t) &&
  (bool_decide (aud = as_key (issuer t)) || bool_decide (aud = as_key (audience t)) || bool_decide (aud = current)).

Lemma sender_tests d t : readable t -> tests (sender_test d) t (from_sender d t).
Proof.
  intros Hr t' (st & a & b & -> & E). rewrite sender_test_eq. change (np_aaatoken_get_partner_fp (set_checked t st a b)) with (np_aaatoken_get_partner_fp t).
  rewrite (partner_of_ok t Hr), bind_ok. unfold from_sender. cbn [state set_checked]. by rewrite E.
Qed.
Lemma receiver_tests me node target t : tests (receiver_test me node target) t (from_receiver me node target t).
Proof.
  intros t' (st & a & b & -> & E). rewrite receiver_test_eq. cbn [issuer set_checked]. rewrite as_key_ok, bind_ok.
  unfold from_receiver. cbn [state set_checked]. by rewrite E.
Qed.

Lemma all_receiver_loop_spec now current aud l : forall s acc, listed s l ->
  exists s', all_receiver_loop now current aud s l acc = Ok (s', acc ++ filter (fun t => usable now (s t) && in_audience current aud (s t)) l) /\
    only_checked s s' /\ (forall p, p ∉ l -> s' p = s p).
Proof.
  induction l as [|t l IH]; intros s acc Hl.
  { exists s. cbn. rewrite app_nil_r. split; [done|]. split; [intros p; apply checked_refl|done]. }
  apply listed_cons in Hl as (Hr & Hin & Hl). destruct (intent_valid_spec now s t Hr) as (s1 & E & Hc & Hk & _). cbn [all_receiver_loop].
  rewrite E, bind_ok. destruct (Hc t) as (st & a & b & Et & Ea). rewrite Et. cbn [state set_checked issuer audience]. rewrite Ea, !as_key_ok, !bind_ok.
  set (step := if usable now (s t) && in_audience current aud (s t) then acc ++ [t] else acc).
  assert ((if negb (usable now (s t)) || negb (IS_AUTHORIZED (state (s t))) then all_receiver_loop now current aud s1 l acc
    else all_receiver_loop now current aud s1 l
      (if bool_decide (aud = as_key (issuer (s t))) || bool_decide (aud = as_key (audience (s t))) || bool_decide (aud = current) then acc ++ [t] else acc)) =
    all_receiver_loop now current aud s1 l step) as ->.
  { unfold step, in_audience. destruct (usable now (s t)), (IS_AUTHORIZED (state (s t))); done. }
  destruct (IH s1 step (listed_step s s1 t l Hin Hk Hl)) as (s' & -> & Hc' & Hk'). exists s'. split; [|split].
  - apply (f_equal (fun x => Ok (s', x))). cbn [filter list_filter].
    assert (filter (fun p => usable now (s1 p) && in_audience current aud (s1 p)) l = filter (fun p => usable now (s p) && in_audience current aud (s p)) l) as ->.
    { apply filter_same. exact (kept_ext (fun _ x => usable now x && in_audience current aud x) s s1 t l Hin Hk). }
    unfold step. destruct (usable now (s t) && in_audience current aud (s t)); cbn; [by rewrite <-app_assoc|done].
  - intros p. by eapply checked_trans.
  - intros p [Hp Hp']%not_elem_of_cons. rewrite Hk' by done. by apply Hk.
Qed.

(** Looking for tokens: the searches end for every ledger whose tokens can be read.
    A sender is the first in the list that is valid now, authorised and of the wanted
    node, or there is none such; a receiver the first that is valid, authorised, not
    of this node or its identity and of the wanted issuer; all receivers are those
    that are valid, authorised and of the wanted audience, in the order of the list.
    The tokens change in nothing but the record of the check. *)
Theorem token_lookup_spec now s k (d me node target aud : np_dhkey_t) found :
  listed s (send_tokens (ledger k)) -> listed s (recv_tokens (ledger k)) ->
  let first (good : loc -> bool) (l : list loc) s' (o : option loc) := only_checked s s' /\
    match o with
    | Some t => exists l1 l2, l = l1 ++ t :: l2 /\ good t = true /\ Forall (fun p => good p = false) l1 /\ IS_VALID (state (s' t)) = true
    | None => Forall (fun p => good p = false) l
    end in
  (exists s' o, _np_intent_get_sender_token now s k d = Ok (s', o) /\
     first (fun t => usable now (s t) && from_sender d (s t)) (send_tokens (ledger k)) s' o) /\
  (exists s' o, _np_intent_get_receiver now me node s k target = Ok (s', o) /\
     first (fun t => usable now (s t) && from_receiver me node target (s t)) (recv_tokens (ledger k)) s' o) /\
  (exists s', only_checked s s' /\ _np_intent_get_all_receiver now s k aud found =
     Ok (s', found ++ filter (fun t => usable now (s t) && in_audience (current_fp k) aud (s t)) (recv_tokens (ledger k)))).
Proof.
  intros [Hs Hsr] [Hr Hrr] first. split; [|split].
  - unfold _np_intent_get_sender_token. rewrite sender_loop_scan.
    destruct (scan_spec (sender_test d) now (fun t => from_sender d (s t)) _ s Hs Hsr) as (s' & o & E & Hc & _ & Ho); [|by exists s', o].
    eapply list.Forall_impl; [exact Hsr|]. intros t Ht. by apply sender_tests.
  - unfold _np_intent_get_receiver. rewrite receiver_loop_scan.
    destruct (scan_spec (receiver_test me node target) now (fun t => from_receiver me node target (s t)) _ s Hr Hrr) as (s' & o & E & Hc & _ & Ho); [|by exists s', o].
    eapply list.Forall_impl; [exact Hrr|]. intros t _. by apply receiver_tests.
  - destruct (all_receiver_loop_spec now (current_fp k) aud _ s found (conj Hr Hrr)) as (s' & E & Hc & _). by exists s'.
Qed.

(** ** Coming and going *)

Lemma chars_cmp_eq a b : chars_cmp a b = 0 <-> a = b.
Proof.
  revert b. induction a as [|x a IH]; intros [|y b]; cbn; try (split; (done || lia)).
  destruct (Z.ltb_spec x y), (Z.ltb_spec y x); try (split; [lia|intros [= ??]; lia]).
  rewrite IH. assert (x = y) as -> by lia. split; [by intros ->|by intros [= ->]].
Qed.

(** Whose token it is and which: the key of the issuer and the identifier. *)
Definition identity_of (t : np_aaatoken_t) : list Z * list Z := (derived_kx_public_key (crypto t), uuid t).

Lemma cmp_exact_identity s a b : _np_intent_cmp_exact s (Some a) (Some b) = 0 <-> identity_of (s a) = identity_of (s b).
Proof.
  unfold _np_intent_cmp_exact. case_decide as E; [injection E as ->; done|]. unfold identity_of, sodium_memcmp.
  case_decide as E1; [|cbn; split; [done|intros [= ??]; done]]. change (negb (0 =? 0)) with false. cbv iota.
  pose proof (chars_cmp_eq (uuid (s a)) (uuid (s b))) as Hc.
  destruct (Z.eqb_spec 0 (chars_cmp (uuid (s a)) (uuid (s b)))) as [E2|E2]; cbn [negb].
  - symmetry in E2. pose proof (proj1 Hc E2) as Eu. unfold _np_intent_cmp. rewrite decide_False by done.
    unfold intent_cmp. rewrite E2. change (0 =? 0) with true. cbv iota. split; [intros _; congruence|done].
  - split; [lia|]. intros [= _ Eu]. apply Hc in Eu. lia.
Qed.

(** The comparison a new token is looked up with. *)
Definition same (s : store) (single : bool) (a b : loc) : Prop :=
  (if single then _np_intent_cmp s (Some a) (Some b) else _np_intent_cmp_exact s (Some a) (Some b)) = 0.
Definition identities (s : store) (l : list loc) : list (list Z * list Z) := (fun t => identity_of (s t)) <$> l.

(** What becomes of a list: the new token is at the place of the first one it is the
    same as, or it joins the list behind all that are not greater. *)
Definition entered (s : store) (single : bool) (token : loc) (l l' : list loc) (ret : option loc) : Prop :=
  match ret with
  | Some old => exists l1 l2, l = l1 ++ old :: l2 /\ l' = l1 ++ token :: l2 /\ same s single old token /\
      Forall (fun x => ~ same s single x token) l1
  | None => exists l1 l2, l = l1 ++ l2 /\ l' = l1 ++ token :: l2 /\ Forall (fun x => ~ same s single x token) l /\
      Forall (fun x => 0 <= _np_intent_cmp s (Some x) (Some token)) l1 /\
      (forall x, head l2 = Some x -> _np_intent_cmp s (Some x) (Some token) < 0)
  end.

Lemma insert_by_spec (cmp : loc -> loc -> Z) dups v l : (dups = false -> Forall (fun x => cmp x v <> 0) l) ->
  exists l1 l2, l = l1 ++ l2 /\ insert_by cmp dups v l = Some (l1 ++ v :: l2) /\ Forall (fun x => 0 <= cmp x v) l1 /\
    (forall x, head l2 = Some x -> cmp x v < 0).
Proof.
  induction l as [|x l IH]; intros Hd; [by exists [], []|]. cbn [insert_by].
  destruct (Z.ltb_spec (cmp x v) 0) as [Hlt|Hge]; [exists [], (x :: l); split; [done|]; split; [done|]; split; [done|]; by intros y [= <-]|].
  assert ((cmp x v =? 0) && negb dups = false) as ->.
  { destruct dups; [by rewrite andb_false_r|]. specialize (Hd eq_refl). apply list.Forall_cons in Hd as [Hx _].
    destruct (Z.eqb_spec (cmp x v) 0); [lia|done]. }
  destruct IH as (l1 & l2 & -> & -> & H1' & H2'). { intros E. by specialize (Hd E) as [_ ?]%list.Forall_cons. }
  exists (x :: l1), l2. split; [done|]. split; [done|]. split; [by apply list.Forall_cons|done].
Qed.

(** The token is in the list afterwards, whatever the list was. *)
Lemma put_token_spec s single token l : exists ret l', put_token s single token l = (ret, l') /\ entered s single token l l' ret.
Proof.
  unfold put_token, replace_by. cbv zeta. match goal with |- context [list_find ?P l] => destruct (list_find P l) as [[i x]|] eqn:E end.
  - apply list_find_Some in E as (El & Ec & Hb). exists (Some x), (<[i := token]> l). split; [done|].
    pose proof (take_drop_middle l i x El) as El'. exists (take i l), (drop (S i) l). split; [done|]. split; [|split; [done|]].
    + rewrite insert_take_drop; [done|]. by eapply lookup_lt_Some.
    + rewrite list.Forall_forall. intros y Hy. apply list_elem_of_lookup in Hy as [j Hj].
      apply lookup_take_Some in Hj as [Hj Hlt]. by eapply Hb.
  - apply list_find_None in E. destruct (insert_by_spec (fun a b => _np_intent_cmp s (Some a) (Some b)) (negb single) token l) as (l1 & l2 & El & -> & Hle & Hlt).
    { destruct single; [|done]. intros _. exact E. }
    exists None, (l1 ++ token :: l2). split; [done|]. exists l1, l2. by repeat (split; [done|]).
Qed.

(** Where several may send, there is one token per identity: adding keeps that and adds
    the identity of the new token. *)
Lemma entered_identities s token l l' ret : entered s false token l l' ret ->
  (NoDup (identities s l) -> NoDup (identities s l')) /\
  forall i, i ∈ identities s l' <-> i = identity_of (s token) \/ i ∈ identities s l.
Proof.
  unfold identities. destruct ret as [old|]; cbn [entered].
  - intros (l1 & l2 & -> & -> & E%cmp_exact_identity & _). rewrite !fmap_app, !fmap_cons, E. split; [done|]. intros i. rewrite ?elem_of_app, ?elem_of_cons. tauto.
  - intros (l1 & l2 & -> & -> & Hn & _). rewrite !fmap_app, !fmap_cons. split.
    + intros Hnd. rewrite <-Permutation_middle. apply list.NoDup_cons. split; [|done]. rewrite <-fmap_app, list_elem_of_fmap.
      intros (x & E & Hx). rewrite list.Forall_forall in Hn. apply (Hn x Hx). by apply cmp_exact_identity.
    + intros i. rewrite ?elem_of_app, ?elem_of_cons. tauto.
Qed.

Lemma uint_or_defined t name d : readable t -> name = "max_threshold"%string \/ name = "mep_type"%string \/ name = "ack_mode"%string ->
  exists v, uint_or (attributes t) name d = Ok v.
Proof.
  intros [(l & Hb & N1 & _ & N2 & N3 & _)] Hn. unfold uint_or.
  assert (exists o, uint_attribute (attributes t) name = Ok o) as [o ->].
  { destruct Hn as [->|[->| ->]]; by eapply uint_attribute_defined. }
  rewrite bind_ok. by eexists.
Qed.

(** A key that differs in its types at most. *)
Definition retyped (k k' : subject_key) : Prop := exists mep ack, k' = set_types k mep ack.

(** The store and the list after a token was put, and that it has the state of the token
    it replaces. *)
Definition put_done (s : store) (single : bool) (token : loc) (l l' : list loc) (ret : option loc) (s' : store) : Prop :=
  entered s single token l l' ret /\
  (single = false -> NoDup (identities s l) -> NoDup (identities s' l')) /\
  (forall p, p ≠ token -> s' p = s p) /\ state (s' token) = state (s (default token ret)).

Lemma take_state_spec s single token l l' ret : entered s single token l l' ret -> put_done s single token l l' ret (take_state s ret token).
Proof.
  intros He. assert (forall p, identity_of (take_state s ret token p) = identity_of (s p)) as Hi.
  { intros p. unfold take_state. destruct ret; [|done]. destruct (decide (p = token)) as [->|Hp]; [by rewrite fn_lookup_insert|by rewrite fn_lookup_insert_ne]. }
  assert (forall m, identities (take_state s ret token) m = identities s m) as Hm.
  { intros m. unfold identities. apply list_fmap_ext. intros _ p _. apply Hi. }
  split; [done|]. split; [|split].
  - intros -> Hnd. rewrite Hm. by apply (entered_identities s token l l' ret He).
  - intros p Hp. unfold take_state. destruct ret; [by rewrite fn_lookup_insert_ne|done].
  - unfold take_state. destruct ret as [old|]; [|done]. cbn [default]. by rewrite fn_lookup_insert.
Qed.

(** Adding a token to the ledger.  One whose threshold is zero changes no list.  Any
    other one is in its list afterwards: at the place of the first that is the same,
    whose state it takes over, or as a new one behind all that are not greater; no
    other token is touched and, where several may send or receive, no two tokens of
    one identity come to be in a list.  When the token is authorised the
    sessions are brought up to date. *)
Theorem ledger_add_spec s k token : readable (s token) ->
  exists k0 k1 max, retyped k k0 /\ retyped k k1 /\ uint_or (attributes (s token)) "max_threshold" 0 = Ok max /\
  (max <= 0 -> _np_intent_add_sender s k token = Ok (s, k0, None) /\ _np_intent_add_receiver s k token = Ok (s, k1, None, None)) /\
  (0 < max ->
   (exists ret l' s', put_done s (FLAG_CMP (Z.land (mep_type k0) SENDER_MASK) SINGLE_SENDER) token (send_tokens (ledger k)) l' ret s' /\
      _np_intent_add_sender s k token =
        if IS_AUTHORIZED (state (s' token)) then
          k' ← _np_intent_update_sender_session s' (set_send k0 l') token (crud_of ret); Ok (s', k', ret)
        else Ok (s', set_send k0 l', ret)) /\
   (exists ret l' s', put_done s (FLAG_CMP (Z.land (mep_type k1) RECEIVER_MASK) SINGLE_RECEIVER) token (recv_tokens (ledger k)) l' ret s' /\
      _np_intent_add_receiver s k token =
        if IS_AUTHORIZED (state (s' token)) then
          '(k', m) ← _np_intent_update_receiver_session s' (set_recv k1 l') token (crud_of ret); Ok (s', k', ret, m)
        else Ok (s', set_recv k1 l', ret, None))).
Proof.
  intros Hr. unfold _np_intent_add_sender, _np_intent_add_receiver. cbv zeta.
  destruct (uint_or_defined (s token) "mep_type" DEFAULT_TYPE Hr) as [mep ->]; [tauto|].
  destruct (uint_or_defined (s token) "ack_mode" ACK_NONE Hr) as [ack ->]; [tauto|].
  destruct (uint_or_defined (s token) "max_threshold" 0 Hr) as [max ->]; [tauto|]. rewrite !bind_ok.
  set (k0 := set_types k (Z.lor (mep_type k) (Z.land mep SENDER_MASK)) ack).
  set (k1 := set_types k (Z.lor (mep_type k) (Z.land mep RECEIVER_MASK)) (ack_mode k)).
  exists k0, k1, max. split; [by do 2 eexists|]. split; [by do 2 eexists|]. split; [done|].
  destruct (Z.ltb_spec 0 max) as [Hm|Hm]; (split; [intros Hm'|intros Hm'; try lia]); try lia; [|done]. split.
  - destruct (put_token_spec s (FLAG_CMP (Z.land (mep_type k0) SENDER_MASK) SINGLE_SENDER) token (send_tokens (ledger k))) as (ret & l' & E & He).
    change (send_tokens (ledger k0)) with (send_tokens (ledger k)). rewrite E. exists ret, l', (take_state s ret token).
    split; [by apply take_state_spec|]. by destruct (IS_AUTHORIZED _).
  - destruct (put_token_spec s (FLAG_CMP (Z.land (mep_type k1) RECEIVER_MASK) SINGLE_RECEIVER) token (recv_tokens (ledger k))) as (ret & l' & E & He).
    change (recv_tokens (ledger k1)) with (recv_tokens (ledger k)). rewrite E. exists ret, l', (take_state s ret token).
    split; [by apply take_state_spec|]. by destruct (IS_AUTHORIZED _).
Qed.

(** ** The clean-up *)

(** The list without the first element that is not [good]. *)
Definition without_first (good : loc -> bool) (l : list loc) : list loc :=
  match list_find (fun t => good t = false) l with Some (i, _) => delete i l | None => l end.

Lemma without_first_cons good t l : without_first good (t :: l) = if good t then t :: without_first good l else l.
Proof.
  unfold without_first. cbn [list_find]. destruct (good t); case_decide; try done. by destruct (list_find _ l) as [[]|].
Qed.
Lemma without_first_same f g l : Forall (fun t => f t = g t) l -> without_first f l = without_first g l.
Proof. induction 1 as [|t l E _ IH]; [done|]. by rewrite !without_first_cons, E, IH. Qed.
Lemma without_first_nonempty good t l : t ∈ l -> good t = true -> without_first good l <> [].
Proof.
  intros Ht Hg. induction l as [|x l IH]; [by apply elem_of_nil in Ht|]. rewrite without_first_cons. destruct (good x) eqn:E; [done|].
  apply elem_of_cons in Ht as [->|Ht]; [congruence|]. intros ->. by apply elem_of_nil in Ht.
Qed.

Lemma first_invalid_spec now l : forall s, listed s l ->
  exists s' o, first_invalid now s l = Ok (s', o) /\ only_checked s s' /\ (forall p, p ∉ l -> s' p = s p) /\
    match o with
    | Some t => t ∈ l /\ usable now (s t) = false /\
        forall l', l' = without_first (fun p => usable now (s p)) l -> exists l1 l2, l = l1 ++ t :: l2 /\ l' = l1 ++ l2
    | None => without_first (fun p => usable now (s p)) l = l
    end.
Proof.
  induction l as [|t l IH]; intros s Hl.
  { exists s, None. split; [done|]. split; [intros p; apply checked_refl|done]. }
  apply listed_cons in Hl as (Hr & Hin & Hl). destruct (intent_valid_spec now s t Hr) as (s1 & E & Hc & Hk & _). cbn [first_invalid].
  rewrite E, bind_ok, without_first_cons. destruct (usable now (s t)) eqn:Eu.
  - destruct (IH s1 (listed_step s s1 t l Hin Hk Hl)) as (s' & o & -> & Hc' & Hk' & Ho). exists s', o. split; [done|].
    split; [intros p; by eapply checked_trans|]. split; [intros p [Hp Hp']%not_elem_of_cons; rewrite Hk' by done; by apply Hk|].
    rewrite (without_first_same _ (fun p => usable now (s p)) l) in Ho by exact (kept_ext (fun _ x => usable now x) s s1 t l Hin Hk).
    destruct o as [r|]; [|by rewrite Ho]. destruct Ho as (Hrl & Hur & Hl'). split; [by right|].
    split; [rewrite <-(Hk r); [done|intros ->; by apply Hin]|]. intros l' ->. destruct (Hl' _ eq_refl) as (l1 & l2 & -> & ->). by exists (t :: l1), l2.
  - exists s1, (Some t). split; [done|]. split; [done|]. split; [intros p [Hp _]%not_elem_of_cons; by apply Hk|].
    split; [left|]. split; [done|]. intros l' ->. by exists [], l.
Qed.

(** The token that is removed is the one that was found. *)
Lemma remove_unique s t l1 l2 : NoDup (identities s (l1 ++ t :: l2)) ->
  remove_by (fun a b => _np_intent_cmp_exact s (Some a) (Some b)) t (l1 ++ t :: l2) = l1 ++ l2.
Proof.
  intros Hnd. unfold remove_by.
  assert (list_find (fun x => _np_intent_cmp_exact s (Some x) (Some t) = 0) (l1 ++ t :: l2) = Some (length l1, t)) as ->.
  { apply list_find_Some. split; [by apply list_lookup_middle|]. split; [by apply cmp_exact_identity|].
    intros j y Hj Hlt E%cmp_exact_identity. unfold identities in Hnd.
    assert (((fun t => identity_of (s t)) <$> (l1 ++ t :: l2)) !! length l1 = Some (identity_of (s t))) as Ht
      by (by rewrite list_lookup_fmap, list_lookup_middle).
    assert (((fun t => identity_of (s t)) <$> (l1 ++ t :: l2)) !! j = Some (identity_of (s t))) as Hy
      by (rewrite list_lookup_fmap, Hj; cbn; by rewrite E).
    pose proof (NoDup_lookup _ _ _ _ Hnd Ht Hy). lia. }
  by rewrite delete_middle.
Qed.

(** Sessions may have gone, the rest is as before. *)
Definition sessions_dropped (k k' : subject_key) : Prop :=
  exists c a, k' = set_sessions k c a /\ c ⊆ crypto_tree k /\ a ⊆ ack_tree k.

Lemma sessions_dropped_refl k : sessions_dropped k k.
Proof. exists (crypto_tree k), (ack_tree k). by destruct k. Qed.

Lemma fingerprint_defined t : exists fp, np_aaatoken_get_fingerprint t false = Ok fp.
Proof. unfold np_aaatoken_get_fingerprint. rewrite bind_ok. apply fingerprint_hash_defined. Qed.

Lemma delete_subseteq' {V} (m m' : gmap np_dhkey_t V) i : m' ⊆ m -> delete i m' ⊆ m.
Proof. intros Hm. etrans; [apply delete_subseteq|done]. Qed.

Lemma sender_session_deleted s k t own l : readable (s t) -> recv_tokens (ledger k) = own :: l ->
  exists k', _np_intent_update_sender_session s k t crud_delete = Ok k' /\ sessions_dropped k k' /\
    (t ≠ own -> forall fp, np_aaatoken_get_fingerprint (s t) false = Ok fp ->
       crypto_tree k' !! private_id fp (current_fp k) = None /\ crypto_tree k' !! initial_id fp (current_fp k) = None).
Proof.
  intros Hr El. unfold _np_intent_update_sender_session. rewrite El. cbn [pll_first_val]. rewrite bind_ok.
  destruct (fingerprint_defined (s t)) as [fp E]. rewrite E, (partner_of_ok _ Hr), !bind_ok.
  case_decide as Ed; [exists k; split; [done|]; split; [apply sessions_dropped_refl|done]|]. rewrite decide_True by done.
  eexists. split; [reflexivity|]. split.
  - do 2 eexists. split; [reflexivity|]. split; repeat apply delete_subseteq'; done.
  - intros _ fp' [= <-]. cbn [crypto_tree set_sessions]. split; [|apply lookup_delete_eq].
    destruct (decide (initial_id fp (current_fp k) = private_id fp (current_fp k))) as [->|Hne]; [apply lookup_delete_eq|].
    rewrite lookup_delete_ne by done. apply lookup_delete_eq.
Qed.

Lemma receiver_session_deleted s k t own l : send_tokens (ledger k) = own :: l ->
  exists k' m, _np_intent_update_receiver_session s k t crud_delete = Ok (k', m) /\ sessions_dropped k k'.
Proof.
  intros El. unfold _np_intent_update_receiver_session. rewrite El. cbn [pll_first_val]. rewrite bind_ok.
  destruct (fingerprint_defined (s t)) as [fp ->]. rewrite bind_ok.
  case_decide; [|rewrite decide_True by done]; rewrite bind_ok; eexists _, _; (split; [reflexivity|]); [apply sessions_dropped_refl|].
  do 2 eexists. split; [reflexivity|]. split; [|done]. repeat apply delete_subseteq'. done.
Qed.

Lemma checked_readable t t' : checked t t' -> readable t -> readable t'.
Proof. by intros (st & a & b & -> & _) [Hr]. Qed.
Lemma checked_identities s s' l : only_checked s s' -> identities s' l = identities s l.
Proof.
  intros Hc. unfold identities. apply list_fmap_ext. intros _ t _. by destruct (Hc t) as (st & a & b & -> & _).
Qed.

(** One list, cleaned. *)
Lemma cleaned now s l : listed s l -> NoDup (identities s l) ->
  exists s' o, first_invalid now s l = Ok (s', o) /\ only_checked s s' /\ (forall p, p ∉ l -> s' p = s p) /\
    match o with
    | Some t => readable (s' t) /\ l <> [] /\
        remove_by (fun a b => _np_intent_cmp_exact s' (Some a) (Some b)) t l = without_first (fun p => usable now (s p)) l
    | None => without_first (fun p => usable now (s p)) l = l
    end.
Proof.
  intros Hl Hnd. destruct (first_invalid_spec now l s Hl) as (s' & o & E & Hc & Hk & Ho). exists s', o. split; [done|]. split; [done|]. split; [done|].
  destruct o as [t|]; [|done]. destruct Ho as (Ht & _ & Hw). destruct (Hw _ eq_refl) as (l1 & l2 & El & ->). subst l.
  split; [|split; [by destruct l1|]].
  - apply (checked_readable (s t)); [apply Hc|]. destruct Hl as [_ Hr]. rewrite list.Forall_forall in Hr. by apply Hr.
  - apply remove_unique. by rewrite (checked_identities s s').
Qed.

(** The clean-up of a ledger: from the senders and from the receivers the first token
    that is no longer valid is removed, and no other; sessions are only ever dropped,
    and of the other tokens nothing changes but the record of the check.  As long as a
    token of the node itself is left on either side the program does not run off the
    end of an empty list. *)
Theorem ledger_check_spec now now' s k own valid :
  listed s (send_tokens (ledger k)) -> listed s (recv_tokens (ledger k)) ->
  NoDup (identities s (send_tokens (ledger k))) -> NoDup (identities s (recv_tokens (ledger k))) ->
  (forall p, p ∈ send_tokens (ledger k) -> p ∉ recv_tokens (ledger k)) ->
  own ∈ recv_tokens (ledger k) -> valid ∈ send_tokens (ledger k) -> usable now (s valid) = true ->
  exists s' k', __np_intent_check now now' s k = Ok (s', k') /\ only_checked s s' /\
    send_tokens (ledger k') = without_first (fun p => usable now (s p)) (send_tokens (ledger k)) /\
    recv_tokens (ledger k') = without_first (fun p => usable now' (s p)) (recv_tokens (ledger k)) /\
    crypto_tree k' ⊆ crypto_tree k /\ ack_tree k' ⊆ ack_tree k /\ current_fp k' = current_fp k.
Proof.
  intros Hs Hr Hsu Hru Hdis Hown Hv Huse. unfold __np_intent_check, check_senders.
  destruct (recv_tokens (ledger k)) as [|o1 lr] eqn:Elr; [by apply elem_of_nil in Hown|].
  destruct (cleaned now s (send_tokens (ledger k)) Hs Hsu) as (s1 & o & -> & Hc & Hk & Ho). rewrite bind_ok.
  assert (exists k1, (match o with
      | None => Ok (s1, k)
      | Some t => k0 ← _np_intent_update_sender_session s1 k t crud_delete;
          Ok (s1, set_send k0 (remove_by (fun a b => _np_intent_cmp_exact s1 (Some a) (Some b)) t (send_tokens (ledger k0))))
      end) = Ok (s1, k1) /\ send_tokens (ledger k1) = without_first (fun p => usable now (s p)) (send_tokens (ledger k)) /\
      recv_tokens (ledger k1) = o1 :: lr /\ crypto_tree k1 ⊆ crypto_tree k /\ ack_tree k1 ⊆ ack_tree k /\ current_fp k1 = current_fp k)
    as (k1 & -> & Es1 & Er1 & Hc1 & Ha1 & Hf1).
  { destruct o as [t|]; [|by exists k]. destruct Ho as (Hrt & _ & Erem).
    destruct (sender_session_deleted s1 k t o1 lr Hrt Elr) as (k0 & -> & (c & a & -> & Hcc & Haa) & _). rewrite bind_ok. cbn [ledger set_sessions]. rewrite Erem.
    eexists. by repeat (split; [reflexivity || done|]). }
  rewrite bind_ok. unfold check_receivers. rewrite Er1.
  assert (forall p, p ∈ o1 :: lr -> s1 p = s p) as Hkeep by (intros p Hp; apply Hk; intros Hp'; exact (Hdis p Hp' Hp)).
  assert (listed s1 (o1 :: lr)) as Hr1.
  { destruct Hr as [Hnd Hall]. split; [done|]. rewrite list.Forall_forall in *. intros p Hp. rewrite Hkeep by done. by apply Hall. }
  destruct (cleaned now' s1 (o1 :: lr) Hr1) as (s2 & o2 & -> & Hc2 & _ & Ho2); [by rewrite (checked_identities s s1)|]. rewrite bind_ok.
  rewrite (without_first_same (fun p => usable now' (s1 p)) (fun p => usable now' (s p))) in Ho2
    by (rewrite list.Forall_forall; intros p Hp; by rewrite Hkeep).
  assert (only_checked s s2) as Hc' by (intros p; by eapply checked_trans).
  destruct o2 as [t|]; [|exists s2, k1; rewrite Er1, Ho2; by repeat (split; [done|])]. destruct Ho2 as (_ & _ & Erem).
  destruct (send_tokens (ledger k1)) as [|o3 ls] eqn:Els; [exfalso; symmetry in Es1; revert Es1; by apply (without_first_nonempty _ valid)|].
  destruct (receiver_session_deleted s2 k1 t o3 ls Els) as (k2 & m & -> & (c & a & -> & Hcc & Haa)). rewrite bind_ok. cbn [ledger set_sessions]. rewrite Er1, Erem.
  eexists _, _. split; [reflexivity|]. split; [done|]. cbn [ledger send_tokens recv_tokens set_recv set_sessions crypto_tree ack_tree current_fp].
  rewrite Els, Es1. split; [done|]. split; [done|]. split; [by etrans|]. split; [by etrans|done].
Qed.

End Tokens.

(** ** Where it goes wrong *)

Section Authorisation.
Context `{Sodium} `{Qcbor} `{!Block_limits} `{Doubles}.

(** Where only one may send, the identifier alone decides what is the same: whoever
    repeats the identifier of an authorised sender is authorised, whatever key the
    token was signed with. *)
Lemma authorisation_inherited s old token l : uuid (s old) = uuid (s token) -> IS_AUTHORIZED (state (s old)) = true ->
  exists l', put_token s true token (old :: l) = (Some old, l') /\ IS_AUTHORIZED (state (take_state s (Some old) token token)) = true.
Proof.
  intros Eu Ea. unfold put_token, replace_by. cbv zeta. cbn [list_find].
  assert (_np_intent_cmp s (Some old) (Some token) = 0) as Ec.
  { unfold _np_intent_cmp. case_decide; [done|]. unfold intent_cmp.
    pose proof (proj2 (chars_cmp_eq _ _) Eu) as E0. rewrite E0. done. }
  rewrite decide_True by done. eexists. split; [reflexivity|]. unfold take_state. by rewrite fn_lookup_insert.
Qed.

Lemma strncmp_refl x n : strncmp x x n = 0.
Proof. by apply chars_cmp_eq. Qed.

(** The comparison looks at a prefix: of two subjects of which one begins with the
    other, the shorter one is equal to the longer one and not the other way round. *)
Lemma comparison_not_symmetric a b : uuid a <> uuid b -> issuer a = issuer b ->
  subject a = c_string "urn:a" -> subject b = c_string "urn:ab" -> realm a = [] -> realm b = [] ->
  intent_cmp a b = 0 /\ intent_cmp b a = 1.
Proof.
  intros Hu Hi Ha Hb Ra Rb. unfold intent_cmp.
  pose proof (proj1 (chars_cmp_eq (uuid a) (uuid b))) as H1'. pose proof (proj1 (chars_cmp_eq (uuid b) (uuid a))) as H2'.
  destruct (Z.eqb_spec 0 (chars_cmp (uuid a) (uuid b))) as [E|_]; [by rewrite <-E in H1'; specialize (H1' eq_refl)|].
  destruct (Z.eqb_spec 0 (chars_cmp (uuid b) (uuid a))) as [E|_]; [by rewrite <-E in H2'; specialize (H2' eq_refl)|].
  rewrite <-Hi, strncmp_refl, Ha, Hb, Ra, Rb. by split.
Qed.

End Authorisation.

(** ** Witnesses *)

#[local] Existing Instance rfc8949.
#[local] Existing Instance toy_sodium.
#[local] Existing Instance whole_doubles.

Lemma sample_readable t : attributes t = sample_block -> readable t.
Proof.
  intros E. split. exists sample_objs. rewrite E. split; [exact sample_block_ok|].
  assert (forall name, key_range (c_string name) -> get_obj (c_string name) sample_objs = None -> number sample_objs name) as Hnone by (intros; split; auto).
  split; [split; [apply name_key; vm_compute; reflexivity|right; exists 20; by split]|].
  split; [split; [apply name_key; vm_compute; reflexivity|right; exists 3; by split]|].
  split; [apply Hnone; [apply name_key; vm_compute|]; reflexivity|]. split; [apply Hnone; [apply name_key; vm_compute|]; reflexivity|].
  left. reflexivity.
Qed.

Lemma sample_listed p : listed sender_store [p].
Proof.
  split; [apply NoDup_singleton|]. apply list.Forall_cons. split; [|done]. apply sample_readable. unfold sender_store. by case_decide.
Qed.

Lemma token_lookup_spec_witness :
  let s := sender_store in let k := sender_key in let now := 100%Q in
  let first (good : loc -> bool) (l : list loc) s' (o : option loc) := only_checked s s' /\
    match o with
    | Some t => exists l1 l2, l = l1 ++ t :: l2 /\ good t = true /\ Forall (fun p => good p = false) l1 /\ IS_VALID (state (s' t)) = true
    | None => Forall (fun p => good p = false) l
    end in
  (exists s' o, _np_intent_get_sender_token now s k dhkey_zero = Ok (s', o) /\
     first (fun t => usable now (s t) && from_sender dhkey_zero (s t)) (send_tokens (ledger k)) s' o) /\
  (exists s' o, _np_intent_get_receiver now partner partner s k dhkey_zero = Ok (s', o) /\
     first (fun t => usable now (s t) && from_receiver partner partner dhkey_zero (s t)) (recv_tokens (ledger k)) s' o) /\
  (exists s', only_checked s s' /\ _np_intent_get_all_receiver now s k (fp_of 7) [] =
     Ok (s', [] ++ filter (fun t => usable now (s t) && in_audience (current_fp k) (fp_of 7) (s t)) (recv_tokens (ledger k)))).
Proof.
  apply (token_lookup_spec 100 sender_store sender_key dhkey_zero partner partner dhkey_zero (fp_of 7) []); apply sample_listed.
Defined.

Lemma ledger_add_spec_witness : let s := <[3%positive := intent_of 9 (peer_crypto 9)]> sender_store in let k := sender_key in let token := 3%positive in
  readable (s token) /\
  exists k0 k1 max, retyped k k0 /\ retyped k k1 /\ uint_or (attributes (s token)) "max_threshold" 0 = Ok max /\
  (max <= 0 -> _np_intent_add_sender s k token = Ok (s, k0, None) /\ _np_intent_add_receiver s k token = Ok (s, k1, None, None)) /\
  (0 < max ->
   (exists ret l' s', put_done s (FLAG_CMP (Z.land (mep_type k0) SENDER_MASK) SINGLE_SENDER) token (send_tokens (ledger k)) l' ret s' /\
      _np_intent_add_sender s k token =
        if IS_AUTHORIZED (state (s' token)) then
          k' ← _np_intent_update_sender_session s' (set_send k0 l') token (crud_of ret); Ok (s', k', ret)
        else Ok (s', set_send k0 l', ret)) /\
   (exists ret l' s', put_done s (FLAG_CMP (Z.land (mep_type k1) RECEIVER_MASK) SINGLE_RECEIVER) token (recv_tokens (ledger k)) l' ret s' /\
      _np_intent_add_receiver s k token =
        if IS_AUTHORIZED (state (s' token)) then
          '(k', m) ← _np_intent_update_receiver_session s' (set_recv k1 l') token (crud_of ret); Ok (s', k', ret, m)
        else Ok (s', set_recv k1 l', ret, None))).
Proof.
  intros s k token. assert (readable (s token)) as Hr by (by apply sample_readable). split; [exact Hr|].
  exact (ledger_add_spec s k token Hr).
Defined.

Lemma ledger_check_spec_witness :
  exists s' k', __np_intent_check 100 600 sender_store sender_key = Ok (s', k') /\ only_checked sender_store s' /\
    send_tokens (ledger k') = without_first (fun p => usable 100 (sender_store p)) [1%positive] /\
    recv_tokens (ledger k') = without_first (fun p => usable 600 (sender_store p)) [2%positive] /\
    crypto_tree k' ⊆ ∅ /\ ack_tree k' ⊆ ∅ /\ current_fp k' = fp_of 7.
Proof.
  apply (ledger_check_spec 100 600 sender_store sender_key 2%positive 1%positive); try apply sample_listed; try apply NoDup_singleton.
  - by intros p ->%list_elem_of_singleton ?%list_elem_of_singleton.
  - by apply list_elem_of_singleton.
  - by apply list_elem_of_singleton.
  - vm_compute. reflexivity.
Defined.
