(* ===== verification/Msgproperty.v ===== *)
(** * Subjects at run time: [src/core/np_comp_msgproperty.c]

    For each subject and direction a node keeps how many messages are under way, the
    messages it cannot send or decrypt yet (a doubly linked list of pointers), the
    identifiers of the messages it received, the messages it may have to send again
    and the responses it waits for.  Messages and response containers are shared
    objects: lists and trees hold pointers, a store says what they lead to.  The
    events the functions add to the current run of the event loop are their result, in
    order. *)
From Stdlib Require Import ZArith Lia QArith.
From stdpp Require Import prelude gmap fin_maps sorting functions.
From S2P Require Import Prelude Real Dhkey Sll Reassembly Chunk Token KeyStates Serial Intent TokenFactory.

Local Open Scope Z_scope.

(** [np_msg_mode_type], [np_msgcache_policy_type], [np_msg_ack_type] *)
Definition INBOUND : Z := 0x01.
Definition OUTBOUND : Z := 0x02.
Definition DEFAULT_MODE : Z := 0x03.
Definition FIFO : Z := 0x01.
Definition LIFO : Z := 0x02.
Definition OVERFLOW_REJECT : Z := 0x10.
Definition OVERFLOW_PURGE : Z := 0x20.
Definition ACK_DESTINATION : Z := 0x02.
Definition ACK_CLIENT : Z := 0x04.
Definition ANY_TO_ANY : Z := 0x44.
Definition NP_PI_INT : Z := 3.
Definition MSGPROPERTY_DEFAULT_MIN_TTL_SEC : Z := NP_PI_INT.
Definition MSGPROPERTY_DEFAULT_MAX_TTL_SEC : Z := NP_PI_INT * 60.
Definition MSGPROPERTY_DEFAULT_MSG_TTL : Q := 2 * NP_PI * NP_PI.

(** [struct np_msgproperty_conf_s], but for names. *)
Record np_msgproperty_conf_t := Msgproperty_conf {
  rep_subject : option (list Z);
  mode_type : Z;
  mep_type : Z;
  ack_mode : Z;
  msg_ttl : Q;
  retry : Z;                  (* uint8_t *)
  token_max_ttl : Z;          (* uint32_t *)
  token_min_ttl : Z;          (* uint32_t *)
  cache_policy : Z;
  cache_size : Z;             (* uint16_t *)
  max_threshold : Z;          (* uint32_t *)
  unique_uuids_check : bool;
  is_internal : bool;
  audience_type : np_mx_audience_type;
  audience_id : np_dhkey_t;
  reply_dhkey : np_dhkey_t;
  subject_dhkey : np_dhkey_t;
  subject_dhkey_in : np_dhkey_t;
  subject_dhkey_out : np_dhkey_t;
}.

(** What the functions read of a message and of a response container. *)
Record np_e2e_message_t := E2e_message {
  msg_uuid : list Z;
  msg_audience : np_dhkey_t;    (* the identifier of its session *)
  msg_tstamp : Q;
  msg_ttl_sec : Z;
  msg_send_at : Q;
}.
Record np_responsecontainer_t := Responsecontainer {
  container_uuid : list Z;
  dest_dhkey : np_dhkey_t;
  msg_dhkey : np_dhkey_t;
  received_at : Q;
  container_expires_at : Q;
}.

Record np_redelivery_data_t := Redelivery { red_target : np_dhkey_t; redelivery_at : Q; red_message : loc }.

(** The nodes of the list are what iterators lead to, whatever they hold. *)
Abbreviation dll_node := (loc * loc)%type.   (* the node and the message in it *)

Record np_msgproperty_run_t := Msgproperty_run {
  msg_threshold : Z;
  msg_cache : list dll_node;
  response_handler : gmap (list Z) loc;
  redelivery_messages : gmap (list Z) np_redelivery_data_t;
  unique_uuids : gmap (list Z) Q;
}.

Definition set_threshold (r : np_msgproperty_run_t) (x : Z) : np_msgproperty_run_t :=
  Msgproperty_run x (msg_cache r) (response_handler r) (redelivery_messages r) (unique_uuids r).
Definition set_cache (r : np_msgproperty_run_t) (x : list dll_node) : np_msgproperty_run_t :=
  Msgproperty_run (msg_threshold r) x (response_handler r) (redelivery_messages r) (unique_uuids r).
Definition set_responses (r : np_msgproperty_run_t) (x : gmap (list Z) loc) : np_msgproperty_run_t :=
  Msgproperty_run (msg_threshold r) (msg_cache r) x (redelivery_messages r) (unique_uuids r).
Definition set_redelivery (r : np_msgproperty_run_t) (x : gmap (list Z) np_redelivery_data_t) : np_msgproperty_run_t :=
  Msgproperty_run (msg_threshold r) (msg_cache r) (response_handler r) x (unique_uuids r).
Definition set_uuids (r : np_msgproperty_run_t) (x : gmap (list Z) Q) : np_msgproperty_run_t :=
  Msgproperty_run (msg_threshold r) (msg_cache r) (response_handler r) (redelivery_messages r) x.

(** An event for the current run: where it goes, its type and target, and what comes
    with it: a message, the copy of a message or a response container. *)
Inductive event_data := With_message (m : loc) | With_copy (m : np_e2e_message_t) | With_response (c : loc).
Record run_event := Run_event { ev_dhkey : np_dhkey_t; ev_type : Z; ev_target : np_dhkey_t; ev_data : event_data }.

(** ** New objects *)

Definition _np_msgproperty_conf_t_new (found : np_msgproperty_conf_t) (PRIORITY_MOD_USER_DEFAULT : Z) : np_msgproperty_conf_t :=
  Msgproperty_conf None (Z.lor OUTBOUND INBOUND) DEFAULT_TYPE ACK_NONE MSGPROPERTY_DEFAULT_MSG_TTL 3 MSGPROPERTY_DEFAULT_MAX_TTL_SEC
    MSGPROPERTY_DEFAULT_MIN_TTL_SEC (Z.lor FIFO OVERFLOW_PURGE) 16 2 false false NP_MX_AUD_PUBLIC dhkey_zero (reply_dhkey found) dhkey_zero
    dhkey_zero dhkey_zero.
Definition _np_msgproperty_run_t_new : np_msgproperty_run_t := Msgproperty_run 0 [] ∅ ∅ ∅.

(** ** Identifiers *)

Section Identifiers.
Context (__local_rx_dhkey __local_tx_dhkey : np_dhkey_t).

Definition _np_msgproperty_tweaked_dhkey (mode : Z) (subject : np_dhkey_t) : np_dhkey_t :=
  let result := dhkey_zero in
  let result := if mode =? INBOUND then _np_dhkey_add __local_rx_dhkey subject else result in
  if mode =? OUTBOUND then _np_dhkey_add __local_tx_dhkey subject else result.

Definition _np_msgproperty_dhkey (blake2b : list Z -> list Z) (mode : Z) (subject : list Z) : np_dhkey_t :=
  let _dhkey := _np_dhkey_generate_hash blake2b (take 256 (until_nul subject)) in
  let _dhkey := if mode =? INBOUND then _np_dhkey_add __local_rx_dhkey _dhkey else _dhkey in
  if mode =? OUTBOUND then _np_dhkey_add __local_tx_dhkey _dhkey else _dhkey.

End Identifiers.

(** ** Messages under way *)

Definition __np_msgproperty_threshold_increase (self_conf : np_msgproperty_conf_t) (self : np_msgproperty_run_t) : np_msgproperty_run_t :=
  if msg_threshold self <? max_threshold self_conf then set_threshold self (msg_threshold self + 1) else self.
Definition __np_msgproperty_threshold_breached (self_conf : np_msgproperty_conf_t) (self : np_msgproperty_run_t) : bool :=
  max_threshold self_conf <? msg_threshold self.
Definition __np_msgproperty_threshold_decrease (self_conf : np_msgproperty_conf_t) (self : np_msgproperty_run_t) : np_msgproperty_run_t :=
  if 0 <? msg_threshold self then set_threshold self (msg_threshold self - 1) else self.

(** ** Messages seen before *)

Definition expiry (m : np_e2e_message_t) : Q := _np_message_get_expiry (msg_tstamp m) (msg_ttl_sec m).
Definition expired (now : Q) (m : np_e2e_message_t) : bool := _np_message_is_expired now (msg_tstamp m) (msg_ttl_sec m).

Definition _np_msgproperty_check_msg_uniquety (self_conf : np_msgproperty_conf_t) (self_run : np_msgproperty_run_t)
    (msg_to_check : np_e2e_message_t) : bool * np_msgproperty_run_t :=
  if unique_uuids_check self_conf then
    match unique_uuids self_run !! msg_uuid msg_to_check with
    | None => (true, set_uuids self_run (<[msg_uuid msg_to_check := expiry msg_to_check]> (unique_uuids self_run)))
    | Some _ => (false, self_run)
    end
  else (true, self_run).

Definition _np_msgproperty_remove_msg_from_uniquety_list (self : np_msgproperty_run_t) (msg_to_remove : np_e2e_message_t)
    : np_msgproperty_run_t :=
  set_uuids self (delete (msg_uuid msg_to_remove) (unique_uuids self)).

Definition _np_msgproperty_job_msg_uniquety (now : Q) (self_conf : np_msgproperty_conf_t) (self_run : np_msgproperty_run_t)
    : np_msgproperty_run_t :=
  if unique_uuids_check self_conf then
    set_uuids self_run (filter (fun kv => Qltb kv.2 now = false) (unique_uuids self_run))
  else self_run.

(** ** Responses *)

(** The elements in the order of the tree. *)
Definition uuid_le {V} (a b : list Z * V) : Prop := chars_cmp a.1 b.1 <= 0.
#[export] Instance uuid_le_dec {V} (a b : list Z * V) : Decision (uuid_le a b).
Proof. unfold uuid_le. apply _. Defined.
Definition in_order {V} (m : gmap (list Z) V) : list (list Z * V) := merge_sort uuid_le (map_to_list m).

(** What a container that timed out or has its answer sends where. *)
Definition container_type (now : Q) (c : np_responsecontainer_t) : option Z :=
  if Qltb (container_expires_at c) now then Some (Z.lor evt_timeout evt_response)
  else if negb (Qeq_bool (received_at c) 0) then Some (Z.lor evt_internal evt_response)
  else None.
Definition container_events (known : np_dhkey_t -> bool) (type : Z) (p : loc) (current : np_responsecontainer_t) : list run_event :=
  (if negb (bool_decide (msg_dhkey current = dhkey_zero)) then [Run_event (msg_dhkey current) type (msg_dhkey current) (With_response p)] else []) ++
  (if negb (bool_decide (dest_dhkey current = dhkey_zero)) && known (dest_dhkey current) then
     [Run_event (dest_dhkey current) type (dest_dhkey current) (With_response p)] else []).

Fixpoint response_loop (now : Q) (known : np_dhkey_t -> bool) (containers : loc -> np_responsecontainer_t) (max_events : nat)
    (iter : list (list Z * loc)) {struct iter} : list run_event * list (list Z) :=
  match iter with
  | [] => ([], [])
  | (key, p) :: iter =>
      let '(evs, rm) :=
        match container_type now (containers p) with
        | Some type => (container_events known type p (containers p), [key])
        | None => ([], [])
        end in
      match max_events with
      | O => (evs, rm)
      | S max_events => let '(evs', rm') := response_loop now known containers max_events iter in (evs ++ evs', rm ++ rm')
      end
  end.

(** [known]: which keys are in the key cache. *)
Definition _np_msgproperty_cleanup_response_handler (now : Q) (known : np_dhkey_t -> bool) (containers : loc -> np_responsecontainer_t)
    (self : np_msgproperty_run_t) : np_msgproperty_run_t * list run_event :=
  let '(evs, to_remove) := response_loop now known containers (Z.to_nat (NP_PI_INT * 10)) (in_order (response_handler self)) in
  (set_responses self (foldl (fun m u => delete u m) (response_handler self) to_remove), evs).

(** ** The cache of messages *)

(** The node behind (in front of) a node; the node must be in the list. *)
Definition node_at (l : list dll_node) (n : loc) : result nat :=
  match list_find (fun x => x.1 = n) l with Some (i, _) => Ok i | None => Err Bad_access end.
Definition dll_next (l : list dll_node) (n : loc) : result (option loc) := i ← node_at l n; Ok (fst <$> l !! S i).
Definition dll_previous (l : list dll_node) (n : loc) : result (option loc) :=
  i ← node_at l n; Ok (match i with O => None | S i => fst <$> l !! i end).
Definition node_val (l : list dll_node) (n : loc) : result loc :=
  i ← node_at l n; match l !! i with Some x => Ok x.2 | None => Err Bad_access end.
(** [dll_remove] takes away the first node with the message. *)
Fixpoint dll_remove (l : list dll_node) (m : loc) : list dll_node :=
  match l with [] => [] | x :: l' => if decide (x.2 = m) then l' else x :: dll_remove l' m end.

(** The message the iterator is at, if it is wanted, and where the iterator goes. *)
Definition peek_at (conf : np_msgproperty_conf_t) (cache : list dll_node) (wanted : loc -> bool) (peek : option loc)
    : result (option loc * option loc) :=
  let visit (start : option loc) (go : list dll_node -> loc -> result (option loc)) :=
    let peek := match peek with Some _ => peek | None => start end in
    match peek with
    | None => Ok (None, None)
    | Some n => m ← node_val cache n; if wanted m then (p ← go cache n; Ok (p, Some m)) else Ok (peek, None)
    end in
  if FLAG_CMP (cache_policy conf) FIFO then visit (option_map fst (head cache)) dll_next
  else if FLAG_CMP (cache_policy conf) LIFO then visit (option_map fst (list.last cache)) dll_previous
  else Ok (peek, None).

(** The loop of [_np_msgproperty_check_msgcache] and [.._for]: what is sent for a
    message, and whether to stop after a round. *)
Fixpoint msgcache_loop (conf : np_msgproperty_conf_t) (wanted : loc -> bool) (send : loc -> list run_event) (stop : bool)
    (msg_visit_counter : nat) (peek : option loc) (cache : list dll_node) : result (list dll_node * list run_event) :=
  match msg_visit_counter with
  | O => Ok (cache, [])
  | S counter =>
      if negb (Z.of_nat msg_visit_counter <=? cache_size conf) then Ok (cache, [])
      else
        '(peek, msg) ← peek_at conf cache wanted peek;
        let '(cache, evs) := match msg with Some m => (dll_remove cache m, send m) | None => (cache, []) end in
        match peek with
        | None => Ok (cache, evs)
        | Some _ =>
            if stop then Ok (cache, evs)
            else '(cache, evs') ← msgcache_loop conf wanted send stop counter peek cache; Ok (cache, evs ++ evs')
        end
  end.

(** [my_dhkey]: the key the state machine belongs to; [has_session]: whether there is
    a session with this identifier. *)
Definition _np_msgproperty_check_msgcache (msgs : loc -> np_e2e_message_t) (my_dhkey : np_dhkey_t) (has_session : np_dhkey_t -> bool)
    (conf : np_msgproperty_conf_t) (run : np_msgproperty_run_t) : result (np_msgproperty_run_t * list run_event) :=
  let is_send := bool_decide (my_dhkey = subject_dhkey_out conf) in
  let is_recv := bool_decide (my_dhkey = subject_dhkey_in conf) in
  let send m :=
    (if is_send then [Run_event (subject_dhkey_out conf) (Z.lor evt_internal (Z.lor evt_userspace evt_message)) (msg_audience (msgs m)) (With_message m)] else []) ++
    (if is_recv then [Run_event (subject_dhkey_in conf) (Z.lor evt_external evt_message) (msg_audience (msgs m)) (With_message m)] else []) in
  '(cache, evs) ← msgcache_loop conf (fun m => has_session (msg_audience (msgs m))) send false (length (msg_cache run)) None (msg_cache run);
  Ok (set_cache run cache, evs).

Definition _np_msgproperty_check_msgcache_for (msgs : loc -> np_e2e_message_t) (has_session : np_dhkey_t -> bool) (target : np_dhkey_t)
    (conf : np_msgproperty_conf_t) (run : np_msgproperty_run_t) : result (np_msgproperty_run_t * list run_event) :=
  if negb (has_session target) then Ok (run, [])
  else
    let send m := [Run_event (subject_dhkey_in conf) (Z.lor evt_external evt_message) (msg_audience (msgs m)) (With_message m)] in
    '(cache, evs) ← msgcache_loop conf (fun m => bool_decide (msg_audience (msgs m) = target)) send
                     (__np_msgproperty_threshold_breached conf run) (length (msg_cache run)) None (msg_cache run);
    Ok (set_cache run cache, evs).

Definition _np_msgproperty_cleanup_cache (now : Q) (msgs : loc -> np_e2e_message_t) (run : np_msgproperty_run_t) : np_msgproperty_run_t :=
  set_cache run (List.filter (fun x => negb (expired now (msgs x.2))) (msg_cache run)).

(** [node]: the new node. *)
Definition __np_property_add_msg_to_cache (conf : np_msgproperty_conf_t) (run : np_msgproperty_run_t) (node message : loc)
    : np_msgproperty_run_t :=
  let append l := set_cache run (l ++ [(node, message)]) in
  if cache_size conf <=? Z.of_nat (length (msg_cache run)) then
    let cache :=
      if FLAG_CMP (cache_policy conf) OVERFLOW_PURGE then
        if FLAG_CMP (cache_policy conf) FIFO then tail (msg_cache run)
        else if FLAG_CMP (cache_policy conf) LIFO then removelast (msg_cache run)
        else msg_cache run
      else msg_cache run in
    if FLAG_CMP (cache_policy conf) OVERFLOW_REJECT then set_cache run cache else append cache
  else append (msg_cache run).

(** ** Sending again *)

Definition resend_interval (conf : np_msgproperty_conf_t) : Q := msg_ttl conf / inject_Z (retry conf + 1).

Definition redeliver (now : Q) (msgs : loc -> np_e2e_message_t) (conf : np_msgproperty_conf_t) (current : np_redelivery_data_t)
    : np_redelivery_data_t * list run_event :=
  if Qltb (redelivery_at current) now then
    let m := msgs (red_message current) in
    (Redelivery (red_target current) (redelivery_at current + resend_interval conf) (red_message current),
     [Run_event (subject_dhkey_out conf) (Z.lor evt_message evt_internal) (red_target current)
        (With_copy (E2e_message (msg_uuid m) (msg_audience m) (redelivery_at current) (msg_ttl_sec m) (msg_send_at m)))])
  else (current, []).

Definition __np_msgproperty_redeliver_messages (now : Q) (msgs : loc -> np_e2e_message_t) (conf : np_msgproperty_conf_t)
    (run : np_msgproperty_run_t) : np_msgproperty_run_t * list run_event :=
  (set_redelivery run ((fun d => (redeliver now msgs conf d).1) <$> redelivery_messages run),
   flat_map (fun e => (redeliver now msgs conf e.2).2) (in_order (redelivery_messages run))).

Definition __np_property_redelivery_set (msgs : loc -> np_e2e_message_t) (conf : np_msgproperty_conf_t) (run : np_msgproperty_run_t)
    (message : loc) (target : np_dhkey_t) : np_msgproperty_run_t :=
  let m := msgs message in
  match redelivery_messages run !! msg_uuid m with
  | Some _ => run
  | None =>
      let run := __np_msgproperty_threshold_increase conf run in
      set_redelivery run (<[msg_uuid m := Redelivery target (msg_send_at m + resend_interval conf) message]> (redelivery_messages run))
  end.

Definition __np_response_handler_set (containers : loc -> np_responsecontainer_t) (conf : np_msgproperty_conf_t)
    (run : np_msgproperty_run_t) (responsehandler : loc) : np_msgproperty_run_t :=
  let uuid := container_uuid (containers responsehandler) in
  if is_internal conf then
    match response_handler run !! uuid with
    | Some _ => run
    | None => set_responses run (<[uuid := responsehandler]> (response_handler run))
    end
  else
    match redelivery_messages run !! uuid with
    | Some _ => __np_msgproperty_threshold_decrease conf (set_redelivery run (delete uuid (redelivery_messages run)))
    | None => run
    end.

(** ** Handling messages *)

Section Callbacks.
(** The rest of the program's state; a callback may change it and the subject's. *)
Context {W : Type}.
Abbreviation callback := (np_msgproperty_run_t -> W -> bool * np_msgproperty_run_t * W).

Fixpoint run_callbacks (l : list (option callback)) (run : np_msgproperty_run_t) (w : W) : bool * np_msgproperty_run_t * W :=
  match l with
  | [] => (true, run, w)
  | None :: l => run_callbacks l run w
  | Some f :: l => let '(ok, run, w) := f run w in if (ok : bool) then run_callbacks l run w else (false, run, w)
  end.

(** Whether the message was handled and is counted; the events for messages that are
    taken from the cache afterwards. *)
Definition __np_property_handle_in_msg (msgs : loc -> np_e2e_message_t) (has_session : np_dhkey_t -> bool) (target : np_dhkey_t)
    (conf : np_msgproperty_conf_t) (callbacks : list (option callback)) (user_callbacks : list callback) (run : np_msgproperty_run_t) (w : W)
    (message : option loc) : result (bool * np_msgproperty_run_t * W * list run_event) :=
  let '(ret, run) := match message with
                     | Some m => _np_msgproperty_check_msg_uniquety conf run (msgs m)
                     | None => (true, run)
                     end in
  let run := __np_msgproperty_threshold_increase conf run in
  let '(ret, run, w) := if (ret : bool) then run_callbacks callbacks run w else (false, run, w) in
  '(ret, run, w) ←
    (if negb (is_internal conf) && negb (bool_decide (audience_type conf = NP_MX_AUD_VIRTUAL)) && ret then
       match message with
       | None => Err Assert_failed
       | Some _ => Ok (run_callbacks (map Some user_callbacks) run w)
       end
     else Ok (ret, run, w));
  let run := __np_msgproperty_threshold_decrease conf run in
  '(run, evs) ← (match msg_cache run with
                 | [] => Ok (run, [])
                 | _ => _np_msgproperty_check_msgcache_for msgs has_session target conf run
                 end);
  Ok (ret, run, w, evs).

(** Whether the message counts as sent. *)
Definition __np_property_handle_out_msg (conf : np_msgproperty_conf_t) (callbacks : list (option callback)) (user_callbacks : list callback)
    (run : np_msgproperty_run_t) (w : W) : bool * np_msgproperty_run_t * W :=
  let run := __np_msgproperty_threshold_increase conf run in
  let '(user_result, run, w) :=
    if negb (bool_decide (audience_type conf = NP_MX_AUD_VIRTUAL)) && negb (is_internal conf) then run_callbacks (map Some user_callbacks) run w
    else (true, run, w) in
  let '(user_result, run, w) := if (user_result : bool) then run_callbacks callbacks run w else (false, run, w) in
  let run := if FLAG_CMP (ack_mode conf) ACK_NONE then __np_msgproperty_threshold_decrease conf run else run in
  (user_result, run, w).

End Callbacks.
