(* ===== verification/MsgpropertyThms.v ===== *)
(** * Subjects at run time: what the functions of [np_comp_msgproperty.c] guarantee

    No message is handed on twice while it may still be under way; the count of
    messages under way stays within its bounds; the cache keeps its size and gives
    messages back in the order of its policy; messages are sent again until an answer
    comes or the wait ends, and not afterwards. *)
From Stdlib Require Import ZArith Lia QArith Lqa.
From stdpp Require Import prelude gmap fin_maps sorting functions.
From S2P Require Import Prelude Real Dhkey Sll Reassembly Chunk Token KeyStates Serial Intent TokenFactory Msgproperty.

Local Open Scope Z_scope.

(** ** Messages are accepted once *)

(** What happens to the list of identifiers. *)
Inductive uuid_op := Arrives (m : np_e2e_message_t) | Checked (now : Q).
Definition do_op (conf : np_msgproperty_conf_t) (run : np_msgproperty_run_t) (o : uuid_op) : np_msgproperty_run_t :=
  match o with
  | Arrives m => (_np_msgproperty_check_msg_uniquety conf run m).2
  | Checked now => _np_msgproperty_job_msg_uniquety now conf run
  end.
Definition not_after (e : Q) (o : uuid_op) : Prop := match o with Arrives _ => True | Checked now => (now <= e)%Q end.

Lemma uuid_kept conf run u e ops : unique_uuids_check conf = true -> unique_uuids run !! u = Some e -> Forall (not_after e) ops ->
  unique_uuids (foldl (do_op conf) run ops) !! u = Some e.
Proof.
  intros Hc Hu Ho. revert run Hu. induction Ho as [|o ops Ho _ IH]; intros run Hu; [done|]. cbn [foldl]. apply IH. destruct o as [m|now]; cbn [do_op].
  - unfold _np_msgproperty_check_msg_uniquety. rewrite Hc. destruct (unique_uuids run !! msg_uuid m) eqn:E; [done|]. cbn.
    rewrite lookup_insert_ne; [done|]. intros Eu. congruence.
  - unfold _np_msgproperty_job_msg_uniquety. rewrite Hc. cbn. apply map_lookup_filter_Some. split; [done|]. cbn. apply Qltb_ge. exact Ho.
Qed.

(** A message is accepted once: where identifiers are checked, a message that was
    accepted is refused for as long as it is not expired, whatever arrives in between
    and however often expired identifiers are removed; once a check finds it expired,
    and it was not seen again, its identifier is free.  Where they are not checked every
    message is accepted. *)
Theorem message_accepted_once conf run m run' :
  _np_msgproperty_check_msg_uniquety conf run m = (true, run') ->
  if unique_uuids_check conf then
    (forall ops m', Forall (not_after (expiry m)) ops -> msg_uuid m' = msg_uuid m ->
       (_np_msgproperty_check_msg_uniquety conf (foldl (do_op conf) run' ops) m').1 = false) /\
    (forall now m', (expiry m < now)%Q -> msg_uuid m' = msg_uuid m ->
       (_np_msgproperty_check_msg_uniquety conf (_np_msgproperty_job_msg_uniquety now conf run') m').1 = true)
  else forall run'' m', (_np_msgproperty_check_msg_uniquety conf run'' m').1 = true.
Proof.
  unfold _np_msgproperty_check_msg_uniquety. destruct (unique_uuids_check conf) eqn:Hc; [|done].
  destruct (unique_uuids run !! msg_uuid m) eqn:Eu; [done|]. intros [= <-]. split.
  - intros ops m' Ho Em. rewrite Em, (uuid_kept conf _ _ (expiry m)); [done|done| |done]. cbn. apply lookup_insert_eq.
  - intros now m' Hn Em. rewrite Em. unfold _np_msgproperty_job_msg_uniquety. rewrite Hc. cbn [unique_uuids set_uuids].
    assert (filter (fun kv : list Z * Q => Qltb kv.2 now = false) (<[msg_uuid m := expiry m]> (unique_uuids run)) !! msg_uuid m = None) as ->; [|done].
    apply map_lookup_filter_None. right. intros e E. rewrite lookup_insert_eq in E. injection E as <-. cbn. apply Qltb_lt in Hn. by rewrite Hn.
Qed.

(** ** The count of messages under way *)

Definition threshold_ok (conf : np_msgproperty_conf_t) (run : np_msgproperty_run_t) : Prop :=
  0 <= msg_threshold run <= max_threshold conf.

Lemma increase_ok conf run : threshold_ok conf run -> threshold_ok conf (__np_msgproperty_threshold_increase conf run).
Proof.
  unfold threshold_ok, __np_msgproperty_threshold_increase. intros Ht. destruct (Z.ltb_spec (msg_threshold run) (max_threshold conf)); cbn; lia.
Qed.
Lemma decrease_ok conf run : threshold_ok conf run -> threshold_ok conf (__np_msgproperty_threshold_decrease conf run).
Proof. unfold threshold_ok, __np_msgproperty_threshold_decrease. intros Ht. destruct (Z.ltb_spec 0 (msg_threshold run)); cbn; lia. Qed.
Lemma uniquety_threshold conf run m : msg_threshold (_np_msgproperty_check_msg_uniquety conf run m).2 = msg_threshold run.
Proof. unfold _np_msgproperty_check_msg_uniquety. destruct (unique_uuids_check conf); [|done]. by destruct (unique_uuids run !! msg_uuid m). Qed.
Lemma released_threshold msgs has_session target conf run run' evs :
  _np_msgproperty_check_msgcache_for msgs has_session target conf run = Ok (run', evs) -> msg_threshold run' = msg_threshold run.
Proof.
  unfold _np_msgproperty_check_msgcache_for. destruct (negb (has_session target)); [by intros [= <- <-]|].
  destruct (msgcache_loop _ _ _ _ _ _ _) as [[c e]|]; [|done]. rewrite bind_ok. by intros [= <- <-].
Qed.

Section Callbacks.
Context {W : Type}.
Abbreviation callback := (np_msgproperty_run_t -> W -> bool * np_msgproperty_run_t * W).

(** A callback leaves the count within its bounds. *)
Definition harmless (conf : np_msgproperty_conf_t) (f : callback) : Prop :=
  forall run w, threshold_ok conf run -> threshold_ok conf (f run w).1.2.

Lemma run_callbacks_ok conf (l : list (option callback)) run w :
  Forall (fun o => match o with Some f => harmless conf f | None => True end) l -> threshold_ok conf run ->
  threshold_ok conf (run_callbacks l run w).1.2.
Proof.
  intros Hl. revert run w. induction Hl as [|o l Ho _ IH]; intros run w Hr; [done|]. cbn [run_callbacks]. destruct o as [f|]; [|by apply IH].
  pose proof (Ho run w Hr) as Hf. destruct (f run w) as [[ok run'] w']. cbn in Hf. destruct ok; [by apply IH|done].
Qed.
Lemma user_callbacks_ok conf (l : list callback) run w : Forall (harmless conf) l -> threshold_ok conf run ->
  threshold_ok conf (run_callbacks (map Some l) run w).1.2.
Proof. intros Hl. apply run_callbacks_ok. by apply Forall_map. Qed.

(** The count of messages under way never leaves its bounds, so it never wraps, and
    never exceeds the maximum of the subject: the test for a breach, on which senders
    and receivers are held back, is never true. *)
Theorem threshold_bounded conf msgs containers has_session (callbacks : list (option callback)) (user_callbacks : list callback) run w :
  threshold_ok conf run ->
  Forall (fun o => match o with Some f => harmless conf f | None => True end) callbacks -> Forall (harmless conf) user_callbacks ->
  __np_msgproperty_threshold_breached conf run = false /\
  threshold_ok conf (__np_property_handle_out_msg conf callbacks user_callbacks run w).1.2 /\
  (forall target message ret run' w' evs,
     __np_property_handle_in_msg msgs has_session target conf callbacks user_callbacks run w message = Ok (ret, run', w', evs) ->
     threshold_ok conf run') /\
  (forall message target, threshold_ok conf (__np_property_redelivery_set msgs conf run message target)) /\
  (forall c, threshold_ok conf (__np_response_handler_set containers conf run c)).
Proof.
  intros Hr Hc Hu. split; [|split; [|split; [|split]]].
  - unfold __np_msgproperty_threshold_breached. destruct Hr. destruct (Z.ltb_spec (max_threshold conf) (msg_threshold run)); [lia|done].
  - unfold __np_property_handle_out_msg. pose proof (increase_ok conf run Hr) as H1.
    set (r1 := __np_msgproperty_threshold_increase conf run) in *.
    assert (forall u : bool, threshold_ok conf
      (if u then run_callbacks (map Some user_callbacks) r1 w else (true, r1, w)).1.2) as H2 by (intros []; [by apply user_callbacks_ok|done]).
    specialize (H2 (negb (bool_decide (audience_type conf = NP_MX_AUD_VIRTUAL)) && negb (is_internal conf))).
    destruct (if _ && _ then _ else _) as [[ok r2] w2]. cbn in H2.
    assert (threshold_ok conf (if ok then run_callbacks callbacks r2 w2 else (false, r2, w2)).1.2) as H3 by (destruct ok; [by apply run_callbacks_ok|done]).
    destruct (if ok then _ else _) as [[ok' r3] w3]. cbn in *. destruct (FLAG_CMP _ _); [by apply decrease_ok|done].
  - intros target message ret run' w' evs. unfold __np_property_handle_in_msg.
    assert (exists ret0 r0, (match message with Some m => _np_msgproperty_check_msg_uniquety conf run (msgs m) | None => (true, run) end) = (ret0, r0) /\
      threshold_ok conf r0) as (ret0 & r0 & -> & H0).
    { destruct message as [m|]; [|by do 2 eexists]. pose proof (uniquety_threshold conf run (msgs m)) as E.
      destruct (_np_msgproperty_check_msg_uniquety conf run (msgs m)) as [b r]. exists b, r. split; [done|]. unfold threshold_ok. cbn in E. by rewrite E. }
    pose proof (increase_ok conf r0 H0) as H1. set (r1 := __np_msgproperty_threshold_increase conf r0) in *.
    assert (threshold_ok conf (if ret0 then run_callbacks callbacks r1 w else (false, r1, w)).1.2) as H2 by (destruct ret0; [by apply run_callbacks_ok|done]).
    destruct (if ret0 then _ else _) as [[ok r2] w2]. cbn in H2.
    destruct (if _ && _ then _ else _) as [[[ok' r3] w3]|] eqn:E3; [|done].
    assert (threshold_ok conf r3) as H3.
    { destruct (negb _ && _ && ok); [|by injection E3 as <- <- <-]. destruct message; [|done].
      pose proof (user_callbacks_ok conf user_callbacks r2 w2 Hu H2) as H4. injection E3 as E3. by rewrite E3 in H4. }
    rewrite bind_ok. pose proof (decrease_ok conf r3 H3) as H5. set (r4 := __np_msgproperty_threshold_decrease conf r3) in *.
    destruct (msg_cache r4) as [|x l]; [rewrite bind_ok; by intros [= <- <- <- <-]|].
    destruct (_np_msgproperty_check_msgcache_for msgs has_session target conf r4) as [[r5 e5]|] eqn:E5; [|done]. rewrite bind_ok.
    intros [= <- <- <- <-]. unfold threshold_ok. by rewrite (released_threshold _ _ _ _ _ _ _ E5).
  - intros message target. unfold __np_property_redelivery_set. destruct (redelivery_messages run !! _); [done|]. by apply increase_ok.
  - intros c. unfold __np_response_handler_set. destruct (is_internal conf); [by destruct (response_handler run !! _)|].
    destruct (redelivery_messages run !! _); [|done]. by apply decrease_ok.
Qed.

End Callbacks.

(** At the maximum the count is not raised for a message but lowered after it: it
    drifts below the number of messages under way. *)
Lemma count_drifts conf run (w : unit) : 0 < max_threshold conf -> msg_threshold run = max_threshold conf -> FLAG_CMP (ack_mode conf) ACK_NONE = true ->
  msg_threshold (__np_property_handle_out_msg conf [] [] run w).1.2 = max_threshold conf - 1.
Proof.
  intros Hm Ht Ha. unfold __np_property_handle_out_msg, __np_msgproperty_threshold_increase. rewrite Ht, Z.ltb_irrefl.
  destruct (negb _ && _); cbn; rewrite Ha; unfold __np_msgproperty_threshold_decrease; rewrite Ht; destruct (Z.ltb_spec 0 (max_threshold conf)); try lia; done.
Qed.

(** ** The cache *)

Fixpoint take_while {A} (p : A -> bool) (l : list A) : list A := match l with x :: l => if p x then x :: take_while p l else [] | [] => [] end.
Fixpoint drop_while {A} (p : A -> bool) (l : list A) : list A := match l with x :: l' => if p x then drop_while p l' else l | [] => [] end.

(** Every node and every message is in the list once. *)
Definition proper_cache (l : list dll_node) : Prop := NoDup l.*1 /\ NoDup l.*2.

Lemma node_at_middle l1 x l2 : NoDup (l1 ++ x :: l2).*1 -> node_at (l1 ++ x :: l2) x.1 = Ok (length l1).
Proof.
  intros Hnd. unfold node_at. assert (list_find (fun y => y.1 = x.1) (l1 ++ x :: l2) = Some (length l1, x)) as ->; [|done].
  apply list_find_Some. split; [by apply list_lookup_middle|]. split; [done|]. intros j y Hj Hlt E.
  assert ((l1 ++ x :: l2).*1 !! j = Some x.1) as H1 by (by rewrite list_lookup_fmap, Hj, <-E).
  assert ((l1 ++ x :: l2).*1 !! length l1 = Some x.1) as H2 by (by rewrite list_lookup_fmap, list_lookup_middle).
  pose proof (NoDup_lookup _ _ _ _ Hnd H1 H2). lia.
Qed.
Lemma node_val_middle l1 x l2 : NoDup (l1 ++ x :: l2).*1 -> node_val (l1 ++ x :: l2) x.1 = Ok x.2.
Proof. intros Hnd. unfold node_val. by rewrite node_at_middle, bind_ok, list_lookup_middle by done. Qed.
Lemma dll_remove_middle l1 x l2 : NoDup (l1 ++ x :: l2).*2 -> dll_remove (l1 ++ x :: l2) x.2 = l1 ++ l2.
Proof.
  induction l1 as [|y l1 IH]; intros Hnd; cbn [app dll_remove]; [by rewrite decide_True|].
  cbn [app] in Hnd. rewrite fmap_cons in Hnd. apply list.NoDup_cons in Hnd as [Hy Hnd]. rewrite decide_False; [by rewrite IH|].
  intros E. apply Hy. rewrite fmap_app, fmap_cons, E. apply elem_of_app. right. left.
Qed.

(** The same at the head of the list. *)
Lemma node_at_head x l : NoDup (x :: l).*1 -> node_at (x :: l) x.1 = Ok 0%nat.
Proof. exact (node_at_middle [] x l). Qed.
Lemma node_val_head x l : NoDup (x :: l).*1 -> node_val (x :: l) x.1 = Ok x.2.
Proof. exact (node_val_middle [] x l). Qed.
Lemma dll_remove_head x l : NoDup (x :: l).*2 -> dll_remove (x :: l) x.2 = l.
Proof. exact (dll_remove_middle [] x l). Qed.

Lemma fifo_blocked conf wanted send x l peek counter : FLAG_CMP (cache_policy conf) FIFO = true -> proper_cache (x :: l) ->
  wanted x.2 = false -> peek = None \/ peek = Some x.1 -> msgcache_loop conf wanted send false counter peek (x :: l) = Ok (x :: l, []).
Proof.
  intros Hp [Hn _] Hw. revert peek. induction counter as [|counter IH]; intros peek Hpk; [done|]. cbn [msgcache_loop].
  destruct (negb _); [done|].
  assert (peek_at conf (x :: l) wanted peek = Ok (Some x.1, None)) as ->.
  { unfold peek_at. rewrite Hp. cbn [head option_map hd_error].
    replace (match peek with Some _ => peek | None => Some x.1 end) with (Some x.1) by (by destruct Hpk as [->| ->]).
    rewrite (node_val_head x l Hn), bind_ok, Hw. done. }
  rewrite bind_ok, IH by (by right). by rewrite bind_ok.
Qed.

Lemma fifo_loop conf wanted send counter : FLAG_CMP (cache_policy conf) FIFO = true -> Z.of_nat counter <= cache_size conf ->
  forall cache peek, proper_cache cache -> (length cache <= counter)%nat -> peek = None \/ peek = option_map fst (head cache) ->
  msgcache_loop conf wanted send false counter peek cache =
    Ok (drop_while (fun x => wanted x.2) cache, flat_map (fun x => send x.2) (take_while (fun x => wanted x.2) cache)).
Proof.
  intros Hp. induction counter as [|counter IH]; intros Hsz cache peek Hc Hl Hpk; [destruct cache; [done|cbn in Hl; lia]|].
  destruct cache as [|x l].
  { cbn [msgcache_loop]. destruct (negb _); [done|]. unfold peek_at. rewrite Hp. destruct Hpk as [->| ->]; done. }
  destruct (wanted x.2) eqn:Hw; [|rewrite fifo_blocked by (done || (destruct Hpk; auto)); cbn [drop_while take_while]; by rewrite Hw].
  cbn [msgcache_loop drop_while take_while]. rewrite Hw. destruct (Z.leb_spec (Z.of_nat (S counter)) (cache_size conf)); [|lia]. cbn [negb].
  assert (peek_at conf (x :: l) wanted peek = Ok (option_map fst (head l), Some x.2)) as ->.
  { unfold peek_at. rewrite Hp. cbn [head option_map hd_error].
    replace (match peek with Some _ => peek | None => Some x.1 end) with (Some x.1) by (by destruct Hpk as [->| ->]).
    rewrite (node_val_head x l) by apply Hc. rewrite bind_ok, Hw. unfold dll_next. rewrite (node_at_head x l) by apply Hc.
    rewrite !bind_ok. by destruct l. }
  rewrite bind_ok. rewrite (dll_remove_head x l) by apply Hc.
  assert (proper_cache l) as Hc'.
  { destruct Hc as [H1 H2]. rewrite fmap_cons in H1, H2. apply list.NoDup_cons in H1 as [_ H1]. by apply list.NoDup_cons in H2 as [_ H2]. }
  cbn [length] in Hl. destruct l as [|y l]; [cbn; by rewrite app_nil_r|]. cbn [head hd_error option_map].
  rewrite IH; [|lia|done|cbn; cbn in Hl; lia|by right]. by rewrite bind_ok.
Qed.

Lemma lifo_blocked conf wanted send x l peek counter : FLAG_CMP (cache_policy conf) FIFO = false -> FLAG_CMP (cache_policy conf) LIFO = true ->
  proper_cache (l ++ [x]) ->
  wanted x.2 = false -> peek = None \/ peek = Some x.1 -> msgcache_loop conf wanted send false counter peek (l ++ [x]) = Ok (l ++ [x], []).
Proof.
  intros Hf Hp [Hn _] Hw. revert peek. induction counter as [|counter IH]; intros peek Hpk; [done|]. cbn [msgcache_loop].
  destruct (negb _); [done|].
  assert (peek_at conf (l ++ [x]) wanted peek = Ok (Some x.1, None)) as ->.
  { unfold peek_at. rewrite Hf, Hp, last_snoc. cbn [option_map].
    replace (match peek with Some _ => peek | None => Some x.1 end) with (Some x.1) by (by destruct Hpk as [->| ->]).
    rewrite (node_val_middle l x [] Hn), bind_ok, Hw. done. }
  rewrite bind_ok, IH by (by right). by rewrite bind_ok.
Qed.

Lemma drop_while_snoc {A} (p : A -> bool) l x : p x = true -> drop_while p (reverse (l ++ [x])) = drop_while p (reverse l) /\
  take_while p (reverse (l ++ [x])) = x :: take_while p (reverse l).
Proof. intros Hx. rewrite reverse_snoc. cbn. by rewrite Hx. Qed.

Lemma lifo_loop conf wanted send counter : FLAG_CMP (cache_policy conf) FIFO = false -> FLAG_CMP (cache_policy conf) LIFO = true ->
  Z.of_nat counter <= cache_size conf ->
  forall cache peek, proper_cache cache -> (length cache <= counter)%nat -> peek = None \/ peek = option_map fst (list.last cache) ->
  msgcache_loop conf wanted send false counter peek cache =
    Ok (reverse (drop_while (fun x => wanted x.2) (reverse cache)), flat_map (fun x => send x.2) (take_while (fun x => wanted x.2) (reverse cache))).
Proof.
  intros Hf Hp. induction counter as [|counter IH]; intros Hsz cache peek Hc Hl Hpk; [destruct cache; [done|cbn in Hl; lia]|].
  destruct cache as [|x l _] using rev_ind.
  { cbn [msgcache_loop]. destruct (negb _); [done|]. unfold peek_at. rewrite Hf, Hp. destruct Hpk as [->| ->]; done. }
  rewrite last_snoc in Hpk. cbn [option_map] in Hpk. rewrite length_app in Hl. cbn [length] in Hl.
  destruct (wanted x.2) eqn:Hw.
  2: { rewrite lifo_blocked by done. rewrite reverse_snoc. cbn [drop_while take_while]. rewrite Hw. cbn [flat_map]. by rewrite reverse_cons, reverse_involutive. }
  destruct (drop_while_snoc (fun x => wanted x.2) l x Hw) as [-> ->].
  cbn [msgcache_loop]. destruct (Z.leb_spec (Z.of_nat (S counter)) (cache_size conf)); [|lia]. cbn [negb].
  assert (peek_at conf (l ++ [x]) wanted peek = Ok (option_map fst (list.last l), Some x.2)) as ->.
  { unfold peek_at. rewrite Hf, Hp, last_snoc. cbn [option_map].
    replace (match peek with Some _ => peek | None => Some x.1 end) with (Some x.1) by (by destruct Hpk as [->| ->]).
    rewrite (node_val_middle l x []) by apply Hc. rewrite bind_ok, Hw. unfold dll_previous. rewrite (node_at_middle l x []) by apply Hc.
    rewrite !bind_ok. destruct l as [|y l _] using rev_ind; [done|]. rewrite length_app, last_snoc. cbn [length].
    replace (length l + 1)%nat with (S (length l)) by lia. rewrite lookup_app_l by (rewrite length_app; cbn; lia). by rewrite list_lookup_middle. }
  rewrite bind_ok. rewrite (dll_remove_middle l x []) by apply Hc. rewrite app_nil_r.
  assert (proper_cache l) as Hc'.
  { destruct Hc as [H1 H2]. rewrite fmap_app in H1, H2. apply list.NoDup_app in H1 as [H1 _]. by apply list.NoDup_app in H2 as [H2 _]. }
  destruct l as [|y l _] using rev_ind; [cbn; by rewrite app_nil_r|]. rewrite last_snoc. cbn [option_map flat_map].
  rewrite IH; [|lia|done|lia|right; by rewrite last_snoc]. by rewrite bind_ok.
Qed.

(** What is released of a cache and what stays, by the policy. *)
Definition released (conf : np_msgproperty_conf_t) (wanted : loc -> bool) (cache : list dll_node) : list loc * list dll_node :=
  let w := fun x : dll_node => wanted x.2 in
  if FLAG_CMP (cache_policy conf) FIFO then ((take_while w cache).*2, drop_while w cache)
  else ((take_while w (reverse cache)).*2, reverse (drop_while w (reverse cache))).
Definition policy_ok (conf : np_msgproperty_conf_t) : Prop :=
  FLAG_CMP (cache_policy conf) FIFO = true \/ FLAG_CMP (cache_policy conf) LIFO = true.

Lemma flat_map_snd {B} (f : loc -> list B) (l : list dll_node) : flat_map (fun x => f x.2) l = flat_map f l.*2.
Proof. induction l as [|x l IH]; [done|]. cbn. by rewrite IH. Qed.

Lemma release_loop conf wanted send cache : policy_ok conf -> proper_cache cache -> Z.of_nat (length cache) <= cache_size conf ->
  msgcache_loop conf wanted send false (length cache) None cache =
    Ok ((released conf wanted cache).2, flat_map send (released conf wanted cache).1).
Proof.
  intros Hp Hc Hl. unfold released. destruct (FLAG_CMP (cache_policy conf) FIFO) eqn:Hf; cbn [fst snd]; rewrite <-flat_map_snd.
  - apply fifo_loop; auto.
  - destruct Hp as [?|Hp]; [congruence|]. apply lifo_loop; auto.
Qed.

(** The messages are divided, none is lost or doubled, and the first that stays is not
    wanted. *)
Lemma released_divides conf wanted cache : let '(out, rest) := released conf wanted cache in
  out ++ rest.*2 ≡ₚ cache.*2 /\ Forall (fun m => wanted m = true) out /\
  forall x, (if FLAG_CMP (cache_policy conf) FIFO then head rest else list.last rest) = Some x -> wanted x.2 = false.
Proof.
  unfold released. set (w := fun x : dll_node => wanted x.2).
  assert (forall l, (take_while w l).*2 ++ (drop_while w l).*2 = l.*2 /\ Forall (fun m => wanted m = true) (take_while w l).*2 /\
    (forall x, head (drop_while w l) = Some x -> wanted x.2 = false)) as Hs.
  { induction l as [|x l (IH1 & IH2 & IH3)]; [done|]. cbn [take_while drop_while]. destruct (w x) eqn:E; cbn; [|by split; [|split; [|intros y [= <-]]]].
    split; [by rewrite IH1|]. split; [by apply list.Forall_cons|done]. }
  destruct (FLAG_CMP (cache_policy conf) FIFO).
  - destruct (Hs cache) as (H1 & H2 & H3). split; [by rewrite H1|done].
  - destruct (Hs (reverse cache)) as (H1 & H2 & H3). split; [|split; [done|]].
    + rewrite fmap_reverse, (reverse_Permutation (drop_while w (reverse cache)).*2), H1, fmap_reverse. apply reverse_Permutation.
    + intros x. rewrite last_reverse. apply H3.
Qed.

(** Waiting messages: whenever the cache is looked through, the messages at the front
    (first in, first out) or at the end (last in, first out) for which the session keys
    are there are sent on in this order, up to the first for which they are not; the
    others stay as they are.  None is lost and none sent twice. *)
Theorem waiting_messages_released msgs my_dhkey has_session target conf run :
  policy_ok conf -> proper_cache (msg_cache run) -> Z.of_nat (length (msg_cache run)) <= cache_size conf -> threshold_ok conf run ->
  subject_dhkey_in conf ≠ subject_dhkey_out conf ->
  let known := fun m => has_session (msg_audience (msgs m)) in
  let of_target := fun m => bool_decide (msg_audience (msgs m) = target) in
  let out_event := fun m => Run_event (subject_dhkey_out conf) (Z.lor evt_internal (Z.lor evt_userspace evt_message)) (msg_audience (msgs m)) (With_message m) in
  let in_event := fun m => Run_event (subject_dhkey_in conf) (Z.lor evt_external evt_message) (msg_audience (msgs m)) (With_message m) in
  (my_dhkey = subject_dhkey_out conf ->
     _np_msgproperty_check_msgcache msgs my_dhkey has_session conf run =
       Ok (set_cache run (released conf known (msg_cache run)).2, map out_event (released conf known (msg_cache run)).1)) /\
  (my_dhkey = subject_dhkey_in conf ->
     _np_msgproperty_check_msgcache msgs my_dhkey has_session conf run =
       Ok (set_cache run (released conf known (msg_cache run)).2, map in_event (released conf known (msg_cache run)).1)) /\
  _np_msgproperty_check_msgcache_for msgs has_session target conf run =
    (if has_session target then
       Ok (set_cache run (released conf of_target (msg_cache run)).2, map in_event (released conf of_target (msg_cache run)).1)
     else Ok (run, [])) /\
  forall wanted, (released conf wanted (msg_cache run)).1 ++ (released conf wanted (msg_cache run)).2.*2 ≡ₚ (msg_cache run).*2.
Proof.
  intros Hp Hc Hl Ht Hne known of_target out_event in_event.
  assert (forall (f : loc -> run_event) l, flat_map (fun m => [f m]) l = map f l) as Hfm.
  { intros f l. induction l as [|x l IH]; [done|]. cbn. by rewrite IH. }
  split; [|split; [|split]].
  - intros ->. unfold _np_msgproperty_check_msgcache. rewrite (bool_decide_eq_true_2 (_ = _)) by done.
    rewrite bool_decide_eq_false_2 by congruence. rewrite release_loop by done. rewrite bind_ok. by rewrite <-Hfm.
  - intros ->. unfold _np_msgproperty_check_msgcache. rewrite bool_decide_eq_false_2 by congruence.
    rewrite (bool_decide_eq_true_2 (_ = _)) by done. rewrite release_loop by done. rewrite bind_ok. by rewrite <-Hfm.
  - unfold _np_msgproperty_check_msgcache_for. destruct (has_session target); [|done]. cbn [negb].
    assert (__np_msgproperty_threshold_breached conf run = false) as ->.
    { unfold __np_msgproperty_threshold_breached. destruct Ht. destruct (Z.ltb_spec (max_threshold conf) (msg_threshold run)); [lia|done]. }
    rewrite release_loop by done. rewrite bind_ok. by rewrite <-Hfm.
  - intros wanted. pose proof (released_divides conf wanted (msg_cache run)) as Hd. destruct (released conf wanted (msg_cache run)) as [out rest]. apply Hd.
Qed.

(** The cache keeps its size: with one of the four policies it never holds more than its
    size (or one message, when its size is zero); a new message is the last one; when the cache
    is full it is refused, or the oldest message (first in, first out) or the newest (last
    in, first out) makes way. *)
Theorem cache_add_spec conf run node message :
  0 <= cache_size conf -> let cache' := msg_cache (__np_property_add_msg_to_cache conf run node message) in
  (Z.of_nat (length (msg_cache run)) < cache_size conf -> cache' = msg_cache run ++ [(node, message)]) /\
  (cache_size conf <= Z.of_nat (length (msg_cache run)) ->
     (cache_policy conf = Z.lor FIFO OVERFLOW_REJECT \/ cache_policy conf = Z.lor LIFO OVERFLOW_REJECT -> cache' = msg_cache run) /\
     (cache_policy conf = Z.lor FIFO OVERFLOW_PURGE -> cache' = tail (msg_cache run) ++ [(node, message)]) /\
     (cache_policy conf = Z.lor LIFO OVERFLOW_PURGE -> cache' = removelast (msg_cache run) ++ [(node, message)])) /\
  (cache_policy conf ∈ [Z.lor FIFO OVERFLOW_REJECT; Z.lor LIFO OVERFLOW_REJECT; Z.lor FIFO OVERFLOW_PURGE; Z.lor LIFO OVERFLOW_PURGE] ->
     Z.of_nat (length (msg_cache run)) <= Z.max 1 (cache_size conf) -> Z.of_nat (length cache') <= Z.max 1 (cache_size conf)).
Proof.
  intros Hs cache'. unfold cache', __np_property_add_msg_to_cache.
  assert (forall l : list dll_node, length (removelast l) = (length l - 1)%nat) as Hrl.
  { intros l. destruct l as [|x l _] using rev_ind; [done|]. rewrite removelast_last, length_app. cbn. lia. }
  assert (forall l : list dll_node, length (tail l) = (length l - 1)%nat) as Htl by (intros [|x l]; cbn; lia).
  destruct (Z.leb_spec (cache_size conf) (Z.of_nat (length (msg_cache run)))).
  - split; [lia|]. split.
    + intros _. split; [intros [->| ->]; reflexivity|]. split; intros ->; reflexivity.
    + intros Hpol Hl. repeat (apply elem_of_cons in Hpol as [->|Hpol]); [..|by apply elem_of_nil in Hpol];
        repeat match goal with |- context [FLAG_CMP ?a ?b] => let v := eval vm_compute in (FLAG_CMP a b) in change (FLAG_CMP a b) with v end;
        cbn [msg_cache set_cache]; rewrite ?length_app, ?Hrl, ?Htl; cbn [length]; lia.
  - split; [done|]. split; [lia|]. intros _ _. cbn. rewrite length_app. cbn. lia.
Qed.

(** ** Where the cache goes wrong *)

(** A message whose session is missing holds back all behind it. *)
Lemma first_message_blocks conf wanted send x l : FLAG_CMP (cache_policy conf) FIFO = true -> proper_cache (x :: l) -> wanted x.2 = false ->
  msgcache_loop conf wanted send false (length (x :: l)) None (x :: l) = Ok (x :: l, []).
Proof. intros Hp Hc Hw. apply fifo_blocked; auto. Qed.

(** A cache that outgrew its size, because the size was made smaller, is not looked
    through any more. *)
Lemma outgrown_cache_stuck conf wanted send stop peek cache : cache_size conf < Z.of_nat (length cache) ->
  msgcache_loop conf wanted send stop (length cache) peek cache = Ok (cache, []).
Proof.
  intros Hs. destruct cache as [|x l]; [done|]. cbn [length msgcache_loop].
  destruct (Z.leb_spec (Z.of_nat (S (length l))) (cache_size conf)); [cbn [length] in Hs; lia|done].
Qed.

(** With last in, first out, a message that is in the cache twice is removed at the
    other place, and the iterator is left at a node that is gone. *)
Lemma message_twice_dangles conf send : cache_policy conf = Z.lor LIFO OVERFLOW_PURGE -> cache_size conf = 16 ->
  msgcache_loop conf (fun _ => true) send false 2 None [(1%positive, 7%positive); (2%positive, 7%positive)] = Err Bad_access.
Proof. intros Hp Hs. unfold msgcache_loop, peek_at. rewrite Hp, Hs. reflexivity. Qed.

(** ** Sending again *)

Lemma in_order_permutation {V} (m : gmap (list Z) V) : in_order m ≡ₚ map_to_list m.
Proof. apply merge_sort_Permutation. Qed.
Lemma in_order_elem {V} (m : gmap (list Z) V) u v : (u, v) ∈ in_order m <-> m !! u = Some v.
Proof. rewrite in_order_permutation. apply elem_of_map_to_list. Qed.
Lemma in_order_keys {V} (m : gmap (list Z) V) : NoDup (in_order m).*1.
Proof. rewrite in_order_permutation. apply NoDup_fst_map_to_list. Qed.
Lemma in_order_length {V} (m : gmap (list Z) V) : length (in_order m) = size m.
Proof. rewrite in_order_permutation. apply length_map_to_list. Qed.

(** The entries are filed under the identifiers of their messages. *)
Definition redelivery_ok (msgs : loc -> np_e2e_message_t) (run : np_msgproperty_run_t) : Prop :=
  forall u d, redelivery_messages run !! u = Some d -> msg_uuid (msgs (red_message d)) = u.

Definition due (now : Q) (d : np_redelivery_data_t) : bool := Qltb (redelivery_at d) now.
Definition resend_event (msgs : loc -> np_e2e_message_t) (conf : np_msgproperty_conf_t) (d : np_redelivery_data_t) : run_event :=
  let m := msgs (red_message d) in
  Run_event (subject_dhkey_out conf) (Z.lor evt_message evt_internal) (red_target d)
    (With_copy (E2e_message (msg_uuid m) (msg_audience m) (redelivery_at d) (msg_ttl_sec m) (msg_send_at m))).
Definition event_uuid (e : run_event) : list Z := match ev_data e with With_copy m => msg_uuid m | _ => [] end.

(** One round: every message that is due is sent once and put off by one interval. *)
Lemma redeliver_round now msgs conf run : redelivery_ok msgs run ->
  let '(run', evs) := __np_msgproperty_redeliver_messages now msgs conf run in
  redelivery_ok msgs run' /\ NoDup (event_uuid <$> evs) /\
  (forall e, e ∈ evs <-> exists u d, redelivery_messages run !! u = Some d /\ due now d = true /\ e = resend_event msgs conf d) /\
  (forall u, redelivery_messages run' !! u =
     (fun d => if due now d then Redelivery (red_target d) (redelivery_at d + resend_interval conf) (red_message d) else d) <$> redelivery_messages run !! u).
Proof.
  intros Hok. unfold __np_msgproperty_redeliver_messages. cbn [redelivery_messages set_redelivery].
  assert (forall u, ((fun d => (redeliver now msgs conf d).1) <$> redelivery_messages run) !! u =
     (fun d => if due now d then Redelivery (red_target d) (redelivery_at d + resend_interval conf) (red_message d) else d) <$> redelivery_messages run !! u) as Hl.
  { intros u. rewrite lookup_fmap. destruct (redelivery_messages run !! u) as [d|]; [|done]. cbn. unfold redeliver, due. by destruct (Qltb _ _). }
  split; [|split; [|split; [|exact Hl]]].
  - intros u d E. cbn [redelivery_messages set_redelivery] in E. rewrite Hl in E. destruct (redelivery_messages run !! u) as [d0|] eqn:E0; [|done].
    cbn in E. injection E as <-. rewrite <-(Hok u d0 E0). by destruct (due now d0).
  - pose proof (in_order_keys (redelivery_messages run)) as Hnd.
    assert (forall u d, (u, d) ∈ in_order (redelivery_messages run) -> msg_uuid (msgs (red_message d)) = u) as Hu by (intros u d E; by apply Hok, in_order_elem).
    induction (in_order (redelivery_messages run)) as [|[u d] l IH]; [apply NoDup_nil_2|]. rewrite fmap_cons in Hnd. apply list.NoDup_cons in Hnd as [Hin Hnd].
    cbn [flat_map]. specialize (IH Hnd (fun u' d' E => Hu u' d' (list_elem_of_further _ _ _ E))). cbn [snd]. unfold redeliver at 1.
    destruct (Qltb (redelivery_at d) now); [|done]. cbn [snd app]. rewrite fmap_cons. apply list.NoDup_cons. split; [|done].
    rewrite list_elem_of_fmap. intros (e & Ee & He). apply list_elem_of_In, in_flat_map in He as ([u' d'] & He' & He).
    apply list_elem_of_In in He'. unfold redeliver in He. cbn [snd] in He. destruct (Qltb (redelivery_at d') now); [|done]. destruct He as [<-|[]].
    cbn in Ee. rewrite (Hu u d) in Ee by left. rewrite (Hu u' d') in Ee by (right; exact He'). subst u'. apply Hin. apply list_elem_of_fmap. by exists (u, d').
  - intros e. rewrite list_elem_of_In, in_flat_map. split.
    + intros ([u d] & Hin & He). apply list_elem_of_In, in_order_elem in Hin. cbn [snd] in He. unfold redeliver in He.
      destruct (Qltb (redelivery_at d) now) eqn:Ed; [|done]. destruct He as [<-|[]]. by exists u, d.
    + intros (u & d & E & Ed & ->). exists (u, d). split; [by apply list_elem_of_In, in_order_elem|]. unfold redeliver. cbn [snd]. unfold due in Ed. rewrite Ed. by left.
Qed.

(** How often a message is sent in a list of events. *)
Definition copies (u : list Z) (evs : list run_event) : nat := length (List.filter (fun e => bool_decide (event_uuid e = u)) evs).

Lemma copies_app u a b : copies u (a ++ b) = (copies u a + copies u b)%nat.
Proof. unfold copies. by rewrite List.filter_app, length_app. Qed.
Lemma copies_none u evs : u ∉ event_uuid <$> evs -> copies u evs = 0%nat.
Proof.
  intros Hn. induction evs as [|e evs IH]; [done|]. rewrite fmap_cons in Hn. apply not_elem_of_cons in Hn as [He Hn].
  unfold copies. cbn [List.filter]. rewrite bool_decide_eq_false_2 by congruence. by apply IH.
Qed.
Lemma copies_one u evs : NoDup (event_uuid <$> evs) -> u ∈ event_uuid <$> evs -> copies u evs = 1%nat.
Proof.
  induction evs as [|e evs IH]; intros Hnd Hin; [by apply elem_of_nil in Hin|]. rewrite fmap_cons in Hnd, Hin.
  apply list.NoDup_cons in Hnd as [He Hnd]. unfold copies. cbn [List.filter]. apply elem_of_cons in Hin as [->|Hin].
  - rewrite bool_decide_eq_true_2 by done. cbn [length]. f_equal. by apply copies_none.
  - rewrite bool_decide_eq_false_2 by (intros E; apply He; by rewrite E). by apply IH.
Qed.

Lemma round_copies now msgs conf run u : redelivery_ok msgs run ->
  copies u (__np_msgproperty_redeliver_messages now msgs conf run).2 =
    match redelivery_messages run !! u with Some d => if due now d then 1%nat else 0%nat | None => 0%nat end.
Proof.
  intros Hok. pose proof (redeliver_round now msgs conf run Hok) as Hr.
  destruct (__np_msgproperty_redeliver_messages now msgs conf run) as [run' evs]. destruct Hr as (_ & Hnd & Hin & _). cbn [snd].
  assert (u ∈ event_uuid <$> evs <-> exists d, redelivery_messages run !! u = Some d /\ due now d = true) as Hu.
  { rewrite list_elem_of_fmap. split.
    - intros (e & -> & He). apply Hin in He as (u' & d & E & Ed & ->). exists d. cbn. by rewrite (Hok u' d E).
    - intros (d & E & Ed). exists (resend_event msgs conf d). split; [cbn; by rewrite (Hok u d E)|]. apply Hin. by exists u, d. }
  destruct (redelivery_messages run !! u) as [d|].
  - destruct (due now d) eqn:Ed; [apply copies_one; [done|]; apply Hu; by exists d|]. apply copies_none. rewrite Hu. intros (d' & E & Ed'). congruence.
  - apply copies_none. rewrite Hu. by intros (d' & E & _).
Qed.

(** Several rounds and everything that is sent in them. *)
Fixpoint rounds (msgs : loc -> np_e2e_message_t) (conf : np_msgproperty_conf_t) (nows : list Q) (run : np_msgproperty_run_t)
    : np_msgproperty_run_t * list run_event :=
  match nows with
  | [] => (run, [])
  | now :: nows =>
      let '(run, evs) := __np_msgproperty_redeliver_messages now msgs conf run in
      let '(run, evs') := rounds msgs conf nows run in (run, evs ++ evs')
  end.

Lemma rounds_absent msgs conf nows u : forall run, redelivery_ok msgs run -> redelivery_messages run !! u = None ->
  copies u (rounds msgs conf nows run).2 = 0%nat.
Proof.
  induction nows as [|now nows IH]; intros run Hok Hu; [done|]. cbn [rounds].
  pose proof (round_copies now msgs conf run u Hok) as Hc. pose proof (redeliver_round now msgs conf run Hok) as Hr.
  destruct (__np_msgproperty_redeliver_messages now msgs conf run) as [run' evs]. destruct Hr as (Hok' & _ & _ & Hl).
  specialize (IH run' Hok'). specialize (Hl u). rewrite Hu in Hl, Hc. cbn [fmap option_fmap option_map] in Hl. cbn [snd] in Hc. specialize (IH Hl).
  destruct (rounds msgs conf nows run') as [run'' evs']. cbn [snd] in *. by rewrite copies_app, Hc, IH.
Qed.

Lemma rounds_entry msgs conf nows u s : forall run d n, redelivery_ok msgs run -> redelivery_messages run !! u = Some d ->
  (redelivery_at d == s + inject_Z (n + 1) * resend_interval conf)%Q -> 0 <= n ->
  let '(run', evs) := rounds msgs conf nows run in
  redelivery_ok msgs run' /\
  exists d', redelivery_messages run' !! u = Some d' /\ red_message d' = red_message d /\ red_target d' = red_target d /\
    (redelivery_at d' == s + inject_Z (n + Z.of_nat (copies u evs) + 1) * resend_interval conf)%Q /\
    forall e : Q, Forall (fun now => now <= e)%Q nows -> (0 < copies u evs)%nat ->
      (s + inject_Z (n + Z.of_nat (copies u evs)) * resend_interval conf < e)%Q.
Proof.
  induction nows as [|now nows IH]; intros run d n Hok Hu Hat Hn; cbn [rounds].
  { split; [done|]. exists d. split; [done|]. split; [done|]. split; [done|]. split; [|cbn; lia]. cbn. by rewrite Z.add_0_r. }
  pose proof (round_copies now msgs conf run u Hok) as Hc. pose proof (redeliver_round now msgs conf run Hok) as Hr.
  destruct (__np_msgproperty_redeliver_messages now msgs conf run) as [run' evs]. destruct Hr as (Hok' & _ & _ & Hl).
  specialize (Hl u). rewrite Hu in Hl, Hc. cbn [fmap option_fmap option_map] in Hl. cbn [snd] in Hc.
  destruct (due now d) eqn:Ed.
  - specialize (IH run' _ (n + 1) Hok' Hl).
    assert (redelivery_at d + resend_interval conf == s + inject_Z (n + 1 + 1) * resend_interval conf)%Q as Hat'.
    { rewrite Hat, !inject_Z_plus. ring. }
    specialize (IH Hat' ltac:(lia)). destruct (rounds msgs conf nows run') as [run'' evs']. destruct IH as (Hok'' & d' & E & Em & Et & Ea & Hb).
    split; [done|]. exists d'. rewrite copies_app, Hc. split; [done|]. split; [done|]. split; [done|].
    replace (n + Z.of_nat (1 + copies u evs')) with (n + 1 + Z.of_nat (copies u evs')) by lia. split; [done|].
    intros e He _. apply list.Forall_cons in He as [He Hes]. destruct (decide (copies u evs' = 0%nat)) as [E0|E0]; [|apply Hb; [done|lia]].
    rewrite E0. change (Z.of_nat 0) with 0. rewrite Z.add_0_r. unfold due in Ed. apply Qltb_lt in Ed. rewrite <-Hat.
    by apply (Qlt_le_trans _ now).
  - specialize (IH run' _ n Hok' Hl Hat Hn). destruct (rounds msgs conf nows run') as [run'' evs']. destruct IH as (Hok'' & d' & E & Em & Et & Ea & Hb).
    split; [done|]. exists d'. rewrite copies_app, Hc. split; [done|]. split; [done|]. split; [done|]. split; [done|].
    intros e He. apply list.Forall_cons in He as [He Hes]. by apply Hb.
Qed.

(** A message for which an answer is expected is sent again in regular intervals: by any
    time within its time to live no more than [retry] times, to the same target and
    with the time of the repetition as its time stamp; once the answer, or the news
    that none came, has been handled it is not sent again. *)
Theorem messages_resent msgs containers conf run message target nows :
  let u := msg_uuid (msgs message) in let sent := msg_send_at (msgs message) in
  redelivery_ok msgs run -> redelivery_messages run !! u = None -> (0 < msg_ttl conf)%Q -> 0 <= retry conf ->
  Forall (fun now => now <= sent + msg_ttl conf)%Q nows ->
  let '(run', evs) := rounds msgs conf nows (__np_property_redelivery_set msgs conf run message target) in
  Z.of_nat (copies u evs) <= retry conf /\
  (exists d, redelivery_messages run' !! u = Some d /\ red_message d = message /\ red_target d = target /\
     (redelivery_at d == sent + inject_Z (Z.of_nat (copies u evs) + 1) * resend_interval conf)%Q) /\
  forall c nows', is_internal conf = false -> container_uuid (containers c) = u ->
    copies u (rounds msgs conf nows' (__np_response_handler_set containers conf run' c)).2 = 0%nat.
Proof.
  intros u sent Hok Hu Htt Hre Hnows. unfold __np_property_redelivery_set. cbv zeta. fold u. rewrite Hu. fold sent.
  set (run1 := __np_msgproperty_threshold_increase conf run).
  assert (redelivery_messages run1 = redelivery_messages run) as E1 by (unfold run1, __np_msgproperty_threshold_increase; by destruct (_ <? _)).
  set (d0 := Redelivery target (sent + resend_interval conf) message).
  set (run0 := set_redelivery run1 (<[u := d0]> (redelivery_messages run1))).
  assert (redelivery_ok msgs run0) as Hok0.
  { intros u' d E. cbn in E. rewrite E1 in E. apply lookup_insert_Some in E as [[<- <-]|[_ E]]; [done|by apply Hok]. }
  assert (redelivery_messages run0 !! u = Some d0) as Hu0 by (cbn; apply lookup_insert_eq).
  pose proof (rounds_entry msgs conf nows u sent run0 d0 0 Hok0 Hu0) as Hr.
  assert (redelivery_at d0 == sent + inject_Z (0 + 1) * resend_interval conf)%Q as Hat by (change (redelivery_at d0) with (sent + resend_interval conf)%Q; change (inject_Z (0 + 1)) with 1%Q; ring).
  specialize (Hr Hat ltac:(lia)). destruct (rounds msgs conf nows run0) as [run' evs]. destruct Hr as (Hok' & d & E & Em & Et & Ea & Hb).
  split; [|split].
  - destruct (decide (copies u evs = 0%nat)) as [E0|E0]; [lia|]. specialize (Hb _ Hnows ltac:(lia)).
    assert (msg_ttl conf == inject_Z (retry conf + 1) * resend_interval conf)%Q as Ett.
    { unfold resend_interval. field. intros Ez. assert (retry conf + 1 = 0); [by apply inject_Z_injective|lia]. }
    assert (0 < resend_interval conf)%Q as Hi.
    { unfold resend_interval. apply Qlt_shift_div_l; [change 0%Q with (inject_Z 0); rewrite <-Zlt_Qlt; lia|]. by rewrite Qmult_0_l. }
    rewrite Ett in Hb. apply Qplus_lt_r in Hb. apply Qmult_lt_r in Hb; [|done]. rewrite <-Zlt_Qlt in Hb. lia.
  - exists d. by rewrite Z.add_0_l in Ea.
  - intros c nows' Hint Ec. apply rounds_absent; unfold __np_response_handler_set; rewrite Hint, Ec, E; unfold __np_msgproperty_threshold_decrease.
    + intros u' d' E'. destruct (0 <? _); cbn in E'; apply lookup_delete_Some in E' as [_ E']; by apply Hok'.
    + destruct (0 <? _); cbn; apply lookup_delete_eq.
Qed.

(** ** Responses *)

Definition finished (now : Q) (c : np_responsecontainer_t) : bool := match container_type now c with Some _ => true | None => false end.
Definition events_of (now : Q) (known : np_dhkey_t -> bool) (containers : loc -> np_responsecontainer_t) (p : loc) : list run_event :=
  match container_type now (containers p) with Some type => container_events known type p (containers p) | None => [] end.

Lemma response_loop_spec now known containers n l :
  response_loop now known containers n l =
    (flat_map (fun e => events_of now known containers e.2) (take (S n) l),
     (List.filter (fun e => finished now (containers e.2)) (take (S n) l)).*1).
Proof.
  revert n. induction l as [|[key p] l IH]; intros n; [done|]. unfold events_of, finished in *.
  destruct n as [|n]; cbn [response_loop take flat_map List.filter snd].
  - rewrite take_0. cbn. destruct (container_type now (containers p)); cbn; by rewrite ?app_nil_r.
  - rewrite IH. destruct (container_type now (containers p)); done.
Qed.

Lemma deleted_lookup {V} (l : list (list Z)) : forall (m : gmap (list Z) V) u,
  foldl (fun m u => delete u m) m l !! u = if decide (u ∈ l) then None else m !! u.
Proof.
  induction l as [|x l IH]; intros m u; [by rewrite decide_False by apply not_elem_of_nil|]. cbn [foldl]. rewrite IH.
  destruct (decide (u ∈ l)) as [Hu|Hu]; [by rewrite decide_True by (by right)|]. destruct (decide (u = x)) as [->|Hne].
  - rewrite decide_True by left. apply lookup_delete_eq.
  - rewrite lookup_delete_ne by done. rewrite decide_False; [done|]. by intros [?|?]%elem_of_cons.
Qed.

(** Responses: of the first 31 containers, in the order of their identifiers, those that
    have their answer or whose time is over are taken out and reported, to the subject
    of the message and to the node it went to if that is known; all others stay.  With up
    to 31 containers none that is finished is left. *)
Theorem responses_reported now known containers run :
  let '(run', evs) := _np_msgproperty_cleanup_response_handler now known containers run in
  let examined := take 31 (in_order (response_handler run)) in
  (forall u p, response_handler run' !! u = Some p <->
     response_handler run !! u = Some p /\ ~ ((u, p) ∈ examined /\ finished now (containers p) = true)) /\
  evs = flat_map (fun e => events_of now known containers e.2) examined /\
  (forall u p, (u, p) ∈ examined -> finished now (containers p) = true -> msg_dhkey (containers p) ≠ dhkey_zero ->
     exists type, Run_event (msg_dhkey (containers p)) type (msg_dhkey (containers p)) (With_response p) ∈ evs /\
       FLAG_CMP type evt_response = true /\ (FLAG_CMP type evt_timeout = true <-> (container_expires_at (containers p) < now)%Q)) /\
  ((size (response_handler run) <= 31)%nat ->
     forall u p, response_handler run' !! u = Some p -> finished now (containers p) = false).
Proof.
  unfold _np_msgproperty_cleanup_response_handler. rewrite response_loop_spec. change (S (Z.to_nat (NP_PI_INT * 10))) with 31%nat.
  set (examined := take 31 (in_order (response_handler run))). cbn [response_handler set_responses].
  assert (forall u p, (u, p) ∈ examined -> response_handler run !! u = Some p) as Hex.
  { intros u p Hin. apply in_order_elem. unfold examined in Hin. by eapply elem_of_take in Hin as (i & Hi & _); eapply list_elem_of_lookup_2. }
  assert (forall u, u ∈ (List.filter (fun e => finished now (containers e.2)) examined).*1 <->
    exists p, (u, p) ∈ examined /\ finished now (containers p) = true) as Hrm.
  { intros u. rewrite list_elem_of_fmap. split.
    - intros ([u' p] & -> & Hin). apply list_elem_of_In, List.filter_In in Hin as [Hin Hf]. exists p. split; [by apply list_elem_of_In|done].
    - intros (p & Hin & Hf). exists (u, p). split; [done|]. apply list_elem_of_In, List.filter_In. split; [by apply list_elem_of_In|done]. }
  assert (forall u p, foldl (fun m u => delete u m) (response_handler run) (List.filter (fun e => finished now (containers e.2)) examined).*1 !! u = Some p <->
     response_handler run !! u = Some p /\ ~ ((u, p) ∈ examined /\ finished now (containers p) = true)) as Hl.
  { intros u p. rewrite deleted_lookup. case_decide as Hd; rewrite Hrm in Hd.
    - split; [done|]. intros [E Hn]. destruct Hd as (p' & Hin & Hf). exfalso. apply Hn. pose proof (Hex u p' Hin) as E'. assert (p' = p) as -> by congruence. done.
    - split; [|by intros [? _]]. intros E. split; [done|]. intros [Hin Hf]. apply Hd. by exists p. }
  split; [exact Hl|]. split; [done|]. split.
  - intros u p Hin Hf Hz. unfold finished in Hf. destruct (container_type now (containers p)) as [type|] eqn:Et; [|done]. exists type. split; [|split].
    + apply list_elem_of_In, in_flat_map. exists (u, p). split; [by apply list_elem_of_In|]. unfold events_of. cbn [snd]. rewrite Et.
      unfold container_events. rewrite bool_decide_eq_false_2 by done. by left.
    + unfold container_type in Et. destruct (Qltb _ _); [by injection Et as <-|]. destruct (negb _); [by injection Et as <-|done].
    + unfold container_type in Et. rewrite <-Qltb_lt. destruct (Qltb _ _); [by injection Et as <-|]. destruct (negb _); [by injection Et as <-|done].
  - intros Hs u p [E Hn]%Hl. destruct (finished now (containers p)) eqn:Ef; [|done]. exfalso. apply Hn. split; [|done].
    unfold examined. rewrite take_ge by (by rewrite in_order_length). by apply in_order_elem.
Qed.

(** The limit counts what is looked at, not what is reported: behind 31 containers that
    still wait nothing is reported, however long it is over. *)
Lemma waiting_hides_finished now known containers run :
  Forall (fun e => finished now (containers e.2) = false) (take 31 (in_order (response_handler run))) ->
  _np_msgproperty_cleanup_response_handler now known containers run = (run, []).
Proof.
  intros Hf. unfold _np_msgproperty_cleanup_response_handler. rewrite response_loop_spec. change (S (Z.to_nat (NP_PI_INT * 10))) with 31%nat.
  induction Hf as [|e l He _ IH]; [by destruct run|]. cbn [flat_map List.filter]. rewrite He. unfold events_of at 1.
  unfold finished in He. by destruct (container_type now (containers e.2)).
Qed.

(** ** Witnesses *)

Definition small_id (x : Z) : np_dhkey_t := Dhkey [0; 0; 0; 0; 0; 0; 0; x].
Definition sample_conf (policy : Z) : np_msgproperty_conf_t :=
  Msgproperty_conf None DEFAULT_MODE ANY_TO_ANY ACK_DESTINATION 20 3 180 3 policy 16 2 true false NP_MX_AUD_PUBLIC dhkey_zero dhkey_zero
    (small_id 1) (small_id 2) (small_id 3).
Definition sample_message (p : loc) : np_e2e_message_t :=
  E2e_message (replicate 16 (Zpos p)) (small_id (Zpos p)) 100 20 100.
Definition waiting_run : np_msgproperty_run_t := set_cache _np_msgproperty_run_t_new [(1%positive, 7%positive); (2%positive, 8%positive)].

Lemma message_accepted_once_witness : let conf := sample_conf (Z.lor FIFO OVERFLOW_PURGE) in let run := _np_msgproperty_run_t_new in
  let m := sample_message 7 in let run' := (_np_msgproperty_check_msg_uniquety conf run m).2 in
  (forall ops m', Forall (not_after (expiry m)) ops -> msg_uuid m' = msg_uuid m ->
     (_np_msgproperty_check_msg_uniquety conf (foldl (do_op conf) run' ops) m').1 = false) /\
  (forall now m', (expiry m < now)%Q -> msg_uuid m' = msg_uuid m ->
     (_np_msgproperty_check_msg_uniquety conf (_np_msgproperty_job_msg_uniquety now conf run') m').1 = true).
Proof.
  intros conf run m run'. apply (message_accepted_once conf run m run'). reflexivity.
Defined.

Lemma threshold_bounded_witness : let conf := sample_conf (Z.lor FIFO OVERFLOW_PURGE) in let run := _np_msgproperty_run_t_new in
  __np_msgproperty_threshold_breached conf run = false /\
  threshold_ok conf (__np_property_handle_out_msg conf [] [] run tt).1.2 /\
  (forall target message ret run' w' evs,
     __np_property_handle_in_msg sample_message (fun _ => true) target conf [] [] run tt message = Ok (ret, run', w', evs) ->
     threshold_ok conf run') /\
  (forall message target, threshold_ok conf (__np_property_redelivery_set sample_message conf run message target)) /\
  (forall c, threshold_ok conf (__np_response_handler_set (fun _ => Responsecontainer [] dhkey_zero dhkey_zero 0 0) conf run c)).
Proof.
  intros conf run. apply (threshold_bounded conf sample_message _ (fun _ => true) [] [] run tt).
  - unfold threshold_ok. cbn. lia.
  - apply List.Forall_nil.
  - apply List.Forall_nil.
Defined.

Lemma waiting_messages_released_witness :
  let conf := sample_conf (Z.lor FIFO OVERFLOW_PURGE) in let run := waiting_run in let msgs := sample_message in
  let has_session := fun id => bool_decide (id = small_id 7) in let target := small_id 7 in
  let known := fun m => has_session (msg_audience (msgs m)) in
  let of_target := fun m => bool_decide (msg_audience (msgs m) = target) in
  let out_event := fun m => Run_event (subject_dhkey_out conf) (Z.lor evt_internal (Z.lor evt_userspace evt_message)) (msg_audience (msgs m)) (With_message m) in
  let in_event := fun m => Run_event (subject_dhkey_in conf) (Z.lor evt_external evt_message) (msg_audience (msgs m)) (With_message m) in
  (subject_dhkey_out conf = subject_dhkey_out conf ->
     _np_msgproperty_check_msgcache msgs (subject_dhkey_out conf) has_session conf run =
       Ok (set_cache run (released conf known (msg_cache run)).2, map out_event (released conf known (msg_cache run)).1)) /\
  (subject_dhkey_out conf = subject_dhkey_in conf ->
     _np_msgproperty_check_msgcache msgs (subject_dhkey_out conf) has_session conf run =
       Ok (set_cache run (released conf known (msg_cache run)).2, map in_event (released conf known (msg_cache run)).1)) /\
  _np_msgproperty_check_msgcache_for msgs has_session target conf run =
    (if has_session target then
       Ok (set_cache run (released conf of_target (msg_cache run)).2, map in_event (released conf of_target (msg_cache run)).1)
     else Ok (run, [])) /\
  forall wanted, (released conf wanted (msg_cache run)).1 ++ (released conf wanted (msg_cache run)).2.*2 ≡ₚ (msg_cache run).*2.
Proof.
  intros conf run msgs has_session target. apply (waiting_messages_released msgs (subject_dhkey_out conf) has_session target conf run).
  - left. reflexivity.
  - split; by_decide.
  - apply Z.leb_le. reflexivity.
  - unfold threshold_ok. cbn. lia.
  - by_decide.
Defined.

Lemma cache_add_spec_witness : let conf := sample_conf (Z.lor FIFO OVERFLOW_PURGE) in let run := waiting_run in
  let cache' := msg_cache (__np_property_add_msg_to_cache conf run 3 9) in
  (Z.of_nat (length (msg_cache run)) < cache_size conf -> cache' = msg_cache run ++ [(3%positive, 9%positive)]) /\
  (cache_size conf <= Z.of_nat (length (msg_cache run)) ->
     (cache_policy conf = Z.lor FIFO OVERFLOW_REJECT \/ cache_policy conf = Z.lor LIFO OVERFLOW_REJECT -> cache' = msg_cache run) /\
     (cache_policy conf = Z.lor FIFO OVERFLOW_PURGE -> cache' = tail (msg_cache run) ++ [(3%positive, 9%positive)]) /\
     (cache_policy conf = Z.lor LIFO OVERFLOW_PURGE -> cache' = removelast (msg_cache run) ++ [(3%positive, 9%positive)])) /\
  (cache_policy conf ∈ [Z.lor FIFO OVERFLOW_REJECT; Z.lor LIFO OVERFLOW_REJECT; Z.lor FIFO OVERFLOW_PURGE; Z.lor LIFO OVERFLOW_PURGE] ->
     Z.of_nat (length (msg_cache run)) <= Z.max 1 (cache_size conf) -> Z.of_nat (length cache') <= Z.max 1 (cache_size conf)).
Proof. intros conf run. apply (cache_add_spec conf run 3 9). cbn. lia. Defined.

Lemma messages_resent_witness : let conf := sample_conf (Z.lor FIFO OVERFLOW_PURGE) in let run := _np_msgproperty_run_t_new in
  let containers := fun _ : loc => Responsecontainer (replicate 16 7) dhkey_zero dhkey_zero 0 0 in
  let u := replicate 16 7 in
  let '(run', evs) := rounds sample_message conf [103; 106; 107; 119]%Q (__np_property_redelivery_set sample_message conf run 7 dhkey_zero) in
  Z.of_nat (copies u evs) <= 3 /\
  (exists d, redelivery_messages run' !! u = Some d /\ red_message d = 7%positive /\ red_target d = dhkey_zero /\
     (redelivery_at d == 100 + inject_Z (Z.of_nat (copies u evs) + 1) * resend_interval conf)%Q) /\
  forall c nows', is_internal conf = false -> container_uuid (containers c) = u ->
    copies u (rounds sample_message conf nows' (__np_response_handler_set containers conf run' c)).2 = 0%nat.
Proof.
  intros conf run containers. apply (messages_resent sample_message containers conf run 7%positive dhkey_zero [103; 106; 107; 119]%Q).
  - by intros u d E.
  - reflexivity.
  - reflexivity.
  - cbn. lia.
  - repeat (apply list.Forall_cons; split; [by apply Qle_bool_iff|]). by apply List.Forall_nil.
Defined.
