(* ===== verification/MsgpropertyLife.v ===== *)
(** * Subjects: settings, registration, and the exchange of intents

    The rest of [src/core/np_comp_msgproperty.c]: the conversion of the settings an
    application makes, where subjects are registered and found, what a key gets when it
    becomes a subject, the token a node issues for a subject and its renewal, the
    announcement of it, and what happens to the token of a peer.  The rest of the
    subject's state is that of file [Intent], the tokens come from the factory. *)
From Stdlib Require Import ZArith Lia QArith String.
From stdpp Require Import prelude gmap fin_maps sorting functions.
From S2P Require Import Prelude Real Dhkey Sll DllSpec Reassembly Chunk Token KeyStates Crypto BloomBase BloomNeuropil Pheromones Treeval Tree Qcbor Serial Datablock Aaatoken Attributes Intent TokenFactory Msgproperty.

Local Open Scope Z_scope.

(** ** Settings *)

Inductive np_mx_role := NP_MX_PROVIDER | NP_MX_CONSUMER | NP_MX_PROSUMER.
Inductive np_mx_cache_policy := NP_MX_FIFO_REJECT | NP_MX_FIFO_PURGE | NP_MX_LIFO_REJECT | NP_MX_LIFO_PURGE.
Inductive np_mx_ackmode := NP_MX_ACK_NONE | NP_MX_ACK_DESTINATION | NP_MX_ACK_CLIENT.

Record np_mx_properties := Mx_properties {
  role : np_mx_role;
  ackmode : np_mx_ackmode;
  reply_id : list Z;                       (* 32 bytes *)
  mx_audience_type : np_mx_audience_type;
  mx_audience_id : np_dhkey_t;
  mx_cache_policy : np_mx_cache_policy;
  mx_cache_size : Z;                       (* uint16_t *)
  max_parallel : Z;                        (* uint8_t *)
  max_retry : Z;                           (* uint8_t *)
  intent_ttl : Q;
  intent_update_after : Q;
  message_ttl : Q;
}.

(** Assigning a double to a [uint32_t]: defined only if the whole part fits. *)
Definition uint32_of (x : Q) : result Z :=
  let n := Z.quot (Qnum x) (Zpos (Qden x)) in if (0 <=? n) && (n <? 2 ^ 32) then Ok n else Err Undefined.

Definition ack_to_user (a : Z) : np_mx_ackmode :=
  if a =? ACK_DESTINATION then NP_MX_ACK_DESTINATION else if a =? ACK_CLIENT then NP_MX_ACK_CLIENT else NP_MX_ACK_NONE.
Definition ack_from_user (a : np_mx_ackmode) : Z :=
  match a with NP_MX_ACK_DESTINATION => ACK_DESTINATION | NP_MX_ACK_CLIENT => ACK_CLIENT | NP_MX_ACK_NONE => ACK_NONE end.
Definition policy_to_user (p : Z) : np_mx_cache_policy :=
  if FLAG_CMP p FIFO then if FLAG_CMP p OVERFLOW_REJECT then NP_MX_FIFO_REJECT else NP_MX_FIFO_PURGE
  else if FLAG_CMP p OVERFLOW_REJECT then NP_MX_LIFO_REJECT else NP_MX_LIFO_PURGE.
Definition policy_from_user (p : np_mx_cache_policy) : Z :=
  match p with
  | NP_MX_FIFO_REJECT => Z.lor FIFO OVERFLOW_REJECT
  | NP_MX_FIFO_PURGE => Z.lor FIFO OVERFLOW_PURGE
  | NP_MX_LIFO_REJECT => Z.lor LIFO OVERFLOW_REJECT
  | NP_MX_LIFO_PURGE => Z.lor LIFO OVERFLOW_PURGE
  end.

Definition np_msgproperty4user (dest : np_mx_properties) (src : np_msgproperty_conf_t) : np_mx_properties :=
  let r := role dest in
  let r := if FLAG_CMP (mode_type src) INBOUND then NP_MX_CONSUMER else r in
  let r := if FLAG_CMP (mode_type src) OUTBOUND then NP_MX_PROVIDER else r in
  let r := if FLAG_CMP (mode_type src) DEFAULT_MODE then NP_MX_PROSUMER else r in
  Mx_properties r (ack_to_user (ack_mode src))
    (match rep_subject src with Some _ => dhkey_bytes (reply_dhkey src) | None => zero_bytes 32 end)
    (mx_audience_type dest) (mx_audience_id dest) (policy_to_user (cache_policy src)) (cache_size src) (u8 (max_threshold src)) (retry src)
    (inject_Z (token_max_ttl src)) (inject_Z (token_min_ttl src)) (msg_ttl src).

(** The reply identifier is read as a string: [behind] is what follows its 32 bytes. *)
Definition reply_of (rep : option (list Z)) (reply_id behind : list Z) : option (list Z) :=
  let s := take 255 (until_nul (reply_id ++ behind)) in
  if negb (bool_decide (head reply_id = Some 0)) &&
     match rep with None => true | Some r => negb (strncmp r (until_nul (reply_id ++ behind)) 255 =? 0) end
  then Some s else None.

Definition np_msgproperty_from_user (dest : np_msgproperty_conf_t) (src : np_mx_properties) (behind : list Z) : result np_msgproperty_conf_t :=
  token_max_ttl_ ← (if Qltb 0 (intent_ttl src) then uint32_of (intent_ttl src) else Ok (token_max_ttl dest));
  token_min_ttl_ ← (if Qltb 0 (intent_update_after src) then uint32_of (intent_update_after src) else Ok MSGPROPERTY_DEFAULT_MIN_TTL_SEC);
  Ok (Msgproperty_conf (reply_of (rep_subject dest) (reply_id src) behind)
        (match role src with NP_MX_CONSUMER => INBOUND | NP_MX_PROVIDER => OUTBOUND | NP_MX_PROSUMER => DEFAULT_MODE end)
        ANY_TO_ANY (ack_from_user (ackmode src))
        (if Qltb 0 (message_ttl src) then message_ttl src else msg_ttl dest)
        (if 0 <? max_retry src then max_retry src else retry dest)
        token_max_ttl_ token_min_ttl_ (policy_from_user (mx_cache_policy src))
        (if 0 <? mx_cache_size src then mx_cache_size src else cache_size dest)
        (if 0 <? max_parallel src then max_parallel src else max_threshold dest)
        (unique_uuids_check dest) (is_internal dest) (mx_audience_type src) (mx_audience_id src) (reply_dhkey dest)
        (subject_dhkey dest) (subject_dhkey_in dest) (subject_dhkey_out dest)).

(** ** Registration *)

Section Registry.
Context (__local_rx_dhkey __local_tx_dhkey : np_dhkey_t).
Abbreviation tweaked := (_np_msgproperty_tweaked_dhkey __local_rx_dhkey __local_tx_dhkey).

(** What a key holds: nothing yet, or the settings and the running part of a subject. *)
Abbreviation registry := (gmap np_dhkey_t (option (np_msgproperty_conf_t * np_msgproperty_run_t))).

(** Another object than a subject's settings fails the assertion. *)
Definition _np_msgproperty_conf_get (keys : registry) (mode : Z) (subject : np_dhkey_t) : result (option np_msgproperty_conf_t) :=
  let search k := match keys !! k with
                  | None => Ok None
                  | Some (Some (c, _)) => Ok (Some c)
                  | Some None => Err Assert_failed
                  end in
  if FLAG_CMP mode INBOUND then search (tweaked INBOUND subject)
  else if FLAG_CMP mode OUTBOUND then search (tweaked OUTBOUND subject)
  else Ok None.

Definition _np_msgproperty_run_get (keys : registry) (mode : Z) (subject : np_dhkey_t) : result (option np_msgproperty_run_t) :=
  c_assert (negb (FLAG_CMP mode DEFAULT_MODE));;
  c_assert (FLAG_CMP mode INBOUND || FLAG_CMP mode OUTBOUND);;
  Ok (match keys !! tweaked mode subject with Some (Some (_, r)) => Some r | _ => None end).

(** A subject that is not there is made, but not registered. *)
Definition _np_msgproperty_get_or_create (keys : registry) (found : np_msgproperty_conf_t) (priority mode : Z) (subject : np_dhkey_t)
    : result np_msgproperty_conf_t :=
  o ← _np_msgproperty_conf_get keys mode subject;
  Ok (match o with
      | Some c => c
      | None =>
          let c := _np_msgproperty_conf_t_new found priority in
          Msgproperty_conf (rep_subject c) mode ANY_TO_ANY (ack_mode c) (msg_ttl c) (retry c) (token_max_ttl c) (token_min_ttl c)
            (cache_policy c) (cache_size c) (max_threshold c) (unique_uuids_check c) (is_internal c) (audience_type c) (audience_id c)
            (reply_dhkey c) subject (subject_dhkey_in c) (subject_dhkey_out c)
      end).

Definition with_ids (c : np_msgproperty_conf_t) : np_msgproperty_conf_t :=
  Msgproperty_conf (rep_subject c) (mode_type c) (mep_type c) (ack_mode c) (msg_ttl c) (retry c) (token_max_ttl c) (token_min_ttl c)
    (cache_policy c) (cache_size c) (max_threshold c) (unique_uuids_check c) (is_internal c) (audience_type c) (audience_id c)
    (reply_dhkey c) (subject_dhkey c) (tweaked INBOUND (subject_dhkey c)) (tweaked OUTBOUND (subject_dhkey c)).

(** What the event of type property and internal does to a key: [__np_set_property] for
    one that is not a subject yet, [__np_property_update] for one that is. *)
Definition property_event (keys : registry) (k : np_dhkey_t) (c : np_msgproperty_conf_t) : registry :=
  <[k := Some (match keys !! k with Some (Some (_, r)) => (c, r) | _ => (c, _np_msgproperty_run_t_new) end)]> keys.

Definition np_msgproperty_register (keys : registry) (msg_property : np_msgproperty_conf_t) : registry * np_msgproperty_conf_t :=
  let c := with_ids msg_property in
  let keys := if FLAG_CMP (mode_type c) INBOUND then property_event keys (subject_dhkey_in c) c else keys in
  let keys := if FLAG_CMP (mode_type c) OUTBOUND then property_event keys (subject_dhkey_out c) c else keys in
  (keys, c).

End Registry.

(** ** What a key gets as a subject *)

(** The functions of the program that are called for messages. *)
Inductive np_evt_callback_t :=
| _np_out_default | _np_out_forward | _np_out_handshake | _np_in_handshake | _np_out_ack | _np_in_ack | _np_out_join | _np_in_join
| _np_out_leave | _np_in_leave | _np_out_ping | _np_in_ping | _np_out_piggy | _np_in_piggy | _np_out_update | _np_in_update
| _np_out_available_messages | _np_in_available_receiver | _np_in_available_sender | _np_out_pheromone | _np_in_pheromone
| _np_out_callback_wrapper | _np_in_callback_wrapper | _check_and_send_destination_ack.
#[export] Instance np_evt_callback_t_eq_dec : EqDecision np_evt_callback_t.
Proof. solve_decision. Defined.

Definition _DEFAULT : list Z := c_string "_NP.DEFAULT".
Definition _FORWARD : list Z := c_string "_NP.FORWARD".

(** For every name that begins with the subject. *)
Definition internal_table : list (list Z * option np_evt_callback_t * option np_evt_callback_t) :=
  [(_DEFAULT, Some _np_out_default, None);
   (_FORWARD, Some _np_out_forward, None);
   (_NP_MSG_HANDSHAKE, Some _np_out_handshake, Some _np_in_handshake);
   (_NP_MSG_ACK, Some _np_out_ack, Some _np_in_ack);
   (_NP_MSG_JOIN_REQUEST, Some _np_out_join, Some _np_in_join);
   (_NP_MSG_LEAVE_REQUEST, Some _np_out_leave, Some _np_in_leave);
   (_NP_MSG_PING_REQUEST, Some _np_out_ping, Some _np_in_ping);
   (_NP_MSG_PIGGY_REQUEST, Some _np_out_piggy, Some _np_in_piggy);
   (_NP_MSG_UPDATE_REQUEST, Some _np_out_update, Some _np_in_update);
   (_NP_MSG_AVAILABLE_RECEIVER, Some _np_out_available_messages, Some _np_in_available_receiver);
   (_NP_MSG_AVAILABLE_SENDER, Some _np_out_available_messages, Some _np_in_available_sender);
   (_NP_MSG_PHEROMONE_UPDATE, Some _np_out_pheromone, Some _np_in_pheromone)].
Definition __load_internal_callback (msg_subject : list Z) (mode : Z) (callback_list : list np_evt_callback_t) : list np_evt_callback_t :=
  let msg_subject_len := length (take 256 (until_nul msg_subject)) in
  foldl (fun l '(name, out, inb) =>
    if strncmp msg_subject name msg_subject_len =? 0 then
      l ++ option_list (if mode =? OUTBOUND then out else None) ++ option_list (if mode =? INBOUND then inb else None)
    else l) callback_list internal_table.

Definition sll_append_new (l : list np_evt_callback_t) (f : np_evt_callback_t) : list np_evt_callback_t :=
  if decide (f ∈ l) then l else l ++ [f].

(** The callbacks of a new subject; the rest of its running part is new as well. *)
Definition _np_msgproperty_create_runtime_info (my_dhkey : np_dhkey_t) (msg_subject : list Z) (property : np_msgproperty_conf_t)
    : list np_evt_callback_t :=
  let user := negb (is_internal property) && negb (bool_decide (audience_type property = NP_MX_AUD_VIRTUAL)) in
  let callbacks := [] in
  let callbacks :=
    if decide (my_dhkey = subject_dhkey_out property) then
      if user then sll_append_new (sll_append_new callbacks _np_out_callback_wrapper) _np_out_default
      else __load_internal_callback msg_subject OUTBOUND callbacks
    else callbacks in
  if decide (my_dhkey = subject_dhkey_in property) then
    let callbacks := if FLAG_CMP (ack_mode property) ACK_DESTINATION then sll_append_new callbacks _check_and_send_destination_ack else callbacks in
    if user then sll_append_new callbacks _np_in_callback_wrapper else __load_internal_callback msg_subject INBOUND callbacks
  else callbacks.

(** Internal subjects have no ledger; one that is there is emptied. *)
Definition _np_msgproperty_create_token_ledger (property : np_msgproperty_conf_t) (old : option token_ledger) : option token_ledger :=
  if is_internal property then old else Some (Ledger [] []).

(** ** The token of the node *)

(** A subject's key: its settings, its running part and, in [s_intents], tokens,
    sessions and the fields a peer's token changes. *)
Record subject_t := Subject {
  s_dhkey : np_dhkey_t;
  s_name : list Z;                              (* property->msg_subject *)
  s_conf : np_msgproperty_conf_t;
  s_run : np_msgproperty_run_t;
  s_intents : subject_key;
  s_attributes : list Z;
  required_attributes_policy : option np_bloom_t;
  last_intent_update : Q;
  last_pheromone_update : Q;
}.

Definition set_intents (u : subject_t) (k : subject_key) : subject_t :=
  Subject (s_dhkey u) (s_name u) (s_conf u) (s_run u) k (s_attributes u) (required_attributes_policy u) (last_intent_update u) (last_pheromone_update u).
Definition set_srun (u : subject_t) (r : np_msgproperty_run_t) : subject_t :=
  Subject (s_dhkey u) (s_name u) (s_conf u) r (s_intents u) (s_attributes u) (required_attributes_policy u) (last_intent_update u) (last_pheromone_update u).
Definition set_last_intent (u : subject_t) (q : Q) : subject_t :=
  Subject (s_dhkey u) (s_name u) (s_conf u) (s_run u) (s_intents u) (s_attributes u) (required_attributes_policy u) q (last_pheromone_update u).
Definition set_last_pheromone (u : subject_t) (q : Q) : subject_t :=
  Subject (s_dhkey u) (s_name u) (s_conf u) (s_run u) (s_intents u) (s_attributes u) (required_attributes_policy u) (last_intent_update u) q.
Definition set_current_fp (k : subject_key) (fp : np_dhkey_t) : subject_key :=
  Subject_key (Intent.mep_type k) (Intent.ack_mode k) fp (ledger k) (crypto_tree k) (ack_tree k).

(** What the factory reads of the settings. *)
Definition factory_conf (u : subject_t) : TokenFactory.np_msgproperty_conf_t :=
  TokenFactory.Msgproperty_conf (s_name u) (Intent.mep_type (s_intents u)) (Intent.ack_mode (s_intents u)) (max_threshold (s_conf u))
    (token_max_ttl (s_conf u)) (audience_type (s_conf u)) (audience_id (s_conf u)).

(** The node the subject is on. *)
Record node_context := Node_context {
  my_identity : np_dhkey_t;
  my_node_key : np_dhkey_t;
  realm_id : np_dhkey_t;
  np_has_joined : bool;
}.

(** What is sent, besides the events of file [Msgproperty]: a session key, the node's
    own token in a message to [s_to], a token to be authorised, pheromones. *)
Inductive subject_event :=
| S_run (e : run_event)
| S_rekey (m : rekey_message)
| S_available (to target subject : np_dhkey_t) (token : np_tree_t)
| S_authz (to target : np_dhkey_t) (token : loc)
| S_pheromone (to target : np_dhkey_t) (bloom_data : list (Z * np_bloom_t)).

(** The comparison of tokens of one issuer. *)
Definition aaatoken_cmp (a b : np_aaatoken_t) : Z :=
  let ret_check := Intent.strncmp (issuer a) (issuer b) 65 in
  if negb (0 =? ret_check) then ret_check
  else
    let ret_check := Intent.strncmp (subject a) (subject b) (length (strn_of 255 (subject a))) in
    if negb (0 =? ret_check) then ret_check
    else Intent.strncmp (realm a) (realm b) (length (until_nul (realm a))).
Definition _np_aaatoken_cmp (s : store) (first second : loc) : Z := if decide (first = second) then 0 else aaatoken_cmp (s first) (s second).

Section Tokens.
Context `{Sodium} `{Qcbor} `{Doubles}.
Context (encoder_leaves : list item -> Z -> list Z) (__local_rx_dhkey __local_tx_dhkey : np_dhkey_t).

(** For the key of which direction: the list of the node's own tokens. *)
Definition own_tokens (u : subject_t) : option (bool * list loc) :=
  if decide (s_dhkey u = subject_dhkey_out (s_conf u)) then Some (false, send_tokens (ledger (s_intents u)))
  else if decide (s_dhkey u = subject_dhkey_in (s_conf u)) then Some (true, recv_tokens (ledger (s_intents u)))
  else None.
Definition set_own_tokens (for_receiver : bool) (k : subject_key) (l : list loc) : subject_key :=
  if for_receiver then set_recv k l else set_send k l.

Definition _np_msgproperty_get_mxtoken (u : subject_t) : option loc :=
  let l := ledger (s_intents u) in
  let token_list := if decide (s_dhkey u = subject_dhkey_out (s_conf u)) then Some (send_tokens l) else None in
  let token_list := if decide (s_dhkey u = subject_dhkey_in (s_conf u)) then Some (recv_tokens l) else token_list in
  match token_list with Some (t :: _) => Some t | _ => None end.

(** Where the n-th new token is put, what [np_new_obj] yields and the random keys of its
    session. *)
Record new_token := New_token { new_loc : loc; new_obj : new_object; random_write : list Z; random_read : list Z }.

(** A new token is put in the store and gets a session of its own. *)
Definition issue (fc : factory_context) (now : Q) (n : new_token) (for_receiver : bool) (place : store -> loc -> list loc -> list loc)
    (s : store) (u : subject_t) : result (store * subject_t * list subject_event) :=
  msg_token_new ← _np_token_factory_new_message_intent_token encoder_leaves fc (new_obj n) now (factory_conf u);
  let s := <[new_loc n := msg_token_new]> s in
  let k := s_intents u in
  let l := if for_receiver then recv_tokens (ledger k) else send_tokens (ledger k) in
  let k := set_own_tokens for_receiver k (place s (new_loc n) l) in
  '(k, ms) ← _np_intent_update_session k msg_token_new for_receiver crud_create (random_write n) (random_read n);
  Ok (s, set_intents u k, map S_rekey ms).

Definition place_first (s : store) (t : loc) (l : list loc) : list loc :=
  default l (insert_by (fun a b => _np_aaatoken_cmp s a b) false t l).
Definition place_replacing (s : store) (t : loc) (l : list loc) : list loc :=
  match replace_by (fun a b => _np_aaatoken_cmp s a b) t l with Some (_, l) => l | None => l end.

(** Soon over: less than the minimum time and a second is left. *)
Definition runs_out (now : Q) (u : subject_t) (t : np_aaatoken_t) : bool :=
  let min := (inject_Z (token_min_ttl (s_conf u)) + 1)%Q in
  let least := if Qltb min (inject_Z MSGPROPERTY_DEFAULT_MIN_TTL_SEC) then inject_Z MSGPROPERTY_DEFAULT_MIN_TTL_SEC else min in
  Qltb (expires_at t - now) least.

(** The node the iterator is at and those behind it; the lists keep their length. *)
Fixpoint upsert_loop (fc : factory_context) (now : Q) (for_receiver : bool) (news : list new_token) (i : nat) (todo : nat)
    (s : store) (u : subject_t) : result (store * subject_t * list subject_event) :=
  match todo with
  | O => Ok (s, u, [])
  | S todo =>
      let l := if for_receiver then recv_tokens (ledger (s_intents u)) else send_tokens (ledger (s_intents u)) in
      match l !! i with
      | None => Ok (s, u, [])
      | Some t =>
          if runs_out now u (s t) then
            match news with
            | [] => Err Undefined
            | n :: news =>
                '(s, u, evs) ← issue fc now n for_receiver place_replacing s u;
                let u := set_last_intent u 0 in
                '(s, u, evs') ← upsert_loop fc now for_receiver news (S i) todo s u;
                Ok (s, u, evs ++ evs')
            end
          else
            '(r, a) ← np_merge_data encoder_leaves (attributes (s t)) (Some (s_attributes u));
            c_assert (bool_decide (r = np_data_ok));;
            let s := <[t := set_attributes (s t) a]> s in
            '(k, ms) ← _np_intent_update_session (s_intents u) (s t) for_receiver crud_update [] [];
            '(s, u, evs') ← upsert_loop fc now for_receiver news (S i) todo s (set_intents u k);
            Ok (s, u, map S_rekey ms ++ evs')
      end
  end.

Definition _np_msgproperty_upsert_token (fc : factory_context) (now : Q) (news : list new_token) (s : store) (u : subject_t)
    : result (store * subject_t * list subject_event) :=
  match own_tokens u with
  | None => Ok (s, u, [])
  | Some (for_receiver, []) =>
      match news with [] => Err Undefined | n :: _ => issue fc now n for_receiver place_first s u end
  | Some (for_receiver, token_list) => upsert_loop fc now for_receiver news 0 (length token_list) s u
  end.

(** ** Announcing it *)

Definition NP_TOKEN_MIN_RESEND_INTERVAL_SEC : Z := 10.
Definition subject_id (name : list Z) : np_dhkey_t := Reassembly.np_generate_subject crypto_generichash dhkey_zero name.
Definition tweaked_out (name : list Z) : np_dhkey_t :=
  _np_msgproperty_tweaked_dhkey __local_rx_dhkey __local_tx_dhkey OUTBOUND (subject_id name).

Definition resend_due (now : Q) (u : subject_t) : bool :=
  Qeq_bool (last_intent_update u) 0 ||
  Qltb (inject_Z (Z.min (token_min_ttl (s_conf u)) NP_TOKEN_MIN_RESEND_INTERVAL_SEC)) (now - last_intent_update u).

Definition __np_msgproperty_send_available_messages (now : Q) (s : store) (u : subject_t) : result (store * subject_t * list subject_event) :=
  match _np_msgproperty_get_mxtoken u with
  | None => Ok (s, u, [])
  | Some intent_token =>
      if resend_due now u then
        '(intent_data, t) ← _np_aaatoken_encode np_tree_create (s intent_token);
        let s := <[intent_token := t]> s in
        name ← (if decide (s_dhkey u = subject_dhkey_out (s_conf u)) then Ok _NP_MSG_AVAILABLE_SENDER
                else if decide (s_dhkey u = subject_dhkey_in (s_conf u)) then Ok _NP_MSG_AVAILABLE_RECEIVER
                else Err Assert_failed);
        fp ← np_aaatoken_get_fingerprint t false;
        Ok (s, set_last_intent (set_intents u (set_current_fp (s_intents u) fp)) now,
            [S_available (tweaked_out name) (subject_dhkey (s_conf u)) (subject_id name) intent_data])
      else Ok (s, u, [])
  end.

(** ** The token of a peer *)

Definition run_events (l : list run_event) : list subject_event := map S_run l.

(** The messages that waited for the session. *)
Definition release (msgs : loc -> np_e2e_message_t) (u : subject_t) (target : np_dhkey_t) : result (subject_t * list subject_event) :=
  '(r, evs) ← _np_msgproperty_check_msgcache_for msgs (_np_intent_has_crypto_session (s_intents u)) target (s_conf u) (s_run u);
  Ok (set_srun u r, run_events evs).
Definition release_all (msgs : loc -> np_e2e_message_t) (u : subject_t) : result (subject_t * list subject_event) :=
  '(r, evs) ← _np_msgproperty_check_msgcache msgs (s_dhkey u) (_np_intent_has_crypto_session (s_intents u)) (s_conf u) (s_run u);
  Ok (set_srun u r, run_events evs).

(** At the receiver of messages: the token of a sender. The last component says whether
    it has to be authorised. *)
Definition intent_of_sender (msgs : loc -> np_e2e_message_t) (s : store) (u : subject_t) (intent_token : loc)
    : result (store * subject_t * list subject_event * bool) :=
  '(s, k, _) ← _np_intent_add_sender s (s_intents u) intent_token;
  let u := set_intents u k in
  if IS_AUTHORIZED (state (s intent_token)) then
    intent_token_fp ← np_aaatoken_get_fingerprint (s intent_token) false;
    '(u, evs) ← release msgs u (_np_dhkey_xor intent_token_fp (current_fp (s_intents u)));
    '(u, evs') ← release msgs u intent_token_fp;
    Ok (s, u, evs ++ evs', false)
  else Ok (s, u, [], true).

(** At the sender of messages: the token of a receiver. *)
Definition intent_of_receiver (now : Q) (msgs : loc -> np_e2e_message_t) (s : store) (u : subject_t) (intent_token : loc)
    : result (store * subject_t * list subject_event * bool) :=
  '(s, u, evs) ← (if IS_AUTHORIZED (state (s intent_token)) then __np_msgproperty_send_available_messages now s (set_last_intent u 0)
                  else Ok (s, u, []));
  _ ← np_aaatoken_get_fingerprint (s intent_token) true;
  '(s, k, _, m) ← _np_intent_add_receiver s (s_intents u) intent_token;
  let u := set_intents u k in
  let evs := evs ++ option_list (S_rekey <$> m) in
  if IS_AUTHORIZED (state (s intent_token)) then
    '(u, evs') ← release_all msgs u; Ok (s, u, evs ++ evs', false)
  else Ok (s, u, evs, true).

Definition __np_property_handle_intent (ctx : node_context) (now : Q) (msgs : loc -> np_e2e_message_t) (s : store) (u : subject_t)
    (intent_token : loc) (target : np_dhkey_t) : result (store * subject_t * list subject_event) :=
  audience_id ← (if bool_decide (audience_type (s_conf u) = NP_MX_AUD_PROTECTED)
                 then bytes_dhkey <$> np_str_id sodium_hex2bin (audience (s intent_token) ++ zero_bytes 64) else Ok dhkey_zero);
  compliant ← _np_policy_check_compliance (required_attributes_policy u) (attributes (s intent_token));
  if compliant && (bool_decide (my_identity ctx = audience_id) || bool_decide (realm_id ctx = audience_id)) then
    _ ← np_aaatoken_get_partner_fp (s intent_token);
    '(s, u, evs, needs_authz) ←
      (if decide (subject_dhkey_in (s_conf u) = s_dhkey u) then intent_of_sender msgs s u intent_token else Ok (s, u, [], false));
    '(s, u, evs', needs_authz) ←
      (if decide (subject_dhkey_out (s_conf u) = s_dhkey u) then
         '(s, u, evs', n) ← intent_of_receiver now msgs s u intent_token; Ok (s, u, evs', needs_authz || n)
       else Ok (s, u, [], needs_authz));
    Ok (s, u, evs ++ evs' ++ (if needs_authz : bool then [S_authz (my_identity ctx) target intent_token] else []))
  else Ok (s, u, []).

(** ** The periodic check *)

Definition BAD_LINK : Q := 1 # 4.
Definition PHEROMONE_UPDATE_INTERVAL : Q := NP_PI * 10.

Fixpoint age_increments (n : nat) (b : np_bloom_t) : result np_bloom_t :=
  match n with O => Ok b | S n => b ← _np_neuropil_bloom_age_increment b; age_increments n b end.

(** [np_tree_insert_int] leaves what is there. *)
Definition insert_position (l : list (Z * np_bloom_t)) (pos : Z) (b : np_bloom_t) : list (Z * np_bloom_t) :=
  if decide (pos ∈ l.*1) then l else l ++ [(pos, b)].

(** The scent of acknowledgements, which is strong from the start. *)
Definition ack_position (ctx : node_context) (bloom_data : list (Z * np_bloom_t)) : result (list (Z * np_bloom_t)) :=
  let ack_dhkey := Reassembly.np_generate_subject crypto_generichash (my_node_key ctx) _NP_MSG_ACK in
  b ← _np_neuropil_bloom_add _np_neuropil_bloom_create ack_dhkey;
  b ← age_increments 16 b;
  Ok (insert_position bloom_data (_np_pheromone_calc_table_position ack_dhkey np_pheromone_direction_sender) b).

(** [bloom_scent]: the filter of the key, whose bytes are sent. *)
Definition __np_msgproperty_send_pheromone_messages (ctx : node_context) (now : Q) (p : pheromones) (bloom_scent : np_bloom_t) (u : subject_t)
    : result (subject_t * list subject_event) :=
  let target := subject_dhkey (s_conf u) in
  '(bloom_data, age) ←
    (if decide (s_dhkey u = subject_dhkey_out (s_conf u)) then
       let d := [(_np_pheromone_calc_table_position target np_pheromone_direction_receiver, bloom_scent)] in
       '(_, age) ← _np_pheromone_snuffle_receiver p [] target BAD_LINK;
       d ← (if FLAG_CMP (Intent.ack_mode (s_intents u)) ACK_DESTINATION || FLAG_CMP (Intent.ack_mode (s_intents u)) ACK_CLIENT
            then ack_position ctx d else Ok d);
       Ok (d, age)
     else if decide (s_dhkey u = subject_dhkey_in (s_conf u)) then
       '(_, age) ← _np_pheromone_snuffle_sender p [] target BAD_LINK;
       Ok ([(_np_pheromone_calc_table_position target np_pheromone_direction_sender, bloom_scent)], age)
     else Ok ([], BAD_LINK));
  let _target_age := if Qltb BAD_LINK age then age else BAD_LINK in
  if Qeq_bool (last_pheromone_update u) 0 || Qltb (_target_age * PHEROMONE_UPDATE_INTERVAL) (now - last_pheromone_update u) then
    Ok (set_last_pheromone u now, [S_pheromone (tweaked_out _NP_MSG_PHEROMONE_UPDATE) target bloom_data])
  else Ok (u, []).

(** [known]: the keys of the key cache. *)
Definition __np_property_check (ctx : node_context) (fc : factory_context) (now : Q) (p : pheromones) (bloom_scent : np_bloom_t)
    (known : np_dhkey_t -> bool) (containers : loc -> np_responsecontainer_t) (msgs : loc -> np_e2e_message_t) (news : list new_token)
    (s : store) (u : subject_t) : result (store * subject_t * list subject_event) :=
  let '(r, evs) := _np_msgproperty_cleanup_response_handler now known containers (s_run u) in
  let u := set_srun u r in
  '(s, u, evs') ←
    (if is_internal (s_conf u) then Ok (s, u, [])
     else
       let '(r, evs1) := if FLAG_CMP (mode_type (s_conf u)) OUTBOUND then __np_msgproperty_redeliver_messages now msgs (s_conf u) (s_run u)
                         else (s_run u, []) in
       '(u, evs2) ← release_all msgs (set_srun u r);
       let u := set_srun u (_np_msgproperty_cleanup_cache now msgs (s_run u)) in
       '(s, u, evs3) ← _np_msgproperty_upsert_token fc now news s u;
       '(s, u, evs4) ←
         (if np_has_joined ctx then
            '(u, a) ← __np_msgproperty_send_pheromone_messages ctx now p bloom_scent u;
            '(s, u, b) ← __np_msgproperty_send_available_messages now s u;
            Ok (s, u, a ++ b)
          else Ok (s, u, []));
       '(s, k) ← __np_intent_check now now s (s_intents u);
       Ok (s, set_intents u k, run_events evs1 ++ evs2 ++ evs3 ++ evs4));
  Ok (s, set_srun u (_np_msgproperty_job_msg_uniquety now (s_conf u) (s_run u)), run_events evs ++ evs').

End Tokens.
