(* ===== verification/MsgpropertyLifeThms.v ===== *)
(** * Subjects: settings survive, registered subjects are found, sessions need permission

    What file [MsgpropertyLife] models: the settings an application makes and reads
    back, the registry of subjects, the issue of a node's own token, and the conditions
    under which the token of a peer leads to a session. *)
From Stdlib Require Import ZArith Lia QArith Lqa String.
From stdpp Require Import prelude gmap fin_maps sorting functions.
From S2P Require Import Prelude Real Dhkey Sll DllSpec Reassembly Chunk Token KeyStates Crypto BloomBase BloomNeuropil Pheromones Treeval Tree Qcbor Serial Datablock DatablockSpec DatablockThms Aaatoken AaatokenSpec Attributes Intent IntentThms LedgerThms TokenFactory TokenFactoryThms Msgproperty MsgpropertyThms MsgpropertyLife.

Local Open Scope Z_scope.

(** ** Settings *)

Lemma uint32_whole n : 0 <= n < 2 ^ 32 -> uint32_of (inject_Z n) = Ok n.
Proof.
  intros Hn. unfold uint32_of. cbn [Qnum Qden inject_Z]. rewrite Z.quot_1_r.
  destruct (Z.leb_spec 0 n), (Z.ltb_spec n (2 ^ 32)); try lia; done.
Qed.

(** What an application sets it reads back: role, acknowledgements, cache policy and the
    numbers, as long as they are positive and the lifetimes are whole seconds of 32 bits.
    What it leaves at zero keeps the value it had. *)
Theorem settings_roundtrip dest old p behind ttl after :
  intent_ttl p = inject_Z ttl -> intent_update_after p = inject_Z after -> 0 < ttl < 2 ^ 32 -> 0 < after < 2 ^ 32 ->
  0 <= mx_cache_size p -> 0 <= max_parallel p < 256 -> 0 <= max_retry p ->
  exists c, np_msgproperty_from_user dest p behind = Ok c /\
    let q := np_msgproperty4user old c in
    role q = role p /\ ackmode q = ackmode p /\ mx_cache_policy q = mx_cache_policy p /\
    intent_ttl q = intent_ttl p /\ intent_update_after q = intent_update_after p /\
    (message_ttl q = if Qltb 0 (message_ttl p) then message_ttl p else msg_ttl dest) /\
    (mx_cache_size q = if 0 <? mx_cache_size p then mx_cache_size p else cache_size dest) /\
    (max_parallel q = if 0 <? max_parallel p then max_parallel p else u8 (max_threshold dest)) /\
    (max_retry q = if 0 <? max_retry p then max_retry p else retry dest).
Proof.
  intros Et Ea Ht Ha Hc Hp Hr. unfold np_msgproperty_from_user. rewrite Et, Ea.
  assert (forall n, 0 < n -> Qltb 0 (inject_Z n) = true) as Hpos.
  { intros n Hn. apply Qltb_lt. change 0%Q with (inject_Z 0). rewrite <-Zlt_Qlt. lia. }
  rewrite !Hpos, !uint32_whole, !bind_ok by lia. eexists. split; [reflexivity|]. unfold np_msgproperty4user.
  cbn [role ackmode mx_cache_policy intent_ttl intent_update_after message_ttl mx_cache_size max_parallel max_retry mode_type ack_mode cache_policy
       token_max_ttl token_min_ttl msg_ttl cache_size max_threshold retry].
  split; [by destruct (role p)|]. split; [by destruct (ackmode p)|]. split; [by destruct (mx_cache_policy p)|].
  split; [done|]. split; [done|]. split; [done|]. split; [done|]. split; [|done].
  destruct (Z.ltb_spec 0 (max_parallel p)); [|done]. unfold u8. by rewrite Z.mod_small.
Qed.

(** Setting the same reply identifier a second time takes it away. *)
Lemma reply_lost reply_id behind s : reply_of None reply_id behind = Some s -> (length s < 255)%nat ->
  reply_of (Some s) reply_id behind = None.
Proof.
  unfold reply_of. destruct (negb (bool_decide (head reply_id = Some 0))); [|done]. cbn [andb]. intros [= <-] Hl.
  assert (Intent.strncmp (take 255 (until_nul (reply_id ++ behind))) (until_nul (reply_id ++ behind)) 255 = 0) as ->; [|done].
  rewrite length_take in Hl. rewrite take_ge by lia. unfold Intent.strncmp. by apply chars_cmp_eq.
Qed.

(** ** The registry *)

Section Registry.
Context (__local_rx_dhkey __local_tx_dhkey : np_dhkey_t).
Abbreviation tweaked := (_np_msgproperty_tweaked_dhkey __local_rx_dhkey __local_tx_dhkey).
Abbreviation register := (np_msgproperty_register __local_rx_dhkey __local_tx_dhkey).
Abbreviation conf_get := (_np_msgproperty_conf_get __local_rx_dhkey __local_tx_dhkey).

Lemma property_event_conf keys k c : exists r, property_event keys k c !! k = Some (Some (c, r)) /\
  (forall c' r', keys !! k = Some (Some (c', r')) -> r = r').
Proof.
  unfold property_event. rewrite lookup_insert_eq. destruct (keys !! k) as [[[c' r']|]|]; eexists; (split; [reflexivity|]); [by intros ? ? [= _ <-]|done|done].
Qed.
Lemma property_event_other keys k k' c : k' ≠ k -> property_event keys k c !! k' = keys !! k'.
Proof. intros Hk. unfold property_event. by rewrite lookup_insert_ne. Qed.

(** A registered subject is found under its directions with the settings it was
    registered with; what was under way on it goes on; no other subject is touched. *)
Theorem registered_subject_found keys c : mode_type c ∈ [INBOUND; OUTBOUND; DEFAULT_MODE] -> tweaked INBOUND (subject_dhkey c) ≠ tweaked OUTBOUND (subject_dhkey c) ->
  let '(keys', c') := register keys c in
  (FLAG_CMP (mode_type c) INBOUND = true -> conf_get keys' INBOUND (subject_dhkey c) = Ok (Some c')) /\
  (FLAG_CMP (mode_type c) OUTBOUND = true -> conf_get keys' OUTBOUND (subject_dhkey c) = Ok (Some c')) /\
  (forall mode c0 r0, mode = INBOUND \/ mode = OUTBOUND -> keys !! tweaked mode (subject_dhkey c) = Some (Some (c0, r0)) ->
     _np_msgproperty_run_get __local_rx_dhkey __local_tx_dhkey keys' mode (subject_dhkey c) = Ok (Some r0)) /\
  forall k, k ≠ tweaked INBOUND (subject_dhkey c) -> k ≠ tweaked OUTBOUND (subject_dhkey c) -> keys' !! k = keys !! k.
Proof.
  intros Hm Hne. unfold np_msgproperty_register. set (c' := with_ids __local_rx_dhkey __local_tx_dhkey c).
  change (mode_type c') with (mode_type c). change (subject_dhkey_in c') with (tweaked INBOUND (subject_dhkey c)).
  change (subject_dhkey_out c') with (tweaked OUTBOUND (subject_dhkey c)).
  set (ki := tweaked INBOUND (subject_dhkey c)) in *. set (ko := tweaked OUTBOUND (subject_dhkey c)) in *.
  set (keys1 := if FLAG_CMP (mode_type c) INBOUND then property_event keys ki c' else keys).
  destruct (property_event_conf keys ki c') as (ri & Ei & Ri). destruct (property_event_conf keys1 ko c') as (ro & Eo & Ro).
  assert (keys1 !! ko = keys !! ko) as E1 by (unfold keys1; destruct (FLAG_CMP _ _); [by apply property_event_other|done]).
  set (keys2 := if FLAG_CMP (mode_type c) OUTBOUND then property_event keys1 ko c' else keys1).
  assert (keys2 !! ki = keys1 !! ki) as E2 by (unfold keys2; destruct (FLAG_CMP _ OUTBOUND); [by apply property_event_other|done]).
  split; [|split; [|split]].
  - intros Hf. unfold _np_msgproperty_conf_get. change (FLAG_CMP INBOUND INBOUND) with true. cbv iota. fold ki. rewrite E2. unfold keys1. by rewrite Hf, Ei.
  - intros Hf. unfold _np_msgproperty_conf_get. change (FLAG_CMP OUTBOUND INBOUND) with false. change (FLAG_CMP OUTBOUND OUTBOUND) with true. cbv iota.
    fold ko. unfold keys2. by rewrite Hf, Eo.
  - intros mode c0 r0 [->| ->] E; unfold _np_msgproperty_run_get.
    + change (c_assert (negb (FLAG_CMP INBOUND DEFAULT_MODE))) with (Ok tt). change (c_assert (FLAG_CMP INBOUND INBOUND || FLAG_CMP INBOUND OUTBOUND)) with (Ok tt).
      rewrite !bind_ok. fold ki. fold ki in E. rewrite E2. unfold keys1. destruct (FLAG_CMP (mode_type c) INBOUND); [|by rewrite E].
      rewrite Ei. by rewrite (Ri c0 r0 E).
    + change (c_assert (negb (FLAG_CMP OUTBOUND DEFAULT_MODE))) with (Ok tt). change (c_assert (FLAG_CMP OUTBOUND INBOUND || FLAG_CMP OUTBOUND OUTBOUND)) with (Ok tt).
      rewrite !bind_ok. fold ko. fold ko in E. unfold keys2. destruct (FLAG_CMP (mode_type c) OUTBOUND); [|by rewrite E1, E].
      rewrite Eo. by rewrite (Ro c0 r0) by (by rewrite E1).
  - intros k Hi Ho. unfold keys2, keys1. destruct (FLAG_CMP _ OUTBOUND), (FLAG_CMP _ INBOUND); rewrite ?property_event_other by done; done.
Qed.

(** Asked for both directions, a subject that is only sent on is not found. *)
Lemma sender_not_found keys c : keys !! tweaked INBOUND (subject_dhkey c) = None -> mode_type c = OUTBOUND ->
  tweaked INBOUND (subject_dhkey c) ≠ tweaked OUTBOUND (subject_dhkey c) ->
  conf_get (register keys c).1 DEFAULT_MODE (subject_dhkey c) = Ok None.
Proof.
  intros Ek Em Hne. unfold np_msgproperty_register, _np_msgproperty_conf_get. cbn [mode_type with_ids]. rewrite Em.
  change (FLAG_CMP OUTBOUND INBOUND) with false. change (FLAG_CMP OUTBOUND OUTBOUND) with true. change (FLAG_CMP DEFAULT_MODE INBOUND) with true. cbv iota.
  cbn [fst]. by rewrite property_event_other, Ek.
Qed.

End Registry.

(** ** The tokens of peers *)

Section Tokens.
Context `{Sodium} `{Qcbor} `{Doubles}.
Context (encoder_leaves : list item -> Z -> list Z) (__local_rx_dhkey __local_tx_dhkey : np_dhkey_t).

Abbreviation handle_intent := (__np_property_handle_intent __local_rx_dhkey __local_tx_dhkey).

Lemma bind_inv {A B} (r : result A) (f : A -> result B) b : r ≫= f = Ok b -> exists a, r = Ok a /\ f a = Ok b.
Proof. destruct r as [a|]; [|done]. rewrite bind_ok. by exists a. Qed.

Lemma encode_state d t d' t' : _np_aaatoken_encode d t = Ok (d', t') -> state t' = state t.
Proof.
  unfold _np_aaatoken_encode. intros (d1 & _ & E)%bind_inv. apply bind_inv in E as (a & _ & E). apply bind_inv in E as (d2 & _ & E).
  apply bind_inv in E as (t1 & Et & E). apply bind_inv in E as (d3 & _ & E). injection E as _ <-. destruct (scope t <=? np_aaatoken_scope_private_available); [|by injection Et as <-].
  unfold _np_aaatoken_update_attributes_signature in Et. apply bind_inv in Et as (u & _ & Et). apply bind_inv in Et as (h & _ & Et). by injection Et as <-.
Qed.

Lemma available_keeps now s u s' u' evs : __np_msgproperty_send_available_messages __local_rx_dhkey __local_tx_dhkey now s u = Ok (s', u', evs) ->
  crypto_tree (s_intents u') = crypto_tree (s_intents u) /\ (forall t, state (s' t) = state (s t)) /\ s_dhkey u' = s_dhkey u /\ s_conf u' = s_conf u.
Proof.
  unfold __np_msgproperty_send_available_messages. destruct (_np_msgproperty_get_mxtoken u) as [t0|]; [|by intros [= <- <- <-]].
  destruct (resend_due now u); [|by intros [= <- <- <-]].
  intros ([d t1] & Ee & E)%bind_inv. apply bind_inv in E as (name & _ & E). apply bind_inv in E as (fp & _ & E). injection E as <- <- <-.
  split; [done|]. split; [|done]. intros t. destruct (decide (t = t0)) as [->|Hne]; [rewrite fn_lookup_insert; by eapply encode_state|by rewrite fn_lookup_insert_ne].
Qed.

Lemma sender_added s k t s' k' ret : _np_intent_add_sender s k t = Ok (s', k', ret) -> IS_AUTHORIZED (state (s' t)) = false ->
  crypto_tree k' = crypto_tree k.
Proof.
  unfold _np_intent_add_sender. cbv zeta. intros (mep & _ & E)%bind_inv. apply bind_inv in E as (ack & _ & E). apply bind_inv in E as (max & _ & E).
  destruct (0 <? max); [|by injection E as <- <- <-]. destruct (put_token _ _ _ _) as [r l]. intros Hn. apply bind_inv in E as (k1 & E1 & E).
  injection E as <- <- <-. rewrite Hn in E1. by injection E1 as <-.
Qed.
Lemma receiver_added s k t s' k' ret m : _np_intent_add_receiver s k t = Ok (s', k', ret, m) -> IS_AUTHORIZED (state (s' t)) = false ->
  crypto_tree k' = crypto_tree k.
Proof.
  unfold _np_intent_add_receiver. cbv zeta. intros (max & _ & E)%bind_inv. apply bind_inv in E as (mep & _ & E).
  destruct (0 <? max); [|by injection E as <- <- <- <-]. destruct (put_token _ _ _ _) as [r l]. intros Hn. apply bind_inv in E as ([k1 m1] & E1 & E).
  injection E as <- <- <- <-. rewrite Hn in E1. by injection E1 as <- <-.
Qed.

Lemma release_keeps msgs u target u' evs : release msgs u target = Ok (u', evs) -> s_intents u' = s_intents u /\ s_dhkey u' = s_dhkey u /\ s_conf u' = s_conf u.
Proof. unfold release. intros ([r e] & _ & E)%bind_inv. by injection E as <- <-. Qed.
Lemma release_all_keeps msgs u u' evs : release_all msgs u = Ok (u', evs) -> s_intents u' = s_intents u.
Proof. unfold release_all. intros ([r e] & _ & E)%bind_inv. by injection E as <- <-. Qed.

Lemma intent_of_sender_spec msgs s u t s' u' evs n : intent_of_sender msgs s u t = Ok (s', u', evs, n) ->
  n = negb (IS_AUTHORIZED (state (s' t))) /\ s_dhkey u' = s_dhkey u /\ s_conf u' = s_conf u /\
  (n = true -> crypto_tree (s_intents u') = crypto_tree (s_intents u)).
Proof.
  unfold intent_of_sender. intros ([[s1 k1] r1] & Ea & E)%bind_inv. destruct (IS_AUTHORIZED (state (s1 t))) eqn:Hn.
  - apply bind_inv in E as (fp & _ & E). apply bind_inv in E as ([u1 e1] & E1 & E). apply bind_inv in E as ([u2 e2] & E2 & E). injection E as <- <- <- <-.
    apply release_keeps in E1 as (_ & Hd1 & Hc1). apply release_keeps in E2 as (_ & Hd2 & Hc2). rewrite Hn, Hd2, Hd1, Hc2, Hc1. done.
  - injection E as <- <- <- <-. rewrite Hn. split; [done|]. split; [done|]. split; [done|]. intros _. cbn [s_intents set_intents]. by eapply sender_added.
Qed.
Lemma intent_of_receiver_spec now msgs s u t s' u' evs n : intent_of_receiver __local_rx_dhkey __local_tx_dhkey now msgs s u t = Ok (s', u', evs, n) ->
  n = negb (IS_AUTHORIZED (state (s' t))) /\ (n = true -> crypto_tree (s_intents u') = crypto_tree (s_intents u)).
Proof.
  unfold intent_of_receiver. intros ([[s1 u1] e1] & E1 & E)%bind_inv. apply bind_inv in E as (fp & _ & E). apply bind_inv in E as ([[[s2 k2] r2] m2] & E2 & E).
  assert (crypto_tree (s_intents u1) = crypto_tree (s_intents u)) as Hc1.
  { destruct (IS_AUTHORIZED (state (s t))); [|by injection E1 as <- <- <-]. by apply available_keeps in E1 as (E1 & _). }
  destruct (IS_AUTHORIZED (state (s2 t))) eqn:Hn.
  - apply bind_inv in E as ([u3 e3] & E3 & E). injection E as <- <- <- <-. by rewrite Hn.
  - injection E as <- <- <- <-. rewrite Hn. split; [done|]. intros _. cbn [s_intents set_intents]. rewrite <-Hc1. by eapply receiver_added.
Qed.

(** What a token has to satisfy before it is looked at. *)
Definition admitted (ctx : node_context) (u : subject_t) (t : np_aaatoken_t) : Prop :=
  _np_policy_check_compliance (required_attributes_policy u) (attributes t) = Ok true /\
  exists aud, (my_identity ctx = aud \/ realm_id ctx = aud) /\
    (if bool_decide (audience_type (s_conf u) = NP_MX_AUD_PROTECTED)
     then bytes_dhkey <$> np_str_id sodium_hex2bin (audience t ++ zero_bytes 64) = Ok aud else aud = dhkey_zero).

(** Sessions need permission: the token of a peer changes the sessions of a subject
    only when its attributes comply with the policy, its audience is the node's
    identity or realm, and it is authorised.  A token that is not admitted
    changes nothing at all; one that is admitted but not authorised is handed to the
    node's identity to be authorised. *)
Theorem session_needs_permission ctx now msgs s u t target s' u' evs :
  subject_dhkey_in (s_conf u) ≠ subject_dhkey_out (s_conf u) ->
  handle_intent ctx now msgs s u t target = Ok (s', u', evs) ->
  (crypto_tree (s_intents u') ≠ crypto_tree (s_intents u) -> admitted ctx u (s t) /\ IS_AUTHORIZED (state (s' t)) = true) /\
  (~ admitted ctx u (s t) -> s' = s /\ u' = u /\ evs = []) /\
  (admitted ctx u (s t) -> s_dhkey u = subject_dhkey_in (s_conf u) \/ s_dhkey u = subject_dhkey_out (s_conf u) ->
     IS_AUTHORIZED (state (s' t)) = false -> S_authz (my_identity ctx) target t ∈ evs).
Proof.
  intros Hne. unfold __np_property_handle_intent. intros (aud & Eaud & E)%bind_inv. apply bind_inv in E as (c & Ec & E).
  destruct (c && (bool_decide (my_identity ctx = aud) || bool_decide (realm_id ctx = aud))) eqn:Hadm.
  - apply andb_true_iff in Hadm as [-> Ho].
    assert (admitted ctx u (s t)) as Hin.
    { split; [done|]. exists aud. split; [apply orb_true_iff in Ho as [Ho|Ho]; apply bool_decide_eq_true in Ho; auto|].
      destruct (bool_decide (audience_type (s_conf u) = NP_MX_AUD_PROTECTED)); [done|by injection Eaud as <-]. }
    apply bind_inv in E as (fp & _ & E). apply bind_inv in E as ([[[s1 u1] e1] n1] & E1 & E). apply bind_inv in E as ([[[s2 u2] e2] n2] & E2 & E).
    injection E as <- <- <-. destruct (decide (subject_dhkey_in (s_conf u) = s_dhkey u)) as [D1|D1]; destruct (decide (subject_dhkey_out (s_conf u1) = s_dhkey u1)) as [D2|D2].
    + apply intent_of_sender_spec in E1 as (_ & Hd & Hcf & _). rewrite Hd, Hcf in D2. congruence.
    + injection E2 as <- <- <- <-. apply intent_of_sender_spec in E1 as (-> & _ & _ & Hcr). split; [|split; [done|]].
      * intros Hx. split; [done|]. destruct (IS_AUTHORIZED _); [done|]. by destruct Hx; apply Hcr.
      * intros _ _ Hn. rewrite Hn. cbn [negb app]. apply elem_of_app. right. left.
    + injection E1 as <- <- <- <-. apply bind_inv in E2 as ([[[s3 u3] e3] n3] & E3 & E2). injection E2 as <- <- <- <-.
      apply intent_of_receiver_spec in E3 as (-> & Hcr). split; [|split; [done|]].
      * intros Hx. split; [done|]. destruct (IS_AUTHORIZED _); [done|]. by destruct Hx; apply Hcr.
      * intros _ _ Hn. rewrite Hn. cbn [negb app orb]. apply elem_of_app. right. left.
    + injection E1 as <- <- <- <-. injection E2 as <- <- <- <-. split; [done|]. split; [done|]. intros _ [Hd|Hd]; congruence.
  - injection E as <- <- <-. split; [done|]. split; [done|]. intros [Hp (aud' & Ha' & Eaud')]. exfalso.
    assert (aud' = aud) as -> by (destruct (bool_decide (audience_type (s_conf u) = NP_MX_AUD_PROTECTED)); congruence). assert (c = true) as -> by congruence.
    cbn in Hadm. apply orb_false_iff in Hadm as [A B]. apply bool_decide_eq_false in A, B. destruct Ha'; congruence.
Qed.

(** In a realm, the tokens for public subjects are all ignored: their audience is compared as
    zero, and zero is neither the identity nor the realm. *)
Lemma realm_ignores_public ctx now msgs s u t target r : audience_type (s_conf u) = NP_MX_AUD_PUBLIC ->
  my_identity ctx ≠ dhkey_zero -> realm_id ctx ≠ dhkey_zero -> handle_intent ctx now msgs s u t target = Ok r -> r = (s, u, []).
Proof.
  intros Ea Hi Hr. unfold __np_property_handle_intent. rewrite Ea. rewrite bool_decide_eq_false_2 by done. rewrite bind_ok.
  intros (c & _ & E)%bind_inv. rewrite !bool_decide_eq_false_2 in E by done. rewrite andb_false_r in E. by injection E as <-.
Qed.

(** A token whose audience is not a number in hexadecimal digits ends the program when
    the subject is protected. *)
Lemma foreign_audience_asserts ctx now msgs s u t target : audience_type (s_conf u) = NP_MX_AUD_PROTECTED ->
  sodium_hex2bin (take 64 (audience (s t) ++ zero_bytes 64)) = None ->
  handle_intent ctx now msgs s u t target = Err Assert_failed.
Proof.
  intros Ea Eh. unfold __np_property_handle_intent. rewrite Ea. rewrite bool_decide_eq_true_2 by done. unfold np_str_id. by rewrite Eh.
Qed.

(** ** The token of the node *)

Lemma own_list (u : subject_t) (b : bool) l : own_tokens u = Some (b, l) ->
  (if b then recv_tokens (ledger (s_intents u)) else send_tokens (ledger (s_intents u))) = l /\
  s_dhkey u = (if b then subject_dhkey_in (s_conf u) else subject_dhkey_out (s_conf u)).
Proof. unfold own_tokens. repeat case_decide; by intros [= <- <-]. Qed.

(** What [issue] does when the token can be made. *)
Lemma issue_spec fc now n (b : bool) place s u t fp :
  _np_token_factory_new_message_intent_token encoder_leaves fc (new_obj n) now (factory_conf u) = Ok t ->
  np_aaatoken_get_fingerprint t false = Ok fp -> crypto_tree (s_intents u) !! fp = None ->
  let s' := <[new_loc n := t]> s in
  let l := if b then recv_tokens (ledger (s_intents u)) else send_tokens (ledger (s_intents u)) in
  exists u' ms, issue encoder_leaves fc now n b place s u = Ok (s', u', map S_rekey ms) /\
    (if b then recv_tokens (ledger (s_intents u')) else send_tokens (ledger (s_intents u'))) = place s' (new_loc n) l /\
    s_dhkey u' = s_dhkey u /\ s_conf u' = s_conf u /\
    crypto_tree (s_intents u') = <[fp := Crypto_session crypto_session_shared true true (random_read n) (random_write n)]> (crypto_tree (s_intents u)) /\
    ms = if b then [] else rekey_all (crypto_tree (s_intents u')) fp (random_write n).
Proof.
  intros Et Ef Ea s' l. unfold issue. rewrite Et, bind_ok. unfold _np_intent_update_session. rewrite Ef, !bind_ok.
  match goal with |- context [set_own_tokens ?x ?y ?z] => set (k := set_own_tokens x y z) end.
  assert (crypto_tree k = crypto_tree (s_intents u)) as Ek by (unfold k, set_own_tokens; by destruct b).
  unfold insert_missing. rewrite Ek, Ea. do 2 eexists. split; [reflexivity|]. cbn [s_intents set_intents s_dhkey s_conf]. split; [|by destruct b].
  unfold k, set_own_tokens, l. by destruct b.
Qed.

(** A subject has a token of its own: where there is none, or the one there is runs out,
    one is made, takes its place in the store and at the head of the list, so that the
    searches for the own token find it, and has a session under its fingerprint; a
    renewed token is announced at the next occasion. *)
Theorem own_token_issued fc now now' n s u (b : bool) old t fp :
  subject_dhkey_in (s_conf u) ≠ subject_dhkey_out (s_conf u) -> own_tokens u = Some (b, option_list old) ->
  (forall o, old = Some o -> runs_out now u (s o) = true /\ o ≠ new_loc n /\ aaatoken_cmp (s o) t = 0) ->
  _np_token_factory_new_message_intent_token encoder_leaves fc (new_obj n) now (factory_conf u) = Ok t ->
  np_aaatoken_get_fingerprint t false = Ok fp -> crypto_tree (s_intents u) !! fp = None ->
  exists s' u' evs, _np_msgproperty_upsert_token encoder_leaves fc now [n] s u = Ok (s', u', evs) /\
    s' (new_loc n) = t /\ (forall p, p ≠ new_loc n -> s' p = s p) /\
    own_tokens u' = Some (b, [new_loc n]) /\ _np_msgproperty_get_mxtoken u' = Some (new_loc n) /\
    pll_first_val (if b then recv_tokens (ledger (s_intents u')) else send_tokens (ledger (s_intents u'))) = Ok (new_loc n) /\
    crypto_tree (s_intents u') = <[fp := Crypto_session crypto_session_shared true true (random_read n) (random_write n)]> (crypto_tree (s_intents u)) /\
    (is_Some old -> resend_due now' u' = true) /\ (b = true -> evs = []).
Proof.
  intros Hne Hown Hold Et Ef Ea. destruct (own_list u b _ Hown) as [El Ed].
  assert (forall u' l, s_dhkey u' = s_dhkey u -> s_conf u' = s_conf u ->
    (if b then recv_tokens (ledger (s_intents u')) else send_tokens (ledger (s_intents u'))) = [l] ->
    own_tokens u' = Some (b, [l]) /\ _np_msgproperty_get_mxtoken u' = Some l) as Hfind.
  { intros u' l Hd Hc Hl. unfold own_tokens, _np_msgproperty_get_mxtoken. rewrite Hd, Hc, Ed. cbv zeta.
    destruct b; repeat case_decide; try congruence; by rewrite Hl. }
  unfold _np_msgproperty_upsert_token. rewrite Hown. destruct old as [o|].
  - change (option_list (Some o)) with [o] in *. destruct (Hold o eq_refl) as (Hrun & Hon & Hcmp). cbn [length upsert_loop].
    destruct (issue_spec fc now n b place_replacing s u t fp Et Ef Ea) as (u' & ms & Ei & Hl & Hd & Hc & Hcr & Hms).
    rewrite El in Hl |- *. cbn [lookup list_lookup]. rewrite Hrun, Ei, !bind_ok.
    assert (place_replacing (<[new_loc n := t]> s) (new_loc n) [o] = [new_loc n]) as Ep.
    { unfold place_replacing, replace_by. cbn [list_find].
      assert (_np_aaatoken_cmp (<[new_loc n := t]> s) o (new_loc n) = 0) as Ec.
      { unfold _np_aaatoken_cmp. rewrite decide_False by done. rewrite fn_lookup_insert. rewrite fn_lookup_insert_ne by congruence. exact Hcmp. }
      rewrite decide_True by done. done. }
    rewrite Ep in Hl.
    destruct (Hfind (set_last_intent u' 0) (new_loc n) Hd Hc Hl) as [H3 H4].
    do 3 eexists. split; [reflexivity|]. split; [apply fn_lookup_insert|]. split; [intros p Hp; by apply fn_lookup_insert_ne|].
    split; [exact H3|]. split; [exact H4|]. split; [cbn [s_intents set_last_intent]; by rewrite Hl|]. split; [exact Hcr|].
    split; [intros _; reflexivity|]. intros ->. by rewrite Hms.
  - change (option_list (@None loc)) with (@nil loc) in *. destruct (issue_spec fc now n b place_first s u t fp Et Ef Ea) as (u' & ms & Ei & Hl & Hd & Hc & Hcr & Hms).
    rewrite El in Hl. change (place_first (<[new_loc n := t]> s) (new_loc n) []) with [new_loc n] in Hl.
    destruct (Hfind u' (new_loc n) Hd Hc Hl) as [H3 H4]. rewrite Ei.
    do 3 eexists. split; [reflexivity|]. split; [apply fn_lookup_insert|]. split; [intros p Hp; by apply fn_lookup_insert_ne|].
    split; [exact H3|]. split; [exact H4|]. split; [by rewrite Hl|]. split; [exact Hcr|]. split; [by intros [? ?]|]. intros ->. by rewrite Hms.
Qed.

(** Announcing sets the session identifier, and is not repeated before the interval is over. *)
Lemma announcement_spaced now now' s u s' u' evs : ~ (now == 0)%Q ->
  __np_msgproperty_send_available_messages __local_rx_dhkey __local_tx_dhkey now s u = Ok (s', u', evs) -> evs ≠ [] ->
  (now' - now <= inject_Z (Z.min (token_min_ttl (s_conf u)) NP_TOKEN_MIN_RESEND_INTERVAL_SEC))%Q ->
  __np_msgproperty_send_available_messages __local_rx_dhkey __local_tx_dhkey now' s' u' = Ok (s', u', []).
Proof.
  intros Hz. unfold __np_msgproperty_send_available_messages at 1. destruct (_np_msgproperty_get_mxtoken u) as [t0|] eqn:Et; [|by intros [= _ _ <-]].
  destruct (resend_due now u); [|by intros [= _ _ <-]].
  intros ([d t1] & Ee & E)%bind_inv _ Hn. apply bind_inv in E as (name & _ & E). apply bind_inv in E as (fp & _ & E). injection E as <- <- <-.
  unfold __np_msgproperty_send_available_messages.
  match goal with |- context [_np_msgproperty_get_mxtoken ?v] => change (_np_msgproperty_get_mxtoken v) with (_np_msgproperty_get_mxtoken u) end.
  rewrite Et. unfold resend_due. cbn [last_intent_update set_last_intent s_conf set_intents].
  destruct (Qeq_bool now 0) eqn:Eq; [by apply Qeq_bool_iff in Eq|]. cbn [orb]. apply Qltb_ge in Hn. by rewrite Hn.
Qed.

End Tokens.

(** ** Witnesses *)

#[local] Existing Instance rfc8949.
#[local] Existing Instance toy_sodium.
#[local] Existing Instance whole_doubles.

Definition weather_id : np_dhkey_t := small_id 9.
Definition rx_id : np_dhkey_t := small_id 100.
Definition tx_id : np_dhkey_t := small_id 200.
Definition weather_conf : np_msgproperty_conf_t :=
  Msgproperty_conf None DEFAULT_MODE 16 0 20 3 300 3 (Z.lor FIFO OVERFLOW_PURGE) 16 20 false false NP_MX_AUD_PROTECTED (bytes_dhkey (replicate 32 3))
    dhkey_zero weather_id (_np_msgproperty_tweaked_dhkey rx_id tx_id INBOUND weather_id) (_np_msgproperty_tweaked_dhkey rx_id tx_id OUTBOUND weather_id).
Definition public_conf : np_msgproperty_conf_t :=
  Msgproperty_conf None DEFAULT_MODE 16 0 20 3 300 3 (Z.lor FIFO OVERFLOW_PURGE) 16 20 false false NP_MX_AUD_PUBLIC dhkey_zero
    dhkey_zero weather_id (_np_msgproperty_tweaked_dhkey rx_id tx_id INBOUND weather_id) (_np_msgproperty_tweaked_dhkey rx_id tx_id OUTBOUND weather_id).
Definition fresh_intents : subject_key := Subject_key 16 0 dhkey_zero (Ledger [] []) ∅ ∅.
Definition weather_sender : subject_t :=
  Subject (subject_dhkey_out weather_conf) (c_string "weather") weather_conf _np_msgproperty_run_t_new fresh_intents empty_block None 0 0.
Definition public_receiver : subject_t :=
  Subject (subject_dhkey_in public_conf) (c_string "weather") public_conf _np_msgproperty_run_t_new fresh_intents empty_block None 0 0.
Definition here : node_context := Node_context (small_id 5) (small_id 6) dhkey_zero true.
Definition stranger : np_aaatoken_t := set_state (IntentThms.intent_of 7 (peer_crypto 7)) 0.

Definition wished : np_mx_properties :=
  Mx_properties NP_MX_PROSUMER NP_MX_ACK_CLIENT (zero_bytes 32) NP_MX_AUD_PUBLIC dhkey_zero NP_MX_LIFO_REJECT 32 8 5 3600 60 20.

Lemma settings_roundtrip_witness : exists c, np_msgproperty_from_user public_conf wished [] = Ok c /\
    let q := np_msgproperty4user wished c in
    role q = role wished /\ ackmode q = ackmode wished /\ mx_cache_policy q = mx_cache_policy wished /\
    intent_ttl q = intent_ttl wished /\ intent_update_after q = intent_update_after wished /\
    (message_ttl q = if Qltb 0 (message_ttl wished) then message_ttl wished else msg_ttl public_conf) /\
    (mx_cache_size q = if 0 <? mx_cache_size wished then mx_cache_size wished else cache_size public_conf) /\
    (max_parallel q = if 0 <? max_parallel wished then max_parallel wished else u8 (max_threshold public_conf)) /\
    (max_retry q = if 0 <? max_retry wished then max_retry wished else retry public_conf).
Proof. apply (settings_roundtrip public_conf wished wished [] 3600 60); cbn; (reflexivity || lia). Defined.

Lemma registered_subject_found_witness :
  let '(keys', c') := np_msgproperty_register rx_id tx_id ∅ public_conf in
  (FLAG_CMP (mode_type public_conf) INBOUND = true -> _np_msgproperty_conf_get rx_id tx_id keys' INBOUND (subject_dhkey public_conf) = Ok (Some c')) /\
  (FLAG_CMP (mode_type public_conf) OUTBOUND = true -> _np_msgproperty_conf_get rx_id tx_id keys' OUTBOUND (subject_dhkey public_conf) = Ok (Some c')) /\
  (forall mode c0 r0, mode = INBOUND \/ mode = OUTBOUND ->
     (∅ : gmap np_dhkey_t (option (np_msgproperty_conf_t * np_msgproperty_run_t))) !! _np_msgproperty_tweaked_dhkey rx_id tx_id mode (subject_dhkey public_conf) = Some (Some (c0, r0)) ->
     _np_msgproperty_run_get rx_id tx_id keys' mode (subject_dhkey public_conf) = Ok (Some r0)) /\
  forall k, k ≠ _np_msgproperty_tweaked_dhkey rx_id tx_id INBOUND (subject_dhkey public_conf) ->
    k ≠ _np_msgproperty_tweaked_dhkey rx_id tx_id OUTBOUND (subject_dhkey public_conf) -> keys' !! k = (∅ : gmap np_dhkey_t (option (np_msgproperty_conf_t * np_msgproperty_run_t))) !! k.
Proof. apply (registered_subject_found rx_id tx_id ∅ public_conf); by_decide. Defined.

Lemma session_needs_permission_witness : exists s' u' evs, let s := fun _ : loc => stranger in let t := 4%positive in
  __np_property_handle_intent rx_id tx_id here 100 sample_message s public_receiver t weather_id = Ok (s', u', evs) /\
  (crypto_tree (s_intents u') ≠ crypto_tree (s_intents public_receiver) -> admitted here public_receiver (s t) /\ IS_AUTHORIZED (state (s' t)) = true) /\
  (~ admitted here public_receiver (s t) -> s' = s /\ u' = public_receiver /\ evs = []) /\
  (admitted here public_receiver (s t) ->
     s_dhkey public_receiver = subject_dhkey_in (s_conf public_receiver) \/ s_dhkey public_receiver = subject_dhkey_out (s_conf public_receiver) ->
     IS_AUTHORIZED (state (s' t)) = false -> S_authz (my_identity here) weather_id t ∈ evs).
Proof.
  assert (match __np_property_handle_intent rx_id tx_id here 100 sample_message (fun _ => stranger) public_receiver 4 weather_id with
          | Ok _ => true | Err _ => false end = true) as Ht by (vm_compute; reflexivity).
  destruct (__np_property_handle_intent rx_id tx_id here 100 sample_message (fun _ => stranger) public_receiver 4 weather_id) as [[[s' u'] evs]|] eqn:E;
    [|discriminate Ht].
  exists s', u', evs. cbv zeta. split; [exact E|].
  refine (session_needs_permission rx_id tx_id here 100 sample_message (fun _ => stranger) public_receiver 4 weather_id s' u' evs _ E). by_decide.
Defined.

Lemma own_token_issued_witness : exists t fp, let n := New_token 3 (sample_object 7) (replicate 32 5) (replicate 32 6) in let s := fun _ : loc => stranger in
  exists s' u' evs, _np_msgproperty_upsert_token no_leaves sample_context 100 [n] s weather_sender = Ok (s', u', evs) /\
    s' (new_loc n) = t /\ (forall p, p ≠ new_loc n -> s' p = s p) /\
    own_tokens u' = Some (false, [new_loc n]) /\ _np_msgproperty_get_mxtoken u' = Some (new_loc n) /\
    pll_first_val (send_tokens (ledger (s_intents u'))) = Ok (new_loc n) /\
    crypto_tree (s_intents u') = <[fp := Crypto_session crypto_session_shared true true (random_read n) (random_write n)]> (crypto_tree (s_intents weather_sender)) /\
    (is_Some (@None loc) -> resend_due 101 u' = true) /\ (false = true -> evs = []).
Proof.
  destruct (new_intent_ok no_leaves sample_context (sample_object 7) 100 TokenFactoryThms.sample_conf sample_input_ok (sample_object_ok 7 ltac:(by_decide)))
    as (t & l & Et & _). destruct (LedgerThms.fingerprint_defined t) as [fp Ef]. exists t, fp. cbv zeta.
  apply (own_token_issued no_leaves sample_context 100 101 (New_token 3 (sample_object 7) (replicate 32 5) (replicate 32 6)) (fun _ => stranger) weather_sender false None t fp).
  - by_decide.
  - by_decide.
  - discriminate.
  - exact Et.
  - exact Ef.
  - reflexivity.
Defined.
