(* ===== verification/Payload.v ===== *)
(** * The payload of messages: [src/np_message.c]

    What file [Chunk] leaves out: a message is created with header fields and a tree as
    its body, its body is sealed for a session and opened again, and read back as a tree.
    A copy for sending again is made of the binary form, and the container that waits for
    the response is set up.  [alloc n] is what a new block of [n] bytes holds, [random n]
    what [randombytes_buf] writes. *)
From Stdlib Require Import ZArith Lia QArith String.
From stdpp Require Import prelude.
From S2P Require Import Prelude Real Dhkey Sll Chunk Token KeyStates Crypto Treeval Tree Qcbor Serial Aaatoken Intent Msgproperty MsgpropertyLife.

Local Open Scope Z_scope.

(** [enum np_msg_flags] *)
Definition msg_ack_none : Z := 0x0001.
Definition msg_ack_client : Z := 0x0002.
Definition msg_ack_dest : Z := 0x0004.

(** The rest of [struct np_e2e_message_s]. *)
Record message_t := Message_t {
  binary : Chunk.np_e2e_message_t;
  msg_body : option np_tree_t;
  send_at : Q;
  msg_redelivery_at : Q;
}.
Definition set_binary (m : message_t) (b : Chunk.np_e2e_message_t) : message_t := Message_t b (msg_body m) (send_at m) (msg_redelivery_at m).
Definition set_bytes (b : Chunk.np_e2e_message_t) (st : np_e2e_messagestate) (bm : list Z) : Chunk.np_e2e_message_t :=
  Chunk.Message (msg_chunk_counter b) st (nonce b) (mac_e b) (header b) bm (msg_chunks b) (refs b).

Definition message_new : message_t := Message_t Chunk._np_message_t_new None 0 0.

(** ** The header *)

Definition mac_at : nat := Z.to_nat MSG_NONCE_SIZE.
Definition header_at : nat := Z.to_nat (MSG_NONCE_SIZE + MSG_MAC_SIZE).
Definition body_at : nat := Z.to_nat fixed_header_bytes.
Definition audience_at : nat := header_at + Z.to_nat _msg_header_dhkey_bytes.
Definition uuid_at : nat := audience_at + Z.to_nat _msg_header_dhkey_bytes.
Definition tstamp_at : nat := uuid_at + Z.to_nat _msg_header_uuid_bytes.
Definition ttl_at : nat := tstamp_at + Z.to_nat _msg_header_time_bytes.
Definition parts_at : nat := ttl_at + Z.to_nat _msg_header_ttl_bytes.
Definition flags_at : nat := parts_at + Z.to_nat _msg_header_parts_bytes.

(** [memcpy] through one of the pointers into the binary message. *)
Definition poke (at_ : nat) (v bm : list Z) : list Z := take at_ bm ++ v ++ drop (at_ + length v) bm.
Definition peek (at_ n : nat) (bm : list Z) : list Z := take n (drop at_ bm).

(** A little-endian number. *)
Definition le_value (b : list Z) : Z := foldr (fun x acc => x + 256 * acc) 0 b.

(** What the header pointers lead to, as the code reads it. *)
Section Fields.
Context `{Doubles}.
Definition get_subject (m : message_t) : np_dhkey_t := bytes_dhkey (peek 0 32 (header (binary m))).
Definition get_audience (m : message_t) : np_dhkey_t := bytes_dhkey (peek 32 32 (header (binary m))).
Definition get_uuid (m : message_t) : list Z := peek 64 16 (header (binary m)).
Definition get_tstamp (m : message_t) : Q := bits_dbl (le_value (peek 80 8 (header (binary m)))).
Definition get_ttl (m : message_t) : Z := le32 (peek 88 4 (header (binary m))).
Definition get_parts (m : message_t) : Z := header_parts (header (binary m)).
Definition get_flags (m : message_t) : Z := le16 (peek 94 2 (header (binary m))).
End Fields.

(** ** Making a message *)

Section Create.
Context `{Sodium} `{Qcbor} `{Doubles}.
Context (alloc random : Z -> list Z).

Definition realloc (bm : list Z) (n : Z) : list Z := take (Z.to_nat n) bm ++ drop (length bm) (alloc n).

(** The body: the serialised tree and padding; nothing but padding when the tree does not
    fit. *)
Definition padded (w : option (list Z)) (room : Z) : list Z :=
  let bytes := default [] w in bytes ++ random (room - Z.of_nat (length bytes)).

(** The seconds a message may travel, before its sender sends it again. *)
Definition ttl_of (out_prop : option np_msgproperty_conf_t) : result Z :=
  msg_ttl_ ← uint32_of (match out_prop with
                        | Some c => msg_ttl c / inject_Z (retry c + 1)
                        | None => MSGPROPERTY_DEFAULT_MSG_TTL
                        end);
  Ok (if msg_ttl_ =? 0 then 1 else msg_ttl_).
Definition flags_of (out_prop : option np_msgproperty_conf_t) : Z :=
  match out_prop with
  | Some c => if FLAG_CMP (ack_mode c) ACK_DESTINATION then msg_ack_dest
              else if FLAG_CMP (ack_mode c) ACK_CLIENT then msg_ack_client else msg_ack_none
  | None => msg_ack_none
  end.

Definition write_header (to subject uuid_ : list Z) (now : Q) (ttl flags : Z) (bm : list Z) : list Z :=
  let bm := poke header_at subject bm in
  let bm := poke audience_at to bm in
  let bm := poke uuid_at uuid_ bm in
  let bm := poke tstamp_at (dbl_bytes now) bm in
  let bm := poke ttl_at (le_bytes 4 ttl) bm in
  poke flags_at (le_bytes 2 flags) bm.

(** [out_prop]: the settings of the subject, if there are any; [uuid_] from
    [np_uuid_create]. *)
Definition _np_message_create (out_prop : option np_msgproperty_conf_t) (now : Q) (uuid_ : list Z) (msg : message_t)
    (to subject : np_dhkey_t) (the_data : option np_tree_t) : result message_t :=
  let b := binary msg in
  c_assert (bool_decide (Chunk.state b = msgstate_unknown));;
  let binary_length := message_length (match the_data with Some t => np_tree_get_byte_size t | None => 0 end) in
  let bm := realloc (binary_message b) binary_length in
  _ ← __set_header_pointer (set_bytes b (Chunk.state b) bm);
  ttl ← ttl_of out_prop;
  let bm := write_header (dhkey_bytes to) (dhkey_bytes subject) uuid_ now ttl (flags_of out_prop) bm in
  b ← (match the_data with
       | Some t =>
           w ← np_serializer_write_map (binary_length - fixed_header_bytes) t;
           let bm := poke body_at (padded w (binary_length - fixed_header_bytes)) bm in
           _np_message_calculate_chunking (set_bytes b msgstate_binary bm)
       | None => __set_header_pointer (set_bytes b msgstate_raw (set_parts bm 1))
       end);
  Ok (Message_t b (msg_body msg) now now).

(** A tree that does not fit is reported to nobody; the message stays raw. *)
Definition _np_message_setbody (msg : message_t) (new_body : np_tree_t) : result message_t :=
  let b := binary msg in
  c_assert (bool_decide (Chunk.state b = msgstate_raw));;
  let new_length := message_length (np_tree_get_byte_size new_body) in
  let bm := if new_length =? Z.of_nat (length (binary_message b)) then binary_message b else realloc (binary_message b) new_length in
  b ← __set_header_pointer (set_bytes b msgstate_raw bm);
  w ← np_serializer_write_map (new_length - fixed_header_bytes) new_body;
  match w with
  | None => Ok (set_binary msg b)
  | Some _ =>
      let bm := poke body_at (padded w (new_length - fixed_header_bytes)) bm in
      b ← _np_message_calculate_chunking (set_bytes b msgstate_binary bm);
      Ok (Message_t b None (send_at msg) (msg_redelivery_at msg))
  end.

(** ** Reading it *)

(** The reader is told the length of the whole message, but starts behind the header:
    [behind] is what the memory holds behind the message. *)
Definition _np_message_readbody (behind : list Z) (msg : message_t) : result (bool * message_t) :=
  let b := binary msg in
  c_assert (bool_decide (Chunk.state b = msgstate_binary));;
  '(t, r) ← np_serializer_read_map (drop body_at (binary_message b) ++ behind) np_tree_create;
  match r with
  | Some _ => Ok (true, Message_t (set_bytes b msgstate_raw (binary_message b)) (Some t) (send_at msg) (msg_redelivery_at msg))
  | None => Ok (false, Message_t (set_bytes b msgstate_binary (binary_message b)) None (send_at msg) (msg_redelivery_at msg))
  end.

Definition np_message_clone (copy_of_message message : message_t) : result message_t :=
  c_assert (bool_decide (Chunk.state (binary message) = msgstate_binary));;
  b ← __set_header_pointer (set_bytes (binary copy_of_message) (Chunk.state (binary message)) (binary_message (binary message)));
  Ok (Message_t b (msg_body copy_of_message) (send_at message) (msg_redelivery_at message)).

(** ** Sealing and opening the body *)

Definition _np_message_encrypt_payload (msg : message_t) (crypto_session : np_crypto_session_t) : result message_t :=
  let b := binary msg in
  c_assert (bool_decide (Chunk.state b = msgstate_binary));;
  let nonce := random MSG_NONCE_SIZE in
  let bm := poke 0 nonce (binary_message b) in
  let body := drop body_at bm in
  '(ciphertext, mac) ← np_crypto_session_encrypt crypto_session (Z.of_nat (length body)) MSG_MAC_SIZE body
                         (peek header_at (Z.to_nat MSG_HEADER_SIZE) bm) nonce;
  b ← __set_header_pointer (set_bytes b msgstate_binary (poke mac_at mac (poke body_at ciphertext bm)));
  Ok (set_binary msg b).

(** [None]: not opened. *)
Definition _np_message_decrypt_payload (msg : message_t) (crypto_session : np_crypto_session_t) : result (option message_t) :=
  let b := binary msg in
  c_assert (bool_decide (Chunk.state b = msgstate_binary));;
  let bm := binary_message b in
  let body := drop body_at bm in
  text ← np_crypto_session_decrypt crypto_session body (peek mac_at (Z.to_nat MSG_MAC_SIZE) bm) (Z.of_nat (length body))
           (peek header_at (Z.to_nat MSG_HEADER_SIZE) bm) (nonce b);
  match text with
  | None => Ok None
  | Some text => b ← __set_header_pointer (set_bytes b msgstate_binary (poke body_at text bm)); Ok (Some (set_binary msg b))
  end.

(** ** Waiting for the response *)

(** The container, for the node the message is for or for its subject. *)
Definition _np_message_add_response_handler (tweaked_out : np_dhkey_t -> np_dhkey_t) (out_prop : option np_msgproperty_conf_t)
    (self : message_t) (use_destination_from_header_to_field : bool) : np_responsecontainer_t :=
  let sent := get_tstamp self in
  Responsecontainer (get_uuid self)
    (if use_destination_from_header_to_field then get_audience self else dhkey_zero)
    (if use_destination_from_header_to_field then dhkey_zero else tweaked_out (get_subject self))
    0 (sent + match out_prop with Some c => msg_ttl c | None => MSGPROPERTY_DEFAULT_MSG_TTL end).

Definition _np_message_get_sessionid (self : message_t) : np_dhkey_t := get_audience self.

End Create.
