(* ===== verification/PayloadThms.v ===== *)
(** * A message arrives as it was sent

    Through the whole of file [Payload] and of file [Chunk]: the tree a message is created
    with is sealed, cut into packets, put together again from packets in any order, opened
    and read back, and the header says what the sender wrote. *)
From Stdlib Require Import ZArith Lia QArith String.
From stdpp Require Import prelude.
From S2P Require Import Prelude Real Dhkey Sll Chunk ChunkThms Token KeyStates Crypto Treeval Tree Qcbor Serial SerialThms Aaatoken AaatokenSpec TokenFactory TokenFactoryThms Intent IntentThms Msgproperty MsgpropertyThms MsgpropertyLife MsgpropertyLifeThms Payload.

Local Open Scope Z_scope.

(** ** Bytes *)

Lemma le_bytes_length n x : length (le_bytes n x) = n.
Proof. unfold le_bytes. by rewrite length_map, length_seq. Qed.

Lemma le_bytes_range n x : byte_list (le_bytes n x).
Proof.
  unfold le_bytes. apply Forall_map, Forall_forall. intros i _. cbn. unfold in_u. change (2 ^ 8) with 256. apply Z.mod_pos_bound. lia.
Qed.

Lemma le_value_bytes n x : 0 <= x < 2 ^ (8 * Z.of_nat n) -> le_value (le_bytes n x) = x.
Proof.
  revert x. induction n as [|n IH]; intros x Hx; [change (2 ^ (8 * Z.of_nat 0)) with 1 in Hx; cbn; lia|].
  unfold le_bytes. rewrite <- cons_seq, <- seq_shift. cbn [map le_value foldr]. rewrite map_map.
  change (foldr (fun x acc => x + 256 * acc) 0) with le_value.
  rewrite (map_ext _ (fun i => ((x / 256) ≫ (8 * Z.of_nat i)) mod 256)).
  2:{ intros i. f_equal. change 256 with (2 ^ 8). rewrite <- Z.shiftr_div_pow2, Z.shiftr_shiftr by lia. f_equal. lia. }
  change (map _ (List.seq 0 n)) with (le_bytes n (x / 256)).
  rewrite IH.
  - change (Z.of_nat 0) with 0. rewrite Z.mul_0_r, Z.shiftr_0_r. pose proof (Z.div_mod x 256). lia.
  - split; [apply Z.div_pos; lia|]. apply Z.div_lt_upper_bound; [lia|].
    replace (8 * Z.of_nat (S n)) with (8 + 8 * Z.of_nat n) in Hx by lia. rewrite Z.pow_add_r in Hx by lia. exact (proj2 Hx).
Qed.

Lemma le16_value a b : le16 [a; b] = le_value [a; b].
Proof. unfold le16. cbn. lia. Qed.
Lemma le32_value a b c d : le32 [a; b; c; d] = le_value [a; b; c; d].
Proof. unfold le32, le16. cbn. lia. Qed.

Lemma length_two {A} (l : list A) : length l = 2%nat -> exists a b, l = [a; b].
Proof. destruct l as [|a [|b [|]]]; try discriminate. by exists a, b. Qed.
Lemma length_four {A} (l : list A) : length l = 4%nat -> exists a b c d, l = [a; b; c; d].
Proof. destruct l as [|a [|b [|c [|d [|]]]]]; try discriminate. by exists a, b, c, d. Qed.

(** Writing over the middle of three parts, and reading it. *)
Lemma poke_middle at_ v a b c : length a = at_ -> length b = length v -> poke at_ v (a ++ b ++ c) = a ++ v ++ c.
Proof.
  intros <- Hb. unfold poke. rewrite take_app_length, <- Hb, <- drop_drop, drop_app_length, drop_app_length. done.
Qed.
Lemma peek_middle at_ n a b c : length a = at_ -> length b = n -> peek at_ n (a ++ b ++ c) = b.
Proof. intros <- <-. unfold peek. by rewrite drop_app_length, take_app_length. Qed.

(** ** The parts of a message *)

Lemma set_header_pointer_parts b no mc hd body :
  length no = 12%nat -> length mc = 16%nat -> length hd = 96%nat -> binary_message b = no ++ mc ++ hd ++ body ->
  __set_header_pointer b = Ok (Chunk.Message (msg_chunk_counter b) (Chunk.state b) no mc hd (binary_message b) (msg_chunks b) (refs b)).
Proof.
  intros Ln Lm Lh E. unfold __set_header_pointer. rewrite E.
  rewrite slice_front by (unfold MSG_NONCE_SIZE; lia). cbn [mbind result_bind].
  rewrite (slice_middle no mc _ MSG_NONCE_SIZE) by (unfold MSG_NONCE_SIZE, MSG_MAC_SIZE; lia). cbn [mbind result_bind].
  rewrite (app_assoc no mc).
  rewrite (slice_middle (no ++ mc)) by (rewrite ?length_app; unfold MSG_NONCE_SIZE, MSG_MAC_SIZE, MSG_HEADER_SIZE; simpl; lia).
  cbn [mbind result_bind]. by rewrite <- (app_assoc no mc).
Qed.

Lemma app_inj_4 {A} (a b c d a' b' c' d' : list A) :
  length a = length a' -> length b = length b' -> length c = length c' ->
  a ++ b ++ c ++ d = a' ++ b' ++ c' ++ d' -> a = a' /\ b = b' /\ c = c' /\ d = d'.
Proof. intros H1 H2 H3 E. by apply app_inj_1 in E as [-> [-> [-> ->]%app_inj_1]%app_inj_1]. Qed.

(** A message in one piece with a body of [n] chunks, the header and body given. *)
Record letter (n : nat) (m : message_t) (hd text : list Z) : Prop := {
  lt_whole : whole n (binary m) text;
  lt_header : header (binary m) = hd;
  lt_bytes : byte_list text;
}.

Definition header_bytes (subject to : np_dhkey_t) (uuid_ : list Z) `{Doubles} (now : Q) (ttl parts flags : Z) : list Z :=
  dhkey_bytes subject ++ dhkey_bytes to ++ uuid_ ++ dbl_bytes now ++ le_bytes 4 ttl ++ le_bytes 2 parts ++ le_bytes 2 flags.

Section Payload.
Context `{Sodium} `{Qcbor} `{Doubles}.
Context (alloc random : Z -> list Z).
Context (Hal : forall n, 0 <= n -> length (alloc n) = Z.to_nat n) (Hab : forall n, byte_list (alloc n)).
Context (Hrl : forall n, 0 <= n -> length (random n) = Z.to_nat n) (Hrb : forall n, byte_list (random n)).

(** A tree that travels, in at most 72 chunks. *)
Definition sendable (t : np_tree_t) : Prop :=
  serial (np_treeval_new_tree t) /\ (depth (np_treeval_new_tree t) <= QCBOR_MAX_ARRAY_NESTING)%nat /\
  (width (np_treeval_new_tree t) <= QCBOR_MAX_ITEMS_IN_ARRAY)%nat /\ 0 < np_tree_get_byte_size t <= 72 * 900.

Definition chunks_for (t : np_tree_t) : nat := Z.to_nat ((np_tree_get_byte_size t + 899) / 900).

Lemma message_length_chunks t : sendable t ->
  message_length (np_tree_get_byte_size t) = 124 + 900 * Z.of_nat (chunks_for t) /\ (0 < chunks_for t <= 72)%nat /\
  np_tree_get_byte_size t <= 900 * Z.of_nat (chunks_for t).
Proof.
  intros (_ & _ & _ & Hs). unfold message_length, chunks_for. change chunk_bytes with 900. change fixed_header_bytes with 124.
  set (x := np_tree_get_byte_size t) in *. rewrite Z2Nat.id by (apply Z.div_pos; lia).
  destruct (Z.eqb_spec (x mod 900) 0) as [E|E]; divlia.
Qed.

Lemma letter_header_length subject to uuid_ now ttl parts flags :
  dhkey_wf subject -> dhkey_wf to -> length uuid_ = 16%nat -> length (header_bytes subject to uuid_ now ttl parts flags) = 96%nat.
Proof.
  intros Hs Ht Hu. unfold header_bytes, dbl_bytes. by rewrite !length_app, !le_bytes_length, !dhkey_bytes_length, Hu.
Qed.

(** The pokes of [write_header], in one go. *)
Lemma write_header_parts p0 hd0 rest to subject uuid_ now ttl flags :
  dhkey_wf subject -> dhkey_wf to -> length p0 = 28%nat -> length hd0 = 96%nat -> length uuid_ = 16%nat ->
  write_header (dhkey_bytes to) (dhkey_bytes subject) uuid_ now ttl flags (p0 ++ hd0 ++ rest) =
  p0 ++ (dhkey_bytes subject ++ dhkey_bytes to ++ uuid_ ++ dbl_bytes now ++ le_bytes 4 ttl ++ peek 92 2 hd0 ++ le_bytes 2 flags) ++ rest.
Proof.
  intros Hs Ht Lp Lh Lu.
  destruct (split_at 32 hd0) as (h1 & r1 & -> & L1); [lia|]. rewrite length_app in Lh.
  destruct (split_at 32 r1) as (h2 & r2 & -> & L2); [lia|]. rewrite length_app in Lh.
  destruct (split_at 16 r2) as (h3 & r3 & -> & L3); [lia|]. rewrite length_app in Lh.
  destruct (split_at 8 r3) as (h4 & r4 & -> & L4); [lia|]. rewrite length_app in Lh.
  destruct (split_at 4 r4) as (h5 & r5 & -> & L5); [lia|]. rewrite length_app in Lh.
  destruct (split_at 2 r5) as (h6 & h7 & -> & L6); [lia|]. rewrite length_app in Lh.
  assert (length h7 = 2%nat) as L7 by lia.
  assert (peek 92 2 (h1 ++ h2 ++ h3 ++ h4 ++ h5 ++ h6 ++ h7) = h6) as ->.
  { rewrite !app_assoc, <- (app_assoc _ h6 h7). apply peek_middle; [rewrite !length_app; lia|done]. }
  unfold write_header.
  set (d1 := dhkey_bytes subject). set (d2 := dhkey_bytes to). set (d4 := dbl_bytes now). set (d5 := le_bytes 4 ttl). set (d7 := le_bytes 2 flags).
  assert (length d1 = 32%nat /\ length d2 = 32%nat /\ length d4 = 8%nat /\ length d5 = 4%nat /\ length d7 = 2%nat) as (M1 & M2 & M4 & M5 & M7).
  { unfold d1, d2, d4, d5, d7, dbl_bytes. by rewrite !le_bytes_length, !dhkey_bytes_length by done. }
  change header_at with 28%nat. change audience_at with 60%nat. change uuid_at with 92%nat. change tstamp_at with 108%nat.
  change ttl_at with 116%nat. change flags_at with 122%nat.
  rewrite <- !app_assoc.
  rewrite (poke_middle 28 d1 p0 h1) by congruence.
  rewrite (app_assoc p0 d1), (poke_middle 60 d2 _ h2) by (rewrite ?length_app; lia).
  rewrite (app_assoc _ d2), (poke_middle 92 uuid_ _ h3) by (rewrite ?length_app; lia).
  rewrite (app_assoc _ uuid_), (poke_middle 108 d4 _ h4) by (rewrite ?length_app; lia).
  rewrite (app_assoc _ d4), (poke_middle 116 d5 _ h5) by (rewrite ?length_app; lia).
  rewrite (app_assoc _ d5), (app_assoc _ h6), (poke_middle 122 d7 _ h7) by (rewrite ?length_app; lia).
  by rewrite <- !app_assoc.
Qed.

Lemma tree_bytes t : sendable t ->
  exists bytes, (forall room, np_tree_get_byte_size t <= room -> np_serializer_write_map room t = Ok (Some bytes)) /\
    Z.of_nat (length bytes) <= np_tree_get_byte_size t /\ byte_list bytes /\
    forall extra, np_serializer_read_map (bytes ++ extra) np_tree_create = Ok (t, Some (Z.of_nat (length bytes))).
Proof.
  intros (Hs & Hd & Hw & _). destruct (tree_serialised t [] Hs Hd Hw) as (bytes & H3 & H4 & _ & H5).
  exists bytes. split_and!; try done. intros extra.
  destruct (tree_serialised t extra Hs Hd Hw) as (bytes' & H3' & _ & H6 & _).
  specialize (H3 _ (Z.le_refl _)). specialize (H3' _ (Z.le_refl _)). congruence.
Qed.

Lemma padded_length bytes room : Z.of_nat (length bytes) <= room -> length (padded random (Some bytes) room) = Z.to_nat room.
Proof.
  intros Hl. change (padded random (Some bytes) room) with (bytes ++ random (room - Z.of_nat (length bytes))). rewrite length_app, Hrl by lia. lia.
Qed.

Lemma poke_end at_ v a b : length a = at_ -> length b = length v -> poke at_ v (a ++ b) = a ++ v.
Proof. intros Ha Hb. rewrite <- (app_nil_r b), poke_middle, app_nil_r by done. done. Qed.

(** [set_parts] on a message in parts. *)
Lemma set_parts_parts parts p0 d1 d2 d3 d4 d5 d6 d7 rest :
  length p0 = 28%nat -> length d1 = 32%nat -> length d2 = 32%nat -> length d3 = 16%nat -> length d4 = 8%nat -> length d5 = 4%nat ->
  length d6 = 2%nat ->
  set_parts (p0 ++ (d1 ++ d2 ++ d3 ++ d4 ++ d5 ++ d6 ++ d7) ++ rest) (Z.of_nat parts) =
  p0 ++ (d1 ++ d2 ++ d3 ++ d4 ++ d5 ++ le_bytes 2 (Z.of_nat parts) ++ d7) ++ rest.
Proof.
  intros L0 L1 L2 L3 L4 L5 L6. unfold set_parts. change (Z.to_nat _) with 120%nat.
  replace (p0 ++ (d1 ++ d2 ++ d3 ++ d4 ++ d5 ++ d6 ++ d7) ++ rest) with ((p0 ++ d1 ++ d2 ++ d3 ++ d4 ++ d5) ++ d6 ++ d7 ++ rest)
    by (by rewrite <- !app_assoc).
  assert (length (p0 ++ d1 ++ d2 ++ d3 ++ d4 ++ d5) = 120%nat) as <- by (rewrite !length_app; lia).
  rewrite take_app_length, drop_app_length. destruct (length_two d6 L6) as (x & y & ->).
  rewrite <- !app_assoc. do 6 f_equal. unfold put16, le_bytes. cbn. f_equal; [|f_equal].
  - unfold u16. rewrite Z.shiftr_0_r. change 255 with (Z.ones 8). rewrite Z.land_ones by lia. change (2 ^ 8) with 256. change (2 ^ 16) with 65536. divlia.
  - unfold u16. rewrite !Z.shiftr_div_pow2 by lia. change (2 ^ 8) with 256. change (2 ^ 16) with 65536. divlia.
Qed.

Lemma create_letter out_prop now uuid_ to subject t ttl :
  sendable t -> dhkey_wf subject -> dhkey_wf to -> length uuid_ = 16%nat -> byte_list uuid_ -> ttl_of out_prop = Ok ttl ->
  exists m bytes pad, _np_message_create alloc random out_prop now uuid_ message_new to subject (Some t) = Ok m /\
    letter (chunks_for t) m (header_bytes subject to uuid_ now ttl (Z.of_nat (chunks_for t)) (flags_of out_prop)) (bytes ++ pad) /\
    (forall extra, np_serializer_read_map (bytes ++ extra) np_tree_create = Ok (t, Some (Z.of_nat (length bytes)))).
Proof.
  intros Ht Hs Hto Hu Hub Httl. destruct (message_length_chunks t Ht) as (El & Hn & Hfit). set (n := chunks_for t) in *.
  destruct (tree_bytes t Ht) as (bytes & Hwr & Hlb & Hbb & Hrd).
  unfold _np_message_create. rewrite bool_decide_true by done. change (c_assert true) with (Ok tt). rewrite bind_ok. rewrite El.
  assert (realloc alloc (binary_message (binary message_new)) (124 + 900 * Z.of_nat n) = alloc (124 + 900 * Z.of_nat n)) as ->.
  { unfold realloc. cbn [message_new binary Chunk._np_message_t_new binary_message]. by rewrite take_nil. }
  pose proof (Hal (124 + 900 * Z.of_nat n) ltac:(lia)) as La. pose proof (Hab (124 + 900 * Z.of_nat n)) as Hb.
  set (mem := alloc (124 + 900 * Z.of_nat n)) in *. clearbody mem.
  destruct (split_at 12 mem) as (no & r1 & -> & L1); [lia|]. rewrite length_app in La.
  destruct (split_at 16 r1) as (mc & r2 & -> & L2); [lia|]. rewrite length_app in La.
  destruct (split_at 96 r2) as (hd0 & body0 & -> & L3); [lia|]. rewrite length_app in La.
  apply byte_list_app in Hb as [Hbno [Hbmc [Hbh Hbb0]%byte_list_app]%byte_list_app].
  erewrite set_header_pointer_parts; [|exact L1|exact L2|exact L3|reflexivity]. rewrite bind_ok, Httl, bind_ok.
  rewrite (app_assoc no mc), write_header_parts by (rewrite ?length_app; lia || done).
  replace (124 + 900 * Z.of_nat n - fixed_header_bytes) with (900 * Z.of_nat n) by (change fixed_header_bytes with 124; lia).
  rewrite Hwr, bind_ok by done.
  pose proof (padded_length bytes (900 * Z.of_nat n) ltac:(lia)) as Lp.
  assert (padded random (Some bytes) (900 * Z.of_nat n) = bytes ++ random (900 * Z.of_nat n - Z.of_nat (length bytes))) as Ep by done.
  set (pad := random (900 * Z.of_nat n - Z.of_nat (length bytes))) in *.
  set (h := dhkey_bytes subject ++ dhkey_bytes to ++ uuid_ ++ dbl_bytes now ++ le_bytes 4 ttl ++ peek 92 2 hd0 ++ le_bytes 2 (flags_of out_prop)).
  assert (length (peek 92 2 hd0) = 2%nat) as Lk by (unfold peek; rewrite length_take, length_drop; lia).
  assert (length h = 96%nat) as Lh.
  { unfold h, dbl_bytes. by rewrite !length_app, !le_bytes_length, !dhkey_bytes_length, Hu, Lk. }
  rewrite (app_assoc (no ++ mc) h), (poke_end body_at) by (rewrite ?length_app; change body_at with 124%nat; lia).
  rewrite <- (app_assoc (no ++ mc) h), <- (app_assoc no mc), Ep.
  assert (byte_list (bytes ++ pad)) as Hbp by (apply byte_list_app; split; [done|apply Hrb]).
  set (b := set_bytes (binary message_new) msgstate_binary (no ++ mc ++ h ++ bytes ++ pad)).
  assert (byte_list h) as Hbh'.
  { unfold h, dbl_bytes. rewrite !byte_list_app. split_and!; try apply le_bytes_range; try apply dhkey_bytes_range; [done|].
    by apply Forall_take, Forall_drop. }
  destruct (calculate_chunking_whole b n) as (b' & body' & Ec & Hw & Ebin & _); try done.
  { cbn. rewrite !byte_list_app. rewrite byte_list_app in Hbp. tauto. }
  { cbn. rewrite !length_app. rewrite Ep, length_app in Lp. lia. }
  { lia. }
  rewrite Ec, bind_ok. eexists _, bytes, pad. split; [reflexivity|]. split; [|exact Hrd].
  assert (no ++ mc ++ header_bytes subject to uuid_ now ttl (Z.of_nat n) (flags_of out_prop) ++ bytes ++ pad = binary_message b') as Eb.
  { rewrite Ebin. cbn [b set_bytes binary_message]. unfold h. rewrite !(app_assoc no mc).
    rewrite set_parts_parts; rewrite ?dhkey_bytes_length, ?le_bytes_length; try done; try (rewrite length_app; lia).
  }
  pose proof Hw as [_ _ Ew Ln Lm Lhd _ _ _]. rewrite Ew in Eb.
  apply app_inj_4 in Eb as (_ & _ & Eh & Et); [|lia|lia|].
  2:{ rewrite letter_header_length by done. lia. }
  split; cbn [binary]; [by rewrite Et|by rewrite Eh|done].
Qed.

(** Sealed for a session, with a new nonce; the header stays. *)
Lemma encrypt_letter n m hd text s :
  letter n m hd text -> let no := random MSG_NONCE_SIZE in
  exists m', _np_message_encrypt_payload random m s = Ok m' /\
    letter n m' hd (aead_encrypt (session_key_to_write s) no hd text).1 /\
    nonce (binary m') = no /\ mac_e (binary m') = (aead_encrypt (session_key_to_write s) no hd text).2.
Proof.
  intros [Hw <- Hb] no. pose proof Hw as [Hst Hch Ebin Ln Lm Lh Lb Hp [Hbm Hbn]].
  set (b := binary m) in *. set (e := aead_encrypt (session_key_to_write s) no (header b) text).
  destruct (aead_lengths (session_key_to_write s) no (header b) text) as [Lc Lmac].
  destruct (aead_bytes (session_key_to_write s) no (header b) text Hb) as [Hbc Hbmac]. fold e in Lc, Lmac, Hbc, Hbmac.
  assert (length no = 12%nat) as Lno by (unfold no; rewrite Hrl by done; reflexivity).
  unfold _np_message_encrypt_payload. fold b no. rewrite Hst, bool_decide_true by done. change (c_assert true) with (Ok tt). rewrite bind_ok.
  assert (poke 0 no (binary_message b) = no ++ mac_e b ++ header b ++ text) as ->.
  { rewrite Ebin. change (nonce b ++ mac_e b ++ header b ++ text) with ([] ++ nonce b ++ mac_e b ++ header b ++ text).
    by rewrite (poke_middle 0 no []) by (done || lia). }
  assert (drop body_at (no ++ mac_e b ++ header b ++ text) = text) as ->.
  { rewrite (app_assoc no), (app_assoc _ (header b)). change body_at with 124%nat. apply drop_app_length'. rewrite !length_app. lia. }
  assert (peek header_at (Z.to_nat MSG_HEADER_SIZE) (no ++ mac_e b ++ header b ++ text) = header b) as ->.
  { rewrite (app_assoc no). apply peek_middle; [change header_at with 28%nat; rewrite length_app; lia|exact Lh]. }
  unfold np_crypto_session_encrypt. rewrite (Z.eqb_refl (Z.of_nat _)).
  change (c_assert true) with (Ok tt). change (c_assert (_ =? MSG_MAC_SIZE)) with (Ok tt). rewrite !bind_ok. fold e. destruct e as [c mac] eqn:Ee. cbn [fst snd] in *. cbv beta iota.
  assert (poke mac_at mac (poke body_at c (no ++ mac_e b ++ header b ++ text)) = no ++ mac ++ header b ++ c) as ->.
  { rewrite (app_assoc no), (app_assoc _ (header b)), (poke_end body_at) by (change body_at with 124%nat; rewrite ?length_app; lia).
    rewrite <- !app_assoc. apply poke_middle; [exact Lno|lia]. }
  erewrite set_header_pointer_parts; [|exact Lno|exact Lmac|exact Lh|reflexivity]. rewrite bind_ok.
  eexists. split; [reflexivity|]. split; [|done]. split; [|done|done]. split; cbn; try done; [lia|]. split; [done|apply Hrb].
Qed.

(** Opened with the key it was sealed with. *)
Lemma decrypt_letter n m hd text s key :
  letter n m hd (aead_encrypt key (nonce (binary m)) hd text).1 -> mac_e (binary m) = (aead_encrypt key (nonce (binary m)) hd text).2 ->
  session_key_to_read s = key -> byte_list text ->
  exists m', _np_message_decrypt_payload m s = Ok (Some m') /\ letter n m' hd text.
Proof.
  intros [Hw <- _] Em Ek Hb. pose proof Hw as [Hst Hch Ebin Ln Lm Lh Lb Hp [Hbm Hbn]].
  set (b := binary m) in *. destruct (aead_lengths key (nonce b) (header b) text) as [Lc Lmac].
  pose proof (aead_roundtrip key (nonce b) (header b) text) as Hrt.
  set (c := (aead_encrypt key (nonce b) (header b) text).1) in *.
  unfold _np_message_decrypt_payload. fold b. rewrite Hst, bool_decide_true by done. change (c_assert true) with (Ok tt). rewrite bind_ok. rewrite Ebin.
  assert (drop body_at (nonce b ++ mac_e b ++ header b ++ c) = c) as ->.
  { rewrite (app_assoc (nonce b)), (app_assoc _ (header b)). change body_at with 124%nat. apply drop_app_length'. rewrite !length_app. lia. }
  assert (peek header_at (Z.to_nat MSG_HEADER_SIZE) (nonce b ++ mac_e b ++ header b ++ c) = header b) as ->.
  { rewrite (app_assoc (nonce b)). apply peek_middle; [change header_at with 28%nat; rewrite length_app; lia|exact Lh]. }
  assert (peek mac_at (Z.to_nat MSG_MAC_SIZE) (nonce b ++ mac_e b ++ header b ++ c) = mac_e b) as -> by (apply peek_middle; [exact Ln|exact Lm]).
  unfold np_crypto_session_decrypt. rewrite (Z.eqb_refl (Z.of_nat _)). change (c_assert true) with (Ok tt). rewrite !bind_ok.
  rewrite Ek, Em, Hrt.
  assert (poke body_at text (nonce b ++ mac_e b ++ header b ++ c) = nonce b ++ mac_e b ++ header b ++ text) as Ep.
  { rewrite (app_assoc (nonce b)), (app_assoc _ (header b)), (poke_end body_at) by (change body_at with 124%nat; rewrite ?length_app; lia).
    by rewrite <- !app_assoc. }
  rewrite Em in Ep. rewrite Ep.
  erewrite set_header_pointer_parts; [|exact Ln|exact Lmac|exact Lh|reflexivity]. rewrite bind_ok.
  eexists. split; [reflexivity|]. split; [|done|done]. split; cbn; try done; [lia|]. by rewrite Em in Hbm.
Qed.

(** The header as the receiver reads it. *)
Definition addressed (m : message_t) (subject to : np_dhkey_t) (uuid_ : list Z) (now : Q) (ttl flags : Z) : Prop :=
  get_subject m = subject /\ get_audience m = to /\ get_uuid m = uuid_ /\ get_tstamp m = now /\ get_ttl m = ttl /\ get_flags m = flags.

Lemma header_read m subject to uuid_ now ttl parts flags :
  dhkey_wf subject -> dhkey_wf to -> length uuid_ = 16%nat -> is_double now -> 0 <= ttl < 2 ^ 32 -> 0 <= flags < 2 ^ 16 ->
  header (binary m) = header_bytes subject to uuid_ now ttl parts flags -> addressed m subject to uuid_ now ttl flags.
Proof.
  intros Hs Ht Hu Hd Httl Hf E. unfold addressed, get_subject, get_audience, get_uuid, get_tstamp, get_ttl, get_flags. rewrite E. unfold header_bytes.
  pose proof (dhkey_bytes_length subject Hs) as L1. pose proof (dhkey_bytes_length to Ht) as L2.
  assert (length (dbl_bytes now) = 8%nat) as L4 by apply le_bytes_length.
  pose proof (le_bytes_length 4 ttl) as L5. pose proof (le_bytes_length 2 parts) as L6. pose proof (le_bytes_length 2 flags) as L7.
  set (d1 := dhkey_bytes subject) in *. set (d2 := dhkey_bytes to) in *. set (d4 := dbl_bytes now) in *. set (d5 := le_bytes 4 ttl) in *.
  set (d6 := le_bytes 2 parts) in *. set (d7 := le_bytes 2 flags) in *.
  assert (forall a b c : list Z, forall at_ n, length a = at_ -> length b = n -> peek at_ n (a ++ b ++ c) = b) as Hp by (intros; by apply peek_middle).
  split_and!.
  - etransitivity; [apply (f_equal bytes_dhkey (Hp [] d1 _ 0%nat 32%nat eq_refl L1))|]. by apply bytes_dhkey_of_key.
  - rewrite (Hp d1 d2) by done. by apply bytes_dhkey_of_key.
  - rewrite (app_assoc d1 d2). apply Hp; [rewrite length_app; lia|done].
  - rewrite (app_assoc d1 d2), (app_assoc _ uuid_), Hp by (rewrite ?length_app; lia). unfold d4, dbl_bytes.
    rewrite le_value_bytes by (change (8 * Z.of_nat 8) with 64; apply (bits_range now Hd)). by apply bits_roundtrip.
  - rewrite (app_assoc d1 d2), (app_assoc _ uuid_), (app_assoc _ d4), Hp by (rewrite ?length_app; lia).
    destruct (length_four d5 L5) as (x & y & z & w & Ed). rewrite Ed, le32_value, <- Ed. by apply le_value_bytes.
  - rewrite (app_assoc d1 d2), (app_assoc _ uuid_), (app_assoc _ d4), (app_assoc _ d5), (app_assoc _ d6).
    rewrite <- (app_nil_r d7), Hp by (rewrite ?length_app; lia).
    destruct (length_two d7 L7) as (x & y & Ed). rewrite Ed, le16_value, <- Ed. by apply le_value_bytes.
Qed.

Lemma readbody_letter behind n m hd bytes pad t len :
  letter n m hd (bytes ++ pad) -> (forall extra, np_serializer_read_map (bytes ++ extra) np_tree_create = Ok (t, Some len)) ->
  exists m', _np_message_readbody behind m = Ok (true, m') /\ msg_body m' = Some t /\ header (binary m') = hd.
Proof.
  intros [Hw <- _] Hrd. pose proof Hw as [Hst Hch Ebin Ln Lm Lh Lb Hp _].
  unfold _np_message_readbody. rewrite Hst, bool_decide_true by done. change (c_assert true) with (Ok tt). rewrite bind_ok, Ebin.
  assert (drop body_at (nonce (binary m) ++ mac_e (binary m) ++ header (binary m) ++ bytes ++ pad) = bytes ++ pad) as ->.
  { rewrite (app_assoc (nonce _)), (app_assoc _ (header _)). change body_at with 124%nat. apply drop_app_length'. rewrite !length_app. lia. }
  rewrite <- app_assoc, Hrd, bind_ok. eexists. split; [reflexivity|]. done.
Qed.

(** What one message of a subject goes through between two applications. *)
Definition sealed (out_prop : option np_msgproperty_conf_t) (now : Q) (uuid_ : list Z) (to subject : np_dhkey_t) (t : np_tree_t)
    (s : np_crypto_session_t) : result message_t :=
  m ← _np_message_create alloc random out_prop now uuid_ message_new to subject (Some t);
  _np_message_encrypt_payload random m s.
Definition opened (fuel : nat) (behind : list Z) (arrived : list (list Z)) (s : np_crypto_session_t) : result (option (bool * message_t)) :=
  m ← receive fuel arrived Chunk._np_message_t_new;
  '(m, complete) ← _np_message_deserialize_chunks m;
  if (complete : bool) then
    o ← _np_message_decrypt_payload (Message_t m None 0 0) s;
    match o with None => Ok None | Some m => r ← _np_message_readbody behind m; Ok (Some r) end
  else Ok None.

Lemma uint32_range x n : uint32_of x = Ok n -> 0 <= n < 2 ^ 32.
Proof. unfold uint32_of. destruct (_ && _) eqn:E; [|discriminate]. intros [= <-]. lia. Qed.

Lemma ttl_range out_prop ttl : ttl_of out_prop = Ok ttl -> 0 <= ttl < 2 ^ 32.
Proof.
  unfold ttl_of. destruct (uint32_of _) as [x|] eqn:E; [|discriminate]. apply uint32_range in E. cbn. intros [= <-]. by destruct (x =? 0).
Qed.
Lemma flags_range out_prop : 0 <= flags_of out_prop < 2 ^ 16.
Proof. unfold flags_of. destruct out_prop as [c|]; [destruct (FLAG_CMP _ _); [|destruct (FLAG_CMP _ _)]|]; done. Qed.

(** C5: A message arrives as it was sent: created with a tree that travels, sealed with the
    session's key and cut into packets, it is put together from the packets in any order,
    opened with the same key and read back as the same tree, with the subject, audience,
    identifier, time, lifetime and flags its sender wrote. Room has to be left in the first
    two bytes of the seal, which count the packets. *)
Theorem message_body_delivered out_prop now uuid_ to subject t ttl s_out s_in behind blob fuel :
  sendable t -> dhkey_wf subject -> dhkey_wf to -> length uuid_ = 16%nat -> byte_list uuid_ -> is_double now ->
  ttl_of out_prop = Ok ttl -> session_key_to_read s_in = session_key_to_write s_out ->
  (16 <= length blob)%nat -> (chunks_for t < fuel)%nat ->
  exists m, sealed out_prop now uuid_ to subject t s_out = Ok m /\
    (le16 (mac_e (binary m)) + Z.of_nat (chunks_for t) <= 65536 ->
     exists ms, _np_message_serialize_chunked (binary m) = Ok ms /\ length (packets blob ms) = chunks_for t /\
       forall arrived, arrived ≡ₚ packets blob ms ->
       exists m', opened fuel behind arrived s_in = Ok (Some (true, m')) /\ msg_body m' = Some t /\
         addressed m' subject to uuid_ now ttl (flags_of out_prop)).
Proof.
  intros Ht Hs Hto Hu Hub Hd Httl Hkey Hblob Hf.
  destruct (create_letter out_prop now uuid_ to subject t ttl Ht Hs Hto Hu Hub Httl) as (m & bytes & pad & Ec & Hm & Hrd).
  destruct (encrypt_letter _ m _ _ s_out Hm) as (m' & Ee & Hm' & En & Em).
  destruct (message_length_chunks t Ht) as (_ & Hn & _).
  exists m'. unfold sealed. rewrite Ec, bind_ok. split; [done|]. intros Hroom.
  pose proof Hm' as [Hw' Hh' Hb'].
  destruct (whole_reassembled _ (binary m') _ blob fuel Hw' ltac:(lia) ltac:(unfold UINT16_MAX; lia) Hroom Hblob Hf) as (ms & Es & Hlen & Hall).
  exists ms. split; [done|]. split; [done|]. intros arrived Hp.
  destruct (Hall arrived []) as (m1 & m2 & R1 & _ & _ & R4 & R5); [by rewrite app_nil_r| |].
  { intros ->. apply Permutation_nil in Hp. rewrite Hp in Hlen. cbn in Hlen. lia. }
  destruct (R5 eq_refl) as (Eb & Est & Eno & Emac & Ehd & Ech & _).
  unfold opened. rewrite R1, bind_ok, R4, bool_decide_true, bind_ok by done.
  destruct Hw' as [Wst Wch Wbin Wn Wm Wh Wb Wp Wby].
  set (no := random MSG_NONCE_SIZE) in *. set (hd := header_bytes _ _ _ _ _ _ _) in *. set (text := bytes ++ pad) in *.
  assert (letter (chunks_for t) (Message_t m2 None 0 0) hd (aead_encrypt (session_key_to_write s_out) (nonce m2) hd text).1) as Hm2.
  { rewrite Eno, En. split; [|cbn; congruence|done]. split; cbn [binary]; try congruence. }
  destruct (decrypt_letter _ _ hd text s_in (session_key_to_write s_out) Hm2) as (m3 & Ed & Hm3);
    [cbn [binary]; congruence|done|by destruct Hm|].
  rewrite Ed, bind_ok. destruct (readbody_letter behind _ m3 _ bytes pad t _ Hm3 Hrd) as (m4 & Er & Hbody & Hhd).
  rewrite Er, bind_ok. exists m4. split; [done|]. split; [done|].
  eapply header_read; try done; [by eapply ttl_range|apply flags_range].
Qed.

End Payload.

(** ** Witness *)

#[local] Existing Instance rfc8949.
#[local] Existing Instance toy_sodium.
#[local] Existing Instance whole_doubles.

Definition fresh_bytes (n : Z) : list Z := replicate (Z.to_nat n) 3.
Definition key_session (k : list Z) : np_crypto_session_t := Crypto_session crypto_session_shared true true k k.

Lemma message_tree_sendable : sendable message_tree.
Proof.
  split; [apply message_serial|]. split; [apply Nat.leb_le; vm_compute; reflexivity|]. split; [|vm_compute; split; congruence].
  change (4 <= Z.to_nat 65534)%nat. lia.
Qed.

Lemma message_body_delivered_witness :
  exists m, sealed fresh_bytes fresh_bytes None 100 (replicate 16 9) (small_id 5) (small_id 6) message_tree (key_session (replicate 32 7)) = Ok m /\
    (le16 (mac_e (binary m)) + Z.of_nat (chunks_for message_tree) <= 65536 ->
     exists ms, _np_message_serialize_chunked (binary m) = Ok ms /\ length (packets (replicate 16 0) ms) = chunks_for message_tree /\
       forall arrived, arrived ≡ₚ packets (replicate 16 0) ms ->
       exists m', opened 3 [1; 2; 3] arrived (key_session (replicate 32 7)) = Ok (Some (true, m')) /\ msg_body m' = Some message_tree /\
         addressed m' (small_id 6) (small_id 5) (replicate 16 9) 100 19 msg_ack_none).
Proof.
  apply (message_body_delivered fresh_bytes fresh_bytes) with (ttl := 19) (out_prop := None).
  - intros n Hn. apply length_replicate.
  - intros n. apply Forall_replicate. done.
  - intros n Hn. apply length_replicate.
  - intros n. apply Forall_replicate. done.
  - apply message_tree_sendable.
  - by_decide.
  - by_decide.
  - reflexivity.
  - apply Forall_replicate. done.
  - apply (whole_is_double 100). by_decide.
  - vm_compute. reflexivity.
  - reflexivity.
  - cbn. lia.
  - apply Nat.ltb_lt. vm_compute. reflexivity.
Defined.

(** ** Where it does not hold *)

(** A tree that does not fit the size computed for it is sent as random bytes, without an
    error: the body of the message is padding only. *)
Lemma unfit_body_is_noise `{Sodium} `{Qcbor} `{Doubles} random room t :
  np_serializer_write_map room t = Ok None -> (w ← np_serializer_write_map room t; Ok (padded random w room)) = Ok (random (room - 0)).
Proof. intros ->. done. Qed.

(** A message of more than 72 chunks announces too few. *)
Lemma large_message_announces_less : chunks_of (message_length (72 * 900 + 1)) = 0.
Proof. done. Qed.
