(* ===== verification/Node.v ===== *)
(** * Nodes: [src/np_node.c], the names of protocols ([src/np_network.c]), connection strings ([src/np_legacy.c])

    What a node knows of another one: how to reach it, how far the handshake and the
    join have come, and how its answers came in.  A node is named by a connection
    string, by a tree that travels to other nodes or by the subject of its handshake
    token.  A string is the list of its characters, without the final zero. *)
From Stdlib Require Import ZArith Lia QArith Lqa String.
From stdpp Require Import prelude.
From S2P Require Import Prelude Real Dhkey Rng BloomBase BloomClassic Key Token KeyStates Crypto Treeval Tree Qcbor Serial Datablock Aaatoken Msgproperty.

Local Open Scope Z_scope.

(** ** Protocols *)

(** [socket_type]: flags in a [uint16_t]. *)
Definition UNKNOWN_PROTO : Z := 0x001.
Definition IPv4 : Z := 0x002.
Definition IPv6 : Z := 0x004.
Definition MASK_IP : Z := 0x00F.
Definition UDP : Z := 0x010.
Definition TCP : Z := 0x020.
Definition PASSIVE : Z := 0x100.

Definition URN_TCP_V4 : list Z := c_string "tcp4".
Definition URN_TCP_V6 : list Z := c_string "tcp6".
Definition URN_PAS_V4 : list Z := c_string "pas4".
Definition URN_PAS_V6 : list Z := c_string "pas6".
Definition URN_UDP_V4 : list Z := c_string "udp4".
Definition URN_UDP_V6 : list Z := c_string "udp6".

(** The first four characters decide. *)
Definition names_protocol (protocol_str urn : list Z) : bool :=
  (Dhkey.strnlen protocol_str 4 =? 4)%nat && bool_decide (take 4 protocol_str = urn).

Definition _np_network_parse_protocol_string (protocol_str : list Z) : Z :=
  if names_protocol protocol_str URN_TCP_V4 then Z.lor TCP IPv4
  else if names_protocol protocol_str URN_TCP_V6 then Z.lor TCP IPv6
  else if names_protocol protocol_str URN_PAS_V4 then Z.lor PASSIVE IPv4
  else if names_protocol protocol_str URN_PAS_V6 then Z.lor PASSIVE IPv6
  else if names_protocol protocol_str URN_UDP_V4 then Z.lor UDP IPv4
  else if names_protocol protocol_str URN_UDP_V6 then Z.lor UDP IPv6
  else UNKNOWN_PROTO.

Definition _np_network_get_protocol_string (protocol : Z) : list Z :=
  if FLAG_CMP protocol (Z.lor PASSIVE IPv4) then URN_PAS_V4
  else if FLAG_CMP protocol (Z.lor PASSIVE IPv6) then URN_PAS_V6
  else if FLAG_CMP protocol (Z.lor TCP IPv4) then URN_TCP_V4
  else if FLAG_CMP protocol (Z.lor TCP IPv6) then URN_TCP_V6
  else if FLAG_CMP protocol (Z.lor UDP IPv4) then URN_UDP_V4
  else if FLAG_CMP protocol (Z.lor UDP IPv6) then URN_UDP_V6
  else c_string "UNKNOWN_PROTOCOL".

(** ** The data of a node *)

Definition np_node_status_Disconnected : Z := 0.
Definition np_node_status_Initiated : Z := 1.
Definition np_node_status_Connected : Z := 2.
Definition NP_NODE_SUCCESS_WINDOW : nat := 31.
Definition NP_MSG_FORWARD_FILTER_SIZE : Z := 2048.
Definition NP_MSG_FORWARD_FILTER_PRUNE_RATE : Z := 3.
Definition NP_NETWORK_DEFAULT_MAX_MSGS_PER_SEC : Z := 256.
Definition GOOD_LINK : Q := 3 # 4.
Definition BAD_LINK : Q := 1 # 4.

(** How the last requests to a node went. *)
Record statistics_t := Statistics {
  last_success : Q;
  latency : Q;
  latency_win : list Q;
  latency_win_index : Z;      (* uint8_t *)
  success_win : list Z;       (* uint8_t *)
  success_win_index : Z;      (* uint8_t *)
  success_avg : Q;
}.

(** [struct np_node_s]; the load of a node is never used. *)
Record np_node_t := Node {
  host_key : option (list Z);
  protocol : Z;                (* uint16_t *)
  ip_string : option (list Z);
  port : option (list Z);
  _handshake_status : Z;
  handshake_send_at : Q;
  handshake_priority : Z;      (* uint32_t *)
  _joined_status : Z;
  join_send_at : Q;
  leave_send_at : Q;
  connection_attempts : Z;     (* uint8_t *)
  session_key_is_set : bool;
  next_routing_table_update : Q;
  is_in_routing_table : bool;
  is_in_leafset : bool;
  stats : statistics_t;
  msg_forward_filter : np_bloom_t;
  max_messages_per_sec : Z;    (* uint16_t *)
}.

Definition set_address (n : np_node_t) (proto : Z) (ip pt : option (list Z)) : np_node_t :=
  Node (host_key n) proto ip pt (_handshake_status n) (handshake_send_at n) (handshake_priority n) (_joined_status n) (join_send_at n)
    (leave_send_at n) (connection_attempts n) (session_key_is_set n) (next_routing_table_update n) (is_in_routing_table n) (is_in_leafset n)
    (stats n) (msg_forward_filter n) (max_messages_per_sec n).
Definition set_host_key (n : np_node_t) (k : list Z) : np_node_t :=
  Node (Some k) (protocol n) (ip_string n) (port n) (_handshake_status n) (handshake_send_at n) (handshake_priority n) (_joined_status n)
    (join_send_at n) (leave_send_at n) (connection_attempts n) (session_key_is_set n) (next_routing_table_update n) (is_in_routing_table n)
    (is_in_leafset n) (stats n) (msg_forward_filter n) (max_messages_per_sec n).
Definition set_priority (n : np_node_t) (p : Z) : np_node_t :=
  Node (host_key n) (protocol n) (ip_string n) (port n) (_handshake_status n) (handshake_send_at n) p (_joined_status n)
    (join_send_at n) (leave_send_at n) (connection_attempts n) (session_key_is_set n) (next_routing_table_update n) (is_in_routing_table n)
    (is_in_leafset n) (stats n) (msg_forward_filter n) (max_messages_per_sec n).
Definition set_capacity (n : np_node_t) (c : Z) : np_node_t :=
  Node (host_key n) (protocol n) (ip_string n) (port n) (_handshake_status n) (handshake_send_at n) (handshake_priority n) (_joined_status n)
    (join_send_at n) (leave_send_at n) (connection_attempts n) (session_key_is_set n) (next_routing_table_update n) (is_in_routing_table n)
    (is_in_leafset n) (stats n) (msg_forward_filter n) c.
Definition set_stats (n : np_node_t) (s : statistics_t) : np_node_t :=
  Node (host_key n) (protocol n) (ip_string n) (port n) (_handshake_status n) (handshake_send_at n) (handshake_priority n) (_joined_status n)
    (join_send_at n) (leave_send_at n) (connection_attempts n) (session_key_is_set n) (next_routing_table_update n) (is_in_routing_table n)
    (is_in_leafset n) s (msg_forward_filter n) (max_messages_per_sec n).
Definition set_latency (n : np_node_t) (l : Q) : np_node_t :=
  let s := stats n in
  set_stats n (Statistics (last_success s) l (latency_win s) (latency_win_index s) (success_win s) (success_win_index s) (success_avg s)).
Definition set_success_avg (n : np_node_t) (a : Q) : np_node_t :=
  let s := stats n in
  set_stats n (Statistics (last_success s) (latency s) (latency_win s) (latency_win_index s) (success_win s) (success_win_index s) a).

Definition new_statistics (now : Q) : statistics_t :=
  Statistics now (-1) (replicate NP_NODE_SUCCESS_WINDOW (1 # 100)) 0
    (map (fun i => Z.of_nat i mod 2) (List.seq 0 NP_NODE_SUCCESS_WINDOW)) 0 (1 # 2).

(** [rng]: the global random number; [seeds]: those of the filter's generator. *)
Definition _np_node_t_new (now now' : Q) (rng : Z) (seeds : Z * Z) (max_msgs_per_sec : Z) : result np_node_t :=
  filter ← _np_stable_bloom_create seeds NP_MSG_FORWARD_FILTER_SIZE 8 NP_MSG_FORWARD_FILTER_PRUNE_RATE;
  Ok (Node None 0 None None np_node_status_Disconnected 0 rng np_node_status_Disconnected 0 0 0 false (now' + NP_PI) false false
        (new_statistics now) filter max_msgs_per_sec).

Definition _np_node_update (node : np_node_t) (proto : Z) (hostname port : list Z) : np_node_t :=
  set_address node proto (Some (take 40 hostname)) (Some (take 5 port)).

Definition _np_node_check_address_validity (np_node : np_node_t) : bool :=
  bool_decide (is_Some (ip_string np_node)) && bool_decide (is_Some (port np_node)).

(** [strncmp], for equality only: [n] characters or up to the end of both. *)
Definition strncmp_differ (a b : list Z) (n : nat) : bool := negb (bool_decide (take n a = take n b)).

(** Whether the comparison is not 0. *)
Definition _np_node_cmp (a b : option np_node_t) : result bool :=
  match a, b with
  | Some a, Some b =>
      match ip_string a, ip_string b with
      | Some ia, Some ib =>
          if strncmp_differ ia ib (Dhkey.strnlen ia 40) then Ok true else
          match port a, port b with
          | Some pa, Some pb => Ok (strncmp_differ pa pb (Dhkey.strnlen pa 5) || negb (protocol a =? protocol b))
          | _, _ => Err Bad_access
          end
      | _, _ => Err Bad_access
      end
  | _, _ => Ok true
  end.

(** ** Nodes as strings *)

Definition colon : Z := 58.
Fixpoint strchr (s : list Z) (c : Z) : option nat :=
  match s with
  | [] => None
  | x :: s => if x =? c then Some O else S <$> strchr s c
  end.
Definition strrchr (s : list Z) (c : Z) : option nat := (fun i => (length s - 1 - i)%nat) <$> strchr (rev s) c.
Definition between (s : list Z) (i j : nat) : list Z := drop (S i) (take j s).

Record node_from_string_s := Details { s_dhkey : list Z; s_protocol : list Z; s_hostname : list Z; s_port : list Z }.

(** The first two colons and the last one; [None]: all pointers are NULL. *)
Definition __get_node_details_from_string (str : list Z) : option node_from_string_s :=
  d2 ← strrchr str colon;
  d0 ← strchr str colon;
  d1 ← (fun i => S d0 + i)%nat <$> strchr (drop (S d0) str) colon;
  if (d0 =? d1)%nat || (d1 =? d2)%nat then None
  else Some (Details (take d0 str) (between str d0 d1) (between str d1 d2) (drop (S d2) str)).

(** [asprintf]; glibc prints a NULL string as [(null)]. *)
Definition np_build_connection_string (hash protocol hostname port : option (list Z)) (includeHash : bool) : list Z :=
  let s x := default (c_string "(null)") x in
  if includeHash then s hash ++ [colon] ++ s protocol ++ [colon] ++ s hostname ++ [colon] ++ s port
  else s protocol ++ [colon] ++ s hostname ++ [colon] ++ s port.

Definition np_get_connection_string_from (key_type : Z) (node : option np_node_t) (includeHash : bool) : option (list Z) :=
  if negb (FLAG_CMP key_type np_key_type_node || FLAG_CMP key_type np_key_type_wildcard || FLAG_CMP key_type np_key_type_interface) then None
  else
    node_data ← node;
    Some (np_build_connection_string (if includeHash then host_key node_data else None)
            (Some (_np_network_get_protocol_string (protocol node_data))) (ip_string node_data) (port node_data) includeHash).

(** [urn:np:node], and where the parser starts in a subject. *)
Definition _NP_URN_NODE_PREFIX : list Z := c_string "urn:np:node".
Definition NP_HS_PRIO : string := "_np.hs.priority".
Definition NP_NW_MAX_MSGS_PER_SEC : string := "_np.network.default_max_msgs_per_sec".
Definition wildcard_key : list Z := c_string "*".

Section Decode.
Context `{Sodium} `{Qcbor} `{Doubles}.
Context (printed : np_treeval_t -> list Z) (flt_bits : Q -> Z) (bits_flt : Z -> Q).
(** What [np_new_obj] makes. *)
Context (new_node : np_node_t).

Abbreviation np_dhkey_create_from_hash := (np_dhkey_create_from_hash sodium_hex2bin).

Definition protocol_of (details : option node_from_string_s) : Z :=
  match details with Some d => _np_network_parse_protocol_string (s_protocol d) | None => UNKNOWN_PROTO end.

(** [None]: NULL. *)
Definition _np_node_decode_from_str (key : list Z) : result (option np_node_t) :=
  c_assert (negb (u16 (Z.of_nat (length key)) =? 0));;
  let details := __get_node_details_from_string (take 255 key) in
  let proto := protocol_of details in
  match details with
  | Some d =>
      if FLAG_CMP proto UNKNOWN_PROTO then Ok None
      else
        node_dhkey ← np_dhkey_create_from_hash (s_dhkey d);
        let s_dhkey := if _np_dhkey_equal dhkey_zero node_dhkey then wildcard_key else s_dhkey d in
        Ok (Some (set_host_key (_np_node_update new_node proto (s_hostname d) (s_port d)) (take 64 s_dhkey)))
  | None => Ok None
  end.

Definition _np_node_from_token (token : np_aaatoken_t) (expected_type : Z) : result (option np_node_t) :=
  if negb (FLAG_CMP (token_type token) expected_type) then Ok None
  else
    let key := drop (length _NP_URN_NODE_PREFIX - 1) (subject token) in
    let details := __get_node_details_from_string (take 255 key) in
    let i_host_proto := protocol_of details in
    match details with
    | Some d =>
        if FLAG_CMP i_host_proto UNKNOWN_PROTO then Ok None
        else
          _ ← np_dhkey_create_from_hash (s_dhkey d);
          let node := set_host_key (_np_node_update new_node i_host_proto (s_hostname d) (s_port d)) (take 64 (issuer token)) in
          prio ← uint_attribute (attributes token) NP_HS_PRIO;
          let node := set_priority node (match prio with Some p => p | None => 0 end) in
          max ← uint_attribute (attributes token) NP_NW_MAX_MSGS_PER_SEC;
          Ok (Some (set_capacity node (match max with Some m => u16 m | None => NP_NETWORK_DEFAULT_MAX_MSGS_PER_SEC end)))
    | None => Ok None
    end.

(** ** Nodes as trees *)

Definition NP_SERIALISATION_NODE_KEY : list Z := c_string "np.n.k".
Definition NP_SERIALISATION_NODE_PROTOCOL : list Z := c_string "np.n.pr".
Definition NP_SERIALISATION_NODE_DNS_NAME : list Z := c_string "np.n.d".
Definition NP_SERIALISATION_NODE_PORT : list Z := c_string "np.n.p".
Definition NP_SERIALISATION_NODE_MAX_MESSAGES : list Z := c_string "np.n.mmps".
Definition NP_SERIALISATION_NODE_SUCCESS_AVG : list Z := c_string "np.n.sa".
Definition NP_SERIALISATION_NODE_LATENCY : list Z := c_string "np.n.l".

(** A key with its node and the ip and port of its network. *)
Record key_with_node := Key_with_node {
  key_str : list Z;
  key_node : option np_node_t;
  key_network : option (list Z * list Z);
}.

(** A field of the node, or else of its network. *)
Definition or_network (own : option (list Z)) (network : option (list Z)) : result (list Z) :=
  match own, network with Some s, _ => Ok s | None, Some s => Ok s | None, None => Err Bad_access end.

Definition _np_node_encode_to_jrb (data : np_tree_t) (node_key : key_with_node) (include_stats : bool) : result np_tree_t :=
  data ← np_tree_insert_str data NP_SERIALISATION_NODE_KEY (np_treeval_new_s (key_str node_key));
  match key_node node_key with
  | None => Err Bad_access
  | Some node =>
      data ← np_tree_insert_str data NP_SERIALISATION_NODE_PROTOCOL (np_treeval_new_ui (protocol node));
      address ← or_network (ip_string node) (fst <$> key_network node_key);
      data ← np_tree_insert_str data NP_SERIALISATION_NODE_DNS_NAME (np_treeval_new_s address);
      pt ← or_network (port node) (snd <$> key_network node_key);
      data ← np_tree_insert_str data NP_SERIALISATION_NODE_PORT (np_treeval_new_s pt);
      if include_stats then
        data ← np_tree_insert_str data NP_SERIALISATION_NODE_MAX_MESSAGES (np_treeval_new_ui (max_messages_per_sec node));
        data ← np_tree_insert_str data NP_SERIALISATION_NODE_SUCCESS_AVG (np_treeval_new_f (flt_bits (success_avg (stats node))));
        np_tree_insert_str data NP_SERIALISATION_NODE_LATENCY (np_treeval_new_d (dbl_bits (latency (stats node))))
      else Ok data
  end.

(** Members of the union whatever the type of the value is: two bytes, or a number
    with a sign, an exponent and a fraction. *)
Definition ui_of (v : np_treeval_t) : result Z :=
  match value v with
  | V_i x | V_l x | V_ll x | V_ui x | V_ul x | V_ull x | V_f x | V_d x | V_a2_ui x _ => Ok (u16 x)
  | _ => Err Undefined
  end.
Definition f_of (v : np_treeval_t) : result Q :=
  match value v with
  | V_f x => Ok (bits_flt x)
  | V_l x | V_ll x | V_ul x | V_ull x | V_d x => Ok (bits_flt (u32 x))
  | _ => Err Undefined
  end.
Definition d_of (v : np_treeval_t) : result Q :=
  match value v with V_d x => Ok (bits_dbl x) | V_ll x | V_ull x => Ok (bits_dbl (u64 x)) | _ => Err Undefined end.

(** An optional field. *)
Definition read_optional {A} (data : np_tree_t) (key : list Z) (get : np_treeval_t -> result A) (set : np_node_t -> A -> np_node_t)
    (node : np_node_t) : result np_node_t :=
  match np_tree_find_str data key with
  | Some ele => x ← get ele.2; Ok (set node x)
  | None => Ok node
  end.

(** [None]: NULL. *)
Definition _np_node_decode_from_jrb (data : np_tree_t) : result (option np_node_t) :=
  match np_tree_find_str data NP_SERIALISATION_NODE_PROTOCOL with
  | None => Ok None
  | Some ele =>
      i_host_proto ← ui_of ele.2;
      match np_tree_find_str data NP_SERIALISATION_NODE_DNS_NAME with
      | None => Ok None
      | Some ele =>
          s_host_name ← np_treeval_to_str printed ele.2;
          match np_tree_find_str data NP_SERIALISATION_NODE_PORT with
          | None => Ok None
          | Some ele =>
              s_host_port ← np_treeval_to_str printed ele.2;
              s_host_key ← (match np_tree_find_str data NP_SERIALISATION_NODE_KEY with
                            | Some ele => np_treeval_to_str printed ele.2
                            | None => Ok wildcard_key
                            end);
              let node := _np_node_update new_node i_host_proto s_host_name s_host_port in
              let node := set_host_key node (take 255 s_host_key) in
              node ← read_optional data NP_SERIALISATION_NODE_LATENCY d_of set_latency node;
              node ← read_optional data NP_SERIALISATION_NODE_SUCCESS_AVG f_of set_success_avg node;
              node ← read_optional data NP_SERIALISATION_NODE_MAX_MESSAGES ui_of set_capacity node;
              Ok (Some node)
          end
      end
  end.

(** The keys that have a node, numbered from 0. *)
Definition encode_next (include_stats : bool) (current : key_with_node) (s : np_tree_t * Z) : result (np_tree_t * Z) :=
  let '(data, j) := s in
  match key_node current with
  | None => Ok (data, j)
  | Some _ =>
      node_jrb ← _np_node_encode_to_jrb np_tree_create current include_stats;
      data ← np_tree_insert_int data j (np_treeval_new_tree node_jrb);
      Ok (data, u16 (j + 1))
  end.
Definition _np_node_encode_multiple_to_jrb (data : np_tree_t) (node_keys : list key_with_node) (include_stats : bool)
    : result (np_tree_t * Z) := foldM (encode_next include_stats) node_keys (data, 0).

(** A number the tree does not have is a NULL pointer that is followed, and what is no
    tree is taken for one. *)
Definition decode_next (data : np_tree_t) (i : nat) (node_list : list np_node_t) : result (list np_node_t) :=
  match np_tree_find_int data (Z.of_nat i) with
  | None => Err Bad_access
  | Some node_data =>
      match value node_data.2 with
      | V_tree _ tree =>
          node ← _np_node_decode_from_jrb tree;
          Ok (node_list ++ match node with Some n => [n] | None => [] end)
      | _ => Err Bad_access
      end
  end.
Definition _np_node_decode_multiple_from_jrb (data : np_tree_t) : result (list np_node_t) :=
  foldM (decode_next data) (List.seq 0 (Z.to_nat (u16 (t_size data)))) [].

End Decode.

(** ** How the requests went: [core/np_comp_node.c] *)

Definition next_index (i : Z) : Z :=
  let i := u8 (i + 1) in if i =? Z.of_nat NP_NODE_SUCCESS_WINDOW then 0 else i.

(** [type]: of the event; [send_at]: of the container. *)
Definition __np_node_handle_response (now : Q) (type : Z) (response : np_responsecontainer_t) (send_at : Q) (node : statistics_t)
    : statistics_t :=
  let si := next_index (success_win_index node) in
  let li := next_index (latency_win_index node) in
  let at_ i := Z.to_nat (i mod Z.of_nat NP_NODE_SUCCESS_WINDOW) in
  let node := Statistics (last_success node) (latency node) (latency_win node) li (success_win node) si (success_avg node) in
  if negb (FLAG_CMP type evt_timeout) && negb (FLAG_CMP type evt_response) then node
  else
    let node :=
      if FLAG_CMP type evt_timeout then
        Statistics (last_success node) (latency node) (<[at_ li := (container_expires_at response - send_at)%Q]> (latency_win node)) li
          (<[at_ si := 0]> (success_win node)) si (success_avg node)
      else node in
    if FLAG_CMP type evt_response then
      let new_latency_value := (received_at response - send_at)%Q in
      let win := if Qeq_bool (latency node) (-1) then replicate NP_NODE_SUCCESS_WINDOW new_latency_value else latency_win node in
      Statistics now (latency node)
        (<[at_ li := if Qltb 0 new_latency_value then new_latency_value else latency node]> win) li
        (<[at_ si := 1]> (success_win node)) si (success_avg node)
    else node.

Definition sum_Z (l : list Z) : Z := foldr Z.add 0 l.
Definition sum_Q (l : list Q) : Q := foldr Qplus 0%Q l.

(** The averages [__np_node_update] takes. *)
Definition update_averages (node : statistics_t) : statistics_t :=
  let n := inject_Z (Z.of_nat NP_NODE_SUCCESS_WINDOW) in
  Statistics (last_success node) (sum_Q (latency_win node) / n) (latency_win node) (latency_win_index node)
    (success_win node) (success_win_index node) (inject_Z (sum_Z (success_win node)) / n).
