(* ===== verification/NodeThms.v ===== *)
(** * Nodes: the names that lead back to them, and how time-outs are counted *)
From Stdlib Require Import ZArith Lia QArith Lqa String.
From stdpp Require Import prelude gmap.
From S2P Require Import Prelude Real Dhkey Rng BloomBase BloomClassic Key Token KeyStates Crypto Treeval Tree TreeSpec Qcbor Serial SerialThms Datablock DatablockSpec DatablockThms Aaatoken AaatokenSpec TokenFactory TokenFactoryThms Msgproperty Node.

Local Open Scope Z_scope.

(** ** Strings with colons *)

Definition no_colon (s : list Z) : Prop := Forall (fun c => c ≠ colon) s.

Lemma strchr_first a c r : Forall (fun x => x ≠ c) a -> strchr (a ++ c :: r) c = Some (length a).
Proof.
  induction 1 as [|x a Hx _ IH]; cbn; [by rewrite Z.eqb_refl|].
  destruct (Z.eqb_spec x c); [done|]. by rewrite IH.
Qed.

Lemma strchr_none a c : Forall (fun x => x ≠ c) a -> strchr a c = None.
Proof.
  induction 1 as [|x a Hx _ IH]; cbn; [done|]. destruct (Z.eqb_spec x c); [done|]. by rewrite IH.
Qed.

Lemma strrchr_last l c p : Forall (fun x => x ≠ c) p -> strrchr (l ++ c :: p) c = Some (length l).
Proof.
  intros Hp. unfold strrchr. rewrite rev_app_distr. cbn [rev]. rewrite <-app_assoc. cbn [app].
  rewrite strchr_first by (apply Forall_rev; exact Hp). cbn. f_equal. rewrite length_rev, !length_app. cbn. lia.
Qed.

Lemma drop_past {A} (a r : list A) (c : A) n : n = S (length a) -> drop n (a ++ c :: r) = r.
Proof. intros ->. induction a as [|x a IH]; [done|exact IH]. Qed.
Lemma take_before {A} (a r : list A) n : n = length a -> take n (a ++ r) = a.
Proof. intros ->. by rewrite take_app_length. Qed.

(** The host name may hold colons, as the addresses of IPv6 do. *)
Lemma details_of_parts a b h p : no_colon a -> no_colon b -> no_colon p ->
  __get_node_details_from_string (a ++ [colon] ++ b ++ [colon] ++ h ++ [colon] ++ p) = Some (Details a b h p).
Proof.
  intros Ha Hb Hp. unfold __get_node_details_from_string.
  set (ab := a ++ [colon] ++ b). set (abh := ab ++ [colon] ++ h).
  assert (a ++ [colon] ++ b ++ [colon] ++ h ++ [colon] ++ p = abh ++ colon :: p) as E3
    by (unfold abh, ab; rewrite <-!app_assoc; done).
  assert (a ++ [colon] ++ b ++ [colon] ++ h ++ [colon] ++ p = a ++ colon :: (b ++ colon :: (h ++ colon :: p))) as E1 by done.
  assert (length abh = S (length a) + length b + S (length h))%nat as L
    by (unfold abh, ab; rewrite !length_app; cbn; lia).
  rewrite E3, strrchr_last by exact Hp. rewrite <-E3, E1, strchr_first by exact Ha. cbn [mbind option_bind].
  rewrite (drop_past a _ _ (S (length a))) by done. rewrite strchr_first by exact Hb. cbn [fmap option_fmap option_map mbind option_bind].
  destruct (Nat.eqb_spec (length a) (S (length a) + length b)); [lia|].
  destruct (Nat.eqb_spec (S (length a) + length b) (length abh)); [lia|]. cbn [orb]. unfold between.
  assert (a ++ colon :: b ++ colon :: h ++ colon :: p = ab ++ colon :: (h ++ colon :: p)) as E2
    by (unfold ab; rewrite <-!app_assoc; done).
  f_equal. f_equal.
  - by rewrite take_before.
  - rewrite E2, take_before by (unfold ab; rewrite !length_app; cbn; lia). unfold ab. by apply drop_past.
  - rewrite <-E1, E3, take_before by done. unfold abh. apply drop_past. unfold ab. rewrite !length_app. cbn. lia.
  - rewrite <-E1, E3. by apply drop_past.
Qed.

(** ** Protocols *)

Definition known_protocols : list Z := [Z.lor TCP IPv4; Z.lor TCP IPv6; Z.lor PASSIVE IPv4; Z.lor PASSIVE IPv6; Z.lor UDP IPv4; Z.lor UDP IPv6].

Lemma protocol_name p : p ∈ known_protocols ->
  _np_network_parse_protocol_string (_np_network_get_protocol_string p) = p /\ no_colon (_np_network_get_protocol_string p) /\
  FLAG_CMP p UNKNOWN_PROTO = false /\ length (_np_network_get_protocol_string p) = 4%nat /\ in_u 16 p.
Proof.
  intros Hp. unfold known_protocols in Hp. repeat (apply elem_of_cons in Hp as [->|Hp]); try (by apply elem_of_nil in Hp);
    (split; [reflexivity|]; split; [repeat (constructor; [discriminate|]); constructor|by split_and!]).
Qed.

(** A passive interface keeps no trace of the protocol it listens on. *)
Lemma passive_hides_protocol : 
  _np_network_parse_protocol_string (_np_network_get_protocol_string (Z.lor (Z.lor PASSIVE TCP) IPv4)) = Z.lor PASSIVE IPv4.
Proof. reflexivity. Qed.

(** ** Connection strings *)

Lemma hex_no_colon s : forallb isxdigit s = true -> no_colon s.
Proof.
  intros H. apply Forall_forall. intros c Hc E. rewrite forallb_forall in H. specialize (H c). rewrite <-list_elem_of_In in H.
  specialize (H Hc). subst c. discriminate H.
Qed.

Section Names.
Context `{Sodium} (new_node : np_node_t).

Lemma dhkey_str_facts k : dhkey_wf k -> length (_np_dhkey_str sodium_bin2hex k) = 64%nat /\
  np_dhkey_create_from_hash sodium_hex2bin (_np_dhkey_str sodium_bin2hex k) = Ok k /\ no_colon (_np_dhkey_str sodium_bin2hex k).
Proof.
  intros W. destruct (dhkey_hex_roundtrip sodium_bin2hex sodium_hex2bin bin2hex_doc hex2bin_doc k W) as (L & E & _).
  split_and!; [done|done|]. unfold _np_dhkey_str, np_id_str. pose proof (dhkey_bytes_range k) as Hb. rewrite bin2hex_doc by done.
  destruct (hex_string_facts _ Hb) as (_ & X & _). apply Forall_take, hex_no_colon, X.
Qed.

(** What a node is called by: its key, protocol, address and port. *)
Definition called (n : np_node_t) (k p ip pt : list Z) : Prop :=
  host_key n = Some k /\ _np_network_get_protocol_string (protocol n) = p /\ ip_string n = Some ip /\ port n = Some pt.

Definition speaks_to_all (key_type : Z) : Prop := key_type ∈ [np_key_type_node; np_key_type_wildcard; np_key_type_interface].

Lemma connection_string_decoded hash dk p host pt : np_dhkey_create_from_hash sodium_hex2bin hash = Ok dk ->
  no_colon hash -> (length hash <= 64)%nat -> p ∈ known_protocols -> (length host <= 40)%nat -> no_colon pt -> (length pt <= 5)%nat ->
  _np_node_decode_from_str new_node
    (np_build_connection_string (Some hash) (Some (_np_network_get_protocol_string p)) (Some host) (Some pt) true) =
  Ok (Some (set_host_key (set_address new_node p (Some host) (Some pt)) (if _np_dhkey_equal dhkey_zero dk then wildcard_key else hash))).
Proof.
  intros Hd Hk Lk Hp Hh Hpc Lp. destruct (protocol_name p Hp) as (Pp & Pc & Pu & Pl & _).
  unfold _np_node_decode_from_str, np_build_connection_string. cbn [from_option id].
  set (s := hash ++ [colon] ++ _np_network_get_protocol_string p ++ [colon] ++ host ++ [colon] ++ pt).
  assert (length s = length hash + 1 + 4 + 1 + length host + 1 + length pt)%nat as Ls.
  { unfold s. rewrite !length_app, Pl. cbn [length]. lia. }
  assert (u16 (Z.of_nat (length s)) = Z.of_nat (length s)) as -> by (apply u16_id; unfold in_u; lia).
  destruct (Z.eqb_spec (Z.of_nat (length s)) 0); [lia|]. change (c_assert (negb false)) with (Ok tt). rewrite bind_ok.
  rewrite take_ge by lia. unfold s. rewrite details_of_parts by done. cbn [protocol_of s_protocol s_dhkey s_hostname s_port].
  rewrite Pp, Pu, Hd, bind_ok. unfold _np_node_update. rewrite (take_ge host), (take_ge pt) by lia.
  do 3 f_equal. destruct (_np_dhkey_equal dhkey_zero dk); [done|]. apply take_ge. lia.
Qed.

(** A connection string leads back: whatever node, wildcard or interface prints one,
    any of the six protocols and an address with colons included, decodes to a node with the
    same key, protocol, address and port. *)
Theorem connection_string_roundtrip n k ip pt key_type :
  dhkey_wf k -> k ≠ dhkey_zero -> called n (_np_dhkey_str sodium_bin2hex k) (_np_network_get_protocol_string (protocol n)) ip pt ->
  protocol n ∈ known_protocols -> (length ip <= 40)%nat -> no_colon pt -> (length pt <= 5)%nat -> speaks_to_all key_type ->
  exists s n', np_get_connection_string_from key_type (Some n) true = Some s /\ _np_node_decode_from_str new_node s = Ok (Some n') /\
    host_key n' = host_key n /\ protocol n' = protocol n /\ ip_string n' = ip_string n /\ port n' = port n /\
    np_get_connection_string_from key_type (Some n') true = Some s.
Proof.
  intros W Hz (Hk & _ & Hi & Hpt) Hp Li Pc Lp Ht. destruct (dhkey_str_facts k W) as (L & E & C).
  assert (FLAG_CMP key_type np_key_type_node || FLAG_CMP key_type np_key_type_wildcard || FLAG_CMP key_type np_key_type_interface = true) as F.
  { unfold speaks_to_all in Ht. repeat (apply elem_of_cons in Ht as [->|Ht]); [done..|by apply elem_of_nil in Ht]. }
  unfold np_get_connection_string_from. rewrite F. cbn [negb mbind option_bind]. rewrite Hk, Hi, Hpt.
  pose proof (connection_string_decoded _ _ (protocol n) ip pt E C ltac:(lia) Hp Li Pc Lp) as D.
  destruct (_np_dhkey_equal dhkey_zero k) eqn:Ez.
  { exfalso. apply Hz. symmetry. apply _np_dhkey_equal_spec in Ez; [done|by_decide|done]. }
  eexists _, _. split; [reflexivity|]. split; [exact D|]. by split_and!.
Qed.

End Names.

(** A name whose second and last colon are the same has no host and is refused. *)
Lemma key_is_mandatory : __get_node_details_from_string (c_string "udp4:localhost:31415") = None.
Proof. reflexivity. Qed.
(** With a name and no key the host of an IPv6 address is taken for the port. *)
Lemma key_guessed : __get_node_details_from_string (c_string "udp6:::1:31415") =
  Some (Details (c_string "udp6") [] (c_string ":1") (c_string "31415")).
Proof. reflexivity. Qed.

(** ** Successes and time-outs *)

Definition window : Z := Z.of_nat NP_NODE_SUCCESS_WINDOW.
Record stats_wf (s : statistics_t) : Prop := {
  wf_success : length (success_win s) = NP_NODE_SUCCESS_WINDOW;
  wf_latency : length (latency_win s) = NP_NODE_SUCCESS_WINDOW;
  wf_success_index : 0 <= success_win_index s < window;
  wf_latency_index : 0 <= latency_win_index s < window;
  wf_bits : Forall (fun x => 0 <= x <= 1) (success_win s);
}.

Lemma next_index_mod i : 0 <= i < window -> next_index i = (i + 1) mod window.
Proof.
  unfold next_index, window. change (Z.of_nat NP_NODE_SUCCESS_WINDOW) with 31. intros Hi.
  rewrite u8_id by (unfold in_u; lia). destruct (Z.eqb_spec (i + 1) 31) as [->|]; [done|]. by rewrite Z.mod_small by lia.
Qed.

Lemma next_index_range i : 0 <= i < window -> 0 <= next_index i < window.
Proof. intros Hi. rewrite next_index_mod by done. by apply Z.mod_pos_bound. Qed.

Lemma new_statistics_wf now : stats_wf (new_statistics now).
Proof.
  constructor; [done..|]. apply Forall_forall. intros x Hx. apply list_elem_of_In, in_map_iff in Hx as (i & <- & _).
  pose proof (Z.mod_pos_bound (Z.of_nat i) 2). lia.
Qed.

Section Statistics.
Context (now : Q) (type : Z) (c : np_responsecontainer_t) (sent : Q) (s : statistics_t).
Hypothesis Hs : stats_wf s.
Let s' := __np_node_handle_response now type c sent s.

Lemma handle_response_wf : stats_wf s'.
Proof using Hs.
  destruct Hs as [H1 H2 H3 H4 H5]. pose proof (next_index_range _ H3). pose proof (next_index_range _ H4).
  unfold s', __np_node_handle_response.
  destruct (negb (FLAG_CMP type evt_timeout) && negb (FLAG_CMP type evt_response)); [by constructor|].
  destruct (FLAG_CMP type evt_timeout), (FLAG_CMP type evt_response);
    constructor; cbn [success_win latency_win success_win_index latency_win_index]; rewrite ?length_insert; try done;
    repeat (apply Forall_insert; [|lia]); try done;
    destruct (Qeq_bool _ _); by rewrite ?length_insert.
Qed.

Lemma response_index : success_win_index s' = (success_win_index s + 1) mod window.
Proof using Hs.
  rewrite <-next_index_mod by apply Hs. unfold s', __np_node_handle_response.
  destruct (negb (FLAG_CMP type evt_timeout) && negb (FLAG_CMP type evt_response)); [done|].
  by destruct (FLAG_CMP type evt_timeout), (FLAG_CMP type evt_response).
Qed.

(** A response counts as a success, a time-out that is a response as well included. *)
Lemma response_counts : FLAG_CMP type evt_response = true ->
  success_win s' !! Z.to_nat (success_win_index s') = Some 1 /\ last_success s' = now /\
  forall i, (success_win s !! i = Some 1 -> success_win s' !! i = Some 1).
Proof using Hs.
  intros R. pose proof response_index as Ei. destruct Hs as [H1 _ H3 _ _]. pose proof (next_index_range _ H3) as Hr.
  rewrite Ei, <-next_index_mod by done. unfold s', __np_node_handle_response. rewrite R. rewrite andb_false_r.
  set (k := next_index (success_win_index s)) in *. fold window. rewrite (Z.mod_small k) by done.
  assert (forall w, length w = NP_NODE_SUCCESS_WINDOW -> <[Z.to_nat k := 1]> w !! Z.to_nat k = Some 1) as Hk.
  { intros w Hw. apply list_lookup_insert_eq. rewrite Hw. unfold window in Hr. lia. }
  destruct (FLAG_CMP type evt_timeout); cbn [success_win last_success]; (split; [apply Hk; by rewrite ?length_insert|]; split; [done|]).
  - intros i Hi. rewrite list_insert_insert_eq. destruct (decide (i = Z.to_nat k)) as [->|Hne]; [by apply Hk|]. by rewrite list_lookup_insert_ne.
  - intros i Hi. destruct (decide (i = Z.to_nat k)) as [->|Hne]; [by apply Hk|]. by rewrite list_lookup_insert_ne.
Qed.
End Statistics.

(** What came in about a node: when, with which event type, for which container. *)
Record answer := Answer { at_time : Q; as_type : Z; container : np_responsecontainer_t; sent_at : Q }.
Definition handle (s : statistics_t) (a : answer) : statistics_t :=
  __np_node_handle_response (at_time a) (as_type a) (container a) (sent_at a) s.

(** The event is the one that the checks of the waiting containers make. *)
Definition made_by_check (a : answer) : Prop := exists now, container_type now (container a) = Some (as_type a).

Lemma check_makes_responses a : made_by_check a -> FLAG_CMP (as_type a) evt_response = true.
Proof.
  intros (now & E). unfold container_type in E. repeat case_match; try done; by injection E as <-.
Qed.

Lemma recent_answers_count rs s : stats_wf s -> Forall made_by_check rs ->
  let s' := foldl handle s rs in
  stats_wf s' /\ forall d, 0 <= d < Z.min (Z.of_nat (length rs)) window ->
    success_win s' !! Z.to_nat ((success_win_index s' - d) mod window) = Some 1.
Proof.
  intros Hs. induction rs as [|a rs IH] using rev_ind; intros Hr s'; [split; [done|]; cbn; lia|].
  apply Forall_app in Hr as [Hr Ha%Forall_inv]. specialize (IH Hr). cbv zeta in IH. destruct IH as [Hwf IH].
  unfold s'. rewrite foldl_app. cbn [foldl]. set (s1 := foldl handle s rs) in *.
  split; [by apply handle_response_wf|]. intros d Hd. rewrite length_app in Hd. cbn [length] in Hd.
  destruct (response_counts (at_time a) (as_type a) (container a) (sent_at a) s1 Hwf (check_makes_responses a Ha)) as (H0 & _ & Hk).
  pose proof (response_index (at_time a) (as_type a) (container a) (sent_at a) s1 Hwf) as Ei.
  fold (handle s1 a) in *. destruct (decide (d = 0)) as [->|Hne].
  - rewrite Z.sub_0_r, (Z.mod_small (success_win_index _)); [exact H0|].
    apply (handle_response_wf (at_time a) (as_type a) (container a) (sent_at a) s1 Hwf).
  - apply Hk. rewrite Ei. unfold window in *. rewrite Zminus_mod_idemp_l.
    replace (success_win_index s1 + 1 - d) with (success_win_index s1 - (d - 1)) by lia. apply IH. lia.
Qed.

Lemma sum_of_ones n : sum_Z (replicate n 1) = Z.of_nat n.
Proof. induction n as [|n IH]; [done|]. cbn [replicate sum_Z foldr] in *. fold (sum_Z (replicate n 1)). lia. Qed.

(** The quality of a link does not see time-outs: the events that the waiting response
    containers make count as successes whether the response came or the time for it is
    over, so after the last 31 requests the node has success average 1 and a fresh
    last success, even if none of them was answered. *)
Theorem timeouts_count_as_successes rs s a :
  stats_wf s -> Forall made_by_check (rs ++ [a]) -> (NP_NODE_SUCCESS_WINDOW <= length (rs ++ [a]))%nat ->
  let s' := update_averages (foldl handle s (rs ++ [a])) in
  success_win s' = replicate NP_NODE_SUCCESS_WINDOW 1 /\ (success_avg s' == 1)%Q /\ last_success s' = at_time a.
Proof.
  intros Hs Hr Hl. destruct (recent_answers_count _ s Hs Hr) as [Hwf Hd]. apply Forall_app in Hr as [Hr Ha%Forall_inv].
  destruct (recent_answers_count _ s Hs Hr) as [Hwf1 _]. set (s1 := foldl handle s (rs ++ [a])) in *.
  assert (success_win s1 = replicate NP_NODE_SUCCESS_WINDOW 1) as Hw.
  { apply list_eq. intros i. destruct (decide (i < NP_NODE_SUCCESS_WINDOW)%nat) as [Hi|Hi].
    - rewrite lookup_replicate_2 by done. rewrite <-(Hd ((success_win_index s1 - Z.of_nat i) mod window)).
      + f_equal. rewrite Zminus_mod_idemp_r. replace (success_win_index s1 - (success_win_index s1 - Z.of_nat i)) with (Z.of_nat i) by lia.
        rewrite Z.mod_small by (unfold window; lia). lia.
      + pose proof (Z.mod_pos_bound (success_win_index s1 - Z.of_nat i) window ltac:(done)). unfold window in *. lia.
    - rewrite !lookup_ge_None_2; [done|rewrite length_replicate; lia|rewrite (wf_success _ Hwf); lia]. }
  cbn [update_averages success_win success_avg last_success]. rewrite Hw. split; [done|]. split; [by rewrite sum_of_ones|].
  unfold s1. rewrite foldl_app. cbn [foldl]. apply (response_counts _ _ _ _ _ Hwf1 (check_makes_responses a Ha)).
Qed.

(** ** Nodes as trees *)

Lemma foldM_snoc {A S} (f : A -> S -> result S) l x s : foldM f (l ++ [x]) s = (s' ← foldM f l s; f x s').
Proof.
  revert s. induction l as [|y l IH]; intros s; cbn [app foldM].
  - rewrite bind_ok. by destruct (f x s).
  - destruct (f y s) as [s1|e]; [rewrite !bind_ok; apply IH|done].
Qed.

Section Peers.
Context `{Sodium} `{Qcbor} `{Doubles}.
Context (printed : np_treeval_t -> list Z) (flt_bits : Q -> Z) (bits_flt : Z -> Q) (new_node : np_node_t).

Lemma add_field t l key v : holds t l -> (length key <= 255)%nat -> wf_val v -> assoc key l = None ->
  exists t', np_tree_insert_str t key v = Ok t' /\ holds t' ((key, v) :: l).
Proof.
  intros (Hwf & Hm & Hl) Hk Hv Ha.
  destruct (insert_spec K_str np_treeval_copy_of_val t (V_s key) Hwf Hk Hm 0 v v (copy_of_wf v Hv)) as (t' & E & Hwf' & Hm' & Hl').
  exists t'. split; [exact E|]. split; [done|]. split; [done|]. rewrite Hl', Hl. cbn [rank]. by rewrite of_list_lookup, Ha.
Qed.

(** What can be told of a key: a name, an address and a port without a zero in them. *)
Definition in_words (n : nat) (s : list Z) : Prop := until_nul s = s /\ (length s <= n)%nat.
Record tellable (kn : key_with_node) (n : np_node_t) (ip pt : list Z) : Prop := {
  tell_node : key_node kn = Some n;
  tell_ip : or_network (ip_string n) (fst <$> key_network kn) = Ok ip;
  tell_port : or_network (port n) (snd <$> key_network kn) = Ok pt;
  tell_key : in_words 255 (key_str kn);
  tell_ip_short : in_words 40 ip;
  tell_port_short : in_words 5 pt;
  tell_protocol : in_u 16 (protocol n);
}.

(** The node the receiver makes of it. *)
Definition heard (kn : key_with_node) (n : np_node_t) (ip pt : list Z) : np_node_t :=
  set_host_key (set_address new_node (protocol n) (Some ip) (Some pt)) (key_str kn).

Lemma node_tree_travels kn n ip pt : tellable kn n ip pt ->
  exists t, _np_node_encode_to_jrb flt_bits np_tree_create kn false = Ok t /\
    wf_val (np_treeval_new_tree t) /\ _np_node_decode_from_jrb printed bits_flt new_node t = Ok (Some (heard kn n ip pt)).
Proof.
  intros [Hn Hi Hp [Kk Kl] [Ik Il] [Pk Pl] Hpr]. unfold _np_node_encode_to_jrb.
  destruct (add_field np_tree_create [] NP_SERIALISATION_NODE_KEY (np_treeval_new_s (key_str kn)) tree_holds_empty) as (d1 & -> & R1);
    [by vm_compute; lia|by constructor|done|]. rewrite bind_ok, Hn.
  destruct (add_field d1 _ NP_SERIALISATION_NODE_PROTOCOL (np_treeval_new_ui (protocol n)) R1) as (d2 & -> & R2);
    [by vm_compute; lia|by constructor|done|]. rewrite bind_ok, Hi, bind_ok.
  destruct (add_field d2 _ NP_SERIALISATION_NODE_DNS_NAME (np_treeval_new_s ip) R2) as (d3 & -> & R3);
    [by vm_compute; lia|by constructor|done|]. rewrite bind_ok, Hp, bind_ok.
  destruct (add_field d3 _ NP_SERIALISATION_NODE_PORT (np_treeval_new_s pt) R3) as (d4 & -> & R4);
    [by vm_compute; lia|by constructor|done|].
  exists d4. split; [done|]. split.
  { apply (wf_subtree _ K_str); [apply R4|]. destruct (holds_elems _ _ R4) as [Hels _].
    eapply Forall_impl; [exact Hels|]. intros e (k & v & Hv & ->). cbn [snd].
    repeat (apply elem_of_cons in Hv as [[= -> ->]|Hv]; [by constructor|]). by apply elem_of_nil in Hv. }
  assert (forall key v, (length key <= 255)%nat -> assoc key [(NP_SERIALISATION_NODE_PORT, np_treeval_new_s pt);
      (NP_SERIALISATION_NODE_DNS_NAME, np_treeval_new_s ip); (NP_SERIALISATION_NODE_PROTOCOL, np_treeval_new_ui (protocol n));
      (NP_SERIALISATION_NODE_KEY, np_treeval_new_s (key_str kn))] = v -> snd <$> np_tree_find_str d4 key = v) as Hf.
  { intros key v Hk <-. by apply find_field. }
  assert (forall key v, snd <$> np_tree_find_str d4 key = Some v -> exists k', np_tree_find_str d4 key = Some (k', v)) as Hs.
  { intros key v E. destruct (np_tree_find_str d4 key) as [[k' v']|]; [|done]. injection E as ->. by exists k'. }
  assert (forall key, snd <$> np_tree_find_str d4 key = None -> np_tree_find_str d4 key = None) as Hno.
  { intros key E. by destruct (np_tree_find_str d4 key). }
  unfold _np_node_decode_from_jrb, read_optional.
  destruct (Hs _ _ (Hf NP_SERIALISATION_NODE_PROTOCOL _ ltac:(vm_compute; lia) eq_refl)) as (? & ->).
  destruct (Hs _ _ (Hf NP_SERIALISATION_NODE_DNS_NAME _ ltac:(vm_compute; lia) eq_refl)) as (? & ->).
  destruct (Hs _ _ (Hf NP_SERIALISATION_NODE_PORT _ ltac:(vm_compute; lia) eq_refl)) as (? & ->).
  destruct (Hs _ _ (Hf NP_SERIALISATION_NODE_KEY _ ltac:(vm_compute; lia) eq_refl)) as (? & ->).
  rewrite (Hno _ (Hf NP_SERIALISATION_NODE_LATENCY _ ltac:(vm_compute; lia) eq_refl)).
  rewrite (Hno _ (Hf NP_SERIALISATION_NODE_SUCCESS_AVG _ ltac:(vm_compute; lia) eq_refl)).
  rewrite (Hno _ (Hf NP_SERIALISATION_NODE_MAX_MESSAGES _ ltac:(vm_compute; lia) eq_refl)).
  cbn [snd ui_of value np_treeval_new_ui np_treeval_new_s np_treeval_to_str]. rewrite u16_id by done.
  rewrite Kk, Ik, Pk, !bind_ok. unfold _np_node_update. rewrite !take_ge by done. done.
Qed.

(** A tree whose keys are the first numbers. *)
Definition numbered (ts : list np_tree_t) : list elem := imap (fun i t => (mk_key (V_i (Z.of_nat i)), np_treeval_new_tree t)) ts.
Definition is_numbered (data : np_tree_t) (ts : list np_tree_t) : Prop :=
  tree_wf (K_int 0) data /\ immutable data = false /\ rbh_root data = numbered ts.

Lemma numbered_snoc ts t : numbered (ts ++ [t]) = numbered ts ++ [(mk_key (V_i (Z.of_nat (length ts))), np_treeval_new_tree t)].
Proof. unfold numbered. rewrite imap_app. cbn. by rewrite Nat.add_0_r. Qed.

Lemma numbered_ordered ts : Z.of_nat (length ts) <= 2 ^ 15 -> ordered (K_int 0) (numbered ts).
Proof.
  induction ts as [|t ts IH] using rev_ind; intros Hl; [by repeat constructor|]. rewrite length_app in Hl. cbn [length] in Hl.
  rewrite numbered_snoc. apply ordered_add; [cbn; lia| |constructor|rewrite app_nil_r; apply IH; lia].
  apply Forall_forall. intros e He. apply list_elem_of_lookup in He as (i & Hi). unfold numbered in Hi.
  rewrite list_lookup_imap in Hi. destruct (ts !! i) eqn:Ei; [|done]. injection Hi as <-. apply lookup_lt_Some in Ei.
  change (strcmp [Z.of_nat (length ts)] [Z.of_nat i] = 1). rewrite strcmp_one. lia.
Qed.

Lemma numbered_add data ts t : is_numbered data ts -> Z.of_nat (length ts) < 2 ^ 15 -> wf_val (np_treeval_new_tree t) ->
  exists data', np_tree_insert_int data (Z.of_nat (length ts)) (np_treeval_new_tree t) = Ok data' /\ is_numbered data' (ts ++ [t]).
Proof.
  intros (Hwf & Hm & E) Hl Ht. set (e := (mk_key (V_i (Z.of_nat (length ts))), np_treeval_new_tree t) : elem).
  destruct (insert_last (K_int 0) np_treeval_copy_of_val data e (np_treeval_new_tree t)) as (data' & E' & Hwf' & Hm' & Er); [done|done| |done|by apply copy_of_wf|].
  { rewrite E. unfold e. rewrite <-numbered_snoc. apply numbered_ordered. rewrite length_app. cbn [length]. lia. }
  exists data'. split; [exact E'|]. split; [done|]. split; [done|]. by rewrite Er, E, numbered_snoc.
Qed.

Lemma numbered_find data ts i t : is_numbered data ts -> Z.of_nat (length ts) <= 2 ^ 15 -> ts !! i = Some t ->
  exists k, np_tree_find_int data (Z.of_nat i) = Some (k, np_treeval_new_tree t).
Proof.
  intros (Hwf & Hm & E) Hl Hi. pose proof (lookup_lt_Some _ _ _ Hi).
  pose proof (find_spec (K_int 0) data (V_i (Z.of_nat i)) Hwf ltac:(cbn; lia)) as F. unfold np_tree_find_int.
  assert (to_map (rbh_root data) !! rank (V_i (Z.of_nat i)) = Some (np_treeval_new_tree t)) as Fm.
  { unfold to_map. apply elem_of_list_to_map_1; [apply (ordered_nodup (K_int 0)), Hwf|].
    apply list_elem_of_fmap. exists (mk_key (V_i (Z.of_nat i)), np_treeval_new_tree t). split; [done|].
    rewrite E. apply list_elem_of_lookup. exists i. unfold numbered. by rewrite list_lookup_imap, Hi. }
  rewrite Fm in F. destruct (RB_FIND _ _) as [[k v]|]; [|done]. injection F as ->. by exists k.
Qed.

Lemma numbered_size data ts : is_numbered data ts -> Z.of_nat (length ts) <= 2 ^ 15 -> u16 (t_size data) = Z.of_nat (length ts).
Proof.
  intros (Hwf & _ & E) Hl. rewrite (wf_size _ _ Hwf), E. unfold numbered. rewrite length_imap, u64_id by (unfold in_u; lia).
  apply u16_id. unfold in_u. lia.
Qed.

(** A list of keys: those without a node are passed over. *)
Inductive all_tellable : list key_with_node -> list np_node_t -> Prop :=
| tell_nobody : all_tellable [] []
| tell_nothing kn kns ns : key_node kn = None -> all_tellable kns ns -> all_tellable (kn :: kns) ns
| tell_one kn n ip pt kns ns : tellable kn n ip pt -> all_tellable kns ns -> all_tellable (kn :: kns) (heard kn n ip pt :: ns).

Lemma peers_encoded kns ns data ts old : all_tellable kns ns -> Z.of_nat (length ts + length ns) <= 2 ^ 15 -> is_numbered data ts ->
  Forall2 (fun t n => _np_node_decode_from_jrb printed bits_flt new_node t = Ok (Some n)) ts old ->
  exists data' ts', foldM (encode_next flt_bits false) kns (data, Z.of_nat (length ts)) = Ok (data', Z.of_nat (length ts')) /\
    is_numbered data' ts' /\
    Forall2 (fun t n => _np_node_decode_from_jrb printed bits_flt new_node t = Ok (Some n)) ts' (old ++ ns).
Proof.
  intros Hk. revert data ts old. induction Hk as [|kn kns ns Hn Hk IH|kn n ip pt kns ns Ht Hk IH]; intros data ts old Hl Hd Ho.
  - exists data, ts. by rewrite app_nil_r.
  - cbn [foldM encode_next]. rewrite Hn, bind_ok. by apply IH.
  - cbn [foldM encode_next length] in *. rewrite (tell_node _ _ _ _ Ht).
    destruct (node_tree_travels kn n ip pt Ht) as (t & -> & Hv & Hdec). rewrite bind_ok.
    destruct (numbered_add data ts t Hd ltac:(lia) Hv) as (data' & -> & Hd'). rewrite !bind_ok.
    rewrite u16_id by (unfold in_u; lia). destruct (IH data' (ts ++ [t]) (old ++ [heard kn n ip pt])) as (d & ts' & E & Hd'' & Hf).
    + rewrite length_app. cbn [length]. lia.
    + done.
    + apply Forall2_app; [done|]. by constructor.
    + exists d, ts'. rewrite length_app in E. cbn [length] in E. replace (Z.of_nat (length ts) + 1) with (Z.of_nat (length ts + 1)) by lia.
      rewrite E. split; [done|]. split; [done|]. by rewrite <-app_assoc in Hf.
Qed.

Lemma peers_decoded data ts ns k : is_numbered data ts -> Z.of_nat (length ts) <= 2 ^ 15 -> (k <= length ts)%nat ->
  Forall2 (fun t n => _np_node_decode_from_jrb printed bits_flt new_node t = Ok (Some n)) ts ns ->
  foldM (decode_next printed bits_flt new_node data) (List.seq 0 k) [] = Ok (take k ns).
Proof.
  intros Hd Hl Hk Hf. induction k as [|k IH]; [done|]. rewrite seq_S, foldM_snoc, IH, bind_ok by lia. cbn [Nat.add].
  destruct (lookup_lt_is_Some_2 ts k ltac:(lia)) as (t & Et). destruct (Forall2_lookup_l _ _ _ _ _ Hf Et) as (n & En & Dn).
  unfold decode_next. destruct (numbered_find data ts k t Hd Hl Et) as (key & ->). cbn [snd value np_treeval_new_tree].
  rewrite Dn, bind_ok. by rewrite (take_S_r _ _ _ En).
Qed.

(** What a node tells others about its peers is what they hear: the list of the keys
    that have a node, encoded as one tree, decodes to nodes with the same keys,
    protocols, addresses and ports in the same order, and the announced number is theirs. *)
Theorem peers_told_are_heard kns ns : all_tellable kns ns -> Z.of_nat (length ns) <= 2 ^ 15 ->
  exists data, _np_node_encode_multiple_to_jrb flt_bits np_tree_create kns false = Ok (data, Z.of_nat (length ns)) /\
    _np_node_decode_multiple_from_jrb printed bits_flt new_node data = Ok ns.
Proof.
  intros Hk Hl. destruct (peers_encoded kns ns np_tree_create [] [] Hk Hl) as (data & ts & E & Hd & Hf); [|constructor|].
  { split; [apply (create_wf (K_int 0) false)|done]. }
  cbn [app] in Hf. pose proof (Forall2_length _ _ _ Hf) as Hlen. exists data. rewrite <-Hlen in *. split; [exact E|].
  unfold _np_node_decode_multiple_from_jrb. rewrite (numbered_size data ts Hd), Nat2Z.id by lia.
  rewrite (peers_decoded data ts ns) by done. by rewrite Hlen, firstn_all.
Qed.

End Peers.

(** ** The token of a handshake *)

Section Handshake.
Context `{Sodium} `{Qcbor} `{!Block_limits} `{Doubles}.
Context (encoder_leaves : list item -> Z -> list Z) (new_node : np_node_t).

Lemma fingerprint_ok t : exists fp, np_aaatoken_get_fingerprint t false = Ok fp /\ dhkey_wf fp.
Proof.
  unfold np_aaatoken_get_fingerprint. rewrite bind_ok. set (m := _ ++ _). pose proof (generichash_bytes m) as Hb.
  rewrite bin2hex_doc by done. destruct (hex_string_facts _ Hb) as (L & X & D). rewrite generichash_length in L.
  set (s := concat _) in *. change (2 * Crypto.crypto_generichash_BYTES)%nat with 64%nat in L.
  assert (valid_format s = true) as Hv by (unfold valid_format; rewrite take_ge, X, L by lia; done).
  rewrite create_from_hash_unfold, Hv, (np_str_id_valid sodium_hex2bin hex2bin_doc) by done. rewrite bind_ok. eexists. split; [done|].
  apply bytes_dhkey_wf. apply (decode_pairs_range 64); rewrite ?take_ge by lia; [lia|done].
Qed.

Definition handshake_subject (p ip pt : list Z) : list Z := c_string "urn:np:node:" ++ p ++ c_string ":" ++ ip ++ c_string ":" ++ pt.

Lemma handshake_subject_parsed p ip pt : no_colon p -> no_colon pt -> (length p + length ip + length pt <= 200)%nat ->
  __get_node_details_from_string (take 255 (drop (length _NP_URN_NODE_PREFIX - 1) (take 253 (handshake_subject p ip pt)))) =
  Some (Details (c_string "e") p ip pt).
Proof.
  intros Hp Hc Hl. rewrite (take_ge (handshake_subject p ip pt)).
  - rewrite take_ge; [|rewrite length_drop; unfold handshake_subject; rewrite !length_app; cbn; lia].
    change (drop _ (handshake_subject p ip pt)) with (c_string "e" ++ [colon] ++ p ++ [colon] ++ ip ++ [colon] ++ pt).
    apply details_of_parts; [|done|done]. by repeat (constructor; [discriminate|]).
  - unfold handshake_subject. rewrite !length_app. cbn. lia.
Qed.

(** The token a node makes for a handshake over one of its interfaces names the node to its
    peer: the peer gets a node with the protocol, address and port of the interface, the
    fingerprint of the sender's node token as its key and the priority that was drawn. *)
Theorem handshake_names_node context o p ip pt rng :
  object_ok o -> identity_ready (my_node_token context) -> token_type (my_node_token context) = np_aaatoken_type_node ->
  p ∈ known_protocols -> (length ip <= 40)%nat -> no_colon pt -> (length pt <= 5)%nat -> in_u 32 rng -> rng ≠ 24 ->
  exists fp t n, np_aaatoken_get_fingerprint (my_node_token context) false = Ok fp /\
    _np_token_factory_new_handshake_token encoder_leaves context o (_np_network_get_protocol_string p) ip pt rng = Ok t /\
    _np_node_from_token new_node t np_aaatoken_type_handshake = Ok (Some n) /\
    called n (_np_dhkey_str sodium_bin2hex fp) (_np_network_get_protocol_string p) ip pt /\ protocol n = p /\
    handshake_priority n = rng /\ max_messages_per_sec n = NP_NETWORK_DEFAULT_MAX_MSGS_PER_SEC.
Proof.
  intros Ho Hid Ht Hp Li Pc Lp Hr H24. destruct (fingerprint_ok (my_node_token context)) as (fp & Efp & Wfp).
  destruct (dhkey_str_facts fp Wfp) as (Ls & _ & _). destruct (protocol_name p Hp) as (Pp & Pn & Pu & Pl & _).
  exists fp. unfold _np_token_factory_new_handshake_token. rewrite Ht, (id_scope _ Hid).
  change (c_assert (FLAG_CMP np_aaatoken_type_node np_aaatoken_type_node)) with (Ok tt).
  change (c_assert (np_aaatoken_scope_private =? np_aaatoken_scope_private)) with (Ok tt). rewrite !bind_ok.
  destruct (derive_ok encoder_leaves o _ Ho Hid) as (t0 & c & -> & Hset & _). rewrite bind_ok.
  destruct (init_spec encoder_leaves NP_EXTENSION_BYTES (attributes (my_node_token context)) [] (id_block _ Hid)) as (a0 & E0 & B0);
    [unfold NP_EXTENSION_BYTES, DATABLOCK_OVERHEAD; lia|].
  rewrite app_nil_r in E0. change (attributes (copy_fields _ (my_node_token context) _ _)) with (attributes (my_node_token context)).
  rewrite E0, bind_ok, Efp, bind_ok. fold (handshake_subject (_np_network_get_protocol_string p) ip pt). set (t1 := set_subject _ _).
  destruct (set_uint_ok encoder_leaves t1 [] NP_HS_PRIO rng B0) as (a1 & E1 & B1 & _); [by_decide|done|done|done|done|].
  unfold set_uint in E1. destruct (np_set_data encoder_leaves (attributes t1) _ _) as [[r a]|] eqn:Es in E1; [|done]. rewrite bind_ok in E1.
  destruct (c_assert _) as [[]|]; [|done]. rewrite bind_ok in E1. assert (a = a1) as -> by (by injection E1).
  change (c_string "_np.hs.priority") with (c_string NP_HS_PRIO). rewrite Es, bind_ok.
  destruct (sign_both_ok encoder_leaves (set_attributes t1 a1) _ B1 Hset ltac:(vm_compute; discriminate)) as (sg & ->).
  eexists _, _. split; [done|]. split; [reflexivity|]. unfold _np_node_from_token. cbn [token_type set_attributes_signature set_signature set_attributes].
  change (FLAG_CMP (token_type t1) np_aaatoken_type_handshake) with true. cbn [negb].
  change (subject _) with (take 253 (handshake_subject (_np_network_get_protocol_string p) ip pt)).
  rewrite handshake_subject_parsed by (try done; lia). cbn [protocol_of s_protocol s_hostname s_port s_dhkey]. rewrite Pp, Pu.
  assert (np_dhkey_create_from_hash sodium_hex2bin (c_string "e") = Ok dhkey_zero) as -> by reflexivity. rewrite bind_ok.
  match goal with |- context [issuer ?x] => set (tf := x) end. change (attributes tf) with a1. rewrite (uint_attribute_ok _ _ _ _ NP_HS_PRIO rng B1); [|by apply name_key|done|done]. rewrite bind_ok.
  assert (uint_attribute a1 NP_NW_MAX_MSGS_PER_SEC = Ok None) as ->.
  { unfold uint_attribute. rewrite (get_spec _ _ _ _ _ B1), strn_key by (by apply name_key). reflexivity. }
  rewrite bind_ok. split; [reflexivity|]. unfold called, _np_node_update. cbn. rewrite !(take_ge ip), !(take_ge pt) by lia.
  split_and!; try done. change (issuer tf) with (_np_dhkey_str sodium_bin2hex fp). by rewrite take_ge by lia.
Qed.

End Handshake.

(** ** Witnesses *)

#[local] Existing Instance rfc8949.
#[local] Existing Instance toy_sodium.
#[local] Existing Instance whole_doubles.

Definition no_filter : np_bloom_t := Bloom stable_bf 0 8 3 (np_rng_init (0, 0)) [] 1 0.
Definition fresh_node : np_node_t :=
  Node None 0 None None np_node_status_Disconnected 0 7 np_node_status_Disconnected 0 0 0 false 3 false false (new_statistics 100) no_filter 256.
Definition sample_hash : np_dhkey_t := bytes_dhkey (replicate 32 7).
Definition sample_name : list Z := _np_dhkey_str sodium_bin2hex sample_hash.
Definition sample_ip : list Z := c_string "2001:db8::1".
Definition sample_port : list Z := c_string "31415".
Definition sample_node : np_node_t :=
  set_host_key (set_address fresh_node (Z.lor UDP IPv6) (Some sample_ip) (Some sample_port)) sample_name.

Lemma connection_string_roundtrip_witness :
  exists s n', np_get_connection_string_from np_key_type_interface (Some sample_node) true = Some s /\
    _np_node_decode_from_str fresh_node s = Ok (Some n') /\
    host_key n' = host_key sample_node /\ protocol n' = protocol sample_node /\ ip_string n' = ip_string sample_node /\
    port n' = port sample_node /\ np_get_connection_string_from np_key_type_interface (Some n') true = Some s.
Proof.
  apply (connection_string_roundtrip fresh_node sample_node sample_hash sample_ip sample_port np_key_type_interface).
  - apply bytes_dhkey_wf. by_decide.
  - discriminate.
  - by_decide.
  - by_decide.
  - by_decide.
  - by repeat (constructor; [discriminate|]).
  - by_decide.
  - by_decide.
Defined.

Definition never_answered : np_responsecontainer_t := Responsecontainer [] sample_hash dhkey_zero 0 120.
Definition a_timeout : answer := Answer 200 (Z.lor evt_timeout evt_response) never_answered 100.

Lemma timeouts_count_as_successes_witness :
  let s' := update_averages (foldl handle (new_statistics 100) (replicate 30 a_timeout ++ [a_timeout])) in
  success_win s' = replicate NP_NODE_SUCCESS_WINDOW 1 /\ (success_avg s' == 1)%Q /\ last_success s' = 200%Q.
Proof.
  apply (timeouts_count_as_successes (replicate 30 a_timeout) (new_statistics 100) a_timeout).
  - apply new_statistics_wf.
  - apply Forall_app. split; [apply Forall_replicate|apply List.Forall_cons; [|constructor]]; exists 150%Q; reflexivity.
  - apply Nat.leb_le. reflexivity.
Defined.

Definition some_keys : list key_with_node :=
  [Key_with_node sample_name (Some sample_node) None; Key_with_node (c_string "alias") None None;
   Key_with_node sample_name (Some fresh_node) (Some (c_string "10.0.0.1", c_string "31416"))].
Definition some_nodes : list np_node_t :=
  [sample_node; set_host_key (set_address fresh_node 0 (Some (c_string "10.0.0.1")) (Some (c_string "31416"))) sample_name].

Lemma peers_told_are_heard_witness :
  exists data, _np_node_encode_multiple_to_jrb (fun _ => 0) np_tree_create some_keys false = Ok (data, 2) /\
    _np_node_decode_multiple_from_jrb (fun _ => []) (fun _ => 0%Q) fresh_node data = Ok some_nodes.
Proof.
  apply (peers_told_are_heard (fun _ => []) (fun _ => 0) (fun _ => 0%Q) fresh_node some_keys some_nodes).
  - unfold some_keys, some_nodes.
    apply (tell_one fresh_node (Key_with_node sample_name (Some sample_node) None) sample_node sample_ip sample_port).
    { split; [done|done|done| | | |]; by_decide. }
    apply tell_nothing; [done|]. apply (tell_one fresh_node (Key_with_node sample_name (Some fresh_node) (Some (c_string "10.0.0.1", c_string "31416"))) fresh_node (c_string "10.0.0.1") (c_string "31416")).
    { split; [done|done|done| | | |]; by_decide. }
    constructor.
  - by_decide.
Defined.

Definition node_context : factory_context :=
  Factory_context None (bytes_dhkey (replicate 32 1)) sample_identity (bytes_dhkey (replicate 32 2)) (set_type sample_identity np_aaatoken_type_node)
    (replicate 6 empty_block).

Lemma handshake_names_node_witness :
  exists fp t n, np_aaatoken_get_fingerprint (my_node_token node_context) false = Ok fp /\
    _np_token_factory_new_handshake_token no_leaves node_context (sample_object 7) (_np_network_get_protocol_string (Z.lor PASSIVE IPv6)) sample_ip sample_port 5 = Ok t /\
    _np_node_from_token fresh_node t np_aaatoken_type_handshake = Ok (Some n) /\
    called n (_np_dhkey_str sodium_bin2hex fp) (_np_network_get_protocol_string (Z.lor PASSIVE IPv6)) sample_ip sample_port /\
    protocol n = Z.lor PASSIVE IPv6 /\ handshake_priority n = 5 /\ max_messages_per_sec n = NP_NETWORK_DEFAULT_MAX_MSGS_PER_SEC.
Proof.
  apply (handshake_names_node no_leaves fresh_node node_context (sample_object 7) (Z.lor PASSIVE IPv6) sample_ip sample_port 5).
  - apply sample_object_ok. by_decide.
  - destruct sample_identity_ready as [E1 E2 E3 E4 E5]. by split.
  - reflexivity.
  - by_decide.
  - by_decide.
  - by repeat (constructor; [discriminate|]).
  - by_decide.
  - by_decide.
  - discriminate.
Defined.

(** Comparing nodes looks at the characters of the first one only. *)
Lemma comparison_of_prefixes :
  let n (ip : string) := Some (set_address fresh_node (Z.lor UDP IPv4) (Some (c_string ip)) (Some sample_port)) in
  _np_node_cmp (n "10.0.0.1"%string) (n "10.0.0.10"%string) = Ok false /\ _np_node_cmp (n "10.0.0.10"%string) (n "10.0.0.1"%string) = Ok true.
Proof. by split. Qed.

(** A success rate travels as a float, which is a double when it has been read; a half, seen
    through the member for floats, is then nothing. *)
Lemma half_is_read_as_zero bits_flt : f_of bits_flt (np_treeval_new_d 0x3FE0000000000000) = Ok (bits_flt 0).
Proof. reflexivity. Qed.

(** A peer whose list lacks a number is followed to nowhere. *)
Lemma unnumbered_peers_crash t : _np_node_decode_multiple_from_jrb (fun _ => []) (fun _ => 0%Q) fresh_node
    (Tree [(mk_key (V_i 3), np_treeval_new_tree t)] 1 0 false false) = Err Bad_access.
Proof. reflexivity. Qed.
