(* ===== verification/Reach.v ===== *)
(** * Reaching a node: [src/np_glia.c], addresses of [src/np_network.c]

    Whether a node can be reached from the interfaces of this one: what kind of
    address its own is, and what kind the interface has over which the system would
    send.  [inet_pton4] and [inet_pton6] read an address as a number in host order and
    as sixteen bytes; [outgoing_ip] is the address the system sends from, empty when it
    does not know; [clz0] is what [__builtin_clz] makes of 0. *)
From Stdlib Require Import ZArith Lia QArith String.
From stdpp Require Import prelude gmap fin_maps.
From S2P Require Import Prelude Real Dhkey Key Token Keycache Node KeycacheSpec KeycacheThms NodeThms.

Local Open Scope Z_scope.

Section Reach.
Context (inet_pton4 : list Z -> option Z) (inet_pton6 : list Z -> option (list Z)) (clz0 : Z).

(** [__builtin_clz] *)
Definition clz (x : Z) : Z := if x =? 0 then clz0 else 31 - Z.log2 x.

Fixpoint common_blocks (fuel : nat) (a b : list Z) : Z :=
  match fuel, a, b with
  | S fuel, a0 :: a1 :: a, b0 :: b1 :: b => if (a0 =? b0) && (a1 =? b1) then 1 + common_blocks fuel a b else 0
  | _, _, _ => 0
  end.

Definition _np_network_count_common_tuples (remote_ip local_ip : list Z) : Z :=
  match strchr remote_ip colon, strchr local_ip colon with
  | None, Some _ | Some _, None => 0
  | None, None =>
      match inet_pton4 remote_ip, inet_pton4 local_ip with
      | Some r_addr, Some n_addr => clz (Z.lxor r_addr n_addr) ≫ 3
      | _, _ => 0
      end
  | Some _, Some _ =>
      match inet_pton6 remote_ip, inet_pton6 local_ip with
      | Some r, Some l => common_blocks 8 r l
      | _, _ => 0
      end
  end.

(** The first characters decide. *)
Definition _np_network_is_loopback_address (ip : list Z) : bool :=
  bool_decide (take 9 ip = c_string "127.0.0.1") || bool_decide (take 3 ip = c_string "::1").

Definition _np_network_is_private_address (ip : list Z) : bool :=
  match inet_pton4 ip, inet_pton6 ip with
  | None, None => false
  | Some ip_int, _ =>
      ((0x0A000000 <=? ip_int) && (ip_int <=? 0x0AFFFFFF)) || ((0xAC100000 <=? ip_int) && (ip_int <=? 0xAC1FFFFF)) ||
      ((0xC0A80000 <=? ip_int) && (ip_int <=? 0xC0A8FFFF))
  | None, Some b =>
      let byte i := nth i b 0 in
      (byte 0%nat =? 0xFC) || (byte 0%nat =? 0xFD) || ((byte 0%nat =? 0xFE) && (byte 1%nat =? 0x80))
  end.

Section Glia.
Context `{RbTree tree}.
(** The address the system sends from, and the protocol of the node of a key. *)
Context (outgoing_ip : list Z -> Z -> list Z) (protocol_of : key_ptr -> Z) (main_ip : list Z).

(** What the function reads of the node of an interface. *)
Definition node_info (c : keycache_t (tree := tree)) (p : key_ptr) : result (list Z * Z) :=
  k ← key_at c p;
  match _np_key_get_node k with
  | Some node => match Key.ip_string node with Some ip => Ok (ip, protocol_of p) | None => Err Bad_access end
  | None => Err Bad_access
  end.

(** [unref_obj] on a key that may be NULL after the second search. *)
Definition release (c : keycache_t (tree := tree)) (p : option key_ptr) : result (keycache_t (tree := tree)) :=
  match p with Some p => '(c, _) ← unref_obj c p; Ok c | None => Err Bad_access end.

(** Whether the node is reachable, the cache, and the interface for it; [want]: the caller
    takes the interface, and its reference. *)
Definition decided (c : keycache_t (tree := tree)) (interface_key : option key_ptr) (want ret : bool) : result (keycache_t (tree := tree) * bool * option key_ptr) :=
  if ret && want then Ok (c, ret, interface_key) else c ← release c interface_key; Ok (c, ret, None).

Definition _np_glia_node_can_be_reached (c : keycache_t (tree := tree)) (remote_ip : list Z) (protocol : Z) (want : bool)
    : result (keycache_t (tree := tree) * bool * option key_ptr) :=
  let remote_is_private := _np_network_is_private_address remote_ip in
  let remote_is_localhost := _np_network_is_loopback_address remote_ip in
  c_assert (FLAG_CMP protocol IPv4 || FLAG_CMP protocol IPv6);;
  let local_ip := outgoing_ip remote_ip protocol in
  '(c, interface_key) ← _np_keycache_find_interface c local_ip None;
  '(c, interface_key, is_main_interface) ←
    (match interface_key with
     | Some p => Ok (c, p, false)
     | None =>
         '(c, interface_key) ← _np_keycache_find_interface c main_ip None;
         match interface_key with Some p => Ok (c, p, true) | None => Err Assert_failed end
     end);
  '(ip, proto) ← node_info c interface_key;
  let local_is_private := _np_network_is_private_address ip in
  let local_is_localhost := _np_network_is_loopback_address ip in
  if local_is_localhost && remote_is_localhost && FLAG_CMP protocol (Z.land proto MASK_IP) then decided c (Some interface_key) want true
  else if remote_is_private && local_is_private && (0 <? _np_network_count_common_tuples remote_ip ip) then
    decided c (Some interface_key) want true
  else if (remote_is_private && local_is_localhost) || (local_is_private && negb remote_is_private) then
    let needed := Z.lor PASSIVE (Z.land MASK_IP protocol) in
    let ret := FLAG_CMP proto needed in
    if negb ret && local_is_private && negb is_main_interface then
      c ← release c (Some interface_key);
      '(c, interface_key) ← _np_keycache_find_interface c main_ip None;
      match interface_key with
      | None => Err Bad_access
      | Some p => '(_, proto) ← node_info c p; decided c (Some p) want (FLAG_CMP proto needed)
      end
    else decided c (Some interface_key) want ret
  else decided c (Some interface_key) want (negb remote_is_private && negb local_is_private).

End Glia.
End Reach.

(** ** Reaching a node: what decides, and that no reference is lost *)

(** ** Common tuples *)

(** Octet by octet, from the first one, as the comment in the code has it. *)
Fixpoint common_octets (n : nat) (r l : Z) : Z :=
  match n with
  | O => 0
  | S n => if Z.land (r ≫ (8 * Z.of_nat n)) 255 =? Z.land (l ≫ (8 * Z.of_nat n)) 255 then 1 + common_octets n r l else 0
  end.

Lemma octet_equal r l k : 0 <= k ->
  (Z.land (r ≫ k) 255 =? Z.land (l ≫ k) 255) = (Z.land (Z.lxor r l ≫ k) 255 =? 0).
Proof.
  intros Hk. rewrite Z.shiftr_lxor. 
  assert (Z.land (Z.lxor (r ≫ k) (l ≫ k)) 255 = Z.lxor (Z.land (r ≫ k) 255) (Z.land (l ≫ k) 255)) as ->.
  { apply Z.bits_inj'. intros i Hi. rewrite Z.land_spec, !Z.lxor_spec, !Z.land_spec.
    by destruct (Z.testbit (r ≫ k) i), (Z.testbit (l ≫ k) i), (Z.testbit 255 i). }
  destruct (Z.eqb_spec (Z.land (r ≫ k) 255) (Z.land (l ≫ k) 255)) as [->|Hne]; [by rewrite Z.lxor_nilpotent|].
  destruct (Z.eqb_spec (Z.lxor (Z.land (r ≫ k) 255) (Z.land (l ≫ k) 255)) 0) as [E|]; [|done]. by apply Z.lxor_eq in E.
Qed.

Lemma top_octet d k : 0 <= k -> 0 <= d < 2 ^ (k + 8) -> (Z.land (d ≫ k) 255 =? 0) = (d <? 2 ^ k).
Proof.
  intros Hk Hd. change 255 with (Z.ones 8). rewrite Z.land_ones, Z.shiftr_div_pow2 by lia. rewrite Z.pow_add_r in Hd by lia.
  assert (0 < 2 ^ k) by (by apply Z.pow_pos_nonneg). rewrite Z.mod_small by (split; [apply Z.div_pos; lia|apply Z.div_lt_upper_bound; lia]).
  destruct (Z.ltb_spec d (2 ^ k)); [by rewrite Z.div_small by lia|]. apply Z.eqb_neq.
  enough (1 <= d / 2 ^ k) by lia. apply Z.div_le_lower_bound; lia.
Qed.

Lemma clz_tuples clz0 d k : 0 <= k <= 3 -> 2 ^ (8 * k) <= d < 2 ^ (8 * k + 8) -> clz clz0 d ≫ 3 = 3 - k.
Proof.
  intros Hk Hd. assert (0 < 2 ^ (8 * k)) by (apply Z.pow_pos_nonneg; lia). unfold clz. destruct (Z.eqb_spec d 0); [lia|].
  assert (8 * k <= Z.log2 d) by (apply Z.log2_le_pow2; lia). assert (Z.log2 d < 8 * k + 8) by (apply Z.log2_lt_pow2; lia).
  rewrite Z.shiftr_div_pow2 by lia. change (2 ^ 3) with 8. divlia.
Qed.

(** The leading zeros of the difference count the leading octets that two addresses of
    IPv4 share, unless the addresses are the same. *)
Theorem common_tuples_reference inet_pton4 inet_pton6 clz0 remote local r l :
  no_colon remote -> no_colon local -> inet_pton4 remote = Some r -> inet_pton4 local = Some l -> in_u 32 r -> in_u 32 l -> r ≠ l ->
  _np_network_count_common_tuples inet_pton4 inet_pton6 clz0 remote local = common_octets 4 r l.
Proof.
  intros Cr Cl Er El Hr Hl Hne. unfold _np_network_count_common_tuples. rewrite !strchr_none by done. rewrite Er, El.
  assert (0 < Z.lxor r l < 2 ^ 32) as Hd.
  { pose proof (in_u_lxor 32 r l ltac:(done) Hr Hl) as [H0 H32]. split; [|done].
    destruct (Z.eq_dec (Z.lxor r l) 0) as [E|]; [by apply Z.lxor_eq in E|lia]. }
  cbn [common_octets]. rewrite !octet_equal by lia. set (d := Z.lxor r l) in *.
  change (8 * Z.of_nat 3) with 24. change (8 * Z.of_nat 2) with 16. change (8 * Z.of_nat 1) with 8. change (8 * Z.of_nat 0) with 0.
  rewrite (top_octet d 24) by lia. destruct (Z.ltb_spec d (2 ^ 24)); [|by rewrite (clz_tuples clz0 d 3) by lia].
  rewrite (top_octet d 16) by lia. destruct (Z.ltb_spec d (2 ^ 16)); [|by rewrite (clz_tuples clz0 d 2) by lia].
  rewrite (top_octet d 8) by lia. destruct (Z.ltb_spec d (2 ^ 8)); [|by rewrite (clz_tuples clz0 d 1) by lia].
  rewrite (top_octet d 0) by lia. destruct (Z.ltb_spec d (2 ^ 0)); [lia|]. by rewrite (clz_tuples clz0 d 0) by lia.
Qed.

(** ** The interface and the decision *)

Section Reachable.
Context `{RbTreeLaws tree}.
Context (inet_pton4 : list Z -> option Z) (inet_pton6 : list Z -> option (list Z)) (clz0 : Z).
Context (outgoing_ip : list Z -> Z -> list Z) (protocol_of : key_ptr -> Z) (main_ip : list Z).
Abbreviation cache := (keycache_t (tree := tree)).

(** The first interface, in the order of the tree, whose address begins with [ip]. *)
Definition is_interface (c : cache) (ip : list Z) (p : key_ptr) : bool :=
  match objects c !! p with Some (k, _) => interface_matches ip None k | None => false end.
Definition interface (c : cache) (ip : list Z) : option key_ptr :=
  snd <$> List.find (fun e => is_interface c ip e.2) (rb_foreach (__key_cache c)).

Lemma foreach_first m (c : cache) held l : cache_inv c held -> (forall e, e ∈ l -> e ∈ rb_foreach (__key_cache c)) ->
  foreach_find (fun k => Ok (m k)) c l =
  match List.find (fun e => match objects c !! e.2 with Some (k, _) => m k | None => false end) l with
  | Some e => c ← ref_obj c e.2; Ok (c, Some e.2)
  | None => Ok (c, None)
  end.
Proof.
  intros I. induction l as [|[k p] l IH]; intros Hl; [done|]. cbn [foreach_find List.find snd].
  destruct (inv_entry _ _ I k p) as (key & n & E & _); [apply Hl; left|]. unfold key_at. rewrite E, !bind_ok.
  destruct (m key); [done|]. apply IH. intros e He. apply Hl. by right.
Qed.

(** The cache with one more reference to a key. *)
Definition with_ref (c : cache) (p : key_ptr) : cache :=
  match objects c !! p with Some (k, n) => set_objects c (<[p := (k, n + 1)]> (objects c)) | None => c end.

Lemma interface_object (c : cache) held ip p : cache_inv c held -> interface c ip = Some p ->
  exists k n node s, objects c !! p = Some (k, n) /\ 1 <= n /\ _np_key_get_node k = Some node /\ Key.ip_string node = Some s.
Proof.
  intros I E. unfold interface in E. destruct (List.find _ _) as [e|] eqn:F; [|done]. injection E as <-.
  apply find_some in F as [Hin M]. unfold is_interface in M. destruct (objects c !! e.2) as [[k n]|] eqn:Eo; [|done].
  pose proof (inv_pos _ _ I _ _ _ Eo). unfold interface_matches in M. apply andb_true_iff in M as [_ M].
  destruct (_np_key_get_node k) as [node|] eqn:En; [|done]. destruct (Key.ip_string node) as [s|] eqn:Es; [|done]. by eauto 10.
Qed.

Lemma find_interface_ok (c : cache) held ip : cache_inv c held ->
  _np_keycache_find_interface c ip None = Ok (match interface c ip with Some p => with_ref c p | None => c end, interface c ip).
Proof.
  intros I. unfold _np_keycache_find_interface. rewrite (foreach_first _ c held) by done.
  change (List.find _ _) with (List.find (fun e => is_interface c ip e.2) (rb_foreach (__key_cache c))).
  destruct (interface c ip) as [p|] eqn:Ei.
  - destruct (interface_object _ _ _ _ I Ei) as (k & n & _ & _ & Eo & _). unfold interface in Ei. unfold with_ref. rewrite Eo.
    destruct (List.find _ _) as [e|]; [|done]. injection Ei as ->. unfold ref_obj. by rewrite Eo, bind_ok.
  - unfold interface in Ei. by destruct (List.find _ _).
Qed.

Lemma release_with_ref (c : cache) held ip p : cache_inv c held -> interface c ip = Some p -> release (with_ref c p) (Some p) = Ok c.
Proof.
  intros I E. destruct (interface_object _ _ _ _ I E) as (k & n & _ & _ & Eo & Hn & _). unfold release, unref_obj, with_ref. rewrite Eo.
  cbn [set_objects objects]. rewrite lookup_insert_eq. destruct (Z.eqb_spec (n + 1 - 1) 0); [lia|]. rewrite bind_ok.
  rewrite insert_insert_eq. replace (n + 1 - 1) with n by lia. unfold set_objects; cbn [__key_cache __last_udpate _check_state_iterator objects]. rewrite insert_id by done. by destruct c.
Qed.

(** Address and protocol of an interface. *)
Definition info (c : cache) (p : key_ptr) : list Z * Z :=
  (match objects c !! p with Some (k, _) => default [] (node ← _np_key_get_node k; Key.ip_string node) | None => [] end, protocol_of p).

Lemma node_info_with_ref (c : cache) held ip p : cache_inv c held -> interface c ip = Some p ->
  node_info protocol_of (with_ref c p) p = Ok (info c p).
Proof.
  intros I E. destruct (interface_object _ _ _ _ I E) as (k & n & node & s & Eo & _ & En & Es).
  unfold node_info, key_at, with_ref, info. rewrite Eo. cbn [set_objects objects]. rewrite lookup_insert_eq, bind_ok, En, Es.
  cbn. by rewrite Es.
Qed.

(** The interface over which the system would send, or the main one. *)
Definition used (c : cache) (remote_ip : list Z) (protocol : Z) : option key_ptr :=
  match interface c (outgoing_ip remote_ip protocol) with Some p => Some p | None => interface c main_ip end.

Definition private := _np_network_is_private_address inet_pton4 inet_pton6.
Definition loopback := _np_network_is_loopback_address.
(** A connection that the other side opens. *)
Definition passive (protocol proto : Z) : bool := FLAG_CMP proto (Z.lor PASSIVE (Z.land MASK_IP protocol)).

(** What decides: the kinds of both addresses. *)
Definition verdict (remote_ip : list Z) (protocol : Z) (ip : list Z) (proto main_proto : Z) : bool :=
  (loopback ip && loopback remote_ip && FLAG_CMP protocol (Z.land proto MASK_IP)) ||
  match private remote_ip, private ip with
  | true, true => (0 <? _np_network_count_common_tuples inet_pton4 inet_pton6 clz0 remote_ip ip) ||
                  (loopback ip && (passive protocol proto || passive protocol main_proto))
  | true, false => loopback ip && passive protocol proto
  | false, true => passive protocol proto || passive protocol main_proto
  | false, false => true
  end.

(** A node is taken for reachable by a table of the kinds of both addresses: between two
    private ones a common first tuple decides, between a private and a public one a passive
    interface, two that are not private always reach each other; and whatever the answer,
    the cache and all its reference counts are as before. *)
Theorem reachable_spec (c : cache) held remote_ip protocol p m :
  cache_inv c held -> FLAG_CMP protocol IPv4 || FLAG_CMP protocol IPv6 = true ->
  used c remote_ip protocol = Some p -> interface c main_ip = Some m ->
  _np_glia_node_can_be_reached inet_pton4 inet_pton6 clz0 outgoing_ip protocol_of main_ip c remote_ip protocol false =
  Ok (c, verdict remote_ip protocol (info c p).1 (info c p).2 (info c m).2, None).
Proof.
  intros I Hp Hu Hm. unfold _np_glia_node_can_be_reached. rewrite Hp. change (c_assert true) with (Ok tt). rewrite bind_ok.
  rewrite (find_interface_ok c held) by done. rewrite bind_ok.
  assert (exists ip b, interface c ip = Some p /\ (b = true -> p = m) /\
    (match interface c (outgoing_ip remote_ip protocol) with
     | Some p => Ok (match interface c (outgoing_ip remote_ip protocol) with Some p => with_ref c p | None => c end, p, false)
     | None => '(c, interface_key) ← _np_keycache_find_interface
                 (match interface c (outgoing_ip remote_ip protocol) with Some p => with_ref c p | None => c end) main_ip None;
         match interface_key with Some p => Ok (c, p, true) | None => Err Assert_failed end
     end) = Ok (with_ref c p, p, b)) as (ip & b & Ei & Hb & ->).
  { unfold used in Hu. destruct (interface c (outgoing_ip remote_ip protocol)) as [q|] eqn:Eq.
    - injection Hu as ->. exists (outgoing_ip remote_ip protocol), false. by rewrite Eq.
    - rewrite (find_interface_ok c held) by done. rewrite Hu, bind_ok. exists main_ip, true. split_and!; [done|congruence|done]. }
  rewrite bind_ok, (node_info_with_ref c held ip p I Ei), bind_ok.
  assert (forall r, decided (with_ref c p) (Some p) false r = Ok (c, r, None)) as Hd.
  { intros r. unfold decided. rewrite andb_false_r, (release_with_ref c held ip p I Ei). done. }
  destruct (info c p) as [lip proto] eqn:Einfo. cbn [fst snd]. rewrite !Hd. unfold verdict. fold private loopback.
  destruct (loopback lip && loopback remote_ip && FLAG_CMP protocol (Z.land proto MASK_IP)); [done|]. cbn [orb].
  destruct (private remote_ip) eqn:Pr, (private lip) eqn:Pl; cbn [andb negb orb].
  1: destruct (0 <? _np_network_count_common_tuples _ _ _ _ _); [done|]; cbn [orb]; rewrite orb_false_r.
  2: destruct (loopback lip); cbn [andb orb]; [by rewrite andb_false_r|done].
  3: done.
  1: destruct (loopback lip); cbn [andb]; [|done].
  all: rewrite andb_true_r; unfold passive; destruct (FLAG_CMP proto _) eqn:Ep; cbn [negb orb andb]; [done|].
  all: destruct b; cbn [negb].
  1, 3: by rewrite <-(Hb eq_refl), Einfo; cbn [snd]; rewrite Ep.
  all: rewrite (release_with_ref c held ip p I Ei), bind_ok, (find_interface_ok c held) by done; rewrite Hm, bind_ok.
  all: rewrite (node_info_with_ref c held main_ip m I Hm), bind_ok; destruct (info c m) as [? mp]; unfold decided; rewrite andb_false_r.
  all: by rewrite (release_with_ref c held main_ip m I Hm), bind_ok.
Qed.
End Reachable.

(** ** A node with two interfaces *)

Definition place_node (p : key_ptr) (node : Key.np_node_t) : request :=
  Change_key p (fun k => Key (dhkey k) np_key_type_interface (parent_dhkey k) (created_at k) (last_update k) (is_in_keycache k) (Some node)).

Definition at_address (ip : list Z) : Key.np_node_t := Key.Node 0 0 (Some ip) (Some (c_string "31415")) 0.
Definition public_ip : list Z := c_string "203.0.113.7".
Definition private_ip : list Z := c_string "192.168.1.2".
Definition remote_private : list Z := c_string "192.168.9.9".
Definition localhost : list Z := c_string "127.0.0.1".
Definition two_requests : list request :=
  [Find_or_create (key_of 3); Find_or_create (key_of 5); place_node 1%positive (at_address public_ip); place_node 2%positive (at_address private_ip)].
Definition two_run : @keycache_t (list (np_dhkey_t * key_ptr)) * (key_ptr -> Z) :=
  match run_client example_alloc 0 (fun _ => 0) (ask_all two_requests Stop) (_np_keycache_init ∅, fun _ => 0) with
  | Ok s => s
  | Err _ => (_np_keycache_init ∅, fun _ => 0)
  end.

Lemma two_inv : cache_inv two_run.1 two_run.2.
Proof.
  unfold two_run.
  destruct (run_from_start (tree := list (np_dhkey_t * key_ptr)) example_alloc 0 (ask_all two_requests Stop) example_alloc_fresh) as (c & held & -> & I); [|done].
  apply ask_all_wf; [|done]. repeat (constructor; [first [exact I|by_decide|done]|]). constructor.
Qed.

(** The addresses of the example. *)
Definition pton4 (s : list Z) : option Z :=
  if decide (s = public_ip) then Some 0xCB007107 else if decide (s = private_ip) then Some 0xC0A80102
  else if decide (s = remote_private) then Some 0xC0A80909 else if decide (s = localhost) then Some 0x7F000001 else None.
Definition way_out (remote : list Z) (_ : Z) : list Z := if decide (remote = remote_private) then private_ip else remote.

Lemma reachable_spec_witness :
  verdict pton4 (fun _ => None) 0 remote_private (Z.lor UDP IPv4) private_ip (Z.lor UDP IPv4) (Z.lor UDP IPv4) = true /\
  _np_glia_node_can_be_reached pton4 (fun _ => None) 0 way_out (fun _ => Z.lor UDP IPv4) public_ip two_run.1 remote_private (Z.lor UDP IPv4) false =
  Ok (two_run.1, verdict pton4 (fun _ => None) 0 remote_private (Z.lor UDP IPv4)
    (info (fun _ => Z.lor UDP IPv4) two_run.1 2%positive).1 (info (fun _ => Z.lor UDP IPv4) two_run.1 2%positive).2
    (info (fun _ => Z.lor UDP IPv4) two_run.1 1%positive).2, None).
Proof.
  split; [vm_compute; reflexivity|].
  apply (reachable_spec pton4 (fun _ => None) 0 way_out (fun _ => Z.lor UDP IPv4) public_ip two_run.1 two_run.2 remote_private (Z.lor UDP IPv4)
    2%positive 1%positive two_inv); vm_compute; reflexivity.
Defined.

Lemma common_tuples_reference_witness :
  _np_network_count_common_tuples pton4 (fun _ => None) 0 remote_private private_ip = common_octets 4 0xC0A80909 0xC0A80102.
Proof.
  apply common_tuples_reference.
  - by repeat (constructor; [discriminate|]).
  - by repeat (constructor; [discriminate|]).
  - reflexivity.
  - reflexivity.
  - by_decide.
  - by_decide.
  - discriminate.
Defined.

(** The address of the own host is neither private nor is it the other node's: a node with a
    public interface takes it for reachable. *)
Lemma public_node_reaches_localhost : exists c,
  _np_glia_node_can_be_reached pton4 (fun _ => None) 0 way_out (fun _ => Z.lor UDP IPv4) public_ip two_run.1 localhost (Z.lor UDP IPv4) false =
  Ok (c, true, None).
Proof. eexists. vm_compute. reflexivity. Qed.

(** Every address that begins like the one of the own host counts as it. *)
Lemma loopback_by_prefix : _np_network_is_loopback_address (c_string "127.0.0.199") = true /\ _np_network_is_loopback_address (c_string "127.1.0.1") = false.
Proof. by split. Qed.
