(* ===== verification/Axon.v ===== *)
(** * Sending: [src/np_axon.c]

    What a node does with a message or a part of one that is to leave it: which hops it
    goes to, and what is handed to the job queue or to the current run of the event
    loop.  Hops come from the pheromone table, the routing table or the event; the
    handlers return what they hand over, in order, and the tables they changed. *)
From Stdlib Require Import ZArith Lia QArith String Lqa.
From stdpp Require Import prelude gmap.
From S2P Require Import Prelude Real Dhkey Key KeySort Route Pheromones Token KeyStates Crypto Treeval Tree Qcbor Serial Aaatoken TokenFactory Intent Msgproperty MsgpropertyLife Chunk Payload Node Keycache Reach Rng BloomBase BloomNeuropil BloomNeuropilSpec BloomNeuropilThms PheromonesSpec PheromonesThms.

Local Open Scope Z_scope.

(** ** What is handed over *)

(** A message, or a part with the packet it was read from. *)
Inductive payload := To_message (m : message_t) | To_part (p : np_n2n_messagepart_t) (chunk : list Z) | To_container (c : np_responsecontainer_t).
(** To the job queue or to the current run. *)
Inductive way := Queue | Run.
Record sending := Sending { via : way; hop : np_dhkey_t; send_type : Z; send_target : np_dhkey_t; send_data : payload }.

Definition message_out : Z := Z.lor evt_internal evt_message.

Definition part_subject (p : np_n2n_messagepart_t) : np_dhkey_t := bytes_dhkey (peek 0 32 (msg_header p)).
Definition part_audience (p : np_n2n_messagepart_t) : np_dhkey_t := bytes_dhkey (peek 32 32 (msg_header p)).
Definition one_hop_more (p : np_n2n_messagepart_t) : np_n2n_messagepart_t :=
  MsgPart (chunk_offset p) (is_forwarded_part p) (mac_n p) (seq p) (u16 (hop_count p + 1)) (part_mac_e p) (msg_header p) (part_body p) (part_nonce p).

(** The first element that fits is taken out of the list. *)
Fixpoint remove_where (f : np_dhkey_t -> bool) (l : list np_dhkey_t) : list np_dhkey_t :=
  match l with
  | [] => []
  | x :: l => if f x then l else x :: remove_where f l
  end.
Definition __dhkey_compare (left_ right_ : np_dhkey_t) : Z := _np_dhkey_cmp (Some left_) (Some right_).

Section Axon.
(** The hash of the own node, and whether a key is in the key cache. *)
Context (my_node_key : np_dhkey_t) (exists_ : np_dhkey_t -> bool).
(** Whether the node is connected at all. *)
Context (has_connection : bool).
(** Fuel and seeds of the random choice that lets a trail fade. *)
Context (fuel : nat) (seeds : Z * Z).

Definition duplicate (msg : payload) : result payload :=
  match msg with
  | To_message m => d ← np_message_clone message_new m; Ok (To_message d)
  | To_part p chunk => d ← np_messagepart_clone p chunk; Ok (To_part d chunk)
  | To_container c => Ok (To_container c)
  end.

(** To each hop of the list that is known and not this node itself, a copy. *)
Definition send_step (msg : payload) (msg_to : np_dhkey_t) (key : np_dhkey_t) (s : bool * list sending) : result (bool * list sending) :=
  if negb (_np_dhkey_equal key my_node_key) && exists_ key then
    d ← duplicate msg; Ok (true, s.2 ++ [Sending Queue key message_out msg_to d])
  else Ok s.
Definition __np_axon_send_chunks (msg : payload) (msg_to : np_dhkey_t) (tmp : list np_dhkey_t) : result (bool * list sending) :=
  foldM (send_step msg msg_to) tmp (false, []).

(** A message cut into parts, or a part: [accepts i]: the job queue takes the i-th. *)
Definition hand_over (accepts : bool) (hop_ : np_dhkey_t) (type : Z) (target : np_dhkey_t) (d : payload) : sending :=
  Sending (if accepts then Queue else Run) hop_ type target d.
Definition __np_axon_split_message (accepts : nat -> bool) (blob : list Z) (type : Z) (target_dhkey : np_dhkey_t) (out_msg : payload)
    : result (list sending) :=
  match out_msg with
  | To_message m =>
      b ← _np_message_serialize_chunked (binary m);
      for_range 0 (Z.to_nat (header_parts (header b))) (fun i acc =>
        match msg_chunks b with
        | Some chunks =>
            match chunks !! i with
            | Some (Some p) => Ok (acc ++ [hand_over (accepts i) target_dhkey type target_dhkey (To_part p blob)])
            | _ => Err Bad_access
            end
        | None => Err Bad_access
        end) []
  | To_part p chunk => Ok [hand_over (accepts O) target_dhkey type target_dhkey (To_part p chunk)]
  | To_container _ => Err Assert_failed
  end.

(** ** Following trails *)

(** The rounds of a search: the threshold is what the last search found, less a tenth. *)
Fixpoint forward_rounds (n : nat) (p : pheromones) (subject from : np_dhkey_t) (tmp : list np_dhkey_t) (target_age : Q) : result (list np_dhkey_t) :=
  '(tmp, target_age) ← _np_pheromone_snuffle_receiver p tmp subject target_age;
  let tmp := remove_where (fun x => __dhkey_compare x from =? 0) tmp in
  let target_age := (target_age - (1 # 10))%Q in
  match n with
  | O => Ok tmp
  | S n => match tmp with [] => forward_rounds n p subject from tmp target_age | _ => Ok tmp end
  end.

(** Forwarding a part that came from the hop [from]. *)
Definition _np_out_forward (p : pheromones) (from : np_dhkey_t) (forward_msg : np_n2n_messagepart_t) (chunk : list Z)
    : result (bool * list sending * np_n2n_messagepart_t * pheromones) :=
  if negb has_connection then Ok (false, [], forward_msg, p)
  else
    tmp ← forward_rounds 7 p (part_subject forward_msg) from [] 1;
    let tmp := remove_where (fun x => _np_dhkey_equal x from) tmp in
    let forward_msg := one_hop_more forward_msg in
    '(ret, sent) ← __np_axon_send_chunks (To_part forward_msg chunk) (part_audience forward_msg) tmp;
    p ← _np_pheromone_exhale fuel seeds (Some p);
    Ok (ret, sent, forward_msg, p).

Fixpoint default_rounds (n : nat) (p : pheromones) (subject : np_dhkey_t) (tmp : list np_dhkey_t) (target_probability : Q)
    : result (list np_dhkey_t) :=
  match n, tmp with
  | S n, [] =>
      '(tmp, target_probability) ← _np_pheromone_snuffle_receiver p tmp subject target_probability;
      default_rounds n p subject tmp (target_probability - (1 # 10))%Q
  | _, _ => Ok tmp
  end.

Definition _np_out_default (p : pheromones) (default_msg : message_t) : result (bool * list sending) :=
  if negb has_connection then Ok (false, [])
  else
    tmp ← default_rounds 8 p (get_subject default_msg) [] 1;
    match tmp with
    | [] => Ok (false, [])
    | _ => __np_axon_send_chunks (To_message default_msg) (get_audience default_msg) tmp
    end.

(** ** Announcements *)

Section Subjects.
Context `{Sodium}.
Definition np_generate_subject (subject_id : np_dhkey_t) (subj : list Z) : np_dhkey_t :=
  _np_dhkey_xor (_np_dhkey_generate_hash crypto_generichash subj) subject_id.
Definition generated (subj : list Z) : np_dhkey_t := np_generate_subject dhkey_zero subj.

(** Each round has a threshold of its own, a tenth lower. *)
Fixpoint available_rounds (n : nat) (p : pheromones) (find_receiver find_sender : bool) (audience : np_dhkey_t) (tmp : list np_dhkey_t)
    (original_target_age : Q) : result (list np_dhkey_t) :=
  match n, tmp with
  | S n, [] =>
      if find_receiver then
        '(tmp, _) ← _np_pheromone_snuffle_receiver p tmp audience original_target_age;
        available_rounds n p find_receiver find_sender audience tmp (original_target_age - (1 # 10))%Q
      else if find_sender then
        '(tmp, _) ← _np_pheromone_snuffle_sender p tmp audience original_target_age;
        available_rounds n p find_receiver find_sender audience tmp (original_target_age - (1 # 10))%Q
      else Ok tmp
  | _, _ => Ok tmp
  end.

Definition data_subject (d : payload) : result np_dhkey_t :=
  match d with To_message m => Ok (get_subject m) | To_part p _ => Ok (part_subject p) | To_container _ => Err Assert_failed end.
Definition data_audience (d : payload) : result np_dhkey_t :=
  match d with To_message m => Ok (get_audience m) | To_part p _ => Ok (part_audience p) | To_container _ => Err Assert_failed end.
(** A part that is forwarded has come one hop further. *)
Definition count_hop (d : payload) : payload :=
  match d with To_part p chunk => To_part (if is_forwarded_part p then one_hop_more p else p) chunk | _ => d end.

Definition _np_out_available_messages (p : pheromones) (from : np_dhkey_t) (user_data : payload)
    : result (bool * list sending * payload * pheromones) :=
  subject ← data_subject user_data;
  audience ← data_audience user_data;
  let user_data := count_hop user_data in
  if negb has_connection then Ok (false, [], user_data, p)
  else
    let find_receiver := _np_dhkey_equal subject (generated _NP_MSG_AVAILABLE_SENDER) in
    let find_sender := _np_dhkey_equal subject (generated _NP_MSG_AVAILABLE_RECEIVER) in
    tmp ← available_rounds 9 p find_receiver find_sender audience [] 1;
    let tmp := remove_where (fun x => _np_dhkey_equal x from) tmp in
    '(ret, sent) ← (match tmp with [] => Ok (false, []) | _ => __np_axon_send_chunks user_data audience tmp end);
    p ← _np_pheromone_exhale fuel seeds (Some p);
    Ok (ret, sent, user_data, p).

(** ** Pheromones *)

Section Table.
Context (K : key_ptr -> np_key_t) (r : route_t).

Definition first_hash (tmp : list key_ptr) : result np_dhkey_t :=
  match tmp with [] => Err Bad_access | k :: _ => Ok (dhkey (K k)) end.

(** One hop in the direction of [target]; for a trail the hop itself, and when there are
    entries in the routing table the best of them as well. *)
Definition pheromone_hops (generic : bool) (target : np_dhkey_t) : result (list np_dhkey_t) :=
  '(tmp, hops) ← (if generic then
                    tmp ← _np_route_lookup K r target 2;
                    match tmp with [] => Ok (tmp, []) | k :: _ => Ok (tmp, [dhkey (K k)]) end
                  else Ok ([], [target]));
  match tmp with
  | [] =>
      if 0 <? _np_route_my_key_count_routes r then
        tmp ← _np_route_get_table r;
        h ← first_hash (_np_keycache_sort_keys_cpm K target tmp);
        Ok (hops ++ [h])
      else Ok hops
  | _ => Ok hops
  end.

Definition _np_out_pheromone (p : pheromones) (target : np_dhkey_t) (pheromone_msg_out : message_t)
    : result (bool * list sending * pheromones) :=
  if negb (_np_route_my_key_has_connection r) then Ok (false, [], p)
  else
    let is_generic_direction := _np_dhkey_equal (get_audience pheromone_msg_out) target in
    hops ← pheromone_hops is_generic_direction target;
    '(ret, sent) ← (match hops with [] => Ok (false, []) | _ => __np_axon_send_chunks (To_message pheromone_msg_out) target hops end);
    p ← _np_pheromone_exhale fuel seeds (Some p);
    Ok (ret, sent, p).

(** [lookup i]: the table is searched for up to [i] keys. *)
Fixpoint update_rounds (n : nat) (i : Z) (target : np_dhkey_t) : result (list key_ptr) :=
  tmp ← _np_route_lookup K r target i;
  match n with
  | O => Ok tmp
  | S n => match tmp with [] => update_rounds n (i + 1) target | _ => Ok tmp end
  end.

Definition set_audience_of (m : message_t) (to : np_dhkey_t) : message_t :=
  let b := binary m in
  let bm := poke audience_at (dhkey_bytes to) (binary_message b) in
  set_binary m (Chunk.Message (msg_chunk_counter b) (Chunk.state b) (nonce b) (mac_e b) (poke 32 (dhkey_bytes to) (header b)) bm (msg_chunks b) (refs b)).

(** A message that is cut into parts and handed to the node at once. *)
Definition cut (m : message_t) : result message_t := b ← _np_message_serialize_chunked (binary m); Ok (set_binary m b).
Definition to_node (hop_ target : np_dhkey_t) (m : message_t) : sending := Sending Run hop_ message_out target (To_message m).

Definition _np_out_update (target : np_dhkey_t) (update_msg : message_t) : result (bool * list sending) :=
  if negb (_np_route_my_key_has_connection r) then Ok (false, [])
  else
    tmp ← update_rounds 3 1 target;
    match tmp with
    | [] => Ok (false, [])
    | k :: _ =>
        if _np_dhkey_equal (dhkey (K k)) my_node_key then Ok (false, [])
        else
          m ← cut (set_audience_of update_msg (dhkey (K k)));
          Ok (true, [to_node (dhkey (K k)) target m])
    end.

End Table.

(** ** Acknowledgements *)

(** Of the key of a hash: whether its node, if it has one, is in the leafset or the table. *)
Fixpoint ack_rounds (n : nat) (p : pheromones) (ack_to : np_dhkey_t) (tmp : list np_dhkey_t) (target_age : Q) : result (list np_dhkey_t) :=
  match n, tmp with
  | S n, [] =>
      if Qltb BAD_LINK target_age then
        '(tmp, target_age) ← _np_pheromone_snuffle_receiver p tmp ack_to target_age;
        ack_rounds n p ack_to tmp (target_age - (1 # 10))%Q
      else Ok tmp
  | O, [] => if Qltb BAD_LINK target_age then Err Diverges else Ok tmp
  | _, _ => Ok tmp
  end.

(** [found]: the key the cache finds, with its node; the reference it takes is given back
    only when the key is routed.  The result says whether one is kept. *)
Definition _np_out_ack (p : pheromones) (found : np_dhkey_t -> option (option (bool * bool))) (user_data : payload)
    : result (bool * list sending * bool) :=
  audience ← data_audience user_data;
  if negb has_connection then Ok (false, [], false)
  else
    '(tmp, kept) ← (match found audience with
                    | None => tmp ← ack_rounds 16 p (np_generate_subject audience _NP_MSG_ACK) [] 1; Ok (tmp, false)
                    | Some None => Err Bad_access
                    | Some (Some (in_leafset, in_table)) => if in_leafset || in_table then Ok ([audience], false) else Ok ([], true)
                    end);
    '(ret, sent) ← __np_axon_send_chunks user_data audience tmp;
    Ok (ret, sent, kept).

(** ** Messages between neighbours *)

Section Neighbours.
Context `{Qcbor} `{Doubles}.
Context (encoder_leaves : list item -> Z -> list Z) (alloc random : Z -> list Z).

Definition _np_out_ping (target : np_dhkey_t) (container : message_t -> np_responsecontainer_t) (ack_key : np_dhkey_t) (ping_msg : message_t)
    : result (bool * list sending) :=
  let response := Sending Run ack_key (Z.lor evt_internal evt_response) ack_key (To_container (container ping_msg)) in
  m ← cut ping_msg;
  Ok (true, [response; to_node target target m]).

Definition _np_out_piggy (target : np_dhkey_t) (piggy_msg : message_t) : result (bool * list sending) :=
  m ← cut piggy_msg; Ok (true, [to_node target target m]).
Definition _np_out_leave (target : np_dhkey_t) (leave_msg : message_t) : result (bool * list sending) :=
  m ← cut leave_msg; Ok (true, [to_node target target m]).

Definition _NP_URN_IDENTITY_PREFIX : list Z := c_string "urn:np:id".
Definition _NP_URN_HANDSHAKE_PREFIX : list Z := c_string "urn:np:hs".

(** The token of a key in a message, under a name. *)
Definition add_token (body : np_tree_t) (name : list Z) (t : np_aaatoken_t) : result np_tree_t :=
  '(d, _) ← _np_aaatoken_encode np_tree_create t;
  np_tree_insert_str body name (np_treeval_new_cwt d).

(** [identity]: the key of the identity when it is not the one of the node. *)
Definition join_body (context : factory_context) (o : new_object) (node_token : np_aaatoken_t) (identity_token : option np_aaatoken_t)
    : result np_tree_t :=
  body ← add_token np_tree_create _NP_URN_NODE_PREFIX node_token;
  match identity_token with
  | Some t =>
      ident ← np_token_factory_get_public_ident_token encoder_leaves context o t;
      add_token body _NP_URN_IDENTITY_PREFIX ident
  | None => Ok body
  end.

Definition _np_out_join (context : factory_context) (o : new_object) (node_token : np_aaatoken_t) (identity_token : option np_aaatoken_t)
    (target : np_dhkey_t) (join_msg : message_t) : result (bool * list sending) :=
  body ← join_body context o node_token identity_token;
  m ← _np_message_setbody alloc random join_msg body;
  m ← cut m;
  Ok (true, [to_node target target m]).

(** ** Messages of users *)

Definition no_session : np_crypto_session_t :=
  Crypto_session crypto_session_none false false (zero_bytes crypto_kx_SESSIONKEYBYTES) (zero_bytes crypto_kx_SESSIONKEYBYTES).

(** [subject]: the settings of the subject and its key with the sessions; [ack_key]: where
    containers wait.  The message is encrypted in place. *)
Definition _np_out_callback_wrapper (subject : option (np_msgproperty_conf_t * subject_key)) (prop_out_dhkey ack_key target : np_dhkey_t)
    (container : message_t -> np_responsecontainer_t) (message : message_t) : result (bool * list sending * message_t) :=
  match subject with
  | None => Err Assert_failed
  | Some (conf, prop_out_key) =>
      let crypto_session := (_np_intent_get_crypto_session prop_out_key (get_audience message) no_session).2 in
      sent ← (if FLAG_CMP (ack_mode conf) ACK_DESTINATION then
                copy ← np_message_clone message_new message;
                Ok [Sending Run ack_key (Z.lor evt_internal evt_response) ack_key (To_container (container copy));
                    Sending Run prop_out_dhkey (Z.lor (Z.lor evt_redeliver evt_internal) evt_message) target (To_message copy)]
              else Ok []);
      message ← _np_message_encrypt_payload random message crypto_session;
      Ok (true, sent, message)
  end.

(** ** The handshake *)

Section Handshake.
Context `{RbTree tree}.
Context (inet_pton4 : list Z -> option Z) (inet_pton6 : list Z -> option (list Z)) (clz0 : Z).
Context (outgoing_ip : list Z -> Z -> list Z) (protocol_of_key : key_ptr -> Z) (main_ip : list Z).
(** The handshake token of an interface. *)
Context (handshake_token : key_ptr -> np_aaatoken_t).

Definition handshake_message (my_token : np_aaatoken_t) (hs_message : message_t) : result message_t :=
  body ← add_token np_tree_create _NP_URN_HANDSHAKE_PREFIX my_token;
  m ← _np_message_setbody alloc random hs_message body;
  cut m.

(** Only a message of one part is sent. *)
Definition first_part (target : np_dhkey_t) (blob : list Z) (m : message_t) : result (list sending) :=
  if negb (header_parts (header (binary m)) =? 1) then Ok []
  else
    match msg_chunks (binary m) with
    | Some (Some p :: _) => Ok [Sending Run target message_out target (To_part p blob)]
    | _ => Err Bad_access
    end.

Definition _np_out_handshake (c : keycache_t (tree := tree)) (blob : list Z) (target : np_dhkey_t) (hs_message : message_t)
    : result (bool * list sending * keycache_t (tree := tree)) :=
  '(c, target_key) ← _np_keycache_find c target;
  match target_key with
  | None => Err Bad_access
  | Some p =>
      '(ip, protocol) ← node_info protocol_of_key c p;
      '(c, reached, outgoing_key) ← _np_glia_node_can_be_reached inet_pton4 inet_pton6 clz0 outgoing_ip protocol_of_key main_ip c ip protocol true;
      '(c, sent) ← (match outgoing_key with
                    | Some o =>
                        m ← handshake_message (handshake_token o) hs_message;
                        sent ← first_part target blob m;
                        '(c, _) ← unref_obj c o;
                        Ok (c, sent)
                    | None => Ok (c, [])
                    end);
      '(c, _) ← unref_obj c p;
      Ok (true, sent, c)
  end.
End Handshake.
End Neighbours.
End Subjects.
End Axon.

(** ** Sending: what is found, and where it goes

    A table of pheromones has one trail for a subject: the hops and how fresh it is.
    Searches with a falling threshold find the trail or not by that; what is sent goes to
    the hops found that the node knows, never to the node itself. *)

(** ** The trail of a subject *)

(** What every search for the subject in one direction gives. *)
Definition trail (p : pheromones) (subject : np_dhkey_t) (find_sender find_receiver : bool) (hops : list np_dhkey_t) (fresh : Q) : Prop :=
  (0 <= fresh <= 1)%Q /\
  forall tmp t, _np_pheromone_snuffle p tmp subject t find_sender find_receiver =
    Ok (if Qle_bool t fresh then tmp ++ hops else tmp, fresh).

Lemma age_ratio_range a : 0 <= a <= 256 -> (0 <= age_ratio a <= 1)%Q.
Proof. intros Ha. unfold age_ratio, Qle. simpl. lia. Qed.

Lemma cell_at_age cs i : cells_wf cs -> (0 <= age_ratio (fst (cell_at cs i)) <= 1)%Q.
Proof.
  intros [_ Hc]. unfold cell_at. destruct (cs !! i) as [x|] eqn:E; [|by vm_compute].
  pose proof (Forall_lookup_1 _ _ _ _ Hc E) as [Ha _]. cbn [from_option Datatypes.id].
  apply age_ratio_range. unfold in_u in Ha. lia.
Qed.

Lemma filt_heuristic b n x : filt b n -> exists c, _np_neuropil_bloom_get_heuristic b x = Ok c /\ (0 <= c <= 1)%Q.
Proof.
  intros (rng & cs & -> & Hwf & _). pose proof Hwf as [Hl _].
  unfold _np_neuropil_bloom_get_heuristic. rewrite for_cells_mk.
  change (_bitset (mk rng cs (64 - n))) with (uncells cs).
  pose proof (np_cells_lt x) as Hlt.
  match goal with |- context [foldM ?f _ _] =>
    enough (forall l broke ret, Forall (fun j => (j < NCELLS)%nat) l -> (0 <= ret <= 1)%Q ->
      exists broke' ret', foldM f l (broke, ret) = Ok (broke', ret') /\ (0 <= ret' <= 1)%Q) as Hloop end.
  { destruct (Hloop (np_cells x) false 1%Q Hlt ltac:(lra)) as (b' & r' & -> & Hr). by exists r'. }
  clear Hlt. intros l. induction l as [|j l IH]; intros broke ret Hlt Hret; [by exists broke, ret|].
  apply Forall_cons in Hlt as [Hj Hlt]. cbn [foldM]. destruct broke; [cbn [mbind result_bind]; by apply IH|].
  rewrite rd_cell_at by lia. pose proof (cell_at_age cs j Hwf) as Ha.
  destruct (cell_at cs j) as [a c]. cbn [mbind result_bind].
  destruct (c =? 0); cbn [mbind result_bind]; (apply IH; [done|]); [lra | by case_match].
Qed.

Section Trails.
Context (D : np_dhkey_t -> Prop) (T : Q).

Lemma slot_hops_ok s (fs fr : bool) : slot_ok D T s -> exists hops, slot_hops fs fr s = Ok hops.
Proof.
  intros (b & send & recv & Hb & Hs & Hr & _). unfold slot_hops. rewrite Hs, Hr. destruct fs, fr; by eexists.
Qed.

Lemma snuffle_slots subject (fs fr : bool) slots from n :
  (forall i, (from <= i < from + n)%nat -> exists s, slots !! i = Some s /\ slot_ok D T s) ->
  exists hops, forall tmp, for_range from n (snuffle_slot subject fs fr slots) tmp = Ok (tmp ++ hops).
Proof.
  revert from. induction n as [|n IH]; intros from Hs; [exists []; intros tmp; by rewrite app_nil_r|].
  destruct (Hs from ltac:(lia)) as (s & Hlk & Hok). pose proof Hok as (b & send & recv & Hb & _ & _ & _ & _ & Hf & _).
  destruct (filt_check _ _ subject Hf) as [r Hck]. destruct (slot_hops_ok s fs fr Hok) as [h Hh].
  destruct (IH (S from)) as [hops Hrest]; [intros i Hi; apply Hs; lia|].
  exists ((if r then h else []) ++ hops). intros tmp. cbn [for_range].
  assert (snuffle_slot subject fs fr slots from tmp = Ok (tmp ++ if r then h else [])) as ->.
  { unfold snuffle_slot. rewrite (rd_nat_lookup _ _ _ Hlk). cbn [mbind result_bind]. rewrite Hb. cbn [the mbind result_bind].
    rewrite Hck. cbn [mbind result_bind]. destruct r; [by rewrite Hh | by rewrite app_nil_r]. }
  cbn [mbind result_bind]. by rewrite Hrest, app_assoc.
Qed.

(** Every table in shape has a trail for every subject, an empty one that is not fresh
    at all when nothing was recorded. *)
Lemma trail_exists p subject (fs fr : bool) : table_ok D T p -> exists hops fresh, trail p subject fs fr hops fresh.
Proof.
  intros (Hlen & _ & Hall). pose proof (partition_range subject) as Hi. unfold trail, _np_pheromone_snuffle.
  fold (partition_of subject). rewrite u16_id by (unfold in_u; lia). rewrite (proj2 (Z.ltb_lt _ 257)) by lia.
  destruct (rd_ok (ph_table p) (partition_of subject) ltac:(lia)) as (entry & Hrd & Hlk). rewrite Hrd.
  assert (forall (A : Type) (x : A) (b : bool), (if b then x else x) = x) as Hif by (by intros A x []).
  assert (exists hops fresh, (0 <= fresh <= 1)%Q /\ forall (tmp : list np_dhkey_t) (t : Q),
    Ok (tmp, 0%Q) = Ok (if Qle_bool t fresh then tmp ++ hops else tmp, fresh)) as Hnone.
  { exists [], 0%Q. split; [lra|]. intros tmp t. by rewrite app_nil_r, Hif. }
  destruct entry as [e|]; [|exact Hnone].
  pose proof (Forall_lookup_1 _ _ _ _ Hall Hlk) as He. cbn beta iota in He.
  destruct He as (Hc & [Hls Hs] & s0 & n0 & H0 & b0 & Hb0 & Hf0).
  pose proof (rd_nat_lookup _ _ _ H0) as Hrd0. change (Z.of_nat 0) with 0 in Hrd0.
  destruct (filt_check _ _ subject Hf0) as [r Hck].
  destruct (filt_heuristic _ _ subject Hf0) as (c & Hheur & Hrange).
  destruct r; cycle 1.
  { destruct Hnone as (hops & fresh & Hr & Hn). exists hops, fresh. split; [done|]. intros tmp t.
    cbn [c_assert mbind result_bind]. rewrite Hrd0. cbn [mbind result_bind]. rewrite Hb0. cbn [the mbind result_bind].
    rewrite Hck. cbn [mbind result_bind]. apply Hn. }
  destruct (snuffle_slots subject fs fr (_pheromone e) 1 (Z.to_nat (_count e) - 1)) as [hops Hhops];
    [intros i Hr; apply Hs; lia|].
  exists hops, c. split; [done|]. intros tmp t. cbn [c_assert mbind result_bind]. rewrite Hrd0. cbn [mbind result_bind].
  rewrite Hb0. cbn [the mbind result_bind]. rewrite Hck. cbn [mbind result_bind]. rewrite Hheur. cbn [mbind result_bind].
  destruct (Qle_bool t c); [|done]. rewrite Hhops. done.
Qed.
End Trails.

(** ** Searches *)

Section Searches.
Context (p : pheromones) (subject : np_dhkey_t) (hops : list np_dhkey_t) (fresh : Q).

Lemma below_fresh : Qle_bool (fresh - (1 # 10)) fresh = true.
Proof. apply Qle_bool_iff. lra. Qed.

(** The second round of a search that remembers what the first found asks for less than
    the trail has. *)
Lemma forward_finds from n :
  trail p subject false true hops fresh ->
  forward_rounds (S n) p subject from [] 1 = Ok (remove_where (fun x => __dhkey_compare x from =? 0) hops).
Proof.
  intros [_ Ht]. set (gone := fun x => __dhkey_compare x from =? 0).
  assert (forall n, forward_rounds n p subject from [] (fresh - (1 # 10)) = Ok (remove_where gone hops)) as Hlater.
  { intros k. induction k as [|k IH]; cbn [forward_rounds]; unfold _np_pheromone_snuffle_receiver; rewrite Ht, below_fresh;
      cbn [mbind result_bind app]; fold gone; [done|].
    destruct (remove_where gone hops) eqn:E; [|done]. exact IH. }
  cbn [forward_rounds]. unfold _np_pheromone_snuffle_receiver. rewrite Ht. cbn [mbind result_bind]. fold gone.
  destruct (Qle_bool 1 fresh); cbn [app remove_where]; [|apply Hlater].
  destruct (remove_where gone hops) eqn:E; [|done]. by rewrite Hlater.
Qed.

Lemma default_finds n : trail p subject false true hops fresh -> default_rounds (S (S n)) p subject [] 1 = Ok hops.
Proof.
  intros [_ Ht].
  assert (forall n, default_rounds (S n) p subject [] (fresh - (1 # 10)) = Ok hops) as Hlater.
  { intros k. induction k as [|k IH]; cbn [default_rounds]; unfold _np_pheromone_snuffle_receiver; rewrite Ht, below_fresh;
      cbn [mbind result_bind app]; [by destruct hops|]. destruct hops eqn:E; [|done]. exact IH. }
  set (m := S n). cbn [default_rounds]. unfold _np_pheromone_snuffle_receiver. rewrite Ht. cbn [mbind result_bind].
  destruct (Qle_bool 1 fresh); cbn [app]; [|apply Hlater]. destruct hops eqn:E; [|done]. apply Hlater.
Qed.
End Searches.

(** Announcements lower the threshold themselves, so a trail has to be fresh enough for
    the last round. *)
Definition tenths (n : nat) : Q := Z.of_nat n # 10.

Lemma tenths_S n t : (t - (1 # 10) - tenths n == t - tenths (S n))%Q.
Proof. unfold tenths. rewrite Nat2Z.inj_succ. unfold Qeq, Qminus, Qplus, Qopp. simpl. lia. Qed.

Lemma reached_later n t fresh : Qle_bool t fresh = true -> Qle_bool (t - tenths n) fresh = true.
Proof.
  rewrite !Qle_bool_iff. intros Ht. assert (0 <= tenths n)%Q by (unfold tenths, Qle; simpl; lia). lra.
Qed.

Section Announcements.
Context (p : pheromones) (audience : np_dhkey_t) (find_receiver find_sender : bool) (hops : list np_dhkey_t) (fresh : Q).

Lemma available_finds n t :
  trail p audience (negb find_receiver) find_receiver hops fresh -> find_receiver || find_sender = true ->
  available_rounds (S n) p find_receiver find_sender audience [] t =
    Ok (if Qle_bool (t - tenths n) fresh then hops else []).
Proof.
  intros [Hr Ht] Hone. revert t. induction n as [|n IH]; intros t.
  - assert (Qle_bool (t - tenths 0) fresh = Qle_bool t fresh) as ->.
    { apply eq_bool_prop_intro. rewrite !Is_true_true, !Qle_bool_iff. assert (tenths 0 == 0)%Q by done. split; intros; lra. }
    cbn [available_rounds]. unfold _np_pheromone_snuffle_receiver, _np_pheromone_snuffle_sender.
    destruct find_receiver, find_sender; try done; cbn [negb] in Ht; rewrite Ht; cbn [mbind result_bind app]; by case_match.
  - assert (available_rounds (S (S n)) p find_receiver find_sender audience [] t =
      match (if Qle_bool t fresh then hops else []) with
      | [] => available_rounds (S n) p find_receiver find_sender audience [] (t - (1 # 10)) | l => Ok l end) as ->.
    { set (k := S n). cbn [available_rounds]. unfold _np_pheromone_snuffle_receiver, _np_pheromone_snuffle_sender.
      destruct find_receiver, find_sender; try done; cbn [negb] in Ht; rewrite Ht; cbn [mbind result_bind app];
        destruct (Qle_bool t fresh); try done; destruct hops; done. }
    rewrite IH. assert (Qle_bool (t - (1 # 10) - tenths n) fresh = Qle_bool (t - tenths (S n)) fresh) as ->
      by (apply eq_bool_prop_intro; by rewrite !Is_true_true, !Qle_bool_iff, tenths_S).
    destruct (Qle_bool t fresh) eqn:E; [|done]. rewrite (reached_later _ _ _ E). by destruct hops.
Qed.
End Announcements.

(** Of acknowledgements. *)
Lemma ack_finds p ack_to hops fresh n :
  trail p ack_to false true hops fresh -> hops <> [] \/ (fresh <= 7 # 20)%Q ->
  ack_rounds (S (S n)) p ack_to [] 1 = Ok (if Qltb (7 # 20) fresh then hops else []).
Proof.
  intros [Hr Ht] Hone. set (k := S n). cbn [ack_rounds]. change (Qltb BAD_LINK 1) with true. cbn iota.
  unfold _np_pheromone_snuffle_receiver. rewrite Ht. cbn [mbind result_bind app].
  assert (Qltb BAD_LINK (fresh - (1 # 10)) = Qltb (7 # 20) fresh) as Hb.
  { apply eq_bool_prop_intro. rewrite !Is_true_true, !Qltb_lt. change BAD_LINK with (1 # 4). split; intros; lra. }
  assert (ack_rounds k p ack_to [] (fresh - (1 # 10)) = Ok (if Qltb (7 # 20) fresh then hops else [])) as Hlater.
  { subst k. cbn [ack_rounds]. rewrite Hb. destruct (Qltb (7 # 20) fresh) eqn:E; [|done].
    unfold _np_pheromone_snuffle_receiver. rewrite Ht, below_fresh. cbn [mbind result_bind app].
    destruct hops; [|by destruct n]. destruct Hone as [|Hle]; [done|]. apply Qltb_lt in E. lra. }
  destruct (Qle_bool 1 fresh) eqn:E; [|exact Hlater]. destruct hops as [|h hs] eqn:Eh; [exact Hlater|].
  subst k. assert (Qltb (7 # 20) fresh = true) as -> by (apply Qltb_lt; apply Qle_bool_iff in E; lra). done.
Qed.

(** When the trail has senders only and is fresh enough the search for the way back never ends. *)
Lemma ack_search_diverges p ack_to fresh n :
  trail p ack_to false true [] fresh -> (7 # 20 < fresh)%Q -> ack_rounds n p ack_to [] 1 = Err Diverges.
Proof.
  intros [Hr Ht] Hf.
  assert (Qltb BAD_LINK (fresh - (1 # 10)) = true) as Hb by (apply Qltb_lt; change BAD_LINK with (1 # 4); lra).
  assert (forall n, ack_rounds n p ack_to [] (fresh - (1 # 10)) = Err Diverges) as Hlater.
  { intros k. induction k as [|k IH]; cbn [ack_rounds]; rewrite Hb; [done|]. unfold _np_pheromone_snuffle_receiver.
    rewrite Ht, below_fresh. cbn [mbind result_bind app]. exact IH. }
  destruct n as [|n]; [done|]. cbn [ack_rounds]. change (Qltb BAD_LINK 1) with true. cbn iota.
  unfold _np_pheromone_snuffle_receiver. rewrite Ht. cbn [mbind result_bind app].
  destruct (Qle_bool 1 fresh); apply Hlater.
Qed.

(** ** Handing over *)

Section Send.
Context (my_node_key : np_dhkey_t) (exists_ : np_dhkey_t -> bool).

Definition sendable (k : np_dhkey_t) : bool := negb (_np_dhkey_equal k my_node_key) && exists_ k.
Definition next_hops (tmp : list np_dhkey_t) : list np_dhkey_t := List.filter sendable tmp.

Lemma send_chunks_spec msg to d tmp :
  duplicate msg = Ok d ->
  __np_axon_send_chunks my_node_key exists_ msg to tmp =
    Ok (negb (bool_decide (next_hops tmp = [])), map (fun k => Sending Queue k message_out to d) (next_hops tmp)).
Proof.
  intros Hd. unfold __np_axon_send_chunks.
  enough (forall ret sent, foldM (send_step my_node_key exists_ msg to) tmp (ret, sent) =
    Ok (ret || negb (bool_decide (next_hops tmp = [])), sent ++ map (fun k => Sending Queue k message_out to d) (next_hops tmp))) as Hloop;
    [exact (Hloop false [])|].
  induction tmp as [|k tmp IH]; intros ret sent; cbn [foldM].
  - rewrite bool_decide_eq_true_2 by done. cbn [negb next_hops List.filter map]. by rewrite orb_false_r, app_nil_r.
  - assert (send_step my_node_key exists_ msg to k (ret, sent) =
      Ok (if sendable k then (true, sent ++ [Sending Queue k message_out to d]) else (ret, sent))) as ->.
    { unfold send_step. fold (sendable k). destruct (sendable k); [by rewrite Hd | done]. }
    cbn [mbind result_bind]. unfold next_hops. cbn [List.filter]. destruct (sendable k); [|apply IH].
    rewrite IH. cbn [map orb]. rewrite (bool_decide_eq_false_2 (k :: _ = [])) by done. cbn [negb].
    by rewrite orb_true_r, <- app_assoc.
Qed.

Lemma next_hops_elem tmp k : k ∈ next_hops tmp -> k ∈ tmp /\ sendable k = true.
Proof. rewrite !list_elem_of_In. unfold next_hops. by rewrite filter_In. Qed.

Lemma not_to_itself k : dhkey_wf my_node_key -> sendable k = true -> k <> my_node_key.
Proof.
  intros Hwf Hs ->. unfold sendable in Hs. apply andb_prop in Hs as [Hs _].
  rewrite (proj2 (_np_dhkey_equal_spec my_node_key my_node_key Hwf Hwf)) in Hs by done. done.
Qed.
End Send.

Lemma remove_where_sub f l k : k ∈ remove_where f l -> k ∈ l.
Proof.
  induction l as [|x l IH]; simpl; [done|]. destruct (f x); [by right|]. intros [->|Hk]%elem_of_cons; [by left | right; auto].
Qed.

Lemma remove_where_ext (f g : np_dhkey_t -> bool) l : (forall x, x ∈ l -> f x = g x) -> remove_where f l = remove_where g l.
Proof.
  induction l as [|x l IH]; intros He; simpl; [done|]. rewrite (He x) by left. destruct (g x); [done|]. f_equal. apply IH.
  intros y Hy. apply He. by right.
Qed.

(** How often a hop is on a list. *)
Definition times (k : np_dhkey_t) (l : list np_dhkey_t) : nat := length (filter (eq k) l).

Definition without (k : np_dhkey_t) (l : list np_dhkey_t) : list np_dhkey_t := remove_where (fun x => bool_decide (x = k)) l.

Lemma times_without k l : times k (without k l) = (times k l - 1)%nat.
Proof.
  unfold times, without. induction l as [|x l IH]; simpl; [done|]. case_bool_decide as E.
  - subst x. rewrite filter_cons_True by done. simpl. lia.
  - rewrite !filter_cons_False by congruence. exact IH.
Qed.

Lemma times_none k l : times k l = 0%nat -> k ∉ l.
Proof.
  unfold times. intros H0%nil_length_inv Hk. assert (k ∈ filter (eq k) l) as Hf by (by apply list_elem_of_filter).
  rewrite H0 in Hf. by apply not_elem_of_nil in Hf.
Qed.

Lemma compare_equal k l : dhkey_wf k -> Forall dhkey_wf l ->
  remove_where (fun x => __dhkey_compare x k =? 0) l = without k l /\
  remove_where (fun x => _np_dhkey_equal x k) l = without k l.
Proof.
  intros Hk Hl. rewrite Forall_forall in Hl. split; apply remove_where_ext; intros x Hx; apply eq_bool_prop_intro;
    rewrite !Is_true_true, bool_decide_eq_true.
  - rewrite Z.eqb_eq. unfold __dhkey_compare. destruct (dhkey_cmp_cases x k (Hl x Hx) Hk) as [[Hlt ->]|[(-> & _ & ->)|[Hlt ->]]];
      split; try done; intros ->; lia.
  - apply _np_dhkey_equal_spec; auto.
Qed.

Lemma without_wf k l : Forall dhkey_wf l -> Forall dhkey_wf (without k l).
Proof. rewrite !Forall_forall. intros Hl x Hx. eapply Hl, remove_where_sub, Hx. Qed.

(** A part read from a packet, copied with the instructions of another. *)
Definition copy_of (m q : np_n2n_messagepart_t) : np_n2n_messagepart_t :=
  MsgPart (chunk_offset q) (is_forwarded_part m) (mac_n q) (seq q) (hop_count m) (part_mac_e q) (msg_header q) (part_body q) (part_nonce q).

Lemma clone_reads m chunk q :
  _np_message_deserialize_header_and_instructions chunk = Ok q -> np_messagepart_clone m chunk = Ok (copy_of m q).
Proof. intros Hd. unfold np_messagepart_clone. by rewrite Hd. Qed.

(** ** Forwarding *)

(** C17: A part that is forwarded follows the trail of its subject, however old it is.  Every
    hop of the trail that the node knows gets one copy, with the hop count one higher (in 16
    bits) and the rest as it was read from the packet; the node itself never does.  The hop
    the part came from is taken out twice, so it gets nothing back unless the trail has it
    three times. *)
Theorem forwarded_along_trail my_node_key exists_ fuel seeds p p' from m chunk q hops fresh :
  trail p (part_subject m) false true hops fresh -> Forall dhkey_wf hops -> dhkey_wf from -> dhkey_wf my_node_key ->
  _np_message_deserialize_header_and_instructions chunk = Ok q ->
  _np_pheromone_exhale fuel seeds (Some p) = Ok p' ->
  exists sent, _np_out_forward my_node_key exists_ true fuel seeds p from m chunk =
      Ok (negb (bool_decide (sent = [])), sent, one_hop_more m, p') /\
    sent = map (fun k => Sending Queue k message_out (part_audience m) (To_part (copy_of (one_hop_more m) q) chunk))
             (List.filter (sendable my_node_key exists_) (without from (without from hops))) /\
    Forall (fun s => hop s ∈ hops /\ hop s <> my_node_key /\ exists_ (hop s) = true) sent /\
    ((times from hops <= 2)%nat -> Forall (fun s => hop s <> from) sent).
Proof.
  intros Ht Hwf Hfrom Hme Hread Hexh. eexists. split; [|split; [reflexivity|]].
  - unfold _np_out_forward. cbn [negb]. rewrite (forward_finds _ _ _ _ _ 6 Ht), (proj1 (compare_equal from hops Hfrom Hwf)).
    cbn [mbind result_bind]. rewrite (proj2 (compare_equal from _ Hfrom (without_wf from hops Hwf))). cbv zeta.
    rewrite (send_chunks_spec _ _ _ _ (To_part (copy_of (one_hop_more m) q) chunk)) by (cbn [duplicate]; by rewrite (clone_reads _ _ q)).
    cbn [mbind result_bind]. rewrite Hexh. cbn [mbind result_bind]. do 4 f_equal.
    unfold next_hops. by destruct (List.filter _ _).
  - assert (forall k, k ∈ next_hops my_node_key exists_ (without from (without from hops)) ->
      k ∈ without from (without from hops) /\ sendable my_node_key exists_ k = true) as Hnext by apply next_hops_elem.
    split.
    + apply Forall_map, Forall_forall. intros k Hk. destruct (Hnext k Hk) as [Hin Hs]. cbn [compose hop].
      split; [by do 2 apply remove_where_sub in Hin|]. split; [by eapply not_to_itself|].
      unfold sendable in Hs. by apply andb_prop in Hs as [_ Hs].
    + intros Htimes. apply Forall_map, Forall_forall. intros k Hk E. cbn [compose hop] in E. subst k.
      destruct (Hnext _ Hk) as [Hin _]. revert Hin. apply times_none. rewrite !times_without. lia.
Qed.

(** ** Which trails are found *)

(** C19: Whether a search finds a trail depends on who searches.  What is forwarded and the
    node's own messages follow every trail: the threshold of their second round is taken
    from the trail itself.  Announcements follow it when its age is at least a fifth.
    Acknowledgements follow it when it is above 7/20; but when such a trail has no hops in
    the direction of receivers, their search does not end, whatever the number of rounds. *)
Theorem searches_find p subject from hops fresh :
  trail p subject false true hops fresh -> Forall dhkey_wf hops -> dhkey_wf from ->
  forward_rounds 7 p subject from [] 1 = Ok (without from hops) /\
  default_rounds 8 p subject [] 1 = Ok hops /\
  available_rounds 9 p true false subject [] 1 = Ok (if Qle_bool (1 # 5) fresh then hops else []) /\
  (forall n, ack_rounds (S (S n)) p subject [] 1 =
     if Qltb (7 # 20) fresh && bool_decide (hops = []) then Err Diverges
     else Ok (if Qltb (7 # 20) fresh then hops else [])).
Proof.
  intros Ht Hwf Hfrom. split; [|split; [|split]].
  - by rewrite (forward_finds _ _ _ _ _ 6 Ht), (proj1 (compare_equal from hops Hfrom Hwf)).
  - by apply (default_finds _ _ _ fresh 6).
  - rewrite (available_finds p subject true false hops fresh 8) by done.
    assert (Qle_bool (1 - tenths 8) fresh = Qle_bool (1 # 5) fresh) as ->; [|done].
    apply eq_bool_prop_intro. rewrite !Is_true_true, !Qle_bool_iff. by assert (1 - tenths 8 == 1 # 5)%Q as -> by done.
  - intros n. destruct (Qltb (7 # 20) fresh) eqn:E; cbn [andb].
    + case_bool_decide as Eh; [subst hops; apply (ack_search_diverges _ _ fresh _ Ht); by apply Qltb_lt|].
      rewrite (ack_finds p subject hops fresh n Ht) by (by left). by rewrite E.
    + rewrite (ack_finds p subject hops fresh n Ht), E; [done|]. right. unfold Qltb in E.
      apply negb_false_iff, Qle_bool_iff in E. done.
Qed.

(** ** Examples *)

(** The first announcement in a partition makes a trail in its direction only. *)
Lemma first_trail seeds my now p target src (fr dir : bool) :
  dhkey_wf src -> length (ph_table p) = 257%nat -> ph_table p !! Z.to_nat (partition_of target) = Some None ->
  exists p', _np_pheromone_inhale_target seeds my now (Some p) target src (negb fr) fr = Ok (p', true) /\
    trail p' target dir (negb dir) (if Bool.eqb dir fr then [src] else []) (age_ratio 128).
Proof.
  intros Hsrc Hlen Hempty. destruct (scent_ok target) as (scent & cs & Hsc & -> & Hh & _).
  pose proof (scent_cells target cs Hsc) as Hwf. pose proof (partition_range target) as Hi.
  destruct (inhale_target_unfold my seeds now p target src (negb fr) fr _ Hsc ltac:(by destruct fr) Hlen)
    as (ph & Hpos & Hpeer & Hsub & ->).
  set (i := partition_of target) in *. unfold entry_at. rewrite Hempty.
  pose proof (first_slot my (now 1%nat) ph cs i fr src Hwf Hi Hpos Hpeer Hsub Hsrc) as Hnew.
  rewrite (inhale_first my now ph cs i _ Hwf Hnew). cbn [mbind result_bind].
  eexists. split; [done|]. split; [apply age_ratio_range; lia|]. intros tmp t.
  erewrite (snuffle_first p i target cs _ tmp t dir (if Bool.eqb dir fr then [src] else []));
    [|done|done|exact Hh|done|by destruct fr, dir].
  assert (Qle_bool t (age_ratio 128) = Qle_bool t (1 # 2)) as ->; [|done].
  apply eq_bool_prop_intro. rewrite !Is_true_true, !Qle_bool_iff. assert (age_ratio 128 == 1 # 2)%Q as -> by done. done.
Qed.

(** After one announcement of the hop [key_of 7], of a receiver or a sender. *)
Definition after_announcement (fr : bool) : pheromones :=
  match _np_pheromone_inhale_target (1, 2) (key_of 0) (fun _ => 1%Q) (Some example_pheromones) (key_of 300) (key_of 7) (negb fr) fr with
  | Ok (p, _) => p
  | Err _ => example_pheromones
  end.

Lemma announced_trail (fr dir : bool) :
  trail (after_announcement fr) (key_of 300) dir (negb dir) (if Bool.eqb dir fr then [key_of 7] else []) (age_ratio 128).
Proof.
  destruct (first_trail (1, 2) (key_of 0) (fun _ => 1%Q) example_pheromones (key_of 300) (key_of 7) fr dir) as (p' & Hrun & Ht);
    [by_decide | reflexivity | vm_compute; reflexivity |].
  unfold after_announcement. by rewrite Hrun.
Qed.

(** A trail of receivers is followed by an acknowledgement, one of senders hangs it. *)
Lemma searches_find_witness :
  ack_rounds 2 (after_announcement false) (key_of 300) [] 1 = Ok [key_of 7] /\
  (forall n, ack_rounds (S (S n)) (after_announcement true) (key_of 300) [] 1 = Err Diverges).
Proof.
  assert (dhkey_wf (key_of 7)) as Hwf by by_decide. split.
  - destruct (searches_find (after_announcement false) (key_of 300) (key_of 7) _ _ (announced_trail false false)
      ltac:(by apply Forall_singleton) Hwf) as (_ & _ & _ & Hack). exact (Hack 0%nat).
  - intros n. destruct (searches_find (after_announcement true) (key_of 300) (key_of 7) _ _ (announced_trail true false)
      (Forall_nil_2 _) Hwf) as (_ & _ & _ & Hack). exact (Hack n).
Defined.

Definition sample_packet : list Z := replicate 1046 7.
Definition sample_part : np_n2n_messagepart_t :=
  MsgPart 0 false (replicate 16 7) (le32 (replicate 4 7)) (le16 [7; 7]) (replicate 16 7) (dhkey_bytes (key_of 300) ++ replicate 64 7)
    (replicate 900 7) (replicate 12 7).

Lemma forwarded_along_trail_witness :
  exists p' d, _np_out_forward (key_of 0) (fun _ => true) true 8 (1, 2) (after_announcement false) (key_of 9) sample_part sample_packet =
    Ok (true, [Sending Queue (key_of 7) message_out (part_audience sample_part) (To_part d sample_packet)], one_hop_more sample_part, p').
Proof.
  assert (part_subject sample_part = key_of 300) as Hsub by (vm_compute; reflexivity).
  pose proof (announced_trail false false) as Ht. rewrite <- Hsub in Ht.
  destruct (_np_pheromone_exhale 8 (1, 2) (Some (after_announcement false))) as [p'|] eqn:Hexh; [|exfalso; revert Hexh; vm_compute; discriminate].
  destruct (forwarded_along_trail (key_of 0) (fun _ => true) 8 (1, 2) (after_announcement false) p' (key_of 9) sample_part sample_packet
    (MsgPart 0 false (replicate 16 7) (le32 (replicate 4 7)) (le16 [7; 7]) (replicate 16 7) (replicate 96 7) (replicate 900 7) (replicate 12 7))
    _ _ Ht ltac:(apply Forall_singleton; by_decide) ltac:(by_decide) ltac:(by_decide) ltac:(vm_compute; reflexivity) Hexh)
    as (sent & Hrun & -> & _).
  eexists p', _. exact Hrun.
Defined.

(** ** Scents in a direction *)

(** A pheromone for a single hop goes to the best of the table as well; when that is the
    hop itself, it goes there twice. *)
Lemma targeted_twice K r target tmp k rest :
  (0 <? _np_route_my_key_count_routes r) = true -> _np_route_get_table r = Ok tmp ->
  _np_keycache_sort_keys_cpm K target tmp = k :: rest -> dhkey (K k) = target ->
  pheromone_hops K r false target = Ok [target; target].
Proof.
  intros Hn Htab Hs Hk. unfold pheromone_hops. cbn [mbind result_bind]. rewrite Hn, Htab. cbn [mbind result_bind].
  rewrite Hs. cbn [first_hash mbind result_bind]. by rewrite Hk.
Qed.
