(* ===== verification/Dendrit.v ===== *)
(** * Receiving: [src/np_dendrit.c]

    What a node does with a message for it, by its subject: it decodes the body, looks
    tokens, keys and trails up, changes what it keeps, and raises events for keys of its
    own.  A handler gives its result, what it changed and the events, in order.  The
    memory behind a message is [behind]; a message read once is raw. *)
From Stdlib Require Import ZArith Lia QArith String.
From stdpp Require Import prelude gmap.
From S2P Require Import Prelude Real Dhkey Sll Rng BloomBase BloomNeuropil Key KeySort Route Pheromones Token KeyStates Crypto Treeval Tree Qcbor Serial BloomSerial Aaatoken TokenFactory Intent Msgproperty Chunk Payload Node Keycache Reach Axon.

Local Open Scope Z_scope.

(** ** What is raised *)

(** What comes with an event. *)
Inductive parcel := P_message (m : message_t) | P_token (t : np_aaatoken_t) | P_node (n : Node.np_node_t).
(** To the current run or the job queue; for the key [at_]. *)
Record raised := Raised { over : way; at_ : np_dhkey_t; raised_type : Z; raised_target : np_dhkey_t; parcel_of : parcel }.

Definition _NP_URN_INTENT_PREFIX : list Z := c_string "urn:np:intent".
Definition _NP_MSG_INST_RESPONSE_UUID : list Z := c_string "_np.response_uuid".
Definition NP_ROUTES_MAX_ENTRIES : Z := __MAX_ENTRY.

(** A body that is there. *)
Definition body_of (m : message_t) : result np_tree_t := match msg_body m with Some t => Ok t | None => Err Bad_access end.
(** [ele->val.value.tree] *)
Definition tree_of (e : option elem) : result np_tree_t :=
  match e with
  | Some (_, Treeval _ (V_tree _ t)) => Ok t
  | _ => Err Bad_access
  end.

Section Dendrit.
Context `{Sodium} `{Qcbor} `{Doubles}.
Context (encoder_leaves : list item -> Z -> list Z) (printed : np_treeval_t -> list Z).
Context (alloc random : Z -> list Z) (behind : list Z).
Context (__local_rx_dhkey __local_tx_dhkey : np_dhkey_t).
(** The node itself and its identity, and the time. *)
Context (my_node_key my_identity : np_dhkey_t) (now : Q).

Abbreviation tweaked := (_np_msgproperty_tweaked_dhkey __local_rx_dhkey __local_tx_dhkey).
Abbreviation property_dhkey := (_np_msgproperty_dhkey __local_rx_dhkey __local_tx_dhkey crypto_generichash).
Abbreviation from_hash := (np_dhkey_create_from_hash sodium_hex2bin).
Abbreviation readbody := (_np_message_readbody behind).
(** Tokens are read into new objects. *)
Context (o : new_object).
Abbreviation read_token := (np_token_factory_read_from_tree encoder_leaves printed o now).
Abbreviation is_valid := (_np_aaatoken_is_valid now).

Definition _np_in_ping : bool := true.

(** ** Leaving *)

Definition _np_in_leave (target : np_dhkey_t) (msg : message_t) : result (bool * list raised) :=
  '(ok, msg) ← readbody msg;
  if negb ok then Ok (false, [])
  else
    body ← body_of msg;
    match np_tree_find_str body _NP_URN_NODE_PREFIX with
    | None => Ok (true, [])
    | Some e =>
        t ← tree_of (Some e);
        node_token ← read_token t;
        match node_token with
        | None => Ok (true, [])
        | Some node_token =>
            search_key ← np_aaatoken_get_fingerprint node_token false;
            let ty := Z.lor evt_shutdown evt_external in
            Ok (true, [Raised Run search_key ty search_key (P_token node_token); Raised Run target ty target (P_token node_token)])
        end
    end.

(** ** Joining *)

(** The tokens of a request, when it is one: the node's, its fingerprint, the identity's. *)
Definition join_identity (join_node_token : np_aaatoken_t) (join_node_dhkey : np_dhkey_t) (e : elem) : result (option np_aaatoken_t) :=
  t ← tree_of (Some e);
  ident ← read_token t;
  match ident with
  | None => Ok None
  | Some ident =>
      '(valid, ident) ← is_valid (Some ident) np_aaatoken_type_identity;
      match (if (valid : bool) then ident else None) with
      | None => Ok None
      | Some ident =>
          join_ident_dhkey ← np_aaatoken_get_fingerprint ident false;
          partner_of_ident ← np_aaatoken_get_partner_fp ident;
          if _np_dhkey_equal dhkey_zero partner_of_ident || negb (_np_dhkey_equal join_node_dhkey partner_of_ident) then Ok None
          else
            partner_of_node ← np_aaatoken_get_partner_fp join_node_token;
            if _np_dhkey_equal dhkey_zero partner_of_node || negb (_np_dhkey_equal join_ident_dhkey partner_of_node) then Ok None
            else Ok (Some ident)
      end
  end.

Definition join_tokens (body : np_tree_t) : result (option (np_aaatoken_t * np_dhkey_t * option np_aaatoken_t)) :=
  match np_tree_find_str body _NP_URN_NODE_PREFIX with
  | None => Ok None
  | Some e =>
      t ← tree_of (Some e);
      node ← read_token t;
      match node with
      | None => Ok None
      | Some node =>
          '(valid, node) ← is_valid (Some node) np_aaatoken_type_node;
          match (if (valid : bool) then node else None) with
          | None => Ok None
          | Some node =>
              join_node_dhkey ← np_aaatoken_get_fingerprint node false;
              match np_tree_find_str body _NP_URN_IDENTITY_PREFIX with
              | None => Ok (Some (node, join_node_dhkey, None))
              | Some e =>
                  ident ← join_identity node join_node_dhkey e;
                  Ok (match ident with Some i => Some (node, join_node_dhkey, Some i) | None => None end)
              end
          end
      end
  end.

(** The events of a request; [alias]: the key it came over. *)
Definition join_events (alias join_node_dhkey : np_dhkey_t) (node : np_aaatoken_t) (ident : option np_aaatoken_t) : list raised :=
  let authn := Z.lor (Z.lor evt_authn evt_external) evt_token in
  let token := Z.lor evt_token evt_external in
  match ident with
  | None => [Raised Run join_node_dhkey authn alias (P_token node); Raised Run alias authn alias (P_token node);
             Raised Run my_identity authn alias (P_token node)]
  | Some i => [Raised Run join_node_dhkey token join_node_dhkey (P_token node); Raised Run alias token join_node_dhkey (P_token node);
               Raised Run my_identity authn alias (P_token i)]
  end.

Section Cached.
Context `{RbTree tree}.
Abbreviation cache := (keycache_t (tree := tree)).

Definition _np_in_join (c : cache) (target : np_dhkey_t) (msg : message_t) : result (bool * list raised * cache) :=
  '(ok, msg) ← readbody msg;
  if negb ok then Ok (false, [], c)
  else
    body ← body_of msg;
    tokens ← join_tokens body;
    match tokens with
    | None => Ok (true, [], c)
    | Some (node, join_node_dhkey, ident) =>
        '(c, join_node_key) ← _np_keycache_find c join_node_dhkey;
        match join_node_key with
        | None => Ok (true, [], c)
        | Some p =>
            k ← key_at c p;
            '(c, _) ← unref_obj c p;
            Ok (true, join_events target (dhkey k) node ident, c)
        end
    end.

(** ** Updates *)

Definition _np_in_update (key_alloc : gmap key_ptr (np_key_t * Z) -> key_ptr) (c : cache) (target : np_dhkey_t) (msg : message_t)
    : result (bool * list raised * cache) :=
  '(ok, msg) ← readbody msg;
  if negb ok then Ok (false, [], c)
  else
    body ← body_of msg;
    update_tree ← tree_of (np_tree_find_str body _NP_URN_NODE_PREFIX);
    update_token ← np_new_obj encoder_leaves o;
    '(_, update_token) ← np_aaatoken_decode printed update_tree update_token;
    '(valid, update_token) ← is_valid (Some update_token) np_aaatoken_type_handshake;
    match (if (valid : bool) then update_token else None) with
    | None => Ok (false, [], c)
    | Some update_token =>
        update_dhkey ← _np_aaatoken_get_issuer update_token;
        '(c, known, _) ← _np_keycache_exists c update_dhkey false;
        '(c, evs) ← (if (known : bool) then Ok (c, [])
                     else
                       '(c, p) ← _np_keycache_find_or_create key_alloc now c update_dhkey;
                       '(c, _) ← unref_obj c p;
                       Ok (c, [Raised Run update_dhkey (Z.lor evt_external evt_token) update_dhkey (P_token update_token)]));
        msg ← _np_message_setbody alloc random msg body;
        let update_prop_dhkey := property_dhkey OUTBOUND _NP_MSG_UPDATE_REQUEST in
        Ok (true, evs ++ [Raised Run update_prop_dhkey (Z.lor evt_message evt_internal) update_prop_dhkey (P_message msg)], c)
    end.

(** ** Acknowledgements *)

(** To the node a message came from, or to the one its session is with; [sessions]: the
    sessions of a subject.  The reference to a subject's key is kept when it has no
    session for the message. *)
Definition ack_receiver (c : cache) (sessions : key_ptr -> subject_key) (target : np_dhkey_t) (msg : message_t)
    : result (cache * option np_dhkey_t) :=
  if _np_dhkey_equal (get_audience msg) my_node_key then
    '(c, alias_key) ← _np_keycache_find c target;
    match alias_key with
    | Some p => k ← key_at c p; '(c, _) ← unref_obj c p; Ok (c, Some (parent_dhkey k))
    | None => Ok (c, Some target)
    end
  else
    '(c, subject_key) ← _np_keycache_find c (tweaked INBOUND (get_subject msg));
    match subject_key with
    | None => Ok (c, None)
    | Some p =>
        match _np_intent_get_ack_session (sessions p) (get_audience msg) with
        | None => Ok (c, None)
        | Some from_dhkey => '(c, _) ← unref_obj c p; Ok (c, Some from_dhkey)
        end
    end.

Definition _check_and_send_destination_ack (c : cache) (sessions : key_ptr -> subject_key) (ack_prop : option np_msgproperty_conf_t)
    (uuid_ : list Z) (target : np_dhkey_t) (msg : message_t) : result (bool * list raised * cache) :=
  if FLAG_CMP (get_flags msg) msg_ack_dest then
    '(c, from_dhkey) ← ack_receiver c sessions target msg;
    match from_dhkey with
    | None => Ok (true, [], c)
    | Some from_dhkey =>
        let ack_subject := generated _NP_MSG_ACK in
        let ack_out_dhkey := tweaked OUTBOUND ack_subject in
        msg_body ← np_tree_insert_str np_tree_create _NP_MSG_INST_RESPONSE_UUID (Treeval Treeval.NP_UUID_BYTES (V_bin (get_uuid msg)));
        msg_out ← _np_message_create alloc random ack_prop now uuid_ message_new from_dhkey ack_subject (Some msg_body);
        Ok (true, [Raised Queue ack_out_dhkey (Z.lor evt_message evt_internal) ack_out_dhkey (P_message msg_out)], c)
    end
  else Ok (true, [], c).

(** A container gets the time of its acknowledgement. *)
Definition stamp (r : np_responsecontainer_t) : np_responsecontainer_t :=
  Responsecontainer (container_uuid r) (dest_dhkey r) (msg_dhkey r) now (container_expires_at r).

(** [value.bin] of a value of whatever type, as a pointer. *)
Definition bin_is_null (v : val) : bool :=
  match v with
  | V_sh x | V_i x | V_l x | V_ll x | V_c x | V_ush x | V_ui x | V_ul x | V_ull x | V_f x | V_d x => x =? 0
  | V_a2_ui a b => (a =? 0) && (b =? 0)
  | _ => false
  end.

(** [np_tree_find_str] on the tree of the containers, whose keys are identifiers: a text
    and an identifier compare as equal, so the search ends at the root.  [response_root]:
    the root of the tree, which depends on the order of insertions. *)
Definition find_response (root : option (list Z * loc)) (key : val) : option loc :=
  match root with
  | Some (uuid, l) => if _np_tree_elem_cmp (V_s (match key with V_bin b | V_hash b | V_s b => b | _ => [] end)) (V_uuid uuid) =? 0 then Some l else None
  | None => None
  end.

Definition _np_in_ack (response_root : gmap (list Z) loc -> option (list Z * loc)) (c : cache) (properties : key_ptr -> np_msgproperty_run_t)
    (containers : gmap loc np_responsecontainer_t) (msg : message_t) : result (bool * gmap loc np_responsecontainer_t * cache) :=
  '(ok, msg) ← readbody msg;
  if negb ok then Ok (false, containers, c)
  else
    body ← body_of msg;
    match np_tree_find_str body _NP_MSG_INST_RESPONSE_UUID with
    | None => Ok (true, containers, c)
    | Some ack_uuid =>
        '(c, ack_key) ← _np_keycache_find c (property_dhkey INBOUND _NP_MSG_ACK);
        match ack_key with
        | None => Err Bad_access
        | Some p =>
            c_assert (negb (bin_is_null (value ack_uuid.2)));;
            containers ← (match find_response (response_root (response_handler (properties p))) (value ack_uuid.2) with
                          | Some l => match containers !! l with
                                      | Some r => Ok (<[l := stamp r]> containers)
                                      | None => Err Bad_access
                                      end
                          | None => Ok containers
                          end);
            '(c, _) ← unref_obj c p;
            Ok (true, containers, c)
        end
    end.

(** ** Messages of users *)

(** The message, opened and read, and the subject's sessions.  A message that brings a
    session is not handed on.  The reference to the key is kept when the body cannot be
    read. *)
Definition _np_in_callback_wrapper (c : cache) (sessions : key_ptr -> subject_key) (msg_in : message_t)
    : result (bool * message_t * option (key_ptr * subject_key) * cache) :=
  '(c, prop_in_key) ← _np_keycache_find c (tweaked INBOUND (get_subject msg_in));
  match prop_in_key with
  | None => Err Bad_access
  | Some p =>
      let '(session_found, crypto_session) := _np_intent_get_crypto_session (sessions p) (get_audience msg_in) no_session in
      opened ← _np_message_decrypt_payload msg_in crypto_session;
      match opened with
      | None => '(c, _) ← unref_obj c p; Ok (false, msg_in, None, c)
      | Some msg_in =>
          '(ok, msg_in) ← readbody msg_in;
          if negb ok then Ok (false, msg_in, None, c)
          else if session_found && bool_decide (session_type crypto_session = crypto_session_initial) then
            body ← body_of msg_in;
            k ← _np_intent_import_session (sessions p) body crud_create;
            '(c, _) ← unref_obj c p;
            Ok (false, msg_in, Some (p, k), c)
          else '(c, _) ← unref_obj c p; Ok (true, msg_in, None, c)
      end
  end.

End Cached.

(** ** Announcements of subjects *)

(** A token of an intent, for the subject it names. *)
Definition announced (mode : Z) (e : option elem) : result (list raised) :=
  t ← tree_of e;
  msg_token ← read_token t;
  match msg_token with
  | Some msg_token =>
      id ← np_str_id sodium_hex2bin (subject msg_token);
      let available_msg_type := tweaked mode (bytes_dhkey id) in
      Ok [Raised Run available_msg_type (Z.lor (Z.lor evt_token evt_external) evt_authz) available_msg_type (P_token msg_token)]
  | None => Ok []
  end.

Definition _np_in_available_sender (msg : message_t) : result (bool * list raised) :=
  '(ok, msg) ← readbody msg;
  if negb ok then Ok (false, [])
  else
    body ← body_of msg;
    match np_tree_find_str body _NP_URN_INTENT_PREFIX with
    | None => Ok (true, [])
    | Some e => evs ← announced INBOUND (Some e); Ok (true, evs)
    end.

(** Here the missing token is not looked for. *)
Definition _np_in_available_receiver (msg : message_t) : result (bool * list raised) :=
  '(ok, msg) ← readbody msg;
  if negb ok then Ok (false, [])
  else
    body ← body_of msg;
    evs ← announced OUTBOUND (np_tree_find_str body _NP_URN_INTENT_PREFIX); Ok (true, evs).

(** ** Trails *)

Section Trails.
Context (fuel : nat) (seeds : Z * Z) (clock : nat -> Q).

(** [NP_PI / 314], a double. *)
Definition AGE_STEP : Q := Eval vm_compute in to_double (to_double NP_PI / 314).

(** The filter of a pheromone loses age for every hundredth of a second it travelled.
    The date is added to as a double: a sum that rounds to the date itself never
    reaches the present. *)
Fixpoint age_loop (fuel : nat) (_delay : Q) (_scent : np_bloom_t) : result np_bloom_t :=
  if Qltb _delay now then
    match fuel with
    | O => Err Diverges
    | S fuel => _scent ← _np_neuropil_bloom_age_decrement _scent; age_loop fuel (fadd _delay AGE_STEP) _scent
    end
  else Ok _scent.

(** [tmp->key.value.i] *)
Definition member_i (v : np_treeval_t) : result Z := x ← member_ui v; Ok (if x <? 2 ^ 15 then x else x - 2 ^ 16).

(** One element of the body.  The hops found are those the news concerns. *)
Definition hear (audience last_hop : np_dhkey_t) (sent : Q) (tmp : elem) (s : pheromones * list np_dhkey_t * bool)
    : result (pheromones * list np_dhkey_t * bool) :=
  let '(p, result_list, forward) := s in
  bytes ← bin_bytes tmp.2 (tv_size tmp.2);
  scent ← _np_neuropil_bloom_deserialize _np_neuropil_bloom_create bytes;
  scent ← age_loop fuel sent scent;
  in_age ← _np_neuropil_bloom_intersect_age scent scent;
  if Qeq_bool in_age 0 then Ok s
  else
    i ← member_i tmp.1;
    '(result_list, sender, receiver) ←
      (if i <? 0 then
         c_assert (-257 <=? i);;
         '(l, _) ← _np_pheromone_snuffle_receiver p result_list audience in_age; Ok (l, last_hop, dhkey_zero)
       else
         c_assert ((0 <? i) && (i <=? 257));;
         '(l, _) ← _np_pheromone_snuffle_sender p result_list audience in_age; Ok (l, dhkey_zero, last_hop));
    '(p, news, _) ← _np_pheromone_inhale seeds my_node_key clock (Some p) (Pheromone None (Some scent) i sender receiver None None);
    Ok (p, result_list, forward || news).

(** A copy for every hop that is neither the last one nor this node. *)
Definition along_trail (out : np_dhkey_t) (last_hop : np_dhkey_t) (forward_msg : message_t) (hop_ : np_dhkey_t) (evs : list raised)
    : result (list raised) :=
  if negb (_np_dhkey_equal hop_ last_hop) && negb (_np_dhkey_equal hop_ my_node_key) then
    m ← np_message_clone message_new forward_msg;
    Ok (evs ++ [Raised Run out (Z.lor evt_internal evt_message) hop_ (P_message m)])
  else Ok evs.

Definition _np_in_pheromone (p : pheromones) (last_hop : np_dhkey_t) (msg : message_t) : result (bool * list raised * pheromones) :=
  forward_msg ← np_message_clone message_new msg;
  '(ok, msg) ← readbody msg;
  if negb ok then Ok (false, [], p)
  else
    body ← body_of msg;
    '(p, result_list, forward) ← foldM (hear (get_audience msg) last_hop (get_tstamp msg)) (rbh_root body) (p, [], false);
    if (forward : bool) then
      let out := property_dhkey OUTBOUND _NP_MSG_PHEROMONE_UPDATE in
      evs ← foldM (along_trail out last_hop forward_msg) result_list
              [Raised Run out (Z.lor evt_internal evt_message) (get_audience forward_msg) (P_message forward_msg)];
      Ok (true, evs, p)
    else Ok (true, [], p).
End Trails.

(** ** Nodes others know *)

Section Peers.
Context `{RbTree tree}.
Abbreviation cache := (keycache_t (tree := tree)).
Context (flt_bits : Q -> Z) (bits_flt : Z -> Q) (new_node : Node.np_node_t).
Context (key_alloc : gmap key_ptr (np_key_t * Z) -> key_ptr).
Context (inet_pton4 : list Z -> option Z) (inet_pton6 : list Z -> option (list Z)) (clz0 : Z).
Context (outgoing_ip : list Z -> Z -> list Z) (protocol_of_key : key_ptr -> Z) (main_ip : list Z).

(** The keys as the cache has them. *)
Definition keys_of (c : cache) (p : key_ptr) : np_key_t :=
  match objects c !! p with Some (k, _) => k | None => new_key 0 end.

(** [leaves]: the keys whose node is marked as in the leafset. *)
Definition __np_node_add_to_leafset (K : key_ptr -> np_key_t) (r : route_t) (leaves : gset key_ptr) (node_key : key_ptr)
    : result (route_t * gset key_ptr) :=
  if bool_decide (node_key ∈ leaves) then Ok (r, leaves)
  else
    '(r, change) ← _np_route_leafset_update K r node_key true;
    match change with
    | None => Ok (r, leaves)
    | Some ch =>
        let leaves := match Route.added ch with Some _ => {[node_key]} ∪ leaves | None => leaves end in
        Ok (r, match Route.deleted ch with Some d => leaves ∖ {[d]} | None => leaves end)
    end.

(** Whether the row of the table has room, or the key is nearer than its last. *)
Definition room_for (K : key_ptr -> np_key_t) (r : route_t) (search_key : np_dhkey_t) : result bool :=
  sll_of_keys ← _np_route_row_lookup K r search_key;
  if Z.of_nat (length sll_of_keys) <? NP_ROUTES_MAX_ENTRIES then Ok true
  else
    sorted ← _np_keycache_sort_keys_kd K my_node_key sll_of_keys;
    match last sorted with
    | Some p => Ok (_np_dhkey_between search_key my_node_key (dhkey (K p)) true)
    | None => Err Bad_access
    end.

Record peers := Peers { p_cache : cache; p_route : route_t; p_leaves : gset key_ptr; p_raised : list raised }.

(** A node that is not known yet. *)
Definition piggy_new (node_entry : Node.np_node_t) (search_key : np_dhkey_t) (s : peers) : result peers :=
  send_join ← room_for (keys_of (p_cache s)) (p_route s) search_key;
  '(c, send_join) ← (if (send_join : bool) then
                       match Node.ip_string node_entry with
                       | None => Err Bad_access
                       | Some ip =>
                           '(c, reached, _) ← _np_glia_node_can_be_reached inet_pton4 inet_pton6 clz0 outgoing_ip protocol_of_key main_ip
                                                (p_cache s) ip (protocol node_entry) false;
                           Ok (c, reached)
                       end
                     else Ok (p_cache s, false));
  if (send_join : bool) then
    '(c, p) ← _np_keycache_find_or_create key_alloc now c search_key;
    '(c, _) ← unref_obj c p;
    Ok (Peers c (p_route s) (p_leaves s) (p_raised s ++ [Raised Run search_key evt_internal dhkey_zero (P_node node_entry)]))
  else Ok (Peers c (p_route s) (p_leaves s) (p_raised s)).

Definition piggy_one (node_entry : Node.np_node_t) (s : peers) : result peers :=
  if FLAG_CMP (protocol node_entry) PASSIVE then Ok s
  else
    search_key ← (match host_key node_entry with Some h => from_hash h | None => Err Bad_access end);
    '(c, piggy_key) ← _np_keycache_find (p_cache s) search_key;
    match piggy_key with
    | None => piggy_new node_entry search_key (Peers c (p_route s) (p_leaves s) (p_raised s))
    | Some p =>
        k ← key_at c p;
        '(r, leaves) ← (match _np_key_get_node k with
                        | Some node =>
                            if Qltb Node.BAD_LINK (Key.success_avg node) && Qle_bool BAD_LINK_REMOVE_GRACETIME (now - created_at k) then
                              __np_node_add_to_leafset (keys_of c) (p_route s) (p_leaves s) p
                            else Ok (p_route s, p_leaves s)
                        | None => Ok (p_route s, p_leaves s)
                        end);
        '(c, _) ← unref_obj c p;
        Ok (Peers c r leaves (p_raised s))
    end.

Definition _np_in_piggy (s : peers) (msg : message_t) : result (bool * peers) :=
  '(ok, msg) ← readbody msg;
  if negb ok then Ok (false, s)
  else
    body ← body_of msg;
    o_piggy_list ← _np_node_decode_multiple_from_jrb printed bits_flt new_node body;
    s ← foldM piggy_one o_piggy_list s;
    Ok (true, s).

(** ** The handshake *)

(** [start c k t]: the event of the token [t], run to its end for the key [k]. *)
Context (start : cache -> np_dhkey_t -> np_aaatoken_t -> result cache).

Definition set_parent (c : cache) (p : key_ptr) (parent : np_dhkey_t) : result cache :=
  upd_key c p (fun k => Key (dhkey k) (key_type k) parent (created_at k) (last_update k) (is_in_keycache k) (nodeinfo k)).

(** The token goes to the key it came over, and to the one that stands for its address. *)
Definition bind_alias (c : cache) (target source : np_dhkey_t) (handshake_token : np_aaatoken_t) : result (cache * list raised) :=
  let ty := Z.lor evt_external evt_token in
  '(c, hs_alias_key) ← _np_keycache_find_or_create key_alloc now c target;
  c ← set_parent c hs_alias_key source;
  '(c, _) ← unref_obj c hs_alias_key;
  let wildcard_dhkey := np_dhkey_create_from_hostport crypto_generichash wildcard_key (drop 17 (subject handshake_token)) in
  '(c, hs_wildcard_key) ← _np_keycache_find c wildcard_dhkey;
  match hs_wildcard_key with
  | None => Ok (c, [Raised Run target ty target (P_token handshake_token)])
  | Some p =>
      c ← set_parent c p source;
      '(c, _) ← unref_obj c p;
      Ok (c, [Raised Run target ty target (P_token handshake_token); Raised Run wildcard_dhkey ty target (P_token handshake_token)])
  end.

(** The body was read before. *)
Definition _np_in_handshake (c : cache) (target : np_dhkey_t) (msg : message_t) : result (bool * list raised * cache) :=
  body ← body_of msg;
  t ← tree_of (np_tree_find_str body _NP_URN_HANDSHAKE_PREFIX);
  handshake_token ← read_token t;
  '(valid, handshake_token) ← is_valid handshake_token np_aaatoken_type_handshake;
  match (if (valid : bool) then handshake_token else None) with
  | None => Ok (true, [], c)
  | Some handshake_token =>
      search_dhkey ← from_hash (issuer handshake_token);
      '(c, msg_source_key) ← _np_keycache_find_or_create key_alloc now c search_dhkey;
      c ← start c search_dhkey handshake_token;
      k ← key_at c msg_source_key;
      '(c, evs) ← (if FLAG_CMP (key_type k) np_key_type_node then bind_alias c target (dhkey k) handshake_token else Ok (c, []));
      '(c, _) ← unref_obj c msg_source_key;
      Ok (true, evs, c)
  end.
End Peers.
End Dendrit.
