(* ===== verification/DendritThms.v ===== *)
(** * Receiving: joining, acknowledging, news, and what is missing

    A request to join with two tokens that name each other is accepted, and only such a
    one; an acknowledgement stamps a container, though not always its own; news of trails ages on its way
    and dies.  Bodies come from the network: what handlers do when something is not in them. *)
From Stdlib Require Import ZArith Lia QArith Qround Qabs Lqa String.
From stdpp Require Import prelude gmap fin_maps.
From S2P Require Import Prelude Real Dhkey Sll Rng BloomBase BloomNeuropil BloomNeuropilSpec BloomNeuropilThms Key KeySort Route Pheromones PheromonesSpec PheromonesThms Token KeyStates Crypto Treeval Tree TreeSpec Qcbor Serial SerialThms BloomSerial Datablock DatablockSpec DatablockThms Aaatoken AaatokenSpec TokenFactory TokenFactoryThms Intent Msgproperty MsgpropertyThms Chunk ChunkThms Payload PayloadThms Keycache KeycacheSpec KeycacheThms Reach Node NodeThms Axon Dendrit.

Local Open Scope Z_scope.

(** ** Joining *)

Section Join.
Context `{Sodium} `{Qcbor} `{!Block_limits} `{Doubles}.
Context (encoder_leaves : list item -> Z -> list Z) (printed : np_treeval_t -> list Z).
Context (now : Q) (o : new_object).
Context (Ho : object_ok o) (Hmax : (26 <= QCBOR_MAX_ITEMS_IN_ARRAY)%nat).

Abbreviation read_token := (np_token_factory_read_from_tree encoder_leaves printed o now).

(** A token of a type that can be read and is valid now, with its fingerprint. *)
Record showable (t : np_aaatoken_t) (l : list obj) (type : Z) (fp : np_dhkey_t) : Prop := {
  show_content : content_ok t l;
  show_signed : self_signed t;
  show_thresholds : thresholds_ok l (token_type t);
  show_time : (now <= expires_at t)%Q;
  show_subject : (1 < length (subject t))%nat;
  show_type : FLAG_CMP (token_type t) type = true;
  show_fp : np_aaatoken_get_fingerprint t false = Ok fp;
  show_key : dhkey_wf fp /\ fp <> dhkey_zero;
}.

(** The tree it is sent as. *)
Definition shown (t : np_aaatoken_t) (l : list obj) (data : np_tree_t) : Prop :=
  _np_aaatoken_encode np_tree_create t = Ok (data, resigned t l) /\ wf_val (np_treeval_new_cwt data).

Lemma fields_wf t l sig : content_ok t l -> bytes_of_size crypto_sign_BYTES sig -> Forall (fun f : field => wf_val f.2) (all_fields t l sig).
Proof. intros _ _. repeat (apply List.Forall_cons; [constructor; reflexivity|]). apply List.Forall_nil. Qed.

Lemma shows t l type fp : showable t l type fp ->
  exists data r, shown t l data /\ read_token data = Ok (Some r) /\
    _np_aaatoken_is_valid now (Some r) type = Ok (true, Some r) /\ np_aaatoken_get_fingerprint r false = Ok fp /\
    is_block NP_EXTENSION_BYTES l [] (attributes r).
Proof.
  intros [Hok Hself Hth Hnow Hlen Hty Hfp _].
  destruct (token_travels printed t l [] Hok Hself Hmax) as (data & bytes & cpk & E & _ & _ & Hdec).
  destruct (new_obj_ok encoder_leaves o Ho) as (t0 & E0 & _ & B0 & Hp0 & _ & _ & Ha0). destruct Ho as (_ & _ & Hs0).
  assert (Z.of_nat (length (attributes t0)) = NP_EXTENSION_BYTES) as Hl0 by apply (block_size t0 [] B0).
  set (r := received t t0 l (attributes_signature (resigned t l)) cpk) in *.
  set (r' := set_checked r (Z.lor (Aaatoken.state t0) AAA_VALID) true true).
  destruct (received_block t t0 l (attributes_signature (resigned t l)) cpk (ok_attributes t l Hok) Hl0) as [Hrb _]. fold r in Hrb.
  exists data, r'. split_and!.
  - split; [exact E|]. destruct (encode_ok t l Hok) as (d & E' & Hd). rewrite E in E'. injection E' as <-.
    destruct (holds_elems _ _ Hd) as [Hels _]. apply (wf_subtree cwt K_str); [apply Hd|].
    assert (bytes_of_size crypto_sign_BYTES (attributes_signature (resigned t l))) as Hsig.
    { unfold resigned. pose proof (own_scope t Hself). destruct (Z.leb_spec (scope t) np_aaatoken_scope_private_available); [|lia].
      split; [apply sign_bytes|apply sign_length]. }
    pose proof (fields_wf t l _ Hok Hsig) as Hf. rewrite Forall_forall in Hf.
    eapply Forall_impl; [exact Hels|]. intros e (k & v & Hin & ->). exact (Hf _ Hin).
  - unfold np_token_factory_read_from_tree. rewrite E0, bind_ok. rewrite Hdec; [|done|by rewrite Ha0]. rewrite bind_ok. fold r.
    assert (_np_aaatoken_is_valid now (Some r) np_aaatoken_type_undefined = Ok (true, Some r')) as ->.
    { apply received_valid; [unfold FLAG_CMP; by rewrite Z.land_0_r|done..]. }
    rewrite bind_ok. change (subject r') with (subject t). rewrite (text_nul 255) by apply Hok.
    destruct (Z.ltb_spec 1 (Z.of_nat (length (subject t)))); [done|lia].
  - unfold _np_aaatoken_is_valid. change (token_type r') with (token_type t). rewrite Hty. cbn [negb].
    change (expires_at r') with (expires_at t). destruct (Qltb (expires_at t) now) eqn:El.
    { apply Qltb_lt in El. exfalso. apply (Qlt_not_le _ _ El Hnow). }
    change (np_aaatoken_scope_private_available <? scope r') with true. cbv iota.
    change (check_signatures r') with (Ok (r', true)). rewrite bind_ok. cbn [negb].
    assert (record_check r' true = (true, Some r')) as Hrec.
    { unfold record_check. do 2 f_equal. unfold r' at 2. cbn [set_checked Aaatoken.state].
      change (Aaatoken.state r') with (Z.lor (Aaatoken.state t0) AAA_VALID). unfold r', set_checked. cbn. f_equal.
      by rewrite <- Z.lor_assoc, Z.lor_diag. }
    destruct (FLAG_CMP _ np_aaatoken_type_message_intent) eqn:Ef; [|by rewrite Hrec].
    rewrite (thresholds_checked r' NP_EXTENSION_BYTES l []), bind_ok by done. by rewrite Hrec.
  - exact Hfp.
  - exact Hrb.
Qed.

Lemma equal_refl k : dhkey_wf k -> _np_dhkey_equal k k = true.
Proof. intros Hk. by apply _np_dhkey_equal_spec. Qed.
Lemma not_zero k : dhkey_wf k -> k <> dhkey_zero -> _np_dhkey_equal dhkey_zero k = false.
Proof.
  intros Hk Hz. destruct (_np_dhkey_equal dhkey_zero k) eqn:E; [|done]. exfalso. apply Hz.
  symmetry. apply _np_dhkey_equal_spec; [by_decide|done|done].
Qed.

(** A request: the tokens under their names. *)
Lemma request_body t l type fp body fs name :
  showable t l type fp -> holds body fs -> (length name <= 255)%nat -> assoc name fs = None ->
  exists data body', shown t l data /\ add_token body name t = Ok body' /\ holds body' ((name, np_treeval_new_cwt data) :: fs).
Proof.
  intros Hs Hb Hn Ha. destruct (shows t l type fp Hs) as (data & r & Hshown & _).
  pose proof Hshown as [E Hwf]. destruct (add_field body fs name (np_treeval_new_cwt data) Hb Hn Hwf Ha) as (body' & E' & Hb').
  exists data, body'. split; [done|]. split; [|done]. unfold add_token. by rewrite E, bind_ok.
Qed.

Lemma found_tree body fs name data : holds body fs -> (length name <= 255)%nat -> assoc name fs = Some (np_treeval_new_cwt data) ->
  exists e, np_tree_find_str body name = Some e /\ tree_of (Some e) = Ok data.
Proof.
  intros Hb Hn Ha. pose proof (find_field body fs name Hb Hn) as Hf. rewrite Ha in Hf.
  destruct (np_tree_find_str body name) as [[k v]|]; [|done]. injection Hf as ->. by exists (k, np_treeval_new_cwt data).
Qed.

Lemma not_found body fs name : holds body fs -> (length name <= 255)%nat -> assoc name fs = None -> np_tree_find_str body name = None.
Proof.
  intros Hb Hn Ha. pose proof (find_field body fs name Hb Hn) as Hf. rewrite Ha in Hf. by destruct (np_tree_find_str body name).
Qed.

Lemma names_short : (length _NP_URN_NODE_PREFIX <= 255)%nat /\ (length _NP_URN_IDENTITY_PREFIX <= 255)%nat /\ _NP_URN_NODE_PREFIX <> _NP_URN_IDENTITY_PREFIX.
Proof. split; [apply Nat.leb_le; reflexivity|]. split; [apply Nat.leb_le; reflexivity|]. vm_compute. discriminate. Qed.

Lemma shown_tree_same t l d1 d2 : shown t l d1 -> shown t l d2 -> d1 = d2.
Proof. intros [E1 _] [E2 _]. rewrite E1 in E2. by injection E2. Qed.

(** C18: Who may join.  A node that shows a valid node token and, for its owner, a valid
    identity token, each with the fingerprint of the other as its partner, is taken for what
    it says: the receiver reads both, with the fingerprints they have, and finds the links
    in order.  A node without another identity is taken on its node token alone. *)
Theorem join_request_accepted nt ln fn it li fi :
  showable nt ln np_aaatoken_type_node fn -> showable it li np_aaatoken_type_identity fi ->
  get_obj partner_key ln = Some (D_bin (dhkey_bytes fi)) -> get_obj partner_key li = Some (D_bin (dhkey_bytes fn)) ->
  exists body request node ident,
    add_token np_tree_create _NP_URN_NODE_PREFIX nt = Ok body /\ add_token body _NP_URN_IDENTITY_PREFIX it = Ok request /\
    join_tokens encoder_leaves printed now o body = Ok (Some (node, fn, None)) /\
    join_tokens encoder_leaves printed now o request = Ok (Some (node, fn, Some ident)) /\
    np_aaatoken_get_fingerprint node false = Ok fn /\ np_aaatoken_get_fingerprint ident false = Ok fi.
Proof.
  intros Hn Hi Hpn Hpi. destruct names_short as (L1 & L2 & Hne).
  destruct (request_body nt ln _ fn np_tree_create [] _NP_URN_NODE_PREFIX Hn tree_holds_empty L1 eq_refl) as (dn & body & Sn & En & Hb).
  assert (assoc _NP_URN_IDENTITY_PREFIX [(_NP_URN_NODE_PREFIX, np_treeval_new_cwt dn)] = None) as Hfresh by (cbn [assoc]; by rewrite decide_False).
  destruct (request_body it li _ fi body _ _NP_URN_IDENTITY_PREFIX Hi Hb L2 Hfresh) as (di & request & Si & Ei & Hr).
  destruct (shows nt ln _ fn Hn) as (dn' & node & Sn' & Rn & Vn & Fn & Bn). rewrite (shown_tree_same _ _ _ _ Sn' Sn) in Rn.
  destruct (shows it li _ fi Hi) as (di' & ident & Si' & Ri & Vi & Fi & Bi). rewrite (shown_tree_same _ _ _ _ Si' Si) in Ri.
  destruct (show_key _ _ _ _ Hn) as [Wn Zn]. destruct (show_key _ _ _ _ Hi) as [Wi Zi].
  exists body, request, node, ident. split; [done|]. split; [done|].
  assert (assoc _NP_URN_NODE_PREFIX ((_NP_URN_IDENTITY_PREFIX, np_treeval_new_cwt di) :: [(_NP_URN_NODE_PREFIX, np_treeval_new_cwt dn)]) =
    Some (np_treeval_new_cwt dn)) as A1 by (cbn [assoc]; rewrite decide_False by done; by rewrite decide_True).
  assert (assoc _NP_URN_NODE_PREFIX [(_NP_URN_NODE_PREFIX, np_treeval_new_cwt dn)] = Some (np_treeval_new_cwt dn)) as A2
    by (cbn [assoc]; by rewrite decide_True).
  assert (assoc _NP_URN_IDENTITY_PREFIX ((_NP_URN_IDENTITY_PREFIX, np_treeval_new_cwt di) :: [(_NP_URN_NODE_PREFIX, np_treeval_new_cwt dn)]) =
    Some (np_treeval_new_cwt di)) as A3 by (cbn [assoc]; by rewrite decide_True).
  split; [|split; [|done]]; unfold join_tokens.
  - destruct (found_tree _ _ _ _ Hb L1 A2) as (e & -> & ->). rewrite bind_ok, Rn, bind_ok, Vn, bind_ok, Fn, bind_ok.
    by rewrite (not_found _ _ _ Hb L2 Hfresh).
  - destruct (found_tree _ _ _ _ Hr L1 A1) as (e & -> & ->). rewrite bind_ok, Rn, bind_ok, Vn, bind_ok, Fn, bind_ok.
    destruct (found_tree _ _ _ _ Hr L2 A3) as (e' & -> & Hte). unfold join_identity. rewrite Hte, bind_ok, Ri, bind_ok, Vi, bind_ok, Fi, bind_ok.
    rewrite (get_partner_ok ident li fn Bi Wn Hpi), bind_ok, (not_zero fn), (equal_refl fn) by done. cbn [orb negb].
    rewrite (get_partner_ok node ln fi Bn Wi Hpn), bind_ok, (not_zero fi), (equal_refl fi) by done. cbn [orb negb].
    by rewrite bind_ok.
Qed.
End Join.

(** What is found in the cache can be given back. *)
Section Find.
Context `{RbTreeLaws tree}.
Abbreviation cache := (keycache_t (tree := tree)).

Lemma unref_with_ref (c : cache) p k n : objects c !! p = Some (k, n) -> 1 <= n -> unref_obj (with_ref c p) p = Ok (c, Some p).
Proof.
  intros Eo Hn. unfold with_ref, unref_obj. rewrite Eo. cbn [set_objects objects]. rewrite lookup_insert_eq.
  destruct (Z.eqb_spec (n + 1 - 1) 0); [lia|]. rewrite insert_insert_eq. replace (n + 1 - 1) with n by lia.
  unfold set_objects; cbn [__key_cache __last_udpate _check_state_iterator objects]. rewrite insert_id by done. by destruct c.
Qed.

Lemma find_known (c : cache) held k p : cache_inv c held -> dhkey_wf k -> rb_find (__key_cache c) k = Some p ->
  exists key n, objects c !! p = Some (key, n) /\ dhkey key = k /\ _np_keycache_find c k = Ok (with_ref c p, Some p) /\
    key_at (with_ref c p) p = Ok key /\ unref_obj (with_ref c p) p = Ok (c, Some p).
Proof.
  intros I Hk Hf. destruct (inv_entry _ _ I k p) as (key & n & E & Hd & _).
  { by apply (proj1 (rb_find_spec _ _ _ (inv_tree _ _ I) Hk)). }
  pose proof (inv_pos _ _ I _ _ _ E) as Hn. exists key, n. split; [done|]. split; [done|]. split; [|split].
  - unfold _np_keycache_find, with_ref, ref_obj. by rewrite Hf, E, bind_ok.
  - unfold key_at, with_ref. rewrite E. cbn [set_objects objects]. by rewrite lookup_insert_eq.
  - by apply (unref_with_ref c p key n).
Qed.

Lemma find_unknown (c : cache) k : rb_find (__key_cache c) k = None -> _np_keycache_find c k = Ok (c, None).
Proof. intros Hf. unfold _np_keycache_find. by rewrite Hf. Qed.
End Find.

Section Safety.
Context `{Sodium} `{Qcbor} `{Doubles} `{RbTreeLaws tree}.
Context (encoder_leaves : list item -> Z -> list Z) (printed : np_treeval_t -> list Z) (behind : list Z).
Context (my_identity : np_dhkey_t) (now : Q) (o : new_object).
Abbreviation cache := (keycache_t (tree := tree)).
Abbreviation in_join := (_np_in_join encoder_leaves printed behind my_identity now o).

(** The body of the request has, under the name, a tree that is read as a token and the
    token, checked for its type, is valid. *)
Definition token_in (body : np_tree_t) (name : list Z) (type : Z) (t : np_aaatoken_t) : Prop :=
  exists e data t0, np_tree_find_str body name = Some e /\ tree_of (Some e) = Ok data /\
    np_token_factory_read_from_tree encoder_leaves printed o now data = Ok (Some t0) /\
    _np_aaatoken_is_valid now (Some t0) type = Ok (true, Some t).

Definition same (a b : np_dhkey_t) : Prop := _np_dhkey_equal a b = true.

(** Each has the fingerprint of the other as its partner, and neither partner is zero. *)
Definition linked_tokens (node : np_aaatoken_t) (fn : np_dhkey_t) (i : np_aaatoken_t) : Prop :=
  exists fi pi pn, np_aaatoken_get_fingerprint i false = Ok fi /\
    np_aaatoken_get_partner_fp i = Ok pi /\ np_aaatoken_get_partner_fp node = Ok pn /\
    same fn pi /\ ~ same dhkey_zero pi /\ same fi pn /\ ~ same dhkey_zero pn.

Lemma valid_some ty t v r x : _np_aaatoken_is_valid now (Some t) ty = Ok (v, r) -> (if (v : bool) then r else None) = Some x ->
  _np_aaatoken_is_valid now (Some t) ty = Ok (true, Some x).
Proof. intros E Hx. destruct v; [|done]. by subst r. Qed.

Lemma linked body node fn e i : np_tree_find_str body _NP_URN_IDENTITY_PREFIX = Some e ->
  join_identity encoder_leaves printed now o node fn e = Ok (Some i) ->
  token_in body _NP_URN_IDENTITY_PREFIX np_aaatoken_type_identity i /\ linked_tokens node fn i.
Proof.
  unfold join_identity, linked_tokens, same. intros He E. apply bind_Ok_inv in E as (t & Ht & E).
  apply bind_Ok_inv in E as ([i0|] & Ei0 & E); [|done].
  apply bind_Ok_inv in E as ([v r] & Ev & E). destruct (if v then r else None) as [i1|] eqn:Ei; [|done].
  pose proof (valid_some _ _ _ _ _ Ev Ei) as Hv.
  apply bind_Ok_inv in E as (fi & Efi & E). apply bind_Ok_inv in E as (pi & Epi & E).
  destruct (_np_dhkey_equal dhkey_zero pi) eqn:Z1; [done|]. destruct (_np_dhkey_equal fn pi) eqn:S1; [|done]. cbn [orb negb] in E.
  apply bind_Ok_inv in E as (pn & Epn & E).
  destruct (_np_dhkey_equal dhkey_zero pn) eqn:Z2; [done|]. destruct (_np_dhkey_equal fi pn) eqn:S2; [|done]. cbn [orb negb] in E.
  injection E as ->. split; [by exists e, t, i0|]. exists fi, pi, pn. by rewrite Z1, Z2, S1, S2.
Qed.

(** The tokens taken from a body are in it. *)
Lemma join_tokens_in body node fn ident : join_tokens encoder_leaves printed now o body = Ok (Some (node, fn, ident)) ->
  token_in body _NP_URN_NODE_PREFIX np_aaatoken_type_node node /\ np_aaatoken_get_fingerprint node false = Ok fn /\
  match ident with
  | None => np_tree_find_str body _NP_URN_IDENTITY_PREFIX = None
  | Some i => token_in body _NP_URN_IDENTITY_PREFIX np_aaatoken_type_identity i /\ linked_tokens node fn i
  end.
Proof.
  unfold join_tokens. intros Et. destruct (np_tree_find_str body _NP_URN_NODE_PREFIX) as [e|] eqn:He; [|done].
  apply bind_Ok_inv in Et as (t & Ht & Et). apply bind_Ok_inv in Et as ([n0|] & En0 & Et); [|done].
  apply bind_Ok_inv in Et as ([v r] & Ev & Et). destruct (if v then r else None) as [n1|] eqn:En; [|done].
  pose proof (valid_some _ _ _ _ _ Ev En) as Hv. apply bind_Ok_inv in Et as (f & Ef & Et).
  assert (token_in body _NP_URN_NODE_PREFIX np_aaatoken_type_node n1) as Hn by (by exists e, t, n0).
  destruct (np_tree_find_str body _NP_URN_IDENTITY_PREFIX) as [e'|] eqn:He'.
  - apply bind_Ok_inv in Et as ([i|] & Ei & Et); [|done]. injection Et as -> -> <-. split; [done|]. split; [done|]. by eapply linked.
  - by injection Et as -> -> <-.
Qed.

(** C12: Only who shows such tokens joins.  When a request raises events, its body could be
    read, and the events are those for the node token in that body, found under the name
    of node tokens, readable and valid, whose fingerprint is a key the node has had a
    handshake with, and for the identity token in that body: none if the body has nothing
    under the name of identities, else the one found there, readable and valid, and then
    each of the two has the fingerprint of the other as its partner, and neither partner is
    zero.  So a body with an identity that cannot be read, is not valid or not linked
    raises nothing.  The cache is as before. *)
Theorem join_needs_linked_tokens (c : cache) held target msg b evs c' :
  cache_inv c held -> in_join c target msg = Ok (b, evs, c') -> evs <> [] ->
  c' = c /\ exists m body node fn ident, _np_message_readbody behind msg = Ok (true, m) /\ msg_body m = Some body /\
    evs = join_events my_identity target fn node ident /\
    is_Some (rb_find (__key_cache c) fn) /\ np_aaatoken_get_fingerprint node false = Ok fn /\
    token_in body _NP_URN_NODE_PREFIX np_aaatoken_type_node node /\
    match ident with
    | None => np_tree_find_str body _NP_URN_IDENTITY_PREFIX = None
    | Some i => token_in body _NP_URN_IDENTITY_PREFIX np_aaatoken_type_identity i /\ linked_tokens node fn i
    end.
Proof.
  intros I E Hevs. unfold _np_in_join in E.
  apply bind_Ok_inv in E as ([ok m] & Em & E). destruct ok; [|by injection E as <- <- <-]. cbn [negb] in E.
  apply bind_Ok_inv in E as (body & Eb & E). apply bind_Ok_inv in E as (tokens & Et & E).
  destruct tokens as [[[node fn] ident]|]; [|by injection E as <- <- <-].
  destruct (join_tokens_in body node fn ident Et) as (Hnode & Ef & Hident).
  assert (msg_body m = Some body) as Hbody by (unfold body_of in Eb; destruct (msg_body m); by simplify_eq).
  assert (dhkey_wf fn) as Wf by (destruct (fingerprint_ok node) as (f & Ef' & Wf); rewrite Ef in Ef'; by injection Ef' as ->).
  destruct (rb_find (__key_cache c) fn) as [p|] eqn:Er; cycle 1.
  { rewrite (find_unknown c fn Er), bind_ok in E. by injection E as <- <- <-. }
  destruct (find_known c held fn p I Wf Er) as (key & n & _ & Hd & Hf & Hk & Hu). rewrite Hf, bind_ok, Hk, bind_ok, Hu, bind_ok in E.
  injection E as <- <- <-. split; [done|]. exists m, body, node, fn, ident. rewrite Hd. split; [done|]. split; [done|]. split; [done|].
  split; [by exists p|]. done.
Qed.
End Safety.

(** ** Acknowledgements *)

(** The body of an acknowledgement. *)
Definition response_value (uuid : list Z) : np_treeval_t := Treeval Treeval.NP_UUID_BYTES (V_bin uuid).
Definition response_tree (uuid : list Z) : np_tree_t :=
  Tree [(mk_key (V_s _NP_MSG_INST_RESPONSE_UUID), response_value uuid)] 1
    (plain_size (mk_key (V_s _NP_MSG_INST_RESPONSE_UUID), response_value [])) false false.

Lemma response_inserted uuid : length uuid = 16%nat ->
  np_tree_insert_str np_tree_create _NP_MSG_INST_RESPONSE_UUID (response_value uuid) = Ok (response_tree uuid).
Proof. intros Hu. do 16 (destruct uuid as [|? uuid]; [discriminate|]). destruct uuid; [|discriminate]. reflexivity. Qed.

Lemma response_sendable `{Qcbor} uuid : length uuid = 16%nat -> Forall (in_u 8) uuid ->
  (1 <= QCBOR_MAX_ARRAY_NESTING)%nat -> (2 <= QCBOR_MAX_ITEMS_IN_ARRAY)%nat -> PayloadThms.sendable (response_tree uuid).
Proof.
  intros Hu Hb Hn Hi. split; [|split; [exact Hn|split; [exact Hi|by vm_compute]]].
  apply (serial_tree jrb_tree K_str).
  - split; [|repeat constructor|reflexivity|reflexivity|reflexivity]. split; [repeat constructor|repeat constructor; try by_decide].
  - reflexivity.
  - constructor; [|constructor]. split; [done|]. split; [done|]. split; [by_decide|]. split; [discriminate|done].
  - reflexivity.
  - constructor; [|constructor]. apply serial_leaf. unfold response_value. cbn. rewrite Hu. by split.
Qed.

Section Acknowledge.
Context `{Sodium} `{Qcbor} `{Doubles} `{RbTreeLaws tree}.
Context (alloc random : Z -> list Z) (behind : list Z).
Context (Hal : forall n, 0 <= n -> length (alloc n) = Z.to_nat n) (Hab : forall n, byte_list (alloc n)).
Context (Hrl : forall n, 0 <= n -> length (random n) = Z.to_nat n) (Hrb : forall n, byte_list (random n)).
Context (Hnest : (1 <= QCBOR_MAX_ARRAY_NESTING)%nat) (Hitems : (2 <= QCBOR_MAX_ITEMS_IN_ARRAY)%nat).
Abbreviation cache := (keycache_t (tree := tree)).

(** The root of the tree of the containers. *)
Context (response_root : gmap (list Z) loc -> option (list Z * loc)).
Context (Hroot : forall m, match response_root m with Some (u, l) => m !! u = Some l | None => m = ∅ end).

(** A text and an identifier are the same to the comparison of the trees. *)
Lemma text_meets_uuid s u : _np_tree_elem_cmp (V_s s) (V_uuid u) = 0.
Proof. reflexivity. Qed.

(** C21: What an acknowledgement does.  For a message that asks for one, and whose sender is
    known, the receiver makes one acknowledgement, with the identifier of the message, for
    the subject of acknowledgements.  Read at the other side, whatever the memory behind it,
    it stamps one container with the time it arrives and leaves the others and the cache as
    they are: the container of the message when that is the only one that waits; but with
    several, whatever message it is for, the one at the root of their tree. *)
Theorem acknowledgement_stamps_root rx tx me now uuid_ (c c1 : cache) sessions prop ttl target msg from :
  FLAG_CMP (get_flags msg) msg_ack_dest = true -> length (header (binary msg)) = 96%nat -> byte_list (header (binary msg)) ->
  ack_receiver rx tx me c sessions target msg = Ok (c1, Some from) -> dhkey_wf from ->
  length uuid_ = 16%nat -> byte_list uuid_ -> ttl_of prop = Ok ttl ->
  exists ack, let out := _np_msgproperty_tweaked_dhkey rx tx OUTBOUND (generated _NP_MSG_ACK) in
    _check_and_send_destination_ack alloc random rx tx me now c sessions prop uuid_ target msg =
      Ok (true, [Raised Queue out (Z.lor evt_message evt_internal) out (P_message ack)], c1) /\
    (exists m body, _np_message_readbody behind ack = Ok (true, m) /\ msg_body m = Some body /\
       snd <$> np_tree_find_str body _NP_MSG_INST_RESPONSE_UUID = Some (response_value (get_uuid msg))) /\
    forall rx' tx' now' (c' : cache) held p properties (containers : gmap loc np_responsecontainer_t),
      cache_inv c' held -> dhkey_wf (_np_msgproperty_dhkey rx' tx' crypto_generichash INBOUND _NP_MSG_ACK) ->
      rb_find (__key_cache c') (_np_msgproperty_dhkey rx' tx' crypto_generichash INBOUND _NP_MSG_ACK) = Some p ->
      let answer := _np_in_ack behind rx' tx' now' response_root c' properties containers ack in
      (response_handler (properties p) = ∅ -> answer = Ok (true, containers, c')) /\
      (forall l r, response_handler (properties p) = {[get_uuid msg := l]} -> containers !! l = Some r ->
         answer = Ok (true, <[l := stamp now' r]> containers, c')) /\
      (forall u l r, response_root (response_handler (properties p)) = Some (u, l) -> containers !! l = Some r ->
         answer = Ok (true, <[l := stamp now' r]> containers, c')).
Proof using Hal Hab Hrl Hrb Hnest Hitems Hroot.
  intros Hflag Hlen Hbytes Hfrom Wf Hu Hub Httl. set (uuid := get_uuid msg).
  assert (length uuid = 16%nat) as Luuid by (unfold uuid, get_uuid, peek; rewrite length_take, length_drop; lia).
  assert (Forall (in_u 8) uuid) as Buuid by (unfold uuid, get_uuid, peek; by apply Forall_take, Forall_drop).
  assert (dhkey_wf (generated _NP_MSG_ACK)) as Ws by (apply _np_dhkey_xor_wf; [apply bytes_dhkey_wf, generichash_bytes|by_decide]).
  destruct (create_letter alloc random Hal Hab Hrl Hrb prop now uuid_ from (generated _NP_MSG_ACK) (response_tree uuid) ttl) as (ack & bytes & pad & Ec & Hletter & Hread); try done.
  { by apply response_sendable. }
  destruct (readbody_letter behind _ ack _ bytes pad _ _ Hletter Hread) as (m' & Er & Eb & _).
  exists ack. intros out. split; [|split].
  - unfold _check_and_send_destination_ack. rewrite Hflag, Hfrom, bind_ok. fold uuid (response_value uuid).
    by rewrite response_inserted, bind_ok, Ec, bind_ok.
  - exists m', (response_tree uuid). split; [done|]. split; [done|]. reflexivity.
  - intros rx' tx' now' c' held p properties containers I Wk Hfind answer.
    destruct (find_known c' held _ p I Wk Hfind) as (key & n & _ & _ & Hf & _ & Hun).
    assert (forall handled, (match response_root (response_handler (properties p)) with
        | Some (u, l) => match containers !! l with Some r => Ok (<[l := stamp now' r]> containers) | None => Err Bad_access end
        | None => Ok containers end) = Ok handled -> answer = Ok (true, handled, c')) as Hgen.
    { intros handled Hh. unfold answer, _np_in_ack. rewrite Er, bind_ok. cbn [negb]. unfold body_of. rewrite Eb, bind_ok.
      change (np_tree_find_str (response_tree uuid) _NP_MSG_INST_RESPONSE_UUID) with (Some (mk_key (V_s _NP_MSG_INST_RESPONSE_UUID), response_value uuid)).
      cbv iota. rewrite Hf, bind_ok. cbn [snd]. change (c_assert _) with (Ok tt). rewrite bind_ok. unfold find_response.
      destruct (response_root _) as [[u l]|]; [rewrite text_meets_uuid; cbv iota; change (0 =? 0) with true; cbv iota|];
        by rewrite Hh, bind_ok, Hun, bind_ok. }
    pose proof (Hroot (response_handler (properties p))) as Hr. split; [|split].
    + intros E. apply Hgen. rewrite E in Hr |- *. destruct (response_root ∅) as [[u l]|]; [by rewrite lookup_empty in Hr|done].
    + intros l r E1 E2. apply Hgen. rewrite E1 in Hr |- *. destruct (response_root {[uuid := l]}) as [[u l']|].
      * apply lookup_singleton_Some in Hr as [_ <-]. by rewrite E2.
      * by apply map_non_empty_singleton in Hr.
    + intros u l r E1 E2. apply Hgen. by rewrite E1, E2.
Qed.
End Acknowledge.

(** ** Examples of joining *)

#[local] Existing Instance rfc8949.
#[local] Existing Instance toy_sodium.
#[local] Existing Instance whole_doubles.


Definition join_block (l : list obj) : list Z :=
  DatablockSpec.header_bytes (DatablockSpec.header_of NP_EXTENSION_BYTES l) ++ objs_bytes l ++
  replicate (Z.to_nat (NP_EXTENSION_BYTES - DATABLOCK_OVERHEAD - objs_size l)) 0.
Definition join_token (type : Z) (l : list obj) : np_aaatoken_t :=
  let t := Aaatoken 0 (replicate 16 1) [] [] (c_string "urn:np:node:x") (c_string "us") 100 100 500 (join_block l) (replicate 64 0) sample_crypto
    (replicate 64 0) 0 type np_aaatoken_scope_private true None false false in
  set_signature t (crypto_sign_detached (_np_aaatoken_get_hash t) sample_key).
Definition fp_of (t : np_aaatoken_t) : np_dhkey_t := match np_aaatoken_get_fingerprint t false with Ok fp => fp | Err _ => dhkey_zero end.

Definition node_fp : np_dhkey_t := Eval vm_compute in fp_of (join_token np_aaatoken_type_node []).
Definition ident_fp : np_dhkey_t := Eval vm_compute in fp_of (join_token np_aaatoken_type_identity []).
Definition node_objs : list obj := [(partner_key, D_bin (dhkey_bytes ident_fp))].
Definition ident_objs : list obj := [(partner_key, D_bin (dhkey_bytes node_fp))].
Definition node_token : np_aaatoken_t := join_token np_aaatoken_type_node node_objs.
Definition ident_token : np_aaatoken_t := join_token np_aaatoken_type_identity ident_objs.

Lemma join_block_ok fp l : dhkey_wf fp -> l = [(partner_key, D_bin (dhkey_bytes fp))] ->
  DATABLOCK_OVERHEAD + objs_size l + Z.of_nat (Z.to_nat (NP_EXTENSION_BYTES - DATABLOCK_OVERHEAD - objs_size l)) = NP_EXTENSION_BYTES ->
  is_block NP_EXTENSION_BYTES l [] (join_block l).
Proof.
  intros Hw El Hs. split; [|subst l; by_decide|unfold NP_EXTENSION_BYTES; lia|].
  - subst l. apply List.Forall_cons; [by apply dhkey_obj_ok|apply List.Forall_nil].
  - eexists. split; [unfold join_block; by rewrite app_nil_r|]. rewrite length_replicate. exact Hs.
Qed.

Lemma join_token_showable type other l fp now : (type = np_aaatoken_type_node \/ type = np_aaatoken_type_identity) -> dhkey_wf other ->
  l = [(partner_key, D_bin (dhkey_bytes other))] ->
  DATABLOCK_OVERHEAD + objs_size l + Z.of_nat (Z.to_nat (NP_EXTENSION_BYTES - DATABLOCK_OVERHEAD - objs_size l)) = NP_EXTENSION_BYTES ->
  np_aaatoken_get_fingerprint (join_token type l) false = Ok fp -> dhkey_wf fp -> fp <> dhkey_zero -> (now <= 500)%Q ->
  showable now (join_token type l) l type fp.
Proof.
  intros Hty Hw El Hs Hf Wf Zf Hn. split; [| | |exact Hn|apply Nat.ltb_lt; reflexivity| |exact Hf|by split].
  - split; [| | | | | | | | |by apply (join_block_ok other)].
    all: try (apply sample_text; reflexivity). all: try (apply sample_bytes; reflexivity).
    + split; [exists 100; split; [unfold in_u; lia|reflexivity]|]. split; [exists 100|exists 500]; (split; [unfold in_u; lia|reflexivity]).
    + unfold in_u. destruct Hty as [-> | ->]; vm_compute; split; congruence.
  - split; [reflexivity|reflexivity|vm_compute; discriminate|exists sample_key; reflexivity].
  - intros Hc. exfalso. destruct Hty as [-> | ->]; discriminate.
  - destruct Hty as [-> | ->]; reflexivity.
Qed.

Lemma node_shows : showable 300 node_token node_objs np_aaatoken_type_node node_fp.
Proof.
  apply (join_token_showable _ ident_fp); [by left|by_decide|reflexivity|vm_compute; reflexivity|vm_compute; reflexivity|by_decide|
    vm_compute; discriminate|vm_compute; discriminate].
Qed.
Lemma ident_shows : showable 300 ident_token ident_objs np_aaatoken_type_identity ident_fp.
Proof.
  apply (join_token_showable _ node_fp); [by right|by_decide|reflexivity|vm_compute; reflexivity|vm_compute; reflexivity|by_decide|
    vm_compute; discriminate|vm_compute; discriminate].
Qed.

Lemma join_request_accepted_witness :
  exists body request node ident,
    add_token np_tree_create _NP_URN_NODE_PREFIX node_token = Ok body /\ add_token body _NP_URN_IDENTITY_PREFIX ident_token = Ok request /\
    join_tokens no_leaves (fun _ => []) 300 (sample_object 9) body = Ok (Some (node, node_fp, None)) /\
    join_tokens no_leaves (fun _ => []) 300 (sample_object 9) request = Ok (Some (node, node_fp, Some ident)) /\
    np_aaatoken_get_fingerprint node false = Ok node_fp /\ np_aaatoken_get_fingerprint ident false = Ok ident_fp.
Proof.
  apply (join_request_accepted no_leaves (fun _ => []) 300 (sample_object 9)) with (ln := node_objs) (li := ident_objs).
  - apply sample_object_ok. unfold in_u. lia.
  - apply Nat.leb_le. reflexivity.
  - exact node_shows.
  - exact ident_shows.
  - reflexivity.
  - reflexivity.
Defined.

(** The node of the request is known, as after a handshake. *)
Definition joined_cache : keycache_t (tree := list entry) :=
  match _np_keycache_find_or_create example_alloc 0 (_np_keycache_init ∅) node_fp with Ok (c, _) => c | Err _ => _np_keycache_init ∅ end.
Lemma joined_cache_ok : exists held, cache_inv joined_cache held.
Proof.
  unfold joined_cache. destruct (find_or_create_ok example_alloc 0 (_np_keycache_init ∅) (fun _ => 0) node_fp init_ok) as (c & p & -> & I & _).
  - by_decide.
  - apply example_alloc_fresh.
  - by eexists.
Qed.

Definition join_request : message_t :=
  match (body ← add_token np_tree_create _NP_URN_NODE_PREFIX node_token; body ← add_token body _NP_URN_IDENTITY_PREFIX ident_token;
         _np_message_create fresh_bytes fresh_bytes None 100 (replicate 16 9) message_new (small_id 5) (small_id 6) (Some body)) with
  | Ok m => m
  | Err _ => message_new
  end.
Abbreviation join_answer := (_np_in_join no_leaves (fun _ => []) [] node_fp 300 (sample_object 9) joined_cache (small_id 6) join_request).

Lemma join_needs_linked_tokens_witness :
  exists b evs c' body node fn ident, join_answer = Ok (b, evs, c') /\ length evs = 3%nat /\ c' = joined_cache /\
    evs = join_events node_fp (small_id 6) fn node ident /\ token_in no_leaves (fun _ => []) 300 (sample_object 9) body _NP_URN_NODE_PREFIX np_aaatoken_type_node node /\
    match ident with None => np_tree_find_str body _NP_URN_IDENTITY_PREFIX = None | Some i => linked_tokens node fn i end.
Proof.
  assert (exists b evs c', join_answer = Ok (b, evs, c') /\ length evs = 3%nat) as (b & evs & c' & E & Hl).
  { assert (match join_answer with Ok (_, evs, _) => length evs = 3%nat | Err _ => False end) as HH by (vm_compute; reflexivity).
    destruct join_answer as [[[b evs] c']|]; [by eauto|done]. }
  destruct joined_cache_ok as [held I].
  assert (evs <> []) as Hne by (intros ->; discriminate Hl).
  destruct (join_needs_linked_tokens no_leaves (fun _ => []) [] node_fp 300 (sample_object 9) joined_cache held (small_id 6) join_request b evs c' I E Hne)
    as (-> & m & body & node & fn & ident & _ & _ & He & _ & _ & Hc & Hi).
  exists b, evs, joined_cache, body, node, fn, ident. split; [exact E|]. split; [exact Hl|]. split; [reflexivity|]. split; [exact He|]. split; [exact Hc|].
  destruct ident as [i|]; [apply Hi|exact Hi].
Defined.

(** ** What is missing *)

Section Missing.
Context `{Sodium} `{Qcbor} `{Doubles} `{RbTree tree}.
Context (encoder_leaves : list item -> Z -> list Z) (printed : np_treeval_t -> list Z) (alloc random : Z -> list Z) (behind : list Z).
Context (rx tx me my_identity : np_dhkey_t) (now : Q) (o : new_object).
Abbreviation cache := (keycache_t (tree := tree)).

(** The body of a message is read and has no element of the name. *)
Definition lacks (msg : message_t) (name : list Z) : Prop :=
  exists m body, _np_message_readbody behind msg = Ok (true, m) /\ msg_body m = Some body /\ np_tree_find_str body name = None.
Definition unreadable (msg : message_t) : Prop := exists m, _np_message_readbody behind msg = Ok (false, m).

(** C22: What a handler does with a message whose body lacks what it looks for.  Leaving,
    joining, announcements of senders and acknowledgements take it as handled and change
    nothing; announcements of receivers and updates follow a null pointer.  A body that
    cannot be read is refused by all of these, and nothing changes.  A handshake does not
    read its body, it takes the one the message has: without one, or without a token in
    it, it follows a null pointer. *)
Theorem missing_element_handled key_alloc response_root (c : cache) target properties containers start msg :
  (lacks msg _NP_URN_NODE_PREFIX ->
     _np_in_leave encoder_leaves printed behind now o target msg = Ok (true, []) /\
     _np_in_join encoder_leaves printed behind my_identity now o c target msg = Ok (true, [], c) /\
     _np_in_update encoder_leaves printed alloc random behind rx tx now o key_alloc c target msg = Err Bad_access) /\
  (lacks msg _NP_URN_INTENT_PREFIX ->
     _np_in_available_sender encoder_leaves printed behind rx tx now o msg = Ok (true, []) /\
     _np_in_available_receiver encoder_leaves printed behind rx tx now o msg = Err Bad_access) /\
  (lacks msg _NP_MSG_INST_RESPONSE_UUID -> _np_in_ack behind rx tx now response_root c properties containers msg = Ok (true, containers, c)) /\
  (forall body, msg_body msg = Some body -> np_tree_find_str body _NP_URN_HANDSHAKE_PREFIX = None ->
     _np_in_handshake encoder_leaves printed now o key_alloc start c target msg = Err Bad_access) /\
  (msg_body msg = None -> _np_in_handshake encoder_leaves printed now o key_alloc start c target msg = Err Bad_access) /\
  (unreadable msg ->
     _np_in_leave encoder_leaves printed behind now o target msg = Ok (false, []) /\
     _np_in_join encoder_leaves printed behind my_identity now o c target msg = Ok (false, [], c) /\
     _np_in_update encoder_leaves printed alloc random behind rx tx now o key_alloc c target msg = Ok (false, [], c) /\
     _np_in_available_sender encoder_leaves printed behind rx tx now o msg = Ok (false, []) /\
     _np_in_available_receiver encoder_leaves printed behind rx tx now o msg = Ok (false, []) /\
     _np_in_ack behind rx tx now response_root c properties containers msg = Ok (false, containers, c)).
Proof.
  split_and!.
  - intros (m & body & Hr & Hb & Hf). unfold _np_in_leave, _np_in_join, _np_in_update, join_tokens, body_of.
    rewrite Hr, !bind_ok. cbn [negb]. by rewrite Hb, !bind_ok, Hf.
  - intros (m & body & Hr & Hb & Hf). unfold _np_in_available_sender, _np_in_available_receiver, body_of.
    rewrite Hr, !bind_ok. cbn [negb]. by rewrite Hb, !bind_ok, Hf.
  - intros (m & body & Hr & Hb & Hf). unfold _np_in_ack, body_of. rewrite Hr, bind_ok. cbn [negb]. by rewrite Hb, bind_ok, Hf.
  - intros body Hb Hf. unfold _np_in_handshake, body_of. by rewrite Hb, bind_ok, Hf.
  - intros Hb. unfold _np_in_handshake, body_of. by rewrite Hb.
  - intros [m Hr]. unfold _np_in_leave, _np_in_join, _np_in_update, _np_in_available_sender, _np_in_available_receiver, _np_in_ack.
    by rewrite Hr.
Qed.
End Missing.

(** ** News of trails *)

Definition aged (n : nat) (x : cell) : cell := (Z.max 0 (fst x - 8 * Z.of_nat n), snd x).

(** A step of the date, for dates up to 2^33 (the year 2242), is between these two. *)
Definition step_lo : Q := 10003 # 1000000.
Definition step_hi : Q := 10008 # 1000000.

Lemma age_step_bounds d : (0 <= d)%Q -> (d <= inject_Z (2 ^ 33))%Q -> (d + step_lo <= fadd d AGE_STEP <= d + step_hi)%Q.
Proof.
  intros H0 Hd. unfold fadd. change (inject_Z (2 ^ 33)) with (8589934592 # 1)%Q in Hd.
  pose proof (to_double_near (d + AGE_STEP)) as Hn. assert (0 <= d + AGE_STEP)%Q as Hp by (unfold AGE_STEP; lra).
  rewrite (Qabs_pos (d + AGE_STEP)) in Hn by done. apply Qabs_Qle_condition in Hn.
  set (x := to_double (d + AGE_STEP)) in *. clearbody x. unfold AGE_STEP, step_lo, step_hi in *. lra.
Qed.

Lemma aged_step n x : is_cell x -> aged n (age_dec x) = aged (S n) x.
Proof.
  intros [Ha _]. unfold in_u in Ha. destruct x as [a c]. unfold aged, age_dec. cbn [fst snd] in *.
  destruct (Z.ltb_spec 8 a); f_equal; lia.
Qed.

Lemma age_dec_wf cs : cells_wf cs -> cells_wf (map age_dec cs).
Proof.
  apply map_cells_wf. intros [a c] [Ha Hc]. unfold is_cell, in_u in *. cbn [age_dec fst snd] in *. destruct (Z.ltb_spec 8 a); lia.
Qed.

Lemma aged_zero cs : cells_wf cs -> map (aged 0) cs = cs.
Proof.
  intros [_ Hcs]. induction Hcs as [|[a c] cs [Ha _] _ IH]; [done|]. cbn [map]. rewrite IH. f_equal.
  unfold aged, in_u in *. cbn [fst snd] in *. f_equal. lia.
Qed.

Lemma aged_round n cs : cells_wf cs -> map (aged n) (map age_dec cs) = map (aged (S n)) cs.
Proof.
  intros [_ Hcs]. rewrite map_map. apply map_ext_Forall. eapply Forall_impl; [exact Hcs|]. intros x Hx. by apply aged_step.
Qed.

Definition nat_Q (n : nat) : Q := inject_Z (Z.of_nat n).
Lemma nat_Q_S n : (nat_Q (S n) == nat_Q n + 1)%Q.
Proof. unfold nat_Q. rewrite Nat2Z.inj_succ, <-Z.add_1_r, inject_Z_plus. reflexivity. Qed.
Lemma nat_Q_pos n : (0 <= nat_Q n)%Q.
Proof. unfold nat_Q. change 0%Q with (inject_Z 0). rewrite <-Zle_Qle. lia. Qed.

(** The number of rounds: with each the date advances by a step between the two. *)
Definition rounds_ok (n : nat) (t : Q) : Prop :=
  (t <= nat_Q n * step_hi)%Q /\ ((0 < n)%nat -> ((nat_Q n - 1) * step_lo < t)%Q).

Lemma rounds_next n t t' : (0 < t)%Q -> rounds_ok n t' -> (t' + step_lo <= t <= t' + step_hi)%Q -> rounds_ok (S n) t.
Proof.
  intros Ht [H1 H2] H3. unfold rounds_ok. rewrite nat_Q_S. split.
  - unfold step_lo, step_hi in *. nra.
  - intros _. destruct n as [|n].
    + change (nat_Q 0) with 0%Q. unfold step_lo. lra.
    + specialize (H2 ltac:(lia)). unfold step_lo, step_hi in *. lra.
Qed.

Lemma age_loop_rounds now rng free : (now <= inject_Z (2 ^ 33))%Q -> forall k sent,
  (0 <= sent)%Q -> (now - sent <= nat_Q k * (1 # 100))%Q ->
  exists n, rounds_ok n (now - sent) /\ forall fuel cs, cells_wf cs ->
    age_loop now fuel sent (mk rng cs free) = if bool_decide (n <= fuel)%nat then Ok (mk rng (map (aged n) cs) free) else Err Diverges.
Proof.
  intros Hnow. induction k as [|k IH]; intros sent H0 Hk; destruct (Qltb sent now) eqn:E.
  1: { apply Qltb_lt in E. change (nat_Q 0) with 0%Q in Hk. lra. }
  2: { apply Qltb_lt in E. pose proof (age_step_bounds sent H0 ltac:(lra)) as Hs. set (x := fadd sent AGE_STEP) in *.
    rewrite nat_Q_S in Hk. destruct (IH x) as (n & Hn & Hage); [unfold step_lo in *; lra|unfold step_lo in *; lra|].
    exists (S n). split; [apply (rounds_next n _ (now - x)); [lra|done|lra]|]. intros fuel cs Hcs. destruct fuel as [|fuel]; cbn [age_loop].
    - rewrite (proj2 (Qltb_lt sent now)) by done. by rewrite bool_decide_false by lia.
    - rewrite (proj2 (Qltb_lt sent now)) by done. rewrite neuropil_age_decrement_mk, bind_ok by apply Hcs. fold x.
      rewrite Hage, aged_round by (done || by apply age_dec_wf).
      destruct (decide (n <= fuel)%nat); [rewrite !bool_decide_true by lia|rewrite !bool_decide_false by lia]; done. }
  all: exists 0%nat; split; [apply Qltb_ge in E; split; [change (nat_Q 0) with 0%Q; lra|lia]|];
    intros fuel cs Hcs; destruct fuel as [|fuel]; cbn [age_loop]; rewrite E, aged_zero, bool_decide_true by (done || lia); done.
Qed.

Lemma nat_above t : exists k, (t <= nat_Q k * (1 # 100))%Q.
Proof.
  exists (Z.to_nat (Qceiling (t * 100))). unfold nat_Q. pose proof (Qle_ceiling (t * 100)) as Hc.
  assert (inject_Z (Qceiling (t * 100)) <= inject_Z (Z.of_nat (Z.to_nat (Qceiling (t * 100)))))%Q by (rewrite <-Zle_Qle; lia). lra.
Qed.

(** A date far in the past, as a peer may send it: the sum is the date again, and the
    loop does not end. *)
Lemma old_date_hangs now rng free : (0 <= now)%Q -> forall fuel cs, cells_wf cs ->
  age_loop now fuel (inject_Z (- 2 ^ 60)) (mk rng cs free) = Err Diverges.
Proof.
  intros Hnow. assert (Qltb (inject_Z (- 2 ^ 60)) now = true) as E.
  { apply Qltb_lt. change (inject_Z (- 2 ^ 60)) with (-1152921504606846976 # 1)%Q. lra. }
  assert (fadd (inject_Z (- 2 ^ 60)) AGE_STEP = inject_Z (- 2 ^ 60)) as Ef by (vm_compute; reflexivity).
  induction fuel as [|fuel IH]; intros cs Hcs; cbn [age_loop]; rewrite E; [done|].
  rewrite neuropil_age_decrement_mk, bind_ok, Ef by apply Hcs. apply IH. by apply age_dec_wf.
Qed.

(** A filter without age meets nothing. *)
Lemma dead_intersection rng cs free n : cells_wf cs -> (32 <= n)%nat ->
  _np_neuropil_bloom_intersect_age (mk rng (map (aged n) cs) free) (mk rng (map (aged n) cs) free) = Ok 0%Q.
Proof.
  intros [Hl Hcs] Hn. unfold _np_neuropil_bloom_intersect_age. rewrite neuropil_compatible_mk, bind_ok.
  change (filter_bytes _) with 2040. change (_bitset (mk rng (map (aged n) cs) free)) with (uncells (map (aged n) cs)).
  rewrite fold_cells_mk, bind_ok by (by rewrite length_map).
  assert (forall s : Q * Z, foldl (fun s '(r, t) => (let '(ret, i) := s in fun '(ra, _) '(ta, tc) =>
       if 0 <? ta then
         (if 0 <? ra then (if Qle_bool (age_ratio ra) ret then age_ratio ra else ret) else 0%Q,
          u8 (i + tc))
       else (ret, i)) r t) s (zip (map (aged n) cs) (map (aged n) cs)) = s) as Hfold.
  { clear Hl. induction Hcs as [|[a c] cs [Ha _] _ IH]; intros [q i]; [done|]. unfold in_u in Ha. cbn [map zip zip_with foldl aged fst snd] in *.
    replace (Z.max 0 (a - 8 * Z.of_nat n)) with 0 by lia. apply IH. }
  rewrite Hfold. done.
Qed.

Section News.
Context `{Qcbor}.
Context (me : np_dhkey_t) (now : Q) (fuel : nat) (seeds : Z * Z) (clock : nat -> Q).

(** C40: The age of news ends.  For dates between 0 and 2^33 seconds (the loop adds
    doubles, with their rounding) there is a number [n] of rounds that is exactly enough:
    a filter of a pheromone message is aged [n] times, by eight each time and not below
    zero.  Each round is worth between 0.010003 and 0.010008 seconds of the time since the
    message was sent.  So a message that was under way for 0.32 seconds or more is
    ignored, wherever it comes from and whatever it says: the trails, the hops and the
    decision to pass it on stay as they are.  A date far before 0 is not covered: there
    the loop does not end, see old_date_hangs. *)
Theorem news_ages_out sent rng cs free :
  (0 <= sent)%Q -> (now <= inject_Z (2 ^ 33))%Q -> cells_wf cs ->
  exists n, rounds_ok n (now - sent) /\
  age_loop now fuel sent (mk rng cs free) = (if bool_decide (n <= fuel)%nat then Ok (mk rng (map (aged n) cs) free) else Err Diverges) /\
  ((32 # 100 <= now - sent)%Q -> (n <= fuel)%nat -> forall audience hop key bytes (s : pheromones * list np_dhkey_t * bool),
     _np_neuropil_bloom_deserialize _np_neuropil_bloom_create bytes = Ok (mk rng cs free) ->
     hear me now fuel seeds clock audience hop sent (key, np_treeval_new_bin bytes) s = Ok s).
Proof.
  intros H0 Hnow Hcs. destruct (nat_above (now - sent)) as [k Hk].
  destruct (age_loop_rounds now rng free Hnow k sent H0 Hk) as (n & Hn & Hage). exists n. split; [done|]. split; [by apply Hage|].
  intros Hlate Hf audience hop key bytes [[p l] fwd] Hd. unfold hear. cbn [snd].
  assert (bin_bytes (np_treeval_new_bin bytes) (tv_size (np_treeval_new_bin bytes)) = Ok bytes) as -> by (by apply read_bytes_exact).
  rewrite bind_ok, Hd, bind_ok, Hage, bool_decide_true, bind_ok by done.
  assert (32 <= n)%nat as Hn32.
  { destruct Hn as [Hn _]. unfold nat_Q, step_hi in Hn. apply Nat.nlt_ge. intros Hc.
    assert (inject_Z (Z.of_nat n) <= inject_Z 31)%Q as Hq by (rewrite <-Zle_Qle; lia). change (inject_Z 31) with (31 # 1)%Q in Hq. lra. }
  rewrite dead_intersection, bind_ok by done. done.
Qed.
End News.

(** ** Examples of the others *)

(** A message that asks for an acknowledgement, and one that brings nothing. *)
Definition asking : message_t :=
  match _np_message_create fresh_bytes fresh_bytes (Some (sample_conf 0)) 100 (replicate 16 9) message_new (small_id 5) (small_id 6) (Some np_tree_create) with
  | Ok m => m
  | Err _ => message_new
  end.
Definition ack_id : np_dhkey_t := Eval vm_compute in _np_msgproperty_dhkey dhkey_zero dhkey_zero crypto_generichash INBOUND _NP_MSG_ACK.
Definition ack_cache : keycache_t (tree := list entry) :=
  match _np_keycache_find_or_create example_alloc 0 (_np_keycache_init ∅) ack_id with Ok (c, _) => c | Err _ => _np_keycache_init ∅ end.
Definition waiting (uuid : list Z) : np_msgproperty_run_t := Msgproperty_run 0 [] {[uuid := 4%positive]} ∅ ∅.
Definition container : np_responsecontainer_t := Responsecontainer (replicate 16 9) (small_id 5) (small_id 6) 0 120.
Definition no_sessions (p : key_ptr) : subject_key := Subject_key 0 0 dhkey_zero (Ledger [] []) ∅ ∅.

Definition first_entry (m : gmap (list Z) loc) : option (list Z * loc) := head (map_to_list m).
Lemma first_entry_ok m : match first_entry m with Some (u, l) => m !! u = Some l | None => m = ∅ end.
Proof.
  unfold first_entry. destruct (map_to_list m) as [|[u l] r] eqn:E; cbn.
  - by apply map_to_list_empty_iff.
  - apply elem_of_map_to_list. rewrite E. by left.
Qed.

Lemma acknowledgement_stamps_root_witness :
  exists ack, _check_and_send_destination_ack fresh_bytes fresh_bytes dhkey_zero dhkey_zero (small_id 5) 110 ack_cache no_sessions None (replicate 16 8) (small_id 7) asking =
      Ok (true, [Raised Queue (_np_msgproperty_tweaked_dhkey dhkey_zero dhkey_zero OUTBOUND (generated _NP_MSG_ACK)) (Z.lor evt_message evt_internal)
                   (_np_msgproperty_tweaked_dhkey dhkey_zero dhkey_zero OUTBOUND (generated _NP_MSG_ACK)) (P_message ack)], ack_cache) /\
    get_uuid asking = replicate 16 9 /\
    _np_in_ack [] dhkey_zero dhkey_zero 111 first_entry ack_cache (fun _ => waiting (replicate 16 4)) {[4%positive := container]} ack =
      Ok (true, {[4%positive := stamp 111 container]}, ack_cache).
Proof.
  assert (get_uuid asking = replicate 16 9) as Hu by (vm_compute; reflexivity).
  destruct (acknowledgement_stamps_root fresh_bytes fresh_bytes []) with (response_root := first_entry) (rx := dhkey_zero) (tx := dhkey_zero) (me := small_id 5) (now := 110%Q)
    (uuid_ := replicate 16 8) (c := ack_cache) (c1 := ack_cache) (sessions := no_sessions) (prop := @None Msgproperty.np_msgproperty_conf_t) (ttl := 19)
    (target := small_id 7) (msg := asking) (from := small_id 7) as (ack & Hsend & _ & Hrecv).
  - intros n Hn. apply length_replicate.
  - intros n. apply Forall_replicate. done.
  - intros n Hn. apply length_replicate.
  - intros n. apply Forall_replicate. done.
  - apply Nat.leb_le. reflexivity.
  - change (2 <= Z.to_nat 65534)%nat. lia.
  - apply first_entry_ok.
  - vm_compute. reflexivity.
  - vm_compute. reflexivity.
  - apply (bool_decide_unpack _). vm_compute. exact I.
  - vm_compute. reflexivity.
  - by_decide.
  - reflexivity.
  - by_decide.
  - vm_compute. reflexivity.
  - exists ack. split; [exact Hsend|]. split; [exact Hu|].
    destruct (find_or_create_ok example_alloc 0 (_np_keycache_init ∅) (fun _ => 0) ack_id init_ok) as (c' & p & E & I & _); [by_decide|apply example_alloc_fresh|].
    assert (ack_cache = c') as Ec by (unfold ack_cache; by rewrite E).
    destruct (Hrecv dhkey_zero dhkey_zero 111%Q ack_cache (give (fun _ => 0) 1 p) 1%positive (fun _ => waiting (replicate 16 4)) {[4%positive := container]}) as (_ & _ & Hr).
    + by rewrite Ec.
    + change (dhkey_wf ack_id). by_decide.
    + vm_compute. reflexivity.
    + rewrite (Hr (replicate 16 4) 4%positive container); [reflexivity|reflexivity|reflexivity].
Defined.

(** An empty body lacks everything. *)
Lemma missing_element_handled_witness :
  lacks [] asking _NP_URN_NODE_PREFIX /\
  _np_in_join no_leaves (fun _ => []) [] node_fp 300 (sample_object 9) ack_cache (small_id 7) asking = Ok (true, [], ack_cache) /\
  _np_in_update no_leaves (fun _ => []) fresh_bytes fresh_bytes [] dhkey_zero dhkey_zero 300 (sample_object 9) example_alloc ack_cache (small_id 7) asking = Err Bad_access.
Proof.
  assert (lacks [] asking _NP_URN_NODE_PREFIX) as Hl.
  { assert (match _np_message_readbody [] asking with Ok (true, m) => match msg_body m with Some b => np_tree_find_str b _NP_URN_NODE_PREFIX | None => Some (mk_key (V_i 0), mk_key (V_i 0)) end
            | _ => Some (mk_key (V_i 0), mk_key (V_i 0)) end = None) as Hr by (vm_compute; reflexivity).
    unfold lacks. destruct (_np_message_readbody [] asking) as [[[|] m]|]; [|done..]. destruct (msg_body m) as [b|] eqn:Eb; [|done]. by exists m, b. }
  split; [exact Hl|].
  destruct (missing_element_handled no_leaves (fun _ => []) fresh_bytes fresh_bytes [] dhkey_zero dhkey_zero node_fp 300 (sample_object 9)
    example_alloc first_entry ack_cache (small_id 7) (fun _ => waiting []) ∅ (fun _ _ _ => Err Aborted) asking) as [Hm _].
  destruct (Hm Hl) as (_ & Hj & Hu). split; [exact Hj|exact Hu].
Defined.

(** A filter that was one second under way. *)
Lemma news_ages_out_witness : exists n, rounds_ok n (1 - 0) /\
  age_loop 1 200 0 (mk rng0 one_cell 63) = (if bool_decide (n <= 200)%nat then Ok (mk rng0 (map (aged n) one_cell) 63) else Err Diverges).
Proof.
  destruct (news_ages_out (small_id 5) 1 200 (0, 0) (fun _ => 0%Q) 0 rng0 one_cell 63) as (n & Hn & Ha & _).
  - apply Qle_refl.
  - vm_compute. discriminate.
  - split; [by vm_compute|]. constructor; [by_decide|]. apply Forall_replicate. by_decide.
  - exists n. split; [exact Hn|exact Ha].
Defined.
