(* ===== verification/Wire.v ===== *)
(** * The link between two nodes: [src/core/np_comp_node.c], [src/core/np_comp_alias.c]

    A node has two keys for a peer: the node key, over which it sends, and the alias key,
    which stands for the address messages come from.  Both share the session the handshake
    made.  A part of a message is numbered, made into a packet, sealed and queued for the
    socket; the packet that arrives is opened and becomes an event for the alias, whose
    handlers collect the parts of messages for this node and pass the others on. *)
From Stdlib Require Import ZArith Lia QArith String.
From stdpp Require Import prelude gmap.
From S2P Require Import Prelude Real Dhkey Rng BloomBase BloomNeuropil Key Keycache Route Pheromones Token KeyStates Crypto Treeval Tree Qcbor Serial Datablock Aaatoken TokenFactory Intent Msgproperty MsgpropertyLife Chunk Reassembly Payload Node Axon DatablockSpec DatablockThms AaatokenSpec TokenFactoryThms ChunkThms.

Local Open Scope Z_scope.

(** ** The socket of a peer *)

(** What the functions use of [np_network_t]: the number of the next packet and the packets
    to be sent, when the network has a queue. *)
Record network_t := Network { seqend : Z; out_events : option (list (list Z)) }.

Definition set_seq (p : np_n2n_messagepart_t) (s : Z) : np_n2n_messagepart_t :=
  MsgPart (Chunk.chunk_offset p) (is_forwarded_part p) (mac_n p) s (hop_count p) (part_mac_e p) (msg_header p) (part_body p) (Chunk.part_nonce p).

(** [part->seq = network->seqend++] *)
Definition numbered (n : network_t) (p : np_n2n_messagepart_t) : network_t * np_n2n_messagepart_t :=
  (Network (u32 (seqend n + 1)) (out_events n), set_seq p (seqend n)).

Definition sll_append (n : network_t) (packet : list Z) : result network_t :=
  match out_events n with Some l => Ok (Network (seqend n) (Some (l ++ [packet]))) | None => Err Bad_access end.

Section Packets.
Context `{Sodium} `{Qcbor} `{Doubles}.

(** A part without transport encryption: the handshake. *)
Definition __np_node_send_direct (network : option network_t) (msg_chunk : list Z) (hs_messagepart : np_n2n_messagepart_t) : result (option network_t) :=
  match network with
  | None => Ok None
  | Some n =>
      let '(n, part) := numbered n hs_messagepart in
      n ← sll_append n (_np_node_build_network_packet msg_chunk part);
      Ok (Some n)
  end.

(** The parts of a packet: the mac of the transport encryption, what it covers, the nonce. *)
Definition sealed_length : Z := MSG_INSTRUCTIONS_SIZE + MSG_CHUNK_SIZE_1024 - MSG_MAC_SIZE - MSG_NONCE_SIZE.
Definition mac_part (packet : list Z) : result (list Z) := slice 0 MSG_MAC_SIZE packet.
Definition sealed_part (packet : list Z) : result (list Z) := slice MSG_MAC_SIZE sealed_length packet.
Definition nonce_part (packet : list Z) : result (list Z) :=
  slice (MSG_INSTRUCTIONS_SIZE + MSG_CHUNK_SIZE_1024 - MSG_NONCE_SIZE) MSG_NONCE_SIZE packet.

(** The packet is sealed in its place. *)
Definition seal_packet (session : np_crypto_session_t) (packet : list Z) : result (list Z) :=
  data ← sealed_part packet;
  n ← nonce_part packet;
  '(c, mac) ← np_crypto_session_encrypt session sealed_length MSG_MAC_SIZE data [] n;
  Ok (mac ++ c ++ n).

Definition __np_node_send_encrypted (session : np_crypto_session_t) (network : option network_t) (msg_chunk : list Z) (msg_part : np_n2n_messagepart_t)
    : result (option network_t) :=
  if negb (session_key_to_write_is_set session) then Ok network
  else
    match network with
    | None => Ok None
    | Some n =>
        let '(n, part) := numbered n msg_part in
        packet ← seal_packet session (_np_node_build_network_packet msg_chunk part);
        match out_events n with
        | Some _ => n ← sll_append n packet; Ok (Some n)
        | None => Ok (Some n)
        end
    end.

(** [None]: not for this session. *)
Definition open_packet (session : np_crypto_session_t) (packet : list Z) : result (option (list Z)) :=
  mac ← mac_part packet;
  c ← sealed_part packet;
  n ← nonce_part packet;
  o ← np_crypto_session_decrypt session c mac sealed_length [] n;
  Ok (match o with Some data => Some (mac ++ data ++ n) | None => None end).

(** [accepted]: the job queue takes the event. *)
Definition __np_alias_decrypt (accepted : bool) (alias : np_dhkey_t) (session_key_is_set_ : bool) (session : np_crypto_session_t) (packet : list Z)
    : result (list sending) :=
  if negb session_key_is_set_ then Ok []
  else if negb (session_key_to_read_is_set session) then Ok []
  else
    o ← open_packet session packet;
    match o with
    | None => Ok []
    | Some packet =>
        part ← _np_message_deserialize_header_and_instructions packet;
        Ok [hand_over accepted alias (Z.lor evt_external evt_message) alias (To_part part packet)]
    end.

(** ** The session *)

(** The one with the higher priority takes the role of the client; without the attribute
    the peer's priority is zero.  The flag [session_key_is_set] of the node is set in any case. *)
Definition __np_create_session (my_crypto : np_crypto_t) (handshake_priority_ : Z) (handshake_token : np_aaatoken_t) (session : np_crypto_session_t)
    : result (np_crypto_session_t * bool) :=
  prio ← uint_attribute (attributes handshake_token) NP_HS_PRIO;
  let remote_hs_prio := match prio with Some x => x | None => 0 end in
  '(_, session) ← np_crypto_session my_crypto session (crypto handshake_token) (negb (remote_hs_prio <? handshake_priority_));
  Ok (session, true).

(** ** What arrives for an alias *)

Section Alias.
Context `{RbTree tree}.
Abbreviation cache := (keycache_t (tree := tree)).
Context (fuel : nat) (__local_rx_dhkey __local_tx_dhkey : np_dhkey_t).
Context (seeds : Z * Z) (my_dhkey : np_dhkey_t) (clock : nat -> Q).
(** The alias, the node it stands for, and whether the job queue takes an event. *)
Context (alias parent : np_dhkey_t) (accepted : bool).

Abbreviation tweaked := (_np_msgproperty_tweaked_dhkey __local_rx_dhkey __local_tx_dhkey).

Record event_t := Event_t { ev_type : Z; ev_target : np_dhkey_t; ev_part : np_n2n_messagepart_t; ev_chunk : list Z }.

(** A message that is complete goes on to its subject. *)
Definition __np_handle (pc : part_cache) (event : event_t) : result (part_cache * list sending) :=
  '(pc, msg) ← Reassembly.__np_handle crypto_generichash fuel pc (ev_chunk event);
  Ok (pc, match msg with
          | Some b => let m := Message_t b None 0 0 in
                      [hand_over accepted (tweaked INBOUND (get_subject m)) (ev_type event) (ev_target event) (To_message m)]
          | None => []
          end).

Definition forwarded (p : np_n2n_messagepart_t) : np_n2n_messagepart_t :=
  MsgPart (Chunk.chunk_offset p) true (mac_n p) (seq p) (hop_count p) (part_mac_e p) (msg_header p) (part_body p) (Chunk.part_nonce p).

(** Announcements leave a trail to the last hop; what is new goes on, and what the node
    has a subject for is collected. *)
Definition __np_handle_np_discovery (ph : pheromones) (pc : part_cache) (c : cache) (event : event_t)
    : result (pheromones * part_cache * cache * list sending) :=
  let message := ev_part event in
  let find_receiver := _np_dhkey_equal (generated _NP_MSG_AVAILABLE_SENDER) (part_subject message) in
  let find_sender := _np_dhkey_equal (generated _NP_MSG_AVAILABLE_RECEIVER) (part_subject message) in
  '(ph, _forward_discovery_msg) ← _np_pheromone_inhale_target seeds my_dhkey clock (Some ph) (part_audience message) parent find_sender find_receiver;
  let evs := if (_forward_discovery_msg : bool)
             then [hand_over accepted (tweaked OUTBOUND (part_subject message)) message_out parent (To_part (forwarded message) (ev_chunk event))] else [] in
  let lookup_key := if find_receiver then tweaked INBOUND (part_audience message) else dhkey_zero in
  let lookup_key := if find_sender then tweaked OUTBOUND (part_audience message) else lookup_key in
  '(c, subject_key) ← _np_keycache_find c lookup_key;
  match subject_key with
  | None => Ok (ph, pc, c, evs)
  | Some p =>
      '(pc, more) ← __np_handle pc (Event_t (ev_type event) parent message (ev_chunk event));
      '(c, _) ← unref_obj c p;
      Ok (ph, pc, c, evs ++ more)
  end.

(** News of trails are heard from routed nodes only; [node]: that of the alias. *)
Definition __np_handle_pheromone (node : option Node.np_node_t) (pc : part_cache) (c : cache) (event : event_t)
    : result (part_cache * cache * list sending) :=
  if negb (_np_dhkey_equal alias (ev_target event)) then Ok (pc, c, [])
  else
    '(c, known, ro) ← Keycache._np_keycache_exists c parent true;
    let of_node := match ro with Some k => (known : bool) && FLAG_CMP (ro_type k) np_key_type_node | None => false end in
    let routed := match node with Some n => Node.is_in_leafset n || Node.is_in_routing_table n | None => false end in
    if of_node && routed then
      '(pc, evs) ← __np_handle pc (Event_t (ev_type event) parent (ev_part event) (ev_chunk event)); Ok (pc, c, evs)
    else Ok (pc, c, []).

Definition __np_handle_np_message (pc : part_cache) (event : event_t) : result (part_cache * list sending) := __np_handle pc event.

(** Messages for others: a trail to the sender, and the job queue. *)
Definition __np_handle_np_forward (ph : pheromones) (event : event_t) : result (pheromones * list sending) :=
  let message_in := ev_part event in
  '(ph, _) ← _np_pheromone_inhale_target seeds my_dhkey clock (Some ph) (part_audience message_in) parent false true;
  let msg_handler := if _np_dhkey_equal (generated _NP_MSG_ACK) (part_subject message_in)
                     then tweaked OUTBOUND (generated _NP_MSG_ACK) else tweaked OUTBOUND (generated _FORWARD) in
  Ok (ph, [Sending Queue msg_handler message_out parent (To_part (forwarded message_in) (ev_chunk event))]).

Definition __np_handle_usr_msg (ph : pheromones) (pc : part_cache) (event : event_t) : result (pheromones * part_cache * list sending) :=
  let usr_event := Event_t (ev_type event) (part_audience (ev_part event)) (ev_part event) (ev_chunk event) in
  '(ph, evs) ← __np_handle_np_forward ph usr_event;
  '(pc, more) ← __np_handle pc (Event_t (ev_type usr_event) (ev_target usr_event) (forwarded (ev_part usr_event)) (ev_chunk usr_event));
  Ok (ph, pc, evs ++ more).
End Alias.
End Packets.

(** ** The link between two nodes: packets and sessions

    Two nodes that know each other's handshake token make sessions that fit, when their
    priorities differ; what one of them then sends the other opens, part by part; nothing
    is sent or read before there is a session. *)

(** ** Sealing and opening *)

Section Packets.
Context `{Sodium} `{Qcbor} `{!Block_limits} `{Doubles}.

Definition packet_length : nat := Z.to_nat (MSG_INSTRUCTIONS_SIZE + MSG_CHUNK_SIZE_1024).

Lemma packet_parts pk : length pk = packet_length ->
  exists a d n, pk = a ++ d ++ n /\ length a = 16%nat /\ Z.of_nat (length d) = sealed_length /\ length n = 12%nat /\
    mac_part pk = Ok a /\ sealed_part pk = Ok d /\ nonce_part pk = Ok n.
Proof.
  intros Hl. change packet_length with 1046%nat in Hl. destruct (split_at 16 pk) as (a & r & -> & La); [lia|]. rewrite length_app in Hl.
  destruct (split_at 1018 r) as (d & n & -> & Ld); [lia|]. rewrite length_app in Hl.
  assert (Z.of_nat (length d) = sealed_length) as Hd by (rewrite Ld; reflexivity).
  exists a, d, n. split_and!; try done; try lia; unfold mac_part, sealed_part, nonce_part.
  - apply slice_front. by rewrite La.
  - apply slice_middle; [by rewrite La|done].
  - rewrite (app_assoc a). rewrite <- (app_nil_r n) at 1. apply slice_middle; [rewrite length_app, La, Ld; reflexivity|].
    assert (length n = 12%nat) as -> by lia. reflexivity.
Qed.

(** What is opened is what was sealed, but for the mac in front. *)
Lemma seal_open sa sb pk : length pk = packet_length -> session_key_to_write sa = session_key_to_read sb ->
  exists mac sealed, seal_packet sa pk = Ok sealed /\ length mac = 16%nat /\ length sealed = packet_length /\
    open_packet sb sealed = Ok (Some (mac ++ drop 16 pk)).
Proof.
  intros Hl Hk. destruct (packet_parts pk Hl) as (a & d & n & E & La & Ld & Ln & Pa & Pd & Pn).
  destruct (session_transport sa sb d [] n Hk) as (c & mac & He & Hd).
  assert (Z.of_nat (length c) = sealed_length /\ length mac = 16%nat) as [Lc Lm].
  { unfold np_crypto_session_encrypt in He. apply bind_Ok_inv in He as (_ & _ & He). apply bind_Ok_inv in He as (_ & _ & He).
    pose proof (aead_lengths (session_key_to_write sa) n [] d) as [L1 L2]. injection He as He. rewrite He in L1, L2. cbn [fst snd] in *. by rewrite L1. }
  exists mac, (mac ++ c ++ n). split_and!; [|done|rewrite !length_app, Lm, Ln; change packet_length with 1046%nat; change sealed_length with 1018 in Lc; lia|].
  - unfold seal_packet. rewrite Pd, bind_ok, Pn, bind_ok, <- Ld. change MSG_MAC_SIZE with 16. by rewrite He, bind_ok.
  - assert (length (mac ++ c ++ n) = packet_length) as Hl' by (rewrite !length_app, Lm, Ln; change packet_length with 1046%nat; change sealed_length with 1018 in Lc; lia).
    unfold open_packet.
    assert (mac_part (mac ++ c ++ n) = Ok mac) as -> by (apply slice_front; by rewrite Lm).
    assert (sealed_part (mac ++ c ++ n) = Ok c) as -> by (apply slice_middle; [by rewrite Lm|done]).
    assert (nonce_part (mac ++ c ++ n) = Ok n) as ->.
    { unfold nonce_part. rewrite (app_assoc mac). rewrite <- (app_nil_r n) at 1. apply slice_middle.
      - rewrite length_app, Lm. change sealed_length with 1018 in Lc. change (22 + 1024 - 12) with 1034.
        change (MSG_INSTRUCTIONS_SIZE + MSG_CHUNK_SIZE_1024 - MSG_NONCE_SIZE) with 1034. lia.
      - by rewrite Ln. }
    rewrite !bind_ok, <- Ld, Hd, bind_ok. do 2 f_equal. by rewrite E, drop_app_length' by done.
Qed.

(** ** Parts *)

(** A part can be made into a packet: one's own with fields of the right sizes, or one
    that is passed on with the packet it came in. *)
Definition packet_ready (chunk : list Z) (p : np_n2n_messagepart_t) : Prop :=
  if is_forwarded_part p then length chunk = packet_length
  else (16 <= length chunk)%nat /\ length (part_mac_e p) = 16%nat /\ length (msg_header p) = 96%nat /\ length (part_body p) = 900%nat /\
    length (Chunk.part_nonce p) = 12%nat.

Lemma packet_has_length chunk p : packet_ready chunk p -> length (_np_node_build_network_packet chunk p) = packet_length.
Proof.
  unfold packet_ready, _np_node_build_network_packet. change packet_length with 1046%nat. destruct (is_forwarded_part p).
  - intros Hl. rewrite !length_app, length_take, length_drop, Hl. reflexivity.
  - intros (Lc & Lm & Lh & Lb & Ln). rewrite !length_app, length_take. cbn [length].
    assert (length (sodium_add16 (part_mac_e p) (Chunk.chunk_offset p)) = 16%nat) as -> by (unfold sodium_add16; rewrite length_put16; lia).
    assert (length (if 0 <? Chunk.chunk_offset p then sodium_sub16 (Chunk.part_nonce p) (Chunk.chunk_offset p) else Chunk.part_nonce p) = 12%nat) as ->
      by (destruct (0 <? _); [unfold sodium_sub16; rewrite length_put16; lia|done]).
    rewrite Lh, Lb. lia.
Qed.

Definition with_mac (mac : list Z) (q : np_n2n_messagepart_t) : np_n2n_messagepart_t :=
  MsgPart (Chunk.chunk_offset q) (is_forwarded_part q) mac (seq q) (hop_count q) (part_mac_e q) (msg_header q) (part_body q) (Chunk.part_nonce q).

(** The mac in front is read into its own field only. *)
Lemma read_with_mac mac pk : length pk = packet_length -> length mac = 16%nat ->
  exists q, _np_message_deserialize_header_and_instructions pk = Ok q /\
    _np_message_deserialize_header_and_instructions (mac ++ drop 16 pk) = Ok (with_mac mac q).
Proof.
  intros Hl Lm. change packet_length with 1046%nat in Hl. destruct (split_at 16 pk) as (a & r & -> & La); [lia|]. rewrite length_app in Hl.
  rewrite drop_app_length' by done. unfold _np_message_deserialize_header_and_instructions.
  change MSG_INSTRUCTIONS_SIZE with 22. change MSG_MAC_SIZE with 16. change MSG_HEADER_SIZE with 96.
  change chunk_bytes with 900. change MSG_CHUNK_SIZE_1024 with 1024. change MSG_NONCE_SIZE with 12.
  rewrite !slice_front by lia. rewrite !bind_ok. rewrite !(slice_past a), !(slice_past mac) by lia. rewrite La, Lm.
  change (Z.of_nat 16) with 16. rewrite !(slice_ok _ _ r) by lia. rewrite !bind_ok. by eexists.
Qed.

(** Parts one after the other, over the same socket. *)
Definition send_all (session : np_crypto_session_t) (parts : list (list Z * np_n2n_messagepart_t)) (network : option network_t) : result (option network_t) :=
  foldM (fun cp n => __np_node_send_encrypted session n cp.1 cp.2) parts network.

(** What the alias makes of a packet: the part, as it would be read from the packet without
    transport encryption. *)
Definition opened_as (accepted : bool) (alias : np_dhkey_t) (sb : np_crypto_session_t) (chunk : list Z) (p : np_n2n_messagepart_t) (sealed : list Z) : Prop :=
  exists q mac plain, _np_message_deserialize_header_and_instructions (_np_node_build_network_packet chunk p) = Ok q /\
    __np_alias_decrypt accepted alias true sb sealed =
      Ok [hand_over accepted alias (Z.lor evt_external evt_message) alias (To_part (with_mac mac q) plain)] /\
    drop 16 plain = drop 16 (_np_node_build_network_packet chunk p).

Lemma sent_and_opened accepted alias sa sb chunk p n q0 :
  session_key_to_write_is_set sa = true -> session_key_to_read_is_set sb = true -> session_key_to_write sa = session_key_to_read sb ->
  packet_ready chunk p -> out_events n = Some q0 ->
  exists sealed, __np_node_send_encrypted sa (Some n) chunk p = Ok (Some (Network (u32 (seqend n + 1)) (Some (q0 ++ [sealed])))) /\
    length sealed = packet_length /\ opened_as accepted alias sb chunk (set_seq p (seqend n)) sealed.
Proof.
  intros Hw Hr Hk Hp Hq. assert (packet_ready chunk (set_seq p (seqend n))) as Hp' by exact Hp.
  pose proof (packet_has_length _ _ Hp') as Hl. set (pk := _np_node_build_network_packet chunk (set_seq p (seqend n))) in *.
  destruct (seal_open sa sb pk Hl Hk) as (mac & sealed & Hs & Lm & Ls & Ho). destruct (read_with_mac mac pk Hl Lm) as (q & Hq0 & Hq1).
  exists sealed. split; [|split; [done|]].
  - unfold __np_node_send_encrypted. rewrite Hw. cbn [negb numbered]. fold pk. rewrite Hs, bind_ok. cbn [out_events]. rewrite Hq.
    unfold sll_append. cbn [out_events seqend]. by rewrite bind_ok.
  - exists q, mac, (mac ++ drop 16 pk). split; [done|]. split.
    + unfold __np_alias_decrypt. rewrite Hr. cbn [negb]. by rewrite Ho, bind_ok, Hq1, bind_ok.
    + fold pk. by rewrite drop_app_length'.
Qed.

(** C14: What one side of a link sends the other opens.  With a session of both sides whose
    keys fit, every part handed to the sender is queued as one sealed packet, in order,
    under the next number; the alias at the other side opens each of them, whatever was
    opened before, and raises one event for itself with the part as it would be read from
    the packet without encryption, and with the bytes to pass on. *)
Theorem link_carries_parts accepted alias sa sb n q0 parts :
  session_key_to_write_is_set sa = true -> session_key_to_read_is_set sb = true -> session_key_to_write sa = session_key_to_read sb ->
  out_events n = Some q0 -> in_u 32 (seqend n) -> Forall (fun cp => packet_ready cp.1 cp.2) parts ->
  exists sealed, send_all sa parts (Some n) = Ok (Some (Network (u32 (seqend n + Z.of_nat (length parts))) (Some (q0 ++ sealed)))) /\
    length sealed = length parts /\
    forall i chunk p pk, parts !! i = Some (chunk, p) -> sealed !! i = Some pk ->
      length pk = packet_length /\ opened_as accepted alias sb chunk (set_seq p (u32 (seqend n + Z.of_nat i))) pk.
Proof.
  intros Hw Hr Hk Hq Hseq Hp. revert n q0 Hq Hseq. induction Hp as [|[chunk p] parts Hp Hps IH]; intros n q0 Hq Hseq.
  - exists []. split; [|done]. cbn [send_all foldM]. destruct n as [s o]. cbn [seqend out_events] in *. subst o.
    by rewrite Z.add_0_r, u32_id, app_nil_r.
  - destruct (sent_and_opened accepted alias sa sb chunk p n q0 Hw Hr Hk Hp Hq) as (pk & Hs & Hl & Ho).
    destruct (IH (Network (u32 (seqend n + 1)) (Some (q0 ++ [pk]))) (q0 ++ [pk]) eq_refl) as (sealed & Hall & Hlen & Hnth).
    { cbn [seqend]. apply u32_range. }
    assert (forall i : nat, u32 (u32 (seqend n + 1) + Z.of_nat i) = u32 (seqend n + Z.of_nat (S i))) as Hu.
    { intros i. unfold u32. rewrite Zplus_mod_idemp_l. f_equal. lia. }
    cbn [seqend] in Hall, Hnth. exists (pk :: sealed). split_and!.
    + unfold send_all in *. cbn [foldM fst snd]. rewrite Hs, bind_ok, Hall. cbn [length]. by rewrite Hu, <- app_assoc.
    + cbn [length]. by rewrite Hlen.
    + intros [|i] chunk' p' pk' Hpi Hpki; cbn in Hpi, Hpki.
      * injection Hpi as <- <-. injection Hpki as <-. split; [done|]. by rewrite Z.add_0_r, u32_id.
      * destruct (Hnth i chunk' p' pk' Hpi Hpki) as [L O]. split; [done|]. by rewrite Hu in O.
Qed.

(** C15: The sessions of two peers fit.  When each has the handshake token of the other, with
    the key of its interface and its priority, and the priorities differ, both make a
    session: what the one writes with the other reads with, in both directions, and all
    keys are there; or for both the exchange of keys fails, their keys stay what they were, and
    still both nodes take the session for made. *)
Theorem peers_sessions_fit ca cb pa pb la lb ta tb sa sb :
  kx_ready ca -> kx_ready cb -> kx_public ca (crypto ta) -> kx_public cb (crypto tb) ->
  is_block NP_EXTENSION_BYTES la [] (attributes ta) -> is_block NP_EXTENSION_BYTES lb [] (attributes tb) ->
  get_obj (c_string NP_HS_PRIO) la = Some (D_uint pa) -> get_obj (c_string NP_HS_PRIO) lb = Some (D_uint pb) ->
  in_u 32 pa -> in_u 32 pb -> pa <> pb ->
  exists sa' sb', __np_create_session ca pa tb sa = Ok (sa', true) /\ __np_create_session cb pb ta sb = Ok (sb', true) /\
    ((sa' = sa /\ sb' = sb) \/
     (session_key_to_write sa' = session_key_to_read sb' /\ session_key_to_write sb' = session_key_to_read sa' /\
      session_key_to_read_is_set sa' = true /\ session_key_to_write_is_set sa' = true /\
      session_key_to_read_is_set sb' = true /\ session_key_to_write_is_set sb' = true)).
Proof.
  intros Ra Rb Pa Pb Ba Bb Ga Gb Ua Ub Hne.
  assert (forall l t p, is_block NP_EXTENSION_BYTES l [] (attributes t) -> in_u 32 p -> get_obj (c_string NP_HS_PRIO) l = Some (D_uint p) ->
    uint_attribute (attributes t) NP_HS_PRIO = Ok (Some p)) as Hprio.
  { intros l t p Hb Hu Hg. apply (uint_attribute_ok _ _ _ _ _ _ Hb); [apply name_key; vm_compute; reflexivity|done|done]. }
  assert (forall c1 c2 p1 p2 t1 t2 s1 s2, kx_ready c1 -> kx_ready c2 -> kx_public c1 (crypto t1) -> kx_public c2 (crypto t2) ->
    uint_attribute (attributes t1) NP_HS_PRIO = Ok (Some p1) -> uint_attribute (attributes t2) NP_HS_PRIO = Ok (Some p2) -> p1 < p2 ->
    exists s1' s2', __np_create_session c1 p1 t2 s1 = Ok (s1', true) /\ __np_create_session c2 p2 t1 s2 = Ok (s2', true) /\
      ((s1' = s1 /\ s2' = s2) \/
       (session_key_to_write s1' = session_key_to_read s2' /\ session_key_to_write s2' = session_key_to_read s1' /\
        session_key_to_read_is_set s1' = true /\ session_key_to_write_is_set s1' = true /\
        session_key_to_read_is_set s2' = true /\ session_key_to_write_is_set s2' = true))) as Hgen.
  { intros c1 c2 p1 p2 t1 t2 s1 s2 R1 R2 K1 K2 E1 E2 Hlt. unfold __np_create_session. rewrite E1, E2, !bind_ok.
    destruct (Z.ltb_spec p2 p1); [lia|]. destruct (Z.ltb_spec p1 p2); [|lia]. cbn [negb].
    destruct (session_both c2 c1 (crypto t2) (crypto t1) s2 s1 R2 R1 K2 K1) as (ok & s2' & s1' & A2 & A1).
    rewrite A1, A2, !bind_ok. exists s1', s2'. split; [done|]. split; [done|]. destruct ok.
    - right. destruct (session_agrees c2 c1 (crypto t2) (crypto t1) s2 s1 s2' s1' R2 R1 K2 K1 A2 A1) as (B1 & B2 & _).
      split; [done|]. split; [done|]. unfold np_crypto_session in A1, A2.
      repeat (apply bind_Ok_inv in A1 as ([] & _ & A1)). repeat (apply bind_Ok_inv in A2 as ([] & _ & A2)).
      destruct (crypto_kx_server_session_keys _ _ _) as [[r w]|]; [|done]. injection A1 as <-.
      destruct (crypto_kx_client_session_keys _ _ _) as [[r' w']|]; [|done]. injection A2 as <-. done.
    - left. unfold np_crypto_session in A1, A2.
      repeat (apply bind_Ok_inv in A1 as ([] & _ & A1)). repeat (apply bind_Ok_inv in A2 as ([] & _ & A2)).
      destruct (crypto_kx_server_session_keys _ _ _) as [[r w]|]; [done|]. injection A1 as <-.
      destruct (crypto_kx_client_session_keys _ _ _) as [[r' w']|]; [done|]. injection A2 as <-. done. }
  pose proof (Hprio la ta pa Ba Ua Ga) as E1. pose proof (Hprio lb tb pb Bb Ub Gb) as E2.
  destruct (Z.lt_total pa pb) as [Hlt|[?|Hlt]]; [|done|].
  - by apply (Hgen ca cb pa pb ta tb sa sb).
  - destruct (Hgen cb ca pb pa tb ta sb sa) as (sb' & sa' & A & B & C); try done. exists sa', sb'. split; [done|]. split; [done|].
    destruct C as [[-> ->]|(? & ? & ? & ? & ? & ?)]; [by left|by right].
Qed.

(** With the same priority both take the role of the server. *)
Lemma same_priority_two_servers ca pa tb sa lb : is_block NP_EXTENSION_BYTES lb [] (attributes tb) -> in_u 32 pa ->
  get_obj (c_string NP_HS_PRIO) lb = Some (D_uint pa) ->
  __np_create_session ca pa tb sa = ('(_, s) ← np_crypto_session ca sa (crypto tb) true; Ok (s, true)).
Proof.
  intros Bb Ub Gb. unfold __np_create_session.
  rewrite (uint_attribute_ok _ _ _ _ NP_HS_PRIO pa Bb), bind_ok by (done || (apply name_key; vm_compute; reflexivity)).
  by rewrite Z.ltb_irrefl.
Qed.
End Packets.

(** ** Examples *)

#[local] Existing Instance rfc8949.
#[local] Existing Instance toy_sodium.
#[local] Existing Instance whole_doubles.

(** A part of one's own, and one that is passed on. *)
Definition own_part : np_n2n_messagepart_t :=
  MsgPart 0 false [] 0 0 (replicate 16 3) (replicate 96 4) (replicate 900 5) (replicate 12 6).
Definition passed_part : np_n2n_messagepart_t :=
  MsgPart 1 true [] 7 2 (replicate 16 3) (replicate 96 4) (replicate 900 5) (replicate 12 6).
Definition two_parts : list (list Z * np_n2n_messagepart_t) := [(replicate 16 3, own_part); (replicate 1046 9, passed_part)].
Definition writing : np_crypto_session_t := Crypto_session crypto_session_shared true true (replicate 32 1) (replicate 32 2).
Definition reading : np_crypto_session_t := Crypto_session crypto_session_shared true true (replicate 32 2) (replicate 32 1).

(** The number starts again after the last one. *)
Lemma link_carries_parts_witness :
  exists sealed, send_all writing two_parts (Some (Network 4294967295 (Some []))) = Ok (Some (Network 1 (Some ([] ++ sealed)))) /\
    length sealed = 2%nat /\
    forall i chunk p pk, two_parts !! i = Some (chunk, p) -> sealed !! i = Some pk ->
      length pk = packet_length /\ opened_as true (bytes_dhkey (replicate 32 1)) reading chunk (set_seq p (u32 (4294967295 + Z.of_nat i))) pk.
Proof.
  apply (link_carries_parts true (bytes_dhkey (replicate 32 1)) writing reading (Network 4294967295 (Some [])) [] two_parts).
  - reflexivity.
  - reflexivity.
  - reflexivity.
  - reflexivity.
  - by_decide.
  - constructor; [change (packet_ready (replicate 16 3) own_part); cbv [packet_ready own_part is_forwarded_part part_mac_e msg_header part_body Chunk.part_nonce]; rewrite !length_replicate; lia|]. constructor; [apply length_replicate|constructor].
Defined.

Definition handshake_objs (prio : Z) : list obj := [(c_string NP_HS_PRIO, D_uint prio)].
Definition handshake_block (prio : Z) : list Z :=
  DatablockSpec.header_bytes (header_of NP_EXTENSION_BYTES (handshake_objs prio)) ++ objs_bytes (handshake_objs prio) ++
  replicate (Z.to_nat (NP_EXTENSION_BYTES - DATABLOCK_OVERHEAD - objs_size (handshake_objs prio))) 0.
Definition blank_crypto : np_crypto_t := Crypto false false false false [] [] [] [].
Definition node_crypto (x : Z) : np_crypto_t := (np_cryptofactory_by_secret blank_crypto (replicate 32 x)).2.
Definition known_crypto (x : Z) : np_crypto_t := (np_cryptofactory_by_public blank_crypto (ed25519_public_key (node_crypto x))).2.
Definition handshake_of (x prio : Z) : np_aaatoken_t :=
  Aaatoken 0 (replicate 16 x) [] [] (c_string "urn:np:node:x") (c_string "us") 100 100 500 (handshake_block prio) (replicate 64 0) (known_crypto x)
    (replicate 64 x) 0 np_aaatoken_type_handshake np_aaatoken_scope_private true None false false.

Lemma handshake_block_ok prio : prio = 1000 \/ prio = 2000 -> is_block NP_EXTENSION_BYTES (handshake_objs prio) [] (handshake_block prio).
Proof.
  intros Hp. assert (in_u 32 prio) as Hu by (destruct Hp as [-> | ->]; by_decide).
  split; [|apply NoDup_singleton|unfold NP_EXTENSION_BYTES; lia|].
  - constructor; [|constructor]. split; [split; [apply name_key; vm_compute; reflexivity|reflexivity]|].
    split; [exact Hu|]. destruct Hp as [-> | ->]; reflexivity.
  - eexists. split; [unfold handshake_block; by rewrite app_nil_r|]. rewrite length_replicate. destruct Hp as [-> | ->]; vm_compute; reflexivity.
Qed.

Lemma node_crypto_ready x : x = 7 \/ x = 8 -> kx_ready (node_crypto x) /\ kx_public (node_crypto x) (known_crypto x).
Proof. intros [-> | ->]; vm_compute; repeat split. Qed.

(** Here the exchange of keys succeeds. *)
Lemma peers_sessions_fit_witness :
  exists sa' sb', __np_create_session (node_crypto 7) 1000 (handshake_of 8 2000) writing = Ok (sa', true) /\
    __np_create_session (node_crypto 8) 2000 (handshake_of 7 1000) writing = Ok (sb', true) /\
    session_key_to_write sa' = session_key_to_read sb' /\ session_key_to_write sb' = session_key_to_read sa'.
Proof.
  destruct (node_crypto_ready 7) as [R7 P7]; [by left|]. destruct (node_crypto_ready 8) as [R8 P8]; [by right|].
  destruct (peers_sessions_fit (node_crypto 7) (node_crypto 8) 1000 2000 (handshake_objs 1000) (handshake_objs 2000)
    (handshake_of 7 1000) (handshake_of 8 2000) writing writing R7 R8 P7 P8) as (sa' & sb' & Ea & Eb & [[-> ->]|(F1 & F2 & _)]).
  - apply handshake_block_ok. by left.
  - apply handshake_block_ok. by right.
  - reflexivity.
  - reflexivity.
  - by_decide.
  - by_decide.
  - lia.
  - exists writing, writing. exfalso. revert Ea. vm_compute. discriminate.
  - exists sa', sb'. split; [exact Ea|]. split; [exact Eb|]. split; [exact F1|exact F2].
Defined.
