(* ===== verification/Peer.v ===== *)
(** * The life of a peer: the actions of [src/core/np_comp_node.c]

    What the state machine of a key does with a peer: it remembers the node, asks for a
    handshake and for a join, takes its tokens, keeps it in the routing table and the
    leafset or removes it, pings it, tells it of others, and takes leave.  Keys, nodes and
    tokens are objects in a store; the node key and the alias key of a peer share them.
    The time is one for all of an action. *)
From Stdlib Require Import ZArith Lia QArith String.
From stdpp Require Import prelude gmap.
From S2P Require Import Prelude Real Dhkey Sll Rng BloomBase Key Route Pheromones Token KeyStates Crypto Treeval Tree Qcbor Serial Aaatoken TokenFactory Msgproperty Chunk Payload Node Axon Wire.

Local Open Scope Z_scope.

Definition MISC_SEND_PIGGY_REQUESTS_SEC : Q := NP_PI * 20.
(** Neither [INBOUND] nor [OUTBOUND]. *)
Definition WIRE_FORMAT : Z := 0.

(** ** Nodes *)

Definition set_handshake (n : np_node_t) (status : Z) (at_ : Q) : np_node_t :=
  Node (host_key n) (protocol n) (ip_string n) (port n) status at_ (handshake_priority n) (_joined_status n) (join_send_at n)
    (leave_send_at n) (connection_attempts n) (session_key_is_set n) (next_routing_table_update n) (is_in_routing_table n) (is_in_leafset n)
    (stats n) (msg_forward_filter n) (max_messages_per_sec n).
Definition set_join (n : np_node_t) (status : Z) (at_ : Q) : np_node_t :=
  Node (host_key n) (protocol n) (ip_string n) (port n) (_handshake_status n) (handshake_send_at n) (handshake_priority n) status at_
    (leave_send_at n) (connection_attempts n) (session_key_is_set n) (next_routing_table_update n) (is_in_routing_table n) (is_in_leafset n)
    (stats n) (msg_forward_filter n) (max_messages_per_sec n).
Definition one_attempt_more (n : np_node_t) : np_node_t :=
  Node (host_key n) (protocol n) (ip_string n) (port n) (_handshake_status n) (handshake_send_at n) (handshake_priority n) (_joined_status n)
    (join_send_at n) (leave_send_at n) (u8 (connection_attempts n + 1)) (session_key_is_set n) (next_routing_table_update n)
    (is_in_routing_table n) (is_in_leafset n) (stats n) (msg_forward_filter n) (max_messages_per_sec n).
Definition set_leave (n : np_node_t) (at_ : Q) : np_node_t :=
  Node (host_key n) (protocol n) (ip_string n) (port n) (_handshake_status n) (handshake_send_at n) (handshake_priority n) (_joined_status n)
    (join_send_at n) at_ (connection_attempts n) (session_key_is_set n) (next_routing_table_update n) (is_in_routing_table n) (is_in_leafset n)
    (stats n) (msg_forward_filter n) (max_messages_per_sec n).
Definition set_next_update (n : np_node_t) (at_ : Q) : np_node_t :=
  Node (host_key n) (protocol n) (ip_string n) (port n) (_handshake_status n) (handshake_send_at n) (handshake_priority n) (_joined_status n)
    (join_send_at n) (leave_send_at n) (connection_attempts n) (session_key_is_set n) at_ (is_in_routing_table n) (is_in_leafset n)
    (stats n) (msg_forward_filter n) (max_messages_per_sec n).
Definition set_routing (n : np_node_t) (table leafset : bool) : np_node_t :=
  Node (host_key n) (protocol n) (ip_string n) (port n) (_handshake_status n) (handshake_send_at n) (handshake_priority n) (_joined_status n)
    (join_send_at n) (leave_send_at n) (connection_attempts n) (session_key_is_set n) (next_routing_table_update n) table leafset
    (stats n) (msg_forward_filter n) (max_messages_per_sec n).
Definition mark_table (b : bool) (n : np_node_t) : np_node_t := set_routing n b (is_in_leafset n).
Definition mark_leafset (b : bool) (n : np_node_t) : np_node_t := set_routing n (is_in_routing_table n) b.

(** ** The store *)

(** A key with the places of its entities: the handshake token, the full token, the node. *)
Record peer_key := Peer_key {
  pk_dhkey : np_dhkey_t;
  pk_type : Z;
  pk_parent : np_dhkey_t;
  pk_created : Q;
  e_handshake_token : option loc;
  e_aaatoken : option loc;
  e_node : option loc;
}.
Definition set_type (k : peer_key) (t : Z) : peer_key :=
  Peer_key (pk_dhkey k) t (pk_parent k) (pk_created k) (e_handshake_token k) (e_aaatoken k) (e_node k).
Definition set_handshake_token (k : peer_key) (t : loc) : peer_key :=
  Peer_key (pk_dhkey k) (pk_type k) (pk_parent k) (pk_created k) (Some t) (e_aaatoken k) (e_node k).
Definition set_aaatoken (k : peer_key) (t : loc) : peer_key :=
  Peer_key (pk_dhkey k) (pk_type k) (pk_parent k) (pk_created k) (e_handshake_token k) (Some t) (e_node k).
Definition set_node_at (k : peer_key) (n : loc) : peer_key :=
  Peer_key (pk_dhkey k) (pk_type k) (pk_parent k) (pk_created k) (e_handshake_token k) (e_aaatoken k) (Some n).

Record world := World {
  w_keys : gmap key_ptr peer_key;
  w_nodes : gmap loc np_node_t;
  w_tokens : gmap loc np_aaatoken_t;
  w_route : route_t;
  w_trails : pheromones;
}.

Definition get_key (w : world) (p : key_ptr) : result peer_key := match w_keys w !! p with Some k => Ok k | None => Err Bad_access end.
Definition get_node (w : world) (k : peer_key) : result np_node_t :=
  match e_node k with
  | Some l => match w_nodes w !! l with Some n => Ok n | None => Err Bad_access end
  | None => Err Bad_access
  end.
Definition get_token (w : world) (l : option loc) : result np_aaatoken_t :=
  match l with
  | Some l => match w_tokens w !! l with Some t => Ok t | None => Err Bad_access end
  | None => Err Bad_access
  end.
Definition put_key (w : world) (p : key_ptr) (k : peer_key) : world :=
  World (<[p := k]> (w_keys w)) (w_nodes w) (w_tokens w) (w_route w) (w_trails w).
Definition put_route (w : world) (r : route_t) : world := World (w_keys w) (w_nodes w) (w_tokens w) r (w_trails w).
Definition put_trails (w : world) (t : pheromones) : world := World (w_keys w) (w_nodes w) (w_tokens w) (w_route w) t.
(** [node->.. = ..] through the key. *)
Definition upd_node (w : world) (k : peer_key) (f : np_node_t -> np_node_t) : result world :=
  n ← get_node w k;
  Ok (match e_node k with
      | Some l => World (w_keys w) (<[l := f n]> (w_nodes w)) (w_tokens w) (w_route w) (w_trails w)
      | None => w
      end).
Definition upd_token (w : world) (l : option loc) (f : np_aaatoken_t -> np_aaatoken_t) : result world :=
  t ← get_token w l;
  Ok (match l with
      | Some l => World (w_keys w) (w_nodes w) (<[l := f t]> (w_tokens w)) (w_route w) (w_trails w)
      | None => w
      end).

(** The keys as the routing table sees them. *)
Definition routing_node (n : np_node_t) : Key.np_node_t :=
  Key.Node (latency (stats n)) (success_avg (stats n)) (ip_string n) (port n) (_handshake_status n).
Definition routing_key (w : world) (p : key_ptr) : np_key_t :=
  match w_keys w !! p with
  | Some k => Key (pk_dhkey k) (pk_type k) (pk_parent k) (pk_created k) 0 true (routing_node <$> (l ← e_node k; w_nodes w !! l))
  | None => Key dhkey_zero 0 dhkey_zero 0 0 false None
  end.

Section Actions.
Context `{Sodium} `{Qcbor} `{Doubles}.
Context (alloc random : Z -> list Z).
Context (__local_rx_dhkey __local_tx_dhkey my_dhkey : np_dhkey_t).
(** Fuel and seeds of the random choice that lets a trail fade. *)
Context (fuel : nat) (seeds : Z * Z) (now : Q).
(** Whether a key is still referred to when the table gives it up. *)
Context (alive : key_ptr -> bool).
(** The configuration of a subject that is sent to, and the identifier of a new message. *)
Context (conf_of : np_dhkey_t -> option np_msgproperty_conf_t) (uuid_ : list Z).

Abbreviation tweaked := (_np_msgproperty_tweaked_dhkey __local_rx_dhkey __local_tx_dhkey).
Abbreviation property_dhkey := (_np_msgproperty_dhkey __local_rx_dhkey __local_tx_dhkey crypto_generichash).
Abbreviation create_message to subject body := (_np_message_create alloc random (conf_of subject) now uuid_ message_new to subject body).

(** ** Remembering a node *)

Definition __np_node_set_node (w : world) (p : key_ptr) (node : loc) : result world :=
  k ← get_key w p;
  let k := if FLAG_CMP (pk_type k) np_key_type_node then k else set_type k (Z.lor (pk_type k) np_key_type_node) in
  Ok (put_key w p (match e_node k with None => set_node_at k node | Some _ => k end)).

Definition __np_wildcard_set (w : world) (p : key_ptr) (node : loc) : result world :=
  k ← get_key w p;
  let k := set_type k (Z.lor (pk_type k) np_key_type_wildcard) in
  Ok (put_key w p (match e_node k with None => set_node_at k node | Some _ => k end)).

Definition __np_alias_set_node (w : world) (p : key_ptr) (node : loc) : result world :=
  k ← get_key w p;
  match e_node k with
  | None => Ok (put_key w p (set_node_at (set_type k (Z.lor (pk_type k) np_key_type_alias)) node))
  | Some _ => Ok w
  end.

(** What the key cache finds; the node that is made, and where. *)
Context (find_key : np_dhkey_t -> option key_ptr) (new_node : np_node_t) (new_at : loc).

(** A passive peer has contacted this node before: its node is the one of the alias. *)
Definition node_of_passive (w : world) (k : peer_key) (target : np_dhkey_t) (n : np_node_t) : result (world * peer_key * loc) :=
  let made := World (w_keys w) (<[new_at := n]> (w_nodes w)) (w_tokens w) (w_route w) (w_trails w) in
  if FLAG_CMP (protocol n) PASSIVE then
    match find_key target with
    | Some a =>
        ak ← get_key w a;
        match e_node ak with
        | Some l => w ← upd_node w ak (fun x => set_address x (Z.lor (protocol x) (protocol n)) (ip_string x) (port x)); Ok (w, set_node_at k l, l)
        | None => Ok (made, k, new_at)
        end
    | None => Ok (made, k, new_at)
    end
  else Ok (made, k, new_at).

Definition __np_node_set (w : world) (p : key_ptr) (target : np_dhkey_t) (token : loc) : result world :=
  k ← get_key w p;
  let k := if FLAG_CMP (pk_type k) np_key_type_node then k else set_type k (Z.lor (pk_type k) np_key_type_node) in
  node_token ← get_token w (Some token);
  let k := if token_type node_token =? np_aaatoken_type_handshake then set_handshake_token k token else k in
  let k := if token_type node_token =? np_aaatoken_type_node then set_aaatoken k token else k in
  w ← upd_token w (Some token) (fun t => set_state t AAA_VALID);
  made ← _np_node_from_token new_node node_token np_aaatoken_type_handshake;
  match made with
  | None => Ok (put_key w p k)
  | Some n =>
      '(w, k, node) ← node_of_passive w k target n;
      differ ← _np_node_cmp (w_nodes w !! node) (l ← e_node k; w_nodes w !! l);
      k ← (if (differ : bool) then c_assert (bool_decide (e_node k = None));; Ok (set_node_at k node) else Ok k);
      let w := put_key w p k in
      (* handle handshake token after wildcard join *)
      match np_get_connection_string_from (pk_type k) (l ← e_node k; w_nodes w !! l) false with
      | None => Err Bad_access
      | Some tmp_connection_str =>
          match find_key (np_dhkey_create_from_hostport crypto_generichash wildcard_key tmp_connection_str) with
          | Some wc =>
              wk ← get_key w wc;
              wc_node ← get_node w wk;
              match w_nodes w !! node with
              | Some x => Ok (World (w_keys w) (<[node := set_handshake x (_handshake_status wc_node) (handshake_send_at wc_node)]> (w_nodes w))
                                (w_tokens w) (w_route w) (w_trails w))
              | None => Err Bad_access
              end
          | None => Ok w
          end
      end
  end.

(** ** Routing *)

(** [_np_key_get_node (key)->is_in_.. = ..] for a key of the tables. *)
Definition mark (w : world) (p : option key_ptr) (f : np_node_t -> np_node_t) : result world :=
  match p with
  | Some p => k ← get_key w p; upd_node w k f
  | None => Ok w
  end.

Definition exhale (w : world) : result world :=
  t ← _np_pheromone_exhale fuel seeds (Some (w_trails w)); Ok (put_trails w t).

(** What a call left in [added] and [deleted], which were NULL before. *)
Definition added_of (c : option route_change) : option key_ptr := match c with Some ch => added ch | None => None end.
Definition deleted_of (c : option route_change) : option key_ptr := match c with Some ch => deleted ch | None => None end.

Definition __np_node_add_to_leafset (w : world) (p : key_ptr) : result world :=
  k ← get_key w p;
  node ← get_node w k;
  if is_in_leafset node then Ok w
  else
    '(r, ch) ← _np_route_leafset_update (routing_key w) (w_route w) p true;
    w ← (match added_of ch with Some _ => upd_node (put_route w r) k (mark_leafset true) | None => Ok (put_route w r) end);
    mark w (deleted_of ch) (mark_leafset false).

Definition __np_node_remove_from_routing_leafset (w : world) (p : key_ptr) : result world :=
  k ← get_key w p;
  node ← get_node w k;
  if is_in_leafset node then
    '(r, ch) ← _np_route_leafset_update (routing_key w) (w_route w) p false;
    c_assert (bool_decide (added_of ch = None));;
    let w := put_route w r in
    match deleted_of ch with
    | Some _ => w ← exhale w; mark w (deleted_of ch) (mark_leafset false)
    | None => Ok w
    end
  else Ok w.

Definition __np_node_remove_from_routing_table (w : world) (p : key_ptr) : result world :=
  k ← get_key w p;
  node ← get_node w k;
  if is_in_routing_table node then
    '(r, ch) ← _np_route_update (routing_key w) alive (w_route w) p false;
    let w := put_route w r in
    match deleted_of ch with
    | Some _ => w ← exhale w; mark w (deleted_of ch) (mark_table false)
    | None => Ok w
    end
  else Ok w.

Definition __np_node_remove_from_routing (w : world) (p : key_ptr) : result world :=
  w ← __np_node_remove_from_routing_leafset w p;
  __np_node_remove_from_routing_table w p.

(** ** Handshake and join *)

Definition to_peer (subject : list Z) (k : peer_key) (m : message_t) : sending :=
  Sending Run (tweaked OUTBOUND (property_dhkey WIRE_FORMAT subject)) message_out (pk_dhkey k) (To_message m).

(** [*prop->msg_ttl] *)
Definition ttl_after (prop : option np_msgproperty_conf_t) (at_ : Q) : result Q :=
  match prop with Some c => Ok (at_ + msg_ttl c)%Q | None => Err Bad_access end.

Definition __np_node_handle_completion (w : world) (p : key_ptr) : result (world * list sending) :=
  k ← get_key w p;
  node ← get_node w k;
  let hs_dhkey := property_dhkey WIRE_FORMAT _NP_MSG_HANDSHAKE in
  let join_dhkey := property_dhkey WIRE_FORMAT _NP_MSG_JOIN_REQUEST in
  shake ← (if _handshake_status node <? np_node_status_Connected
           then t ← ttl_after (conf_of hs_dhkey) (handshake_send_at node); Ok (Qltb t now) else Ok false);
  if (shake : bool) then
    msg_out ← create_message (pk_dhkey k) hs_dhkey None;
    w ← upd_node w k (fun n => one_attempt_more (set_handshake n np_node_status_Initiated now));
    Ok (w, [to_peer _NP_MSG_HANDSHAKE k msg_out])
  else
    join ← (if session_key_is_set node && (_joined_status node <? np_node_status_Connected)
            then t ← ttl_after (conf_of join_dhkey) (join_send_at node); Ok (Qltb t now) else Ok false);
    if (join : bool) then
      msg_out ← create_message (pk_dhkey k) join_dhkey None;
      w ← upd_node w k (fun n => one_attempt_more (set_join n np_node_status_Initiated now));
      Ok (w, [to_peer _NP_MSG_JOIN_REQUEST k msg_out])
    else Ok (w, []).

Definition authenticated (t : np_aaatoken_t) : np_aaatoken_t := set_state t (Z.lor (Aaatoken.state t) AAA_AUTHENTICATED).
Definition joined (n : np_node_t) : np_node_t := set_join n np_node_status_Connected (join_send_at n).

Definition __np_node_identity_upgrade (w : world) (p : key_ptr) : result (world * list sending) :=
  k ← get_key w p;
  '(w, evs) ← __np_node_handle_completion w p;
  token ← get_token w (e_aaatoken k);
  if FLAG_CMP (token_type token) np_aaatoken_type_node then
    w ← upd_token w (e_aaatoken k) authenticated;
    w ← upd_node w k joined;
    Ok (w, evs)
  else Ok (w, evs).

(** [token]: the one of the event, for the key [target]. *)
Definition __np_node_upgrade (w : world) (p : key_ptr) (target : np_dhkey_t) (token : loc) : result (world * list sending) :=
  k ← get_key w p;
  if FLAG_CMP (pk_type k) np_key_type_alias then
    Ok (match e_aaatoken k with None => put_key w p (set_aaatoken k token) | Some _ => w end, [])
  else
    '(w, evs) ← __np_node_handle_completion w p;
    let k := match e_aaatoken k with None => set_aaatoken k token | Some _ => k end in
    let w := put_key w p k in
    w ← upd_token w (e_aaatoken k) authenticated;
    w ← upd_node w k joined;
    node ← get_node w k;
    if FLAG_CMP (protocol node) PASSIVE then Ok (w, evs)
    else
      hs ← get_token w (e_handshake_token k);
      jrb_data ← add_token np_tree_create _NP_URN_NODE_PREFIX hs;
      let update_dhkey := generated _NP_MSG_UPDATE_REQUEST in
      msg_out ← create_message target update_dhkey (Some jrb_data);
      t ← get_token w (Some token);
      fp ← np_aaatoken_get_fingerprint t false;
      Ok (w, evs ++ [Sending Run (tweaked OUTBOUND update_dhkey) message_out fp (To_message msg_out)]).

Definition __np_node_update_token (w : world) (p : key_ptr) (token : loc) : result (world * list sending) :=
  k ← get_key w p;
  node_token ← get_token w (Some token);
  let k := if (token_type node_token =? np_aaatoken_type_handshake) && bool_decide (e_handshake_token k = None) then set_handshake_token k token else k in
  let k := if (token_type node_token =? np_aaatoken_type_node) && bool_decide (e_aaatoken k = None) then set_aaatoken k token else k in
  let w := put_key w p k in
  w ← upd_token w (Some token) (fun t => set_state t AAA_VALID);
  if pk_type k =? np_key_type_alias then Ok (w, [])
  else
    node ← get_node w k;
    if session_key_is_set node && (_joined_status node <? np_node_status_Connected) then
      msg_out ← create_message (pk_dhkey k) (property_dhkey WIRE_FORMAT _NP_MSG_JOIN_REQUEST) None;
      w ← upd_node w k (fun n => set_join n np_node_status_Connected now);
      Ok (w, [to_peer _NP_MSG_JOIN_REQUEST k msg_out])
    else Ok (w, []).

(** ** The periodic update *)

(** For what the tree of a node needs: the network of a key, and the bits of a float. *)
Context (network_of : key_ptr -> option (list Z * list Z)) (flt_bits : Q -> Z).

(** A connection that is answered and old enough gets into the table. *)
Definition insert_into_table (w : world) (p : key_ptr) (k : peer_key) : result world :=
  node ← get_node w k;
  last_win ← rd (success_win (stats node)) (success_win_index (stats node));
  if negb (is_in_routing_table node) && (last_win =? 1) && Qltb (pk_created k + MISC_SEND_PINGS_SEC) now && negb (FLAG_CMP (protocol node) PASSIVE) then
    '(r, ch) ← _np_route_update (routing_key w) alive (w_route w) p true;
    w ← mark (put_route w r) (added_of ch) (mark_table true);
    mark w (deleted_of ch) (mark_table false)
  else Ok w.

Definition ping_peer (w : world) (k : peer_key) : result (list sending) :=
  node ← get_node w k;
  if Qltb Node.BAD_LINK (success_avg (stats node)) &&
     Qle_bool (last_success (stats node) + MISC_SEND_PINGS_MAX_EVERY_X_SEC * success_avg (stats node)) now then
    let ping_dhkey := generated _NP_MSG_PING_REQUEST in
    msg_out ← create_message (pk_dhkey k) ping_dhkey (Some np_tree_create);
    Ok [Sending Queue (tweaked OUTBOUND ping_dhkey) message_out (pk_dhkey k) (To_message msg_out)]
  else Ok [].

Definition remove_failing (w : world) (p : key_ptr) (k : peer_key) : result world :=
  node ← get_node w k;
  last_win ← rd (success_win (stats node)) (success_win_index (stats node));
  if (last_win =? 0) && is_in_routing_table node && Qle_bool (success_avg (stats node)) GOOD_LINK
  then __np_node_remove_from_routing_table w p else Ok w.

(** A row of the table for the peer, or else two keys on the way to it. *)
Definition known_peers (w : world) (k : peer_key) : result (list key_ptr) :=
  sll_of_keys ← _np_route_row_lookup (routing_key w) (w_route w) (pk_dhkey k);
  match sll_of_keys with
  | [] => _np_route_lookup (routing_key w) (w_route w) (pk_dhkey k) 2
  | _ => Ok sll_of_keys
  end.
Definition described (w : world) (p : key_ptr) : result key_with_node :=
  k ← get_key w p;
  Ok (Key_with_node (_np_dhkey_str sodium_bin2hex (pk_dhkey k)) (match get_node w k with Ok n => Some n | Err _ => None end) (network_of p)).

Definition tell_peer (w : world) (k : peer_key) : result (world * list sending) :=
  node ← get_node w k;
  if Qltb Node.BAD_LINK (success_avg (stats node)) && Qltb (next_routing_table_update node) now then
    sll_of_keys ← known_peers w k;
    evs ← (match sll_of_keys with
           | [] => Ok []
           | _ =>
               let piggy_dhkey := generated _NP_MSG_PIGGY_REQUEST in
               l ← foldM (fun p acc => d ← described w p; Ok (acc ++ [d])) sll_of_keys [];
               '(msg_body, _) ← _np_node_encode_multiple_to_jrb flt_bits np_tree_create l false;
               msg_out ← create_message (pk_dhkey k) piggy_dhkey (Some msg_body);
               Ok [Sending Queue (tweaked OUTBOUND piggy_dhkey) message_out (pk_dhkey k) (To_message msg_out)]
           end);
    w ← upd_node w k (fun n => set_next_update n (now + MISC_SEND_PIGGY_REQUESTS_SEC));
    Ok (w, evs)
  else Ok (w, []).

Definition __np_node_update (w : world) (p : key_ptr) : result (world * list sending) :=
  k ← get_key w p;
  if FLAG_CMP (pk_type k) np_key_type_interface || bool_decide (p = my_key (w_route w)) then Ok (w, [])
  else
    w ← upd_node w k (fun n => set_stats n (update_averages (stats n)));
    node ← get_node w k;
    if Qltb (join_send_at node) (leave_send_at node) then Ok (w, [])
    else
      w ← insert_into_table w p k;
      pings ← ping_peer w k;
      w ← remove_failing w p k;
      '(w, news) ← tell_peer w k;
      Ok (w, pings ++ news).

(** ** Leaving *)

Definition __np_node_send_shutdown (w : world) (p : key_ptr) (event_type : Z) (my_token : np_aaatoken_t) : result (world * list sending) :=
  k ← get_key w p;
  evs ← (if FLAG_CMP event_type evt_internal && FLAG_CMP event_type evt_shutdown then
           jrb_data ← add_token np_tree_create _NP_URN_NODE_PREFIX my_token;
           let leave_dhkey := generated _NP_MSG_LEAVE_REQUEST in
           msg_out ← create_message (pk_dhkey k) leave_dhkey (Some jrb_data);
           Ok [Sending Run (tweaked OUTBOUND leave_dhkey) message_out (pk_dhkey k) (To_message msg_out)]
         else Ok []);
  w ← __np_node_remove_from_routing w p;
  w ← upd_node w k (fun n => set_leave n now);
  Ok (w, evs).

(** The key is given up; its entities keep their places, and lose a reference each. *)
Definition __np_node_destroy (w : world) (p : key_ptr) : result (world * list loc) :=
  k ← get_key w p;
  Ok (put_key w p (set_type k np_key_type_unknown), option_list (e_node k) ++ option_list (e_aaatoken k) ++ option_list (e_handshake_token k)).

Definition __np_wildcard_destroy (w : world) (p : key_ptr) : result (world * list loc) :=
  k ← get_key w p;
  Ok (put_key w p (set_type k (Z.land (pk_type k) (Z.lnot np_key_type_wildcard))), option_list (e_node k)).

(** An alias that is shut down stands for nobody. *)
Definition __np_alias_shutdown (w : world) (p : key_ptr) : result world :=
  k ← get_key w p;
  Ok (put_key w p (Peer_key (pk_dhkey k) np_key_type_unknown dhkey_zero (pk_created k) (e_handshake_token k) (e_aaatoken k) (e_node k))).
Definition __np_alias_destroy (w : world) (p : key_ptr) : result (world * list loc) :=
  k ← get_key w p;
  Ok (put_key w p (set_type k np_key_type_unknown), option_list (e_handshake_token k) ++ option_list (e_aaatoken k) ++ option_list (e_node k)).
End Actions.
