(* ===== verification/PeerThms.v ===== *)
(** * The life of a peer: theorems

    Requests for a handshake or a join are sent when they are due, no closer than the
    lifetime of their messages; the flags of the nodes follow the routing table and the
    leafset through every action; who leaves is gone. *)
From Stdlib Require Import ZArith Lia QArith Lqa String Sorted.
From stdpp Require Import prelude gmap relations sorting.
From S2P Require Import Prelude Real Dhkey Sll Rng BloomBase Key KeySort Route RouteTable RouteLeafset Pheromones Token KeyStates Crypto Treeval Tree Qcbor Serial Aaatoken AaatokenSpec TokenFactory Msgproperty MsgpropertyThms Chunk ChunkThms Payload PayloadThms Node NodeThms Axon Peer.

Local Open Scope Z_scope.

(** ** Handshake and join *)

Section Requests.
Context `{Sodium} `{Qcbor} `{Doubles}.
Context (alloc random : Z -> list Z).
Hypothesis Hal : forall n, 0 <= n -> length (alloc n) = Z.to_nat n.

(** A message without a body is a header in fresh memory. *)
Lemma create_blank conf now uuid_ to subject ttl : ttl_of conf = Ok ttl -> length uuid_ = 16%nat -> dhkey_wf to -> dhkey_wf subject ->
  exists m, _np_message_create alloc random conf now uuid_ message_new to subject None = Ok m /\
    header (binary m) = header_bytes subject to uuid_ now ttl 1 (flags_of conf).
Proof.
  intros Ht Hu Hto Hs. unfold _np_message_create. rewrite bool_decide_true by done. change (c_assert true) with (Ok tt). rewrite bind_ok.
  change (message_length 0) with 124.
  assert (realloc alloc (binary_message (binary message_new)) 124 = alloc 124) as ->
    by (unfold realloc; cbn [message_new binary Chunk._np_message_t_new binary_message]; by rewrite take_nil).
  pose proof (Hal 124 ltac:(lia)) as La. set (mem := alloc 124) in *. clearbody mem. change (Z.to_nat 124) with 124%nat in La.
  destruct (split_at 12 mem) as (no & r1 & -> & L1); [lia|]. rewrite length_app in La.
  destruct (split_at 16 r1) as (mc & hd & -> & L2); [lia|]. rewrite length_app in La.
  assert (length hd = 96%nat) as L3 by lia. rewrite <- (app_nil_r hd).
  erewrite set_header_pointer_parts; [|exact L1|exact L2|exact L3|reflexivity]. rewrite bind_ok, Ht, bind_ok.
  rewrite (app_assoc no mc), write_header_parts by (rewrite ?length_app, ?dhkey_bytes_length; lia || done).
  set (h6 := peek 92 2 hd). assert (length h6 = 2%nat) as L6 by (unfold h6, peek; rewrite length_take, length_drop; lia).
  change 1 with (Z.of_nat 1) at 1. cbn [fst snd]. rewrite set_parts_parts by (rewrite ?length_app, ?le_bytes_length, ?dhkey_bytes_length; (done || lia || reflexivity)).
  change (Z.of_nat 1) with 1. fold (header_bytes subject to uuid_ now ttl 1 (flags_of conf)).
  erewrite (set_header_pointer_parts _ no mc (header_bytes subject to uuid_ now ttl 1 (flags_of conf)) []); [|exact L1|exact L2| |cbn; by rewrite <- !app_assoc].
  - rewrite bind_ok. by eexists.
  - by apply letter_header_length.
Qed.
Context (rx tx : np_dhkey_t) (conf_of : np_dhkey_t -> option np_msgproperty_conf_t).

(** What a peer is asked for, and when that was done last. *)
Inductive request := Handshake_request | Join_request.
#[local] Instance request_dec : EqDecision request.
Proof. solve_decision. Defined.
Definition subject_of (x : request) : list Z := match x with Handshake_request => _NP_MSG_HANDSHAKE | Join_request => _NP_MSG_JOIN_REQUEST end.
Definition asked_at (x : request) (n : np_node_t) : Q := match x with Handshake_request => handshake_send_at n | Join_request => join_send_at n end.
Definition wanted (x : request) (n : np_node_t) : bool :=
  match x with
  | Handshake_request => _handshake_status n <? np_node_status_Connected
  | Join_request => session_key_is_set n && (_joined_status n <? np_node_status_Connected)
  end.
Definition wire_dhkey (x : request) : np_dhkey_t := _np_msgproperty_dhkey rx tx crypto_generichash WIRE_FORMAT (subject_of x).
Definition asked (x : request) (now : Q) (n : np_node_t) : np_node_t :=
  one_attempt_more (match x with
                    | Handshake_request => set_handshake n np_node_status_Initiated now
                    | Join_request => set_join n np_node_status_Initiated now
                    end).

(** The subjects of both are known, with a time to live. *)
Context (ttl : request -> Q).
Hypothesis Hconf : forall x, exists c t, conf_of (wire_dhkey x) = Some c /\ msg_ttl c = ttl x /\ ttl_of (Some c) = Ok t.
Hypothesis Httl : forall x, (0 <= ttl x)%Q.

Definition due (x : request) (n : np_node_t) (now : Q) : bool := wanted x n && Qltb (asked_at x n + ttl x) now.
Definition next_request (n : np_node_t) (now : Q) : option request :=
  if due Handshake_request n now then Some Handshake_request else if due Join_request n now then Some Join_request else None.

Definition with_node (w : world) (l : loc) (n : np_node_t) : world := World (w_keys w) (<[l := n]> (w_nodes w)) (w_tokens w) (w_route w) (w_trails w).

Lemma wire_dhkey_wf x : dhkey_wf (wire_dhkey x).
Proof.
  unfold wire_dhkey, _np_msgproperty_dhkey. change (WIRE_FORMAT =? INBOUND) with false. change (WIRE_FORMAT =? OUTBOUND) with false.
  apply (generate_hash_bytes crypto_generichash). intros d. split; [apply generichash_length|apply generichash_bytes].
Qed.

(** The node of a key that is there, and replaced. *)
Lemma get_node_ok w k n : get_node w k = Ok n <-> exists l, e_node k = Some l /\ w_nodes w !! l = Some n.
Proof.
  unfold get_node. destruct (e_node k) as [l|]; [destruct (w_nodes w !! l) as [n'|] eqn:E|].
  - split; [intros [= <-]; by exists l|]. intros (l' & [= <-] & E'). rewrite E in E'. by injection E' as ->.
  - split; [done|]. intros (l' & [= <-] & E'). by rewrite E in E'.
  - split; [done|]. by intros (l' & ? & _).
Qed.
Lemma upd_node_ok w k n f l : e_node k = Some l -> w_nodes w !! l = Some n -> upd_node w k f = Ok (with_node w l (f n)).
Proof. intros El En. unfold upd_node. rewrite (proj2 (get_node_ok w k n)) by (by exists l). rewrite bind_ok. by rewrite El. Qed.

(** One call: the request that is due, handshakes first, or nothing. *)
Lemma completion_step now uuid_ w p k l n : length uuid_ = 16%nat -> w_keys w !! p = Some k -> dhkey_wf (pk_dhkey k) -> e_node k = Some l -> w_nodes w !! l = Some n ->
  match next_request n now with
  | Some x => exists m, __np_node_handle_completion alloc random rx tx now conf_of uuid_ w p =
      Ok (with_node w l (asked x now n), [to_peer rx tx (subject_of x) k m])
  | None => __np_node_handle_completion alloc random rx tx now conf_of uuid_ w p = Ok (w, [])
  end.
Proof.
  intros Hu Hp Hk El En. unfold __np_node_handle_completion, get_key. rewrite Hp, bind_ok.
  rewrite (proj2 (get_node_ok w k n)) by (by exists l). rewrite bind_ok.
  assert (forall x, exists m, _np_message_create alloc random (conf_of (wire_dhkey x)) now uuid_ message_new (pk_dhkey k) (wire_dhkey x) None = Ok m) as Hmsg.
  { intros x. destruct (Hconf x) as (c & t & -> & _ & Ht). destruct (create_blank (Some c) now uuid_ (pk_dhkey k) (wire_dhkey x) t Ht Hu Hk (wire_dhkey_wf x)) as (m & E & _). by exists m. }
  assert (forall x, ttl_after (conf_of (wire_dhkey x)) (asked_at x n) = Ok (asked_at x n + ttl x)%Q) as Hafter.
  { intros x. destruct (Hconf x) as (c & t & -> & Ht & _). unfold ttl_after. by rewrite Ht. }
  pose proof (Hmsg Handshake_request) as [mh Eh]. pose proof (Hmsg Join_request) as [mj Ej].
  pose proof (Hafter Handshake_request) as Ah. pose proof (Hafter Join_request) as Aj.
  unfold wire_dhkey in Eh, Ej, Ah, Aj. cbn [subject_of asked_at] in Eh, Ej, Ah, Aj.
  unfold next_request, due. cbn [wanted asked_at]. cbv zeta. rewrite Ah, Aj, Eh, Ej.
  assert (forall (b : bool) (t : Q), (if b then t ← Ok t; Ok (Qltb t now) else Ok false) = Ok (b && Qltb t now)) as Hif by (by intros [] t).
  rewrite !Hif, bind_ok.
  destruct (_ && _) eqn:Dh.
  - rewrite bind_ok, (upd_node_ok w k n _ l), bind_ok by done. by exists mh.
  - rewrite bind_ok. destruct (session_key_is_set n && _ && Qltb _ _) eqn:Dj; [|done]. rewrite bind_ok, (upd_node_ok w k n _ l), bind_ok by done. by exists mj.
Qed.

(** Calls at the given times, each with the identifier of the message it would send. *)
Fixpoint completions (calls : list (Q * list Z)) (w : world) (p : key_ptr) : result (world * list (Q * sending)) :=
  match calls with
  | [] => Ok (w, [])
  | (now, uuid_) :: calls =>
      '(w, evs) ← __np_node_handle_completion alloc random rx tx now conf_of uuid_ w p;
      '(w, log) ← completions calls w p;
      Ok (w, map (pair now) evs ++ log)
  end.
Definition times (x : request) (log : list (Q * sending)) (kinds : list request) : list Q :=
  omap (fun '(e, y) => if decide (y = x) then Some e.1 else None) (zip log kinds).

Lemma asked_wanted x y now n : wanted y n = true -> wanted x (asked y now n) = wanted x n.
Proof. destruct x, y; cbn; intros E; try done. by apply andb_true_iff in E as [-> ->]. Qed.
Lemma asked_time x y now n : asked_at x (asked y now n) = if decide (y = x) then now else asked_at x n.
Proof. by destruct x, y. Qed.
Lemma next_due n now x : next_request n now = Some x -> wanted x n = true /\ (asked_at x n + ttl x < now)%Q.
Proof.
  unfold next_request. destruct (due Handshake_request n now) eqn:Eh; [|destruct (due Join_request n now) eqn:Ej]; intros [= <-].
  - unfold due in Eh. apply andb_true_iff in Eh as [? Hq]. by apply Qltb_lt in Hq.
  - unfold due in Ej. apply andb_true_iff in Ej as [? Hq]. by apply Qltb_lt in Hq.
Qed.
Lemma not_due n now x : wanted x n = true -> next_request n now = None \/ (exists y, next_request n now = Some y /\ y <> x) ->
  (now <= asked_at x n + ttl x)%Q \/ (x = Join_request /\ next_request n now = Some Handshake_request).
Proof.
  unfold next_request, due. intros Hw Hn. destruct x; cbn [wanted asked_at] in *.
  - rewrite Hw in Hn. cbn [andb] in Hn. destruct (Qltb _ now) eqn:E; [|left; by apply Qltb_ge in E].
    destruct Hn as [|(y & [= <-] & ?)]; done.
  - rewrite Hw in *. cbn [andb] in *. destruct (_ && Qltb _ now); [by right|]. destruct (Qltb _ now) eqn:E; [|left; by apply Qltb_ge in E].
    destruct Hn as [|(y & [= <-] & ?)]; done.
Qed.

Lemma later_sorted x a b l : (a + ttl x < b)%Q -> StronglySorted (fun a b => a + ttl x < b)%Q (b :: l) ->
  StronglySorted (fun a b => a + ttl x < b)%Q (a :: b :: l).
Proof.
  intros Hab Hs. constructor; [done|]. apply StronglySorted_inv in Hs as [_ Hb]. constructor; [done|].
  eapply Forall_impl; [exact Hb|]. intros c Hc. cbn in *. specialize (Httl x). lra.
Qed.

(** C16: Requests to connect are spaced and not forgotten.  However often the action runs,
    it returns, and sends the peer at most one message each time: a request for a handshake
    or for a join.  Two requests of one kind are further apart than the time to live of their
    messages, and no call falls more than that after the last one without being answered by a
    request, as long as the connection lacks what the request is for; handshakes go first.  The
    attempts are counted, modulo 256. *)
Theorem requests_spaced calls w p k l n :
  Forall (fun c => length c.2 = 16%nat) calls -> w_keys w !! p = Some k -> dhkey_wf (pk_dhkey k) -> e_node k = Some l -> w_nodes w !! l = Some n ->
  in_u 8 (connection_attempts n) ->
  exists n' log kinds, completions calls w p = Ok (with_node w l n', log) /\
    Forall2 (fun e x => exists m, e.2 = to_peer rx tx (subject_of x) k m) log kinds /\
    (forall x, StronglySorted (fun a b => a + ttl x < b)%Q (asked_at x n :: times x log kinds)) /\
    (forall x now, now ∈ map fst calls -> wanted x n = true ->
       (exists s, s ∈ asked_at x n :: times x log kinds /\ (now <= s + ttl x)%Q) \/ (x = Join_request /\ now ∈ times Handshake_request log kinds)) /\
    connection_attempts n' = u8 (connection_attempts n + Z.of_nat (length log)).
Proof.
  intros Hu Hp Hk El. revert w n Hp. induction Hu as [|[now uuid_] calls Hu Hus IH]; intros w n Hp En Ha.
  - exists n, [], []. split; [unfold with_node; rewrite insert_id by done; by destruct w|]. split; [done|].
    split; [intros x; by repeat constructor|]. split; [by intros x now Hn%elem_of_nil|]. cbn. by rewrite Z.add_0_r, u8_id.
  - pose proof (completion_step now uuid_ w p k l n Hu Hp Hk El En) as Hs. cbn [completions].
    destruct (next_request n now) as [y|] eqn:Ey.
    + destruct Hs as [m ->]. rewrite bind_ok. destruct (next_due n now y Ey) as [Hy Hlt].
      destruct (IH (with_node w l (asked y now n)) (asked y now n)) as (n' & log & kinds & -> & HF & Hsort & Hcov & Hatt); [done|by apply lookup_insert_eq| |].
      { destruct y; apply u8_range. }
      rewrite bind_ok. exists n', ((now, to_peer rx tx (subject_of y) k m) :: log), (y :: kinds).
      assert (forall x, times x ((now, to_peer rx tx (subject_of y) k m) :: log) (y :: kinds) = (if decide (y = x) then [now] else []) ++ times x log kinds) as Et
        by (intros x; unfold times; cbn [zip zip_with omap list_omap fst]; by destruct (decide (y = x))).
      split; [cbn; unfold with_node; cbn; by rewrite insert_insert_eq|]. split; [constructor; [by exists m|done]|]. split; [|split].
      * intros x. rewrite Et. specialize (Hsort x). rewrite asked_time in Hsort. destruct (decide (y = x)) as [->|]; [|done].
        by apply later_sorted.
      * intros x t Ht Hw. rewrite Et. cbn [map fst] in Ht. apply elem_of_cons in Ht as [->|Ht].
        -- destruct (decide (y = x)) as [->|Hne].
           ++ left. exists now. split; [right; by left|]. specialize (Httl x). lra.
           ++ destruct (not_due n now x Hw) as [Hle|[-> Ey']]; [right; by exists y|left; exists (asked_at x n); split; [by left|done]|].
              right. split; [done|]. rewrite Ey in Ey'. injection Ey' as ->. rewrite Et, decide_True by done. by left.
        -- destruct (Hcov x t Ht) as [(s & Hin & Hle)|[-> Hin]].
           ++ by rewrite asked_wanted.
           ++ left. exists s. split; [|done]. rewrite asked_time in Hin. destruct (decide (y = x)); [by right|done].
           ++ right. split; [done|]. rewrite Et. apply elem_of_app. by right.
      * rewrite Hatt. destruct y; cbn [asked one_attempt_more set_handshake set_join connection_attempts length]; unfold u8;
          rewrite Zplus_mod_idemp_l; f_equal; lia.
    + rewrite Hs, bind_ok. destruct (IH w n Hp En Ha) as (n' & log & kinds & -> & HF & Hsort & Hcov & Hatt). rewrite bind_ok.
      exists n', log, kinds. split; [done|]. split; [done|]. split; [done|]. split; [|done].
      intros x t Ht Hw. cbn [map fst] in Ht. apply elem_of_cons in Ht as [->|Ht]; [|by apply Hcov].
      destruct (not_due n now x Hw) as [Hle|[_ ?]]; [by left| |congruence]. left. exists (asked_at x n). split; [by left|done].
Qed.
End Requests.

(** ** The flags of the nodes *)

(** What routing depends on: the hash of a key, whether it stands for a node, which one. *)
Definition core (k : peer_key) : np_dhkey_t * bool * option loc := (pk_dhkey k, FLAG_CMP (pk_type k) np_key_type_node, e_node k).
Definition marks (n : np_node_t) : bool * bool := (is_in_routing_table n, is_in_leafset n).

(** A key of a peer: with its node. *)
Definition peer (w : world) (p : key_ptr) (l : loc) (n : np_node_t) : Prop :=
  exists k, w_keys w !! p = Some k /\ FLAG_CMP (pk_type k) np_key_type_node = true /\ e_node k = Some l /\ w_nodes w !! l = Some n.

Definition in_table (r : route_t) (p : key_ptr) : Prop := Some p ∈ table r.
Definition in_leafset (r : route_t) (p : key_ptr) : Prop := p ∈ left_leafset r ++ right_leafset r.

(** No key is twice in the table. *)
Definition once (t : list (option key_ptr)) : Prop := forall i j p, t !! i = Some (Some p) -> t !! j = Some (Some p) -> i = j.

(** One key object for each hash, and one node for each of them; keys of the tables have one. *)
Record keys_good (w : world) : Prop := {
  good_hash : forall p k, w_keys w !! p = Some k -> dhkey_wf (pk_dhkey k);
  one_key : forall p q kp kq, w_keys w !! p = Some kp -> w_keys w !! q = Some kq -> pk_dhkey kp = pk_dhkey kq -> p = q;
  one_node : forall p q l n m, peer w p l n -> peer w q l m -> p = q;
}.

(** The table has the keys of [T], the leafset those of [L], and the flags say so. *)
Definition flagged (w : world) (T L : key_ptr -> Prop) : Prop :=
  forall p l n, peer w p l n -> (is_in_routing_table n = true <-> T p) /\ (is_in_leafset n = true <-> L p).

Record routed (w : world) : Prop := {
  routed_keys : keys_good w;
  routed_table : table_wf (routing_key w) (w_route w);
  routed_once : once (table (w_route w));
  routed_leafset : leafset_wf (routing_key w) (w_route w);
  routed_peers : forall p, in_table (w_route w) p \/ in_leafset (w_route w) p -> exists l n, peer w p l n;
  routed_flags : flagged w (in_table (w_route w)) (in_leafset (w_route w));
}.

(** The hashes do not depend on anything else. *)
Lemma routing_key_hash w p : dhkey (routing_key w p) = match w_keys w !! p with Some k => pk_dhkey k | None => dhkey_zero end.
Proof. unfold routing_key. by destruct (w_keys w !! p). Qed.
Lemma routing_keys_wf w : keys_good w -> keys_wf (routing_key w).
Proof.
  intros G p. rewrite routing_key_hash. destruct (w_keys w !! p) as [k|] eqn:E; [by eapply good_hash|]. by_decide.
Qed.

Section Hashes.
Context (K K' : key_ptr -> np_key_t) (HE : forall p, dhkey (K' p) = dhkey (K p)).

Lemma table_wf_hash r : table_wf K r -> table_wf K' r.
Proof using HE.
  intros [H1 H2 H3 H4]. split; [done| |done|done]. intros idx p Hp. destruct (H2 idx p Hp) as (Hne & b & k & Hb & Hk).
  rewrite !HE. split; [done|]. exists b, k. split; [|done]. rewrite <- Hb. unfold bucket_of, row_of. by rewrite HE.
Qed.
Lemma leafset_wf_hash r : leafset_wf K r -> leafset_wf K' r.
Proof using HE.
  assert (forall h l, StronglySorted (rank_le (kd_rank K h)) l -> StronglySorted (rank_le (kd_rank K' h)) l) as Hsort.
  { intros h l Hs. induction Hs as [|x l Hs IH Hx]; constructor; [done|]. eapply Forall_impl; [exact Hx|]. intros y.
    unfold rank_le, kd_rank. by rewrite !HE. }
  assert (forall p, right_half K' r p = right_half K r p) as Hhalf by (intros p; unfold right_half; by rewrite !HE).
  assert (forall l h, range_of K' l h = range_of K l h) as Hrange by (intros l h; unfold range_of; by destruct (last l)).
  intros [H1 H2 H3 H4 H5 H6 H7 H8 H9 H10 H11 H12 H13]. split; rewrite ?HE, ?Hrange; auto.
  - eapply Forall_impl; [exact H5|]. intros p. by rewrite Hhalf.
  - eapply Forall_impl; [exact H6|]. intros p. by rewrite Hhalf.
  - eapply Forall_impl; [exact H7|]. intros p. by rewrite HE.
  - erewrite map_ext; [exact H8|]. exact HE.
Qed.
End Hashes.

(** A change that routing does not notice. *)
Record quiet (w w' : world) : Prop := {
  quiet_route : w_route w' = w_route w;
  quiet_keys : forall p, core <$> (w_keys w' !! p) = core <$> (w_keys w !! p);
  quiet_nodes : forall l, marks <$> (w_nodes w' !! l) = marks <$> (w_nodes w !! l);
}.
#[export] Instance quiet_preorder : PreOrder quiet.
Proof.
  split; [by split|]. intros a b c [A1 A2 A3] [B1 B2 B3]. split; [congruence|intros p; by rewrite B2|intros l; by rewrite B3].
Qed.
#[export] Instance quiet_symmetric : Symmetric quiet.
Proof. by intros a b [A1 A2 A3]. Qed.

Lemma quiet_key w w' p k : quiet w w' -> w_keys w' !! p = Some k -> exists k0, w_keys w !! p = Some k0 /\ core k = core k0.
Proof.
  intros Q Hk. pose proof (quiet_keys _ _ Q p) as E. rewrite Hk in E. destruct (w_keys w !! p) as [k0|]; [|done].
  injection E as E1 E2 E3. exists k0. split; [done|]. unfold core. congruence.
Qed.
Lemma quiet_peer w w' p l n : quiet w w' -> peer w' p l n -> exists n0, peer w p l n0 /\ marks n = marks n0.
Proof.
  intros Q (k & Hk & Ht & El & En). destruct (quiet_key w w' p k Q Hk) as (k0 & Hk0 & [= E1 E2 E3]).
  pose proof (quiet_nodes _ _ Q l) as E. rewrite En in E. destruct (w_nodes w !! l) as [n0|] eqn:En0; [|done]. injection E as E4 E5.
  exists n0. split; [|unfold marks; congruence]. exists k0. split; [done|]. split; [congruence|]. split; [congruence|done].
Qed.

Lemma routed_quiet w w' : quiet w w' -> routed w -> routed w'.
Proof.
  intros Q [[G1 G2 G3] RT RO RL RP RF]. pose proof (quiet_route _ _ Q) as Er.
  assert (forall p, dhkey (routing_key w' p) = dhkey (routing_key w p)) as Hh.
  { intros p. rewrite !routing_key_hash. pose proof (quiet_keys _ _ Q p) as E. destruct (w_keys w' !! p), (w_keys w !! p); try done. by injection E. }
  split; [split| | | | |]; rewrite ?Er.
  - intros p k Hk. destruct (quiet_key w w' p k Q Hk) as (k0 & Hk0 & [= -> _ _]). by eapply G1.
  - intros p q kp kq Hp Hq E. destruct (quiet_key w w' p kp Q Hp) as (p0 & Hp0 & [= Ep _ _]).
    destruct (quiet_key w w' q kq Q Hq) as (q0 & Hq0 & [= Eq _ _]). eapply G2; [done..|congruence].
  - intros p q l n m Hp Hq. destruct (quiet_peer w w' p l n Q Hp) as (n0 & Hp0 & _). destruct (quiet_peer w w' q l m Q Hq) as (m0 & Hq0 & _). by eapply G3.
  - by eapply table_wf_hash.
  - done.
  - by eapply leafset_wf_hash.
  - intros p Hp. destruct (RP p Hp) as (l & n & Hpe). destruct (quiet_peer w' w p l n (symmetry Q) Hpe) as (n' & H' & _). by exists l, n'.
  - intros p l n Hp. destruct (quiet_peer w w' p l n Q Hp) as (n0 & Hp0 & [= -> ->]). by apply (RF p l).
Qed.

(** ** Membership *)

Lemma written_iff t i e0 e q : once t -> t !! i = Some e0 ->
  Some q ∈ <[i := e]> t <-> (Some q ∈ t /\ e0 <> Some q) \/ e = Some q.
Proof.
  intros Ho Hi. pose proof (lookup_lt_Some _ _ _ Hi) as Hlt. split.
  - intros [j Hj]%list_elem_of_lookup_1. destruct (decide (i = j)) as [->|Hne].
    + rewrite list_lookup_insert_eq in Hj by done. injection Hj as ->. by right.
    + rewrite list_lookup_insert_ne in Hj by done. left. split; [by eapply list_elem_of_lookup_2|]. intros ->. by apply Hne, (Ho i j q).
  - intros [[[j Hj]%list_elem_of_lookup_1 Hne]| ->].
    + apply (list_elem_of_lookup_2 _ j). rewrite list_lookup_insert_ne; [done|]. intros ->. rewrite Hi in Hj. by injection Hj.
    + apply (list_elem_of_lookup_2 _ i). by apply list_lookup_insert_eq.
Qed.
Lemma written_once t i e : once t -> (forall q, e = Some q -> Some q ∉ t) -> once (<[i := e]> t).
Proof.
  intros Ho He a b q Ha Hb. destruct (decide (i < length t)%nat) as [Hlt|]; [|rewrite list_insert_ge in Ha, Hb by lia; by eapply Ho].
  destruct (decide (i = a)) as [<-|Ea], (decide (i = b)) as [<-|Eb]; [done| | |].
  - rewrite list_lookup_insert_eq in Ha by done. injection Ha as ->. rewrite list_lookup_insert_ne in Hb by done.
    destruct (He q eq_refl). by eapply list_elem_of_lookup_2.
  - rewrite list_lookup_insert_eq in Hb by done. injection Hb as ->. rewrite list_lookup_insert_ne in Ha by done.
    destruct (He q eq_refl). by eapply list_elem_of_lookup_2.
  - rewrite list_lookup_insert_ne in Ha, Hb by done. by eapply Ho.
Qed.

(** What an update of the table does to its members. *)
Lemma update_members K r r' key b joined d a : once (table r) -> 0 <= b -> table_wf K r -> bucket_of K r (dhkey (K key)) = Ok b ->
  (forall p, Some p ∈ table r -> dhkey (K p) = dhkey (K key) -> p = key) -> (joined = true -> ~ in_table r key) ->
  update_contract K r r' key b joined d a ->
  once (table r') /\ (forall q, in_table r' q <-> (in_table r q /\ d <> Some q) \/ a = Some q) /\
  (a = None \/ a = Some key) /\ (forall q, d = Some q -> in_table r q /\ a <> Some q) /\ (joined = false -> ~ in_table r' key).
Proof.
  intros Ho Hb Hwf Hbk Hu Hj Hc. unfold in_table in *. assert (forall n e, bucket (table r) b !! n = Some e -> table r !! Z.to_nat (b + Z.of_nat n) = Some e) as Hin
    by (intros n e Hn; by apply bucket_lookup).
  destruct joined, d as [d|], a as [a|]; cbn in Hc; try done.
  - destruct Hc as (-> & n & Hn & _ & _ & _ & ->). specialize (Hin _ _ Hn). split_and!.
    + apply written_once; [done|]. intros q [= <-]. by apply Hj.
    + intros q. rewrite (written_iff _ _ _ _ _ Ho Hin). done.
    + by right.
    + intros q [= <-]. split; [by eapply list_elem_of_lookup_2|]. intros [= ->]. apply Hj; [done|by eapply list_elem_of_lookup_2].
    + done.
  - destruct Hc as (-> & n & Hn & _ & ->). specialize (Hin _ _ Hn). split_and!; [| |by right|done|done].
    + apply written_once; [done|]. intros q [= <-]. by apply Hj.
    + intros q. rewrite (written_iff _ _ _ _ _ Ho Hin). naive_solver.
  - destruct Hc as [-> _]. split_and!; [done|naive_solver|by left|done|done].
  - destruct Hc as (-> & n & p & Hn & Hp & _ & ->). specialize (Hin _ _ Hn).
    assert (p = key) as -> by (apply Hu; [by eapply list_elem_of_lookup_2|done]). split_and!.
    + by apply written_once.
    + intros q. rewrite (written_iff _ _ _ _ _ Ho Hin). naive_solver.
    + by left.
    + intros q [= <-]. split; [by eapply list_elem_of_lookup_2|done].
    + intros _. rewrite (written_iff _ _ _ _ _ Ho Hin). naive_solver.
  - destruct Hc as [-> Habs]. split_and!; [done|naive_solver|by left|done|]. intros _ Hk.
    apply list_elem_of_lookup_1 in Hk as [idx Hidx]. destruct (table_place K r Hwf idx key Hidx) as (_ & b' & k & Hb' & Hk & Ek).
    rewrite Hbk in Hb'. injection Hb' as <-. assert (bucket (table r) b !! Z.to_nat k = Some (Some key)) as Hlk.
    { unfold bucket. rewrite lookup_take_lt by lia. rewrite lookup_drop. rewrite <- Hidx. f_equal. lia. }
    rewrite Forall_forall in Habs. destruct (Habs (Some key)) as [?|(q & [= <-] & Hq)]; [by eapply list_elem_of_lookup_2|done|done].
Qed.

(** ... and an update of the leafset to its members. *)
Lemma leafset_nodup K r : leafset_wf K r -> NoDup (left_leafset r ++ right_leafset r).
Proof. intros Hwf. apply (NoDup_fmap_1 (fun p => dhkey (K p))). exact (leaf_nodup K r Hwf). Qed.
Lemma leaf_sides side r : left_leafset r ++ right_leafset r ≡ₚ leaf_side side r ++ leaf_side (negb side) r.
Proof. destruct side; cbn; [apply Permutation_app_comm|done]. Qed.
Lemma elem_sides side r q : in_leafset r q <-> q ∈ leaf_side side r \/ q ∈ leaf_side (negb side) r.
Proof. unfold in_leafset. rewrite (leaf_sides side r). apply elem_of_app. Qed.

Lemma join_members K r r' p ch : leafset_wf K r -> leafset_wf K r' -> join_contract K r r' p ch ->
  Forall (fun q => dhkey (K q) <> dhkey (K p)) (left_leafset r ++ right_leafset r) ->
  (forall q, in_leafset r' q <-> (in_leafset r q /\ deleted ch <> Some q) \/ added ch = Some q) /\
  (added ch = None \/ added ch = Some p) /\ (forall q, deleted ch = Some q -> in_leafset r q /\ added ch <> Some q).
Proof.
  intros Hwf Hwf' [Eo Hc] Hnew. set (s := right_half K r p) in *.
  assert (p ∉ left_leafset r ++ right_leafset r) as Hp by (intros Hp; rewrite Forall_forall in Hnew; by apply (Hnew p Hp)).
  destruct ch as [[d|] [a|]]; cbn [deleted added] in *; [|done| |].
  - destruct Hc as (-> & _ & _ & Hdp & Hins). pose proof (insert_sorted_perm K (dhkey (K (my_key r))) p (leaf_side s r)) as Hperm. rewrite Hins in Hperm.
    assert (NoDup (p :: leaf_side s r)) as Hnd.
    { pose proof (leafset_nodup K r Hwf) as Hnd. rewrite (leaf_sides s r), NoDup_app in Hnd. constructor; [|tauto].
      intros Hin. apply Hp, (elem_sides s). by left. }
    assert (d ∉ leaf_side s r') as Hd.
    { rewrite <- Hperm, NoDup_app in Hnd. destruct Hnd as (_ & Hnd & _). intros Hin. apply (Hnd d Hin). by left. }
    assert (d ∈ leaf_side s r) as Hdin.
    { assert (d ∈ p :: leaf_side s r) as Hin by (rewrite <- Hperm; apply elem_of_app; right; by left).
      apply elem_of_cons in Hin as [->|]; [by destruct Hdp|done]. }
    split_and!; [|by right|].
    + intros q. rewrite !(elem_sides s), Eo. assert (q ∈ p :: leaf_side s r <-> q ∈ leaf_side s r' \/ q = d) as Hq
        by (rewrite <- Hperm, elem_of_app, list_elem_of_singleton; done). rewrite elem_of_cons in Hq.
      assert (q = d -> q ∉ leaf_side (negb s) r) as Hother.
      { intros -> Hin. pose proof (leafset_nodup K r Hwf) as Hn. rewrite (leaf_sides s r), NoDup_app in Hn. destruct Hn as (_ & Hn & _). by apply (Hn d). }
      assert (Some p = Some q <-> q = p) as Ep by naive_solver. assert (Some d <> Some q <-> q <> d) as Ed by naive_solver. rewrite Ep, Ed.
      destruct (decide (q = d)) as [->|]; [|tauto]. split; [|naive_solver]. intros [?|?]; [done|]. by destruct (Hother eq_refl).
    + intros q [= <-]. split; [apply (elem_sides s); by left|]. intros [= ->]. by destruct Hdp.
  - destruct Hc as (-> & _ & Hins). pose proof (insert_sorted_perm K (dhkey (K (my_key r))) p (leaf_side s r)) as Hperm. rewrite <- Hins in Hperm.
    split_and!; [|by right|done]. intros q. rewrite !(elem_sides s), Eo, Hperm, elem_of_cons. naive_solver.
  - destruct Hc as [-> _]. split_and!; [naive_solver|by left|done].
Qed.

Lemma leave_members K r r' p ch : leafset_wf K r -> leave_contract K r r' p ch ->
  (forall q, in_leafset r' q <-> (in_leafset r q /\ deleted ch <> Some q)) /\ added ch = None /\
  (forall q, deleted ch = Some q -> in_leafset r q) /\ ~ in_leafset r' p.
Proof.
  intros Hwf [(s & i & Hi & -> & Es & Eo)|(-> & -> & Habs)]; cbn [deleted added].
  - assert (NoDup (leaf_side s r ++ leaf_side (negb s) r)) as Hnd by (rewrite <- leaf_sides; by apply leafset_nodup in Hwf).
    apply NoDup_app in Hnd as (N1 & N2 & _). pose proof (delete_Permutation _ _ _ Hi) as Hperm.
    assert (p ∉ delete i (leaf_side s r)) as Hp by (rewrite Hperm in N1; by apply NoDup_cons in N1 as [? _]).
    assert (p ∉ leaf_side (negb s) r) as Hp' by (apply N2; by eapply list_elem_of_lookup_2).
    assert (forall q, in_leafset r' q <-> in_leafset r q /\ q <> p) as Hall.
    { intros q. rewrite !(elem_sides s), Eo, Es. assert (q ∈ leaf_side s r <-> q = p \/ q ∈ delete i (leaf_side s r)) as Hq by (by rewrite Hperm at 1; rewrite elem_of_cons).
      destruct (decide (q = p)) as [->|]; tauto. }
    split_and!; [intros q; rewrite Hall; naive_solver|done| |rewrite Hall; tauto].
    intros q [= <-]. apply (elem_sides s). left. by eapply list_elem_of_lookup_2.
  - split_and!; [naive_solver|done|done|]. intros Hin. rewrite Forall_forall in Habs. by apply (Habs p Hin).
Qed.

(** ** Marking *)

Definition mark_side (leafset b : bool) : np_node_t -> np_node_t := if leafset then mark_leafset b else mark_table b.
Definition side_pred (leafset : bool) (T L : key_ptr -> Prop) : key_ptr -> Prop := if leafset then L else T.

(** Only nodes changed, in their places. *)
Record same_places (w w' : world) : Prop := {
  same_keys : w_keys w' = w_keys w;
  same_nodes : forall l, is_Some (w_nodes w' !! l) <-> is_Some (w_nodes w !! l);
}.
#[export] Instance same_places_preorder : PreOrder same_places.
Proof. split; [by split|]. intros a b c [A1 A2] [B1 B2]. split; [congruence|intros l; by rewrite B2]. Qed.

Lemma with_node_places w l n n0 : w_nodes w !! l = Some n0 -> same_places w (with_node w l n).
Proof.
  intros Hl. split; [done|]. intros l'. cbn. destruct (decide (l = l')) as [<-|Hne]; [rewrite lookup_insert_eq, Hl; split; by eexists|].
  by rewrite lookup_insert_ne.
Qed.
Lemma places_peer w w' p l n : same_places w w' -> peer w' p l n -> exists n0, peer w p l n0.
Proof.
  intros [E1 E2] (k & Hk & Ht & El & En). rewrite E1 in Hk. destruct (proj1 (E2 l)) as [n0 En0]; [by rewrite En; eexists|].
  exists n0, k. done.
Qed.
Lemma places_peer_back w w' p l n : same_places w w' -> peer w p l n -> exists n0, peer w' p l n0.
Proof.
  intros [E1 E2] (k & Hk & Ht & El & En). destruct (proj2 (E2 l)) as [n0 En0]; [by rewrite En; eexists|].
  exists n0, k. by rewrite E1.
Qed.
Lemma places_good w w' : same_places w w' -> keys_good w -> keys_good w'.
Proof.
  intros P [G1 G2 G3]. pose proof (same_keys _ _ P) as Ek. split; rewrite ?Ek; [done|done|]. intros p q l n m Hp Hq.
  destruct (places_peer _ _ _ _ _ P Hp) as [n0 Hp0]. destruct (places_peer _ _ _ _ _ P Hq) as [m0 Hq0]. by eapply G3.
Qed.
Lemma places_hash w w' p : same_places w w' -> dhkey (routing_key w' p) = dhkey (routing_key w p).
Proof. intros P. by rewrite !routing_key_hash, (same_keys _ _ P). Qed.

Lemma mark_peer w p l n f : peer w p l n -> mark w (Some p) f = Ok (with_node w l (f n)).
Proof.
  intros (k & Hk & _ & El & En). unfold mark, get_key. rewrite Hk, bind_ok. by apply upd_node_ok.
Qed.

Lemma mark_flagged w T L p l n side b : keys_good w -> flagged w T L -> peer w p l n ->
  flagged (with_node w l (mark_side side b n))
    (fun q => if decide (side = false /\ q = p) then b = true else T q) (fun q => if decide (side = true /\ q = p) then b = true else L q).
Proof.
  intros G F Hp q l' n' Hq. destruct Hp as (k & Hk & Ht & El & En). destruct Hq as (k' & Hk' & Ht' & El' & En').
  cbn in Hk', En'. destruct (decide (l = l')) as [<-|Hne].
  - rewrite lookup_insert_eq in En'. injection En' as <-. assert (q = p) as ->.
    { apply (one_node w G q p l n n); [by exists k'|by exists k]. }
    destruct (F p l n) as [FT FL]; [by exists k|]. destruct side; cbn.
    + rewrite (decide_False (P := true = false /\ p = p)) by naive_solver. rewrite (decide_True (P := true = true /\ p = p)) by done. done.
    + rewrite (decide_True (P := false = false /\ p = p)) by done. rewrite (decide_False (P := false = true /\ p = p)) by naive_solver. done.
  - rewrite lookup_insert_ne in En' by done. assert (q <> p) as Hqp by (intros ->; rewrite Hk in Hk'; injection Hk' as ->; congruence).
    rewrite !decide_False by naive_solver. apply (F q l'). by exists k'.
Qed.

Lemma flagged_iff w T T' L L' : (forall q, T q <-> T' q) -> (forall q, L q <-> L' q) -> flagged w T L -> flagged w T' L'.
Proof. intros HT HL F p l n Hp. rewrite <- HT, <- HL. by eapply F. Qed.

(** The key that entered, and the one that had to go. *)
Lemma marked w T L side a d : keys_good w -> flagged w T L ->
  (forall p, a = Some p \/ d = Some p -> exists l n, peer w p l n) -> (forall p, a = Some p -> d <> Some p) ->
  exists w', (w ← mark w a (mark_side side true); mark w d (mark_side side false)) = Ok w' /\
    same_places w w' /\ w_route w' = w_route w /\ w_trails w' = w_trails w /\
    flagged w' (fun q => if side then T q else (T q /\ d <> Some q) \/ a = Some q)
               (fun q => if side then (L q /\ d <> Some q) \/ a = Some q else L q).
Proof.
  intros G F Hpe Hne.
  assert (exists w1, mark w a (mark_side side true) = Ok w1 /\ same_places w w1 /\ w_route w1 = w_route w /\ w_trails w1 = w_trails w /\
    flagged w1 (fun q => if side then T q else T q \/ a = Some q) (fun q => if side then L q \/ a = Some q else L q)) as (w1 & E1 & P1 & R1 & Tr1 & F1).
  { destruct a as [p|].
    - destruct (Hpe p) as (l & n & Hp); [by left|]. rewrite (mark_peer w p l n) by done. eexists. split; [done|].
      split; [destruct Hp as (? & _ & _ & _ & En); by eapply with_node_places|]. split; [done|]. split; [done|].
      eapply flagged_iff; [| |apply (mark_flagged w T L p l n side true G F Hp)]; intros q; cbn; destruct side, (decide (q = p)) as [->|];
        (rewrite ?decide_True by done); (rewrite ?decide_False by naive_solver); naive_solver.
    - exists w. split_and!; try done. eapply flagged_iff; [| |exact F]; intros q; destruct side; naive_solver. }
  rewrite E1, bind_ok. pose proof (places_good _ _ P1 G) as G1. destruct d as [p|].
  - destruct (Hpe p) as (l & n & Hp0); [by right|]. destruct (places_peer_back _ _ _ _ _ P1 Hp0) as [n1 Hp].
    rewrite (mark_peer w1 p l n1) by done. eexists. split; [done|].
    split; [etransitivity; [exact P1|]; destruct Hp as (? & _ & _ & _ & En); by eapply with_node_places|]. split; [done|]. split; [done|].
    eapply flagged_iff; [| |apply (mark_flagged w1 _ _ p l n1 side false G1 F1 Hp)]; intros q; cbn; destruct side, (decide (q = p)) as [->|];
      (rewrite ?decide_True by done); (rewrite ?decide_False by naive_solver); naive_solver.
  - exists w1. split_and!; try done. eapply flagged_iff; [| |exact F1]; intros q; destruct side; naive_solver.
Qed.

(** ** The tables and the flags change together *)

Lemma leafset_wf_same K r r' : same_leafsets r r' -> leafset_wf K r -> leafset_wf K r'.
Proof.
  destruct r, r'. unfold same_leafsets. cbn. intros (-> & -> & -> & -> & -> & -> & -> & -> & ->) [H1 H2 H3 H4 H5 H6 H7 H8 H9 H10 H11 H12 H13]. by split.
Qed.
Lemma table_wf_same K r r' : same_table r r' -> table_wf K r -> table_wf K r'.
Proof. destruct r, r'. unfold same_table. cbn. intros (-> & -> & -> & -> & ->) [H1 H2 H3 H4]. by split. Qed.

Lemma leafset_update_self w r p joined : keys_good w -> dhkey (routing_key w p) = dhkey (routing_key w (my_key r)) ->
  _np_route_leafset_update (routing_key w) r p joined = Ok (r, None).
Proof.
  intros G E. unfold _np_route_leafset_update. rewrite (proj2 (key_cmp_zero _ (routing_keys_wf w G) p (my_key r))) by done. done.
Qed.

Lemma routed_hash w p q l n : keys_good w -> peer w p l n -> is_Some (w_keys w !! q) ->
  dhkey (routing_key w q) = dhkey (routing_key w p) -> q = p.
Proof.
  intros G (k & Hk & _) [k' Hk']. rewrite !routing_key_hash, Hk, Hk'. intros E. by eapply one_key.
Qed.
Lemma member_known w p : routed w -> in_table (w_route w) p \/ in_leafset (w_route w) p -> is_Some (w_keys w !! p).
Proof. intros R Hp. destruct (routed_peers w R p Hp) as (l & n & k & Hk & _). by exists k. Qed.

Lemma routed_moved w w' : routed w -> same_places w w' ->
  table_wf (routing_key w) (w_route w') -> once (table (w_route w')) -> leafset_wf (routing_key w) (w_route w') ->
  (forall p, in_table (w_route w') p \/ in_leafset (w_route w') p -> exists l n, peer w p l n) ->
  flagged w' (in_table (w_route w')) (in_leafset (w_route w')) -> routed w'.
Proof.
  intros R P T O L M F. split; [by eapply places_good, routed_keys| |done| | |done].
  - eapply table_wf_hash; [intros p; by apply places_hash|done].
  - eapply leafset_wf_hash; [intros p; by apply places_hash|done].
  - intros p Hp. destruct (M p Hp) as (l & n & Hpe). destruct (places_peer_back _ _ _ _ _ P Hpe) as [n' ?]. by exists l, n'.
Qed.

Lemma put_route_places w r : same_places w (put_route w r).
Proof. by split. Qed.
Lemma put_trails_places w t : same_places w (put_trails w t).
Proof. by split. Qed.

(** An update of the leafset, with the marks of the nodes it is about; the trails may change
    in between. *)
Definition followed (w : world) (side : bool) (r' : route_t) (ch : option route_change) : Prop :=
  forall w0 : world, w_keys w0 = w_keys w -> w_nodes w0 = w_nodes w -> w_route w0 = r' ->
    exists w', (w1 ← mark w0 (added_of ch) (mark_side side true); mark w1 (deleted_of ch) (mark_side side false)) = Ok w' /\
      routed w' /\ same_places w w' /\ w_route w' = r' /\ w_trails w' = w_trails w0.

Lemma follow (w : world) (side : bool) (r' : route_t) (a d : option key_ptr) : routed w ->
  table_wf (routing_key w) r' -> once (table r') -> leafset_wf (routing_key w) r' ->
  (forall p, a = Some p \/ d = Some p -> exists l n, peer w p l n) -> (forall p, a = Some p -> d <> Some p) ->
  (forall q, in_table r' q <-> if side then in_table (w_route w) q else (in_table (w_route w) q /\ d <> Some q) \/ a = Some q) ->
  (forall q, in_leafset r' q <-> if side then (in_leafset (w_route w) q /\ d <> Some q) \/ a = Some q else in_leafset (w_route w) q) ->
  followed w side r' (Some (Change d a)).
Proof.
  intros R T O L Hpe Hne HT HL w0 Ek En Er.
  assert (same_places w w0) as P0 by (split; [done|intros l; by rewrite En]).
  assert (forall p l n, peer w0 p l n <-> peer w p l n) as Hpeer by (intros p l n; unfold peer; by rewrite Ek, En).
  destruct (marked w0 (in_table (w_route w)) (in_leafset (w_route w)) side a d) as (w' & E & P & Rw & Tr & F).
  - by eapply places_good, routed_keys.
  - intros p l n Hp. by apply (routed_flags w R p l), Hpeer.
  - intros p Hp. destruct (Hpe p Hp) as (l & n & H). exists l, n. by apply Hpeer.
  - done.
  - exists w'. split; [exact E|]. rewrite Er in Rw. assert (same_places w w') as Pw by (etransitivity; [exact P0|exact P]).
    split; [|done]. apply (routed_moved w w' R Pw); rewrite ?Rw; try done.
    + intros p. rewrite HT, HL. intros Hp. assert ((in_table (w_route w) p \/ in_leafset (w_route w) p) \/ a = Some p) as [Hm|Ha] by (destruct side; tauto).
      * by apply (routed_peers w R).
      * apply Hpe. by left.
    + eapply flagged_iff; [| |exact F]; intros q; [rewrite HT|rewrite HL]; done.
Qed.

Lemma follow_nothing w side : routed w -> followed w side (w_route w) None.
Proof.
  intros R w0 Ek En Er. exists w0. split; [done|]. assert (same_places w w0) as P0 by (split; [done|intros l; by rewrite En]).
  split; [|done]. apply (routed_quiet w w0); [|done]. split; [done|intros p; by rewrite Ek|intros l; by rewrite En].
Qed.

Lemma leafset_moves w p l n joined : routed w -> peer w p l n -> is_in_leafset n = negb joined ->
  exists r' ch, _np_route_leafset_update (routing_key w) (w_route w) p joined = Ok (r', ch) /\ followed w true r' ch /\
    table r' = table (w_route w) /\ (added_of ch = None \/ added_of ch = Some p) /\
    (joined = false -> added_of ch = None /\ ~ in_leafset r' p).
Proof.
  intros R Hp Hn. pose proof (routed_keys w R) as G. pose proof (routing_keys_wf w G) as Kwf. pose proof (routed_leafset w R) as Lwf.
  destruct (routed_flags w R p l n Hp) as [_ HF]. rewrite Hn in HF.
  assert (forall q, in_leafset (w_route w) q -> dhkey (routing_key w q) = dhkey (routing_key w p) -> q = p) as Hu
    by (intros q Hq; apply (routed_hash w p q l n G Hp), (member_known w q R); by right).
  destruct (decide (dhkey (routing_key w p) = dhkey (routing_key w (my_key (w_route w))))) as [E|Hne].
  { rewrite leafset_update_self by done. exists (w_route w), None. split; [done|]. split; [by apply follow_nothing|].
    split; [done|]. split; [by left|]. intros ->. split; [done|]. intros Hin. pose proof (no_self _ _ Lwf) as Hs. rewrite Forall_forall in Hs. by apply (Hs p Hin). }
  destruct joined.
  - destruct (leafset_join_ok _ Kwf (w_route w) p Lwf Hne) as (r' & ch & E & Lwf' & St & Hc). rewrite E. exists r', (Some ch). split; [done|].
    assert (Forall (fun q => dhkey (routing_key w q) <> dhkey (routing_key w p)) (left_leafset (w_route w) ++ right_leafset (w_route w))) as Hnew.
    { apply Forall_forall. intros q Hq Eq. assert (q = p) as -> by (by apply Hu). apply HF in Hq. done. }
    rewrite decide_True in Hc by exact Hnew. destruct (join_members _ _ _ _ _ Lwf Lwf' Hc Hnew) as (Hm & Ha & Hd).
    split; [|split; [by destruct St as (_ & ? & _)|split; [done|done]]]. destruct ch as [d a]. cbn [added deleted] in *.
    apply follow; try done.
    + eapply table_wf_same; [exact St|]. by apply (routed_table w R).
    + destruct St as (_ & -> & _). by apply (routed_once w R).
    + intros q [->|Hq]; [destruct Ha as [?|[= ->]]; [done|by exists l, n]|]. apply (routed_peers w R). right. by apply Hd.
    + intros q -> Hq. by apply (Hd q Hq).
    + intros q. unfold in_table. by destruct St as (_ & -> & _).
  - destruct (leafset_leave_ok _ Kwf (w_route w) p Lwf Hne Hu) as (r' & ch & E & Hc & Lwf' & St). rewrite E. exists r', (Some ch). split; [done|].
    destruct (leave_members _ _ _ _ _ Lwf Hc) as (Hm & Ha & Hd & Hgone). destruct ch as [d a]. cbn [added deleted added_of] in *. subst a.
    split; [|split; [by destruct St as (_ & ? & _)|split; [by left|done]]]. apply follow; try done.
    + eapply table_wf_same; [exact St|]. by apply (routed_table w R).
    + destruct St as (_ & -> & _). by apply (routed_once w R).
    + intros q [?|Hq]; [done|]. apply (routed_peers w R). right. by apply Hd.
    + intros q. unfold in_table. by destruct St as (_ & -> & _).
    + intros q. rewrite Hm. split; [by left|]. by intros [?|?].
Qed.

Lemma table_moves alive w p l n joined : (forall q, alive q = true) -> routed w -> peer w p l n -> is_in_routing_table n = negb joined ->
  exists r' ch, _np_route_update (routing_key w) alive (w_route w) p joined = Ok (r', ch) /\ followed w false r' ch /\
    (forall q, in_leafset r' q <-> in_leafset (w_route w) q) /\ (joined = false -> added_of ch = None /\ ~ in_table r' p).
Proof.
  intros Al R Hp Hn. pose proof (routed_keys w R) as G. pose proof (routing_keys_wf w G) as Kwf. pose proof (routed_table w R) as Twf.
  destruct (routed_flags w R p l n Hp) as [HF _]. rewrite Hn in HF.
  assert (forall q, in_table (w_route w) q -> dhkey (routing_key w q) = dhkey (routing_key w p) -> q = p) as Hu
    by (intros q Hq; apply (routed_hash w p q l n G Hp), (member_known w q R); by left).
  destruct (decide (dhkey (routing_key w p) = dhkey (routing_key w (my_key (w_route w))))) as [E|Hne].
  { rewrite (route_update_self _ alive Kwf (w_route w) p joined E). exists (w_route w), None. split; [done|]. split; [by apply follow_nothing|].
    split; [done|]. intros ->. split; [done|]. intros [idx Hin]%list_elem_of_lookup_1. destruct (table_place _ _ Twf idx p Hin) as [? _]. done. }
  destruct (route_update_ok _ alive Kwf (w_route w) p joined) as (b & r' & d & a & Hb & E & Hc & Twf' & Sl); [|done|done|done|].
  { assert (forall q, (exists l n, peer w q l n) -> is_Some (nodeinfo (routing_key w q))) as Hnode.
    { intros q (l' & n' & k & Hk & _ & El & En). unfold routing_key. rewrite Hk. cbn. rewrite El. cbn. rewrite En. by eexists. }
    intros q [Hq| ->]; apply Hnode; [apply (routed_peers w R); by left|by exists l, n]. }
  rewrite E. assert (unref_result alive d = d) as -> by (destruct d; [cbn; by rewrite Al|done]).
  destruct (bucket_of_ok _ Kwf (w_route w) _ (Kwf p) Hne) as (i & j & _ & _ & _ & _ & _ & Hb' & Hb0 & _). rewrite Hb in Hb'. injection Hb' as ->.
  destruct (update_members _ _ r' p _ joined d a (routed_once w R) Hb0 Twf Hb Hu) as (Ho & Hm & Ha & Hd & Hgone).
  { intros ->. rewrite <- HF. done. } { done. }
  exists r', (Some (Change d a)). split; [done|].
  assert (forall q, in_leafset r' q <-> in_leafset (w_route w) q) as Hl by (intros q; unfold in_leafset; destruct Sl as (_ & -> & -> & _); done).
  split; [|split; [done|]].
  - apply follow; try done.
    + eapply leafset_wf_same; [exact Sl|]. by apply (routed_leafset w R).
    + intros q [->|Hq]; [destruct Ha as [?|[= ->]]; [done|by exists l, n]|]. apply (routed_peers w R). left. by apply Hd.
    + intros q -> Hq. by apply (Hd q Hq).
  - intros ->. split; [|by apply Hgone]. cbn. destruct a; [|done]. destruct d; cbn in Hc; done.
Qed.

(** ** The actions *)

(** Changes routing does not notice. *)
Lemma upd_node_quiet w k f w' : (forall n, marks (f n) = marks n) -> upd_node w k f = Ok w' -> quiet w w'.
Proof.
  intros Hf E. unfold upd_node in E. apply bind_Ok_inv in E as (n & Hn & E). apply get_node_ok in Hn as (l & El & En).
  rewrite El in E. injection E as <-. split; [done|done|]. intros l'. cbn. destruct (decide (l = l')) as [<-|Hne].
  - rewrite lookup_insert_eq, En. cbn. by rewrite Hf.
  - by rewrite lookup_insert_ne.
Qed.
Lemma upd_token_quiet w l f w' : upd_token w l f = Ok w' -> quiet w w'.
Proof. intros E. unfold upd_token in E. apply bind_Ok_inv in E as (t & _ & E). injection E as <-. by destruct l. Qed.
Lemma put_key_quiet w p k k' : w_keys w !! p = Some k -> core k' = core k -> quiet w (put_key w p k').
Proof.
  intros Hp Hc. split; [done| |done]. intros q. cbn. destruct (decide (p = q)) as [<-|Hne].
  - rewrite lookup_insert_eq, Hp. cbn. by rewrite Hc.
  - by rewrite lookup_insert_ne.
Qed.

Definition is_peer (w : world) (p : key_ptr) : Prop := exists l n, peer w p l n.
Lemma peer_at w p k n : w_keys w !! p = Some k -> is_peer w p -> get_node w k = Ok n -> exists l, peer w p l n /\ e_node k = Some l.
Proof.
  intros Hp (l & m & k' & Hk & Ht & El & En) Hn. rewrite Hp in Hk. injection Hk as <-. apply get_node_ok in Hn as (l' & El' & En').
  exists l'. split; [by exists k|done].
Qed.
Lemma peer_key_node w p k : w_keys w !! p = Some k -> is_peer w p -> exists l n, peer w p l n /\ get_node w k = Ok n.
Proof.
  intros Hp (l & n & k' & Hk & Ht & El & En). rewrite Hp in Hk. injection Hk as <-. exists l, n. split; [by exists k|]. apply get_node_ok. by exists l.
Qed.

Lemma get_key_ok w p k : get_key w p = Ok k <-> w_keys w !! p = Some k.
Proof. unfold get_key. destruct (w_keys w !! p); split; naive_solver. Qed.

Ltac step H := apply bind_Ok_inv in H as (? & ? & H).

Section Peers.
Context `{Sodium} `{Qcbor} `{Doubles}.
Context (alloc random : Z -> list Z) (rx tx my_dhkey : np_dhkey_t) (fuel : nat) (seeds : Z * Z) (now : Q).
Context (alive : key_ptr -> bool) (conf_of : np_dhkey_t -> option np_msgproperty_conf_t) (uuid_ : list Z).
Context (network_of : key_ptr -> option (list Z * list Z)) (flt_bits : Q -> Z).
(** The key cache refers to every key. *)
Hypothesis Alive : forall p, alive p = true.

(** Joining the leafset always ends, and the flags are right after it. *)
Lemma add_to_leafset_ok w p : routed w -> is_peer w p ->
  exists w', __np_node_add_to_leafset w p = Ok w' /\ routed w' /\ same_places w w' /\ table (w_route w') = table (w_route w).
Proof.
  intros R (l & n & Hp). destruct Hp as (k & Hk & Hrest). assert (peer w p l n) as Hp by (by exists k). destruct Hrest as (Ht & El & En).
  unfold __np_node_add_to_leafset, get_key. rewrite Hk, bind_ok. rewrite (proj2 (get_node_ok w k n)) by (by exists l). rewrite bind_ok.
  destruct (is_in_leafset n) eqn:Ef; [by exists w|].
  destruct (leafset_moves w p l n true R Hp Ef) as (r' & ch & -> & Hf & Htab & Ha & _). rewrite bind_ok.
  destruct (Hf (put_route w r')) as (w' & E & R' & P & Er & _); [done..|]. exists w'. rewrite Er. split; [|done]. rewrite <- E.
  destruct Ha as [-> | ->]; [done|]. cbn [mark]. by rewrite (proj2 (get_key_ok (put_route w r') p k)), bind_ok.
Qed.

Definition fade_error (w : world) (e : fault) : Prop := _np_pheromone_exhale fuel seeds (Some (w_trails w)) = Err e.

(** Leaving: the key is not there any more, or the trails could not fade. *)
Lemma remove_leafset_ok w p : routed w -> is_peer w p ->
  (exists w', __np_node_remove_from_routing_leafset fuel seeds w p = Ok w' /\ routed w' /\ same_places w w' /\ ~ in_leafset (w_route w') p /\
     table (w_route w') = table (w_route w) /\
     (w_trails w' = w_trails w \/ _np_pheromone_exhale fuel seeds (Some (w_trails w)) = Ok (w_trails w'))) \/
  exists e, fade_error w e /\ __np_node_remove_from_routing_leafset fuel seeds w p = Err e.
Proof.
  intros R (l & n & Hp). destruct Hp as (k & Hk & Hrest). assert (peer w p l n) as Hp by (by exists k). destruct Hrest as (Ht & El & En).
  unfold __np_node_remove_from_routing_leafset, get_key. rewrite Hk, bind_ok. rewrite (proj2 (get_node_ok w k n)) by (by exists l). rewrite bind_ok.
  destruct (is_in_leafset n) eqn:Ef; cycle 1.
  { left. exists w. destruct (routed_flags w R p l n Hp) as [_ HF]. rewrite Ef in HF. split_and!; try done; [|by left]. intros Hin. by apply HF in Hin. }
  destruct (leafset_moves w p l n false R Hp Ef) as (r' & ch & -> & Hf & Htab & _ & Hg). destruct (Hg eq_refl) as [Ha Hgone]. rewrite bind_ok.
  rewrite bool_decide_true by done. change (c_assert true) with (Ok tt). rewrite bind_ok.
  destruct (deleted_of ch) as [d|] eqn:Ed.
  - unfold exhale. cbn [put_route w_trails]. destruct (_np_pheromone_exhale fuel seeds (Some (w_trails w))) as [t|e] eqn:Et; [|right; by exists e].
    left. rewrite !bind_ok. destruct (Hf (put_trails (put_route w r') t)) as (w' & E & R' & P & Er & Etr); [done..|].
    rewrite Ha, Ed in E. cbn [mark] in E. rewrite bind_ok in E. exists w'. rewrite Er. split_and!; try done. right. by rewrite Etr.
  - left. destruct (Hf (put_route w r')) as (w' & E & R' & P & Er & Etr); [done..|]. rewrite Ha, Ed in E. cbn [mark] in E. rewrite bind_ok in E. injection E as <-.
    exists (put_route w r'). split_and!; try done. by left.
Qed.

Lemma remove_table_ok w p : routed w -> is_peer w p ->
  (exists w', __np_node_remove_from_routing_table fuel seeds alive w p = Ok w' /\ routed w' /\ same_places w w' /\ ~ in_table (w_route w') p /\
     (forall q, in_leafset (w_route w') q <-> in_leafset (w_route w) q)) \/
  exists e, fade_error w e /\ __np_node_remove_from_routing_table fuel seeds alive w p = Err e.
Proof.
  intros R (l & n & Hp). destruct Hp as (k & Hk & Hrest). assert (peer w p l n) as Hp by (by exists k). destruct Hrest as (Ht & El & En).
  unfold __np_node_remove_from_routing_table, get_key. rewrite Hk, bind_ok. rewrite (proj2 (get_node_ok w k n)) by (by exists l). rewrite bind_ok.
  destruct (is_in_routing_table n) eqn:Ef; cycle 1.
  { left. exists w. destruct (routed_flags w R p l n Hp) as [HF _]. rewrite Ef in HF. split_and!; try done. intros Hin. by apply HF in Hin. }
  destruct (table_moves alive w p l n false Alive R Hp Ef) as (r' & ch & -> & Hf & Hl & Hg). destruct (Hg eq_refl) as [Ha Hgone]. rewrite bind_ok.
  destruct (deleted_of ch) as [d|] eqn:Ed.
  - unfold exhale. cbn [put_route w_trails]. destruct (_np_pheromone_exhale fuel seeds (Some (w_trails w))) as [t|e] eqn:Et; [|right; by exists e].
    left. rewrite !bind_ok. destruct (Hf (put_trails (put_route w r') t)) as (w' & E & R' & P & Er & Etr); [done..|].
    rewrite Ha, Ed in E. cbn [mark] in E. rewrite bind_ok in E. exists w'. rewrite Er. done.
  - left. destruct (Hf (put_route w r')) as (w' & E & R' & P & Er & Etr); [done..|]. rewrite Ha, Ed in E. cbn [mark] in E. rewrite bind_ok in E. injection E as <-.
    exists (put_route w r'). done.
Qed.

Lemma places_is_peer w w' p : same_places w w' -> is_peer w p -> is_peer w' p.
Proof. intros P (l & n & Hp). destruct (places_peer_back _ _ _ _ _ P Hp) as [n' ?]. by exists l, n'. Qed.
Lemma quiet_is_peer w w' p : quiet w w' -> is_peer w p -> is_peer w' p.
Proof. intros Q (l & n & Hp). destruct (quiet_peer w' w p l n (symmetry Q) Hp) as (n' & ? & _). by exists l, n'. Qed.

Lemma remove_routing_keeps w p w' : routed w -> is_peer w p -> __np_node_remove_from_routing fuel seeds alive w p = Ok w' ->
  routed w' /\ same_places w w' /\ ~ in_table (w_route w') p /\ ~ in_leafset (w_route w') p.
Proof.
  intros R Hp E. unfold __np_node_remove_from_routing in E.
  destruct (remove_leafset_ok w p R Hp) as [(w1 & E1 & R1 & P1 & G1 & _)|(e & _ & E1)]; rewrite E1 in E; [|done]. rewrite bind_ok in E.
  destruct (remove_table_ok w1 p R1 (places_is_peer _ _ _ P1 Hp)) as [(w2 & E2 & R2 & P2 & G2 & L2)|(e & _ & E2)]; rewrite E2 in E; [|done].
  injection E as <-. split; [done|]. split; [by etransitivity|]. split; [done|]. by rewrite L2.
Qed.

Lemma upd_node_keys w k f w' : upd_node w k f = Ok w' -> w_keys w' = w_keys w.
Proof. intros E. unfold upd_node in E. step E. injection E as <-. by destruct (e_node k). Qed.

Lemma insert_keeps w p k w' : routed w -> w_keys w !! p = Some k -> is_peer w p -> insert_into_table now alive w p k = Ok w' -> routed w' /\ same_places w w'.
Proof.
  intros R Hk Hp E. destruct (peer_key_node w p k Hk Hp) as (l & n & Hpe & Hn). unfold insert_into_table in E. rewrite Hn, bind_ok in E. step E.
  destruct (is_in_routing_table n) eqn:Ef; [cbn [negb andb] in E; by injection E as <-|]. cbn [negb andb] in E.
  destruct (_ && negb _); [|by injection E as <-].
  destruct (table_moves alive w p l n true Alive R Hpe Ef) as (r' & ch & Er & Hf & _). rewrite Er, bind_ok in E.
  destruct (Hf (put_route w r')) as (w1 & E1 & R1 & P1 & _); [done..|]. cbn [mark_side] in E1. rewrite E1 in E. by injection E as <-.
Qed.

Lemma remove_failing_keeps w p k w' : routed w -> is_peer w p -> remove_failing fuel seeds alive w p k = Ok w' -> routed w' /\ same_places w w'.
Proof.
  intros R Hp E. unfold remove_failing in E. do 2 step E. destruct (_ && Qle_bool _ _); [|by injection E as <-].
  destruct (remove_table_ok w p R Hp) as [(w1 & E1 & R1 & P1 & _)|(e & _ & E1)]; rewrite E1 in E; [|done]. by injection E as <-.
Qed.

Lemma completion_quiet w p w' evs : __np_node_handle_completion alloc random rx tx now conf_of uuid_ w p = Ok (w', evs) -> quiet w w'.
Proof.
  intros E. unfold __np_node_handle_completion in E. do 3 step E. destruct (x1 : bool).
  - do 2 step E. injection E as <- _. by eapply upd_node_quiet; [|eassumption].
  - step E. destruct (x2 : bool); [|by injection E as <- _]. do 2 step E. injection E as <- _. by eapply upd_node_quiet; [|eassumption].
Qed.

Lemma tell_quiet w k w' evs : tell_peer alloc random rx tx now conf_of uuid_ network_of flt_bits w k = Ok (w', evs) -> quiet w w'.
Proof.
  intros E. unfold tell_peer in E. step E. destruct (_ && _); [|by injection E as <- _]. do 3 step E. injection E as <- _.
  by eapply upd_node_quiet; [|eassumption].
Qed.

Lemma update_keeps w p w' evs : routed w -> is_peer w p ->
  __np_node_update alloc random rx tx fuel seeds now alive conf_of uuid_ network_of flt_bits w p = Ok (w', evs) -> routed w'.
Proof.
  intros R Hp E. unfold __np_node_update in E. apply bind_Ok_inv in E as (k & Hk & E). apply get_key_ok in Hk.
  destruct (_ || _); [by injection E as <- _|]. apply bind_Ok_inv in E as (w1 & E1 & E). pose proof (upd_node_keys _ _ _ _ E1) as Ek.
  apply upd_node_quiet in E1; [|done]. pose proof (routed_quiet _ _ E1 R) as R1. pose proof (quiet_is_peer _ _ _ E1 Hp) as Hp1.
  apply bind_Ok_inv in E as (n & _ & E). destruct (Qltb _ _); [by injection E as <- _|].
  apply bind_Ok_inv in E as (w2 & E2 & E). apply insert_keeps in E2 as [R2 P2]; [|done|by rewrite Ek|done].
  apply bind_Ok_inv in E as (pings & _ & E). apply bind_Ok_inv in E as (w3 & E3 & E).
  apply remove_failing_keeps in E3 as [R3 P3]; [|done|by eapply places_is_peer].
  apply bind_Ok_inv in E as ([w4 news] & E4 & E). injection E as <- _. apply tell_quiet in E4. by eapply routed_quiet.
Qed.

Lemma identity_upgrade_quiet w p w' evs : __np_node_identity_upgrade alloc random rx tx now conf_of uuid_ w p = Ok (w', evs) -> quiet w w'.
Proof.
  intros E. unfold __np_node_identity_upgrade in E. step E. apply bind_Ok_inv in E as ([w1 e1] & E1 & E). apply completion_quiet in E1.
  step E. destruct (FLAG_CMP _ _); [|by injection E as <- _]. apply bind_Ok_inv in E as (w2 & E2 & E). apply bind_Ok_inv in E as (w3 & E3 & E).
  injection E as <- _. apply upd_token_quiet in E2. apply upd_node_quiet in E3; [|done]. by do 2 (etransitivity; [eassumption|]).
Qed.

Lemma upgrade_quiet w p target token w' evs : __np_node_upgrade alloc random rx tx now conf_of uuid_ w p target token = Ok (w', evs) -> quiet w w'.
Proof.
  intros E. unfold __np_node_upgrade in E. apply bind_Ok_inv in E as (k & Hk & E). apply get_key_ok in Hk. destruct (FLAG_CMP _ _).
  { injection E as <- _. destruct (e_aaatoken k); [done|]. by apply (put_key_quiet w p k). }
  apply bind_Ok_inv in E as ([w1 e1] & E1 & E). apply completion_quiet in E1.
  destruct (w_keys w1 !! p) as [k1|] eqn:Hk1; cycle 1.
  { pose proof (quiet_keys _ _ E1 p) as Eq. by rewrite Hk, Hk1 in Eq. }
  assert (core k1 = core k) as Ec by (pose proof (quiet_keys _ _ E1 p) as Eq; rewrite Hk, Hk1 in Eq; injection Eq as Ea Eb Ed; unfold core; congruence).
  assert (forall t, core (set_aaatoken k t) = core k1) as Hs by (by intros t; rewrite Ec).
  set (k' := match e_aaatoken k with None => set_aaatoken k token | Some _ => k end) in *.
  assert (quiet w1 (put_key w1 p k')) as Q1 by (apply (put_key_quiet w1 p k1 k' Hk1); unfold k'; by destruct (e_aaatoken k)).
  apply bind_Ok_inv in E as (w2 & E2 & E). apply bind_Ok_inv in E as (w3 & E3 & E). apply upd_token_quiet in E2. apply upd_node_quiet in E3; [|done].
  assert (quiet w w3) as Q by (by do 3 (etransitivity; [eassumption|])). step E. destruct (FLAG_CMP _ _); [by injection E as <- _|].
  do 5 step E. by injection E as <- _.
Qed.

Lemma update_token_quiet w p token w' evs : __np_node_update_token alloc random rx tx now conf_of uuid_ w p token = Ok (w', evs) -> quiet w w'.
Proof.
  intros E. unfold __np_node_update_token in E. apply bind_Ok_inv in E as (k & Hk & E). apply get_key_ok in Hk. step E.
  set (k1 := if _ && bool_decide (e_handshake_token k = None) then _ else _) in *. assert (core k1 = core k) as C1 by (unfold k1; by destruct (_ && bool_decide (e_handshake_token k = None))).
  set (k2 := if _ && bool_decide (e_aaatoken k1 = None) then _ else _) in *. assert (core k2 = core k) as C2 by (unfold k2; by destruct (_ && bool_decide (e_aaatoken k1 = None))).
  apply bind_Ok_inv in E as (w2 & E2 & E). apply upd_token_quiet in E2.
  assert (quiet w w2) as Q by (etransitivity; [by apply (put_key_quiet w p k k2)|done]).
  destruct (pk_type k2 =? _); [by injection E as <- _|]. step E. destruct (session_key_is_set _ && _); [|by injection E as <- _]. step E.
  apply bind_Ok_inv in E as (w3 & E3 & E). injection E as <- _. apply upd_node_quiet in E3; [|done]. by etransitivity.
Qed.

Lemma shutdown_keeps w p event_type my_token w' evs : routed w -> is_peer w p ->
  __np_node_send_shutdown alloc random rx tx fuel seeds now alive conf_of uuid_ w p event_type my_token = Ok (w', evs) ->
  routed w' /\ ~ in_table (w_route w') p /\ ~ in_leafset (w_route w') p.
Proof.
  intros R Hp E. unfold __np_node_send_shutdown in E. do 2 step E. apply bind_Ok_inv in E as (w1 & E1 & E). apply bind_Ok_inv in E as (w2 & E2 & E).
  injection E as <- _. apply remove_routing_keeps in E1 as (R1 & _ & G1 & G2); [|done..]. apply upd_node_quiet in E2; [|done].
  split; [by eapply routed_quiet|]. by rewrite (quiet_route _ _ E2).
Qed.
Lemma shutdown_peer w p event_type my_token w' evs : routed w -> is_peer w p ->
  __np_node_send_shutdown alloc random rx tx fuel seeds now alive conf_of uuid_ w p event_type my_token = Ok (w', evs) -> is_peer w' p.
Proof.
  intros R Hp E. unfold __np_node_send_shutdown in E. do 2 step E. apply bind_Ok_inv in E as (w1 & E1 & E). apply bind_Ok_inv in E as (w2 & E2 & E).
  injection E as <- _. apply remove_routing_keeps in E1 as (_ & P1 & _); [|done..]. apply upd_node_quiet in E2; [|done].
  eapply quiet_is_peer; [done|]. by eapply places_is_peer.
Qed.
End Peers.

(** A node of no peer, which is said to be in neither of the tables. *)
Definition unclaimed (w : world) (l : loc) : Prop :=
  forall n, w_nodes w !! l = Some n -> marks n = (false, false) /\ forall q m, ~ peer w q l m.

Lemma unclaimed_quiet w w' l : quiet w w' -> unclaimed w l -> unclaimed w' l.
Proof.
  intros Q U n Hn. pose proof (quiet_nodes _ _ Q l) as E. rewrite Hn in E. destruct (w_nodes w !! l) as [n0|] eqn:En0; [|done]. injection E as E1 E2.
  destruct (U n0 En0) as [Hm Hno]. split; [unfold marks in *; congruence|]. intros q m Hq.
  destruct (quiet_peer w w' q l m Q Hq) as (m0 & Hq0 & _). by apply (Hno q m0).
Qed.

(** A place no key refers to, for a new node. *)
Definition unreferenced (w : world) (l : loc) : Prop := forall q k, w_keys w !! q = Some k -> e_node k <> Some l.

Lemma new_node_peer w l n q l' m : unreferenced w l -> peer (with_node w l n) q l' m <-> peer w q l' m.
Proof.
  intros F. unfold peer. cbn. split; intros (k & Hk & Ht & El & En); exists k; (do 3 (split; [done|])).
  - rewrite lookup_insert_ne in En; [done|]. intros <-. by apply (F q k).
  - rewrite lookup_insert_ne; [done|]. intros <-. by apply (F q k).
Qed.
Lemma new_node_keeps w l n : unreferenced w l -> routed w -> routed (with_node w l n).
Proof.
  intros F [[G1 G2 G3] RT RO RL RP RF].
  assert (forall q, dhkey (routing_key (with_node w l n) q) = dhkey (routing_key w q)) as Hhash by (intros q; by rewrite !routing_key_hash).
  split; [split; [done|done|]|by eapply table_wf_hash|done|by eapply leafset_wf_hash| |].
  - intros q q' l' m m' Hq%new_node_peer Hq'%new_node_peer; [|done..]. by eapply G3.
  - intros q Hq. destruct (RP q Hq) as (l' & m & Hp). exists l', m. by apply new_node_peer.
  - intros q l' m Hq%new_node_peer; [|done]. by apply (RF q l').
Qed.
Lemma unclaimed_new w l n l' : unreferenced w l -> marks n = (false, false) -> unclaimed w l' \/ l' = l -> unclaimed (with_node w l n) l'.
Proof.
  intros F Hm Hl m. cbn. destruct (decide (l = l')) as [<-|Hne].
  - rewrite lookup_insert_eq. intros [= <-]. split; [done|]. intros q m (k & Hk & _ & El & _)%new_node_peer; [|done]. by apply (F q k).
  - rewrite lookup_insert_ne by done. intros Hm'. destruct Hl as [U| ->]; [|done]. destruct (U m Hm') as [U1 U2]. split; [done|].
    intros q m' Hq%new_node_peer; [|done]. by apply (U2 q m').
Qed.

(** A key that becomes a peer, or is none any more. *)
Lemma become_keeps w p k k' : routed w -> w_keys w !! p = Some k -> ~ is_peer w p ->
  pk_dhkey k' = pk_dhkey k ->
  (forall l, FLAG_CMP (pk_type k') np_key_type_node = true -> e_node k' = Some l -> unclaimed w l) -> routed (put_key w p k').
Proof.
  intros [[G1 G2 G3] RT RO RL RP RF] Hk Hnp Hh Hfree.
  assert (forall q k1, w_keys (put_key w p k') !! q = Some k1 -> exists k0, w_keys w !! q = Some k0 /\ pk_dhkey k1 = pk_dhkey k0) as Hkeys.
  { intros q k1. cbn. destruct (decide (p = q)) as [<-|Hne]; [rewrite lookup_insert_eq; intros [= <-]; by exists k|]. rewrite lookup_insert_ne by done. intros. by exists k1. }
  assert (forall q, dhkey (routing_key (put_key w p k') q) = dhkey (routing_key w q)) as Hhash.
  { intros q. rewrite !routing_key_hash. cbn. destruct (decide (p = q)) as [<-|Hne]; [by rewrite lookup_insert_eq, Hk|by rewrite lookup_insert_ne]. }
  assert (forall q l n, peer (put_key w p k') q l n -> (q = p /\ marks n = (false, false) /\ forall q m, ~ peer w q l m) \/ (q <> p /\ peer w q l n)) as Hpeer.
  { intros q l n (k1 & Hk1 & Ht & El & En). cbn in Hk1, En. destruct (decide (p = q)) as [<-|Hne].
    - rewrite lookup_insert_eq in Hk1. injection Hk1 as <-. left. by destruct (Hfree l Ht El n En).
    - rewrite lookup_insert_ne in Hk1 by done. right. split; [done|]. by exists k1. }
  assert (forall q l n, peer w q l n -> q <> p /\ peer (put_key w p k') q l n) as Hpeer'.
  { intros q l n Hq. assert (q <> p) as Hne by (intros ->; apply Hnp; by exists l, n). split; [done|].
    destruct Hq as (k1 & Hk1 & Hrest). exists k1. cbn. by rewrite lookup_insert_ne. }
  assert (~ (in_table (w_route w) p \/ in_leafset (w_route w) p)) as Hout by (intros Hin; destruct (RP p Hin) as (l & n & ?); apply Hnp; by exists l, n).
  split; [split| |done| | |].
  - intros q k1 Hq. destruct (Hkeys q k1 Hq) as (k0 & H0 & ->). by eapply G1.
  - intros q q' kq kq' Hq Hq' E. destruct (Hkeys _ _ Hq) as (k0 & H0 & E0). destruct (Hkeys _ _ Hq') as (k1 & H1 & E1). eapply G2; [done..|congruence].
  - intros q q' l n m Hq Hq'. destruct (Hpeer _ _ _ Hq) as [(-> & _ & F)|[Hne Hq0]]; destruct (Hpeer _ _ _ Hq') as [(-> & _ & F')|[Hne' Hq0']]; [done| | |by eapply G3].
    + by destruct (F q' m).
    + by destruct (F' q n).
  - by eapply table_wf_hash.
  - by eapply leafset_wf_hash.
  - intros q Hq. destruct (RP q Hq) as (l & n & Hqp). exists l, n. by apply Hpeer'.
  - intros q l n Hq. destruct (Hpeer _ _ _ Hq) as [(-> & [= E1 E2] & _)|[_ Hq0]]; [|by apply (RF q l)].
    rewrite E1, E2. cbn [put_key w_route]. split; (split; [done|]); intros Hin; destruct Hout; tauto.
Qed.

Lemma destroy_keeps w p w' dropped : routed w -> is_peer w p -> ~ in_table (w_route w) p -> ~ in_leafset (w_route w) p ->
  __np_node_destroy w p = Ok (w', dropped) -> routed w'.
Proof.
  intros R Hp Ht Hl E. unfold __np_node_destroy in E. apply bind_Ok_inv in E as (k & Hk & E). apply get_key_ok in Hk. injection E as <- _.
  destruct R as [[G1 G2 G3] RT RO RL RP RF].
  assert (forall q l n, peer (put_key w p (set_type k np_key_type_unknown)) q l n <-> q <> p /\ peer w q l n) as Hpeer.
  { intros q l n. unfold peer. cbn. destruct (decide (p = q)) as [<-|Hne].
    - rewrite lookup_insert_eq. split; [|by intros [? _]]. intros (k1 & [= <-] & Hf & _). by vm_compute in Hf.
    - rewrite lookup_insert_ne by done. naive_solver. }
  assert (forall q, dhkey (routing_key (put_key w p (set_type k np_key_type_unknown)) q) = dhkey (routing_key w q)) as Hhash.
  { intros q. rewrite !routing_key_hash. cbn. destruct (decide (p = q)) as [<-|Hne]; [by rewrite lookup_insert_eq, Hk|by rewrite lookup_insert_ne]. }
  split; [split| |done| | |].
  - intros q k1. cbn. destruct (decide (p = q)) as [<-|Hne]; [rewrite lookup_insert_eq; intros [= <-]; exact (G1 p k Hk)|]. rewrite lookup_insert_ne by done. apply G1.
  - intros q q' kq kq' Hq Hq' Eq. cbn in Hq, Hq'.
    assert (forall x kx, <[p := set_type k np_key_type_unknown]> (w_keys w) !! x = Some kx -> exists k0, w_keys w !! x = Some k0 /\ pk_dhkey kx = pk_dhkey k0) as Hx.
    { intros x kx. destruct (decide (p = x)) as [<-|Hne]; [rewrite lookup_insert_eq; intros [= <-]; by exists k|]. rewrite lookup_insert_ne by done. intros. by exists kx. }
    destruct (Hx _ _ Hq) as (k0 & H0 & E0). destruct (Hx _ _ Hq') as (k1 & H1 & E1). eapply G2; [done..|congruence].
  - intros q q' l n m Hq Hq'. apply Hpeer in Hq as [_ Hq], Hq' as [_ Hq']. by eapply G3.
  - by eapply table_wf_hash.
  - by eapply leafset_wf_hash.
  - intros q Hq. destruct (RP q Hq) as (l & n & Hqp). exists l, n. apply Hpeer. split; [|done]. intros ->. destruct Hq; done.
  - intros q l n Hq. apply Hpeer in Hq as [_ Hq]. by apply (RF q l).
Qed.

(** Taking a reference away from a listed peer is all that can break the tables. *)
Lemma destroy_exact w p w' dropped : routed w -> is_peer w p -> __np_node_destroy w p = Ok (w', dropped) ->
  routed w' <-> ~ in_table (w_route w) p /\ ~ in_leafset (w_route w) p.
Proof.
  intros R Hp E. split; [|intros [Ht Hl]; by eapply destroy_keeps]. intros R'.
  unfold __np_node_destroy in E. apply bind_Ok_inv in E as (k & Hk & E). injection E as <- _.
  assert (~ is_peer (put_key w p (set_type k np_key_type_unknown)) p) as Hno.
  { intros (l & n & k1 & Hk1 & Ht & _). cbn in Hk1. rewrite lookup_insert_eq in Hk1. injection Hk1 as <-. by vm_compute in Ht. }
  split; intros Hin; apply Hno, (routed_peers _ R'); cbn; tauto.
Qed.

(** The other kinds of keys: wildcards and aliases. *)
Lemma other_key_keeps w p w' k k' : w' = put_key w p k' -> routed w -> ~ is_peer w p -> w_keys w !! p = Some k -> pk_dhkey k' = pk_dhkey k ->
  (forall l, FLAG_CMP (pk_type k') np_key_type_node = true -> e_node k' = Some l ->
     unclaimed w l \/ (FLAG_CMP (pk_type k) np_key_type_node = true /\ e_node k = Some l)) ->
  routed w'.
Proof.
  intros -> R Hp Hk Hh Hl. apply (become_keeps w p k); [done..|]. intros l Ht El n Hn. destruct (Hl l Ht El) as [U|[Ht' El']]; [by apply U|].
  exfalso. apply Hp. exists l, n, k. done.
Qed.
Lemma more_flags t f : FLAG_CMP (Z.lor t f) np_key_type_node = true -> Z.land f np_key_type_node = 0 -> FLAG_CMP t np_key_type_node = true.
Proof. unfold FLAG_CMP. rewrite Z.land_lor_distr_l. intros E Ef. by rewrite Ef, Z.lor_0_r in E. Qed.
Lemma less_flags t f : FLAG_CMP (Z.land t f) np_key_type_node = true -> Z.land f np_key_type_node = np_key_type_node -> FLAG_CMP t np_key_type_node = true.
Proof. unfold FLAG_CMP. rewrite <- Z.land_assoc. intros E Ef. by rewrite Ef in E. Qed.

Lemma wildcard_set_keeps w p node w' : routed w -> ~ is_peer w p -> unclaimed w node -> __np_wildcard_set w p node = Ok w' -> routed w'.
Proof.
  intros R Hp U E. unfold __np_wildcard_set in E. apply bind_Ok_inv in E as (k & Hk & E). apply get_key_ok in Hk. injection E as <-.
  cbn [set_type e_node]. destruct (e_node k) as [l0|] eqn:E0; (eapply other_key_keeps; [reflexivity|done|done|exact Hk|done|]); intros l Ht El.
  - right. split; [by apply more_flags in Ht|]. cbn in El. congruence.
  - left. by injection El as <-.
Qed.
Lemma alias_set_node_keeps w p node w' : routed w -> ~ is_peer w p -> unclaimed w node -> __np_alias_set_node w p node = Ok w' -> routed w'.
Proof.
  intros R Hp U E. unfold __np_alias_set_node in E. apply bind_Ok_inv in E as (k & Hk & E). apply get_key_ok in Hk.
  destruct (e_node k) as [l0|] eqn:E0; injection E as <-; [done|]. eapply other_key_keeps; [reflexivity|done|done|exact Hk|done|].
  intros l _ [= <-]. by left.
Qed.
Lemma other_leaves_keeps w p w' : routed w -> ~ is_peer w p ->
  (exists dropped, __np_wildcard_destroy w p = Ok (w', dropped)) \/ __np_alias_shutdown w p = Ok w' \/
  (exists dropped, __np_alias_destroy w p = Ok (w', dropped)) -> routed w'.
Proof.
  intros R Hp [[d E]|[E|[d E]]]; apply bind_Ok_inv in E as (k & Hk & E); apply get_key_ok in Hk; injection E as <-; try subst;
    (eapply other_key_keeps; [reflexivity|done|done|exact Hk|done|]); intros l Ht El.
  - right. split; [by apply less_flags in Ht|done].
  - by vm_compute in Ht.
  - by vm_compute in Ht.
Qed.

(** ** Runs *)

(** The key cache refers to every key it has, so none goes when only the table drops it. *)
Definition referenced (_ : key_ptr) : bool := true.

Section Runs.
Context `{Sodium} `{Qcbor} `{Doubles}.
Context (alloc random : Z -> list Z) (rx tx : np_dhkey_t) (conf_of : np_dhkey_t -> option np_msgproperty_conf_t).
Context (network_of : key_ptr -> option (list Z * list Z)) (flt_bits : Q -> Z).

Lemma from_token_marks new_node token t n : _np_node_from_token new_node token t = Ok (Some n) -> marks n = marks new_node.
Proof.
  unfold _np_node_from_token. intros E. destruct (negb _); [done|]. destruct (__get_node_details_from_string _) as [d|]; [|done].
  destruct (FLAG_CMP _ _); [done|]. do 3 step E. by injection E as <-.
Qed.

(** A key that gets its node from a token: a new one, or the one of the alias. *)
Lemma passive_keeps find_key new_at w p k target n w' k' l : routed w -> ~ is_peer w p -> w_keys w !! p = Some k -> unreferenced w new_at ->
  marks n = (false, false) -> (forall l, e_node k = Some l -> unclaimed w l) ->
  (forall a ak l, find_key target = Some a -> w_keys w !! a = Some ak -> e_node ak = Some l -> unclaimed w l) ->
  forall k0, e_node k0 = e_node k -> node_of_passive find_key new_at w k0 target n = Ok (w', k', l) ->
  routed w' /\ ~ is_peer w' p /\ w_keys w' = w_keys w /\ unclaimed w' l /\ (forall l, e_node k' = Some l -> unclaimed w' l) /\ pk_dhkey k' = pk_dhkey k0.
Proof.
  intros R Hp Hk F Hm Hu Ha k0 E0 E.
  assert (Ok (with_node w new_at n, k0, new_at) = Ok (w', k', l) ->
    routed w' /\ ~ is_peer w' p /\ w_keys w' = w_keys w /\ unclaimed w' l /\ (forall l, e_node k' = Some l -> unclaimed w' l) /\ pk_dhkey k' = pk_dhkey k0) as Hnew.
  { intros [= <- <- <-]. split; [by apply new_node_keeps|]. split; [intros (l1 & m & Hq%new_node_peer); [|done]; apply Hp; by exists l1, m|].
    split; [done|]. split; [apply unclaimed_new; auto|]. split; [|done]. intros l1 El. apply unclaimed_new; [done|done|]. left. apply Hu. congruence. }
  unfold node_of_passive in E. destruct (FLAG_CMP _ _); [|by apply Hnew]. destruct (find_key target) as [a|] eqn:Ea; [|by apply Hnew].
  apply bind_Ok_inv in E as (ak & Hak & E). apply get_key_ok in Hak. destruct (e_node ak) as [l1|] eqn:El1; [|by apply Hnew].
  apply bind_Ok_inv in E as (w1 & E1 & E). injection E as <- <- <-. pose proof (upd_node_keys _ _ _ _ E1) as Ek. apply upd_node_quiet in E1; [|done].
  assert (unclaimed w1 l1) as U by (eapply unclaimed_quiet; [done|by eapply Ha]).
  split; [by eapply routed_quiet|]. split; [intros Hq; apply Hp; eapply quiet_is_peer; [symmetry; exact E1|done]|].
  split; [done|]. split; [done|]. split; [|done]. by intros l2 [= <-].
Qed.

Lemma set_keeps find_key new_node new_at w p k target token w' : routed w -> ~ is_peer w p -> w_keys w !! p = Some k -> unreferenced w new_at ->
  marks new_node = (false, false) -> (forall l, e_node k = Some l -> unclaimed w l) ->
  (forall a ak l, find_key target = Some a -> w_keys w !! a = Some ak -> e_node ak = Some l -> unclaimed w l) ->
  __np_node_set find_key new_node new_at w p target token = Ok w' -> routed w'.
Proof.
  intros R Hp Hk F Hm Hu Ha E. unfold __np_node_set in E. rewrite (proj2 (get_key_ok w p k) Hk), bind_ok in E.
  apply bind_Ok_inv in E as (t & Ht & E). set (k1 := if token_type t =? np_aaatoken_type_node then _ else _) in E.
  assert (e_node k1 = e_node k /\ pk_dhkey k1 = pk_dhkey k) as [En1 Eh1] by (unfold k1; by destruct (FLAG_CMP _ _), (_ =? _), (_ =? _)).
  apply bind_Ok_inv in E as (w1 & E1 & E). assert (w_keys w1 = w_keys w) as Ek1.
  { unfold upd_token in E1. apply bind_Ok_inv in E1 as (? & _ & E1). by injection E1 as <-. }
  apply upd_token_quiet in E1. assert (routed w1) as R1 by (by eapply routed_quiet).
  assert (~ is_peer w1 p) as Hp1 by (intros Hq; apply Hp; eapply quiet_is_peer; [symmetry; exact E1|done]).
  assert (forall l, unclaimed w l -> unclaimed w1 l) as Hu1 by (intros l; by apply unclaimed_quiet).
  apply bind_Ok_inv in E as (made & Emade & E). destruct made as [n|].
  2: { injection E as <-. apply (become_keeps w1 p k); [done|by rewrite Ek1|done|done|]. intros l _ El. apply Hu1, Hu. congruence. }
  apply from_token_marks in Emade. apply bind_Ok_inv in E as ([[w2 k2] l] & E2 & E).
  assert (routed w2 /\ ~ is_peer w2 p /\ w_keys w2 = w_keys w1 /\ unclaimed w2 l /\ (forall l, e_node k2 = Some l -> unclaimed w2 l) /\ pk_dhkey k2 = pk_dhkey k1)
    as (R2 & Hp2 & Ek2 & Ul & Uk & Eh2).
  { eapply (passive_keeps find_key new_at w1 p k target n w2 k2 l); [done|done| | | | | |exact En1|exact E2].
    - by rewrite Ek1.
    - intros q kq. rewrite Ek1. apply F.
    - by rewrite Emade.
    - intros l0 El. by apply Hu1, Hu.
    - intros a ak l0 Hfa. rewrite Ek1. intros Hka El. apply Hu1. by eapply Ha. }
  step E. apply bind_Ok_inv in E as (k3 & E3 & E).
  assert (pk_dhkey k3 = pk_dhkey k /\ forall l, e_node k3 = Some l -> unclaimed w2 l) as [Eh3 U3].
  { destruct x; [step E3|]; injection E3 as <-; (split; [cbn; congruence|]); [by intros l0 [= <-]|done]. }
  assert (routed (put_key w2 p k3)) as R3.
  { apply (become_keeps w2 p k); [done|by rewrite Ek2, Ek1|done|done|]. intros l0 _. apply U3. }
  destruct (np_get_connection_string_from _ _ _); [|done]. destruct (find_key (np_dhkey_create_from_hostport _ _ _)) as [wc|]; [|by injection E as <-].
  do 2 step E. destruct (w_nodes (put_key w2 p k3) !! l) as [y|] eqn:Ey; [|done]. injection E as <-.
  eapply routed_quiet; [|exact R3]. split; [done|done|]. intros lx. cbn. destruct (decide (l = lx)) as [<-|Hne].
  - rewrite lookup_insert_eq. cbn in Ey. by rewrite Ey.
  - by rewrite lookup_insert_ne.
Qed.

(** One action for a peer, at any time and with any chance. *)
Inductive action (w w' : world) (p : key_ptr) : Prop :=
| Act_leafset : __np_node_add_to_leafset w p = Ok w' -> action w w' p
| Act_remove_leafset fuel seeds : __np_node_remove_from_routing_leafset fuel seeds w p = Ok w' -> action w w' p
| Act_remove_table fuel seeds : __np_node_remove_from_routing_table fuel seeds referenced w p = Ok w' -> action w w' p
| Act_remove fuel seeds : __np_node_remove_from_routing fuel seeds referenced w p = Ok w' -> action w w' p
| Act_completion now uuid_ evs : __np_node_handle_completion alloc random rx tx now conf_of uuid_ w p = Ok (w', evs) -> action w w' p
| Act_identity now uuid_ evs : __np_node_identity_upgrade alloc random rx tx now conf_of uuid_ w p = Ok (w', evs) -> action w w' p
| Act_upgrade now uuid_ target token evs : __np_node_upgrade alloc random rx tx now conf_of uuid_ w p target token = Ok (w', evs) -> action w w' p
| Act_token now uuid_ token evs : __np_node_update_token alloc random rx tx now conf_of uuid_ w p token = Ok (w', evs) -> action w w' p
| Act_response k now type response sent : w_keys w !! p = Some k ->
    upd_node w k (fun n => set_stats n (__np_node_handle_response now type response sent (stats n))) = Ok w' -> action w w' p
| Act_update fuel seeds now uuid_ evs :
    __np_node_update alloc random rx tx fuel seeds now referenced conf_of uuid_ network_of flt_bits w p = Ok (w', evs) -> action w w' p
| Act_shutdown fuel seeds now uuid_ event_type my_token evs :
    __np_node_send_shutdown alloc random rx tx fuel seeds now referenced conf_of uuid_ w p event_type my_token = Ok (w', evs) -> action w w' p.

(** The life of a peer.  Its key, which stands for no peer yet, is given a node the tables do
    not have: one that somebody told of ([Told]), or the one of a token ([Begins]), which is
    new or the one of the alias the token came through.  It acts.  When it is invalid it says
    farewell and is given up, in one transition ([Farewell]: the action of the transition out
    of [IN_USE_NODE] and its exit action).  A peer may also be given up while it is set up
    ([Given_up]); nothing takes it out of the tables then, so it must not be in them.  The
    other keys, wildcards and aliases, come and go as well. *)
Inductive acts (w w' : world) : Prop :=
| Told p k node : w_keys w !! p = Some k -> e_node k = None -> unclaimed w node -> __np_node_set_node w p node = Ok w' -> acts w w'
| Begins p k find_key new_node new_at target token : ~ is_peer w p -> w_keys w !! p = Some k -> (forall l, e_node k = Some l -> unclaimed w l) ->
    unreferenced w new_at -> marks new_node = (false, false) ->
    (forall a ak l, find_key target = Some a -> w_keys w !! a = Some ak -> e_node ak = Some l -> unclaimed w l) ->
    __np_node_set find_key new_node new_at w p target token = Ok w' -> acts w w'
| Acts p : is_peer w p -> action w w' p -> acts w w'
| Farewell p fuel seeds now uuid_ event_type my_token evs dropped w1 : is_peer w p ->
    __np_node_send_shutdown alloc random rx tx fuel seeds now referenced conf_of uuid_ w p event_type my_token = Ok (w1, evs) ->
    __np_node_destroy w1 p = Ok (w', dropped) -> acts w w'
| Given_up p dropped : is_peer w p -> ~ in_table (w_route w) p -> ~ in_leafset (w_route w) p -> __np_node_destroy w p = Ok (w', dropped) -> acts w w'
| New_node l n : unreferenced w l -> w' = with_node w l n -> acts w w'
| Wildcard p node : ~ is_peer w p -> unclaimed w node -> __np_wildcard_set w p node = Ok w' -> acts w w'
| Alias p node : ~ is_peer w p -> unclaimed w node -> __np_alias_set_node w p node = Ok w' -> acts w w'
| Other_leaves p : ~ is_peer w p ->
    (exists dropped, __np_wildcard_destroy w p = Ok (w', dropped)) \/ __np_alias_shutdown w p = Ok w' \/
    (exists dropped, __np_alias_destroy w p = Ok (w', dropped)) -> acts w w'.

Lemma peer_action_keeps w w' p : routed w -> is_peer w p -> action w w' p -> routed w'.
Proof.
  intros R Hp A. destruct A as [E|? ? E|? ? E|? ? E|? ? ? E|? ? ? E|? ? ? ? ? E|? ? ? ? E|? ? ? ? ? _ E|? ? ? ? ? E|? ? ? ? ? ? ? E].
  - destruct (add_to_leafset_ok w p R Hp) as (w1 & E1 & R1 & _). rewrite E1 in E. by injection E as <-.
  - destruct (remove_leafset_ok fuel seeds w p R Hp) as [(w1 & E1 & R1 & _)|(e & _ & E1)]; rewrite E1 in E; [|done]. by injection E as <-.
  - destruct (remove_table_ok fuel seeds referenced (fun _ => eq_refl) w p R Hp) as [(w1 & E1 & R1 & _)|(e & _ & E1)]; rewrite E1 in E; [|done]. by injection E as <-.
  - by eapply remove_routing_keeps.
  - eapply routed_quiet; [by eapply completion_quiet|done].
  - eapply routed_quiet; [by eapply identity_upgrade_quiet|done].
  - eapply routed_quiet; [by eapply upgrade_quiet|done].
  - eapply routed_quiet; [by eapply update_token_quiet|done].
  - eapply routed_quiet; [by eapply upd_node_quiet; [|exact E]|done].
  - by eapply update_keeps.
  - by eapply shutdown_keeps.
Qed.

Lemma told_keeps w w' p k node : routed w -> w_keys w !! p = Some k -> e_node k = None -> unclaimed w node -> __np_node_set_node w p node = Ok w' -> routed w'.
Proof.
  intros R Hk Hno U E. unfold __np_node_set_node in E. rewrite (proj2 (get_key_ok w p k) Hk), bind_ok in E.
  set (k1 := if FLAG_CMP _ _ then k else _) in E. assert (e_node k1 = None /\ pk_dhkey k1 = pk_dhkey k) as [E1 E2] by (unfold k1; by destruct (FLAG_CMP _ _)).
  rewrite E1 in E. injection E as <-. apply (become_keeps w p k); [done|done| |done|].
  - intros (l & m & k' & Hk' & _ & El & _). rewrite Hk in Hk'. injection Hk' as <-. congruence.
  - by intros l _ [= <-].
Qed.

Lemma acts_keep w w' : routed w -> acts w w' -> routed w'.
Proof.
  intros R [p k node Hk Hno U E|p k find_key n l target token Hp Hk Hu F Hm Ha E|p Hp A|p fuel seeds now uuid_ t my_token evs d w1 Hp E Ed|p d Hp Ht Hl E
    |l n F ->|p node Hp U E|p node Hp U E|p Hp E].
  - by eapply told_keeps.
  - exact (set_keeps find_key n l w p k target token w' R Hp Hk F Hm Hu Ha E).
  - by eapply peer_action_keeps.
  - pose proof (shutdown_peer alloc random rx tx fuel seeds now referenced conf_of uuid_ (fun _ => eq_refl) w p t my_token w1 evs R Hp E) as Hp1.
    apply shutdown_keeps in E as (R1 & Ht & Hl); [|done..]. by eapply destroy_keeps.
  - by eapply destroy_keeps.
  - by apply new_node_keeps.
  - by eapply wildcard_set_keeps.
  - by eapply alias_set_node_keeps.
  - by eapply other_leaves_keeps.
Qed.

(** C13: What a node says about routing is true, after any run of the actions listed in
    [acts].  Peers begin from what others told of them or from a handshake token, with a new
    node or the one of the alias; they join, are removed, updated, upgraded, answered, get
    tokens, and leave with a farewell; wildcards and aliases come and go.  A peer that is
    given up without a farewell, while it is set up, is taken to be in neither table nor
    leafset: the code does not check this, and the last part says that the run stays right
    exactly when it is so.  In all those worlds every entry of the routing table and the
    leafset is a known peer with a node, no key is in the table twice, both keep their order
    and their counts, and the two flags of each node say exactly whether its key is in the
    table and in the leafset.  Joining the leafset always returns, and after a farewell the
    peer is in neither.  The key cache refers to all its keys ([referenced]), and a node that
    a key is given is no other peer's and is not marked yet ([unclaimed]). *)
Theorem routing_flags_follow w w' : routed w -> rtc acts w w' ->
  routed w' /\
  (forall p, is_peer w' p -> exists w2, __np_node_add_to_leafset w' p = Ok w2) /\
  (forall p fuel seeds now uuid_ event_type my_token w2 evs, is_peer w' p ->
     __np_node_send_shutdown alloc random rx tx fuel seeds now referenced conf_of uuid_ w' p event_type my_token = Ok (w2, evs) ->
     ~ in_table (w_route w2) p /\ ~ in_leafset (w_route w2) p) /\
  (forall p w2 dropped, is_peer w' p -> __np_node_destroy w' p = Ok (w2, dropped) ->
     routed w2 <-> ~ in_table (w_route w') p /\ ~ in_leafset (w_route w') p).
Proof.
  intros R Hrun. assert (routed w') as R' by (induction Hrun as [w|w w1 w' A _ IH]; [done|apply IH; by eapply acts_keep]).
  split; [done|]. split; [|split].
  - intros p Hp. destruct (add_to_leafset_ok w' p R' Hp) as (w2 & E & _). by exists w2.
  - intros p fuel seeds now uuid_ event_type my_token w2 evs Hp E.
    destruct (shutdown_keeps alloc random rx tx fuel seeds now referenced conf_of uuid_ (fun _ => eq_refl) w' p event_type my_token w2 evs R' Hp E) as (_ & G1 & G2). done.
  - intros p w2 dropped Hp E. by eapply destroy_exact.
Qed.
End Runs.

(** ** Examples *)

#[local] Existing Instance rfc8949.
#[local] Existing Instance toy_sodium.
#[local] Existing Instance whole_doubles.

Definition peer_key_of (x : Z) (type : Z) (node : option loc) : peer_key := Peer_key (small_id x) type dhkey_zero 0 None None node.
Definition first_world : world :=
  let w := World {[1%positive := peer_key_of 1 np_key_type_interface None; 2%positive := peer_key_of 2 np_key_type_node (Some 1%positive)]}
    {[1%positive := fresh_node]} ∅ (Route 1 [] 0 [] [] 0 dhkey_zero dhkey_zero 0 0 ∅ ∅) (module_or_init (0, 0) None) in
  put_route w (_np_route_init (routing_key w) 2 1).

(** Calls every ten seconds, with a time to live of twenty. *)
Definition three_calls : list (Q * list Z) := [(100%Q, replicate 16 1); (110%Q, replicate 16 2); (121%Q, replicate 16 3)].

Lemma requests_spaced_witness :
  exists n' log kinds, completions fresh_bytes fresh_bytes dhkey_zero dhkey_zero (fun _ => Some (sample_conf 0)) three_calls first_world 2 =
      Ok (with_node first_world 1 n', log) /\
    (forall x, StronglySorted (fun a b => a + 20 < b)%Q (asked_at x fresh_node :: times x log kinds)).
Proof.
  destruct (requests_spaced fresh_bytes fresh_bytes) with (rx := dhkey_zero) (tx := dhkey_zero) (conf_of := fun _ : np_dhkey_t => Some (sample_conf 0))
    (ttl := fun _ : request => 20%Q) (calls := three_calls) (w := first_world) (p := 2%positive) (k := peer_key_of 2 np_key_type_node (Some 1%positive))
    (l := 1%positive) (n := fresh_node) as (n' & log & kinds & E & _ & Hs & _).
  - intros n Hn. apply length_replicate.
  - intros x. exists (sample_conf 0), 5. split; [reflexivity|]. split; [reflexivity|]. vm_compute. reflexivity.
  - intros x. discriminate.
  - repeat constructor.
  - reflexivity.
  - by_decide.
  - reflexivity.
  - reflexivity.
  - by_decide.
  - exists n', log, kinds. split; [exact E|exact Hs].
Defined.

Lemma first_world_routed : routed first_world.
Proof.
  assert (forall p k, w_keys first_world !! p = Some k -> (p = 1%positive /\ k = peer_key_of 1 np_key_type_interface None) \/
    (p = 2%positive /\ k = peer_key_of 2 np_key_type_node (Some 1%positive))) as Hkeys.
  { intros p k Hp. cbn in Hp. apply lookup_insert_Some in Hp as [[<- <-]|[_ Hp]]; [by left|]. apply lookup_singleton_Some in Hp as [<- <-]. by right. }
  assert (forall p l n, peer first_world p l n -> p = 2%positive /\ n = fresh_node) as Hpeer.
  { intros p l n (k & Hk & Ht & El & En). destruct (Hkeys p k Hk) as [[-> ->]|[-> ->]]; [done|]. split; [done|]. injection El as <-.
    change (w_nodes first_world) with ({[1%positive := fresh_node]} : gmap loc np_node_t) in En. rewrite lookup_singleton_eq in En. by injection En. }
  assert (keys_good first_world) as G.
  { split.
    - intros p k Hp. destruct (Hkeys p k Hp) as [[_ ->]|[_ ->]]; by_decide.
    - intros p q kp kq Hp Hq E. destruct (Hkeys p kp Hp) as [[-> ->]|[-> ->]], (Hkeys q kq Hq) as [[-> ->]|[-> ->]]; done.
    - intros p q l n m Hp Hq. by destruct (Hpeer _ _ _ Hp) as [-> _], (Hpeer _ _ _ Hq) as [-> _]. }
  assert (forall p, ~ in_table (w_route first_world) p) as Hno.
  { intros p [i Hi]%list_elem_of_lookup_1. by apply lookup_replicate in Hi as [? _]. }
  assert (forall p, ~ in_leafset (w_route first_world) p) as Hnl by (by intros p Hp%elem_of_nil).
  split; [done| | | | |].
  - apply init_table_wf.
  - intros i j p Hi _. by apply lookup_replicate in Hi as [? _].
  - split; try constructor; try done; by vm_compute.
  - intros p [Hp|Hp]; [by destruct (Hno p)|by destruct (Hnl p)].
  - intros p l n Hp. destruct (Hpeer _ _ _ Hp) as [-> ->]. cbn [fresh_node is_in_routing_table is_in_leafset].
    split; (split; [done|]); intros Hin; [by destruct (Hno _ Hin)|by destruct (Hnl _ Hin)].
Qed.

Lemma peer_of_first_world : is_peer first_world 2.
Proof. exists 1%positive, fresh_node, (peer_key_of 2 np_key_type_node (Some 1%positive)). done. Qed.

Definition second_world : world := match __np_node_add_to_leafset first_world 2 with Ok w => w | Err _ => first_world end.

Lemma peer_of_second_world : is_peer second_world 2.
Proof. eexists 1%positive, _, _. vm_compute. done. Qed.

(** Giving up the key of a listed peer leaves it listed, while it is no peer any more. *)
Lemma given_up_stays_listed : exists w2 dropped, __np_node_destroy second_world 2 = Ok (w2, dropped) /\ in_leafset (w_route w2) 2 /\ ~ is_peer w2 2.
Proof.
  destruct (__np_node_destroy second_world 2) as [[w2 dropped]|e] eqn:E; [|by vm_compute in E]. exists w2, dropped. split; [done|].
  vm_compute in E. injection E as <- _. split; [by vm_compute; left|]. intros (l & n & k & Hk & Ht & _). vm_compute in Hk. injection Hk as <-. by vm_compute in Ht.
Qed.

(** The peer joins the leafset; if its key were given up now, it would stay there. *)
Lemma routing_flags_follow_witness : routed second_world /\ in_leafset (w_route second_world) 2 /\
  (forall w2 dropped, __np_node_destroy second_world 2 = Ok (w2, dropped) -> ~ routed w2).
Proof.
  destruct (routing_flags_follow fresh_bytes fresh_bytes dhkey_zero dhkey_zero (fun _ => None) (fun _ => None) (fun _ => 0)
    first_world second_world first_world_routed) as (R & _ & _ & Hd).
  - apply rtc_once. apply (Acts _ _ _ _ _ _ _ _ _ 2%positive); [exact peer_of_first_world|]. apply Act_leafset.
    destruct (add_to_leafset_ok first_world 2 first_world_routed peer_of_first_world) as (w' & E & _). unfold second_world. rewrite E. reflexivity.
  - assert (in_leafset (w_route second_world) 2) as Hl by (vm_compute; left).
    split; [exact R|]. split; [exact Hl|]. intros w2 dropped E R2. apply (Hd 2%positive w2 dropped) in E; [|exact peer_of_second_world].
    apply E in R2. exact (proj2 R2 Hl).
Defined.
